(* ===== verification/_CoqProject ===== *)
-Q . S2P
Prelude.v
CString.v
Mmu.v
Kalloc.v
Vm.v
Demo.v
Uvm.v
Vmspace.v
VmTheorems.v
Kernel.v
Shm.v
ShmGet.v
ShmAttach.v
ShmTheorems.v
Proc.v
ShmDetach.v
Sched.v
ProcSpec.v
ProcTheorems.v
Spinlock.v
Sleeplock.v
Bytes.v
Dlist.v
Bio.v
Log.v
LogSpec.v
LogTheorems.v
Path.v
Fs.v
FsBlock.v
FsFile.v
FsWrite.v
FsPid.v
FsDir.v
Pipe.v
File.v
FsTheorems.v
FsBoot.v
Args.v
Sysproc.v
Sysfile.v
Exec.v
ExecSpace.v
ExecImage.v
ExecStack.v
ExecTheorems.v
ExecRun.v
Trap.v
Ulib.v
Numeral.v
Printf.v
Grep.v
Umalloc.v
UmallocTheorems.v
Sh.v
ShSpec.v
ShTheorems.v
ShRun.v
Screen.v
Console.v
Kbd.v
Ide.v
Mkfs.v
MkfsTheorems.v
MkfsBoot.v
Mp.v
Apic.v
Bootmain.v
Descr.v
Entry.v
TestShared.v
Utils.v
