(* ===== verification/Prelude.v ===== *)
(** * A verification of xv6 with System V shared memory

    The repository is the teaching kernel xv6 for 32-bit x86, extended with
    shared memory: the system calls shmget, shmat, shmdt and shmctl (src/vm.c)
    on a table of regions, and the changes this needs in processes, exec and
    traps.  This library translates the kernel's C functions into Rocq
    functions on explicit states, and proves what makes them correct.

    ** How C is read

    A function of the kernel is a computation of the monad [M S A] on the state
    [S] of its component: it returns a value and a new state, panics with its
    message, or does something that C leaves undefined ([Fault]: an index out of
    an array, a null pointer, an access without a mapping).  A component that
    calls another runs it on a part of its own state ([zoom]).  Machine integers
    are elements of [Z] wrapped to their width by [u32] and [s32]; memory is a
    map from addresses to bytes, and page tables, free lists and the disk's
    structures are read out of bytes, as in the code.  Loops over a list or a
    range are [mfor]; other loops are fixpoints with a bound on the number of
    turns, computed from the data the loop runs over (the length of a path, the
    number of blocks a transfer touches, the size of a string's address range),
    and [NoFuel] marks a bound that was too small.  The same result marks, in a
    sequential run, a call that would wait for another process (a full pipe, a
    locked buffer, a full log): what happens then is the subject of the step
    relations below.

    ** The files

    - Prelude.v: the monad, weakest preconditions [wpx] (with panics), [wp]
      (no panic) and [pwp] (only if it returns), tactics, lemmas on lists and integers.
    - CString.v (src/string.c), Mmu.v (src/mmu.h, src/memlayout.h), Kalloc.v
      (src/kalloc.c): memory and the page allocator.
    - Vm.v, Uvm.v, Vmspace.v, VmTheorems.v (first part of src/vm.c): page tables
      and address spaces; Demo.v has the concrete machine of the witnesses.
    - Kernel.v (src/proc.h and the state of the kernel); Shm.v, ShmGet.v,
      ShmAttach.v, ShmTheorems.v (second part of src/vm.c): shared memory.  The
      invariant of the table ([shm_state]) says nothing of the reference counts,
      which the code does not keep exact; [segs_inv] relates the segments of a
      process to the table and to its page table.
    - Proc.v, Sched.v, ProcSpec.v, ProcTheorems.v (src/proc.c): processes, with
      the scheduler as a step relation of several processors.  The process code
      uses the file system through the class [FileOps], with the laws
      [FileLaws].  ShmDetach.v: the loop of exec and exit that detaches every
      segment.
    - Spinlock.v (src/spinlock.c) and Sleeplock.v (src/sleeplock.c): locks, as
      step relations of processors and of processes.
    - Bytes.v, Dlist.v: arrays of bytes, circular doubly linked lists.
    - Bio.v (src/bio.c, src/memide.c): the buffer cache on a disk that records
      its writes; Log.v, LogSpec.v, LogTheorems.v (src/log.c): the log.
    - Path.v, Fs.v (src/fs.c): names and paths, blocks, inodes, directories;
      FsBlock.v, FsFile.v, FsWrite.v, FsTheorems.v: the invariants of the bitmap
      and of the blocks of files, and the theorems on them; FsPid.v, FsDir.v,
      FsBoot.v: the inode cache, directories and path names, and the file system
      as the first process finds it.
    - Pipe.v (src/pipe.c), File.v (src/file.c): pipes and open files; File.v
      implements [FileOps] and proves [FileLaws].
    - Args.v (src/syscall.c), Sysproc.v (src/sysproc.c), Sysfile.v
      (src/sysfile.c), Exec.v (src/exec.c), Trap.v (src/syscall.c, src/trap.c):
      system calls and traps.  ExecSpace.v, ExecImage.v, ExecStack.v: the bytes
      of an address space while exec builds it, from the segments of an ELF file
      and from the arguments; ExecTheorems.v, ExecRun.v: exec as a whole.
    - Ulib.v (src/ulib.c), Numeral.v and Printf.v (src/printf.c), Umalloc.v
      and UmallocTheorems.v (src/umalloc.c): the user library, on the memory of
      a program; Grep.v (src/grep.c); Utils.v (src/cat.c, src/wc.c, src/echo.c,
      src/kill.c, src/rm.c, src/mkdir.c, src/ln.c, src/ls.c).
    - Sh.v, ShSpec.v, ShTheorems.v (the parser of src/sh.c) and ShRun.v
      (runcmd and main): the shell.  The parser works on the line in place and
      on nodes in memory; its grammar is an inductive relation.  A running
      command is the tree of the system calls it makes.
    - Screen.v (the output half of src/console.c, and uartputc of src/uart.c),
      Console.v (its input half, read and write), Kbd.v (src/kbd.c, src/kbd.h
      and the input of src/uart.c): the console.  Its hardware is the memory of
      the screen with the cursor's registers, and scan codes that arrive; Screen.v
      shares the printing of numbers with Printf.v through Numeral.v.
    - Ide.v (src/ide.c): the disk driver against a drive that is a class [Ata]
      with the documented behaviour [AtaSpec], as a step relation of processes,
      drive and interrupts.  A transfer may end in an error of the drive.
    - Mkfs.v, MkfsTheorems.v (src/mkfs.c): the tool that makes the disk image,
      with the file system's own invariants of FsFile.v as its specification;
      MkfsBoot.v: the kernel of FsBoot.v on such an image.
    - Mp.v (src/mp.c, src/mp.h), Apic.v (src/lapic.c, src/ioapic.c,
      src/picirq.c): the tables of processors, interrupt controllers and the
      clock chip.  The controllers are sequences of register accesses against a
      device that is a function of the accesses so far.
    - Bootmain.v (src/bootmain.c): the boot loader, on the drive of Ide.v polled,
      whose reads succeed ([AtaHealthy]: the loader does not look for errors).
    - Descr.v (src/mmu.h, seginit, switchkvm and switchuvm of src/vm.c, tvinit
      of src/trap.c): segment descriptors and gates, with the processor's reading
      of them.
    - Entry.v (src/trapasm.S, src/vectors.pl, src/swtch.S, src/usys.S,
      src/initcode.S): the assembly as instruction lists on x86 registers.
    - TestShared.v (src/testShared.c): the test program of shared memory as a
      process of the kernel model.

    ** What the theorems show

    - Memory: the allocator is a stack of pages; mapping, growing, shrinking,
      copying and freeing address spaces do what they say or undo everything.
    - Shared memory: shmget keeps the table's invariant, creates and finds
      regions; shmat attaches at the first address that fits; shmdt detaches
      exactly one segment and keeps the data; they are inverse; IPC_RMID
      removes.  The first test of testShared.c passes in every state with memory
      to spare, and all of them (but forkTest) pass on a concrete machine.
    - Processes: fork copies and shares, wait reaps, growproc resizes; in every
      interleaving RUNNING processes are those on a CPU, pids are distinct and
      no wakeup of wait is lost; sleep(n) ends after n ticks, or with -1 after a
      kill, for any sequence of ticks, kills and turns of the process.
    - Locks: mutual exclusion for both kinds, no lost wakeup of sleep locks.
    - Disk: the cache refines a list of blocks with locks; a commit of the log
      is atomic over any crashes, also during recovery, and end_op commits.
    - Files: pipes are queues, reference counts of open files are exact, paths
      are taken apart as their elements.
    - exec: the process gets the image of the program that the path names, with
      its arguments on the stack, the old memory is free and the old segments are
      detached; or the call fails, for want of a file, a valid program, memory
      or room on the stack, with everything as it was.
    - File contents: writei changes exactly the bytes written and logs at most
      what an operation may, readi reads them back; balloc and bfree keep the
      bitmap; namei finds what a path names and keeps one reference to it.
    - User code: malloc and free hand out disjoint blocks under any use with
      requests below 2^31 bytes, and malloc fails only when no free block is
      large enough and the kernel refuses; the shell's parser decides its grammar and runcmd connects the programs as
      the command says; grep's matcher decides its patterns; printf prints what
      its format means; wc counts, cat copies and reports a failed write, echo
      prints its arguments.
    - Devices: the IDE driver serves requests in order and completes them, and
      takes a transfer that failed for a finished one; the
      console's ring is a line discipline, its screen the end of an endless
      terminal, and what is typed is what is read; the keyboard driver stays in
      its tables.
    - The image: what mkfs writes is a well-formed file system with the files
      given, or it stops for a named reason; the kernel boots from it and reads
      the files back under their names.
    - The machine: a system call stub brings the kernel's answer back with every
      other register; a new process starts with the registers fork gave it;
      swtch resumes what it saved; user segments and gates keep user code out of
      the kernel; mpinit reads the processors off the tables; device interrupts
      go where they were enabled; the boot loader leaves memory, at every address,
      as the kernel's program headers say.
    - System calls: pointers from user space that are accepted lie inside the
      process.
    - Defects: theorems about concrete runs or exact conditions show where the
      code does not do what it means to (shmdt of a removed region, shmid 64,
      overlapping shmat, shmat out of memory, shmat with every slot taken, shmget
      out of memory, kill(0), the log's reservation, page faults of processes
      called testShared).

    ** Where the step relations are coarser than the code

    The steps of Sched.v are the critical sections under ptable.lock; fork and
    exit, which also work outside it, are one step each, so interleavings inside
    them are not covered.  [begin_op] of Log.v is its last turn: a call that
    would sleep is [NoFuel].  In Pipe.v the conditions under which piperead and
    pipewrite sleep are guards of the step relation.  [launch] of ShRun.v is
    what a command starts when its calls of fork, exec, pipe and dup succeed.  The
    interrupt nesting (pushcli and popcli) is in Spinlock.v only; switchuvm of
    Descr.v omits it.

    ** Not modelled

    The start of the machine: src/bootasm.S, src/entry.S and src/entryother.S
    switch processor modes, which the registers of Entry.v do not have, and
    src/main.c orders the initialisations and starts the other processors; the
    initialisation of the console and the serial port.  Of the user programs
    src/init.c and src/zombie.c, the argument loops of grep and sh, forkTest of
    src/testShared.c and the stress tests (src/usertests.c, src/forktest.c,
    src/stressfs.c), which are inputs of the kernel rather than parts of it.  In
    the kernel mycpu and cpuid (the processor is an index of the model),
    procdump, getcallerpcs and what is printed while something else is done.
    The file system runs on the in-memory disk of src/memide.c; Ide.v is proved
    on its own.  Devices behind [devsw] and the interrupt handlers of devices are
    classes ([DevSw], [IntrOps]).  The addresses of the kernel's image, what the
    firmware put in memory, the drive and the device registers are parameters,
    with the behaviour relied on as hypotheses. *)

From stdpp Require Export base numbers list strings gmap.
From Stdlib Require Export ZArith Lia Bool.

Open Scope Z_scope.

(** ** The kernel monad

    Kernel code runs on a state [S]; it returns, or calls [panic], or does
    something C leaves undefined (an index outside an array, a null
    dereference), which the model reports as [Fault].  [NoFuel] is the result
    of a loop whose bound on its turns was too small, or of a call that waits
    for another process. *)

Inductive res (S A : Type) : Type :=
  | Ret (a : A) (s : S)
  | Panic (msg : string)
  | Fault (why : string)
  | NoFuel.
Arguments Ret {S A} a s.
Arguments Panic {S A} msg.
Arguments Fault {S A} why.
Arguments NoFuel {S A}.

Definition M (S A : Type) : Type := S -> res S A.

Definition ret {S A} (a : A) : M S A := fun s => Ret a s.

Definition bind {S A B} (c : M S A) (k : A -> M S B) : M S B :=
  fun s =>
    match c s with
    | Ret a s' => k a s'
    | Panic m => Panic m
    | Fault w => Fault w
    | NoFuel => NoFuel
    end.

Definition gets {S A} (f : S -> A) : M S A := fun s => Ret (f s) s.

Definition modify {S} (f : S -> S) : M S unit := fun s => Ret tt (f s).

Definition panic {S A} (msg : string) : M S A := fun _ => Panic msg.

Definition fault {S A} (why : string) : M S A := fun _ => Fault why.

Definition nofuel {S A} : M S A := fun _ => NoFuel.

(** Run a computation on a part of a larger state. *)
Definition zoom {S T A} (get : T -> S) (set : S -> T -> T) (c : M S A) : M T A :=
  fun t =>
    match c (get t) with
    | Ret a s => Ret a (set s t)
    | Panic m => Panic m
    | Fault w => Fault w
    | NoFuel => NoFuel
    end.

Declare Scope kernel_scope.
Delimit Scope kernel_scope with kernel.
Open Scope kernel_scope.

Notation "'let!' x := c 'in' k" := (bind c (fun x => k))
  (at level 10, x name, c at level 100, k at level 200,
   format "'[v' 'let!'  x  :=  c  'in' '/' k ']'") : kernel_scope.
Notation "'do!' c 'in' k" := (bind c (fun _ => k))
  (at level 10, c at level 100, k at level 200,
   format "'[v' 'do!'  c  'in' '/' k ']'") : kernel_scope.

(** Run [f] on each element of a list, left to right: a C [for] loop whose
    body has no early exit. *)
Fixpoint mfor {S A} (l : list A) (f : A -> M S unit) : M S unit :=
  match l with
  | [] => ret tt
  | x :: l' => do! f x in mfor l' f
  end.

(** The counter values of [for(i = lo; i < lo + n; i++)]. *)
Fixpoint zrange (lo : Z) (n : nat) : list Z :=
  match n with
  | O => []
  | S n' => lo :: zrange (lo + 1) n'
  end.

(** ** Spin locks, seen from the CPU that runs the code

    A component that is protected by a spin lock keeps one flag for it: this
    CPU holds the lock, or not.  [acquire] on a lock the CPU already holds and
    [release] of one it does not hold panic, as src/spinlock.c does. *)

Definition lock_acquire {S} (held : S -> bool) (set : bool -> S -> S) : M S unit :=
  fun s => if held s then Panic "acquire" else Ret tt (set true s).

Definition lock_release {S} (held : S -> bool) (set : bool -> S -> S) : M S unit :=
  fun s => if held s then Ret tt (set false s) else Panic "release".

(** ** Weakest preconditions

    [wpx c Q E s]: from [s], the computation [c] returns in a state where [Q]
    holds, or panics with a message [E] allows.  It never faults and never
    runs out of fuel.  [wp] allows no panic. *)
Definition wpx {S A} (c : M S A) (Q : A -> S -> Prop) (E : string -> Prop) (s : S) : Prop :=
  match c s with
  | Ret a s' => Q a s'
  | Panic m => E m
  | Fault _ => False
  | NoFuel => False
  end.

Definition never (_ : string) : Prop := False.

Abbreviation wp c Q := (wpx c Q never).

(** [pwp c Q s]: if [c] returns from [s], then in a state where [Q] holds. *)
Definition pwp {S A} (c : M S A) (Q : A -> S -> Prop) (s : S) : Prop :=
  forall a s', c s = Ret a s' -> Q a s'.

(** The state a run ends in. *)
Definition after {S A} (c : M S A) (s : S) : S :=
  match c s with Ret _ s' => s' | _ => s end.

(** The value of a run. *)
Definition result {S A} (c : M S A) (s : S) : option A :=
  match c s with Ret a _ => Some a | _ => None end.

(** ** Machine integers *)

Definition u32 (x : Z) : Z := x mod 4294967296.

(** The C [int] with the same 32 bits. *)
Definition s32 (x : Z) : Z := (x + 2147483648) mod 4294967296 - 2147483648.

Definition is_u32 (x : Z) : Prop := 0 <= x < 4294967296.

(** C truth value of an integer expression. *)
Definition nz (x : Z) : bool := negb (x =? 0).

(** * Lemmas *)

(** ** Weakest precondition rules *)

Lemma wpx_ret {S A} (a : A) (Q : A -> S -> Prop) E (s : S) :
  Q a s -> wpx (ret a) Q E s.
Proof. done. Qed.

Lemma wpx_bind {S A B} (c : M S A) (k : A -> M S B) Q E (s : S) :
  wpx c (fun a s' => wpx (k a) Q E s') E s -> wpx (bind c k) Q E s.
Proof. unfold wpx, bind. destruct (c s); done. Qed.

Lemma wpx_mono {S A} (c : M S A) (Q Q' : A -> S -> Prop) (E E' : string -> Prop) (s : S) :
  wpx c Q E s ->
  (forall a s', Q a s' -> Q' a s') -> (forall m, E m -> E' m) ->
  wpx c Q' E' s.
Proof. unfold wpx. intros H HQ HE. destruct (c s); auto. Qed.

(** Two computations that do the same from [s]. *)
Lemma wpx_ext {S A} (c c' : M S A) (Q : A -> S -> Prop) E (s : S) :
  c s = c' s -> wpx c' Q E s -> wpx c Q E s.
Proof. unfold wpx. by intros ->. Qed.

Lemma wpx_gets {S A} (f : S -> A) (Q : A -> S -> Prop) E (s : S) :
  Q (f s) s -> wpx (gets f) Q E s.
Proof. done. Qed.

Lemma wpx_modify {S} (f : S -> S) (Q : unit -> S -> Prop) E (s : S) :
  Q tt (f s) -> wpx (modify f) Q E s.
Proof. done. Qed.

Lemma wpx_panic {S A} (msg : string) (Q : A -> S -> Prop) (E : string -> Prop) (s : S) :
  E msg -> wpx (panic msg) Q E s.
Proof. done. Qed.

Lemma wpx_acquire {S} (held : S -> bool) set (Q : unit -> S -> Prop) E (s : S) :
  held s = false -> Q tt (set true s) -> wpx (lock_acquire held set) Q E s.
Proof. intros Hh HQ. unfold wpx, lock_acquire. by rewrite Hh. Qed.

Lemma wpx_release {S} (held : S -> bool) set (Q : unit -> S -> Prop) E (s : S) :
  held s = true -> Q tt (set false s) -> wpx (lock_release held set) Q E s.
Proof. intros Hh HQ. unfold wpx, lock_release. by rewrite Hh. Qed.

Lemma wpx_zoom {S T A} (get : T -> S) (set : S -> T -> T) (c : M S A)
    (Q : A -> T -> Prop) E (t : T) :
  wpx c (fun a s => Q a (set s t)) E (get t) -> wpx (zoom get set c) Q E t.
Proof. unfold wpx, zoom. destruct (c (get t)); done. Qed.

(** From a triple to the run it describes. *)
Lemma wp_run {S A} (c : M S A) (Q : A -> S -> Prop) (s : S) :
  wp c Q s -> exists a s', c s = Ret a s' /\ Q a s'.
Proof. unfold wpx. destruct (c s); [by eauto | done..]. Qed.

Lemma wpx_ret_inv {S A} (c : M S A) (Q : A -> S -> Prop) E (s : S) a s' :
  wpx c Q E s -> c s = Ret a s' -> Q a s'.
Proof. unfold wpx. intros H Heq. by rewrite Heq in H. Qed.

Lemma wpx_result {S A} (c : M S A) (Q : A -> S -> Prop) E (s : S) a :
  wpx c Q E s -> result c s = Some a -> exists s', c s = Ret a s' /\ Q a s'.
Proof. unfold wpx, result. destruct (c s); try done. intros HQ [= ->]. eauto. Qed.

Lemma result_after {S A} (c : M S A) (s : S) a : result c s = Some a -> c s = Ret a (after c s).
Proof. unfold result, after. destruct (c s); try done. by intros [= ->]. Qed.

(** ** Partial correctness *)

Lemma pwp_ret {S A} (a : A) (Q : A -> S -> Prop) (s : S) : Q a s -> pwp (ret a) Q s.
Proof. by intros HQ a' s' [= <- <-]. Qed.

Lemma pwp_bind {S A B} (c : M S A) (k : A -> M S B) (Q : B -> S -> Prop) (s : S) :
  pwp c (fun a s' => pwp (k a) Q s') s -> pwp (bind c k) Q s.
Proof. unfold pwp, bind. intros H b s' Hb. destruct (c s) eqn:Hc; try done. by eapply H. Qed.

Lemma pwp_run {S A} (c : M S A) (Q : A -> S -> Prop) (s : S) a s' : c s = Ret a s' -> pwp c Q s -> Q a s'.
Proof. intros Hr HQ. by apply HQ. Qed.

Lemma pwp_mono {S A} (c : M S A) (Q Q' : A -> S -> Prop) (s : S) :
  pwp c Q s -> (forall a s', Q a s' -> Q' a s') -> pwp c Q' s.
Proof. intros H HQ a s' Hc. by apply HQ, H. Qed.

Lemma pwp_gets {S A} (f : S -> A) (Q : A -> S -> Prop) (s : S) : Q (f s) s -> pwp (gets f) Q s.
Proof. by intros HQ a s' [= <- <-]. Qed.

Lemma pwp_modify {S} (f : S -> S) (Q : unit -> S -> Prop) (s : S) : Q tt (f s) -> pwp (modify f) Q s.
Proof. by intros HQ a s' [= <- <-]. Qed.

Lemma pwp_panic {S A} m (Q : A -> S -> Prop) (s : S) : pwp (panic m) Q s.
Proof. done. Qed.

Lemma pwp_fault {S A} m (Q : A -> S -> Prop) (s : S) : pwp (fault m) Q s.
Proof. done. Qed.

Lemma pwp_nofuel {S A} (Q : A -> S -> Prop) (s : S) : pwp nofuel Q s.
Proof. done. Qed.

Lemma pwp_acquire {S} (held : S -> bool) set (Q : unit -> S -> Prop) (s : S) :
  (held s = false -> Q tt (set true s)) -> pwp (lock_acquire held set) Q s.
Proof. unfold pwp, lock_acquire. intros HQ a s' H. destruct (held s); [done|]. injection H as <- <-. auto. Qed.

Lemma pwp_release {S} (held : S -> bool) set (Q : unit -> S -> Prop) (s : S) :
  (held s = true -> Q tt (set false s)) -> pwp (lock_release held set) Q s.
Proof. unfold pwp, lock_release. intros HQ a s' H. destruct (held s); [|done]. injection H as <- <-. auto. Qed.

Lemma pwp_mfor {S A} (f : A -> M S unit) (I : list A -> S -> Prop) :
  (forall x l s, I (x :: l) s -> pwp (f x) (fun _ s' => I l s') s) ->
  forall l s, I l s -> pwp (mfor l f) (fun _ s' => I [] s') s.
Proof.
  intros Hstep l. induction l as [|x l IH]; intros s HI; [by apply pwp_ret|].
  simpl. apply pwp_bind. eapply pwp_mono; [by apply Hstep|]. intros [] s'. apply IH.
Qed.

Lemma wp_after {S A} (c : M S A) (Q : A -> S -> Prop) (s : S) :
  wp c Q s -> exists a, Q a (after c s).
Proof. unfold wpx, after. destruct (c s); [by eauto | done..]. Qed.

(** Loop rule for [mfor]: an invariant indexed by the elements still to run. *)
Lemma wpx_mfor {S A} (f : A -> M S unit) (I : list A -> S -> Prop) E :
  (forall x l s, I (x :: l) s -> wpx (f x) (fun _ s' => I l s') E s) ->
  forall l s, I l s -> wpx (mfor l f) (fun _ s' => I [] s') E s.
Proof.
  intros Hstep l. induction l as [|x l IH]; intros s HI; [done|].
  simpl. apply wpx_bind. eapply wpx_mono; [by apply Hstep| |done].
  intros [] s'. apply IH.
Qed.

(** The same for a counting loop: [I i] holds when the counter is [i]. *)
Lemma wpx_zrange {S} (f : Z -> M S unit) (I : Z -> S -> Prop) E : forall n lo,
  (forall i s, lo <= i < lo + Z.of_nat n -> I i s -> wpx (f i) (fun _ s' => I (i + 1) s') E s) ->
  forall s, I lo s -> wpx (mfor (zrange lo n) f) (fun _ s' => I (lo + Z.of_nat n) s') E s.
Proof.
  induction n as [|n IH]; intros lo Hstep s HI.
  - simpl. apply wpx_ret. by rewrite Z.add_0_r.
  - cbn [zrange mfor]. apply wpx_bind. eapply wpx_mono; [apply Hstep; [lia|done]| |done].
    intros [] s' HI'. replace (lo + Z.of_nat (Datatypes.S n)) with (lo + 1 + Z.of_nat n) by lia.
    apply IH; [|done]. intros i t Hi. apply Hstep. lia.
Qed.

(** State accessors and updates that are [gets] and [modify] under a name. *)
Create HintDb wp.

Ltac wp_step :=
  lazymatch goal with
  | |- wpx (bind _ _) _ _ _ => apply wpx_bind
  | |- wpx (ret _) _ _ _ => apply wpx_ret
  | |- wpx (gets _) _ _ _ => apply wpx_gets
  | |- wpx (modify _) _ _ _ => apply wpx_modify
  | |- wpx (zoom _ _ _) _ _ _ => apply wpx_zoom
  | |- wpx _ _ _ _ => progress autounfold with wp
  end; cbn beta.

Ltac wp_steps := repeat wp_step.

(** Use a proved triple for the head computation. *)
Tactic Notation "wp_use" uconstr(H) := eapply wpx_mono; [apply H | cbn beta | try done].

(** Case analysis on the condition of the [if] at the head of the goal. *)
Ltac case_if E :=
  match goal with
  | |- context [if ?b then _ else _] => destruct b eqn:E
  end.

(** [lia] for goals with division and modulo by constants. *)
Ltac dlia := Z.to_euclidean_division_equations; lia.

(** Case analysis on every integer comparison of the goal. *)
Ltac zcases :=
  repeat match goal with
  | |- context [?a <=? ?b] => destruct (Z.leb_spec a b); try lia
  | |- context [?a <? ?b] => destruct (Z.ltb_spec a b); try lia
  | |- context [?a =? ?b] => destruct (Z.eqb_spec a b); try lia
  end; cbn [andb orb negb].

(** ** Integer lemmas *)

Lemma u32_small x : is_u32 x -> u32 x = x.
Proof. unfold u32, is_u32. intros. apply Z.mod_small. lia. Qed.

Lemma u32_range x : is_u32 (u32 x).
Proof. unfold u32, is_u32. apply Z.mod_pos_bound. lia. Qed.

Lemma u32_u32 x : u32 (u32 x) = u32 x.
Proof. unfold u32. apply Z.mod_mod. lia. Qed.

Lemma s32_small x : -2147483648 <= x < 2147483648 -> s32 x = x.
Proof. intros. unfold s32. rewrite Z.mod_small; lia. Qed.

Lemma s32_range x : -2147483648 <= s32 x < 2147483648.
Proof. unfold s32. pose proof (Z.mod_pos_bound (x + 2147483648) 4294967296). lia. Qed.

Lemma u32_s32 x : u32 (s32 x) = u32 x.
Proof.
  unfold u32, s32. rewrite Zminus_mod_idemp_l.
  f_equal. lia.
Qed.

Lemma nz_true x : nz x = true <-> x <> 0.
Proof. unfold nz. rewrite negb_true_iff, Z.eqb_neq. done. Qed.

Lemma nz_false x : nz x = false <-> x = 0.
Proof. unfold nz. rewrite negb_false_iff, Z.eqb_eq. done. Qed.

(** Bits of the sum of a multiple of [2^k] and a smaller number. *)
Lemma lor_low_high k x f :
  0 <= k -> x mod 2 ^ k = 0 -> 0 <= f < 2 ^ k -> Z.lor x f = x + f.
Proof.
  intros Hk Hx Hf.
  assert (Z.land x f = 0) as Hdis.
  { apply Z.bits_inj'. intros n Hn. rewrite Z.land_spec, Z.bits_0.
    destruct (Z.lt_ge_cases n k).
    - rewrite <- (Z.mod_pow2_bits_low x k n), Hx, Z.bits_0 by lia. done.
    - replace f with (f mod 2 ^ k) by (apply Z.mod_small; lia).
      rewrite Z.mod_pow2_bits_high, andb_false_r by lia. done. }
  rewrite <- Z.lxor_lor by done. symmetry. by apply Z.add_nocarry_lxor.
Qed.

(** Masking off the low [k] bits of a 32-bit word. *)
Lemma land_high_mask k x :
  0 <= k <= 32 -> is_u32 x -> Z.land x (4294967296 - 2 ^ k) = x - x mod 2 ^ k.
Proof.
  intros Hk Hx. unfold is_u32 in Hx.
  assert (0 < 2 ^ k) by (apply Z.pow_pos_nonneg; lia).
  replace (4294967296 - 2 ^ k) with (Z.shiftl (Z.ones (32 - k)) k).
  2:{ rewrite Z.shiftl_mul_pow2, Z.ones_equiv by lia.
      unfold Z.pred. rewrite Z.mul_add_distr_r, <- Z.pow_add_r by lia.
      replace (32 - k + k) with 32 by lia. lia. }
  replace (x - x mod 2 ^ k) with (Z.shiftl (Z.shiftr x k) k).
  2:{ rewrite Z.shiftl_mul_pow2, Z.shiftr_div_pow2 by lia.
      pose proof (Z.div_mod x (2 ^ k)). lia. }
  apply Z.bits_inj'. intros n Hn.
  rewrite Z.land_spec, !Z.shiftl_spec by lia.
  destruct (Z.lt_ge_cases n k).
  { rewrite !(Z.testbit_neg_r _ (n - k)), andb_false_r by lia. done. }
  rewrite Z.shiftr_spec by lia. replace (n - k + k) with n by lia.
  destruct (Z.lt_ge_cases n 32).
  - rewrite Z.ones_spec_low, andb_true_r by lia. done.
  - rewrite Z.ones_spec_high, andb_false_r by lia.
    replace x with (x mod 2 ^ 32) by (apply Z.mod_small; lia).
    rewrite Z.mod_pow2_bits_high; [done|lia].
Qed.

(** ** List lemmas *)

Lemma length_zrange lo n : length (zrange lo n) = n.
Proof. revert lo. induction n; intros; simpl; auto. Qed.

Lemma lookup_zrange lo n i : (i < n)%nat -> zrange lo n !! i = Some (lo + Z.of_nat i).
Proof.
  revert lo i. induction n as [|n IH]; intros lo [|i] Hi; simpl; try lia.
  - f_equal. lia.
  - rewrite IH by lia. f_equal. lia.
Qed.

Lemma elem_of_zrange lo n x : x ∈ zrange lo n <-> lo <= x < lo + Z.of_nat n.
Proof.
  revert lo. induction n as [|n IH]; intros lo; simpl.
  - rewrite elem_of_nil. lia.
  - rewrite elem_of_cons, IH. lia.
Qed.

Lemma NoDup_zrange lo n : NoDup (zrange lo n).
Proof.
  revert lo. induction n as [|n IH]; intros lo; [constructor|]. cbn [zrange]. constructor; [|apply IH].
  rewrite elem_of_zrange. lia.
Qed.
