(* ===== verification/CString.v ===== *)
(** * Memory and string.c

    Memory is a finite map from addresses to bytes; an address that was never
    written reads as 0.  Kernel addresses are used as they are, so a page
    that [kalloc] returned is read and written at its kernel virtual
    address.  32-bit words are little endian, as on the x86.

    The functions of src/string.c follow, each as a function from memory to
    memory with the loops of the source.  A loop whose count is given ([n] of
    [memset], [memmove], ...) recurses on that count; [strlen], whose length
    depends on the memory, takes fuel and answers [None] without enough. *)

From S2P Require Import Prelude.

Open Scope Z_scope.

Abbreviation memory := (gmap Z Z).

(** One byte. *)
Definition ld8 (m : memory) (a : Z) : Z := default 0 (m !! a) mod 256.

Definition st8 (m : memory) (a v : Z) : memory := <[a := v mod 256]> m.

(** One 32-bit little-endian word. *)
Definition ld32 (m : memory) (a : Z) : Z :=
  ld8 m a + 256 * ld8 m (a + 1) + 65536 * ld8 m (a + 2) + 16777216 * ld8 m (a + 3).

Definition st32 (m : memory) (a v : Z) : memory :=
  st8 (st8 (st8 (st8 m a v) (a + 1) (v / 256)) (a + 2) (v / 65536)) (a + 3) (v / 16777216).

(** A run of bytes, as a list. *)
Fixpoint ldbytes (m : memory) (a : Z) (n : nat) : list Z :=
  match n with
  | O => []
  | S n' => ld8 m a :: ldbytes m (a + 1) n'
  end.

(** Bytes stored in memory from an address on. *)
Fixpoint stbytes (m : memory) (a : Z) (l : list Z) : memory :=
  match l with
  | [] => m
  | c :: l' => stbytes (st8 m a c) (a + 1) l'
  end.

(** [rep stosb] and [rep stosl]. *)
Fixpoint stosb (m : memory) (a v : Z) (n : nat) : memory :=
  match n with
  | O => m
  | S n' => stosb (st8 m a v) (a + 1) v n'
  end.

Fixpoint stosl (m : memory) (a v : Z) (n : nat) : memory :=
  match n with
  | O => m
  | S n' => stosl (st32 m a v) (a + 4) v n'
  end.

Definition memset (m : memory) (dst c n : Z) : memory :=
  if (Z.rem (s32 dst) 4 =? 0) && (n mod 4 =? 0) then
    let c := Z.land c 255 in
    stosl m dst
      (Z.lor (Z.lor (Z.lor (Z.shiftl c 24) (Z.shiftl c 16)) (Z.shiftl c 8)) c)
      (Z.to_nat (n / 4))
  else stosb m dst c (Z.to_nat n).

Fixpoint memcmp_loop (m : memory) (s1 s2 : Z) (n : nat) : Z :=
  match n with
  | O => 0
  | S n' =>
      if negb (ld8 m s1 =? ld8 m s2) then ld8 m s1 - ld8 m s2
      else memcmp_loop m (s1 + 1) (s2 + 1) n'
  end.

Definition memcmp (m : memory) (v1 v2 n : Z) : Z := memcmp_loop m v1 v2 (Z.to_nat n).

(** [while(n-- > 0) *--d = *--s;] *)
Fixpoint copy_down (m : memory) (d s : Z) (n : nat) : memory :=
  match n with
  | O => m
  | S n' => copy_down (st8 m (d - 1) (ld8 m (s - 1))) (d - 1) (s - 1) n'
  end.

(** [while(n-- > 0) *d++ = *s++;] *)
Fixpoint copy_up (m : memory) (d s : Z) (n : nat) : memory :=
  match n with
  | O => m
  | S n' => copy_up (st8 m d (ld8 m s)) (d + 1) (s + 1) n'
  end.

Definition memmove (m : memory) (dst src n : Z) : memory :=
  if (src <? dst) && (dst <? u32 (src + n)) then
    copy_down m (dst + n) (src + n) (Z.to_nat n)
  else copy_up m dst src (Z.to_nat n).

Definition memcpy (m : memory) (dst src n : Z) : memory := memmove m dst src n.

Fixpoint strncmp_loop (m : memory) (p q : Z) (n : nat) : Z :=
  match n with
  | O => 0
  | S n' =>
      if nz (ld8 m p) && (ld8 m p =? ld8 m q) then strncmp_loop m (p + 1) (q + 1) n'
      else ld8 m p - ld8 m q
  end.

Definition strncmp (m : memory) (p q n : Z) : Z := strncmp_loop m p q (Z.to_nat n).

Fixpoint strncpy_loop (m : memory) (s t : Z) (n : nat) : memory :=
  match n with
  | O => m
  | S n' =>
      let c := ld8 m t in
      let m := st8 m s c in
      if nz c then strncpy_loop m (s + 1) (t + 1) n' else stosb m (s + 1) 0 n'
  end.

Definition strncpy (m : memory) (s t n : Z) : memory := strncpy_loop m s t (Z.to_nat n).

(** [while(--n > 0 && ( *s++ = *t++ ) != 0); *s = 0;], with [n] the number of
    bytes the loop may still copy. *)
Fixpoint safestrcpy_loop (m : memory) (s t : Z) (n : nat) : memory :=
  match n with
  | O => st8 m s 0
  | S n' =>
      let c := ld8 m t in
      let m := st8 m s c in
      if nz c then safestrcpy_loop m (s + 1) (t + 1) n' else st8 m (s + 1) 0
  end.

Definition safestrcpy (m : memory) (s t n : Z) : memory :=
  if n <=? 0 then m else safestrcpy_loop m s t (Z.to_nat (n - 1)).

Fixpoint strlen_loop (m : memory) (s n : Z) (fuel : nat) : option Z :=
  match fuel with
  | O => None
  | S fuel' => if nz (ld8 m (s + n)) then strlen_loop m s (n + 1) fuel' else Some n
  end.

Definition strlen (m : memory) (s : Z) (fuel : nat) : option Z := strlen_loop m s 0 fuel.

(** A NUL-terminated string with the bytes [l]. *)
Definition cstring (m : memory) (s : Z) (l : list Z) : Prop :=
  ldbytes m s (length l) = l /\ Forall (fun c => c <> 0) l /\ ld8 m (s + Z.of_nat (length l)) = 0.

(** Memory apart from the bytes from [a] to [b]. *)
Definition apart (m : memory) (a b : Z) (m' : memory) : Prop := forall x, ~ (a <= x < b) -> ld8 m' x = ld8 m x.

(** * Lemmas *)

Create HintDb mem.

(** ** Loads and stores *)

Lemma ld8_range m a : 0 <= ld8 m a < 256.
Proof. apply Z.mod_pos_bound. lia. Qed.

Lemma ld8_st8 m a b v : ld8 (st8 m a v) b = if b =? a then v mod 256 else ld8 m b.
Proof.
  unfold ld8, st8. destruct (Z.eqb_spec b a) as [->|].
  - rewrite lookup_insert_eq. simpl. apply Z.mod_mod. lia.
  - by rewrite lookup_insert_ne.
Qed.

Lemma ld8_st8_eq m a v : ld8 (st8 m a v) a = v mod 256.
Proof. by rewrite ld8_st8, Z.eqb_refl. Qed.

Lemma ld8_st8_ne m a b v : b <> a -> ld8 (st8 m a v) b = ld8 m b.
Proof. intros. rewrite ld8_st8. by rewrite (proj2 (Z.eqb_neq b a)). Qed.

Lemma ld8_mod m a : ld8 m a mod 256 = ld8 m a.
Proof. apply Z.mod_small, ld8_range. Qed.

Lemma ld32_range m a : is_u32 (ld32 m a).
Proof.
  unfold is_u32, ld32.
  pose proof (ld8_range m a). pose proof (ld8_range m (a + 1)).
  pose proof (ld8_range m (a + 2)). pose proof (ld8_range m (a + 3)). lia.
Qed.

Lemma ld8_st32_ne m a b v : b < a \/ a + 4 <= b -> ld8 (st32 m a v) b = ld8 m b.
Proof. intros. unfold st32. rewrite !ld8_st8_ne by lia. done. Qed.

Lemma ld8_st32_in m a i v :
  0 <= i < 4 -> ld8 (st32 m a v) (a + i) = (v / 256 ^ i) mod 256.
Proof.
  intros Hi. unfold st32.
  assert (i = 0 \/ i = 1 \/ i = 2 \/ i = 3) as [-> | [-> | [-> | ->]]] by lia;
    rewrite ?Z.add_0_r; repeat (rewrite ld8_st8_ne by lia); rewrite ld8_st8_eq;
    [change (256 ^ 0) with 1; by rewrite Z.div_1_r | done..].
Qed.

Lemma ld32_st32_eq m a v : is_u32 v -> ld32 (st32 m a v) a = v.
Proof.
  unfold is_u32. intros Hv. unfold ld32, st32.
  repeat (rewrite ld8_st8_ne by lia).
  rewrite ld8_st8_eq. repeat (rewrite ld8_st8_ne by lia). rewrite ld8_st8_eq.
  repeat (rewrite ld8_st8_ne by lia). rewrite ld8_st8_eq.
  repeat (rewrite ld8_st8_ne by lia). rewrite ld8_st8_eq.
  replace (v / 65536) with (v / 256 / 256) by (rewrite Z.div_div by lia; done).
  replace (v / 16777216) with (v / 256 / 256 / 256) by (rewrite !Z.div_div by lia; done).
  dlia.
Qed.

Lemma ld32_st32_ne m a b v : b + 4 <= a \/ a + 4 <= b -> ld32 (st32 m a v) b = ld32 m b.
Proof. intros. unfold ld32. rewrite !ld8_st32_ne by lia. done. Qed.

(** Two memories that agree on the four bytes agree on the word. *)
Lemma ld32_ext m m' a :
  (forall b, a <= b < a + 4 -> ld8 m' b = ld8 m b) -> ld32 m' a = ld32 m a.
Proof. intros H. unfold ld32. rewrite !H by lia. done. Qed.

Lemma length_ldbytes m a n : length (ldbytes m a n) = n.
Proof. revert a. induction n; intros; simpl; auto. Qed.

Lemma lookup_ldbytes m a n i :
  (i < n)%nat -> ldbytes m a n !! i = Some (ld8 m (a + Z.of_nat i)).
Proof.
  revert a i. induction n as [|n IH]; intros a [|i] Hi; simpl; try lia.
  - do 2 f_equal. lia.
  - rewrite IH by lia. do 2 f_equal. lia.
Qed.

Lemma ldbytes_ext m m' a b n :
  (forall i, 0 <= i < Z.of_nat n -> ld8 m (a + i) = ld8 m' (b + i)) ->
  ldbytes m a n = ldbytes m' b n.
Proof.
  intros H. apply list_eq. intros i.
  destruct (decide (i < n)%nat).
  - rewrite !lookup_ldbytes by done. f_equal. apply H. lia.
  - rewrite !lookup_ge_None_2 by (rewrite length_ldbytes; lia). done.
Qed.

(** ** memset *)

Lemma ld8_stosb m a v n b :
  ld8 (stosb m a v n) b = if (a <=? b) && (b <? a + Z.of_nat n) then v mod 256 else ld8 m b.
Proof.
  revert m a. induction n as [|n IH]; intros m a; simpl stosb.
  - by zcases.
  - rewrite IH, ld8_st8. by zcases.
Qed.

(** The word [memset] stores four bytes at a time repeats the byte [c]. *)
Lemma memset_pattern c :
  0 <= c < 256 ->
  Z.lor (Z.lor (Z.lor (Z.shiftl c 24) (Z.shiftl c 16)) (Z.shiftl c 8)) c =
  c * 16777216 + c * 65536 + c * 256 + c.
Proof.
  intros Hc. rewrite !Z.shiftl_mul_pow2 by lia.
  rewrite (lor_low_high 24 (c * 2 ^ 24) (c * 2 ^ 16));
    [| lia | apply Z.mod_mul; lia | lia].
  rewrite (lor_low_high 16 _ (c * 2 ^ 8)); [| lia | | lia].
  2:{ replace (c * 2 ^ 24 + c * 2 ^ 16) with ((c * 256 + c) * 2 ^ 16) by lia.
      apply Z.mod_mul. lia. }
  rewrite (lor_low_high 8 _ c); [lia | lia | | lia].
  replace (c * 2 ^ 24 + c * 2 ^ 16 + c * 2 ^ 8) with ((c * 65536 + c * 256 + c) * 2 ^ 8) by lia.
  apply Z.mod_mul. lia.
Qed.

Lemma ld8_stosl m a c n b :
  0 <= c < 256 ->
  ld8 (stosl m a (c * 16777216 + c * 65536 + c * 256 + c) n) b =
  if (a <=? b) && (b <? a + 4 * Z.of_nat n) then c else ld8 m b.
Proof.
  intros Hc. revert m a. induction n as [|n IH]; intros m a; simpl stosl.
  - by zcases.
  - rewrite IH. clear IH.
    zcases; try done; [by rewrite ld8_st32_ne by lia | | by rewrite ld8_st32_ne by lia].
    + replace b with (a + (b - a)) by lia. rewrite ld8_st32_in by lia.
      assert (b - a = 0 \/ b - a = 1 \/ b - a = 2 \/ b - a = 3) as [-> | [-> | [-> | ->]]] by lia.
      all: change (256 ^ 0) with 1; change (256 ^ 1) with 256;
        change (256 ^ 2) with 65536; change (256 ^ 3) with 16777216; dlia.
Qed.

(** [memset] sets exactly the bytes [dst .. dst+n-1]. *)
Lemma ld8_memset m dst c n b :
  0 <= n ->
  ld8 (memset m dst c n) b = if (dst <=? b) && (b <? dst + n) then c mod 256 else ld8 m b.
Proof.
  intros Hn. unfold memset.
  destruct (Z.eqb_spec (n mod 4) 0) as [H4|]; [rewrite andb_true_r | rewrite andb_false_r].
  2:{ rewrite ld8_stosb, Z2Nat.id by lia. done. }
  destruct (Z.rem (s32 dst) 4 =? 0); [|rewrite ld8_stosb, Z2Nat.id by lia; done].
  cbn zeta. change 255 with (Z.ones 8). rewrite Z.land_ones by lia.
  change (2 ^ 8) with 256.
  rewrite memset_pattern by (apply Z.mod_pos_bound; lia).
  rewrite ld8_stosl by (apply Z.mod_pos_bound; lia).
  rewrite Z2Nat.id by (apply Z.div_pos; lia).
  replace (4 * (n / 4)) with n by dlia. done.
Qed.

(** ** memmove *)

Lemma ld8_copy_up m d s n b :
  (d <= s \/ s + Z.of_nat n <= d) ->
  ld8 (copy_up m d s n) b =
  if (d <=? b) && (b <? d + Z.of_nat n) then ld8 m (s + (b - d)) else ld8 m b.
Proof.
  revert m d s. induction n as [|n IH]; intros m d s Hds; simpl copy_up.
  - by zcases.
  - rewrite IH by lia. rewrite !ld8_st8. zcases; try done; rewrite ?ld8_mod; f_equal; lia.
Qed.

Lemma ld8_copy_down m d s n b :
  (s <= d) ->
  ld8 (copy_down m d s n) b =
  if (d - Z.of_nat n <=? b) && (b <? d) then ld8 m (s + (b - d)) else ld8 m b.
Proof.
  revert m d s. induction n as [|n IH]; intros m d s Hds; simpl copy_down.
  - by zcases.
  - rewrite IH by lia. rewrite !ld8_st8. zcases; try done; rewrite ?ld8_mod; f_equal; lia.
Qed.

(** [memmove] copies as if through a temporary, whatever the overlap. *)
Lemma ld8_memmove m dst src n b :
  0 <= n -> 0 <= src -> src + n < 4294967296 ->
  ld8 (memmove m dst src n) b =
  if (dst <=? b) && (b <? dst + n) then ld8 m (src + (b - dst)) else ld8 m b.
Proof.
  intros Hn Hs Hw. unfold memmove. rewrite u32_small by (unfold is_u32; lia).
  destruct (Z.ltb_spec src dst), (Z.ltb_spec dst (src + n)); simpl.
  - rewrite ld8_copy_down by lia. rewrite Z2Nat.id by lia.
    replace (dst + n - n) with dst by lia.
    replace (src + n + (b - (dst + n))) with (src + (b - dst)) by lia. done.
  - rewrite ld8_copy_up, Z2Nat.id by lia. done.
  - rewrite ld8_copy_up, Z2Nat.id by lia. done.
  - rewrite ld8_copy_up, Z2Nat.id by lia. done.
Qed.

(** ** Runs of bytes *)

Lemma ld8_stbytes m a l b :
  ld8 (stbytes m a l) b = if (a <=? b) && (b <? a + Z.of_nat (length l)) then default 0 (l !! Z.to_nat (b - a)) mod 256 else ld8 m b.
Proof.
  revert m a. induction l as [|c l IH]; intros m a; cbn [stbytes length].
  - by zcases.
  - rewrite IH, ld8_st8. zcases; try done.
    + replace (Z.to_nat (b - a)) with (S (Z.to_nat (b - (a + 1)))) by lia. done.
    + replace (b - a) with 0 by lia. done.
Qed.

Lemma ldbytes_app m n k : forall a, ldbytes m a (n + k) = ldbytes m a n ++ ldbytes m (a + Z.of_nat n) k.
Proof.
  induction n as [|n IH]; intros a; cbn [ldbytes Nat.add app]; [by rewrite Z.add_0_r|].
  rewrite IH. do 3 f_equal. lia.
Qed.

(** ** Memory that changed in one place *)

Lemma apart_trans m a b m1 c d m2 a' b' : apart m a b m1 -> apart m1 c d m2 -> a' <= a -> a' <= c -> b <= b' -> d <= b' -> apart m a' b' m2.
Proof. intros H1 H2 Ha Hc Hb Hd x Hx. rewrite H2, H1 by lia. done. Qed.

Lemma apart_both m a b m1 m2 : apart m a b m1 -> apart m1 a b m2 -> apart m a b m2.
Proof. intros H1 H2. eapply apart_trans; [exact H1|exact H2|lia..]. Qed.

Lemma apart_st8 m a v b : a < b -> apart m a b (st8 m a v).
Proof. intros Hb x Hx. apply ld8_st8_ne. lia. Qed.


Lemma apart_refl m a b : apart m a b m.
Proof. by intros x _. Qed.

Lemma apart_st32 m a v b : a + 4 <= b -> apart m a b (st32 m a v).
Proof. intros Hb x Hx. apply ld8_st32_ne. lia. Qed.

Lemma ld32_apart m a b m' x : apart m a b m' -> x + 4 <= a \/ b <= x -> ld32 m' x = ld32 m x.
Proof. intros H Hx. apply ld32_ext. intros y Hy. apply H. lia. Qed.
