(* ===== verification/Mmu.v ===== *)
(** * Address arithmetic of mmu.h, memlayout.h and param.h

    The constants and macros of the x86 memory layout, on unsigned 32-bit
    integers.  [KernelImage] holds the two symbols the linker script defines
    ([end] and [data]); their values depend on the build, so they are
    parameters of everything that uses them, and [KernelImageOk] states what
    kernel.ld promises of them. *)

From S2P Require Import Prelude.

Open Scope Z_scope.

Definition EXTMEM : Z := 0x100000.
Definition PHYSTOP : Z := 0xE000000.
Definition DEVSPACE : Z := 0xFE000000.
Definition KERNBASE : Z := 0x80000000.
Definition KERNLINK : Z := KERNBASE + EXTMEM.
Definition HEAPLIMIT : Z := 0x7F000000.
Definition SHAREDREGIONS : Z := 64.

Definition V2P (a : Z) : Z := u32 (a - KERNBASE).
Definition P2V (a : Z) : Z := u32 (a + KERNBASE).

Definition PTXSHIFT : Z := 12.
Definition PDXSHIFT : Z := 22.
Definition NPDENTRIES : Z := 1024.
Definition NPTENTRIES : Z := 1024.
Definition PGSIZE : Z := 4096.
Definition KSTACKSIZE : Z := 4096.

(** Page directory index, page table index, and the address they build. *)
Definition PDX (va : Z) : Z := Z.land (Z.shiftr va PDXSHIFT) 0x3FF.
Definition PTX (va : Z) : Z := Z.land (Z.shiftr va PTXSHIFT) 0x3FF.
Definition PGADDR (d t o : Z) : Z :=
  u32 (Z.lor (Z.lor (Z.shiftl d PDXSHIFT) (Z.shiftl t PTXSHIFT)) o).

(** [~(PGSIZE-1)] as an unsigned 32-bit mask. *)
Definition PGMASK : Z := u32 (Z.lnot (PGSIZE - 1)).

Definition PGROUNDUP (sz : Z) : Z := Z.land (u32 (sz + PGSIZE - 1)) PGMASK.
Definition PGROUNDDOWN (a : Z) : Z := Z.land a PGMASK.

Definition PTE_P : Z := 1.
Definition PTE_W : Z := 2.
Definition PTE_U : Z := 4.
Definition PTE_PS : Z := 128.

Definition PTE_ADDR (pte : Z) : Z := Z.land pte (u32 (Z.lnot 0xFFF)).
Definition PTE_FLAGS (pte : Z) : Z := Z.land pte 0xFFF.

(** The symbols of kernel.ld. *)
Class KernelImage := {
  end_ : Z;    (* first address after the kernel *)
  data_ : Z;   (* start of the kernel's writable data, page aligned *)
}.

Class KernelImageOk (K : KernelImage) : Prop := {
  data_aligned : data_ mod PGSIZE = 0;
  data_above_text : KERNLINK < data_;
  data_below_end : data_ <= end_;
  end_in_memory : end_ < KERNBASE + PHYSTOP;
}.

(** A page of physical memory the allocator may hand out, at its kernel
    virtual address: page aligned, above the kernel and below PHYSTOP. *)
Definition is_page `{KernelImage} (p : Z) : Prop :=
  p mod PGSIZE = 0 /\ end_ <= p < KERNBASE + PHYSTOP.

(** * Lemmas *)

(** Unfold the layout constants before arithmetic. *)
Ltac consts :=
  unfold KERNLINK, EXTMEM, PHYSTOP, DEVSPACE, KERNBASE, HEAPLIMIT, SHAREDREGIONS,
    PTXSHIFT, PDXSHIFT, NPDENTRIES, NPTENTRIES, PGSIZE, KSTACKSIZE in *.

Ltac alia := consts; unfold is_u32 in *; dlia.

Lemma PGMASK_eq : PGMASK = 4294967296 - 2 ^ 12.
Proof. reflexivity. Qed.

Lemma PDX_eq va : is_u32 va -> PDX va = va / 4194304.
Proof.
  intros Hva. unfold PDX. change 0x3FF with (Z.ones 10).
  rewrite Z.land_ones, Z.shiftr_div_pow2 by (consts; lia).
  change (2 ^ PDXSHIFT) with 4194304. apply Z.mod_small. alia.
Qed.

Lemma PTX_eq va : is_u32 va -> PTX va = (va / 4096) mod 1024.
Proof.
  intros Hva. unfold PTX. change 0x3FF with (Z.ones 10).
  rewrite Z.land_ones, Z.shiftr_div_pow2 by (consts; lia). done.
Qed.

Lemma PDX_range va : 0 <= PDX va < 1024.
Proof.
  unfold PDX. change 0x3FF with (Z.ones 10). rewrite Z.land_ones by lia.
  apply Z.mod_pos_bound. lia.
Qed.

Lemma PTX_range va : 0 <= PTX va < 1024.
Proof.
  unfold PTX. change 0x3FF with (Z.ones 10). rewrite Z.land_ones by lia.
  apply Z.mod_pos_bound. lia.
Qed.

(** The two indices together name the page. *)
Lemma same_page va vb :
  is_u32 va -> is_u32 vb -> PDX va = PDX vb -> PTX va = PTX vb -> va / 4096 = vb / 4096.
Proof. intros Ha Hb. rewrite !PDX_eq, !PTX_eq by done. alia. Qed.

Lemma PDX_page va vb : is_u32 va -> is_u32 vb -> va / 4096 = vb / 4096 -> PDX va = PDX vb.
Proof. intros Ha Hb. rewrite !PDX_eq by done. alia. Qed.

Lemma PTX_page va vb : is_u32 va -> is_u32 vb -> va / 4096 = vb / 4096 -> PTX va = PTX vb.
Proof. intros Ha Hb. rewrite !PTX_eq by done. alia. Qed.

Lemma PGROUNDDOWN_eq a : is_u32 a -> PGROUNDDOWN a = a - a mod 4096.
Proof. intros Ha. unfold PGROUNDDOWN. rewrite PGMASK_eq, land_high_mask by (lia || done). done. Qed.

Lemma PGROUNDUP_eq sz :
  0 <= sz <= 4294967296 - 4096 -> PGROUNDUP sz = (sz + 4095) / 4096 * 4096.
Proof.
  intros Hsz. unfold PGROUNDUP. rewrite u32_small by alia.
  rewrite PGMASK_eq, land_high_mask by alia. alia.
Qed.

(** Past the last page boundary PGROUNDUP wraps to 0. *)
Lemma PGROUNDUP_wrap sz :
  4294967296 - 4096 < sz < 4294967296 -> PGROUNDUP sz = 0.
Proof.
  intros Hsz. unfold PGROUNDUP.
  replace (u32 (sz + PGSIZE - 1)) with (sz + 4095 - 4294967296).
  - rewrite PGMASK_eq, land_high_mask by alia. alia.
  - unfold u32. alia.
Qed.

Lemma PTE_ADDR_eq e : is_u32 e -> PTE_ADDR e = e - e mod 4096.
Proof.
  intros He. unfold PTE_ADDR. change (u32 (Z.lnot 0xFFF)) with (4294967296 - 2 ^ 12).
  by rewrite land_high_mask by (lia || done).
Qed.

Lemma PTE_FLAGS_eq e : PTE_FLAGS e = e mod 4096.
Proof. unfold PTE_FLAGS. change 0xFFF with (Z.ones 12). by rewrite Z.land_ones by lia. Qed.

Lemma PTE_P_odd e : Z.land e PTE_P = e mod 2.
Proof. unfold PTE_P. change 1 with (Z.ones 1). by rewrite Z.land_ones by lia. Qed.

(** An entry made of a page address and flag bits. *)
Lemma lor_flags x f : x mod 4096 = 0 -> 0 <= f < 4096 -> Z.lor x f = x + f.
Proof. intros. by apply (lor_low_high 12). Qed.

Lemma P2V_V2P a : is_u32 a -> P2V (V2P a) = a.
Proof. intros Ha. unfold P2V, V2P, u32. alia. Qed.

Lemma V2P_P2V a : is_u32 a -> V2P (P2V a) = a.
Proof. intros Ha. unfold P2V, V2P, u32. alia. Qed.

Lemma V2P_high a : KERNBASE <= a < 4294967296 -> V2P a = a - KERNBASE.
Proof. intros Ha. unfold V2P. apply u32_small. alia. Qed.

Lemma PGADDR_dir d : 0 <= d < 1024 -> PGADDR d 0 0 = d * 4194304.
Proof.
  intros Hd. unfold PGADDR. rewrite Z.shiftl_0_l, !Z.lor_0_r, Z.shiftl_mul_pow2 by (consts; lia).
  change (2 ^ PDXSHIFT) with 4194304. apply u32_small. alia.
Qed.

(** One past the last directory entry the address wraps to 0. *)
Lemma PGADDR_dir_wrap : PGADDR 1024 0 0 = 0.
Proof. reflexivity. Qed.

Section pages.
Context {K : KernelImage} {KI : KernelImageOk K}.

Lemma is_page_range p : is_page p -> KERNBASE < p < KERNBASE + PHYSTOP /\ p mod 4096 = 0.
Proof.
  intros [Hal Hr]. destruct KI as [? H2 H3 H4]. alia.
Qed.

Lemma is_page_u32 p : is_page p -> is_u32 p.
Proof. intros Hp%is_page_range. alia. Qed.

Lemma is_page_end p : is_page p -> p + 4096 <= KERNBASE + PHYSTOP.
Proof. intros Hp%is_page_range. alia. Qed.

Lemma is_page_nz p : is_page p -> p <> 0.
Proof. intros Hp%is_page_range. alia. Qed.

(** Different pages do not overlap. *)
Lemma is_page_disjoint p q : is_page p -> is_page q -> p <> q -> p + 4096 <= q \/ q + 4096 <= p.
Proof. intros Hp%is_page_range Hq%is_page_range Hne. alia. Qed.

End pages.

(** A concrete image: kernel data at 0x80109000, kernel end at 0x80116000. *)
Definition demo_image : KernelImage := {| end_ := 0x80116000; data_ := 0x80109000 |}.

Lemma demo_image_ok : KernelImageOk demo_image.
Proof. by constructor. Qed.
