(* ===== verification/Kalloc.v ===== *)
(** * The physical page allocator (src/kalloc.c)

    The state is physical memory together with the anonymous struct [kmem]:
    the head of the free list, the flag [use_lock] and the lock.  The free
    list is the linked list of the source, threaded through the first word of
    each free page; [free_chain] reads it back as a list of pages, which is
    the abstract state the theorems are stated on. *)

From S2P Require Import Prelude.
From S2P Require Import CString.
From S2P Require Import Mmu.

Open Scope Z_scope.

Record phys := mkPhys {
  mem : memory;
  freelist : Z;         (* kmem.freelist *)
  use_lock : bool;      (* kmem.use_lock *)
  kmem_lock : bool;     (* kmem.lock is held by this CPU *)
}.

Definition set_mem (m : memory) (s : phys) : phys :=
  mkPhys m (freelist s) (use_lock s) (kmem_lock s).
Definition set_freelist (p : Z) (s : phys) : phys :=
  mkPhys (mem s) p (use_lock s) (kmem_lock s).
Definition set_use_lock (b : bool) (s : phys) : phys :=
  mkPhys (mem s) (freelist s) b (kmem_lock s).
Definition set_kmem_lock (b : bool) (s : phys) : phys :=
  mkPhys (mem s) (freelist s) (use_lock s) b.

Definition upd_mem (f : memory -> memory) : M phys unit :=
  modify (fun s => set_mem (f (mem s)) s).

(** [if(kmem.use_lock) acquire(&kmem.lock)] and its counterpart. *)
Definition kmem_acquire : M phys unit :=
  let! u := gets use_lock in
  if u then lock_acquire kmem_lock set_kmem_lock else ret tt.

Definition kmem_release : M phys unit :=
  let! u := gets use_lock in
  if u then lock_release kmem_lock set_kmem_lock else ret tt.

Section kalloc.
Context {K : KernelImage}.

Definition kfree (v : Z) : M phys unit :=
  if nz (v mod PGSIZE) || (v <? end_) || (PHYSTOP <=? V2P v) then panic "kfree" else
  do! upd_mem (fun m => memset m v 1 PGSIZE) in
  do! kmem_acquire in
  let r := v in
  let! next := gets freelist in
  do! upd_mem (fun m => st32 m r next) in
  do! modify (set_freelist r) in
  kmem_release.

Definition kalloc : M phys Z :=
  do! kmem_acquire in
  let! r := gets freelist in
  do! (if nz r
       then let! next := gets (fun s => ld32 (mem s) r) in modify (set_freelist next)
       else ret tt) in
  do! kmem_release in
  ret r.

Fixpoint freerange_loop (fuel : nat) (p vend : Z) : M phys unit :=
  match fuel with
  | O => nofuel
  | S fuel' =>
      if u32 (p + PGSIZE) <=? vend then
        do! kfree p in freerange_loop fuel' (u32 (p + PGSIZE)) vend
      else ret tt
  end.

(** A range below [vend] has at most [vend / PGSIZE] pages. *)
Definition freerange (vstart vend : Z) : M phys unit :=
  freerange_loop (S (Z.to_nat (vend / PGSIZE))) (PGROUNDUP vstart) vend.

Definition kinit1 (vstart vend : Z) : M phys unit :=
  do! modify (set_kmem_lock false) in    (* initlock(&kmem.lock, "kmem") *)
  do! modify (set_use_lock false) in
  freerange vstart vend.

Definition kinit2 (vstart vend : Z) : M phys unit :=
  do! freerange vstart vend in
  modify (set_use_lock true).

(** The pages of the free list, first to last. *)
Fixpoint free_chain (m : memory) (p : Z) (fl : list Z) : Prop :=
  match fl with
  | [] => p = 0
  | q :: fl' => p = q /\ is_page q /\ free_chain m (ld32 m q) fl'
  end.

(** The allocator's invariant: the chain of the free list visits the pages
    [fl], each once, and the lock is free. *)
Record phys_ok (fl : list Z) (s : phys) : Prop := {
  ok_chain : free_chain (mem s) (freelist s) fl;
  ok_nodup : NoDup fl;
  ok_lock : kmem_lock s = false;
}.

(** ** The abstract allocator

    A stack of free pages.  A client's calls, as a list: [legal_kops] says
    that each page it frees is a page and is not free at that moment. *)
Inductive kop := KAlloc | KFree (v : Z).

Fixpoint run_kops (ops : list kop) : M phys (list Z) :=
  match ops with
  | [] => ret []
  | KAlloc :: ops' => let! r := kalloc in let! rs := run_kops ops' in ret (r :: rs)
  | KFree v :: ops' => do! kfree v in run_kops ops'
  end.

Fixpoint spec_kops (ops : list kop) (fl : list Z) : list Z * list Z :=
  match ops with
  | [] => ([], fl)
  | KAlloc :: ops' => let (rs, fl') := spec_kops ops' (tl fl) in (hd 0 fl :: rs, fl')
  | KFree v :: ops' => spec_kops ops' (v :: fl)
  end.

Fixpoint legal_kops (ops : list kop) (fl : list Z) : Prop :=
  match ops with
  | [] => True
  | KAlloc :: ops' => legal_kops ops' (tl fl)
  | KFree v :: ops' => is_page v /\ (v ∉ fl) /\ legal_kops ops' (v :: fl)
  end.

(** The pages [lo, lo+PGSIZE, ...] that fit below [hi], in order. *)
Definition pages_in (lo hi : Z) : list Z :=
  map (fun i => lo + i * PGSIZE) (zrange 0 (Z.to_nat ((hi - lo) / PGSIZE))).

End kalloc.

(** * Lemmas *)

#[export] Hint Unfold upd_mem : wp.

Section kalloc_proofs.
Context {K : KernelImage} {KI : KernelImageOk K}.

(** The chain depends only on the bytes of the free pages. *)
Lemma free_chain_frame m m' p fl :
  (forall q b, q ∈ fl -> q <= b < q + 4096 -> ld8 m' b = ld8 m b) ->
  free_chain m p fl -> free_chain m' p fl.
Proof.
  revert p. induction fl as [|q fl IH]; intros p Hext; [done|].
  intros (-> & Hq & Hc). split_and!; [done..|].
  rewrite (ld32_ext m m' q) by (intros b Hb; apply (Hext q); [left | lia]).
  apply IH; [|done]. intros r b Hr. apply Hext. set_solver.
Qed.

Lemma free_chain_pages m p fl : free_chain m p fl -> Forall is_page fl.
Proof.
  revert p. induction fl as [|q fl IH]; intros p; [by constructor|].
  intros (_ & Hq & Hc). constructor; [done | by eapply IH].
Qed.

(** Memory has one free list. *)
Lemma free_chain_inj m : forall fl p fl', free_chain m p fl -> free_chain m p fl' -> fl = fl'.
Proof.
  induction fl as [|q fl IH]; intros p [|q' fl']; simpl.
  - done.
  - intros -> (<- & Hq & _). by apply is_page_nz in Hq.
  - intros (<- & Hq & _) Hz. by apply is_page_nz in Hq.
  - intros (<- & _ & H1) (<- & _ & H2). f_equal. by eapply IH.
Qed.

Lemma phys_ok_page fl s p : phys_ok fl s -> p ∈ fl -> is_page p.
Proof.
  intros Hok Hp. pose proof (free_chain_pages _ _ _ (ok_chain _ _ Hok)) as HF.
  rewrite Forall_forall in HF. by apply HF.
Qed.

(** Writes outside the free pages keep the allocator's invariant. *)
Lemma phys_ok_frame fl s m' :
  phys_ok fl s ->
  (forall q b, q ∈ fl -> q <= b < q + 4096 -> ld8 m' b = ld8 (mem s) b) ->
  phys_ok fl (set_mem m' s).
Proof.
  intros [Hc Hn Hl] Hext. constructor; [|done..].
  simpl. by apply (free_chain_frame (mem s)).
Qed.

Lemma kmem_acquire_wp (Q : unit -> phys -> Prop) E s :
  kmem_lock s = false -> Q tt (set_kmem_lock (use_lock s) s) -> wpx kmem_acquire Q E s.
Proof.
  intros Hl HQ. unfold kmem_acquire. wp_steps.
  destruct (use_lock s) eqn:Eu.
  - by apply wpx_acquire.
  - apply wpx_ret. destruct s; simpl in *; by subst.
Qed.

Lemma kmem_release_wp (Q : unit -> phys -> Prop) E s :
  kmem_lock s = use_lock s -> Q tt (set_kmem_lock false s) -> wpx kmem_release Q E s.
Proof.
  intros Hl HQ. unfold kmem_release. wp_steps.
  destruct (use_lock s) eqn:Eu.
  - by apply wpx_release.
  - apply wpx_ret. destruct s; simpl in *; by subst.
Qed.

(** [kalloc] takes the first free page and leaves memory alone. *)
Lemma kalloc_spec fl s :
  phys_ok fl s ->
  wp kalloc (fun r s' =>
    mem s' = mem s /\ use_lock s' = use_lock s /\
    r = hd 0 fl /\ phys_ok (tl fl) s') s.
Proof.
  intros [Hc Hn Hl]. unfold kalloc. wp_step. apply kmem_acquire_wp; [done|].
  wp_steps. simpl freelist. destruct fl as [|p fl]; simpl in Hc.
  - rewrite Hc. cbn [nz Z.eqb negb]. wp_steps. apply kmem_release_wp; [done|].
    wp_steps. split_and!; done.
  - destruct Hc as (-> & Hp & Hc).
    rewrite (proj2 (nz_true p)) by (by apply is_page_nz). wp_steps.
    apply kmem_release_wp; [done|]. wp_steps.
    apply NoDup_cons in Hn as [_ Hn]. split_and!; try done.
Qed.

(** A page that passes the guard of [kfree]. *)
Lemma kfree_guard v :
  is_u32 v ->
  (nz (v mod PGSIZE) || (v <? end_) || (PHYSTOP <=? V2P v)) = false <-> is_page v.
Proof.
  intros Hv. destruct KI as [? Hd He Hm]. split.
  - intros [[H1 H2]%orb_false_iff H3]%orb_false_iff.
    apply nz_false in H1. apply Z.ltb_ge in H2. apply Z.leb_gt in H3.
    rewrite V2P_high in H3 by alia. split; [done | alia].
  - intros [H1 H2]. rewrite V2P_high by alia.
    rewrite !orb_false_iff, nz_false, Z.ltb_ge, Z.leb_gt. split_and!; alia.
Qed.

(** [kfree] puts the page at the head of the free list and touches no other
    page. *)
Lemma kfree_spec fl s v :
  phys_ok fl s -> is_page v -> v ∉ fl ->
  wp (kfree v) (fun _ s' =>
    phys_ok (v :: fl) s' /\ use_lock s' = use_lock s /\
    (forall b, b < v \/ v + 4096 <= b -> ld8 (mem s') b = ld8 (mem s) b)) s.
Proof.
  intros [Hc Hn Hl] Hv Hnin. unfold kfree.
  rewrite (proj2 (kfree_guard v (is_page_u32 v Hv))) by done.
  pose proof (free_chain_pages _ _ _ Hc) as HF. rewrite Forall_forall in HF.
  wp_steps. apply kmem_acquire_wp; [done|]. cbn zeta. wp_steps.
  apply kmem_release_wp; [done|]. simpl.
  assert (Hfar : forall b, b < v \/ v + 4096 <= b ->
    ld8 (st32 (memset (mem s) v 1 PGSIZE) v (freelist s)) b = ld8 (mem s) b).
  { intros b Hb. rewrite ld8_st32_ne by lia. rewrite ld8_memset by (consts; lia). by zcases; consts; lia. }
  split_and!; [|done|done]. constructor; simpl.
  - split_and!; [done..|]. rewrite ld32_st32_eq.
    + eapply free_chain_frame; [|done]. intros q b Hq Hb. apply Hfar.
      destruct (is_page_disjoint v q); [done | by apply HF | set_solver | lia | lia].
    + destruct fl as [|q fl]; simpl in Hc; [rewrite Hc; unfold is_u32; lia|].
      destruct Hc as (-> & Hq & _). by apply is_page_u32.
  - by constructor.
  - done.
Qed.

Lemma kfree_panics v s : is_u32 v -> ~ is_page v -> kfree v s = Panic "kfree".
Proof.
  intros Hv Hn. unfold kfree.
  destruct (nz (v mod PGSIZE) || (v <? end_) || (PHYSTOP <=? V2P v)) eqn:E; [done|].
  by apply kfree_guard in E.
Qed.

(** ** Ranges of pages *)

Lemma map_zrange_shift {A} (f : Z -> A) lo n :
  map f (zrange (lo + 1) n) = map (fun i => f (i + 1)) (zrange lo n).
Proof. revert lo. induction n as [|n IH]; intros lo; simpl; [done|]. by rewrite IH. Qed.

Lemma pages_in_nil lo hi : hi < lo + PGSIZE -> pages_in lo hi = [].
Proof.
  intros H. unfold pages_in. replace (Z.to_nat ((hi - lo) / PGSIZE)) with 0%nat; [done|]. alia.
Qed.

Lemma pages_in_cons lo hi :
  lo + PGSIZE <= hi -> pages_in lo hi = lo :: pages_in (lo + PGSIZE) hi.
Proof.
  intros H. unfold pages_in.
  replace (Z.to_nat ((hi - lo) / PGSIZE)) with (S (Z.to_nat ((hi - (lo + PGSIZE)) / PGSIZE))) by alia.
  simpl. rewrite (map_zrange_shift _ 0). f_equal; [lia|].
  apply map_ext. intros i. lia.
Qed.

Lemma elem_of_pages_in lo hi p :
  p ∈ pages_in lo hi <-> (lo <= p /\ p + PGSIZE <= hi /\ (p - lo) mod PGSIZE = 0).
Proof.
  unfold pages_in. rewrite list_elem_of_In, in_map_iff. split.
  - intros (i & <- & Hi). rewrite <- list_elem_of_In, elem_of_zrange in Hi. alia.
  - intros (H1 & H2 & H3). exists ((p - lo) / PGSIZE). split; [alia|].
    rewrite <- list_elem_of_In, elem_of_zrange. alia.
Qed.

Lemma freerange_loop_spec fuel p vend fl s :
  phys_ok fl s -> p mod PGSIZE = 0 -> end_ <= p <= KERNBASE + PHYSTOP ->
  vend <= KERNBASE + PHYSTOP -> (0 < fuel)%nat -> vend < p + PGSIZE * Z.of_nat fuel ->
  (forall q, q ∈ fl -> q < p \/ vend <= q) ->
  wp (freerange_loop fuel p vend) (fun _ s' =>
    phys_ok (rev (pages_in p vend) ++ fl) s' /\ use_lock s' = use_lock s) s.
Proof.
  assert (KERNBASE < end_) as He by (destruct KI; alia).
  revert p fl s. induction fuel as [|fuel IH]; intros p fl s Hok Hal Hp Hv H0 Hf Hfl; [lia|].
  cbn [freerange_loop]. rewrite u32_small by alia.
  destruct (Z.leb_spec (p + PGSIZE) vend) as [Hle|Hgt].
  - assert (is_page p) as Hpage by (split; alia).
    rewrite pages_in_cons by done. simpl rev. rewrite <- app_assoc.
    apply wpx_bind. wp_use (kfree_spec fl s p); [done..| |].
    { intros Hin. apply Hfl in Hin. alia. }
    intros _ s' (Hok' & Hu & _). rewrite <- Hu. apply IH; [done | alia..|].
    intros q [-> | Hq]%elem_of_cons; [alia|]. apply Hfl in Hq. alia.
  - rewrite pages_in_nil by lia. by apply wpx_ret.
Qed.

Lemma freerange_spec vstart vend fl s :
  phys_ok fl s -> end_ <= vstart -> vstart <= KERNBASE + PHYSTOP -> 0 <= vend <= KERNBASE + PHYSTOP ->
  (forall q, q ∈ fl -> q < vstart \/ vend <= q) ->
  wp (freerange vstart vend) (fun _ s' =>
    phys_ok (rev (pages_in (PGROUNDUP vstart) vend) ++ fl) s' /\ use_lock s' = use_lock s) s.
Proof.
  intros Hok H1 H2 H3 Hfl. assert (KERNBASE < end_) as He by (destruct KI; alia).
  unfold freerange. assert (PGROUNDUP vstart = (vstart + 4095) / 4096 * 4096) as Heq
    by (apply PGROUNDUP_eq; alia).
  apply freerange_loop_spec; rewrite ?Heq; [done | alia..|].
  intros q Hq. apply Hfl in Hq. alia.
Qed.

(** ** Properties *)

(** C12: any sequence of [kalloc] and [kfree] calls behaves as a stack of free
    pages: the calls never panic, each [kalloc] returns the page on top of
    the stack (0 when there is none), so a page is never handed out while it
    is allocated, and the linked list in memory ends up holding the stack. *)
Theorem kalloc_refines_stack ops fl s :
  phys_ok fl s -> legal_kops ops fl ->
  wp (run_kops ops) (fun rs s' =>
    rs = fst (spec_kops ops fl) /\ phys_ok (snd (spec_kops ops fl)) s') s.
Proof.
  revert fl s. induction ops as [|[|v] ops IH]; intros fl s Hok Hl; simpl.
  - by apply wpx_ret.
  - wp_step. wp_use (kalloc_spec fl s); [done|]. intros r s1 (_ & _ & -> & Hok1).
    wp_step. wp_use (IH (tl fl) s1); [done..|]. intros rs s2 [-> Hok2]. wp_steps.
    by destruct (spec_kops ops (tl fl)).
  - destruct Hl as (Hv & Hn & Hl). wp_step. wp_use (kfree_spec fl s v); [done..|].
    intros _ s1 (Hok1 & _). by apply IH.
Qed.

(** Booting, [kinit1(end, P2V(4MB))] and then
    [kinit2(P2V(4MB), P2V(PHYSTOP))] put every page between the end of the
    kernel and PHYSTOP on the free list, each exactly once, and nothing else. *)
Theorem kinit_frees_all_memory s :
  freelist s = 0 -> end_ <= P2V (4 * 1024 * 1024) ->
  wp (do! kinit1 end_ (P2V (4 * 1024 * 1024)) in
      kinit2 (P2V (4 * 1024 * 1024)) (P2V PHYSTOP))
    (fun _ s' => use_lock s' = true /\
       exists fl, phys_ok fl s' /\ forall p, p ∈ fl <-> is_page p) s.
Proof.
  change (P2V (4 * 1024 * 1024)) with (KERNBASE + 4194304).
  change (P2V PHYSTOP) with (KERNBASE + PHYSTOP). intros Hf He.
  assert (KERNBASE < end_) as He2 by (destruct KI; alia).
  unfold kinit1, kinit2. wp_steps.
  eapply wpx_mono; [apply (freerange_spec _ _ []); [split; [done | apply NoDup_nil_2 | done] | alia.. | set_solver]| |done].
  intros [] s1 (Hok1 & _). rewrite app_nil_r in Hok1. wp_steps.
  eapply wpx_mono; [apply (freerange_spec _ _ _ s1 Hok1); [alia..|]| |done].
  { intros q Hq. rewrite list_elem_of_In, <- in_rev, <- list_elem_of_In, elem_of_pages_in in Hq. alia. }
  intros [] s2 (Hok2 & _). wp_steps. split; [done|]. eexists. split.
  { destruct Hok2 as [A B C]. by split. }
  intros p. rewrite elem_of_app. setoid_rewrite list_elem_of_In. rewrite <- !in_rev.
  setoid_rewrite <- list_elem_of_In. rewrite !elem_of_pages_in.
  rewrite !PGROUNDUP_eq by alia. unfold is_page. split.
  - intros [?|?]; alia.
  - intros ?. destruct (Z.lt_ge_cases p (KERNBASE + 4194304)); [right|left]; alia.
Qed.

End kalloc_proofs.

(** ** Witnesses, on a concrete kernel image *)

(** The allocator's state when the kernel starts: nothing is free. *)
Definition boot_phys : phys := mkPhys ∅ 0 false false.

Lemma boot_phys_ok : @phys_ok demo_image [] boot_phys.
Proof. split; [done | apply NoDup_nil_2 | done]. Qed.

Lemma kalloc_refines_stack_witness :
  wp (run_kops (K := demo_image) [KFree 0x80200000; KFree 0x80201000; KAlloc; KAlloc; KAlloc])
    (fun rs s' => rs = [0x80201000; 0x80200000; 0] /\ @phys_ok demo_image [] s') boot_phys.
Proof.
  apply (kalloc_refines_stack (K := demo_image) (KI := demo_image_ok)
           [KFree 0x80200000; KFree 0x80201000; KAlloc; KAlloc; KAlloc] [] boot_phys).
  - apply boot_phys_ok.
  - simpl. split_and!; try (done || set_solver).
Defined.

Lemma kinit_frees_all_memory_witness :
  wp (do! kinit1 (K := demo_image) 0x80116000 (P2V (4 * 1024 * 1024)) in
      kinit2 (K := demo_image) (P2V (4 * 1024 * 1024)) (P2V PHYSTOP))
    (fun _ s' => use_lock s' = true /\
       exists fl, @phys_ok demo_image fl s' /\ forall p, p ∈ fl <-> @is_page demo_image p) boot_phys.
Proof.
  apply (kinit_frees_all_memory (K := demo_image) (KI := demo_image_ok) boot_phys).
  - reflexivity.
  - vm_compute. discriminate.
Defined.
