(* ===== verification/Vm.v ===== *)
(** * Page tables and user address spaces (src/vm.c, lines 36-396)

    The state is that of the physical allocator: page directories and page
    tables live in memory, and their pages come from [kalloc].  [pte_view]
    reads the entry that the x86 would find for a virtual address; it is the
    abstract state the theorems speak about. *)

From S2P Require Import Prelude.
From S2P Require Import CString.
From S2P Require Import Mmu.
From S2P Require Import Kalloc.

Open Scope Z_scope.

Section vm.
Context {K : KernelImage}.

Definition walkpgdir (pgdir va : Z) (alloc : bool) : M phys Z :=
  let pde := pgdir + 4 * PDX va in
  let! e := gets (fun s => ld32 (mem s) pde) in
  if nz (Z.land e PTE_P) then ret (P2V (PTE_ADDR e) + 4 * PTX va) else
  if negb alloc then ret 0 else
  let! pgtab := kalloc in
  if pgtab =? 0 then ret 0 else
  do! upd_mem (fun m => memset m pgtab 0 PGSIZE) in
  do! upd_mem (fun m => st32 m pde (Z.lor (Z.lor (Z.lor (V2P pgtab) PTE_P) PTE_W) PTE_U)) in
  ret (pgtab + 4 * PTX va).

(** The entry [mappages] writes. *)
Definition mk_pte (pa perm : Z) : Z := Z.lor (Z.lor pa perm) PTE_P.

Fixpoint mappages_loop (fuel : nat) (pgdir a last pa perm : Z) : M phys Z :=
  match fuel with
  | O => nofuel
  | S fuel' =>
      let! pte := walkpgdir pgdir a true in
      if pte =? 0 then ret (-1) else
      let! e := gets (fun s => ld32 (mem s) pte) in
      if nz (Z.land e PTE_P) then panic "remap" else
      do! upd_mem (fun m => st32 m pte (mk_pte pa perm)) in
      if a =? last then ret 0
      else mappages_loop fuel' pgdir (u32 (a + PGSIZE)) last (u32 (pa + PGSIZE)) perm
  end.

(** The loop stops when [a] reaches [last]: one iteration per page from [a]
    to [last], counted on 32 bits. *)
Definition mappages (pgdir va size pa perm : Z) : M phys Z :=
  let a := PGROUNDDOWN va in
  let last := PGROUNDDOWN (u32 (va + size - 1)) in
  mappages_loop (S (Z.to_nat (u32 (last - a) / PGSIZE))) pgdir a last pa perm.

Fixpoint deallocuvm_loop (fuel : nat) (pgdir a oldsz : Z) : M phys unit :=
  match fuel with
  | O => nofuel
  | S fuel' =>
      if a <? oldsz then
        let! pte := walkpgdir pgdir a false in
        if pte =? 0 then
          let a := u32 (PGADDR (PDX a + 1) 0 0 - PGSIZE) in
          deallocuvm_loop fuel' pgdir (u32 (a + PGSIZE)) oldsz
        else
          let! e := gets (fun s => ld32 (mem s) pte) in
          do! (if nz (Z.land e PTE_P) then
                 let pa := PTE_ADDR e in
                 if pa =? 0 then panic "kfree" else
                 do! kfree (P2V pa) in
                 upd_mem (fun m => st32 m pte 0)
               else ret tt) in
          deallocuvm_loop fuel' pgdir (u32 (a + PGSIZE)) oldsz
      else ret tt
  end.

(** Every iteration advances [a] by a page at least. *)
Definition deallocuvm (pgdir oldsz newsz : Z) : M phys Z :=
  if oldsz <=? newsz then ret oldsz else
  do! deallocuvm_loop (S (Z.to_nat (oldsz / PGSIZE + 1))) pgdir (PGROUNDUP newsz) oldsz in
  ret newsz.

Definition freevm_entry (pgdir i : Z) : M phys unit :=
  let! e := gets (fun s => ld32 (mem s) (pgdir + 4 * i)) in
  if nz (Z.land e PTE_P) then kfree (P2V (PTE_ADDR e)) else ret tt.

Definition freevm (pgdir : Z) : M phys unit :=
  if pgdir =? 0 then panic "freevm: no pgdir" else
  do! deallocuvm pgdir HEAPLIMIT 0 in
  do! mfor (zrange 0 (Z.to_nat NPDENTRIES)) (freevm_entry pgdir) in
  kfree pgdir.

(** The kernel's mappings, present in every page table. *)
Record kmap_entry := mkKmap { virt : Z; phys_start : Z; phys_end : Z; kperm : Z }.

Definition kmap : list kmap_entry :=
  [ mkKmap KERNBASE 0             EXTMEM       PTE_W;   (* I/O space *)
    mkKmap KERNLINK (V2P KERNLINK) (V2P data_)  0;       (* kern text+rodata *)
    mkKmap data_    (V2P data_)    PHYSTOP      PTE_W;   (* kern data+memory *)
    mkKmap DEVSPACE DEVSPACE      0            PTE_W ]. (* more devices *)

Fixpoint setupkvm_loop (ks : list kmap_entry) (pgdir : Z) : M phys Z :=
  match ks with
  | [] => ret pgdir
  | k :: ks' =>
      let! r := mappages pgdir (virt k) (u32 (phys_end k - phys_start k)) (phys_start k) (kperm k) in
      if r <? 0 then do! freevm pgdir in ret 0
      else setupkvm_loop ks' pgdir
  end.

Definition setupkvm : M phys Z :=
  let! pgdir := kalloc in
  if pgdir =? 0 then ret 0 else
  do! upd_mem (fun m => memset m pgdir 0 PGSIZE) in
  if DEVSPACE <? P2V PHYSTOP then panic "PHYSTOP too high" else
  setupkvm_loop kmap pgdir.

Definition inituvm (pgdir init sz : Z) : M phys unit :=
  if PGSIZE <=? sz then panic "inituvm: more than a page" else
  let! page := kalloc in
  if page =? 0 then fault "inituvm: memset of the null page" else
  do! upd_mem (fun m => memset m page 0 PGSIZE) in
  let! _r := mappages pgdir 0 PGSIZE (V2P page) (Z.lor PTE_W PTE_U) in
  upd_mem (fun m => memmove m page init sz).

(** [readi] is the file system's read of the open inode: destination, offset
    in the file, number of bytes; it answers the number of bytes read. *)
Fixpoint loaduvm_loop (readi : Z -> Z -> Z -> M phys Z)
    (fuel : nat) (pgdir addr offset sz i : Z) : M phys Z :=
  match fuel with
  | O => nofuel
  | S fuel' =>
      if i <? sz then
        let! pte := walkpgdir pgdir (u32 (addr + i)) false in
        if pte =? 0 then panic "loaduvm: address should exist" else
        let! e := gets (fun s => ld32 (mem s) pte) in
        let pa := PTE_ADDR e in
        let n := if sz - i <? PGSIZE then sz - i else PGSIZE in
        let! r := readi (P2V pa) (u32 (offset + i)) n in
        if negb (r =? n) then ret (-1)
        else loaduvm_loop readi fuel' pgdir addr offset sz (u32 (i + PGSIZE))
      else ret 0
  end.

Definition loaduvm (readi : Z -> Z -> Z -> M phys Z) (pgdir addr offset sz : Z) : M phys Z :=
  if nz (addr mod PGSIZE) then panic "loaduvm: addr must be page aligned" else
  loaduvm_loop readi (S (Z.to_nat (sz / PGSIZE + 1))) pgdir addr offset sz 0.

Fixpoint allocuvm_loop (fuel : nat) (pgdir a oldsz newsz : Z) : M phys Z :=
  match fuel with
  | O => nofuel
  | S fuel' =>
      if a <? newsz then
        let! page := kalloc in
        if page =? 0 then
          do! deallocuvm pgdir newsz oldsz in ret 0
        else
          do! upd_mem (fun m => memset m page 0 PGSIZE) in
          let! r := mappages pgdir a PGSIZE (V2P page) (Z.lor PTE_W PTE_U) in
          if r <? 0 then
            do! deallocuvm pgdir newsz oldsz in
            do! kfree page in
            ret 0
          else allocuvm_loop fuel' pgdir (u32 (a + PGSIZE)) oldsz newsz
      else ret newsz
  end.

Definition allocuvm (pgdir oldsz newsz : Z) : M phys Z :=
  if HEAPLIMIT <=? newsz then ret 0 else
  if newsz <? oldsz then ret oldsz else
  allocuvm_loop (S (Z.to_nat (newsz / PGSIZE + 1))) pgdir (PGROUNDUP oldsz) oldsz newsz.

Definition clearpteu (pgdir uva : Z) : M phys unit :=
  let! pte := walkpgdir pgdir uva false in
  if pte =? 0 then panic "clearpteu" else
  upd_mem (fun m => st32 m pte (Z.land (ld32 m pte) (u32 (Z.lnot PTE_U)))).

Fixpoint copyuvm_loop (fuel : nat) (pgdir d sz i : Z) : M phys Z :=
  match fuel with
  | O => nofuel
  | S fuel' =>
      if i <? sz then
        let! pte := walkpgdir pgdir i false in
        if pte =? 0 then panic "copyuvm: pte should exist" else
        let! e := gets (fun s => ld32 (mem s) pte) in
        if negb (nz (Z.land e PTE_P)) then panic "copyuvm: page not present" else
        let pa := PTE_ADDR e in
        let flags := PTE_FLAGS e in
        let! page := kalloc in
        if page =? 0 then do! freevm d in ret 0 else
        do! upd_mem (fun m => memmove m page (P2V pa) PGSIZE) in
        let! r := mappages d i PGSIZE (V2P page) flags in
        if r <? 0 then
          do! kfree page in
          do! freevm d in
          ret 0
        else copyuvm_loop fuel' pgdir d sz (u32 (i + PGSIZE))
      else ret d
  end.

Definition copyuvm (pgdir sz : Z) : M phys Z :=
  let! d := setupkvm in
  if d =? 0 then ret 0 else
  copyuvm_loop (S (Z.to_nat (sz / PGSIZE + 1))) pgdir d sz 0.

(** The entry is read without a test of the pointer [walkpgdir] returned. *)
Definition uva2ka (pgdir uva : Z) : M phys Z :=
  let! pte := walkpgdir pgdir uva false in
  if pte =? 0 then fault "uva2ka: null pte" else
  let! e := gets (fun s => ld32 (mem s) pte) in
  if Z.land e PTE_P =? 0 then ret 0 else
  if Z.land e PTE_U =? 0 then ret 0 else
  ret (P2V (PTE_ADDR e)).

Fixpoint copyout_loop (fuel : nat) (pgdir va buf len : Z) : M phys Z :=
  match fuel with
  | O => nofuel
  | S fuel' =>
      if 0 <? len then
        let va0 := PGROUNDDOWN va in
        let! pa0 := uva2ka pgdir va0 in
        if pa0 =? 0 then ret (-1) else
        let n := PGSIZE - (va - va0) in
        let n := if len <? n then len else n in
        do! upd_mem (fun m => memmove m (pa0 + (va - va0)) buf n) in
        copyout_loop fuel' pgdir (u32 (va0 + PGSIZE)) (buf + n) (len - n)
      else ret 0
  end.

Definition copyout (pgdir va p len : Z) : M phys Z :=
  copyout_loop (S (Z.to_nat (len / PGSIZE + 2))) pgdir va p len.

(** ** The abstract view of a page table *)

Definition pde_at (m : memory) (pgdir i : Z) : Z := ld32 m (pgdir + 4 * i).

Definition present (e : Z) : bool := nz (Z.land e PTE_P).

(** The page table page of directory entry [i]. *)
Definition pgtab_at (m : memory) (pgdir i : Z) : Z := P2V (PTE_ADDR (pde_at m pgdir i)).

(** The entry the hardware finds for [va]; 0, not present, without a table. *)
Definition pte_view (m : memory) (pgdir va : Z) : Z :=
  if present (pde_at m pgdir (PDX va))
  then ld32 m (pgtab_at m pgdir (PDX va) + 4 * PTX va) else 0.

(** A page that holds the directory or one of its tables. *)
Definition pt_page (m : memory) (pgdir q : Z) : Prop :=
  q = pgdir \/
  exists i, 0 <= i < 1024 /\ present (pde_at m pgdir i) = true /\ q = pgtab_at m pgdir i.

(** Well-formed: the directory and its tables are pages of their own, none
    of them free. *)
Record pgdir_ok (m : memory) (pgdir : Z) (fl : list Z) : Prop := {
  dir_page : is_page pgdir;
  dir_used : pgdir ∉ fl;
  tab_ok : forall i, 0 <= i < 1024 -> present (pde_at m pgdir i) = true ->
    is_page (pgtab_at m pgdir i) /\ pgtab_at m pgdir i <> pgdir /\ pgtab_at m pgdir i ∉ fl;
  tab_inj : forall i j, 0 <= i < 1024 -> 0 <= j < 1024 ->
    present (pde_at m pgdir i) = true -> present (pde_at m pgdir j) = true ->
    pgtab_at m pgdir i = pgtab_at m pgdir j -> i = j;
}.

(** The bytes of a page are the same in two memories. *)
Definition same_bytes (m m' : memory) (q : Z) : Prop :=
  forall b, q <= b < q + 4096 -> ld8 m' b = ld8 m b.

(** What an operation on [pgdir] that only takes pages from the free list
    guarantees: the allocator and the page table stay well formed, and a page
    that is neither free nor a page of the table keeps its bytes. *)
Record vm_step (pgdir : Z) (fl : list Z) (s : phys) (fl' : list Z) (s' : phys) : Prop := {
  vs_phys : phys_ok fl' s';
  vs_dir : pgdir_ok (mem s') pgdir fl';
  vs_free : exists used, fl = used ++ fl';
  vs_pt : forall q, pt_page (mem s') pgdir q ->
    pt_page (mem s) pgdir q \/ (q ∈ fl /\ q ∉ fl');
  vs_mono : forall q, pt_page (mem s) pgdir q -> pt_page (mem s') pgdir q;
  vs_cover : forall q, q ∈ fl -> q ∈ fl' \/ pt_page (mem s') pgdir q;
  vs_frame : forall q, is_page q -> ~ pt_page (mem s) pgdir q -> q ∉ fl ->
    same_bytes (mem s) (mem s') q;
  vs_lock : use_lock s' = use_lock s;
}.

(** The view after [n] pages from [a] were mapped to [pa] on. *)
Definition map_view (f : Z -> Z) (a n pa perm : Z) (va : Z) : Z :=
  if (a <=? va) && (va <? a + n * PGSIZE)
  then mk_pte (pa + (va - a) / PGSIZE * PGSIZE) perm
  else f va.

End vm.

(** * Lemmas *)

Section vm_proofs.
Context {K : KernelImage} {KI : KernelImageOk K}.

(** ** Views and frames *)

Lemma same_bytes_refl m q : same_bytes m m q.
Proof. by intros b _. Qed.

Lemma same_bytes_trans m m' m'' q :
  same_bytes m m' q -> same_bytes m' m'' q -> same_bytes m m'' q.
Proof. intros H1 H2 b Hb. by rewrite H2, H1. Qed.

(** A store in one page leaves another page alone. *)
Lemma same_bytes_st32 m p q a v :
  is_page p -> is_page q -> p <> q -> p <= a -> a + 4 <= p + 4096 ->
  same_bytes m (st32 m a v) q.
Proof.
  intros Hp Hq Hne H1 H2 b Hb. apply ld8_st32_ne.
  destruct (is_page_disjoint p q Hp Hq Hne); lia.
Qed.

Lemma same_bytes_memset m p q c :
  is_page p -> is_page q -> p <> q -> same_bytes m (memset m p c PGSIZE) q.
Proof.
  intros Hp Hq Hne b Hb. rewrite ld8_memset by alia.
  destruct (is_page_disjoint p q Hp Hq Hne); consts; zcases; done.
Qed.

Lemma pde_at_ext m m' pgdir i :
  0 <= i < 1024 -> same_bytes m m' pgdir -> pde_at m' pgdir i = pde_at m pgdir i.
Proof. intros Hi H. unfold pde_at. apply ld32_ext. intros b Hb. apply H. lia. Qed.

Lemma pgtab_at_ext m m' pgdir i :
  0 <= i < 1024 -> same_bytes m m' pgdir -> pgtab_at m' pgdir i = pgtab_at m pgdir i.
Proof. intros Hi H. unfold pgtab_at. by rewrite (pde_at_ext m m'). Qed.

(** The view depends only on the pages of the table. *)
Lemma pte_view_ext m m' pgdir va :
  (forall q, pt_page m pgdir q -> same_bytes m m' q) ->
  pte_view m' pgdir va = pte_view m pgdir va.
Proof.
  intros H. pose proof (PDX_range va). pose proof (PTX_range va).
  assert (same_bytes m m' pgdir) as Hd by (apply H; by left).
  unfold pte_view. rewrite (pde_at_ext m m'), (pgtab_at_ext m m') by done.
  destruct (present _) eqn:E; [|done].
  apply ld32_ext. intros b Hb. apply (H (pgtab_at m pgdir (PDX va))); [|lia].
  right. by exists (PDX va).
Qed.

Lemma pt_page_ext m m' pgdir q :
  same_bytes m m' pgdir -> pt_page m' pgdir q <-> pt_page m pgdir q.
Proof.
  intros Hd. unfold pt_page. split; (intros [->|(i & Hi & Hp & ->)]; [by left | right; exists i]).
  - rewrite (pde_at_ext m m') in Hp by done. by rewrite (pgtab_at_ext m m').
  - by rewrite (pde_at_ext m m'), (pgtab_at_ext m m').
Qed.

Lemma pgdir_ok_ext m m' pgdir fl fl' :
  same_bytes m m' pgdir -> (forall q, q ∈ fl' -> q ∈ fl) ->
  pgdir_ok m pgdir fl -> pgdir_ok m' pgdir fl'.
Proof.
  intros Hd Hsub [H1 H2 H3 H4]. split.
  - done.
  - naive_solver.
  - intros i Hi. rewrite (pde_at_ext m m'), (pgtab_at_ext m m') by done.
    intros (Ha & Hb & Hc)%H3; [|done]. naive_solver.
  - intros i j Hi Hj. rewrite !(pde_at_ext m m'), !(pgtab_at_ext m m') by done. by apply H4.
Qed.

Lemma pt_page_is_page m pgdir fl q : pgdir_ok m pgdir fl -> pt_page m pgdir q -> is_page q /\ q ∉ fl.
Proof.
  intros [H1 H2 H3 H4] [->|(i & Hi & Hp & ->)]; [done|].
  by destruct (H3 i Hi Hp) as (? & ? & ?).
Qed.

Lemma pte_view_page m pgdir va vb :
  is_u32 va -> is_u32 vb -> va / 4096 = vb / 4096 -> pte_view m pgdir va = pte_view m pgdir vb.
Proof.
  intros Ha Hb Heq. unfold pte_view. by rewrite (PDX_page va vb), (PTX_page va vb).
Qed.

(** ** Composition of steps *)

Lemma vm_step_refl pgdir fl s :
  phys_ok fl s -> pgdir_ok (mem s) pgdir fl -> vm_step pgdir fl s fl s.
Proof.
  intros Hp Hd. split; try done.
  - by exists [].
  - by left.
  - by left.
Qed.

(** A step that changes neither memory nor the free list. *)
Lemma vm_step_same pgdir fl s s' :
  phys_ok fl s -> pgdir_ok (mem s) pgdir fl -> phys_ok fl s' ->
  mem s' = mem s -> use_lock s' = use_lock s -> vm_step pgdir fl s fl s'.
Proof.
  intros Hp Hd Hp' Hm Hu. split; rewrite ?Hm; [done | done | by exists [] | by left | done | by left | | done].
  intros. apply same_bytes_refl.
Qed.

Lemma vm_step_trans pgdir fl s fl1 s1 fl2 s2 :
  vm_step pgdir fl s fl1 s1 -> vm_step pgdir fl1 s1 fl2 s2 -> vm_step pgdir fl s fl2 s2.
Proof.
  intros [P1 D1 [u1 F1] T1 M1 C1 R1 L1] [P2 D2 [u2 F2] T2 M2 C2 R2 L2].
  pose proof (ok_nodup _ _ P1) as Hn1. split; try done.
  - exists (u1 ++ u2). by rewrite F1, F2, app_assoc.
  - intros q [H|[H1 H2]]%T2.
    + apply T1 in H as [H|[Ha Hb]]; [by left|right]. split; [done|].
      intros Hin. apply Hb. rewrite F2. set_solver.
    + right. split; [|done]. rewrite F1. set_solver.
  - intros q Hq. by apply M2, M1.
  - intros q [H|H]%C1; [by apply C2|right; by apply M2].
  - intros q Hq Hpt Hfl. eapply same_bytes_trans; [by apply R1|]. apply R2; [done| |].
    + intros [H|[H _]]%T1; done.
    + rewrite F1 in Hfl. set_solver.
  - congruence.
Qed.

(** ** Writing an entry *)

Lemma vm_step_store pgdir fl s va v :
  phys_ok fl s -> pgdir_ok (mem s) pgdir fl -> is_u32 va -> is_u32 v ->
  present (pde_at (mem s) pgdir (PDX va)) = true ->
  let s' := set_mem (st32 (mem s) (pgtab_at (mem s) pgdir (PDX va) + 4 * PTX va) v) s in
  vm_step pgdir fl s fl s' /\
  forall vb, is_u32 vb ->
    pte_view (mem s') pgdir vb = if vb / 4096 =? va / 4096 then v else pte_view (mem s) pgdir vb.
Proof.
  intros Hok Hd Hva Hv Hp. cbn zeta. simpl.
  pose proof (PDX_range va) as Hpdx. pose proof (PTX_range va) as Hptx.
  destruct (tab_ok _ _ _ Hd (PDX va) Hpdx Hp) as (Htp & Htd & Htf).
  set (t := pgtab_at (mem s) pgdir (PDX va)) in *.
  assert (Hsame : forall q, is_page q -> q <> t ->
    same_bytes (mem s) (st32 (mem s) (t + 4 * PTX va) v) q).
  { intros q Hq Hne. apply (same_bytes_st32 _ t); (done || lia). }
  assert (Hdir : same_bytes (mem s) (st32 (mem s) (t + 4 * PTX va) v) pgdir).
  { apply Hsame; [apply Hd | done]. }
  split.
  - split; simpl; [| |by exists []| | |by left| |done].
    + apply phys_ok_frame; [done|]. intros q b Hq. apply Hsame; [by eapply phys_ok_page|].
      by intros ->.
    + by apply (pgdir_ok_ext (mem s) _ _ fl).
    + intros q Hq. left. by rewrite pt_page_ext in Hq.
    + intros q Hq. by rewrite pt_page_ext.
    + intros q Hq Hpt _. apply Hsame; [done|]. intros ->. apply Hpt. right. by exists (PDX va).
  - intros vb Hvb. unfold pte_view. pose proof (PDX_range vb) as Hpdb. pose proof (PTX_range vb).
    rewrite (pde_at_ext (mem s)), (pgtab_at_ext (mem s)) by done.
    destruct (Z.eqb_spec (vb / 4096) (va / 4096)) as [E|E].
    + rewrite (PDX_page vb va), (PTX_page vb va) by done. rewrite Hp. by apply ld32_st32_eq.
    + destruct (present (pde_at (mem s) pgdir (PDX vb))) eqn:Hpb; [|done].
      destruct (decide (PDX vb = PDX va)) as [Ex|Ex].
      * rewrite Ex. fold t. apply ld32_st32_ne.
        assert (PTX vb <> PTX va) by (intros ?; by apply E, same_page). lia.
      * destruct (tab_ok _ _ _ Hd (PDX vb) Hpdb Hpb) as (Hbp & _ & _).
        apply ld32_ext. intros b Hb. apply (Hsame (pgtab_at (mem s) pgdir (PDX vb))); [done| |lia].
        intros Heq. by apply Ex, (tab_inj _ _ _ Hd).
Qed.

(** ** Adding a table *)

(** The directory entry that points to the table page [p]. *)
Lemma new_pde_eq p :
  is_page p -> Z.lor (Z.lor (Z.lor (V2P p) PTE_P) PTE_W) PTE_U = V2P p + 7.
Proof.
  intros Hp. pose proof (is_page_range p Hp) as [Hr Hm].
  rewrite V2P_high by alia. rewrite <- !Z.lor_assoc. change (Z.lor PTE_P (Z.lor PTE_W PTE_U)) with 7.
  apply lor_flags; alia.
Qed.

Lemma new_pde_spec p :
  is_page p -> is_u32 (V2P p + 7) /\ present (V2P p + 7) = true /\ P2V (PTE_ADDR (V2P p + 7)) = p.
Proof.
  intros Hp. pose proof (is_page_range p Hp) as [Hr Hm].
  rewrite V2P_high by alia. split_and!.
  - alia.
  - unfold present. rewrite PTE_P_odd, nz_true. alia.
  - rewrite PTE_ADDR_eq by alia. unfold P2V. rewrite u32_small by alia. alia.
Qed.

Lemma vm_step_new_table pgdir p fl s i :
  phys_ok fl s -> pgdir_ok (mem s) pgdir (p :: fl) -> is_page p -> p ∉ fl -> 0 <= i < 1024 ->
  present (pde_at (mem s) pgdir i) = false ->
  let s' := set_mem (st32 (memset (mem s) p 0 PGSIZE) (pgdir + 4 * i) (V2P p + 7)) s in
  vm_step pgdir (p :: fl) s fl s' /\
  (forall vb, pte_view (mem s') pgdir vb = pte_view (mem s) pgdir vb) /\
  present (pde_at (mem s') pgdir i) = true /\ pgtab_at (mem s') pgdir i = p.
Proof.
  intros Hok Hd Hp Hnin Hi Hnp. cbn zeta. simpl.
  destruct (new_pde_spec p Hp) as (Hu & Hpres & Haddr).
  pose proof (dir_page _ _ _ Hd) as Hdp.
  assert (pgdir <> p /\ pgdir ∉ fl) as [Hdne Hdfl]
    by (pose proof (dir_used _ _ _ Hd) as H; rewrite not_elem_of_cons in H; done).
  set (m' := st32 (memset (mem s) p 0 PGSIZE) (pgdir + 4 * i) (V2P p + 7)).
  assert (Hsame : forall q, is_page q -> q <> p -> q <> pgdir -> same_bytes (mem s) m' q).
  { intros q Hq H1 H2. eapply same_bytes_trans; [by apply (same_bytes_memset _ p)|].
    apply (same_bytes_st32 _ pgdir); (done || lia). }
  assert (Hpde : forall j, 0 <= j < 1024 ->
    pde_at m' pgdir j = if j =? i then V2P p + 7 else pde_at (mem s) pgdir j).
  { intros j Hj. unfold pde_at, m'. destruct (Z.eqb_spec j i) as [->|].
    - by rewrite ld32_st32_eq.
    - rewrite ld32_st32_ne by lia. apply ld32_ext. intros b Hb.
      apply (same_bytes_memset _ p pgdir); [done..|lia]. }
  assert (Htab : forall j, 0 <= j < 1024 ->
    pgtab_at m' pgdir j = if j =? i then p else pgtab_at (mem s) pgdir j).
  { intros j Hj. unfold pgtab_at. rewrite Hpde by done. by destruct (Z.eqb_spec j i). }
  assert (Holdtab : forall j, 0 <= j < 1024 -> present (pde_at (mem s) pgdir j) = true ->
    is_page (pgtab_at (mem s) pgdir j) /\ pgtab_at (mem s) pgdir j <> pgdir /\
    pgtab_at (mem s) pgdir j <> p /\ pgtab_at (mem s) pgdir j ∉ fl).
  { intros j Hj Hpj. destruct (tab_ok _ _ _ Hd j Hj Hpj) as (? & ? & H).
    rewrite not_elem_of_cons in H. tauto. }
  split_and!.
  - split; simpl.
    + apply phys_ok_frame; [done|]. intros q b Hq. apply Hsame.
      * by eapply phys_ok_page. * by intros ->. * by intros ->.
    + split; [done..| |].
      * intros j Hj. rewrite Hpde, Htab by done. destruct (Z.eqb_spec j i); [done|].
        intros Hpj. destruct (Holdtab j Hj Hpj); tauto.
      * intros j k Hj Hk. rewrite !Hpde, !Htab by done.
        destruct (Z.eqb_spec j i), (Z.eqb_spec k i); try congruence.
        -- intros _ Hpk Heq. destruct (Holdtab k Hk Hpk); naive_solver.
        -- intros Hpj _ Heq. destruct (Holdtab j Hj Hpj); naive_solver.
        -- intros Hpj Hpk Heq. by apply (tab_inj _ _ _ Hd).
    + by exists [p].
    + intros q [->|(j & Hj & Hpj & ->)]; [left; by left|].
      rewrite Hpde in Hpj by done. rewrite Htab by done.
      destruct (Z.eqb_spec j i); [right; split; [left | done]|left; right; by exists j].
    + intros q [->|(j & Hj & Hpj & ->)]; [by left|right; exists j].
      rewrite Hpde, Htab by done. destruct (Z.eqb_spec j i) as [->|]; [congruence | done].
    + intros q [->|Hq]%elem_of_cons; [|by left]. right. right. exists i.
      rewrite Hpde, Htab, Z.eqb_refl by done. done.
    + intros q Hq Hpt Hfl. rewrite not_elem_of_cons in Hfl. apply Hsame; [done|tauto|].
      intros ->. apply Hpt. by left.
    + done.
  - intros vb. unfold pte_view. pose proof (PDX_range vb). pose proof (PTX_range vb).
    rewrite Hpde, Htab by done. destruct (Z.eqb_spec (PDX vb) i) as [E|E].
    + rewrite E, Hpres, Hnp. unfold ld32, m'.
      destruct (is_page_disjoint p pgdir) as [Hdis|Hdis]; [done..| |].
      all: rewrite !ld8_st32_ne, !ld8_memset by alia; consts; zcases; reflexivity.
    + destruct (present (pde_at (mem s) pgdir (PDX vb))) eqn:Hpb; [|done].
      destruct (Holdtab (PDX vb)) as (? & ? & ? & ?); [done..|].
      apply ld32_ext. intros b Hb. eapply Hsame; [| | |]; try done. lia.
  - rewrite Hpde, Z.eqb_refl by done. done.
  - rewrite Htab, Z.eqb_refl by done. done.
Qed.

(** ** walkpgdir *)

Lemma walkpgdir_look pgdir va s :
  walkpgdir pgdir va false s =
  Ret (if present (pde_at (mem s) pgdir (PDX va))
       then pgtab_at (mem s) pgdir (PDX va) + 4 * PTX va else 0) s.
Proof. unfold walkpgdir, present, pde_at, bind, gets. by destruct (nz _). Qed.

Lemma walkpgdir_alloc pgdir va fl s :
  phys_ok fl s -> pgdir_ok (mem s) pgdir fl ->
  wp (walkpgdir pgdir va true) (fun r s' =>
    exists fl', vm_step pgdir fl s fl' s' /\
    (forall vb, pte_view (mem s') pgdir vb = pte_view (mem s) pgdir vb) /\
    ((r = 0 /\ fl' = []) \/
     (r <> 0 /\ r = pgtab_at (mem s') pgdir (PDX va) + 4 * PTX va /\
      present (pde_at (mem s') pgdir (PDX va)) = true))) s.
Proof.
  intros Hok Hd. pose proof (PDX_range va) as Hpd. pose proof (PTX_range va) as Hpt.
  unfold walkpgdir. cbn zeta. wp_steps. fold (pde_at (mem s) pgdir (PDX va)).
  fold (present (pde_at (mem s) pgdir (PDX va))).
  destruct (present (pde_at (mem s) pgdir (PDX va))) eqn:Hp.
  - apply wpx_ret. exists fl. split_and!; [by apply vm_step_refl | done | right].
    destruct (tab_ok _ _ _ Hd _ Hpd Hp) as (Ht%is_page_range & _).
    split_and!; [|done..]. fold (pgtab_at (mem s) pgdir (PDX va)). alia.
  - cbn [negb]. wp_step. wp_use (kalloc_spec fl s); [done|].
    intros r s1 (Hm & Hu & Hr & Hok1). destruct fl as [|p fl]; simpl in Hr, Hok1; subst r.
    + simpl. apply wpx_ret. exists []. split_and!; [| |by left].
      * by apply vm_step_same.
      * intros vb. by rewrite Hm.
    + assert (is_page p) as Hpp by (apply (phys_ok_page _ _ p Hok); left).
      pose proof (ok_nodup _ _ Hok) as Hnd. apply NoDup_cons in Hnd as [Hnin _].
      rewrite (proj2 (Z.eqb_neq p 0)) by (by apply is_page_nz). wp_steps.
      rewrite new_pde_eq by done. rewrite <- Hm in Hd, Hp. simpl.
      destruct (vm_step_new_table pgdir p fl s1 (PDX va)) as (Hst & Hv & Hpr & Ht); [done..|].
      simpl in Hst, Hv, Hpr, Ht. exists fl. split_and!.
      * destruct Hst as [A B C D F G H I]. split; rewrite <- ?Hm, <- ?Hu; done.
      * intros vb. rewrite <- Hm. apply Hv.
      * right. split_and!; [|by rewrite Ht|done]. apply is_page_range in Hpp. alia.
Qed.

(** ** mappages *)

Lemma mk_pte_eq pa perm :
  pa mod 4096 = 0 -> 0 <= perm < 4096 -> mk_pte pa perm = pa + Z.lor perm 1 /\ 0 <= Z.lor perm 1 < 4096.
Proof.
  intros Hpa Hperm. assert (0 <= Z.lor perm 1 < 4096).
  { split; [apply Z.lor_nonneg; lia|].
    destruct (Z.eq_dec (Z.lor perm 1) 0) as [->|]; [lia|].
    assert (0 <= Z.lor perm 1) by (apply Z.lor_nonneg; lia).
    change 4096 with (2 ^ 12). apply Z.log2_lt_pow2; [lia|].
    rewrite Z.log2_lor by lia. apply Z.max_lub_lt; [|done].
    destruct (Z.eq_dec perm 0) as [->|]; [done|]. apply Z.log2_lt_pow2; [lia|]. simpl. lia. }
  split; [|done]. unfold mk_pte, PTE_P. rewrite <- Z.lor_assoc. by apply lor_flags.
Qed.

Lemma mk_pte_u32 pa perm :
  pa mod 4096 = 0 -> is_u32 pa -> 0 <= perm < 4096 -> is_u32 (mk_pte pa perm).
Proof. intros H1 H2 H3. destruct (mk_pte_eq pa perm H1 H3) as [-> ?]. alia. Qed.

Lemma mk_pte_present pa perm : present (mk_pte pa perm) = true.
Proof.
  unfold present, mk_pte, PTE_P. rewrite Z.land_comm, Z.land_lor_distr_r.
  apply nz_true. intros H. apply Z.lor_eq_0_iff in H as [_ H]. done.
Qed.

Lemma mk_pte_addr pa perm :
  pa mod 4096 = 0 -> is_u32 pa -> 0 <= perm < 4096 -> PTE_ADDR (mk_pte pa perm) = pa.
Proof.
  intros H1 H2 H3. rewrite PTE_ADDR_eq by (by apply mk_pte_u32).
  destruct (mk_pte_eq pa perm H1 H3) as [-> ?]. alia.
Qed.

(** The failure value of a mapping that ran out of page table pages. *)
Definition map_result (n k : Z) (fl' : list Z) (r : Z) : Prop :=
  (r = 0 /\ k = n) \/ (r = -1 /\ 0 <= k < n /\ fl' = []).

(** One iteration of the loop: out of memory, a page already mapped, or the
    entry is written. *)
Lemma map_one_wp pgdir a pa perm (k : M phys Z) Q E fl s :
  phys_ok fl s -> pgdir_ok (mem s) pgdir fl -> is_u32 a ->
  pa mod 4096 = 0 -> is_u32 pa -> 0 <= perm < 4096 ->
  (forall s', vm_step pgdir fl s [] s' ->
     (forall va, pte_view (mem s') pgdir va = pte_view (mem s) pgdir va) -> Q (-1) s') ->
  (present (pte_view (mem s) pgdir a) = true -> E "remap") ->
  (forall fl' s', vm_step pgdir fl s fl' s' -> present (pte_view (mem s) pgdir a) = false ->
     (forall va, is_u32 va -> pte_view (mem s') pgdir va =
        if va / 4096 =? a / 4096 then mk_pte pa perm else pte_view (mem s) pgdir va) ->
     wpx k Q E s') ->
  wpx (let! pte := walkpgdir pgdir a true in
       if pte =? 0 then ret (-1) else
       let! e := gets (fun s => ld32 (mem s) pte) in
       if nz (Z.land e PTE_P) then panic "remap" else
       do! upd_mem (fun m => st32 m pte (mk_pte pa perm)) in k) Q E s.
Proof.
  intros Hok Hd Ha Hal Hpa Hperm HF HE HK.
  wp_step. wp_use (walkpgdir_alloc pgdir a fl s); [done..|].
  intros r s1 (fl1 & Hst & Hv & [[-> ->]|(Hr0 & Hr & Hp)]).
  - simpl. apply wpx_ret. by apply HF.
  - rewrite (proj2 (Z.eqb_neq r 0)) by done. wp_steps.
    assert (ld32 (mem s1) r = pte_view (mem s) pgdir a) as ->.
    { rewrite <- Hv. unfold pte_view. by rewrite Hp, Hr. }
    fold (present (pte_view (mem s) pgdir a)).
    destruct (present (pte_view (mem s) pgdir a)) eqn:Hpr; [by apply wpx_panic, HE|].
    wp_steps. rewrite Hr.
    destruct (vm_step_store pgdir fl1 s1 a (mk_pte pa perm)) as (Hst2 & Hv2);
      [apply Hst | apply Hst | done | by apply mk_pte_u32 | done |].
    eapply HK; [by eapply vm_step_trans | done|].
    intros va Hva. rewrite Hv2, Hv by done. done.
Qed.

(** Mapping one page and then [k] more is mapping [k + 1] pages. *)
Lemma map_view_cons f f1 a k pa perm va :
  0 <= k -> a mod 4096 = 0 ->
  (forall vb, is_u32 vb -> f1 vb = if vb / 4096 =? a / 4096 then mk_pte pa perm else f vb) ->
  is_u32 va ->
  map_view f1 (a + 4096) k (pa + 4096) perm va = map_view f a (k + 1) pa perm va.
Proof.
  intros Hk Ha Hf Hva. unfold map_view. rewrite Hf by done. consts.
  destruct (Z.leb_spec (a + 4096) va), (Z.ltb_spec va (a + 4096 + k * 4096)),
    (Z.leb_spec a va), (Z.ltb_spec va (a + (k + 1) * 4096)), (Z.eqb_spec (va / 4096) (a / 4096));
    cbn [andb]; try dlia; try done.
  - f_equal. dlia.
  - f_equal. dlia.
Qed.

Lemma map_view_0 f a pa perm va : map_view f a 0 pa perm va = f va.
Proof. unfold map_view. by zcases. Qed.

Lemma mappages_loop_spec pgdir perm : forall n a pa fl s,
  phys_ok fl s -> pgdir_ok (mem s) pgdir fl ->
  0 <= a -> a mod 4096 = 0 -> a + Z.of_nat (S n) * 4096 <= 4294967296 ->
  0 <= pa -> pa mod 4096 = 0 -> pa + Z.of_nat (S n) * 4096 <= 4294967296 ->
  0 <= perm < 4096 ->
  wpx (mappages_loop (S n) pgdir a (a + Z.of_nat n * 4096) pa perm)
    (fun r s' => exists fl' k, vm_step pgdir fl s fl' s' /\ map_result (Z.of_nat (S n)) k fl' r /\
      (forall va, is_u32 va ->
         pte_view (mem s') pgdir va = map_view (pte_view (mem s) pgdir) a k pa perm va) /\
      (forall va, a <= va < a + k * 4096 -> present (pte_view (mem s) pgdir va) = false))
    (fun msg => msg = "remap" /\
      exists va, a <= va < a + Z.of_nat (S n) * 4096 /\ present (pte_view (mem s) pgdir va) = true) s.
Proof.
  induction n as [|n IH]; intros a pa fl s Hok Hd Ha Haal Hae Hpa Hpaal Hpae Hperm.
  all: cbn [mappages_loop]; apply (map_one_wp pgdir a pa perm _ _ _ fl); [done | done | alia | done | alia | done | | |].
  (* out of memory, in both cases *)
  1, 4: intros s' Hst Hv; exists [], 0; split_and!; [done | right; split_and!; [done | lia | lia | done] | |lia];
    intros va Hva; rewrite map_view_0; apply Hv.
  1, 3: intros Hp; split; [done|]; exists a; split; [lia | done].
  - intros fl1 s1 Hst Hnp Hv. rewrite (proj2 (Z.eqb_eq a _)) by lia. apply wpx_ret.
    exists fl1, 1. split_and!; [done | by left | |].
    + intros va Hva. rewrite <- (map_view_cons _ (pte_view (mem s1) pgdir) a 0 pa perm va) by (lia || done).
      by rewrite map_view_0.
    + intros va Hva. rewrite (pte_view_page _ _ va a) by alia. done.
  - intros fl1 s1 Hst Hnp Hv. rewrite (proj2 (Z.eqb_neq a _)) by lia.
    rewrite !u32_small by alia. replace (a + Z.of_nat (S n) * 4096) with (a + PGSIZE + Z.of_nat n * 4096) by (consts; lia).
    assert (Hother : forall va, a + 4096 <= va < a + Z.of_nat (S (S n)) * 4096 ->
      pte_view (mem s1) pgdir va = pte_view (mem s) pgdir va).
    { intros va Hva. rewrite Hv by alia. destruct (Z.eqb_spec (va / 4096) (a / 4096)); [alia|done]. }
    eapply wpx_mono; [apply (IH (a + PGSIZE) (pa + PGSIZE) fl1 s1); [apply Hst | apply Hst | alia..]| |].
    + intros r s2 (fl2 & k & Hst2 & Hres & Hv2 & Hnp2). exists fl2, (k + 1).
      assert (0 <= k < Z.of_nat (S (S n))) as Hk by (destruct Hres as [[_ ->]|(_ & ? & _)]; lia).
      split_and!.
      * by eapply vm_step_trans.
      * destruct Hres as [[-> ->]|(-> & ? & ->)]; [left; lia | right; split_and!; (done || lia)].
      * intros va Hva. rewrite Hv2 by done. apply map_view_cons; (done || lia).
      * intros va Hva. destruct (Z.lt_ge_cases va (a + 4096)).
        -- rewrite (pte_view_page _ _ va a) by alia. done.
        -- rewrite <- Hother by lia. apply Hnp2. consts. lia.
    + intros msg (-> & va & Hva & Hp). split; [done|]. exists va. consts. split; [lia|].
      rewrite <- Hother; [done|lia].
Qed.

(** [mappages] on a page-aligned range of [n] pages. *)
Lemma mappages_spec pgdir va n pa perm fl s :
  phys_ok fl s -> pgdir_ok (mem s) pgdir fl -> 0 < n ->
  0 <= va -> va mod 4096 = 0 -> va + n * 4096 <= 4294967296 ->
  0 <= pa -> pa mod 4096 = 0 -> pa + n * 4096 <= 4294967296 -> 0 <= perm < 4096 ->
  wpx (mappages pgdir va (n * 4096) pa perm)
    (fun r s' => exists fl' k, vm_step pgdir fl s fl' s' /\ map_result n k fl' r /\
      (forall vb, is_u32 vb ->
         pte_view (mem s') pgdir vb = map_view (pte_view (mem s) pgdir) va k pa perm vb) /\
      (forall vb, va <= vb < va + k * 4096 -> present (pte_view (mem s) pgdir vb) = false))
    (fun msg => msg = "remap" /\
      exists vb, va <= vb < va + n * 4096 /\ present (pte_view (mem s) pgdir vb) = true) s.
Proof.
  intros Hok Hd Hn Hva Hal Hve Hpa Hpal Hpe Hperm. unfold mappages. cbn zeta.
  rewrite (PGROUNDDOWN_eq va), Hal, Z.sub_0_r by alia.
  rewrite (u32_small (va + n * 4096 - 1)) by alia. rewrite PGROUNDDOWN_eq by alia.
  replace (va + n * 4096 - 1 - (va + n * 4096 - 1) mod 4096)
    with (va + Z.of_nat (Z.to_nat (n - 1)) * 4096) by alia.
  rewrite u32_small by alia.
  replace (Z.to_nat ((va + Z.of_nat (Z.to_nat (n - 1)) * 4096 - va) / PGSIZE))
    with (Z.to_nat (n - 1)) by alia.
  pose proof (mappages_loop_spec pgdir perm (Z.to_nat (n - 1)) va pa fl s) as H.
  replace (Z.of_nat (S (Z.to_nat (n - 1)))) with n in H by lia. by apply H.
Qed.

End vm_proofs.
