(* ===== verification/Demo.v ===== *)
(** * A small concrete machine

    Free pages, an empty page directory and a kernel image: the inputs at
    which the theorems of the memory components are applied to show that
    their hypotheses can hold. *)

From S2P Require Import Prelude.
From S2P Require Import CString.
From S2P Require Import Mmu.
From S2P Require Import Kalloc.
From S2P Require Import Vm.

Open Scope Z_scope.

#[local] Existing Instances demo_image demo_image_ok.

(** Memory in which the pages [l] form a free list. *)
Fixpoint demo_chain (l : list Z) : memory :=
  match l with
  | [] => ∅
  | p :: l' => st32 (demo_chain l') p (hd 0 l')
  end.

(** Eight free pages, and the page of an empty page directory. *)
Definition demo_pages : list Z := map (fun i => 0x80200000 + i * 4096) (zrange 0 8).
Definition demo_dir : Z := 0x80300000.
Definition demo_phys : phys := mkPhys (demo_chain demo_pages) (hd 0 demo_pages) true false.

(** * Lemmas *)

Lemma demo_pages_eq :
  demo_pages = [0x80200000; 0x80201000; 0x80202000; 0x80203000;
                0x80204000; 0x80205000; 0x80206000; 0x80207000].
Proof. reflexivity. Qed.

Lemma ld8_demo_chain l b :
  (forall p, p ∈ l -> b < p \/ p + 4 <= b) -> ld8 (demo_chain l) b = 0.
Proof.
  induction l as [|p l IH]; intros Hb; simpl; [reflexivity|].
  rewrite ld8_st32_ne by (apply Hb; left). apply IH. intros q Hq. apply Hb. by right.
Qed.

Lemma demo_chain_ok l :
  Forall (is_page) l -> NoDup l -> free_chain (demo_chain l) (hd 0 l) l.
Proof.
  induction 1 as [|p l Hp Hl IH]; intros Hnd; simpl; [done|].
  apply NoDup_cons in Hnd as [Hn Hnd]. split_and!; [done..|].
  assert (is_u32 (hd 0 l)).
  { destruct l; [done|]. by eapply is_page_u32, Forall_inv. }
  rewrite ld32_st32_eq by done. eapply free_chain_frame; [|by apply IH].
  intros q b Hq Hb. apply ld8_st32_ne.
  assert (Hq' : is_page q) by (by eapply Forall_forall).
  assert (p <> q) by (by intros ->). destruct (is_page_disjoint p q Hp Hq' ltac:(done)); lia.
Qed.

Lemma demo_pages_page p : p ∈ demo_pages -> is_page p /\ 0x80200000 <= p < 0x80208000.
Proof.
  unfold demo_pages. intros (i & -> & Hi)%list_elem_of_fmap. apply elem_of_zrange in Hi.
  unfold is_page, end_, demo_image. consts. split; [split|]; dlia.
Qed.

Lemma demo_phys_ok : phys_ok demo_pages demo_phys.
Proof.
  split; [|by apply (bool_decide_unpack _); vm_compute|done].
  apply demo_chain_ok; [|by apply (bool_decide_unpack _); vm_compute].
  apply Forall_forall. intros p. apply demo_pages_page.
Qed.

Lemma demo_dir_zero b : demo_dir <= b < demo_dir + 4096 -> ld8 (mem demo_phys) b = 0.
Proof.
  intros Hb. apply ld8_demo_chain. intros p [_ Hp]%demo_pages_page. unfold demo_dir in *. lia.
Qed.

Lemma demo_pde i : 0 <= i < 1024 -> pde_at (mem demo_phys) demo_dir i = 0.
Proof. intros Hi. unfold pde_at, ld32. rewrite !demo_dir_zero by lia. reflexivity. Qed.

Lemma demo_dir_ok : pgdir_ok (mem demo_phys) demo_dir demo_pages.
Proof.
  split.
  - unfold is_page, end_, demo_image, demo_dir. consts. split; [reflexivity|lia].
  - intros [_ Hd]%demo_pages_page. unfold demo_dir in *. lia.
  - intros i Hi. by rewrite demo_pde.
  - intros i j Hi Hj. by rewrite demo_pde.
Qed.

Lemma demo_view va : pte_view (mem demo_phys) demo_dir va = 0.
Proof. unfold pte_view. by rewrite demo_pde by apply PDX_range. Qed.
