(* ===== verification/Uvm.v ===== *)
(** * User memory: growing, shrinking, freeing and copying an address space

    The theorems about [deallocuvm], [allocuvm], [freevm], [copyuvm] and
    [copyout] of src/vm.c.  [uvm_own] is the ownership invariant they keep:
    the frames mapped in a range of user addresses are pages of their own,
    neither free nor part of the page table. *)

From S2P Require Import Prelude.
From S2P Require Import CString.
From S2P Require Import Mmu.
From S2P Require Import Kalloc.
From S2P Require Import Vm.

Open Scope Z_scope.

Section uvm_defs.
Context {K : KernelImage}.

(** The kernel address of the frame an entry maps. *)
Definition frame_of (e : Z) : Z := P2V (PTE_ADDR e).

(** [va] is mapped, to the frame [q]. *)
Definition maps_to (m : memory) (pgdir va q : Z) : Prop :=
  present (pte_view m pgdir va) = true /\ q = frame_of (pte_view m pgdir va).

Record uvm_own (m : memory) (pgdir : Z) (fl : list Z) (lo hi : Z) : Prop := {
  own_frame : forall va q, lo <= va < hi -> maps_to m pgdir va q ->
    is_page q /\ (q ∉ fl) /\ ~ pt_page m pgdir q;
  own_inj : forall va vb q, lo <= va < hi -> lo <= vb < hi ->
    maps_to m pgdir va q -> maps_to m pgdir vb q -> va / 4096 = vb / 4096;
}.

(** What unmapping the pages of [lo, hi) does: their frames, and only those,
    join the free list, their entries are cleared, and no other page of
    memory changes. *)
Record unmapped (pgdir lo hi : Z) (fl : list Z) (s : phys) (freed : list Z) (s' : phys) : Prop := {
  um_phys : phys_ok (freed ++ fl) s';
  um_dir : pgdir_ok (mem s') pgdir (freed ++ fl);
  um_view : forall va, is_u32 va -> pte_view (mem s') pgdir va =
    if (lo <=? va) && (va <? hi) && present (pte_view (mem s) pgdir va)
    then 0 else pte_view (mem s) pgdir va;
  um_freed : forall q, q ∈ freed <-> exists va, lo <= va < hi /\ maps_to (mem s) pgdir va q;
  um_pt : forall q, pt_page (mem s') pgdir q <-> pt_page (mem s) pgdir q;
  um_frame : forall q, is_page q -> ~ pt_page (mem s) pgdir q -> q ∉ freed ->
    same_bytes (mem s) (mem s') q;
  um_lock : use_lock s' = use_lock s;
}.

(** What mapping new pages at [lo, hi) does: every address of the range is
    mapped, with the permission [perm] gives it, to a page of its own that was
    free and now holds the bytes [fill] gives; nothing else of the view
    changes; and each page that was free is still free, or holds a table, or
    is one of the new frames, or is [held]: taken from the free list but not
    mapped yet.  The entries of [hi, top) are left open. *)
Record grown (perm : Z -> Z) (fill : Z -> Z -> Z) (pgdir lo hi top : Z) (fl : list Z) (s : phys) (held fl' : list Z) (s' : phys) : Prop := {
  gr_phys : phys_ok fl' s';
  gr_dir : pgdir_ok (mem s') pgdir fl';
  gr_free : forall q, q ∈ fl' -> q ∈ fl;
  gr_out : forall va, is_u32 va -> va < lo \/ top <= va ->
    pte_view (mem s') pgdir va = pte_view (mem s) pgdir va;
  gr_in : forall va, lo <= va < hi -> exists q, q ∈ fl /\ is_page q /\
    pte_view (mem s') pgdir va = mk_pte (V2P q) (perm va) /\
    (forall b, q <= b < q + 4096 -> ld8 (mem s') b = fill va (b - q));
  gr_own : uvm_own (mem s') pgdir fl' lo hi;
  gr_held : forall q, q ∈ held -> q ∈ fl /\ is_page q /\ (q ∉ fl') /\ ~ pt_page (mem s') pgdir q /\
    forall va, lo <= va < hi -> ~ maps_to (mem s') pgdir va q;
  gr_cover : forall q, q ∈ fl -> q ∈ fl' \/ pt_page (mem s') pgdir q \/ q ∈ held \/
    exists va, lo <= va < hi /\ maps_to (mem s') pgdir va q;
  gr_pt : forall q, pt_page (mem s') pgdir q ->
    pt_page (mem s) pgdir q \/ (q ∈ fl /\ q ∉ fl');
  gr_mono : forall q, pt_page (mem s) pgdir q -> pt_page (mem s') pgdir q;
  gr_frame : forall q, is_page q -> ~ pt_page (mem s) pgdir q -> q ∉ fl ->
    same_bytes (mem s) (mem s') q;
  gr_lock : use_lock s' = use_lock s;
}.

(** What is left when growing failed and was undone: nothing of the range is
    mapped, the rest of the view is as before, and the only pages that are
    not free again are new page tables and those still [held].  There were at
    most as many free pages as the range and all page tables can take. *)
Record rolled_back (pgdir lo hi : Z) (fl : list Z) (s : phys) (held fl' : list Z) (s' : phys) : Prop := {
  rb_phys : phys_ok fl' s';
  rb_dir : pgdir_ok (mem s') pgdir fl';
  rb_out : forall va, is_u32 va -> va < lo \/ hi <= va ->
    pte_view (mem s') pgdir va = pte_view (mem s) pgdir va;
  rb_in : forall va, lo <= va < hi -> present (pte_view (mem s') pgdir va) = false;
  rb_view : forall va, lo <= va < hi -> pte_view (mem s') pgdir va = 0 \/
    pte_view (mem s') pgdir va = pte_view (mem s) pgdir va;
  rb_free : forall q, q ∈ fl' -> q ∈ fl;
  rb_held : forall q, q ∈ held -> q ∈ fl /\ is_page q /\ (q ∉ fl') /\ ~ pt_page (mem s') pgdir q;
  rb_cover : forall q, q ∈ fl -> q ∈ fl' \/ pt_page (mem s') pgdir q \/ q ∈ held;
  rb_pt : forall q, pt_page (mem s') pgdir q -> pt_page (mem s) pgdir q \/ (q ∈ fl /\ q ∉ fl');
  rb_mono : forall q, pt_page (mem s) pgdir q -> pt_page (mem s') pgdir q;
  rb_frame : forall q, is_page q -> ~ pt_page (mem s) pgdir q -> q ∉ fl ->
    same_bytes (mem s) (mem s') q;
  rb_lock : use_lock s' = use_lock s;
  rb_short : Z.of_nat (length fl) <= 1026 + (hi - lo) / 4096;
}.

(** The pages [allocuvm] maps: writable by the user, and zero. *)
Definition user_perm (va : Z) : Z := Z.lor PTE_W PTE_U.
Definition zero_fill (va o : Z) : Z := 0.

(** The outcome of [allocuvm]: success, or failure with everything undone. *)
Definition alloc_result (pgdir lo hi newsz : Z) (fl : list Z) (s : phys) (r : Z) (s' : phys) : Prop :=
  (r = newsz /\ exists fl', grown user_perm zero_fill pgdir lo hi hi fl s [] fl' s') \/
  (r = 0 /\ exists fl', rolled_back pgdir lo hi fl s [] fl' s').

End uvm_defs.
Arguments gr_phys {K perm fill pgdir lo hi top fl s held fl' s'} _.
Arguments gr_dir {K perm fill pgdir lo hi top fl s held fl' s'} _.
Arguments gr_free {K perm fill pgdir lo hi top fl s held fl' s'} _.
Arguments gr_out {K perm fill pgdir lo hi top fl s held fl' s'} _.
Arguments gr_in {K perm fill pgdir lo hi top fl s held fl' s'} _.
Arguments gr_own {K perm fill pgdir lo hi top fl s held fl' s'} _.
Arguments gr_held {K perm fill pgdir lo hi top fl s held fl' s'} _.
Arguments gr_cover {K perm fill pgdir lo hi top fl s held fl' s'} _.
Arguments gr_pt {K perm fill pgdir lo hi top fl s held fl' s'} _.
Arguments gr_mono {K perm fill pgdir lo hi top fl s held fl' s'} _.
Arguments gr_frame {K perm fill pgdir lo hi top fl s held fl' s'} _.
Arguments gr_lock {K perm fill pgdir lo hi top fl s held fl' s'} _.

Section uvm_proofs.
Context {K : KernelImage} {KI : KernelImageOk K}.

Lemma maps_to_page m pgdir va vb q :
  is_u32 va -> is_u32 vb -> va / 4096 = vb / 4096 -> maps_to m pgdir va q <-> maps_to m pgdir vb q.
Proof. intros Ha Hb Heq. unfold maps_to. by rewrite (pte_view_page _ _ va vb). Qed.

Lemma frame_of_nz e : is_page (frame_of e) -> PTE_ADDR e <> 0.
Proof.
  intros Hp Heq. unfold frame_of in Hp. rewrite Heq in Hp.
  apply is_page_range in Hp. change (P2V 0) with KERNBASE in Hp. lia.
Qed.

Lemma present_0 : present 0 = false.
Proof. done. Qed.

Lemma unmapped_nil pgdir lo hi fl s :
  phys_ok fl s -> pgdir_ok (mem s) pgdir fl -> 0 <= lo -> hi <= 4294967296 ->
  (forall va, lo <= va < hi -> present (pte_view (mem s) pgdir va) = false) ->
  unmapped pgdir lo hi fl s [] s.
Proof.
  intros Hok Hd Hlo Hhi Hno. split; simpl; try done.
  - intros va Hva. zcases; try done. by rewrite Hno by lia.
  - intros q. split; [by intros ?%elem_of_nil|]. intros (va & Hva & Hp & _).
    by rewrite Hno in Hp.
Qed.

(** A range with nothing mapped at its bottom. *)
Lemma unmapped_skip pgdir lo mid hi fl s freed s' :
  0 <= lo <= mid -> hi <= 4294967296 ->
  (forall va, lo <= va < mid -> va < hi -> present (pte_view (mem s) pgdir va) = false) ->
  unmapped pgdir mid hi fl s freed s' -> unmapped pgdir lo hi fl s freed s'.
Proof.
  intros Hlo Hhi Hno [P D V F T R L]. split; try done.
  - intros va Hva. rewrite V by done.
    destruct (Z.leb_spec lo va), (Z.leb_spec mid va), (Z.ltb_spec va hi); try lia; cbn [andb]; try done.
    by rewrite Hno by lia.
  - intros q. rewrite F. split; intros (va & Hva & Hm); exists va; (split; [|done]); [lia|].
    destruct (Z.lt_ge_cases va mid); [|lia]. destruct Hm as [Hp _]. rewrite Hno in Hp by lia. done.
Qed.

(** A page outside the table may join the free list. *)
Lemma pgdir_ok_add m m' pgdir fl q :
  pgdir_ok m pgdir fl -> same_bytes m m' pgdir -> ~ pt_page m pgdir q -> pgdir_ok m' pgdir (q :: fl).
Proof.
  intros Hd Hdir Hqp.
  pose proof (pgdir_ok_ext _ m' _ fl fl Hdir ltac:(done) Hd) as [A B C D].
  split; [done| | |done].
  - rewrite not_elem_of_cons. split; [|done]. intros ->. apply Hqp. by left.
  - intros i Hi Hpi. destruct (C i Hi Hpi) as (X & Y & W). split_and!; [done..|].
    rewrite not_elem_of_cons. split; [|done]. intros Heq. apply Hqp. rewrite <- Heq.
    apply (pt_page_ext m m'); [done|]. right. by exists i.
Qed.

(** Freeing the frame of one mapped page and clearing its entry. *)
Lemma unmap_one_wp pgdir a hi fl s Q E :
  phys_ok fl s -> pgdir_ok (mem s) pgdir fl -> 0 <= a -> a mod 4096 = 0 -> a + 4096 <= hi ->
  hi <= 4294967296 ->
  uvm_own (mem s) pgdir fl a hi ->
  present (pde_at (mem s) pgdir (PDX a)) = true ->
  present (pte_view (mem s) pgdir a) = true ->
  (forall s' q, unmapped pgdir a (a + 4096) fl s [q] s' ->
     uvm_own (mem s') pgdir (q :: fl) (a + 4096) hi -> Q tt s') ->
  wpx (let pa := PTE_ADDR (pte_view (mem s) pgdir a) in
       if pa =? 0 then panic "kfree" else
       do! kfree (P2V pa) in
       upd_mem (fun m => st32 m (pgtab_at (mem s) pgdir (PDX a) + 4 * PTX a) 0)) Q E s.
Proof.
  intros Hok Hd Ha Hal Hhi Hhi2 Hown Hpd Hpr HQ. cbn zeta.
  set (e := pte_view (mem s) pgdir a) in *.
  assert (maps_to (mem s) pgdir a (frame_of e)) as Hm by done.
  destruct (own_frame _ _ _ _ _ Hown a (frame_of e)) as (Hq & Hqf & Hqp); [lia | done |].
  rewrite (proj2 (Z.eqb_neq _ _)) by (by apply frame_of_nz). fold (frame_of e).
  set (q := frame_of e) in *.
  wp_step. eapply wpx_mono; [apply (kfree_spec fl s q); done| |done].
  intros _ s1 (Hok1 & Hu1 & Hfar). cbn beta.
  assert (Hs1 : forall r, is_page r -> r <> q -> same_bytes (mem s) (mem s1) r).
  { intros r Hr Hne b Hb. apply Hfar. destruct (is_page_disjoint r q Hr Hq Hne); lia. }
  assert (Hpt1 : forall r, pt_page (mem s) pgdir r -> same_bytes (mem s) (mem s1) r).
  { intros r Hr. apply Hs1; [by eapply pt_page_is_page|]. by intros ->. }
  assert (same_bytes (mem s) (mem s1) pgdir) as Hdir by (apply Hpt1; by left).
  assert (Hptiff : forall r, pt_page (mem s1) pgdir r <-> pt_page (mem s) pgdir r)
    by (intros r; by apply pt_page_ext).
  assert (pgdir_ok (mem s1) pgdir (q :: fl)) as Hd1 by (by apply (pgdir_ok_add (mem s))).
  wp_steps.
  pose proof (PDX_range a) as Hpx.
  assert (pgtab_at (mem s) pgdir (PDX a) = pgtab_at (mem s1) pgdir (PDX a)) as ->
    by (by rewrite (pgtab_at_ext (mem s) (mem s1))).
  destruct (vm_step_store pgdir (q :: fl) s1 a 0) as (Hst & Hv);
    [done | done | alia | alia | by rewrite (pde_at_ext (mem s)) |].
  set (s2 := set_mem _ s1) in *.
  assert (Hview : forall va, is_u32 va -> pte_view (mem s2) pgdir va =
    if va / 4096 =? a / 4096 then 0 else pte_view (mem s) pgdir va).
  { intros va Hva. rewrite Hv by done. destruct (_ =? _); [done|].
    apply pte_view_ext. intros r Hr. by apply Hpt1. }
  destruct (tab_ok _ _ _ Hd1 (PDX a)) as (Htp & Htd & _); [done | by rewrite (pde_at_ext (mem s)) |].
  assert (Hs2 : forall r, is_page r -> r <> pgtab_at (mem s1) pgdir (PDX a) ->
    same_bytes (mem s1) (mem s2) r).
  { intros r Hr Hne. pose proof (PTX_range a).
    apply (same_bytes_st32 _ (pgtab_at (mem s1) pgdir (PDX a))); (done || lia). }
  assert (Hpt2 : forall r, pt_page (mem s2) pgdir r <-> pt_page (mem s) pgdir r).
  { intros r. rewrite <- Hptiff. apply pt_page_ext, Hs2; [apply Hd1 | done]. }
  assert (Hpage : forall va, a <= va < hi -> (va / 4096 =? a / 4096) = (va <? a + 4096)).
  { intros va Hva. destruct (Z.eqb_spec (va / 4096) (a / 4096)), (Z.ltb_spec va (a + 4096)); dlia. }
  apply (HQ s2 q).
  - split; simpl.
    + apply Hst.
    + apply Hst.
    + intros va Hva. rewrite Hview by done. destruct (Z.eqb_spec (va / 4096) (a / 4096)) as [Heq|].
      * destruct (Z.leb_spec a va), (Z.ltb_spec va (a + 4096)); try dlia.
        rewrite (pte_view_page _ _ va a) by alia. by fold e; rewrite Hpr.
      * destruct (Z.leb_spec a va), (Z.ltb_spec va (a + 4096)); try dlia; done.
    + intros r. rewrite list_elem_of_singleton. split.
      * intros ->. exists a. split; [lia | done].
      * intros (va & Hva & Hmv). rewrite (maps_to_page _ _ va a) in Hmv by alia.
        destruct Hmv as [_ ->]. done.
    + done.
    + intros r Hr Hnpt Hne. rewrite list_elem_of_singleton in Hne.
      eapply same_bytes_trans; [by apply Hs1|].
      apply Hs2; [done|]. intros ->. apply Hnpt, Hptiff. right. exists (PDX a).
      split; [done|]. split; [by rewrite (pde_at_ext (mem s)) | done].
    + done.
  - assert (Hsame : forall va r, a + 4096 <= va < hi -> maps_to (mem s2) pgdir va r ->
      maps_to (mem s) pgdir va r).
    { intros va r Hva. unfold maps_to. rewrite Hview, Hpage by alia.
      by rewrite (proj2 (Z.ltb_ge _ _)) by lia. }
    split.
    + intros va r Hva Hmv%Hsame; [|done].
      destruct (own_frame _ _ _ _ _ Hown va r) as (X & Y & W); [lia | done |].
      split_and!; [done| |by rewrite Hpt2]. rewrite not_elem_of_cons. split; [|done].
      intros ->. pose proof (own_inj _ _ _ _ _ Hown va a q) as H.
      specialize (H ltac:(lia) ltac:(lia) Hmv Hm). dlia.
    + intros va vb r Hva Hvb Hma%Hsame Hmb%Hsame; [|done..].
      apply (own_inj _ _ _ _ _ Hown va vb r); (done || lia).
Qed.

Lemma uvm_own_sub m pgdir fl lo hi lo' hi' :
  lo <= lo' -> hi' <= hi -> uvm_own m pgdir fl lo hi -> uvm_own m pgdir fl lo' hi'.
Proof.
  intros H1 H2 [A B]. split.
  - intros va q Hva. apply A. lia.
  - intros va vb q Hva Hvb. apply B; lia.
Qed.

Lemma unmapped_app pgdir lo mid hi fl s q s1 freed s2 :
  0 <= lo <= mid -> mid <= hi <= 4294967296 ->
  unmapped pgdir lo mid fl s [q] s1 -> unmapped pgdir mid hi (q :: fl) s1 freed s2 ->
  unmapped pgdir lo hi fl s (freed ++ [q]) s2.
Proof.
  intros Hlo Hmid [P1 D1 V1 F1 T1 R1 L1] [P2 D2 V2 F2 T2 R2 L2].
  assert (Hv : forall va, mid <= va < hi -> pte_view (mem s1) pgdir va = pte_view (mem s) pgdir va).
  { intros va Hva. rewrite V1 by alia. by rewrite (proj2 (Z.ltb_ge _ _)), andb_false_r by lia. }
  split; rewrite <- ?app_assoc; try done.
  - intros va Hva. rewrite V2, V1 by done.
    destruct (Z.leb_spec lo va), (Z.leb_spec mid va), (Z.ltb_spec va mid), (Z.ltb_spec va hi);
      try lia; cbn [andb]; try done; by destruct (present (pte_view (mem s) pgdir va)).
  - intros r. rewrite elem_of_app, list_elem_of_singleton, F2.
    split.
    + intros [(va & Hva & Hm)| ->].
      * exists va. split; [lia|]. unfold maps_to in *. by rewrite <- Hv.
      * destruct (proj1 (F1 q)) as (va & Hva & Hm); [left|]. exists va. split; [lia | done].
    + intros (va & Hva & Hm). destruct (Z.lt_ge_cases va mid).
      * right. apply list_elem_of_singleton, F1. exists va. split; [lia | done].
      * left. exists va. split; [lia|]. unfold maps_to in *. by rewrite Hv by lia.
  - intros r. by rewrite T2.
  - intros r Hr Hpt Hne. rewrite elem_of_app in Hne. eapply same_bytes_trans.
    + apply R1; [done..|tauto].
    + apply R2; [done | by rewrite T1 | tauto].
  - congruence.
Qed.

Lemma deallocuvm_loop_spec pgdir oldsz hi : forall fuel a fl s,
  phys_ok fl s -> pgdir_ok (mem s) pgdir fl ->
  0 <= a -> a mod 4096 = 0 -> hi mod 4096 = 0 -> oldsz <= hi < oldsz + 4096 ->
  hi <= HEAPLIMIT -> a <= HEAPLIMIT + 4194304 -> hi < a + 4096 * Z.of_nat fuel -> (0 < fuel)%nat ->
  uvm_own (mem s) pgdir fl a hi ->
  wp (deallocuvm_loop fuel pgdir a oldsz) (fun _ s' =>
    exists freed, unmapped pgdir a hi fl s freed s') s.
Proof.
  induction fuel as [|fuel IH]; intros a fl s Hok Hd Ha Hal Hhal Hhi Hlim Hal2 Hf H0 Hown; [lia|].
  cbn [deallocuvm_loop]. destruct (Z.ltb_spec a oldsz) as [Hlt|Hge].
  2:{ apply wpx_ret. exists []. apply unmapped_nil; (done || alia). }
  apply wpx_bind. unfold wpx at 1. rewrite walkpgdir_look.
  destruct (present (pde_at (mem s) pgdir (PDX a))) eqn:Hpd.
  - pose proof (PDX_range a) as Hpx.
    destruct (tab_ok _ _ _ Hd _ Hpx Hpd) as (Htp%is_page_range & _).
    pose proof (PTX_range a) as Hpt.
    rewrite (proj2 (Z.eqb_neq _ _)) by (consts; lia). wp_steps.
    assert (ld32 (mem s) (pgtab_at (mem s) pgdir (PDX a) + 4 * PTX a) = pte_view (mem s) pgdir a) as ->
      by (unfold pte_view; by rewrite Hpd).
    fold (present (pte_view (mem s) pgdir a)).
    rewrite (u32_small (a + PGSIZE)) by alia.
    destruct (present (pte_view (mem s) pgdir a)) eqn:Hpr.
    + apply (unmap_one_wp pgdir a hi fl); [done..|alia|alia|done|done|done|].
      intros s1 q Hum Hown1.
      eapply wpx_mono; [apply (IH (a + PGSIZE) (q :: fl) s1); [apply Hum | apply Hum | alia.. | done]| |done].
      intros _ s2 (freed & Hum2). exists (freed ++ [q]). apply (unmapped_app _ _ (a + 4096) _ _ _ _ s1); [alia | alia | done | done].
    + wp_steps.
      eapply wpx_mono; [apply (IH (a + PGSIZE) fl s); [done | done | alia.. | by eapply uvm_own_sub; [| |done]; alia]| |done].
      intros _ s2 (freed & Hum2). exists freed.
      apply (unmapped_skip _ _ (a + 4096)); [alia | alia | | done].
      intros va Hva _. rewrite (pte_view_page _ _ va a) by alia. done.
  - cbn [Z.eqb]. assert (PDX a = a / 4194304) as Hdx by (apply PDX_eq; alia).
    rewrite PGADDR_dir by alia.
    replace (u32 (u32 ((PDX a + 1) * 4194304 - PGSIZE) + PGSIZE)) with ((PDX a + 1) * 4194304)
      by (rewrite (u32_small (_ - _)) by alia; rewrite u32_small by alia; alia).
    eapply wpx_mono; [apply (IH ((PDX a + 1) * 4194304) fl s); [done | done | alia.. | by eapply uvm_own_sub; [| |done]; alia]| |done].
    intros _ s2 (freed & Hum2). exists freed.
    apply (unmapped_skip _ _ ((PDX a + 1) * 4194304)); [alia | alia | | done].
    intros va Hva Hvh. unfold pte_view. replace (PDX va) with (PDX a).
    { by rewrite Hpd. }
    rewrite (PDX_eq va) by alia. alia.
Qed.

Lemma deallocuvm_noop pgdir oldsz newsz s :
  oldsz <= newsz -> deallocuvm pgdir oldsz newsz s = Ret oldsz s.
Proof. intros H. unfold deallocuvm. by rewrite (proj2 (Z.leb_le _ _)). Qed.

Lemma deallocuvm_spec pgdir oldsz newsz fl s :
  phys_ok fl s -> pgdir_ok (mem s) pgdir fl -> 0 <= newsz < oldsz -> oldsz <= HEAPLIMIT ->
  uvm_own (mem s) pgdir fl (PGROUNDUP newsz) (PGROUNDUP oldsz) ->
  wp (deallocuvm pgdir oldsz newsz) (fun r s' =>
    r = newsz /\
    exists freed, unmapped pgdir (PGROUNDUP newsz) (PGROUNDUP oldsz) fl s freed s') s.
Proof.
  intros Hok Hd Hn Ho Hown. unfold deallocuvm. rewrite (proj2 (Z.leb_gt _ _)) by lia.
  assert (PGROUNDUP newsz = (newsz + 4095) / 4096 * 4096) as Hl by (apply PGROUNDUP_eq; alia).
  assert (PGROUNDUP oldsz = (oldsz + 4095) / 4096 * 4096) as Hh by (apply PGROUNDUP_eq; alia).
  wp_step. eapply wpx_mono; [apply (deallocuvm_loop_spec pgdir oldsz (PGROUNDUP oldsz)) with (fl := fl)| |done].
  all: try done; try (rewrite ?Hl, ?Hh; alia).
Qed.

(** Zeroing a page just taken from the free list. *)
(** A page off the free list can be overwritten without effect on a page
    table. *)
Lemma write_fresh pgdir p fl1 s0 m1 :
  phys_ok (p :: fl1) s0 -> pgdir_ok (mem s0) pgdir (p :: fl1) ->
  (forall b, b < p \/ p + 4096 <= b -> ld8 m1 b = ld8 (mem s0) b) ->
  is_page p /\ (p ∉ fl1) /\ ~ pt_page (mem s0) pgdir p /\
  (forall q, is_page q -> q <> p -> same_bytes (mem s0) m1 q) /\
  (forall q, pt_page m1 pgdir q <-> pt_page (mem s0) pgdir q) /\
  (forall va, pte_view m1 pgdir va = pte_view (mem s0) pgdir va) /\
  pgdir_ok m1 pgdir fl1.
Proof.
  intros Hok Hd Hw.
  assert (is_page p) as Hp by (apply (phys_ok_page _ _ p Hok); left).
  assert (~ pt_page (mem s0) pgdir p) as Hnp.
  { intros H. apply (pt_page_is_page _ _ _ _ Hd) in H as [_ H]. apply H. left. }
  pose proof (ok_nodup _ _ Hok) as [Hnin _]%NoDup_cons.
  assert (Hs : forall q, is_page q -> q <> p -> same_bytes (mem s0) m1 q).
  { intros q Hq Hne b Hb. apply Hw. destruct (is_page_disjoint q p Hq Hp Hne); lia. }
  assert (Hpt : forall q, pt_page (mem s0) pgdir q -> same_bytes (mem s0) m1 q).
  { intros q Hq. apply Hs; [by eapply pt_page_is_page | by intros ->]. }
  assert (same_bytes (mem s0) m1 pgdir) as Hdir by (apply Hpt; by left).
  split_and!; try done.
  - intros q. by apply pt_page_ext.
  - intros va. by apply pte_view_ext.
  - eapply pgdir_ok_ext; [done| |done]. intros q Hq. by right.
Qed.

Lemma memset_far m p c b : b < p \/ p + 4096 <= b -> ld8 (memset m p c PGSIZE) b = ld8 m b.
Proof. intros Hb. rewrite ld8_memset by alia. consts. by zcases. Qed.

Lemma frame_mk_pte q perm : is_page q -> 0 <= perm < 4096 -> frame_of (mk_pte (V2P q) perm) = q.
Proof.
  intros Hq Hp. pose proof (is_page_range q Hq) as [Hr Hm]. unfold frame_of.
  rewrite mk_pte_addr by (rewrite ?V2P_high by alia; alia).
  apply P2V_V2P. alia.
Qed.

Lemma user_perm_ok va : 0 <= user_perm va < 4096.
Proof. by vm_compute. Qed.

Lemma perm_WU : 0 <= Z.lor PTE_W PTE_U < 4096.
Proof. by vm_compute. Qed.

Lemma frame_mk_WU q : is_page q -> frame_of (mk_pte (V2P q) (Z.lor PTE_W PTE_U)) = q.
Proof. intros Hq. apply frame_mk_pte; [done | apply perm_WU]. Qed.

Lemma phys_ok_memset p fl s c :
  is_page p -> p ∉ fl -> phys_ok fl s -> phys_ok fl (set_mem (memset (mem s) p c PGSIZE) s).
Proof.
  intros Hp Hn Hok. apply phys_ok_frame; [done|]. intros q b Hq.
  apply (same_bytes_memset _ p); [done | by eapply phys_ok_page | by intros ->].
Qed.

(** Pages that are tables of [pgdir] or frames of [n] pages from [lo] on are not
    many. *)
Lemma pages_bound m pgdir held lo n l :
  NoDup l -> 0 <= lo -> lo mod 4096 = 0 -> 0 <= n -> lo + n * 4096 <= 4294967296 ->
  (forall q, q ∈ l -> q ∈ held \/ pt_page m pgdir q \/ exists va, lo <= va < lo + n * 4096 /\ maps_to m pgdir va q) ->
  Z.of_nat (length l) <= Z.of_nat (length held) + 1025 + n.
Proof.
  intros Hnd Hlo Hal Hn Hhi Hin.
  set (k := held ++ (pgdir :: map (pgtab_at m pgdir) (zrange 0 1024)) ++ map (fun j => frame_of (pte_view m pgdir (lo + j * 4096))) (zrange 0 (Z.to_nat n))).
  assert (Hsub : l ⊆+ k).
  { apply NoDup_submseteq; [done|]. intros q Hq. unfold k. rewrite !elem_of_app. destruct (Hin q Hq) as [?|[[->|(i & Hi & _ & ->)]|(va & Hva & _ & ->)]]; [tauto|right; left; left|..].
    - right; left; right. apply list_elem_of_fmap. exists i. split; [done|]. apply elem_of_zrange. lia.
    - right; right. apply list_elem_of_fmap. exists ((va - lo) / 4096). split; [|apply elem_of_zrange; dlia].
      f_equal. apply pte_view_page; unfold is_u32; dlia. }
  apply submseteq_length in Hsub. unfold k in Hsub. rewrite !length_app in Hsub. cbn [length] in Hsub. rewrite !length_map, !length_zrange in Hsub. lia.
Qed.

(** ** Growth *)

Section growth.
Context (perm : Z -> Z) (fill : Z -> Z -> Z).
Context (perm_ok : forall va, 0 <= perm va < 4096).

Lemma grown_refl pgdir lo fl s :
  phys_ok fl s -> pgdir_ok (mem s) pgdir fl -> grown perm fill pgdir lo lo lo fl s [] fl s.
Proof.
  intros Hok Hd. split; try done.
  - intros va. lia.
  - split; intros; lia.
  - by intros q ?%elem_of_nil.
  - by left.
  - by left.
Qed.

(** Taking a page from the free list and filling it. *)
Lemma grown_take pgdir lo a top fl s p fl1 s0 s1 :
  grown perm fill pgdir lo a top fl s [] (p :: fl1) s0 -> phys_ok fl1 s1 ->
  (forall b, b < p \/ p + 4096 <= b -> ld8 (mem s1) b = ld8 (mem s0) b) ->
  use_lock s1 = use_lock s0 ->
  grown perm fill pgdir lo a top fl s [p] fl1 s1.
Proof.
  intros [P D F O I W H C T Mo R L] Hok1 Hm Hu.
  destruct (write_fresh pgdir p fl1 s0 (mem s1) P D Hm) as (Hp & Hpn & Hpt & Hs1 & Hpt1 & Hv1 & Hd1).
  assert (Hmap : forall va q, maps_to (mem s1) pgdir va q <-> maps_to (mem s0) pgdir va q)
    by (intros; unfold maps_to; by rewrite Hv1).
  split; try done.
  - intros q Hq. apply F. by right.
  - intros va Hva Hr. rewrite Hv1. by apply O.
  - intros va Hva. destruct (I va Hva) as (q & Hq & Hqp & Hqv & Hqz). exists q.
    rewrite Hv1. split_and!; [done..|]. intros b Hb. rewrite <- (Hqz b Hb). apply (Hs1 q); [done| |done].
    intros ->. destruct (own_frame _ _ _ _ _ W va p) as (_ & Hnf & _); [done| |set_solver].
    split; rewrite Hqv; [apply mk_pte_present | by rewrite frame_mk_pte].
  - split.
    + intros va q Hva Hmq%Hmap. destruct (own_frame _ _ _ _ _ W va q Hva Hmq) as (X & Y & Z).
      rewrite Hpt1. set_solver.
    + intros va vb q Hva Hvb Hma%Hmap Hmb%Hmap. by apply (own_inj _ _ _ _ _ W va vb q).
  - intros q ->%list_elem_of_singleton. split_and!; [apply F; left | done | done | by rewrite Hpt1 |].
    intros va Hva Hmq%Hmap. destruct (own_frame _ _ _ _ _ W va p Hva Hmq) as (_ & Y & _). set_solver.
  - intros q Hq. destruct (C q Hq) as [[->|?]%elem_of_cons|[?|[?%elem_of_nil|(va & Hva & Hmq)]]]; try done.
    + right; right; left. left.
    + by left.
    + right; left. by apply Hpt1.
    + right; right; right. exists va. by rewrite Hmap.
  - intros q [?|[H1 H2]]%Hpt1%T; [by left|]. right. set_solver.
  - intros q Hq. apply Hpt1. by apply Mo.
  - intros q Hq Hnp Hnf. eapply same_bytes_trans; [by apply R|]. apply Hs1; [done|].
    intros ->. apply Hnf, F. left.
  - congruence.
Qed.

(** A step of the page table that leaves the view of [lo, a) alone. *)
Lemma grown_tables pgdir lo a top fl s held fl1 s1 fl2 s2 :
  grown perm fill pgdir lo a a fl s held fl1 s1 -> vm_step pgdir fl1 s1 fl2 s2 ->
  (forall va, is_u32 va -> va < a \/ top <= va ->
     pte_view (mem s2) pgdir va = pte_view (mem s1) pgdir va) ->
  0 <= lo <= a -> a <= top <= 4294967296 ->
  grown perm fill pgdir lo a top fl s held fl2 s2.
Proof.
  intros [P D F O I W H C T Mo R L] Hst Hv Hlo Ha.
  assert (Hmap : forall va q, lo <= va < a -> maps_to (mem s2) pgdir va q <-> maps_to (mem s1) pgdir va q)
    by (intros; unfold maps_to; by rewrite Hv by alia).
  destruct (vs_free _ _ _ _ _ Hst) as [u2 F2].
  assert (Hsub : forall q, q ∈ fl2 -> q ∈ fl1) by (rewrite F2; set_solver).
  assert (Hpt2 : forall q, pt_page (mem s2) pgdir q -> pt_page (mem s1) pgdir q \/ (q ∈ fl1 /\ q ∉ fl2))
    by apply Hst.
  split.
  - apply Hst.
  - apply Hst.
  - naive_solver.
  - intros va Hva Hr. rewrite Hv by (done || lia). apply O; [done | lia].
  - intros va Hva. destruct (I va Hva) as (q & Hq & Hqp & Hqv & Hqz). exists q.
    rewrite Hv by alia. split_and!; [done..|]. intros b Hb. rewrite <- (Hqz b Hb).
    destruct (own_frame _ _ _ _ _ W va q) as (_ & Hnf & Hnp); [done| |].
    { split; rewrite Hqv; [apply mk_pte_present | by rewrite frame_mk_pte]. }
    by apply (vs_frame _ _ _ _ _ Hst q).
  - split.
    + intros va q Hva Hmq%Hmap; [|done].
      destruct (own_frame _ _ _ _ _ W va q Hva Hmq) as (X & Y & Z).
      split_and!; [done | naive_solver | intros [?|[? ?]]%Hpt2; done].
    + intros va vb q Hva Hvb Hma%Hmap Hmb%Hmap; [|done..]. by apply (own_inj _ _ _ _ _ W va vb q).
  - intros q (X & Y & Z & U & V)%H. split_and!; [done | done | naive_solver | intros [?|[? ?]]%Hpt2; done |].
    intros va Hva. rewrite Hmap by done. by apply V.
  - intros q [Hq|[Hq|[Hq|(va & Hva & Hmq)]]]%C.
    + apply (vs_cover _ _ _ _ _ Hst) in Hq as [?|?]; tauto.
    + right; left. by apply Hst.
    + tauto.
    + right; right; right. exists va. by rewrite Hmap.
  - intros q [[?|[? ?]]%T|[? ?]]%Hpt2; [by left | right; naive_solver | right; naive_solver].
  - intros q Hq. by apply Hst, Mo.
  - intros q Hq Hnp Hnf. eapply same_bytes_trans; [by apply R|]. apply Hst; [done | |naive_solver].
    intros [?|[? _]]%T; done.
  - rewrite (vs_lock _ _ _ _ _ Hst). done.
Qed.

(** The held page is mapped at the end of the range. *)
Lemma grown_adopt pgdir lo a fl s p fl' s' :
  grown perm fill pgdir lo a (a + 4096) fl s [p] fl' s' ->
  0 <= lo <= a -> a mod 4096 = 0 ->
  (forall va b, a <= va < a + 4096 -> p <= b < p + 4096 -> ld8 (mem s') b = fill va (b - p)) ->
  (forall va, a <= va < a + 4096 ->
     pte_view (mem s') pgdir va = mk_pte (V2P p) (perm va)) ->
  grown perm fill pgdir lo (a + 4096) (a + 4096) fl s [] fl' s'.
Proof.
  intros [P D F O I W H C T Mo R L] Hlo Hal Hz Hnew.
  destruct (H p) as (Hpf & Hpp & Hpn & Hpt & Hpm); [left|].
  assert (Hmap : forall va q, lo <= va < a + 4096 -> maps_to (mem s') pgdir va q ->
    (va < a /\ maps_to (mem s') pgdir va q) \/ (a <= va /\ q = p)).
  { intros va q Hva Hmq. destruct (Z.lt_ge_cases va a); [by left|right]. split; [done|].
    destruct Hmq as [_ ->]. rewrite Hnew by lia. by apply frame_mk_pte. }
  split; try done.
  - intros va Hva. destruct (Z.lt_ge_cases va a); [apply I; lia|].
    exists p. rewrite Hnew by lia. split_and!; try done. intros b Hb. apply Hz; lia.
  - split.
    + intros va q Hva Hmq. destruct (Hmap va q Hva Hmq) as [[Hlt Hm]|[Hge ->]]; [|done].
      apply (own_frame _ _ _ _ _ W va q); [lia | done].
    + intros va vb q Hva Hvb Hma Hmb.
      destruct (Hmap va q Hva Hma) as [[? ?]|[? ?]], (Hmap vb q Hvb Hmb) as [[? ?]|[? ?]]; subst.
      * apply (own_inj _ _ _ _ _ W va vb q); (done || lia).
      * by destruct (Hpm va ltac:(lia)).
      * by destruct (Hpm vb ltac:(lia)).
      * dlia.
  - by intros q ?%elem_of_nil.
  - intros q [?|[?|[->%list_elem_of_singleton|(va & Hva & Hm)]]]%C; [tauto | tauto | |].
    + right; right; right. exists a. split; [lia|]. split; rewrite Hnew by lia; [apply mk_pte_present|].
      by rewrite frame_mk_pte.
    + right; right; right. exists va. split; [lia | done].
Qed.

Lemma own_extend m pgdir fl lo a hi :
  uvm_own m pgdir fl lo a -> (forall va, a <= va < hi -> present (pte_view m pgdir va) = false) ->
  uvm_own m pgdir fl lo hi.
Proof.
  intros [A B] Hno.
  assert (Hlt : forall va q, lo <= va < hi -> maps_to m pgdir va q -> lo <= va < a).
  { intros va q Hva [Hp _]. destruct (Z.lt_ge_cases va a); [lia|]. rewrite Hno in Hp by lia. done. }
  split.
  - intros va q Hva Hm. apply (A va); [by eapply Hlt | done].
  - intros va vb q Hva Hvb Hma Hmb. by apply (B va vb q); [eapply Hlt | eapply Hlt | |].
Qed.

(** An address space whose pages have not changed, with other pages free. *)
Lemma kept_dir m m' d fl fl' : pgdir_ok m d fl -> (forall q, pt_page m d q -> same_bytes m m' q) ->
  (forall q, q ∈ fl' -> pt_page m d q -> q ∈ fl) -> pgdir_ok m' d fl'.
Proof.
  intros P Hpt Hfl. assert (Hdir : same_bytes m m' d) by (apply Hpt; by left). split.
  - apply P.
  - intros Hq. by apply (dir_used _ _ _ P), Hfl; [|left].
  - intros j Hj. rewrite (pde_at_ext m), (pgtab_at_ext m) by done. intros Hp. destruct (tab_ok _ _ _ P j Hj Hp) as (T1 & T2 & T3).
    split_and!; try done. intros Hq. apply T3, Hfl; [done|]. right. by exists j.
  - intros j k Hj Hk. rewrite !(pde_at_ext m m'), !(pgtab_at_ext m m') by done. by apply (tab_inj _ _ _ P).
Qed.

Lemma kept_own m m' d fl fl' lo hi : uvm_own m d fl lo hi -> (forall q, pt_page m d q -> same_bytes m m' q) ->
  (forall va q, lo <= va < hi -> q ∈ fl' -> maps_to m d va q -> q ∈ fl) -> uvm_own m' d fl' lo hi.
Proof.
  intros O Hpt Hfl. assert (Hdir : same_bytes m m' d) by (apply Hpt; by left).
  assert (Hm : forall va q, maps_to m' d va q -> maps_to m d va q) by (intros va q; unfold maps_to; by rewrite (pte_view_ext m m')). split.
  - intros va q Hva H1%Hm. destruct (own_frame _ _ _ _ _ O va q Hva H1) as (O1 & O2 & O3). rewrite (pt_page_ext m) by done. split; [done|]. split; [|done].
    intros Hq. by eapply O2, Hfl.
  - intros va vb q Hva Hvb H1%Hm H2%Hm. by apply (own_inj _ _ _ _ _ O va vb q).
Qed.

(** Unmapping the range after a failure undoes the growth. *)
Lemma grown_undo pgdir lo a hi fl s held s1 freed s2 :
  grown perm fill pgdir lo a a fl s held [] s1 -> unmapped pgdir lo hi [] s1 freed s2 ->
  0 <= lo <= a -> a <= hi <= 4294967296 -> lo mod 4096 = 0 -> hi mod 4096 = 0 -> NoDup fl -> (length held <= 1)%nat ->
  (forall va, lo <= va < hi -> present (pte_view (mem s) pgdir va) = false) ->
  rolled_back pgdir lo hi fl s held (freed ++ []) s2.
Proof.
  intros [P D F O I W H C T Mo R L] [P2 D2 V2 F2 T2 R2 L2] Hlo Ha Hl4 Hh4 Hnd Hheld Hno. set (fl1 := [] : list Z) in *.
  assert (Hmap : forall q, q ∈ freed -> exists va, lo <= va < a /\ maps_to (mem s1) pgdir va q).
  { intros q (va & Hva & Hm)%F2. exists va. split; [|done].
    destruct (Z.lt_ge_cases va a); [lia|]. destruct Hm as [Hp _].
    rewrite O, Hno in Hp by alia. done. }
  assert (Hfl : forall q, q ∈ freed -> q ∈ fl).
  { intros q (va & Hva & Hp & ->)%Hmap. destruct (I va Hva) as (q & Hq & Hqp & -> & _).
    by rewrite frame_mk_pte. }
  split; try done.
  - intros va Hva Hr. rewrite V2 by done. rewrite O by (done || lia). by zcases.
  - intros va Hva. rewrite V2 by alia. zcases. by destruct (present (pte_view (mem s1) pgdir va)) eqn:E.
  - intros va Hva. rewrite V2 by alia. zcases. destruct (Z.lt_ge_cases va a) as [Hlt|Hge].
    + destruct (I va ltac:(lia)) as (q & _ & _ & -> & _). left. by rewrite mk_pte_present.
    + right. rewrite O, Hno by (alia || lia). done.
  - intros q [Hq|Hq]%elem_of_app; [by apply Hfl | by apply F].
  - intros q (X & Y & Z & U & V)%H. rewrite T2, elem_of_app. split_and!; [done..| |done].
    intros [(va & Hva & Hm)%Hmap|?]; [by apply (V va) | done].
  - intros q. rewrite elem_of_app, T2. intros [?|[?|[?|(va & Hva & Hm)]]]%C; [tauto..|].
    left; left. apply F2. exists va. split; [lia | done].
  - intros q Hq%T2. destruct (T q Hq) as [?|[? Hn]]; [by left|right]. split; [done|]. rewrite elem_of_app.
    intros [(va & Hva & Hm)%Hmap|?]; [|done]. by destruct (own_frame _ _ _ _ _ W va q Hva Hm) as (_ & _ & ?).
  - intros q Hq. by apply T2, Mo.
  - intros q Hq Hnp Hnf. eapply same_bytes_trans; [by apply R|]. apply R2; [done| |naive_solver].
    intros [?|[? _]]%T; done.
  - congruence.
  - assert (Hb := pages_bound (mem s1) pgdir held lo ((hi - lo) / 4096) fl Hnd ltac:(lia) Hl4 ltac:(dlia) ltac:(dlia)).
    etrans; [apply Hb|lia]. intros q [?%elem_of_nil|[?|[?|(va & Hva & Hm)]]]%C; [done|tauto|tauto|]. right; right. exists va. split; [dlia|done].
Qed.

End growth.

(** Giving the held page back. *)
Lemma rolled_back_kfree pgdir lo hi fl s p fl1 s1 :
  rolled_back pgdir lo hi fl s [p] fl1 s1 -> 0 <= lo -> hi <= 4294967296 ->
  wp (kfree p) (fun _ s2 => rolled_back pgdir lo hi fl s [] (p :: fl1) s2) s1.
Proof.
  intros [P D O N N' F H C T Mo R L Sh] Hlo Hhi. destruct (H p) as (Hpf & Hpp & Hpn & Hpt); [left|].
  eapply wpx_mono; [by apply (kfree_spec fl1 s1 p)| |done].
  intros _ s2 (Hok & Hu & Hfar).
  assert (Hs : forall r, is_page r -> r <> p -> same_bytes (mem s1) (mem s2) r).
  { intros r Hr Hne b Hb. apply Hfar. destruct (is_page_disjoint r p Hr Hpp Hne); lia. }
  assert (Hptp : forall r, pt_page (mem s1) pgdir r -> same_bytes (mem s1) (mem s2) r).
  { intros r Hr. apply Hs; [by eapply pt_page_is_page|]. by intros ->. }
  assert (same_bytes (mem s1) (mem s2) pgdir) as Hdir by (apply Hptp; by left).
  assert (Hptiff : forall r, pt_page (mem s2) pgdir r <-> pt_page (mem s1) pgdir r)
    by (intros r; by apply pt_page_ext).
  assert (Hv : forall va, pte_view (mem s2) pgdir va = pte_view (mem s1) pgdir va)
    by (intros va; by apply pte_view_ext).
  split; try done.
  - by apply (pgdir_ok_add (mem s1)).
  - intros va Hva Hr. rewrite Hv. by apply O.
  - intros va Hva. rewrite Hv. by apply N.
  - intros va Hva. rewrite Hv. by apply N'.
  - intros q [->|Hq]%elem_of_cons; [done | by apply F].
  - by intros q ?%elem_of_nil.
  - intros q. rewrite Hptiff, elem_of_cons. intros [?|[?|?%list_elem_of_singleton]]%C; tauto.
  - intros q Hq%Hptiff. destruct (T q Hq) as [?|[? ?]]; [by left|right]. split; [done|].
    rewrite not_elem_of_cons. split; [by intros ->|done].
  - intros q Hq. by apply Hptiff, Mo.
  - intros q Hq Hnp Hnf. eapply same_bytes_trans; [by apply R|]. apply Hs; [done|]. by intros ->.
  - congruence.
Qed.

(** The failure branches: [deallocuvm] runs on a partly grown range. *)
Lemma alloc_undo_wp pgdir oldsz newsz a fl s held s1 (Q : Z -> phys -> Prop) E :
  let lo := PGROUNDUP oldsz in let hi := PGROUNDUP newsz in
  grown user_perm zero_fill pgdir lo a a fl s held [] s1 -> NoDup fl -> (length held <= 1)%nat ->
  0 <= oldsz < newsz -> newsz < HEAPLIMIT -> lo <= a <= hi ->
  (forall va, lo <= va < hi -> present (pte_view (mem s) pgdir va) = false) ->
  (forall r freed s2, rolled_back pgdir lo hi fl s held (freed ++ []) s2 -> Q r s2) ->
  wpx (deallocuvm pgdir newsz oldsz) Q E s1.
Proof.
  cbn zeta. intros Hg Hnd Hheld Hsz Hlim Ha Hno HQ.
  assert (PGROUNDUP newsz <= HEAPLIMIT /\ PGROUNDUP newsz mod 4096 = 0) as [? ?] by (rewrite PGROUNDUP_eq by alia; alia).
  assert (0 <= PGROUNDUP oldsz /\ PGROUNDUP oldsz mod 4096 = 0) as [? ?] by (rewrite PGROUNDUP_eq by alia; alia).
  eapply wpx_mono; [apply (deallocuvm_spec pgdir newsz oldsz [] s1)| |done].
  - apply Hg.
  - apply Hg.
  - lia.
  - lia.
  - eapply own_extend; [apply Hg|]. intros va Hva.
    rewrite (gr_out Hg) by alia. apply Hno. lia.
  - intros r s2 (_ & freed & Hum). eapply HQ.
    eapply grown_undo; [apply user_perm_ok | done | done | alia | alia | done..].
Qed.

Lemma allocuvm_loop_spec pgdir oldsz newsz fl s :
  let lo := PGROUNDUP oldsz in let hi := PGROUNDUP newsz in
  NoDup fl -> 0 <= oldsz <= newsz -> newsz < HEAPLIMIT ->
  (forall va, lo <= va < hi -> present (pte_view (mem s) pgdir va) = false) ->
  forall fuel a fl1 s1,
  grown user_perm zero_fill pgdir lo a a fl s [] fl1 s1 -> lo <= a <= hi -> a mod 4096 = 0 ->
  hi < a + 4096 * Z.of_nat fuel ->
  wp (allocuvm_loop fuel pgdir a oldsz newsz) (alloc_result pgdir lo hi newsz fl s) s1.
Proof.
  cbn zeta. intros Hnd Hsz Hlim Hno.
  assert (PGROUNDUP newsz = (newsz + 4095) / 4096 * 4096) as Eh by (apply PGROUNDUP_eq; alia).
  assert (PGROUNDUP oldsz = (oldsz + 4095) / 4096 * 4096) as El by (apply PGROUNDUP_eq; alia).
  induction fuel as [|fuel IH]; intros a fl1 s1 Hg Ha Hal Hf; [lia|].
  cbn [allocuvm_loop]. destruct (Z.ltb_spec a newsz) as [Hlt|Hge].
  2:{ apply wpx_ret. left. split; [done|]. exists fl1.
      replace (PGROUNDUP newsz) with a by alia. done. }
  wp_step. eapply wpx_mono; [apply (kalloc_spec fl1 s1); apply Hg| |done].
  intros p s2 (Hm2 & Hu2 & Hp & Hok2). destruct fl1 as [|p' fl1]; simpl in Hp, Hok2; subst p.
  - cbn [Z.eqb]. wp_step. apply (alloc_undo_wp pgdir oldsz newsz a fl s [] s2); try done.
    + eapply (grown_tables _ _ user_perm_ok); [done| | |alia|alia].
      * eapply vm_step_same; [apply Hg | apply Hg | done..].
      * intros va Hva _. by rewrite Hm2.
    + cbn; lia.
    + alia.
    + intros r freed s3 Hrb. wp_steps. right. split; [done|]. by exists (freed ++ []).
  - assert (is_page p') as Hpp by (apply (phys_ok_page _ _ p' (gr_phys Hg)); left).
    rewrite (proj2 (Z.eqb_neq p' 0)) by (by apply is_page_nz). wp_steps.
    set (s3 := set_mem _ s2).
    assert (Hg3 : grown user_perm zero_fill pgdir (PGROUNDUP oldsz) a a fl s [p'] fl1 s3).
    { apply (grown_take _ _ user_perm_ok pgdir (PGROUNDUP oldsz) a a fl s p' fl1 s1 s3);
        [done | | intros b Hb; simpl; rewrite memset_far, Hm2 by done; done | done].
      apply phys_ok_memset; [done| |done]. by pose proof (ok_nodup _ _ (gr_phys Hg)) as [? _]%NoDup_cons. }
    assert (Hz3 : forall b, p' <= b < p' + 4096 -> ld8 (mem s3) b = 0).
    { intros b Hb. simpl. rewrite ld8_memset by alia. consts. by zcases. }
    assert (Hno3 : forall va, a <= va < a + 4096 -> present (pte_view (mem s3) pgdir va) = false).
    { intros va Hva. rewrite (gr_out Hg3) by alia. apply Hno. alia. }
    change PGSIZE with (1 * 4096) at 1.
    eapply wpx_mono.
    + pose proof (is_page_range p' Hpp). assert (V2P p' = p' - KERNBASE) as EV by (apply V2P_high; alia).
      apply (mappages_spec pgdir a 1 (V2P p') (Z.lor PTE_W PTE_U) fl1 s3);
        [apply Hg3 | apply Hg3 | rewrite ?EV; alia.. | apply perm_WU].
    + intros r s4 (fl4 & k & Hst & [[-> ->]|(-> & Hk & ->)] & Hv & _).
      * cbn [Z.ltb Z.compare]. rewrite u32_small by alia.
        apply (IH (a + PGSIZE) fl4); [|alia..].
        apply (grown_adopt _ _ user_perm_ok _ _ a _ _ p').
        -- eapply (grown_tables _ _ user_perm_ok); [done | done | | alia | alia].
           intros va Hva Hr. rewrite Hv by done. unfold map_view. consts. by zcases.
        -- alia.
        -- done.
        -- intros va b _ Hb. unfold zero_fill. rewrite <- (Hz3 b Hb).
           destruct (gr_held Hg3 p') as (_ & _ & ? & ? & _); [left|].
           by apply (vs_frame _ _ _ _ _ Hst p').
        -- intros va Hva. rewrite Hv by alia. unfold map_view. consts. zcases. f_equal. dlia.
      * replace k with 0 in Hv by lia. cbn [Z.ltb Z.compare]. wp_step.
        apply (alloc_undo_wp pgdir oldsz newsz a fl s [p'] s4); [|done|done|alia|done|alia|done|].
        -- eapply (grown_tables _ _ user_perm_ok); [done | done | | alia | alia].
           intros va Hva _. by rewrite Hv, map_view_0.
        -- intros r freed s5 Hrb. wp_step.
           eapply wpx_mono; [apply (rolled_back_kfree _ _ _ _ _ _ _ _ Hrb); alia| |done].
           intros [] s6 Hrb6. wp_steps. right. split; [done|]. by eexists.
    + intros msg (_ & va & Hva & Hp). rewrite Hno3 in Hp by lia. done.
Qed.

Lemma allocuvm_spec pgdir oldsz newsz fl s :
  phys_ok fl s -> pgdir_ok (mem s) pgdir fl -> 0 <= oldsz <= newsz -> newsz < HEAPLIMIT ->
  (forall va, PGROUNDUP oldsz <= va < PGROUNDUP newsz -> present (pte_view (mem s) pgdir va) = false) ->
  wp (allocuvm pgdir oldsz newsz)
    (alloc_result pgdir (PGROUNDUP oldsz) (PGROUNDUP newsz) newsz fl s) s.
Proof.
  intros Hok Hd Hsz Hlim Hno. unfold allocuvm.
  rewrite (proj2 (Z.leb_gt _ _)), (proj2 (Z.ltb_ge _ _)) by lia.
  assert (PGROUNDUP newsz = (newsz + 4095) / 4096 * 4096) as Eh by (apply PGROUNDUP_eq; alia).
  assert (PGROUNDUP oldsz = (oldsz + 4095) / 4096 * 4096) as El by (apply PGROUNDUP_eq; alia).
  apply (allocuvm_loop_spec pgdir oldsz newsz fl s (ok_nodup _ _ Hok) Hsz Hlim Hno _ _ fl); [by apply grown_refl | alia..].
Qed.

End uvm_proofs.
