(* ===== verification/Vmspace.v ===== *)
(** * Whole address spaces: freevm, setupkvm, copyuvm, copyout

    [freevm] gives back every page of an address space; [setupkvm] builds the
    kernel half of one, or gives everything back; [copyuvm] builds a child
    whose pages are copies of the parent's; [copyout] writes to user memory
    through a page table. *)

From S2P Require Import Prelude.
From S2P Require Import CString.
From S2P Require Import Mmu.
From S2P Require Import Kalloc.
From S2P Require Import Vm.
From S2P Require Import Demo.
From S2P Require Import Uvm.

Open Scope Z_scope.

Section vmspace_defs.
Context {K : KernelImage}.

(** A page that belongs to the address space below [top]: the directory, a
    table, or a frame mapped there. *)
Definition space_page (m : memory) (pgdir top q : Z) : Prop :=
  pt_page m pgdir q \/ exists va, 0 <= va < top /\ maps_to m pgdir va q.

(** The page tables among the first [k] directory entries. *)
Definition table_below (m : memory) (pgdir k q : Z) : Prop :=
  exists i, 0 <= i < k /\ present (pde_at m pgdir i) = true /\ q = pgtab_at m pgdir i.

(** The view after the entries [ks] of the kernel map were mapped. *)
Fixpoint kview (f : Z -> Z) (ks : list kmap_entry) : Z -> Z :=
  match ks with
  | [] => f
  | k :: ks' =>
      kview (map_view f (virt k) (u32 (phys_end k - phys_start k) / PGSIZE) (phys_start k) (kperm k)) ks'
  end.

(** The kernel half of every address space: low memory, kernel text (read
    only), kernel data and free memory, and the devices; none of it for the
    user. *)
Definition kernel_view (va : Z) : Z :=
  let pa := va - va mod PGSIZE in
  if va <? KERNBASE then 0
  else if va <? KERNLINK then mk_pte (pa - KERNBASE) PTE_W
  else if va <? data_ then mk_pte (pa - KERNBASE) 0
  else if va <? KERNBASE + PHYSTOP then mk_pte (pa - KERNBASE) PTE_W
  else if va <? DEVSPACE then 0
  else mk_pte pa PTE_W.

(** An entry of the kernel map that [mappages] can map. *)
Record kent_ok (k : kmap_entry) (n : Z) : Prop := {
  ke_size : u32 (phys_end k - phys_start k) = n * 4096;
  ke_pos : 0 < n;
  ke_virt : virt k mod 4096 = 0 /\ KERNBASE <= virt k /\ virt k + n * 4096 <= 4294967296;
  ke_phys : phys_start k mod 4096 = 0 /\ 0 <= phys_start k /\ phys_start k + n * 4096 <= 4294967296;
  ke_perm : 0 <= kperm k < 4096;
}.

(** Entries in ascending order from [lo] on, without overlap. *)
Fixpoint kents_from (lo : Z) (ks : list kmap_entry) : Prop :=
  match ks with
  | [] => True
  | k :: ks' => exists n, kent_ok k n /\ lo <= virt k /\ kents_from (virt k + n * 4096) ks'
  end.

(** A new page directory [d] with the kernel's mappings, built from pages of
    the free list. *)
Record new_space (fl : list Z) (s : phys) (d : Z) (fl' : list Z) (s' : phys) : Prop := {
  ns_phys : phys_ok fl' s';
  ns_dir : pgdir_ok (mem s') d fl';
  ns_suffix : exists used, fl = used ++ fl';
  ns_pt : forall q, pt_page (mem s') d q -> q ∈ fl;
  ns_cover : forall q, q ∈ fl -> q ∈ fl' \/ pt_page (mem s') d q;
  ns_view : forall va, is_u32 va -> pte_view (mem s') d va = kernel_view va;
  ns_frame : forall q, is_page q -> q ∉ fl -> same_bytes (mem s) (mem s') q;
  ns_lock : use_lock s' = use_lock s;
}.

(** Everything that was free is free again, and the rest is untouched. *)
Record all_back (fl : list Z) (s : phys) (fl' : list Z) (s' : phys) : Prop := {
  ab_phys : phys_ok fl' s';
  ab_free : forall q, q ∈ fl' <-> q ∈ fl;
  ab_frame : forall q, is_page q -> q ∉ fl -> same_bytes (mem s) (mem s') q;
  ab_lock : use_lock s' = use_lock s;
}.

(** Where the byte at the user address [va] lives. *)
Definition user_addr (m : memory) (pgdir va : Z) : Z := frame_of (pte_view m pgdir va) + va mod 4096.

(** The user may access [va]. *)
Definition user_ok (m : memory) (pgdir va : Z) : Prop :=
  present (pte_view m pgdir va) = true /\ nz (Z.land (pte_view m pgdir va) PTE_U) = true.

(** The permissions and the bytes of the pages of [pgdir]: what a copy of it
    must have. *)
Definition copy_perm (m : memory) (pgdir va : Z) : Z := PTE_FLAGS (pte_view m pgdir va).
Definition copy_fill (m : memory) (pgdir va o : Z) : Z :=
  ld8 m (frame_of (pte_view m pgdir va) + o).

(** A child address space: below [hi] every page is a copy, in a frame of its
    own that was free, of the page of [pgdir] at the same address, with the
    same flags; above, the kernel's mappings; and nothing that was in use
    before has changed. *)
Record copied (fl : list Z) (s : phys) (pgdir hi d : Z) (fl' : list Z) (s' : phys) : Prop := {
  cp_phys : phys_ok fl' s';
  cp_dir : pgdir_ok (mem s') d fl';
  cp_page : forall va, 0 <= va < hi -> exists q, q ∈ fl /\ is_page q /\
    pte_view (mem s') d va = mk_pte (V2P q) (copy_perm (mem s) pgdir va) /\
    (forall o, 0 <= o < 4096 -> ld8 (mem s') (q + o) = copy_fill (mem s) pgdir va o);
  cp_own : uvm_own (mem s') d fl' 0 hi;
  cp_rest : forall va, is_u32 va -> hi <= va -> pte_view (mem s') d va = kernel_view va;
  cp_frame : forall q, is_page q -> q ∉ fl -> same_bytes (mem s) (mem s') q;
  cp_free : forall q, q ∈ fl' -> q ∈ fl;
  cp_pt : forall q, pt_page (mem s') d q -> q ∈ fl;
  cp_lock : use_lock s' = use_lock s;
}.

End vmspace_defs.

Section freevm.
Context {K : KernelImage} {KI : KernelImageOk K}.

Lemma vm_step_sub pgdir fl s fl' s' q : vm_step pgdir fl s fl' s' -> q ∈ fl' -> q ∈ fl.
Proof. intros St Hq. destruct (vs_free _ _ _ _ _ St) as [u ->]. apply elem_of_app. by right. Qed.

Lemma table_below_S m pgdir k q :
  table_below m pgdir (k + 1) q <->
  table_below m pgdir k q \/ (0 <= k /\ present (pde_at m pgdir k) = true /\ q = pgtab_at m pgdir k).
Proof.
  unfold table_below. split.
  - intros (i & Hi & Hp & ->). destruct (Z.eq_dec i k) as [->|]; [right; split; [lia|done]|left].
    exists i. split; [lia|done].
  - intros [(i & Hi & Hp & ->)|(Hk & Hp & ->)]; [exists i|exists k]; (split; [lia|done]).
Qed.

Lemma freevm_entries_spec pgdir m0 fl : forall n k freed s,
  pgdir_ok m0 pgdir fl -> k + Z.of_nat n = 1024 -> 0 <= k ->
  phys_ok (freed ++ fl) s -> same_bytes m0 (mem s) pgdir ->
  (forall q, q ∈ freed <-> table_below m0 pgdir k q) ->
  wp (mfor (zrange k n) (freevm_entry pgdir)) (fun _ s' => exists freed',
    phys_ok (freed' ++ fl) s' /\ same_bytes m0 (mem s') pgdir /\
    (forall q, q ∈ freed' <-> table_below m0 pgdir 1024 q) /\
    (forall q, is_page q -> ~ pt_page m0 pgdir q -> same_bytes (mem s) (mem s') q) /\
    use_lock s' = use_lock s) s.
Proof.
  induction n as [|n IH]; intros k freed s Hd Hk Hk0 Hok Hdir Hfr; cbn [zrange mfor].
  { wp_steps. exists freed. replace k with 1024 in Hfr by lia. split_and!; try done. }
  wp_step. unfold freevm_entry. wp_steps. fold (pde_at (mem s) pgdir k).
  rewrite (pde_at_ext m0) by (done || lia).
  change (nz (Z.land (pde_at m0 pgdir k) PTE_P)) with (present (pde_at m0 pgdir k)).
  destruct (present (pde_at m0 pgdir k)) eqn:Hp.
  - destruct (tab_ok _ _ _ Hd k ltac:(lia) Hp) as (Hpg & Hne & Hnfl).
    fold (pgtab_at m0 pgdir k).
    wp_use kfree_spec; [done|done| |].
    { intros [Hin|?]%elem_of_app; [|done]. apply Hfr in Hin as (i & Hi & Hpi & He).
      assert (k = i); [|lia]. eapply (tab_inj _ _ _ Hd); try done; lia. }
    intros [] s1 (Hok1 & Hu1 & Hf1).
    assert (Hs1 : forall q, is_page q -> q <> pgtab_at m0 pgdir k -> same_bytes (mem s) (mem s1) q).
    { intros q Hq Hqne b Hb. apply Hf1. destruct (is_page_disjoint q _ Hq Hpg Hqne); lia. }
    eapply wpx_mono; [apply (IH (k + 1) (pgtab_at m0 pgdir k :: freed))| |done]; try done; try lia.
    + eapply same_bytes_trans; [done|]. apply Hs1; [apply Hd|done].
    + intros q. rewrite elem_of_cons, table_below_S, Hfr. split; [intros [->|?]|intros [?|(_ & _ & ->)]]; auto.
    + cbn beta. intros [] s2 (freed' & Hok2 & Hdir2 & Hfr2 & Hs2 & Hu2).
      exists freed'. split_and!; try done; [|congruence].
      intros q Hq Hnp. eapply same_bytes_trans; [|by apply Hs2]. apply Hs1; [done|].
      intros ->. apply Hnp. right. exists k. split; [lia|done].
  - wp_steps. apply (IH (k + 1) freed); try done; try lia.
    intros q. rewrite table_below_S, Hfr. split; [auto|]. intros [?|(_ & Hx & _)]; [done|congruence].
Qed.

(** [freevm] gives back exactly the pages of the address space. *)
Lemma freevm_spec pgdir fl s :
  phys_ok fl s -> pgdir_ok (mem s) pgdir fl -> uvm_own (mem s) pgdir fl 0 HEAPLIMIT ->
  wp (freevm pgdir) (fun _ s' => exists fl', phys_ok fl' s' /\
    (forall q, q ∈ fl' <-> q ∈ fl \/ space_page (mem s) pgdir HEAPLIMIT q) /\
    (forall q, is_page q -> ~ space_page (mem s) pgdir HEAPLIMIT q -> same_bytes (mem s) (mem s') q) /\
    use_lock s' = use_lock s) s.
Proof.
  intros Hok Hd Hown. unfold freevm.
  rewrite (proj2 (Z.eqb_neq pgdir 0)) by (apply is_page_nz, Hd). wp_step.
  change HEAPLIMIT with (PGROUNDUP HEAPLIMIT) in Hown. change 0 with (PGROUNDUP 0) in Hown at 1.
  wp_use deallocuvm_spec; [done|done|consts; lia|lia|done|].
  intros r s1 (_ & freed & U). change (PGROUNDUP HEAPLIMIT) with HEAPLIMIT in *.
  change (PGROUNDUP 0) with 0 in *. wp_step.
  eapply wpx_mono; [apply (freevm_entries_spec pgdir (mem s1) (freed ++ fl) _ 0 [] s1)| |done].
  - apply U.
  - done.
  - done.
  - apply U.
  - apply same_bytes_refl.
  - intros q. split; [by intros ?%elem_of_nil|]. intros (i & Hi & _). lia.
  - cbn beta. intros [] s2 (tabs & Hok2 & Hdir2 & Ht & Hs2 & Hu2).
    assert (Htab : forall q, q ∈ tabs -> q <> pgdir /\ is_page q).
    { intros q (i & Hi & Hp & ->)%Ht. by destruct (tab_ok _ _ _ (um_dir _ _ _ _ _ _ _ U) i Hi Hp) as (? & ? & _). }
    wp_use kfree_spec; [done|apply Hd| |].
    { rewrite elem_of_app. intros [Hx|Hx]; [by apply Htab in Hx as [? _]|].
      by apply (dir_used _ _ _ (um_dir _ _ _ _ _ _ _ U)). }
    intros [] s3 (Hok3 & Hu3 & Hf3). exists (pgdir :: tabs ++ freed ++ fl). split_and!; [done| | |].
    + intros q. unfold space_page. rewrite <- (um_pt _ _ _ _ _ _ _ U q). unfold pt_page at 1.
      rewrite elem_of_cons, !elem_of_app, Ht, (um_freed _ _ _ _ _ _ _ U). unfold table_below.
      split; [intros [->|[?|[?|?]]]|intros [?|[[->|?]|?]]]; auto.
    + intros q Hq Hnsp. unfold space_page in Hnsp. rewrite <- (um_pt _ _ _ _ _ _ _ U q) in Hnsp.
      assert (Hnpt : ~ pt_page (mem s1) pgdir q) by tauto.
      eapply same_bytes_trans; [|eapply same_bytes_trans; [by apply Hs2|]].
      * apply U; [done| |].
        -- by rewrite <- (um_pt _ _ _ _ _ _ _ U q).
        -- rewrite (um_freed _ _ _ _ _ _ _ U). tauto.
      * intros b Hb. apply Hf3.
        assert (q <> pgdir) as Hne by (intros ->; apply Hnpt; by left).
        destruct (is_page_disjoint q pgdir Hq (dir_page _ _ _ Hd) Hne); lia.
    + rewrite Hu3, Hu2. apply U.
Qed.

End freevm.

(** ** setupkvm *)

Section setupkvm.
Context {K : KernelImage} {KI : KernelImageOk K}.

Lemma kview_eq va : is_u32 va -> kview (fun _ => 0) kmap va = kernel_view va.
Proof.
  intros Hva. destruct KI as [D1 D2 D3 D4]. unfold kview, kmap, kernel_view, map_view. cbn [virt phys_start phys_end kperm].
  rewrite (V2P_high data_), (V2P_high KERNLINK) by alia.
  rewrite (u32_small (data_ - KERNBASE - _)), (u32_small (PHYSTOP - _)) by alia.
  change (u32 (EXTMEM - 0) / PGSIZE) with 256. change (u32 (0 - DEVSPACE) / PGSIZE) with 8192.
  consts.
  destruct (Z.lt_ge_cases va 0x80000000), (Z.lt_ge_cases va 0x80100000), (Z.lt_ge_cases va data_),
    (Z.lt_ge_cases va 0x8E000000), (Z.lt_ge_cases va 0xFE000000); try lia;
    zcases; first [done | exfalso; alia | f_equal; alia].
Qed.

Lemma kview_ext f g ks va :
  is_u32 va -> (forall vb, is_u32 vb -> f vb = g vb) -> kview f ks va = kview g ks va.
Proof.
  revert f g. induction ks as [|k ks IH]; intros f g Hva H; cbn [kview]; [by apply H|].
  apply IH; [done|]. intros vb Hvb. unfold map_view. by rewrite H.
Qed.

(** The kernel's mappings are closed to the user. *)
Lemma kernel_view_not_user va : is_u32 va -> Z.land (kernel_view va) PTE_U = 0.
Proof.
  intros Hva. unfold kernel_view.
  assert (H : forall pa perm, pa mod 4096 = 0 -> perm = 0 \/ perm = PTE_W -> Z.land (mk_pte pa perm) PTE_U = 0).
  { intros pa perm Hpa Hp. unfold mk_pte. rewrite <- Z.lor_assoc, Z.land_lor_distr_l.
    replace (Z.land (Z.lor perm PTE_P) PTE_U) with 0 by (by destruct Hp as [-> | ->]). rewrite Z.lor_0_r.
    apply Z.bits_inj'. intros n Hn. rewrite Z.land_spec, Z.bits_0. destruct (Z.lt_ge_cases n 12).
    - rewrite <- (Z.mod_pow2_bits_low pa 12) by lia. change (2 ^ 12) with 4096. by rewrite Hpa, Z.bits_0.
    - replace (Z.testbit PTE_U n) with false; [apply andb_false_r|]. symmetry.
      apply Z.bits_above_log2; [done|]. change (Z.log2 PTE_U) with 2. lia. }
  repeat match goal with |- context [?a <? ?b] => destruct (Z.ltb_spec a b) end;
    first [done | apply H; [alia|auto]].
Qed.

(** A directory that maps nothing below KERNBASE is freed with its tables. *)
Lemma freevm_kernel_only pgdir fl0 s0 fl s :
  vm_step pgdir fl0 s0 fl s ->
  (forall va, 0 <= va < KERNBASE -> present (pte_view (mem s) pgdir va) = false) ->
  wp (freevm pgdir) (fun _ s' => exists fl', phys_ok fl' s' /\
    (forall q, q ∈ fl' <-> q ∈ fl0 \/ pt_page (mem s0) pgdir q) /\
    (forall q, is_page q -> q ∉ fl0 -> ~ pt_page (mem s0) pgdir q -> same_bytes (mem s0) (mem s') q) /\
    use_lock s' = use_lock s0) s.
Proof.
  intros St Hno.
  assert (Hnone : forall va q, 0 <= va < HEAPLIMIT -> ~ maps_to (mem s) pgdir va q).
  { intros va q Hva [Hp _]. rewrite Hno in Hp; [done|consts; lia]. }
  eapply wpx_mono; [apply (freevm_spec pgdir fl s); [apply St|apply St|]| |done].
  { split; [intros va q Hva Hm|intros va vb q Hva _ Hm]; by destruct (Hnone va q Hva). }
  cbn beta. intros [] s' (fl' & Hok & Hfl & Hs & Hu). exists fl'.
  assert (Hsp : forall q, space_page (mem s) pgdir HEAPLIMIT q <-> pt_page (mem s) pgdir q).
  { intros q. unfold space_page. split; [|by left]. intros [?|(va & Hva & Hm)]; [done|]. by destruct (Hnone va q Hva). }
  split_and!; [done| | |].
  - intros q. rewrite Hfl, Hsp. split.
    + intros [Hq|Hq]; [left; by eapply vm_step_sub|].
      destruct (vs_pt _ _ _ _ _ St q Hq) as [?|[? _]]; tauto.
    + intros [Hq|Hq]; [apply (vs_cover _ _ _ _ _ St q Hq)|right; by apply St].
  - intros q Hq Hnf Hnp. eapply same_bytes_trans; [by apply St|]. apply Hs; [done|].
    rewrite Hsp. intros [?|[? _]]%(vs_pt _ _ _ _ _ St); done.
  - rewrite Hu. apply St.
Qed.

Lemma setupkvm_loop_spec d : forall ks lo fl s,
  kents_from lo ks -> KERNBASE <= lo -> phys_ok fl s -> pgdir_ok (mem s) d fl ->
  (forall va, is_u32 va -> lo <= va \/ va < KERNBASE -> present (pte_view (mem s) d va) = false) ->
  wp (setupkvm_loop ks d) (fun r s' =>
    (r = d /\ exists fl', vm_step d fl s fl' s' /\
       forall va, is_u32 va -> pte_view (mem s') d va = kview (pte_view (mem s) d) ks va) \/
    (r = 0 /\ exists fl', phys_ok fl' s' /\
       (forall q, q ∈ fl' <-> q ∈ fl \/ pt_page (mem s) d q) /\
       (forall q, is_page q -> q ∉ fl -> ~ pt_page (mem s) d q -> same_bytes (mem s) (mem s') q) /\
       use_lock s' = use_lock s /\ exists m, forall q, q ∈ fl \/ pt_page (mem s) d q -> pt_page m d q)) s.
Proof.
  induction ks as [|k ks IH]; intros lo fl s Hks Hlo Hok Hd Hno; cbn [setupkvm_loop].
  { wp_steps. left. split; [done|]. exists fl. split; [by apply vm_step_refl|done]. }
  destruct Hks as (n & E & Hlk & Hks). pose proof (ke_pos _ _ E) as Hn.
  destruct (ke_virt _ _ E) as (Hv1 & Hv2 & Hv3), (ke_phys _ _ E) as (Hp1 & Hp2 & Hp3).
  wp_step. rewrite (ke_size _ _ E).
  eapply wpx_mono; [apply (mappages_spec d (virt k) n (phys_start k) (kperm k) fl s)| |]; try done; try alia.
  { apply E. }
  2:{ intros m (_ & va & Hva & Hp). rewrite Hno in Hp; [done|alia|lia]. }
  cbn beta. intros r s1 (fl1 & j & St & Hres & Hview & _). unfold map_result in Hres.
  destruct (Z.ltb_spec r 0) as [Hneg|Hpos].
  - wp_step. eapply wpx_mono; [apply (freevm_kernel_only d fl s fl1 s1 St)| |done].
    + intros va Hva. rewrite Hview by alia. unfold map_view. consts. zcases. apply Hno; [alia|lia].
    + cbn beta. intros [] s2 (fl2 & H1 & H2 & H3 & H4). wp_steps. right. split; [done|]. exists fl2. split_and!; try done.
      destruct Hres as [[-> _]|(_ & _ & ->)]; [lia|]. exists (mem s1). intros q [[?%elem_of_nil|?]%(vs_cover _ _ _ _ _ St)|Hq]; [done|done|by apply St].
  - assert (j = n) as -> by lia.
    eapply wpx_mono; [apply (IH (virt k + n * 4096) fl1 s1)| |done]; try done; try lia; try apply St.
    + intros va Hva Hr. rewrite Hview by done. unfold map_view. consts. zcases; (apply Hno; [done|lia]).
    + cbn beta. intros r2 s2 [(-> & fl2 & St2 & Hv)|(-> & fl2 & Hok2 & Hfl2 & Hs2 & Hu2 & m & Hm)].
      * left. split; [done|]. exists fl2. split; [by eapply vm_step_trans|].
        intros va Hva. rewrite Hv by done. cbn [kview]. rewrite (ke_size _ _ E).
        replace (n * 4096 / PGSIZE) with n by alia. by apply kview_ext.
      * right. split; [done|]. exists fl2.
        split_and!; [done| | |by rewrite Hu2; apply St|exists m; intros q [Hq|Hq]; apply Hm; [by apply (vs_cover _ _ _ _ _ St)|right; by apply St]].
        -- intros q. rewrite Hfl2. split.
           ++ intros [Hq|Hq]; [left; by eapply vm_step_sub|].
              destruct (vs_pt _ _ _ _ _ St q Hq) as [?|[? _]]; tauto.
           ++ intros [Hq|Hq]; [apply (vs_cover _ _ _ _ _ St q Hq)|right; by apply St].
        -- intros q Hq Hnf Hnp. eapply same_bytes_trans; [by apply St|]. apply Hs2; [done| |].
           ++ intros Hin. by apply Hnf; eapply vm_step_sub.
           ++ intros [?|[? _]]%(vs_pt _ _ _ _ _ St); done.
Qed.

(** A page of zeros is an empty page directory. *)
Lemma zero_dir m d fl :
  is_page d -> d ∉ fl -> (forall b, d <= b < d + 4096 -> ld8 m b = 0) ->
  pgdir_ok m d fl /\ (forall va, pte_view m d va = 0) /\ (forall q, pt_page m d q <-> q = d).
Proof.
  intros Hd Hnf Hz.
  assert (Hpde : forall i, 0 <= i < 1024 -> pde_at m d i = 0).
  { intros i Hi. unfold pde_at, ld32. rewrite !Hz by lia. reflexivity. }
  split_and!.
  - split; try done.
    + intros i Hi. by rewrite Hpde.
    + intros i j Hi Hj. by rewrite Hpde.
  - intros va. unfold pte_view. by rewrite Hpde by apply PDX_range.
  - intros q. split; [|by left]. intros [->|(i & Hi & Hp & _)]; [done|]. by rewrite Hpde in Hp.
Qed.

Lemma kmap_ok : kents_from KERNBASE kmap.
Proof.
  destruct KI as [D1 D2 D3 D4]. unfold kmap, kents_from.
  exists 256. split_and!; [split; vm_compute; intuition congruence|done|].
  exists ((data_ - KERNLINK) / 4096). split_and!.
  { split; cbn [virt phys_start phys_end kperm]; rewrite ?V2P_high by alia; rewrite ?u32_small by alia;
      try split_and!; try done; alia. }
  { done. }
  exists ((KERNBASE + PHYSTOP - data_) / 4096). split_and!.
  { split; cbn [virt phys_start phys_end kperm]; rewrite ?V2P_high by alia; rewrite ?u32_small by alia;
      try split_and!; try done; alia. }
  { cbn [virt]. alia. }
  exists 8192. split_and!; [split; vm_compute; intuition congruence|cbn [virt]; alia|done].
Qed.

(** With more free pages than a directory and all its tables take, [setupkvm]
    does not fail. *)
Lemma setupkvm_full fl s :
  phys_ok fl s ->
  wp setupkvm (fun d s' => exists fl',
    (d <> 0 /\ new_space fl s d fl' s') \/ (d = 0 /\ all_back fl s fl' s' /\ Z.of_nat (length fl) <= 1025)) s.
Proof.
  intros Hok. unfold setupkvm. wp_step. wp_use kalloc_spec; [done|].
  intros p s1 (Hm & Hu & -> & Hok1). destruct fl as [|p fl]; cbn [hd tl] in Hok1 |- *.
  { cbn [Z.eqb]. wp_steps. exists []. right. split; [done|]. split; [|cbn; lia]. split; try done. intros q _ _. rewrite Hm. apply same_bytes_refl. }
  assert (Hp : is_page p) by (apply (phys_ok_page _ _ p Hok); left).
  pose proof (ok_nodup _ _ Hok) as [Hnp _]%NoDup_cons.
  rewrite (proj2 (Z.eqb_neq p 0)) by (by apply is_page_nz). wp_steps.
  destruct (DEVSPACE <? P2V PHYSTOP) eqn:Hdev; [discriminate Hdev|].
  set (s2 := set_mem (memset (mem s1) p 0 PGSIZE) s1).
  destruct (zero_dir (mem s2) p fl Hp Hnp) as (Hd & Hv0 & Hpt).
  { intros b Hb. simpl. rewrite ld8_memset by alia. consts. by zcases. }
  assert (Hs2 : forall q, is_page q -> q <> p -> same_bytes (mem s) (mem s2) q).
  { intros q Hq Hne. simpl. rewrite Hm. by apply same_bytes_memset. }
  eapply wpx_mono; [apply (setupkvm_loop_spec p kmap KERNBASE fl s2)| |done].
  - apply kmap_ok.
  - done.
  - by apply phys_ok_memset.
  - done.
  - intros va _ _. by rewrite Hv0.
  - cbn beta. intros r s' [(-> & fl' & St & Hv)|(-> & fl' & Hok' & Hfl' & Hs' & Hu' & m & Hmm)]; exists fl'.
    + left. split; [by apply is_page_nz|]. split; try apply St.
      * destruct (vs_free _ _ _ _ _ St) as [u ->]. by exists (p :: u).
      * intros q [->%Hpt|[? _]]%(vs_pt _ _ _ _ _ St); [left|by right].
      * intros q [->|Hq]%elem_of_cons; [right; by apply St, Hpt|by apply (vs_cover _ _ _ _ _ St)].
      * intros va Hva. rewrite Hv, <- kview_eq by done. by apply kview_ext.
      * intros q Hq [Hne Hnf]%not_elem_of_cons. eapply same_bytes_trans; [by apply Hs2|].
        apply St; [done| |done]. by rewrite Hpt.
      * rewrite (vs_lock _ _ _ _ _ St). done.
    + right. split; [done|]. split; [split; [done| | |by rewrite Hu']|].
      * intros q. rewrite Hfl', Hpt, elem_of_cons. tauto.
      * intros q Hq [Hne Hnf]%not_elem_of_cons. eapply same_bytes_trans; [by apply Hs2|].
        apply Hs'; [done..|]. by rewrite Hpt.
      * assert (Hb := pages_bound m p [] 0 0 (p :: fl) (ok_nodup _ _ Hok) ltac:(lia) eq_refl ltac:(lia) ltac:(lia)). etrans; [apply Hb|cbn; lia].
        intros q [->|Hq]%elem_of_cons; right; left; apply Hmm; [right; by apply Hpt|by left].
Qed.

Lemma setupkvm_spec fl s :
  phys_ok fl s ->
  wp setupkvm (fun d s' => exists fl',
    (d <> 0 /\ new_space fl s d fl' s') \/ (d = 0 /\ all_back fl s fl' s')) s.
Proof.
  intros Hok. eapply wpx_mono; [by apply setupkvm_full| |done]. intros d s' (fl' & [?|(? & ? & _)]); exists fl'; [by left|by right].
Qed.

End setupkvm.

(** ** copyuvm *)

Section copyuvm.
Context {K : KernelImage} {KI : KernelImageOk K}.

(** Giving the held page back. *)
Lemma grown_release perm fill (Hperm : forall va, 0 <= perm va < 4096) d lo a fl s p fl2 s2 :
  grown perm fill d lo a a fl s [p] fl2 s2 ->
  wp (kfree p) (fun _ s3 => grown perm fill d lo a a fl s [] (p :: fl2) s3) s2.
Proof.
  intros G. destruct (gr_held G p) as (Hpf & Hpp & Hpn & Hpt & Hpm); [left|].
  wp_use kfree_spec; [apply G|done|done|]. intros [] s3 (Hok & Hu & Hfar).
  assert (Hs : forall q, is_page q -> q <> p -> same_bytes (mem s2) (mem s3) q).
  { intros q Hq Hne b Hb. apply Hfar. destruct (is_page_disjoint q p Hq Hpp Hne); lia. }
  assert (Hptp : forall q, pt_page (mem s2) d q -> same_bytes (mem s2) (mem s3) q).
  { intros q Hq. apply Hs; [by apply (pt_page_is_page _ _ _ _ (gr_dir G)) in Hq as [? _]|]. by intros ->. }
  assert (Hdir : same_bytes (mem s2) (mem s3) d) by (apply Hptp; by left).
  assert (Hiff : forall q, pt_page (mem s3) d q <-> pt_page (mem s2) d q) by (intros; by apply pt_page_ext).
  assert (Hv : forall va, pte_view (mem s3) d va = pte_view (mem s2) d va) by (intros; by apply pte_view_ext).
  assert (Hmap : forall va q, maps_to (mem s3) d va q <-> maps_to (mem s2) d va q)
    by (intros; unfold maps_to; by rewrite Hv).
  split; try done.
  - by eapply (pgdir_ok_add (mem s2)); [apply G|..].
  - intros q [->|Hq]%elem_of_cons; [done|by apply G].
  - intros va Hva Hr. rewrite Hv. by apply (gr_out G).
  - intros va Hva. destruct (gr_in G va Hva) as (q & Hq & Hqp & Hqv & Hqz). exists q.
    rewrite Hv. split_and!; try done. intros b Hb. rewrite <- (Hqz b Hb). apply (Hs q); [done| |done].
    intros ->. apply (Hpm va Hva). split; rewrite Hqv; [apply mk_pte_present|by rewrite frame_mk_pte].
  - split.
    + intros va q Hva Hm%Hmap. destruct (own_frame _ _ _ _ _ (gr_own G) va q Hva Hm) as (X & Y & Z).
      rewrite Hiff, not_elem_of_cons. split_and!; try done. intros ->. by apply (Hpm va).
    + intros va vb q Hva Hvb Hma%Hmap Hmb%Hmap. by apply (own_inj _ _ _ _ _ (gr_own G) va vb q).
  - by intros q ?%elem_of_nil.
  - intros q Hq. rewrite elem_of_cons, Hiff.
    destruct (gr_cover G q Hq) as [?|[?|[?%list_elem_of_singleton|(va & Hva & Hm)]]]; [tauto..|].
    right; right; right. exists va. by rewrite Hmap.
  - intros q Hq%Hiff. destruct (gr_pt G q Hq) as [?|[? ?]]; [by left|]. right. split; [done|].
    rewrite not_elem_of_cons. split; [|done]. by intros ->.
  - intros q Hq. by apply Hiff, G.
  - intros q Hq Hnp Hnf. eapply same_bytes_trans; [by apply G|]. apply Hs; [done|]. by intros ->.
  - rewrite Hu. apply G.
Qed.

(** Giving a half-built child back. *)
Lemma grown_abort perm fill (Hperm : forall va, 0 <= perm va < 4096) fl s d fl1 s1 a fl2 s2 :
  new_space fl s d fl1 s1 -> grown perm fill d 0 a a fl1 s1 [] fl2 s2 -> 0 <= a <= HEAPLIMIT ->
  wp (freevm d) (fun _ s' => exists fl', all_back fl s fl' s') s2.
Proof.
  intros N G Ha.
  assert (Hno : forall va, a <= va < KERNBASE -> present (pte_view (mem s2) d va) = false).
  { intros va Hva. rewrite (gr_out G), (ns_view _ _ _ _ _ N) by alia.
    unfold kernel_view. destruct (Z.ltb_spec va KERNBASE); [done|lia]. }
  assert (Hin : forall va q, 0 <= va < HEAPLIMIT -> maps_to (mem s2) d va q -> va < a /\ q ∈ fl1).
  { intros va q Hva [Hp ->]. destruct (Z.lt_ge_cases va a) as [Hlt|Hge].
    - split; [done|]. destruct (gr_in G va ltac:(lia)) as (q & Hq & Hqp & -> & _). by rewrite frame_mk_pte.
    - rewrite Hno in Hp; [done|consts; lia]. }
  assert (Hsub : forall q, q ∈ fl1 -> q ∈ fl).
  { intros q Hq. destruct (ns_suffix _ _ _ _ _ N) as [u ->]. apply elem_of_app. by right. }
  assert (Hpt : forall q, pt_page (mem s2) d q -> q ∈ fl).
  { intros q Hq. destruct (gr_pt G q Hq) as [?|[? _]]; [by eapply ns_pt|auto]. }
  assert (Hsp : forall q, space_page (mem s2) d HEAPLIMIT q -> q ∈ fl).
  { intros q [Hq|(va & Hva & Hm)]; [auto|]. apply Hin in Hm as [_ ?]; auto. }
  eapply wpx_mono; [apply (freevm_spec d fl2 s2); [apply G..|]| |done].
  { eapply own_extend; [apply G|]. intros va Hva. apply Hno. consts. lia. }
  cbn beta. intros [] s' (fl' & Hok & Hfl & Hs & Hu). exists fl'. split; [done| | |].
  - intros q. rewrite Hfl. split.
    + intros [Hq|Hq]; [by apply Hsub, G|auto].
    + intros [Hq|Hq]%(ns_cover _ _ _ _ _ N).
      * destruct (gr_cover G q Hq) as [?|[?|[?%elem_of_nil|(va & Hva & Hm)]]]; [by left|right; by left|done|].
        right; right. exists va. split; [lia|done].
      * right; left. by apply G.
  - intros q Hq Hnf. eapply same_bytes_trans; [by apply N|].
    eapply same_bytes_trans; [apply G; [done| |auto]|apply Hs; [done|auto]].
    intros Hp. by apply Hnf, (ns_pt _ _ _ _ _ N).
  - rewrite Hu, (gr_lock G). apply N.
Qed.

Lemma copy_perm_ok m pgdir va : 0 <= copy_perm m pgdir va < 4096.
Proof.
  unfold copy_perm, PTE_FLAGS. change 0xFFF with (Z.ones 12). rewrite Z.land_ones by lia.
  apply Z.mod_pos_bound. lia.
Qed.

(** The pages of the parent are out of reach of the copy. *)
Record parent_ok (fl : list Z) (s : phys) (pgdir hi : Z) : Prop := {
  pa_dir : pgdir_ok (mem s) pgdir fl;
  pa_present : forall va, 0 <= va < hi -> present (pte_view (mem s) pgdir va) = true;
  pa_own : uvm_own (mem s) pgdir fl 0 hi;
}.

(** While the child grows, the parent's tables and frames do not change. *)
Lemma parent_stable fl s pgdir hi d fl1 s1 perm fill a held fl2 s2 q :
  new_space fl s d fl1 s1 -> grown perm fill d 0 a a fl1 s1 held fl2 s2 ->
  is_page q -> q ∉ fl -> parent_ok fl s pgdir hi -> same_bytes (mem s) (mem s2) q.
Proof.
  intros N G Hq Hnf _. eapply same_bytes_trans; [by apply N|]. apply (gr_frame G); [done| |].
  - intros Hp. by apply Hnf, (ns_pt _ _ _ _ _ N).
  - intros Hin. apply Hnf. destruct (ns_suffix _ _ _ _ _ N) as [u ->]. apply elem_of_app. by right.
Qed.

Lemma parent_view fl s pgdir hi d fl1 s1 perm fill a held fl2 s2 va :
  new_space fl s d fl1 s1 -> grown perm fill d 0 a a fl1 s1 held fl2 s2 ->
  parent_ok fl s pgdir hi -> pte_view (mem s2) pgdir va = pte_view (mem s) pgdir va.
Proof.
  intros N G P. apply pte_view_ext. intros q Hq.
  destruct (pt_page_is_page _ _ _ _ (pa_dir _ _ _ _ P) Hq). by eapply parent_stable.
Qed.

(** The page [copyuvm] reads at address [a]. *)
Lemma parent_frame fl s pgdir hi a :
  parent_ok fl s pgdir hi -> 0 <= a < hi ->
  let f := frame_of (pte_view (mem s) pgdir a) in is_page f /\ f ∉ fl.
Proof.
  intros P Ha. destruct (own_frame _ _ _ _ _ (pa_own _ _ _ _ P) a _ Ha (conj (pa_present _ _ _ _ P a Ha) eq_refl)) as (? & ? & _).
  done.
Qed.

(** One page of the copy: allocate, copy, map; or give the child back. *)
Lemma copy_page_wp fl s pgdir hi d fl1 s1 a fl2 s2 (k : M phys Z) Q E :
  let perm := copy_perm (mem s) pgdir in let fill := copy_fill (mem s) pgdir in
  let f := frame_of (pte_view (mem s) pgdir a) in
  parent_ok fl s pgdir hi -> new_space fl s d fl1 s1 -> grown perm fill d 0 a a fl1 s1 [] fl2 s2 ->
  0 <= a -> a mod 4096 = 0 -> a + 4096 <= hi -> hi <= HEAPLIMIT ->
  (forall fl' s', all_back fl s fl' s' -> Q 0 s') ->
  (forall fl3 s3, grown perm fill d 0 (a + 4096) (a + 4096) fl1 s1 [] fl3 s3 -> wpx k Q E s3) ->
  wpx (let! page := kalloc in
       if page =? 0 then do! freevm d in ret 0 else
       do! upd_mem (fun m => memmove m page f PGSIZE) in
       let! r := mappages d a PGSIZE (V2P page) (perm a) in
       if r <? 0 then do! kfree page in do! freevm d in ret 0 else k) Q E s2.
Proof.
  cbn zeta. intros P N G Ha Hal Hhi Hlim HQ0 HQ.
  pose proof (copy_perm_ok (mem s) pgdir) as Hperm. set (perm := copy_perm (mem s) pgdir) in *.
  set (fill := copy_fill (mem s) pgdir) in *.
  destruct (parent_frame _ _ _ _ a P ltac:(lia)) as [Hfp Hfn]. set (f := frame_of _) in *.
  assert (Habort : forall fl3 s3, grown perm fill d 0 a a fl1 s1 [] fl3 s3 ->
    wpx (do! freevm d in ret 0) Q E s3).
  { intros fl3 s3 G3. wp_step. eapply wpx_mono; [apply (grown_abort perm fill Hperm fl s d fl1 s1 a fl3 s3 N G3); lia| |done].
    cbn beta. intros [] s4 (fl4 & Hb). wp_steps. by eapply HQ0. }
  wp_step. eapply wpx_mono; [apply (kalloc_spec fl2 s2); apply G| |done].
  intros p s3 (Hm3 & Hu3 & -> & Hok3). destruct fl2 as [|p fl2]; cbn [hd tl] in *.
  { cbn [Z.eqb]. apply (Habort []). eapply (grown_tables _ _ Hperm _ _ _ a); [done| | |lia|alia].
    - eapply vm_step_same; [apply G|apply G|done..].
    - intros va _ _. by rewrite Hm3. }
  assert (Hpp : is_page p) by (apply (phys_ok_page _ _ p (gr_phys G)); left).
  pose proof (ok_nodup _ _ (gr_phys G)) as [Hpn _]%NoDup_cons.
  rewrite (proj2 (Z.eqb_neq p 0)) by (by apply is_page_nz). wp_steps. set (s4 := set_mem _ s3).
  pose proof (is_page_range f Hfp) as Hfr. pose proof (is_page_range p Hpp) as Hpr.
  assert (Hmm : forall b, ld8 (mem s4) b =
    if (p <=? b) && (b <? p + 4096) then ld8 (mem s2) (f + (b - p)) else ld8 (mem s2) b).
  { intros b. simpl. rewrite ld8_memmove by alia. by rewrite Hm3. }
  assert (G4 : grown perm fill d 0 a a fl1 s1 [p] fl2 s4).
  { eapply (grown_take _ _ Hperm); [done| | |done].
    - apply phys_ok_frame; [done|]. intros q b Hq Hb. simpl. rewrite ld8_memmove by alia.
      assert (Hqp : is_page q) by (by eapply phys_ok_page). assert (q <> p) as Hne by (by intros ->).
      destruct (is_page_disjoint q p Hqp Hpp Hne); consts; zcases; by rewrite ?Hm3.
    - intros b Hb. rewrite Hmm. by zcases. }
  change PGSIZE with (1 * 4096). assert (V2P p = p - KERNBASE) as EV by (apply V2P_high; alia).
  eapply wpx_mono.
  { apply (mappages_spec d a 1 (V2P p) (perm a) fl2 s4);
      [apply G4|apply G4|rewrite ?EV; alia..|apply Hperm]. }
  - intros r s5 (fl5 & j & St & [[-> ->]|(-> & Hj & ->)] & Hv & _).
    + cbn [Z.ltb Z.compare]. apply (HQ fl5). apply (grown_adopt _ _ Hperm _ _ a _ _ p).
      * eapply (grown_tables _ _ Hperm); [done|done| |alia|alia].
        intros va Hva Hr. rewrite Hv by done. unfold map_view. consts. by zcases.
      * lia.
      * done.
      * intros va b Hva Hb. destruct (gr_held G4 p) as (_ & _ & ? & ? & _); [left|].
        rewrite (vs_frame _ _ _ _ _ St p) by done. rewrite Hmm. zcases.
        unfold fill, copy_fill. rewrite (pte_view_page _ _ va a) by alia. fold f.
        by apply (parent_stable fl s pgdir hi d fl1 s1 perm fill a [] (p :: fl2) s2 f N G Hfp Hfn P); lia.
      * intros va Hva. rewrite Hv by alia. unfold map_view. consts. zcases.
        replace (perm va) with (perm a) by (unfold perm, copy_perm; by rewrite (pte_view_page _ _ va a) by alia).
        f_equal. dlia.
    + replace j with 0 in Hv by lia. cbn [Z.ltb Z.compare]. wp_step.
      assert (G5 : grown perm fill d 0 a a fl1 s1 [p] [] s5).
      { eapply (grown_tables _ _ Hperm); [done|done| |alia|alia]. intros va Hva _. by rewrite Hv, map_view_0. }
      eapply wpx_mono; [apply (grown_release _ _ Hperm _ _ _ _ _ _ _ _ G5)| |done].
      cbn beta. intros [] s6 G6. by eapply Habort.
  - intros msg (_ & va & Hva & Hp). rewrite (gr_out G4), (ns_view _ _ _ _ _ N) in Hp by alia.
    unfold kernel_view in Hp. destruct (Z.ltb_spec va KERNBASE); [done|alia].
Qed.

Lemma copyuvm_loop_spec fl s pgdir sz d fl1 s1 :
  let hi := PGROUNDUP sz in
  parent_ok fl s pgdir hi -> 0 <= sz <= HEAPLIMIT -> new_space fl s d fl1 s1 ->
  let perm := copy_perm (mem s) pgdir in let fill := copy_fill (mem s) pgdir in
  forall fuel a fl2 s2,
  grown perm fill d 0 a a fl1 s1 [] fl2 s2 -> 0 <= a <= hi -> a mod 4096 = 0 ->
  hi < a + 4096 * Z.of_nat fuel ->
  wp (copyuvm_loop fuel pgdir d sz a) (fun r s' => exists fl',
    (r = d /\ grown perm fill d 0 hi hi fl1 s1 [] fl' s') \/ (r = 0 /\ all_back fl s fl' s')) s2.
Proof.
  cbn zeta. intros P Hsz N.
  assert (Eh : PGROUNDUP sz = (sz + 4095) / 4096 * 4096) by (apply PGROUNDUP_eq; alia).
  pose proof (copy_perm_ok (mem s) pgdir) as Hperm. set (perm := copy_perm (mem s) pgdir) in *.
  set (fill := copy_fill (mem s) pgdir) in *. set (hi := PGROUNDUP sz) in *.
  induction fuel as [|fuel IH]; intros a fl2 s2 G Ha Hal Hf; [lia|].
  cbn [copyuvm_loop]. destruct (Z.ltb_spec a sz) as [Hlt|Hge].
  2:{ wp_steps. exists fl2. left. split; [done|]. replace hi with a by alia. done. }
  assert (Hahi : a + 4096 <= hi) by alia.
  assert (Hpres := pa_present _ _ _ _ P a ltac:(lia)).
  destruct (parent_frame _ _ _ _ a P ltac:(lia)) as [Hfp Hfn]. set (f := frame_of _) in *.
  assert (Hview := parent_view fl s pgdir hi d fl1 s1 perm fill a [] fl2 s2 a N G P).
  assert (Hpde : present (pde_at (mem s2) pgdir (PDX a)) = true).
  { destruct (present (pde_at (mem s2) pgdir (PDX a))) eqn:Hx; [done|]. revert Hpres. rewrite <- Hview.
    unfold pte_view. by rewrite Hx. }
  wp_step. unfold wpx at 1. rewrite walkpgdir_look, Hpde. cbn beta iota.
  assert (Hptr : (pgtab_at (mem s2) pgdir (PDX a) + 4 * PTX a =? 0) = false).
  { apply Z.eqb_neq. assert (is_page (pgtab_at (mem s2) pgdir (PDX a))) as Hpg%is_page_range; [|pose proof (PTX_range a); alia].
    assert (Hsd : same_bytes (mem s) (mem s2) pgdir).
    { eapply parent_stable; try done; apply (pa_dir _ _ _ _ P). }
    rewrite (pgtab_at_ext (mem s)) by (done || apply PDX_range).
    rewrite (pde_at_ext (mem s)) in Hpde by (done || apply PDX_range).
    by destruct (tab_ok _ _ _ (pa_dir _ _ _ _ P) _ (PDX_range a) Hpde) as [? _]. }
  rewrite Hptr. wp_steps.
  assert (He : ld32 (mem s2) (pgtab_at (mem s2) pgdir (PDX a) + 4 * PTX a) = pte_view (mem s) pgdir a).
  { rewrite <- Hview. unfold pte_view. by rewrite Hpde. }
  rewrite He. fold (present (pte_view (mem s) pgdir a)). rewrite Hpres. cbn [negb].
  fold (frame_of (pte_view (mem s) pgdir a)). fold f. fold (copy_perm (mem s) pgdir a). fold perm.
  apply (copy_page_wp fl s pgdir hi d fl1 s1 a fl2 s2); try done; try alia.
  - intros fl' s' Hb. exists fl'. by right.
  - intros fl3 s3 G3. rewrite u32_small by alia. apply (IH (a + 4096) fl3); try done; alia.
Qed.

Lemma copyuvm_spec fl s pgdir sz :
  phys_ok fl s -> 0 <= sz <= HEAPLIMIT -> parent_ok fl s pgdir (PGROUNDUP sz) ->
  wp (copyuvm pgdir sz) (fun d s' => exists fl',
    (d <> 0 /\ copied fl s pgdir (PGROUNDUP sz) d fl' s') \/ (d = 0 /\ all_back fl s fl' s')) s.
Proof.
  intros Hok Hsz P. unfold copyuvm. wp_step.
  assert (Eh : PGROUNDUP sz = (sz + 4095) / 4096 * 4096) by (apply PGROUNDUP_eq; alia).
  eapply wpx_mono; [by apply setupkvm_spec| |done]. cbn beta. intros d s1 (fl1 & [[Hd N]|[-> B]]).
  2:{ cbn [Z.eqb]. wp_steps. exists fl1. by right. }
  rewrite (proj2 (Z.eqb_neq d 0)) by done.
  eapply wpx_mono; [apply (copyuvm_loop_spec fl s pgdir sz d fl1 s1 P Hsz N _ 0 fl1 s1)| |done].
  - apply grown_refl; apply N.
  - alia.
  - done.
  - alia.
  - cbn beta. intros r s' (fl' & [[-> G]|[-> B]]); exists fl'; [left|by right]. split; [done|].
    assert (Hsub : forall q, q ∈ fl1 -> q ∈ fl).
    { intros q Hq. destruct (ns_suffix _ _ _ _ _ N) as [u ->]. apply elem_of_app. by right. }
    split; try apply G.
    + intros va Hva. destruct (gr_in G va Hva) as (q & Hq & Hqp & Hqv & Hqb). exists q.
      split_and!; [auto|done..|]. intros o Ho. rewrite Hqb by lia. f_equal. lia.
    + intros va Hva Hr. rewrite (gr_out G) by (done || lia). by apply (ns_view _ _ _ _ _ N).
    + intros q Hq Hnf. by eapply parent_stable.
    + intros q Hq. by apply Hsub, G.
    + intros q [Hp|[Hp _]]%(gr_pt G); [by apply (ns_pt _ _ _ _ _ N)|auto].
    + rewrite (gr_lock G). apply N.
Qed.

End copyuvm.

(** ** copyout *)

Section copyout.
Context {K : KernelImage} {KI : KernelImageOk K}.

Lemma uva2ka_spec pgdir va s :
  present (pde_at (mem s) pgdir (PDX va)) = true -> is_page (pgtab_at (mem s) pgdir (PDX va)) ->
  uva2ka pgdir va s =
  Ret (if present (pte_view (mem s) pgdir va) && nz (Z.land (pte_view (mem s) pgdir va) PTE_U)
       then frame_of (pte_view (mem s) pgdir va) else 0) s.
Proof.
  intros Hp Hpg. unfold uva2ka, bind. rewrite walkpgdir_look, Hp.
  rewrite (proj2 (Z.eqb_neq _ 0)).
  2:{ pose proof (is_page_range _ Hpg). pose proof (PTX_range va). alia. }
  unfold gets, pte_view. rewrite Hp. unfold present, nz.
  repeat match goal with |- context [Z.land ?a ?b =? 0] => destruct (Z.land a b =? 0); simpl end; done.
Qed.

(** Without a page table for the address, the kernel dereferences null. *)
Lemma uva2ka_null pgdir va s :
  present (pde_at (mem s) pgdir (PDX va)) = false -> uva2ka pgdir va s = Fault "uva2ka: null pte".
Proof. intros Hp. unfold uva2ka, bind. by rewrite walkpgdir_look, Hp. Qed.

(** A range the user may write: mapped, to frames that are not page tables and
    are used once. *)
Record user_range (s : phys) (pgdir va len : Z) : Prop := {
  ur_dir : exists fl, pgdir_ok (mem s) pgdir fl /\ uvm_own (mem s) pgdir fl va (va + len);
  ur_ok : forall i, 0 <= i < len -> user_ok (mem s) pgdir (va + i);
  ur_u32 : 0 <= va /\ va + len <= KERNBASE;
}.

Lemma user_addr_page s pgdir va len i :
  user_range s pgdir va len -> 0 <= i < len ->
  let f := frame_of (pte_view (mem s) pgdir (va + i)) in
  is_page f /\ ~ pt_page (mem s) pgdir f /\ f <= user_addr (mem s) pgdir (va + i) < f + 4096.
Proof.
  intros [(fl & D & W) Hok Hu] Hi. destruct (Hok i Hi) as [Hp _].
  destruct (own_frame _ _ _ _ _ W (va + i) _ ltac:(lia) (conj Hp eq_refl)) as (? & _ & ?).
  split_and!; try done; unfold user_addr; pose proof (Z.mod_pos_bound (va + i) 4096); lia.
Qed.

Lemma user_addr_inj s pgdir va len i j :
  user_range s pgdir va len -> 0 <= i < len -> 0 <= j < len ->
  user_addr (mem s) pgdir (va + i) = user_addr (mem s) pgdir (va + j) -> i = j.
Proof.
  intros U Hi Hj He. destruct (user_addr_page _ _ _ _ i U Hi) as (Hpi & _ & Hri).
  destruct (user_addr_page _ _ _ _ j U Hj) as (Hpj & _ & Hrj).
  set (fi := frame_of (pte_view (mem s) pgdir (va + i))) in *.
  set (fj := frame_of (pte_view (mem s) pgdir (va + j))) in *.
  assert (fi = fj) as Hf.
  { destruct (Z.eq_dec fi fj) as [|Hne]; [done|]. destruct (is_page_disjoint fi fj Hpi Hpj Hne); lia. }
  destruct U as [(fl & D & W) Hok Hu].
  assert ((va + i) / 4096 = (va + j) / 4096).
  { apply (own_inj _ _ _ _ _ W (va + i) (va + j) fi); try lia.
    - split; [by apply Hok|done].
    - split; [by apply Hok|done]. }
  unfold user_addr in He. fold fi fj in He. rewrite Hf in He.
  pose proof (Z.div_mod (va + i) 4096). pose proof (Z.div_mod (va + j) 4096). lia.
Qed.

(** The bytes from [buf] on lie outside the frames of the range. *)
Definition buf_apart (s : phys) (pgdir va len buf : Z) : Prop :=
  forall i j, 0 <= i < len -> 0 <= j < len ->
    let f := frame_of (pte_view (mem s) pgdir (va + i)) in buf + j < f \/ f + 4096 <= buf + j.

(** What [copyout] does to memory. *)
Definition copied_out (s : phys) (pgdir va buf len : Z) (s' : phys) : Prop :=
  (forall i, 0 <= i < len -> ld8 (mem s') (user_addr (mem s) pgdir (va + i)) = ld8 (mem s) (buf + i)) /\
  (forall a, (forall i, 0 <= i < len -> a <> user_addr (mem s) pgdir (va + i)) ->
     ld8 (mem s') a = ld8 (mem s) a).

(** A write into the frames of the range leaves the page table alone. *)
Lemma copied_out_stable s pgdir va buf len s' :
  user_range s pgdir va len -> copied_out s pgdir va buf len s' ->
  (forall q, pt_page (mem s) pgdir q -> same_bytes (mem s) (mem s') q).
Proof.
  intros U [_ Hout] q Hq b Hb. apply Hout. intros i Hi ->.
  destruct (user_addr_page _ _ _ _ i U Hi) as (Hp & Hn & Hr).
  destruct (ur_dir _ _ _ _ U) as (fl & D & _). destruct (pt_page_is_page _ _ _ _ D Hq) as [Hqp _].
  assert (q <> frame_of (pte_view (mem s) pgdir (va + i))) as Hne by (by intros ->).
  destruct (is_page_disjoint q _ Hqp Hp Hne); lia.
Qed.

(** The part of a range that remains after [n] bytes. *)
Lemma user_range_tail s pgdir va len s' n :
  user_range s pgdir va len -> 0 <= n <= len ->
  (forall q, pt_page (mem s) pgdir q -> same_bytes (mem s) (mem s') q) ->
  user_range s' pgdir (va + n) (len - n).
Proof.
  intros [(fl & D & W) Hok Hu] Hn Hs.
  assert (Hv : forall a, pte_view (mem s') pgdir a = pte_view (mem s) pgdir a) by (intros; by apply pte_view_ext).
  assert (Hd : same_bytes (mem s) (mem s') pgdir) by (apply Hs; by left).
  split; [exists fl; split|intros i Hi|lia].
  - by eapply pgdir_ok_ext.
  - split.
    + intros a q Ha [Hp ->]. rewrite Hv in *. rewrite (pt_page_ext (mem s)) by done.
      apply (own_frame _ _ _ _ _ W a); [lia|done].
    + intros a b q Ha Hb [Hp1 Hq1] [Hp2 Hq2]. rewrite Hv in *.
      apply (own_inj _ _ _ _ _ W a b q); (lia || done).
  - unfold user_ok. rewrite Hv. replace (va + n + i) with (va + (n + i)) by lia. apply Hok. lia.
Qed.

(** One [memmove] of the loop, then the rest. *)
Lemma copied_out_cons s pgdir va buf len n s1 s2 :
  user_range s pgdir va len -> buf_apart s pgdir va len buf -> 0 <= n <= len ->
  copied_out s pgdir va buf n s1 -> (forall q, pt_page (mem s) pgdir q -> same_bytes (mem s) (mem s1) q) ->
  copied_out s1 pgdir (va + n) (buf + n) (len - n) s2 ->
  copied_out s pgdir va buf len s2.
Proof.
  intros U B Hn [Hin1 Hout1] Hs [Hin2 Hout2].
  assert (Hua : forall a, user_addr (mem s1) pgdir a = user_addr (mem s) pgdir a).
  { intros a. unfold user_addr. by rewrite (pte_view_ext (mem s)). }
  setoid_rewrite Hua in Hin2. setoid_rewrite Hua in Hout2. split.
  - intros i Hi. destruct (Z.lt_ge_cases i n).
    + rewrite Hout2; [apply Hin1; lia|]. intros j Hj He.
      replace (va + n + j) with (va + (n + j)) in He by lia.
      apply (user_addr_inj _ _ _ _ i (n + j) U) in He; lia.
    + specialize (Hin2 (i - n) ltac:(lia)). replace (va + n + (i - n)) with (va + i) in Hin2 by lia.
      rewrite Hin2. replace (buf + n + (i - n)) with (buf + i) by lia. apply Hout1.
      intros j Hj He. destruct (user_addr_page _ _ _ _ j U ltac:(lia)) as (_ & _ & Hr).
      specialize (B j i ltac:(lia) Hi). cbv zeta in B. lia.
  - intros a Ha. rewrite Hout2, Hout1; [done| |].
    + intros i Hi. apply Ha. lia.
    + intros i Hi. replace (va + n + i) with (va + (n + i)) by lia. apply Ha. lia.
Qed.

(** The [memmove] of one iteration. *)
Lemma memmove_user s pgdir va len buf n :
  user_range s pgdir va len -> buf_apart s pgdir va len buf -> 0 < n <= len ->
  va mod 4096 + n <= 4096 -> 0 <= buf -> buf + len < 4294967296 ->
  let dst := frame_of (pte_view (mem s) pgdir va) + va mod 4096 in
  copied_out s pgdir va buf n (set_mem (memmove (mem s) dst buf n) s).
Proof.
  intros U B Hn Hp Hb1 Hb2. cbv zeta. pose proof (ur_u32 _ _ _ _ U) as Hu.
  set (dst := frame_of (pte_view (mem s) pgdir va) + va mod 4096).
  assert (Hua : forall i, 0 <= i < n -> user_addr (mem s) pgdir (va + i) = dst + i).
  { intros i Hi. unfold user_addr. rewrite (pte_view_page _ _ (va + i) va) by alia. unfold dst. alia. }
  split.
  - intros i Hi. rewrite Hua by done. simpl. rewrite ld8_memmove by lia. zcases. f_equal. lia.
  - intros a Ha. simpl. rewrite ld8_memmove by lia. zcases; [|done..].
    destruct (Ha (a - dst) ltac:(lia)). rewrite Hua by lia. lia.
Qed.

Lemma copyout_loop_spec pgdir : forall fuel va buf len s,
  user_range s pgdir va len -> buf_apart s pgdir va len buf -> 0 <= len ->
  0 <= buf -> buf + len < 4294967296 -> va mod 4096 + len <= 4096 * (Z.of_nat fuel - 1) ->
  wp (copyout_loop fuel pgdir va buf len) (fun r s' =>
    r = 0 /\ copied_out s pgdir va buf len s' /\ use_lock s' = use_lock s) s.
Proof.
  induction fuel as [|fuel IH]; intros va buf len s U B Hlen Hb1 Hb2 Hf.
  { pose proof (Z.mod_pos_bound va 4096). lia. }
  cbn [copyout_loop]. destruct (Z.ltb_spec 0 len) as [Hpos|Hz].
  2:{ wp_steps. split_and!; try done. split; [intros; lia|done]. }
  pose proof (ur_u32 _ _ _ _ U) as Hu.
  destruct (ur_dir _ _ _ _ U) as (fl & D & W).
  assert (Hva0 : PGROUNDDOWN va = va - va mod 4096) by (apply PGROUNDDOWN_eq; alia).
  assert (Hpage : pte_view (mem s) pgdir (PGROUNDDOWN va) = pte_view (mem s) pgdir va).
  { apply pte_view_page; rewrite ?Hva0; alia. }
  destruct (ur_ok _ _ _ _ U 0 ltac:(lia)) as [Hpr Hus]. rewrite Z.add_0_r in Hpr, Hus.
  destruct (user_addr_page _ _ _ _ 0 U ltac:(lia)) as (Hfp & _ & _). rewrite Z.add_0_r in Hfp.
  assert (Hpde : present (pde_at (mem s) pgdir (PDX (PGROUNDDOWN va))) = true).
  { destruct (present (pde_at (mem s) pgdir (PDX (PGROUNDDOWN va)))) eqn:Hx; [done|].
    rewrite <- Hpage in Hpr. unfold pte_view in Hpr. by rewrite Hx in Hpr. }
  wp_step. unfold wpx at 1. rewrite uva2ka_spec.
  2: done.
  2: by destruct (tab_ok _ _ _ D _ (PDX_range _) Hpde).
  rewrite Hpage, Hpr, Hus. cbn [andb].
  rewrite (proj2 (Z.eqb_neq _ 0)) by (by apply is_page_nz).
  replace (va - PGROUNDDOWN va) with (va mod 4096) by (rewrite Hva0; lia).
  pose proof (Z.mod_pos_bound va 4096 ltac:(lia)) as Hmod.
  set (n := if len <? PGSIZE - va mod 4096 then len else PGSIZE - va mod 4096).
  assert (Hn : 0 < n <= len /\ va mod 4096 + n <= 4096 /\ (n = len \/ va mod 4096 + n = 4096)).
  { unfold n. consts. zcases; lia. }
  wp_steps. set (s1 := set_mem _ s).
  assert (C1 := memmove_user s pgdir va len buf n U B ltac:(lia) ltac:(lia) Hb1 Hb2). fold s1 in C1.
  assert (Hs1 : forall q, pt_page (mem s) pgdir q -> same_bytes (mem s) (mem s1) q).
  { apply (copied_out_stable s pgdir va buf n); [|done].
    destruct U as [_ Hok _]. split; [exists fl; split; [done|eapply uvm_own_sub; [..|done]; lia]|intros i Hi; apply Hok; lia|lia]. }
  destruct Hn as (Hn1 & Hn2 & [Hlast|Hfull]).
  - replace (len - n) with 0 by lia. destruct fuel; [consts; lia|]. cbn [copyout_loop Z.ltb Z.compare].
    wp_steps. split_and!; try done. by rewrite <- Hlast.
  - rewrite u32_small by (rewrite Hva0; alia).
    replace (PGROUNDDOWN va + PGSIZE) with (va + n) by (rewrite Hva0; consts; lia).
    eapply wpx_mono; [apply (IH (va + n) (buf + n) (len - n) s1)| |done].
    + by apply user_range_tail with (s := s); [|lia|].
    + intros i j Hi Hj. cbv zeta. rewrite (pte_view_ext (mem s)) by done.
      specialize (B (n + i) (n + j) ltac:(lia) ltac:(lia)). cbv zeta in B.
      replace (va + n + i) with (va + (n + i)) by lia. lia.
    + lia.
    + lia.
    + lia.
    + replace ((va + n) mod 4096) with 0 by alia. lia.
    + cbn beta. intros r s2 (-> & C2 & Hu2). split_and!; [done| |done].
      by apply (copied_out_cons s pgdir va buf len n s1 s2); [done|done|lia|..].
Qed.

End copyout.
