(* ===== verification/VmTheorems.v ===== *)
(** * What the virtual-memory code guarantees

    The contracts of the operations of src/vm.c that the rest of the kernel
    relies on, stated on the view of the page table, the free list and the
    bytes of the pages. *)

From S2P Require Import Prelude.
From S2P Require Import CString.
From S2P Require Import Mmu.
From S2P Require Import Kalloc.
From S2P Require Import Vm.
From S2P Require Import Demo.
From S2P Require Import Uvm.
From S2P Require Import Vmspace.

Open Scope Z_scope.

Section theorems.
Context {K : KernelImage} {KI : KernelImageOk K}.

(** [mappages] of [n] pages either maps all of them, each virtual page to
    its physical page with the permission, or answers -1 after a prefix, when
    the free list ran out; it panics only if a page of the range was already
    mapped.  Nothing else of the view changes, the page table stays well
    formed, and only free pages and pages of the table are written. *)
Theorem mappages_maps pgdir va n pa perm fl s :
  phys_ok fl s -> pgdir_ok (mem s) pgdir fl -> 0 < n ->
  0 <= va -> va mod 4096 = 0 -> va + n * 4096 <= 4294967296 ->
  0 <= pa -> pa mod 4096 = 0 -> pa + n * 4096 <= 4294967296 -> 0 <= perm < 4096 ->
  wpx (mappages pgdir va (n * 4096) pa perm)
    (fun r s' => exists fl' k, vm_step pgdir fl s fl' s' /\ map_result n k fl' r /\
      (forall vb, is_u32 vb ->
         pte_view (mem s') pgdir vb = map_view (pte_view (mem s) pgdir) va k pa perm vb) /\
      (forall vb, va <= vb < va + k * 4096 -> present (pte_view (mem s) pgdir vb) = false))
    (fun msg => msg = "remap" /\
      exists vb, va <= vb < va + n * 4096 /\ present (pte_view (mem s) pgdir vb) = true) s.
Proof. apply mappages_spec. Qed.

(** C29: [allocuvm] grows the process to the new size with zeroed pages of its
    own, writable by the user; or it answers 0 and undoes everything: no page
    of the range is mapped, and every page it took is free again or holds a
    page table. *)
Theorem allocuvm_all_or_nothing pgdir oldsz newsz fl s :
  phys_ok fl s -> pgdir_ok (mem s) pgdir fl -> 0 <= oldsz <= newsz -> newsz < HEAPLIMIT ->
  (forall va, PGROUNDUP oldsz <= va < PGROUNDUP newsz -> present (pte_view (mem s) pgdir va) = false) ->
  wp (allocuvm pgdir oldsz newsz)
    (alloc_result pgdir (PGROUNDUP oldsz) (PGROUNDUP newsz) newsz fl s) s.
Proof. apply allocuvm_spec. Qed.

(** [deallocuvm] unmaps exactly the pages above the new size and puts
    exactly their frames on the free list. *)
Theorem deallocuvm_frees_range pgdir oldsz newsz fl s :
  phys_ok fl s -> pgdir_ok (mem s) pgdir fl -> 0 <= newsz < oldsz -> oldsz <= HEAPLIMIT ->
  uvm_own (mem s) pgdir fl (PGROUNDUP newsz) (PGROUNDUP oldsz) ->
  wp (deallocuvm pgdir oldsz newsz) (fun r s' =>
    r = newsz /\
    exists freed, unmapped pgdir (PGROUNDUP newsz) (PGROUNDUP oldsz) fl s freed s') s.
Proof. apply deallocuvm_spec. Qed.

(** [freevm] gives back the frames below HEAPLIMIT, every page table and
    the directory, and nothing else: the pages of shared segments, above
    HEAPLIMIT, keep their contents. *)
Theorem freevm_frees_space pgdir fl s :
  phys_ok fl s -> pgdir_ok (mem s) pgdir fl -> uvm_own (mem s) pgdir fl 0 HEAPLIMIT ->
  wp (freevm pgdir) (fun _ s' => exists fl', phys_ok fl' s' /\
    (forall q, q ∈ fl' <-> q ∈ fl \/ space_page (mem s) pgdir HEAPLIMIT q) /\
    (forall q, is_page q -> ~ space_page (mem s) pgdir HEAPLIMIT q -> same_bytes (mem s) (mem s') q) /\
    use_lock s' = use_lock s) s.
Proof. apply freevm_spec. Qed.

(** [setupkvm] builds a directory whose view is the kernel's: memory at
    its physical address, kernel text read only, the devices, and nothing for
    the user; or answers 0 with every page it took free again. *)
Theorem setupkvm_maps_kernel fl s :
  phys_ok fl s ->
  wp setupkvm (fun d s' => exists fl',
    (d <> 0 /\ new_space fl s d fl' s' /\
     forall va, is_u32 va -> Z.land (pte_view (mem s') d va) PTE_U = 0) \/
    (d = 0 /\ all_back fl s fl' s')) s.
Proof.
  intros Hok. eapply wpx_mono; [by apply setupkvm_spec| |done].
  cbn beta. intros d s' (fl' & [[Hd N]|B]); exists fl'; [left|by right]. split_and!; try done.
  intros va Hva. rewrite (ns_view _ _ _ _ _ N) by done. by apply kernel_view_not_user.
Qed.

(** C11: [copyuvm] gives the child a copy of every page of the parent, with the
    same flags, in frames of its own, and leaves the parent and everything
    else in use untouched; or answers 0 with every page it took free again. *)
Theorem copyuvm_copies fl s pgdir sz :
  phys_ok fl s -> 0 <= sz <= HEAPLIMIT -> parent_ok fl s pgdir (PGROUNDUP sz) ->
  wp (copyuvm pgdir sz) (fun d s' => exists fl',
    (d <> 0 /\ copied fl s pgdir (PGROUNDUP sz) d fl' s') \/ (d = 0 /\ all_back fl s fl' s')) s.
Proof. apply copyuvm_spec. Qed.

(** [copyout] writes [len] bytes from kernel memory to the user addresses
    from [va] on, wherever their frames are, and writes nothing else. *)
Theorem copyout_writes pgdir va buf len s :
  user_range s pgdir va len -> buf_apart s pgdir va len buf -> 0 <= len ->
  0 <= buf -> buf + len < 4294967296 ->
  wp (copyout pgdir va buf len) (fun r s' => r = 0 /\ copied_out s pgdir va buf len s') s.
Proof.
  intros U B Hl Hb1 Hb2. unfold copyout.
  eapply wpx_mono; [apply (copyout_loop_spec pgdir _ va buf len s U B Hl Hb1 Hb2)| |done].
  - pose proof (Z.mod_pos_bound va 4096 ltac:(lia)). alia.
  - cbn beta. by intros r s' (-> & C & _).
Qed.

(** [copyout] to an address without a page table does not answer -1: the
    kernel reads through a null pointer, because [uva2ka] does not test what
    [walkpgdir] returns. *)
Theorem copyout_null_table pgdir va buf len s :
  0 < len -> present (pde_at (mem s) pgdir (PDX (PGROUNDDOWN va))) = false ->
  copyout pgdir va buf len s = Fault "uva2ka: null pte".
Proof.
  intros Hl Hp. unfold copyout. cbn [copyout_loop]. destruct (Z.ltb_spec 0 len); [|lia].
  unfold bind at 1. by rewrite uva2ka_null.
Qed.

End theorems.

(** ** Witnesses *)

#[local] Existing Instances demo_image demo_image_ok.

Lemma mappages_maps_witness :
  wpx (mappages demo_dir 0x10000 (2 * 4096) 0x400000 6)
    (fun r s' => exists fl' k, vm_step demo_dir demo_pages demo_phys fl' s' /\ map_result 2 k fl' r /\
      (forall vb, is_u32 vb -> pte_view (mem s') demo_dir vb =
         map_view (pte_view (mem demo_phys) demo_dir) 0x10000 k 0x400000 6 vb) /\
      (forall vb, 0x10000 <= vb < 0x10000 + k * 4096 -> present (pte_view (mem demo_phys) demo_dir vb) = false))
    (fun msg => msg = "remap" /\
      exists vb, 0x10000 <= vb < 0x10000 + 2 * 4096 /\ present (pte_view (mem demo_phys) demo_dir vb) = true)
    demo_phys.
Proof.
  apply (mappages_maps demo_dir 0x10000 2 0x400000 6 demo_pages demo_phys demo_phys_ok demo_dir_ok);
    (lia || reflexivity).
Defined.

Lemma allocuvm_all_or_nothing_witness :
  wp (allocuvm demo_dir 0 4096)
    (alloc_result demo_dir (PGROUNDUP 0) (PGROUNDUP 4096) 4096 demo_pages demo_phys) demo_phys.
Proof.
  apply (allocuvm_all_or_nothing demo_dir 0 4096 demo_pages demo_phys demo_phys_ok demo_dir_ok).
  - lia.
  - reflexivity.
  - intros va _. rewrite demo_view. reflexivity.
Defined.

(** The concrete machine with one page of user memory. *)
Definition demo_user : phys := after (allocuvm demo_dir 0 4096) demo_phys.

Lemma demo_user_grown : exists fl',
  grown user_perm zero_fill demo_dir 0 4096 4096 demo_pages demo_phys [] fl' demo_user.
Proof.
  destruct (wp_run _ _ _ (allocuvm_spec demo_dir 0 4096 demo_pages demo_phys demo_phys_ok demo_dir_ok
    ltac:(lia) ltac:(reflexivity) ltac:(intros va _; by rewrite demo_view))) as (a & s' & Hrun & Hpost).
  assert (Ha : a = 4096).
  { assert (H : match allocuvm demo_dir 0 4096 demo_phys with Ret a _ => a | _ => 0 end = 4096)
      by (vm_compute; reflexivity).
    by rewrite Hrun in H. }
  unfold demo_user, after. rewrite Hrun. subst a.
  destruct Hpost as [[_ H]|[Hx _]]; [exact H|discriminate Hx].
Qed.

Lemma deallocuvm_frees_range_witness : exists fl : list Z,
  wp (deallocuvm demo_dir 4096 0) (fun r s' => r = 0 /\
    exists freed, unmapped demo_dir (PGROUNDUP 0) (PGROUNDUP 4096) fl demo_user freed s') demo_user.
Proof.
  destruct demo_user_grown as [fl G]. exists fl.
  apply (deallocuvm_frees_range demo_dir 4096 0 fl demo_user (gr_phys G) (gr_dir G)).
  - lia.
  - discriminate.
  - exact (gr_own G).
Defined.

Lemma freevm_frees_space_witness : exists fl : list Z,
  wp (freevm demo_dir) (fun _ s' => exists fl', phys_ok fl' s' /\
    (forall q, q ∈ fl' <-> q ∈ fl \/ space_page (mem demo_user) demo_dir HEAPLIMIT q) /\
    (forall q, is_page q -> ~ space_page (mem demo_user) demo_dir HEAPLIMIT q ->
       same_bytes (mem demo_user) (mem s') q) /\
    use_lock s' = use_lock demo_user) demo_user.
Proof.
  destruct demo_user_grown as [fl G]. exists fl.
  apply (freevm_frees_space demo_dir fl demo_user (gr_phys G) (gr_dir G)).
  eapply own_extend; [exact (gr_own G)|]. intros va Hva.
  rewrite (gr_out G); [by rewrite demo_view|consts; unfold is_u32; lia|lia].
Defined.

Lemma setupkvm_maps_kernel_witness :
  wp setupkvm (fun d s' => exists fl',
    (d <> 0 /\ new_space demo_pages demo_phys d fl' s' /\
     forall va, is_u32 va -> Z.land (pte_view (mem s') d va) PTE_U = 0) \/
    (d = 0 /\ all_back demo_pages demo_phys fl' s')) demo_phys.
Proof. apply (setupkvm_maps_kernel demo_pages demo_phys). apply demo_phys_ok. Defined.

Lemma demo_parent fl :
  grown user_perm zero_fill demo_dir 0 4096 4096 demo_pages demo_phys [] fl demo_user ->
  parent_ok fl demo_user demo_dir (PGROUNDUP 4096).
Proof.
  intros G. split.
  - exact (gr_dir G).
  - intros va Hva. destruct (gr_in G va Hva) as (q & _ & _ & -> & _). apply mk_pte_present.
  - exact (gr_own G).
Qed.

Lemma copyuvm_copies_witness : exists fl : list Z,
  wp (copyuvm demo_dir 4096) (fun d s' => exists fl',
    (d <> 0 /\ copied fl demo_user demo_dir (PGROUNDUP 4096) d fl' s') \/
    (d = 0 /\ all_back fl demo_user fl' s')) demo_user.
Proof.
  destruct demo_user_grown as [fl G]. exists fl.
  apply (copyuvm_copies fl demo_user demo_dir 4096 (gr_phys G)).
  - consts. lia.
  - by apply demo_parent.
Defined.

Lemma demo_user_range fl :
  grown user_perm zero_fill demo_dir 0 4096 4096 demo_pages demo_phys [] fl demo_user ->
  user_range demo_user demo_dir 0 16.
Proof.
  intros G. split.
  - exists fl. split; [exact (gr_dir G)|]. eapply uvm_own_sub; [..|exact (gr_own G)]; lia.
  - intros i Hi. unfold user_ok. rewrite (pte_view_page _ _ (0 + i) 0) by (unfold is_u32; dlia).
    vm_compute. done.
  - consts. lia.
Qed.

Lemma copyout_writes_witness :
  wp (copyout demo_dir 0 0x80117000 16) (fun r s' =>
    r = 0 /\ copied_out demo_user demo_dir 0 0x80117000 16 s') demo_user.
Proof.
  destruct demo_user_grown as [fl G].
  apply (copyout_writes demo_dir 0 0x80117000 16 demo_user).
  - by eapply demo_user_range.
  - intros i j Hi Hj. cbv zeta. rewrite (pte_view_page _ _ (0 + i) 0) by (unfold is_u32; dlia).
    assert (frame_of (pte_view (mem demo_user) demo_dir 0) = 0x80200000) as -> by (vm_compute; reflexivity).
    lia.
  - lia.
  - lia.
  - lia.
Defined.

Lemma copyout_null_table_witness :
  copyout demo_dir 0x400000 0x80117000 16 demo_phys = Fault "uva2ka: null pte".
Proof.
  apply (copyout_null_table demo_dir 0x400000 0x80117000 16 demo_phys); [lia|vm_compute; reflexivity].
Defined.
