(* ===== verification/Kernel.v ===== *)
(** * The kernel's global state (src/proc.h, src/shm.h, and the tables of
    src/proc.c and src/vm.c)

    One record holds what the process and shared-memory code shares: physical
    memory with its allocator, the process table, the shared-memory table and
    their locks, and the state [F] of the file system, which the process code
    reaches only through the operations of [FileOps].  C arrays of a fixed
    length are lists; [zidx] reads one and answers [None] outside its
    bounds. *)

From S2P Require Import Prelude.
From S2P Require Import CString.
From S2P Require Import Mmu.
From S2P Require Import Kalloc.
From S2P Require Import Vm.

Open Scope Z_scope.

Definition NPROC : Z := 64.
Definition NOFILE : Z := 16.

(** Array access. *)
Definition zidx {A} (l : list A) (i : Z) : option A :=
  if i <? 0 then None else l !! Z.to_nat i.

Definition zupd {A} (l : list A) (i : Z) (x : A) : list A := <[Z.to_nat i := x]> l.

(** ** shm.h *)

(** -1 as an unsigned key: the key of a slot that is not in use. *)
Definition NOKEY : Z := 4294967295.

Record ipc_perm := mkPerm { perm_key : Z; mode : Z }.

Record shmid_ds := mkDs {
  shm_perm : ipc_perm;
  shm_segsz : Z;
  shm_nattch : Z;
  shm_cpid : Z;
  shm_lpid : Z;
}.

Record shmRegion := mkRegion {
  key : Z;
  size : Z;
  shmid : Z;
  toBeDeleted : Z;
  physicalAddr : list Z;
  buffer : shmid_ds;
}.

(** ** proc.h *)

Inductive procstate := UNUSED | EMBRYO | SLEEPING | RUNNABLE | RUNNING | ZOMBIE.

#[export] Instance procstate_eq_dec : EqDecision procstate.
Proof. solve_decision. Defined.

Record sharedPages := mkPages {
  pkey : Z;
  psize : Z;
  pshmid : Z;
  pperm : Z;
  virtualAddr : Z;
}.

(** What a process can sleep on: nothing, the address of a process (a parent
    waits on its own), or another kernel address. *)
Inductive channel := ChNone | ChProc (i : nat) | ChAddr (a : Z).

#[export] Instance channel_eq_dec : EqDecision channel.
Proof. solve_decision. Defined.

(** The registers of the trap frame (the padding is left out). *)
Record trapframe := mkTf {
  tf_edi : Z; tf_esi : Z; tf_ebp : Z; tf_oesp : Z; tf_ebx : Z; tf_edx : Z; tf_ecx : Z; tf_eax : Z;
  tf_gs : Z; tf_fs : Z; tf_es : Z; tf_ds : Z; tf_trapno : Z;
  tf_err : Z; tf_eip : Z; tf_cs : Z; tf_eflags : Z;
  tf_esp : Z; tf_ss : Z;
}.

Definition set_eax v (t : trapframe) := mkTf (tf_edi t) (tf_esi t) (tf_ebp t) (tf_oesp t) (tf_ebx t)
  (tf_edx t) (tf_ecx t) v (tf_gs t) (tf_fs t) (tf_es t) (tf_ds t) (tf_trapno t) (tf_err t) (tf_eip t)
  (tf_cs t) (tf_eflags t) (tf_esp t) (tf_ss t).

(** Pointers to processes are indices in the table, [None] for null; pointers
    to files and inodes are the file system's own numbers, 0 for null.  The
    trap frame, which the hardware keeps on the kernel stack, is a field. *)
Record proc := mkProc {
  sz : Z;
  pgdir : Z;
  kstack : Z;
  state : procstate;
  pid : Z;
  parent : option nat;
  tf : trapframe;
  context : Z;
  chan : channel;
  killed : Z;
  ofile : list Z;
  cwd : Z;
  name : list Z;
  pages : list sharedPages;
}.

Definition set_sz v (p : proc) := mkProc v (pgdir p) (kstack p) (state p) (pid p) (parent p) (tf p)
  (context p) (chan p) (killed p) (ofile p) (cwd p) (name p) (pages p).
Definition set_pgdir v (p : proc) := mkProc (sz p) v (kstack p) (state p) (pid p) (parent p) (tf p)
  (context p) (chan p) (killed p) (ofile p) (cwd p) (name p) (pages p).
Definition set_kstack v (p : proc) := mkProc (sz p) (pgdir p) v (state p) (pid p) (parent p) (tf p)
  (context p) (chan p) (killed p) (ofile p) (cwd p) (name p) (pages p).
Definition set_state v (p : proc) := mkProc (sz p) (pgdir p) (kstack p) v (pid p) (parent p) (tf p)
  (context p) (chan p) (killed p) (ofile p) (cwd p) (name p) (pages p).
Definition set_pid v (p : proc) := mkProc (sz p) (pgdir p) (kstack p) (state p) v (parent p) (tf p)
  (context p) (chan p) (killed p) (ofile p) (cwd p) (name p) (pages p).
Definition set_parent v (p : proc) := mkProc (sz p) (pgdir p) (kstack p) (state p) (pid p) v (tf p)
  (context p) (chan p) (killed p) (ofile p) (cwd p) (name p) (pages p).
Definition set_tf v (p : proc) := mkProc (sz p) (pgdir p) (kstack p) (state p) (pid p) (parent p) v
  (context p) (chan p) (killed p) (ofile p) (cwd p) (name p) (pages p).
Definition set_context v (p : proc) := mkProc (sz p) (pgdir p) (kstack p) (state p) (pid p) (parent p) (tf p)
  v (chan p) (killed p) (ofile p) (cwd p) (name p) (pages p).
Definition set_chan v (p : proc) := mkProc (sz p) (pgdir p) (kstack p) (state p) (pid p) (parent p) (tf p)
  (context p) v (killed p) (ofile p) (cwd p) (name p) (pages p).
Definition set_killed v (p : proc) := mkProc (sz p) (pgdir p) (kstack p) (state p) (pid p) (parent p) (tf p)
  (context p) (chan p) v (ofile p) (cwd p) (name p) (pages p).
Definition set_ofile v (p : proc) := mkProc (sz p) (pgdir p) (kstack p) (state p) (pid p) (parent p) (tf p)
  (context p) (chan p) (killed p) v (cwd p) (name p) (pages p).
Definition set_cwd v (p : proc) := mkProc (sz p) (pgdir p) (kstack p) (state p) (pid p) (parent p) (tf p)
  (context p) (chan p) (killed p) (ofile p) v (name p) (pages p).
Definition set_name v (p : proc) := mkProc (sz p) (pgdir p) (kstack p) (state p) (pid p) (parent p) (tf p)
  (context p) (chan p) (killed p) (ofile p) (cwd p) v (pages p).
Definition set_pages v (p : proc) := mkProc (sz p) (pgdir p) (kstack p) (state p) (pid p) (parent p) (tf p)
  (context p) (chan p) (killed p) (ofile p) (cwd p) (name p) v.

(** ** The state *)

Record kernel (F : Type) := mkKernel {
  kphys : phys;
  ptable : list proc;
  ptable_lock : bool;
  nextpid : Z;
  initproc : nat;
  curproc : nat;                (* the process running on this CPU *)
  shmTable : list shmRegion;
  shm_lock : bool;
  kfs : F;
}.
Arguments mkKernel {F}.
Arguments kphys {F}.
Arguments ptable {F}.
Arguments ptable_lock {F}.
Arguments nextpid {F}.
Arguments initproc {F}.
Arguments curproc {F}.
Arguments shmTable {F}.
Arguments shm_lock {F}.
Arguments kfs {F}.

Section state.
Context {F : Type}.


Definition set_kphys v (s : kernel F) := mkKernel v (ptable s) (ptable_lock s) (nextpid s)
  (initproc s) (curproc s) (shmTable s) (shm_lock s) (kfs s).
Definition set_ptable v (s : kernel F) := mkKernel (kphys s) v (ptable_lock s) (nextpid s)
  (initproc s) (curproc s) (shmTable s) (shm_lock s) (kfs s).
Definition set_ptable_lock v (s : kernel F) := mkKernel (kphys s) (ptable s) v (nextpid s)
  (initproc s) (curproc s) (shmTable s) (shm_lock s) (kfs s).
Definition set_nextpid v (s : kernel F) := mkKernel (kphys s) (ptable s) (ptable_lock s) v
  (initproc s) (curproc s) (shmTable s) (shm_lock s) (kfs s).
Definition set_initproc v (s : kernel F) := mkKernel (kphys s) (ptable s) (ptable_lock s) (nextpid s)
  v (curproc s) (shmTable s) (shm_lock s) (kfs s).
Definition set_curproc v (s : kernel F) := mkKernel (kphys s) (ptable s) (ptable_lock s) (nextpid s)
  (initproc s) v (shmTable s) (shm_lock s) (kfs s).
Definition set_shmTable v (s : kernel F) := mkKernel (kphys s) (ptable s) (ptable_lock s) (nextpid s)
  (initproc s) (curproc s) v (shm_lock s) (kfs s).
Definition set_shm_lock v (s : kernel F) := mkKernel (kphys s) (ptable s) (ptable_lock s) (nextpid s)
  (initproc s) (curproc s) (shmTable s) v (kfs s).
Definition set_kfs (v : F) (s : kernel F) := mkKernel (kphys s) (ptable s) (ptable_lock s) (nextpid s)
  (initproc s) (curproc s) (shmTable s) (shm_lock s) v.

(** Memory operations and file operations inside the kernel state. *)
Definition inphys {A} (c : M phys A) : M (kernel F) A := zoom kphys set_kphys c.
Definition infs {A} (c : M F A) : M (kernel F) A := zoom kfs set_kfs c.

(** File operations that also allocate or free pages. *)
Definition infsp {A} (c : M (F * phys) A) : M (kernel F) A :=
  zoom (fun s => (kfs s, kphys s)) (fun fp s => set_kfs fp.1 (set_kphys fp.2 s)) c.

(** A process of the table. *)
Definition get_proc (i : nat) : M (kernel F) proc :=
  fun s => match ptable s !! i with Some p => Ret p s | None => Fault "ptable.proc" end.

Definition upd_proc (i : nat) (f : proc -> proc) : M (kernel F) unit :=
  fun s =>
    match ptable s !! i with
    | Some p => Ret tt (set_ptable (<[i := f p]> (ptable s)) s)
    | None => Fault "ptable.proc"
    end.

(** [myproc()]. *)
Definition myproc : M (kernel F) nat := gets curproc.

End state.

(** The operations of the file system that the process code calls.  A client
    is proved against this interface; src/file.c and src/fs.c implement it.
    Closing the last end of a pipe frees its page; [namei] gets the current
    directory that it reads from the process. *)
Class FileOps (F : Type) := {
  filedup : Z -> M F unit;
  fileclose : Z -> M (F * phys) unit;
  idup : Z -> M F unit;
  iput : Z -> M F unit;
  begin_op : M F unit;
  end_op : M F unit;
  namei : Z -> list Z -> M F Z;
}.

(** * Lemmas *)

#[export] Hint Unfold inphys infs myproc : wp.

Lemma zidx_Some {A} (l : list A) i x :
  zidx l i = Some x <-> 0 <= i /\ l !! Z.to_nat i = Some x.
Proof. unfold zidx. zcases; naive_solver lia. Qed.

Lemma zidx_lt {A} (l : list A) i :
  0 <= i < Z.of_nat (length l) -> exists x, zidx l i = Some x.
Proof.
  intros Hi. unfold zidx. zcases.
  destruct (lookup_lt_is_Some_2 l (Z.to_nat i)) as [x Hx]; [lia|]. by exists x.
Qed.

Lemma zidx_range {A} (l : list A) i x : zidx l i = Some x -> 0 <= i < Z.of_nat (length l).
Proof. intros [H1 H2%lookup_lt_Some]%zidx_Some. lia. Qed.

Lemma zidx_zupd {A} (l : list A) i j x :
  0 <= i -> 0 <= j < Z.of_nat (length l) ->
  zidx (zupd l i x) j = if j =? i then Some x else zidx l j.
Proof.
  intros Hi Hj. unfold zidx, zupd. zcases.
  - subst. by rewrite list_lookup_insert_eq by lia.
  - by rewrite list_lookup_insert_ne by lia.
Qed.

Lemma length_zupd {A} (l : list A) i x : length (zupd l i x) = length l.
Proof. apply length_insert. Qed.
