(* ===== verification/Shm.v ===== *)
(** * System V shared memory (src/vm.c, lines 395-879; src/shm.h, src/ipc.h)

    The table [shmTable] of regions, each a run of physical pages with a key,
    and the segments a process has attached ([pages] of struct proc).
    [shmget] creates a region, [shmat] maps one at an address between
    HEAPLIMIT and KERNBASE, [shmdt] unmaps it, [shmctl] reads, changes or
    removes a region.  An access outside [allRegions] is a [Fault]. *)

From S2P Require Import Prelude.
From S2P Require Import CString.
From S2P Require Import Mmu.
From S2P Require Import Kalloc.
From S2P Require Import Vm.
From S2P Require Import Uvm.
From S2P Require Import Kernel.

Open Scope Z_scope.

(** ** Constants of ipc.h and shm.h *)

Definition IPC_CREAT : Z := 512.
Definition IPC_EXCL : Z := 1024.
Definition IPC_PRIVATE : Z := 0.
Definition IPC_RMID : Z := 0.
Definition IPC_SET : Z := 1.
Definition IPC_STAT : Z := 2.
Definition SHM_RDONLY : Z := 4096.
Definition SHM_RND : Z := 8192.
Definition SHM_REMAP : Z := 16384.
Definition SHM_STAT : Z := 13.
Definition SHMLBA : Z := 1 * PGSIZE.
Definition READ_SHM : Z := 4.
Definition RW_SHM : Z := 6.

(** ** Updates of a region *)

Definition set_mode v (b : shmid_ds) :=
  mkDs (mkPerm (perm_key (shm_perm b)) v) (shm_segsz b) (shm_nattch b) (shm_cpid b) (shm_lpid b).
Definition set_nattch v (b : shmid_ds) :=
  mkDs (shm_perm b) (shm_segsz b) v (shm_cpid b) (shm_lpid b).
Definition set_lpid v (b : shmid_ds) :=
  mkDs (shm_perm b) (shm_segsz b) (shm_nattch b) (shm_cpid b) v.

Definition set_buffer f (r : shmRegion) :=
  mkRegion (key r) (size r) (shmid r) (toBeDeleted r) (physicalAddr r) (f (buffer r)).
Definition set_toBeDeleted v (r : shmRegion) :=
  mkRegion (key r) (size r) (shmid r) v (physicalAddr r) (buffer r).
Definition set_phys_addr i v (r : shmRegion) :=
  mkRegion (key r) (size r) (shmid r) (toBeDeleted r) (zupd (physicalAddr r) i v) (buffer r).

(** The values a region has when it is not in use. *)
Definition ds0 : shmid_ds := mkDs (mkPerm NOKEY 0) 0 0 (-1) (-1).

Definition reset_region (r : shmRegion) : shmRegion :=
  mkRegion NOKEY 0 (-1) 0 (physicalAddr r) ds0.

Definition region0 : shmRegion :=
  mkRegion NOKEY 0 (-1) 0 (replicate (Z.to_nat SHAREDREGIONS) 0) ds0.

(** A free slot of a process's [pages]. *)
Definition clear_pages (g : sharedPages) : sharedPages := mkPages NOKEY 0 (-1) (pperm g) 0.

(** First index from [i] on whose element satisfies [f]. *)
Fixpoint find_idx {A} (f : A -> bool) (i : Z) (l : list A) : option Z :=
  match l with
  | [] => None
  | x :: l' => if f x then Some i else find_idx f (i + 1) l'
  end.

(** The loop of [getLeastvaidx]: the best segment so far is at [leastva],
    with index [idx]. *)
Fixpoint getLeastvaidx_loop (l : list sharedPages) (i curr_va leastva idx : Z) : Z :=
  match l with
  | [] => idx
  | g :: l' =>
      if negb (pkey g =? NOKEY) && (curr_va <=? virtualAddr g) && (virtualAddr g <=? leastva)
      then getLeastvaidx_loop l' (i + 1) curr_va (virtualAddr g) i
      else getLeastvaidx_loop l' (i + 1) curr_va leastva idx
  end.

Definition getLeastvaidx (curr_va : Z) (pages : list sharedPages) : Z :=
  getLeastvaidx_loop pages 0 curr_va (KERNBASE - 1) (-1).

Section shm.
Context {K : KernelImage} {F : Type}.

Definition shm_acquire : M (kernel F) unit := lock_acquire shm_lock set_shm_lock.
Definition shm_release : M (kernel F) unit := lock_release shm_lock set_shm_lock.

(** [release(&shmTable.lock); return r] *)
Definition shm_return (r : Z) : M (kernel F) Z := do! shm_release in ret r.

Definition get_region (i : Z) : M (kernel F) shmRegion :=
  fun s => match zidx (shmTable s) i with Some r => Ret r s | None => Fault "shmTable.allRegions" end.

Definition upd_region (i : Z) (f : shmRegion -> shmRegion) : M (kernel F) unit :=
  fun s =>
    match zidx (shmTable s) i with
    | Some r => Ret tt (set_shmTable (zupd (shmTable s) i (f r)) s)
    | None => Fault "shmTable.allRegions"
    end.

(** A slot of the process's [pages]. *)
Definition get_pages (p : nat) (i : Z) : M (kernel F) sharedPages :=
  let! pr := get_proc p in
  match zidx (pages pr) i with Some g => ret g | None => fault "process->pages" end.

Definition upd_pages (p : nat) (i : Z) (f : sharedPages -> sharedPages) : M (kernel F) unit :=
  let! g := get_pages p i in
  upd_proc p (fun pr => set_pages (zupd (pages pr) i (f g)) pr).

Definition phys_addr (r : shmRegion) (i : Z) : M (kernel F) Z :=
  match zidx (physicalAddr r) i with Some a => ret a | None => fault "physicalAddr" end.

(** ** shmget *)

(** The permission and the flags that remain, or failure. *)
Definition split_flag (key shmflag : Z) : option (Z * Z) :=
  let lowerBits := Z.land shmflag 7 in
  if lowerBits =? READ_SHM then Some (READ_SHM, Z.lxor shmflag READ_SHM)
  else if lowerBits =? RW_SHM then Some (RW_SHM, Z.lxor shmflag RW_SHM)
  else if negb ((shmflag =? 0) && negb (key =? IPC_PRIVATE)) then None
  else Some (-1, shmflag).

(** The answer for a key that a region already has. *)
Definition existing_region (r : shmRegion) (key noOfPages shmflag : Z) : Z :=
  if negb (size r =? noOfPages) then -1 else
  if shmflag =? Z.lor IPC_CREAT IPC_EXCL then -1 else
  let checkPerm := mode (shm_perm (buffer r)) in
  if (checkPerm =? READ_SHM) || (checkPerm =? RW_SHM) then
    if (shmflag =? 0) && negb (key =? IPC_PRIVATE) then shmid r
    else if shmflag =? IPC_CREAT then shmid r
    else -1
  else -1.

(** The allocation loop, for pages [i] on; [false] when memory runs out. *)
Fixpoint shmget_alloc (index i : Z) (n : nat) : M (kernel F) bool :=
  match n with
  | O => ret true
  | S n' =>
      let! newPage := inphys kalloc in
      if newPage =? 0 then ret false else
      do! inphys (upd_mem (fun m => memset m newPage 0 PGSIZE)) in
      do! upd_region index (set_phys_addr i (V2P newPage)) in
      shmget_alloc index (i + 1) n'
  end.

Definition new_region (key_ size_ permission cpid index noOfPages : Z) (r : shmRegion) : shmRegion :=
  mkRegion key_ noOfPages index (toBeDeleted r) (physicalAddr r)
    (mkDs (mkPerm key_ permission) size_ (shm_nattch (buffer r)) cpid (shm_lpid (buffer r))).

Definition shmget (key_ size_ shmflag : Z) : M (kernel F) Z :=
  do! shm_acquire in
  match split_flag key_ shmflag with
  | None => shm_return (-1)
  | Some (permission, shmflag) =>
      if size_ <=? 0 then shm_return (-1) else
      let noOfPages := size_ / PGSIZE + 1 in
      if SHAREDREGIONS <? noOfPages then shm_return (-1) else
      let! tab := gets shmTable in
      match find_idx (fun r => key r =? key_) 0 tab with
      | Some i =>
          let! r := get_region i in
          shm_return (existing_region r key_ noOfPages shmflag)
      | None =>
          match find_idx (fun r => key r =? NOKEY) 0 tab with
          | None => shm_return (-1)
          | Some index =>
              if (key_ =? IPC_PRIVATE) || (shmflag =? IPC_CREAT)
                 || (shmflag =? Z.lor IPC_CREAT IPC_EXCL) then
                let! ok := shmget_alloc index 0 (Z.to_nat noOfPages) in
                if negb ok then shm_return (-1) else
                let! p := myproc in
                let! pr := get_proc p in
                do! upd_region index (new_region key_ size_ permission (pid pr) index noOfPages) in
                shm_return index
              else shm_return (-1)
          end
      end
  end.

(** ** shmdt *)

(** The loop that clears the entries of the segment; [false] when the page
    table of an address is missing. *)
Fixpoint shmdt_unmap (pgdir va i : Z) (n : nat) : M phys bool :=
  match n with
  | O => ret true
  | S n' =>
      let! pte := walkpgdir pgdir (u32 (va + i * PGSIZE)) false in
      if pte =? 0 then ret false else
      do! upd_mem (fun m => st32 m pte 0) in
      shmdt_unmap pgdir va (i + 1) n'
  end.

(** The loop that frees the pages of region [index]. *)
Fixpoint free_region_pages (index i : Z) (n : nat) : M (kernel F) unit :=
  match n with
  | O => ret tt
  | S n' =>
      let! r := get_region index in
      let! pa := phys_addr r i in
      do! inphys (kfree (P2V pa)) in
      do! upd_region index (set_phys_addr i 0) in
      free_region_pages index (i + 1) n'
  end.

(** Free the pages and reset the fields, as in [shmdt] and [shmctl]. *)
Definition remove_region (index : Z) : M (kernel F) unit :=
  let! r := get_region index in
  do! free_region_pages index 0 (Z.to_nat (size r)) in
  upd_region index reset_region.

Definition shmdt (shmaddr : Z) : M (kernel F) Z :=
  do! shm_acquire in
  let! p := myproc in
  let! pr := get_proc p in
  match find_idx (fun g => negb (pkey g =? NOKEY) && (virtualAddr g =? shmaddr)) 0 (pages pr) with
  | None => shm_return (-1)
  | Some index =>
      let! g := get_pages p index in
      let va := virtualAddr g in
      let shmid_ := pshmid g in
      if va =? 0 then shm_return (-1) else
      let! ok := inphys (shmdt_unmap (pgdir pr) va 0 (Z.to_nat (psize g))) in
      if negb ok then shm_return (-1) else
      do! upd_pages p index clear_pages in
      let! r := get_region shmid_ in
      do! (if 0 <? shm_nattch (buffer r)
           then upd_region shmid_ (set_buffer (fun b => set_nattch (shm_nattch b - 1) b))
           else ret tt) in
      let! r := get_region shmid_ in
      do! (if (shm_nattch (buffer r) =? 0) && (toBeDeleted r =? 1)
           then remove_region index else ret tt) in
      do! upd_region shmid_ (set_buffer (set_lpid (pid pr))) in
      shm_return 0
  end.

(** ** shmat *)

(** First fit: move past the least segment at or above [va] until the gap
    below it is large enough.  [None] for an index outside [pages]. *)
Fixpoint shmat_fit (n : nat) (pages : list sharedPages) (va len : Z) : option Z :=
  match n with
  | O => Some va
  | S n' =>
      let idx := getLeastvaidx va pages in
      if idx =? -1 then Some va else
      match zidx pages idx with
      | None => None
      | Some g =>
          if u32 (va + len) <=? virtualAddr g then Some va
          else shmat_fit n' pages (u32 (virtualAddr g + psize g * PGSIZE)) len
      end
  end.

(** The address an explicit [shmaddr] asks for; [None] for one that is
    refused. *)
Definition shmat_addr (shmaddr shmflag : Z) : option Z :=
  if (KERNBASE <=? shmaddr) || (shmaddr <? HEAPLIMIT) then None else
  let rounded := Z.land shmaddr (u32 (Z.lnot (SHMLBA - 1))) in
  if nz (Z.land shmflag SHM_RND) then (if rounded =? 0 then None else Some rounded)
  else if rounded =? shmaddr then Some shmaddr else Some HEAPLIMIT.

(** A segment that contains [va]. *)
Definition covers (va : Z) (g : sharedPages) : bool :=
  negb (pkey g =? NOKEY) && (va <? u32 (virtualAddr g + psize g * PGSIZE)) && (virtualAddr g <=? va).

(** The loop of SHM_REMAP: detach every segment below [va] plus the region's
    length.  [false]: [shmdt] failed, and the lock is not held. *)
Fixpoint shmat_remap (fuel : nat) (p : nat) (index va idx segment : Z) : M (kernel F) bool :=
  match fuel with
  | O => nofuel
  | S fuel' =>
      let! r := get_region index in
      if segment <? u32 (va + size r * PGSIZE) then
        let! g := get_pages p idx in
        do! shm_release in
        let! d := shmdt segment in
        if d =? -1 then ret false else
        do! shm_acquire in
        let! pr := get_proc p in
        let idx := getLeastvaidx (u32 (segment + psize g * PGSIZE)) (pages pr) in
        if idx =? -1 then ret true else
        let! g := get_pages p idx in
        shmat_remap fuel' p index va idx (virtualAddr g)
      else ret true
  end.

(** The loop that maps the pages of the region; [false] when a page table
    cannot be allocated. *)
Fixpoint shmat_map (pgdir index va permflag k : Z) (n : nat) : M (kernel F) bool :=
  match n with
  | O => ret true
  | S n' =>
      let! r := get_region index in
      let! pa := phys_addr r k in
      let! m := inphys (mappages pgdir (u32 (va + k * PGSIZE)) PGSIZE pa permflag) in
      if m <? 0 then
        do! inphys (deallocuvm pgdir va (u32 (va + size r))) in ret false
      else shmat_map pgdir index va permflag (k + 1) n'
  end.

(** -1 as an address. *)
Definition MINUS1 : Z := 4294967295.

(** From the permission check on, with the lock held. *)
Definition shmat_attach (p : nat) (shmid_ index va shmflag : Z) : M (kernel F) Z :=
  let! r := get_region index in
  let mode_ := mode (shm_perm (buffer r)) in
  let permflag :=
    if nz (Z.land shmflag SHM_RDONLY) || (mode_ =? READ_SHM) then Some PTE_U
    else if mode_ =? RW_SHM then Some (Z.lor PTE_W PTE_U) else None in
  match permflag with
  | None => shm_return MINUS1
  | Some permflag =>
      let! pr := get_proc p in
      let! ok := shmat_map (pgdir pr) index va permflag 0 (Z.to_nat (size r)) in
      if negb ok then shm_return MINUS1 else
      match find_idx (fun g => pkey g =? NOKEY) 0 (pages pr) with
      | None => shm_return MINUS1
      | Some idx =>
          let! r := get_region index in
          do! upd_pages p idx (fun _ => mkPages (key r) (size r) shmid_ permflag va) in
          do! upd_region index (set_buffer (fun b =>
                set_lpid (pid pr) (set_nattch (shm_nattch b + 1) b))) in
          shm_return va
      end
  end.

Definition shmat (shmid_ shmaddr shmflag : Z) : M (kernel F) Z :=
  if (shmid_ <? 0) || (64 <? shmid_) then ret MINUS1 else
  do! shm_acquire in
  let! p := myproc in
  let! r0 := get_region shmid_ in
  let index := shmid r0 in
  if index =? -1 then shm_return MINUS1 else
  let! r := get_region index in
  let! pr := get_proc p in
  let len := size r * PGSIZE in
  let! where_ :=
    (if nz shmaddr then ret (shmat_addr shmaddr shmflag)
     else match shmat_fit (Z.to_nat SHAREDREGIONS) (pages pr) HEAPLIMIT len with
          | Some va => ret (Some va)
          | None => fault "process->pages"
          end) in
  match where_ with
  | None => shm_return MINUS1
  | Some va =>
      if KERNBASE <=? u32 (va + len) then shm_return MINUS1 else
      match find_idx (covers va) 0 (pages pr) with
      | Some idx =>
          if nz (Z.land shmflag SHM_REMAP) then
            let! g := get_pages p idx in
            let! ok := shmat_remap (S (Z.to_nat SHAREDREGIONS)) p index va idx (virtualAddr g) in
            if negb ok then ret MINUS1 else shmat_attach p shmid_ index va shmflag
          else shm_return MINUS1
      | None => shmat_attach p shmid_ index va shmflag
      end
  end.

(** ** shmctl *)

(** The kernel reads and writes [*buf] at its user address: the access goes
    through the page table of the process, and faults when the page is not
    present, or not writable for a store. *)
Definition va_xlat (m : memory) (pgdir va : Z) (write : bool) : option Z :=
  let e := pte_view m pgdir va in
  if present e && (negb write || nz (Z.land e PTE_W))
  then Some (P2V (PTE_ADDR e) + va mod PGSIZE) else None.

Definition va_ld8 (pgdir va : Z) : M phys Z :=
  let! m := gets mem in
  match va_xlat m pgdir (u32 va) false with
  | Some a => ret (ld8 m a)
  | None => fault "page fault"
  end.

Definition va_st8 (pgdir va b : Z) : M phys unit :=
  let! m := gets mem in
  match va_xlat m pgdir (u32 va) true with
  | Some a => upd_mem (fun m => st8 m a b)
  | None => fault "page fault"
  end.

Definition va_ld32 (pgdir va : Z) : M phys Z :=
  let! b0 := va_ld8 pgdir va in
  let! b1 := va_ld8 pgdir (va + 1) in
  let! b2 := va_ld8 pgdir (va + 2) in
  let! b3 := va_ld8 pgdir (va + 3) in
  ret (b0 + 256 * b1 + 65536 * b2 + 16777216 * b3).

Definition va_st32 (pgdir va v : Z) : M phys unit :=
  do! va_st8 pgdir va (u32 v mod 256) in
  do! va_st8 pgdir (va + 1) (u32 v / 256 mod 256) in
  do! va_st8 pgdir (va + 2) (u32 v / 65536 mod 256) in
  va_st8 pgdir (va + 3) (u32 v / 16777216 mod 256).

(** Offsets of the fields of struct shmid_ds. *)
Definition OFF_KEY : Z := 0.
Definition OFF_MODE : Z := 4.
Definition OFF_SEGSZ : Z := 8.
Definition OFF_NATTCH : Z := 12.
Definition OFF_CPID : Z := 16.
Definition OFF_LPID : Z := 20.

Definition shmctl (shmid_ cmd buf : Z) : M (kernel F) Z :=
  if (shmid_ <? 0) || (64 <? shmid_) then ret (-1) else
  do! shm_acquire in
  let! r0 := get_region shmid_ in
  let index := shmid r0 in
  if index =? -1 then shm_return (-1) else
  let! r := get_region index in
  let! p := myproc in
  let! pr := get_proc p in
  let checkPerm := mode (shm_perm (buffer r)) in
  if cmd =? IPC_SET then
    if nz buf then
      let! mode_ := inphys (va_ld32 (pgdir pr) (buf + OFF_MODE)) in
      if (mode_ =? READ_SHM) || (mode_ =? RW_SHM) then
        do! upd_region index (set_buffer (set_mode mode_)) in
        shm_return 0
      else shm_return (-1)
    else shm_return (-1)
  else if (cmd =? SHM_STAT) || (cmd =? IPC_STAT) then
    if nz buf && ((checkPerm =? READ_SHM) || (checkPerm =? RW_SHM)) then
      let b := buffer r in
      do! inphys (va_st32 (pgdir pr) (buf + OFF_NATTCH) (shm_nattch b)) in
      do! inphys (va_st32 (pgdir pr) (buf + OFF_SEGSZ) (shm_segsz b)) in
      do! inphys (va_st32 (pgdir pr) (buf + OFF_KEY) (perm_key (shm_perm b))) in
      do! inphys (va_st32 (pgdir pr) (buf + OFF_MODE) checkPerm) in
      do! inphys (va_st32 (pgdir pr) (buf + OFF_CPID) (shm_cpid b)) in
      do! inphys (va_st32 (pgdir pr) (buf + OFF_LPID) (shm_lpid b)) in
      shm_return 0
    else shm_return (-1)
  else if cmd =? IPC_RMID then
    do! (if shm_nattch (buffer r) =? 0 then remove_region index
         else upd_region index (set_toBeDeleted 1)) in
    shm_return 0
  else shm_return (-1).

(** ** The rest *)

(** [initlock] leaves the lock free. *)
Definition sharedMemoryInit : M (kernel F) unit :=
  do! modify (set_shm_lock false) in
  do! shm_acquire in
  do! modify (set_shmTable (replicate (Z.to_nat SHAREDREGIONS) region0)) in
  shm_release.

Definition getShmidIndex (shmid_ : Z) : M (kernel F) Z :=
  if (shmid_ <? 0) || (64 <? shmid_) then ret (-1) else
  let! r := get_region shmid_ in
  ret (shmid r).

Fixpoint mappagesWrapper_loop (process : nat) (shmIndex index i : Z) (n : nat) : M (kernel F) unit :=
  match n with
  | O => ret tt
  | S n' =>
      let! pr := get_proc process in
      let! g := get_pages process index in
      let va := virtualAddr g in
      let! r := get_region shmIndex in
      let! pa := phys_addr r i in
      let! m := inphys (mappages (pgdir pr) (u32 (va + i * PGSIZE)) PGSIZE pa (pperm g)) in
      if m <? 0 then
        do! inphys (deallocuvm (pgdir pr) va (u32 (va + size r))) in ret tt
      else mappagesWrapper_loop process shmIndex index (i + 1) n'
  end.

Definition mappagesWrapper (process : nat) (shmIndex index : Z) : M (kernel F) unit :=
  let! g := get_pages process index in
  mappagesWrapper_loop process shmIndex index 0 (Z.to_nat (psize g)).

Definition shmdtWrapper (addr : Z) : M (kernel F) unit :=
  let! _r := shmdt addr in ret tt.

End shm.

(** ** The invariant *)

(** The pages of a region, at their kernel addresses, and of all regions. *)
Definition region_pages (r : shmRegion) : list Z :=
  P2V <$> take (Z.to_nat (size r)) (physicalAddr r).

Definition shm_pages (tab : list shmRegion) : list Z := concat (region_pages <$> tab).

Definition region_free (r : shmRegion) : Prop :=
  key r = NOKEY /\ size r = 0 /\ shmid r = -1 /\ toBeDeleted r = 0 /\ shm_nattch (buffer r) = 0.

Record region_used (i : Z) (r : shmRegion) : Prop := {
  ru_key : key r <> NOKEY;
  ru_size : 1 <= size r <= SHAREDREGIONS;
  ru_shmid : shmid r = i;
  ru_mode : mode (shm_perm (buffer r)) = READ_SHM \/ mode (shm_perm (buffer r)) = RW_SHM;
  ru_nattch : 0 <= shm_nattch (buffer r);
}.

(** The table: 64 regions, free or in use under their own index, with
    distinct keys; their pages are pages of memory, each owned once, and none
    of them free. *)
Record table_ok {K : KernelImage} (fl : list Z) (tab : list shmRegion) : Prop := {
  to_len : length tab = Z.to_nat SHAREDREGIONS;
  to_addr : forall i r, zidx tab i = Some r ->
    length (physicalAddr r) = Z.to_nat SHAREDREGIONS /\ Forall is_u32 (physicalAddr r);
  to_region : forall i r, zidx tab i = Some r -> region_free r \/ region_used i r;
  to_keys : forall i j ri rj, zidx tab i = Some ri -> zidx tab j = Some rj ->
    key ri = key rj -> key ri <> NOKEY -> i = j;
  to_pages : Forall is_page (shm_pages tab);
  to_owned : NoDup (shm_pages tab ++ fl);
}.

Definition seg_used (g : sharedPages) : bool := negb (pkey g =? NOKEY).
Definition seg_end (g : sharedPages) : Z := virtualAddr g + psize g * PGSIZE.

(** [va] and [len] bytes from it overlap a segment. *)
Definition overlaps (va len : Z) (g : sharedPages) : Prop :=
  seg_used g = true /\ virtualAddr g < va + len /\ va < seg_end g.

(** The segments of a process: whole pages between HEAPLIMIT and KERNBASE
    that do not overlap. *)
Record segs_ok (l : list sharedPages) : Prop := {
  so_len : length l = Z.to_nat SHAREDREGIONS;
  so_seg : forall i g, l !! i = Some g -> seg_used g = true ->
    virtualAddr g mod PGSIZE = 0 /\ HEAPLIMIT <= virtualAddr g /\ 0 < psize g /\
    seg_end g < KERNBASE;
  so_disj : forall i j g h, l !! i = Some g -> l !! j = Some h -> i <> j ->
    seg_used g = true -> seg_used h = true ->
    seg_end g <= virtualAddr h \/ seg_end h <= virtualAddr g;
}.

(** Number of segments attached from region [j]. *)
Definition count_segs (j : Z) (l : list sharedPages) : Z :=
  Z.of_nat (length (filter (fun g => seg_used g && (pshmid g =? j) = true) l)).

(** The current process and the table: every segment is of a region in use
    and shows its pages, and the rest of the range is not mapped.  Nothing is said
    about the attach counts, which are too low after a fork and an exit. *)
Record shm_state {K : KernelImage} {F} (fl : list Z) (pr : proc) (s : kernel F) : Prop := {
  si_phys : phys_ok fl (kphys s);
  si_tab : table_ok fl (shmTable s);
  si_proc : ptable s !! curproc s = Some pr;
  si_dir : pgdir_ok (mem (kphys s)) (pgdir pr) fl;
  si_apart : forall q, q ∈ shm_pages (shmTable s) -> ~ pt_page (mem (kphys s)) (pgdir pr) q;
  si_segs : segs_ok (pages pr);
  si_region : forall i g, pages pr !! i = Some g -> seg_used g = true ->
    exists r, zidx (shmTable s) (pshmid g) = Some r /\ region_used (pshmid g) r /\
      key r = pkey g /\ size r = psize g;
  si_map : forall i g r k pa, pages pr !! i = Some g -> seg_used g = true ->
    zidx (shmTable s) (pshmid g) = Some r -> 0 <= k < psize g ->
    zidx (physicalAddr r) k = Some pa ->
    pte_view (mem (kphys s)) (pgdir pr) (virtualAddr g + k * PGSIZE) = mk_pte pa (pperm g);
  si_unmap : forall va, HEAPLIMIT <= va < KERNBASE ->
    (forall i g, pages pr !! i = Some g -> ~ overlaps va 1 g) ->
    present (pte_view (mem (kphys s)) (pgdir pr) va) = false;
  si_lock : shm_lock s = false;
}.

(** A region counts at least the process's own attachments. *)
Definition counted {F} (pr : proc) (s : kernel F) : Prop :=
  forall j r, zidx (shmTable s) j = Some r -> count_segs j (pages pr) <= shm_nattch (buffer r).

Record shm_inv {K : KernelImage} {F} (fl : list Z) (pr : proc) (s : kernel F) : Prop := {
  si_state :> shm_state fl pr s;
  si_count : counted pr s;
}.

(** The segments that the search has not passed yet. *)
Definition segs_above (va : Z) (l : list sharedPages) : list sharedPages :=
  filter (fun g => seg_used g && (va <=? virtualAddr g) = true) l.

(** [va] is not inside a segment. *)
Definition between (va : Z) (l : list sharedPages) : Prop :=
  forall n g, l !! n = Some g -> seg_used g = true -> seg_end g <= va \/ va <= virtualAddr g.

(** No segment overlaps [len] bytes from [va]. *)
Definition fits (va len : Z) (l : list sharedPages) : Prop :=
  forall n g, l !! n = Some g -> ~ overlaps va len g.

(** * Lemmas *)

(** ** Scans *)

Lemma find_idx_Some {A} (f : A -> bool) l : forall i0 i,
  find_idx f i0 l = Some i ->
  exists n x, i = i0 + Z.of_nat n /\ l !! n = Some x /\ f x = true /\
    forall m y, (m < n)%nat -> l !! m = Some y -> f y = false.
Proof.
  induction l as [|x l IH]; intros i0 i H; simpl in H; [done|].
  destruct (f x) eqn:Hx.
  - injection H as <-. exists 0%nat, x. split_and!; [lia|done..|]. intros m y Hm. lia.
  - destruct (IH _ _ H) as (n & y & -> & Hy & Hf & Hlt).
    exists (S n), y. split_and!; [lia|done..|].
    intros [|m] z Hm Hz; simpl in Hz; [by simplify_eq|]. apply (Hlt m); [lia|done].
Qed.

Lemma find_idx_None {A} (f : A -> bool) l : forall i0,
  find_idx f i0 l = None -> forall n x, l !! n = Some x -> f x = false.
Proof.
  induction l as [|x l IH]; intros i0 H n y Hy; simpl in H; [done|].
  destruct (f x) eqn:Hx; [done|]. destruct n; simpl in Hy; [by simplify_eq|]. eauto.
Qed.

Lemma find_idx_0 {A} (f : A -> bool) l i :
  find_idx f 0 l = Some i ->
  exists x, zidx l i = Some x /\ f x = true /\ 0 <= i /\
    forall j y, 0 <= j < i -> zidx l j = Some y -> f y = false.
Proof.
  intros (n & x & -> & Hx & Hf & Hlt)%find_idx_Some. exists x.
  split_and!; [apply zidx_Some; split; [lia|]; by rewrite Z.add_0_l, Nat2Z.id|done|lia|].
  intros j y Hj [_ Hy]%zidx_Some. apply (Hlt (Z.to_nat j)); [lia|done].
Qed.

Lemma find_idx_0_None {A} (f : A -> bool) l i x :
  find_idx f 0 l = None -> zidx l i = Some x -> f x = false.
Proof. intros H [_ Hx]%zidx_Some. by eapply find_idx_None. Qed.

(** ** First fit *)

(** What [getLeastvaidx] computes: a segment at or above [curr_va] with the
    least address, or -1 when there is none. *)
Lemma getLeastvaidx_loop_spec curr_va l0 : forall l i leastva idx,
  (exists pre, l0 = pre ++ l /\ Z.of_nat (length pre) = i) ->
  (forall n g, l0 !! n = Some g -> Z.of_nat n < i -> seg_used g = true ->
     curr_va <= virtualAddr g -> leastva <= virtualAddr g \/ KERNBASE <= virtualAddr g) ->
  ((idx = -1 /\ leastva = KERNBASE - 1) \/
   exists g, zidx l0 idx = Some g /\ seg_used g = true /\ curr_va <= virtualAddr g /\
     virtualAddr g = leastva /\ leastva < KERNBASE) ->
  let idx' := getLeastvaidx_loop l i curr_va leastva idx in
  (idx' = -1 /\ forall n g, l0 !! n = Some g -> seg_used g = true ->
     curr_va <= virtualAddr g -> KERNBASE <= virtualAddr g + 1) \/
  exists g, zidx l0 idx' = Some g /\ seg_used g = true /\ curr_va <= virtualAddr g /\
    forall n h, l0 !! n = Some h -> seg_used h = true -> curr_va <= virtualAddr h ->
      virtualAddr g <= virtualAddr h.
Proof.
  induction l as [|g l IH]; intros i leastva idx (pre & -> & Hi) Hmin Hidx; cbn [getLeastvaidx_loop].
  - rewrite app_nil_r in *. destruct Hidx as [[-> ->]|(g & Hg & Hu & Hc & <- & Hlt)].
    + left. split; [done|]. intros n h Hh Hu Hc.
      pose proof (lookup_lt_Some _ _ _ Hh). destruct (Hmin n h Hh); auto; lia.
    + right. exists g. split_and!; try done. intros n h Hh Hu' Hc'.
      pose proof (lookup_lt_Some _ _ _ Hh). destruct (Hmin n h Hh); auto; lia.
  - assert (Hmid : (pre ++ g :: l) !! length pre = Some g) by (by apply list_lookup_middle).
    assert (Hpre : exists pre', pre ++ g :: l = pre' ++ l /\ Z.of_nat (length pre') = i + 1).
    { exists (pre ++ [g]). rewrite <- app_assoc, length_app. simpl. split; [done|lia]. }
    fold (seg_used g).
    destruct (seg_used g && (curr_va <=? virtualAddr g) && (virtualAddr g <=? leastva)) eqn:Hb.
    + rewrite !andb_true_iff, !Z.leb_le in Hb. destruct Hb as [[Hu Hc] Hle].
      apply IH; [done| |].
      * intros n h Hh Hn Hu' Hc'. destruct (decide (n = length pre)) as [Hnp|].
        { rewrite Hnp, Hmid in Hh. simplify_eq. lia. }
        destruct (Hmin n h Hh); auto; lia.
      * right. exists g. split_and!; try done.
        -- apply zidx_Some. split; [lia|]. rewrite <- Hi, Nat2Z.id. done.
        -- destruct Hidx as [[_ ->]|(? & _ & _ & _ & _ & ?)]; lia.
    + apply IH; [done| |done].
      intros n h Hh Hn Hu' Hc'. destruct (decide (n = length pre)) as [Hnp|].
      * rewrite Hnp, Hmid in Hh. simplify_eq. rewrite Hu' in Hb. simpl in Hb.
        apply andb_false_iff in Hb. rewrite !Z.leb_gt in Hb. lia.
      * destruct (Hmin n h Hh); auto; lia.
Qed.

Lemma getLeastvaidx_spec curr_va l :
  segs_ok l ->
  let idx := getLeastvaidx curr_va l in
  (idx = -1 /\ forall n g, l !! n = Some g -> seg_used g = true -> virtualAddr g < curr_va) \/
  exists g, zidx l idx = Some g /\ seg_used g = true /\ curr_va <= virtualAddr g /\
    forall n h, l !! n = Some h -> seg_used h = true -> curr_va <= virtualAddr h ->
      virtualAddr g <= virtualAddr h.
Proof.
  intros Hok. cbv zeta. unfold getLeastvaidx.
  destruct (getLeastvaidx_loop_spec curr_va l l 0 (KERNBASE - 1) (-1)) as [[-> H]|H]; eauto.
  - by exists [].
  - intros n g _ Hn. lia.
  - left. split; [done|]. intros n g Hg Hu.
    destruct (Z.lt_ge_cases (virtualAddr g) curr_va); [done|].
    specialize (H n g Hg Hu ltac:(lia)). destruct (so_seg l Hok n g Hg Hu) as (? & ? & ? & ?).
    unfold seg_end in *. consts. lia.
Qed.

Lemma segs_above_lt va va' l i g :
  va <= va' -> l !! i = Some g -> seg_used g = true -> va <= virtualAddr g < va' ->
  (length (segs_above va' l) < length (segs_above va l))%nat.
Proof.
  intros Hle Hi Hu Hr. revert i Hi.
  assert (Hmono : forall l', (length (segs_above va' l') <= length (segs_above va l'))%nat).
  { unfold segs_above. induction l' as [|h l' IH]; [done|]. rewrite !filter_cons.
    repeat case_decide; simpl; try lia.
    rewrite !andb_true_iff, !Z.leb_le in *. exfalso. naive_solver lia. }
  unfold segs_above in *. induction l as [|h l IH]; intros [|i] Hi; simpl in Hi; simplify_eq; rewrite !filter_cons.
  - rewrite decide_False, decide_True by (rewrite andb_true_iff, Z.leb_le; naive_solver lia).
    simpl. specialize (Hmono l). lia.
  - specialize (IH i Hi).
    repeat case_decide; rewrite !andb_true_iff, !Z.leb_le in *; simpl; try lia.
    exfalso. naive_solver lia.
Qed.

(** The search from [va]: it ends at the least address from [va] on where
    [len] bytes fit. *)
Lemma shmat_fit_loop l len : forall n va,
  segs_ok l -> 0 < len <= SHAREDREGIONS * PGSIZE -> va mod PGSIZE = 0 -> HEAPLIMIT <= va < KERNBASE ->
  between va l -> (length (segs_above va l) <= n)%nat ->
  exists va', shmat_fit n l va len = Some va' /\ va <= va' < KERNBASE /\ va' mod PGSIZE = 0 /\
    fits va' len l /\
    forall vb, va <= vb < va' -> exists i g, l !! i = Some g /\ overlaps vb len g.
Proof.
  induction n as [|n IH]; intros va Hok Hlen Hal Hva Hbt Hn; cbn [shmat_fit].
  - exists va. split_and!; try lia; try done.
    intros k g Hg (Hu & Ho & Ho'). destruct (Hbt k g Hg Hu) as [|Hle]; [lia|].
    apply Nat.le_0_r, nil_length_inv in Hn.
    assert (Hin : g ∈ segs_above va l).
    { apply list_elem_of_filter. rewrite Hu. split; [by apply Z.leb_le|]. by eapply list_elem_of_lookup_2. }
    rewrite Hn in Hin. by apply elem_of_nil in Hin.
  - destruct (getLeastvaidx_spec va l Hok) as [[-> Hno]|(g & Hg & Hu & Hge & Hmin)].
    + simpl. exists va. split_and!; try lia; try done.
      intros k g Hg (Hu & Ho & Ho'). pose proof (Hno k g Hg Hu). destruct (Hbt k g Hg Hu); lia.
    + pose proof (zidx_range _ _ _ Hg) as Hrng. destruct (Z.eqb_spec (getLeastvaidx va l) (-1)); [lia|].
      rewrite Hg. apply zidx_Some in Hg as [_ Hg].
      destruct (so_seg l Hok _ g Hg Hu) as (Ha & Hlo & Hsz & Hhi).
      rewrite (u32_small (va + len)) by (consts; unfold is_u32; lia).
      fold (seg_end g). rewrite (u32_small (seg_end g)) by (unfold seg_end in *; alia).
      destruct (Z.leb_spec (va + len) (virtualAddr g)) as [Hfit|Hno].
      * exists va. split_and!; try lia; try done.
        intros k h Hh (Hu' & Ho & Ho'). destruct (Hbt k h Hh Hu') as [|Hle]; [lia|].
        specialize (Hmin k h Hh Hu' Hle). lia.
      * assert (virtualAddr g < seg_end g) by (unfold seg_end in *; alia).
        destruct (IH (seg_end g)) as (va' & -> & Hva' & Hal' & Hfit & Hleast); try done.
        -- unfold seg_end. alia.
        -- lia.
        -- intros k h Hh Hu'.
           destruct (decide (k = Z.to_nat (getLeastvaidx va l))) as [->|Hk].
           { simplify_eq. lia. }
           destruct (so_disj l Hok _ _ g h Hg Hh (not_eq_sym Hk) Hu Hu'); [lia|].
           destruct (Hbt k h Hh Hu') as [|Hle]; [lia|]. specialize (Hmin k h Hh Hu' Hle).
           destruct (so_seg l Hok k h Hh Hu') as (? & ? & ? & ?). unfold seg_end in *. consts. lia.
        -- pose proof (segs_above_lt va (seg_end g) l _ g ltac:(lia) Hg Hu ltac:(lia)). lia.
        -- exists va'. split_and!; try lia; try done. intros vb Hvb.
           destruct (Z.lt_ge_cases vb (seg_end g)); [|apply Hleast; lia].
           exists (Z.to_nat (getLeastvaidx va l)), g. split; [done|]. unfold overlaps. split_and!; [done|lia..].
Qed.

Lemma shmat_fit_spec l len :
  segs_ok l -> 0 < len <= SHAREDREGIONS * PGSIZE ->
  exists va, shmat_fit (Z.to_nat SHAREDREGIONS) l HEAPLIMIT len = Some va /\
    HEAPLIMIT <= va < KERNBASE /\ va mod PGSIZE = 0 /\ fits va len l /\
    forall vb, HEAPLIMIT <= vb < va -> exists i g, l !! i = Some g /\ overlaps vb len g.
Proof.
  intros Hok Hlen. apply shmat_fit_loop; try done.
  - intros n g Hg Hu. right. by destruct (so_seg l Hok n g Hg Hu) as (? & ? & ?).
  - etrans; [apply length_filter|]. by rewrite (so_len l Hok).
Qed.
