(* ===== verification/ShmGet.v ===== *)
(** * shmget and the shared-memory table

    The table keeps its invariant under every operation that creates or
    removes a region; [shmget] creates a zero-filled region in the first free
    slot, or answers for the region that has the key. *)

From S2P Require Import Prelude.
From S2P Require Import CString.
From S2P Require Import Mmu.
From S2P Require Import Kalloc.
From S2P Require Import Vm.
From S2P Require Import Uvm.
From S2P Require Import Kernel.
From S2P Require Import Shm.
From S2P Require Import Demo.

Open Scope Z_scope.

(** ** Rules for the accessors *)

Section rules.
Context {F : Type}.
Implicit Types s : kernel F.

Lemma wpx_shm_acquire (Q : unit -> kernel F -> Prop) E s :
  shm_lock s = false -> Q tt (set_shm_lock true s) -> wpx shm_acquire Q E s.
Proof. apply wpx_acquire. Qed.

Lemma wpx_shm_return (Q : Z -> kernel F -> Prop) E r s :
  shm_lock s = true -> Q r (set_shm_lock false s) -> wpx (shm_return r) Q E s.
Proof. intros Hl HQ. unfold shm_return. wp_step. apply wpx_release; [done|]. by wp_steps. Qed.

Lemma wpx_get_region (Q : shmRegion -> kernel F -> Prop) E i r s :
  zidx (shmTable s) i = Some r -> Q r s -> wpx (get_region i) Q E s.
Proof. intros Hr HQ. unfold wpx, get_region. by rewrite Hr. Qed.

Lemma wpx_upd_region (Q : unit -> kernel F -> Prop) E i f r s :
  zidx (shmTable s) i = Some r -> Q tt (set_shmTable (zupd (shmTable s) i (f r)) s) ->
  wpx (upd_region i f) Q E s.
Proof. intros Hr HQ. unfold wpx, upd_region. by rewrite Hr. Qed.

Lemma wpx_get_proc (Q : proc -> kernel F -> Prop) E i p s :
  ptable s !! i = Some p -> Q p s -> wpx (get_proc i) Q E s.
Proof. intros Hr HQ. unfold wpx, get_proc. by rewrite Hr. Qed.

Lemma wpx_upd_proc (Q : unit -> kernel F -> Prop) E i f p s :
  ptable s !! i = Some p -> Q tt (set_ptable (<[i := f p]> (ptable s)) s) ->
  wpx (upd_proc i f) Q E s.
Proof. intros Hr HQ. unfold wpx, upd_proc. by rewrite Hr. Qed.

Lemma wpx_get_pages (Q : sharedPages -> kernel F -> Prop) E i j p g s :
  ptable s !! i = Some p -> zidx (pages p) j = Some g -> Q g s -> wpx (get_pages i j) Q E s.
Proof.
  intros Hp Hg HQ. unfold get_pages. wp_step. eapply wpx_get_proc; [done|]. rewrite Hg. by wp_steps.
Qed.

Lemma wpx_upd_pages (Q : unit -> kernel F -> Prop) E i j f p g s :
  ptable s !! i = Some p -> zidx (pages p) j = Some g ->
  Q tt (set_ptable (<[i := set_pages (zupd (pages p) j (f g)) p]> (ptable s)) s) ->
  wpx (upd_pages i j f) Q E s.
Proof.
  intros Hp Hg HQ. unfold upd_pages. wp_step. eapply wpx_get_pages; [done..|].
  by eapply wpx_upd_proc.
Qed.

Lemma wpx_phys_addr (Q : Z -> kernel F -> Prop) E r i pa s :
  zidx (physicalAddr r) i = Some pa -> Q pa s -> wpx (phys_addr r i) Q E s.
Proof. intros Hr HQ. unfold phys_addr. rewrite Hr. by wp_steps. Qed.

End rules.

(** ** The table *)

Section table.
Context {K : KernelImage} {KI : KernelImageOk K}.

Lemma shm_pages_split tab i r :
  zidx tab i = Some r -> shm_pages tab ≡ₚ region_pages r ++ shm_pages (delete (Z.to_nat i) tab).
Proof.
  intros [_ Hr]%zidx_Some. unfold shm_pages. rewrite <- (take_drop_middle _ _ _ Hr) at 1.
  rewrite delete_take_drop, !fmap_app, fmap_cons, !concat_app. cbn [concat].
  rewrite !(assoc_L (++)). f_equiv. apply Permutation_app_comm.
Qed.

Lemma shm_pages_zupd tab i r r' :
  zidx tab i = Some r ->
  shm_pages (zupd tab i r') ≡ₚ region_pages r' ++ shm_pages (delete (Z.to_nat i) tab).
Proof.
  intros Hr. pose proof (zidx_range _ _ _ Hr).
  rewrite (shm_pages_split (zupd tab i r') i r').
  - unfold zupd. rewrite !delete_take_drop, take_insert_ge, drop_insert_lt by lia. done.
  - rewrite zidx_zupd by lia. by rewrite Z.eqb_refl.
Qed.

(** A region that changes without changing its pages. *)
Lemma shm_pages_same tab i r r' :
  zidx tab i = Some r -> region_pages r' = region_pages r ->
  shm_pages (zupd tab i r') ≡ₚ shm_pages tab.
Proof. intros Hr He. by rewrite (shm_pages_zupd tab i r r'), (shm_pages_split tab i r), He. Qed.

Lemma region_pages_free r : size r = 0 -> region_pages r = [].
Proof. intros H. unfold region_pages. by rewrite H. Qed.

Lemma table_ok_sub fl fl' tab : table_ok fl tab -> (exists u, fl = u ++ fl') -> table_ok fl' tab.
Proof.
  intros [T1 T2 T3 T4 T5 T6] [u ->]. split; try done.
  apply NoDup_app in T6 as (H1 & H2 & [_ [_ H3]]%NoDup_app). apply NoDup_app.
  split_and!; [done| |done]. intros x Hx. specialize (H2 x Hx). set_solver.
Qed.

Lemma table_ok_perm fl fl' tab : table_ok fl tab -> fl ≡ₚ fl' -> table_ok fl' tab.
Proof. intros [T1 T2 T3 T4 T5 T6] Hp. split; try done. by rewrite <- Hp. Qed.

(** Replace a region: what the new one has to satisfy. *)
Lemma table_ok_zupd fl fl' tab i r r' :
  table_ok fl tab -> zidx tab i = Some r ->
  length (physicalAddr r') = Z.to_nat SHAREDREGIONS -> Forall is_u32 (physicalAddr r') ->
  (region_free r' \/ region_used i r') ->
  (forall j rj, zidx tab j = Some rj -> j <> i -> key rj = key r' -> key r' = NOKEY) ->
  Forall is_page (region_pages r') ->
  region_pages r' ++ fl' ≡ₚ region_pages r ++ fl ->
  table_ok fl' (zupd tab i r').
Proof.
  intros T Hr Hlen Hu32 Hcase Hkey Hpg Hperm. pose proof (zidx_range _ _ _ Hr) as Hi.
  assert (Hlk : forall j rj, zidx (zupd tab i r') j = Some rj ->
    (j = i /\ rj = r') \/ (j <> i /\ zidx tab j = Some rj)).
  { intros j rj Hj. pose proof (zidx_range _ _ _ Hj) as Hj'. rewrite length_zupd in Hj'.
    rewrite zidx_zupd in Hj by lia. destruct (Z.eqb_spec j i); [left|right]; naive_solver. }
  split.
  - rewrite length_zupd. apply T.
  - intros j rj [[-> ->]|[? ?]]%Hlk; [done|by eapply to_addr].
  - intros j rj [[-> ->]|[? ?]]%Hlk; [done|by eapply to_region].
  - intros j k rj rk [[-> ->]|[Hj Hj']]%Hlk [[-> ->]|[Hk Hk']]%Hlk He Hn; [done| | |].
    + destruct Hn. by eapply Hkey.
    + destruct Hn. rewrite He. by eapply Hkey.
    + by eapply (to_keys fl tab T j k).
  - rewrite (shm_pages_zupd tab i r r') by done. apply Forall_app. split; [done|].
    pose proof (to_pages fl tab T) as H. rewrite (shm_pages_split tab i r) in H by done.
    by apply Forall_app in H as [_ H].
  - pose proof (to_owned fl tab T) as H.
    rewrite (shm_pages_split tab i r) in H by done. rewrite (shm_pages_zupd tab i r r') by done.
    revert H. rewrite <- !(assoc_L (++)).
    rewrite (Permutation_app_comm (shm_pages _) fl), (Permutation_app_comm (shm_pages _) fl').
    rewrite !(assoc_L (++)). by rewrite Hperm.
Qed.

(** The invariant depends on memory through the process's page tables, and on
    the table through the regions the process has attached. *)
Lemma count_segs_pos l i g : l !! i = Some g -> seg_used g = true -> 0 < count_segs (pshmid g) l.
Proof.
  intros Hg Hu. unfold count_segs. destruct (filter _ l) as [|x l'] eqn:Hf; [|simpl; lia].
  assert (Hin : g ∈ []); [|by apply elem_of_nil in Hin]. rewrite <- Hf.
  apply list_elem_of_filter. rewrite Hu, Z.eqb_refl. split; [done|]. by eapply list_elem_of_lookup_2.
Qed.

Lemma count_segs_seg j l : 0 < count_segs j l -> exists i g, l !! i = Some g /\ seg_used g = true /\ pshmid g = j.
Proof.
  unfold count_segs. destruct (filter _ l) as [|g l'] eqn:Hf; [cbn; lia|]. intros _.
  assert (Hin : g ∈ g :: l') by (by left). rewrite <- Hf in Hin. apply list_elem_of_filter in Hin as [Hb Hin].
  apply andb_true_iff in Hb as [Hu He%Z.eqb_eq]. apply list_elem_of_lookup in Hin as [i Hi]. by exists i, g.
Qed.

(** Counts of the same process that do not go down for the regions it has
    attached stay high enough. *)
Lemma counted_change {F} fl fl' pr (s s' : kernel F) :
  shm_state fl pr s -> shm_state fl' pr s' -> counted pr s ->
  (forall j r r', zidx (shmTable s) j = Some r -> zidx (shmTable s') j = Some r' -> region_used j r -> key r' = key r ->
     shm_nattch (buffer r) <= shm_nattch (buffer r')) ->
  counted pr s'.
Proof.
  intros I I' Hc Hle j r' Hr'. destruct (Z.lt_ge_cases 0 (count_segs j (pages pr))) as [Hpos|H0].
  - destruct (count_segs_seg _ _ Hpos) as (i & g & Hg & Hu & <-). destruct (si_region _ _ _ I i g Hg Hu) as (r & Hr & U & Hk & _).
    destruct (si_region _ _ _ I' i g Hg Hu) as (r2 & Hr2 & _ & Hk2 & _). rewrite Hr' in Hr2. injection Hr2 as <-.
    etrans; [by apply Hc|]. apply (Hle (pshmid g)); [done..|congruence].
  - destruct (to_region _ _ (si_tab _ _ _ I') j r' Hr') as [(_ & _ & _ & _ & ->)|U]; [lia|]. pose proof (ru_nattch _ _ U). lia.
Qed.

Lemma shm_state_change {F} fl fl' pr (s s' : kernel F) :
  shm_state fl pr s ->
  phys_ok fl' (kphys s') -> table_ok fl' (shmTable s') ->
  ptable s' = ptable s -> curproc s' = curproc s -> shm_lock s' = false ->
  (forall q, q ∈ fl' -> ~ pt_page (mem (kphys s)) (pgdir pr) q) ->
  (forall q, pt_page (mem (kphys s)) (pgdir pr) q ->
     same_bytes (mem (kphys s)) (mem (kphys s')) q) ->
  (forall q, q ∈ shm_pages (shmTable s') -> q ∈ shm_pages (shmTable s) \/ q ∈ fl) ->
  (forall j r, zidx (shmTable s) j = Some r -> region_used j r -> 0 < count_segs j (pages pr) ->
     exists r', zidx (shmTable s') j = Some r' /\ region_used j r' /\ key r' = key r /\
       size r' = size r /\ physicalAddr r' = physicalAddr r) ->
  shm_state fl' pr s'.
Proof.
  intros I Hph Htab Hpt Hcur Hlk Hfl Hsame Hpg Hreg.
  assert (Hdir : same_bytes (mem (kphys s)) (mem (kphys s')) (pgdir pr)) by (apply Hsame; by left).
  assert (Hview : forall va, pte_view (mem (kphys s')) (pgdir pr) va =
    pte_view (mem (kphys s)) (pgdir pr) va) by (intros; by apply pte_view_ext).
  pose proof (count_segs_pos (pages pr)) as Hpos.
  split; try done; try by apply I.
  - rewrite Hpt, Hcur. apply I.
  - pose proof (si_dir fl pr s I) as D. split; [apply D| | |].
    + intros Hin. apply (Hfl _ Hin). by left.
    + intros i Hi Hp. rewrite (pgtab_at_ext (mem (kphys s))) by done.
      rewrite (pde_at_ext (mem (kphys s))) in Hp by done.
      destruct (tab_ok _ _ _ D i Hi Hp) as (? & ? & ?). split_and!; try done.
      intros Hin. apply (Hfl _ Hin). right. eauto.
    + intros i j Hi Hj. rewrite !(pgtab_at_ext (mem (kphys s)) (mem (kphys s'))) by done.
      rewrite !(pde_at_ext (mem (kphys s)) (mem (kphys s'))) by done. by apply D.
  - intros q Hq. rewrite (pt_page_ext (mem (kphys s))) by done. intros Hp.
    destruct (Hpg q Hq) as [Hq'|Hq']; [by eapply si_apart|].
    by eapply pt_page_is_page in Hp as [_ ?]; [|by eapply si_dir].
  - intros i g Hg Hu. destruct (si_region fl pr s I i g Hg Hu) as (r & Hr & Hru & Hk & Hs).
    destruct (Hreg _ _ Hr Hru (Hpos i g Hg Hu)) as (r' & Hr' & Hru' & Hk' & Hs' & _).
    exists r'. split_and!; [done..|congruence|congruence].
  - intros i g r' k pa Hg Hu Hr' Hk Hpa. rewrite Hview.
    destruct (si_region fl pr s I i g Hg Hu) as (r & Hr & Hru & _ & _).
    destruct (Hreg _ _ Hr Hru (Hpos i g Hg Hu)) as (r'' & Hr'' & _ & _ & _ & Hpa'). simplify_eq.
    rewrite Hpa' in Hpa. by eapply si_map.
  - intros va Hva Hno. rewrite Hview. by eapply si_unmap.
Qed.

End table.

(** ** shmget *)

Section get.
Context {K : KernelImage} {KI : KernelImageOk K} {F : Type}.
Implicit Types s : kernel F.

(** What [shmget] decides before it touches memory: an answer, or the slot,
    the permission and the number of pages of a region to create. *)
Inductive get_plan := Answer (r : Z) | Create (index permission noOfPages : Z).

Definition shmget_plan (tab : list shmRegion) (key_ size_ shmflag : Z) : get_plan :=
  match split_flag key_ shmflag with
  | None => Answer (-1)
  | Some (permission, shmflag) =>
      let n := size_ / PGSIZE + 1 in
      if (size_ <=? 0) || (SHAREDREGIONS <? n) then Answer (-1) else
      match find_idx (fun r => key r =? key_) 0 tab with
      | Some i => Answer (match zidx tab i with
                          | Some r => existing_region r key_ n shmflag
                          | None => -1
                          end)
      | None =>
          match find_idx (fun r => key r =? NOKEY) 0 tab with
          | Some index =>
              if (key_ =? IPC_PRIVATE) || (shmflag =? IPC_CREAT)
                 || (shmflag =? Z.lor IPC_CREAT IPC_EXCL)
              then Create index permission n else Answer (-1)
          | None => Answer (-1)
          end
      end
  end.

Definition put_addrs (i : Z) (ps : list Z) (r : shmRegion) : shmRegion :=
  mkRegion (key r) (size r) (shmid r) (toBeDeleted r)
    (list_inserts (Z.to_nat i) (V2P <$> ps) (physicalAddr r)) (buffer r).

(** The allocation loop takes pages from the head of the free list, zeroes
    them and records them; it stops early only on an empty free list. *)
Lemma shmget_alloc_spec index : forall n i fl s r,
  phys_ok fl (kphys s) -> zidx (shmTable s) index = Some r -> 0 <= i ->
  wp (shmget_alloc index i n) (fun ok s' => exists ps fl' ph,
    fl = ps ++ fl' /\ phys_ok fl' ph /\
    s' = set_kphys ph (set_shmTable (zupd (shmTable s) index (put_addrs i ps r)) s) /\
    (if ok : bool then length ps = n else fl' = [] /\ (length ps < n)%nat) /\
    (forall q, is_page q -> q ∉ ps -> same_bytes (mem (kphys s)) (mem ph) q) /\
    (forall q b, q ∈ ps -> q <= b < q + PGSIZE -> ld8 (mem ph) b = 0)) s.
Proof.
  induction n as [|n IH]; intros i fl s r Hok Hr Hi; cbn [shmget_alloc].
  - wp_steps. exists [], fl, (kphys s). split_and!; try done.
    + unfold put_addrs. simpl. pose proof Hr as [? Hr']%zidx_Some. unfold zupd.
      rewrite list_insert_id by (by destruct r). by destruct s.
    + by intros q b Hq%elem_of_nil.
  - wp_steps. wp_use kalloc_spec; [done|]. intros p ph (Hm & Hl & -> & Hok').
    destruct fl as [|p fl]; simpl in Hok' |- *.
    { wp_steps. exists [], [], ph. split_and!; try done; try (simpl; lia).
      - unfold put_addrs. simpl. pose proof Hr as [? Hr']%zidx_Some. unfold zupd.
        rewrite list_insert_id by (by destruct r). by destruct s.
      - intros q _ _. rewrite Hm. apply same_bytes_refl.
      - by intros q b Hq%elem_of_nil. }
    assert (Hp : is_page p) by (apply (phys_ok_page _ _ p Hok); left).
    pose proof (ok_nodup _ _ Hok) as [Hnin _]%NoDup_cons.
    rewrite (proj2 (Z.eqb_neq p 0)) by (by apply is_page_nz). wp_steps.
    eapply wpx_upd_region; [done|].
    eapply wpx_mono; [apply (IH (i + 1) fl _ (put_addrs i [p] r))| |done].
    + simpl. by apply phys_ok_memset.
    + simpl. rewrite zidx_zupd by (apply zidx_range in Hr; lia). by rewrite Z.eqb_refl.
    + lia.
    + cbn beta. intros ok s' (ps & fl' & ph' & -> & Hok2 & -> & Hres & Hsame & Hzero).
      simpl in Hsame. exists (p :: ps), fl', ph'. split_and!; try done.
      * unfold zupd, put_addrs, set_kphys, set_shmTable, set_phys_addr, zupd; simpl. rewrite list_insert_insert_eq.
        replace (Z.to_nat (i + 1)) with (1 + Z.to_nat i)%nat by lia.
        do 3 f_equal. exact (eq_sym (list_inserts_app_l [V2P p] (V2P <$> ps) (physicalAddr r) _)).
      * destruct ok; simpl; [lia|]. split; [by destruct Hres|]. destruct Hres. lia.
      * intros q Hq [Hqp Hqps]%not_elem_of_cons. eapply same_bytes_trans; [|by apply Hsame].
        rewrite Hm. by apply same_bytes_memset.
      * intros q b [->|Hq]%elem_of_cons Hb; [|by apply (Hzero q)].
        rewrite (Hsame p); [|done| |by consts].
        -- rewrite ld8_memset by alia. consts. zcases. done.
        -- intros Hin. apply Hnin. set_solver.
Qed.

Lemma set_lock_id s : shm_lock s = false -> set_shm_lock false (set_shm_lock true s) = s.
Proof. destruct s; simpl. by intros ->. Qed.

(** [shmget] carries its plan out. *)
Lemma shmget_run key_ size_ shmflag fl pr s :
  phys_ok fl (kphys s) -> shm_lock s = false -> ptable s !! curproc s = Some pr ->
  wp (shmget key_ size_ shmflag) (fun ret s' =>
    match shmget_plan (shmTable s) key_ size_ shmflag with
    | Answer r0 => ret = r0 /\ s' = s
    | Create index perm n => exists r ps fl' ph,
        zidx (shmTable s) index = Some r /\ key r = NOKEY /\
        fl = ps ++ fl' /\ phys_ok fl' ph /\
        (forall q, is_page q -> q ∉ ps -> same_bytes (mem (kphys s)) (mem ph) q) /\
        (forall q b, q ∈ ps -> q <= b < q + PGSIZE -> ld8 (mem ph) b = 0) /\
        ((ret = index /\ length ps = Z.to_nat n /\
          s' = set_kphys ph (set_shmTable (zupd (shmTable s) index
                 (new_region key_ size_ perm (pid pr) index n (put_addrs 0 ps r))) s)) \/
         (ret = -1 /\ fl' = [] /\ (length ps < Z.to_nat n)%nat /\
          s' = set_kphys ph (set_shmTable (zupd (shmTable s) index (put_addrs 0 ps r)) s)))
    end) s.
Proof.
  intros Hok Hlk Hpr. unfold shmget, shmget_plan.
  assert (Hret : forall r (Q : Z -> kernel F -> Prop) E, Q r s ->
    wpx (shm_return r) Q E (set_shm_lock true s)).
  { intros r Q E HQ. apply wpx_shm_return; [done|]. by rewrite set_lock_id. }
  wp_step. apply wpx_shm_acquire; [done|].
  destruct (split_flag key_ shmflag) as [[permission flag]|]; [|by apply Hret].
  destruct (size_ <=? 0); [by apply Hret|].
  destruct (SHAREDREGIONS <? size_ / PGSIZE + 1); [by apply Hret|]. cbn [orb]. wp_steps.
  change (shmTable (set_shm_lock true s)) with (shmTable s).
  destruct (find_idx (fun r => key r =? key_) 0 (shmTable s)) as [i|] eqn:Hi.
  { apply find_idx_0 in Hi as (r & Hr & _). wp_steps. eapply wpx_get_region; [done|].
    rewrite Hr. by apply Hret. }
  destruct (find_idx (fun r => key r =? NOKEY) 0 (shmTable s)) as [index|] eqn:Hx; [|by apply Hret].
  apply find_idx_0 in Hx as (r & Hr & Hk%Z.eqb_eq & Hix & _).
  destruct (_ || _); [|by apply Hret]. wp_step.
  eapply wpx_mono; [apply (shmget_alloc_spec index _ 0 fl _ r); [done..|lia]| |done].
  cbn beta. intros ok s1 (ps & fl' & ph & Hfl & Hok' & -> & Hres & Hsame & Hzero).
  destruct ok; cbn [negb].
  - wp_steps. eapply wpx_get_proc; [done|]. wp_steps. eapply wpx_upd_region.
    { simpl. rewrite zidx_zupd by (apply zidx_range in Hr; simpl; lia). by rewrite Z.eqb_refl. }
    apply wpx_shm_return; [done|]. exists r, ps, fl', ph. split_and!; try done.
    left. split_and!; try done. unfold set_kphys, set_shmTable, set_shm_lock, zupd; simpl.
    rewrite list_insert_insert_eq, <- Hlk. done.
  - destruct Hres as [-> Hlt]. apply wpx_shm_return; [done|]. exists r, ps, [], ph.
    split_and!; try done. right. split_and!; try done.
    unfold set_kphys, set_shmTable, set_shm_lock; simpl. by rewrite <- Hlk.
Qed.

(** The pages a created region records are the pages that were allocated. *)
Lemma region_pages_put key_ size_ perm cpid index n ps r :
  length ps = Z.to_nat n -> 0 <= n <= SHAREDREGIONS -> Forall is_page ps ->
  length (physicalAddr r) = Z.to_nat SHAREDREGIONS ->
  region_pages (new_region key_ size_ perm cpid index n (put_addrs 0 ps r)) = ps.
Proof.
  intros Hn Hr Hps Hlen. unfold region_pages, new_region, put_addrs. cbn [size physicalAddr].
  rewrite <- (take_drop (Z.to_nat n) (physicalAddr r)).
  rewrite list_inserts_0_r by (rewrite length_fmap, length_take; lia).
  rewrite take_app_length' by (rewrite length_fmap; lia).
  rewrite <- list_fmap_compose. rewrite <- (list_fmap_id ps) at 2.
  apply list_fmap_ext. intros i p Hp. simpl. apply P2V_V2P. apply is_page_u32.
  rewrite Forall_lookup in Hps. eauto.
Qed.

Lemma split_flag_perm key_ flag perm flag' :
  split_flag key_ flag = Some (perm, flag') ->
  (key_ =? IPC_PRIVATE) || (flag' =? IPC_CREAT) || (flag' =? Z.lor IPC_CREAT IPC_EXCL) = true ->
  perm = READ_SHM \/ perm = RW_SHM.
Proof.
  unfold split_flag. intros Hf Hc. revert Hf.
  destruct (Z.land flag 7 =? READ_SHM); [intros; simplify_eq; auto|].
  destruct (Z.land flag 7 =? RW_SHM); [intros; simplify_eq; auto|].
  destruct (Z.eqb_spec flag 0) as [->|]; [|done].
  destruct (key_ =? IPC_PRIVATE); [done|]. simpl. intros. by simplify_eq.
Qed.

Lemma shmget_plan_create fl tab key_ size_ flag index perm n :
  table_ok fl tab -> shmget_plan tab key_ size_ flag = Create index perm n ->
  n = size_ / PGSIZE + 1 /\ 1 <= n <= SHAREDREGIONS /\ (perm = READ_SHM \/ perm = RW_SHM) /\
  key_ <> NOKEY /\ (forall j r, zidx tab j = Some r -> key r <> key_) /\
  exists r, zidx tab index = Some r /\ region_free r /\
    forall j rj, 0 <= j < index -> zidx tab j = Some rj -> key rj <> NOKEY.
Proof.
  intros T. unfold shmget_plan.
  destruct (split_flag key_ flag) as [[perm' flag']|] eqn:Hf; [|done].
  destruct (_ || _) eqn:Hsz; [done|]. rewrite orb_false_iff, Z.leb_gt, Z.ltb_ge in Hsz.
  destruct (find_idx (fun r => key r =? key_) 0 tab) as [|] eqn:Hk; [done|].
  destruct (find_idx (fun r => key r =? NOKEY) 0 tab) as [i|] eqn:Hn; [|done].
  destruct (_ || _) eqn:Hc; [|done]. intros [= -> -> <-].
  apply find_idx_0 in Hn as (r & Hr & Hrk%Z.eqb_eq & Hi & Hlt).
  assert (Hno : forall j r, zidx tab j = Some r -> key r <> key_).
  { intros j rj Hj. apply Z.eqb_neq. by eapply (find_idx_0_None (fun r => key r =? key_)). }
  split_and!; try done; try alia.
  - by eapply split_flag_perm.
  - intros ->. by eapply Hno.
  - exists r. split_and!; [done| |].
    + destruct (to_region fl tab T index r Hr) as [|U]; [done|]. by destruct (ru_key _ _ U).
    + intros j rj Hj Hrj. apply Z.eqb_neq. by eapply Hlt.
Qed.

Lemma table_ok_create fl ps fl' tab index r key_ size_ perm cpid n :
  table_ok fl tab -> zidx tab index = Some r -> region_free r -> fl = ps ++ fl' ->
  Forall is_page ps -> length ps = Z.to_nat n -> 1 <= n <= SHAREDREGIONS ->
  perm = READ_SHM \/ perm = RW_SHM -> key_ <> NOKEY ->
  (forall j r, zidx tab j = Some r -> key r <> key_) ->
  table_ok fl' (zupd tab index (new_region key_ size_ perm cpid index n (put_addrs 0 ps r))).
Proof.
  intros T Hr (Hk & Hs & Hid & Hd & Hna) -> Hps Hlen Hn Hp Hkey Hfresh.
  destruct (to_addr _ _ T index r Hr) as [Hpl Hpa].
  assert (Hrp := region_pages_put key_ size_ perm cpid index n ps r Hlen ltac:(lia) Hps Hpl).
  eapply table_ok_zupd; [done..| | | | | |].
  - simpl. by rewrite length_inserts.
  - simpl. apply Forall_inserts; [done|]. apply Forall_fmap, Forall_true.
    intros x. apply u32_range.
  - right. split; simpl; try done. lia.
  - intros j rj Hj _ He. simpl in He. by destruct (Hfresh j rj Hj).
  - by rewrite Hrp.
  - rewrite Hrp, (region_pages_free r) by done. done.
Qed.

Lemma table_ok_leak fl ps fl' tab index r :
  table_ok fl tab -> zidx tab index = Some r -> region_free r -> fl = ps ++ fl' ->
  table_ok fl' (zupd tab index (put_addrs 0 ps r)).
Proof.
  intros T Hr (Hk & Hs & Hid & Hd & Hna) ->.
  destruct (to_addr _ _ T index r Hr) as [Hpl Hpa].
  apply (table_ok_sub (ps ++ fl')); [|by exists ps].
  eapply table_ok_zupd; [done..| | | | | |].
  - simpl. by rewrite length_inserts.
  - simpl. apply Forall_inserts; [done|]. apply Forall_fmap, Forall_true. intros x. apply u32_range.
  - by left.
  - by intros.
  - by rewrite region_pages_free.
  - by rewrite !region_pages_free.
Qed.

(** A state that [shmget] reaches: memory with fewer free pages, and a free
    region replaced. *)
Lemma shm_state_get fl ps fl' pr s ph index r r' :
  shm_state fl pr s -> fl = ps ++ fl' -> phys_ok fl' ph ->
  (forall q, is_page q -> q ∉ ps -> same_bytes (mem (kphys s)) (mem ph) q) ->
  zidx (shmTable s) index = Some r -> region_free r ->
  (forall q, q ∈ region_pages r' -> q ∈ ps) ->
  table_ok fl' (zupd (shmTable s) index r') ->
  shm_state fl' pr (set_kphys ph (set_shmTable (zupd (shmTable s) index r') s)).
Proof.
  intros I -> Hph Hsame Hr Hfree Hpg T'. pose proof (zidx_range _ _ _ Hr) as Hi.
  assert (Hpt : forall q, pt_page (mem (kphys s)) (pgdir pr) q -> is_page q /\ q ∉ ps ++ fl')
    by (intros q; apply pt_page_is_page, I).
  apply (shm_state_change (ps ++ fl') fl' pr s); try done; try by apply I.
  - intros q Hq [_ Hn]%Hpt. set_solver.
  - intros q [Hq Hn]%Hpt. apply Hsame; set_solver.
  - intros q. simpl. rewrite (shm_pages_zupd _ _ r) by done.
    rewrite (shm_pages_split (shmTable s) index r) by done. rewrite !elem_of_app.
    intros [Hq%Hpg|Hq]; tauto.
  - intros j rj Hj U Hc. destruct (decide (j = index)) as [->|].
    + simplify_eq. by destruct (ru_key _ _ U), Hfree.
    + exists rj. simpl. rewrite zidx_zupd by (apply zidx_range in Hj; lia).
      rewrite (proj2 (Z.eqb_neq j index)) by done. done.
Qed.

(** The answer for an existing key is -1 or the region's own index. *)
Lemma existing_region_answer i r key_ n flag :
  region_used i r -> existing_region r key_ n flag = -1 \/
  (existing_region r key_ n flag = i /\ size r = n).
Proof.
  intros U. rewrite <- (ru_shmid _ _ U). unfold existing_region.
  destruct (Z.eqb_spec (size r) n); cbn [negb]; [|by left].
  repeat case_match; auto.
Qed.

Lemma shmget_inv key_ size_ shmflag fl pr s :
  shm_state fl pr s ->
  wp (shmget key_ size_ shmflag) (fun ret s' => exists fl',
    shm_state fl' pr s' /\ (exists ps, fl = ps ++ fl') /\
    (ret = -1 \/ exists r, zidx (shmTable s') ret = Some r /\ region_used ret r /\
       key r = key_ /\ size r = size_ / PGSIZE + 1)) s.
Proof.
  intros I. eapply wpx_mono; [by apply (shmget_run _ _ _ fl pr); apply I| |done].
  cbn beta. intros ret s'.
  destruct (shmget_plan (shmTable s) key_ size_ shmflag) as [r0|index perm n] eqn:Hplan.
  - intros [-> ->]. exists fl. split_and!; [done|by exists []|].
    revert Hplan. unfold shmget_plan. destruct (split_flag _ _) as [[perm flag]|]; [|naive_solver].
    destruct (_ || _); [naive_solver|].
    destruct (find_idx _ _ _) as [i|] eqn:Hi.
    + apply find_idx_0 in Hi as (r & Hr & Hk%Z.eqb_eq & _). rewrite Hr. intros [= <-].
      destruct (to_region _ _ (si_tab _ _ _ I) i r Hr) as [(Hf & Hs & Hid & _)|U].
      * left. unfold existing_region. rewrite Hid. repeat case_match; done.
      * destruct (existing_region_answer i r key_ (size_ / PGSIZE + 1) flag U) as [->|[-> <-]]; [by left|].
        right. by exists r.
    + repeat case_match; naive_solver.
  - intros (r & ps & fl' & ph & Hr & _ & Hfl & Hph & Hsame & _ & Hcase).
    destruct (shmget_plan_create _ _ _ _ _ _ _ _ (si_tab _ _ _ I) Hplan)
      as (Hn & Hnr & Hperm & Hkey & Hfresh & r2 & Hr2 & Hfree & _). simplify_eq.
    assert (Hps : Forall is_page ps).
    { apply Forall_forall. intros q Hq. apply (phys_ok_page _ _ q (si_phys _ _ _ I)). set_solver. }
    destruct (to_addr _ _ (si_tab _ _ _ I) index r Hr) as [Hpl _].
    exists fl'. destruct Hcase as [(-> & Hlen & ->)|(-> & -> & Hlen & ->)].
    + split_and!; [|by exists ps|].
      * eapply (shm_state_get (ps ++ fl')); try done.
        -- intros q. rewrite region_pages_put by (done || lia). done.
        -- eapply table_ok_create; try done. apply I.
      * right. eexists. split.
        { simpl. rewrite zidx_zupd by (apply zidx_range in Hr; lia). by rewrite Z.eqb_refl. }
        split; [|done]. split; simpl; try done. destruct Hfree as (? & ? & ? & ? & ?). lia.
    + split_and!; [|by exists ps|by left].
      eapply (shm_state_get (ps ++ [])); try done.
      * intros q. rewrite region_pages_free by apply Hfree. by intros ?%elem_of_nil.
      * eapply table_ok_leak; try done. apply I.
Qed.

(** A new key with IPC_CREAT and a legal size is planned when a slot is free. *)
Lemma shmget_plan_new tab key_ size_ perm excl i0 r0 :
  (forall j r, zidx tab j = Some r -> key r <> key_) ->
  (perm = READ_SHM \/ perm = RW_SHM) -> (excl = 0 \/ excl = IPC_EXCL) ->
  0 < size_ -> size_ / PGSIZE + 1 <= SHAREDREGIONS ->
  zidx tab i0 = Some r0 -> key r0 = NOKEY ->
  exists index, shmget_plan tab key_ size_ (Z.lor perm (Z.lor IPC_CREAT excl)) =
    Create index perm (size_ / PGSIZE + 1).
Proof.
  intros Hfresh Hperm Hexcl Hsz Hn Hi0 Hk0. unfold shmget_plan.
  replace (split_flag key_ _) with (Some (perm, Z.lor IPC_CREAT excl))
    by (by destruct Hperm as [-> | ->], Hexcl as [-> | ->]).
  destruct (Z.leb_spec size_ 0); [lia|]. destruct (Z.ltb_spec SHAREDREGIONS (size_ / PGSIZE + 1)); [lia|].
  cbn [orb]. destruct (find_idx (fun r => key r =? key_) 0 tab) eqn:Hf.
  { apply find_idx_0 in Hf as (r & Hr & Hk%Z.eqb_eq & _). by destruct (Hfresh _ _ Hr). }
  destruct (find_idx (fun r => key r =? NOKEY) 0 tab) as [index|] eqn:Hf2.
  2:{ pose proof (find_idx_0_None _ _ _ _ Hf2 Hi0) as Hx. cbn beta in Hx. by rewrite Hk0 in Hx. }
  exists index. by destruct Hexcl as [-> | ->]; rewrite ?orb_true_r.
Qed.

(** A process without segments and an empty table. *)
Lemma shm_inv_fresh fl pr s :
  phys_ok fl (kphys s) -> pgdir_ok (mem (kphys s)) (pgdir pr) fl ->
  shmTable s = replicate (Z.to_nat SHAREDREGIONS) region0 ->
  ptable s !! curproc s = Some pr -> shm_lock s = false ->
  length (pages pr) = Z.to_nat SHAREDREGIONS ->
  (forall i g, pages pr !! i = Some g -> seg_used g = false) ->
  (forall va, HEAPLIMIT <= va < KERNBASE -> present (pte_view (mem (kphys s)) (pgdir pr) va) = false) ->
  shm_inv fl pr s.
Proof.
  intros Hph Hdir Htab Hpr Hlk Hlen Hno Hun.
  assert (Hr : forall i r, zidx (shmTable s) i = Some r -> r = region0).
  { intros i r [_ Hr]%zidx_Some. rewrite Htab in Hr. by apply lookup_replicate in Hr as [-> _]. }
  assert (Hsp : shm_pages (shmTable s) = []) by (rewrite Htab; reflexivity).
  split; [split; try done|].
  - split.
    + by rewrite Htab, length_replicate.
    + intros i r ->%Hr. split; [done|]. apply Forall_replicate. done.
    + intros i r ->%Hr. left. done.
    + intros i j ri rj ->%Hr ->%Hr. done.
    + rewrite Hsp. constructor.
    + rewrite Hsp. apply Hph.
  - rewrite Hsp. by intros q ?%elem_of_nil.
  - split; [done| |]; [intros i g Hg|intros i j g h Hg Hh _ Hu]; by rewrite (Hno _ _ Hg) in *.
  - intros i g Hg. by rewrite (Hno _ _ Hg).
  - intros i g r k pa Hg Hu. by rewrite (Hno _ _ Hg) in Hu.
  - intros va Hva _. by apply Hun.
  - intros j r ->%Hr. unfold count_segs.
    replace (filter _ (pages pr)) with (@nil sharedPages); [done|].
    symmetry.
    apply elem_of_nil_inv. intros g [Hu Hin]%list_elem_of_filter.
    apply list_elem_of_lookup in Hin as [i Hi]. by rewrite (Hno _ _ Hi) in Hu.
Qed.

(** The pages that hold [size_] bytes, as the comment at the declaration of
    struct shmRegion counts them, and the page more that [shmget] takes for a
    multiple of the page size. *)
Definition pages_for (size_ : Z) : Z := (size_ + PGSIZE - 1) / PGSIZE.
Definition spare_page (size_ : Z) : Z := if size_ mod PGSIZE =? 0 then 1 else 0.

(** The region [ret] is in use for the key, with pages for the size. *)
Definition got_region (s' : kernel F) (key_ size_ ret : Z) (r : shmRegion) : Prop :=
  zidx (shmTable s') ret = Some r /\ region_used ret r /\ key r = key_ /\ size r = pages_for size_ + spare_page size_.

Inductive get_outcome (fl : list Z) (s : kernel F) (key_ size_ ret : Z) (fl' : list Z) (s' : kernel F) : Prop :=
  | get_refused : ret = -1 -> s' = s -> fl' = fl -> get_outcome fl s key_ size_ ret fl' s'
  | get_no_memory :
      ret = -1 -> fl' = [] -> Z.of_nat (length fl) < pages_for size_ + spare_page size_ ->
      (forall j r, zidx (shmTable s) j = Some r -> region_used j r -> zidx (shmTable s') j = Some r) ->
      get_outcome fl s key_ size_ ret fl' s'
  | get_found r : got_region s' key_ size_ ret r -> s' = s -> fl' = fl -> get_outcome fl s key_ size_ ret fl' s'
  | get_created r :
      got_region s' key_ size_ ret r -> fl = region_pages r ++ fl' ->
      (forall j rj, zidx (shmTable s) j = Some rj -> key rj <> key_) ->
      (forall q b, q ∈ region_pages r -> q <= b < q + PGSIZE -> ld8 (mem (kphys s')) b = 0) ->
      (forall j, j <> ret -> zidx (shmTable s') j = zidx (shmTable s) j) ->
      get_outcome fl s key_ size_ ret fl' s'.

Lemma pages_taken size_ : size_ / PGSIZE + 1 = pages_for size_ + spare_page size_.
Proof. unfold pages_for, spare_page. consts. destruct (Z.eqb_spec (size_ mod 4096) 0); dlia. Qed.

Lemma get_counted fl pr s key_ size_ ret fl' s' :
  shm_state fl pr s -> shm_state fl' pr s' -> get_outcome fl s key_ size_ ret fl' s' -> counted pr s -> counted pr s'.
Proof.
  intros I I' Hout Hc. destruct Hout as [-> -> _| -> -> _ Hsame|r _ -> _|r (Hr & _ & Hk & _) _ Hfresh _ Hother]; try done.
  - apply (counted_change fl [] pr s s' I I' Hc). intros j r r' Hr Hr' U _. rewrite (Hsame j r Hr U) in Hr'. by injection Hr' as <-.
  - apply (counted_change fl fl' pr s s' I I' Hc). intros j r1 r2 Hr1 Hr2 U He. destruct (decide (j = ret)) as [->|Hne].
    + rewrite Hr in Hr2. injection Hr2 as <-. destruct (Hfresh ret r1 Hr1). congruence.
    + rewrite Hother, Hr1 in Hr2 by done. by injection Hr2 as <-.
Qed.

Lemma shmget_full key_ size_ shmflag fl pr s :
  shm_state fl pr s ->
  wp (shmget key_ size_ shmflag) (fun ret s' => exists fl',
    shm_state fl' pr s' /\ get_outcome fl s key_ size_ ret fl' s' /\ (counted pr s -> counted pr s')) s.
Proof.
  intros I. enough (wp (shmget key_ size_ shmflag) (fun ret s' => exists fl', shm_state fl' pr s' /\ get_outcome fl s key_ size_ ret fl' s') s) as H.
  { eapply wpx_mono; [exact H| |done]. intros ret s' (fl' & I' & Ho). exists fl'. split; [done|]. split; [done|]. by apply (get_counted fl pr s key_ size_ ret fl' s'). }
  destruct (wp_run _ _ _ (shmget_inv key_ size_ shmflag fl pr s I)) as (ret & s' & Hrun & fl1 & I1 & _ & Hret).
  pose proof (wpx_ret_inv _ _ _ _ _ _ (shmget_run key_ size_ shmflag fl pr s (si_phys _ _ _ I) (si_lock _ _ _ I) (si_proc _ _ _ I)) Hrun) as Hcase.
  unfold wpx. rewrite Hrun. rewrite pages_taken in Hret. destruct (shmget_plan (shmTable s) key_ size_ shmflag) as [r0|index perm n] eqn:Hplan.
  - destruct Hcase as [_ ->]. exists fl. split; [done|]. destruct Hret as [->|(r & Hr)]; [by apply get_refused|by eapply get_found].
  - destruct (shmget_plan_create _ _ _ _ _ _ _ _ (si_tab _ _ _ I) Hplan) as (-> & Hnr & Hperm & Hkey & Hfresh & r2 & Hr2 & Hfree & _).
    destruct Hcase as (r & ps & fl' & ph & Hr & _ & Hfl & P' & _ & Hz & Hcase). rewrite Hr in Hr2. injection Hr2 as <-. rewrite pages_taken in *.
    pose proof (zidx_range _ _ _ Hr) as Hix. destruct (to_addr _ _ (si_tab _ _ _ I) index r Hr) as [Hpl _].
    assert (Hps : Forall is_page ps) by (apply Forall_forall; intros q Hq; apply (phys_ok_page _ _ q (si_phys _ _ _ I)); rewrite Hfl; apply elem_of_app; by left).
    destruct Hcase as [(-> & Hlen & ->)|(-> & -> & Hlen & ->)].
    + assert (fl1 = fl') as -> by (by eapply free_chain_inj; [apply I1|apply P']).
      exists fl'. split; [done|]. destruct Hret as [->|(r' & Hr')]; [lia|]. simpl in *.
      assert (Er : region_pages r' = ps).
      { destruct Hr' as [Hr' _]. rewrite zidx_zupd, Z.eqb_refl in Hr' by lia. injection Hr' as <-. rewrite region_pages_put; try done; lia. }
      eapply get_created; [done|by rewrite Er|done|by rewrite Er|]. intros j Hj. simpl. unfold zupd, zidx. destruct (Z.ltb_spec j 0); [done|].
      rewrite list_lookup_insert_ne; [done|lia].
    + exists []. assert (fl1 = []) as -> by (by eapply free_chain_inj; [apply I1|apply P']). split; [done|]. apply get_no_memory; [done..| |].
      * rewrite Hfl, app_nil_r. lia.
      * intros j rj Hj Uj. simpl. rewrite zidx_zupd by (apply zidx_range in Hj; lia). destruct (Z.eqb_spec j index) as [->|]; [|done].
        simplify_eq. destruct Hfree as (Hk & _). by destruct (ru_key _ _ Uj).
Qed.

(** C4: whatever its arguments, [shmget] keeps the invariant of the table and of
    the caller's address space, and has one of four outcomes.  It refuses with -1 and
    changes nothing.  Or memory runs out: it answers -1, every free page is gone, and
    the regions in use are as before.  Or it answers the region that has the key, and
    changes nothing.  Or no region had the key, and it answers a new one made of the
    first free pages, filled with zeros, and changes no other.  A region has the pages
    that its size needs, and one more when the size is a multiple of the page size,
    for which the comment in the source promises none.  Counts that include the
    attachments of the process still do. *)
Theorem shmget_safe key_ size_ shmflag fl pr s :
  shm_state fl pr s ->
  wp (shmget key_ size_ shmflag) (fun ret s' => exists fl',
    shm_state fl' pr s' /\ get_outcome fl s key_ size_ ret fl' s' /\ (counted pr s -> counted pr s')) s.
Proof. apply shmget_full. Qed.

Lemma shmget_new key_ size_ perm excl fl pr s i0 r0 :
  shm_state fl pr s -> key_ <> NOKEY ->
  (forall j r, zidx (shmTable s) j = Some r -> key r <> key_) ->
  (perm = READ_SHM \/ perm = RW_SHM) -> (excl = 0 \/ excl = IPC_EXCL) ->
  0 < size_ -> size_ / PGSIZE + 1 <= SHAREDREGIONS ->
  zidx (shmTable s) i0 = Some r0 -> key r0 = NOKEY ->
  size_ / PGSIZE + 1 <= Z.of_nat (length fl) ->
  let n := Z.to_nat (size_ / PGSIZE + 1) in
  wp (shmget key_ size_ (Z.lor perm (Z.lor IPC_CREAT excl))) (fun index s' => exists r,
    shm_state (drop n fl) pr s' /\ (counted pr s -> counted pr s') /\
    zidx (shmTable s') index = Some r /\
    key r = key_ /\ size r = Z.of_nat n /\ shmid r = index /\ toBeDeleted r = 0 /\
    mode (shm_perm (buffer r)) = perm /\ shm_segsz (buffer r) = size_ /\
    shm_cpid (buffer r) = pid pr /\ shm_nattch (buffer r) = 0 /\
    region_pages r = take n fl /\
    (forall q b, q ∈ take n fl -> q <= b < q + PGSIZE -> ld8 (mem (kphys s')) b = 0) /\
    (forall j rj, 0 <= j < index -> zidx (shmTable s) j = Some rj -> key rj <> NOKEY) /\
    (forall j, j <> index -> 0 <= j < SHAREDREGIONS -> zidx (shmTable s') j = zidx (shmTable s) j)) s.
Proof.
  intros I Hkey Hfresh Hperm Hexcl Hsz Hn Hi0 Hk0 Hmem n. pose proof (si_tab _ _ _ I) as T.
  set (flag := Z.lor perm (Z.lor IPC_CREAT excl)).
  destruct (shmget_plan_new (shmTable s) key_ size_ perm excl i0 r0) as [index Hplan]; try done.
  fold flag in Hplan.
  destruct (shmget_plan_create _ _ _ _ _ _ _ _ T Hplan) as (_ & Hnr & _ & _ & _ & r & Hr & Hfree & Hfirst).
  eapply wpx_mono; [by apply (shmget_run _ _ _ fl pr); apply I| |done].
  cbn beta. rewrite Hplan. intros ret s' (r2 & ps & fl' & ph & Hr2 & _ & Hfl & Hph & Hsame & Hz & Hcase).
  rewrite Hr in Hr2. injection Hr2 as <-.
  destruct Hcase as [(-> & Hlen & ->)|(_ & -> & Hlen & _)].
  2:{ rewrite Hfl, app_nil_r in Hmem. lia. }
  fold n in Hlen. assert (take n fl = ps /\ drop n fl = fl') as [-> ->].
  { rewrite Hfl, <- Hlen. by rewrite take_app_length, drop_app_length. }
  assert (Hps : Forall is_page ps).
  { apply Forall_forall. intros q Hq. apply (phys_ok_page _ _ q (si_phys _ _ _ I)). set_solver. }
  destruct (to_addr _ _ T index r Hr) as [Hpl _]. pose proof (zidx_range _ _ _ Hr) as Hix.
  assert (Hrp := fun k sz pm cp => region_pages_put k sz pm cp index _ ps r Hlen ltac:(lia) Hps Hpl).
  exists (new_region key_ size_ perm (pid pr) index (size_ / PGSIZE + 1) (put_addrs 0 ps r)).
  assert (I' : shm_state fl' pr (set_kphys ph (set_shmTable (zupd (shmTable s) index
    (new_region key_ size_ perm (pid pr) index (size_ / PGSIZE + 1) (put_addrs 0 ps r))) s))).
  { eapply (shm_state_get fl); try done; [intros q; by rewrite Hrp|]. by eapply table_ok_create. }
  split_and!; try reflexivity; try done.
  - intros Hc. apply (counted_change fl fl' pr s _ I I' Hc). simpl. intros j r1 r2 H1 H2 U He.
    rewrite zidx_zupd in H2 by (apply zidx_range in H1; lia). destruct (Z.eqb_spec j index) as [->|]; [|by simplify_eq].
    rewrite Hr in H1. injection H1 as <-. by destruct (ru_key _ _ U), Hfree.
  - simpl. rewrite zidx_zupd by lia. by rewrite Z.eqb_refl.
  - simpl. lia.
  - by destruct Hfree as (_ & _ & _ & ? & _).
  - by destruct Hfree as (_ & _ & _ & _ & ?).
  - intros j Hne Hj. simpl. rewrite zidx_zupd by (rewrite ?(to_len _ _ T); lia).
    by rewrite (proj2 (Z.eqb_neq j index)).
Qed.

(** With a new key, IPC_CREAT (with or without IPC_EXCL), a legal size,
    a free slot and enough memory, [shmget] answers the first free slot; the
    new region has the key, the permission, the size and the caller's pid, is
    made of the first free pages, zero filled, and no other region changes. *)
Theorem shmget_creates key_ size_ perm excl fl pr s i0 r0 :
  shm_state fl pr s -> key_ <> NOKEY ->
  (forall j r, zidx (shmTable s) j = Some r -> key r <> key_) ->
  (perm = READ_SHM \/ perm = RW_SHM) -> (excl = 0 \/ excl = IPC_EXCL) ->
  0 < size_ -> size_ / PGSIZE + 1 <= SHAREDREGIONS ->
  zidx (shmTable s) i0 = Some r0 -> key r0 = NOKEY ->
  size_ / PGSIZE + 1 <= Z.of_nat (length fl) ->
  let n := Z.to_nat (size_ / PGSIZE + 1) in
  wp (shmget key_ size_ (Z.lor perm (Z.lor IPC_CREAT excl))) (fun index s' => exists r,
    shm_state (drop n fl) pr s' /\
    zidx (shmTable s') index = Some r /\
    key r = key_ /\ size r = Z.of_nat n /\ shmid r = index /\
    mode (shm_perm (buffer r)) = perm /\ shm_segsz (buffer r) = size_ /\
    shm_cpid (buffer r) = pid pr /\ shm_nattch (buffer r) = 0 /\
    region_pages r = take n fl /\
    (forall q b, q ∈ take n fl -> q <= b < q + PGSIZE -> ld8 (mem (kphys s')) b = 0) /\
    (forall j rj, 0 <= j < index -> zidx (shmTable s) j = Some rj -> key rj <> NOKEY) /\
    (forall j, j <> index -> 0 <= j < SHAREDREGIONS -> zidx (shmTable s') j = zidx (shmTable s) j)) s.
Proof.
  intros I Hkey Hfresh Hperm Hexcl Hsz Hn Hi0 Hk0 Hmem n.
  eapply wpx_mono; [by eapply (shmget_new key_ size_ perm excl fl pr s i0 r0)| |done].
  cbn beta. intros index s' (r & H). exists r. tauto.
Qed.

(** With a key that a region already has, [shmget] changes nothing; it
    answers that region when the page count matches and IPC_EXCL is not
    given, and -1 otherwise. *)
Theorem shmget_finds key_ size_ perm excl fl pr s i r :
  shm_state fl pr s -> zidx (shmTable s) i = Some r -> key r = key_ -> key_ <> NOKEY ->
  (perm = READ_SHM \/ perm = RW_SHM) -> (excl = 0 \/ excl = IPC_EXCL) ->
  shmget key_ size_ (Z.lor perm (Z.lor IPC_CREAT excl)) s =
  Ret (if (0 <? size_) && (size r =? size_ / PGSIZE + 1) && (excl =? 0) then i else -1) s.
Proof.
  intros I Hr Hk Hkey Hperm Hexcl. pose proof (si_tab _ _ _ I) as T.
  destruct (to_region _ _ T i r Hr) as [(Hf & _)|U]; [congruence|].
  destruct (wp_run _ _ _ (shmget_run key_ size_ (Z.lor perm (Z.lor IPC_CREAT excl)) fl pr s
    (si_phys _ _ _ I) (si_lock _ _ _ I) (si_proc _ _ _ I))) as (ret & s' & -> & H).
  revert H. unfold shmget_plan.
  replace (split_flag key_ _) with (Some (perm, Z.lor IPC_CREAT excl))
    by (by destruct Hperm as [-> | ->], Hexcl as [-> | ->]).
  destruct (Z.leb_spec size_ 0) as [|Hsz]; cbn [orb].
  { intros [-> ->]. destruct (Z.ltb_spec 0 size_); [lia|]. done. }
  destruct (Z.ltb_spec 0 size_); [|lia]. cbn [andb].
  destruct (Z.ltb_spec SHAREDREGIONS (size_ / PGSIZE + 1)).
  { intros [-> ->]. destruct (Z.eqb_spec (size r) (size_ / PGSIZE + 1)); [|done].
    pose proof (ru_size _ _ U). lia. }
  destruct (find_idx (fun r => key r =? key_) 0 (shmTable s)) as [j|] eqn:Hf.
  2:{ pose proof (find_idx_0_None _ _ _ _ Hf Hr) as H'. cbn beta in H'. by rewrite Hk, Z.eqb_refl in H'. }
  apply find_idx_0 in Hf as (rj & Hrj & Hkj%Z.eqb_eq & _).
  assert (j = i) as -> by (eapply (to_keys _ _ T j i); [done..|congruence|congruence]).
  rewrite Hr. intros [-> ->]. f_equal. unfold existing_region. rewrite (ru_shmid _ _ U).
  destruct (size r =? size_ / PGSIZE + 1); [|done]. cbn [negb andb].
  destruct Hexcl as [-> | ->]; [|done]. by destruct (ru_mode _ _ U) as [-> | ->].
Qed.

End get.

(** ** Witnesses *)

#[local] Existing Instances demo_image demo_image_ok.

(** A process with an empty page directory and no segments, alone on the
    concrete machine, with an empty table. *)
Definition demo_tf : trapframe := mkTf 0 0 0 0 0 0 0 0 0 0 0 0 0 0 0 0 0 0 0.
Definition demo_proc : proc :=
  mkProc 0 demo_dir 0 RUNNING 7 None demo_tf 0 ChNone 0 [] 0 []
    (replicate (Z.to_nat SHAREDREGIONS) (mkPages NOKEY 0 (-1) 0 0)).
Definition demo_kernel : kernel unit :=
  mkKernel demo_phys [demo_proc] false 8 0 0
    (replicate (Z.to_nat SHAREDREGIONS) region0) false tt.

Lemma demo_kernel_inv : shm_inv demo_pages demo_proc demo_kernel.
Proof.
  apply shm_inv_fresh.
  - apply demo_phys_ok.
  - apply demo_dir_ok.
  - reflexivity.
  - reflexivity.
  - reflexivity.
  - reflexivity.
  - intros i g [-> _]%lookup_replicate. done.
  - intros va _. change (present (pte_view (mem demo_phys) demo_dir va) = false).
    by rewrite demo_view.
Qed.

Lemma demo_kernel_region i r : zidx (shmTable demo_kernel) i = Some r -> r = region0.
Proof. intros [_ [-> _]%lookup_replicate]%zidx_Some. done. Qed.

Lemma shmget_safe_witness :
  wp (shmget 42 4096 (Z.lor RW_SHM IPC_CREAT)) (fun ret s' => exists fl',
    shm_state fl' demo_proc s' /\ get_outcome demo_pages demo_kernel 42 4096 ret fl' s' /\
    (counted demo_proc demo_kernel -> counted demo_proc s')) demo_kernel.
Proof. apply (shmget_safe 42 4096 (Z.lor RW_SHM IPC_CREAT) demo_pages). apply demo_kernel_inv. Defined.

Lemma shmget_creates_witness :
  wp (shmget 42 5000 (Z.lor RW_SHM (Z.lor IPC_CREAT 0))) (fun index s' => exists r,
    zidx (shmTable s') index = Some r /\ key r = 42 /\
    region_pages r = [0x80200000; 0x80201000]) demo_kernel.
Proof.
  eapply wpx_mono.
  - apply (shmget_creates 42 5000 RW_SHM 0 demo_pages demo_proc demo_kernel 0 region0).
    + apply demo_kernel_inv.
    + discriminate.
    + intros j r ->%demo_kernel_region. discriminate.
    + by right.
    + by left.
    + reflexivity.
    + discriminate.
    + reflexivity.
    + reflexivity.
    + discriminate.
  - intros index s' (r & _ & Hr & Hk & _ & _ & _ & _ & _ & _ & Hp & _). exists r.
    split_and!; [done..|]. rewrite Hp. reflexivity.
  - done.
Defined.

(** The machine after [shmget(42, 5000, RW_SHM | IPC_CREAT)]. *)
Definition demo_after_get : kernel unit :=
  after (shmget 42 5000 (Z.lor RW_SHM IPC_CREAT)) demo_kernel.

Lemma demo_after_get_inv : exists fl, shm_inv fl demo_proc demo_after_get.
Proof.
  pose proof demo_kernel_inv as [I Hc].
  destruct (wp_after _ _ _ (shmget_full 42 5000 (Z.lor RW_SHM IPC_CREAT) demo_pages demo_proc _ I)) as (ret & fl & Hi & _ & Hc').
  exists fl. split; [exact Hi|exact (Hc' Hc)].
Qed.

Lemma shmget_finds_witness :
  shmget 42 5000 (Z.lor RW_SHM (Z.lor IPC_CREAT 0)) demo_after_get = Ret 0 demo_after_get.
Proof.
  destruct demo_after_get_inv as [fl I].
  assert (exists r, zidx (shmTable demo_after_get) 0 = Some r /\ key r = 42 /\ size r = 2)
    as (r & Hr & Hk & Hs).
  { eexists. vm_compute. split_and!; reflexivity. }
  rewrite (shmget_finds 42 5000 RW_SHM 0 fl demo_proc demo_after_get 0 r I Hr Hk ltac:(discriminate)).
  - by rewrite Hs.
  - by right.
  - by left.
Defined.
