(* ===== verification/ShmAttach.v ===== *)
(** * shmat, shmdt and shmctl

    [shmdt] undoes [shmat]; [shmctl] with IPC_RMID gives the pages of an
    unattached region back.  The theorems follow the invariant of Shm.v
    through the calls and describe the page table they leave behind. *)

From S2P Require Import Prelude.
From S2P Require Import CString.
From S2P Require Import Mmu.
From S2P Require Import Kalloc.
From S2P Require Import Vm.
From S2P Require Import Demo.
From S2P Require Import Uvm.
From S2P Require Import Kernel.
From S2P Require Import Shm.
From S2P Require Import ShmGet.

Open Scope Z_scope.

(** ** Counting segments *)

Definition seg_of (j : Z) (g : sharedPages) : bool := seg_used g && (pshmid g =? j).

Lemma count_segs_zupd j l i g g' :
  zidx l i = Some g ->
  count_segs j (zupd l i g') = count_segs j l - Z.b2z (seg_of j g) + Z.b2z (seg_of j g').
Proof.
  intros [Hi Hg]%zidx_Some. pose proof (lookup_lt_Some _ _ _ Hg) as Hlt. unfold zupd, count_segs.
  rewrite insert_take_drop by done. rewrite <- (take_drop_middle _ _ _ Hg) at 3.
  rewrite !filter_app, !filter_cons, !length_app. fold (seg_of j g) (seg_of j g').
  repeat case_decide; destruct (seg_of j g), (seg_of j g'); simpl in *; try done; lia.
Qed.

Lemma count_segs_nonneg j l : 0 <= count_segs j l.
Proof. unfold count_segs. lia. Qed.

(** ** Replacing a segment *)

Lemma zidx_lookup {A} (l : list A) (i : nat) x : l !! i = Some x <-> zidx l (Z.of_nat i) = Some x.
Proof. rewrite zidx_Some, Nat2Z.id. split; [|tauto]. split; [lia|done]. Qed.

Lemma zidx_zupd_ne {A} (l : list A) i j x : i <> j -> 0 <= i -> zidx (zupd l i x) j = zidx l j.
Proof.
  intros Hne Hi. unfold zidx, zupd. destruct (Z.ltb_spec j 0); [done|].
  rewrite list_lookup_insert_ne by lia. done.
Qed.

Lemma lookup_zupd {A} (l : list A) i x y n :
  zidx l i = Some x ->
  zupd l i y !! n = if decide (n = Z.to_nat i) then Some y else l !! n.
Proof.
  intros Hi. pose proof (zidx_range _ _ _ Hi). unfold zupd. case_decide as Hn.
  - subst. apply list_lookup_insert_eq. lia.
  - by rewrite list_lookup_insert_ne.
Qed.

Lemma segs_ok_clear l i g g' :
  segs_ok l -> zidx l i = Some g -> seg_used g' = false -> segs_ok (zupd l i g').
Proof.
  intros S Hg Hu. split.
  - rewrite length_zupd. apply S.
  - intros n h Hn Hh. rewrite (lookup_zupd _ _ _ _ _ Hg) in Hn. case_decide; simplify_eq; [congruence|].
    by eapply so_seg.
  - intros n m h k Hn Hm Hne Hh Hk. rewrite (lookup_zupd _ _ _ _ _ Hg) in Hn; rewrite (lookup_zupd _ _ _ _ _ Hg) in Hm.
    repeat case_decide; simplify_eq; try congruence. by eapply (so_disj l S n m).
Qed.

Lemma segs_ok_add l i g g' :
  segs_ok l -> zidx l i = Some g ->
  virtualAddr g' mod PGSIZE = 0 -> HEAPLIMIT <= virtualAddr g' -> 0 < psize g' -> seg_end g' < KERNBASE ->
  fits (virtualAddr g') (psize g' * PGSIZE) l -> segs_ok (zupd l i g').
Proof.
  intros S Hg H1 H2 H3 H4 Hfit.
  assert (Hd : forall n h, l !! n = Some h -> seg_used h = true ->
    seg_end g' <= virtualAddr h \/ seg_end h <= virtualAddr g').
  { intros n h Hh Hu. specialize (Hfit n h Hh). unfold overlaps in Hfit. fold (seg_end g') in Hfit.
    destruct (Z.lt_ge_cases (virtualAddr h) (seg_end g')); [|by left].
    destruct (Z.lt_ge_cases (virtualAddr g') (seg_end h)); [|by right]. by destruct Hfit. }
  split.
  - rewrite length_zupd. apply S.
  - intros n h Hn Hh. rewrite (lookup_zupd _ _ _ _ _ Hg) in Hn. case_decide; simplify_eq; [done|].
    by eapply so_seg.
  - intros n m h k Hn Hm Hne Hh Hk. rewrite (lookup_zupd _ _ _ _ _ Hg) in Hn; rewrite (lookup_zupd _ _ _ _ _ Hg) in Hm.
    repeat case_decide; simplify_eq.
    + destruct (Hd n h Hn Hh); auto.
    + by eapply Hd.
    + by eapply (so_disj l S n m).
Qed.

(** ** Unmapping a segment *)

Section detach.
Context {K : KernelImage} {KI : KernelImageOk K}.

Lemma view_present_dir m pgdir va :
  present (pte_view m pgdir va) = true -> present (pde_at m pgdir (PDX va)) = true.
Proof. unfold pte_view. destruct (present (pde_at _ _ _)); [done|]. by rewrite present_0. Qed.

Lemma shmdt_unmap_spec pgdir va : forall n i fl ph,
  phys_ok fl ph -> pgdir_ok (mem ph) pgdir fl -> 0 <= va -> va mod 4096 = 0 -> 0 <= i ->
  va + (i + Z.of_nat n) * 4096 <= 4294967296 ->
  (forall k, i <= k < i + Z.of_nat n -> present (pte_view (mem ph) pgdir (va + k * 4096)) = true) ->
  wp (shmdt_unmap pgdir va i n) (fun ok ph' =>
    ok = true /\ vm_step pgdir fl ph fl ph' /\
    forall vb, is_u32 vb -> pte_view (mem ph') pgdir vb =
      if (va + i * 4096 <=? vb) && (vb <? va + (i + Z.of_nat n) * 4096) then 0
      else pte_view (mem ph) pgdir vb) ph.
Proof.
  induction n as [|n IH]; intros i fl ph Hok Hd Hva Hal Hi Hhi Hp; cbn [shmdt_unmap].
  - wp_steps. split_and!; [done|by apply vm_step_refl|].
    intros vb Hvb. zcases; done.
  - set (a := u32 (va + i * PGSIZE)).
    assert (Ha : a = va + i * 4096) by (unfold a; apply u32_small; alia).
    assert (Hpa := Hp i ltac:(lia)). rewrite <- Ha in Hpa.
    assert (Hua : is_u32 a) by alia. apply view_present_dir in Hpa as Hpde.
    wp_step. unfold wpx at 1. rewrite walkpgdir_look, Hpde. cbn beta iota.
    set (pte := pgtab_at _ _ _ + _). destruct (tab_ok _ _ _ Hd (PDX a) (PDX_range a) Hpde) as [Hpg _].
    assert ((pte =? 0) = false) as ->.
    { apply Z.eqb_neq. apply is_page_range in Hpg. pose proof (PTX_range a). unfold pte. alia. }
    wp_steps. destruct (vm_step_store pgdir fl ph a 0 Hok Hd Hua ltac:(alia) Hpde) as [St Hv].
    eapply wpx_mono; [apply (IH (i + 1) fl)| |done].
    + apply St.
    + apply St.
    + done.
    + done.
    + lia.
    + lia.
    + intros k Hk. unfold pte. rewrite Hv by alia. rewrite (proj2 (Z.eqb_neq _ _)) by alia.
      apply Hp. lia.
    + cbn beta. intros ok ph' (-> & St' & Hv'). split_and!; [done|by eapply vm_step_trans|].
      intros vb Hvb. rewrite Hv' by done. unfold pte. rewrite Hv by done. rewrite Ha.
      destruct (Z.eqb_spec (vb / 4096) ((va + i * 4096) / 4096)).
      * zcases; try done; exfalso; alia.
      * zcases; try done; exfalso; alia.
Qed.

Context {F : Type}.
Implicit Types s : kernel F.

(** ** Removing a region *)

Definition zero_addrs (i : Z) (n : nat) (r : shmRegion) : shmRegion :=
  mkRegion (key r) (size r) (shmid r) (toBeDeleted r)
    (list_inserts (Z.to_nat i) (replicate n 0) (physicalAddr r)) (buffer r).

Lemma free_region_pages_spec index : forall n i fl s r,
  let ps := P2V <$> take n (drop (Z.to_nat i) (physicalAddr r)) in
  phys_ok fl (kphys s) -> zidx (shmTable s) index = Some r -> 0 <= i ->
  i + Z.of_nat n <= Z.of_nat (length (physicalAddr r)) ->
  Forall is_page ps -> NoDup (ps ++ fl) ->
  wp (free_region_pages index i n) (fun _ s' => exists ph,
    phys_ok (rev ps ++ fl) ph /\
    s' = set_kphys ph (set_shmTable (zupd (shmTable s) index (zero_addrs i n r)) s) /\
    (forall q, is_page q -> q ∉ ps -> same_bytes (mem (kphys s)) (mem ph) q) /\ use_lock ph = use_lock (kphys s)) s.
Proof.
  induction n as [|n IH]; intros i fl s r ps Hok Hr Hi Hlen Hpg Hnd; cbn [free_region_pages].
  - wp_steps. exists (kphys s). split_and!; [done| |by intros|done].
    unfold zero_addrs. simpl. pose proof Hr as [? Hr']%zidx_Some. unfold zupd.
    rewrite list_insert_id by (by destruct r). by destruct s.
  - destruct (zidx_lt (physicalAddr r) i ltac:(lia)) as [pa Hpa].
    pose proof Hpa as [_ Hpa']%zidx_Some.
    assert (Hps : ps = P2V pa :: (P2V <$> take n (drop (S (Z.to_nat i)) (physicalAddr r)))).
    { unfold ps. by rewrite (drop_S _ pa) by done. }
    rewrite Hps in Hpg, Hnd. apply Forall_cons in Hpg as [Hp Hpg].
    apply NoDup_cons in Hnd as [Hnp Hnd].
    wp_step. eapply wpx_get_region; [done|]. wp_step. eapply wpx_phys_addr; [done|]. wp_steps.
    wp_use kfree_spec; [done|done|set_solver|]. intros [] ph1 (Hok1 & Hul & Hf). wp_steps.
    eapply wpx_upd_region; [done|].
    assert (Hds : drop (Z.to_nat (i + 1)) (zupd (physicalAddr r) i 0) =
      drop (S (Z.to_nat i)) (physicalAddr r)).
    { unfold zupd. rewrite drop_insert_lt by lia. f_equal. lia. }
    eapply wpx_mono; [apply (IH (i + 1) (P2V pa :: fl) _ (set_phys_addr i 0 r))| |done].
    + done.
    + simpl. rewrite zidx_zupd by (apply zidx_range in Hr; lia). by rewrite Z.eqb_refl.
    + lia.
    + simpl. rewrite length_zupd. lia.
    + simpl. by rewrite Hds.
    + simpl. rewrite Hds. rewrite <- Permutation_middle. by apply NoDup_cons.
    + cbn beta. simpl. rewrite Hds. intros [] s' (ph & Hok2 & -> & Hsame & Hul2).
      exists ph. split_and!.
      * rewrite Hps. simpl. by rewrite <- app_assoc.
      * unfold zupd, zero_addrs, set_kphys, set_shmTable, set_phys_addr, zupd; simpl. rewrite list_insert_insert_eq.
        replace (Z.to_nat (i + 1)) with (1 + Z.to_nat i)%nat by lia.
        do 3 f_equal. exact (eq_sym (list_inserts_app_l [0] (replicate n 0) (physicalAddr r) _)).
      * rewrite Hps. intros q Hq [Hqp Hqps]%not_elem_of_cons.
        eapply same_bytes_trans; [|by apply Hsame]. intros b Hb. apply Hf.
        destruct (is_page_disjoint (P2V pa) q Hp Hq ltac:(done)); lia.
      * by rewrite Hul2, <- Hul.
Qed.

Lemma table_region_pages fl tab i r :
  table_ok fl tab -> zidx tab i = Some r ->
  Forall is_page (region_pages r) /\ NoDup (region_pages r ++ fl) /\
  forall q, q ∈ region_pages r -> q ∈ shm_pages tab.
Proof.
  intros T Hr. pose proof (shm_pages_split tab i r Hr) as Hp. split_and!.
  - pose proof (to_pages _ _ T) as H. rewrite Hp in H. by apply Forall_app in H as [? _].
  - pose proof (to_owned _ _ T) as H. rewrite Hp in H.
    rewrite (Permutation_app_comm (region_pages r)), <- (assoc_L (++)) in H.
    by apply NoDup_app in H as (_ & _ & ?).
  - intros q Hq. rewrite Hp. set_solver.
Qed.

(** Removing a region gives its pages back to the allocator and leaves its place
    in the table free. *)
Lemma remove_region_run fl s index r :
  phys_ok fl (kphys s) -> table_ok fl (shmTable s) -> zidx (shmTable s) index = Some r ->
  wp (remove_region index) (fun _ s' => exists ph r',
    s' = set_kphys ph (set_shmTable (zupd (shmTable s) index r') s) /\ region_free r' /\
    phys_ok (rev (region_pages r) ++ fl) ph /\ table_ok (rev (region_pages r) ++ fl) (zupd (shmTable s) index r') /\
    (forall q, is_page q -> q ∉ region_pages r -> same_bytes (mem (kphys s)) (mem ph) q) /\ use_lock ph = use_lock (kphys s)) s.
Proof.
  intros P T Hr. destruct (table_region_pages _ _ _ _ T Hr) as (Hpg & Hnd & Hsub).
  destruct (to_addr _ _ T _ _ Hr) as [Hl Hu32]. pose proof (zidx_range _ _ _ Hr) as Hix.
  assert (Hsz : 0 <= size r <= SHAREDREGIONS).
  { destruct (to_region _ _ T _ _ Hr) as [(_ & -> & _)|U]; [done|]. pose proof (ru_size _ _ U). lia. }
  unfold remove_region. wp_step. eapply wpx_get_region; [done|]. wp_step.
  eapply wpx_mono; [apply (free_region_pages_spec index _ 0 fl s r); try done; lia| |done].
  cbn beta. intros [] s1 (ph & Hok & -> & Hsame & Hul). change (drop _ (physicalAddr r)) with (physicalAddr r) in *.
  fold (region_pages r) in *. set (r1 := zero_addrs 0 (Z.to_nat (size r)) r).
  eapply wpx_upd_region; [simpl; rewrite zidx_zupd by lia; by rewrite Z.eqb_refl|].
  exists ph, (reset_region r1). split_and!; [|done|done| |done|done].
  { unfold set_kphys, set_shmTable, zupd; simpl. by rewrite list_insert_insert_eq. }
  eapply (table_ok_zupd fl); [apply T|done| | |by left|done|constructor|].
  - simpl. by rewrite length_inserts.
  - simpl. apply Forall_inserts; [done|]. by apply Forall_replicate.
  - simpl. by rewrite <- Permutation_rev.
Qed.

(** ... and keeps the invariant of a process that has not attached it. *)
Lemma remove_region_spec fl pr s index r :
  shm_state fl pr (set_shm_lock false s) -> zidx (shmTable s) index = Some r ->
  region_used index r -> count_segs index (pages pr) = 0 ->
  wp (remove_region index) (fun _ s' => exists ph r',
    s' = set_kphys ph (set_shmTable (zupd (shmTable s) index r') s) /\ region_free r' /\
    shm_state (rev (region_pages r) ++ fl) pr (set_shm_lock false s') /\
    (forall q, is_page q -> q ∉ region_pages r -> same_bytes (mem (kphys s)) (mem ph) q)) s.
Proof.
  intros I Hr U Hc. pose proof (si_tab _ _ _ I) as T.
  destruct (table_region_pages _ _ _ _ T Hr) as (_ & _ & Hsub). pose proof (zidx_range _ _ _ Hr) as Hix.
  eapply wpx_mono; [apply (remove_region_run fl s index r); [apply I|apply T|done]| |done].
  cbn beta. intros [] s1 (ph & r' & -> & Hf & Hok & T' & Hsame & _). exists ph, r'. split_and!; [done..| |done].
  apply (shm_state_change fl _ pr (set_shm_lock false s)); simpl; try done.
  - intros q Hq Hpt. rewrite elem_of_app, list_elem_of_In, <- in_rev, <- list_elem_of_In in Hq.
    destruct Hq as [Hq|Hq].
    + eapply (si_apart _ _ _ I); [by apply Hsub|done].
    + by apply (pt_page_is_page _ _ _ _ (si_dir _ _ _ I)) in Hpt as [_ ?].
  - intros q Hpt. apply Hsame.
    + by apply (pt_page_is_page _ _ _ _ (si_dir _ _ _ I)) in Hpt as [? _].
    + intros Hq. eapply (si_apart _ _ _ I); [by apply Hsub|done].
  - intros q. rewrite (shm_pages_zupd _ _ r) by done. rewrite (shm_pages_split (shmTable s) index r) by done.
    rewrite (region_pages_free r') by apply Hf. rewrite !elem_of_app. intros [Hq|Hq]; [by apply elem_of_nil in Hq|tauto].
  - intros j rj Hj Uj Hcj. assert (j <> index) by (intros ->; lia). exists rj.
    rewrite zidx_zupd by (apply zidx_range in Hj; simpl in Hj; lia).
    by rewrite (proj2 (Z.eqb_neq j index)).
Qed.

(** ** shmdt *)

(** The process after its segment in slot [i] was cleared. *)
Definition drop_seg (i : Z) (g : sharedPages) (pr : proc) : proc :=
  set_pages (zupd (pages pr) i (clear_pages g)) pr.

Lemma vm_step_pt pgdir fl ph ph' q :
  vm_step pgdir fl ph fl ph' -> pt_page (mem ph') pgdir q <-> pt_page (mem ph) pgdir q.
Proof. intros S. split; [|apply S]. intros [?|[? ?]]%(vs_pt _ _ _ _ _ S); done. Qed.

(** A segment's pages are mapped. *)
Lemma seg_present fl pr s i g r k :
  shm_state fl pr s -> zidx (pages pr) i = Some g -> seg_used g = true -> 0 <= k < psize g ->
  zidx (shmTable s) (pshmid g) = Some r ->
  present (pte_view (mem (kphys s)) (pgdir pr) (virtualAddr g + k * PGSIZE)) = true.
Proof.
  intros I [_ Hg]%zidx_Some Hu Hk Hr.
  destruct (si_region _ _ _ I _ _ Hg Hu) as (r' & Hr' & U & _ & Hs). simplify_eq.
  destruct (to_addr _ _ (si_tab _ _ _ I) _ _ Hr) as [Hl _]. pose proof (ru_size _ _ U).
  destruct (zidx_lt (physicalAddr r) k ltac:(lia)) as [pa Hpa].
  rewrite (si_map _ _ _ I _ _ _ _ _ Hg Hu Hr Hk Hpa). apply mk_pte_present.
Qed.

Definition less_attach (r : shmRegion) : shmRegion :=
  set_buffer (fun b => set_nattch (shm_nattch b - 1) b) r.

(** Two versions of a region with the same key and the same pages. *)
Definition same_region (r r' : shmRegion) : Prop :=
  key r' = key r /\ size r' = size r /\ physicalAddr r' = physicalAddr r.

Lemma same_region_pages r r' : same_region r r' -> region_pages r' = region_pages r.
Proof. intros (_ & Hs & Hp). unfold region_pages. by rewrite Hs, Hp. Qed.

Lemma table_ok_meta fl tab i r r' :
  table_ok fl tab -> zidx tab i = Some r -> same_region r r' ->
  (region_free r' \/ region_used i r') -> table_ok fl (zupd tab i r').
Proof.
  intros T Hr Hsame Hc. destruct (to_addr _ _ T _ _ Hr) as [Hl Hu].
  destruct (table_region_pages _ _ _ _ T Hr) as (Hpg & _). pose proof Hsame as (Hk & Hs & Hp).
  eapply table_ok_zupd; try done.
  - by rewrite Hp.
  - by rewrite Hp.
  - intros j rj Hj Hne He. rewrite Hk in *. destruct (decide (key r = NOKEY)); [done|].
    destruct Hne. eapply (to_keys _ _ T); try done. congruence.
  - by rewrite (same_region_pages r).
  - by rewrite (same_region_pages r).
Qed.

Lemma shm_pages_meta tab i r r' :
  zidx tab i = Some r -> same_region r r' -> shm_pages (zupd tab i r') ≡ₚ shm_pages tab.
Proof. intros Hr Hs. apply (shm_pages_same tab i r); [done|]. by apply same_region_pages. Qed.

Lemma seg_of_clear j g : seg_of j (clear_pages g) = false.
Proof. done. Qed.

(** A change of a region that keeps its pages. *)
Lemma shm_state_meta fl pr s j r r' :
  shm_state fl pr s -> zidx (shmTable s) j = Some r -> same_region r r' ->
  (region_free r -> region_free r') -> (region_used j r -> region_used j r') ->
  shm_state fl pr (set_shmTable (zupd (shmTable s) j r') s).
Proof.
  intros I Hr Hsame Hf Hu. pose proof (zidx_range _ _ _ Hr) as Hj.
  apply (shm_state_change fl fl pr s); simpl; try done; try by apply I.
  - eapply table_ok_meta; [by apply I|done..|].
    destruct (to_region _ _ (si_tab _ _ _ I) j r Hr); auto.
  - intros q Hq Hpt. by apply (pt_page_is_page _ _ _ _ (si_dir _ _ _ I)) in Hpt as [_ ?].
  - intros q. rewrite (shm_pages_meta _ _ r) by done. by left.
  - intros i ri Hri U Hc. destruct (Z.eqb_spec i j) as [->|Hne].
    + simplify_eq. exists r'. rewrite zidx_zupd, Z.eqb_refl by lia. destruct Hsame as (?&?&?). auto.
    + exists ri. rewrite zidx_zupd by (apply zidx_range in Hri; lia).
      by rewrite (proj2 (Z.eqb_neq _ _)).
Qed.

(** The slot of a segment is the one [shmdt] finds. *)
Lemma find_segment l i g :
  segs_ok l -> zidx l i = Some g -> seg_used g = true ->
  find_idx (fun h => negb (pkey h =? NOKEY) && (virtualAddr h =? virtualAddr g)) 0 l = Some i.
Proof.
  intros S Hg Hu. destruct (find_idx _ 0 l) as [j|] eqn:Hf.
  - apply find_idx_0 in Hf as (h & Hh & Hb & _). fold (seg_used h) in Hb.
    apply andb_true_iff in Hb as [Hu' He%Z.eqb_eq]. f_equal.
    destruct (Z.eq_dec j i) as [|Hne]; [done|].
    apply zidx_Some in Hg as [? Hg], Hh as [? Hh].
    destruct (so_seg _ S _ _ Hg Hu) as (_ & _ & ? & _), (so_seg _ S _ _ Hh Hu') as (_ & _ & ? & _).
    destruct (so_disj _ S _ _ _ _ Hg Hh ltac:(lia) Hu Hu'); unfold seg_end in *; alia.
  - pose proof (find_idx_0_None _ _ _ _ Hf Hg) as Hx. cbn beta in Hx. fold (seg_used g) in Hx.
    by rewrite Hu, Z.eqb_refl in Hx.
Qed.

(** The other regions stay. *)
Definition others_kept (i : Z) (s s' : kernel F) : Prop :=
  forall k, k <> i -> zidx (shmTable s') k = zidx (shmTable s) k.

Lemma set_lock_swap s b tab : set_shm_lock b (set_shmTable tab s) = set_shmTable tab (set_shm_lock b s).
Proof. done. Qed.

(** The segments of the current process: their places do not overlap, their
    pages are mapped, their identifiers are of the table.  Nothing is said about
    the attach counts, nor that the regions are still in use: after a fork the
    counts are too low, and a region can be gone while it is attached. *)
Record segs_inv (fl : list Z) (pr : proc) (s : kernel F) : Prop := {
  sv_phys : phys_ok fl (kphys s);
  sv_tab : table_ok fl (shmTable s);
  sv_proc : ptable s !! curproc s = Some pr;
  sv_dir : pgdir_ok (mem (kphys s)) (pgdir pr) fl;
  sv_apart : forall q, q ∈ shm_pages (shmTable s) -> ~ pt_page (mem (kphys s)) (pgdir pr) q;
  sv_segs : segs_ok (pages pr);
  sv_region : forall i g, pages pr !! i = Some g -> seg_used g = true -> is_Some (zidx (shmTable s) (pshmid g));
  sv_map : forall i g k, pages pr !! i = Some g -> seg_used g = true -> 0 <= k < psize g ->
    present (pte_view (mem (kphys s)) (pgdir pr) (virtualAddr g + k * PGSIZE)) = true;
  sv_lock : shm_lock s = false;
}.

Lemma shm_state_segs fl pr s : shm_state fl pr s -> segs_inv fl pr s.
Proof.
  intros I. split; try apply I.
  - intros i g Hg Hu. destruct (si_region _ _ _ I i g Hg Hu) as (r & Hr & _). by exists r.
  - intros i g k Hg Hu Hk. destruct (si_region _ _ _ I i g Hg Hu) as (r & Hr & _).
    apply (seg_present fl pr s (Z.of_nat i) g r k I); try done. apply zidx_Some. rewrite Nat2Z.id. split; [lia|done].
Qed.

(** The region after one attachment is gone, and whether that was the last one
    of a region marked for removal. *)
Definition left_by (r : shmRegion) : shmRegion := if 0 <? shm_nattch (buffer r) then less_attach r else r.
Definition last_detach (r : shmRegion) : bool := (shm_nattch (buffer (left_by r)) =? 0) && (toBeDeleted r =? 1).

(** [tab'] is [tab] with region [k] replaced. *)
Definition table_with (tab : list shmRegion) (k : Z) (r : shmRegion) (tab' : list shmRegion) : Prop :=
  forall n, zidx tab' n = if n =? k then Some r else zidx tab n.

(** What [shmdt] does to the segment [g] in slot [i], of region [r].  The region
    that the last detach removes is the one whose number is that of the slot. *)
Record shmdt_effect (fl : list Z) (pr : proc) (s : kernel F) (i : Z) (g : sharedPages) (r : shmRegion) (fl' : list Z) (s' : kernel F) : Prop := {
  de_inv : segs_inv fl' (drop_seg i g pr) s';
  de_procs : ptable s' = <[curproc s := drop_seg i g pr]> (ptable s);
  de_rest : s' = set_shmTable (shmTable s') (set_ptable (ptable s') (set_kphys (kphys s') s));
  de_view : forall vb, is_u32 vb -> pte_view (mem (kphys s')) (pgdir pr) vb =
    if (virtualAddr g <=? vb) && (vb <? seg_end g) then 0 else pte_view (mem (kphys s)) (pgdir pr) vb;
  de_table : let touch := set_buffer (set_lpid (pid pr)) in
    if last_detach r then exists ri rf tab1, zidx (shmTable s) i = Some ri /\ region_free rf /\ fl' = rev (region_pages ri) ++ fl /\
      table_with (shmTable s) i rf tab1 /\ table_with tab1 (pshmid g) (touch (if i =? pshmid g then rf else left_by r)) (shmTable s')
    else fl' = fl /\ table_with (shmTable s) (pshmid g) (touch (left_by r)) (shmTable s');
  de_pt : forall q, pt_page (mem (kphys s')) (pgdir pr) q <-> pt_page (mem (kphys s)) (pgdir pr) q;
  de_data : forall q, is_page q -> ~ pt_page (mem (kphys s)) (pgdir pr) q -> q ∉ fl' -> same_bytes (mem (kphys s)) (mem (kphys s')) q;
  de_lock : use_lock (kphys s') = use_lock (kphys s);
}.

Lemma left_by_same r : same_region r (left_by r).
Proof. unfold left_by. by destruct (0 <? _). Qed.

Lemma left_by_ok k r : region_free r \/ region_used k r -> region_free (left_by r) \/ region_used k (left_by r).
Proof.
  unfold left_by. destruct (Z.ltb_spec 0 (shm_nattch (buffer r))) as [H|H]; [|done]. intros [(_ & _ & _ & _ & Hz)|[]]; [lia|].
  right. split; try done. simpl. lia.
Qed.

Lemma touch_ok pid k r : region_free r \/ region_used k r ->
  region_free (set_buffer (set_lpid pid) r) \/ region_used k (set_buffer (set_lpid pid) r).
Proof. intros [(?&?&?&?&?)|[]]; [by left|right; by split]. Qed.

Lemma table_with_zupd tab k r : 0 <= k < Z.of_nat (length tab) -> table_with tab k r (zupd tab k r).
Proof. intros Hk n. destruct (Z.eqb_spec n k) as [->|]; [by rewrite zidx_zupd, Z.eqb_refl by lia|rewrite zidx_zupd_ne; [done|lia..]]. Qed.


(** Clearing a slot keeps the invariant, whatever happens to the table. *)
Lemma segs_inv_drop fl pr s i g ph fl' ph' tab' :
  segs_inv fl pr s -> zidx (pages pr) i = Some g -> seg_used g = true ->
  vm_step (pgdir pr) fl (kphys s) fl ph ->
  (forall vb, is_u32 vb -> pte_view (mem ph) (pgdir pr) vb =
     if (virtualAddr g <=? vb) && (vb <? seg_end g) then 0 else pte_view (mem (kphys s)) (pgdir pr) vb) ->
  (forall q, pt_page (mem ph) (pgdir pr) q -> same_bytes (mem ph) (mem ph') q) ->
  (forall q, q ∈ fl' -> ~ pt_page (mem (kphys s)) (pgdir pr) q) ->
  phys_ok fl' ph' -> table_ok fl' tab' -> (forall q, q ∈ shm_pages tab' -> q ∈ shm_pages (shmTable s)) ->
  segs_inv fl' (drop_seg i g pr) (set_shmTable tab' (set_ptable (<[curproc s := drop_seg i g pr]> (ptable s)) (set_kphys ph' s))).
Proof.
  intros I Hg Hu St Hv Hsame Hfl P' T' Hpg. pose proof (sv_segs _ _ _ I) as Sg. pose proof Hg as [Hi Hg']%zidx_Some.
  assert (Hdir : same_bytes (mem ph) (mem ph') (pgdir pr)) by (apply Hsame; by left).
  assert (Hview : forall va, pte_view (mem ph') (pgdir pr) va = pte_view (mem ph) (pgdir pr) va) by (intros; by apply pte_view_ext).
  assert (Hkeep : forall n h, zupd (pages pr) i (clear_pages g) !! n = Some h -> seg_used h = true -> n <> Z.to_nat i /\ pages pr !! n = Some h).
  { intros n h Hn Hh. rewrite (lookup_zupd _ _ _ _ _ Hg) in Hn. case_decide; [by simplify_eq|done]. }
  split; simpl; try done; try by apply I.
  - apply list_lookup_insert_eq. by eapply lookup_lt_Some, I.
  - eapply (kept_dir (mem ph)); [apply St|done|]. intros q Hq Hpt. destruct (Hfl q Hq). by apply (vm_step_pt _ _ _ _ _ St).
  - intros q Hq. rewrite (pt_page_ext (mem ph)), (vm_step_pt _ _ _ _ _ St) by done. by apply I, Hpg.
  - by eapply segs_ok_clear.
  - intros n h Hn Hh. destruct (Hkeep n h Hn Hh) as [_ Hn']. destruct (sv_region _ _ _ I n h Hn' Hh) as [r Hr].
    apply zidx_range in Hr. destruct (zidx_lt tab' (pshmid h)) as [r' Hr']; [|by exists r'].
    by rewrite (to_len _ _ T'), <- (to_len _ _ (sv_tab _ _ _ I)).
  - intros n h k Hn Hh Hk. destruct (Hkeep n h Hn Hh) as [Hne Hn']. rewrite Hview.
    destruct (so_seg _ Sg _ _ Hn' Hh) as (? & ? & ? & ?).
    destruct (so_disj _ Sg _ _ _ _ Hn' Hg' Hne Hh Hu) as [Hd|Hd];
      (rewrite Hv by (unfold seg_end in *; alia)); unfold seg_end in *; consts; zcases; by eapply (sv_map _ _ _ I).
Qed.

(** The table in the second half of [shmdt]: the count, perhaps a removal, and
    the mark of who touched the region last. *)
Lemma shmdt_table fl s i j r pid_ :
  shm_lock s = true -> phys_ok fl (kphys s) -> table_ok fl (shmTable s) -> zidx (shmTable s) j = Some r -> 0 <= i < SHAREDREGIONS ->
  wp (let! r := get_region j in
      do! (if 0 <? shm_nattch (buffer r) then upd_region j (set_buffer (fun b => set_nattch (shm_nattch b - 1) b)) else ret tt) in
      let! r := get_region j in
      do! (if (shm_nattch (buffer r) =? 0) && (toBeDeleted r =? 1) then remove_region i else ret tt) in
      do! upd_region j (set_buffer (set_lpid pid_)) in
      shm_return 0)
    (fun ret s' => ret = 0 /\ exists fl' ph tab',
       s' = set_shm_lock false (set_shmTable tab' (set_kphys ph s)) /\ phys_ok fl' ph /\ table_ok fl' tab' /\
       (let touch := set_buffer (set_lpid pid_) in
        if last_detach r then exists ri rf tab1, zidx (shmTable s) i = Some ri /\ region_free rf /\ fl' = rev (region_pages ri) ++ fl /\
          table_with (shmTable s) i rf tab1 /\ table_with tab1 j (touch (if i =? j then rf else left_by r)) tab'
        else fl' = fl /\ table_with (shmTable s) j (touch (left_by r)) tab') /\
       (forall q, q ∈ shm_pages tab' -> q ∈ shm_pages (shmTable s)) /\
       (forall q, q ∈ fl' -> q ∈ fl \/ q ∈ shm_pages (shmTable s)) /\
       (forall q, is_page q -> (q ∈ fl' -> q ∈ fl) -> same_bytes (mem (kphys s)) (mem ph) q) /\ use_lock ph = use_lock (kphys s)) s.
Proof.
  intros Hlk P T Hr Hi. pose proof (zidx_range _ _ _ Hr) as Hj. pose proof (left_by_same r) as Hsame.
  set (tab1 := zupd (shmTable s) j (left_by r)).
  assert (T1 : table_ok fl tab1) by (eapply table_ok_meta; [done..|]; apply left_by_ok, (to_region _ _ T _ _ Hr)).
  assert (Hp1 : shm_pages tab1 ≡ₚ shm_pages (shmTable s)) by (by apply (shm_pages_meta _ _ r)).
  assert (Hat : zidx tab1 j = Some (left_by r)) by (unfold tab1; by rewrite zidx_zupd, Z.eqb_refl by lia).
  wp_step. eapply wpx_get_region; [done|]. wp_step.
  assert (Hdec : wp (if 0 <? shm_nattch (buffer r) then upd_region j (set_buffer (fun b => set_nattch (shm_nattch b - 1) b)) else ret tt)
    (fun _ s' => s' = set_shmTable tab1 s) s).
  { unfold tab1, left_by. destruct (0 <? _); [by eapply wpx_upd_region|]. wp_steps. destruct s. unfold set_shmTable. simpl. f_equal.
    symmetry. apply list_insert_id. by apply zidx_Some in Hr as [_ ?]. }
  eapply wpx_mono; [apply Hdec| |done]. intros [] s1 ->. wp_step. eapply wpx_get_region; [done|]. wp_step.
  assert (Hdel : toBeDeleted (left_by r) = toBeDeleted r) by (unfold left_by; by destruct (0 <? _)). rewrite Hdel. fold (last_detach r).
  assert (Hl1 : length tab1 = length (shmTable s)) by apply length_zupd. pose proof (to_len _ _ T) as Hlen.
  destruct (last_detach r).
  - destruct (zidx_lt tab1 i) as [ri Hri]; [rewrite Hl1, Hlen; consts; lia|].
    destruct (zidx_lt (shmTable s) i) as [ri0 Hri0]; [rewrite Hlen; consts; lia|].
    assert (Hrp : region_pages ri = region_pages ri0).
    { unfold tab1 in Hri. rewrite zidx_zupd in Hri by lia. destruct (Z.eqb_spec i j) as [->|]; simplify_eq; [by apply same_region_pages|done]. }
    eapply wpx_mono; [apply (remove_region_run fl (set_shmTable tab1 s) i ri P T1 Hri)| |done].
    cbn beta. rewrite Hrp. intros [] s2 (ph & rf & -> & Hf & P2 & T2 & Hs2 & Hul). simpl in T2, Hs2, Hul. set (tab2 := zupd tab1 i rf) in *.
    assert (Hl2 : length tab2 = length (shmTable s)) by (unfold tab2; by rewrite length_zupd).
    assert (Hat2 : zidx tab2 j = Some (if i =? j then rf else left_by r)).
    { unfold tab2. rewrite zidx_zupd by lia. rewrite (Z.eqb_sym j i). by destruct (i =? j). }
    wp_step. eapply wpx_upd_region; [exact Hat2|]. apply wpx_shm_return; [done|]. split; [done|].
    set (rj := if i =? j then rf else left_by r) in *. set (tab3 := zupd tab2 j (set_buffer (set_lpid pid_) rj)).
    destruct (table_region_pages _ _ _ _ T Hri0) as (_ & _ & Hsub).
    assert (Hp2 : forall q, q ∈ shm_pages tab3 -> q ∈ shm_pages (shmTable s)).
    { intros q. unfold tab3. rewrite (shm_pages_meta tab2 j rj) by done. unfold tab2. rewrite (shm_pages_zupd _ _ ri) by done.
      rewrite (region_pages_free rf) by apply Hf. rewrite <- Hp1, (shm_pages_split tab1 i ri) by done. set_solver. }
    exists (rev (region_pages ri0) ++ fl), ph, tab3. split_and!; try done.
    + eapply table_ok_meta; [done..|]. apply touch_ok, (to_region _ _ T2 _ _ Hat2).
    + exists ri0, rf, (zupd (shmTable s) i rf). split_and!; [done..|apply table_with_zupd; lia|]. intros n. unfold tab3, tab2, tab1.
      destruct (Z.eqb_spec n j) as [->|Hn]; [rewrite zidx_zupd, Z.eqb_refl by (rewrite ?length_zupd; lia); done|]. rewrite zidx_zupd_ne by lia.
      destruct (Z.eqb_spec n i) as [->|Hn2]; [rewrite !zidx_zupd, Z.eqb_refl by (rewrite ?length_zupd; lia); done|]. by rewrite !zidx_zupd_ne by lia.
    + intros q. rewrite elem_of_app, list_elem_of_In, <- in_rev, <- list_elem_of_In. intros [Hq|Hq]; [right; by apply Hsub|by left].
    + intros q Hq Hin. apply Hs2; [done|]. intros Hq2.
      assert (Hq3 : q ∈ rev (region_pages ri0)) by (by rewrite list_elem_of_In, <- in_rev, <- list_elem_of_In).
      destruct (table_region_pages _ _ _ _ T Hri0) as (_ & Hnd & _). apply NoDup_app in Hnd as (_ & Hnd & _).
      apply (Hnd q Hq2), Hin, elem_of_app. by left.
  - wp_steps. eapply wpx_upd_region; [done|]. apply wpx_shm_return; [done|]. split; [done|].
    exists fl, (kphys s), (zupd (shmTable s) j (set_buffer (set_lpid pid_) (left_by r))).
    assert (Hz : zupd tab1 j (set_buffer (set_lpid pid_) (left_by r)) = zupd (shmTable s) j (set_buffer (set_lpid pid_) (left_by r))) by apply list_insert_insert_eq.
    split_and!; try done.
    + unfold set_shm_lock, set_shmTable, set_kphys. simpl. by rewrite Hz.
    + eapply table_ok_meta; [done..|]. apply touch_ok, left_by_ok, (to_region _ _ T _ _ Hr).
    + by apply table_with_zupd.
    + intros q. by rewrite (shm_pages_meta _ _ r) by done.
    + by left.
Qed.

Lemma shmdt_run fl pr s i g r :
  segs_inv fl pr s -> zidx (pages pr) i = Some g -> seg_used g = true -> zidx (shmTable s) (pshmid g) = Some r ->
  wp (shmdt (virtualAddr g)) (fun ret s' => ret = 0 /\ exists fl', shmdt_effect fl pr s i g r fl' s') s.
Proof.
  intros I Hg Hu Hr. pose proof Hg as [Hi Hg']%zidx_Some. destruct (so_seg _ (sv_segs _ _ _ I) _ _ Hg' Hu) as (Hal & Hlo & Hsz & Hhi).
  assert (Hi2 : 0 <= i < SHAREDREGIONS) by (apply lookup_lt_Some in Hg'; rewrite (so_len _ (sv_segs _ _ _ I)) in Hg'; consts; lia).
  unfold shmdt. wp_step. apply wpx_shm_acquire; [apply I|]. wp_steps.
  eapply wpx_get_proc; [apply I|]. rewrite (find_segment _ i g); [|apply I|done..]. wp_step.
  eapply wpx_get_pages; [apply I|done|]. rewrite (proj2 (Z.eqb_neq (virtualAddr g) 0)) by alia. wp_steps.
  eapply wpx_mono; [apply (shmdt_unmap_spec (pgdir pr) (virtualAddr g) _ 0 fl)| |done].
  { apply I. } { apply I. } { alia. } { done. } { done. } { unfold seg_end in Hhi. alia. }
  { intros k Hk. apply (sv_map _ _ _ I _ g k Hg' Hu). lia. }
  cbn beta. intros ok ph (-> & St & Hv). cbn [negb]. simpl in St, Hv.
  assert (Hv' : forall vb, is_u32 vb -> pte_view (mem ph) (pgdir pr) vb =
     if (virtualAddr g <=? vb) && (vb <? seg_end g) then 0 else pte_view (mem (kphys s)) (pgdir pr) vb).
  { intros vb Hvb. rewrite Hv by done. unfold seg_end. rewrite Z.add_0_r, Z2Nat.id by lia. done. }
  wp_step. eapply wpx_upd_pages; [apply I|done|].
  eapply wpx_mono; [apply (shmdt_table fl _ i (pshmid g) r (pid pr)); simpl; [done|apply St|apply I|done..]| |done].
  cbn beta. simpl. intros ret s' (-> & fl' & ph' & tab' & -> & P' & T' & Htab & Hpg & Hfree & Hsame & Hul). split; [done|]. exists fl'.
  assert (Hnpt : forall q, q ∈ fl' -> ~ pt_page (mem (kphys s)) (pgdir pr) q).
  { intros q [Hq|Hq]%Hfree Hpt; [by apply (pt_page_is_page _ _ _ _ (sv_dir _ _ _ I)) in Hpt as [_ ?]|by apply (sv_apart _ _ _ I q)]. }
  assert (Hsame' : forall q, pt_page (mem ph) (pgdir pr) q -> same_bytes (mem ph) (mem ph') q).
  { intros q Hpt. apply (vm_step_pt _ _ _ _ _ St) in Hpt. apply Hsame; [by apply (pt_page_is_page _ _ _ _ (sv_dir _ _ _ I)) in Hpt as [? _]|].
    intros Hq. by destruct (Hnpt q Hq). }
  assert (Hdir : same_bytes (mem ph) (mem ph') (pgdir pr)) by (apply Hsame'; by left).
  split; simpl; try done.
  - pose proof (segs_inv_drop fl pr s i g ph fl' ph' tab' I Hg Hu St Hv' Hsame' Hnpt P' T' Hpg) as I'.
    unfold set_shmTable, set_ptable, set_kphys, set_shm_lock in *. simpl in *. by rewrite (sv_lock _ _ _ I) in I'.
  - unfold set_shmTable, set_ptable, set_kphys, set_shm_lock. simpl. by rewrite (sv_lock _ _ _ I).
  - intros vb Hvb. rewrite <- Hv' by done. by apply pte_view_ext.
  - intros q. by rewrite (pt_page_ext (mem ph)), (vm_step_pt _ _ _ _ _ St) by done.
  - intros q Hq Hpt Hfl'. assert (Hfl : q ∉ fl).
    { intros Hq2. apply Hfl'. destruct (last_detach r); [|by destruct Htab as [-> _]].
      destruct Htab as (ri & rf & tab1 & _ & _ & -> & _). apply elem_of_app. by right. }
    eapply same_bytes_trans; [by apply (vs_frame _ _ _ _ _ St q)|]. apply Hsame; [done|]. by intros ?.
  - by rewrite Hul, (vs_lock _ _ _ _ _ St).
Qed.


(** The process has no other segment of the region that has the number of the
    slot [i]. *)
Definition sole_seg (i : Z) (pr : proc) : Prop :=
  forall n h, n <> Z.to_nat i -> pages pr !! n = Some h -> seg_used h = true -> pshmid h <> i.

(** A region of the table after [shmdt], when it was in use and is not removed. *)
Lemma shmdt_region fl pr s i g r fl' s' k rk :
  shmdt_effect fl pr s i g r fl' s' -> zidx (shmTable s) (pshmid g) = Some r -> zidx (shmTable s) k = Some rk -> (last_detach r = true -> k <> i) ->
  exists rk', zidx (shmTable s') k = Some rk' /\ same_region rk rk' /\ (region_used k rk -> region_used k rk') /\
    shm_nattch (buffer rk') = shm_nattch (buffer (if k =? pshmid g then left_by rk else rk)).
Proof.
  intros E Hr Hk Hne. pose proof (de_table _ _ _ _ _ _ _ _ E) as Ht. cbv zeta in Ht.
  assert (Hcase : zidx (shmTable s') k = Some (if k =? pshmid g then set_buffer (set_lpid (pid pr)) (left_by r) else rk)).
  { destruct (last_detach r).
    - destruct Ht as (ri & rf & tab1 & _ & _ & _ & H1 & H2). specialize (Hne eq_refl). rewrite H2. destruct (Z.eqb_spec k (pshmid g)) as [->|Hkg].
      + by rewrite (proj2 (Z.eqb_neq i (pshmid g))) by done.
      + rewrite H1. by rewrite (proj2 (Z.eqb_neq k i)) by done.
    - destruct Ht as [_ ->]. by destruct (k =? pshmid g). }
  eexists. split; [exact Hcase|]. destruct (Z.eqb_spec k (pshmid g)) as [->|]; [|by split_and!].
  rewrite Hr in Hk. injection Hk as <-. split_and!; [|intros U|done].
  - destruct (left_by_same r) as (?&?&?). by split_and!.
  - destruct (touch_ok (pid pr) (pshmid g) (left_by r)) as [(Hf & _)|]; [by apply left_by_ok; right| |done].
    destruct (left_by_same r) as (Hkey & _). simpl in Hf. rewrite Hkey in Hf. by destruct (ru_key _ _ U).
Qed.

(** [shmdt] keeps the state, unless it removes a region the process still has. *)
Lemma shmdt_state fl pr s i g r fl' s' :
  shm_state fl pr s -> zidx (pages pr) i = Some g -> seg_used g = true -> zidx (shmTable s) (pshmid g) = Some r ->
  shmdt_effect fl pr s i g r fl' s' -> (last_detach r = true -> sole_seg i pr) -> shm_state fl' (drop_seg i g pr) s'.
Proof.
  intros I Hg Hu Hr E Hsole. pose proof (de_inv _ _ _ _ _ _ _ _ E) as J. pose proof (si_segs _ _ _ I) as Sg. pose proof Hg as [Hi Hg']%zidx_Some.
  assert (Hkeep : forall n h, pages (drop_seg i g pr) !! n = Some h -> seg_used h = true -> n <> Z.to_nat i /\ pages pr !! n = Some h).
  { intros n h Hn Hh. simpl in Hn. rewrite (lookup_zupd _ _ _ _ _ Hg) in Hn. case_decide; [by simplify_eq|done]. }
  assert (Hreg : forall n h, pages (drop_seg i g pr) !! n = Some h -> seg_used h = true -> exists rh rh',
    zidx (shmTable s) (pshmid h) = Some rh /\ zidx (shmTable s') (pshmid h) = Some rh' /\ region_used (pshmid h) rh' /\ same_region rh rh' /\
    key rh = pkey h /\ size rh = psize h).
  { intros n h Hn Hh. destruct (Hkeep n h Hn Hh) as [Hne Hn']. destruct (si_region _ _ _ I _ _ Hn' Hh) as (rh & Hrh & U & Hk & Hs).
    destruct (shmdt_region fl pr s i g r fl' s' (pshmid h) rh E Hr Hrh) as (rh' & Hr' & Hsame & HU & _).
    { intros Hl. by apply (Hsole Hl n h). }
    exists rh, rh'. split_and!; auto. }
  split; try apply J.
  - intros n h Hn Hh. destruct (Hreg n h Hn Hh) as (rh & rh' & _ & Hr' & U & (Hk & Hs & _) & Hk0 & Hs0). exists rh'. split_and!; try done; congruence.
  - intros n h rh' k pa Hn Hh Hrh' Hk Hpa. destruct (Hreg n h Hn Hh) as (rh & r2 & Hrh & Hr2 & U & (_ & _ & Hp) & _ & _).
    rewrite Hrh' in Hr2. injection Hr2 as <-. rewrite Hp in Hpa. destruct (Hkeep n h Hn Hh) as [Hne Hn'].
    destruct (so_seg _ Sg _ _ Hn' Hh) as (? & ? & ? & ?). change (pgdir (drop_seg i g pr)) with (pgdir pr).
    destruct (so_disj _ Sg _ _ _ _ Hn' Hg' Hne Hh Hu) as [Hd|Hd];
      (rewrite (de_view _ _ _ _ _ _ _ _ E) by (unfold seg_end in *; alia)); unfold seg_end in *; consts; zcases;
      exact (si_map _ _ _ I _ _ _ _ _ Hn' Hh Hrh Hk Hpa).
  - intros va Hva Hno. change (pgdir (drop_seg i g pr)) with (pgdir pr). rewrite (de_view _ _ _ _ _ _ _ _ E) by alia.
    destruct ((virtualAddr g <=? va) && (va <? seg_end g)) eqn:Hb; [apply present_0|].
    apply (si_unmap _ _ _ I); [done|]. intros n h Hn Ho. destruct (decide (n = Z.to_nat i)) as [->|Hne].
    + simplify_eq. destruct Ho as (_ & Ho1 & Ho2). rewrite andb_false_iff, Z.leb_gt, Z.ltb_ge in Hb. lia.
    + apply (Hno n h); [|done]. simpl. by rewrite (lookup_zupd _ _ _ _ _ Hg), decide_False.
Qed.

(** ... and counts that include the attachments of the process. *)
Lemma shmdt_counted fl pr s i g r fl' s' :
  shm_state fl pr s -> counted pr s -> zidx (pages pr) i = Some g -> seg_used g = true -> zidx (shmTable s) (pshmid g) = Some r ->
  shmdt_effect fl pr s i g r fl' s' -> (last_detach r = true -> sole_seg i pr) -> counted (drop_seg i g pr) s'.
Proof.
  intros I Hc Hg Hu Hr E Hsole k rk' Hk'. pose proof (sv_tab _ _ _ (de_inv _ _ _ _ _ _ _ _ E)) as T'. pose proof (zidx_range _ _ _ Hr) as Hgr.
  assert (Hlen : is_Some (zidx (shmTable s) k)).
  { apply zidx_range in Hk'. rewrite (to_len _ _ T') in Hk'. destruct (zidx_lt (shmTable s) k) as [x Hx]; [|by exists x].
    by rewrite (to_len _ _ (si_tab _ _ _ I)). }
  simpl. rewrite (count_segs_zupd _ _ _ _ _ Hg), seg_of_clear. unfold seg_of. rewrite Hu. cbn [andb Z.b2z].
  destruct (decide (last_detach r = true /\ k = i)) as [[Hl ->]|Hno].
  - assert (H0 : count_segs i (pages pr) <= Z.b2z (pshmid g =? i)).
    { pose proof (count_segs_zupd i _ _ _ (clear_pages g) Hg) as Hz. rewrite seg_of_clear in Hz. unfold seg_of in Hz. rewrite Hu in Hz. cbn [andb Z.b2z] in Hz.
      destruct (Z.lt_ge_cases 0 (count_segs i (zupd (pages pr) i (clear_pages g)))) as [Hpos|]; [|lia].
      destruct (count_segs_seg _ _ Hpos) as (n & h & Hn & Hh & He). rewrite (lookup_zupd _ _ _ _ _ Hg) in Hn. case_decide; [by simplify_eq|].
      by destruct (Hsole Hl n h). }
    destruct (to_region _ _ T' i rk' Hk') as [(_ & _ & _ & _ & ->)|U]; [lia|]. pose proof (ru_nattch _ _ U). lia.
  - destruct Hlen as [rk Hk].
    destruct (shmdt_region fl pr s i g r fl' s' k rk E Hr Hk) as (rk2 & Hk2 & _ & _ & Hna); [by intros Hl ->; destruct Hno|].
    rewrite Hk' in Hk2. injection Hk2 as <-. rewrite Hna. pose proof (Hc k rk Hk) as Hck. rewrite (Z.eqb_sym k).
    destruct (Z.eqb_spec (pshmid g) k) as [_|]; [|cbn; lia]. unfold left_by. destruct (Z.ltb_spec 0 (shm_nattch (buffer rk))); cbn; [lia|].
    pose proof (count_segs_nonneg k (pages pr)). lia.
Qed.


End detach.

(** ** Mapping a region *)

Section attach.
Context {K : KernelImage} {KI : KernelImageOk K} {F : Type}.
Implicit Types s : kernel F.

(** The view after pages [k] to [k + j - 1] of the region were mapped. *)
Definition region_view (m m' : memory) (pgdir va perm : Z) (addrs : list Z) (k j : Z) : Prop :=
  (forall i pa vb, k <= i < k + j -> zidx addrs i = Some pa ->
     va + i * PGSIZE <= vb < va + (i + 1) * PGSIZE -> pte_view m' pgdir vb = mk_pte pa perm) /\
  (forall vb, is_u32 vb -> vb < va + k * PGSIZE \/ va + (k + j) * PGSIZE <= vb ->
     pte_view m' pgdir vb = pte_view m pgdir vb).

Lemma region_view_refl m pgdir va perm addrs k : region_view m m pgdir va perm addrs k 0.
Proof. split; [intros; lia|done]. Qed.

(** The pages of a region are page frames of the machine. *)
Lemma region_frame fl tab i r k pa :
  table_ok fl tab -> zidx tab i = Some r -> zidx (physicalAddr r) k = Some pa -> k < size r ->
  is_u32 pa /\ pa mod 4096 = 0 /\ pa + 4096 <= 4294967296 /\ is_page (P2V pa).
Proof.
  intros T Hr Hpa Hk. destruct (to_addr _ _ T _ _ Hr) as [Hl Hu].
  destruct (table_region_pages _ _ _ _ T Hr) as (Hpg & _ & _).
  apply zidx_Some in Hpa as [Hk0 Hpa].
  assert (Hu' : is_u32 pa) by (rewrite Forall_lookup in Hu; eauto).
  assert (Hp : is_page (P2V pa)).
  { rewrite Forall_lookup in Hpg. apply (Hpg (Z.to_nat k)). unfold region_pages.
    rewrite list_lookup_fmap, lookup_take_lt by lia. by rewrite Hpa. }
  split_and!; [done| | |done].
  - pose proof (proj1 Hp) as H. unfold P2V, u32 in H. alia.
  - pose proof (is_page_end _ Hp) as H. pose proof (is_page_range _ Hp) as H2.
    rewrite <- (V2P_P2V pa) by done. rewrite V2P_high by alia. alia.
Qed.

Lemma shmat_map_spec fl0 pgdir index va perm r : forall n k fl s,
  table_ok fl0 (shmTable s) ->
  phys_ok fl (kphys s) -> pgdir_ok (mem (kphys s)) pgdir fl ->
  zidx (shmTable s) index = Some r -> 0 <= k -> k + Z.of_nat n = size r -> size r <= SHAREDREGIONS ->
  0 <= va -> va mod 4096 = 0 -> va + size r * 4096 < KERNBASE -> 0 <= perm < 4096 ->
  (forall vb, va + k * 4096 <= vb < va + size r * 4096 ->
     present (pte_view (mem (kphys s)) pgdir vb) = false) ->
  wp (shmat_map pgdir index va perm k n) (fun ok s' => exists fl' ph j,
    s' = set_kphys ph s /\ vm_step pgdir fl (kphys s) fl' ph /\
    region_view (mem (kphys s)) (mem ph) pgdir va perm (physicalAddr r) k j /\
    (if ok : bool then j = Z.of_nat n else fl' = [] /\ 0 <= j < Z.of_nat n)) s.
Proof.
  induction n as [|n IH]; intros k fl s T Hok Hd Hr Hk Hn Hsz Hva Hal Hhi Hp Hfree; cbn [shmat_map].
  { wp_steps. exists fl, (kphys s), 0. split_and!; try done.
    - by destruct s.
    - by apply vm_step_refl.
    - apply region_view_refl. }
  destruct (to_addr _ _ T _ _ Hr) as [Hl _].
  destruct (zidx_lt (physicalAddr r) k ltac:(consts; lia)) as [pa Hpa].
  destruct (region_frame _ _ _ _ _ _ T Hr Hpa ltac:(lia)) as (Hpau & Hpam & Hpae & _).
  wp_step. eapply wpx_get_region; [done|]. wp_step. eapply wpx_phys_addr; [done|]. wp_steps.
  rewrite (u32_small (va + k * PGSIZE)) by alia.
  eapply wpx_mono.
  { apply (mappages_spec pgdir (va + k * PGSIZE) 1 pa perm fl); try done; alia. }
  2:{ intros m (_ & vb & Hvb & Hpr). rewrite Hfree in Hpr; [done|alia]. }
  cbn beta. intros res ph (fl' & j & St & Hres & Hv & _). unfold map_result in Hres.
  assert (Hview : region_view (mem (kphys s)) (mem ph) pgdir va perm (physicalAddr r) k j).
  { split.
    - intros i pa' vb Hi Hpa' Hvb. assert (i = k) as -> by lia. simplify_eq.
      rewrite Hv by alia. unfold map_view. consts. zcases.
      rewrite (Z.div_small (vb - (va + k * 4096))) by lia. f_equal. lia.
    - intros vb Hvb Ho. rewrite Hv by done. unfold map_view. consts. zcases; done. }
  destruct (Z.ltb_spec res 0) as [Hneg|Hpos].
  - wp_steps. rewrite (u32_small (va + size r)) by alia.
    unfold wpx at 1. rewrite deallocuvm_noop by lia. wp_steps.
    destruct Hres as [[? _]|(_ & Hj & ->)]; [lia|].
    exists [], ph, j. split_and!; try done; lia.
  - assert (j = 1) as -> by lia.
    eapply wpx_mono; [apply (IH (k + 1) fl')| |done]; try done; try lia; try apply St.
    + intros vb Hvb. simpl. destruct Hview as [_ Ho]. rewrite Ho by alia. apply Hfree. lia.
    + cbn beta. intros ok s' (fl2 & ph2 & j & -> & St2 & [Hv1 Hv2] & Hj). simpl in *.
      exists fl2, ph2, (1 + j). split_and!.
      * done.
      * by eapply vm_step_trans.
      * destruct Hview as [Hw1 Hw2]. split.
        -- intros i pa' vb Hi Hpa' Hvb. destruct (Z.eq_dec i k) as [->|].
           ++ rewrite Hv2 by alia. by eapply (Hw1 k); [lia|..].
           ++ by eapply (Hv1 i); [lia|..].
        -- intros vb Hvb Ho. assert (0 <= j) by (destruct ok; lia).
           rewrite Hv2 by (done || alia). apply Hw2; [done|alia].
      * destruct ok; [lia|]. destruct Hj. split; [done|lia].
Qed.

Definition add_seg (i : Z) (g : sharedPages) (pr : proc) : proc :=
  set_pages (zupd (pages pr) i g) pr.

Definition more_attach (pid : Z) (r : shmRegion) : shmRegion :=
  set_buffer (fun b => set_lpid pid (set_nattch (shm_nattch b + 1) b)) r.

(** Attaching keeps the invariant. *)
Lemma shm_state_attach fl fl' pr s i g0 r ph va perm j :
  shm_state fl pr s -> zidx (pages pr) i = Some g0 -> seg_used g0 = false ->
  zidx (shmTable s) j = Some r -> region_used j r ->
  HEAPLIMIT <= va -> va mod PGSIZE = 0 -> va + size r * PGSIZE < KERNBASE ->
  fits va (size r * PGSIZE) (pages pr) ->
  vm_step (pgdir pr) fl (kphys s) fl' ph ->
  region_view (mem (kphys s)) (mem ph) (pgdir pr) va perm (physicalAddr r) 0 (size r) ->
  let g := mkPages (key r) (size r) j perm va in
  shm_state fl' (add_seg i g pr)
    (set_shmTable (zupd (shmTable s) j (more_attach (pid pr) r))
      (set_ptable (<[curproc s := add_seg i g pr]> (ptable s)) (set_kphys ph s))).
Proof.
  intros I Hg Hu Hr U Hlo Hal Hhi Hfit St [Hv1 Hv2] g.
  pose proof (si_tab _ _ _ I) as T. pose proof (si_segs _ _ _ I) as Sg.
  pose proof (ru_size _ _ U) as Hsz. pose proof (zidx_range _ _ _ Hr) as Hix.
  assert (Hgu : seg_used g = true).
  { unfold seg_used. simpl. rewrite (proj2 (Z.eqb_neq _ _)); [done|apply U]. }
  assert (Hcase : forall n h, zupd (pages pr) i g !! n = Some h ->
    (n = Z.to_nat i /\ h = g) \/ (n <> Z.to_nat i /\ pages pr !! n = Some h)).
  { intros n h Hn. rewrite (lookup_zupd _ _ _ _ _ Hg) in Hn. case_decide; [left|right]; naive_solver. }
  assert (U' : region_used j (more_attach (pid pr) r)) by (destruct U; split; simpl; try done; lia).
  assert (Hreg : forall k rk, zidx (zupd (shmTable s) j (more_attach (pid pr) r)) k = Some rk ->
    exists r0, zidx (shmTable s) k = Some r0 /\ physicalAddr rk = physicalAddr r0 /\
      shm_nattch (buffer rk) = shm_nattch (buffer r0) + if decide (k = j) then 1 else 0).
  { intros k rk Hk. pose proof (zidx_range _ _ _ Hk) as Hk'. rewrite length_zupd in Hk'.
    rewrite zidx_zupd in Hk by lia. destruct (Z.eqb_spec k j) as [->|]; simplify_eq.
    - exists r. rewrite decide_True by done. done.
    - exists rk. rewrite decide_False by done. split_and!; [done..|lia]. }
  split; simpl; try done; try by apply I.
  - apply St.
  - eapply table_ok_meta; [|done|done|by right]. eapply table_ok_sub; [done|apply St].
  - apply list_lookup_insert_eq. by eapply lookup_lt_Some, I.
  - apply St.
  - intros q. rewrite (shm_pages_meta _ _ r) by done. intros Hq Hpt.
    destruct (vs_pt _ _ _ _ _ St q Hpt) as [Hpt'|[Hin _]]; [by eapply (si_apart _ _ _ I)|].
    pose proof (to_owned _ _ T) as H. apply NoDup_app in H as (_ & H & _). by eapply H.
  - by eapply segs_ok_add; simpl; try done; lia.
  - intros n h [[-> ->]|[Hne Hn]]%Hcase Hh.
    + exists (more_attach (pid pr) r). simpl. rewrite zidx_zupd, Z.eqb_refl by lia. done.
    + destruct (si_region _ _ _ I _ _ Hn Hh) as (rh & Hrh & Uh & Hkh & Hsh).
      pose proof (zidx_range _ _ _ Hrh). destruct (Z.eqb_spec (pshmid h) j) as [He|Hne'].
      * exists (more_attach (pid pr) r). rewrite He in *. simplify_eq.
        rewrite zidx_zupd, Z.eqb_refl by lia. done.
      * exists rh. rewrite zidx_zupd by lia. by rewrite (proj2 (Z.eqb_neq _ _)).
  - intros n h rh k pa [[-> ->]|[Hne Hn]]%Hcase Hh Hrh Hk Hpa;
      destruct (Hreg _ rh Hrh) as (r0 & Hr0 & Hpa0 & _); rewrite Hpa0 in Hpa; simpl in Hr0, Hk.
    + simplify_eq. simpl. by eapply (Hv1 k); [lia|done|alia].
    + destruct (so_seg _ Sg _ _ Hn Hh) as (? & ? & ? & ?). specialize (Hfit n h Hn).
      unfold overlaps, seg_end in Hfit. rewrite Hv2.
      * exact (si_map _ _ _ I _ _ _ _ _ Hn Hh Hr0 Hk Hpa).
      * unfold seg_end in *. alia.
      * destruct (Z.lt_ge_cases (virtualAddr h) (va + size r * PGSIZE)); [|right; alia].
        destruct (Z.lt_ge_cases va (virtualAddr h + psize h * PGSIZE)); [by destruct Hfit|left; alia].
  - intros vb Hvb Hno. rewrite Hv2.
    + apply (si_unmap _ _ _ I); [done|]. intros n h Hn Ho.
      destruct (decide (n = Z.to_nat i)) as [->|Hne].
      * apply zidx_Some in Hg as [_ Hg]. simplify_eq. destruct Ho as [Ho _]. congruence.
      * apply (Hno n h); [|done]. by rewrite (lookup_zupd _ _ _ _ _ Hg), decide_False.
    + alia.
    + specialize (Hno (Z.to_nat i) g). rewrite (lookup_zupd _ _ _ _ _ Hg), decide_True in Hno by done.
      specialize (Hno eq_refl). unfold overlaps, seg_end in Hno. simpl in Hno.
      destruct (Z.lt_ge_cases vb va); [left; lia|]. right.
      destruct (Z.lt_ge_cases vb (va + size r * PGSIZE)); [|lia]. destruct Hno. split_and!; [done|lia..].
Qed.

Lemma counted_attach pr s s' i g0 r va perm j :
  counted pr s -> zidx (pages pr) i = Some g0 -> seg_used g0 = false -> zidx (shmTable s) j = Some r -> region_used j r ->
  shmTable s' = zupd (shmTable s) j (more_attach (pid pr) r) ->
  counted (add_seg i (mkPages (key r) (size r) j perm va) pr) s'.
Proof.
  intros Hc Hg Hu Hr U Htab k rk. rewrite Htab. intros Hk. pose proof (zidx_range _ _ _ Hk) as Hk'. rewrite length_zupd in Hk'. pose proof (zidx_range _ _ _ Hr).
  simpl. rewrite (count_segs_zupd _ _ _ _ _ Hg). unfold seg_of. rewrite Hu.
  assert (Hgu : seg_used (mkPages (key r) (size r) j perm va) = true) by (unfold seg_used; simpl; rewrite (proj2 (Z.eqb_neq _ _)); [done|apply U]).
  rewrite Hgu. simpl. rewrite zidx_zupd in Hk by lia. rewrite (Z.eqb_sym j k). destruct (Z.eqb_spec k j) as [->|]; simplify_eq.
  - pose proof (Hc _ _ Hr). simpl. lia.
  - pose proof (Hc _ _ Hk). simpl. lia.
Qed.

(** ** shmat *)

(** The permission a segment gets. *)
Definition attach_perm (r : shmRegion) (shmflag : Z) : Z :=
  if nz (Z.land shmflag SHM_RDONLY) || (mode (shm_perm (buffer r)) =? READ_SHM)
  then PTE_U else Z.lor PTE_W PTE_U.

(** Region [j] was attached at [va] in slot [i]: the page table shows exactly
    its pages there, nothing else changed, and no page of data was touched. *)
Record attached (fl : list Z) (pr : proc) (s : kernel F) (i j : Z) (r : shmRegion) (va perm : Z)
    (fl' : list Z) (s' : kernel F) : Prop := {
  at_inv : shm_state fl' (add_seg i (mkPages (key r) (size r) j perm va) pr) s';
  at_count : counted pr s -> counted (add_seg i (mkPages (key r) (size r) j perm va) pr) s';
  at_region : zidx (shmTable s') j = Some (more_attach (pid pr) r);
  at_others : forall k, k <> j -> zidx (shmTable s') k = zidx (shmTable s) k;
  at_view : region_view (mem (kphys s)) (mem (kphys s')) (pgdir pr) va perm (physicalAddr r) 0 (size r);
  at_data : forall q, is_page q -> ~ pt_page (mem (kphys s)) (pgdir pr) q -> q ∉ fl ->
    same_bytes (mem (kphys s)) (mem (kphys s')) q;
}.

(** Memory ran out while page tables were allocated. *)
Definition attach_oom (fl : list Z) (pr : proc) (s s' : kernel F) : Prop :=
  exists ph, s' = set_kphys ph s /\ vm_step (pgdir pr) fl (kphys s) [] ph.

(** The pages of the region were mapped at [va], but nothing records it. *)
Definition attach_unrecorded (fl : list Z) (pr : proc) (s : kernel F) (r : shmRegion) (va perm : Z) (s' : kernel F) : Prop :=
  exists fl' ph, s' = set_kphys ph s /\ vm_step (pgdir pr) fl (kphys s) fl' ph /\
    region_view (mem (kphys s)) (mem ph) (pgdir pr) va perm (physicalAddr r) 0 (size r).

(** The first slot of a process that has no segment. *)
Definition free_slot (pr : proc) : option Z := find_idx (fun g => pkey g =? NOKEY) 0 (pages pr).

(** What becomes of the pages once they are mapped: a segment in the first free
    slot, or nothing when every slot is taken. *)
Definition attach_outcome (fl : list Z) (pr : proc) (s : kernel F) (j : Z) (r : shmRegion) (va perm ret : Z) (s' : kernel F) : Prop :=
  match free_slot pr with
  | Some i => ret = va /\ exists fl', attached fl pr s i j r va perm fl' s'
  | None => ret = MINUS1 /\ attach_unrecorded fl pr s r va perm s'
  end.

Lemma shmat_attach_spec fl pr s j r va shmflag :
  shm_state fl pr s -> zidx (shmTable s) j = Some r -> region_used j r ->
  HEAPLIMIT <= va -> va mod PGSIZE = 0 -> va + size r * PGSIZE < KERNBASE ->
  fits va (size r * PGSIZE) (pages pr) ->
  wp (shmat_attach (curproc s) j j va shmflag) (fun ret s' =>
    attach_outcome fl pr s j r va (attach_perm r shmflag) ret s' \/
    (ret = MINUS1 /\ attach_oom fl pr s s')) (set_shm_lock true s).
Proof.
  intros I Hr U Hlo Hal Hhi Hfit. pose proof (ru_size _ _ U) as Hsz.
  pose proof (zidx_range _ _ _ Hr) as Hix. unfold attach_outcome, shmat_attach. wp_step. eapply wpx_get_region; [done|].
  assert (Hperm : (if nz (Z.land shmflag SHM_RDONLY) || (mode (shm_perm (buffer r)) =? READ_SHM) then Some PTE_U
    else if mode (shm_perm (buffer r)) =? RW_SHM then Some (Z.lor PTE_W PTE_U) else None) =
    Some (attach_perm r shmflag)).
  { unfold attach_perm. destruct (_ || _) eqn:Hb; [done|]. apply orb_false_iff in Hb as [_ Hb].
    by destruct (ru_mode _ _ U) as [He | ->]; [rewrite He in Hb|]. }
  rewrite Hperm. assert (Hpr : 0 <= attach_perm r shmflag < 4096).
  { unfold attach_perm. destruct (_ || _); vm_compute; split; congruence. }
  generalize dependent (attach_perm r shmflag). intros perm _ Hpr.
  wp_step. eapply wpx_get_proc; [apply I|]. wp_step.
  eapply wpx_mono; [apply (shmat_map_spec fl (pgdir pr) j va perm r _ 0 fl)| |done];
    try done; try (consts; lia); try by apply I.
  { intros vb Hvb. apply (si_unmap _ _ _ I); [consts; lia|]. intros n g Hn (Hgu & Ho1 & Ho2).
    apply (Hfit n g Hn). unfold overlaps. split_and!; [done|consts; lia..]. }
  cbn beta. intros ok s1 (fl' & ph & n & -> & St & Hv & Hn). simpl in St, Hv. destruct ok; cbn [negb].
  - rewrite Hn, Z2Nat.id in Hv by lia. unfold free_slot. destruct (find_idx _ 0 (pages pr)) as [i|] eqn:Hi.
    2:{ apply wpx_shm_return; [done|]. left. split; [done|]. exists fl', ph. split; [|done].
        unfold set_kphys, set_shm_lock. simpl. by rewrite (si_lock _ _ _ I). }
    apply find_idx_0 in Hi as (g0 & Hg & Hnokey & _). assert (Hu : seg_used g0 = false) by (unfold seg_used; by rewrite Hnokey).
    wp_step. eapply wpx_get_region; [done|]. wp_step.
    eapply wpx_upd_pages; [apply I|done|]. wp_step. eapply wpx_upd_region; [done|].
    apply wpx_shm_return; [done|]. left. split; [done|]. exists fl'. split.
    + pose proof (shm_state_attach fl fl' pr s i g0 r ph va perm j I Hg Hu Hr U Hlo Hal Hhi Hfit St Hv) as I'.
      unfold set_shmTable, set_ptable, set_kphys, set_shm_lock in *. simpl in *.
      by rewrite (si_lock _ _ _ I) in I'.
    + intros Hc. by apply (counted_attach pr s _ i g0 r va perm j).
    + simpl. by rewrite zidx_zupd, Z.eqb_refl by lia.
    + intros k Hk. simpl. apply zidx_zupd_ne; lia.
    + done.
    + apply St.
  - destruct Hn as [-> Hn]. apply wpx_shm_return; [done|]. right. split; [done|]. exists ph.
    split; [|done]. unfold set_kphys, set_shm_lock. simpl. by rewrite (si_lock _ _ _ I).
Qed.

(** [shmat] of an identifier outside the table, and of one that no region has. *)
Lemma shmat_no_region fl pr s j shmaddr shmflag :
  shm_state fl pr s -> zidx (shmTable s) j = None -> j <> SHAREDREGIONS ->
  wp (shmat j shmaddr shmflag) (fun ret s' => ret = MINUS1 /\ s' = s) s.
Proof.
  intros I Hr Hj. unfold shmat. assert (Hout : (j <? 0) || (64 <? j) = true).
  { destruct (Z.ltb_spec j 0); [done|]. destruct (Z.ltb_spec 64 j); [done|].
    destruct (zidx_lt (shmTable s) j) as [x Hx]; [|congruence]. rewrite (to_len _ _ (si_tab _ _ _ I)). revert Hj. consts. lia. }
  rewrite Hout. by wp_steps.
Qed.

Lemma shmat_free_region fl pr s j r shmaddr shmflag :
  shm_state fl pr s -> zidx (shmTable s) j = Some r -> region_free r ->
  wp (shmat j shmaddr shmflag) (fun ret s' => ret = MINUS1 /\ s' = s) s.
Proof.
  intros I Hr (_ & _ & Hid & _). pose proof (zidx_range _ _ _ Hr) as Hix. rewrite (to_len _ _ (si_tab _ _ _ I)) in Hix. unfold shmat.
  destruct (Z.ltb_spec j 0); [lia|]. destruct (Z.ltb_spec 64 j); [consts; lia|]. cbn [orb].
  wp_step. apply wpx_shm_acquire; [apply I|]. wp_steps. eapply wpx_get_region; [done|]. rewrite Hid, Z.eqb_refl.
  apply wpx_shm_return; [done|]. split; [done|]. apply set_lock_id, I.
Qed.

(** [shmat] up to the choice of the address, for a region in use. *)
Lemma shmat_where fl pr s j r shmaddr shmflag va :
  shm_state fl pr s -> zidx (shmTable s) j = Some r -> region_used j r ->
  (if nz shmaddr then shmat_addr shmaddr shmflag
   else shmat_fit (Z.to_nat SHAREDREGIONS) (pages pr) HEAPLIMIT (size r * PGSIZE)) = Some va ->
  HEAPLIMIT <= va < KERNBASE -> va mod PGSIZE = 0 ->
  fits va (size r * PGSIZE) (pages pr) ->
  wp (shmat j shmaddr shmflag) (fun ret s' =>
    (va + size r * PGSIZE < KERNBASE /\ attach_outcome fl pr s j r va (attach_perm r shmflag) ret s') \/
    (va + size r * PGSIZE < KERNBASE /\ ret = MINUS1 /\ attach_oom fl pr s s') \/
    (KERNBASE <= va + size r * PGSIZE /\ ret = MINUS1 /\ s' = s)) s.
Proof.
  intros I Hr U Hw Hva Hal Hfit. pose proof (zidx_range _ _ _ Hr) as Hix.
  pose proof (ru_size _ _ U) as Hsz. rewrite (to_len _ _ (si_tab _ _ _ I)) in Hix. unfold shmat.
  destruct (Z.ltb_spec j 0); [lia|]. destruct (Z.ltb_spec 64 j); [consts; lia|]. cbn [orb].
  wp_step. apply wpx_shm_acquire; [apply I|]. wp_steps. eapply wpx_get_region; [done|].
  rewrite (ru_shmid _ _ U), (proj2 (Z.eqb_neq j (-1))) by lia. wp_step.
  eapply wpx_get_region; [done|]. wp_step. eapply wpx_get_proc; [apply I|]. wp_step.
  assert (Hwhere : wp (if nz shmaddr then ret (shmat_addr shmaddr shmflag) else
    match shmat_fit (Z.to_nat SHAREDREGIONS) (pages pr) HEAPLIMIT (size r * PGSIZE) with
    | Some va => ret (Some va) | None => fault "process->pages" end)
    (fun w s' => w = Some va /\ s' = set_shm_lock true s) (set_shm_lock true s)).
  { destruct (nz shmaddr); rewrite Hw; by wp_steps. }
  eapply wpx_mono; [apply Hwhere| |done]. cbn beta. intros w s' [-> ->].
  rewrite u32_small by alia.
  destruct (Z.leb_spec KERNBASE (va + size r * PGSIZE)) as [Hbig|Hsm].
  { apply wpx_shm_return; [done|]. right. right. split_and!; try done. apply set_lock_id, I. }
  destruct (find_idx (covers va) 0 (pages pr)) as [c|] eqn:Hc.
  { apply find_idx_0 in Hc as (g & [? Hgc]%zidx_Some & Hcv & _). unfold covers in Hcv.
    fold (seg_used g) (seg_end g) in Hcv. rewrite !andb_true_iff, Z.ltb_lt, Z.leb_le in Hcv.
    destruct Hcv as [[Hgu Hc1] Hc2]. destruct (so_seg _ (si_segs _ _ _ I) _ _ Hgc Hgu) as (? & ? & ? & ?).
    rewrite u32_small in Hc1 by (unfold seg_end in *; alia).
    destruct (Hfit _ _ Hgc). unfold overlaps. split_and!; [done|consts; lia|done]. }
  eapply wpx_mono; [eapply (shmat_attach_spec fl pr s j r va shmflag); try done; lia| |done].
  cbn beta. intros ret s' [Ha|[-> Ha]]; [left|right; left]; done.
Qed.

(** ... with a free slot. *)
Lemma shmat_at fl pr s i j r shmaddr shmflag va :
  shm_state fl pr s -> zidx (shmTable s) j = Some r -> region_used j r -> free_slot pr = Some i ->
  (if nz shmaddr then shmat_addr shmaddr shmflag
   else shmat_fit (Z.to_nat SHAREDREGIONS) (pages pr) HEAPLIMIT (size r * PGSIZE)) = Some va ->
  HEAPLIMIT <= va < KERNBASE -> va mod PGSIZE = 0 ->
  fits va (size r * PGSIZE) (pages pr) ->
  wp (shmat j shmaddr shmflag) (fun ret s' =>
    (va + size r * PGSIZE < KERNBASE /\ ret = va /\
       exists fl', attached fl pr s i j r va (attach_perm r shmflag) fl' s') \/
    (va + size r * PGSIZE < KERNBASE /\ ret = MINUS1 /\ attach_oom fl pr s s') \/
    (KERNBASE <= va + size r * PGSIZE /\ ret = MINUS1 /\ s' = s)) s.
Proof.
  intros I Hr U Hi Hw Hva Hal Hfit. eapply wpx_mono; [by apply (shmat_where fl pr s j r shmaddr shmflag va)| |done].
  cbn beta. unfold attach_outcome. rewrite Hi. intros ret s' [?|[?|?]]; auto.
Qed.

End attach.
