(* ===== verification/ShmTheorems.v ===== *)
(** * What shared memory guarantees, and where it does not

    The contract of [shmat], [shmdt] and [shmctl] for a process that satisfies
    the invariant, and concrete runs of the calls whose behaviour departs from
    what their comments promise. *)

From S2P Require Import Prelude.
From S2P Require Import CString.
From S2P Require Import Mmu.
From S2P Require Import Kalloc.
From S2P Require Import Vm.
From S2P Require Import Demo.
From S2P Require Import Uvm.
From S2P Require Import Kernel.
From S2P Require Import Shm.
From S2P Require Import ShmGet.
From S2P Require Import ShmAttach.

Open Scope Z_scope.



Section theorems.
Context {K : KernelImage} {KI : KernelImageOk K} {F : Type}.
Implicit Types s : kernel F.



(** [shmat] at an explicit page-aligned address between HEAPLIMIT and
    KERNBASE where the region fits attaches exactly there. *)
Theorem shmat_explicit fl pr s i j r shmaddr shmflag :
  shm_state fl pr s -> zidx (shmTable s) j = Some r -> region_used j r -> free_slot pr = Some i ->
  let len := size r * PGSIZE in
  HEAPLIMIT <= shmaddr -> shmaddr + len < KERNBASE -> shmaddr mod PGSIZE = 0 ->
  fits shmaddr len (pages pr) ->
  wp (shmat j shmaddr shmflag) (fun ret s' =>
    (ret = shmaddr /\ exists fl', attached fl pr s i j r shmaddr (attach_perm r shmflag) fl' s') \/
    (ret = MINUS1 /\ attach_oom fl pr s s')) s.
Proof.
  intros I Hr U Hi len Hlo Hhi Hal Hfit. pose proof (ru_size _ _ U) as Hsz.
  eapply wpx_mono; [eapply (shmat_at fl pr s i j r shmaddr shmflag shmaddr); try done| |done].
  - rewrite (proj2 (nz_true shmaddr)) by alia. unfold shmat_addr.
    destruct (Z.leb_spec KERNBASE shmaddr); [unfold len in *; alia|].
    destruct (Z.ltb_spec shmaddr HEAPLIMIT); [lia|]. cbn [orb].
    change (Z.land shmaddr (u32 (Z.lnot (SHMLBA - 1)))) with (PGROUNDDOWN shmaddr).
    rewrite PGROUNDDOWN_eq by alia. replace (shmaddr - shmaddr mod 4096) with shmaddr by alia.
    rewrite Z.eqb_refl, (proj2 (Z.eqb_neq shmaddr 0)) by alia. by destruct (nz _).
  - unfold len in *. alia.
  - cbn beta. unfold len in *. intros ret s' [(Hlt & -> & Ha)|[(_ & -> & Ha)|(Hge & -> & ->)]];
      [by left|by right|lia].
Qed.

Lemma shmdt_none fl pr s shmaddr :
  segs_inv fl pr s ->
  (forall n g, pages pr !! n = Some g -> seg_used g = true -> virtualAddr g <> shmaddr) ->
  wp (shmdt shmaddr) (fun ret s' => ret = -1 /\ s' = s) s.
Proof.
  intros I Hno. unfold shmdt. wp_step. apply wpx_shm_acquire; [apply I|]. wp_steps.
  eapply wpx_get_proc; [apply I|].
  destruct (find_idx _ 0 (pages pr)) as [i|] eqn:Hf.
  - apply find_idx_0 in Hf as (g & [_ Hg]%zidx_Some & Hb & _). fold (seg_used g) in Hb.
    apply andb_true_iff in Hb as [Hu He%Z.eqb_eq]. by destruct (Hno _ _ Hg Hu).
  - apply wpx_shm_return; [done|]. split; [done|]. apply set_lock_id, I.
Qed.

(** C3: [shmdt] at any address, whatever the attach counts are.  If no segment
    starts there the answer is -1 and nothing changes.  If one does, the answer is 0:
    exactly that segment is unmapped, its slot is free, the count of its region goes
    down unless it was 0, and the caller is recorded.  Pages go back only when that
    was the last attachment of a region marked for removal; then it is the region
    whose number is that of the slot which is removed, with its pages, and not the
    one that was attached.  Every other region and the bytes of every other page are
    kept.  The state that ties segments, regions and page table is kept too, and
    counts that include the attachments of the process, unless the process has
    another segment of the region that is removed. *)
Theorem shmdt_detaches fl pr s shmaddr :
  segs_inv fl pr s ->
  wp (shmdt shmaddr) (fun ret s' =>
    (ret = -1 /\ s' = s /\ forall n g, pages pr !! n = Some g -> seg_used g = true -> virtualAddr g <> shmaddr) \/
    (ret = 0 /\ exists i g r fl',
       zidx (pages pr) i = Some g /\ seg_used g = true /\ virtualAddr g = shmaddr /\ zidx (shmTable s) (pshmid g) = Some r /\
       shmdt_effect fl pr s i g r fl' s' /\
       (shm_state fl pr s -> (last_detach r = true -> sole_seg i pr) ->
        shm_state fl' (drop_seg i g pr) s' /\ (counted pr s -> counted (drop_seg i g pr) s')))) s.
Proof.
  intros I. destruct (find_idx (fun g => seg_used g && (virtualAddr g =? shmaddr)) 0 (pages pr)) as [i|] eqn:Hf.
  - apply find_idx_0 in Hf as (g & Hg & Hb & _). apply andb_true_iff in Hb as [Hu <-%Z.eqb_eq].
    pose proof Hg as [_ Hg']%zidx_Some. destruct (sv_region _ _ _ I _ g Hg' Hu) as [r Hr].
    destruct (wp_run _ _ _ (shmdt_run fl pr s i g r I Hg Hu Hr)) as (ret & s' & Hrun & -> & fl' & He).
    unfold wpx. rewrite Hrun. right. split; [done|]. exists i, g, r, fl'. split_and!; try done.
    intros Inv Hlast. split; [by eapply shmdt_state|]. intros Hc. by eapply shmdt_counted.
  - assert (Hno : forall n g, pages pr !! n = Some g -> seg_used g = true -> virtualAddr g <> shmaddr).
    { intros n g Hn Hu He. assert (Hz : zidx (pages pr) (Z.of_nat n) = Some g) by (apply zidx_Some; rewrite Nat2Z.id; split; [lia|done]).
      pose proof (find_idx_0_None _ _ _ _ Hf Hz) as Hx. cbn beta in Hx. by rewrite Hu, He, Z.eqb_refl in Hx. }
    eapply wpx_mono; [by apply (shmdt_none fl pr)| |done]. intros ret s' [-> ->]. by left.
Qed.

(** [shmdt] at an address where no segment starts answers -1 and changes
    nothing. *)
Theorem shmdt_unknown fl pr s shmaddr :
  shm_state fl pr s ->
  (forall n g, pages pr !! n = Some g -> seg_used g = true -> virtualAddr g <> shmaddr) ->
  shmdt shmaddr s = Ret (-1) s.
Proof.
  intros I Hno. destruct (wp_run _ _ _ (shmdt_none fl pr s shmaddr (shm_state_segs _ _ _ I) Hno)) as (ret & s' & -> & -> & ->). done.
Qed.

(** Detaching what [shmat] attached gives the address space back: the
    same pages are mapped as before, the slot is free again, and the region
    differs only in the record of who touched it last. *)
Theorem shmat_shmdt_roundtrip fl pr s i j r shmflag :
  shm_state fl pr s -> zidx (shmTable s) j = Some r -> region_used j r -> free_slot pr = Some i ->
  toBeDeleted r = 0 ->
  wp (let! va := shmat j 0 shmflag in
      if va =? MINUS1 then ret None else let! d := shmdt va in ret (Some d))
    (fun res s' => res = None \/
       (res = Some 0 /\
        (exists r', zidx (shmTable s') j = Some r' /\
           r' = set_buffer (set_lpid (pid pr)) r) /\
        (exists fl' pr', shm_state fl' pr' s' /\ pgdir pr' = pgdir pr /\
           forall n, n <> Z.to_nat i -> pages pr' !! n = pages pr !! n) /\
        (forall vb, is_u32 vb ->
           let e := pte_view (mem (kphys s)) (pgdir pr) vb in
           let e' := pte_view (mem (kphys s')) (pgdir pr) vb in
           present e' = present e /\ (present e = true -> e' = e)))) s.
Proof.
  intros I Hr U Hi Htd. pose proof (ru_size _ _ U) as Hsz.
  destruct (shmat_fit_spec (pages pr) (size r * PGSIZE) (si_segs _ _ _ I) ltac:(alia))
    as (va & Hfit & Hva & Hal & Hf & _).
  pose proof (find_idx_0 _ _ _ Hi) as (g0 & Hg0 & _).
  wp_step. eapply wpx_mono; [eapply (shmat_at fl pr s i j r 0 shmflag va); done| |done].
  cbn beta. intros a s1 [(Hlt & -> & fl' & A)|[(_ & -> & _)|(_ & -> & ->)]]; [|by left..].
  rewrite (proj2 (Z.eqb_neq va MINUS1)) by (unfold MINUS1; alia).
  pose proof (zidx_range _ _ _ Hg0) as Hrg.
  set (g := mkPages (key r) (size r) j (attach_perm r shmflag) va).
  assert (Hgu : seg_used g = true).
  { unfold seg_used. simpl. rewrite (proj2 (Z.eqb_neq _ _)); [done|apply U]. }
  assert (Hg : zidx (pages (add_seg i g pr)) i = Some g).
  { simpl. rewrite zidx_zupd by lia. by rewrite Z.eqb_refl. }
  assert (Hl : last_detach (more_attach (pid pr) r) = false) by (unfold last_detach; simpl; by rewrite Htd, andb_false_r).
  pose proof (at_inv _ _ _ _ _ _ _ _ _ _ A) as I1. pose proof (at_region _ _ _ _ _ _ _ _ _ _ A) as Hr1.
  wp_step. eapply wpx_mono; [apply (shmdt_run fl' (add_seg i g pr) s1 i g (more_attach (pid pr) r) (shm_state_segs _ _ _ I1) Hg Hgu Hr1)| |done].
  cbn beta. intros d s2 (-> & fl2 & E). wp_steps. right. split; [done|].
  pose proof (shmdt_state _ _ _ _ _ _ _ _ I1 Hg Hgu Hr1 E ltac:(by rewrite Hl)) as I2. pose proof (de_view _ _ _ _ _ _ _ _ E) as Hv.
  pose proof (de_table _ _ _ _ _ _ _ _ E) as Ht. cbv zeta in Ht. rewrite Hl in Ht. destruct Ht as [-> Ht].
  assert (Hr2 : zidx (shmTable s2) j = Some (set_buffer (set_lpid (pid pr)) (left_by (more_attach (pid pr) r)))) by (rewrite Ht; simpl; by rewrite Z.eqb_refl).
  pose proof (ru_nattch _ _ U) as Hna. unfold left_by in Hr2. simpl in Hr2. rewrite (proj2 (Z.ltb_lt _ _)) in Hr2 by lia.
  split_and!.
  - eexists. split; [exact Hr2|]. destruct r as [? ? ? ? ? [? ? ? ? ?]].
    unfold more_attach, less_attach, set_buffer, set_lpid, set_nattch. simpl. do 2 f_equal. lia.
  - exists fl', (drop_seg i g (add_seg i g pr)). split_and!; [done..|].
    intros n Hn. simpl. unfold zupd. by rewrite !list_lookup_insert_ne by done.
  - intros vb Hvb. cbv zeta. simpl in Hv. rewrite Hv by done. unfold seg_end. simpl.
    destruct (at_view _ _ _ _ _ _ _ _ _ _ A) as [_ Hout].
    destruct (Z.leb_spec va vb), (Z.ltb_spec vb (va + size r * PGSIZE)); cbn [andb];
      try (rewrite Hout by (done || lia); done).
    rewrite (si_unmap _ _ _ I); [done|alia|].
    intros n h Hn (Hu & Ho1 & Ho2). apply (Hf n h Hn). unfold overlaps. split_and!; [done|lia..].
Qed.

Lemma shmctl_rmid_spec fl pr s j r buf :
  shm_inv fl pr s -> zidx (shmTable s) j = Some r -> region_used j r ->
  wp (shmctl j IPC_RMID buf) (fun ret s' => ret = 0 /\ exists fl' r',
    shm_inv fl' pr s' /\ zidx (shmTable s') j = Some r' /\
    (forall k, k <> j -> zidx (shmTable s') k = zidx (shmTable s) k) /\
    if shm_nattch (buffer r) =? 0
    then region_free r' /\ fl' = rev (region_pages r) ++ fl
    else r' = set_toBeDeleted 1 r /\ fl' = fl) s.
Proof.
  intros I Hr U. pose proof (zidx_range _ _ _ Hr) as Hix.
  rewrite (to_len _ _ (si_tab _ _ _ I)) in Hix. pose proof (zidx_range _ _ _ Hr) as Hix'. unfold shmctl.
  destruct (Z.ltb_spec j 0); [lia|]. destruct (Z.ltb_spec 64 j); [consts; lia|]. cbn [orb].
  wp_step. apply wpx_shm_acquire; [apply I|]. wp_steps. eapply wpx_get_region; [done|].
  rewrite (ru_shmid _ _ U), (proj2 (Z.eqb_neq j (-1))) by lia. wp_step.
  eapply wpx_get_region; [done|]. wp_steps. eapply wpx_get_proc; [apply I|].
  change (IPC_RMID =? IPC_SET) with false. change ((IPC_RMID =? SHM_STAT) || (IPC_RMID =? IPC_STAT)) with false.
  change (IPC_RMID =? IPC_RMID) with true. cbn iota. wp_step.
  destruct (Z.eqb_spec (shm_nattch (buffer r)) 0) as [Hn|Hn].
  - eapply wpx_mono; [apply (remove_region_spec fl pr _ j r); [|done..|]| |done].
    + rewrite set_lock_id by apply I. apply I.
    + pose proof (si_count _ _ _ I _ _ Hr). pose proof (count_segs_nonneg j (pages pr)). lia.
    + cbn beta. intros [] s1 (ph & r' & Hs1 & Hf & I1 & _). apply wpx_shm_return; [by rewrite Hs1|].
      split; [done|]. exists (rev (region_pages r) ++ fl), r'. split_and!; try done; rewrite Hs1; simpl.
      * rewrite Hs1 in I1. split; [done|]. apply (counted_change fl _ pr s _ I I1 (si_count _ _ _ I)). simpl. intros k r1 r2 H1 H2 U1 He.
        rewrite zidx_zupd in H2 by (apply zidx_range in H1; lia). destruct (Z.eqb_spec k j) as [->|]; [|by simplify_eq]. simplify_eq.
        by destruct (ru_key _ _ U), Hf as [<- _].
      * by rewrite zidx_zupd, Z.eqb_refl by lia.
      * intros k Hk. apply zidx_zupd_ne; lia.
  - eapply wpx_upd_region; [done|]. apply wpx_shm_return; [done|]. split; [done|].
    exists fl, (set_toBeDeleted 1 r). rewrite set_lock_swap, set_lock_id by apply I. simpl. split_and!; try done.
    + assert (I2 : shm_state fl pr (set_shmTable (zupd (shmTable s) j (set_toBeDeleted 1 r)) s)).
      { eapply shm_state_meta; try done; [apply I|intros (Hf & _); by destruct (ru_key _ _ U)|]. intros _. destruct U. by split. }
      split; [done|]. apply (counted_change fl fl pr s _ I I2 (si_count _ _ _ I)). simpl. intros k r1 r2 H1 H2 U1 He.
      rewrite zidx_zupd in H2 by (apply zidx_range in H1; lia). destruct (Z.eqb_spec k j) as [->|]; by simplify_eq.
    + by rewrite zidx_zupd, Z.eqb_refl by lia.
    + intros k Hk. apply zidx_zupd_ne; lia.
Qed.

(** [shmctl(shmid, IPC_RMID)]: an unattached region is removed at once,
    its pages go back to the allocator and its identifier becomes invalid; an
    attached one is only marked. *)
Theorem shmctl_rmid fl pr s j r buf :
  shm_inv fl pr s -> zidx (shmTable s) j = Some r -> region_used j r ->
  wp (shmctl j IPC_RMID buf) (fun ret s' => ret = 0 /\ exists fl' r',
    shm_inv fl' pr s' /\ zidx (shmTable s') j = Some r' /\
    (forall k, k <> j -> zidx (shmTable s') k = zidx (shmTable s) k) /\
    if shm_nattch (buffer r) =? 0
    then region_free r' /\ fl' = rev (region_pages r) ++ fl
    else r' = set_toBeDeleted 1 r /\ fl' = fl) s.
Proof. apply shmctl_rmid_spec. Qed.

End theorems.

(** ** Departures from the intended behaviour *)

Section findings.
Context {K : KernelImage} {KI : KernelImageOk K} {F : Type}.
Implicit Types s : kernel F.

(** [shmget] that runs out of memory answers -1, but the pages it had
    taken are lost: nothing is free any more, and no region holds them. *)
Theorem shmget_leaks_pages key_ size_ perm fl pr s i0 r0 :
  shm_state fl pr s -> key_ <> NOKEY ->
  (forall j r, zidx (shmTable s) j = Some r -> key r <> key_) ->
  (perm = READ_SHM \/ perm = RW_SHM) ->
  0 < size_ -> size_ / PGSIZE + 1 <= SHAREDREGIONS ->
  zidx (shmTable s) i0 = Some r0 -> key r0 = NOKEY ->
  Z.of_nat (length fl) < size_ / PGSIZE + 1 ->
  wp (shmget key_ size_ (Z.lor perm IPC_CREAT)) (fun ret s' =>
    ret = -1 /\ phys_ok [] (kphys s') /\ shm_pages (shmTable s') ≡ₚ shm_pages (shmTable s)) s.
Proof.
  intros I Hkey Hfresh Hperm Hsz Hn Hi0 Hk0 Hmem. pose proof (si_tab _ _ _ I) as T.
  destruct (shmget_plan_new (shmTable s) key_ size_ perm 0 i0 r0) as [index Hplan]; try done; [by left|].
  destruct (shmget_plan_create _ _ _ _ _ _ _ _ T Hplan) as (_ & _ & _ & _ & _ & r & Hr & Hfree & _).
  eapply wpx_mono; [by apply (shmget_run _ _ _ fl pr); apply I| |done].
  cbn beta. rewrite Z.lor_0_r in Hplan. rewrite Hplan.
  intros ret s' (r2 & ps & fl' & ph & Hr2 & _ & Hfl & Hph & _ & _ & Hcase). simplify_eq.
  destruct Hcase as [(_ & Hlen & _)|(-> & -> & _ & ->)].
  { rewrite length_app in Hmem. lia. }
  split_and!; try done. simpl. apply (shm_pages_same _ _ r); [done|].
  by rewrite !region_pages_free by apply Hfree.
Qed.

(** The bound check of [shmat], [shmctl] and [getShmidIndex] lets 64
    through, one past the last region: the table is read out of bounds. *)
Theorem shmid_64_out_of_bounds s a b :
  length (shmTable s) = Z.to_nat SHAREDREGIONS -> shm_lock s = false ->
  shmat 64 a b s = Fault "shmTable.allRegions" /\
  shmctl 64 a b s = Fault "shmTable.allRegions" /\
  getShmidIndex 64 s = Fault "shmTable.allRegions".
Proof.
  intros Hl Hlk.
  assert (Hg : forall s, length (shmTable s) = Z.to_nat SHAREDREGIONS ->
    get_region 64 s = Fault "shmTable.allRegions").
  { intros s0 Hs0. unfold get_region, zidx. simpl. rewrite lookup_ge_None_2; [done|]. rewrite Hs0. reflexivity. }
  unfold shmat, shmctl, getShmidIndex, bind, shm_acquire, lock_acquire, myproc, gets. simpl.
  rewrite Hlk. by rewrite !Hg.
Qed.

End findings.

(** ** Concrete runs *)

#[local] Existing Instances demo_image demo_image_ok.

(** A concrete region is in use. *)
Ltac region_vm :=
  split; vm_compute; first [discriminate | reflexivity | by right | by left | split; discriminate].

(** Two regions, of 2 pages (id 0, key 42) and 1 page (id 1, key 43). *)
Definition demo_two : kernel unit :=
  after (shmget 43 100 (Z.lor RW_SHM IPC_CREAT)) demo_after_get.

(** The last [shmdt] of a region marked by IPC_RMID removes the region
    whose number is the slot of the segment, not the region of the segment:
    with region 1 attached in slot 0 and marked, [shmdt] frees region 0, which
    nobody asked to remove, and region 1 stays, marked and unattached. *)
Theorem shmdt_removes_wrong_region :
  match (let! va := shmat 1 0 0 in
         do! shmctl 1 IPC_RMID 0 in
         let! d := shmdt va in
         let! r0 := get_region 0 in
         let! r1 := get_region 1 in
         ret (d, r0, r1)) demo_two with
  | Ret (d, r0, r1) s =>
      d = 0 /\ region_free r0 /\ region_used 1 r1 /\
      shm_nattch (buffer r1) = 0 /\ toBeDeleted r1 = 1
  | _ => False
  end.
Proof.
  vm_compute. split_and!; try reflexivity. region_vm.
Qed.

(** At an explicit address only the first page is tested against the
    attached segments: a region that starts below a segment and runs into it
    panics the kernel instead of being refused. *)
Theorem shmat_overlap_panics :
  shmat 0 HEAPLIMIT 0 (after (shmat 1 (HEAPLIMIT + PGSIZE) 0) demo_two) = Panic "remap".
Proof. vm_compute. reflexivity. Qed.

(** A region of 7 of the 8 pages: one page is left for page tables. *)
Definition demo_tight : kernel unit :=
  after (shmget 44 24577 (Z.lor RW_SHM IPC_CREAT)) demo_kernel.

(** When memory for page tables runs out half way, [shmat] answers -1 and
    leaves the pages it has mapped in the page table, with no segment that
    records them: its clean-up passes a larger new size to [deallocuvm], which
    then does nothing. *)
Theorem shmat_oom_leaves_mapping :
  match shmat 0 (HEAPLIMIT + 1023 * PGSIZE) 0 demo_tight with
  | Ret ret s =>
      ret = MINUS1 /\ shmTable s = shmTable demo_tight /\ ptable s = ptable demo_tight /\
      present (pte_view (mem (kphys demo_tight)) demo_dir (HEAPLIMIT + 1023 * PGSIZE)) = false /\
      present (pte_view (mem (kphys s)) demo_dir (HEAPLIMIT + 1023 * PGSIZE)) = true
  | _ => False
  end.
Proof. vm_compute. split_and!; reflexivity. Qed.

(** ** Witnesses *)

Definition demo_region : shmRegion := default region0 (zidx (shmTable demo_after_get) 0).

Lemma demo_region_ok :
  zidx (shmTable demo_after_get) 0 = Some demo_region /\ region_used 0 demo_region.
Proof.
  split; [vm_compute; reflexivity|region_vm].
Qed.


Lemma demo_fits va len : fits va len (pages demo_proc).
Proof. intros n g [-> _]%lookup_replicate (Hu & _). discriminate. Qed.

Lemma shmat_explicit_witness : exists fl,
  wp (shmat 0 (HEAPLIMIT + PGSIZE) 0) (fun ret s' =>
    (ret = HEAPLIMIT + PGSIZE /\ exists fl', attached fl demo_proc demo_after_get 0 0 demo_region
       (HEAPLIMIT + PGSIZE) (attach_perm demo_region 0) fl' s') \/
    (ret = MINUS1 /\ attach_oom fl demo_proc demo_after_get s')) demo_after_get.
Proof.
  destruct demo_after_get_inv as [fl I]. exists fl. destruct demo_region_ok as [Hr U].
  apply (shmat_explicit fl demo_proc demo_after_get 0 0 demo_region _ _ I Hr U eq_refl).
  - discriminate.
  - vm_compute. reflexivity.
  - reflexivity.
  - apply demo_fits.
Defined.

(** The machine with region 0 attached. *)
Definition demo_attached : kernel unit := after (shmat 0 0 0) demo_after_get.

Definition demo_seg : sharedPages := mkPages 42 2 0 6 HEAPLIMIT.

Lemma demo_attached_inv : exists fl, shm_inv fl (add_seg 0 demo_seg demo_proc) demo_attached.
Proof.
  destruct demo_after_get_inv as [fl I]. destruct demo_region_ok as [Hr U].
  assert (Hf : shmat_fit (Z.to_nat SHAREDREGIONS) (pages demo_proc) HEAPLIMIT
    (size demo_region * PGSIZE) = Some HEAPLIMIT) by (vm_compute; reflexivity).
  assert (Hg : mkPages (key demo_region) (size demo_region) 0 (attach_perm demo_region 0) HEAPLIMIT =
    demo_seg) by (vm_compute; reflexivity).
  destruct (wp_run _ _ _ (shmat_at fl demo_proc demo_after_get 0 0 demo_region
    0 0 HEAPLIMIT I Hr U eq_refl Hf ltac:(split; [discriminate|reflexivity])
    eq_refl (demo_fits _ _))) as (a & s' & Hrun & Hpost).
  assert (Ha : a = HEAPLIMIT).
  { assert (H : match shmat 0 0 0 demo_after_get with Ret a _ => a | _ => 0 end = HEAPLIMIT)
      by (vm_compute; reflexivity).
    by rewrite Hrun in H. }
  unfold demo_attached, after. rewrite Hrun. subst a.
  destruct Hpost as [(_ & _ & fl' & A)|[(_ & Hx & _)|(_ & Hx & _)]]; [|discriminate Hx..].
  exists fl'. rewrite <- Hg. exact (Build_shm_inv _ _ _ _ _ (at_inv _ _ _ _ _ _ _ _ _ _ A) (at_count _ _ _ _ _ _ _ _ _ _ A (si_count _ _ _ I))).
Qed.

Definition demo_region1 : shmRegion := default region0 (zidx (shmTable demo_attached) 0).

Lemma shmdt_detaches_witness : exists fl ret s', shmdt HEAPLIMIT demo_attached = Ret ret s' /\ ret = 0 /\
  exists i g r fl', zidx (pages (add_seg 0 demo_seg demo_proc)) i = Some g /\ virtualAddr g = HEAPLIMIT /\
    shmdt_effect fl (add_seg 0 demo_seg demo_proc) demo_attached i g r fl' s'.
Proof.
  destruct demo_attached_inv as [fl I]. exists fl. pose proof (shmdt_detaches fl (add_seg 0 demo_seg demo_proc) demo_attached HEAPLIMIT (shm_state_segs _ _ _ I)) as H.
  apply wp_run in H. destruct H as (ret & s' & Hrun & [(_ & _ & Hno)|(Hret & i & g & r & fl' & Hg & _ & Hva & _ & He & _)]).
  - exfalso. apply (Hno 0%nat demo_seg); reflexivity.
  - exists ret, s'. split; [exact Hrun|]. split; [exact Hret|]. exists i, g, r, fl'. exact (conj Hg (conj Hva He)).
Defined.

Lemma shmdt_unknown_witness : shmdt 4096 demo_kernel = Ret (-1) demo_kernel.
Proof.
  apply (shmdt_unknown demo_pages demo_proc); [apply demo_kernel_inv|].
  intros n g [-> _]%lookup_replicate. discriminate.
Defined.

Lemma shmat_shmdt_roundtrip_witness :
  wp (let! va := shmat 0 0 0 in
      if va =? MINUS1 then ret None else let! d := shmdt va in ret (Some d))
    (fun res s' => res = None \/ res = Some 0) demo_after_get.
Proof.
  destruct demo_after_get_inv as [fl I]. destruct demo_region_ok as [Hr U].
  eapply wpx_mono; [apply (shmat_shmdt_roundtrip fl demo_proc demo_after_get 0 0 demo_region 0 I Hr U eq_refl)| |done].
  - vm_compute. reflexivity.
  - intros res s' [->|(-> & _)]; auto.
Defined.

Lemma shmctl_rmid_witness : exists fl,
  wp (shmctl 0 IPC_RMID 0) (fun ret s' => ret = 0 /\ exists fl' r',
    shm_inv fl' demo_proc s' /\ zidx (shmTable s') 0 = Some r' /\
    (forall k, k <> 0 -> zidx (shmTable s') k = zidx (shmTable demo_after_get) k) /\
    if shm_nattch (buffer demo_region) =? 0
    then region_free r' /\ fl' = rev (region_pages demo_region) ++ fl
    else r' = set_toBeDeleted 1 demo_region /\ fl' = fl) demo_after_get.
Proof.
  destruct demo_after_get_inv as [fl I]. exists fl. destruct demo_region_ok as [Hr U].
  exact (shmctl_rmid fl demo_proc demo_after_get 0 demo_region 0 I Hr U).
Defined.

Lemma shmget_leaks_pages_witness :
  wp (shmget 42 100000 (Z.lor RW_SHM IPC_CREAT)) (fun ret s' =>
    ret = -1 /\ phys_ok [] (kphys s') /\
    shm_pages (shmTable s') ≡ₚ shm_pages (shmTable demo_kernel)) demo_kernel.
Proof.
  apply (shmget_leaks_pages 42 100000 RW_SHM demo_pages demo_proc demo_kernel 0 region0 demo_kernel_inv).
  - discriminate.
  - intros j r ->%demo_kernel_region. discriminate.
  - by right.
  - reflexivity.
  - vm_compute. discriminate.
  - reflexivity.
  - reflexivity.
  - vm_compute. reflexivity.
Defined.

Lemma shmid_64_out_of_bounds_witness :
  shmat 64 0 0 demo_kernel = Fault "shmTable.allRegions" /\
  shmctl 64 0 0 demo_kernel = Fault "shmTable.allRegions" /\
  getShmidIndex 64 demo_kernel = Fault "shmTable.allRegions".
Proof. apply (shmid_64_out_of_bounds demo_kernel 0 0); reflexivity. Defined.
