(* ===== verification/Proc.v ===== *)
(** * Processes (src/proc.c)

    The process table and the operations on it.  Code that gives up the CPU is
    split at [sched]: [exit_], [wait_scan], [sleep_enter] and [yield_enter] run
    up to the switch, [sleep_exit] and [yield_exit] are what runs when the
    process is scheduled again.  Sched.v puts the pieces together. *)

From S2P Require Import Prelude.
From S2P Require Import CString.
From S2P Require Import Mmu.
From S2P Require Import Kalloc.
From S2P Require Import Vm.
From S2P Require Import Kernel.
From S2P Require Import Shm.

Open Scope Z_scope.

(** Segment selectors, flags and sizes (mmu.h, x86.h). *)
Definition SEG_UCODE : Z := 3.
Definition SEG_UDATA : Z := 4.
Definition DPL_USER : Z := 3.
Definition FL_IF : Z := 512.
Definition SIZEOF_TRAPFRAME : Z := 76.
Definition SIZEOF_CONTEXT : Z := 20.

(** The largest int; [nextpid++] is undefined there. *)
Definition INT_MAX : Z := 2147483647.

(** Addresses of the kernel code and data that proc.c refers to. *)
Class KernelCode := {
  forkret_ : Z;
  trapret_ : Z;
  initcode_start : Z;
  initcode_size : Z;
}.

(** First index of the table whose process satisfies [f]. *)
Fixpoint find_proc (f : proc -> bool) (i : nat) (l : list proc) : option nat :=
  match l with
  | [] => None
  | p :: l' => if f p then Some i else find_proc f (S i) l'
  end.

(** A segment slot of a new process. *)
Definition new_pages : sharedPages := mkPages NOKEY 0 (-1) (Z.lor PTE_W PTE_U) 0.

(** A name of 16 bytes: [safestrcpy(dst, src, 16)] on the name field. *)
Fixpoint take_name (n : nat) (src : list Z) : list Z :=
  match n, src with
  | S n', c :: src' => if c =? 0 then [] else c :: take_name n' src'
  | _, _ => []
  end.

Definition copy_name (src : list Z) : list Z := take_name 15 src.

Definition state_eqb (a b : procstate) : bool := bool_decide (a = b).

Section proc.
Context {K : KernelImage} {KC : KernelCode} {F : Type} {FO : FileOps F}.

Definition ptable_acquire : M (kernel F) unit := lock_acquire ptable_lock set_ptable_lock.
Definition ptable_release : M (kernel F) unit := lock_release ptable_lock set_ptable_lock.

(** [initlock] *)
Definition pinit : M (kernel F) unit := modify (set_ptable_lock false).

(** Allocate a slot, a pid and a kernel stack.  The stack holds the trap
    frame, the return address trapret, and the context that starts forkret. *)
Definition allocproc : M (kernel F) (option nat) :=
  do! ptable_acquire in
  let! tab := gets ptable in
  match find_proc (fun p => state_eqb (state p) UNUSED) 0 tab with
  | None => do! ptable_release in ret None
  | Some i =>
      do! upd_proc i (set_state EMBRYO) in
      let! pid_ := gets nextpid in
      do! upd_proc i (set_pid pid_) in
      do! (if pid_ =? INT_MAX then fault "nextpid overflow" else modify (set_nextpid (pid_ + 1))) in
      do! ptable_release in
      let! stack := inphys kalloc in
      do! upd_proc i (set_kstack stack) in
      if stack =? 0 then do! upd_proc i (set_state UNUSED) in ret None else
      let sp := stack + KSTACKSIZE in
      let sp := sp - SIZEOF_TRAPFRAME in
      let sp := sp - 4 in
      do! inphys (upd_mem (fun m => st32 m sp trapret_)) in
      let sp := sp - SIZEOF_CONTEXT in
      do! upd_proc i (set_context sp) in
      do! inphys (upd_mem (fun m => memset m sp 0 SIZEOF_CONTEXT)) in
      do! inphys (upd_mem (fun m => st32 m (sp + 16) forkret_)) in
      do! upd_proc i (set_pages (replicate (Z.to_nat SHAREDREGIONS) new_pages)) in
      ret (Some i)
  end.

(** "initcode" and "/" *)
Definition initcode_name : list Z := [105; 110; 105; 116; 99; 111; 100; 101].
Definition root_path : list Z := [47].

(** The result of [allocproc] is not tested: a null pointer faults. *)
Definition userinit : M (kernel F) unit :=
  let! r := allocproc in
  match r with
  | None => fault "userinit: null process"
  | Some p =>
      do! modify (set_initproc p) in
      let! d := inphys setupkvm in
      do! upd_proc p (set_pgdir d) in
      if d =? 0 then panic "userinit: out of memory?" else
      do! inphys (inituvm d initcode_start initcode_size) in
      do! upd_proc p (set_sz PGSIZE) in
      let ds := Z.lor (Z.shiftl SEG_UDATA 3) DPL_USER in
      let cs := Z.lor (Z.shiftl SEG_UCODE 3) DPL_USER in
      do! upd_proc p (set_tf (mkTf 0 0 0 0 0 0 0 0 0 0 ds ds 0 0 0 cs FL_IF PGSIZE ds)) in
      do! upd_proc p (set_name (copy_name initcode_name)) in
      let! root := infs (namei 0 root_path) in
      do! upd_proc p (set_cwd root) in
      do! ptable_acquire in
      do! upd_proc p (set_state RUNNABLE) in
      ptable_release
  end.

(** The checks of [switchuvm]; what it loads into the CPU is not modelled. *)
Definition switchuvm (i : nat) : M (kernel F) unit :=
  let! p := get_proc i in
  if kstack p =? 0 then panic "switchuvm: no kstack" else
  if pgdir p =? 0 then panic "switchuvm: no pgdir" else ret tt.

Definition growproc (n : Z) : M (kernel F) Z :=
  let! cur := myproc in
  let! p := get_proc cur in
  if 0 <? n then
    let! sz_ := inphys (allocuvm (pgdir p) (sz p) (u32 (sz p + n))) in
    if sz_ =? 0 then ret (-1) else
    do! upd_proc cur (set_sz sz_) in do! switchuvm cur in ret 0
  else if n <? 0 then
    let! sz_ := inphys (deallocuvm (pgdir p) (sz p) (u32 (sz p + n))) in
    if sz_ =? 0 then ret (-1) else
    do! upd_proc cur (set_sz sz_) in do! switchuvm cur in ret 0
  else
    do! upd_proc cur (set_sz (sz p)) in do! switchuvm cur in ret 0.

(** One iteration of fork's loop over the open files. *)
Definition fork_file (cur np : nat) (i : Z) : M (kernel F) unit :=
  let! p := get_proc cur in
  let! n := get_proc np in
  match zidx (ofile p) i, zidx (ofile n) i with
  | Some f, Some _ =>
      if nz f then
        do! infs (filedup f) in
        upd_proc np (fun n => set_ofile (zupd (ofile n) i f) n)
      else ret tt
  | _, _ => fault "ofile"
  end.

(** One iteration of fork's loop over the shared segments. *)
Definition fork_seg (cur np : nat) (i : Z) : M (kernel F) unit :=
  let! g := get_pages cur i in
  if negb (pkey g =? NOKEY) && negb (pshmid g =? -1) then
    do! upd_pages np i (fun _ => g) in
    let! index := getShmidIndex (pshmid g) in
    if negb (index =? -1) then mappagesWrapper np index i else ret tt
  else ret tt.

Definition fork : M (kernel F) Z :=
  let! cur := myproc in
  let! r := allocproc in
  match r with
  | None => ret (-1)
  | Some np =>
      let! p := get_proc cur in
      let! d := inphys (copyuvm (pgdir p) (sz p)) in
      do! upd_proc np (set_pgdir d) in
      if d =? 0 then
        let! n := get_proc np in
        do! inphys (kfree (kstack n)) in
        do! upd_proc np (set_kstack 0) in
        do! upd_proc np (set_state UNUSED) in
        ret (-1)
      else
        do! upd_proc np (set_sz (sz p)) in
        do! upd_proc np (set_parent (Some cur)) in
        do! upd_proc np (set_tf (tf p)) in
        do! upd_proc np (fun n => set_tf (set_eax 0 (tf n)) n) in
        do! mfor (zrange 0 (Z.to_nat NOFILE)) (fork_file cur np) in
        do! infs (idup (cwd p)) in
        do! upd_proc np (set_cwd (cwd p)) in
        do! upd_proc np (set_name (copy_name (name p))) in
        let! n := get_proc np in
        do! mfor (zrange 0 (Z.to_nat SHAREDREGIONS)) (fork_seg cur np) in
        do! ptable_acquire in
        do! upd_proc np (set_state RUNNABLE) in
        do! ptable_release in
        ret (pid n)
  end.

(** ** Sleep and wakeup *)

Definition wakes (c : channel) (p : proc) : bool :=
  state_eqb (state p) SLEEPING && bool_decide (chan p = c).

Definition wakeup1 (c : channel) : M (kernel F) unit :=
  modify (fun s => set_ptable (map (fun p => if wakes c p then set_state RUNNABLE p else p) (ptable s)) s).

Definition wakeup (c : channel) : M (kernel F) unit :=
  do! ptable_acquire in do! wakeup1 c in ptable_release.

(** The checks [sched] makes before it switches.  [ncli] counts the spin
    locks this CPU holds; interrupts are off while one is held. *)
Definition sched : M (kernel F) unit :=
  let! cur := myproc in
  let! p := get_proc cur in
  let! held := gets ptable_lock in
  if negb held then panic "sched ptable.lock" else
  let! others := gets (fun s => shm_lock s || kmem_lock (kphys s)) in
  if others then panic "sched locks" else
  if state_eqb (state p) RUNNING then panic "sched running" else ret tt.

Definition yield_enter : M (kernel F) unit :=
  do! ptable_acquire in
  let! cur := myproc in
  do! upd_proc cur (set_state RUNNABLE) in
  sched.

Definition yield_exit : M (kernel F) unit := ptable_release.

(** [sleep(chan, lk)] up to the switch; [lk] is ptable.lock or another lock,
    given by its release. *)
Definition sleep_enter (c : channel) (lk : option (M (kernel F) unit)) : M (kernel F) unit :=
  let! cur := myproc in
  do! match lk with
      | None => ret tt
      | Some rel => do! ptable_acquire in rel
      end in
  do! upd_proc cur (set_chan c) in
  do! upd_proc cur (set_state SLEEPING) in
  sched.

(** The rest of [sleep]; [lk] is given by its acquire. *)
Definition sleep_exit (lk : option (M (kernel F) unit)) : M (kernel F) unit :=
  let! cur := myproc in
  do! upd_proc cur (set_chan ChNone) in
  match lk with
  | None => ret tt
  | Some acq => do! ptable_release in acq
  end.

(** ** exit, wait, kill *)

Definition exit_file (cur : nat) (i : Z) : M (kernel F) unit :=
  let! p := get_proc cur in
  match zidx (ofile p) i with
  | Some f =>
      if nz f then
        do! infsp (fileclose f) in
        upd_proc cur (fun p => set_ofile (zupd (ofile p) i 0) p)
      else ret tt
  | None => fault "ofile"
  end.

Definition exit_seg (cur : nat) (i : Z) : M (kernel F) unit :=
  let! g := get_pages cur i in
  if negb (pshmid g =? -1) && negb (pkey g =? NOKEY)
  then shmdtWrapper (virtualAddr g) else ret tt.

(** Pass a child to init, waking init for a zombie. *)
Definition exit_child (cur init : nat) (i : Z) : M (kernel F) unit :=
  let! p := get_proc (Z.to_nat i) in
  if bool_decide (parent p = Some cur) then
    do! upd_proc (Z.to_nat i) (set_parent (Some init)) in
    if state_eqb (state p) ZOMBIE then wakeup1 (ChProc init) else ret tt
  else ret tt.

(** The channel of a pointer to a process. *)
Definition proc_chan (p : option nat) : channel :=
  match p with Some i => ChProc i | None => ChNone end.

(** [exit] up to the switch it never returns from. *)
Definition exit_ : M (kernel F) unit :=
  let! cur := myproc in
  let! init := gets initproc in
  if bool_decide (cur = init) then panic "init exiting" else
  do! mfor (zrange 0 (Z.to_nat NOFILE)) (exit_file cur) in
  do! mfor (zrange 0 (Z.to_nat SHAREDREGIONS)) (exit_seg cur) in
  let! p := get_proc cur in
  do! infs begin_op in
  do! infs (iput (cwd p)) in
  do! infs end_op in
  do! upd_proc cur (set_cwd 0) in
  do! ptable_acquire in
  do! wakeup1 (proc_chan (parent p)) in
  do! mfor (zrange 0 (Z.to_nat NPROC)) (exit_child cur init) in
  do! upd_proc cur (set_state ZOMBIE) in
  sched.

Inductive wait_result := WPid (pid : Z) | WNoChild | WSleep.

Definition is_child (cur : nat) (p : proc) : bool := bool_decide (parent p = Some cur).
Definition zombie_child (cur : nat) (p : proc) : bool := is_child cur p && state_eqb (state p) ZOMBIE.

(** The loop body of [wait], with ptable.lock held: the zombie child that is
    found first is freed; without one, -1 or sleep. *)
Definition wait_scan : M (kernel F) wait_result :=
  let! cur := myproc in
  let! tab := gets ptable in
  match find_proc (zombie_child cur) 0 tab with
  | Some i =>
      let! p := get_proc i in
      do! inphys (kfree (kstack p)) in
      do! upd_proc i (set_kstack 0) in
      do! inphys (freevm (pgdir p)) in
      do! upd_proc i (set_pid 0) in
      do! upd_proc i (set_parent None) in
      do! upd_proc i (set_name []) in
      do! upd_proc i (set_killed 0) in
      do! upd_proc i (set_state UNUSED) in
      do! ptable_release in
      ret (WPid (pid p))
  | None =>
      let! p := get_proc cur in
      if negb (existsb (is_child cur) tab) || nz (killed p)
      then do! ptable_release in ret WNoChild
      else do! sleep_enter (ChProc cur) None in ret WSleep
  end.

Definition wait_enter : M (kernel F) wait_result :=
  do! ptable_acquire in wait_scan.

Definition kill (pid_ : Z) : M (kernel F) Z :=
  do! ptable_acquire in
  let! tab := gets ptable in
  match find_proc (fun p => pid p =? pid_) 0 tab with
  | Some i =>
      do! upd_proc i (set_killed 1) in
      let! p := get_proc i in
      do! (if state_eqb (state p) SLEEPING then upd_proc i (set_state RUNNABLE) else ret tt) in
      do! ptable_release in
      ret 0
  | None => do! ptable_release in ret (-1)
  end.

(** One choice of the scheduler, with ptable.lock held: the first RUNNABLE
    process from slot [from] on runs. *)
Definition scheduler_pick (from : nat) : M (kernel F) (option nat) :=
  let! tab := gets ptable in
  match find_proc (fun p => state_eqb (state p) RUNNABLE) from (drop from tab) with
  | None => ret None
  | Some i =>
      do! modify (set_curproc i) in
      do! switchuvm i in
      do! upd_proc i (set_state RUNNING) in
      ret (Some i)
  end.

End proc.

(** * Lemmas *)

Lemma find_proc_Some f l : forall i0 i,
  find_proc f i0 l = Some i ->
  exists n p, i = (i0 + n)%nat /\ l !! n = Some p /\ f p = true /\
    forall m q, (m < n)%nat -> l !! m = Some q -> f q = false.
Proof.
  induction l as [|p l IH]; intros i0 i H; simpl in H; [done|]. destruct (f p) eqn:Hp.
  - injection H as <-. exists 0%nat, p. split_and!; [lia|done..|]. intros m q Hm. lia.
  - destruct (IH _ _ H) as (n & q & -> & Hq & Hf & Hlt). exists (S n), q. split_and!; [lia|done..|].
    intros [|m] r Hm Hr; simpl in Hr; [by simplify_eq|]. apply (Hlt m); [lia|done].
Qed.

Lemma find_proc_None f l : forall i0 n p, find_proc f i0 l = None -> l !! n = Some p -> f p = false.
Proof.
  induction l as [|q l IH]; intros i0 n p H Hp; simpl in H; [done|].
  destruct (f q) eqn:Hq; [done|]. destruct n; simpl in Hp; [by simplify_eq|]. eauto.
Qed.
