(* ===== verification/ShmDetach.v ===== *)
(** * Detaching every segment (src/exec.c, src/proc.c)

    The loop of [exec] and [exit] that detaches the shared segments of the
    process, whatever the attach counts are. *)

From S2P Require Import Prelude.
From S2P Require Import Mmu.
From S2P Require Import Kalloc.
From S2P Require Import Vm.
From S2P Require Import Uvm.
From S2P Require Import Kernel.
From S2P Require Import Shm.
From S2P Require Import ShmGet.
From S2P Require Import ShmAttach.
From S2P Require Import Proc.

Open Scope Z_scope.

Section detach.
Context {K : KernelImage} {KI : KernelImageOk K} {F : Type}.
Implicit Types (s : kernel F) (pr : proc).

(** A region of the table afterwards: the same but for its counts, or removed,
    with its pages free. *)
Definition region_after (fl' : list Z) (r r' : shmRegion) : Prop :=
  same_region r r' /\ (region_free r -> region_free r') \/ region_free r' /\ forall q, q ∈ region_pages r -> q ∈ fl'.

(** The segments in the slots below [i] are detached: the process is [pr'], and
    only the table, the pages of removed regions and the address space above
    HEAPLIMIT have changed. *)
Record detached_to (i : Z) (fl : list Z) (pr : proc) (s : kernel F) (fl' : list Z) (pr' : proc) (s' : kernel F) : Prop := {
  dt_inv : segs_inv fl' pr' s';
  dt_proc : pr' = set_pages (pages pr') pr;
  dt_slots : forall n g, pages pr' !! n = Some g -> if Z.of_nat n <? i then seg_used g = false else pages pr !! n = Some g;
  dt_rest : s' = set_shmTable (shmTable s') (set_ptable (<[curproc s := pr']> (ptable s)) (set_kphys (kphys s') s));
  dt_low : forall va, 0 <= va < HEAPLIMIT -> pte_view (mem (kphys s')) (pgdir pr) va = pte_view (mem (kphys s)) (pgdir pr) va;
  dt_pt : forall q, pt_page (mem (kphys s')) (pgdir pr) q <-> pt_page (mem (kphys s)) (pgdir pr) q;
  dt_sub : forall q, q ∈ fl -> q ∈ fl';
  dt_free : forall q, q ∈ fl' -> q ∈ fl \/ q ∈ shm_pages (shmTable s);
  dt_table : forall n r, zidx (shmTable s) n = Some r -> exists r', zidx (shmTable s') n = Some r' /\ region_after fl' r r';
  dt_data : forall q, is_page q -> ~ pt_page (mem (kphys s)) (pgdir pr) q -> q ∉ fl' -> same_bytes (mem (kphys s)) (mem (kphys s')) q;
  dt_lock : use_lock (kphys s') = use_lock (kphys s);
  dt_noop : Forall (fun g => seg_used g = false) (pages pr) -> s' = s /\ fl' = fl;
}.

(** * Lemmas *)

(** ** One segment *)

Lemma elem_of_shm_pages tab q : q ∈ shm_pages tab <-> exists n r, zidx tab n = Some r /\ q ∈ region_pages r.
Proof.
  unfold shm_pages. rewrite list_elem_of_In, in_concat. setoid_rewrite <- list_elem_of_In. split.
  - intros (l & (r & -> & Hr)%list_elem_of_fmap & Hq). apply list_elem_of_lookup in Hr as [n Hn].
    exists (Z.of_nat n), r. split; [|done]. apply zidx_Some. rewrite Nat2Z.id. split; [lia|done].
  - intros (n & r & [_ Hr]%zidx_Some & Hq). exists (region_pages r). split; [|done].
    apply list_elem_of_fmap. exists r. split; [done|]. by eapply list_elem_of_lookup_2.
Qed.

Lemma effect_sub fl pr s i g r fl' s' q : shmdt_effect fl pr s i g r fl' s' -> q ∈ fl -> q ∈ fl'.
Proof.
  intros E Hq. pose proof (de_table _ _ _ _ _ _ _ _ E) as Ht. cbv zeta in Ht.
  destruct (last_detach r); [|by destruct Ht as [-> _]]. destruct Ht as (ri & rf & tab1 & _ & _ & -> & _). apply elem_of_app. by right.
Qed.

Lemma effect_free fl pr s i g r fl' s' q : table_ok fl (shmTable s) -> shmdt_effect fl pr s i g r fl' s' -> q ∈ fl' ->
  q ∈ fl \/ q ∈ shm_pages (shmTable s).
Proof.
  intros T E Hq. pose proof (de_table _ _ _ _ _ _ _ _ E) as Ht. cbv zeta in Ht.
  destruct (last_detach r); [|destruct Ht as [-> _]; by left]. destruct Ht as (ri & rf & tab1 & Hi & _ & -> & _).
  rewrite elem_of_app, list_elem_of_In, <- in_rev, <- list_elem_of_In in Hq. destruct Hq as [Hq|Hq]; [right|by left].
  apply elem_of_shm_pages. by exists i, ri.
Qed.

Lemma touch_left_same pid r : same_region r (set_buffer (set_lpid pid) (left_by r)) /\ (region_free r -> region_free (set_buffer (set_lpid pid) (left_by r))).
Proof.
  split; [apply left_by_same|]. intros (H1 & H2 & H3 & H4 & H5). unfold left_by. rewrite H5. cbn. by split_and!.
Qed.

Lemma effect_table fl pr s i g r fl' s' n rn : shmdt_effect fl pr s i g r fl' s' -> zidx (shmTable s) (pshmid g) = Some r ->
  zidx (shmTable s) n = Some rn -> exists r', zidx (shmTable s') n = Some r' /\ region_after fl' rn r'.
Proof.
  intros E Hr Hn. pose proof (de_table _ _ _ _ _ _ _ _ E) as Ht. cbv zeta in Ht. destruct (last_detach r).
  - destruct Ht as (ri & rf & tab1 & Hi & Hf & -> & T1 & T2). rewrite T2. setoid_rewrite T1.
    assert (Hri : forall q, q ∈ region_pages ri -> q ∈ rev (region_pages ri) ++ fl).
    { intros q Hq. apply elem_of_app. left. by rewrite list_elem_of_In, <- in_rev, <- list_elem_of_In. }
    assert (Hft : region_free (set_buffer (set_lpid (pid pr)) rf)) by (by destruct Hf as (?&?&?&?&?)).
    destruct (Z.eqb_spec n (pshmid g)) as [->|Hne].
    + eexists. split; [done|]. rewrite Hr in Hn. injection Hn as <-. destruct (Z.eqb_spec i (pshmid g)) as [->|]; [|left; apply touch_left_same].
      right. split; [done|]. rewrite Hr in Hi. by injection Hi as <-.
    + destruct (Z.eqb_spec n i) as [->|]; [|exists rn; split; [done|]; by left]. exists rf. split; [done|]. right. split; [done|].
      rewrite Hn in Hi. by injection Hi as <-.
  - destruct Ht as [-> T1]. rewrite T1. destruct (Z.eqb_spec n (pshmid g)) as [->|Hne]; [|exists rn; split; [done|]; by left].
    eexists. split; [done|]. rewrite Hr in Hn. injection Hn as <-. left. apply touch_left_same.
Qed.

Lemma region_after_pages fl' r r' q : region_after fl' r r' -> q ∈ region_pages r' -> q ∈ region_pages r.
Proof.
  intros [[Hs _]|[Hf _]]; [by rewrite (same_region_pages _ _ Hs)|]. rewrite (region_pages_free r') by apply Hf. by intros ?%elem_of_nil.
Qed.

Lemma region_after_trans fl1 fl2 r r1 r2 : (forall q, q ∈ fl1 -> q ∈ fl2) -> region_after fl1 r r1 -> region_after fl2 r1 r2 -> region_after fl2 r r2.
Proof.
  intros Hsub [[H1 F1]|[F1 P1]] H2.
  - destruct H2 as [[H2 F2]|[F2 P2]]; [left|right].
    + split; [|auto]. destruct H1 as (?&?&?), H2 as (?&?&?). split_and!; congruence.
    + split; [done|]. intros q Hq. apply P2. by rewrite (same_region_pages _ _ H1).
  - right. split; [|auto]. destruct H2 as [[_ F2]|[F2 _]]; [auto|done].
Qed.

(** ** The loop *)

Lemma detached_start fl pr s : segs_inv fl pr s -> detached_to 0 fl pr s fl pr s.
Proof.
  intros I. split; try done.
  - by destruct pr.
  - intros n g Hg. by rewrite (proj2 (Z.ltb_ge _ _)) by lia.
  - rewrite list_insert_id by apply I. by destruct s.
  - by left.
  - intros n r Hr. exists r. split; [done|]. by left.
Qed.

Lemma detached_skip i fl pr s fl' pr' s' g : detached_to i fl pr s fl' pr' s' -> 0 <= i -> zidx (pages pr') i = Some g -> seg_used g = false ->
  detached_to (i + 1) fl pr s fl' pr' s'.
Proof.
  intros [D1 D2 D3 D4 D5 D6 D7 D8 D9 D10 D11 D12] Hi [_ Hg]%zidx_Some Hu. split; try done. intros n h Hn. specialize (D3 n h Hn).
  destruct (Z.ltb_spec (Z.of_nat n) i), (Z.ltb_spec (Z.of_nat n) (i + 1)); try done; try lia.
  replace n with (Z.to_nat i) in Hn by lia. congruence.
Qed.

Lemma detached_step i fl pr s fl1 pr1 s1 g r fl2 s2 : segs_inv fl pr s -> detached_to i fl pr s fl1 pr1 s1 -> 0 <= i ->
  zidx (pages pr1) i = Some g -> seg_used g = true -> zidx (shmTable s1) (pshmid g) = Some r -> shmdt_effect fl1 pr1 s1 i g r fl2 s2 ->
  detached_to (i + 1) fl pr s fl2 (drop_seg i g pr1) s2.
Proof.
  intros I [D1 D2 D3 D4 D5 D6 D7 D8 D9 D10 D11 D12] Hi Hg Hu Hr E. pose proof Hg as [_ Hg']%zidx_Some. pose proof (D3 _ _ Hg') as Hold.
  rewrite (proj2 (Z.ltb_ge _ _)) in Hold by lia. assert (Hdir : pgdir pr1 = pgdir pr) by (by rewrite D2). assert (Hcur : curproc s1 = curproc s) by (by rewrite D4).
  assert (Hseg : HEAPLIMIT <= virtualAddr g) by (by destruct (so_seg _ (sv_segs _ _ _ D1) _ _ Hg' Hu) as (_ & ? & _)).
  split.
  - apply E.
  - rewrite D2. done.
  - intros n h Hn. cbn in Hn. rewrite (lookup_zupd _ _ _ _ _ Hg) in Hn. case_decide as Hni.
    + simplify_eq. by rewrite (proj2 (Z.ltb_lt _ _)) by lia.
    + specialize (D3 n h Hn). destruct (Z.ltb_spec (Z.of_nat n) i), (Z.ltb_spec (Z.of_nat n) (i + 1)); try done; lia.
  - rewrite (de_rest _ _ _ _ _ _ _ _ E), (de_procs _ _ _ _ _ _ _ _ E), Hcur. cbn. rewrite D4. cbn. by rewrite list_insert_insert_eq.
  - intros va Hva. rewrite <- D5 by done. rewrite <- Hdir, (de_view _ _ _ _ _ _ _ _ E) by (consts; unfold is_u32; lia). by rewrite (proj2 (Z.leb_gt _ _)) by lia.
  - intros q. rewrite <- D6, <- Hdir. apply (de_pt _ _ _ _ _ _ _ _ E).
  - intros q Hq. by eapply effect_sub, D7.
  - intros q Hq. destruct (effect_free _ _ _ _ _ _ _ _ _ (sv_tab _ _ _ D1) E Hq) as [Hq1|Hq1]; [by apply D8|]. right.
    apply elem_of_shm_pages in Hq1 as (n & r1 & Hn & Hq1). destruct (zidx_lt (shmTable s) n) as [r0 Hr0].
    { apply zidx_range in Hn. by rewrite (to_len _ _ (sv_tab _ _ _ D1)), <- (to_len _ _ (sv_tab _ _ _ I)) in Hn. }
    apply elem_of_shm_pages. exists n, r0. split; [done|]. destruct (D9 _ _ Hr0) as (r1' & Hr1' & Ha). assert (r1' = r1) as -> by congruence. by eapply region_after_pages.
  - intros n r0 Hn. destruct (D9 _ _ Hn) as (r1 & Hr1 & A1). destruct (effect_table _ _ _ _ _ _ _ _ _ _ E Hr Hr1) as (r2 & Hr2 & A2).
    exists r2. split; [done|]. eapply region_after_trans; [|done..]. intros q. by apply (effect_sub _ _ _ _ _ _ _ _ _ E).
  - intros q Hq Hpt Hfl. eapply same_bytes_trans; [apply D10; [done..|]|].
    + intros Hq1. by apply Hfl, (effect_sub _ _ _ _ _ _ _ _ _ E).
    + apply (de_data _ _ _ _ _ _ _ _ E); [done| |done]. by rewrite Hdir, D6.
  - by rewrite (de_lock _ _ _ _ _ _ _ _ E).
  - intros Hno. rewrite Forall_lookup in Hno. by rewrite (Hno _ _ Hold) in Hu.
Qed.

(** The whole loop. *)
Lemma exit_segs_spec fl pr s : segs_inv fl pr s ->
  wp (mfor (zrange 0 (Z.to_nat SHAREDREGIONS)) (exit_seg (F := F) (curproc s))) (fun _ s' =>
    exists fl' pr', detached_to SHAREDREGIONS fl pr s fl' pr' s') s.
Proof.
  intros I. eapply wpx_mono; [apply (wpx_zrange _ (fun i s' => exists fl' pr', detached_to i fl pr s fl' pr' s') never (Z.to_nat SHAREDREGIONS) 0)| |]; try done.
  - intros i s' Hi (fl1 & pr1 & D). pose proof (dt_inv _ _ _ _ _ _ _ D) as I1. destruct (zidx_lt (pages pr1) i) as [g Hg].
    { rewrite (so_len _ (sv_segs _ _ _ I1)). consts. lia. }
    assert (Hcur : curproc s' = curproc s) by (by rewrite (dt_rest _ _ _ _ _ _ _ D)).
    unfold exit_seg. wp_step. eapply wpx_get_pages; [rewrite <- Hcur; apply I1|exact Hg|]. pose proof Hg as [_ Hg']%zidx_Some.
    destruct (seg_used g) eqn:Hu.
    + destruct (sv_region _ _ _ I1 _ _ Hg' Hu) as [r Hr]. pose proof (zidx_range _ _ _ Hr). rewrite (proj2 (Z.eqb_neq (pshmid g) (-1))) by lia.
      unfold seg_used in Hu. rewrite Hu. cbn [negb andb]. fold (seg_used g) in Hu. unfold shmdtWrapper. wp_step.
      eapply wpx_mono; [apply (shmdt_run fl1 pr1 s' i g r I1 Hg Hu Hr)| |done]. intros ret s2 (_ & fl2 & E). apply wpx_ret.
      exists fl2, (drop_seg i g pr1). eapply detached_step; [done|done|lia|done..].
    + unfold seg_used in Hu. rewrite Hu, andb_false_r. apply wpx_ret. exists fl1, pr1. eapply detached_skip; [done|lia|done..].
  - exists fl, pr. by apply detached_start.
Qed.

End detach.
