(* ===== verification/Sched.v ===== *)
(** * Scheduling: several CPUs sharing the process table

    A system is a kernel state and, for each CPU, the process it runs.  A step
    is one kernel call of the process on some CPU, or a choice of a CPU's
    scheduler; every call that gives up the CPU leaves it to the scheduler.
    The invariant: the RUNNING processes are exactly those on a CPU, and a
    parent that sleeps in [wait] has no zombie child, so no exit is missed. *)

From S2P Require Import Prelude.
From S2P Require Import Kalloc.
From S2P Require Import Mmu.
From S2P Require Import Vm.
From S2P Require Import Kernel.
From S2P Require Import Shm.
From S2P Require Import Proc.

Open Scope Z_scope.

(** What scheduling looks at of a process. *)
Record pcore := mkCore {
  c_state : procstate;
  c_parent : option nat;
  c_chan : channel;
  c_pid : Z;
  c_killed : Z;
}.

Definition core (p : proc) : pcore := mkCore (state p) (parent p) (chan p) (pid p) (killed p).

(** The invariant of the table [l], the next pid and the CPUs [cs]: the
    RUNNING processes are those on a CPU, each on one; pids are not used twice;
    a process asleep in [wait] has no zombie child; nobody is its own parent,
    and init has none and stays. *)
Record table_inv (init : nat) (l : list pcore) (next : Z) (cs : list (option nat)) : Prop := {
  ti_len : length l = Z.to_nat NPROC;
  ti_running : forall c i, cs !! c = Some (Some i) -> exists p, l !! i = Some p /\ c_state p = RUNNING;
  ti_only : forall i p, l !! i = Some p -> c_state p = RUNNING -> exists c, cs !! c = Some (Some i);
  ti_once : forall c c' i, cs !! c = Some (Some i) -> cs !! c' = Some (Some i) -> c = c';
  ti_next : 0 < next;
  ti_pid : forall i p, l !! i = Some p -> c_pid p < next;
  ti_pid_inj : forall i j p q, l !! i = Some p -> l !! j = Some q ->
    c_state p <> UNUSED -> c_state q <> UNUSED -> c_pid p = c_pid q -> i = j;
  ti_wait : forall i p j q, l !! i = Some p -> l !! j = Some q ->
    c_state p = SLEEPING -> c_chan p = ChProc i -> c_parent q = Some i -> c_state q <> ZOMBIE;
  ti_self : forall i p, l !! i = Some p -> c_parent p <> Some i;
  ti_init : exists p, l !! init = Some p /\ c_parent p = None /\ c_state p <> UNUSED /\ c_state p <> ZOMBIE;
}.

Section sched_defs.
Context {K : KernelImage} {KC : KernelCode} {F : Type} {FO : FileOps F}.

Definition cores (s : kernel F) : list pcore := core <$> ptable s.

(** The scheduling part of two states is the same. *)
Record same_core (s s' : kernel F) : Prop := {
  sc_cores : cores s' = cores s;
  sc_cur : curproc s' = curproc s;
  sc_init : initproc s' = initproc s;
  sc_next : nextpid s' = nextpid s;
  sc_lock : ptable_lock s' = ptable_lock s;
}.

(** [c] leaves the scheduling part alone whenever it returns. *)
Definition quiet {A} (c : M (kernel F) A) : Prop :=
  forall s a s', c s = Ret a s' -> same_core s s'.

(** ** Systems *)

Record sys := mkSys { ks : kernel F; cpus : list (option nat) }.

(** The kernel as CPU [c] sees it while it runs process [i]. *)
Definition on_cpu (i : nat) (s : kernel F) : kernel F := set_curproc i s.

(** The scheduler of the CPU releases ptable.lock. *)
Definition sched_release (s : kernel F) : kernel F := set_ptable_lock false s.

(** Where a process that is picked continues: after [sched] in [yield] or at
    its first instruction (forkret), after [sched] in [sleep], or in [wait]. *)
Inductive resume : kernel F -> kernel F -> option nat -> nat -> Prop :=
  | resume_run i s s' : yield_exit s = Ret tt s' -> resume s s' (Some i) i
  | resume_sleep i s s1 s' : sleep_exit None s = Ret tt s1 -> ptable_release s1 = Ret tt s' ->
      resume s s' (Some i) i
  | resume_wait i s s1 s' r : sleep_exit None s = Ret tt s1 -> wait_scan s1 = Ret r s' -> r <> WSleep ->
      resume s s' (Some i) i
  | resume_wait_sleep i s s1 s' : sleep_exit None s = Ret tt s1 -> wait_scan s1 = Ret WSleep s' ->
      resume s (sched_release s') None i.

Inductive step : sys -> sys -> Prop :=
  | step_fork c i s cs r s' : cs !! c = Some (Some i) ->
      fork (on_cpu i s) = Ret r s' -> step (mkSys s cs) (mkSys s' cs)
  | step_exit c i s cs s' : cs !! c = Some (Some i) ->
      exit_ (on_cpu i s) = Ret tt s' ->
      step (mkSys s cs) (mkSys (sched_release s') (<[c := None]> cs))
  | step_wait c i s cs r s' : cs !! c = Some (Some i) ->
      wait_enter (on_cpu i s) = Ret r s' -> r <> WSleep -> step (mkSys s cs) (mkSys s' cs)
  | step_wait_sleep c i s cs s' : cs !! c = Some (Some i) ->
      wait_enter (on_cpu i s) = Ret WSleep s' ->
      step (mkSys s cs) (mkSys (sched_release s') (<[c := None]> cs))
  | step_yield c i s cs s' : cs !! c = Some (Some i) ->
      yield_enter (on_cpu i s) = Ret tt s' ->
      step (mkSys s cs) (mkSys (sched_release s') (<[c := None]> cs))
  | step_sleep c i a s cs s' : cs !! c = Some (Some i) ->
      sleep_enter (ChAddr a) (Some (ret tt)) (on_cpu i s) = Ret tt s' ->
      step (mkSys s cs) (mkSys (sched_release s') (<[c := None]> cs))
  | step_wakeup c i a s cs s' : cs !! c = Some (Some i) ->
      wakeup (ChAddr a) (on_cpu i s) = Ret tt s' -> step (mkSys s cs) (mkSys s' cs)
  | step_kill c i p s cs r s' : cs !! c = Some (Some i) ->
      kill p (on_cpu i s) = Ret r s' -> step (mkSys s cs) (mkSys s' cs)
  | step_run c from i s cs s1 s2 s' o : cs !! c = Some None ->
      ptable_acquire s = Ret tt s1 -> scheduler_pick from s1 = Ret (Some i) s2 ->
      resume s2 s' o i -> step (mkSys s cs) (mkSys s' (<[c := o]> cs)).

Inductive reachable (S0 : sys) : sys -> Prop :=
  | reach_refl : reachable S0 S0
  | reach_step S S' : reachable S0 S -> step S S' -> reachable S0 S'.

(** ** The invariant *)

Record sys_ok (S : sys) : Prop := {
  ok_unlocked : ptable_lock (ks S) = false;
  ok_table : table_inv (initproc (ks S)) (cores (ks S)) (nextpid (ks S)) (cpus S);
}.

End sched_defs.

(** * Lemmas *)

Section quiet.
Context {K : KernelImage} {KC : KernelCode} {F : Type} {FO : FileOps F}.
Implicit Types s : kernel F.

Lemma same_core_refl s : same_core s s.
Proof. done. Qed.

Lemma same_core_trans s s1 s2 : same_core s s1 -> same_core s1 s2 -> same_core s s2.
Proof. intros [] []. split; congruence. Qed.

Lemma quiet_ret {A} (a : A) : quiet (F := F) (ret a).
Proof. by intros s a' s' [= <- <-]. Qed.

Lemma quiet_bind {A B} (c : M (kernel F) A) (k : A -> M (kernel F) B) :
  quiet c -> (forall a, quiet (k a)) -> quiet (bind c k).
Proof.
  intros Hc Hk s b s'. unfold bind. destruct (c s) eqn:Hcs; try done. intros Hks.
  eapply same_core_trans; [by eapply Hc|by eapply Hk].
Qed.

Lemma quiet_gets {A} (f : kernel F -> A) : quiet (gets f).
Proof. by intros s a s' [= <- <-]. Qed.

Lemma quiet_fault {A} m : quiet (F := F) (A := A) (fault m).
Proof. done. Qed.

Lemma quiet_panic {A} m : quiet (F := F) (A := A) (panic m).
Proof. done. Qed.

Lemma quiet_nofuel {A} : quiet (F := F) (A := A) nofuel.
Proof. done. Qed.

Lemma quiet_inphys {A} (c : M phys A) : quiet (F := F) (inphys c).
Proof. intros s a s'. unfold inphys, zoom. destruct (c _); try done. by intros [= <- <-]. Qed.

Lemma quiet_infsp {A} (c : M (F * phys) A) : quiet (infsp c).
Proof. intros s a s'. unfold infsp, zoom. destruct (c _); try done. by intros [= <- <-]. Qed.

Lemma quiet_infs {A} (c : M F A) : quiet (infs c).
Proof. intros s a s'. unfold infs, zoom. destruct (c _); try done. by intros [= <- <-]. Qed.

Lemma quiet_get_proc i : quiet (F := F) (get_proc i).
Proof. intros s a s'. unfold get_proc. destruct (_ !! _); try done. by intros [= <- <-]. Qed.

Lemma quiet_upd_proc i f : (forall p, core (f p) = core p) -> quiet (F := F) (upd_proc i f).
Proof.
  intros Hf s a s'. unfold upd_proc. destruct (ptable s !! i) as [p|] eqn:Hp; try done.
  intros [= <- <-]. split; try done. unfold cores. simpl. rewrite list_fmap_insert, Hf.
  apply list_insert_id. by rewrite list_lookup_fmap, Hp.
Qed.

Lemma quiet_region i : quiet (F := F) (get_region i).
Proof. intros s a s'. unfold get_region. destruct (zidx _ _); try done. by intros [= <- <-]. Qed.

Lemma quiet_upd_region i f : quiet (F := F) (upd_region i f).
Proof. intros s a s'. unfold upd_region. destruct (zidx _ _); try done. by intros [= <- <-]. Qed.

Lemma quiet_shm_acquire : quiet (F := F) shm_acquire.
Proof. intros s a s'. unfold shm_acquire, lock_acquire. destruct (shm_lock s); try done. by intros [= <- <-]. Qed.

Lemma quiet_shm_release : quiet (F := F) shm_release.
Proof. intros s a s'. unfold shm_release, lock_release. destruct (shm_lock s); try done. by intros [= <- <-]. Qed.

Lemma quiet_mfor {A} (l : list A) (f : A -> M (kernel F) unit) : (forall x, quiet (f x)) -> quiet (mfor l f).
Proof. intros Hf. induction l; simpl; [apply quiet_ret|]. by apply quiet_bind. Qed.

End quiet.

(** Show that code leaves the scheduling part alone. *)
Ltac quiet_tac :=
  repeat match goal with
  | |- quiet (bind _ _) => apply quiet_bind; [|intros ?]
  | |- quiet (ret _) => apply quiet_ret
  | |- quiet (gets _) => apply quiet_gets
  | |- quiet (fault _) => apply quiet_fault
  | |- quiet (panic _) => apply quiet_panic
  | |- quiet nofuel => apply quiet_nofuel
  | |- quiet (inphys _) => apply quiet_inphys
  | |- quiet (infs _) => apply quiet_infs
  | |- quiet (infsp _) => apply quiet_infsp
  | |- quiet (get_proc _) => apply quiet_get_proc
  | |- quiet (upd_proc _ _) => apply quiet_upd_proc; intros ?; reflexivity
  | |- quiet (get_region _) => apply quiet_region
  | |- quiet (upd_region _ _) => apply quiet_upd_region
  | |- quiet shm_acquire => apply quiet_shm_acquire
  | |- quiet shm_release => apply quiet_shm_release
  | |- quiet (mfor _ _) => apply quiet_mfor; intros ?
  | |- quiet myproc => apply quiet_gets
  | |- quiet (if ?b then _ else _) => destruct b
  | |- quiet (match ?x with _ => _ end) => destruct x
  | |- quiet (let _ := _ in _) => cbv zeta
  | |- _ => solve [auto]
  end.

Section quiet_ops.
Context {K : KernelImage} {KC : KernelCode} {F : Type} {FO : FileOps F}.

Lemma quiet_get_pages p i : quiet (F := F) (get_pages p i).
Proof. unfold get_pages. quiet_tac. Qed.

Lemma quiet_upd_pages p i f : quiet (F := F) (upd_pages p i f).
Proof. unfold upd_pages, get_pages. quiet_tac. Qed.

Lemma quiet_free_region_pages index : forall n i, quiet (F := F) (free_region_pages index i n).
Proof. induction n; intros i; simpl; unfold phys_addr; quiet_tac. Qed.

Lemma quiet_shmdt a : quiet (F := F) (shmdt a).
Proof.
  pose proof quiet_get_pages. pose proof quiet_upd_pages. pose proof quiet_free_region_pages.
  unfold shmdt, shm_return, remove_region. quiet_tac.
Qed.

Lemma quiet_mappagesWrapper p j i : quiet (F := F) (mappagesWrapper p j i).
Proof.
  pose proof quiet_get_pages. unfold mappagesWrapper. quiet_tac.
  match goal with |- context [Z.to_nat ?x] => generalize (Z.to_nat x) end.
  intros n. generalize 0. induction n; intros k; simpl; unfold phys_addr; quiet_tac.
Qed.

Lemma quiet_fork_file cur np i : quiet (F := F) (fork_file cur np i).
Proof. unfold fork_file. quiet_tac. Qed.

Lemma quiet_fork_seg cur np i : quiet (F := F) (fork_seg cur np i).
Proof.
  pose proof quiet_get_pages. pose proof quiet_upd_pages. pose proof quiet_mappagesWrapper.
  unfold fork_seg, getShmidIndex. quiet_tac.
Qed.

Lemma quiet_exit_file cur i : quiet (F := F) (exit_file cur i).
Proof. unfold exit_file. quiet_tac. Qed.

Lemma quiet_exit_seg cur i : quiet (F := F) (exit_seg cur i).
Proof. pose proof quiet_get_pages. pose proof quiet_shmdt. unfold exit_seg, shmdtWrapper. quiet_tac. Qed.

End quiet_ops.

(** ** What the calls do to the scheduling part *)

Section effects.
Context {K : KernelImage} {KC : KernelCode} {F : Type} {FO : FileOps F}.
Implicit Types s : kernel F.

Lemma pwp_quiet {A} (c : M (kernel F) A) (Q : A -> kernel F -> Prop) s :
  quiet c -> (forall a s', same_core s s' -> Q a s') -> pwp c Q s.
Proof. intros Hc HQ a s' Hr. apply HQ. by eapply Hc. Qed.

Lemma pwp_get_proc i (Q : proc -> kernel F -> Prop) s :
  (forall p, ptable s !! i = Some p -> cores s !! i = Some (core p) -> Q p s) -> pwp (get_proc i) Q s.
Proof.
  intros HQ a s'. unfold get_proc. destruct (ptable s !! i) as [p|] eqn:Hp; [|done].
  intros [= <- <-]. apply HQ; [done|]. unfold cores. by rewrite list_lookup_fmap, Hp.
Qed.

(** The scheduling part after process [i] changed. *)
Record set_core (i : nat) (q : pcore) s s' : Prop := {
  st_cores : cores s' = <[i := q]> (cores s);
  st_cur : curproc s' = curproc s;
  st_init : initproc s' = initproc s;
  st_next : nextpid s' = nextpid s;
  st_lock : ptable_lock s' = ptable_lock s;
}.

Lemma pwp_upd_proc i f (Q : unit -> kernel F -> Prop) s :
  (forall p s', cores s !! i = Some (core p) -> ptable s !! i = Some p ->
     set_core i (core (f p)) s s' -> Q tt s') -> pwp (upd_proc i f) Q s.
Proof.
  intros HQ a s'. unfold upd_proc. destruct (ptable s !! i) as [p|] eqn:Hp; [|done].
  intros [= <- <-]. apply (HQ p); [|done|].
  - unfold cores. by rewrite list_lookup_fmap, Hp.
  - split; try done. unfold cores. simpl. apply list_fmap_insert.
Qed.

Lemma cores_lookup s i p : ptable s !! i = Some p -> cores s !! i = Some (core p).
Proof. intros Hp. unfold cores. by rewrite list_lookup_fmap, Hp. Qed.

Lemma cores_inv s i q : cores s !! i = Some q -> exists p, ptable s !! i = Some p /\ q = core p.
Proof. unfold cores. rewrite list_lookup_fmap. destruct (ptable s !! i); [|done]. intros [= <-]. eauto. Qed.

(** The fields of two equal entries. *)
Ltac core_inj H :=
  pose proof (f_equal (option_map c_state) H);
  pose proof (f_equal (option_map c_parent) H);
  pose proof (f_equal (option_map c_chan) H);
  pose proof (f_equal (option_map c_pid) H);
  pose proof (f_equal (option_map c_killed) H); cbn in *.

(** A new pid in slot [i], which was UNUSED. *)
Record new_proc (i : nat) (st : procstate) (par : option nat -> option nat) s s' : Prop := {
  np_cores : exists q, cores s !! i = Some q /\ c_state q = UNUSED /\
    cores s' = <[i := mkCore st (par (c_parent q)) (c_chan q) (nextpid s) (c_killed q)]> (cores s);
  np_cur : curproc s' = curproc s;
  np_init : initproc s' = initproc s;
  np_next : nextpid s' = nextpid s + 1;
  np_lock : ptable_lock s' = ptable_lock s;
}.

Lemma new_proc_quiet i st par s s1 s2 :
  new_proc i st par s s1 -> same_core s1 s2 -> new_proc i st par s s2.
Proof.
  intros [(q & Hq & Hu & Hc) ? ? ? ?] []. split; try congruence. exists q. split_and!; congruence.
Qed.

Lemma new_proc_state i st st' par s s1 s2 p :
  new_proc i st par s s1 -> cores s1 !! i = Some (core p) ->
  set_core i (core (set_state st' p)) s1 s2 -> new_proc i st' par s s2.
Proof.
  intros [(q & Hq & Hu & Hc) ? ? ? ?] Hp []. split; try congruence. exists q. split_and!; try done.
  rewrite st_cores0, Hc, list_insert_insert_eq. f_equal.
  rewrite Hc, list_lookup_insert_eq in Hp by (by eapply lookup_lt_Some). core_inj Hp.
  unfold core. simpl. f_equal; congruence.
Qed.

(** Step over code that leaves the scheduling part alone. *)
Ltac pquiet N :=
  apply pwp_bind, pwp_quiet; [quiet_tac|];
  let Q := fresh in intros ? ? Q; apply (new_proc_quiet _ _ _ _ _ _ N) in Q; clear N; rename Q into N.

Lemma allocproc_effect s :
  ptable_lock s = false ->
  pwp allocproc (fun r s' =>
    match r with
    | Some i => new_proc i EMBRYO id s s'
    | None => same_core s s' \/ exists i, new_proc i UNUSED id s s'
    end) s.
Proof.
  intros Hlk. unfold allocproc. apply pwp_bind, pwp_acquire. intros _. apply pwp_bind, pwp_gets.
  destruct (find_proc _ _ _) as [i|] eqn:Hf.
  2:{ apply pwp_bind, pwp_release. intros _. apply pwp_ret. left. by split. }
  apply find_proc_Some in Hf as (n & p & -> & Hp & Hu & _). cbn [Nat.add].
  apply bool_decide_eq_true in Hu. apply cores_lookup in Hp as Hpc.
  apply pwp_bind, pwp_upd_proc. intros p1 s1 Hc1 _ S1. apply pwp_bind, pwp_gets.
  apply pwp_bind, pwp_upd_proc. intros p2 s2 Hc2 _ S2.
  apply pwp_bind. case_if Hmax; [apply pwp_fault|]. apply pwp_modify.
  apply pwp_bind, pwp_release. intros _. set (s3 := set_ptable_lock false _).
  assert (N : new_proc n EMBRYO id s s3).
  { destruct S1 as [C1 ? ? ? ?], S2 as [C2 ? ? ? ?]. split; simpl in *; try congruence.
    exists (core p). split_and!; try done. unfold s3, cores in *. simpl in *.
    rewrite C2, C1, list_insert_insert_eq. f_equal.
    rewrite C1, list_lookup_insert_eq in Hc2 by (by eapply lookup_lt_Some).
    rewrite Hpc in Hc1. core_inj Hc1. core_inj Hc2. unfold core. simpl. f_equal; congruence. }
  clearbody s3. clear -N.
  pquiet N. pquiet N. case_if Hz.
  - apply pwp_bind, pwp_upd_proc. intros p5 s6 Hc _ S6. apply pwp_ret. right. exists n.
    by eapply new_proc_state.
  - cbv zeta. pquiet N. pquiet N. pquiet N. pquiet N. pquiet N. by apply pwp_ret.
Qed.

Lemma new_proc_parent i st par v s s1 s2 p :
  new_proc i st par s s1 -> cores s1 !! i = Some (core p) ->
  set_core i (core (set_parent v p)) s1 s2 -> new_proc i st (fun _ => v) s s2.
Proof.
  intros [(q & Hq & Hu & Hc) ? ? ? ?] Hp []. split; try congruence. exists q. split_and!; try done.
  rewrite st_cores0, Hc, list_insert_insert_eq. f_equal.
  rewrite Hc, list_lookup_insert_eq in Hp by (by eapply lookup_lt_Some). core_inj Hp.
  unfold core. simpl. f_equal; congruence.
Qed.

Lemma new_proc_par i st par par' s s' :
  (forall q, par q = par' q) -> new_proc i st par s s' -> new_proc i st par' s s'.
Proof. intros He [(q & Hq & Hu & Hc) ? ? ? ?]. split; try done. exists q. by rewrite <- He. Qed.

Lemma new_proc_pid i st par s s' p :
  new_proc i st par s s' -> cores s' !! i = Some (core p) -> pid p = nextpid s.
Proof.
  intros [(q & Hq & Hu & Hc) ? ? ? ?] Hp. rewrite Hc, list_lookup_insert_eq in Hp by (by eapply lookup_lt_Some).
  by core_inj Hp; simplify_eq.
Qed.

(** [fork] changes nothing, or takes a slot and a pid; on success the child is
    RUNNABLE and the caller is its parent. *)
Lemma fork_effect s :
  ptable_lock s = false ->
  pwp fork (fun r s' =>
    (r = -1 /\ same_core s s') \/
    (r = -1 /\ exists i, new_proc i UNUSED id s s') \/
    (r = nextpid s /\ exists i, new_proc i RUNNABLE (fun _ => Some (curproc s)) s s')) s.
Proof.
  intros Hlk. unfold fork. apply pwp_bind, pwp_gets. apply pwp_bind.
  eapply pwp_mono; [by apply allocproc_effect|]. cbn beta. intros [np|] s1 N.
  2:{ apply pwp_ret. destruct N as [?|?]; auto. }
  pquiet N. pquiet N. pquiet N. case_if Hz.
  - pquiet N. pquiet N. pquiet N. apply pwp_bind, pwp_upd_proc. intros p s2 Hc _ S2.
    apply pwp_ret. right; left. split; [done|]. exists np. by eapply new_proc_state.
  - pquiet N. apply pwp_bind, pwp_upd_proc. intros p s2 Hc _ S2.
    eapply new_proc_parent in S2; [|exact N|exact Hc]. clear N. rename S2 into N. 
    pquiet N. pquiet N. apply pwp_bind, pwp_quiet; [apply quiet_mfor, quiet_fork_file|].
    intros [] s3 Q. apply (new_proc_quiet _ _ _ _ _ _ N) in Q. clear N. rename Q into N.
    pquiet N. pquiet N. pquiet N. apply pwp_bind, pwp_get_proc. intros n _ Hn.
    apply (new_proc_pid _ _ _ _ _ _ N) in Hn.
    apply pwp_bind, pwp_quiet; [apply quiet_mfor, quiet_fork_seg|].
    intros [] s4 Q. apply (new_proc_quiet _ _ _ _ _ _ N) in Q. clear N. rename Q into N.
    apply pwp_bind, pwp_acquire. intros Hl. apply pwp_bind, pwp_upd_proc. intros q s5 Hc5 _ S5.
    apply pwp_bind, pwp_release. intros _. apply pwp_ret. right; right. split; [done|]. exists np.
    assert (S6 : set_core np (core (set_state RUNNABLE q)) s4 (set_ptable_lock false s5)).
    { destruct S5. split; simpl in *; try done. }
    by eapply new_proc_state.
Qed.

Definition wake_core (c : channel) (q : pcore) : pcore :=
  if state_eqb (c_state q) SLEEPING && bool_decide (c_chan q = c)
  then mkCore RUNNABLE (c_parent q) (c_chan q) (c_pid q) (c_killed q) else q.

Lemma wakeup1_effect c s :
  pwp (wakeup1 c) (fun _ s' => cores s' = wake_core c <$> cores s /\ curproc s' = curproc s /\
    initproc s' = initproc s /\ nextpid s' = nextpid s /\ ptable_lock s' = ptable_lock s) s.
Proof.
  apply pwp_modify. split_and!; try done. unfold cores. simpl.
  induction (ptable s) as [|p l IH]; [done|]. cbn. f_equal; [|exact IH].
  unfold wake_core, wakes. simpl. by destruct (_ && _).
Qed.

(** [kill] marks the first process with the pid and makes it runnable if it
    sleeps. *)
Lemma kill_effect p s :
  ptable_lock s = false ->
  pwp (kill p) (fun r s' =>
    (r = -1 /\ same_core s s' /\ forall i q, cores s !! i = Some q -> c_pid q <> p) \/
    (r = 0 /\ exists i q, cores s !! i = Some q /\ c_pid q = p /\
       set_core i (mkCore (if state_eqb (c_state q) SLEEPING then RUNNABLE else c_state q)
                     (c_parent q) (c_chan q) (c_pid q) 1) s s')) s.
Proof.
  intros Hlk. unfold kill. apply pwp_bind, pwp_acquire. intros _. apply pwp_bind, pwp_gets.
  destruct (find_proc _ _ _) as [i|] eqn:Hf.
  2:{ apply pwp_bind, pwp_release. intros _. apply pwp_ret. left. split_and!; [done|by split|].
      intros i q (pr & Hpr & ->)%cores_inv. simpl in Hf. apply (find_proc_None _ _ _ _ _ Hf) in Hpr.
      by apply Z.eqb_neq. }
  apply find_proc_Some in Hf as (n & pr & -> & Hpr & Hpid%Z.eqb_eq & _). cbn [Nat.add].
  apply cores_lookup in Hpr as Hc. change (cores (set_ptable_lock true s)) with (cores s) in Hc.
  apply pwp_bind, pwp_upd_proc. intros p1 s1 Hc1 _ [C1 ? ? ? ?]. change (cores (set_ptable_lock true s)) with (cores s) in *.
  rewrite Hc in Hc1. core_inj Hc1. simplify_eq.
  apply pwp_bind, pwp_get_proc. intros p2 _ Hc2.
  rewrite C1, list_lookup_insert_eq in Hc2 by (by eapply lookup_lt_Some). core_inj Hc2. simplify_eq.
  apply pwp_bind. case_if Hs.
  - apply pwp_upd_proc. intros p3 s3 Hc3 _ [C3 ? ? ? ?]. apply pwp_bind, pwp_release. intros _. apply pwp_ret.
    rewrite C1, list_lookup_insert_eq in Hc3 by (by eapply lookup_lt_Some). core_inj Hc3. simplify_eq.
    right. split; [done|]. exists n, (core pr). split_and!; try done.
    split; simpl in *; try congruence. change (cores (set_ptable_lock false s3)) with (cores s3).
    rewrite C3, C1, list_insert_insert_eq. f_equal. unfold core. simpl.
    replace (state pr) with (state p2) by congruence. rewrite Hs. f_equal; congruence.
  - apply pwp_ret. apply pwp_bind, pwp_release. intros _. apply pwp_ret. right. split; [done|].
    exists n, (core pr). split_and!; try done. split; simpl in *; try congruence.
    change (cores (set_ptable_lock false s1)) with (cores s1). rewrite C1. f_equal. unfold core. simpl.
    replace (state pr) with (state p2) by congruence. rewrite Hs. f_equal; congruence.
Qed.

(** *** exit *)

(** The parent of the process in slot [k] after the children of [cur] below
    slot [j] were passed to init. *)
Definition par_after (cur init j k : nat) (p : option nat) : option nat :=
  if bool_decide (p = Some cur) && bool_decide (k < j)%nat then Some init else p.

(** The rest of an entry at that point: init is no longer asleep in [wait] if
    it was given a zombie. *)
Record kept (cur init j : nat) (l : list pcore) (q q' : pcore) : Prop := {
  kp_chan : c_chan q' = c_chan q;
  kp_pid : c_pid q' = c_pid q;
  kp_killed : c_killed q' = c_killed q;
  kp_state : c_state q' = c_state q \/ (c_state q = SLEEPING /\ c_state q' = RUNNABLE);
  kp_wake : c_state q' = SLEEPING -> c_chan q = ChProc init ->
    forall k2 q2, (k2 < j)%nat -> l !! k2 = Some q2 -> c_parent q2 = Some cur -> c_state q2 <> ZOMBIE;
}.

(** The loop's state: [l] is the table it started from. *)
Record exit_loop (cur init j : nat) (l : list pcore) (next : Z) s : Prop := {
  el_len : length (cores s) = length l;
  el_entry : forall k q', cores s !! k = Some q' -> exists q, l !! k = Some q /\
    kept cur init j l q q' /\ c_parent q' = par_after cur init j k (c_parent q);
  el_cur : curproc s = cur;
  el_init : initproc s = init;
  el_next : nextpid s = next;
  el_lock : ptable_lock s = true;
}.

Lemma wake_core_fields c q :
  c_parent (wake_core c q) = c_parent q /\ c_chan (wake_core c q) = c_chan q /\
  c_pid (wake_core c q) = c_pid q /\ c_killed (wake_core c q) = c_killed q /\
  (c_state (wake_core c q) = c_state q \/ (c_state q = SLEEPING /\ c_state (wake_core c q) = RUNNABLE)) /\
  (c_state (wake_core c q) = SLEEPING -> c_chan q <> c).
Proof.
  unfold wake_core, state_eqb. repeat case_bool_decide; simpl; split_and!; auto; try done; congruence.
Qed.

Lemma kept_next cur init j l q q' :
  kept cur init j l q q' ->
  (forall q2, l !! j = Some q2 -> c_parent q2 = Some cur -> c_state q2 <> ZOMBIE) ->
  kept cur init (S j) l q q'.
Proof.
  intros [] Hj. split; try done. intros Hs Hc k2 q2 Hk2 Hq2 Hp2.
  destruct (decide (k2 = j)) as [->|]; [by apply Hj|]. apply (kp_wake0 Hs Hc k2); (done || lia).
Qed.

Lemma kept_wake cur init j l q q' :
  kept cur init j l q q' -> kept cur init (S j) l q (wake_core (ChProc init) q').
Proof.
  intros []. destruct (wake_core_fields (ChProc init) q') as (E1 & E2 & E3 & E4 & E5 & E6).
  split; try congruence.
  - destruct E5 as [->|[E5 ->]]; [done|]. right. destruct kp_state0 as [<-|[? Hx]]; [done|congruence].
  - intros Hs Hc. destruct (E6 Hs). congruence.
Qed.

Lemma par_after_ne cur init j k p : k <> j -> par_after cur init (S j) k p = par_after cur init j k p.
Proof. intros Hne. unfold par_after. repeat case_bool_decide; try done; lia. Qed.

Lemma par_after_self cur init j p : par_after cur init j j p = p.
Proof. unfold par_after. rewrite (bool_decide_eq_false_2 (j < j)%nat) by lia. by rewrite andb_false_r. Qed.

Lemma exit_child_effect cur init j l next s :
  exit_loop cur init j l next s ->
  pwp (exit_child cur init (Z.of_nat j)) (fun _ s' => exit_loop cur init (S j) l next s') s.
Proof.
  intros [L E C Ii N Lk]. unfold exit_child. rewrite Nat2Z.id. apply pwp_bind, pwp_get_proc. intros p _ Hp.
  destruct (E j _ Hp) as (qj & Hqj & Kj & Hpj). rewrite par_after_self in Hpj. simpl in Hpj.
  destruct (bool_decide (parent p = Some cur)) eqn:Hb.
  - apply bool_decide_eq_true in Hb. apply pwp_bind, pwp_upd_proc. intros p1 s1 Hp1 _ [C1 ? ? ? ?].
    rewrite Hp in Hp1. core_inj Hp1.
    assert (Hent : forall k q', cores s1 !! k = Some q' -> exists q, l !! k = Some q /\
      kept cur init j l q q' /\ c_parent q' = par_after cur init (S j) k (c_parent q)).
    { intros k q' Hk. rewrite C1 in Hk. destruct (decide (k = j)) as [->|Hne].
      - rewrite list_lookup_insert_eq in Hk by (by eapply lookup_lt_Some). injection Hk as <-. exists qj.
        split_and!; [done| |].
        + destruct Kj. simpl in *. split; simpl; try congruence.
          by replace (state p1) with (state p) by congruence.
        + unfold par_after. rewrite !bool_decide_eq_true_2 by (lia || congruence). done.
      - rewrite list_lookup_insert_ne in Hk by done. destruct (E k q' Hk) as (q & Hq & Kq & Hpar).
        exists q. by rewrite par_after_ne. }
    case_if Hz.
    + eapply pwp_mono; [apply wakeup1_effect|]. cbn beta. intros [] s2 (C2 & ? & ? & ? & ?).
      split; try congruence; [by rewrite C2, length_fmap, C1, length_insert|].
      intros k q2 Hk. rewrite C2, list_lookup_fmap in Hk.
      destruct (cores s1 !! k) as [q'|] eqn:Hq'; [|done]. injection Hk as <-.
      destruct (Hent k q' Hq') as (q & Hq & Kq & Hpar). exists q. split_and!; [done|by apply kept_wake|].
      by destruct (wake_core_fields (ChProc init) q') as (-> & _).
    + apply pwp_ret. split; try congruence; [by rewrite C1, length_insert|].
      intros k q' Hk. destruct (Hent k q' Hk) as (q & Hq & Kq & Hpar). exists q. split_and!; [done| |done].
      apply kept_next; [done|]. intros q2 Hq2 _. rewrite Hqj in Hq2. injection Hq2 as <-. apply bool_decide_eq_false in Hz.
      destruct (kp_state _ _ _ _ _ _ Kj) as [He|[He _]]; simpl in *; congruence.
  - apply bool_decide_eq_false in Hb. apply pwp_ret. split; try done.
    intros k q' Hk. destruct (E k q' Hk) as (q & Hq & Kq & Hpar). exists q. split_and!; [done| |].
    + apply kept_next; [done|]. intros q2 Hq2 Hp2. rewrite Hqj in Hq2. injection Hq2 as <-. congruence.
    + destruct (decide (k = j)) as [->|Hne]; [|by rewrite par_after_ne].
      rewrite Hqj in Hq. injection Hq as <-. rewrite Hpar, par_after_self. unfold par_after.
      by rewrite (bool_decide_eq_false_2 (c_parent qj = Some cur)) by congruence.
Qed.

(** What [exit] does to the table. *)
Record exited (cur init : nat) (l l' : list pcore) : Prop := {
  ex_len : length l' = length l;
  ex_cur : exists q, l !! cur = Some q;
  ex_entry : forall k q', l' !! k = Some q' -> exists q, l !! k = Some q /\
    c_chan q' = c_chan q /\ c_pid q' = c_pid q /\ c_killed q' = c_killed q /\
    c_parent q' = (if bool_decide (c_parent q = Some cur) then Some init else c_parent q) /\
    (if decide (k = cur) then c_state q' = ZOMBIE else
      (c_state q' = c_state q \/ (c_state q = SLEEPING /\ c_state q' = RUNNABLE)) /\
      (c_state q' = SLEEPING -> forall qc, l !! cur = Some qc -> c_chan q <> proc_chan (c_parent qc)) /\
      (c_state q' = SLEEPING -> c_chan q = ChProc init ->
         forall k2 q2, l !! k2 = Some q2 -> c_parent q2 = Some cur -> c_state q2 <> ZOMBIE));
}.

Lemma exit_loop_effect cur init l next : forall n j s,
  exit_loop cur init j l next s ->
  pwp (mfor (zrange (Z.of_nat j) n) (exit_child cur init)) (fun _ s' => exit_loop cur init (j + n) l next s') s.
Proof.
  induction n as [|n IH]; intros j s H; cbn [zrange mfor].
  - apply pwp_ret. by rewrite Nat.add_0_r.
  - apply pwp_bind. eapply pwp_mono; [by apply exit_child_effect|]. cbn beta. intros [] s1 H1.
    replace (Z.of_nat j + 1) with (Z.of_nat (S j)) by lia. eapply pwp_mono; [by apply IH|].
    intros [] s2. by replace (S j + n)%nat with (j + S n)%nat by lia.
Qed.

Lemma quiet_sched : quiet (F := F) sched.
Proof. unfold sched. quiet_tac. Qed.

Lemma exit_effect s :
  length (cores s) = Z.to_nat NPROC -> ptable_lock s = false ->
  pwp exit_ (fun _ s' => exited (curproc s) (initproc s) (cores s) (cores s') /\
    nextpid s' = nextpid s /\ initproc s' = initproc s /\ curproc s <> initproc s) s.
Proof.
  intros Hlen Hlk. unfold exit_. apply pwp_bind, pwp_gets. apply pwp_bind, pwp_gets.
  set (cur := curproc s). set (init := initproc s). case_if Hinit; [apply pwp_panic|].
  apply pwp_bind, pwp_quiet; [apply quiet_mfor, quiet_exit_file|]. intros [] s1 Q1.
  apply pwp_bind, pwp_quiet; [apply quiet_mfor, quiet_exit_seg|]. intros [] s2 Q2.
  apply pwp_bind, pwp_get_proc. intros p _ Hp.
  apply pwp_bind, pwp_quiet; [quiet_tac|]. intros [] s3 Q3.
  apply pwp_bind, pwp_quiet; [quiet_tac|]. intros [] s4 Q4.
  apply pwp_bind, pwp_quiet; [quiet_tac|]. intros [] s5 Q5.
  apply pwp_bind, pwp_quiet; [quiet_tac|]. intros [] s6 Q6.
  assert (Q : same_core s s6) by (repeat (eapply same_core_trans; [eassumption|]); done).
  rewrite (sc_cores _ _ (same_core_trans _ _ _ Q1 Q2)) in Hp. clear Q1 Q2 Q3 Q4 Q5 Q6 s1 s2 s3 s4 s5.
  apply pwp_bind, pwp_acquire. intros _. apply pwp_bind. eapply pwp_mono; [apply wakeup1_effect|].
  cbn beta. intros [] s7 (C7 & Hc7 & Hi7 & Hn7 & Hl7). simpl in Hc7, Hi7, Hn7, Hl7.
  change (cores (set_ptable_lock true s6)) with (cores s6) in C7. rewrite (sc_cores _ _ Q) in C7.
  set (ch := proc_chan (parent p)) in *.
  assert (L7 : exit_loop cur init 0 (cores s7) (nextpid s) s7).
  { split; [done| |rewrite Hc7; apply Q|rewrite Hi7; apply Q|rewrite Hn7; apply Q|done].
    intros k q' Hk. exists q'. split_and!; [done| |].
    - split; [done..|by left|]. intros _ _ k2 q2 Hk2. lia.
    - unfold par_after. rewrite (bool_decide_eq_false_2 (k < 0)%nat) by lia. by rewrite andb_false_r. }
  apply pwp_bind. change (zrange 0 _) with (zrange (Z.of_nat 0) (Z.to_nat NPROC)).
  eapply pwp_mono; [by apply exit_loop_effect|]. cbn beta. intros [] s8 [L8 E8 C8 I8 N8 K8].
  apply pwp_bind, pwp_upd_proc. intros p9 s9 Hp9 _ [C9 ? Hi9 Hn9 ?].
  eapply pwp_quiet; [apply quiet_sched|]. intros [] s10 Q10. split.
  2:{ rewrite (sc_next _ _ Q10), (sc_init _ _ Q10), Hn9, Hi9. by apply bool_decide_eq_false in Hinit. }
  rewrite (sc_cores _ _ Q10), C9. split.
  - rewrite length_insert, L8, C7, length_fmap. done.
  - eauto.
  - assert (Hlt : forall k q, cores s !! k = Some q -> (k < 0 + Z.to_nat NPROC)%nat).
    { intros k q Hk. apply lookup_lt_Some in Hk. lia. }
    assert (Hpar : forall k q, (k < 0 + Z.to_nat NPROC)%nat -> par_after cur init (0 + Z.to_nat NPROC) k (c_parent q) =
      if bool_decide (c_parent q = Some cur) then Some init else c_parent q).
    { intros k q Hk. unfold par_after. by rewrite (bool_decide_eq_true_2 (k < _)%nat), andb_true_r. }
    assert (Hent : forall k q', cores s8 !! k = Some q' -> exists q, cores s !! k = Some q /\
      c_parent q' = (if bool_decide (c_parent q = Some cur) then Some init else c_parent q) /\
      kept cur init (0 + Z.to_nat NPROC) (cores s7) (wake_core ch q) q').
    { intros k q' Hk. destruct (E8 k q' Hk) as (q1 & Hq1 & Kq & Hpq). rewrite C7, list_lookup_fmap in Hq1.
      destruct (cores s !! k) as [q|] eqn:Hq; [|done]. injection Hq1 as <-. exists q. split_and!; try done.
      destruct (wake_core_fields ch q) as (E1 & _). rewrite Hpq, E1. apply Hpar. by eapply Hlt. }
    intros k q' Hk. destruct (decide (k = cur)) as [->|Hne].
    + rewrite list_lookup_insert_eq in Hk by (by eapply lookup_lt_Some). injection Hk as <-.
      destruct (Hent _ _ Hp9) as (q & Hq & Hpq & [K1 K2 K3 _ _]). exists q.
      destruct (wake_core_fields ch q) as (E1 & E2 & E3 & E4 & _). simpl in *. split_and!; congruence.
    + rewrite list_lookup_insert_ne in Hk by done. destruct (Hent _ _ Hk) as (q & Hq & Hpq & [K1 K2 K3 K4 K5]).
      exists q. destruct (wake_core_fields ch q) as (E1 & E2 & E3 & E4 & E5 & E6). split_and!; try congruence.
      * destruct K4 as [K4|[K4 K4']], E5 as [E5|[E5 E5']]; try (left; congruence); right; split; congruence.
      * intros Hs qc Hqc. rewrite Hp in Hqc. injection Hqc as <-. apply E6. destruct K4 as [K4|[_ K4]]; congruence.
      * intros Hs Hc k2 q2 Hq2 Hp2 Hz. apply (K5 Hs ltac:(congruence) k2 (wake_core ch q2)).
        -- by eapply Hlt.
        -- rewrite C7, list_lookup_fmap, Hq2. done.
        -- by destruct (wake_core_fields ch q2) as (-> & _).
        -- destruct (wake_core_fields ch q2) as (_ & _ & _ & _ & [->|[Hx _]] & _); congruence.
Qed.

(** *** wait, sleep, yield and the scheduler *)

Lemma wakeup_effect c s :
  pwp (wakeup c) (fun _ s' => cores s' = wake_core c <$> cores s /\
    initproc s' = initproc s /\ nextpid s' = nextpid s /\ ptable_lock s' = false) s.
Proof.
  unfold wakeup. apply pwp_bind, pwp_acquire. intros _. apply pwp_bind.
  eapply pwp_mono; [apply wakeup1_effect|]. cbn beta. intros [] s1 (C1 & ? & ? & ? & ?).
  apply pwp_release. by intros _.
Qed.

Lemma set_core_quiet i q s s1 s2 : set_core i q s s1 -> same_core s1 s2 -> set_core i q s s2.
Proof. intros [] []. split; congruence. Qed.

Lemma quiet_set_core i q s s1 s2 : same_core s s1 -> set_core i q s1 s2 -> set_core i q s s2.
Proof. intros [C ? ? ? ?] []. split; try congruence. Qed.

(** A further update of the same process. *)
Lemma set_core_upd i q s s1 s2 p f :
  set_core i q s s1 -> is_Some (cores s !! i) -> cores s1 !! i = Some (core p) ->
  set_core i (core (f p)) s1 s2 -> core p = q /\ set_core i (core (f p)) s s2.
Proof.
  intros [C1 ? ? ? ?] [q0 Hq0] Hp [C2 ? ? ? ?]. split.
  - rewrite C1, list_lookup_insert_eq in Hp by (by eapply lookup_lt_Some). congruence.
  - split; try congruence. by rewrite C2, C1, list_insert_insert_eq.
Qed.

Definition wait_effect s (r : wait_result) s' : Prop :=
  nextpid s' = nextpid s /\ curproc s' = curproc s /\ initproc s' = initproc s /\
  match r with
  | WPid pd => ptable_lock s' = false /\ exists i q, cores s !! i = Some q /\
      c_parent q = Some (curproc s) /\ c_state q = ZOMBIE /\ c_pid q = pd /\
      cores s' = <[i := mkCore UNUSED None (c_chan q) 0 0]> (cores s)
  | WNoChild => ptable_lock s' = false /\ cores s' = cores s
  | WSleep => exists q, cores s !! curproc s = Some q /\
      cores s' = <[curproc s := mkCore SLEEPING (c_parent q) (ChProc (curproc s)) (c_pid q) (c_killed q)]> (cores s) /\
      forall k q2, cores s !! k = Some q2 -> c_parent q2 = Some (curproc s) -> c_state q2 <> ZOMBIE
  end.

(** Follow a chain of updates of process [i]; [S] describes it so far. *)
Ltac pupd S Hs :=
  apply pwp_bind, pwp_upd_proc;
  let p := fresh "p" in let Hp := fresh "Hp" in let S' := fresh in let E := fresh "E" in
  intros p ? Hp _ S';
  eapply (set_core_upd _ _ _ _ _ _ _ S Hs Hp) in S' as [E S']; clear S Hp; rename S' into S.

Ltac pq S :=
  apply pwp_bind, pwp_quiet; [quiet_tac|];
  let Q := fresh in intros ? ? Q; apply (set_core_quiet _ _ _ _ _ S) in Q; clear S; rename Q into S.

Lemma sleep_enter_effect c s q :
  cores s !! curproc s = Some q ->
  pwp (sleep_enter c None) (fun _ s' =>
    set_core (curproc s) (mkCore SLEEPING (c_parent q) c (c_pid q) (c_killed q)) s s') s.
Proof.
  intros Hq. unfold sleep_enter. apply pwp_bind, pwp_gets. apply pwp_bind, pwp_ret.
  apply pwp_bind, pwp_upd_proc. intros p s1 Hp _ S1.
  assert (Hs : is_Some (cores s !! curproc s)) by (rewrite Hq; by eexists). pupd S1 Hs.
  eapply pwp_quiet; [apply quiet_sched|]. intros [] s2 Q. apply (set_core_quiet _ _ _ _ _ S1) in Q.
  rewrite Hq in Hp. core_inj Hp. unfold core in *. simpl in *. injection E as ? ? ? ? ?.
  destruct Q. split; try done. rewrite st_cores0. do 2 f_equal; congruence.
Qed.

Lemma wait_scan_effect s :
  ptable_lock s = true -> pwp wait_scan (wait_effect s) s.
Proof.
  intros Hlk. unfold wait_scan. apply pwp_bind, pwp_gets. apply pwp_bind, pwp_gets.
  destruct (find_proc _ _ _) as [i|] eqn:Hf.
  - apply find_proc_Some in Hf as (n & p & -> & Hp & Hz & _). cbn [Nat.add].
    apply andb_true_iff in Hz as [Hpar%bool_decide_eq_true Hst%bool_decide_eq_true].
    apply cores_lookup in Hp as Hc. apply pwp_bind, pwp_get_proc. intros p0 Hp0 _. simplify_eq.
    apply pwp_bind, pwp_quiet; [quiet_tac|]. intros [] s1 Q1.
    apply pwp_bind, pwp_quiet; [quiet_tac|]. intros [] s2 Q2.
    apply pwp_bind, pwp_quiet; [quiet_tac|]. intros [] s3 Q3.
    assert (Q : same_core s s3) by (repeat (eapply same_core_trans; [eassumption|]); done). clear Q1 Q2 Q3 s1 s2.
    assert (Hs : is_Some (cores s3 !! n)) by (rewrite (sc_cores _ _ Q), Hc; by eexists).
    apply pwp_bind, pwp_upd_proc. intros p1 s4 Hp1 _ S. pupd S Hs. pq S. pupd S Hs. pupd S Hs.
    apply pwp_bind, pwp_release. intros _. apply pwp_ret.
    apply (quiet_set_core _ _ _ _ _ Q) in S. destruct S as [SC ? ? ? ?].
    rewrite (sc_cores _ _ Q), Hc in Hp1. injection Hp1 as Hp1.
    unfold wait_effect. split; [done|]. split; [done|]. split; [done|]. split; [done|]. exists n, (core p). split_and!; try done.
    change (cores (set_ptable_lock false ?x)) with (cores x). rewrite SC. f_equal.
    unfold core in *. simpl in *. simplify_eq. f_equal; congruence.
  - assert (Hno : forall k q2, cores s !! k = Some q2 -> c_parent q2 = Some (curproc s) -> c_state q2 <> ZOMBIE).
    { intros k q2 (p & Hp & ->)%cores_inv Hpar Hst. apply (find_proc_None _ _ _ _ _ Hf) in Hp.
      unfold zombie_child, is_child, state_eqb in Hp. simpl in *.
      by rewrite !bool_decide_eq_true_2 in Hp by done. }
    apply pwp_bind, pwp_get_proc. intros p _ Hp. case_if Hb.
    + apply pwp_bind, pwp_release. intros _. apply pwp_ret. done.
    + apply pwp_bind. eapply pwp_mono; [by apply sleep_enter_effect|]. cbn beta. intros [] s' [].
      apply pwp_ret. split_and!; try done. by exists (core p).
Qed.

(** [yield] makes the caller RUNNABLE. *)
Lemma yield_enter_effect s :
  pwp yield_enter (fun _ s' => exists q, cores s !! curproc s = Some q /\
    cores s' = <[curproc s := mkCore RUNNABLE (c_parent q) (c_chan q) (c_pid q) (c_killed q)]> (cores s) /\
    initproc s' = initproc s /\ nextpid s' = nextpid s) s.
Proof.
  unfold yield_enter. apply pwp_bind, pwp_acquire. intros _. apply pwp_bind, pwp_gets.
  apply pwp_bind, pwp_upd_proc. intros p s1 Hp _ S1. eapply pwp_quiet; [apply quiet_sched|].
  intros [] s2 Q. apply (set_core_quiet _ _ _ _ _ S1) in Q. destruct Q. exists (core p). done.
Qed.

(** [sleep] on another lock. *)
Lemma sleep_lock_effect c s :
  pwp (sleep_enter c (Some (ret tt))) (fun _ s' => exists q, cores s !! curproc s = Some q /\
    cores s' = <[curproc s := mkCore SLEEPING (c_parent q) c (c_pid q) (c_killed q)]> (cores s) /\
    initproc s' = initproc s /\ nextpid s' = nextpid s) s.
Proof.
  unfold sleep_enter. apply pwp_bind, pwp_gets. apply pwp_bind, pwp_bind, pwp_acquire. intros _. apply pwp_ret.
  apply pwp_bind, pwp_upd_proc. intros p s1 Hp _ S1. change (cores (set_ptable_lock true s)) with (cores s) in Hp.
  assert (Hs : is_Some (cores (set_ptable_lock true s) !! curproc s)) by (by exists (core p)). pupd S1 Hs.
  eapply pwp_quiet; [apply quiet_sched|]. intros [] s2 Q. apply (set_core_quiet _ _ _ _ _ S1) in Q.
  unfold core in E. simpl in E. injection E as ? ? ? ? ?.
  destruct Q. exists (core p). split_and!; try done. change (cores s) with (cores (set_ptable_lock true s)).
  rewrite st_cores0. unfold core. simpl. do 2 f_equal; congruence.
Qed.

(** The scheduler runs a RUNNABLE process. *)
Lemma scheduler_pick_effect from s i :
  pwp (scheduler_pick from) (fun r s' => r = Some i -> exists q, cores s !! i = Some q /\
    c_state q = RUNNABLE /\ curproc s' = i /\ initproc s' = initproc s /\ nextpid s' = nextpid s /\
    ptable_lock s' = ptable_lock s /\
    cores s' = <[i := mkCore RUNNING (c_parent q) (c_chan q) (c_pid q) (c_killed q)]> (cores s)) s.
Proof.
  unfold scheduler_pick. apply pwp_bind, pwp_gets. destruct (find_proc _ _ _) as [j|] eqn:Hf; [|by apply pwp_ret].
  apply find_proc_Some in Hf as (n & p & -> & Hp & Hst%bool_decide_eq_true & _).
  rewrite lookup_drop in Hp. apply cores_lookup in Hp as Hc.
  apply pwp_bind, pwp_modify. apply pwp_bind, pwp_quiet; [unfold switchuvm; quiet_tac|]. intros [] s1 [C1 ? ? ? ?].
  apply pwp_bind, pwp_upd_proc. intros p2 s2 Hp2 _ [C2 ? ? ? ?]. apply pwp_ret. intros [= <-].
  change (cores (set_curproc _ s)) with (cores s) in C1. rewrite C1, Hc in Hp2. core_inj Hp2. simpl in *.
  exists (core p). split_and!; try done; try congruence. rewrite C2, C1. unfold core. simpl. do 2 f_equal; congruence.
Qed.

(** The rest of [sleep] clears the channel. *)
Lemma sleep_exit_effect s :
  pwp (sleep_exit None) (fun _ s' => exists q, cores s !! curproc s = Some q /\
    set_core (curproc s) (mkCore (c_state q) (c_parent q) ChNone (c_pid q) (c_killed q)) s s') s.
Proof.
  unfold sleep_exit. apply pwp_bind, pwp_gets. apply pwp_bind, pwp_upd_proc. intros p s1 Hp _ S1.
  apply pwp_ret. by exists (core p).
Qed.

End effects.

(** ** The invariant is kept *)

Section table.

(** One process changes. *)
Lemma table_inv_upd init l next cs i q q' next' cs' :
  table_inv init l next cs -> l !! i = Some q -> next <= next' -> c_pid q' < next' ->
  (c_state q' <> UNUSED -> (c_state q <> UNUSED /\ c_pid q' = c_pid q) \/ next <= c_pid q') ->
  (c_state q' = ZOMBIE -> c_state q = ZOMBIE /\ c_parent q' = c_parent q) ->
  (c_state q' = SLEEPING -> c_chan q' = ChProc i ->
     forall j p, l !! j = Some p -> c_parent p = Some i -> c_state p <> ZOMBIE) ->
  c_parent q' <> Some i ->
  (i = init -> c_parent q' = None /\ c_state q' <> UNUSED /\ c_state q' <> ZOMBIE) ->
  (forall c j, j <> i -> cs' !! c = Some (Some j) <-> cs !! c = Some (Some j)) ->
  (c_state q' = RUNNING -> exists c, cs' !! c = Some (Some i)) ->
  (forall c, cs' !! c = Some (Some i) -> c_state q' = RUNNING) ->
  (forall c c', cs' !! c = Some (Some i) -> cs' !! c' = Some (Some i) -> c = c') ->
  table_inv init (<[i := q']> l) next' cs'.
Proof.
  intros T Hq Hn Hp Hpid Hz Hs Hself Hinit R1 R2 R3 R4. pose proof (lookup_lt_Some _ _ _ Hq) as Hlt.
  assert (Hl : forall j p, <[i := q']> l !! j = Some p -> (j = i /\ p = q') \/ (j <> i /\ l !! j = Some p)).
  { intros j p Hj. destruct (decide (j = i)) as [->|]; [left|right].
    - rewrite list_lookup_insert_eq in Hj by done. by injection Hj.
    - by rewrite list_lookup_insert_ne in Hj. }
  split.
  - rewrite length_insert. apply T.
  - intros c j Hc. destruct (decide (j = i)) as [->|Hne].
    + exists q'. rewrite list_lookup_insert_eq by done. eauto.
    + apply R1 in Hc; [|done]. rewrite list_lookup_insert_ne by done. by eapply ti_running.
  - intros j p [[-> ->]|[Hne Hj]]%Hl Hr; [by apply R2|]. destruct (ti_only _ _ _ _ T j p Hj Hr) as [c Hc].
    exists c. by apply R1.
  - intros c c' j Hc Hc'. destruct (decide (j = i)) as [->|Hne]; [by apply R4|].
    apply R1 in Hc, Hc'; try done. by eapply (ti_once _ _ _ _ T).
  - pose proof (ti_next _ _ _ _ T). lia.
  - intros j p [[-> ->]|[Hne Hj]]%Hl; [done|]. pose proof (ti_pid _ _ _ _ T j p Hj). lia.
  - intros j k p r [[-> ->]|[Hnj Hj]]%Hl [[-> ->]|[Hnk Hk]]%Hl Hpu Hru He; [done| | |].
    + pose proof (ti_pid _ _ _ _ T k r Hk). destruct (Hpid Hpu) as [[Hu Hx]|Hx]; [|lia].
      apply (ti_pid_inj _ _ _ _ T i k q r); congruence.
    + pose proof (ti_pid _ _ _ _ T j p Hj). destruct (Hpid Hru) as [[Hu Hx]|Hx]; [|lia].
      apply (ti_pid_inj _ _ _ _ T j i p q); congruence.
    + by apply (ti_pid_inj _ _ _ _ T j k p r).
  - intros j p k r [[-> ->]|[Hnj Hj]]%Hl [[-> ->]|[Hnk Hk]]%Hl Hst Hch Hpar.
    + congruence.
    + by apply (Hs Hst Hch k r).
    + intros Hx. destruct (Hz Hx) as [Hzq Hpq]. apply (ti_wait _ _ _ _ T j p i q); congruence.
    + by apply (ti_wait _ _ _ _ T j p k r).
  - intros j p [[-> ->]|[Hne Hj]]%Hl; [done|by eapply ti_self].
  - destruct (ti_init _ _ _ _ T) as (p & Hp0 & Hx). destruct (decide (i = init)) as [->|Hne].
    + exists q'. rewrite list_lookup_insert_eq by done. auto.
    + exists p. by rewrite list_lookup_insert_ne.
Qed.

(** The process on CPU [c] gives it up. *)
Lemma table_inv_leave init l next cs c i q st ch :
  table_inv init l next cs -> cs !! c = Some (Some i) -> l !! i = Some q ->
  st = RUNNABLE \/ (st = SLEEPING /\ (ch = ChProc i ->
     forall j p, l !! j = Some p -> c_parent p = Some i -> c_state p <> ZOMBIE)) ->
  table_inv init (<[i := mkCore st (c_parent q) ch (c_pid q) (c_killed q)]> l) next (<[c := None]> cs).
Proof.
  intros T Hc Hq Hst. pose proof (lookup_lt_Some _ _ _ Hc) as Hlt.
  destruct (ti_running _ _ _ _ T c i Hc) as (q0 & Hq0 & Hrun). rewrite Hq in Hq0. injection Hq0 as <-.
  assert (Hnone : forall c', <[c := None]> cs !! c' = Some (Some i) -> False).
  { intros c' Hc'. destruct (decide (c' = c)) as [->|Hne].
    - by rewrite list_lookup_insert_eq in Hc'.
    - rewrite list_lookup_insert_ne in Hc' by done. by apply Hne, (ti_once _ _ _ _ T c' c i). }
  eapply table_inv_upd; simpl; try done.
  - by eapply ti_pid.
  - intros _. left. split; [congruence|done].
  - destruct Hst as [->|[-> _]]; done.
  - intros Hs Hch. destruct Hst as [->|[_ H]]; [done|]. by apply H.
  - by eapply ti_self.
  - intros ->. destruct (ti_init _ _ _ _ T) as (p & Hp0 & Hx & _). simplify_eq.
    destruct Hst as [->|[-> _]]; done.
  - intros c' j Hne. destruct (decide (c' = c)) as [->|Hne'].
    + rewrite list_lookup_insert_eq, Hc by done. split; congruence.
    + by rewrite list_lookup_insert_ne.
  - destruct Hst as [->|[-> _]]; done.
  - intros c' Hc'. by destruct (Hnone c').
  - intros c' c'' Hc'. by destruct (Hnone c').
Qed.

(** A waking entry. *)
Lemma table_inv_wake init l next cs ch :
  table_inv init l next cs -> table_inv init (wake_core ch <$> l) next cs.
Proof.
  intros T.
  assert (Hl : forall i q', (wake_core ch <$> l) !! i = Some q' -> exists q, l !! i = Some q /\ q' = wake_core ch q).
  { intros i q'. rewrite list_lookup_fmap. destruct (l !! i); [|done]. intros [= <-]. eauto. }
  split.
  - rewrite length_fmap. apply T.
  - intros c i Hc. destruct (ti_running _ _ _ _ T c i Hc) as (p & Hp & Hr). exists (wake_core ch p).
    rewrite list_lookup_fmap, Hp. split; [done|].
    destruct (wake_core_fields ch p) as (_ & _ & _ & _ & [->|[? _]] & _); [done|congruence].
  - intros i q' (q & Hq & ->)%Hl Hr. apply (ti_only _ _ _ _ T i q Hq).
    destruct (wake_core_fields ch q) as (_ & _ & _ & _ & [<-|[_ ?]] & _); [done|congruence].
  - apply T.
  - apply T.
  - intros i q' (q & Hq & ->)%Hl. destruct (wake_core_fields ch q) as (_ & _ & -> & _). by eapply ti_pid.
  - intros i j p' q' (p & Hp & ->)%Hl (q & Hq & ->)%Hl.
    destruct (wake_core_fields ch p) as (_ & _ & -> & _ & Sp & _), (wake_core_fields ch q) as (_ & _ & -> & _ & Sq & _).
    intros Hu Hu'. apply (ti_pid_inj _ _ _ _ T i j p q Hp Hq); destruct Sp as [?|[? _]], Sq as [?|[? _]]; congruence.
  - intros i p' j q' (p & Hp & ->)%Hl (q & Hq & ->)%Hl.
    destruct (wake_core_fields ch p) as (_ & -> & _ & _ & Sp & _), (wake_core_fields ch q) as (-> & _ & _ & _ & Sq & _).
    intros Hs Hc Hpar Hz. apply (ti_wait _ _ _ _ T i p j q Hp Hq); try done; destruct Sp as [?|[? ?]], Sq as [?|[? ?]]; congruence.
  - intros i p' (p & Hp & ->)%Hl. destruct (wake_core_fields ch p) as (-> & _). by eapply ti_self.
  - destruct (ti_init _ _ _ _ T) as (p & Hp & Hx & Hu & Hz). exists (wake_core ch p).
    rewrite list_lookup_fmap, Hp. destruct (wake_core_fields ch p) as (-> & _ & _ & _ & Sp & _).
    split_and!; try done; destruct Sp as [->|[? ->]]; done.
Qed.

(** A process exits. *)
Lemma table_inv_exit init l next cs c cur l' :
  table_inv init l next cs -> cs !! c = Some (Some cur) -> cur <> init -> exited cur init l l' ->
  table_inv init l' next (<[c := None]> cs).
Proof.
  intros T Hc Hni [Hlen [qc Hqc] E]. pose proof (lookup_lt_Some _ _ _ Hc) as Hlt.
  assert (Hst : forall k q q', l !! k = Some q -> l' !! k = Some q' -> k <> cur ->
    c_state q' = c_state q \/ (c_state q = SLEEPING /\ c_state q' = RUNNABLE)).
  { intros k q q' Hq Hq' Hne. destruct (E k q' Hq') as (q0 & Hq0 & _ & _ & _ & _ & H). simplify_eq.
    rewrite decide_False in H by done. tauto. }
  assert (Hcs : forall c' i, <[c := None]> cs !! c' = Some (Some i) <-> i <> cur /\ cs !! c' = Some (Some i)).
  { intros c' i. destruct (decide (c' = c)) as [->|Hne].
    - rewrite list_lookup_insert_eq, Hc by done. split; [done|]. intros [? ?]. congruence.
    - rewrite list_lookup_insert_ne by done. split; [|tauto]. intros Hi. split; [|done].
      intros ->. by apply Hne, (ti_once _ _ _ _ T c' c cur). }
  split.
  - rewrite Hlen. apply T.
  - intros c' i [Hne Hi]%Hcs. destruct (ti_running _ _ _ _ T c' i Hi) as (q & Hq & Hr).
    destruct (lookup_lt_is_Some_2 l' i) as [q' Hq']; [rewrite Hlen; by eapply lookup_lt_Some|].
    exists q'. split; [done|]. destruct (Hst i q q' Hq Hq' Hne) as [->|[? _]]; congruence.
  - intros i q' Hq' Hr. destruct (E i q' Hq') as (q & Hq & _ & _ & _ & _ & H). case_decide; [congruence|].
    destruct (Hst i q q' Hq Hq' ltac:(done)) as [He|[_ He]]; [|congruence].
    destruct (ti_only _ _ _ _ T i q Hq ltac:(congruence)) as [c' Hc']. exists c'. by apply Hcs.
  - intros c1 c2 i [_ H1]%Hcs [_ H2]%Hcs. by eapply (ti_once _ _ _ _ T).
  - apply T.
  - intros i q' Hq'. destruct (E i q' Hq') as (q & Hq & _ & -> & _). by eapply ti_pid.
  - intros i j p' q' Hp' Hq' Hu Hu' He.
    destruct (E i p' Hp') as (p & Hp & _ & Ep & _ & _ & Sp), (E j q' Hq') as (q & Hq & _ & Eq & _ & _ & Sq).
    destruct (ti_running _ _ _ _ T c cur Hc) as (r & Hr & Hrun). simplify_eq.
    apply (ti_pid_inj _ _ _ _ T i j p q Hp Hq); [| |congruence].
    + destruct (decide (i = cur)) as [->|Hx]; [simplify_eq; congruence|]. destruct Sp as [[?|[? ?]] _]; congruence.
    + destruct (decide (j = cur)) as [->|Hx]; [simplify_eq; congruence|]. destruct Sq as [[?|[? ?]] _]; congruence.
  - intros i p' j q' Hp' Hq' Hs Hch Hpar Hz.
    destruct (E i p' Hp') as (p & Hp & Cp & _ & _ & _ & Sp), (E j q' Hq') as (q & Hq & _ & _ & _ & Pq & Sq).
    destruct (decide (i = cur)) as [_|Hx]; [congruence|]. destruct Sp as (Sp1 & Sp2 & Sp3).
    assert (Hsp : c_state p = SLEEPING) by (destruct Sp1 as [?|[? ?]]; congruence).
    destruct (decide (j = cur)) as [->|Hjc].
    + simplify_eq. rewrite bool_decide_eq_false_2 in Pq by (by eapply ti_self).
      apply (Sp2 Hs _ Hqc). rewrite <- Pq, Hpar. simpl. congruence.
    + destruct Sq as ([Sq|[_ Sq]] & _); [|congruence]. case_bool_decide as Hb.
      * apply (Sp3 Hs ltac:(congruence) j q Hq Hb). congruence.
      * apply (ti_wait _ _ _ _ T i p j q Hp Hq); congruence.
  - intros i q' Hq'. destruct (E i q' Hq') as (q & Hq & _ & _ & _ & -> & _). case_bool_decide as Hb.
    + intros [= <-]. destruct (ti_init _ _ _ _ T) as (p & Hp & Hn & _). congruence.
    + by eapply ti_self.
  - destruct (ti_init _ _ _ _ T) as (p & Hp & Hn & Hu & Hz).
    destruct (lookup_lt_is_Some_2 l' init) as [q' Hq']; [rewrite Hlen; by eapply lookup_lt_Some|].
    exists q'. destruct (E init q' Hq') as (q & Hq & _ & _ & _ & Pq & Sq). simplify_eq.
    rewrite decide_False in Sq by done. destruct Sq as ([Sq|[? Sq]] & _); rewrite Pq, Sq; split_and!; try done;
      rewrite Hn; by rewrite bool_decide_eq_false_2.
Qed.

(** The CPUs are the same and the process stays as it is, or is woken. *)
Lemma table_inv_mark init l next cs i q q' :
  table_inv init l next cs -> l !! i = Some q -> c_parent q' = c_parent q -> c_pid q' = c_pid q ->
  (c_state q' = c_state q /\ (c_chan q' = c_chan q \/ c_state q <> SLEEPING)) \/
  (c_state q = SLEEPING /\ c_state q' = RUNNABLE) ->
  table_inv init (<[i := q']> l) next cs.
Proof.
  intros T Hq Hp Hi Hst. eapply (table_inv_upd _ _ _ _ _ q); try done.
  - rewrite Hi. by eapply ti_pid.
  - left. split; [|done]. destruct Hst as [[? _]|[? _]]; congruence.
  - intros Hz. destruct Hst as [[? _]|[? ?]]; [split; congruence|congruence].
  - intros Hs Hc j p Hj Hpar. destruct Hst as [[He [Hch|?]]|[? ?]]; try congruence.
    apply (ti_wait _ _ _ _ T i q j p); congruence.
  - rewrite Hp. by eapply ti_self.
  - intros ->. destruct (ti_init _ _ _ _ T) as (p & Hp0 & ? & ? & ?). simplify_eq.
    split_and!; try congruence; destruct Hst as [[? _]|[? ?]]; congruence.
  - intros Hr. destruct Hst as [[? _]|[? ?]]; [|congruence]. eapply ti_only; [done|done|congruence].
  - intros c Hc. destruct (ti_running _ _ _ _ T c i Hc) as (p & Hp0 & Hr). simplify_eq.
    destruct Hst as [[? _]|[? ?]]; congruence.
  - intros c c'. apply T.
Qed.

(** No CPU runs a process that is not RUNNING. *)
Lemma table_inv_off init l next cs i q c :
  table_inv init l next cs -> l !! i = Some q -> c_state q <> RUNNING -> cs !! c <> Some (Some i).
Proof. intros T Hq Hr Hc. destruct (ti_running _ _ _ _ T c i Hc) as (p & Hp & ?). congruence. Qed.

(** An UNUSED slot is taken with a new pid. *)
Lemma table_inv_new init l next cs i q st par :
  table_inv init l next cs -> l !! i = Some q -> c_state q = UNUSED -> st = UNUSED \/ st = RUNNABLE ->
  par <> Some i ->
  table_inv init (<[i := mkCore st par (c_chan q) next (c_killed q)]> l) (next + 1) cs.
Proof.
  intros T Hq Hu Hst Hpar. assert (Hoff := fun c => table_inv_off _ _ _ _ _ _ c T Hq ltac:(congruence)).
  eapply (table_inv_upd _ _ _ _ _ q); simpl; try done; try lia.
  - by destruct Hst as [->| ->].
  - by destruct Hst as [->| ->].
  - intros ->. destruct (ti_init _ _ _ _ T) as (p & Hp0 & ? & ? & ?). congruence.
  - by destruct Hst as [->| ->].
  - intros c Hc. by destruct (Hoff c).
  - intros c c' Hc. by destruct (Hoff c).
Qed.

(** [wait] frees a zombie. *)
Lemma table_inv_free init l next cs i q ch :
  table_inv init l next cs -> l !! i = Some q -> c_state q = ZOMBIE ->
  table_inv init (<[i := mkCore UNUSED None ch 0 0]> l) next cs.
Proof.
  intros T Hq Hz. assert (Hoff := fun c => table_inv_off _ _ _ _ _ _ c T Hq ltac:(congruence)).
  eapply (table_inv_upd _ _ _ _ _ q); simpl; try done.
  - by eapply ti_next.
  - intros ->. destruct (ti_init _ _ _ _ T) as (p & Hp0 & ? & ? & ?). congruence.
  - intros c Hc. by destruct (Hoff c).
  - intros c c' Hc. by destruct (Hoff c).
Qed.

(** An idle CPU runs a RUNNABLE process. *)
Lemma table_inv_run init l next cs c i q :
  table_inv init l next cs -> cs !! c = Some None -> l !! i = Some q -> c_state q = RUNNABLE ->
  table_inv init (<[i := mkCore RUNNING (c_parent q) (c_chan q) (c_pid q) (c_killed q)]> l) next
    (<[c := Some i]> cs).
Proof.
  intros T Hc Hq Hst. pose proof (lookup_lt_Some _ _ _ Hc) as Hlt.
  assert (Hoff := fun c => table_inv_off _ _ _ _ _ _ c T Hq ltac:(congruence)).
  assert (Hone : forall c', <[c := Some i]> cs !! c' = Some (Some i) -> c' = c).
  { intros c' Hc'. destruct (decide (c' = c)) as [->|Hne]; [done|].
    rewrite list_lookup_insert_ne in Hc' by done. by destruct (Hoff c'). }
  eapply (table_inv_upd _ _ _ _ _ q); simpl; try done.
  - by eapply ti_pid.
  - left. split; congruence.
  - by eapply ti_self.
  - intros ->. destruct (ti_init _ _ _ _ T) as (p & Hp0 & ? & ? & ?). simplify_eq. done.
  - intros c' j Hne. destruct (decide (c' = c)) as [->|Hne'].
    + rewrite list_lookup_insert_eq, Hc by done. split; congruence.
    + by rewrite list_lookup_insert_ne.
  - exists c. by rewrite list_lookup_insert_eq.
  - intros c1 c2 H1%Hone H2%Hone. congruence.
Qed.

End table.

(** ** Every step keeps the invariant *)

Section steps.
Context {K : KernelImage} {KC : KernelCode} {F : Type} {FO : FileOps F}.
Implicit Types s : kernel F.

Lemma sys_ok_intro s cs init l next :
  ptable_lock s = false -> initproc s = init -> cores s = l -> nextpid s = next ->
  table_inv init l next cs -> sys_ok (mkSys s cs).
Proof. intros Hlk <- <- <- T. by split. Qed.

Lemma sys_ok_release s cs init l next :
  initproc s = init -> cores s = l -> nextpid s = next -> table_inv init l next cs ->
  sys_ok (mkSys (sched_release s) cs).
Proof. intros <- <- <- T. by split. Qed.

Lemma sys_ok_same s s' cs : sys_ok (mkSys s cs) -> same_core s s' -> sys_ok (mkSys s' cs).
Proof. intros [Hlk T] []. simpl in *. split; simpl; congruence. Qed.

Lemma sys_ok_new s s' cs i st par :
  sys_ok (mkSys s cs) -> new_proc i st par s s' -> st = UNUSED \/ st = RUNNABLE ->
  (forall p, p <> Some i -> par p <> Some i) -> sys_ok (mkSys s' cs).
Proof.
  intros [Hlk T] [(q & Hq & Hu & Hc) ? ? ? ?] Hst Hpar. simpl in *.
  eapply sys_ok_intro; [congruence|done..|].
  eapply table_inv_new; try done. by eapply Hpar, ti_self.
Qed.

Lemma sys_ok_wait s cs i r s' :
  table_inv (initproc s) (cores s) (nextpid s) cs -> wait_effect s r s' -> r <> WSleep ->
  curproc s = i -> sys_ok (mkSys s' cs).
Proof.
  intros T (Hn & Hcu & Hi & Hr) Hne _. destruct r as [pd| |]; [| |done].
  - destruct Hr as (Hlk & j & q & Hq & _ & Hz & _ & Hc). eapply sys_ok_intro; [done..|]. by eapply table_inv_free.
  - destruct Hr as (Hlk & Hc). eapply sys_ok_intro; [done..|]. done.
Qed.

Lemma sys_ok_wait_sleep s cs c i s' :
  table_inv (initproc s) (cores s) (nextpid s) cs -> cs !! c = Some (Some i) -> curproc s = i ->
  wait_effect s WSleep s' -> sys_ok (mkSys (sched_release s') (<[c := None]> cs)).
Proof.
  intros T Hc <- (Hn & Hcu & Hi & q & Hq & Hcs & Hno). eapply sys_ok_release; [done..|].
  eapply table_inv_leave; [done..|]. right. split; [done|]. intros _. apply Hno.
Qed.

Lemma wait_enter_effect s r s' : wait_enter s = Ret r s' -> wait_effect (set_ptable_lock true s) r s'.
Proof.
  intros Hw. apply (pwp_run _ _ _ _ _ Hw). apply pwp_bind, pwp_acquire. intros _. by apply wait_scan_effect.
Qed.

(** The state in which the picked process continues. *)
Lemma resume_ok s cs c i s' o :
  table_inv (initproc s) (cores s) (nextpid s) cs -> cs !! c = Some (Some i) -> curproc s = i ->
  ptable_lock s = true -> resume s s' o i -> sys_ok (mkSys s' (<[c := o]> cs)).
Proof.
  intros T Hc Hcur Hlk Hr. destruct (ti_running _ _ _ _ T c i Hc) as (q & Hq & Hrun).
  assert (Hslp : forall s1, sleep_exit None s = Ret tt s1 -> ptable_lock s1 = true /\
    table_inv (initproc s1) (cores s1) (nextpid s1) cs /\ curproc s1 = i).
  { intros s1 H1. destruct (pwp_run _ _ _ _ _ H1 (sleep_exit_effect s)) as (q0 & Hq0 & [C ? -> -> ?]).
    split_and!; [congruence| |congruence]. rewrite C. rewrite Hcur, Hq in Hq0. injection Hq0 as <-.
    rewrite Hcur. eapply table_inv_mark; simpl; try done. left. split; [done|]. right. congruence. }
  inversion Hr as [? ? ? Hy|? ? ? ? H1 Hy|? ? s1 ? r H1 Hw Hne|? ? s1 s2 H1 Hw]; subst.
  - rewrite (list_insert_id cs) by done. apply (pwp_run _ (fun _ s' => sys_ok (mkSys s' cs)) _ _ _ Hy), pwp_release. intros _. eapply sys_ok_intro; done.
  - rewrite (list_insert_id cs) by done. destruct (Hslp _ H1) as (L1 & T1 & C1). apply (pwp_run _ (fun _ s' => sys_ok (mkSys s' cs)) _ _ _ Hy), pwp_release. intros _.
    eapply sys_ok_intro; done.
  - rewrite (list_insert_id cs) by done. destruct (Hslp _ H1) as (L1 & T1 & C1).
    eapply sys_ok_wait; [done| |done..]. exact (pwp_run _ _ _ _ _ Hw (wait_scan_effect s1 L1)).
  - destruct (Hslp _ H1) as (L1 & T1 & C1). eapply sys_ok_wait_sleep; [done..|].
    exact (pwp_run _ _ _ _ _ Hw (wait_scan_effect s1 L1)).
Qed.

Lemma step_ok S S' : sys_ok S -> step S S' -> sys_ok S'.
Proof.
  intros Hok Hst. pose proof Hok as [Hlk T]. destruct Hst as
    [c i s cs r s' Hc Hf|c i s cs s' Hc Hx|c i s cs r s' Hc Hw Hne|c i s cs s' Hc Hw|c i s cs s' Hc Hy
    |c i a s cs s' Hc Hs|c i a s cs s' Hc Hw|c i p s cs r s' Hc Hk|c from i s cs s1 s2 s' o Hc Ha Hp Hr]; simpl in *.
  - assert (Hi : forall j q, cores s !! j = Some q -> c_state q = UNUSED -> j <> i).
    { intros j q Hq Hu ->. by apply (table_inv_off _ _ _ _ _ _ c T Hq); [congruence|]. }
    destruct (pwp_run _ _ _ _ _ Hf (fork_effect (on_cpu i s) Hlk)) as [[_ Sc]|[(_ & j & N)|(_ & j & N)]].
    + by eapply (sys_ok_same (on_cpu i s)).
    + eapply (sys_ok_new (on_cpu i s)); [by split|done|by left|done].
    + eapply (sys_ok_new (on_cpu i s)); [by split|done|by right|].
      intros _ _ [= He]. destruct N as [(q & Hq & Hu & _) _ _ _ _]. by apply (Hi j q Hq Hu).
  - destruct (pwp_run _ _ _ _ _ Hx (exit_effect (on_cpu i s) (ti_len _ _ _ _ T) Hlk)) as (E & Hn & Hi & Hne).
    eapply sys_ok_release; [done..|]. by eapply table_inv_exit.
  - pose proof (wait_enter_effect _ _ _ Hw) as W. by eapply (sys_ok_wait (set_ptable_lock true (on_cpu i s))).
  - pose proof (wait_enter_effect _ _ _ Hw) as W.
    by eapply (sys_ok_wait_sleep (set_ptable_lock true (on_cpu i s))).
  - destruct (pwp_run _ _ _ _ _ Hy (yield_enter_effect (on_cpu i s))) as (q & Hq & Hcs & Hi & Hn).
    eapply sys_ok_release; [done..|]. eapply table_inv_leave; [done..|by left].
  - destruct (pwp_run _ _ _ _ _ Hs (sleep_lock_effect (ChAddr a) (on_cpu i s))) as (q & Hq & Hcs & Hi & Hn).
    eapply sys_ok_release; [done..|]. eapply table_inv_leave; [done..|by right].
  - destruct (pwp_run _ _ _ _ _ Hw (wakeup_effect (ChAddr a) (on_cpu i s))) as (Hcs & Hi & Hn & Hl).
    eapply sys_ok_intro; [done..|].  by apply table_inv_wake.
  - destruct (pwp_run _ _ _ _ _ Hk (kill_effect p (on_cpu i s) Hlk)) as [(_ & Sc & _)|(_ & j & q & Hq & _ & [Hcs _ Hi Hn Hl])].
    + by eapply (sys_ok_same (on_cpu i s)).
    + eapply sys_ok_intro; [by rewrite Hl|done..|].  eapply table_inv_mark; try done. simpl.
      unfold state_eqb. case_bool_decide; auto.
  - assert (s1 = set_ptable_lock true s) as ->.
    { apply (pwp_run _ (fun _ s1 => s1 = set_ptable_lock true s) _ _ _ Ha), pwp_acquire. done. }
    destruct (pwp_run _ _ _ _ _ Hp (scheduler_pick_effect from _ i)) as (q & Hq & Hst & Hcu & Hi & Hn & Hl & Hcs); [done|].
    simpl in *. pose proof (lookup_lt_Some _ _ _ Hc).
    rewrite <- (list_insert_insert_eq cs c o (Some i)). eapply resume_ok; try done.
    + rewrite Hi, Hn, Hcs. by eapply table_inv_run.
    + by rewrite list_lookup_insert_eq.
Qed.

Lemma reachable_sys_ok S0 S : sys_ok S0 -> reachable S0 S -> sys_ok S.
Proof. intros H0 Hr. induction Hr; [done|]. by eapply step_ok. Qed.

End steps.
