(* ===== verification/ProcSpec.v ===== *)
(** * The operations on processes, with the memory they use

    Total specifications of [allocproc], [growproc], [wait] and [fork]: the
    slot, the free list, the page tables and the bytes of memory. *)

From S2P Require Import Prelude.
From S2P Require Import CString.
From S2P Require Import Mmu.
From S2P Require Import Kalloc.
From S2P Require Import Vm.
From S2P Require Import Uvm.
From S2P Require Import Vmspace.
From S2P Require Import Kernel.
From S2P Require Import Shm.
From S2P Require Import ShmGet.
From S2P Require Import ShmAttach.
From S2P Require Import Proc.
From S2P Require Import Sched.

Open Scope Z_scope.

Section spec_defs.
Context {K : KernelImage} {KC : KernelCode} {F : Type}.

(** [i] is the first free slot. *)
Definition first_unused (tab : list proc) (i : nat) : Prop :=
  find_proc (fun p => state_eqb (state p) UNUSED) 0 tab = Some i.

(** The context of a new process in the stack page [k]. *)
Definition new_context (k : Z) : Z := k + KSTACKSIZE - SIZEOF_TRAPFRAME - 4 - SIZEOF_CONTEXT.

(** The slot [p] after [allocproc], with the stack page [k]. *)
Definition embryo (p : proc) (pid_ k : Z) : proc :=
  set_pages (replicate (Z.to_nat SHAREDREGIONS) new_pages)
    (set_context (new_context k) (set_kstack k (set_pid pid_ (set_state EMBRYO p)))).

(** The slot after [allocproc] found no memory. *)
Definition stillborn (p : proc) (pid_ : Z) : proc :=
  set_state UNUSED (set_kstack 0 (set_pid pid_ (set_state EMBRYO p))).

(** The stack of a new process: [forkret] runs first, with the other registers
    zero, and returns to [trapret]. *)
Definition stack_ok (m : memory) (k : Z) : Prop :=
  ld32 m (k + KSTACKSIZE - SIZEOF_TRAPFRAME - 4) = trapret_ /\
  ld32 m (new_context k + 16) = forkret_ /\
  forall b, new_context k <= b < new_context k + 16 -> ld8 m b = 0.

(** What [allocproc] leaves: the new slot, one page less, the rest as it was. *)
Record alloced (fl : list Z) (s : kernel F) (i : nat) (p : proc) (r : option nat) (s' : kernel F) : Prop := {
  al_next : nextpid s' = nextpid s + 1;
  al_cur : curproc s' = curproc s;
  al_shm : shmTable s' = shmTable s;
  al_lock : ptable_lock s' = false;
  al_shm_lock : shm_lock s' = shm_lock s;
  al_fs : kfs s' = kfs s;
  al_use : use_lock (kphys s') = use_lock (kphys s);
  al_phys : phys_ok (tl fl) (kphys s');
  al_frame : forall b, (forall k, head fl = Some k -> b < k \/ k + 4096 <= b) ->
    ld8 (mem (kphys s')) b = ld8 (mem (kphys s)) b;
  al_result : match fl with
    | [] => r = None /\ ptable s' = <[i := stillborn p (nextpid s)]> (ptable s)
    | k :: _ => r = Some i /\ ptable s' = <[i := embryo p (nextpid s) k]> (ptable s) /\
        stack_ok (mem (kphys s')) k
    end;
}.

End spec_defs.

(** * Lemmas *)

Section allocproc.
Context {K : KernelImage} {KI : KernelImageOk K} {KC : KernelCode} {F : Type} {FO : FileOps F}.
Implicit Types s : kernel F.

Lemma wpx_ptable_acquire (Q : unit -> kernel F -> Prop) E s :
  ptable_lock s = false -> Q tt (set_ptable_lock true s) -> wpx ptable_acquire Q E s.
Proof. apply wpx_acquire. Qed.

Lemma wpx_ptable_release (Q : unit -> kernel F -> Prop) E s :
  ptable_lock s = true -> Q tt (set_ptable_lock false s) -> wpx ptable_release Q E s.
Proof. apply wpx_release. Qed.

(** Update a process whose slot is known to hold [p]. *)
Lemma wpx_upd_slot (Q : unit -> kernel F -> Prop) E i f p tab s :
  ptable s = <[i := p]> tab -> (i < length tab)%nat ->
  Q tt (set_ptable (<[i := f p]> tab) s) -> wpx (upd_proc i f) Q E s.
Proof.
  intros Ht Hi HQ. apply (wpx_upd_proc _ _ _ _ p); rewrite Ht.
  - by apply list_lookup_insert_eq.
  - by rewrite list_insert_insert_eq.
Qed.

Lemma wpx_get_slot (Q : proc -> kernel F -> Prop) E i p tab s :
  ptable s = <[i := p]> tab -> (i < length tab)%nat -> Q p s -> wpx (get_proc i) Q E s.
Proof. intros Ht Hi HQ. apply (wpx_get_proc _ _ _ p); [|done]. rewrite Ht. by apply list_lookup_insert_eq. Qed.

(** The memory [allocproc] writes. *)
Lemma new_stack_bytes m k :
  is_u32 trapret_ -> is_u32 forkret_ ->
  let m1 := st32 m (k + KSTACKSIZE - SIZEOF_TRAPFRAME - 4) trapret_ in
  let m2 := st32 (memset m1 (new_context k) 0 SIZEOF_CONTEXT) (new_context k + 16) forkret_ in
  stack_ok m2 k /\ forall b, b < k \/ k + 4096 <= b -> ld8 m2 b = ld8 m b.
Proof.
  intros Ht Hf m1 m2. unfold stack_ok, m2, m1, new_context, SIZEOF_TRAPFRAME, SIZEOF_CONTEXT, KSTACKSIZE.
  split_and!.
  - rewrite ld32_st32_ne by lia. rewrite (ld32_ext (st32 m (k + 4096 - 76 - 4) trapret_)).
    + by apply ld32_st32_eq.
    + intros b Hb. rewrite ld8_memset by lia. by zcases.
  - by apply ld32_st32_eq.
  - intros b Hb. rewrite ld8_st32_ne, ld8_memset by lia. by zcases.
  - intros b Hb. rewrite ld8_st32_ne, ld8_memset, ld8_st32_ne by lia. by zcases.
Qed.

Lemma allocproc_spec fl s i p :
  phys_ok fl (kphys s) -> ptable_lock s = false -> nextpid s < INT_MAX ->
  first_unused (ptable s) i -> ptable s !! i = Some p -> is_u32 trapret_ -> is_u32 forkret_ ->
  wp allocproc (fun r s' => alloced fl s i p r s') s.
Proof.
  intros Hok Hlk Hn Hf Hp Ht Hfk. pose proof (lookup_lt_Some _ _ _ Hp) as Hi. unfold allocproc.
  wp_step. apply wpx_ptable_acquire; [done|]. wp_steps. simpl. unfold first_unused in Hf. rewrite Hf.
  wp_step. eapply wpx_upd_proc; [done|]. wp_steps. eapply (wpx_upd_slot _ _ _ _ _ (ptable s)); [done..|]. simpl.
  destruct (Z.eqb_spec (nextpid s) INT_MAX); [lia|]. wp_steps.
  apply wpx_ptable_release; [done|]. wp_steps. simpl. wp_use kalloc_spec; [done|].
  intros k ph (Hm & Hu & -> & Hok1). wp_steps.
  eapply (wpx_upd_slot _ _ _ _ _ (ptable s)); [done..|]. simpl.
  destruct fl as [|k fl']; simpl hd in *; simpl tl in *.
  { cbn [Z.eqb]. wp_steps. eapply (wpx_upd_slot _ _ _ _ _ (ptable s)); [done..|]. wp_steps.
    split; try done; simpl. by rewrite Hm. }
  assert (is_page k) as Hk by (apply (phys_ok_page _ _ k Hok); left).
  pose proof (ok_nodup _ _ Hok) as [Hnk _]%NoDup_cons.
  destruct (Z.eqb_spec k 0) as [->|Hz]; [by apply is_page_range in Hk as [? _]; alia|].
  wp_steps. eapply (wpx_upd_slot _ _ _ _ _ (ptable s)); [done..|]. wp_steps.
  eapply (wpx_upd_slot _ _ _ _ _ (ptable s)); [done..|]. wp_steps.
  fold (new_context k). simpl.
  destruct (new_stack_bytes (mem ph) k Ht Hfk) as [Hst Hfr].
  split; try done; simpl.
  - apply (phys_ok_frame fl' ph); [done|]. intros q b Hq Hb. rewrite Hfr; [done|].
    assert (is_page q) as Hqp by (by eapply phys_ok_page).
    destruct (is_page_disjoint q k Hqp Hk); [by intros ->|lia..].
  - intros b Hb. rewrite Hfr by (by apply Hb). by rewrite Hm.
Qed.

End allocproc.

(** ** growproc *)

Section growproc.
Context {K : KernelImage} {KI : KernelImageOk K} {KC : KernelCode} {F : Type} {FO : FileOps F}.
Implicit Types s : kernel F.

(** The outcome of [growproc(n)]: the size is set when 0 is returned, and the
    memory is that of [allocuvm] or [deallocuvm]. *)
Record resized (fl : list Z) (p : proc) (n : Z) s (r : Z) s' : Prop := {
  rs_table : ptable s' = if r =? 0 then <[curproc s := set_sz (sz p + n) p]> (ptable s) else ptable s;
  rs_rest : s' = set_kphys (kphys s') (set_ptable (ptable s') s);
  rs_grow : 0 < n -> alloc_result (pgdir p) (PGROUNDUP (sz p)) (PGROUNDUP (sz p + n)) (sz p + n) fl (kphys s)
    (if r =? 0 then sz p + n else 0) (kphys s');
  rs_shrink : n < 0 -> r = (if sz p + n =? 0 then -1 else 0) /\
    exists freed, unmapped (pgdir p) (PGROUNDUP (sz p + n)) (PGROUNDUP (sz p)) fl (kphys s) freed (kphys s');
  rs_zero : n = 0 -> r = 0 /\ kphys s' = kphys s;
  rs_result : r = 0 \/ r = -1;
}.

(** The process the current CPU runs can be switched to. *)
Lemma wpx_set_sz (Q : Z -> kernel F -> Prop) E s p v :
  ptable s !! curproc s = Some p -> kstack p <> 0 -> pgdir p <> 0 ->
  Q 0 (set_ptable (<[curproc s := set_sz v p]> (ptable s)) s) ->
  wpx (do! upd_proc (curproc s) (set_sz v) in do! switchuvm (curproc s) in ret 0) Q E s.
Proof.
  intros Hp Hk Hd HQ. pose proof (lookup_lt_Some _ _ _ Hp). wp_step. eapply wpx_upd_proc; [done|].
  wp_step. unfold switchuvm. wp_step. eapply wpx_get_proc; [by apply list_lookup_insert_eq|]. simpl.
  destruct (Z.eqb_spec (kstack p) 0); [done|]. destruct (Z.eqb_spec (pgdir p) 0); [done|]. by wp_steps.
Qed.

Lemma growproc_spec fl s p n :
  ptable s !! curproc s = Some p -> kstack p <> 0 -> pgdir p <> 0 ->
  phys_ok fl (kphys s) -> pgdir_ok (mem (kphys s)) (pgdir p) fl ->
  0 <= sz p < HEAPLIMIT -> 0 <= sz p + n < HEAPLIMIT ->
  (forall va, PGROUNDUP (sz p) <= va < PGROUNDUP (sz p + n) ->
     present (pte_view (mem (kphys s)) (pgdir p) va) = false) ->
  uvm_own (mem (kphys s)) (pgdir p) fl (PGROUNDUP (sz p + n)) (PGROUNDUP (sz p)) ->
  wp (growproc n) (resized fl p n s) s.
Proof.
  intros Hp Hk Hd Hok Hdir Hsz Hn Hfree Hown. unfold growproc. wp_step. unfold myproc. wp_steps.
  eapply wpx_get_proc; [done|]. rewrite (u32_small (sz p + n)) by (consts; unfold is_u32; lia).
  destruct (Z.ltb_spec 0 n) as [Hpos|Hnpos].
  - wp_steps. wp_use allocuvm_spec; [done|done|lia|lia|done|].
    intros v ph R. wp_steps. destruct (Z.eqb_spec v 0) as [->|Hv].
    + wp_steps. split; simpl; try done; try lia; auto; by destruct s.
    + apply (wpx_set_sz _ _ (set_kphys ph s) p v Hp Hk Hd).
      assert (v = sz p + n) as -> by (by destruct R as [[? _]|[? _]]).
      split; simpl; try done; try lia; auto.
  - destruct (Z.ltb_spec n 0) as [Hneg|Hnneg].
    + wp_steps. wp_use deallocuvm_spec; [done|done|lia|lia|done|].
      intros v ph (-> & U). wp_steps. destruct (Z.eqb_spec (sz p + n) 0) as [Hz|Hz].
      * wp_steps. rewrite Hz in *. split; simpl; rewrite ?Hz; try lia; try done; auto; by destruct s.
      * apply (wpx_set_sz _ _ (set_kphys ph s) p _ Hp Hk Hd).
        split; simpl; try lia; try done; auto. intros _. destruct (Z.eqb_spec (sz p + n) 0); done.
    + apply (wpx_set_sz _ _ s p _ Hp Hk Hd). assert (n = 0) as -> by lia.
      split; simpl; rewrite ?Z.add_0_r; try lia; try done; auto; by destruct s.
Qed.

End growproc.

(** ** wait *)

Section wait.
Context {K : KernelImage} {KI : KernelImageOk K} {KC : KernelCode} {F : Type} {FO : FileOps F}.
Implicit Types s : kernel F.

(** The memory of a zombie: its kernel stack and its address space. *)
Record zombie_mem (fl : list Z) (m : memory) (q : proc) : Prop := {
  zm_stack : is_page (kstack q);
  zm_stack_used : kstack q ∉ fl;
  zm_stack_own : ~ space_page m (pgdir q) HEAPLIMIT (kstack q);
  zm_dir : pgdir_ok m (pgdir q) fl;
  zm_own : uvm_own m (pgdir q) fl 0 HEAPLIMIT;
}.

(** The slot after [wait] freed it. *)
Definition freed_slot (q : proc) : proc :=
  set_state UNUSED (set_killed 0 (set_name [] (set_parent None (set_pid 0 (set_kstack 0 q))))).

Lemma wait_reap_spec fl s j q :
  phys_ok fl (kphys s) -> ptable_lock s = false ->
  find_proc (zombie_child (curproc s)) 0 (ptable s) = Some j -> ptable s !! j = Some q ->
  zombie_mem fl (mem (kphys s)) q ->
  wp wait_enter (fun r s' => r = WPid (pid q) /\
    s' = set_kphys (kphys s') (set_ptable (<[j := freed_slot q]> (ptable s)) s) /\
    exists fl', phys_ok fl' (kphys s') /\
      (forall a, a ∈ fl' <-> a ∈ fl \/ a = kstack q \/ space_page (mem (kphys s)) (pgdir q) HEAPLIMIT a) /\
      (forall a, is_page a -> a <> kstack q -> ~ space_page (mem (kphys s)) (pgdir q) HEAPLIMIT a ->
         same_bytes (mem (kphys s)) (mem (kphys s')) a)) s.
Proof.
  intros Hok Hlk Hf Hq [Z1 Z2 Z3 Z4 Z5]. pose proof (lookup_lt_Some _ _ _ Hq) as Hj.
  unfold wait_enter. wp_step. apply wpx_ptable_acquire; [done|]. unfold wait_scan, myproc. wp_steps. simpl. rewrite Hf.
  wp_step. eapply wpx_get_proc; [done|]. wp_steps. simpl. wp_use kfree_spec; [done..|].
  intros [] ph (Hok1 & Hu1 & Hb1). wp_steps. eapply wpx_upd_proc; [done|]. wp_steps. simpl.
  assert (Hsame : forall a, is_page a -> a <> kstack q -> same_bytes (mem (kphys s)) (mem ph) a).
  { intros a Ha Hne b Hb. apply Hb1. destruct (is_page_disjoint a (kstack q) Ha Z1 Hne); lia. }
  assert (Hpt : forall a, pt_page (mem (kphys s)) (pgdir q) a -> same_bytes (mem (kphys s)) (mem ph) a).
  { intros a Ha. apply Hsame; [by eapply pt_page_is_page|]. intros ->. apply Z3. by left. }
  assert (Hdir : same_bytes (mem (kphys s)) (mem ph) (pgdir q)) by (apply Hpt; by left).
  assert (Hpv : forall va, pte_view (mem ph) (pgdir q) va = pte_view (mem (kphys s)) (pgdir q) va).
  { intros va. by apply pte_view_ext. }
  assert (Hpe : forall a, pt_page (mem ph) (pgdir q) a <-> pt_page (mem (kphys s)) (pgdir q) a).
  { intros a. by apply pt_page_ext. }
  assert (Hsp : forall a, space_page (mem ph) (pgdir q) HEAPLIMIT a <->
    space_page (mem (kphys s)) (pgdir q) HEAPLIMIT a).
  { intros a. unfold space_page, maps_to. rewrite Hpe. by setoid_rewrite Hpv. }
  wp_use (freevm_spec (pgdir q) (kstack q :: fl)); [done| | |].
  { apply (pgdir_ok_add (mem (kphys s))); [done..|]. intros H. apply Z3. by left. }
  { destruct Z5 as [O1 O2]. split.
    - intros va a Hva Hm. unfold maps_to in Hm. rewrite Hpv in Hm. destruct (O1 va a Hva Hm) as (A & B & C).
      rewrite Hpe, not_elem_of_cons. split_and!; try done. intros ->. apply Z3. right. by exists va.
    - intros va vb a Hva Hvb. unfold maps_to. rewrite !Hpv. by apply O2. }
  intros [] ph2 (fl' & Hok2 & Hfl & Hfr & Hu2). wp_steps.
  do 5 (eapply (wpx_upd_slot _ _ _ _ _ (ptable s)); [done..|]; wp_steps). apply wpx_ptable_release; [done|]. wp_steps.
  split_and!; [done|simpl; by rewrite <- Hlk; destruct s|]. exists fl'. split_and!; [done| |]; simpl.
  - intros a. rewrite Hfl, Hsp, elem_of_cons. tauto.
  - intros a Ha Hne Hns b Hb. rewrite (Hfr a Ha) by (by rewrite ?Hsp). by apply (Hsame a).
Qed.

End wait.

(** ** fork *)

(** What the process code relies on in the file layer: duplicating a file or
    an inode that is in use succeeds, and leaves in use what was. *)
Class FileLaws (F : Type) {FO : FileOps F} := {
  fs_ok : F -> Prop;
  file_open : F -> Z -> Prop;
  inode_held : F -> Z -> Prop;
  filedup_law : forall fs f, fs_ok fs -> file_open fs f ->
    wp (filedup f) (fun _ fs' => fs_ok fs' /\ (forall g, file_open fs g -> file_open fs' g) /\
      (forall i, inode_held fs i -> inode_held fs' i)) fs;
  idup_law : forall fs i, fs_ok fs -> inode_held fs i ->
    wp (idup i) (fun _ fs' => fs_ok fs' /\ (forall g, file_open fs g -> file_open fs' g) /\
      (forall j, inode_held fs j -> inode_held fs' j)) fs;
}.

Section fork_loops.
Context {K : KernelImage} {KI : KernelImageOk K} {KC : KernelCode} {F : Type} {FO : FileOps F} {FL : FileLaws F}.
Implicit Types s : kernel F.

(** The open files of [p] are in use. *)
Definition files_ok (p : proc) (fs : F) : Prop :=
  fs_ok fs /\ length (ofile p) = Z.to_nat NOFILE /\
  (forall i f, zidx (ofile p) i = Some f -> f <> 0 -> file_open fs f) /\ inode_held fs (cwd p).

(** The child's file table after the files below [n] were copied. *)
Definition ofile_copied (n : Z) (old src new : list Z) : Prop :=
  length new = Z.to_nat NOFILE /\
  forall i f g, 0 <= i < NOFILE -> zidx src i = Some f -> zidx old i = Some g ->
    zidx new i = Some (if (i <? n) && nz f then f else g).

(** The state in the loops of [fork]: slot [np] holds [c], the rest of the table
    is [tab]. *)
Lemma fork_file_spec cur np p c tab s i :
  np <> cur -> tab !! cur = Some p -> (np < length tab)%nat -> files_ok p (kfs s) ->
  ptable s = <[np := c]> tab -> 0 <= i < NOFILE ->
  forall old, ofile_copied i old (ofile p) (ofile c) -> length old = Z.to_nat NOFILE ->
  wp (fork_file cur np i) (fun _ s' => exists fs' c', files_ok p fs' /\
    c' = set_ofile (ofile c') c /\ ofile_copied (i + 1) old (ofile p) (ofile c') /\
    s' = set_kfs fs' (set_ptable (<[np := c']> tab) s)) s.
Proof.
  intros Hne Hcur Hnp (Hfs & Hlen & Hop & Hcwd) Ht Hi old [Hln Hco] Hlo. unfold fork_file.
  assert (Z.of_nat (Z.to_nat NOFILE) = NOFILE) as HN by done.
  destruct (zidx_lt (ofile p) i ltac:(lia)) as [f Hf]. destruct (zidx_lt (ofile c) i ltac:(lia)) as [g Hg].
  wp_step. eapply wpx_get_proc; [by rewrite Ht, list_lookup_insert_ne|]. wp_step.
  eapply wpx_get_slot; [done..|]. rewrite Hf, Hg.
  assert (Hs : s = set_kfs (kfs s) (set_ptable (<[np := c]> tab) s)) by (rewrite <- Ht; by destruct s).
  destruct (nz f) eqn:Hz.
  - wp_steps. eapply wpx_mono; [apply filedup_law; [done|]| |done]; [by apply (Hop i), nz_true|].
    cbn beta. intros [] fs' (Hfs' & Hop' & Hin'). wp_steps. eapply wpx_upd_slot; [done..|].
    exists fs', (set_ofile (zupd (ofile c) i f) c). split_and!; [|by destruct c| |done].
    + split_and!; auto. intros j h Hj Hh. by apply Hop', (Hop j).
    + split; [by simpl; rewrite length_zupd|]. intros j f' g' Hj Hf' Hg'. simpl. rewrite zidx_zupd by lia.
      destruct (Z.eqb_spec j i) as [->|Hji].
      * simplify_eq. destruct (Z.ltb_spec i (i + 1)); [|lia]. by rewrite Hz.
      * rewrite (Hco j f' g') by done. do 3 f_equal. zcases; done.
  - wp_steps. exists (kfs s), c. split_and!; [|by destruct c| |done].
    + by split_and!.
    + split; [done|]. intros j f' g' Hj Hf' Hg'. rewrite (Hco j f' g') by done.
      destruct (Z.eqb_spec j i) as [->|Hji]; [simplify_eq; by rewrite Hz, !andb_false_r|].
      do 3 f_equal. zcases; done.
Qed.

Lemma fork_files_spec cur np p c tab s :
  np <> cur -> tab !! cur = Some p -> (np < length tab)%nat -> files_ok p (kfs s) ->
  ptable s = <[np := c]> tab -> length (ofile c) = Z.to_nat NOFILE ->
  wp (mfor (zrange 0 (Z.to_nat NOFILE)) (fork_file cur np)) (fun _ s' => exists fs' o, files_ok p fs' /\
    ofile_copied NOFILE (ofile c) (ofile p) o /\
    s' = set_kfs fs' (set_ptable (<[np := set_ofile o c]> tab) s)) s.
Proof.
  intros Hne Hcur Hnp Hfo Ht Hlc.
  eapply wpx_mono; [apply (wpx_zrange _ (fun i s' => exists fs' c', files_ok p fs' /\
    c' = set_ofile (ofile c') c /\ ofile_copied i (ofile c) (ofile p) (ofile c') /\
    s' = set_kfs fs' (set_ptable (<[np := c']> tab) s)))| |done].
  - intros i s0 Hi (fs & c1 & Hf1 & Hc1 & Hco1 & ->).
    eapply wpx_mono; [eapply (fork_file_spec cur np p c1 tab); try done; by rewrite Z2Nat.id in Hi| |done].
    cbn beta. intros _ s' (fs' & c' & Hf' & Hc' & Hco' & ->). exists fs', c'. split_and!; try done.
    rewrite Hc', Hc1. by destruct c.
  - exists (kfs s), c. split_and!; [done|by destruct c| |rewrite <- Ht; by destruct s].
    split; [done|]. intros i f g Hi _ Hg. rewrite Hg. by destruct (Z.ltb_spec i 0); [lia|].
  - cbn beta. intros _ s' (fs' & c' & H1 & H2 & H3 & H4). exists fs', (ofile c').
    rewrite Z.add_0_l, Z2Nat.id in H3 by done. by rewrite <- H2.
Qed.

(** The loop of [mappagesWrapper] is that of [shmat]. *)
Lemma mappagesWrapper_loop_eq np index i c g : forall n k s,
  ptable s !! np = Some c -> zidx (pages c) i = Some g ->
  mappagesWrapper_loop np index i k n s =
  bind (shmat_map (pgdir c) index (virtualAddr g) (pperm g) k n) (fun _ => ret tt) s.
Proof.
  induction n as [|n IH]; intros k s Hc Hg; [done|]. cbn [mappagesWrapper_loop shmat_map].
  unfold get_pages, get_proc, get_region, phys_addr, inphys, zoom, bind, ret. rewrite Hc. cbn beta iota. rewrite Hc, Hg.
  destruct (zidx (shmTable s) index) as [r|]; [|done]. destruct (zidx (physicalAddr r) k) as [pa|]; [|done].
  unfold fault. destruct (mappages _ _ _ _ _ _) as [m ph| | |] eqn:Hm; try done.
  destruct (m <? 0); [by destruct (deallocuvm _ _ _ _)|]. by apply IH.
Qed.

(** The segments of the child after those below [n] were copied. *)
Definition segs_copied (n : Z) (src new : list sharedPages) : Prop :=
  length new = Z.to_nat SHAREDREGIONS /\
  forall j g, zidx src j = Some g ->
    zidx new j = Some (if (j <? n) && seg_used g then g else new_pages).

(** Page [k] of the segment [g] is mapped to the frame [pa], or, when no page is
    free any more, not at all. *)
Definition shared_at (fl' : list Z) (ph' : phys) (d : Z) (g : sharedPages) (k pa : Z) : Prop :=
  let e := pte_view (mem ph') d (virtualAddr g + k * PGSIZE) in
  e = mk_pte pa (pperm g) \/ (fl' = [] /\ present e = false).

(** The child's page table at that point: the segments below [n] show the
    region's pages, of which some are not mapped when memory has run out, and the
    rest is as it was. *)
Record segs_mapped (n : Z) (tab : list shmRegion) (src : list sharedPages) (d : Z)
    (fl : list Z) (ph : phys) (fl' : list Z) (ph' : phys) : Prop := {
  sm_step : vm_step d fl ph fl' ph';
  sm_map : forall j g r k pa, 0 <= j < n -> zidx src j = Some g -> seg_used g = true ->
    zidx tab (pshmid g) = Some r -> 0 <= k < psize g -> zidx (physicalAddr r) k = Some pa ->
    shared_at fl' ph' d g k pa;
  sm_rest : forall va, is_u32 va ->
    (forall j g, 0 <= j < n -> zidx src j = Some g -> ~ overlaps va 1 g) ->
    pte_view (mem ph') d va = pte_view (mem ph) d va;
}.

(** The segments [src] of a process, of regions of the table. *)
Record segs_in (fl0 : list Z) (tab : list shmRegion) (src : list sharedPages) : Prop := {
  sg_tab : table_ok fl0 tab;
  sg_ok : segs_ok src;
  sg_region : forall j g, zidx src j = Some g -> seg_used g = true ->
    exists r, zidx tab (pshmid g) = Some r /\ region_used (pshmid g) r /\ size r = psize g;
  sg_perm : forall j g, zidx src j = Some g -> seg_used g = true -> 0 <= pperm g < 4096;
}.

Lemma segs_mapped_skip n tab src d fl ph fl' ph' g :
  segs_mapped n tab src d fl ph fl' ph' -> zidx src n = Some g -> seg_used g = false ->
  segs_mapped (n + 1) tab src d fl ph fl' ph'.
Proof.
  intros [St Hm Hr] Hg Hu. split; [done| |].
  - intros j h r k pa Hj Hh Hhu. apply (Hm j); [|done..].
    destruct (decide (j = n)) as [->|]; [congruence|lia].
  - intros va Hva Ho. apply Hr; [done|]. intros j h Hj. apply Ho. lia.
Qed.

(** One more segment mapped, by the loop of [shmat]. *)
Lemma segs_mapped_next fl0 n tab src d fl ph fl1 ph1 fl2 ph2 g r j :
  segs_in fl0 tab src -> segs_mapped n tab src d fl ph fl1 ph1 ->
  0 <= n -> zidx src n = Some g -> seg_used g = true -> zidx tab (pshmid g) = Some r -> size r = psize g ->
  vm_step d fl1 ph1 fl2 ph2 ->
  region_view (mem ph1) (mem ph2) d (virtualAddr g) (pperm g) (physicalAddr r) 0 j ->
  0 <= j <= psize g -> j = psize g \/ fl2 = [] ->
  (forall va, HEAPLIMIT <= va < KERNBASE -> present (pte_view (mem ph) d va) = false) ->
  segs_mapped (n + 1) tab src d fl ph fl2 ph2.
Proof.
  intros I [St Hm Hr] Hn Hg Hu Hreg Hsz St2 [V1 V2] Hj Hend Hun. pose proof (proj1 (zidx_Some _ _ _) Hg) as [_ Hgl].
  destruct (so_seg _ (sg_ok _ _ _ I) _ g Hgl Hu) as (Hal & Hlo & Hsp & Hhi). split.
  - by eapply vm_step_trans.
  - assert (Hnil : fl1 = [] -> fl2 = []).
    { intros ->. destruct (vs_free _ _ _ _ _ St2) as [u Hu2]. symmetry in Hu2. by apply app_eq_nil in Hu2 as [_ ?]. }
    intros i h r' k pa Hi Hh Hhu Hr' Hk Hpa. unfold shared_at. destruct (decide (i = n)) as [->|Hne].
    + simplify_eq. destruct (Z.lt_ge_cases k j) as [Hlt|Hge]; [left; apply (V1 k); [lia|done|consts; lia]|].
      right. split; [destruct Hend; [lia|done]|]. unfold seg_end in Hhi.
      rewrite V2, Hr; [apply Hun; consts; lia|unfold is_u32; consts; lia| |unfold is_u32; consts; lia|right; consts; lia].
      intros i h Hi' Hih (Hiu & Ho1 & Ho2). pose proof (proj1 (zidx_Some _ _ _) Hih) as [_ Hil].
      destruct (so_disj _ (sg_ok _ _ _ I) _ _ _ _ Hgl Hil ltac:(lia) Hu Hiu); unfold seg_end in *; consts; lia.
    + pose proof (proj1 (zidx_Some _ _ _) Hh) as [_ Hhl].
      destruct (so_seg _ (sg_ok _ _ _ I) _ h Hhl Hhu) as (_ & Hlo' & _ & Hhi').
      rewrite V2.
      * destruct (Hm i h r' k pa ltac:(lia) Hh Hhu Hr' Hk Hpa) as [?|[He ?]]; [by left|right; auto].
      * unfold seg_end in *. consts. unfold is_u32. lia.
      * destruct (so_disj _ (sg_ok _ _ _ I) _ _ g h Hgl Hhl ltac:(lia) Hu Hhu); unfold seg_end in *; consts; lia.
  - intros va Hva Ho. rewrite V2; [apply Hr; [done|]; intros i h Hi; apply Ho; lia|done|].
    assert (Hno : ~ overlaps va 1 g) by (apply (Ho n); [lia|done]). unfold overlaps, seg_end in Hno. consts.
    destruct (Z.lt_ge_cases va (virtualAddr g)); [left; lia|right].
    destruct (Z.lt_ge_cases va (virtualAddr g + psize g * 4096)); [|lia]. exfalso. apply Hno. split_and!; [done|lia..].
Qed.

Lemma fork_seg_spec cur np p c tab s i fl0 fl ph fl1 :
  np <> cur -> tab !! cur = Some p -> (np < length tab)%nat -> ptable s = <[np := c]> tab ->
  0 <= i < SHAREDREGIONS -> segs_in fl0 (shmTable s) (pages p) -> segs_copied i (pages p) (pages c) ->
  segs_mapped i (shmTable s) (pages p) (pgdir c) fl ph fl1 (kphys s) ->
  (forall va, HEAPLIMIT <= va < KERNBASE -> present (pte_view (mem ph) (pgdir c) va) = false) ->
  wp (fork_seg cur np i) (fun _ s' => exists c' fl2 ph', c' = set_pages (pages c') c /\
    segs_copied (i + 1) (pages p) (pages c') /\
    segs_mapped (i + 1) (shmTable s) (pages p) (pgdir c) fl ph fl2 ph' /\
    s' = set_kphys ph' (set_ptable (<[np := c']> tab) s)) s.
Proof.
  intros Hne Hcur Hnp Ht Hi I [Hlc Hco] Hm Hun. unfold fork_seg.
  assert (Z.of_nat (Z.to_nat SHAREDREGIONS) = SHAREDREGIONS) as HN by done.
  pose proof (so_len _ (sg_ok _ _ _ I)) as Hlp. destruct (zidx_lt (pages p) i ltac:(lia)) as [g Hg].
  wp_step. eapply wpx_get_pages; [by rewrite Ht, list_lookup_insert_ne|done|]. fold (seg_used g).
  assert (Hcg : zidx (pages c) i = Some new_pages).
  { rewrite (Hco i g Hg). by destruct (Z.ltb_spec i i); [lia|]. }
  assert (Hs : s = set_kphys (kphys s) (set_ptable (<[np := c]> tab) s)) by (rewrite <- Ht; by destruct s).
  destruct (seg_used g) eqn:Hu.
  2:{ cbn [andb]. wp_steps. exists c, fl1, (kphys s). split_and!; [by destruct c| | |done].
      - split; [done|]. intros j h Hh. rewrite (Hco j h Hh).
        destruct (decide (j = i)) as [->|]; [simplify_eq; by rewrite Hu, !andb_false_r|].
        do 3 f_equal. zcases; done.
      - by eapply segs_mapped_skip. }
  destruct (sg_region _ _ _ I i g Hg Hu) as (r & Hr & Hru & Hsz). pose proof (zidx_range _ _ _ Hr) as Hri.
  rewrite (to_len _ _ (sg_tab _ _ _ I)), HN in Hri.
  pose proof (proj1 (zidx_Some _ _ _) Hg) as [_ Hgl]. destruct (so_seg _ (sg_ok _ _ _ I) _ g Hgl Hu) as (Hal & Hlo & Hsp & Hhi).
  assert (Hh : HEAPLIMIT <= virtualAddr g /\ virtualAddr g + size r * 4096 < KERNBASE) by (unfold seg_end in Hhi; consts; lia).
  destruct (Z.eqb_spec (pshmid g) (-1)) as [?|_]; [lia|]. cbn [andb negb].
  set (c1 := set_pages (zupd (pages c) i g) c).
  wp_step. eapply wpx_upd_pages; [rewrite Ht; by apply list_lookup_insert_eq|done|].
  rewrite Ht, list_insert_insert_eq. fold c1. wp_step. unfold getShmidIndex.
  destruct (Z.ltb_spec (pshmid g) 0); [lia|]. destruct (Z.ltb_spec 64 (pshmid g)); [consts; lia|]. cbn [orb].
  wp_step. eapply wpx_get_region; [done|]. wp_steps. rewrite (ru_shmid _ _ Hru).
  destruct (Z.eqb_spec (pshmid g) (-1)) as [?|_]; [lia|]. cbn [negb]. unfold mappagesWrapper.
  assert (Hc1 : zidx (pages c1) i = Some g) by (simpl; rewrite zidx_zupd by lia; by rewrite Z.eqb_refl).
  assert (Hlk : ptable (set_ptable (<[np := c1]> tab) s) !! np = Some c1) by (by apply list_lookup_insert_eq).
  wp_step. eapply wpx_get_pages; [done..|].
  eapply wpx_ext; [by apply (mappagesWrapper_loop_eq np (pshmid g) i c1 g)|]. wp_step.
  eapply wpx_mono; [apply (shmat_map_spec fl0 (pgdir c) (pshmid g) (virtualAddr g) (pperm g) r _ 0 fl1)| |done];
    try done; try (consts; lia); try apply (sm_step _ _ _ _ _ _ _ _ Hm); try apply I.
  - apply (ru_size _ _ Hru).
  - by eapply (sg_perm _ _ _ I).
  - intros vb Hvb. simpl. rewrite (sm_rest _ _ _ _ _ _ _ _ Hm); [apply Hun; consts; lia|unfold is_u32; consts; lia|].
    intros j h Hj Hjh (Hhu & Ho1 & Ho2). pose proof (proj1 (zidx_Some _ _ _) Hjh) as [_ Hhl].
    destruct (so_disj _ (sg_ok _ _ _ I) _ _ g h Hgl Hhl ltac:(lia) Hu Hhu); unfold seg_end in *; consts; lia.
  - cbn beta. intros ok s' (fl2 & ph2 & j & -> & St & Hv & Hj). wp_steps. exists c1, fl2, ph2. split_and!; [done| | |done].
    + split; [simpl; by rewrite length_zupd|]. intros k h Hk. pose proof (zidx_range _ _ _ Hk). simpl.
      rewrite zidx_zupd by lia. destruct (Z.eqb_spec k i) as [->|Hki].
      * simplify_eq. destruct (Z.ltb_spec i (i + 1)); [|lia]. by rewrite Hu.
      * rewrite (Hco k h Hk). do 3 f_equal. zcases; done.
    + eapply (segs_mapped_next fl0); try done; [lia|destruct ok; lia|destruct ok; [left; lia|right; tauto]].
Qed.

Lemma fork_segs_spec cur np p c tab s fl0 fl :
  np <> cur -> tab !! cur = Some p -> (np < length tab)%nat -> ptable s = <[np := c]> tab ->
  segs_in fl0 (shmTable s) (pages p) -> pages c = replicate (Z.to_nat SHAREDREGIONS) new_pages ->
  phys_ok fl (kphys s) -> pgdir_ok (mem (kphys s)) (pgdir c) fl ->
  (forall va, HEAPLIMIT <= va < KERNBASE -> present (pte_view (mem (kphys s)) (pgdir c) va) = false) ->
  wp (mfor (zrange 0 (Z.to_nat SHAREDREGIONS)) (fork_seg cur np)) (fun _ s' => exists pl fl2 ph',
    segs_copied SHAREDREGIONS (pages p) pl /\
    segs_mapped SHAREDREGIONS (shmTable s) (pages p) (pgdir c) fl (kphys s) fl2 ph' /\
    s' = set_kphys ph' (set_ptable (<[np := set_pages pl c]> tab) s)) s.
Proof.
  intros Hne Hcur Hnp Ht I Hpg Hok Hd Hun.
  eapply wpx_mono; [apply (wpx_zrange _ (fun i s' => exists c' fl2 ph',
    c' = set_pages (pages c') c /\ segs_copied i (pages p) (pages c') /\
    segs_mapped i (shmTable s) (pages p) (pgdir c) fl (kphys s) fl2 ph' /\
    s' = set_kphys ph' (set_ptable (<[np := c']> tab) s)))| |done].
  - intros i s0 Hi (c1 & fl1 & ph1 & Hc1 & Hco1 & Hm1 & ->).
    assert (Hpd : pgdir c1 = pgdir c) by (by rewrite Hc1).
    eapply wpx_mono; [eapply (fork_seg_spec cur np p c1 tab _ i fl0 fl (kphys s) fl1); try done; rewrite ?Hpd; try done; lia| |done].
    cbn beta. intros _ s' (c' & fl2 & ph' & Hc' & Hco' & Hm' & ->). exists c', fl2, ph'. rewrite Hpd in Hm'.
    split_and!; try done. rewrite Hc', Hc1. by destruct c.
  - exists c, fl, (kphys s). split_and!; [by destruct c| | |rewrite <- Ht; by destruct s].
    + split; [by rewrite Hpg, length_replicate|]. intros j g Hg. pose proof (zidx_range _ _ _ Hg) as Hj.
      rewrite (so_len _ (sg_ok _ _ _ I)) in Hj. destruct (Z.ltb_spec j 0); [lia|]. cbn [andb].
      apply zidx_Some. split; [lia|]. rewrite Hpg. apply lookup_replicate. split; [done|lia].
    + split; [by apply vm_step_refl|right; intros; lia|done].
  - cbn beta. intros _ s' (c' & fl2 & ph' & H1 & H2 & H3 & H4). exists (pages c'), fl2, ph'.
    rewrite Z.add_0_l, Z2Nat.id in H2, H3 by done. by rewrite <- H1.
Qed.

End fork_loops.

Section fork.
Context {K : KernelImage} {KI : KernelImageOk K} {KC : KernelCode} {F : Type} {FO : FileOps F} {FL : FileLaws F}.
Implicit Types s : kernel F.

(** The caller [p] of [fork] and the slot [i], holding [q], it will get. *)
Record fork_pre (fl : list Z) s (p : proc) (i : nat) (q : proc) : Prop := {
  fk_inv : shm_state fl p s;
  fk_parent : parent_ok fl (kphys s) (pgdir p) (PGROUNDUP (sz p));
  fk_sz : 0 <= sz p <= HEAPLIMIT;
  fk_perm : forall j g, zidx (pages p) j = Some g -> seg_used g = true -> 0 <= pperm g < 4096;
  fk_files : files_ok p (kfs s);
  fk_lock : ptable_lock s = false;
  fk_next : nextpid s < INT_MAX;
  fk_state : state p = RUNNING;
  fk_first : first_unused (ptable s) i;
  fk_slot : ptable s !! i = Some q;
  fk_ofile : length (ofile q) = Z.to_nat NOFILE;
  fk_code : is_u32 trapret_ /\ is_u32 forkret_;
}.

(** The child [c] in the slot that held [q]. *)
Record child_of s (p q c : proc) : Prop := {
  ch_state : state c = RUNNABLE;
  ch_pid : pid c = nextpid s;
  ch_parent : parent c = Some (curproc s);
  ch_sz : sz c = sz p;
  ch_tf : tf c = set_eax 0 (tf p);
  ch_cwd : cwd c = cwd p;
  ch_name : name c = copy_name (name p);
  ch_ofile : ofile_copied NOFILE (ofile q) (ofile p) (ofile c);
  ch_pages : segs_copied SHAREDREGIONS (pages p) (pages c);
  ch_killed : killed c = killed q;
}.

(** The memory after a successful [fork]: the child has a copy of the user
    memory and shares the frames of the attached segments, except for pages that
    stay unmapped when no page is free any more; nothing that was in use has
    changed. *)
Record child_mem (fl : list Z) s (p c : proc) (fl' : list Z) s' : Prop := {
  cm_phys : phys_ok fl' (kphys s');
  cm_dir : pgdir_ok (mem (kphys s')) (pgdir c) fl';
  cm_user : forall va, 0 <= va < PGROUNDUP (sz p) -> exists f, f ∈ fl /\ is_page f /\
    pte_view (mem (kphys s')) (pgdir c) va = mk_pte (V2P f) (copy_perm (mem (kphys s)) (pgdir p) va) /\
    (forall o, 0 <= o < 4096 -> ld8 (mem (kphys s')) (f + o) = copy_fill (mem (kphys s)) (pgdir p) va o);
  cm_segs : forall j g r k pa, zidx (pages p) j = Some g -> seg_used g = true ->
    zidx (shmTable s) (pshmid g) = Some r -> 0 <= k < psize g -> zidx (physicalAddr r) k = Some pa ->
    shared_at fl' (kphys s') (pgdir c) g k pa;
  cm_stack : stack_ok (mem (kphys s')) (kstack c);
  cm_frame : forall a, is_page a -> a ∉ fl -> same_bytes (mem (kphys s)) (mem (kphys s')) a;
  cm_free : forall a, a ∈ fl' -> a ∈ fl;
}.

Definition fork_result (fl : list Z) s (p : proc) (i : nat) (q : proc) (r : Z) s' : Prop :=
  nextpid s' = nextpid s + 1 /\ curproc s' = curproc s /\ shmTable s' = shmTable s /\
  ptable_lock s' = false /\ shm_lock s' = shm_lock s /\
  exists c fl', ptable s' = <[i := c]> (ptable s) /\
    ((r = nextpid s /\ child_of s p q c /\ child_mem fl s p c fl' s' /\ files_ok p (kfs s')) \/
     (r = -1 /\ state c = UNUSED /\ all_back fl (kphys s) fl' (kphys s') /\ kfs s' = kfs s)).

(** The caller's memory is not touched by writing to a free page. *)
Lemma parent_ok_write fl1 k ph0 ph1 pgdir hi :
  phys_ok (k :: fl1) ph0 -> parent_ok (k :: fl1) ph0 pgdir hi ->
  (forall b, b < k \/ k + 4096 <= b -> ld8 (mem ph1) b = ld8 (mem ph0) b) ->
  parent_ok fl1 ph1 pgdir hi /\
  (forall va, copy_perm (mem ph1) pgdir va = copy_perm (mem ph0) pgdir va) /\
  (forall va o, 0 <= va < hi -> 0 <= o < 4096 -> copy_fill (mem ph1) pgdir va o = copy_fill (mem ph0) pgdir va o).
Proof.
  intros Hok P Hw. pose proof P as [P1 P2 P3].
  destruct (write_fresh pgdir k fl1 ph0 (mem ph1) Hok P1 Hw) as (Hk & Hnk & Hnp & Hsame & Hpt & Hv & Hd).
  split_and!.
  - split; [done| |].
    + intros va Hva. rewrite Hv. by apply P2.
    + destruct P3 as [O1 O2]. split.
      * intros va f Hva Hm. unfold maps_to in Hm. rewrite Hv in Hm. destruct (O1 va f Hva Hm) as (A & B & C).
        rewrite Hpt. split_and!; try done. intros Hin. apply B. by right.
      * intros va vb f Hva Hvb. unfold maps_to. rewrite !Hv. by apply O2.
  - intros va. unfold copy_perm. by rewrite Hv.
  - intros va o Hva Ho. unfold copy_fill. rewrite Hv. destruct (parent_frame _ _ _ _ va P Hva) as [Hf Hn].
    apply (Hsame _ Hf); [|lia]. intros He. apply Hn. rewrite He. left.
Qed.

(** The slot of the caller is not the one [fork] gets. *)
Lemma fork_pre_ne fl s p i q : fork_pre fl s p i q -> i <> curproc s /\ state q = UNUSED.
Proof.
  intros P. pose proof (fk_first _ _ _ _ _ P) as Hf. apply find_proc_Some in Hf as (n & q' & He & Hq & Hu & _).
  apply bool_decide_eq_true in Hu. simpl in He. subst n.
  pose proof (fk_slot _ _ _ _ _ P) as Hs. rewrite Hs in Hq. injection Hq as <-. split; [|done]. intros ->.
  pose proof (si_proc _ _ _ (fk_inv _ _ _ _ _ P)) as Hp. pose proof (fk_state _ _ _ _ _ P). congruence.
Qed.

(** The outcome when [allocproc] or [copyuvm] found no memory. *)
Lemma all_back_stack k fl1 ph0 ph1 flb ph2 ph3 :
  phys_ok (k :: fl1) ph0 -> (forall b, b < k \/ k + 4096 <= b -> ld8 (mem ph1) b = ld8 (mem ph0) b) ->
  use_lock ph1 = use_lock ph0 ->
  all_back fl1 ph1 flb ph2 -> phys_ok (k :: flb) ph3 -> use_lock ph3 = use_lock ph2 ->
  (forall b, b < k \/ k + 4096 <= b -> ld8 (mem ph3) b = ld8 (mem ph2) b) ->
  all_back (k :: fl1) ph0 (k :: flb) ph3.
Proof.
  intros Hok Hw Hu [B1 B2 B3 B4] Hok3 Hu3 Hw3. assert (is_page k) as Hk by (apply (phys_ok_page _ _ k Hok); left).
  split; [done| | |congruence].
  - intros a. rewrite !elem_of_cons, B2. done.
  - intros a Ha [Hne Hn]%not_elem_of_cons b Hb. destruct (is_page_disjoint a k Ha Hk Hne).
    + rewrite Hw3 by lia. rewrite (B3 a) by done. apply Hw. lia.
    + rewrite Hw3 by lia. rewrite (B3 a) by done. apply Hw. lia.
Qed.

(** The memory of the child, from the steps that build it. *)
Lemma child_mem_intro k fl1 s s1 p c fl2 ph2 fl3 s' :
  phys_ok (k :: fl1) (kphys s) -> parent_ok (k :: fl1) (kphys s) (pgdir p) (PGROUNDUP (sz p)) ->
  (forall b, b < k \/ k + 4096 <= b -> ld8 (mem (kphys s1)) b = ld8 (mem (kphys s)) b) ->
  stack_ok (mem (kphys s1)) k -> kstack c = k -> 0 <= sz p <= HEAPLIMIT ->
  copied fl1 (kphys s1) (pgdir p) (PGROUNDUP (sz p)) (pgdir c) fl2 ph2 ->
  segs_mapped SHAREDREGIONS (shmTable s) (pages p) (pgdir c) fl2 ph2 fl3 (kphys s') ->
  segs_ok (pages p) ->
  child_mem (k :: fl1) s p c fl3 s'.
Proof.
  intros Hok P Hw Hst Hk Hsz C M So.
  destruct (parent_ok_write fl1 k (kphys s) (kphys s1) _ _ Hok P Hw) as (P1 & Hperm & Hfill).
  assert (Hkp : is_page k) by (apply (phys_ok_page _ _ k Hok); left).
  pose proof (ok_nodup _ _ Hok) as [Hnk _]%NoDup_cons.
  pose proof (sm_step _ _ _ _ _ _ _ _ M) as St.
  assert (Hin : forall a, a ∈ fl2 -> a ∈ k :: fl1) by (intros a Ha; right; by apply (cp_free _ _ _ _ _ _ _ C)).
  assert (Hsame : forall a, is_page a -> a ∉ fl1 -> same_bytes (mem (kphys s1)) (mem (kphys s')) a).
  { intros a Ha Hn. eapply same_bytes_trans; [by apply (cp_frame _ _ _ _ _ _ _ C)|].
    apply (vs_frame _ _ _ _ _ St); [done| |].
    - intros Hp. by apply Hn, (cp_pt _ _ _ _ _ _ _ C).
    - intros Hf. by apply Hn, (cp_free _ _ _ _ _ _ _ C). }
  split.
  - apply St.
  - apply St.
  - intros va Hva. destruct (cp_page _ _ _ _ _ _ _ C va Hva) as (f & Hf & Hfp & Hfv & Hfb).
    assert (HP : PGROUNDUP (sz p) <= HEAPLIMIT) by (rewrite PGROUNDUP_eq by alia; consts; dlia).
    assert (Hm : maps_to (mem ph2) (pgdir c) va f).
    { split; rewrite Hfv; [apply mk_pte_present|]. by rewrite frame_mk_pte by (done || apply copy_perm_ok). }
    destruct (own_frame _ _ _ _ _ (cp_own _ _ _ _ _ _ _ C) va f Hva Hm) as (_ & Hnf & Hnp).
    exists f. split_and!; [by right|done| |].
    + rewrite (sm_rest _ _ _ _ _ _ _ _ M); [by rewrite Hfv, Hperm|unfold is_u32; consts; lia|].
      intros j g Hj Hg (Hu & Ho1 & Ho2). apply zidx_Some in Hg as [_ Hg].
      destruct (so_seg _ So _ g Hg Hu) as (_ & Hlo & _). lia.
    + intros o Ho. rewrite (vs_frame _ _ _ _ _ St f Hfp Hnp Hnf) by lia. rewrite Hfb by done. by apply Hfill.
  - intros j g r k' pa Hj. apply (sm_map _ _ _ _ _ _ _ _ M j); [|done].
    pose proof (zidx_range _ _ _ Hj) as Hr. by rewrite (so_len _ So) in Hr.
  - rewrite Hk. unfold stack_ok in *. destruct Hst as (S1 & S2 & S3).
    assert (Hb : forall b, k <= b < k + 4096 -> ld8 (mem (kphys s')) b = ld8 (mem (kphys s1)) b) by (by apply Hsame).
    unfold new_context, KSTACKSIZE, SIZEOF_TRAPFRAME, SIZEOF_CONTEXT in *. split_and!.
    + rewrite <- S1. apply ld32_ext. intros b Hb'. apply Hb. lia.
    + rewrite <- S2. apply ld32_ext. intros b Hb'. apply Hb. lia.
    + intros b Hb'. rewrite Hb by lia. by apply S3.
  - intros a Ha [Hne Hn]%not_elem_of_cons b Hb. rewrite (Hsame a Ha Hn) by done.
    apply Hw. destruct (is_page_disjoint a k Ha Hkp Hne); lia.
  - intros a Ha. apply Hin. by apply (vm_step_sub _ _ _ _ _ _ St).
Qed.

(** [fork] once the child's memory is copied: the directory is [d]. *)
Lemma fork_rest_spec k fl1 s s1 p i q d fl2 ph2 :
  fork_pre (k :: fl1) s p i q -> alloced (k :: fl1) s i q (Some i) s1 ->
  d <> 0 -> copied fl1 (kphys s1) (pgdir p) (PGROUNDUP (sz p)) d fl2 ph2 ->
  wp (do! upd_proc i (set_pgdir d) in
      do! upd_proc i (set_sz (sz p)) in
      do! upd_proc i (set_parent (Some (curproc s))) in
      do! upd_proc i (set_tf (tf p)) in
      do! upd_proc i (fun n => set_tf (set_eax 0 (tf n)) n) in
      do! mfor (zrange 0 (Z.to_nat NOFILE)) (fork_file (curproc s) i) in
      do! infs (idup (cwd p)) in
      do! upd_proc i (set_cwd (cwd p)) in
      do! upd_proc i (set_name (copy_name (name p))) in
      let! n := get_proc i in
      do! mfor (zrange 0 (Z.to_nat SHAREDREGIONS)) (fork_seg (curproc s) i) in
      do! ptable_acquire in
      do! upd_proc i (set_state RUNNABLE) in
      do! ptable_release in
      ret (pid n))
    (fork_result (k :: fl1) s p i q) (set_kphys ph2 s1).
Proof.
  intros P A Hd C. destruct (fork_pre_ne _ _ _ _ _ P) as [Hne Hq].
  pose proof (fk_inv _ _ _ _ _ P) as I. pose proof (si_proc _ _ _ I) as Hp. pose proof (fk_slot _ _ _ _ _ P) as Hs.
  pose proof (lookup_lt_Some _ _ _ Hs) as Hi. destruct A as [A1 A2 A3 A4 A5 A6 A7 A8 A9 (_ & At & Ast)].
  cbn [tl head] in *.
  do 5 (wp_step; eapply (wpx_upd_slot _ _ _ _ _ (ptable s)); [done..|]; cbn beta).
  wp_step. eapply wpx_mono; [eapply (fork_files_spec _ _ p _ (ptable s))| |done]; try done; simpl.
  { rewrite A6. apply P. }
  { by rewrite (fk_ofile _ _ _ _ _ P). }
  intros _ sA (fsA & o & HfA & HoA & ->). wp_steps.
  destruct HfA as (FA1 & FA2 & FA3 & FA4). eapply wpx_mono; [by apply idup_law| |done]. cbn beta.
  intros [] fsB (FB1 & FB2 & FB3). wp_steps.
  do 2 (eapply (wpx_upd_slot _ _ _ _ _ (ptable s)); [done..|]; wp_steps).
  eapply wpx_get_slot; [done..|]. wp_step.
  eapply wpx_mono; [eapply (fork_segs_spec _ _ p _ (ptable s) _ (k :: fl1) fl2)| |done]; try done; simpl.
  { rewrite A3. split; [apply I|apply I| |by apply P]. intros j g [_ Hg]%zidx_Some Hu.
    destruct (si_region _ _ _ I _ g Hg Hu) as (r & Hr & Hru & _ & Hsz). by exists r. }
  { apply C. }
  { apply C. }
  { intros va Hva. assert (PGROUNDUP (sz p) <= HEAPLIMIT).
    { pose proof (fk_sz _ _ _ _ _ P). rewrite PGROUNDUP_eq by alia. consts. dlia. }
    rewrite (cp_rest _ _ _ _ _ _ _ C) by (unfold is_u32; consts; lia). unfold kernel_view. consts. by zcases. }
  intros _ sB (pl & fl3 & ph3 & Hpl & Hm & ->). wp_step. apply wpx_ptable_acquire; [done|]. wp_step.
  eapply (wpx_upd_slot _ _ _ _ _ (ptable s)); [done..|]. wp_step. apply wpx_ptable_release; [done|]. wp_steps.
  split_and!; try done. simpl. eexists _, fl3. split; [done|]. left. split_and!; try done.
  - rewrite A3 in Hm. apply (child_mem_intro k fl1 s s1 p _ fl2 ph2); try done; try apply P; try apply I.
    intros b Hb. apply A9. intros k0 [= <-]. done.
  - split_and!; auto. intros j f Hj Hf. by apply FB2, (FA3 j).
Qed.

(** [fork] either makes a child that shares the caller's segments and has a
    copy of its memory, or gives everything back. *)
Lemma fork_spec fl s p i q :
  fork_pre fl s p i q -> wp fork (fork_result fl s p i q) s.
Proof.
  intros P. destruct (fork_pre_ne _ _ _ _ _ P) as [Hne Hq].
  pose proof (fk_inv _ _ _ _ _ P) as I. pose proof (si_proc _ _ _ I) as Hp. pose proof (fk_slot _ _ _ _ _ P) as Hs.
  pose proof (lookup_lt_Some _ _ _ Hs) as Hi. unfold fork, myproc. wp_steps.
  eapply wpx_mono; [apply (allocproc_spec fl s i q)| |done]; try apply P; try apply I.
  cbn beta. intros r s1 A. pose proof A as [A1 A2 A3 A4 A5 A6 A7 A8 A9 Ar]. destruct fl as [|k fl1].
  { destruct Ar as [-> At]. wp_steps. split_and!; try done. eexists _, []. split; [done|]. right.
    split_and!; try done. split; try done. intros a Ha _ b Hb. by apply A9. }
  destruct Ar as (-> & At & Ast). cbn [tl head] in *.
  wp_step. apply (wpx_get_proc _ _ _ p); [by rewrite At, list_lookup_insert_ne|]. wp_steps.
  assert (Hw : forall b, b < k \/ k + 4096 <= b -> ld8 (mem (kphys s1)) b = ld8 (mem (kphys s)) b).
  { intros b Hb. apply A9. intros k0 [= <-]. done. }
  destruct (parent_ok_write fl1 k (kphys s) (kphys s1) (pgdir p) (PGROUNDUP (sz p))) as (P1 & _ & _);
    [apply I|apply P|done|].
  eapply wpx_mono; [by apply (copyuvm_spec fl1 (kphys s1) (pgdir p) (sz p)); [|apply P|]| |done].
  cbn beta. intros d ph2 (fl2 & [[Hd C]|[-> B]]).
  - rewrite (proj2 (Z.eqb_neq d 0) Hd). exact (fork_rest_spec k fl1 s s1 p i q d fl2 ph2 P A Hd C).
  - wp_step. eapply (wpx_upd_slot _ _ _ _ _ (ptable s)); [done..|]. cbn [Z.eqb]. wp_step.
    eapply wpx_get_slot; [done..|]. wp_steps. simpl.
    assert (Hk : is_page k) by (apply (phys_ok_page (k :: fl1) (kphys s)); [apply I|left]).
    pose proof (ok_nodup _ _ (si_phys _ _ _ I)) as [Hnk _]%NoDup_cons.
    wp_use (kfree_spec fl2 ph2 k); [apply B|done|by rewrite (ab_free _ _ _ _ B)|].
    intros [] ph3 (Hok3 & Hu3 & Hw3). wp_steps.
    do 2 (eapply (wpx_upd_slot _ _ _ _ _ (ptable s)); [done..|]; wp_steps).
    split_and!; try done. eexists _, (k :: fl2). split; [done|]. right. split_and!; try done.
    by eapply (all_back_stack k fl1 (kphys s) (kphys s1) fl2 ph2); [apply I|..].
Qed.

End fork.
