(* ===== verification/ProcTheorems.v ===== *)
(** * What the process code guarantees

    The invariant of the system of several CPUs, and the contracts of
    [fork], [wait], [growproc] and [kill]. *)

From S2P Require Import Prelude.
From S2P Require Import CString.
From S2P Require Import Mmu.
From S2P Require Import Kalloc.
From S2P Require Import Vm.
From S2P Require Import Demo.
From S2P Require Import Uvm.
From S2P Require Import Vmspace.
From S2P Require Import VmTheorems.
From S2P Require Import Kernel.
From S2P Require Import Shm.
From S2P Require Import ShmGet.
From S2P Require Import ShmAttach.
From S2P Require Import ShmTheorems.
From S2P Require Import Proc.
From S2P Require Import Sched.
From S2P Require Import ProcSpec.

Open Scope Z_scope.

Section theorems.
Context {K : KernelImage} {KI : KernelImageOk K} {KC : KernelCode} {F : Type} {FO : FileOps F}.

(** C6: in every system that kernel calls and scheduler choices can reach, on
    any number of CPUs, the process-table lock is free between calls, a
    process is RUNNING exactly when a CPU runs it, and only one does; pids of
    live processes are distinct; no process asleep in [wait] has a zombie
    child, so no exit is missed; and init is never freed. *)
Theorem scheduling_invariant (S0 S : sys (F := F)) : sys_ok S0 -> reachable S0 S -> sys_ok S.
Proof. apply reachable_sys_ok. Qed.

(** [growproc] sets the size of the process exactly when it returns 0, and
    the memory is then that of [allocuvm] or [deallocuvm]; a failed growth
    undoes everything.  Shrinking to size 0 frees all the memory but returns
    -1 and leaves the old size. *)
Theorem growproc_resizes fl (s : kernel F) p n :
  ptable s !! curproc s = Some p -> kstack p <> 0 -> pgdir p <> 0 ->
  phys_ok fl (kphys s) -> pgdir_ok (mem (kphys s)) (pgdir p) fl ->
  0 <= sz p < HEAPLIMIT -> 0 <= sz p + n < HEAPLIMIT ->
  (forall va, PGROUNDUP (sz p) <= va < PGROUNDUP (sz p + n) ->
     present (pte_view (mem (kphys s)) (pgdir p) va) = false) ->
  uvm_own (mem (kphys s)) (pgdir p) fl (PGROUNDUP (sz p + n)) (PGROUNDUP (sz p)) ->
  wp (growproc n) (resized fl p n s) s.
Proof. apply growproc_spec. Qed.

(** C30: [wait] with a zombie child returns its pid, frees the slot, and gives
    back exactly the child's kernel stack and address space; the pages of
    shared segments and everything else keep their contents. *)
Theorem wait_reaps fl (s : kernel F) j q :
  phys_ok fl (kphys s) -> ptable_lock s = false ->
  find_proc (zombie_child (curproc s)) 0 (ptable s) = Some j -> ptable s !! j = Some q ->
  zombie_mem fl (mem (kphys s)) q ->
  wp wait_enter (fun r s' => r = WPid (pid q) /\
    s' = set_kphys (kphys s') (set_ptable (<[j := freed_slot q]> (ptable s)) s) /\
    exists fl', phys_ok fl' (kphys s') /\
      (forall a, a ∈ fl' <-> a ∈ fl \/ a = kstack q \/ space_page (mem (kphys s)) (pgdir q) HEAPLIMIT a) /\
      (forall a, is_page a -> a <> kstack q -> ~ space_page (mem (kphys s)) (pgdir q) HEAPLIMIT a ->
         same_bytes (mem (kphys s)) (mem (kphys s')) a)) s.
Proof. apply wait_reap_spec. Qed.

Context {FL : FileLaws F}.

(** C7: [fork], called by a process whose segments are of regions in use, with a
    free slot of the process table.  It returns the next pid and makes a RUNNABLE
    child whose memory is a copy of the caller's, with the same files and the same
    segments; each page of a segment is mapped to the frame that the caller has
    there, or, when no page is free any more, not mapped at all, which fork does not
    notice.  Or it returns -1 with every page free again and the slot UNUSED.
    Nothing in use changes.  The table of regions does not change either: the new
    attachments are not counted in [shm_nattch]. *)
Theorem fork_copies_and_shares fl (s : kernel F) p i q :
  fork_pre fl s p i q -> wp fork (fork_result fl s p i q) s.
Proof. apply fork_spec. Qed.

(** [kill] when the first slot with the pid does not sleep. *)
Lemma kill_awake (s : kernel F) n i q :
  ptable_lock s = false -> find_proc (fun p => pid p =? n) 0 (ptable s) = Some i ->
  ptable s !! i = Some q -> state q <> SLEEPING ->
  kill n s = Ret 0 (set_ptable (<[i := set_killed 1 q]> (ptable s)) s).
Proof.
  intros Hlk Hf Hq Hst. pose proof (lookup_lt_Some _ _ _ Hq) as Hi.
  unfold kill, bind, ptable_acquire, lock_acquire, gets, upd_proc, get_proc. rewrite Hlk. simpl. rewrite Hf. simpl.
  rewrite Hq. simpl. rewrite list_lookup_insert_eq by done. simpl. unfold state_eqb.
  rewrite bool_decide_eq_false_2 by done. unfold ret, ptable_release, lock_release. simpl.
  rewrite <- Hlk. by destruct s.
Qed.

Lemma find_proc_upd f q' l : forall i0 i,
  find_proc f i0 l = Some (i0 + i)%nat -> f q' = true -> find_proc f i0 (<[i := q']> l) = Some (i0 + i)%nat.
Proof.
  induction l as [|p l IH]; intros i0 [|i] Hf Hq; simpl in *; try done.
  - by rewrite Hq, Nat.add_0_r.
  - destruct (f p); [injection Hf as Hf; lia|].
    replace (i0 + S i)%nat with (S i0 + i)%nat in * by lia. by apply IH.
Qed.

(** [fork_pre] does not look at the slot's [killed]. *)
Lemma fork_pre_killed fl (s : kernel F) p i q :
  fork_pre fl s p i q ->
  fork_pre fl (set_ptable (<[i := set_killed 1 q]> (ptable s)) s) p i (set_killed 1 q).
Proof.
  intros P. destruct (fork_pre_ne _ _ _ _ _ P) as [Hne Hq]. pose proof (fk_slot _ _ _ _ _ P) as Hs.
  pose proof (lookup_lt_Some _ _ _ Hs) as Hi. destruct P as [[I1 I2 I3 I4 I5 I6 I7 I8 I9 I10] P2 P3 P4 P5 P6 P7 P8 P9 P10 P11 P12].
  split; try done.
  - split; try done. simpl. by rewrite list_lookup_insert_ne.
  - apply (find_proc_upd _ _ _ 0 i); [done|]. by apply bool_decide_eq_true_2.
  - simpl. by apply list_lookup_insert_eq.
Qed.

(** [kill(0)] finds a free slot, since a slot that was never used or was
    freed has pid 0, reports success, and marks it: the next process that
    [fork] makes in the slot starts out killed, because [allocproc] does not
    clear the mark. *)
Theorem kill_zero_kills_next_child fl (s : kernel F) p i q :
  fork_pre fl s p i q -> find_proc (fun p => pid p =? 0) 0 (ptable s) = Some i ->
  wp (let! k := kill 0 in let! r := fork in ret (k, r)) (fun kr s' =>
    kr.1 = 0 /\ (kr.2 <> -1 -> exists c, ptable s' !! i = Some c /\ state c = RUNNABLE /\ killed c = 1)) s.
Proof.
  intros P Hf. destruct (fork_pre_ne _ _ _ _ _ P) as [Hne Hq]. pose proof (fk_slot _ _ _ _ _ P) as Hs.
  pose proof (lookup_lt_Some _ _ _ Hs) as Hi.
  wp_step. unfold wpx at 1. rewrite (kill_awake s 0 i q (fk_lock _ _ _ _ _ P) Hf Hs) by congruence.
  wp_step. eapply wpx_mono; [by apply fork_spec, fork_pre_killed| |done]. cbn beta.
  intros r s' (_ & _ & _ & _ & _ & c & fl' & Ht & H). wp_steps. split; [done|]. simpl. intros Hr. exists c.
  rewrite Ht. simpl. split; [by rewrite list_lookup_insert_eq by (by rewrite length_insert)|].
  destruct H as [(_ & C & _)|(Hx & _)]; [by split; apply C|done].
Qed.

End theorems.

(** ** Witnesses *)

#[local] Existing Instances demo_image demo_image_ok.

(** A file layer whose operations always succeed, and addresses of the code. *)
Definition demo_files : FileOps unit := {|
  filedup := fun _ => ret tt; fileclose := fun _ => ret tt; idup := fun _ => ret tt;
  iput := fun _ => ret tt; begin_op := ret tt; end_op := ret tt; namei := fun _ _ => ret 1 |}.
#[local] Existing Instance demo_files.

Lemma demo_files_laws : FileLaws unit.
Proof.
  refine {| fs_ok := fun _ => True; file_open := fun _ _ => True; inode_held := fun _ _ => True |}; done.
Defined.
#[local] Existing Instance demo_files_laws.

Definition demo_code : KernelCode :=
  {| forkret_ := 0x80103000; trapret_ := 0x80105000; initcode_start := 0x8010a460; initcode_size := 44 |}.
#[local] Existing Instance demo_code.

Definition no_files : list Z := replicate (Z.to_nat NOFILE) 0.
Definition no_segs : list sharedPages := replicate (Z.to_nat SHAREDREGIONS) new_pages.

(** A process of the small machine that uses no memory. *)
Definition demo_slot (st : procstate) (pd : Z) (par : option nat) : proc :=
  mkProc 0 0 0 st pd par demo_tf 0 ChNone 0 no_files 0 [] no_segs.

Definition demo_table : list proc :=
  demo_slot RUNNING 1 None :: demo_slot RUNNING 2 (Some 0%nat) :: replicate 62 (demo_slot UNUSED 0 None).

(** init and its child run, on two CPUs. *)
Definition demo_sys : sys :=
  mkSys (mkKernel demo_phys demo_table false 3 0 0 [] false tt) [Some 0%nat; Some 1%nat].

Lemma demo_table_lookup i q : (core <$> demo_table) !! i = Some q ->
  (i = 0%nat /\ q = core (demo_slot RUNNING 1 None)) \/
  (i = 1%nat /\ q = core (demo_slot RUNNING 2 (Some 0%nat))) \/
  ((2 <= i)%nat /\ q = core (demo_slot UNUSED 0 None)).
Proof.
  rewrite list_lookup_fmap. destruct i as [|[|i]].
  - intros [= <-]. by left.
  - intros [= <-]. by right; left.
  - unfold demo_table. cbn [lookup list_lookup]. destruct (_ !! i) as [p|] eqn:Hp; [|done].
    apply lookup_replicate in Hp as [-> _]. intros [= <-]. right; right. split; [lia|done].
Qed.

Lemma demo_sys_ok : sys_ok demo_sys.
Proof.
  split; [done|]. change (cores (ks demo_sys)) with (core <$> demo_table). simpl initproc. simpl nextpid. simpl cpus.
  assert (Hcpu : forall c i, [Some 0%nat; Some 1%nat] !! c = Some (Some i) -> c = i /\ (i = 0 \/ i = 1)%nat).
  { intros [|[|c]] i H; simpl in H; simplify_eq; auto. }
  split.
  - reflexivity.
  - intros c i [_ [->| ->]]%Hcpu; eexists; split; reflexivity.
  - intros i p [[-> ->]|[[-> ->]|[_ ->]]]%demo_table_lookup; [by exists 0%nat|by exists 1%nat|done].
  - intros c c' i [-> _]%Hcpu [-> _]%Hcpu. done.
  - done.
  - intros i p [[-> ->]|[[-> ->]|[_ ->]]]%demo_table_lookup; simpl; lia.
  - intros i j p q [[-> ->]|[[-> ->]|[_ ->]]]%demo_table_lookup [[-> ->]|[[-> ->]|[_ ->]]]%demo_table_lookup; done.
  - intros i p j q [[-> ->]|[[-> ->]|[_ ->]]]%demo_table_lookup _; done.
  - intros i p [[-> ->]|[[-> ->]|[_ ->]]]%demo_table_lookup; done.
  - eexists. split; [reflexivity|done].
Qed.

(** init waits, and its child exits on the other CPU. *)
Definition demo_waits : kernel unit := sched_release (after wait_enter (on_cpu 0 (ks demo_sys))).
Definition demo_exits : kernel unit := sched_release (after exit_ (on_cpu 1 demo_waits)).

Lemma demo_reachable : reachable demo_sys (mkSys demo_exits [None; None]).
Proof.
  eapply reach_step; [eapply reach_step; [apply reach_refl|]|].
  - apply (step_wait_sleep 0 0 _ [Some 0%nat; Some 1%nat] (after wait_enter (on_cpu 0 (ks demo_sys)))); [done|].
    vm_compute. reflexivity.
  - apply (step_exit 1 1 _ [None; Some 1%nat] (after exit_ (on_cpu 1 demo_waits))); [done|].
    vm_compute. reflexivity.
Qed.

Lemma scheduling_invariant_witness :
  sys_ok (mkSys demo_exits [None; None]) /\
  c_state <$> cores demo_exits !! 0%nat = Some RUNNABLE /\ c_state <$> cores demo_exits !! 1%nat = Some ZOMBIE.
Proof.
  split; [|vm_compute; split; reflexivity].
  apply (scheduling_invariant demo_sys (mkSys demo_exits [None; None])); [apply demo_sys_ok|apply demo_reachable].
Defined.

(** A process with one page of memory, and a zombie child with such memory. *)
Definition demo_stack : Z := 0x80310000.
Definition demo_worker (st : procstate) (pd : Z) (par : option nat) : proc :=
  mkProc 4096 demo_dir demo_stack st pd par demo_tf 0 ChNone 0 no_files 0 [] no_segs.
Definition demo_parent_sys : kernel unit :=
  mkKernel demo_user [demo_slot RUNNING 1 None; demo_worker ZOMBIE 2 (Some 0%nat)] false 3 0 0 [] false tt.
Definition demo_worker_sys : kernel unit :=
  mkKernel demo_user [demo_worker RUNNING 1 None] false 2 0 0 [] false tt.

Lemma growproc_resizes_witness : exists fl : list Z,
  wp (growproc 4096) (resized fl (demo_worker RUNNING 1 None) 4096 demo_worker_sys) demo_worker_sys.
Proof.
  destruct demo_user_grown as [fl G]. exists fl.
  apply (growproc_resizes fl demo_worker_sys (demo_worker RUNNING 1 None) 4096).
  - reflexivity.
  - discriminate.
  - discriminate.
  - exact (gr_phys G).
  - exact (gr_dir G).
  - by consts.
  - by consts.
  - intros va Hva. change (kphys demo_worker_sys) with demo_user. change (pgdir _) with demo_dir.
    change (PGROUNDUP _ <= _ < _) with (4096 <= va < 8192) in Hva.
    rewrite (gr_out G) by (unfold is_u32; lia). by rewrite demo_view.
  - change (uvm_own (mem demo_user) demo_dir fl 8192 4096). split; intros; lia.
Defined.

Lemma demo_zombie_mem fl :
  grown user_perm zero_fill demo_dir 0 4096 4096 demo_pages demo_phys [] fl demo_user ->
  zombie_mem fl (mem demo_user) (demo_worker ZOMBIE 2 (Some 0%nat)).
Proof.
  intros G.
  assert (Hno : forall q, q ∈ demo_pages -> q <> demo_stack).
  { intros q [_ Hq]%demo_pages_page ->. unfold demo_stack in Hq. lia. }
  assert (Hsp : forall va, 4096 <= va < HEAPLIMIT -> present (pte_view (mem demo_user) demo_dir va) = false).
  { intros va Hva. rewrite (gr_out G) by (consts; unfold is_u32; lia). by rewrite demo_view. }
  split; change (kstack _) with demo_stack; change (pgdir _) with demo_dir.
  - unfold is_page, end_, demo_image, demo_stack. consts. split; [reflexivity|lia].
  - intros H. exact (Hno _ (gr_free G _ H) eq_refl).
  - intros [Hp|(va & Hva & Hm)].
    + apply (gr_pt G) in Hp as [[Hp|(i & Hi & Hp & _)]|[Hp _]]; [discriminate Hp| |by eapply Hno].
      rewrite demo_pde in Hp by done. discriminate Hp.
    + destruct Hm as [Hpr Hq]. destruct (Z.lt_ge_cases va 4096) as [Hlt|Hge]; [|rewrite Hsp in Hpr by (split; [exact Hge|apply Hva]); discriminate Hpr].
      destruct (gr_in G va (conj (proj1 Hva) Hlt)) as (q & Hqf & Hqp & Hqv & _).
      rewrite Hqv, (frame_mk_pte q _ Hqp (user_perm_ok va)) in Hq. exact (Hno q Hqf (eq_sym Hq)).
  - exact (gr_dir G).
  - eapply own_extend; [exact (gr_own G)|]. exact Hsp.
Qed.

Lemma wait_reaps_witness : exists fl : list Z,
  let q := demo_worker ZOMBIE 2 (Some 0%nat) in
  wp wait_enter (fun r s' => r = WPid (pid q) /\
    s' = set_kphys (kphys s') (set_ptable (<[1%nat := freed_slot q]> (ptable demo_parent_sys)) demo_parent_sys) /\
    exists fl', phys_ok fl' (kphys s') /\
      (forall a, a ∈ fl' <-> a ∈ fl \/ a = kstack q \/
         space_page (mem (kphys demo_parent_sys)) (pgdir q) HEAPLIMIT a) /\
      (forall a, is_page a -> a <> kstack q ->
         ~ space_page (mem (kphys demo_parent_sys)) (pgdir q) HEAPLIMIT a ->
         same_bytes (mem (kphys demo_parent_sys)) (mem (kphys s')) a)) demo_parent_sys.
Proof.
  destruct demo_user_grown as [fl G]. exists fl.
  apply (wait_reaps fl demo_parent_sys 1 (demo_worker ZOMBIE 2 (Some 0%nat))).
  - exact (gr_phys G).
  - reflexivity.
  - vm_compute. reflexivity.
  - reflexivity.
  - exact (demo_zombie_mem fl G).
Defined.

(** The caller of [fork]: it has a shared segment; slot 1 is free. *)
Definition demo_caller : proc := set_ofile no_files (add_seg 0 demo_seg demo_proc).
Definition demo_table2 : list proc := [demo_caller; demo_slot UNUSED 0 None].
Definition demo_forks : kernel unit := set_ptable demo_table2 demo_attached.

Lemma fork_pre_demo (s : kernel unit) fl :
  shm_state fl (add_seg 0 demo_seg demo_proc) s -> curproc s = 0%nat -> ptable_lock s = false -> nextpid s = 8 ->
  fork_pre fl (set_ptable demo_table2 s) demo_caller 1 (demo_slot UNUSED 0 None).
Proof.
  intros [I1 I2 I3 I4 I5 I6 I7 I8 I9 I10] Hcu Hlk Hnx. split; try done.
  - split; try done. simpl. by rewrite Hcu.
  - split; [done| |].
    + intros va Hva. change (PGROUNDUP (sz demo_caller)) with 0 in Hva. lia.
    + change (PGROUNDUP (sz demo_caller)) with 0. split; intros; lia.
  - intros j g [_ Hg]%zidx_Some Hu. cbn in Hg. destruct (Z.to_nat j) as [|n]; cbn in Hg.
    + by injection Hg as <-.
    + apply lookup_replicate in Hg as [-> _]. discriminate Hu.
  - simpl. by rewrite Hnx.
Qed.

Lemma demo_fork_pre : exists fl : list Z, fork_pre fl demo_forks demo_caller 1 (demo_slot UNUSED 0 None).
Proof.
  destruct demo_attached_inv as [fl I]. exists fl.
  assert (Hs : curproc demo_attached = 0%nat /\ ptable_lock demo_attached = false /\ nextpid demo_attached = 8)
    by (vm_compute; split_and!; reflexivity).
  destruct Hs as (Hcu & Hlk & Hnx). exact (fork_pre_demo demo_attached fl I Hcu Hlk Hnx).
Qed.

Lemma fork_copies_and_shares_witness : exists fl : list Z,
  wp fork (fork_result fl demo_forks demo_caller 1 (demo_slot UNUSED 0 None)) demo_forks.
Proof.
  destruct demo_fork_pre as [fl P]. exists fl.
  exact (fork_copies_and_shares fl demo_forks demo_caller 1 (demo_slot UNUSED 0 None) P).
Defined.

Lemma kill_zero_kills_next_child_witness :
  wp (let! k := kill 0 in let! r := fork in ret (k, r)) (fun kr s' =>
    kr.1 = 0 /\ (kr.2 <> -1 -> exists c, ptable s' !! 1%nat = Some c /\ state c = RUNNABLE /\ killed c = 1)) demo_forks.
Proof.
  destruct demo_fork_pre as [fl P].
  apply (kill_zero_kills_next_child fl demo_forks demo_caller 1 (demo_slot UNUSED 0 None) P). reflexivity.
Defined.
