(* ===== verification/Spinlock.v ===== *)
(** * Spin locks on several CPUs (src/spinlock.c)

    Elsewhere a spin lock is a flag of the component it protects, as the CPU
    that runs the code sees it.  Here is what that rests on: [acquire] and
    [release] as sequences of atomic steps of several CPUs on shared locks,
    with the interrupt flag and the nesting count of each CPU. *)

From S2P Require Import Prelude.

Open Scope Z_scope.

(** The fields of struct cpu that locks use, and the interrupt flag of the
    processor's eflags. *)
Record cpu := mkCpu { ncli : Z; intena : bool; intr : bool }.

(** [lk->cpu] is the index of a CPU, [None] for null. *)
Record spinlock := mkSpin { locked : Z; lk_cpu : option nat }.

Record smp := mkSmp { cpus : list cpu; locks : list spinlock }.

Definition set_cpus v (s : smp) := mkSmp v (locks s).
Definition set_locks v (s : smp) := mkSmp (cpus s) v.

Definition get_lock (l : nat) : M smp spinlock :=
  fun s => match locks s !! l with Some k => Ret k s | None => Fault "lock" end.
Definition set_lock (l : nat) (k : spinlock) : M smp unit :=
  modify (fun s => set_locks (<[l := k]> (locks s)) s).

(** The processor, without the check of [mycpu]. *)
Definition get_cpu (c : nat) : M smp cpu :=
  fun s => match cpus s !! c with Some p => Ret p s | None => Fault "cpu" end.
Definition set_cpu (c : nat) (p : cpu) : M smp unit :=
  modify (fun s => set_cpus (<[c := p]> (cpus s)) s).

(** [mycpu()] panics with interrupts enabled. *)
Definition mycpu (c : nat) : M smp cpu :=
  let! p := get_cpu c in
  if intr p then panic "mycpu called with interrupts enabled" else ret p.

Definition initlock (l : nat) : M smp unit := set_lock l (mkSpin 0 None).

Definition pushcli (c : nat) : M smp unit :=
  let! p := get_cpu c in
  let eflags := intr p in
  do! set_cpu c (mkCpu (ncli p) (intena p) false) in
  let! p := mycpu c in
  do! (if ncli p =? 0 then set_cpu c (mkCpu (ncli p) eflags (intr p)) else ret tt) in
  let! p := mycpu c in
  set_cpu c (mkCpu (ncli p + 1) (intena p) (intr p)).

Definition popcli (c : nat) : M smp unit :=
  let! p := get_cpu c in
  if intr p then panic "popcli - interruptible" else
  let! p := mycpu c in
  do! set_cpu c (mkCpu (ncli p - 1) (intena p) (intr p)) in
  let! p := mycpu c in
  if ncli p <? 0 then panic "popcli" else
  if (ncli p =? 0) && intena p then set_cpu c (mkCpu (ncli p) (intena p) true) else ret tt.

Definition holding (c l : nat) : M smp bool :=
  do! pushcli c in
  let! k := get_lock l in
  do! mycpu c in
  let r := nz (locked k) && bool_decide (lk_cpu k = Some c) in
  do! popcli c in
  ret r.

(** [acquire] up to the loop. *)
Definition acquire_enter (c l : nat) : M smp unit :=
  do! pushcli c in
  let! h := holding c l in
  if h then panic "acquire" else ret tt.

(** One turn of the loop: [xchg(&lk->locked, 1)]. *)
Definition xchg (l : nat) : M smp Z :=
  let! k := get_lock l in
  do! set_lock l (mkSpin 1 (lk_cpu k)) in
  ret (locked k).

(** The rest of [acquire]: record the owner. *)
Definition acquire_exit (c l : nat) : M smp unit :=
  do! mycpu c in
  let! k := get_lock l in
  set_lock l (mkSpin (locked k) (Some c)).

(** [release] up to the store that frees the lock. *)
Definition release_enter (c l : nat) : M smp unit :=
  let! h := holding c l in
  if negb h then panic "release" else
  let! k := get_lock l in
  set_lock l (mkSpin (locked k) None).

(** The store and [popcli]. *)
Definition release_exit (c l : nat) : M smp unit :=
  let! k := get_lock l in
  do! set_lock l (mkSpin 0 (lk_cpu k)) in
  popcli c.

(** ** The system *)

(** Where a CPU is: outside this code, in the loop of [acquire], after a
    successful exchange, or before the store of [release]. *)
Inductive pc := Running | Spinning (l : nat) | Got (l : nat) | Releasing (l : nat).

Record lsys := mkLsys { sm : smp; pcs : list pc }.

Inductive lstep : lsys -> lsys -> Prop :=
  | ls_enter c l s ps s' : ps !! c = Some Running -> acquire_enter c l s = Ret tt s' ->
      lstep (mkLsys s ps) (mkLsys s' (<[c := Spinning l]> ps))
  | ls_spin c l s ps r s' : ps !! c = Some (Spinning l) -> xchg l s = Ret r s' -> r <> 0 ->
      lstep (mkLsys s ps) (mkLsys s' ps)
  | ls_take c l s ps s' : ps !! c = Some (Spinning l) -> xchg l s = Ret 0 s' ->
      lstep (mkLsys s ps) (mkLsys s' (<[c := Got l]> ps))
  | ls_record c l s ps s' : ps !! c = Some (Got l) -> acquire_exit c l s = Ret tt s' ->
      lstep (mkLsys s ps) (mkLsys s' (<[c := Running]> ps))
  | ls_release c l s ps s' : ps !! c = Some Running -> release_enter c l s = Ret tt s' ->
      lstep (mkLsys s ps) (mkLsys s' (<[c := Releasing l]> ps))
  | ls_unlock c l s ps s' : ps !! c = Some (Releasing l) -> release_exit c l s = Ret tt s' ->
      lstep (mkLsys s ps) (mkLsys s' (<[c := Running]> ps)).

Inductive lreach (S0 : lsys) : lsys -> Prop :=
  | lr_refl : lreach S0 S0
  | lr_step S S' : lreach S0 S -> lstep S S' -> lreach S0 S'.

(** ** The invariant *)

(** Locks that name [c] as their owner. *)
Definition owned (c : nat) (ks : list spinlock) : list spinlock :=
  filter (fun k => lk_cpu k = Some c) ks.

(** [c] is between the exchange and the record, or between the clearing of the
    owner and the store: it has the lock, and the lock names no owner. *)
Definition in_window (x : pc) (l : nat) : Prop := x = Got l \/ x = Releasing l.

Definition pending (x : pc) : Z := match x with Running => 0 | _ => 1 end.

Record spin_ok (S : lsys) : Prop := {
  sp_len : length (pcs S) = length (cpus (sm S));
  sp_flag : forall l k, locks (sm S) !! l = Some k -> locked k = 0 \/ locked k = 1;
  sp_owner : forall l k c, locks (sm S) !! l = Some k -> lk_cpu k = Some c ->
    locked k = 1 /\ forall c' x, pcs S !! c' = Some x -> ~ in_window x l;
  sp_range : forall l k c, locks (sm S) !! l = Some k -> lk_cpu k = Some c -> is_Some (cpus (sm S) !! c);
  sp_window : forall l c x, pcs S !! c = Some x -> in_window x l ->
    exists k, locks (sm S) !! l = Some k /\ locked k = 1 /\ lk_cpu k = None;
  sp_once : forall l c c' x x', pcs S !! c = Some x -> pcs S !! c' = Some x' ->
    in_window x l -> in_window x' l -> c = c';
  sp_ncli : forall c p x, cpus (sm S) !! c = Some p -> pcs S !! c = Some x ->
    ncli p = Z.of_nat (length (owned c (locks (sm S)))) + pending x;
  sp_intr : forall c p, cpus (sm S) !! c = Some p -> 0 < ncli p -> intr p = false;
}.

(** CPU [c] has lock [l]: from the exchange to the store. *)
Definition has_lock (S : lsys) (c l : nat) : Prop :=
  (exists x, pcs S !! c = Some x /\ in_window x l) \/
  (exists k, locks (sm S) !! l = Some k /\ lk_cpu k = Some c).

(** * Lemmas *)

(** ** What the code does *)

Lemma pwp_get_cpu c (Q : cpu -> smp -> Prop) s :
  (forall p, cpus s !! c = Some p -> Q p s) -> pwp (get_cpu c) Q s.
Proof. intros HQ a s'. unfold get_cpu. destruct (cpus s !! c); [|done]. intros [= <- <-]. by apply HQ. Qed.

Lemma pwp_get_lock l (Q : spinlock -> smp -> Prop) s :
  (forall k, locks s !! l = Some k -> Q k s) -> pwp (get_lock l) Q s.
Proof. intros HQ a s'. unfold get_lock. destruct (locks s !! l); [|done]. intros [= <- <-]. by apply HQ. Qed.

Lemma pwp_mycpu c (Q : cpu -> smp -> Prop) s :
  (forall p, cpus s !! c = Some p -> intr p = false -> Q p s) -> pwp (mycpu c) Q s.
Proof.
  intros HQ. unfold mycpu. apply pwp_bind, pwp_get_cpu. intros p Hp. case_if Hi; [apply pwp_panic|].
  apply pwp_ret. by apply HQ.
Qed.

(** A processor after [pushcli] and after [popcli]. *)
Definition pushed (p : cpu) : cpu := mkCpu (ncli p + 1) (if ncli p =? 0 then intr p else intena p) false.
Definition popped (p : cpu) : cpu := mkCpu (ncli p - 1) (intena p) ((ncli p =? 1) && intena p).

Lemma pushcli_effect c s :
  pwp (pushcli c) (fun _ s' => exists p, cpus s !! c = Some p /\
    s' = set_cpus (<[c := pushed p]> (cpus s)) s) s.
Proof.
  unfold pushcli. apply pwp_bind, pwp_get_cpu. intros p Hp. pose proof (lookup_lt_Some _ _ _ Hp) as Hc.
  apply pwp_bind, pwp_modify. simpl. apply pwp_bind, pwp_mycpu. simpl. intros p1 Hp1 _.
  rewrite list_lookup_insert_eq in Hp1 by done. injection Hp1 as <-. simpl. apply pwp_bind.
  destruct (ncli p =? 0) eqn:Hz.
  - apply pwp_modify. simpl. apply pwp_bind, pwp_mycpu. simpl. intros p2 Hp2 _.
    rewrite list_lookup_insert_eq in Hp2 by (by rewrite length_insert). injection Hp2 as <-. simpl.
    apply pwp_modify. exists p. split; [done|]. unfold pushed, set_cpus. simpl.
    by rewrite !list_insert_insert_eq, Hz.
  - apply pwp_ret. apply pwp_bind, pwp_mycpu. simpl. intros p2 Hp2 _.
    rewrite list_lookup_insert_eq in Hp2 by done. injection Hp2 as <-. simpl.
    apply pwp_modify. exists p. split; [done|]. unfold pushed, set_cpus. simpl.
    by rewrite list_insert_insert_eq, Hz.
Qed.

Lemma popcli_effect c s :
  pwp (popcli c) (fun _ s' => exists p, cpus s !! c = Some p /\ intr p = false /\ 1 <= ncli p /\
    s' = set_cpus (<[c := popped p]> (cpus s)) s) s.
Proof.
  unfold popcli. apply pwp_bind, pwp_get_cpu. intros p Hp. pose proof (lookup_lt_Some _ _ _ Hp) as Hc.
  destruct (intr p) eqn:Hi; [apply pwp_panic|]. apply pwp_bind, pwp_mycpu. intros p' Hp' _. rewrite Hp in Hp'. injection Hp' as <-.
  apply pwp_bind, pwp_modify. simpl. apply pwp_bind, pwp_mycpu. simpl. intros p1 Hp1 _.
  rewrite list_lookup_insert_eq in Hp1 by done. injection Hp1 as <-. simpl.
  destruct (Z.ltb_spec (ncli p - 1) 0); [apply pwp_panic|].
  destruct ((ncli p - 1 =? 0) && intena p) eqn:Hz.
  - apply pwp_modify. exists p. split_and!; [done|done|lia|]. unfold popped, set_cpus. simpl.
    rewrite list_insert_insert_eq. do 3 f_equal. rewrite <- Hz. f_equal. zcases; done.
  - apply pwp_ret. exists p. split_and!; [done|done|lia|]. unfold popped, set_cpus. simpl.
    do 3 f_equal. rewrite Hi, <- Hz. f_equal. zcases; done.
Qed.

(** [holding] answers for this CPU and leaves its interrupts as they were. *)
Lemma holding_effect c l s :
  (forall p, cpus s !! c = Some p -> 0 < ncli p -> intr p = false) ->
  (forall p, cpus s !! c = Some p -> 0 <= ncli p) ->
  pwp (holding c l) (fun r s' => exists p k p', cpus s !! c = Some p /\ locks s !! l = Some k /\
    r = nz (locked k) && bool_decide (lk_cpu k = Some c) /\ ncli p' = ncli p /\ intr p' = intr p /\
    s' = set_cpus (<[c := p']> (cpus s)) s) s.
Proof.
  intros Hintr Hpos. unfold holding. apply pwp_bind. eapply pwp_mono; [apply pushcli_effect|].
  cbn beta. intros [] s1 (p & Hp & ->). pose proof (lookup_lt_Some _ _ _ Hp) as Hc.
  apply pwp_bind, pwp_get_lock. simpl. intros k Hk. apply pwp_bind, pwp_mycpu. simpl. intros _ _ _.
  apply pwp_bind. eapply pwp_mono; [apply popcli_effect|]. cbn beta. simpl.
  intros [] s2 (p1 & Hp1 & _ & _ & ->). rewrite list_lookup_insert_eq in Hp1 by done. injection Hp1 as <-.
  apply pwp_ret. exists p, k, (popped (pushed p)). specialize (Hpos p Hp). split_and!; try done; simpl.
  - lia.
  - destruct (Z.eqb_spec (ncli p) 0) as [Hz|Hz].
    + rewrite Hz. done.
    + rewrite (Hintr p Hp) by lia. destruct (Z.eqb_spec (ncli p + 1) 1); [lia|done].
  - unfold set_cpus. simpl. by rewrite list_insert_insert_eq.
Qed.

(** ** The invariant is kept *)

Lemma owned_insert_same c ks l k k' :
  ks !! l = Some k -> (lk_cpu k' = Some c <-> lk_cpu k = Some c) ->
  length (owned c (<[l := k']> ks)) = length (owned c ks).
Proof.
  intros Hk He. unfold owned. rewrite <- (take_drop_middle _ _ _ Hk) at 2.
  rewrite insert_take_drop by (by eapply lookup_lt_Some). rewrite !filter_app, !length_app, !filter_cons.
  destruct (decide (lk_cpu k' = Some c)), (decide (lk_cpu k = Some c)); try tauto; done.
Qed.

(** [c] becomes the owner, or stops being the owner, of lock [l]. *)
Lemma owned_gain c ks l k k' :
  ks !! l = Some k -> lk_cpu k <> Some c -> lk_cpu k' = Some c ->
  length (owned c (<[l := k']> ks)) = S (length (owned c ks)).
Proof.
  intros Hk Hn He. unfold owned. rewrite <- (take_drop_middle _ _ _ Hk) at 2.
  rewrite insert_take_drop by (by eapply lookup_lt_Some). rewrite !filter_app, !length_app, !filter_cons.
  rewrite decide_True, (decide_False (P := lk_cpu k = _)) by done. simpl. lia.
Qed.

Lemma owned_lose c ks l k k' :
  ks !! l = Some k -> lk_cpu k = Some c -> lk_cpu k' <> Some c ->
  length (owned c ks) = S (length (owned c (<[l := k']> ks))).
Proof.
  intros Hk He Hn. rewrite <- (owned_gain c (<[l := k']> ks) l k' k).
  - by rewrite list_insert_insert_eq, list_insert_id.
  - by apply list_lookup_insert_eq, (lookup_lt_Some _ _ _ Hk).
  - done.
  - done.
Qed.

(** A CPU that may run has its nesting count right. *)
Lemma spin_ok_pos S c p : spin_ok S -> cpus (sm S) !! c = Some p -> 0 <= ncli p.
Proof.
  intros I Hp. destruct (lookup_lt_is_Some_2 (pcs S) c) as [x Hx].
  { rewrite (sp_len _ I). by eapply lookup_lt_Some. }
  rewrite (sp_ncli _ I c p x Hp Hx). destruct x; simpl; lia.
Qed.

(** CPU [c] moves on to [x'], with processor state [p'], and lock [l] becomes
    [k']. *)
Lemma spin_ok_upd S c p x p' x' l k k' :
  spin_ok S -> cpus (sm S) !! c = Some p -> pcs S !! c = Some x -> locks (sm S) !! l = Some k ->
  (forall c', c' <> c -> lk_cpu k' = Some c' <-> lk_cpu k = Some c') ->
  locked k' = 0 \/ locked k' = 1 ->
  ncli p' = Z.of_nat (length (owned c (<[l := k']> (locks (sm S))))) + pending x' ->
  (0 < ncli p' -> intr p' = false) ->
  (forall l', in_window x' l' -> l' = l) ->
  (lk_cpu k' <> None -> locked k' = 1 /\ ~ in_window x' l) ->
  (in_window x' l -> locked k' = 1 /\ lk_cpu k' = None) ->
  (forall c' y, c' <> c -> pcs S !! c' = Some y -> in_window y l ->
     ~ in_window x' l /\ locked k' = 1 /\ lk_cpu k' = None) ->
  spin_ok (mkLsys (mkSmp (<[c := p']> (cpus (sm S))) (<[l := k']> (locks (sm S)))) (<[c := x']> (pcs S))).
Proof.
  intros I Hp Hx Hk Ho Hf Hn Hi Hl H1 H2 H3.
  pose proof (lookup_lt_Some _ _ _ Hp) as Hcp. pose proof (lookup_lt_Some _ _ _ Hx) as Hcx.
  pose proof (lookup_lt_Some _ _ _ Hk) as Hlk.
  assert (HX : forall c' y, <[c := x']> (pcs S) !! c' = Some y ->
    (c' = c /\ y = x') \/ (c' <> c /\ pcs S !! c' = Some y)).
  { intros c' y. rewrite list_lookup_insert. case_decide; naive_solver. }
  assert (HL : forall l' k0, <[l := k']> (locks (sm S)) !! l' = Some k0 ->
    (l' = l /\ k0 = k') \/ (l' <> l /\ locks (sm S) !! l' = Some k0)).
  { intros l' k0. rewrite list_lookup_insert. case_decide; naive_solver. }
  split; simpl.
  - rewrite !length_insert. apply I.
  - intros l' k0 [[-> ->]|[_ H]]%HL; [done|by eapply sp_flag].
  - intros l' k0 c0 [[-> ->]|[Hne H]]%HL Hc0.
    + destruct H1 as [Hlo Hw]; [congruence|]. split; [done|].
      intros c' y [[-> ->]|[Hne' Hy]]%HX; [done|]. intros Hin. destruct (H3 c' y Hne' Hy Hin) as (_ & _ & ?). congruence.
    + destruct (sp_owner _ I l' k0 c0 H Hc0) as [Hlo Hw]. split; [done|].
      intros c' y [[-> ->]|[Hne' Hy]]%HX; [|by eapply Hw]. intros Hin. by apply Hne, Hl.
  - intros l' k0 c0 Hk0 Hc0. destruct (decide (c0 = c)) as [->|Hcne]; [rewrite list_lookup_insert_eq by done; by eexists|].
    rewrite list_lookup_insert_ne by done. apply HL in Hk0 as [[-> ->]|[_ Hk0]]; [|by eapply sp_range]. apply Ho in Hc0; [|done]. by eapply sp_range.
  - intros l' c' y [[-> ->]|[Hne Hy]]%HX Hw.
    + pose proof (Hl l' Hw) as ->. exists k'. rewrite list_lookup_insert_eq by done. tauto.
    + destruct (decide (l' = l)) as [->|Hne'].
      * exists k'. rewrite list_lookup_insert_eq by done. destruct (H3 c' y Hne Hy Hw) as (_ & ? & ?). done.
      * rewrite list_lookup_insert_ne by done. by eapply (sp_window _ I).
  - intros l' c1 c2 y1 y2 [[-> ->]|[Hn1 Hy1]]%HX [[-> ->]|[Hn2 Hy2]]%HX Hw1 Hw2; [done| | |].
    + pose proof (Hl l' Hw1) as ->. by destruct (H3 c2 y2 Hn2 Hy2 Hw2) as [? _].
    + pose proof (Hl l' Hw2) as ->. by destruct (H3 c1 y1 Hn1 Hy1 Hw1) as [? _].
    + by eapply (sp_once _ I).
  - intros c' p0 y Hp0 Hy. apply HX in Hy as [[-> ->]|[Hne Hy]].
    + rewrite list_lookup_insert_eq in Hp0 by done. by injection Hp0 as <-.
    + rewrite list_lookup_insert_ne in Hp0 by done. rewrite (owned_insert_same c' _ l k k' Hk) by (by apply Ho).
      by apply (sp_ncli _ I).
  - intros c' p0 Hp0. destruct (decide (c' = c)) as [->|Hne].
    + rewrite list_lookup_insert_eq in Hp0 by done. by injection Hp0 as <-.
    + rewrite list_lookup_insert_ne in Hp0 by done. by eapply (sp_intr _ I).
Qed.

Lemma running_no_window l : ~ in_window Running l.
Proof. by intros [?|?]. Qed.

Lemma spinning_no_window l l' : ~ in_window (Spinning l) l'.
Proof. by intros [?|?]. Qed.

(** Nobody is in the window of a lock that has an owner or is free. *)
Lemma no_window S l k c x : spin_ok S -> locks (sm S) !! l = Some k -> lk_cpu k <> None \/ locked k = 0 ->
  pcs S !! c = Some x -> ~ in_window x l.
Proof.
  intros I Hk Ho Hx Hw. destruct (sp_window _ I l c x Hx Hw) as (k0 & Hk0 & ? & ?).
  rewrite Hk in Hk0. injection Hk0 as <-. destruct Ho; congruence.
Qed.

Lemma acquire_enter_effect c l S :
  spin_ok S ->
  pwp (acquire_enter c l) (fun _ s' => exists p k p', cpus (sm S) !! c = Some p /\ locks (sm S) !! l = Some k /\
    (nz (locked k) && bool_decide (lk_cpu k = Some c) = false) /\ ncli p' = ncli p + 1 /\ intr p' = false /\
    s' = set_cpus (<[c := p']> (cpus (sm S))) (sm S)) (sm S).
Proof.
  intros I. unfold acquire_enter. apply pwp_bind. eapply pwp_mono; [apply pushcli_effect|].
  cbn beta. intros [] s1 (p & Hp & ->). pose proof (lookup_lt_Some _ _ _ Hp) as Hc.
  pose proof (spin_ok_pos _ _ _ I Hp) as Hpos. apply pwp_bind. eapply pwp_mono; [apply holding_effect|].
  - simpl. intros p1. rewrite list_lookup_insert_eq by done. by intros [= <-].
  - simpl. intros p1. rewrite list_lookup_insert_eq by done. intros [= <-]. simpl. lia.
  - cbn beta. simpl. intros r s2 (p1 & k & p' & Hp1 & Hk & -> & Hn & Hi & ->).
    rewrite list_lookup_insert_eq in Hp1 by done. injection Hp1 as <-.
    case_if Hh; [apply pwp_panic|]. apply pwp_ret. exists p, k, p'. split_and!; try done.
    unfold set_cpus. simpl. by rewrite list_insert_insert_eq.
Qed.

Lemma acquire_enter_ok S c l s' :
  spin_ok S -> pcs S !! c = Some Running -> acquire_enter c l (sm S) = Ret tt s' ->
  spin_ok (mkLsys s' (<[c := Spinning l]> (pcs S))).
Proof.
  intros I Hc Hr. destruct (pwp_run _ _ _ _ _ Hr (acquire_enter_effect c l S I)) as (p & k & p' & Hp & Hk & _ & Hn & Hi & ->).
  unfold set_cpus. rewrite <- (list_insert_id (locks (sm S)) l k Hk).
  eapply (spin_ok_upd S c p Running p' (Spinning l) l k k); try done; rewrite ?(list_insert_id _ l k Hk).
  - by eapply sp_flag.
  - rewrite Hn, (sp_ncli _ I c p Running Hp Hc). simpl. lia.
  - intros l' H. by apply spinning_no_window in H.
  - intros Ho. destruct (lk_cpu k) as [c'|] eqn:Hk'; [|done].
    split; [by eapply sp_owner|apply spinning_no_window].
  - intros H. by apply spinning_no_window in H.
  - intros c' y Hne Hy Hw. split; [apply spinning_no_window|].
    destruct (sp_window _ I l c' y Hy Hw) as (k0 & Hk0 & ? & ?). by simplify_eq.
Qed.

Lemma xchg_effect l s :
  pwp (xchg l) (fun r s' => exists k, locks s !! l = Some k /\ r = locked k /\
    s' = set_locks (<[l := mkSpin 1 (lk_cpu k)]> (locks s)) s) s.
Proof.
  unfold xchg. apply pwp_bind, pwp_get_lock. intros k Hk. apply pwp_bind, pwp_modify. apply pwp_ret. by exists k.
Qed.

Lemma xchg_ok S c l r s' x' :
  spin_ok S -> pcs S !! c = Some (Spinning l) -> xchg l (sm S) = Ret r s' ->
  (r = 0 /\ x' = Got l) \/ (r <> 0 /\ x' = Spinning l) ->
  spin_ok (mkLsys s' (<[c := x']> (pcs S))).
Proof.
  intros I Hc Hr Hx. destruct (pwp_run _ _ _ _ _ Hr (xchg_effect l (sm S))) as (k & Hk & -> & ->).
  destruct (lookup_lt_is_Some_2 (cpus (sm S)) c) as [p Hp].
  { rewrite <- (sp_len _ I). by eapply lookup_lt_Some. }
  unfold set_locks. rewrite <- (list_insert_id (cpus (sm S)) c p Hp).
  assert (Hpend : pending x' = 1) by (destruct Hx as [[_ ->]|[_ ->]]; done).
  assert (Hfree : locked k = 0 -> lk_cpu k = None).
  { intros Hz. destruct (lk_cpu k) as [c'|] eqn:Hk'; [|done]. destruct (sp_owner _ I l k c' Hk Hk'). congruence. }
  eapply (spin_ok_upd S c p (Spinning l) p x' l k); try done; simpl; rewrite ?(list_insert_id _ c p Hp).
  - by right.
  - rewrite (owned_insert_same c _ l k) by done. rewrite Hpend. by apply (sp_ncli _ I c p (Spinning l)).
  - by eapply sp_intr.
  - intros l' Hw. destruct Hx as [[_ ->]|[_ ->]]; [by destruct Hw as [[= <-]|]|by apply spinning_no_window in Hw].
  - intros Ho. split; [done|]. destruct Hx as [[Hz ->]|[_ ->]]; [|apply spinning_no_window]. by apply Hfree in Hz.
  - intros Hw. split; [done|]. destruct Hx as [[Hz ->]|[_ ->]]; [by apply Hfree|by apply spinning_no_window in Hw].
  - intros c' y Hne Hy Hw. destruct (sp_window _ I l c' y Hy Hw) as (k0 & Hk0 & Hl & Hn). rewrite Hk in Hk0. injection Hk0 as <-.
    split; [|done]. destruct Hx as [[Hz _]|[_ ->]]; [congruence|apply spinning_no_window].
Qed.

Lemma acquire_exit_effect c l s :
  pwp (acquire_exit c l) (fun _ s' => exists k, locks s !! l = Some k /\
    s' = set_locks (<[l := mkSpin (locked k) (Some c)]> (locks s)) s) s.
Proof.
  unfold acquire_exit. apply pwp_bind, pwp_mycpu. intros _ _ _.
  apply pwp_bind, pwp_get_lock. intros k Hk. apply pwp_modify. by exists k.
Qed.

Lemma acquire_exit_ok S c l s' :
  spin_ok S -> pcs S !! c = Some (Got l) -> acquire_exit c l (sm S) = Ret tt s' ->
  spin_ok (mkLsys s' (<[c := Running]> (pcs S))).
Proof.
  intros I Hc Hr. destruct (pwp_run _ _ _ _ _ Hr (acquire_exit_effect c l (sm S))) as (k & Hk & ->). destruct (sp_window _ I l c _ Hc ltac:(by left)) as (k0 & Hk0 & Hl & Hn).
  rewrite Hk in Hk0. injection Hk0 as <-.
  destruct (lookup_lt_is_Some_2 (cpus (sm S)) c) as [p Hp].
  { rewrite <- (sp_len _ I). by eapply lookup_lt_Some. }
  unfold set_locks. rewrite <- (list_insert_id (cpus (sm S)) c p Hp).
  eapply (spin_ok_upd S c p (Got l) p Running l k); try done; simpl; rewrite ?(list_insert_id _ c p Hp).
  - intros c' Hne. rewrite Hn. split; congruence.
  - by right.
  - rewrite (owned_gain c _ l k) by (done || congruence). rewrite (sp_ncli _ I c p (Got l) Hp Hc). simpl. lia.
  - by eapply sp_intr.
  - intros l' H. by apply running_no_window in H.
  - intros _. split; [done|apply running_no_window].
  - intros H. by apply running_no_window in H.
  - intros c' y Hne Hy Hw. destruct Hne. eapply (sp_once _ I); [done|done|done|by left].
Qed.

Lemma release_enter_effect c l S :
  spin_ok S ->
  pwp (release_enter c l) (fun _ s' => exists p k p', cpus (sm S) !! c = Some p /\ locks (sm S) !! l = Some k /\
    lk_cpu k = Some c /\ ncli p' = ncli p /\ intr p' = intr p /\
    s' = mkSmp (<[c := p']> (cpus (sm S))) (<[l := mkSpin (locked k) None]> (locks (sm S)))) (sm S).
Proof.
  intros I. unfold release_enter. apply pwp_bind. eapply pwp_mono; [apply holding_effect|].
  - intros p Hp. by eapply sp_intr.
  - intros p Hp. by eapply spin_ok_pos.
  - cbn beta. intros r s1 (p & k & p' & Hp & Hk & -> & Hn & Hi & ->). case_if Hh; [apply pwp_panic|].
    apply negb_false_iff, andb_true_iff in Hh as [_ Hh%bool_decide_eq_true].
    apply pwp_bind, pwp_get_lock. simpl. intros k0 Hk0. rewrite Hk in Hk0. injection Hk0 as <-.
    apply pwp_modify. by exists p, k, p'.
Qed.

Lemma release_enter_ok S c l s' :
  spin_ok S -> pcs S !! c = Some Running -> release_enter c l (sm S) = Ret tt s' ->
  spin_ok (mkLsys s' (<[c := Releasing l]> (pcs S))).
Proof.
  intros I Hc Hr. pose proof (pwp_run _ _ _ _ _ Hr (release_enter_effect c l S I)) as E.
  destruct E as (p & k & p' & Hp & Hk & Ho & Hn & Hi & ->). destruct (sp_owner _ I l k c Hk Ho) as [Hl Hw].
  eapply (spin_ok_upd S c p Running p' (Releasing l) l k); try done; simpl.
  - intros c' Hne. rewrite Ho. split; congruence.
  - by right.
  - rewrite Hn, (sp_ncli _ I c p Running Hp Hc). simpl.
    rewrite (owned_lose c (locks (sm S)) l k (mkSpin (locked k) None)) by done. lia.
  - rewrite Hn, Hi. by eapply sp_intr.
  - by intros l' [[=]|[= <-]].
  - intros c' y Hne Hy Hin. by destruct (Hw c' y Hy).
Qed.

Lemma release_exit_effect c l s :
  pwp (release_exit c l) (fun _ s' => exists p k, cpus s !! c = Some p /\ locks s !! l = Some k /\
    s' = mkSmp (<[c := popped p]> (cpus s)) (<[l := mkSpin 0 (lk_cpu k)]> (locks s))) s.
Proof.
  unfold release_exit. apply pwp_bind, pwp_get_lock. intros k Hk. apply pwp_bind, pwp_modify. simpl.
  eapply pwp_mono; [apply popcli_effect|]. cbn beta. simpl. intros [] s1 (p & Hp & _ & _ & ->). by exists p, k.
Qed.

Lemma release_exit_ok S c l s' :
  spin_ok S -> pcs S !! c = Some (Releasing l) -> release_exit c l (sm S) = Ret tt s' ->
  spin_ok (mkLsys s' (<[c := Running]> (pcs S))).
Proof.
  intros I Hc Hr. pose proof (pwp_run _ _ _ _ _ Hr (release_exit_effect c l (sm S))) as E.
  destruct E as (p & k & Hp & Hk & ->). destruct (sp_window _ I l c _ Hc ltac:(by right)) as (k0 & Hk0 & Hl & Hn).
  rewrite Hk in Hk0. injection Hk0 as <-. pose proof (sp_ncli _ I c p _ Hp Hc) as Hcnt.
  eapply (spin_ok_upd S c p (Releasing l) (popped p) Running l k); try done; simpl.
  - by left.
  - rewrite (owned_insert_same c _ l k) by done. simpl in Hcnt. lia.
  - intros Hpos. destruct (Z.eqb_spec (ncli p) 1); [lia|done].
  - intros l' H. by apply running_no_window in H.
  - intros H. by apply running_no_window in H.
  - intros c' y Hne Hy Hw. destruct Hne. eapply (sp_once _ I); [done|done|done|by right].
Qed.

Lemma lstep_ok S S' : spin_ok S -> lstep S S' -> spin_ok S'.
Proof.
  intros I Hst. destruct Hst as [c l s ps s' Hc Hr|c l s ps r s' Hc Hr Hz|c l s ps s' Hc Hr|c l s ps s' Hc Hr|c l s ps s' Hc Hr|c l s ps s' Hc Hr].
  - by apply (acquire_enter_ok (mkLsys s ps) c l).
  - rewrite <- (list_insert_id ps c _ Hc). apply (xchg_ok (mkLsys s ps) c l r); auto.
  - apply (xchg_ok (mkLsys s ps) c l 0); auto.
  - by apply (acquire_exit_ok (mkLsys s ps) c l).
  - by apply (release_enter_ok (mkLsys s ps) c l).
  - by apply (release_exit_ok (mkLsys s ps) c l).
Qed.

Lemma lreach_ok S0 S : spin_ok S0 -> lreach S0 S -> spin_ok S.
Proof. intros H0 Hr. induction Hr; [done|]. by eapply lstep_ok. Qed.

(** ** Mutual exclusion *)

(** C14: whatever the CPUs do with [acquire] and [release], a lock is held by
    one CPU at a time, from its exchange to the store that frees the lock, and
    that CPU has its interrupts off for all of it. *)
Theorem spinlock_mutual_exclusion S0 S l c :
  spin_ok S0 -> lreach S0 S -> has_lock S c l ->
  (forall c', has_lock S c' l -> c' = c) /\
  exists p, cpus (sm S) !! c = Some p /\ 1 <= ncli p /\ intr p = false.
Proof.
  intros H0 Hr Hh. pose proof (lreach_ok S0 S H0 Hr) as I. split.
  - intros c' Hh'. destruct Hh as [(x & Hx & Hw)|(k & Hk & Ho)], Hh' as [(x' & Hx' & Hw')|(k' & Hk' & Ho')].
    + by eapply (sp_once _ I).
    + destruct (sp_owner _ I l k' c' Hk' Ho') as [_ Hn]. by destruct (Hn c x Hx).
    + destruct (sp_owner _ I l k c Hk Ho) as [_ Hn]. by destruct (Hn c' x' Hx').
    + congruence.
  - assert (Hc : exists p x, cpus (sm S) !! c = Some p /\ pcs S !! c = Some x /\ 1 <= ncli p).
    { destruct Hh as [(x & Hx & Hw)|(k & Hk & Ho)].
      - destruct (lookup_lt_is_Some_2 (cpus (sm S)) c) as [p Hp]; [rewrite <- (sp_len _ I); by eapply lookup_lt_Some|].
        exists p, x. split_and!; [done..|]. rewrite (sp_ncli _ I c p x Hp Hx). destruct Hw as [->| ->]; simpl; lia.
      - destruct (sp_range _ I l k c Hk Ho) as [p Hp].
        destruct (lookup_lt_is_Some_2 (pcs S) c) as [x Hx]; [rewrite (sp_len _ I); by eapply lookup_lt_Some|].
        exists p, x. split_and!; [done..|]. rewrite (sp_ncli _ I c p x Hp Hx).
        rewrite (owned_lose c (locks (sm S)) l k (mkSpin 0 None)) by done. destruct x; simpl; lia. }
    destruct Hc as (p & x & Hp & _ & Hn). exists p. split_and!; [done..|]. eapply (sp_intr _ I); [done|lia].
Qed.

(** Two CPUs and one free lock; the first takes the lock. *)
Definition demo_lsys : lsys :=
  mkLsys (mkSmp [mkCpu 0 false true; mkCpu 0 false true] [mkSpin 0 None]) [Running; Running].
Definition demo_taken : lsys :=
  mkLsys (mkSmp [mkCpu 1 true false; mkCpu 0 false true] [mkSpin 1 (Some 0%nat)]) [Running; Running].

Lemma demo_lsys_ok : spin_ok demo_lsys.
Proof.
  split; simpl.
  - done.
  - intros [|l] k H; simplify_eq/=; by left.
  - intros [|l] k c H; simplify_eq/=; done.
  - intros [|l] k c H; simplify_eq/=; done.
  - intros l [|[|c]] x H [Hw|Hw]; simplify_eq/=.
  - intros l [|[|c]] c' x x' H _ [Hw|Hw]; simplify_eq/=.
  - intros [|[|c]] p x Hp Hx; simplify_eq/=; done.
  - intros [|[|c]] p Hp; simplify_eq/=; lia.
Qed.

Lemma demo_taken_reach : lreach demo_lsys demo_taken.
Proof.
  eapply lr_step; [eapply lr_step; [eapply lr_step; [apply lr_refl|]|]|].
  - eapply (ls_enter 0 0); reflexivity.
  - eapply (ls_take 0 0); reflexivity.
  - eapply (ls_record 0 0); reflexivity.
Qed.

Lemma spinlock_mutual_exclusion_witness :
  (forall c', has_lock demo_taken c' 0 -> c' = 0%nat) /\
  exists p, cpus (sm demo_taken) !! 0%nat = Some p /\ 1 <= ncli p /\ intr p = false.
Proof.
  apply (spinlock_mutual_exclusion demo_lsys demo_taken 0 0 demo_lsys_ok demo_taken_reach).
  right. by exists (mkSpin 1 (Some 0%nat)).
Defined.
