(* ===== verification/Sleeplock.v ===== *)
(** * Sleep locks (src/sleeplock.c)

    The operations on a lock that lives in a larger state, as the process that
    runs the code sees them; and the system of several processes that use one
    lock, in which a process that finds the lock taken sleeps and [releasesleep]
    wakes all that sleep. *)

From S2P Require Import Prelude.

Open Scope Z_scope.

Record sleeplock := mkSleep { sl_locked : Z; sl_pid : Z }.

Definition initsleeplock : sleeplock := mkSleep 0 0.

(** What the turns of the loop of [acquiresleep] and [releasesleep] do to the
    lock, under its spin lock. *)
Definition sl_try (pid : Z) (lk : sleeplock) : option sleeplock :=
  if nz (sl_locked lk) then None else Some (mkSleep 1 pid).
Definition sl_free (lk : sleeplock) : sleeplock := mkSleep 0 0.
Definition sl_holding (pid : Z) (lk : sleeplock) : bool := nz (sl_locked lk) && (sl_pid lk =? pid).

(** The lock at [get] in a larger state.  A process that finds it taken sleeps
    until another process releases it; seen from this process alone, the call
    does not return. *)
Section ops.
Context {S : Type} (get : S -> option sleeplock) (set : sleeplock -> S -> S) (mypid : S -> Z).

Definition acquiresleep : M S unit :=
  fun s =>
    match get s with
    | None => Fault "sleeplock"
    | Some lk => match sl_try (mypid s) lk with None => NoFuel | Some lk' => Ret tt (set lk' s) end
    end.

Definition releasesleep : M S unit :=
  fun s => match get s with None => Fault "sleeplock" | Some lk => Ret tt (set (sl_free lk) s) end.

Definition holdingsleep : M S bool :=
  fun s => match get s with None => Fault "sleeplock" | Some lk => Ret (sl_holding (mypid s) lk) s end.

End ops.

(** ** Several processes *)

(** A process is outside, in the loop, asleep on the lock, or has it. *)
Inductive sl_state := Out | Want | Asleep | Hold.

#[export] Instance sl_state_eq_dec : EqDecision sl_state.
Proof. solve_decision. Defined.

Record sl_sys := mkSlSys { sl_lock : sleeplock; sl_procs : list sl_state }.

(** The pid of the process in slot [i]. *)
Definition pid_of (i : nat) : Z := Z.of_nat i + 1.

Definition sl_wake (x : sl_state) : sl_state := if decide (x = Asleep) then Want else x.

Inductive sl_step : sl_sys -> sl_sys -> Prop :=
  | sl_enter i lk ps : ps !! i = Some Out ->
      sl_step (mkSlSys lk ps) (mkSlSys lk (<[i := Want]> ps))
  | sl_sleep i lk ps : ps !! i = Some Want -> sl_try (pid_of i) lk = None ->
      sl_step (mkSlSys lk ps) (mkSlSys lk (<[i := Asleep]> ps))
  | sl_take i lk lk' ps : ps !! i = Some Want -> sl_try (pid_of i) lk = Some lk' ->
      sl_step (mkSlSys lk ps) (mkSlSys lk' (<[i := Hold]> ps))
  | sl_release i lk ps : ps !! i = Some Hold -> sl_holding (pid_of i) lk = true ->
      sl_step (mkSlSys lk ps) (mkSlSys (sl_free lk) (sl_wake <$> <[i := Out]> ps))
  | sl_kill i lk ps : ps !! i = Some Asleep ->
      sl_step (mkSlSys lk ps) (mkSlSys lk (<[i := Want]> ps)).

Inductive sl_reach (S0 : sl_sys) : sl_sys -> Prop :=
  | slr_refl : sl_reach S0 S0
  | slr_step S S' : sl_reach S0 S -> sl_step S S' -> sl_reach S0 S'.

(** The lock is taken exactly when a process has it, which it names, and
    nobody sleeps on a free lock. *)
Record sl_ok (S : sl_sys) : Prop := {
  sk_free : sl_locked (sl_lock S) = 0 -> forall i x, sl_procs S !! i = Some x -> x <> Hold /\ x <> Asleep;
  sk_taken : sl_locked (sl_lock S) <> 0 ->
    exists i, sl_procs S !! i = Some Hold /\ sl_pid (sl_lock S) = pid_of i;
  sk_once : forall i j, sl_procs S !! i = Some Hold -> sl_procs S !! j = Some Hold -> i = j;
}.

(** * Lemmas *)

Lemma lookup_upd_cases {A} (l : list A) i j x y :
  <[i := x]> l !! j = Some y -> (j = i /\ y = x) \/ (j <> i /\ l !! j = Some y).
Proof. intros H. apply list_lookup_insert_Some in H. naive_solver. Qed.

Lemma sl_upd_ok lk ps i x x' :
  sl_ok (mkSlSys lk ps) -> ps !! i = Some x -> x <> Hold -> x' <> Hold ->
  (x' = Asleep -> sl_locked lk <> 0) -> sl_ok (mkSlSys lk (<[i := x']> ps)).
Proof.
  intros [H1 H2 H3] Hx Hnx Hnx' Ha. split; simpl in *.
  - intros Hf j y [[-> ->]|[_ Hj]]%lookup_upd_cases; [|by eapply H1]. split; [done|]. intros ->. by apply Ha.
  - intros Ht. destruct (H2 Ht) as (j & Hj & Hp). exists j. split; [|done].
    rewrite list_lookup_insert_ne; [done|]. congruence.
  - intros j k [[-> ?]|[_ Hj]]%lookup_upd_cases [[-> ?]|[_ Hk]]%lookup_upd_cases; try done; [congruence..|by apply H3].
Qed.

Lemma sl_step_ok S S' : sl_ok S -> sl_step S S' -> sl_ok S'.
Proof.
  intros I Hst. destruct Hst as [i lk ps Hi|i lk ps Hi Ht|i lk lk' ps Hi Ht|i lk ps Hi Hh|i lk ps Hi].
  - by eapply sl_upd_ok.
  - eapply sl_upd_ok; try done. intros _. unfold sl_try in Ht. destruct (nz _) eqn:Hz; [|done]. by apply nz_true.
  - unfold sl_try in Ht. destruct (nz (sl_locked lk)) eqn:Hz; [done|]. injection Ht as <-. apply nz_false in Hz.
    pose proof (sk_free _ I Hz) as Hf. pose proof (lookup_lt_Some _ _ _ Hi) as Hlt. split; simpl in *.
    + done.
    + intros _. exists i. by rewrite list_lookup_insert_eq.
    + intros j k [[-> _]|[_ Hj]]%lookup_upd_cases [[-> _]|[_ Hk]]%lookup_upd_cases; [done|..].
      * by destruct (Hf k Hold Hk).
      * by destruct (Hf j Hold Hj).
      * by destruct (Hf j Hold Hj).
  - assert (Hw : forall j y, (sl_wake <$> <[i := Out]> ps) !! j = Some y -> y <> Hold /\ y <> Asleep).
    { intros j y. rewrite list_lookup_fmap. destruct (_ !! j) as [z|] eqn:Hz; [|done]. intros [= <-].
      apply lookup_upd_cases in Hz as [[-> ->]|[Hne Hz]]; [done|]. unfold sl_wake.
      case_decide; [done|]. split; [|done]. intros ->. by apply Hne, (sk_once _ I). }
    split; simpl; [done|done|]. intros j k Hj. by destruct (Hw j Hold Hj).
  - by eapply sl_upd_ok.
Qed.

Lemma sl_reach_ok S0 S : sl_ok S0 -> sl_reach S0 S -> sl_ok S.
Proof. intros H0 Hr. induction Hr; [done|]. by eapply sl_step_ok. Qed.

(** ** What a sleep lock promises *)

(** C31: in every reachable system at most one process has the sleep lock, the
    lock names it, and no process sleeps on a lock that is free: no wakeup is
    lost. *)
Theorem sleeplock_safe S0 S :
  sl_ok S0 -> sl_reach S0 S ->
  (forall i j, sl_procs S !! i = Some Hold -> sl_procs S !! j = Some Hold -> i = j) /\
  (forall i, sl_procs S !! i = Some Hold -> sl_holding (pid_of i) (sl_lock S) = true) /\
  (forall i, sl_procs S !! i = Some Asleep -> exists j, sl_procs S !! j = Some Hold).
Proof.
  intros H0 Hr. pose proof (sl_reach_ok S0 S H0 Hr) as [H1 H2 H3]. split; [done|].
  destruct (decide (sl_locked (sl_lock S) = 0)) as [Hz|Hz].
  - split; intros i Hi; by destruct (H1 Hz i _ Hi).
  - destruct (H2 Hz) as (j & Hj & Hp). split.
    + intros i Hi. rewrite (H3 i j Hi Hj). unfold sl_holding. by rewrite (proj2 (nz_true _) Hz), Hp, Z.eqb_refl.
    + intros i _. by exists j.
Qed.

Lemma sleeplock_safe_witness :
  let S := mkSlSys (mkSleep 1 1) [Hold; Asleep] in
  (forall i j, sl_procs S !! i = Some Hold -> sl_procs S !! j = Some Hold -> i = j) /\
  (forall i, sl_procs S !! i = Some Hold -> sl_holding (pid_of i) (sl_lock S) = true) /\
  (forall i, sl_procs S !! i = Some Asleep -> exists j, sl_procs S !! j = Some Hold).
Proof.
  cbv zeta. apply (sleeplock_safe (mkSlSys initsleeplock [Out; Out]) (mkSlSys (mkSleep 1 1) [Hold; Asleep])).
  - split; simpl; [|done|].
    + intros _ [|[|i]] x H; simplify_eq/=; done.
    + intros [|[|i]] j H; simplify_eq/=.
  - eapply slr_step; [eapply slr_step; [eapply slr_step; [eapply slr_step; [apply slr_refl|]|]|]|].
    + by apply (sl_enter 0).
    + by apply (sl_take 0).
    + by apply (sl_enter 1).
    + by apply (sl_sleep 1).
Defined.
