(* ===== verification/Bytes.v ===== *)
(** * Blocks of bytes

    A disk block, and the structures laid out in it: little-endian integers at
    byte offsets, and [memmove] into and out of a block. *)

From S2P Require Import Prelude.

Open Scope Z_scope.

Abbreviation bytes := (list Z).

(** The byte at an offset. *)
Definition rd8 (d : bytes) (off : nat) : Z := default 0 (d !! off).

(** Integers of 16 and 32 bits. *)
Definition rd16 (d : bytes) (off : nat) : Z := rd8 d off + 256 * rd8 d (off + 1).
Definition rd32 (d : bytes) (off : nat) : Z := rd16 d off + 65536 * rd16 d (off + 2).

Definition le16 (v : Z) : bytes := [v mod 256; (v / 256) mod 256].
Definition le32 (v : Z) : bytes := le16 v ++ le16 (v / 65536).

(** [memmove(d + off, src, n)], with the [n] bytes of [src]. *)
Definition splice (d : bytes) (off : nat) (src : bytes) : bytes := list_inserts off src d.

(** [memmove(dst, d + off, n)]. *)
Definition slice (d : bytes) (off n : nat) : bytes := take n (drop off d).

Definition wr8 (d : bytes) (off : nat) (v : Z) : bytes := <[off := v]> d.
Definition wr16 (d : bytes) (off : nat) (v : Z) : bytes := splice d off (le16 v).
Definition wr32 (d : bytes) (off : nat) (v : Z) : bytes := splice d off (le32 v).

Definition is_byte (x : Z) : Prop := 0 <= x < 256.

(** * Lemmas *)

Lemma length_splice d off src : length (splice d off src) = length d.
Proof. apply length_inserts. Qed.

Lemma length_wr32 d off v : length (wr32 d off v) = length d.
Proof. apply length_splice. Qed.

Lemma length_wr16 d off v : length (wr16 d off v) = length d.
Proof. apply length_splice. Qed.

Lemma length_wr8 d off v : length (wr8 d off v) = length d.
Proof. apply length_insert. Qed.

Lemma length_le32 v : length (le32 v) = 4%nat.
Proof. done. Qed.

Lemma length_slice d off n : (off + n <= length d)%nat -> length (slice d off n) = n.
Proof. intros H. unfold slice. rewrite length_take, length_drop. lia. Qed.

Lemma lookup_splice_in d off src i x :
  (off + length src <= length d)%nat -> src !! i = Some x -> splice d off src !! (off + i)%nat = Some x.
Proof.
  intros Hl Hx. unfold splice. pose proof (lookup_lt_Some _ _ _ Hx).
  rewrite list_lookup_inserts by lia. by replace (off + i - off)%nat with i by lia.
Qed.

Lemma lookup_splice_out d off src j :
  (j < off \/ off + length src <= j)%nat -> splice d off src !! j = d !! j.
Proof. intros [H|H]; unfold splice; [by apply list_lookup_inserts_lt|by apply list_lookup_inserts_ge]. Qed.

Lemma slice_splice d off src :
  (off + length src <= length d)%nat -> slice (splice d off src) off (length src) = src.
Proof.
  intros Hl. apply list_eq_same_length with (length src).
  - done.
  - rewrite length_slice; [done|]. by rewrite length_splice.
  - intros i x y Hi Hx Hy. unfold slice in Hx. rewrite lookup_take_lt, lookup_drop in Hx by done.
    rewrite (lookup_splice_in _ _ _ _ y) in Hx by done. congruence.
Qed.

Lemma slice_splice_ne d off src off' n :
  (off' + n <= off \/ off + length src <= off')%nat -> slice (splice d off src) off' n = slice d off' n.
Proof.
  intros H. apply list_eq. intros i. unfold slice. rewrite !lookup_take. case_decide; [|done].
  rewrite !lookup_drop. apply lookup_splice_out. lia.
Qed.

Lemma rd8_splice_out d off src j :
  (j < off \/ off + length src <= j)%nat -> rd8 (splice d off src) j = rd8 d j.
Proof. intros H. unfold rd8. by rewrite lookup_splice_out. Qed.

Lemma rd8_splice_in d off src i x :
  (off + length src <= length d)%nat -> src !! i = Some x -> rd8 (splice d off src) (off + i) = x.
Proof. intros Hl Hx. unfold rd8. by rewrite (lookup_splice_in _ _ _ _ x). Qed.

Lemma rd8_splice_hd d off x src :
  (off + length (x :: src) <= length d)%nat -> rd8 (splice d off (x :: src)) off = x.
Proof.
  intros Hl. pose proof (rd8_splice_in d off (x :: src) 0 x Hl eq_refl) as H. by rewrite Nat.add_0_r in H.
Qed.

Lemma rd16_wr16_eq d off v :
  (off + 2 <= length d)%nat -> 0 <= v < 65536 -> rd16 (wr16 d off v) off = v.
Proof.
  intros Hl Hv. unfold rd16, wr16, le16.
  rewrite rd8_splice_hd, (rd8_splice_in _ _ _ 1 ((v / 256) mod 256)) by (done || simpl; lia).
  dlia.
Qed.

Lemma rd32_wr32_eq d off v : (off + 4 <= length d)%nat -> is_u32 v -> rd32 (wr32 d off v) off = v.
Proof.
  intros Hl Hv. unfold is_u32 in Hv. unfold rd32, rd16, wr32, le32, le16. cbn [app].
  replace (off + 2 + 1)%nat with (off + 3)%nat by lia.
  rewrite rd8_splice_hd, (rd8_splice_in _ _ _ 1 ((v / 256) mod 256)),
    (rd8_splice_in _ _ _ 2 ((v / 65536) mod 256)), (rd8_splice_in _ _ _ 3 ((v / 65536 / 256) mod 256)) by (done || simpl; lia).
  dlia.
Qed.

Lemma rd32_splice_out d off src j :
  (j + 4 <= off \/ off + length src <= j)%nat -> rd32 (splice d off src) j = rd32 d j.
Proof. intros H. unfold rd32, rd16. rewrite !rd8_splice_out by lia. done. Qed.

Lemma rd16_splice_out d off src j :
  (j + 2 <= off \/ off + length src <= j)%nat -> rd16 (splice d off src) j = rd16 d j.
Proof. intros H. unfold rd16. rewrite !rd8_splice_out by lia. done. Qed.

Lemma rd32_wr32_ne d off v j :
  (j + 4 <= off \/ off + 4 <= j)%nat -> rd32 (wr32 d off v) j = rd32 d j.
Proof. intros H. by apply rd32_splice_out. Qed.

Lemma splice_all d src : length src = length d -> splice d 0 src = src.
Proof.
  intros Hl. apply list_eq. intros i. destruct (decide (i < length src)%nat) as [Hi|Hi].
  - destruct (lookup_lt_is_Some_2 src i Hi) as [x Hx]. rewrite Hx. apply (lookup_splice_in d 0 src i x); [lia|done].
  - rewrite lookup_splice_out, !lookup_ge_None_2 by lia. done.
Qed.

Lemma rd8_byte d off : Forall is_byte d -> is_byte (rd8 d off).
Proof.
  intros Hd. unfold rd8. destruct (d !! off) as [x|] eqn:Hx; [|done]. by eapply Forall_lookup_1.
Qed.

Lemma rd32_range d off : Forall is_byte d -> is_u32 (rd32 d off).
Proof.
  intros Hd. unfold rd32, rd16, is_u32.
  pose proof (rd8_byte d off Hd). pose proof (rd8_byte d (off + 1) Hd).
  pose proof (rd8_byte d (off + 2) Hd). pose proof (rd8_byte d (off + 2 + 1) Hd). unfold is_byte in *. lia.
Qed.

Lemma Forall_splice (P : Z -> Prop) d off src : Forall P d -> Forall P src -> Forall P (splice d off src).
Proof.
  apply Forall_inserts.
Qed.

Lemma le32_bytes v : Forall is_byte (le32 v).
Proof. repeat constructor; unfold is_byte; try apply Z.mod_pos_bound; lia. Qed.
