(* ===== verification/Dlist.v ===== *)
(** * Circular doubly linked lists

    What the pointer surgery of the buffer cache (src/bio.c) means: the links of
    a circular list, and what unlinking an element and linking one in at the
    front do to the order of the elements. *)

From S2P Require Import Prelude.

(** Consecutive elements. *)
Fixpoint pairs {A} (c : list A) : list (A * A) :=
  match c with
  | x :: c' => match c' with [] => [] | y :: _ => (x, y) :: pairs c' end
  | [] => []
  end.

(** The links of consecutive elements point at each other. *)
Definition linked (nx pv : nat -> option nat) (c : list nat) : Prop :=
  Forall (fun p => nx p.1 = Some p.2 /\ pv p.2 = Some p.1) (pairs c).

(** The circular list through [h] with the elements [l]. *)
Definition circular (nx pv : nat -> option nat) (h : nat) (l : list nat) : Prop :=
  linked nx pv (h :: l ++ [h]) /\ NoDup (h :: l).

(** * Lemmas *)

Lemma pairs_cons2 {A} (x y : A) c : pairs (x :: y :: c) = (x, y) :: pairs (y :: c).
Proof. done. Qed.

Lemma pairs_app {A} (c1 : list A) m c2 : pairs (c1 ++ m :: c2) = pairs (c1 ++ [m]) ++ pairs (m :: c2).
Proof.
  induction c1 as [|x c1 IH]; [done|]. destruct c1 as [|y c1]; [done|].
  change (pairs (x :: y :: (c1 ++ m :: c2)) = pairs (x :: y :: (c1 ++ [m])) ++ pairs (m :: c2)).
  rewrite !pairs_cons2. simpl app. f_equal. apply IH.
Qed.

Lemma linked_cons nx pv x y c :
  linked nx pv (x :: y :: c) <-> nx x = Some y /\ pv y = Some x /\ linked nx pv (y :: c).
Proof. unfold linked. rewrite pairs_cons2, Forall_cons. simpl. tauto. Qed.

Lemma linked_app nx pv c1 m c2 :
  linked nx pv (c1 ++ m :: c2) <-> linked nx pv (c1 ++ [m]) /\ linked nx pv (m :: c2).
Proof. unfold linked. by rewrite pairs_app, Forall_app. Qed.

(** Links that agree where the list uses them. *)
Lemma linked_ext nx pv nx' pv' c :
  linked nx pv c ->
  (forall x, x ∈ removelast c -> nx' x = nx x) -> (forall y, y ∈ tail c -> pv' y = pv y) ->
  linked nx' pv' c.
Proof.
  intros H Hn Hp. induction c as [|x [|y c] IH]; [by constructor..|].
  apply linked_cons in H as (H1 & H2 & H3). apply linked_cons.
  rewrite Hn by (simpl; set_solver). rewrite Hp by (simpl; set_solver). split; [done|]. split; [done|].
  apply IH; [done| |].
  - intros z Hz. apply Hn. change (removelast (x :: y :: c)) with (x :: removelast (y :: c)). set_solver.
  - intros z Hz. apply Hp. simpl in *. set_solver.
Qed.

(** The neighbours of an element. *)
Lemma around (h : nat) l1 l2 : exists c1 p n c2, h :: l1 = c1 ++ [p] /\ l2 ++ [h] = n :: c2.
Proof.
  assert (exists c p, h :: l1 = c ++ [p]) as (c & p & Hc).
  { destruct l1 as [|x l1 _] using rev_ind; [by exists [], h|]. by exists (h :: l1), x. }
  destruct l2 as [|n l2]; [by exists c, p, h, []|]. by exists c, p, n, (l2 ++ [h]).
Qed.

Lemma circular_shape nx pv h l1 b l2 c1 p n c2 :
  h :: l1 = c1 ++ [p] -> l2 ++ [h] = n :: c2 ->
  linked nx pv (h :: (l1 ++ b :: l2) ++ [h]) <->
  linked nx pv (h :: l1) /\ nx p = Some b /\ pv b = Some p /\ nx b = Some n /\ pv n = Some b /\ linked nx pv (l2 ++ [h]).
Proof.
  intros H1 H2. rewrite <- (app_assoc l1), <- app_comm_cons, (app_comm_cons l1), H1, H2, <- app_assoc.
  simpl app. rewrite linked_app, !linked_cons. tauto.
Qed.

Lemma circular_shape' nx pv h l1 l2 c1 p n c2 :
  h :: l1 = c1 ++ [p] -> l2 ++ [h] = n :: c2 ->
  linked nx pv (h :: (l1 ++ l2) ++ [h]) <->
  linked nx pv (h :: l1) /\ nx p = Some n /\ pv n = Some p /\ linked nx pv (l2 ++ [h]).
Proof.
  intros H1 H2. rewrite <- (app_assoc l1), (app_comm_cons l1), H1, H2, <- app_assoc.
  simpl app. rewrite linked_app, !linked_cons. tauto.
Qed.

Lemma circular_neighbours nx pv h l1 b l2 :
  circular nx pv h (l1 ++ b :: l2) ->
  exists p n, pv b = Some p /\ nx b = Some n /\ p ∈ h :: l1 /\ n ∈ h :: l2.
Proof.
  intros [Hl _]. destruct (around h l1 l2) as (c1 & p & n & c2 & H1 & H2).
  apply (circular_shape _ _ _ _ _ _ _ _ _ _ H1 H2) in Hl as (_ & _ & Hp & Hn & _).
  exists p, n. split_and!; [done..|rewrite H1; set_solver|].
  assert (n ∈ l2 ++ [h]) by (rewrite H2; set_solver). set_solver.
Qed.

(** [b->next->prev = b->prev; b->prev->next = b->next] takes [b] out. *)
Lemma circular_unlink nx pv nx' pv' h l1 b l2 :
  circular nx pv h (l1 ++ b :: l2) ->
  (forall p n, pv b = Some p -> nx b = Some n ->
     nx' p = Some n /\ pv' n = Some p /\
     (forall x, x <> p -> nx' x = nx x) /\ (forall y, y <> n -> pv' y = pv y)) ->
  circular nx' pv' h (l1 ++ l2).
Proof.
  intros [Hl Hn] Hu. destruct (around h l1 l2) as (c1 & p & n & c2 & H1 & H2).
  apply (circular_shape _ _ _ _ _ _ _ _ _ _ H1 H2) in Hl as (L1 & _ & Hp & Hb & _ & L2).
  destruct (Hu p n Hp Hb) as (N1 & P1 & N2 & P2).
  assert (Hin1 : p ∈ h :: l1) by (rewrite H1; set_solver).
  assert (Hin2 : n ∈ l2 ++ [h]) by (rewrite H2; set_solver).
  apply NoDup_cons in Hn as [Hh Hn]. apply NoDup_app in Hn as (Hn1 & Hd & [Hb2 Hn2]%NoDup_cons).
  split; [|apply NoDup_cons; split; [set_solver|]; apply NoDup_app; set_solver].
  apply (circular_shape' _ _ _ _ _ _ _ _ _ H1 H2). split_and!; [|done|done|].
  - eapply linked_ext; [done|..].
    + intros x Hx. apply N2. rewrite H1, removelast_last in Hx. intros ->.
      assert (NoDup (c1 ++ [p])) as Hnd by (rewrite <- H1; apply NoDup_cons; set_solver).
      apply NoDup_app in Hnd. set_solver.
    + simpl. intros y Hy. apply P2. set_solver.
  - eapply linked_ext; [done|..].
    + rewrite removelast_last. intros x Hx. apply N2. set_solver.
    + intros y Hy. apply P2. rewrite H2 in Hy. simpl in Hy. intros ->.
      assert (NoDup (n :: c2)) as Hnd by (rewrite <- H2; apply NoDup_app; split_and!; [done|set_solver|apply NoDup_singleton]).
      apply NoDup_cons in Hnd. set_solver.
Qed.

(** [b->next = h.next; b->prev = h; h.next->prev = b; h.next = b] puts [b] in
    front. *)
Lemma circular_push nx pv nx' pv' h l b :
  circular nx pv h l -> b ∉ h :: l ->
  (forall n, nx h = Some n ->
     nx' b = Some n /\ pv' b = Some h /\ pv' n = Some b /\ nx' h = Some b /\
     (forall x, x <> b -> x <> h -> nx' x = nx x) /\ (forall y, y <> b -> y <> n -> pv' y = pv y)) ->
  circular nx' pv' h (b :: l).
Proof.
  intros [Hl Hn] Hb Hu. destruct (around h [] l) as (c1 & p & n & c2 & H1 & H2).
  assert (c1 = [] /\ p = h) as [-> ->].
  { destruct c1 as [|? [|]]; by simplify_eq/=. }
  apply (circular_shape' _ _ _ [] _ _ _ _ _ H1 H2) in Hl as (_ & Hh & _ & L2).
  destruct (Hu n Hh) as (E1 & E2 & E3 & E4 & N2 & P2).
  assert (n ∈ l ++ [h]) by (rewrite H2; set_solver).
  split; [|apply NoDup_cons; split; [|apply NoDup_cons]; apply NoDup_cons in Hn; set_solver].
  apply (circular_shape _ _ _ [] _ _ _ _ _ _ H1 H2). split_and!; try done; [by constructor|].
  apply NoDup_cons in Hn as [Hhl Hnl]. eapply linked_ext; [done|..].
  - rewrite removelast_last. intros x Hx. apply N2; set_solver.
  - intros y Hy. assert (y ∈ l ++ [h]) by (rewrite H2 in *; simpl in Hy; set_solver).
    apply P2; [set_solver|]. rewrite H2 in Hy. simpl in Hy. intros ->.
    assert (NoDup (n :: c2)) as Hnd by (rewrite <- H2; apply NoDup_app; split_and!; [done|set_solver|apply NoDup_singleton]).
    apply NoDup_cons in Hnd. set_solver.
Qed.

(** The pointers of a list, followed from the front and from the back. *)
Lemma circular_next nx pv h l1 l2 :
  circular nx pv h (l1 ++ l2) ->
  forall x, last (h :: l1) = Some x -> nx x = head (l2 ++ [h]).
Proof.
  intros [Hl _] x Hx. destruct (around h l1 l2) as (c1 & p & n & c2 & H1 & H2).
  apply (circular_shape' _ _ _ _ _ _ _ _ _ H1 H2) in Hl as (_ & Hp & _).
  rewrite H1, last_snoc in Hx. rewrite H2. by simplify_eq/=.
Qed.

Lemma circular_prev nx pv h l1 l2 :
  circular nx pv h (l1 ++ l2) ->
  forall x, head (l2 ++ [h]) = Some x -> pv x = last (h :: l1).
Proof.
  intros [Hl _] x Hx. destruct (around h l1 l2) as (c1 & p & n & c2 & H1 & H2).
  apply (circular_shape' _ _ _ _ _ _ _ _ _ H1 H2) in Hl as (_ & _ & Hp & _).
  rewrite H2 in Hx. rewrite H1, last_snoc. by simplify_eq/=.
Qed.

(** Links that agree on the list's elements. *)
Lemma circular_ext nx pv nx' pv' h l :
  circular nx pv h l -> (forall x, x ∈ h :: l -> nx' x = nx x /\ pv' x = pv x) -> circular nx' pv' h l.
Proof.
  intros [Hl Hn] He. split; [|done]. eapply linked_ext; [done|..].
  - intros x Hx. rewrite app_comm_cons, removelast_last in Hx. by apply He.
  - simpl. intros y Hy. apply He. set_solver.
Qed.
