(* ===== verification/Bio.v ===== *)
(** * The buffer cache and the disk (src/bio.c, src/buf.h, src/memide.c)

    Buffers are numbered; number [HEAD] is the list head of the cache, a buffer
    that holds no block.  The disk is the memory disk of memide.c, as the list
    of its blocks.  The code is seen from one process: a sleep lock that is
    held by another process does not occur.

    [bc_rep s v lk dt] abstracts the cache to what its clients see: the
    contents [v] of the blocks, the map [lk] from the blocks this process has
    locked to their buffers, and the set [dt] of the blocks that are pinned in
    the cache because they are newer than the disk. *)

From S2P Require Import Prelude.
From S2P Require Import Bytes.
From S2P Require Import Sleeplock.
From S2P Require Import Dlist.

Open Scope Z_scope.

Definition BSIZE : nat := 512.
Definition NBUF : nat := 30.
Definition HEAD : nat := NBUF.

Definition B_VALID : Z := 2.
Definition B_DIRTY : Z := 4.

Record buf := mkBuf {
  b_flags : Z;
  b_dev : Z;
  b_blockno : Z;
  b_lock : sleeplock;
  b_refcnt : Z;
  b_prev : nat;
  b_next : nat;
  b_data : bytes;
}.

Definition set_flags (v : Z) (x : buf) : buf :=
  mkBuf v (b_dev x) (b_blockno x) (b_lock x) (b_refcnt x) (b_prev x) (b_next x) (b_data x).
Definition set_lock (v : sleeplock) (x : buf) : buf :=
  mkBuf (b_flags x) (b_dev x) (b_blockno x) v (b_refcnt x) (b_prev x) (b_next x) (b_data x).
Definition set_refcnt (v : Z) (x : buf) : buf :=
  mkBuf (b_flags x) (b_dev x) (b_blockno x) (b_lock x) v (b_prev x) (b_next x) (b_data x).
Definition set_prev (v : nat) (x : buf) : buf :=
  mkBuf (b_flags x) (b_dev x) (b_blockno x) (b_lock x) (b_refcnt x) v (b_next x) (b_data x).
Definition set_next (v : nat) (x : buf) : buf :=
  mkBuf (b_flags x) (b_dev x) (b_blockno x) (b_lock x) (b_refcnt x) (b_prev x) v (b_data x).
Definition set_data (v : bytes) (x : buf) : buf :=
  mkBuf (b_flags x) (b_dev x) (b_blockno x) (b_lock x) (b_refcnt x) (b_prev x) (b_next x) v.

(** [writes] is a ghost: the disk writes so far, oldest first. *)
Record bcache := mkBcache {
  bufs : list buf;
  bc_lock : bool;
  mypid : Z;
  memdisk : list bytes;
  writes : list (nat * bytes);
}.

Definition set_bufs (v : list buf) (s : bcache) : bcache :=
  mkBcache v (bc_lock s) (mypid s) (memdisk s) (writes s).
Definition set_bc_lock (v : bool) (s : bcache) : bcache :=
  mkBcache (bufs s) v (mypid s) (memdisk s) (writes s).
Definition disk_write (bn : nat) (d : bytes) (s : bcache) : bcache :=
  mkBcache (bufs s) (bc_lock s) (mypid s) (<[bn := d]> (memdisk s)) (writes s ++ [(bn, d)]).

(** [*b] and an assignment to [*b]. *)
Definition bref (b : nat) : M bcache buf :=
  fun s => match bufs s !! b with Some x => Ret x s | None => Fault "buf" end.
Definition bupd (b : nat) (f : buf -> buf) : M bcache unit :=
  fun s =>
    match bufs s !! b with
    | Some x => Ret tt (set_bufs (<[b := f x]> (bufs s)) s)
    | None => Fault "buf"
    end.

Definition buf_lock_get (b : nat) (s : bcache) : option sleeplock := b_lock <$> bufs s !! b.
Definition buf_lock_set (b : nat) (lk : sleeplock) (s : bcache) : bcache :=
  set_bufs (alter (set_lock lk) b (bufs s)) s.
Definition bacquiresleep (b : nat) : M bcache unit :=
  acquiresleep (buf_lock_get b) (buf_lock_set b) mypid.
Definition breleasesleep (b : nat) : M bcache unit := releasesleep (buf_lock_get b) (buf_lock_set b).
Definition bholdingsleep (b : nat) : M bcache bool := holdingsleep (buf_lock_get b) mypid.

(** ** memide.c *)

Definition iderw (b : nat) : M bcache unit :=
  let! held := bholdingsleep b in
  if negb held then panic "iderw: buf not locked"
  else
    let! x := bref b in
    if Z.land (b_flags x) (Z.lor B_VALID B_DIRTY) =? B_VALID then panic "iderw: nothing to do"
    else if negb (b_dev x =? 1) then panic "iderw: request not for disk 1"
    else
      let! D := gets memdisk in
      if Z.of_nat (length D) <=? b_blockno x then panic "iderw: block out of range"
      else
        let p := Z.to_nat (b_blockno x) in
        do! (if nz (Z.land (b_flags x) B_DIRTY) then
               do! bupd b (set_flags (Z.land (b_flags x) (Z.lnot B_DIRTY))) in
               modify (disk_write p (b_data x))
             else bupd b (set_data (default [] (D !! p)))) in
        bupd b (fun x => set_flags (Z.lor (b_flags x) B_VALID) x).

(** ** bio.c *)

Definition binit : M bcache unit :=
  do! bupd HEAD (set_prev HEAD) in
  do! bupd HEAD (set_next HEAD) in
  mfor (seq 0 NBUF) (fun b =>
    let! h := bref HEAD in
    do! bupd b (set_next (b_next h)) in
    do! bupd b (set_prev HEAD) in
    do! bupd b (set_lock initsleeplock) in
    do! bupd (b_next h) (set_prev b) in
    bupd HEAD (set_next b)).

(** [for(b = start; b != &bcache.head; b = b->dir) if(p(b)) ...] *)
Fixpoint bscan (dir : buf -> nat) (p : buf -> bool) (fuel : nat) (b : nat) : M bcache (option nat) :=
  match fuel with
  | O => nofuel
  | S n =>
      if (b =? HEAD)%nat then ret None
      else
        let! x := bref b in
        if p x then ret (Some b) else bscan dir p n (dir x)
  end.

Definition is_block (dev blockno : Z) (x : buf) : bool := (b_dev x =? dev) && (b_blockno x =? blockno).
Definition is_unused (x : buf) : bool := (b_refcnt x =? 0) && (Z.land (b_flags x) B_DIRTY =? 0).

Definition bc_acquire : M bcache unit := lock_acquire bc_lock set_bc_lock.
Definition bc_release : M bcache unit := lock_release bc_lock set_bc_lock.

Definition bget (dev blockno : Z) : M bcache nat :=
  do! bc_acquire in
  let! h := bref HEAD in
  let! r := bscan b_next (is_block dev blockno) (S NBUF) (b_next h) in
  match r with
  | Some b =>
      do! bupd b (fun x => set_refcnt (u32 (b_refcnt x + 1)) x) in
      do! bc_release in
      do! bacquiresleep b in
      ret b
  | None =>
      let! r := bscan b_prev is_unused (S NBUF) (b_prev h) in
      match r with
      | Some b =>
          do! bupd b (fun x => mkBuf 0 dev blockno (b_lock x) 1 (b_prev x) (b_next x) (b_data x)) in
          do! bc_release in
          do! bacquiresleep b in
          ret b
      | None => panic "bget: no buffers"
      end
  end.

Definition bread (dev blockno : Z) : M bcache nat :=
  let! b := bget dev blockno in
  let! x := bref b in
  do! (if Z.land (b_flags x) B_VALID =? 0 then iderw b else ret tt) in
  ret b.

Definition bwrite (b : nat) : M bcache unit :=
  let! held := bholdingsleep b in
  if negb held then panic "bwrite"
  else
    do! bupd b (fun x => set_flags (Z.lor (b_flags x) B_DIRTY) x) in
    iderw b.

(** Take a buffer out of the list, and put it in at the front. *)
Definition bunlink (b : nat) : M bcache unit :=
  let! x := bref b in
  do! bupd (b_next x) (set_prev (b_prev x)) in
  bupd (b_prev x) (set_next (b_next x)).
Definition bpush (b : nat) : M bcache unit :=
  let! h := bref HEAD in
  do! bupd b (set_next (b_next h)) in
  do! bupd b (set_prev HEAD) in
  do! bupd (b_next h) (set_prev b) in
  bupd HEAD (set_next b).

Definition brelse (b : nat) : M bcache unit :=
  let! held := bholdingsleep b in
  if negb held then panic "brelse"
  else
    do! breleasesleep b in
    do! bc_acquire in
    do! bupd b (fun x => set_refcnt (u32 (b_refcnt x - 1)) x) in
    let! x := bref b in
    do! (if b_refcnt x =? 0 then do! bunlink b in bpush b else ret tt) in
    bc_release.

(** ** The cache as its clients see it *)

Definition nx (s : bcache) (b : nat) : option nat := b_next <$> bufs s !! b.
Definition pv (s : bcache) (b : nat) : option nat := b_prev <$> bufs s !! b.

(** The least recently used order. *)
Definition lru (s : bcache) (l : list nat) : Prop := circular (nx s) (pv s) HEAD l /\ l ≡ₚ seq 0 NBUF.

Section rep.
Context (pid : Z) (v : list bytes) (lk : gmap nat nat) (dt : gset nat).

(** A buffer that holds block [bn]: its data are the block's contents; it is
    valid, dirty when the block is pinned, and locked with one reference when
    the process has it. *)
Record caches (b : nat) (x : buf) (bn : nat) : Prop := {
  ca_dev : b_dev x = 1;
  ca_blockno : b_blockno x = Z.of_nat bn;
  ca_data : v !! bn = Some (b_data x);
  ca_flags : b_flags x = if decide (bn ∈ dt) then 6 else 2;
  ca_lock : match lk !! bn with
            | Some b' => b' = b /\ b_lock x = mkSleep 1 pid /\ b_refcnt x = 1
            | None => b_lock x = mkSleep 0 0 /\ b_refcnt x = 0
            end;
}.

(** A buffer that was never used. *)
Record unused (x : buf) : Prop := {
  un_dev : b_dev x = 0;
  un_flags : b_flags x = 0;
  un_lock : b_lock x = mkSleep 0 0;
  un_refcnt : b_refcnt x = 0;
}.

Definition buf_ok (b : nat) (x : buf) : Prop :=
  length (b_data x) = BSIZE /\ (unused x \/ exists bn, caches b x bn).

End rep.

Definition is_blk (d : bytes) : Prop := length d = BSIZE.

Record bc_rep (s : bcache) (v : list bytes) (lk : gmap nat nat) (dt : gset nat) : Prop := {
  br_len : length (bufs s) = S NBUF;
  br_order : exists l, lru s l;
  br_lock : bc_lock s = false;
  br_size : length v = length (memdisk s);
  br_disk : Forall is_blk (memdisk s);
  br_blk : Forall is_blk v;
  br_buf : forall b x, (b < NBUF)%nat -> bufs s !! b = Some x -> buf_ok (mypid s) v lk dt b x;
  br_uniq : forall b c x y, (b < NBUF)%nat -> (c < NBUF)%nat ->
    bufs s !! b = Some x -> bufs s !! c = Some y ->
    b_dev x = 1 -> b_dev y = 1 -> b_blockno x = b_blockno y -> b = c;
  br_clean : forall bn, bn ∉ dt -> lk !! bn = None -> v !! bn = memdisk s !! bn;
  br_lk : forall bn b, lk !! bn = Some b ->
    (b < NBUF)%nat /\ exists x, bufs s !! b = Some x /\ b_dev x = 1 /\ b_blockno x = Z.of_nat bn;
  br_dt : forall bn, bn ∈ dt -> exists b x,
    (b < NBUF)%nat /\ bufs s !! b = Some x /\ b_dev x = 1 /\ b_blockno x = Z.of_nat bn;
}.

(** The disk and the history of its writes are the same. *)
Definition same_disk (s s' : bcache) : Prop := memdisk s' = memdisk s /\ writes s' = writes s.

(** * Lemmas *)

Lemma wpx_bref b x (Q : buf -> bcache -> Prop) E s :
  bufs s !! b = Some x -> Q x s -> wpx (bref b) Q E s.
Proof. intros H HQ. unfold wpx, bref. by rewrite H. Qed.

Lemma wpx_bupd b f x (Q : unit -> bcache -> Prop) E s :
  bufs s !! b = Some x -> Q tt (set_bufs (<[b := f x]> (bufs s)) s) -> wpx (bupd b f) Q E s.
Proof. intros H HQ. unfold wpx, bupd. by rewrite H. Qed.

Lemma wpx_bholdingsleep b x (Q : bool -> bcache -> Prop) E s :
  bufs s !! b = Some x -> Q (sl_holding (mypid s) (b_lock x)) s -> wpx (bholdingsleep b) Q E s.
Proof. intros H HQ. unfold wpx, bholdingsleep, holdingsleep, buf_lock_get. by rewrite H. Qed.

Lemma buf_lock_set_eq b x lk s :
  bufs s !! b = Some x -> buf_lock_set b lk s = set_bufs (<[b := set_lock lk x]> (bufs s)) s.
Proof.
  intros H. unfold buf_lock_set. f_equal. apply list_eq. intros i.
  destruct (decide (i = b)) as [->|Hne].
  - rewrite list_lookup_alter_eq, list_lookup_insert_eq, H; [done|by eapply lookup_lt_Some].
  - by rewrite list_lookup_alter_ne, list_lookup_insert_ne.
Qed.

Lemma wpx_bacquiresleep b x (Q : unit -> bcache -> Prop) E s :
  bufs s !! b = Some x -> sl_locked (b_lock x) = 0 ->
  Q tt (set_bufs (<[b := set_lock (mkSleep 1 (mypid s)) x]> (bufs s)) s) -> wpx (bacquiresleep b) Q E s.
Proof.
  intros H H0 HQ. unfold wpx, bacquiresleep, acquiresleep, buf_lock_get, sl_try. rewrite H. simpl.
  rewrite H0. simpl. by rewrite (buf_lock_set_eq _ x).
Qed.

Lemma wpx_breleasesleep b x (Q : unit -> bcache -> Prop) E s :
  bufs s !! b = Some x ->
  Q tt (set_bufs (<[b := set_lock (mkSleep 0 0) x]> (bufs s)) s) -> wpx (breleasesleep b) Q E s.
Proof.
  intros H HQ. unfold wpx, breleasesleep, releasesleep, buf_lock_get. rewrite H. simpl.
  unfold sl_free. by rewrite (buf_lock_set_eq _ x).
Qed.

(** ** The abstraction *)

Lemma lru_elem s l b : lru s l -> b ∈ l <-> (b < NBUF)%nat.
Proof. intros [_ Hp]. rewrite Hp, elem_of_seq. lia. Qed.

Lemma lru_ext s s' l :
  lru s l -> (forall b, (b <= NBUF)%nat -> nx s' b = nx s b /\ pv s' b = pv s b) -> lru s' l.
Proof.
  intros Hl He. split; [|apply Hl]. eapply circular_ext; [apply Hl|]. intros b Hb. apply He.
  apply elem_of_cons in Hb as [->|Hb]; [done|]. apply (lru_elem _ _ _ Hl) in Hb. lia.
Qed.

(** The links after an update of one buffer that keeps its links. *)
Lemma lru_update s s' l b x x' :
  lru s l -> bufs s !! b = Some x -> bufs s' = <[b := x']> (bufs s) ->
  b_next x' = b_next x -> b_prev x' = b_prev x -> lru s' l.
Proof.
  intros Hl Hx Hs Hn Hp. eapply lru_ext; [done|]. intros c _. unfold nx, pv. rewrite Hs.
  destruct (decide (c = b)) as [->|Hne].
  - rewrite list_lookup_insert_eq, Hx by (by eapply lookup_lt_Some). simpl. by rewrite Hn, Hp.
  - by rewrite list_lookup_insert_ne.
Qed.

Lemma caches_frame pid v lk dt v' lk' dt' b x bn :
  caches pid v lk dt b x bn -> v' !! bn = v !! bn -> lk' !! bn = lk !! bn -> (bn ∈ dt' <-> bn ∈ dt) ->
  caches pid v' lk' dt' b x bn.
Proof.
  intros [H1 H2 H3 H4 H5] Hv Hl Hd. split; try done.
  - by rewrite Hv.
  - rewrite H4. by repeat case_decide; naive_solver.
  - by rewrite Hl.
Qed.

Lemma unused_is_unused x : unused x -> is_unused x = true.
Proof. intros [? Hf ? Hr]. unfold is_unused. by rewrite Hf, Hr. Qed.

Lemma caches_is_unused pid v lk dt b x bn :
  caches pid v lk dt b x bn -> is_unused x = bool_decide (lk !! bn = None /\ bn ∉ dt).
Proof.
  intros [_ _ _ Hf Hl]. unfold is_unused. rewrite Hf.
  destruct (lk !! bn); destruct Hl as (? & Hr); [destruct Hr as [_ Hr]|]; rewrite Hr; case_decide;
    case_bool_decide; naive_solver.
Qed.

(** One buffer changes: it holds block [bn] afterwards, and held it before or
    was not in use; the other blocks are as they were. *)
Lemma rep_update s s' v v' lk lk' dt dt' b bn x x' :
  bc_rep s v lk dt -> (b < NBUF)%nat -> bufs s !! b = Some x ->
  bufs s' = <[b := x']> (bufs s) -> bc_lock s' = false -> mypid s' = mypid s ->
  b_next x' = b_next x -> b_prev x' = b_prev x -> length (b_data x') = BSIZE ->
  length v' = length v -> length (memdisk s') = length (memdisk s) -> Forall is_blk (memdisk s') ->
  (forall m, m <> bn -> v' !! m = v !! m /\ memdisk s' !! m = memdisk s !! m /\ lk' !! m = lk !! m /\ (m ∈ dt' <-> m ∈ dt)) ->
  (forall c y, c <> b -> (c < NBUF)%nat -> bufs s !! c = Some y -> b_dev y = 1 -> b_blockno y <> Z.of_nat bn) ->
  (b_dev x = 1 /\ b_blockno x = Z.of_nat bn \/ is_unused x = true) ->
  caches (mypid s) v' lk' dt' b x' bn ->
  (bn ∉ dt' -> lk' !! bn = None -> v' !! bn = memdisk s' !! bn) ->
  bc_rep s' v' lk' dt'.
Proof.
  intros I Hb Hx Hs Hlock Hpid Hn Hp Hd Hv HD HF Hrest Hoth Hold Hc Hclean.
  assert (Hat : bufs s' !! b = Some x').
  { rewrite Hs. apply list_lookup_insert_eq. by eapply lookup_lt_Some. }
  assert (Hne : forall c, c <> b -> bufs s' !! c = bufs s !! c).
  { intros c ?. rewrite Hs. by apply list_lookup_insert_ne. }
  assert (Hkeep : forall m c y, m <> bn -> bufs s !! c = Some y -> b_dev y = 1 -> b_blockno y = Z.of_nat m ->
            (c < NBUF)%nat -> (is_Some (lk !! m) \/ m ∈ dt) -> c <> b).
  { intros m c y Hm Hy Hdy Hby Hcb Huse ->. rewrite Hx in Hy. injection Hy as <-.
    destruct Hold as [[_ ?]|Hu]; [lia|].
    destruct (br_buf _ _ _ _ I b x Hb Hx) as [_ [[? ? ? ?]|[m' Hc']]]; [lia|].
    assert (m' = m) as -> by (pose proof (ca_blockno _ _ _ _ _ _ _ Hc'); lia).
    rewrite (caches_is_unused _ _ _ _ _ _ _ Hc'), bool_decide_eq_true in Hu.
    destruct Hu as [Hn1 Hn2]. rewrite Hn1 in Huse. destruct Huse as [[? ?]|?]; done. }
  split.
  - rewrite Hs, length_insert. apply I.
  - destruct (br_order _ _ _ _ I) as [l Hl]. exists l. by eapply lru_update.
  - done.
  - rewrite Hv, HD. apply I.
  - done.
  - apply Forall_lookup_2. intros m d Hm. destruct (decide (m = bn)) as [->|Hmn].
    + pose proof (ca_data _ _ _ _ _ _ _ Hc) as Hdat. rewrite Hm in Hdat. injection Hdat as ->. done.
    + rewrite (proj1 (Hrest m Hmn)) in Hm. eapply Forall_lookup_1; [apply (br_blk _ _ _ _ I)|done].
  - intros c y Hcb Hy. rewrite Hpid. destruct (decide (c = b)) as [->|Hcn].
    + rewrite Hat in Hy. injection Hy as <-. split; [done|]. right. by exists bn.
    + rewrite (Hne c Hcn) in Hy. destruct (br_buf _ _ _ _ I c y Hcb Hy) as [Hlen Hok]. split; [done|].
      destruct Hok as [Hu|[m Hm]]; [by left|]. right. exists m.
      assert (m <> bn).
      { intros ->. destruct (Hoth c y Hcn Hcb Hy); [apply Hm|apply Hm]. }
      destruct (Hrest m) as (E1 & _ & E2 & E3); [done|]. by eapply caches_frame.
  - assert (Hnew : forall c y, (c < NBUF)%nat -> bufs s' !! c = Some y -> b_dev y = 1 ->
              b_blockno y = Z.of_nat bn -> c = b).
    { intros c y Hcb Hy Hdy Hby. destruct (decide (c = b)) as [|Hcn]; [done|]. rewrite (Hne c Hcn) in Hy.
      by destruct (Hoth c y Hcn Hcb Hy Hdy). }
    intros c1 c2 y1 y2 H1 H2 Hy1 Hy2 D1 D2 Heq.
    destruct (decide (c1 = b)) as [->|N1].
    { rewrite Hat in Hy1. injection Hy1 as <-. symmetry. eapply Hnew; [done..|].
      rewrite <- Heq. apply Hc. }
    destruct (decide (c2 = b)) as [->|N2].
    { rewrite Hat in Hy2. injection Hy2 as <-. eapply Hnew; [done..|]. rewrite Heq. apply Hc. }
    rewrite Hne in Hy1, Hy2 by done. by eapply (br_uniq _ _ _ _ I c1 c2 y1 y2).
  - intros m Hm Hl. destruct (decide (m = bn)) as [->|Hmn]; [by apply Hclean|].
    destruct (Hrest m Hmn) as (E1 & E2 & E3 & E4). rewrite E1, E2. apply I; [tauto|congruence].
  - intros m c Hl. destruct (decide (m = bn)) as [->|Hmn].
    + pose proof (ca_lock _ _ _ _ _ _ _ Hc) as Hcl. rewrite Hl in Hcl. destruct Hcl as [-> _].
      split; [done|]. exists x'. split; [done|]. split; apply Hc.
    + destruct (Hrest m Hmn) as (_ & _ & E3 & _). rewrite E3 in Hl.
      destruct (br_lk _ _ _ _ I m c Hl) as (Hcb & y & Hy & Hdy & Hby). split; [done|].
      exists y. rewrite Hne; [done|]. eapply Hkeep; try done. left. by rewrite Hl.
  - intros m Hm. destruct (decide (m = bn)) as [->|Hmn].
    + exists b, x'. split; [done|]. split; [done|]. split; apply Hc.
    + destruct (Hrest m Hmn) as (_ & _ & _ & E4). apply E4 in Hm.
      destruct (br_dt _ _ _ _ I m Hm) as (c & y & Hcb & Hy & Hdy & Hby). exists c, y.
      rewrite Hne; [done|]. eapply Hkeep; try done. by right.
Qed.

(** ** The list scans *)

(** Following [f] from [b] goes through [l] and ends at the list head. *)
Fixpoint path (f : nat -> option nat) (b : nat) (l : list nat) : Prop :=
  match l with
  | [] => b = HEAD
  | x :: l' => b = x /\ exists b', f x = Some b' /\ path f b' l'
  end.

Lemma path_next nx pv l1 l2 b :
  circular nx pv HEAD (l1 ++ l2) -> head (l2 ++ [HEAD]) = Some b -> path nx b l2.
Proof.
  revert l1 b. induction l2 as [|x l2 IH]; intros l1 b Hc Hb; simpl in *; [congruence|].
  split; [congruence|]. rewrite cons_middle, app_assoc in Hc.
  pose proof (circular_next _ _ _ _ _ Hc x) as Hn. rewrite app_comm_cons, last_snoc in Hn.
  destruct (head (l2 ++ [HEAD])) as [y|] eqn:Hy; [|by destruct l2].
  exists y. split; [by apply Hn|]. by eapply IH.
Qed.

Lemma path_prev nx pv l1 l2 b :
  circular nx pv HEAD (l1 ++ l2) -> last (HEAD :: l1) = Some b -> path pv b (reverse l1).
Proof.
  revert l2 b. induction l1 as [|x l1 IH] using rev_ind; intros l2 b Hc Hb.
  - simpl in *. congruence.
  - rewrite reverse_snoc. rewrite app_comm_cons, last_snoc in Hb. simpl. split; [congruence|].
    rewrite <- app_assoc in Hc. pose proof (circular_prev _ _ _ _ _ Hc x eq_refl) as Hn.
    destruct (last (HEAD :: l1)) as [y|] eqn:Hy; [|by apply last_None in Hy].
    exists y. split; [done|]. by eapply IH.
Qed.

Lemma lru_path_next s l h : lru s l -> nx s HEAD = Some h -> path (nx s) h l.
Proof.
  intros [Hc _] Hh. eapply (path_next _ _ [] l); [done|].
  pose proof (circular_next _ _ _ [] l Hc HEAD eq_refl) as H. congruence.
Qed.

Lemma lru_path_prev s l h : lru s l -> pv s HEAD = Some h -> path (pv s) h (reverse l).
Proof.
  intros [Hc _] Hh. assert (Hc' : circular (nx s) (pv s) HEAD (l ++ [])) by (by rewrite app_nil_r).
  eapply (path_prev _ _ l []); [done|].
  pose proof (circular_prev _ _ _ l [] Hc' HEAD eq_refl) as H. congruence.
Qed.

Definition scan_result (p : buf -> bool) (l : list nat) (s : bcache) (r : option nat) : Prop :=
  match r with
  | Some c => c ∈ l /\ exists x, bufs s !! c = Some x /\ p x = true
  | None => forall c x, c ∈ l -> bufs s !! c = Some x -> p x = false
  end.

Lemma bscan_spec (dir : buf -> nat) p s l b fuel E :
  path (fun c => dir <$> bufs s !! c) b l -> (forall c, c ∈ l -> (c < NBUF)%nat) -> (length l < fuel)%nat ->
  wpx (bscan dir p fuel b) (fun r s' => s' = s /\ scan_result p l s r) E s.
Proof.
  revert l b. induction fuel as [|n IH]; intros l b Hp Hlt Hf; [lia|]. simpl.
  destruct l as [|c l]; simpl in Hp.
  - subst b. rewrite Nat.eqb_refl. wp_step. split; [done|]. intros c x Hc. by apply elem_of_nil in Hc.
  - destruct Hp as (-> & b' & Hb' & Hp).
    pose proof (Hlt c ltac:(set_solver)) as Hcn. unfold HEAD. rewrite (proj2 (Nat.eqb_neq c NBUF)) by lia.
    destruct (bufs s !! c) as [x|] eqn:Hx; [|done]. injection Hb' as <-.
    wp_step. eapply wpx_bref; [done|]. destruct (p x) eqn:Hpx.
    + wp_step. split; [done|]. split; [set_solver|]. by exists x.
    + wp_use (IH l (dir x) Hp ltac:(set_solver) ltac:(simpl in Hf; lia)).
      intros r s' [-> Hr]. split; [done|]. destruct r as [d|]; simpl in *.
      * destruct Hr as (Hd & Hr). split; [set_solver|done].
      * intros d y Hd Hy. apply elem_of_cons in Hd as [->|Hd]; [congruence|by eapply Hr].
Qed.

Lemma lru_length s l : lru s l -> length l = NBUF.
Proof. intros [_ Hp]. by rewrite (Permutation_length Hp), length_seq. Qed.

Lemma bscan_all (dir : buf -> nat) p s l l' b E :
  lru s l -> l' ≡ₚ l -> path (fun c => dir <$> bufs s !! c) b l' ->
  wpx (bscan dir p (S NBUF) b) (fun r s' => s' = s /\ scan_result p (seq 0 NBUF) s r) E s.
Proof.
  intros Hl Hp Hpath.
  wp_use (bscan_spec dir p s l' b (S NBUF) E Hpath).
  - intros c. rewrite Hp. by apply (lru_elem s l c).
  - rewrite (Permutation_length Hp), (lru_length s l Hl). lia.
  - intros r s' [-> Hr]. split; [done|].
    assert (Heq : forall c, c ∈ l' <-> c ∈ seq 0 NBUF).
    { intros c. rewrite Hp, (lru_elem s l c Hl), elem_of_seq. lia. }
    destruct r; simpl in *.
    + by rewrite <- Heq.
    + intros c x. rewrite <- Heq. apply Hr.
Qed.

(** ** The operations *)

Lemma rep_at s v lk dt b : bc_rep s v lk dt -> (b <= NBUF)%nat -> exists x, bufs s !! b = Some x.
Proof. intros I Hb. apply lookup_lt_is_Some_2. rewrite (br_len _ _ _ _ I). lia. Qed.

(** The block a buffer in use holds. *)
Lemma rep_in_use s v lk dt b x :
  bc_rep s v lk dt -> (b < NBUF)%nat -> bufs s !! b = Some x -> is_unused x = false ->
  exists bn, b_dev x = 1 /\ b_blockno x = Z.of_nat bn /\ bn ∈ dom lk ∪ dt.
Proof.
  intros I Hb Hx Hu. destruct (br_buf _ _ _ _ I b x Hb Hx) as [_ [H|[bn H]]].
  { by rewrite unused_is_unused in Hu. }
  exists bn. split; [apply H|]. split; [apply H|].
  rewrite (caches_is_unused _ _ _ _ _ _ _ H), bool_decide_eq_false in Hu.
  rewrite elem_of_union, elem_of_dom. destruct (lk !! bn); [by left|]. right. destruct (decide (bn ∈ dt)); tauto.
Qed.

(** When no buffer is free, as many blocks are locked or pinned. *)
Lemma rep_full s v lk dt :
  bc_rep s v lk dt -> scan_result is_unused (seq 0 NBUF) s None -> (NBUF <= size (dom lk ∪ dt))%nat.
Proof.
  intros I Hn. set (blk b := Z.to_nat (default 0 (b_blockno <$> bufs s !! b))).
  assert (Hblk : forall b, b ∈ seq 0 NBUF -> exists x, bufs s !! b = Some x /\ b_dev x = 1 /\
            b_blockno x = Z.of_nat (blk b) /\ blk b ∈ dom lk ∪ dt).
  { intros b Hb. assert (b < NBUF)%nat by (apply elem_of_seq in Hb; lia).
    destruct (rep_at s v lk dt b I) as [x Hx]; [lia|].
    destruct (rep_in_use s v lk dt b x I) as (bn & Hd & Hbn & Hin); [done..|by eapply Hn|].
    exists x. unfold blk. rewrite Hx. simpl. rewrite Hbn, Nat2Z.id. done. }
  assert (Hnd : NoDup (blk <$> seq 0 NBUF)).
  { apply NoDup_fmap_2_strong; [|apply NoDup_seq]. intros b c Hb Hc Heq.
    destruct (Hblk b Hb) as (x & Hx & Hdx & Hbx & _). destruct (Hblk c Hc) as (y & Hy & Hdy & Hby & _).
    apply elem_of_seq in Hb, Hc. eapply (br_uniq _ _ _ _ I b c x y); try done; [lia..|congruence]. }
  transitivity (size (list_to_set (blk <$> seq 0 NBUF) : gset nat)).
  { rewrite size_list_to_set by done. by rewrite length_fmap, length_seq. }
  apply subseteq_size. intros m Hm. apply elem_of_list_to_set, list_elem_of_fmap in Hm as (b & -> & Hb).
  by destruct (Hblk b Hb) as (x & _ & _ & _ & H).
Qed.

Definition no_buffers (lk : gmap nat nat) (dt : gset nat) (bn : nat) (m : string) : Prop :=
  m = "bget: no buffers" /\ (bn ∉ dt) /\ (NBUF <= size (dom lk ∪ dt))%nat.

(** What [bget] returns: the buffer of a cached block; or one that it recycled,
    which holds the block once its data have been read. *)
Definition bget_result (v : list bytes) (lk : gmap nat nat) (dt : gset nat) (bn b : nat) (s : bcache) : Prop :=
  (b < NBUF)%nat /\ exists x, bufs s !! b = Some x /\
  ((nz (Z.land (b_flags x) B_VALID) = true /\ bc_rep s v (<[bn := b]> lk) dt) \/
   (b_flags x = 0 /\ b_dev x = 1 /\ b_blockno x = Z.of_nat bn /\ b_lock x = mkSleep 1 (mypid s) /\
    v !! bn = memdisk s !! bn /\
    forall d, v !! bn = Some d ->
      bc_rep (set_bufs (<[b := set_flags 2 (set_data d x)]> (bufs s)) s) v (<[bn := b]> lk) dt)).

Lemma rep_hit s v lk dt b x bn :
  bc_rep s v lk dt -> (b < NBUF)%nat -> bufs s !! b = Some x -> is_block 1 (Z.of_nat bn) x = true ->
  lk !! bn = None ->
  caches (mypid s) v lk dt b x bn /\
  bc_rep (set_bufs (<[b := set_lock (mkSleep 1 (mypid s)) (set_refcnt 1 x)]> (bufs s)) s) v (<[bn := b]> lk) dt.
Proof.
  intros I Hb Hx Hblk Hl. unfold is_block in Hblk. apply andb_true_iff in Hblk as [Hd Hbn].
  apply Z.eqb_eq in Hd, Hbn.
  destruct (br_buf _ _ _ _ I b x Hb Hx) as [Hlen [[? ? ? ?]|[m Hm]]]; [lia|].
  assert (m = bn) as -> by (pose proof (ca_blockno _ _ _ _ _ _ _ Hm); lia). split; [done|].
  eapply (rep_update s _ v v lk _ dt dt b bn x); try done; try apply I.
  - intros m Hne. rewrite lookup_insert_ne by done. done.
  - intros c y Hc Hcb Hy Hdy Hby. apply Hc. eapply (br_uniq _ _ _ _ I c b y x); try done. congruence.
  - by left.
  - destruct Hm as [H1 H2 H3 H4 H5]. split; try done. by rewrite lookup_insert_eq.
  - intros _. by rewrite lookup_insert_eq.
Qed.

Lemma rep_recycle s v lk dt b x bn d :
  bc_rep s v lk dt -> (b < NBUF)%nat -> bufs s !! b = Some x -> is_unused x = true ->
  lk !! bn = None -> scan_result (is_block 1 (Z.of_nat bn)) (seq 0 NBUF) s None -> v !! bn = Some d ->
  (bn ∉ dt) /\
  bc_rep (set_bufs (<[b := mkBuf 2 1 (Z.of_nat bn) (mkSleep 1 (mypid s)) 1 (b_prev x) (b_next x) d]> (bufs s)) s)
    v (<[bn := b]> lk) dt.
Proof.
  intros I Hb Hx Hu Hl Hn Hd.
  assert (Hno : forall c y, (c < NBUF)%nat -> bufs s !! c = Some y -> b_dev y = 1 -> b_blockno y <> Z.of_nat bn).
  { intros c y Hc Hy Hdy Hby. pose proof (Hn c y) as Hf. unfold is_block in Hf. rewrite Hdy, Hby, !Z.eqb_refl in Hf.
    assert (true = false) by (apply Hf; [apply elem_of_seq; lia|done]). done. }
  assert (Hdt : bn ∉ dt).
  { intros Hin. destruct (br_dt _ _ _ _ I bn Hin) as (c & y & Hc & Hy & Hdy & Hby). by eapply Hno. }
  split; [done|]. eapply (rep_update s _ v v lk _ dt dt b bn x); try done; try apply I.
  - simpl. eapply (Forall_lookup_1 is_blk); [apply (br_blk _ _ _ _ I)|done].
  - intros m Hne. rewrite lookup_insert_ne by done. done.
  - intros c y _. apply Hno.
  - by right.
  - split; try done; [by rewrite decide_False|by rewrite lookup_insert_eq].
  - intros _. by rewrite lookup_insert_eq.
Qed.

Lemma rep_eq s s' v lk dt :
  bc_rep s v lk dt -> bufs s' = bufs s -> bc_lock s' = false -> mypid s' = mypid s -> memdisk s' = memdisk s ->
  bc_rep s' v lk dt.
Proof.
  intros I Hb Hl Hp Hm. split; rewrite ?Hb, ?Hp, ?Hm; try apply I; [|done].
  destruct (br_order _ _ _ _ I) as [l Hlru]. exists l. eapply lru_ext; [done|]. intros b _. unfold nx, pv. by rewrite Hb.
Qed.

Lemma unused_lock s v lk dt b x :
  bc_rep s v lk dt -> (b < NBUF)%nat -> bufs s !! b = Some x -> is_unused x = true -> b_lock x = mkSleep 0 0.
Proof.
  intros I Hb Hx Hu. destruct (br_buf _ _ _ _ I b x Hb Hx) as [_ [H|[m H]]]; [apply H|].
  rewrite (caches_is_unused _ _ _ _ _ _ _ H), bool_decide_eq_true in Hu. destruct Hu as [Hl _].
  pose proof (ca_lock _ _ _ _ _ _ _ H) as Hcl. rewrite Hl in Hcl. by destruct Hcl.
Qed.

Definition bget_post (s : bcache) (v : list bytes) (lk : gmap nat nat) (dt : gset nat) (bn b : nat) (s' : bcache) : Prop :=
  same_disk s s' /\ mypid s' = mypid s /\ bget_result v lk dt bn b s'.

(** The tails of the two cases of [bget]. *)
Lemma bget_hit s v lk dt b x bn E :
  bc_rep s v lk dt -> lk !! bn = None -> (b < NBUF)%nat -> bufs s !! b = Some x ->
  is_block 1 (Z.of_nat bn) x = true ->
  wpx (do! bupd b (fun x => set_refcnt (u32 (b_refcnt x + 1)) x) in
       do! bc_release in do! bacquiresleep b in ret b) (bget_post s v lk dt bn) E (set_bc_lock true s).
Proof.
  intros I Hl Hb Hx Hblk. pose proof (lookup_lt_Some _ _ _ Hx) as Hlen.
  destruct (rep_hit s v lk dt b x bn I Hb Hx Hblk Hl) as [Hc Hrep].
  pose proof (ca_lock _ _ _ _ _ _ _ Hc) as Hcl. rewrite Hl in Hcl. destruct Hcl as [Hcl Hcr].
  wp_step. eapply wpx_bupd; [done|]. wp_step. apply wpx_release; [done|]. wp_step.
  eapply wpx_bacquiresleep.
  { simpl. by apply list_lookup_insert_eq. } { simpl. by rewrite Hcl. }
  wp_step. rewrite Hcr. cbn [bufs set_bufs set_bc_lock mypid]. rewrite list_insert_insert_eq.
  split; [done|]. split; [done|]. split; [done|].
  eexists. split; [simpl; by apply list_lookup_insert_eq|]. left. split.
  - cbn. rewrite (ca_flags _ _ _ _ _ _ _ Hc). by case_decide.
  - by eapply rep_eq.
Qed.

Lemma bget_recycle s v lk dt b x bn d E :
  bc_rep s v lk dt -> lk !! bn = None -> (b < NBUF)%nat -> bufs s !! b = Some x -> v !! bn = Some d ->
  is_unused x = true -> scan_result (is_block 1 (Z.of_nat bn)) (seq 0 NBUF) s None ->
  wpx (do! bupd b (fun x => mkBuf 0 1 (Z.of_nat bn) (b_lock x) 1 (b_prev x) (b_next x) (b_data x)) in
       do! bc_release in do! bacquiresleep b in ret b) (bget_post s v lk dt bn) E (set_bc_lock true s).
Proof.
  intros I Hl Hb Hx Hd Hu Hr. pose proof (lookup_lt_Some _ _ _ Hx) as Hlen.
  destruct (rep_recycle s v lk dt b x bn d I Hb Hx Hu Hl Hr Hd) as [Hdt Hrep].
  pose proof (unused_lock s v lk dt b x I Hb Hx Hu) as Hlk0.
  wp_step. eapply wpx_bupd; [done|]. wp_step. apply wpx_release; [done|]. wp_step.
  eapply wpx_bacquiresleep.
  { simpl. by apply list_lookup_insert_eq. } { simpl. by rewrite Hlk0. }
  wp_step. cbn [bufs set_bufs set_bc_lock mypid]. rewrite list_insert_insert_eq.
  split; [done|]. split; [done|]. split; [done|].
  eexists. split; [simpl; by apply list_lookup_insert_eq|]. right. cbn -[set_bufs].
  split_and!; try done; [by apply (br_clean _ _ _ _ I)|].
  intros d' Hd'. rewrite Hd in Hd'. injection Hd' as <-. eapply rep_eq; [exact Hrep|simpl; by rewrite list_insert_insert_eq|done..].
Qed.

Lemma bget_spec s v lk dt bn :
  bc_rep s v lk dt -> lk !! bn = None -> (bn < length v)%nat ->
  wpx (bget 1 (Z.of_nat bn)) (bget_post s v lk dt bn) (no_buffers lk dt bn) s.
Proof.
  intros I Hl Hbn. destruct (br_order _ _ _ _ I) as [l Hlru].
  destruct (rep_at s v lk dt HEAD I) as [h Hh]; [done|].
  destruct (lookup_lt_is_Some_2 v bn Hbn) as [d Hd].
  unfold bget. wp_step. apply wpx_acquire; [apply I|]. wp_step. eapply wpx_bref; [done|]. wp_step.
  wp_use (bscan_all b_next (is_block 1 (Z.of_nat bn)) (set_bc_lock true s) l l (b_next h)).
  { done. } { done. } { apply (lru_path_next s l); [done|]. unfold nx. by rewrite Hh. }
  intros r s' [-> Hr]. destruct r as [b|].
  { destruct Hr as (Hb & x & Hx & Hblk). apply elem_of_seq in Hb. eapply bget_hit; try done. lia. }
  wp_step. wp_use (bscan_all b_prev is_unused (set_bc_lock true s) l (reverse l) (b_prev h)).
  { done. } { apply reverse_Permutation. } { apply (lru_path_prev s l); [done|]. unfold pv. by rewrite Hh. }
  intros r s' [-> Hr2]. destruct r as [b|].
  { destruct Hr2 as (Hb & x & Hx & Hu). apply elem_of_seq in Hb. eapply bget_recycle; try done. lia. }
  apply wpx_panic. split; [done|]. split; [|by eapply rep_full].
  intros Hin. destruct (br_dt _ _ _ _ I bn Hin) as (c & y & Hc & Hy & Hdy & Hby).
  pose proof (Hr c y) as Hf. unfold is_block in Hf. rewrite Hdy, Hby, !Z.eqb_refl in Hf.
  assert (true = false) by (apply Hf; [apply elem_of_seq; lia|done]). done.
Qed.

Lemma iderw_read s b x d E :
  bufs s !! b = Some x -> b_lock x = mkSleep 1 (mypid s) -> b_flags x = 0 -> b_dev x = 1 ->
  0 <= b_blockno x -> memdisk s !! Z.to_nat (b_blockno x) = Some d ->
  wpx (iderw b) (fun _ s' => s' = set_bufs (<[b := set_flags 2 (set_data d x)]> (bufs s)) s) E s.
Proof.
  intros Hx Hl Hf Hd H0 Hm. pose proof (lookup_lt_Some _ _ _ Hm). pose proof (lookup_lt_Some _ _ _ Hx) as Hlen.
  unfold iderw. wp_step. eapply wpx_bholdingsleep; [done|]. rewrite Hl. unfold sl_holding. simpl. rewrite Z.eqb_refl. simpl.
  wp_step. eapply wpx_bref; [done|]. rewrite Hf, Hd. simpl. wp_step. wp_step.
  destruct (Z.leb_spec (Z.of_nat (length (memdisk s))) (b_blockno x)); [lia|].
  wp_step. eapply wpx_bupd; [done|]. eapply wpx_bupd; [simpl; by apply list_lookup_insert_eq|].
  simpl. rewrite Hm. simpl. unfold set_bufs. simpl. rewrite list_insert_insert_eq, Hf. done.
Qed.

(** A buffer that is dirty, and valid, is written to the disk. *)
Lemma iderw_write s b x bn E :
  bufs s !! b = Some x -> b_lock x = mkSleep 1 (mypid s) -> b_flags x = 6 -> b_dev x = 1 ->
  b_blockno x = Z.of_nat bn -> (bn < length (memdisk s))%nat ->
  wpx (iderw b) (fun _ s' => s' = disk_write bn (b_data x) (set_bufs (<[b := set_flags 2 x]> (bufs s)) s)) E s.
Proof.
  intros Hx Hl Hf Hd Hb Hm. pose proof (lookup_lt_Some _ _ _ Hx) as Hlen.
  unfold iderw. wp_step. eapply wpx_bholdingsleep; [done|]. rewrite Hl. unfold sl_holding. simpl. rewrite Z.eqb_refl. simpl.
  wp_step. eapply wpx_bref; [done|]. rewrite Hf, Hd. simpl. wp_step. wp_step. rewrite Hb.
  destruct (Z.leb_spec (Z.of_nat (length (memdisk s))) (Z.of_nat bn)); [lia|]. rewrite Nat2Z.id.
  wp_step. wp_step. eapply wpx_bupd; [done|]. wp_step. eapply wpx_bupd; [simpl; by apply list_lookup_insert_eq|].
  unfold disk_write, set_bufs. simpl. rewrite list_insert_insert_eq. done.
Qed.

(** [bread] gives the buffer of the block, locked, with the block's contents. *)
Lemma bread_spec s v lk dt bn :
  bc_rep s v lk dt -> lk !! bn = None -> (bn < length v)%nat ->
  wpx (bread 1 (Z.of_nat bn)) (fun b s' => same_disk s s' /\ bc_rep s' v (<[bn := b]> lk) dt) (no_buffers lk dt bn) s.
Proof.
  intros I Hl Hbn. unfold bread. wp_step. wp_use (bget_spec s v lk dt bn I Hl Hbn).
  intros b s' ([Hm Hw] & Hp & Hb & x & Hx & Hcase). wp_step. eapply wpx_bref; [done|]. wp_step.
  destruct Hcase as [[Hv Hrep]|(Hf & Hd & Hbno & Hlk & Hcl & Hrep)].
  - unfold nz in Hv. apply negb_true_iff in Hv. rewrite Hv. by wp_steps.
  - rewrite Hf. simpl. destruct (lookup_lt_is_Some_2 v bn Hbn) as [d Hvd].
    wp_use (iderw_read s' b x d _ Hx Hlk Hf Hd).
    + lia.
    + rewrite Hbno, Nat2Z.id. congruence.
    + intros [] s'' ->. wp_step. split; [done|]. by apply Hrep.
Qed.

(** The buffer of a locked block. *)
Lemma rep_locked s v lk dt bn b :
  bc_rep s v lk dt -> lk !! bn = Some b ->
  exists x, (b < NBUF)%nat /\ bufs s !! b = Some x /\ length (b_data x) = BSIZE /\
    caches (mypid s) v lk dt b x bn /\ b_lock x = mkSleep 1 (mypid s) /\ b_refcnt x = 1 /\
    (forall c y, c <> b -> (c < NBUF)%nat -> bufs s !! c = Some y -> b_dev y = 1 -> b_blockno y <> Z.of_nat bn).
Proof.
  intros I Hl. destruct (br_lk _ _ _ _ I bn b Hl) as (Hb & x & Hx & Hd & Hbn). exists x.
  destruct (br_buf _ _ _ _ I b x Hb Hx) as [Hlen [[? ? ? ?]|[m Hm]]]; [lia|].
  assert (m = bn) as -> by (pose proof (ca_blockno _ _ _ _ _ _ _ Hm); lia).
  pose proof (ca_lock _ _ _ _ _ _ _ Hm) as Hcl. rewrite Hl in Hcl. destruct Hcl as (_ & Hcl & Hcr).
  split_and!; try done. intros c y Hc Hcb Hy Hdy Hby. apply Hc. eapply (br_uniq _ _ _ _ I c b y x); try done. congruence.
Qed.

(** The data of a locked buffer, read and written. *)
Definition bdata (b : nat) : M bcache bytes := let! x := bref b in ret (b_data x).
Definition bset (b : nat) (d : bytes) : M bcache unit := bupd b (set_data d).

Lemma bdata_spec s v lk dt bn b E :
  bc_rep s v lk dt -> lk !! bn = Some b ->
  wpx (bdata b) (fun d s' => s' = s /\ v !! bn = Some d /\ is_blk d) E s.
Proof.
  intros I Hl. destruct (rep_locked s v lk dt bn b I Hl) as (x & Hb & Hx & Hlen & Hc & _).
  unfold bdata. wp_step. eapply wpx_bref; [done|]. wp_step. split; [done|]. split; [apply Hc|done].
Qed.

Lemma bset_spec s v lk dt bn b d E :
  bc_rep s v lk dt -> lk !! bn = Some b -> is_blk d ->
  wpx (bset b d) (fun _ s' => same_disk s s' /\ bc_rep s' (<[bn := d]> v) lk dt) E s.
Proof.
  intros I Hl Hd. destruct (rep_locked s v lk dt bn b I Hl) as (x & Hb & Hx & Hlen & Hc & Hlk & Hr & Hoth).
  unfold bset. eapply wpx_bupd; [done|]. split; [done|].
  pose proof (lookup_lt_Some _ _ _ (ca_data _ _ _ _ _ _ _ Hc)) as Hlt.
  eapply (rep_update s _ v _ lk lk dt dt b bn x); try done; try apply I.
  - apply length_insert.
  - intros m Hm. by rewrite list_lookup_insert_ne.
  - left. split; apply Hc.
  - destruct Hc as [H1 H2 H3 H4 H5]. split; try done. by apply list_lookup_insert_eq.
  - intros _. by rewrite Hl.
Qed.

Lemma insert_blk d bn (v : list bytes) : is_blk d -> Forall is_blk v -> Forall is_blk (<[bn := d]> v).
Proof. intros. by apply Forall_insert. Qed.

(** [bwrite] writes the block to the disk. *)
Lemma bwrite_spec s v lk dt bn b d E :
  bc_rep s v lk dt -> lk !! bn = Some b -> v !! bn = Some d ->
  wpx (bwrite b) (fun _ s' => memdisk s' = <[bn := d]> (memdisk s) /\ writes s' = writes s ++ [(bn, d)] /\
                              bc_rep s' v lk (dt ∖ {[bn]})) E s.
Proof.
  intros I Hl Hd. destruct (rep_locked s v lk dt bn b I Hl) as (x & Hb & Hx & Hlen & Hc & Hlk & Hr & Hoth).
  pose proof (lookup_lt_Some _ _ _ Hx) as Hltb. pose proof (lookup_lt_Some _ _ _ Hd) as Hltd.
  unfold bwrite. wp_step. eapply wpx_bholdingsleep; [done|]. rewrite Hlk. unfold sl_holding. simpl. rewrite Z.eqb_refl. simpl.
  wp_step. eapply wpx_bupd; [done|].
  assert (Hf : Z.lor (b_flags x) B_DIRTY = 6) by (rewrite (ca_flags _ _ _ _ _ _ _ Hc); by case_decide).
  rewrite Hf. pose proof (ca_data _ _ _ _ _ _ _ Hc) as Hdat. rewrite Hd in Hdat. injection Hdat as Hdat.
  wp_use (iderw_write (set_bufs (<[b := set_flags 6 x]> (bufs s)) s) b (set_flags 6 x) bn).
  - simpl. by apply list_lookup_insert_eq.
  - done.
  - done.
  - simpl. apply Hc.
  - simpl. apply Hc.
  - simpl. by rewrite <- (br_size _ _ _ _ I).
  - intros [] s' ->. cbn. rewrite Hdat. split; [done|]. split; [done|].
    eapply (rep_update s _ v v lk lk dt _ b bn x (set_flags 2 x)); try done; cbn.
    + rewrite list_insert_insert_eq. done.
    + apply I.
    + apply length_insert.
    + apply insert_blk; [done|apply I].
    + intros m Hm. rewrite list_lookup_insert_ne by done. split_and!; [done..|set_solver].
    + left. split; apply Hc.
    + destruct Hc as [H1 H2 H3 H4 H5]. split; try done. rewrite decide_False by set_solver. done.
    + intros _. by rewrite Hl.
Qed.

(** Pin a locked block in the cache: [b->flags |= B_DIRTY]. *)
Definition bpin (b : nat) : M bcache unit := bupd b (fun x => set_flags (Z.lor (b_flags x) B_DIRTY) x).

Lemma bpin_spec s v lk dt bn b E :
  bc_rep s v lk dt -> lk !! bn = Some b ->
  wpx (bpin b) (fun _ s' => same_disk s s' /\ bc_rep s' v lk (dt ∪ {[bn]})) E s.
Proof.
  intros I Hl. destruct (rep_locked s v lk dt bn b I Hl) as (x & Hb & Hx & Hlen & Hc & Hlk & Hr & Hoth).
  unfold bpin. eapply wpx_bupd; [done|]. split; [done|].
  eapply (rep_update s _ v v lk lk dt _ b bn x); try done; try apply I.
  - intros m Hm. split_and!; [done..|set_solver].
  - left. split; apply Hc.
  - destruct Hc as [H1 H2 H3 H4 H5]. split; try done. simpl. rewrite H4. destruct (decide (bn ∈ dt ∪ {[bn]})) as [|Hn]; [|set_solver].
    by case_decide.
  - intros H. set_solver.
Qed.

(** ** Moving a buffer to the front *)

(** A buffer without its links. *)
Definition core (x : buf) : buf := set_prev 0 (set_next 0 x).

(** The same but for the links of the buffers. *)
Record same_bcore (s s' : bcache) : Prop := {
  sc_bufs : core <$> bufs s' = core <$> bufs s;
  sc_lock : bc_lock s' = bc_lock s;
  sc_pid : mypid s' = mypid s;
  sc_disk : same_disk s s';
}.

Lemma same_bcore_trans s1 s2 s3 : same_bcore s1 s2 -> same_bcore s2 s3 -> same_bcore s1 s3.
Proof. intros [? ? ? [? ?]] [? ? ? [? ?]]. split; try congruence. split; congruence. Qed.

Lemma same_bcore_upd s c x x' :
  bufs s !! c = Some x -> core x' = core x -> same_bcore s (set_bufs (<[c := x']> (bufs s)) s).
Proof.
  intros Hx Hc. split; [|done..]. simpl. rewrite list_fmap_insert. apply list_insert_id.
  by rewrite list_lookup_fmap, Hx, Hc.
Qed.

Lemma same_bcore_at s s' c x :
  same_bcore s s' -> bufs s' !! c = Some x -> exists y, bufs s !! c = Some y /\ core x = core y.
Proof.
  intros [H _ _ _] Hx. apply (f_equal (.!! c)) in H. rewrite !list_lookup_fmap, Hx in H.
  destruct (bufs s !! c) as [y|]; [|done]. exists y. split; [done|]. apply (inj Some). exact H.
Qed.

Lemma same_bcore_len s s' : same_bcore s s' -> length (bufs s') = length (bufs s).
Proof. intros [H _ _ _]. apply (f_equal length) in H. by rewrite !length_fmap in H. Qed.

Lemma core_ok pid v lk dt b x y : core x = core y -> buf_ok pid v lk dt b y -> buf_ok pid v lk dt b x.
Proof.
  unfold core, set_prev, set_next. simpl. intros [= E1 E2 E3 E4 E5 E6] [Hl Hc]. split; [by rewrite E6|].
  destruct Hc as [[? ? ? ?]|[bn [? ? ? ? ?]]]; [left|right; exists bn]; split; by rewrite ?E1, ?E2, ?E3, ?E4, ?E5, ?E6.
Qed.

Lemma core_block x y : core x = core y -> b_dev x = b_dev y /\ b_blockno x = b_blockno y.
Proof. unfold core, set_prev, set_next. simpl. by intros [=]. Qed.

Lemma rep_relink s s' v lk dt l :
  bc_rep s v lk dt -> same_bcore s s' -> lru s' l -> bc_rep s' v lk dt.
Proof.
  intros I Hc Hl. assert (Hback : same_bcore s' s).
  { destruct Hc as [? ? ? [? ?]]. split; [by symmetry..|]. split; by symmetry. }
  pose proof (sc_disk _ _ Hc) as [Hm _]. split; rewrite ?(sc_pid _ _ Hc), ?Hm; try apply I.
  - rewrite (same_bcore_len _ _ Hc). apply I.
  - by exists l.
  - rewrite (sc_lock _ _ Hc). apply I.
  - intros b x Hb Hx. destruct (same_bcore_at _ _ _ _ Hc Hx) as (y & Hy & He). eapply core_ok; [done|]. by eapply (br_buf _ _ _ _ I).
  - intros b c x y Hb Hcb Hx Hy Hdx Hdy Hbn.
    destruct (same_bcore_at _ _ _ _ Hc Hx) as (x' & Hx' & [E1 E2]%core_block).
    destruct (same_bcore_at _ _ _ _ Hc Hy) as (y' & Hy' & [E3 E4]%core_block).
    eapply (br_uniq _ _ _ _ I b c x' y'); try done; congruence.
  - intros bn b Hb. destruct (br_lk _ _ _ _ I bn b Hb) as (Hlt & x & Hx & Hd & Hn). split; [done|].
    destruct (same_bcore_at _ _ _ _ Hback Hx) as (y & Hy & [E1 E2]%core_block). exists y. split; [done|]. split; congruence.
  - intros bn Hb. destruct (br_dt _ _ _ _ I bn Hb) as (b & x & Hlt & Hx & Hd & Hn).
    destruct (same_bcore_at _ _ _ _ Hback Hx) as (y & Hy & [E1 E2]%core_block). exists b, y. split; [done|]. split; [done|]. split; congruence.
Qed.

Lemma nx_upd s c x x' d :
  bufs s !! c = Some x ->
  nx (set_bufs (<[c := x']> (bufs s)) s) d = if decide (d = c) then Some (b_next x') else nx s d.
Proof.
  intros Hx. unfold nx. simpl. case_decide as Hd; [subst d|by rewrite list_lookup_insert_ne].
  by rewrite list_lookup_insert_eq by (by eapply lookup_lt_Some).
Qed.

Lemma pv_upd s c x x' d :
  bufs s !! c = Some x ->
  pv (set_bufs (<[c := x']> (bufs s)) s) d = if decide (d = c) then Some (b_prev x') else pv s d.
Proof.
  intros Hx. unfold pv. simpl. case_decide as Hd; [subst d|by rewrite list_lookup_insert_ne].
  by rewrite list_lookup_insert_eq by (by eapply lookup_lt_Some).
Qed.

(** A buffer's [next] or [prev] link is set. *)
Lemma wpx_set_next s c n (Q : unit -> bcache -> Prop) E :
  is_Some (bufs s !! c) ->
  (forall s', same_bcore s s' -> (forall d, nx s' d = if decide (d = c) then Some n else nx s d) ->
     (forall d, pv s' d = pv s d) -> Q tt s') ->
  wpx (bupd c (set_next n)) Q E s.
Proof.
  intros [x Hx] HQ. eapply wpx_bupd; [done|]. apply HQ.
  - by eapply same_bcore_upd.
  - intros d. by rewrite (nx_upd _ _ x).
  - intros d. rewrite (pv_upd _ _ x) by done. case_decide; [subst d|done]. unfold pv. by rewrite Hx.
Qed.

Lemma wpx_set_prev s c n (Q : unit -> bcache -> Prop) E :
  is_Some (bufs s !! c) ->
  (forall s', same_bcore s s' -> (forall d, pv s' d = if decide (d = c) then Some n else pv s d) ->
     (forall d, nx s' d = nx s d) -> Q tt s') ->
  wpx (bupd c (set_prev n)) Q E s.
Proof.
  intros [x Hx] HQ. eapply wpx_bupd; [done|]. apply HQ.
  - by eapply same_bcore_upd.
  - intros d. by rewrite (pv_upd _ _ x).
  - intros d. rewrite (nx_upd _ _ x) by done. case_decide; [subst d|done]. unfold nx. by rewrite Hx.
Qed.

Lemma same_bcore_some s s' c : same_bcore s s' -> is_Some (bufs s !! c) -> is_Some (bufs s' !! c).
Proof. intros Hc. rewrite !lookup_lt_is_Some. by rewrite (same_bcore_len _ _ Hc). Qed.

Lemma bunlink_spec s l1 b l2 E :
  circular (nx s) (pv s) HEAD (l1 ++ b :: l2) ->
  (forall c, c ∈ HEAD :: l1 ++ b :: l2 -> is_Some (bufs s !! c)) ->
  wpx (bunlink b) (fun _ s' => circular (nx s') (pv s') HEAD (l1 ++ l2) /\ same_bcore s s') E s.
Proof.
  intros Hc Hin. destruct (Hin b ltac:(set_solver)) as [x Hx].
  destruct (circular_neighbours _ _ _ _ _ _ Hc) as (p & n & Hp & Hn & Hpi & Hni).
  assert (b_prev x = p /\ b_next x = n) as [<- <-].
  { unfold pv, nx in Hp, Hn. rewrite Hx in Hp, Hn. by simplify_eq/=. }
  unfold bunlink. wp_step. eapply wpx_bref; [done|]. wp_step.
  apply wpx_set_prev; [apply Hin; set_solver|]. intros s1 Hs1 P1 N1.
  apply wpx_set_next; [eapply same_bcore_some; [done|]; apply Hin; set_solver|]. intros s2 Hs2 N2 P2.
  split; [|by eapply same_bcore_trans].
  eapply circular_unlink; [done|]. intros p n Hp' Hn'. rewrite Hp in Hp'. rewrite Hn in Hn'.
  injection Hp' as <-. injection Hn' as <-. rewrite N2, P2, P1, !decide_True by done.
  split_and!; [done|done| |]; intros c Hcn; [rewrite N2, N1|rewrite P2, P1]; by rewrite decide_False.
Qed.

Lemma bpush_spec s l b E :
  circular (nx s) (pv s) HEAD l -> b ∉ HEAD :: l ->
  (forall c, c ∈ HEAD :: b :: l -> is_Some (bufs s !! c)) ->
  wpx (bpush b) (fun _ s' => circular (nx s') (pv s') HEAD (b :: l) /\ same_bcore s s') E s.
Proof.
  intros Hc Hb Hin. destruct (Hin HEAD ltac:(set_solver)) as [h Hh].
  pose proof (circular_next _ _ _ [] l Hc HEAD eq_refl) as Hn.
  assert (Hne : b_next h ∈ HEAD :: l).
  { unfold nx in Hn. rewrite Hh in Hn. destruct l as [|n l]; simpl in Hn; injection Hn as ->; set_solver. }
  unfold bpush. wp_step. eapply wpx_bref; [done|]. wp_step.
  apply wpx_set_next; [apply Hin; set_solver|]. intros s1 Hs1 N1 P1. wp_step.
  apply wpx_set_prev; [eapply same_bcore_some; [done|]; apply Hin; set_solver|]. intros s2 Hs2 P2 N2. wp_step.
  pose proof (same_bcore_trans _ _ _ Hs1 Hs2) as C2.
  apply wpx_set_prev; [eapply same_bcore_some; [done|]; apply Hin; set_solver|]. intros s3 Hs3 P3 N3.
  pose proof (same_bcore_trans _ _ _ C2 Hs3) as C3.
  apply wpx_set_next; [eapply same_bcore_some; [done|]; apply Hin; set_solver|]. intros s4 Hs4 N4 P4.
  split; [|by eapply same_bcore_trans].
  eapply circular_push; [done|done|]. intros n Hn'. unfold nx in Hn'. rewrite Hh in Hn'. injection Hn' as <-.
  assert (b <> HEAD /\ b <> b_next h) as [Hb1 Hb2] by set_solver.
  split_and!.
  - by rewrite N4, decide_False, N3, N2, N1, decide_True.
  - by rewrite P4, P3, decide_False, P2, decide_True.
  - by rewrite P4, P3, decide_True.
  - by rewrite N4, decide_True.
  - intros c Hc1 Hc2. by rewrite N4, decide_False, N3, N2, N1, decide_False.
  - intros c Hc1 Hc2. by rewrite P4, P3, decide_False, P2, decide_False, P1.
Qed.

Lemma rep_unlock s v lk dt bn b x :
  bc_rep s v lk dt -> lk !! bn = Some b -> (bn ∈ dt \/ v !! bn = memdisk s !! bn) -> bufs s !! b = Some x ->
  bc_rep (set_bufs (<[b := set_refcnt 0 (set_lock (mkSleep 0 0) x)]> (bufs s)) s) v (delete bn lk) dt.
Proof.
  intros I Hl Hcl Hx. destruct (rep_locked s v lk dt bn b I Hl) as (y & Hb & Hy & Hlen & Hc & Hlk & Hr & Hoth).
  rewrite Hx in Hy. injection Hy as <-.
  eapply (rep_update s _ v v lk _ dt dt b bn x); try done; try apply I.
  - intros m Hm. by rewrite lookup_delete_ne.
  - left. split; apply Hc.
  - destruct Hc as [H1 H2 H3 H4 H5]. split; try done. by rewrite lookup_delete_eq.
  - intros Hn _. by destruct Hcl.
Qed.

(** [brelse] gives the lock of the block back and makes its buffer the most
    recently used one. *)
Lemma brelse_spec s v lk dt bn b E :
  bc_rep s v lk dt -> lk !! bn = Some b -> (bn ∈ dt \/ v !! bn = memdisk s !! bn) ->
  wpx (brelse b) (fun _ s' => same_disk s s' /\ bc_rep s' v (delete bn lk) dt /\ exists l, lru s' (b :: l)) E s.
Proof.
  intros I Hl Hcl. destruct (rep_locked s v lk dt bn b I Hl) as (x & Hb & Hx & Hlen & Hc & Hlk & Hr & Hoth).
  pose proof (rep_unlock s v lk dt bn b x I Hl Hcl Hx) as I'. pose proof (lookup_lt_Some _ _ _ Hx) as Hltb.
  unfold brelse. wp_step. eapply wpx_bholdingsleep; [done|]. rewrite Hlk. unfold sl_holding. simpl. rewrite Z.eqb_refl. simpl.
  wp_step. eapply wpx_breleasesleep; [done|]. wp_step. apply wpx_acquire; [apply I|].
  wp_step. eapply wpx_bupd; [simpl; by apply list_lookup_insert_eq|]. wp_step.
  eapply wpx_bref; [simpl; rewrite list_insert_insert_eq; by apply list_lookup_insert_eq|].
  cbn. rewrite list_insert_insert_eq, Hr. wp_step. change (u32 (1 - 1)) with 0. rewrite Z.eqb_refl. wp_step.
  set (s1 := set_bufs (<[b := set_refcnt 0 (set_lock (mkSleep 0 0) x)]> (bufs s)) s) in *.
  change (set_bufs _ _) with (set_bc_lock true s1).
  destruct (br_order _ _ _ _ I') as [l [Hcirc Hperm]].
  assert (Hinl : b ∈ l) by (rewrite Hperm, elem_of_seq; lia).
  apply list_elem_of_split in Hinl as (l1 & l2 & ->).
  assert (Hin : forall c, c ∈ HEAD :: l1 ++ b :: l2 -> is_Some (bufs s1 !! c)).
  { intros c Hcin. apply lookup_lt_is_Some_2. rewrite (br_len _ _ _ _ I').
    apply elem_of_cons in Hcin as [->|Hcin]; [unfold HEAD; lia|]. rewrite Hperm, elem_of_seq in Hcin. lia. }
  wp_use (bunlink_spec (set_bc_lock true s1) l1 b l2 _ Hcirc Hin). intros [] s2 [Hc2 Hs2].
  wp_use (bpush_spec s2 (l1 ++ l2) b _ Hc2).
  { destruct Hcirc as [_ [Hh Hnd]%NoDup_cons]. apply NoDup_app in Hnd as (_ & Hd & [Hb2 _]%NoDup_cons). set_solver. }
  { intros c Hcin. eapply same_bcore_some; [exact Hs2|]. apply Hin. set_solver. }
  intros [] s3 [Hc3 Hs3]. pose proof (same_bcore_trans _ _ _ Hs2 Hs3) as [Hsb Hsl Hsp [Hsm Hsw]].
  apply wpx_release; [done|].
  assert (Hlru : lru (set_bc_lock false s3) (b :: l1 ++ l2)).
  { split; [done|]. by rewrite Permutation_middle. }
  split; [by split|]. split; [|by eexists]. eapply (rep_relink s1); [done| |done].
  split; [done|symmetry; apply I|done|by split].
Qed.

(** The cache after [binit]. *)
Definition zero_blk : bytes := replicate BSIZE 0.
Definition bss_buf : buf := mkBuf 0 0 0 (mkSleep 0 0) 0 (S HEAD) (S HEAD) zero_blk.
Definition bss (pid : Z) (D : list bytes) (w : list (nat * bytes)) : bcache :=
  mkBcache (replicate (S NBUF) bss_buf) false pid D w.
Definition binit_buf (b : nat) : buf :=
  mkBuf 0 0 0 (mkSleep 0 0) 0 (if decide (b = HEAD) then 0%nat else S b) (if decide (b = 0)%nat then HEAD else pred b) zero_blk.

Lemma binit_run pid D w : binit (bss pid D w) = Ret tt (mkBcache (binit_buf <$> seq 0 (S NBUF)) false pid D w).
Proof. vm_compute. reflexivity. Qed.

Lemma binit_spec pid D w E :
  Forall is_blk D ->
  wpx binit (fun _ s => memdisk s = D /\ writes s = w /\ mypid s = pid /\ bc_rep s D ∅ ∅) E (bss pid D w).
Proof.
  intros HD. unfold wpx. rewrite binit_run. split_and!; try done.
  assert (Hat : forall b x, (binit_buf <$> seq 0 (S NBUF)) !! b = Some x -> x = binit_buf b).
  { intros b x. rewrite list_lookup_fmap. destruct (seq 0 (S NBUF) !! b) as [c|] eqn:Hs; [|done].
    apply lookup_seq in Hs as [-> _]. by intros [= <-]. }
  split; try done; simpl bufs.
  - exists (reverse (seq 0 NBUF)). split; [|by rewrite reverse_Permutation]. split; [|by apply (bool_decide_unpack (NoDup (HEAD :: reverse (seq 0 NBUF)))); vm_compute].
    vm_compute. repeat constructor.
  - intros b x _ ->%Hat. split; [done|]. left. split; done.
  - intros b c x y _ _ ->%Hat ->%Hat. done.
Qed.

(** ** Theorems *)

(** C13: the buffer cache is a set of blocks with locks.  Where the cache stands
    for the contents [v] with the blocks [lk] locked and [dt] pinned, [bread]
    of an unlocked block locks it in one buffer and writes nothing, and
    fails only when NBUF other blocks are locked or pinned; for a locked
    block, reading and writing the data of its buffer reads and writes [v],
    [bwrite] makes the disk agree with [v] there, with this one disk write, and
    [brelse] unlocks it and leaves its buffer most recently used. *)
Theorem bcache_refines_blocks s v lk dt bn :
  bc_rep s v lk dt -> (bn < length v)%nat ->
  (lk !! bn = None ->
     wpx (bread 1 (Z.of_nat bn)) (fun b s' => same_disk s s' /\ bc_rep s' v (<[bn := b]> lk) dt) (no_buffers lk dt bn) s) /\
  (forall b, lk !! bn = Some b ->
     wp (bdata b) (fun d s' => s' = s /\ v !! bn = Some d) s /\
     (forall d, is_blk d -> wp (bset b d) (fun _ s' => same_disk s s' /\ bc_rep s' (<[bn := d]> v) lk dt) s) /\
     (forall d, v !! bn = Some d ->
        wp (bwrite b) (fun _ s' => memdisk s' = <[bn := d]> (memdisk s) /\ writes s' = writes s ++ [(bn, d)] /\
                                   bc_rep s' v lk (dt ∖ {[bn]})) s) /\
     (bn ∈ dt \/ v !! bn = memdisk s !! bn ->
        wp (brelse b) (fun _ s' => same_disk s s' /\ bc_rep s' v (delete bn lk) dt /\ exists l, lru s' (b :: l)) s)).
Proof.
  intros I Hbn. split; [intros Hl; by apply bread_spec|]. intros b Hl. split_and!.
  - eapply wpx_mono; [by apply (bdata_spec s v lk dt bn)| |done]. by intros d s' (-> & H & _).
  - intros d Hd. by apply (bset_spec s v lk dt bn).
  - intros d Hd. by apply (bwrite_spec s v lk dt bn).
  - intros Hc. by apply (brelse_spec s v lk dt bn).
Qed.

(** After [binit], on a disk of two blocks. *)
Definition bio_demo : bcache := after binit (bss 1 [zero_blk; zero_blk] []).

Lemma wpx_cases {S A} (c : M S A) (Q : A -> S -> Prop) (E : string -> Prop) (s : S) :
  wpx c Q E s -> (exists a s', c s = Ret a s' /\ Q a s') \/ exists m, E m.
Proof. unfold wpx. destruct (c s); [by left; eauto|by right; eauto|done..]. Qed.

Lemma bcache_refines_blocks_witness : exists b s',
  bread 1 (Z.of_nat 1) bio_demo = Ret b s' /\ bc_rep s' [zero_blk; zero_blk] (<[1%nat := b]> ∅) ∅.
Proof.
  assert (HD : Forall is_blk [zero_blk; zero_blk]) by (repeat constructor).
  destruct (wp_after _ _ _ (binit_spec 1 _ [] _ HD)) as (_ & _ & _ & _ & I).
  destruct (bcache_refines_blocks bio_demo [zero_blk; zero_blk] ∅ ∅ 1 I ltac:(cbn; lia)) as [H _].
  destruct (wpx_cases _ _ _ _ (H (lookup_empty _))) as [(b & s' & Hr & _ & I')|(m & _ & _ & Hm)].
  - exists b, s'. exact (conj Hr I').
  - exfalso. revert Hm. replace (dom ∅ ∪ ∅ : gset nat) with (∅ : gset nat) by set_solver. rewrite size_empty. unfold NBUF. lia.
Defined.
