(* ===== verification/Log.v ===== *)
(** * The write-ahead log (src/log.c)

    The log of a transaction in memory, its copy on the disk, and the recovery
    that a reboot runs.  The cache below it is that of Bio.  [commit] is shown
    to write a fixed sequence of blocks to the disk, so that what a crash leaves
    on the disk is a prefix of that sequence. *)

From S2P Require Import Prelude.
From S2P Require Import Bytes.
From S2P Require Import Sleeplock.
From S2P Require Import Bio.

Open Scope Z_scope.

Definition MAXOPBLOCKS : Z := 10.
Definition LOGSIZE : Z := 30.

Record log := mkLog {
  bc : bcache;
  l_lock : bool;
  l_start : Z;
  l_size : Z;
  l_outstanding : Z;
  l_committing : Z;
  l_dev : Z;
  lh_n : Z;
  lh_block : list Z;
}.

Definition set_bc (v : bcache) (g : log) : log :=
  mkLog v (l_lock g) (l_start g) (l_size g) (l_outstanding g) (l_committing g) (l_dev g) (lh_n g) (lh_block g).
Definition set_l_lock (v : bool) (g : log) : log :=
  mkLog (bc g) v (l_start g) (l_size g) (l_outstanding g) (l_committing g) (l_dev g) (lh_n g) (lh_block g).
Definition set_geometry (start size dev : Z) (g : log) : log :=
  mkLog (bc g) (l_lock g) start size (l_outstanding g) (l_committing g) dev (lh_n g) (lh_block g).
Definition set_outstanding (v : Z) (g : log) : log :=
  mkLog (bc g) (l_lock g) (l_start g) (l_size g) v (l_committing g) (l_dev g) (lh_n g) (lh_block g).
Definition set_committing (v : Z) (g : log) : log :=
  mkLog (bc g) (l_lock g) (l_start g) (l_size g) (l_outstanding g) v (l_dev g) (lh_n g) (lh_block g).
Definition set_lh_n (v : Z) (g : log) : log :=
  mkLog (bc g) (l_lock g) (l_start g) (l_size g) (l_outstanding g) (l_committing g) (l_dev g) v (lh_block g).
Definition set_lh_block (v : list Z) (g : log) : log :=
  mkLog (bc g) (l_lock g) (l_start g) (l_size g) (l_outstanding g) (l_committing g) (l_dev g) (lh_n g) v.

(** A call into the buffer cache. *)
Definition inb {A} (c : M bcache A) : M log A := zoom bc set_bc c.

(** [log.lh.block[i]] and an assignment to it. *)
Definition lh_get (i : Z) : M log Z :=
  fun g =>
    if (0 <=? i) && (i <? LOGSIZE) then
      match lh_block g !! Z.to_nat i with Some b => Ret b g | None => Fault "lh.block" end
    else Fault "lh.block".
Definition lh_put (i v : Z) : M log unit :=
  if (0 <=? i) && (i <? LOGSIZE) then modify (fun g => set_lh_block (<[Z.to_nat i := v]> (lh_block g)) g)
  else fault "lh.block".

(** Store a word of a struct that lies over the data of a buffer. *)
Definition bpoke (b : nat) (off : nat) (v : Z) : M log unit :=
  let! d := inb (bdata b) in inb (bset b (wr32 d off v)).

(** The offset of [block[i]] in a [struct logheader]. *)
Definition off_block (i : Z) : nat := Z.to_nat (4 + 4 * i).

Definition install_trans : M log unit :=
  let! n := gets lh_n in
  mfor (zrange 0 (Z.to_nat n)) (fun tail =>
    let! dev := gets l_dev in
    let! start := gets l_start in
    let! lbuf := inb (bread dev (u32 (start + tail + 1))) in
    let! blk := lh_get tail in
    let! dbuf := inb (bread dev (u32 blk)) in
    let! d := inb (bdata lbuf) in
    do! inb (bset dbuf d) in
    do! inb (bwrite dbuf) in
    do! inb (brelse lbuf) in
    inb (brelse dbuf)).

Definition read_head : M log unit :=
  let! dev := gets l_dev in
  let! start := gets l_start in
  let! buf := inb (bread dev (u32 start)) in
  let! d := inb (bdata buf) in
  let n := s32 (rd32 d 0) in
  do! modify (set_lh_n n) in
  do! mfor (zrange 0 (Z.to_nat n)) (fun i => lh_put i (s32 (rd32 d (off_block i)))) in
  inb (brelse buf).

Definition write_head : M log unit :=
  let! dev := gets l_dev in
  let! start := gets l_start in
  let! buf := inb (bread dev (u32 start)) in
  let! n := gets lh_n in
  do! bpoke buf 0 (u32 n) in
  do! mfor (zrange 0 (Z.to_nat n)) (fun i => let! b := lh_get i in bpoke buf (off_block i) (u32 b)) in
  do! inb (bwrite buf) in
  inb (brelse buf).

Definition recover_from_log : M log unit :=
  do! read_head in
  do! install_trans in
  do! modify (set_lh_n 0) in
  write_head.

Definition log_acquire : M log unit := lock_acquire l_lock set_l_lock.
Definition log_release : M log unit := lock_release l_lock set_l_lock.

(** An operation that has to wait sleeps until another process wakes it; seen
    from this process alone, the call does not return. *)
Definition begin_op : M log unit :=
  do! log_acquire in
  let! committing := gets l_committing in
  let! n := gets lh_n in
  let! out := gets l_outstanding in
  if nz committing then nofuel
  else if LOGSIZE <? n + (out + 1) * MAXOPBLOCKS then nofuel
  else
    do! modify (set_outstanding (out + 1)) in
    log_release.

Definition write_log : M log unit :=
  let! n := gets lh_n in
  mfor (zrange 0 (Z.to_nat n)) (fun tail =>
    let! dev := gets l_dev in
    let! start := gets l_start in
    let! to := inb (bread dev (u32 (start + tail + 1))) in
    let! blk := lh_get tail in
    let! from := inb (bread dev (u32 blk)) in
    let! d := inb (bdata from) in
    do! inb (bset to d) in
    do! inb (bwrite to) in
    do! inb (brelse from) in
    inb (brelse to)).

Definition commit : M log unit :=
  let! n := gets lh_n in
  if 0 <? n then
    do! write_log in
    do! write_head in
    do! install_trans in
    do! modify (set_lh_n 0) in
    write_head
  else ret tt.

Definition end_op : M log unit :=
  do! log_acquire in
  do! modify (fun g => set_outstanding (l_outstanding g - 1) g) in
  let! committing := gets l_committing in
  if nz committing then panic "log.committing"
  else
    let! out := gets l_outstanding in
    do! (if out =? 0 then modify (set_committing 1) else ret tt) in
    do! log_release in
    if out =? 0 then
      do! commit in
      do! log_acquire in
      do! modify (set_committing 0) in
      log_release
    else ret tt.

(** [for(i = 0; i < log.lh.n; i++) if(log.lh.block[i] == blockno) break] *)
Fixpoint absorb (blockno : Z) (k : nat) (i : Z) : M log Z :=
  match k with
  | O => ret i
  | S k' =>
      let! b := lh_get i in
      if u32 b =? blockno then ret i else absorb blockno k' (i + 1)
  end.

Definition log_write (b : nat) : M log unit :=
  let! n := gets lh_n in
  let! size := gets l_size in
  if (LOGSIZE <=? n) || (size - 1 <=? n) then panic "too big a transaction"
  else
    let! out := gets l_outstanding in
    if out <? 1 then panic "log_write outside of trans"
    else
      do! log_acquire in
      let! x := inb (bref b) in
      let! i := absorb (b_blockno x) (Z.to_nat n) 0 in
      do! lh_put i (s32 (b_blockno x)) in
      do! (if i =? n then modify (set_lh_n (n + 1)) else ret tt) in
      do! inb (bpin b) in
      log_release.

(** The superblock ([struct superblock] of src/fs.h). *)
Record superblock := mkSuper {
  sb_size : Z;
  sb_nblocks : Z;
  sb_ninodes : Z;
  sb_nlog : Z;
  sb_logstart : Z;
  sb_inodestart : Z;
  sb_bmapstart : Z;
}.

(** The [memmove] from the data of the superblock's buffer (src/fs.c). *)
Definition get_superblock (d : bytes) : superblock :=
  mkSuper (rd32 d 0) (rd32 d 4) (rd32 d 8) (rd32 d 12) (rd32 d 16) (rd32 d 20) (rd32 d 24).

Definition readsb (dev : Z) : M log superblock :=
  let! bp := inb (bread dev 1) in
  let! d := inb (bdata bp) in
  do! inb (brelse bp) in
  ret (get_superblock d).

(** [sizeof(struct logheader)] is 4 + 4 * LOGSIZE. *)
Definition initlog (dev : Z) : M log unit :=
  if Z.of_nat BSIZE <=? 4 + 4 * LOGSIZE then panic "initlog: too big logheader"
  else
    do! modify (set_l_lock false) in
    let! sb := readsb dev in
    do! modify (set_geometry (s32 (sb_logstart sb)) (s32 (sb_nlog sb)) dev) in
    recover_from_log.

#[export] Hint Unfold log_acquire log_release : wp.

(** ** What the log does to the disk *)

(** A sequence of disk writes. *)
Definition apply_writes (ws : list (nat * bytes)) (D : list bytes) : list bytes :=
  foldl (fun D w => <[w.1 := w.2]> D) D ws.

(** The header block with its first word set to [n] and [bs] after it. *)
Fixpoint put_words (d : bytes) (off : nat) (ws : list Z) : bytes :=
  match ws with
  | [] => d
  | w :: ws' => put_words (wr32 d off (u32 w)) (off + 4) ws'
  end.
Definition header (d : bytes) (bs : list nat) : bytes :=
  put_words d 0 (Z.of_nat (length bs) :: (Z.of_nat <$> bs)).
Definition clear_header (d : bytes) : bytes := wr32 d 0 0.

(** The log blocks of a transaction, and its home blocks. *)
Definition log_writes (st : nat) (ds : list bytes) : list (nat * bytes) := zip (seq (st + 1) (length ds)) ds.
Definition home_writes (bs : list nat) (ds : list bytes) : list (nat * bytes) := zip bs ds.

(** * Lemmas *)

(** ** Sequences of writes *)

Lemma apply_writes_app ws1 ws2 D : apply_writes (ws1 ++ ws2) D = apply_writes ws2 (apply_writes ws1 D).
Proof. apply foldl_app. Qed.

Lemma apply_writes_snoc ws b d D : apply_writes (ws ++ [(b, d)]) D = <[b := d]> (apply_writes ws D).
Proof. by rewrite apply_writes_app. Qed.

Lemma length_apply_writes ws D : length (apply_writes ws D) = length D.
Proof. revert D. induction ws as [|w ws IH]; intros D; [done|]. simpl. by rewrite IH, length_insert. Qed.

Lemma apply_writes_other ws D m : m ∉ ws.*1 -> apply_writes ws D !! m = D !! m.
Proof.
  revert D. induction ws as [|[b d] ws IH]; intros D Hm; [done|]. simpl in *.
  rewrite IH by set_solver. apply list_lookup_insert_ne. set_solver.
Qed.

Lemma apply_writes_at ws D m d :
  NoDup ws.*1 -> (m, d) ∈ ws -> (m < length D)%nat -> apply_writes ws D !! m = Some d.
Proof.
  revert D. induction ws as [|[b e] ws IH]; intros D Hn Hin Hm; [by apply elem_of_nil in Hin|].
  simpl in *. apply NoDup_cons in Hn as [Hb Hn]. apply elem_of_cons in Hin as [[= <- <-]|Hin].
  - rewrite apply_writes_other by done. by apply list_lookup_insert_eq.
  - apply IH; [done..|]. by rewrite length_insert.
Qed.

Lemma apply_writes_blk ws D :
  Forall is_blk D -> Forall is_blk ws.*2 -> Forall is_blk (apply_writes ws D).
Proof.
  revert D. induction ws as [|[b d] ws IH]; intros D HD Hw; [done|]. simpl in *.
  apply Forall_cons in Hw as [H1 H2]. apply IH; [|done]. by apply insert_blk.
Qed.

(** ** Calls into the cache *)

Lemma wpx_inb {A} (c : M bcache A) (Q : A -> log -> Prop) E g :
  wpx c (fun a s => Q a (set_bc s g)) E (bc g) -> wpx (inb c) Q E g.
Proof. apply wpx_zoom. Qed.

(** Use a triple of the cache for the call at the head of the goal. *)
Tactic Notation "inb_use" uconstr(H) :=
  try apply wpx_bind; apply wpx_inb; cbn beta; eapply wpx_mono; [apply H | cbn beta | try done].

(** ** One copied block *)

(** What a step of the log does: it changes nothing but the cache. *)
Definition bstep (g : log) (Q : bcache -> Prop) (g' : log) : Prop := exists s, g' = set_bc s g /\ Q s.

Lemma copy_tail g v lk dt m k a b d E :
  bc_rep (bc g) v lk dt -> lk !! m = Some a -> lk !! k = Some b -> m <> k -> v !! m = Some d ->
  (m ∈ dt \/ v !! m = memdisk (bc g) !! m) ->
  wpx (let! d := inb (bdata a) in
       do! inb (bset b d) in
       do! inb (bwrite b) in
       do! inb (brelse a) in
       inb (brelse b))
    (fun _ => bstep g (fun s => bc_rep s (<[k := d]> v) (delete k (delete m lk)) (dt ∖ {[k]}) /\
                                memdisk s = <[k := d]> (memdisk (bc g)) /\ writes s = writes (bc g) ++ [(k, d)])) E g.
Proof.
  intros I Ha Hb Hne Hd Hcl.
  assert (Hklen : (k < length v)%nat).
  { destruct (rep_locked _ _ _ _ _ _ I Hb) as (x & _ & _ & _ & Hc & _). by eapply lookup_lt_Some, ca_data. }
  inb_use (bdata_spec _ _ _ _ _ _ _ I Ha). intros d' s [-> [Hd' Hblk]].
  rewrite Hd in Hd'. injection Hd' as <-.
  inb_use (bset_spec _ _ _ _ _ _ d _ I Hb Hblk). intros _ s1 [[M1 W1] I1].
  inb_use (bwrite_spec _ _ _ _ _ _ d _ I1 Hb).
  { by apply list_lookup_insert_eq. }
  intros _ s2 (M2 & W2 & I2). inb_use (brelse_spec _ _ _ _ _ _ _ I2 Ha).
  { rewrite M2, !list_lookup_insert_ne by done. rewrite M1. destruct Hcl; [left; set_solver|by right]. }
  intros _ s3 ([M3 W3] & I3 & _).
  assert (Hb' : delete m lk !! k = Some b) by (by rewrite lookup_delete_ne).
  inb_use (brelse_spec _ _ _ _ _ _ _ I3 Hb').
  { right. simpl. rewrite M3, M2, !list_lookup_insert_eq; [done|..|done]. rewrite M1, <- (br_size _ _ _ _ I). done. }
  intros _ s4 ([M4 W4] & I4 & _). exists s4. simpl in *. split; [done|]. split; [done|]. split; congruence.
Qed.

(** ** The loops over the log *)

(** The log in memory has the home blocks [bs], and the log area starts at
    [st]; the area and the home blocks are apart, and on the disk. *)
Record log_geom (g : log) (st : nat) (bs : list nat) (size : nat) : Prop := {
  lg_dev : l_dev g = 1;
  lg_start : l_start g = Z.of_nat st;
  lg_n : lh_n g = Z.of_nat (length bs);
  lg_len : length (lh_block g) = Z.to_nat LOGSIZE;
  lg_blocks : take (length bs) (lh_block g) = Z.of_nat <$> bs;
  lg_cap : Z.of_nat (length bs) < LOGSIZE;
  lg_home : forall m, m ∈ bs -> (m < size)%nat /\ (m < st \/ st + length bs < m)%nat;
  lg_area : (st + length bs < size)%nat;
  lg_size : Z.of_nat size < 2147483648;
}.

(** From [g], the cache changes so that it holds [v] with [dt] pinned, and the
    writes [ws] reach the disk. *)
Definition logged (g : log) (ws : list (nat * bytes)) (v : list bytes) (dt : gset nat) (g' : log) : Prop :=
  bstep g (fun s => bc_rep s v ∅ dt /\ memdisk s = apply_writes ws (memdisk (bc g)) /\ writes s = writes (bc g) ++ ws) g'.

Lemma lh_get_spec g st bs size i b (Q : Z -> log -> Prop) E :
  log_geom g st bs size -> bs !! i = Some b -> Q (Z.of_nat b) g -> wpx (lh_get (Z.of_nat i)) Q E g.
Proof.
  intros G Hb HQ. pose proof (lookup_lt_Some _ _ _ Hb) as Hi. pose proof (lg_cap _ _ _ _ G) as Hc.
  unfold wpx, lh_get. rewrite (proj2 (Z.leb_le _ _)), (proj2 (Z.ltb_lt _ _)) by lia. simpl. rewrite Nat2Z.id.
  pose proof (lg_blocks _ _ _ _ G) as Hbl. apply (f_equal (.!! i)) in Hbl.
  rewrite lookup_take_lt, list_lookup_fmap, Hb in Hbl by done. by rewrite Hbl.
Qed.

Lemma geom_set_bc g st bs size s : log_geom g st bs size -> log_geom (set_bc s g) st bs size.
Proof. by intros [? ? ? ? ? ? ? ? ?]. Qed.

Lemma u32_nat m size : (m < size)%nat -> Z.of_nat size < 2147483648 -> u32 (Z.of_nat m) = Z.of_nat m.
Proof. intros. apply u32_small. unfold is_u32. lia. Qed.

Lemma log_block g st bs size i :
  log_geom g st bs size -> (i < length bs)%nat ->
  u32 (l_start g + Z.of_nat i + 1) = Z.of_nat (st + 1 + i) /\ (st + 1 + i < size)%nat.
Proof.
  intros G Hi. pose proof (lg_area _ _ _ _ G). split; [|lia]. rewrite (lg_start _ _ _ _ G).
  replace (Z.of_nat st + Z.of_nat i + 1) with (Z.of_nat (st + 1 + i)) by lia.
  eapply u32_nat; [|apply (lg_size _ _ _ _ G)]. lia.
Qed.

Lemma not_full (lk : gmap nat nat) (dt : gset nat) bn m (k : nat) :
  no_buffers lk dt bn m -> (size (dom lk ∪ dt) <= k)%nat -> (k < NBUF)%nat -> False.
Proof. intros (_ & _ & H) ? ?. lia. Qed.

(** [bread] of a block that finds room. *)
Lemma bread_room s v lk dt bn :
  bc_rep s v lk dt -> lk !! bn = None -> (bn < length v)%nat -> (bn ∈ dt \/ size (dom lk ∪ dt) < NBUF)%nat ->
  wp (bread 1 (Z.of_nat bn)) (fun b s' => same_disk s s' /\ bc_rep s' v (<[bn := b]> lk) dt) s.
Proof.
  intros I Hl Hb Hr. eapply wpx_mono; [by apply bread_spec|done|]. intros m (_ & Hd & Hf). destruct Hr; [done|lia].
Qed.

Lemma size_one (m b : nat) : size (dom (<[m := b]> (∅ : gmap nat nat)) ∪ ∅ : gset nat) = 1%nat.
Proof. rewrite dom_insert_L, dom_empty_L, !union_empty_r_L. apply size_singleton. Qed.

(** Two locked blocks, given back. *)
Lemma delete_two (m k a b : nat) : m <> k -> delete k (delete m (<[k := b]> (<[m := a]> (∅ : gmap nat nat)))) = ∅.
Proof.
  intros Hne. apply map_eq. intros i. destruct (decide (i = k)) as [->|]; [by simplify_map_eq|].
  destruct (decide (i = m)) as [->|]; by simplify_map_eq.
Qed.

Lemma delete_two' (m k a b : nat) : m <> k -> delete k (delete m (<[m := a]> (<[k := b]> (∅ : gmap nat nat)))) = ∅.
Proof. intros Hne. rewrite insert_insert_ne by done. by apply delete_two. Qed.

Lemma take_snoc {A} (l : list A) i x : l !! i = Some x -> take (S i) l = take i l ++ [x].
Proof. intros H. by rewrite (take_S_r _ _ x). Qed.

Lemma lookup_log_writes st ds i d : ds !! i = Some d -> log_writes st ds !! i = Some (st + 1 + i, d)%nat.
Proof.
  intros H. unfold log_writes. apply lookup_zip_with_Some. exists (st + 1 + i)%nat, d. split; [done|]. split; [|done].
  apply lookup_seq. split; [done|]. by eapply lookup_lt_Some.
Qed.

Lemma length_log_writes st ds : length (log_writes st ds) = length ds.
Proof. unfold log_writes. rewrite length_zip_with, length_seq. lia. Qed.

Lemma log_writes_fst st ds : (log_writes st ds).*1 = seq (st + 1) (length ds).
Proof. unfold log_writes. apply fst_zip. by rewrite length_seq. Qed.

Lemma log_writes_snd st ds : (log_writes st ds).*2 = ds.
Proof. unfold log_writes. apply snd_zip. by rewrite length_seq. Qed.

Lemma log_writes_other st ds i D m :
  (m < st + 1 \/ st + length ds < m)%nat -> apply_writes (take i (log_writes st ds)) D !! m = D !! m.
Proof.
  intros Hm. apply apply_writes_other. rewrite fmap_take, log_writes_fst. intros Hin.
  assert (m ∈ seq (st + 1) (length ds)) as He by (eapply subseteq_take; exact Hin). apply elem_of_seq in He. lia.
Qed.

Section loops.
Context (g : log) (st : nat) (bs : list nat) (size : nat).
Hypothesis G : log_geom g st bs size.

(** One turn of [write_log]. *)
Lemma write_log_step v i b d s :
  length v = size -> NoDup bs -> bs !! i = Some b -> bc_rep s v ∅ (list_to_set bs) -> v !! b = Some d ->
  wp (let! dev := gets l_dev in
      let! start := gets l_start in
      let! to := inb (bread dev (u32 (start + Z.of_nat i + 1))) in
      let! blk := lh_get (Z.of_nat i) in
      let! from := inb (bread dev (u32 blk)) in
      let! d := inb (bdata from) in
      do! inb (bset to d) in
      do! inb (bwrite to) in
      do! inb (brelse from) in
      inb (brelse to))
    (fun _ => bstep (set_bc s g) (fun s' => bc_rep s' (<[(st + 1 + i)%nat := d]> v) ∅ (list_to_set bs) /\
        memdisk s' = <[(st + 1 + i)%nat := d]> (memdisk s) /\ writes s' = writes s ++ [((st + 1 + i)%nat, d)])) (set_bc s g).
Proof.
  intros Hv Hnd Hb I Hd. pose proof (lookup_lt_Some _ _ _ Hb) as Hi. pose proof (geom_set_bc _ _ _ _ s G) as Gs.
  destruct (log_block _ _ _ _ i Gs Hi) as [Hu Hlt].
  destruct (lg_home _ _ _ _ G b) as [Hbl Hbo]; [by eapply list_elem_of_lookup_2|].
  assert (Hbdt : b ∈ (list_to_set bs : gset nat)) by (apply elem_of_list_to_set; by eapply list_elem_of_lookup_2).
  assert (Hkdt : (st + 1 + i)%nat ∉ (list_to_set bs : gset nat)).
  { rewrite elem_of_list_to_set. intros Hin. destruct (lg_home _ _ _ _ G _ Hin). lia. }
  wp_step. wp_step. rewrite (lg_dev _ _ _ _ Gs). wp_step. wp_step. rewrite Hu.
  inb_use (bread_room _ _ _ _ (st + 1 + i) I).
  { done. } { by rewrite Hv. }
  { right. rewrite dom_empty_L, union_empty_l_L, size_list_to_set by done. pose proof (lg_cap _ _ _ _ G).
    unfold LOGSIZE, NBUF in *. lia. }
  intros a s1 [[M1 W1] I1]. wp_step. eapply lh_get_spec; [by apply geom_set_bc, geom_set_bc|done|].
  rewrite (u32_nat b size) by (done || apply (lg_size _ _ _ _ G)).
  inb_use (bread_room _ _ _ _ b I1).
  { rewrite lookup_insert_ne by lia. done. } { by rewrite Hv. } { by left. }
  intros c s2 [[M2 W2] I2].
  wp_use (copy_tail (set_bc s2 _) v _ _ b (st + 1 + i) c a d never I2).
  - by rewrite lookup_insert_eq.
  - rewrite lookup_insert_ne by lia. by rewrite lookup_insert_eq.
  - lia.
  - done.
  - by left.
  - intros _ g' (s' & -> & I' & M' & W'). exists s'. split; [done|]. cbn in M', W'.
    rewrite delete_two' in I' by lia. replace (_ ∖ _) with (list_to_set bs : gset nat) in I' by set_solver.
    split; [done|]. split; congruence.
Qed.

(** Every home block has its data. *)
Definition home_data (v ds : list bytes) : Prop :=
  length ds = length bs /\ forall i b d, bs !! i = Some b -> ds !! i = Some d -> v !! b = Some d.

Lemma write_log_spec v ds :
  length v = size -> home_data v ds -> NoDup bs -> bc_rep (bc g) v ∅ (list_to_set bs) ->
  wp write_log (fun _ => logged g (log_writes st ds) (apply_writes (log_writes st ds) v) (list_to_set bs)) g.
Proof.
  intros Hv [Hlen Hds] Hnd I. unfold write_log. wp_step. wp_step. rewrite (lg_n _ _ _ _ G), Nat2Z.id.
  eapply wpx_mono.
  - apply (wpx_zrange _ (fun i => logged g (take (Z.to_nat i) (log_writes st ds))
                                    (apply_writes (take (Z.to_nat i) (log_writes st ds)) v) (list_to_set bs))).
    + intros i g' Hi (s & -> & Is & Ms & Ws). set (k := Z.to_nat i) in *. assert (Hk : i = Z.of_nat k) by lia.
      destruct (lookup_lt_is_Some_2 bs k) as [b Hb]; [lia|]. destruct (lookup_lt_is_Some_2 ds k) as [d Hd]; [lia|].
      rewrite Hk. wp_use (write_log_step (apply_writes (take k (log_writes st ds)) v) k b d s).
      * by rewrite length_apply_writes.
      * done.
      * done.
      * done.
      * rewrite log_writes_other; [by eapply Hds|].
        destruct (lg_home _ _ _ _ G b) as [_ Ho]; [by eapply list_elem_of_lookup_2|]. lia.
      * intros _ g'' (s' & -> & I' & M' & W'). exists s'. split; [done|].
        replace (Z.to_nat (Z.of_nat k + 1)) with (S k) by lia.
        rewrite (take_snoc _ _ _ (lookup_log_writes st ds k d Hd)), !apply_writes_snoc.
        rewrite M', W', Ms, Ws, <- app_assoc. done.
    + exists (bc g). split; [by destruct g|]. by rewrite app_nil_r.
  - cbn beta. intros _ g'. rewrite Z.add_0_l, Nat2Z.id, firstn_all2; [done|]. rewrite length_log_writes. lia.
  - done.
Qed.

(** One turn of [install_trans]. *)
Lemma install_step v dt i b d s :
  length v = size -> bs !! i = Some b -> bc_rep s v ∅ dt -> v !! (st + 1 + i)%nat = Some d ->
  (st + 1 + i)%nat ∉ dt -> (base.size dt < NBUF)%nat -> (b ∈ dt \/ dt = ∅) ->
  wp (let! dev := gets l_dev in
      let! start := gets l_start in
      let! lbuf := inb (bread dev (u32 (start + Z.of_nat i + 1))) in
      let! blk := lh_get (Z.of_nat i) in
      let! dbuf := inb (bread dev (u32 blk)) in
      let! d := inb (bdata lbuf) in
      do! inb (bset dbuf d) in
      do! inb (bwrite dbuf) in
      do! inb (brelse lbuf) in
      inb (brelse dbuf))
    (fun _ => bstep (set_bc s g) (fun s' => bc_rep s' (<[b := d]> v) ∅ (dt ∖ {[b]}) /\
        memdisk s' = <[b := d]> (memdisk s) /\ writes s' = writes s ++ [(b, d)])) (set_bc s g).
Proof.
  intros Hv Hb I Hd Hkdt Hsz Hbdt. pose proof (lookup_lt_Some _ _ _ Hb) as Hi. pose proof (geom_set_bc _ _ _ _ s G) as Gs.
  destruct (log_block _ _ _ _ i Gs Hi) as [Hu Hlt].
  destruct (lg_home _ _ _ _ G b) as [Hbl Hbo]; [by eapply list_elem_of_lookup_2|].
  wp_step. wp_step. rewrite (lg_dev _ _ _ _ Gs). wp_step. wp_step. rewrite Hu.
  inb_use (bread_room _ _ _ _ (st + 1 + i) I).
  { done. } { by rewrite Hv. } { right. by rewrite dom_empty_L, union_empty_l_L. }
  intros a s1 [[M1 W1] I1]. wp_step. eapply lh_get_spec; [by apply geom_set_bc, geom_set_bc|done|].
  rewrite (u32_nat b size) by (done || apply (lg_size _ _ _ _ G)).
  inb_use (bread_room _ _ _ _ b I1).
  { rewrite lookup_insert_ne by lia. done. } { by rewrite Hv. }
  { destruct Hbdt as [?| ->]; [by left|]. right. rewrite size_one. unfold NBUF. lia. }
  intros c s2 [[M2 W2] I2].
  wp_use (copy_tail (set_bc s2 _) v _ _ (st + 1 + i) b a c d never I2).
  - rewrite lookup_insert_ne by lia. by rewrite lookup_insert_eq.
  - by rewrite lookup_insert_eq.
  - lia.
  - done.
  - right. cbn. rewrite M2. cbn. rewrite M1. by apply (br_clean _ _ _ _ I).
  - intros _ g' (s' & -> & I' & M' & W'). exists s'. split; [done|]. cbn in M', W'.
    rewrite delete_two in I' by lia. split; [done|]. split; congruence.
Qed.

(** The log blocks have the data [ds]. *)
Definition log_data (v ds : list bytes) : Prop :=
  length ds = length bs /\ forall i d, ds !! i = Some d -> v !! (st + 1 + i)%nat = Some d.

Lemma lookup_home_writes ds i b d : bs !! i = Some b -> ds !! i = Some d -> home_writes bs ds !! i = Some (b, d).
Proof. intros Hb Hd. apply lookup_zip_with_Some. by exists b, d. Qed.

Lemma home_writes_fst ds : length ds = length bs -> (home_writes bs ds).*1 = bs.
Proof. intros H. apply fst_zip. lia. Qed.

Lemma home_writes_other ds i D m :
  length ds = length bs -> (m ∉ bs) -> apply_writes (take i (home_writes bs ds)) D !! m = D !! m.
Proof.
  intros Hl Hm. apply apply_writes_other. rewrite fmap_take, home_writes_fst by done.
  intros Hin. apply Hm. eapply subseteq_take. exact Hin.
Qed.

Lemma log_not_home i : (i <= length bs)%nat -> (st + i)%nat ∉ bs.
Proof. intros Hi Hin. destruct (lg_home _ _ _ _ G _ Hin). lia. Qed.

(** The blocks that are pinned while [install_trans] runs: none during
    recovery; those not installed yet during a commit. *)
Lemma install_room dt k b :
  (dt = ∅ \/ dt = list_to_set bs /\ NoDup bs) -> bs !! k = Some b ->
  ((st + 1 + k)%nat ∉ dt ∖ list_to_set (take k bs)) /\
  (base.size (dt ∖ list_to_set (take k bs) : gset nat) < NBUF)%nat /\
  (b ∈ dt ∖ list_to_set (take k bs) \/ dt ∖ list_to_set (take k bs) = ∅).
Proof.
  intros Hdt Hb. pose proof (lookup_lt_Some _ _ _ Hb). pose proof (lg_cap _ _ _ _ G) as Hcap. unfold LOGSIZE in Hcap.
  pose proof (log_not_home (1 + k) ltac:(lia)) as Hnh. rewrite Nat.add_assoc in Hnh.
  split_and!.
  - destruct Hdt as [->|[-> _]]; [set_solver|]. rewrite elem_of_difference, elem_of_list_to_set. tauto.
  - eapply Nat.le_lt_trans; [apply subseteq_size, subseteq_difference_l; reflexivity|].
    destruct Hdt as [->|[-> Hnd]]; [rewrite size_empty; unfold NBUF; lia|].
    rewrite size_list_to_set by done. unfold NBUF. lia.
  - destruct Hdt as [->|[-> Hnd]]; [right; set_solver|left].
    apply elem_of_difference. split; [apply elem_of_list_to_set; by eapply list_elem_of_lookup_2|].
    rewrite elem_of_list_to_set. intros Hin. apply list_elem_of_lookup in Hin as [j Hj].
    apply lookup_take_Some in Hj as [Hj Hlt]. pose proof (NoDup_lookup _ _ _ _ Hnd Hb Hj). lia.
Qed.

Lemma install_spec v ds dt :
  length v = size -> log_data v ds -> bc_rep (bc g) v ∅ dt ->
  (dt = ∅ \/ dt = list_to_set bs /\ NoDup bs) ->
  wp install_trans (fun _ => logged g (home_writes bs ds) (apply_writes (home_writes bs ds) v) ∅) g.
Proof.
  intros Hv [Hlen Hds] I Hdt. unfold install_trans. wp_step. wp_step. rewrite (lg_n _ _ _ _ G), Nat2Z.id.
  eapply wpx_mono.
  - apply (wpx_zrange _ (fun i => logged g (take (Z.to_nat i) (home_writes bs ds))
       (apply_writes (take (Z.to_nat i) (home_writes bs ds)) v) (dt ∖ list_to_set (take (Z.to_nat i) bs)))).
    + intros i g' Hi (s & -> & Is & Ms & Ws). set (k := Z.to_nat i) in *. assert (Hk : i = Z.of_nat k) by lia.
      destruct (lookup_lt_is_Some_2 bs k) as [b Hb]; [lia|]. destruct (lookup_lt_is_Some_2 ds k) as [d Hd]; [lia|].
      pose proof (log_not_home (1 + k) ltac:(lia)) as Hnh. rewrite Nat.add_assoc in Hnh.
      destruct (install_room dt k b Hdt Hb) as (R1 & R2 & R3).
      rewrite Hk. wp_use (install_step (apply_writes (take k (home_writes bs ds)) v) (dt ∖ list_to_set (take k bs)) k b d s);
        [by rewrite length_apply_writes|done|done|by rewrite home_writes_other by done; apply Hds|done..|].
      intros _ g'' (s' & -> & I' & M' & W'). exists s'. split; [done|].
      replace (Z.to_nat (Z.of_nat k + 1)) with (S k) by lia.
      rewrite (take_snoc _ _ _ (lookup_home_writes ds k b d Hb Hd)), !apply_writes_snoc.
      rewrite M', W', Ms, Ws, <- app_assoc, (take_snoc _ _ _ Hb).
      replace (dt ∖ list_to_set (take k bs ++ [b])) with (dt ∖ list_to_set (take k bs) ∖ {[b]}) by set_solver. done.
    + exists (bc g). split; [by destruct g|]. rewrite app_nil_r. simpl. rewrite difference_empty_L. done.
  - cbn beta. intros _ g'. rewrite Z.add_0_l, Nat2Z.id, !firstn_all2 by (unfold home_writes; rewrite ?length_zip_with; lia).
    replace (dt ∖ list_to_set bs) with (∅ : gset nat); [done|]. destruct Hdt as [->|[-> _]]; set_solver.
  - done.
Qed.

(** *** The header block *)

Lemma put_words_snoc d off ws w : put_words d off (ws ++ [w]) = wr32 (put_words d off ws) (off + 4 * length ws) (u32 w).
Proof.
  revert d off. induction ws as [|x ws IH]; intros d off; simpl.
  - f_equal. lia.
  - rewrite IH. f_equal. lia.
Qed.

Lemma length_put_words d off ws : length (put_words d off ws) = length d.
Proof. revert d off. induction ws as [|x ws IH]; intros d off; [done|]. simpl. by rewrite IH, length_wr32. Qed.

Lemma bpoke_spec g' v lk dt bn b d off x E :
  bc_rep (bc g') v lk dt -> lk !! bn = Some b -> v !! bn = Some d ->
  wpx (bpoke b off x) (fun _ => bstep g' (fun s => same_disk (bc g') s /\ bc_rep s (<[bn := wr32 d off x]> v) lk dt)) E g'.
Proof.
  intros I Hl Hd. unfold bpoke. inb_use (bdata_spec _ _ _ _ _ _ _ I Hl). intros d' s [-> [Hd' Hblk]].
  rewrite Hd in Hd'. injection Hd' as <-.
  inb_use (bset_spec _ _ _ _ _ _ (wr32 d off x) _ I Hl).
  { unfold is_blk. by rewrite length_wr32. }
  intros _ s1 H1. by exists s1.
Qed.

(** The header's words, stored one by one. *)
Lemma head_loop v dt h b s :
  length v = size -> (st < size)%nat -> same_disk (bc g) s ->
  bc_rep s (<[st := put_words h 0 [Z.of_nat (length bs)]]> v) {[st := b]} dt ->
  wp (mfor (zrange 0 (length bs)) (fun i => let! c := lh_get i in bpoke b (off_block i) (u32 c)))
    (fun _ => bstep g (fun s' => same_disk (bc g) s' /\ bc_rep s' (<[st := header h bs]> v) {[st := b]} dt)) (set_bc s g).
Proof.
  intros Hv Hst Hs I. eapply wpx_mono; [|cbn beta|done].
  - apply (wpx_zrange _ (fun i => bstep g (fun s' => same_disk (bc g) s' /\
      bc_rep s' (<[st := put_words h 0 (Z.of_nat (length bs) :: (Z.of_nat <$> take (Z.to_nat i) bs))]> v) {[st := b]} dt))).
    + intros i g' Hi (s' & -> & [M3 W3] & I3). set (k := Z.to_nat i) in *. assert (Hk : i = Z.of_nat k) by lia.
      destruct (lookup_lt_is_Some_2 bs k) as [c Hc]; [lia|].
      wp_step. rewrite Hk. eapply lh_get_spec; [by apply geom_set_bc|done|].
      wp_use (bpoke_spec (set_bc s' g) _ _ dt st b
                (put_words h 0 (Z.of_nat (length bs) :: (Z.of_nat <$> take k bs))) _ _ never I3).
      { apply lookup_singleton_eq. } { apply list_lookup_insert_eq. lia. }
      intros _ g' (s'' & -> & [M4 W4] & I4). exists s''. split; [done|]. split; [by split; cbn in *; congruence|].
      replace (Z.to_nat (Z.of_nat k + 1)) with (S k) by lia.
      rewrite list_insert_insert_eq in I4. rewrite (take_snoc _ _ _ Hc), fmap_app.
      change (Z.of_nat <$> [c]) with [Z.of_nat c]. rewrite app_comm_cons, put_words_snoc.
      replace (off_block (Z.of_nat k)) with (0 + 4 * length (Z.of_nat (length bs) :: (Z.of_nat <$> take k bs)))%nat in I4; [done|].
      unfold off_block. simpl length. rewrite length_fmap, length_take. lia.
    + by exists s.
  - intros _ g' (s' & -> & Hs' & I'). rewrite Z.add_0_l, Nat2Z.id, firstn_all in I'. by exists s'.
Qed.

Lemma write_head_spec v dt h :
  length v = size -> bc_rep (bc g) v ∅ dt -> st ∉ dt -> (base.size dt < NBUF)%nat -> v !! st = Some h ->
  wp write_head (fun _ => logged g [(st, header h bs)] (<[st := header h bs]> v) dt) g.
Proof.
  intros Hv I Hst Hsz Hh. pose proof (lg_area _ _ _ _ G) as Har. pose proof (lg_size _ _ _ _ G) as Hsmall.
  unfold write_head. wp_step. wp_step. wp_step. wp_step. rewrite (lg_dev _ _ _ _ G), (lg_start _ _ _ _ G).
  rewrite (u32_nat st size) by (done || lia). inb_use (bread_room _ _ _ _ st I).
  { done. } { lia. } { right. by rewrite dom_empty_L, union_empty_l_L. }
  intros b s [[M1 W1] I1]. wp_step. wp_step. wp_step. rewrite insert_empty in I1.
  cbn [lh_n set_bc]. rewrite (lg_n _ _ _ _ G), Nat2Z.id.
  assert (Hlk : ({[st := b]} : gmap nat nat) !! st = Some b) by apply lookup_singleton_eq.
  wp_use (bpoke_spec (set_bc s g) v _ dt st b h _ _ never I1 Hlk Hh).
  intros _ g1 (s1 & -> & [M2 W2] & I2). wp_step.
  wp_use (head_loop v dt h b s1 Hv); [lia|split; cbn in *; congruence|done|].
  intros _ g' (s' & -> & [M3 W3] & I3).
  inb_use (bwrite_spec _ _ _ _ st b (header h bs) _ I3 Hlk).
  { apply list_lookup_insert_eq. lia. }
  intros _ s2 (M4 & W4 & I4). inb_use (brelse_spec _ _ _ _ st b _ I4 Hlk).
  { right. cbn. rewrite M4, !list_lookup_insert_eq; [done|..|lia]. cbn. rewrite M3, <- (br_size _ _ _ _ I). lia. }
  intros _ s3 ([M5 W5] & I5 & _). exists s3. split; [done|]. rewrite delete_singleton_eq in I5.
  replace (dt ∖ {[st]}) with dt in I5 by set_solver. cbn in *. split; [done|]. split; congruence.
Qed.

End loops.
