(* ===== verification/LogSpec.v ===== *)
(** * Commit, recovery and crashes (src/log.c)

    [commit] is a sequence of disk writes, [recover_from_log] is another, and
    whatever prefix of them a crash leaves on the disk, the recovery that
    follows installs the whole transaction or none of it. *)

From S2P Require Import Prelude.
From S2P Require Import Bytes.
From S2P Require Import Sleeplock.
From S2P Require Import Bio.
From S2P Require Import Log.

Open Scope Z_scope.

(** The header block [h] on the disk names the home blocks [bs]. *)
Definition on_disk_header (h : bytes) (bs : list nat) : Prop :=
  rd32 h 0 = Z.of_nat (length bs) /\ forall i b, bs !! i = Some b -> rd32 h (4 + 4 * i) = Z.of_nat b.

(** The log area of a transaction with the home blocks [bs] on a disk of
    [size] blocks. *)
Record log_area (st : nat) (bs : list nat) (size : nat) : Prop := {
  la_cap : Z.of_nat (length bs) < LOGSIZE;
  la_home : forall m, m ∈ bs -> (m < size)%nat /\ (m < st \/ st + length bs < m)%nat;
  la_area : (st + length bs < size)%nat;
  la_size : Z.of_nat size < 2147483648;
}.

(** The log of a running system that serves the log area at [st]. *)
Record log_base (g : log) (st : nat) : Prop := {
  lb_dev : l_dev g = 1;
  lb_start : l_start g = Z.of_nat st;
  lb_len : length (lh_block g) = Z.to_nat LOGSIZE;
}.

(** The disk writes of a commit and of a recovery. *)
Definition commit_writes (st : nat) (h : bytes) (bs : list nat) (ds : list bytes) : list (nat * bytes) :=
  log_writes st ds ++ [(st, header h bs)] ++ home_writes bs ds ++ [(st, clear_header (header h bs))].
Definition recovery_writes (st : nat) (h : bytes) (bs : list nat) (ds : list bytes) : list (nat * bytes) :=
  home_writes bs ds ++ [(st, clear_header h)].

(** What stays of the log in memory. *)
Record same_log (g g' : log) : Prop := {
  sg_lock : l_lock g' = l_lock g;
  sg_start : l_start g' = l_start g;
  sg_lsize : l_size g' = l_size g;
  sg_out : l_outstanding g' = l_outstanding g;
  sg_comm : l_committing g' = l_committing g;
  sg_dev : l_dev g' = l_dev g;
}.

(** The log has been emptied: the cache and the disk agree on [v], which the
    writes [ws] led to. *)
Record settled (g : log) (ws : list (nat * bytes)) (v : list bytes) (g' : log) : Prop := {
  se_same : same_log g g';
  se_len : length (lh_block g') = length (lh_block g);
  se_n : lh_n g' = 0;
  se_rep : bc_rep (bc g') v ∅ ∅;
  se_disk : memdisk (bc g') = apply_writes ws (memdisk (bc g));
  se_writes : writes (bc g') = writes (bc g) ++ ws;
}.

(** ** Crashes *)

(** The memory after a reset: the cache and the log are zero, the disk has
    what was written to it. *)
Definition reset (pid : Z) (D : list bytes) : log :=
  mkLog (bss pid D []) false 0 0 0 0 0 0 (replicate (Z.to_nat LOGSIZE) 0).

(** The part of booting that concerns the disk: [binit] of [main] and the
    [initlog] of the first process. *)
Definition reboot : M log unit := do! inb binit in initlog 1.

(** The disks that crashes during reboots can lead to from [D]: each crash
    leaves a prefix of the writes of a reboot. *)
Inductive after_crashes (D : list bytes) : list bytes -> Prop :=
  | ac_none : after_crashes D D
  | ac_crash D1 pid j g :
      after_crashes D D1 -> reboot (reset pid D1) = Ret tt g ->
      after_crashes D (apply_writes (take j (writes (bc g))) D1).

(** The log area on the disk: [sz] blocks from [st]. *)
Definition in_log (st sz m : nat) : Prop := (st <= m < st + sz)%nat.

(** A disk from which recovery makes [home] of the blocks outside the log. *)
Record recovers (st sz : nat) (home D : list bytes) : Prop := {
  rc_blk : Forall is_blk D;
  rc_size : Z.of_nat (length D) < 2147483648 /\ (st + sz <= length D)%nat /\ (1 < st)%nat /\ Z.of_nat sz <= LOGSIZE;
  rc_sb : exists sb, D !! 1%nat = Some sb /\ rd32 sb 16 = Z.of_nat st /\ rd32 sb 12 = Z.of_nat sz;
  rc_log : exists h bs ds, D !! st = Some h /\ on_disk_header h bs /\ log_data st bs D ds /\
    (length bs < sz)%nat /\ (forall m, m ∈ bs -> m <> 1%nat /\ (m < length D)%nat /\ ~ in_log st sz m) /\
    (forall m, ~ in_log st sz m -> apply_writes (home_writes bs ds) D !! m = home !! m);
}.

(** * Lemmas *)

(** ** The header on the disk *)

Lemma put_words_below d off ws j : (j + 4 <= off)%nat -> rd32 (put_words d off ws) j = rd32 d j.
Proof.
  revert d off. induction ws as [|w ws IH]; intros d off Hj; [done|]. simpl. rewrite IH by lia.
  apply rd32_wr32_ne. lia.
Qed.

Lemma put_words_at d off ws i w :
  (off + 4 * length ws <= length d)%nat -> ws !! i = Some w -> is_u32 w ->
  rd32 (put_words d off ws) (off + 4 * i) = w.
Proof.
  revert d off i. induction ws as [|x ws IH]; intros d off [|i] Hl Hw Hu; try done; simpl in Hl.
  - injection Hw as ->. simpl. rewrite put_words_below by lia. rewrite Nat.add_0_r, rd32_wr32_eq; [by apply u32_small|lia|].
    apply u32_range.
  - replace (off + 4 * S i)%nat with (off + 4 + 4 * i)%nat by lia.
    apply IH; [|done..]. rewrite length_wr32. lia.
Qed.

Lemma header_on_disk h st bs size : is_blk h -> log_area st bs size -> on_disk_header (header h bs) bs.
Proof.
  intros Hh [Hcap Hhome _ Hsz]. unfold LOGSIZE in Hcap. unfold is_blk, BSIZE in Hh.
  assert (Hl : (0 + 4 * length (Z.of_nat (length bs) :: (Z.of_nat <$> bs)) <= length h)%nat).
  { rewrite Hh. simpl length. rewrite length_fmap. lia. }
  split.
  - apply (put_words_at h 0 _ 0 (Z.of_nat (length bs)) Hl); [done|]. unfold is_u32. lia.
  - intros i b Hb. unfold header. replace (4 + 4 * i)%nat with (0 + 4 * S i)%nat by lia.
    apply (put_words_at h 0 _ (S i)); [done| |].
    + simpl. by rewrite list_lookup_fmap, Hb.
    + destruct (Hhome b) as [? _]; [by eapply list_elem_of_lookup_2|]. unfold is_u32. lia.
Qed.

Lemma clear_on_disk h : is_blk h -> on_disk_header (clear_header h) [].
Proof.
  intros Hh. split; [|done]. unfold clear_header. rewrite rd32_wr32_eq; [done|rewrite Hh; unfold BSIZE; lia|].
  unfold is_u32. lia.
Qed.

Lemma clear_blk h : is_blk h -> is_blk (clear_header h).
Proof. intros H. unfold is_blk, clear_header. by rewrite length_wr32. Qed.

Lemma header_blk h bs : is_blk h -> is_blk (header h bs).
Proof. intros H. unfold is_blk, header. by rewrite length_put_words. Qed.

(** ** Geometry *)

Lemma area_nil st bs size : log_area st bs size -> log_area st [] size.
Proof.
  intros [? ? ? ?]. split; [done| |simpl; lia|done]. intros m Hm. by apply elem_of_nil in Hm.
Qed.

Lemma geom_area g st bs size : log_geom g st bs size -> log_area st bs size /\ log_base g st.
Proof. by intros [? ? ? ? ? ? ? ? ?]. Qed.

Lemma geom_intro g st bs size :
  log_base g st -> log_area st bs size -> lh_n g = Z.of_nat (length bs) ->
  take (length bs) (lh_block g) = Z.of_nat <$> bs -> log_geom g st bs size.
Proof. by intros [? ? ?] [? ? ? ?] ? ?. Qed.

Lemma geom_cleared g st bs size : log_base g st -> log_area st bs size -> log_geom (set_lh_n 0 g) st [] size.
Proof. intros [? ? ?] Ha. apply geom_intro; [done|by eapply area_nil|done|done]. Qed.

Lemma base_set_bc g st s : log_base g st -> log_base (set_bc s g) st.
Proof. by intros [? ? ?]. Qed.

Lemma same_log_refl g : same_log g g.
Proof. done. Qed.

Lemma same_log_trans g1 g2 g3 : same_log g1 g2 -> same_log g2 g3 -> same_log g1 g3.
Proof. intros [? ? ? ? ? ?] [? ? ? ? ? ?]. split; congruence. Qed.

(** A cache with nothing locked or pinned agrees with the disk. *)
Lemma rep_settled s v : bc_rep s v ∅ ∅ -> v = memdisk s.
Proof. intros I. apply list_eq. intros m. apply (br_clean _ _ _ _ I); set_solver. Qed.

(** ** Emptying the log *)

Lemma empty_log g st bs size v h :
  log_base g st -> log_area st bs size -> length v = size -> bc_rep (bc g) v ∅ ∅ -> v !! st = Some h ->
  wp (do! modify (set_lh_n 0) in write_head) (fun _ => settled g [(st, clear_header h)] (<[st := clear_header h]> v)) g.
Proof.
  intros Hb Ha Hv I Hh. pose proof (geom_cleared g st bs size Hb Ha) as G.
  wp_step. wp_step. wp_use (write_head_spec (set_lh_n 0 g) st [] size G v ∅ h).
  - done.
  - done.
  - set_solver.
  - rewrite size_empty. unfold NBUF. lia.
  - done.
  - intros _ g' (s & -> & I' & M' & W'). split; try done.
Qed.

(** ** Commit *)

Lemma log_writes_data st bs v ds :
  length ds = length bs -> (st + length bs < length v)%nat -> log_data st bs (apply_writes (log_writes st ds) v) ds.
Proof.
  intros Hl Hlt. split; [done|]. intros i d Hd. pose proof (lookup_lt_Some _ _ _ Hd).
  apply apply_writes_at; [rewrite log_writes_fst; apply NoDup_seq| |lia].
  eapply list_elem_of_lookup_2. by apply lookup_log_writes.
Qed.

Lemma log_writes_keep_header st ds v : apply_writes (log_writes st ds) v !! st = v !! st.
Proof.
  rewrite <- (firstn_all (log_writes st ds)). apply log_writes_other. lia.
Qed.

Lemma home_writes_keep bs ds v m :
  length ds = length bs -> (m ∉ bs) -> apply_writes (home_writes bs ds) v !! m = v !! m.
Proof. intros. rewrite <- (firstn_all (home_writes bs ds)). by apply home_writes_other. Qed.

Lemma area_apart st bs size i : log_area st bs size -> (i <= length bs)%nat -> (st + i)%nat ∉ bs.
Proof. intros Ha Hi Hin. destruct (la_home _ _ _ Ha _ Hin). lia. Qed.

Lemma size_pinned st bs size : log_area st bs size -> NoDup bs -> (base.size (list_to_set bs : gset nat) < NBUF)%nat.
Proof.
  intros Ha Hnd. rewrite size_list_to_set by done. pose proof (la_cap _ _ _ Ha). unfold LOGSIZE, NBUF in *. lia.
Qed.

Lemma log_data_header st bs size v ds h :
  log_area st bs size -> log_data st bs v ds -> log_data st bs (<[st := h]> v) ds.
Proof.
  intros Ha [Hl Hd]. split; [done|]. intros i d Hi. rewrite list_lookup_insert_ne by lia. by apply Hd.
Qed.

(** [commit] of a transaction that changed the blocks [bs] to [ds]. *)
Lemma commit_spec g st bs size v h ds :
  log_geom g st bs size -> bs <> [] -> NoDup bs -> length v = size -> home_data bs v ds ->
  bc_rep (bc g) v ∅ (list_to_set bs) -> v !! st = Some h ->
  wp commit (fun _ => settled g (commit_writes st h bs ds) (apply_writes (commit_writes st h bs ds) v)) g.
Proof.
  intros G Hne Hnd Hv Hds I Hh. destruct (geom_area _ _ _ _ G) as [Ha Hb]. pose proof (la_area _ _ _ Ha) as Har.
  pose proof Hds as [Hlen _].
  assert (Hpos : 0 < Z.of_nat (length bs)) by (destruct bs; [done|simpl; lia]).
  assert (Hst : st ∉ bs) by (rewrite <- (Nat.add_0_r st); eapply area_apart; [done|lia]).
  unfold commit. wp_step. wp_step. rewrite (lg_n _ _ _ _ G), (proj2 (Z.ltb_lt _ _) Hpos).
  wp_step. wp_use (write_log_spec g st bs size G v ds Hv Hds Hnd I).
  intros _ g1 (s1 & -> & I1 & M1 & W1). wp_step. set (v1 := apply_writes (log_writes st ds) v) in *.
  assert (Hv1 : length v1 = size) by (subst v1; by rewrite length_apply_writes).
  wp_use (write_head_spec (set_bc s1 g) st bs size (geom_set_bc _ _ _ _ s1 G) v1 (list_to_set bs) h Hv1);
    [exact I1|set_solver|by eapply size_pinned|subst v1; by rewrite log_writes_keep_header|].
  intros _ g2 (s2 & -> & I2 & M2 & W2). wp_step. set (v2 := <[st := header h bs]> v1) in *.
  assert (Hv2 : length v2 = size) by (subst v2; by rewrite length_insert).
  wp_use (install_spec (set_bc s2 g) st bs size (geom_set_bc _ _ _ _ s2 G) v2 ds (list_to_set bs) Hv2);
    [|exact I2|by right|].
  { eapply log_data_header; [done|]. apply log_writes_data; [done|lia]. }
  intros _ g3 (s3 & -> & I3 & M3 & W3). set (v3 := apply_writes (home_writes bs ds) v2) in *.
  assert (Hv3 : length v3 = size) by (subst v3; by rewrite length_apply_writes).
  wp_use (empty_log (set_bc s3 g) st bs size v3 (header h bs) (base_set_bc _ _ s3 Hb) Ha Hv3 I3).
  { subst v3. rewrite home_writes_keep by done. apply list_lookup_insert_eq. lia. }
  intros _ g4 [S1 S2 S3 S4 S5 S6]. cbn [set_bc bc] in *. unfold commit_writes. split; try done.
  - by destruct S1.
  - by rewrite !apply_writes_app.
  - by rewrite S5, M3, M2, M1, !apply_writes_app.
  - by rewrite S6, W3, W2, W1, <- !app_assoc.
Qed.

(** ** Recovery *)

Lemma take_insert_snoc {A} (l : list A) i x : (i < length l)%nat -> take (S i) (<[i := x]> l) = take i l ++ [x].
Proof.
  intros Hi. rewrite (take_snoc _ i x) by (by apply list_lookup_insert_eq). by rewrite take_insert_ge.
Qed.

(** The home blocks, read from the header. *)
Lemma read_loop g st bs size h :
  log_base g st -> log_area st bs size -> on_disk_header h bs ->
  wp (mfor (zrange 0 (length bs)) (fun i => lh_put i (s32 (rd32 h (off_block i)))))
    (fun _ g' => exists bl, g' = set_lh_block bl g /\ length bl = length (lh_block g) /\
                            take (length bs) bl = Z.of_nat <$> bs) g.
Proof.
  intros Hb Ha [_ Hh]. pose proof (la_cap _ _ _ Ha) as Hcap. pose proof (lb_len _ _ Hb) as Hlen. unfold LOGSIZE in Hcap.
  eapply wpx_mono; [|cbn beta|done].
  - apply (wpx_zrange _ (fun i g' => exists bl, g' = set_lh_block bl g /\ length bl = length (lh_block g) /\
                            take (Z.to_nat i) bl = Z.of_nat <$> take (Z.to_nat i) bs)).
    + intros i g' Hi (bl & -> & Hl & Ht). set (k := Z.to_nat i) in *. assert (Hk : i = Z.of_nat k) by lia.
      destruct (lookup_lt_is_Some_2 bs k) as [b Hbk]; [lia|].
      unfold lh_put, LOGSIZE. rewrite (proj2 (Z.leb_le _ _)), (proj2 (Z.ltb_lt _ _)) by lia. cbn [andb].
      apply wpx_modify. eexists. split; [reflexivity|]. cbn [lh_block set_lh_block]. rewrite length_insert. split; [done|].
      replace (Z.to_nat (i + 1)) with (S k) by lia. fold k. rewrite take_insert_snoc by (rewrite Hl, Hlen; unfold LOGSIZE; lia).
      rewrite Ht, (take_snoc _ _ _ Hbk), fmap_app. f_equal. simpl. f_equal.
      replace (off_block i) with (4 + 4 * k)%nat by (unfold off_block; lia). rewrite (Hh k b Hbk).
      apply s32_small. destruct (la_home _ _ _ Ha b) as [? _]; [by eapply list_elem_of_lookup_2|].
      pose proof (la_size _ _ _ Ha). lia.
    + exists (lh_block g). by destruct g.
  - intros _ g' (bl & -> & Hl & Ht). exists bl. rewrite Z.add_0_l, Nat2Z.id, firstn_all in Ht. done.
Qed.

Lemma read_head_spec g st bs size v h :
  log_base g st -> log_area st bs size -> length v = size -> bc_rep (bc g) v ∅ ∅ -> v !! st = Some h -> on_disk_header h bs ->
  wp read_head (fun _ g' => log_geom g' st bs size /\ bc_rep (bc g') v ∅ ∅ /\ same_disk (bc g) (bc g') /\ same_log g g') g.
Proof.
  intros Hb Ha Hv I Hh Hod. pose proof (la_area _ _ _ Ha) as Har. pose proof (la_size _ _ _ Ha) as Hsmall.
  unfold read_head. wp_step. wp_step. wp_step. wp_step. rewrite (lb_dev _ _ Hb), (lb_start _ _ Hb).
  rewrite (u32_nat st size) by (done || lia). inb_use (bread_room _ _ _ _ st I).
  { done. } { lia. } { right. rewrite dom_empty_L, union_empty_l_L, size_empty. unfold NBUF. lia. }
  intros b s [[M1 W1] I1]. rewrite insert_empty in I1.
  assert (Hlk : ({[st := b]} : gmap nat nat) !! st = Some b) by apply lookup_singleton_eq.
  inb_use (bdata_spec _ _ _ _ _ _ _ I1 Hlk). intros d s' [-> [Hd _]]. rewrite Hh in Hd. injection Hd as <-.
  pose proof Hod as [Hn _]. rewrite Hn, s32_small by (pose proof (la_cap _ _ _ Ha); unfold LOGSIZE in *; lia).
  wp_step. wp_step. rewrite Nat2Z.id. wp_step.
  wp_use (read_loop (set_lh_n (Z.of_nat (length bs)) (set_bc s (set_bc s g))) st bs size h); [by destruct Hb|done|done|].
  intros _ g' (bl & -> & Hl & Ht).
  inb_use (brelse_spec _ _ _ _ st b _ I1 Hlk).
  { right. cbn. rewrite M1. by rewrite <- (rep_settled _ _ I). }
  intros _ s2 ([M2 W2] & I2 & _). rewrite delete_singleton_eq in I2. cbn in *.
  split; [|split; [done|split; [split; congruence|done]]].
  apply geom_intro; [|done|done|done]. destruct Hb. split; [done|done|]. cbn in *. congruence.
Qed.

Lemma recover_spec g st bs size v h ds :
  log_base g st -> log_area st bs size -> length v = size -> bc_rep (bc g) v ∅ ∅ ->
  v !! st = Some h -> on_disk_header h bs -> log_data st bs v ds ->
  wp recover_from_log (fun _ => settled g (recovery_writes st h bs ds) (apply_writes (recovery_writes st h bs ds) v)) g.
Proof.
  intros Hb Ha Hv I Hh Hod Hld. unfold recover_from_log. wp_step.
  wp_use (read_head_spec g st bs size v h Hb Ha Hv I Hh Hod). intros _ g1 (G1 & I1 & [M1 W1] & L1). wp_step.
  wp_use (install_spec g1 st bs size G1 v ds ∅ Hv Hld I1); [by left|]. intros _ g2 (s2 & -> & I2 & M2 & W2).
  destruct (geom_area _ _ _ _ G1) as [_ Hb1]. set (v2 := apply_writes (home_writes bs ds) v) in *.
  assert (Hv2 : length v2 = size) by (subst v2; by rewrite length_apply_writes).
  wp_use (empty_log (set_bc s2 g1) st bs size v2 h (base_set_bc _ _ s2 Hb1) Ha Hv2 I2).
  { subst v2. destruct Hld. rewrite home_writes_keep; [done..|]. rewrite <- (Nat.add_0_r st). eapply area_apart; [done|lia]. }
  intros _ g4 [S1 S2 S3 S4 S5 S6]. cbn [set_bc bc] in *. unfold recovery_writes. split; try done.
  - eapply same_log_trans; [done|]. by destruct S1.
  - rewrite S2. cbn. by rewrite (lb_len _ _ Hb1), (lb_len _ _ Hb).
  - by rewrite !apply_writes_app.
  - by rewrite S5, M2, M1, !apply_writes_app.
  - by rewrite S6, W2, W1, <- !app_assoc.
Qed.

(** ** Recovery from a crash *)

Lemma apply_writes_in ws D D' m :
  m ∈ ws.*1 -> length D = length D' -> apply_writes ws D !! m = apply_writes ws D' !! m.
Proof.
  revert D D'. induction ws as [|[b d] ws IH]; intros D D' Hm Hl; [by apply elem_of_nil in Hm|]. simpl in *.
  destruct (decide (m ∈ ws.*1)) as [Hin|Hin]; [apply IH; [done|by rewrite !length_insert]|].
  rewrite !apply_writes_other by done. assert (m = b) as -> by set_solver.
  destruct (decide (b < length D)%nat).
  - rewrite !list_lookup_insert_eq by lia. done.
  - rewrite !lookup_ge_None_2 by (rewrite length_insert; lia). done.
Qed.

(** Writes that were made once can be made again. *)
Lemma apply_writes_again ws D j m : apply_writes ws (apply_writes (take j ws) D) !! m = apply_writes ws D !! m.
Proof.
  destruct (decide (m ∈ ws.*1)) as [Hin|Hin].
  - apply apply_writes_in; [done|]. by rewrite length_apply_writes.
  - assert (m ∉ (take j ws).*1). { rewrite fmap_take. intros H. apply Hin. eapply subseteq_take. exact H. }
    by rewrite !apply_writes_other.
Qed.

Lemma in_log_area st sz bs size :
  Z.of_nat sz <= LOGSIZE -> (st + sz <= size)%nat -> Z.of_nat size < 2147483648 -> (length bs < sz)%nat ->
  (forall m, m ∈ bs -> (m < size)%nat /\ ~ in_log st sz m) -> log_area st bs size.
Proof.
  intros H1 H2 H3 H4 H5. split; [lia| |lia|done]. intros m Hm. destruct (H5 m Hm). unfold in_log in *. lia.
Qed.

Lemma log_data_other st bs v v' ds :
  log_data st bs v ds -> (forall i, (i < length bs)%nat -> v' !! (st + 1 + i)%nat = v !! (st + 1 + i)%nat) -> log_data st bs v' ds.
Proof.
  intros [Hl Hd] Hv. split; [done|]. intros i d Hi. rewrite Hv; [by apply Hd|]. apply lookup_lt_Some in Hi. lia.
Qed.

Lemma home_writes_snd bs ds : length ds = length bs -> (home_writes bs ds).*2 = ds.
Proof. intros H. apply snd_zip. lia. Qed.

Lemma log_data_blk st bs v ds : log_data st bs v ds -> Forall is_blk v -> Forall is_blk ds.
Proof.
  intros [_ Hd] Hv. apply Forall_lookup_2. intros i d Hi. eapply Forall_lookup_1; [exact Hv|by apply Hd].
Qed.

Lemma Forall_take_snd (P : bytes -> Prop) j (ws : list (nat * bytes)) : Forall P ws.*2 -> Forall P (take j ws).*2.
Proof. intros H. rewrite fmap_take. by apply Forall_take. Qed.

(** A crash during the recovery. *)
Lemma recovers_prefix st sz home D h bs ds j :
  Forall is_blk D ->
  (Z.of_nat (length D) < 2147483648 /\ (st + sz <= length D)%nat /\ (1 < st)%nat /\ Z.of_nat sz <= LOGSIZE) ->
  (exists sb, D !! 1%nat = Some sb /\ rd32 sb 16 = Z.of_nat st /\ rd32 sb 12 = Z.of_nat sz) ->
  D !! st = Some h -> on_disk_header h bs -> log_data st bs D ds -> (length bs < sz)%nat ->
  (forall m, m ∈ bs -> m <> 1%nat /\ (m < length D)%nat /\ ~ in_log st sz m) ->
  (forall m, ~ in_log st sz m -> apply_writes (home_writes bs ds) D !! m = home !! m) ->
  recovers st sz home (apply_writes (take j (recovery_writes st h bs ds)) D).
Proof.
  intros HD Hsz Hsb Hh Hod Hld Hbs Hhome Hrec. pose proof Hld as [Hlen Hdat].
  assert (Hblk : is_blk h) by (by eapply (Forall_lookup_1 is_blk)).
  assert (Hdsb : Forall is_blk ds) by (by eapply log_data_blk).
  assert (Hfst : forall m, m ∈ (recovery_writes st h bs ds).*1 -> m ∈ bs \/ m = st).
  { unfold recovery_writes. rewrite fmap_app, home_writes_fst by done. set_solver. }
  assert (Hcr : is_blk (clear_header h)) by (by apply clear_blk).
  split.
  - apply apply_writes_blk; [done|]. apply Forall_take_snd. unfold recovery_writes.
    rewrite fmap_app, home_writes_snd by done. apply Forall_app. split; [done|]. by apply Forall_singleton.
  - by rewrite length_apply_writes.
  - destruct Hsb as (sb & H1 & H2). exists sb. rewrite apply_writes_other; [done|].
    rewrite fmap_take. intros Hin. apply subseteq_take, Hfst in Hin as [Hin|Hin]; [by destruct (Hhome 1%nat Hin)|lia].
  - destruct (decide (j <= length bs)%nat) as [Hj|Hj].
    + assert (Ht : take j (recovery_writes st h bs ds) = take j (home_writes bs ds)).
      { unfold recovery_writes. rewrite take_app_le; [done|]. unfold home_writes. rewrite length_zip_with. lia. }
      rewrite Ht. exists h, bs, ds. assert (Hkeep : forall i, (i < sz)%nat ->
        apply_writes (take j (home_writes bs ds)) D !! (st + i)%nat = D !! (st + i)%nat).
      { intros i Hi. apply home_writes_other; [done|]. intros Hin. destruct (Hhome _ Hin) as (_ & _ & Hn). apply Hn. unfold in_log. lia. }
      split_and!; try done.
      * rewrite <- (Nat.add_0_r st), Hkeep by lia. by rewrite Nat.add_0_r.
      * eapply log_data_other; [done|]. intros i Hi. rewrite <- Nat.add_assoc. apply Hkeep. lia.
      * by rewrite length_apply_writes.
      * intros m Hm. rewrite apply_writes_again. by apply Hrec.
    + rewrite firstn_all2.
      2:{ unfold recovery_writes, home_writes. rewrite length_app, length_zip_with. simpl. lia. }
      unfold recovery_writes. rewrite apply_writes_snoc. exists (clear_header h), [], [].
      split_and!; try done.
      * apply list_lookup_insert_eq. rewrite length_apply_writes. lia.
      * by apply clear_on_disk.
      * simpl. lia.
      * intros m Hm. by apply elem_of_nil in Hm.
      * intros m Hm. simpl. rewrite list_lookup_insert_ne by (intros ->; apply Hm; unfold in_log; lia). by apply Hrec.
Qed.

Lemma readsb_spec g v sb :
  bc_rep (bc g) v ∅ ∅ -> v !! 1%nat = Some sb ->
  wp (readsb 1) (fun r => bstep g (fun s => r = get_superblock sb /\ bc_rep s v ∅ ∅ /\ same_disk (bc g) s)) g.
Proof.
  intros I Hsb. unfold readsb. change 1 with (Z.of_nat 1) at 2. inb_use (bread_room _ _ _ _ 1 I).
  { done. } { by eapply lookup_lt_Some. } { right. rewrite dom_empty_L, union_empty_l_L, size_empty. unfold NBUF. lia. }
  intros b s [[M1 W1] I1]. rewrite insert_empty in I1.
  assert (Hlk : ({[1%nat := b]} : gmap nat nat) !! 1%nat = Some b) by apply lookup_singleton_eq.
  inb_use (bdata_spec _ _ _ _ _ _ _ I1 Hlk). intros d s' [-> [Hd _]]. rewrite Hsb in Hd. injection Hd as <-.
  inb_use (brelse_spec _ _ _ _ 1 b _ I1 Hlk).
  { right. cbn. rewrite M1. by rewrite <- (rep_settled _ _ I). }
  intros _ s2 ([M2 W2] & I2 & _). rewrite delete_singleton_eq in I2. wp_step. exists s2. cbn in *.
  split; [done|]. split; [done|]. split; [done|]. split; congruence.
Qed.

(** A disk whose log has the blocks [bs] with the data [ds]. *)
Record bootable (st sz : nat) (D : list bytes) (h : bytes) (bs : list nat) (ds : list bytes) : Prop := {
  bt_blk : Forall is_blk D;
  bt_size : Z.of_nat (length D) < 2147483648 /\ (st + sz <= length D)%nat /\ (1 < st)%nat /\ Z.of_nat sz <= LOGSIZE;
  bt_sb : exists sb, D !! 1%nat = Some sb /\ rd32 sb 16 = Z.of_nat st /\ rd32 sb 12 = Z.of_nat sz;
  bt_head : D !! st = Some h /\ on_disk_header h bs;
  bt_data : log_data st bs D ds;
  bt_cap : (length bs < sz)%nat;
  bt_home : forall m, m ∈ bs -> m <> 1%nat /\ (m < length D)%nat /\ ~ in_log st sz m;
}.

(** What booting leaves of the log. *)
Record booted (st sz : nat) (D : list bytes) (h : bytes) (bs : list nat) (ds : list bytes) (g : log) : Prop := {
  bo_n : lh_n g = 0;
  bo_lock : l_lock g = false;
  bo_out : l_outstanding g = 0;
  bo_committing : l_committing g = 0;
  bo_size : l_size g = Z.of_nat sz;
  bo_base : log_base g st;
  bo_writes : writes (bc g) = recovery_writes st h bs ds;
  bo_disk : memdisk (bc g) = apply_writes (recovery_writes st h bs ds) D;
  bo_rep : bc_rep (bc g) (memdisk (bc g)) ∅ ∅;
}.

(** [initlog] runs the recovery that the disk asks for. *)
Lemma initlog_spec st sz D pid h bs ds s :
  bootable st sz D h bs ds -> bc_rep s D ∅ ∅ -> memdisk s = D -> writes s = [] ->
  wp (initlog 1) (fun _ => booted st sz D h bs ds) (set_bc s (reset pid D)).
Proof.
  intros [HD (Hz & Hsz & Hst & Hcap) (sb & Hsb & Hls & Hnl) [Hh Hod] Hld Hbs Hhome] I M W.
  unfold initlog. destruct (Z.leb_spec (Z.of_nat BSIZE) (4 + 4 * LOGSIZE)) as [Hbad|_]; [done|].
  wp_step. wp_step. wp_step. wp_use (readsb_spec (set_l_lock false (set_bc s (reset pid D))) D sb I Hsb).
  intros r g1 (s1 & -> & -> & I1 & [M1 W1]). wp_step. wp_step. cbn [get_superblock sb_logstart sb_nlog].
  rewrite Hls, Hnl, !s32_small by lia.
  match goal with |- wpx recover_from_log _ _ ?g => set (g2 := g) end.
  wp_use (recover_spec g2 st bs (length D) D h ds); [done| |done|done|done|done|done|].
  { eapply in_log_area; [done..|]. intros m Hm. by destruct (Hhome m Hm) as (_ & ? & ?). }
  intros _ g' [[S1 S2 S3 S4 S5 S6] S7 S8 S9 S10 S11]. cbn in *.
  split; try done.
  - by rewrite S11, W1, W.
  - by rewrite S10, M1, M.
  - by rewrite <- (rep_settled _ _ S9).
Qed.

(** A reboot runs the recovery that the disk asks for. *)
Lemma reboot_spec st sz D pid h bs ds : bootable st sz D h bs ds -> wp reboot (fun _ => booted st sz D h bs ds) (reset pid D).
Proof.
  intros H. unfold reboot. wp_step. apply wpx_inb. wp_use (binit_spec pid D [] never (bt_blk _ _ _ _ _ _ H)). intros _ s (M & W & _ & I).
  by apply initlog_spec.
Qed.

(** Recovery makes [home] of the disk, and a crash during it changes nothing. *)
Lemma reboot_recovers st sz home D pid :
  recovers st sz home D ->
  exists g, reboot (reset pid D) = Ret tt g /\ lh_n g = 0 /\
    (forall m, ~ in_log st sz m -> memdisk (bc g) !! m = home !! m) /\
    forall j, recovers st sz home (apply_writes (take j (writes (bc g))) D).
Proof.
  intros [H1 H2 H3 (h & bs & ds & H4 & H5 & H6 & H7 & H8 & H9)].
  assert (Hb : bootable st sz D h bs ds) by (by split).
  destruct (wp_run _ _ _ (reboot_spec st sz D pid h bs ds Hb)) as ([] & g & Hr & [Hn _ _ _ _ _ Hw Hm _]).
  exists g. split; [done|]. split; [done|]. split.
  - intros m Hlog. rewrite Hm. unfold recovery_writes. rewrite apply_writes_snoc, list_lookup_insert_ne by (intros ->; apply Hlog; unfold in_log; lia).
    by apply H9.
  - intros j. rewrite Hw. by apply (recovers_prefix st sz home D h bs ds j).
Qed.

Lemma crashes_recover st sz home D D' : recovers st sz home D -> after_crashes D D' -> recovers st sz home D'.
Proof.
  intros H0 Hc. induction Hc as [|D1 pid j g Hc IH Hr]; [done|].
  destruct (reboot_recovers st sz home D1 pid IH) as (g' & Hr' & _ & _ & Hj).
  rewrite Hr in Hr'. injection Hr' as <-. apply Hj.
Qed.

(** ** A crash during a commit *)

(** A transaction that is ready to commit: nothing is locked, its blocks are
    pinned, its log on the disk is empty. *)
Record ready (st sz : nat) (g : log) (bs : list nat) (v ds : list bytes) : Prop := {
  rd_geom : log_geom g st bs (length v);
  rd_size : (st + sz <= length v)%nat /\ (1 < st)%nat /\ Z.of_nat sz <= LOGSIZE /\ (length bs < sz)%nat;
  rd_nodup : NoDup bs;
  rd_some : bs <> [];
  rd_home : forall m, m ∈ bs -> m <> 1%nat /\ ~ in_log st sz m;
  rd_rep : bc_rep (bc g) v ∅ (list_to_set bs);
  rd_data : home_data bs v ds;
  rd_sb : exists sb, v !! 1%nat = Some sb /\ rd32 sb 16 = Z.of_nat st /\ rd32 sb 12 = Z.of_nat sz;
  rd_empty : exists h, v !! st = Some h /\ on_disk_header h [];
}.

Lemma ready_disk st sz g bs v ds m : ready st sz g bs v ds -> (m ∉ bs) -> memdisk (bc g) !! m = v !! m.
Proof.
  intros R Hm. symmetry. apply (br_clean _ _ _ _ (rd_rep _ _ _ _ _ _ R)); [|done]. by rewrite elem_of_list_to_set.
Qed.

Lemma home_data_blk bs v ds : home_data bs v ds -> Forall is_blk v -> Forall is_blk ds.
Proof.
  intros [Hl Hd] Hv. apply Forall_lookup_2. intros i d Hi.
  destruct (lookup_lt_is_Some_2 bs i) as [b Hb]; [rewrite <- Hl; by eapply lookup_lt_Some|].
  eapply Forall_lookup_1; [exact Hv|by eapply Hd].
Qed.

Section crash.
Context (st sz : nat) (g : log) (bs : list nat) (v ds : list bytes) (h : bytes).
Hypothesis R : ready st sz g bs v ds.
Hypothesis Hh : v !! st = Some h.
Hypothesis Hod : on_disk_header h [].

Let D0 := memdisk (bc g).

Lemma ready_st : st ∉ bs.
Proof. intros H. destruct (rd_home _ _ _ _ _ _ R st H) as [_ Hn]. apply Hn. unfold in_log. pose proof (rd_size _ _ _ _ _ _ R). lia. Qed.

Lemma ready_len : length D0 = length v /\ length ds = length bs.
Proof. split; [symmetry; apply (br_size _ _ _ _ (rd_rep _ _ _ _ _ _ R))|apply (rd_data _ _ _ _ _ _ R)]. Qed.

Lemma ready_sizes :
  Z.of_nat (length D0) < 2147483648 /\ (st + sz <= length D0)%nat /\ (1 < st)%nat /\ Z.of_nat sz <= LOGSIZE.
Proof.
  pose proof (rd_size _ _ _ _ _ _ R). pose proof (lg_size _ _ _ _ (rd_geom _ _ _ _ _ _ R)). destruct ready_len as [E _].
  rewrite E. lia.
Qed.

Lemma ready_super : exists sb, D0 !! 1%nat = Some sb /\ rd32 sb 16 = Z.of_nat st /\ rd32 sb 12 = Z.of_nat sz.
Proof.
  destruct (rd_sb _ _ _ _ _ _ R) as (sb & H1 & H2). exists sb. unfold D0. rewrite (ready_disk st sz g bs v ds); [done..|].
  intros H. by destruct (rd_home _ _ _ _ _ _ R _ H).
Qed.

(** Before the header is written: the old contents. *)
Lemma crash_before k : (k <= length bs)%nat -> recovers st sz D0 (apply_writes (take k (commit_writes st h bs ds)) D0).
Proof.
  intros Hk. destruct ready_len as [Hl1 Hl2]. pose proof (rd_size _ _ _ _ _ _ R) as Hsz. pose proof ready_st as Hst.
  unfold commit_writes. rewrite take_app_le by (rewrite length_log_writes; lia).
  assert (Hkeep : forall m, (~ in_log st sz m) \/ m = st -> apply_writes (take k (log_writes st ds)) D0 !! m = D0 !! m).
  { intros m Hm. apply log_writes_other. unfold in_log in Hm. lia. }
  split.
  - apply apply_writes_blk; [apply (br_disk _ _ _ _ (rd_rep _ _ _ _ _ _ R))|]. apply Forall_take_snd. rewrite log_writes_snd.
    eapply home_data_blk; [apply (rd_data _ _ _ _ _ _ R)|apply (br_blk _ _ _ _ (rd_rep _ _ _ _ _ _ R))].
  - rewrite length_apply_writes. apply ready_sizes.
  - rewrite Hkeep; [apply ready_super|]. left. unfold in_log. lia.
  - exists h, [], []. rewrite Hkeep by (by right). split_and!; try done.
    + unfold D0. by rewrite (ready_disk st sz g bs v ds).
    + simpl. lia.
    + intros m Hm. by apply elem_of_nil in Hm.
    + intros m Hm. simpl. apply Hkeep. by left.
Qed.

(** Once the header is written: the new contents. *)
Lemma crash_after j :
  recovers st sz v (apply_writes (take j (recovery_writes st (header h bs) bs ds))
                      (<[st := header h bs]> (apply_writes (log_writes st ds) D0))).
Proof.
  destruct ready_len as [Hl1 Hl2]. pose proof (rd_size _ _ _ _ _ _ R) as Hsz. pose proof ready_st as Hst.
  pose proof ready_sizes as Hs0. destruct (geom_area _ _ _ _ (rd_geom _ _ _ _ _ _ R)) as [Ha _].
  assert (Hblk : is_blk h) by (eapply (Forall_lookup_1 is_blk); [apply (br_blk _ _ _ _ (rd_rep _ _ _ _ _ _ R))|done]).
  assert (Hkeep : forall m, (~ in_log st sz m) ->
    (<[st := header h bs]> (apply_writes (log_writes st ds) D0)) !! m = D0 !! m).
  { intros m Hm. rewrite list_lookup_insert_ne by (intros ->; apply Hm; unfold in_log; lia).
    rewrite <- (firstn_all (log_writes st ds)). apply log_writes_other. unfold in_log in Hm. lia. }
  apply recovers_prefix.
  - apply insert_blk; [by apply header_blk|]. apply apply_writes_blk; [apply (br_disk _ _ _ _ (rd_rep _ _ _ _ _ _ R))|].
    rewrite log_writes_snd. eapply home_data_blk; [apply (rd_data _ _ _ _ _ _ R)|apply (br_blk _ _ _ _ (rd_rep _ _ _ _ _ _ R))].
  - by rewrite length_insert, length_apply_writes.
  - rewrite Hkeep; [apply ready_super|]. unfold in_log. lia.
  - apply list_lookup_insert_eq. rewrite length_apply_writes. lia.
  - by eapply header_on_disk.
  - eapply log_data_header; [done|]. apply log_writes_data; [done|lia].
  - lia.
  - intros m Hm. rewrite length_insert, length_apply_writes, Hl1. destruct (rd_home _ _ _ _ _ _ R m Hm).
    split; [done|]. split; [|done]. by destruct (la_home _ _ _ Ha m Hm).
  - intros m Hm. destruct (decide (m ∈ bs)) as [Hin|Hin].
    + apply list_elem_of_lookup in Hin as [i Hi]. destruct (lookup_lt_is_Some_2 ds i) as [d Hd].
      { rewrite Hl2. by eapply lookup_lt_Some. }
      destruct (rd_data _ _ _ _ _ _ R) as [_ Hdat]. rewrite (Hdat i m d Hi Hd).
      apply apply_writes_at; [rewrite home_writes_fst by done; apply (rd_nodup _ _ _ _ _ _ R)| |].
      * eapply list_elem_of_lookup_2. by apply lookup_home_writes.
      * rewrite length_insert, length_apply_writes, Hl1. apply (la_home _ _ _ Ha m). by eapply list_elem_of_lookup_2.
    + rewrite home_writes_keep, Hkeep by done. unfold D0. by apply (ready_disk st sz g bs v ds).
Qed.

Lemma crash_any k :
  recovers st sz (if decide (k <= length bs)%nat then D0 else v) (apply_writes (take k (commit_writes st h bs ds)) D0).
Proof.
  case_decide as Hk; [by apply crash_before|]. destruct ready_len as [_ Hl2].
  unfold commit_writes. rewrite take_app_ge by (rewrite length_log_writes; lia). rewrite length_log_writes, Hl2, apply_writes_app.
  destruct (k - length bs)%nat as [|j] eqn:Hj; [lia|]. rewrite firstn_app. cbn [length]. 
  replace (S j - 1)%nat with j by lia. rewrite firstn_cons, firstn_nil, apply_writes_app. cbn [apply_writes foldl fst snd].
  apply crash_after.
Qed.

End crash.
