(* ===== verification/LogTheorems.v ===== *)
(** * The log: operations and what they promise (src/log.c)

    The operations file system calls use, [begin_op], [log_write] and [end_op];
    the theorems on commits and crashes; and a transaction on a small disk. *)

From S2P Require Import Prelude.
From S2P Require Import Bytes.
From S2P Require Import Sleeplock.
From S2P Require Import Bio.
From S2P Require Import Log.
From S2P Require Import LogSpec.

Open Scope Z_scope.

(** The blocks of a transaction after [log_write] of block [m]. *)
Definition add_block (bs : list nat) (m : nat) : list nat := if decide (m ∈ bs) then bs else bs ++ [m].

(** The log while system calls run: the home blocks of the transaction are
    pinned, its log on the disk is empty, [lk] is locked and the blocks have the
    contents [v]. *)
Record trans (st sz : nat) (g : log) (bs : list nat) (v : list bytes) (lk : gmap nat nat) : Prop := {
  tr_geom : log_geom g st bs (length v);
  tr_size : (st + sz <= length v)%nat /\ (1 < st)%nat /\ Z.of_nat sz <= LOGSIZE;
  tr_lsize : l_size g = Z.of_nat sz;
  tr_cap : (length bs < sz)%nat;
  tr_nodup : NoDup bs;
  tr_home : forall m, m ∈ bs -> m <> 1%nat /\ ~ in_log st sz m;
  tr_rep : bc_rep (bc g) v lk (list_to_set bs);
  tr_lock : l_lock g = false;
  tr_sb : exists sb, v !! 1%nat = Some sb /\ rd32 sb 16 = Z.of_nat st /\ rd32 sb 12 = Z.of_nat sz;
  tr_empty : exists h, v !! st = Some h /\ on_disk_header h [];
}.

(** After a commit: an empty transaction on a disk that has everything. *)
Definition committed (st sz : nat) (v : list bytes) (g' : log) : Prop :=
  exists v', trans st sz g' [] v' ∅ /\ memdisk (bc g') = v' /\ forall m, ~ in_log st sz m -> v' !! m = v !! m.

(** ** A small disk *)

(** Block 1 is the superblock; the log has 4 blocks from block 2 on. *)
Definition demo_sb : bytes := wr32 (wr32 zero_blk 16 2) 12 4.
Definition demo_disk : list bytes := [zero_blk; demo_sb; zero_blk; zero_blk; zero_blk; zero_blk; zero_blk; zero_blk].

(** A system call that changes the first byte of block 6. *)
Definition demo_call : M log unit :=
  do! begin_op in
  let! b := inb (bread 1 6) in
  let! d := inb (bdata b) in
  do! inb (bset b (wr8 d 0 7)) in
  do! log_write b in
  inb (brelse b).
Definition demo_log : log := after (do! reboot in demo_call) (reset 1 demo_disk).
Definition demo_view : list bytes := <[6%nat := wr8 zero_blk 0 7]> (memdisk (bc (after reboot (reset 1 demo_disk)))).

(** A disk laid out as mkfs does it, with a log of [LOGSIZE] blocks. *)
Definition big_disk : list bytes :=
  [zero_blk; wr32 (wr32 zero_blk 16 2) 12 LOGSIZE] ++ replicate 70 zero_blk.

(** A call that changes the blocks [ms]. *)
Definition big_call (ms : list nat) : M log unit :=
  mfor ms (fun m =>
    let! b := inb (bread 1 (Z.of_nat m)) in
    do! log_write b in
    inb (brelse b)).

(** * Lemmas *)

Lemma begin_op_spec g :
  l_lock g = false -> l_committing g = 0 -> lh_n g + (l_outstanding g + 1) * MAXOPBLOCKS <= LOGSIZE ->
  wp begin_op (fun _ g' => g' = set_l_lock false (set_outstanding (l_outstanding g + 1) g)) g.
Proof.
  intros Hl Hc Hn. unfold begin_op. wp_step. apply wpx_acquire; [done|]. wp_steps. cbn.
  rewrite Hc. cbn. rewrite (proj2 (Z.ltb_ge _ _)) by done. wp_steps. by apply wpx_release.
Qed.

Lemma absorb_spec g st bs size bn k i :
  log_geom g st bs size -> (bn < size)%nat -> (i + k = length bs)%nat -> bn ∉ take i bs ->
  wp (absorb (Z.of_nat bn) k (Z.of_nat i)) (fun r g' => g' = g /\
    exists j, r = Z.of_nat j /\ ((j < length bs)%nat /\ bs !! j = Some bn \/ j = length bs /\ bn ∉ bs)) g.
Proof.
  intros G Hbn. revert i. induction k as [|k IH]; intros i Hk Hno; simpl.
  - wp_step. split; [done|]. exists i. split; [done|]. right. rewrite firstn_all2 in Hno by lia. split; [lia|done].
  - destruct (lookup_lt_is_Some_2 bs i) as [b Hb]; [lia|].
    wp_step. eapply lh_get_spec; [done..|]. destruct (lg_home _ _ _ _ G b) as [Hbl _]; [by eapply list_elem_of_lookup_2|].
    rewrite (u32_nat b size) by (done || apply (lg_size _ _ _ _ G)).
    destruct (Z.eqb_spec (Z.of_nat b) (Z.of_nat bn)) as [He|He].
    + wp_step. split; [done|]. exists i. split; [done|]. left. split; [lia|]. rewrite Hb. f_equal. lia.
    + replace (Z.of_nat i + 1) with (Z.of_nat (S i)) by lia. apply IH; [lia|].
      rewrite (take_snoc _ _ _ Hb). apply not_elem_of_app. split; [done|]. apply not_elem_of_cons. split; [lia|].
      apply not_elem_of_nil.
Qed.

(** The log in memory after block [m] has been recorded at index [j]. *)
Lemma geom_add g st sz bs size m j :
  log_geom g st bs size -> (st + sz <= size)%nat -> Z.of_nat sz <= LOGSIZE -> (length bs + 1 < sz)%nat ->
  (forall m', m' ∈ bs -> ~ in_log st sz m') -> (m < size)%nat -> ~ in_log st sz m ->
  ((j < length bs)%nat /\ bs !! j = Some m \/ j = length bs /\ m ∉ bs) ->
  log_geom (set_lh_n (Z.of_nat (length (add_block bs m))) (set_lh_block (<[j := Z.of_nat m]> (lh_block g)) g)) st (add_block bs m) size.
Proof.
  intros [G1 G2 G3 G4 G5 G6 G7 G8 G9] Hsz Hls Hlen Hb Hm Hl Hj.
  assert (Hjl : (j < length (lh_block g))%nat) by (rewrite G4; unfold LOGSIZE in *; lia).
  assert (Hnew : length (add_block bs m) = (if decide (m ∈ bs) then length bs else length bs + 1)%nat).
  { unfold add_block. case_decide; [done|]. by rewrite length_app. }
  split; try done; cbn [lh_block set_lh_n set_lh_block].
  - by rewrite length_insert.
  - unfold add_block. destruct Hj as [[Hj Hjm]|[-> Hnin]].
    + rewrite decide_True by (by eapply list_elem_of_lookup_2). rewrite list_insert_id; [done|].
      apply (f_equal (.!! j)) in G5. by rewrite lookup_take_lt, list_lookup_fmap, Hjm in G5.
    + rewrite decide_False, length_app, Nat.add_1_r, take_insert_snoc by done. by rewrite G5, fmap_app.
  - rewrite Hnew. case_decide; lia.
  - intros m' Hm'. assert (m' ∈ bs \/ m' = m) as Hc by (unfold add_block in Hm'; case_decide; set_solver).
    rewrite Hnew. destruct Hc as [Hin| ->].
    + destruct (G7 m' Hin) as [? _]. pose proof (Hb m' Hin). unfold in_log in *. case_decide; lia.
    + unfold in_log in *. case_decide; lia.
  - rewrite Hnew. case_decide; lia.
Qed.

Lemma add_block_set bs m : (list_to_set (add_block bs m) : gset nat) = list_to_set bs ∪ {[m]}.
Proof. unfold add_block. case_decide; set_solver. Qed.

Lemma add_block_nodup bs m : NoDup bs -> NoDup (add_block bs m).
Proof.
  intros H. unfold add_block. case_decide as Hm; [done|]. apply NoDup_app. split; [done|]. split; [set_solver|]. apply NoDup_singleton.
Qed.

Lemma geom_ext g g' st bs size :
  log_geom g st bs size -> l_dev g' = l_dev g -> l_start g' = l_start g -> lh_n g' = lh_n g -> lh_block g' = lh_block g ->
  log_geom g' st bs size.
Proof. intros [? ? ? ? ? ? ? ? ?] E1 E2 E3 E4. split; rewrite ?E1, ?E2, ?E3, ?E4; done. Qed.

Lemma count_spec g bs m j :
  lh_n g = Z.of_nat (length bs) -> ((j < length bs)%nat /\ bs !! j = Some m \/ j = length bs /\ m ∉ bs) ->
  wp (if Z.of_nat j =? Z.of_nat (length bs) then modify (set_lh_n (Z.of_nat (length bs) + 1)) else ret ())
    (fun _ g' => g' = set_lh_n (Z.of_nat (length (add_block bs m))) g) g.
Proof.
  intros Hn Hj. unfold add_block. destruct Hj as [[Hj Hjm]|[-> Hnin]].
  - rewrite decide_True by (by eapply list_elem_of_lookup_2). rewrite (proj2 (Z.eqb_neq _ _)) by lia. apply wpx_ret.
    rewrite <- Hn. by destruct g.
  - rewrite decide_False, Z.eqb_refl by done. apply wpx_modify. rewrite length_app. cbn. f_equal. lia.
Qed.

(** [log_write] of a locked block outside the log pins it and records it once. *)
Lemma log_write_spec st sz g bs v lk m b :
  trans st sz g bs v lk -> 1 <= l_outstanding g -> (length bs + 1 < sz)%nat ->
  lk !! m = Some b -> m <> 1%nat -> ~ in_log st sz m ->
  wp (log_write b) (fun _ g' => trans st sz g' (add_block bs m) v lk /\ same_log g g' /\
                                same_disk (bc g) (bc g')) g.
Proof.
  intros T Hout Hlen Hlk Hm1 Hml. pose proof (tr_geom _ _ _ _ _ _ T) as G. pose proof (tr_rep _ _ _ _ _ _ T) as I.
  destruct (tr_size _ _ _ _ _ _ T) as (Hz1 & Hz2 & Hz3). pose proof (tr_lsize _ _ _ _ _ _ T) as Hls.
  destruct (rep_locked _ _ _ _ _ _ I Hlk) as (x & Hb & Hx & _ & Hc & _).
  assert (Hmlen : (m < length v)%nat) by (by eapply lookup_lt_Some, ca_data).
  pose proof (lg_size _ _ _ _ G) as Hsmall.
  unfold log_write. wp_step. wp_step. wp_step. wp_step. rewrite (lg_n _ _ _ _ G), Hls.
  rewrite (proj2 (Z.leb_gt _ _)), (proj2 (Z.leb_gt _ _)) by (unfold LOGSIZE in *; lia). cbn [orb].
  wp_step. wp_step. rewrite (proj2 (Z.ltb_ge _ _)) by done. wp_step. apply wpx_acquire; [apply T|].
  wp_step. apply wpx_inb. eapply wpx_bref; [exact Hx|]. rewrite (ca_blockno _ _ _ _ _ _ _ Hc), Nat2Z.id.
  wp_step. wp_use (absorb_spec (set_bc (bc g) (set_l_lock true g)) st bs (length v) m (length bs) 0); [by destruct G|done|lia|set_solver|].
  intros r g1 (-> & j & -> & Hj). wp_step. unfold lh_put.
  assert (Hjb : Z.of_nat j < LOGSIZE) by (unfold LOGSIZE in *; lia).
  rewrite (proj2 (Z.leb_le _ _)), (proj2 (Z.ltb_lt _ _)) by lia. cbn [andb]. rewrite Nat2Z.id, s32_small by lia.
  apply wpx_modify. wp_step.
  wp_use (count_spec _ bs m j); [apply (lg_n _ _ _ _ G)|done|]. intros _ g' ->. wp_step. apply wpx_inb.
  wp_use (bpin_spec (bc g) v lk (list_to_set bs) m b _ I Hlk). intros _ s [[M W] I'].
  apply wpx_release; [done|]. split; [|split; [|done]; split; try done; symmetry; apply T].
  destruct T as [T1 T2 T3 T4 T5 T6 T7 T8 T10 T11]. split; try done.
  - eapply geom_ext; [apply (geom_add g st sz bs (length v) m j); try done|done..]. intros m' Hm'. by destruct (T6 m' Hm').
  - unfold add_block. case_decide; [done|]. rewrite length_app. simpl. lia.
  - by apply add_block_nodup.
  - intros m' Hm'. unfold add_block in Hm'. case_decide; [by apply T6|]. apply elem_of_app in Hm' as [?|?]; [by apply T6|].
    assert (m' = m) as -> by set_solver. done.
  - rewrite add_block_set. exact I'.
Qed.

(** ** The cache inside a transaction *)

Lemma trans_set_bc st sz g bs v lk s v' lk' :
  trans st sz g bs v lk -> bc_rep s v' lk' (list_to_set bs) -> length v' = length v ->
  v' !! 1%nat = v !! 1%nat -> v' !! st = v !! st -> trans st sz (set_bc s g) bs v' lk'.
Proof.
  intros [T1 T2 T3 T4 T5 T6 T7 T8 T10 T11] I Hl H1 Hs. split; try done; rewrite ?Hl, ?H1, ?Hs; try done.
  by apply geom_set_bc.
Qed.

(** Only the cache changed. *)
Definition tstep (st sz : nat) (g : log) (bs : list nat) (v : list bytes) (lk : gmap nat nat) (g' : log) : Prop :=
  exists s, g' = set_bc s g /\ same_disk (bc g) s /\ trans st sz g' bs v lk.

Lemma trans_bread st sz g bs v lk m :
  trans st sz g bs v lk -> lk !! m = None -> (m < length v)%nat ->
  wpx (inb (bread 1 (Z.of_nat m))) (fun b => tstep st sz g bs v (<[m := b]> lk)) (no_buffers lk (list_to_set bs) m) g.
Proof.
  intros T Hl Hm. apply wpx_inb. wp_use (bread_spec _ _ _ _ _ (tr_rep _ _ _ _ _ _ T) Hl Hm).
  intros b s [Hd I]. exists s. split; [done|]. split; [done|]. by eapply trans_set_bc.
Qed.

Lemma trans_bdata st sz g bs v lk m b E :
  trans st sz g bs v lk -> lk !! m = Some b ->
  wpx (inb (bdata b)) (fun d g' => g' = g /\ v !! m = Some d /\ is_blk d) E g.
Proof.
  intros T Hl. apply wpx_inb. wp_use (bdata_spec _ _ _ _ _ _ _ (tr_rep _ _ _ _ _ _ T) Hl).
  intros d s [-> H]. split; [by destruct g|done].
Qed.

Lemma trans_bset st sz g bs v lk m b d E :
  trans st sz g bs v lk -> lk !! m = Some b -> is_blk d -> m <> 1%nat -> ~ in_log st sz m ->
  wpx (inb (bset b d)) (fun _ => tstep st sz g bs (<[m := d]> v) lk) E g.
Proof.
  intros T Hl Hd H1 Hm. apply wpx_inb. wp_use (bset_spec _ _ _ _ _ _ d _ (tr_rep _ _ _ _ _ _ T) Hl Hd).
  intros _ s [Hs I]. exists s. split; [done|]. split; [done|]. eapply trans_set_bc; [done|done|apply length_insert|..].
  - by rewrite list_lookup_insert_ne.
  - apply list_lookup_insert_ne. intros ->. apply Hm. unfold in_log. pose proof (tr_cap _ _ _ _ _ _ T). lia.
Qed.

Lemma trans_brelse st sz g bs v lk m b E :
  trans st sz g bs v lk -> lk !! m = Some b -> (m ∈ bs \/ v !! m = memdisk (bc g) !! m) ->
  wpx (inb (brelse b)) (fun _ => tstep st sz g bs v (delete m lk)) E g.
Proof.
  intros T Hl Hc. apply wpx_inb. wp_use (brelse_spec _ _ _ _ _ _ _ (tr_rep _ _ _ _ _ _ T) Hl).
  { destruct Hc; [left; by apply elem_of_list_to_set|by right]. }
  intros _ s (Hs & I & _). exists s. split; [done|]. split; [done|]. by eapply trans_set_bc.
Qed.

(** ** The end of the last operation *)

Lemma data_exist bs (v : list bytes) : (forall m, m ∈ bs -> (m < length v)%nat) -> exists ds, home_data bs v ds.
Proof.
  induction bs as [|b bs IH]; intros H; [by exists []|].
  destruct IH as (ds & Hl & Hd); [set_solver|]. destruct (lookup_lt_is_Some_2 v b) as [d Hb]; [apply H; set_solver|].
  exists (d :: ds). split; [simpl; lia|]. intros [|i] c e Hc He; simpl in *; [congruence|by eapply Hd].
Qed.

Lemma trans_ready st sz g bs v : trans st sz g bs v ∅ -> bs <> [] -> exists ds, ready st sz g bs v ds.
Proof.
  intros [T1 T2 T3 T4 T5 T6 T7 T8 T10 T11] Hne.
  destruct (data_exist bs v) as [ds Hd]. { intros m Hm. by destruct (lg_home _ _ _ _ T1 m Hm). }
  exists ds. destruct T2 as (? & ? & ?). by split.
Qed.

Lemma commit_writes_home st sz g bs v ds h m :
  ready st sz g bs v ds -> ~ in_log st sz m -> apply_writes (commit_writes st h bs ds) v !! m = v !! m.
Proof.
  intros R Hm. pose proof (rd_size _ _ _ _ _ _ R) as Hsz. destruct (rd_data _ _ _ _ _ _ R) as [Hl Hd].
  assert (m <> st) by (intros ->; apply Hm; unfold in_log; lia).
  unfold commit_writes. rewrite !app_assoc, apply_writes_snoc, list_lookup_insert_ne by done.
  rewrite apply_writes_app, apply_writes_snoc. set (v1 := apply_writes (log_writes st ds) v).
  assert (Hv1 : v1 !! m = v !! m).
  { subst v1. rewrite <- (firstn_all (log_writes st ds)). apply log_writes_other. unfold in_log in Hm. lia. }
  destruct (decide (m ∈ bs)) as [Hin|Hin].
  - apply list_elem_of_lookup in Hin as [i Hi]. destruct (lookup_lt_is_Some_2 ds i) as [d Hdi].
    { rewrite Hl. by eapply lookup_lt_Some. }
    rewrite (Hd i m d Hi Hdi). apply apply_writes_at; [rewrite home_writes_fst by done; apply (rd_nodup _ _ _ _ _ _ R)| |].
    + eapply list_elem_of_lookup_2. by apply lookup_home_writes.
    + rewrite length_insert. subst v1. rewrite length_apply_writes. eapply lookup_lt_Some. by eapply Hd.
  - by rewrite home_writes_keep, list_lookup_insert_ne.
Qed.

Lemma commit_writes_header st h bs ds v :
  (st < length v)%nat -> apply_writes (commit_writes st h bs ds) v !! st = Some (clear_header (header h bs)).
Proof.
  intros Hst. unfold commit_writes. rewrite !app_assoc, apply_writes_snoc. apply list_lookup_insert_eq.
  by rewrite length_apply_writes.
Qed.

Lemma commit_trans st sz g bs v :
  trans st sz g bs v ∅ ->
  wp commit (fun _ g' => same_log g g' /\ committed st sz v g') g.
Proof.
  intros T. destruct (decide (bs = [])) as [->|Hne].
  { unfold commit. wp_step. wp_step. rewrite (lg_n _ _ _ _ (tr_geom _ _ _ _ _ _ T)).
    apply wpx_ret. split; [done|]. exists v. split; [done|]. split; [|done]. symmetry. apply rep_settled. apply (tr_rep _ _ _ _ _ _ T). }
  destruct (trans_ready st sz g bs v T Hne) as [ds R]. destruct (rd_empty _ _ _ _ _ _ R) as (h & Hh & Hod).
  pose proof (rd_rep _ _ _ _ _ _ R) as I. pose proof (tr_size _ _ _ _ _ _ T) as (Hz1 & Hz2 & Hz3).
  pose proof (tr_cap _ _ _ _ _ _ T) as Hcap.
  wp_use (commit_spec g st bs (length v) v h ds (rd_geom _ _ _ _ _ _ R) Hne (rd_nodup _ _ _ _ _ _ R) eq_refl (rd_data _ _ _ _ _ _ R) I Hh).
  intros _ g' [S1 S2 S3 S4 S5 S6]. split; [done|]. exists (apply_writes (commit_writes st h bs ds) v).
  assert (Hhome : forall m, ~ in_log st sz m -> apply_writes (commit_writes st h bs ds) v !! m = v !! m).
  { intros m. by eapply commit_writes_home. }
  assert (is_blk h) by (eapply (Forall_lookup_1 is_blk); [apply (br_blk _ _ _ _ I)|done]).
  split; [|split; [symmetry; by apply rep_settled|done]].
  destruct T as [[G1 G2 G3 G4 G5 G6 G7 G8 G9] T2 T3 T4 T5 T6 T7 T8 T10 T11], S1 as [E1 E2 E3 E4 E5 E6].
  split; rewrite ?length_apply_writes; try done; try congruence.
  - split; rewrite ?E6, ?E2, ?S2; try done; [|simpl; lia]. intros m Hm. by apply elem_of_nil in Hm.
  - simpl. lia.
  - apply NoDup_nil_2.
  - intros m Hm. by apply elem_of_nil in Hm.
  - rewrite Hhome; [done|]. unfold in_log. lia.
  - eexists. split; [apply commit_writes_header; lia|]. apply clear_on_disk. by apply header_blk.
Qed.

Lemma trans_same st sz g g' bs v lk :
  trans st sz g bs v lk -> bc g' = bc g -> l_dev g' = l_dev g -> l_start g' = l_start g -> l_size g' = l_size g ->
  lh_n g' = lh_n g -> lh_block g' = lh_block g -> l_lock g' = false -> trans st sz g' bs v lk.
Proof.
  intros [T1 T2 T3 T4 T5 T6 T7 T8 T10 T11] E1 E2 E3 E4 E5 E6 E7. split; try done; [by eapply geom_ext|congruence|by rewrite E1].
Qed.

Lemma end_op_spec st sz g bs v :
  trans st sz g bs v ∅ -> l_outstanding g = 1 -> l_committing g = 0 ->
  wp end_op (fun _ g' => committed st sz v g' /\ l_outstanding g' = 0 /\ l_committing g' = 0) g.
Proof.
  intros T Hout Hcomm. unfold end_op. wp_step. apply wpx_acquire; [apply T|]. wp_step. wp_step. wp_step. wp_step.
  cbn [l_committing set_outstanding set_l_lock l_outstanding]. rewrite Hcomm. change (nz 0) with false.
  wp_step. wp_step. wp_step. change (l_outstanding (set_outstanding _ _)) with (l_outstanding g - 1). rewrite Hout.
  change (1 - 1 =? 0) with true. cbn iota. wp_step. wp_step. wp_step. apply wpx_release; [done|]. wp_step.
  set (g1 := set_l_lock false _). assert (T1 : trans st sz g1 bs v ∅) by (by eapply trans_same).
  wp_use (commit_trans st sz g1 bs v T1). intros _ g2 ([S1 S2 S3 S4 S5 S6] & v' & T2 & HD & Hv). wp_step.
  apply wpx_acquire; [apply T2|]. wp_step. wp_step. apply wpx_release; [done|]. split; [|by rewrite S4 || done].
  exists v'. split; [|done]. by eapply trans_same.
Qed.

(** ** The system after a reboot *)

Lemma booted_trans st sz D h g : bootable st sz D h [] [] -> booted st sz D h [] [] g ->
  trans st sz g [] (memdisk (bc g)) ∅ /\ memdisk (bc g) = <[st := clear_header h]> D.
Proof.
  intros [H1 (Hs1 & Hs2 & Hs3 & Hs4) H3 [H4 H5] _ Hz _] [Hn Hl Ho Hc Hs [B1 B2 B3] _ Hm I]. split; [|done].
  assert (Hblk : is_blk h) by (by eapply (Forall_lookup_1 is_blk)). assert (Hlen : length (memdisk (bc g)) = length D) by (by rewrite Hm, length_apply_writes).
  split; rewrite ?Hlen; try done.
  - split; try done; [|simpl; lia]. intros m Hin. by apply elem_of_nil in Hin.
  - apply NoDup_nil_2.
  - intros m Hin. by apply elem_of_nil in Hin.
  - rewrite Hm. cbn. by rewrite list_lookup_insert_ne by lia.
  - exists (clear_header h). split; [|by apply clear_on_disk]. rewrite Hm. cbn. apply list_lookup_insert_eq. lia.
Qed.

Lemma reboot_trans st sz D pid h :
  Forall is_blk D ->
  (Z.of_nat (length D) < 2147483648 /\ (st + sz <= length D)%nat /\ (1 < st)%nat /\ Z.of_nat sz <= LOGSIZE) ->
  (0 < sz)%nat ->
  (exists sb, D !! 1%nat = Some sb /\ rd32 sb 16 = Z.of_nat st /\ rd32 sb 12 = Z.of_nat sz) ->
  D !! st = Some h -> on_disk_header h [] ->
  wp reboot (fun _ g => trans st sz g [] (memdisk (bc g)) ∅ /\ l_outstanding g = 0 /\ l_committing g = 0 /\
                        memdisk (bc g) = <[st := clear_header h]> D) (reset pid D).
Proof.
  intros H1 H2 Hz H3 H4 H5. assert (Hb : bootable st sz D h [] []) by (split; try done; intros m Hm; by apply elem_of_nil in Hm).
  eapply wpx_mono; [by apply reboot_spec| |done]. intros [] g Hg. destruct (booted_trans _ _ _ _ _ Hb Hg) as [T M]. by destruct Hg.
Qed.

(** One system call: begin, change a block, and leave it to the log. *)
Lemma demo_call_spec st sz g v d :
  trans st sz g [] v ∅ -> l_outstanding g = 0 -> l_committing g = 0 -> (2 < sz)%nat -> ~ in_log st sz 6 ->
  v !! 6%nat = Some d ->
  wp demo_call (fun _ g' => trans st sz g' [6%nat] (<[6%nat := wr8 d 0 7]> v) ∅ /\ l_outstanding g' = 1 /\ l_committing g' = 0) g.
Proof.
  intros T Ho Hc Hsz Hl Hd. unfold demo_call. wp_step. wp_use (begin_op_spec g); [apply T|done|..].
  { rewrite Ho, (lg_n _ _ _ _ (tr_geom _ _ _ _ _ _ T)). done. }
  intros _ g1 ->. set (g1 := set_l_lock false _). assert (T1 : trans st sz g1 [] v ∅) by (by eapply trans_same).
  wp_step. eapply wpx_mono; [apply (trans_bread st sz g1 [] v ∅ 6 T1 eq_refl)| |].
  { by eapply lookup_lt_Some. }
  2:{ intros m (_ & _ & Hfull). vm_compute in Hfull. lia. }
  intros b g2 (s2 & -> & [M2 W2] & T2). rewrite insert_empty in T2.
  assert (Hlk : ({[6%nat := b]} : gmap nat nat) !! 6%nat = Some b) by apply lookup_singleton_eq.
  wp_step. wp_use (trans_bdata _ _ _ _ _ _ _ _ _ T2 Hlk). intros d' g3 (-> & Hd' & Hb). rewrite Hd in Hd'. injection Hd' as <-.
  wp_step. wp_use (trans_bset _ _ _ _ _ _ _ _ (wr8 d 0 7) _ T2 Hlk); [by unfold is_blk; rewrite length_wr8|done|done|].
  intros _ g3 (s3 & -> & [M3 W3] & T3). wp_step.
  wp_use (log_write_spec _ _ _ _ _ _ 6 b T3); [cbn; lia|simpl; lia|exact Hlk|done|done|].
  intros _ g4 (T4 & [_ _ _ Ho4 Hc4 _] & _). wp_use (trans_brelse _ _ _ _ _ _ 6 b _ T4 Hlk); [left; set_solver|].
  intros _ g5 (s5 & -> & _ & T5). rewrite delete_singleton_eq in T5. split; [exact T5|]. cbn. rewrite Ho4, Hc4. cbn. by rewrite Ho, Hc.
Qed.

Lemma demo_disk_ok :
  Forall is_blk demo_disk /\
  (Z.of_nat (length demo_disk) < 2147483648 /\ (2 + 4 <= length demo_disk)%nat /\ (1 < 2)%nat /\ Z.of_nat 4 <= LOGSIZE) /\
  (exists sb, demo_disk !! 1%nat = Some sb /\ rd32 sb 16 = Z.of_nat 2 /\ rd32 sb 12 = Z.of_nat 4) /\
  demo_disk !! 2%nat = Some zero_blk /\ on_disk_header zero_blk [].
Proof.
  split; [repeat constructor|]. split; [unfold LOGSIZE; simpl; lia|]. split; [by exists demo_sb|].
  split; [done|]. split; done.
Qed.

Lemma after_bind {S A B} (c : M S A) (k : A -> M S B) s a s' b s'' :
  c s = Ret a s' -> k a s' = Ret b s'' -> after (bind c k) s = s''.
Proof. intros H H'. unfold after, bind. by rewrite H, H'. Qed.

Lemma after_run {S A} (c : M S A) s a s' : c s = Ret a s' -> after c s = s'.
Proof. intros H. unfold after. by rewrite H. Qed.

Lemma demo_trans : trans 2 4 demo_log [6%nat] demo_view ∅ /\ l_outstanding demo_log = 1 /\ l_committing demo_log = 0.
Proof.
  destruct demo_disk_ok as (H1 & H2 & H3 & H4 & H5).
  destruct (wp_run _ _ _ (reboot_trans 2 4 demo_disk 1 zero_blk H1 H2 ltac:(lia) H3 H4 H5)) as ([] & g1 & Hr & T & Ho & Hc & HD).
  assert (Hv : demo_view = <[6%nat := wr8 zero_blk 0 7]> (memdisk (bc g1))).
  { unfold demo_view. rewrite (after_run _ _ _ _ Hr). reflexivity. }
  assert (H6 : memdisk (bc g1) !! 6%nat = Some zero_blk) by (rewrite HD; reflexivity).
  destruct (wp_run _ _ _ (demo_call_spec 2 4 g1 _ zero_blk T Ho Hc ltac:(lia) ltac:(unfold in_log; lia) H6)) as ([] & g2 & Hr2 & H).
  assert (Hl : demo_log = g2) by exact (after_bind _ _ _ _ _ _ _ Hr Hr2).
  rewrite Hl, Hv. exact H.
Qed.

Lemma demo_ready : exists ds, ready 2 4 demo_log [6%nat] demo_view ds.
Proof. destruct demo_trans as (T & _). by apply trans_ready. Qed.

(** ** Theorems *)

(** C1: a commit is atomic with respect to crashes.  [commit] returns, and
    its disk writes are a fixed sequence; after a crash that left any prefix of
    them on the disk, and any number of further crashes during recovery, the
    reboot returns, leaves the log empty, and makes of every block outside the
    log its old contents, when the crash came before the header was written,
    or else its new contents. *)
Theorem log_crash_atomic st sz g bs v ds :
  ready st sz g bs v ds ->
  exists g' ws, commit g = Ret tt g' /\ writes (bc g') = writes (bc g) ++ ws /\
    memdisk (bc g') = apply_writes ws (memdisk (bc g)) /\
    forall k D' pid, after_crashes (apply_writes (take k ws) (memdisk (bc g))) D' ->
      exists g'', reboot (reset pid D') = Ret tt g'' /\ lh_n g'' = 0 /\
        forall m, ~ in_log st sz m ->
          memdisk (bc g'') !! m = (if decide (k <= length bs)%nat then memdisk (bc g) else v) !! m.
Proof.
  intros R. destruct (rd_empty _ _ _ _ _ _ R) as (h & Hh & Hod).
  destruct (wp_run _ _ _ (commit_spec g st bs (length v) v h ds (rd_geom _ _ _ _ _ _ R) (rd_some _ _ _ _ _ _ R)
     (rd_nodup _ _ _ _ _ _ R) eq_refl (rd_data _ _ _ _ _ _ R) (rd_rep _ _ _ _ _ _ R) Hh)) as ([] & g' & Hr & [_ _ _ _ Hd Hw]).
  exists g', (commit_writes st h bs ds). split; [done|]. split; [done|]. split; [done|].
  intros k D' pid Hc.
  destruct (reboot_recovers _ _ _ _ pid (crashes_recover _ _ _ _ _ (crash_any st sz g bs v ds h R Hh Hod k) Hc)) as (g'' & H1 & H2 & H3 & _).
  exists g''. exact (conj H1 (conj H2 H3)).
Qed.

Lemma log_crash_atomic_witness :
  exists g' ws, commit demo_log = Ret tt g' /\ writes (bc g') = writes (bc demo_log) ++ ws /\
    memdisk (bc g') = apply_writes ws (memdisk (bc demo_log)) /\
    forall k D' pid, after_crashes (apply_writes (take k ws) (memdisk (bc demo_log))) D' ->
      exists g'', reboot (reset pid D') = Ret tt g'' /\ lh_n g'' = 0 /\
        forall m, ~ in_log 2 4 m ->
          memdisk (bc g'') !! m = (if decide (k <= length [6%nat])%nat then memdisk (bc demo_log) else demo_view) !! m.
Proof. destruct demo_ready as [ds R]. exact (log_crash_atomic 2 4 demo_log [6%nat] demo_view ds R). Defined.

(** The [end_op] of the last running operation commits: it returns with
    nothing outstanding, an empty log and nothing pinned, and on the disk every
    block outside the log has the contents the cache had for it. *)
Theorem end_op_commits st sz g bs v :
  trans st sz g bs v ∅ -> l_outstanding g = 1 -> l_committing g = 0 ->
  wp end_op (fun _ g' => committed st sz v g' /\ l_outstanding g' = 0 /\ l_committing g' = 0) g.
Proof. apply end_op_spec. Qed.

Lemma end_op_commits_witness :
  wp end_op (fun _ g' => committed 2 4 demo_view g' /\ l_outstanding g' = 0 /\ l_committing g' = 0) demo_log.
Proof. destruct demo_trans as (T & Ho & Hc). exact (end_op_commits 2 4 demo_log [6%nat] demo_view T Ho Hc). Defined.

(** [begin_op] lets three operations of [MAXOPBLOCKS] blocks each run at
    once, but with the log of [LOGSIZE] blocks that mkfs makes, of which one is
    the header, the last [log_write] of the third panics. *)
Theorem log_reservation_exceeds_log :
  (exists g, (do! reboot in do! begin_op in do! begin_op in begin_op) (reset 1 big_disk) = Ret tt g /\
     l_outstanding g = 3 /\ (big_call (seq 40 29) g = Ret tt (after (big_call (seq 40 29)) g))) /\
  (do! reboot in do! begin_op in do! begin_op in do! begin_op in
   do! big_call (seq 40 10) in do! big_call (seq 50 10) in big_call (seq 60 10)) (reset 1 big_disk) =
  Panic "too big a transaction".
Proof.
  split; [eexists; split; [vm_compute; reflexivity|]; split; vm_compute; reflexivity|]. vm_compute. reflexivity.
Qed.
