(* ===== verification/Path.v ===== *)
(** * Names and paths (src/fs.c)

    The string functions of the file system that touch no disk: comparing and
    copying directory entry names, and taking a path apart.  A C string is the
    list of its bytes up to the terminator; reading at its end gives 0. *)

From S2P Require Import Prelude.
From S2P Require Import Bytes.

Open Scope Z_scope.

Definition DIRSIZ : nat := 14.
Definition SLASH : Z := 47.

(** [strncmp] and [strncpy] of src/string.c, on strings as lists of bytes. *)
Fixpoint bstrncmp (p q : bytes) (n : nat) : Z :=
  match n with
  | O => 0
  | S n' =>
      if nz (rd8 p 0) && (rd8 p 0 =? rd8 q 0) then bstrncmp (tail p) (tail q) n'
      else rd8 p 0 - rd8 q 0
  end.

Fixpoint bstrncpy (t : bytes) (n : nat) : bytes :=
  match n with
  | O => []
  | S n' => if nz (rd8 t 0) then rd8 t 0 :: bstrncpy (tail t) n' else replicate n 0
  end.

Definition namecmp (s t : bytes) : Z := bstrncmp s t DIRSIZ.

(** [while( *path == '/' ) path++] *)
Fixpoint skip_slashes (path : bytes) : bytes :=
  match path with
  | c :: path' => if c =? SLASH then skip_slashes path' else path
  | [] => []
  end.

(** [while( *path != '/' && *path != 0 ) path++]: the bytes passed over and
    the rest. *)
Fixpoint span_elem (path : bytes) : bytes * bytes :=
  match path with
  | c :: path' =>
      if negb (c =? SLASH) && nz c then let '(s, rest) := span_elem path' in (c :: s, rest)
      else ([], path)
  | [] => ([], [])
  end.

(** [skipelem]: the rest of the path and the buffer [name], or [None] for the
    null pointer. *)
Definition skipelem (path name : bytes) : option (bytes * bytes) :=
  let path := skip_slashes path in
  if rd8 path 0 =? 0 then None
  else
    let '(s, path) := span_elem path in
    let name :=
      if (DIRSIZ <=? length s)%nat then splice name 0 (take DIRSIZ s)
      else splice name 0 (s ++ [0]) in
    Some (skip_slashes path, name).

(** ** What a path means *)

(** The elements of a path: the maximal runs without slashes. *)
Fixpoint elems_from (cur : bytes) (path : bytes) : list bytes :=
  match path with
  | [] => if decide (cur = []) then [] else [cur]
  | c :: path' =>
      if c =? SLASH then (if decide (cur = []) then elems_from [] path' else cur :: elems_from [] path')
      else elems_from (cur ++ [c]) path'
  end.
Definition elems (path : bytes) : list bytes := elems_from [] path.

(** The name in a name buffer: the bytes up to a terminator, at most [DIRSIZ]. *)
Fixpoint cut_nul (s : bytes) : bytes :=
  match s with
  | c :: s' => if c =? 0 then [] else c :: cut_nul s'
  | [] => []
  end.
Definition name_of (buf : bytes) : bytes := cut_nul (take DIRSIZ buf).

(** [namex] takes a path apart with [skipelem]; this is its loop without the
    inodes, with fuel. *)
Fixpoint walk (fuel : nat) (path name : bytes) : option (list bytes) :=
  match fuel with
  | O => None
  | S n =>
      match skipelem path name with
      | None => Some []
      | Some (path', name') =>
          match walk n path' name' with Some l => Some (name_of name' :: l) | None => None end
      end
  end.

(** A path holds no terminator. *)
Definition is_path (path : bytes) : Prop := Forall (fun c => c <> 0) path.

(** * Lemmas *)

Lemma skip_slashes_elems path : elems (skip_slashes path) = elems path.
Proof.
  induction path as [|c path IH]; [done|]. simpl. destruct (c =? SLASH) eqn:E; [|done].
  rewrite IH. unfold elems. simpl. by rewrite E.
Qed.

Lemma skip_slashes_path path : is_path path -> is_path (skip_slashes path).
Proof.
  intros H. induction H as [|c path Hc H IH]; [by constructor|]. simpl. case_if E; [done|]. by constructor.
Qed.

Lemma skip_slashes_length path : (length (skip_slashes path) <= length path)%nat.
Proof. induction path as [|c path IH]; [done|]. simpl. case_if E; simpl; lia. Qed.

Lemma skip_slashes_head path c path' : skip_slashes path = c :: path' -> c <> SLASH.
Proof.
  induction path as [|d path IH]; [done|]. simpl. destruct (Z.eqb_spec d SLASH); [done|]. by intros [= <- <-].
Qed.

Lemma span_elem_spec path s rest :
  is_path path -> span_elem path = (s, rest) ->
  path = s ++ rest /\ Forall (fun c => c <> SLASH) s /\ (rest = [] \/ exists r, rest = SLASH :: r).
Proof.
  intros H. revert s rest. induction H as [|c path Hc H IH]; intros s rest; simpl.
  - intros [= <- <-]. split; [done|]. split; [by constructor|by left].
  - destruct (Z.eqb_spec c SLASH) as [->|Hs]; simpl.
    + intros [= <- <-]. split; [done|]. split; [by constructor|]. right. by exists path.
    + rewrite (proj2 (nz_true c) Hc). destruct (span_elem path) as [s' r'] eqn:E. intros [= <- <-].
      destruct (IH s' r' eq_refl) as (-> & Hf & Hr). split; [done|]. split; [by constructor|done].
Qed.

Lemma elems_from_word cur s rest :
  Forall (fun c => c <> SLASH) s -> elems_from cur (s ++ rest) = elems_from (cur ++ s) rest.
Proof.
  intros H. revert cur. induction H as [|c s Hc H IH]; intros cur; simpl; [by rewrite app_nil_r|].
  rewrite (proj2 (Z.eqb_neq c SLASH)) by done. rewrite IH. f_equal. by rewrite <- app_assoc.
Qed.

Lemma elems_word s rest :
  s <> [] -> Forall (fun c => c <> SLASH) s -> (rest = [] \/ exists r, rest = SLASH :: r) ->
  elems (s ++ rest) = s :: elems rest.
Proof.
  intros Hne Hs Hr. unfold elems. rewrite elems_from_word by done. simpl app.
  destruct Hr as [->|[r ->]]; simpl; by rewrite decide_False.
Qed.

Lemma cut_nul_all s : is_path s -> cut_nul s = s.
Proof.
  induction 1 as [|c s Hc H IH]; [done|]. simpl. rewrite (proj2 (Z.eqb_neq c 0)) by done. by rewrite IH.
Qed.

Lemma cut_nul_stop s t : is_path s -> cut_nul (s ++ 0 :: t) = s.
Proof.
  induction 1 as [|c s Hc H IH]; [done|]. simpl. rewrite (proj2 (Z.eqb_neq c 0)) by done. by rewrite IH.
Qed.

(** The prefix of a buffer that was overwritten. *)
Lemma take_splice d src : (length src <= length d)%nat -> take (length src) (splice d 0 src) = src.
Proof. intros H. exact (slice_splice d 0 src H). Qed.

Lemma name_long name s :
  length name = DIRSIZ -> (DIRSIZ <= length s)%nat -> is_path s -> name_of (splice name 0 (take DIRSIZ s)) = take DIRSIZ s.
Proof.
  intros Hn Hl Hs. unfold name_of.
  assert (Ht : length (take DIRSIZ s) = DIRSIZ) by (rewrite length_take; lia).
  rewrite <- Ht at 1. rewrite take_splice by lia. apply cut_nul_all. by apply Forall_take.
Qed.

Lemma name_short name s :
  length name = DIRSIZ -> (length s < DIRSIZ)%nat -> is_path s -> name_of (splice name 0 (s ++ [0])) = s.
Proof.
  intros Hn Hl Hs. unfold name_of. rewrite take_ge by (rewrite length_splice; lia).
  assert (Hls : (length (s ++ [0%Z]) <= length name)%nat) by (rewrite length_app; simpl; lia).
  rewrite <- (take_drop (length (s ++ [0])) (splice name 0 (s ++ [0]))), take_splice by done.
  rewrite <- app_assoc. by apply cut_nul_stop.
Qed.

(** One step through a path. *)
Lemma skipelem_spec path name :
  is_path path -> length name = DIRSIZ ->
  match skipelem path name with
  | None => elems path = []
  | Some (path', name') =>
      exists s, elems path = s :: elems path' /\ name_of name' = take DIRSIZ s /\
        length name' = DIRSIZ /\ is_path path' /\ (length path' < length path)%nat
  end.
Proof.
  intros Hp Hn. pose proof (skip_slashes_path path Hp) as Hq. unfold skipelem.
  destruct (skip_slashes path) as [|c q] eqn:Eq.
  { simpl. rewrite <- skip_slashes_elems, Eq. done. }
  pose proof (skip_slashes_head _ _ _ Eq) as Hc. pose proof Hq as [Hc0 _]%Forall_cons.
  change (rd8 (c :: q) 0) with c. rewrite (proj2 (Z.eqb_neq c 0)) by done.
  destruct (span_elem (c :: q)) as [s rest] eqn:Es. destruct (span_elem_spec _ _ _ Hq Es) as (Heq & Hs & Hr).
  assert (Hne : s <> []).
  { intros ->. simpl in Heq. destruct Hr as [->|[r ->]]; [done|]. by injection Heq as -> _. }
  rewrite Heq in Hq. apply Forall_app in Hq as [Hqs Hqr].
  exists s. split_and!.
  - rewrite <- skip_slashes_elems, Eq, Heq, elems_word by done. by rewrite skip_slashes_elems.
  - destruct (Nat.leb_spec DIRSIZ (length s)); [by apply name_long|]. rewrite name_short, take_ge by (done || lia). done.
  - case_if E; by rewrite length_splice.
  - by apply skip_slashes_path.
  - pose proof (skip_slashes_length rest). pose proof (skip_slashes_length path) as Hl. rewrite Eq, Heq, length_app in Hl.
    destruct s; [done|]. simpl in Hl. lia.
Qed.

(** ** What taking a path apart gives *)

(** C40: [skipelem] takes a path apart at its slashes: the loop of [namex]
    over any path ends within as many steps as the path has bytes, plus one,
    and the names it leaves in the buffer are, one by one, the elements of the
    path, each cut to [DIRSIZ] bytes. *)
Theorem skipelem_walks_path path name :
  is_path path -> length name = DIRSIZ ->
  walk (S (length path)) path name = Some (take DIRSIZ <$> elems path).
Proof.
  intros Hp Hn. remember (length path) as n eqn:Hlen. assert (Hle : (length path <= n)%nat) by lia. clear Hlen.
  revert path name Hp Hn Hle. induction n as [|n IH]; intros path name Hp Hn Hle;
    pose proof (skipelem_spec path name Hp Hn) as H; simpl; destruct (skipelem path name) as [[path' name']|].
  - destruct H as (_ & _ & _ & _ & _ & ?). lia.
  - by rewrite H.
  - destruct H as (s & He & Hnm & Hl' & Hp' & Hlt). pose proof (IH path' name' Hp' Hl' ltac:(lia)) as H.
    simpl in H. rewrite H, He, Hnm. done.
  - by rewrite H.
Qed.

(** "//ab/c" *)
Lemma skipelem_walks_path_witness :
  walk 7 [47; 47; 97; 98; 47; 99] (replicate 14 0) = Some [[97; 98]; [99]].
Proof.
  exact (skipelem_walks_path [47; 47; 97; 98; 47; 99] (replicate 14 0)
           ltac:(repeat constructor; lia) eq_refl).
Defined.
