(* ===== verification/Fs.v ===== *)
(** * The file system (src/fs.c, src/fs.h, src/file.h, src/stat.h)

    Blocks, inodes, the content of inodes, directories and paths, on top of the
    log.  An inode pointer is the index of its entry in the inode cache.  What
    [readi] copies to its destination is its result; what [writei] copies from
    is a list of bytes.  The device switch is an interface that the console
    fills in. *)

From S2P Require Import Prelude.
From S2P Require Import Bytes.
From S2P Require Import Sleeplock.
From S2P Require Import Bio.
From S2P Require Import Log.
From S2P Require Import Path.

Open Scope Z_scope.

Definition ROOTDEV : Z := 1.
Definition ROOTINO : Z := 1.
Definition NINODE : nat := 50.
Definition NDEV : Z := 10.
Definition NDIRECT : Z := 12.
Definition NINDIRECT : Z := 128.
Definition MAXFILE : Z := NDIRECT + NINDIRECT.
Definition IPB : Z := 8.
Definition BPB : Z := 4096.
Definition DINODE : nat := 64.
Definition DIRENT : Z := 16.
Definition T_DIR : Z := 1.
Definition T_FILE : Z := 2.
Definition T_DEV : Z := 3.

(** [struct inode] *)
Record inode := mkInode {
  i_dev : Z;
  i_inum : Z;
  i_ref : Z;
  i_lock : sleeplock;
  i_valid : Z;
  i_type : Z;
  i_major : Z;
  i_minor : Z;
  i_nlink : Z;
  i_size : Z;
  i_addrs : list Z;
}.

Definition set_iref (v : Z) (x : inode) : inode :=
  mkInode (i_dev x) (i_inum x) v (i_lock x) (i_valid x) (i_type x) (i_major x) (i_minor x) (i_nlink x) (i_size x) (i_addrs x).
Definition set_ilock (v : sleeplock) (x : inode) : inode :=
  mkInode (i_dev x) (i_inum x) (i_ref x) v (i_valid x) (i_type x) (i_major x) (i_minor x) (i_nlink x) (i_size x) (i_addrs x).
Definition set_ivalid (v : Z) (x : inode) : inode :=
  mkInode (i_dev x) (i_inum x) (i_ref x) (i_lock x) v (i_type x) (i_major x) (i_minor x) (i_nlink x) (i_size x) (i_addrs x).
Definition set_itype (v : Z) (x : inode) : inode :=
  mkInode (i_dev x) (i_inum x) (i_ref x) (i_lock x) (i_valid x) v (i_major x) (i_minor x) (i_nlink x) (i_size x) (i_addrs x).
Definition set_idev (major minor nlink : Z) (x : inode) : inode :=
  mkInode (i_dev x) (i_inum x) (i_ref x) (i_lock x) (i_valid x) (i_type x) major minor nlink (i_size x) (i_addrs x).
Definition set_inlink (v : Z) (x : inode) : inode :=
  mkInode (i_dev x) (i_inum x) (i_ref x) (i_lock x) (i_valid x) (i_type x) (i_major x) (i_minor x) v (i_size x) (i_addrs x).
Definition set_isize (v : Z) (x : inode) : inode :=
  mkInode (i_dev x) (i_inum x) (i_ref x) (i_lock x) (i_valid x) (i_type x) (i_major x) (i_minor x) (i_nlink x) v (i_addrs x).
Definition set_iaddrs (v : list Z) (x : inode) : inode :=
  mkInode (i_dev x) (i_inum x) (i_ref x) (i_lock x) (i_valid x) (i_type x) (i_major x) (i_minor x) (i_nlink x) (i_size x) v.

Record fsys := mkFs {
  lg : log;
  icache : list inode;
  ic_lock : bool;
  fsb : superblock;
}.

Definition set_lg (v : log) (f : fsys) : fsys := mkFs v (icache f) (ic_lock f) (fsb f).
Definition set_icache (v : list inode) (f : fsys) : fsys := mkFs (lg f) v (ic_lock f) (fsb f).
Definition set_ic_lock (v : bool) (f : fsys) : fsys := mkFs (lg f) (icache f) v (fsb f).
Definition set_fsb (v : superblock) (f : fsys) : fsys := mkFs (lg f) (icache f) (ic_lock f) v.

Definition fs_pid (f : fsys) : Z := mypid (bc (lg f)).

(** Calls into the log and into the cache. *)
Definition inlog {A} (c : M log A) : M fsys A := zoom lg set_lg c.
Definition fbread (dev blockno : Z) : M fsys nat := inlog (inb (bread dev blockno)).
Definition fbdata (b : nat) : M fsys bytes := inlog (inb (bdata b)).
Definition fbset (b : nat) (d : bytes) : M fsys unit := inlog (inb (bset b d)).
Definition fbrelse (b : nat) : M fsys unit := inlog (inb (brelse b)).
Definition flog_write (b : nat) : M fsys unit := inlog (log_write b).

(** [*ip] and an assignment to [*ip]. *)
Definition iref (i : nat) : M fsys inode :=
  fun f => match icache f !! i with Some x => Ret x f | None => Fault "inode" end.
Definition iupd (i : nat) (g : inode -> inode) : M fsys unit :=
  fun f =>
    match icache f !! i with
    | Some x => Ret tt (set_icache (<[i := g x]> (icache f)) f)
    | None => Fault "inode"
    end.

Definition ino_lock_get (i : nat) (f : fsys) : option sleeplock := i_lock <$> icache f !! i.
Definition ino_lock_set (i : nat) (lk : sleeplock) (f : fsys) : fsys :=
  set_icache (alter (set_ilock lk) i (icache f)) f.
Definition iacquiresleep (i : nat) : M fsys unit := acquiresleep (ino_lock_get i) (ino_lock_set i) fs_pid.
Definition ireleasesleep (i : nat) : M fsys unit := releasesleep (ino_lock_get i) (ino_lock_set i).
Definition iholdingsleep (i : nat) : M fsys bool := holdingsleep (ino_lock_get i) fs_pid.

Definition ic_acquire : M fsys unit := lock_acquire ic_lock set_ic_lock.
Definition ic_release : M fsys unit := lock_release ic_lock set_ic_lock.

(** ** Blocks *)

Definition BBLOCK (b : Z) (sb : superblock) : Z := u32 (b / BPB + sb_bmapstart sb).
Definition IBLOCK (i : Z) (sb : superblock) : Z := u32 (i / IPB + sb_inodestart sb).

Definition bzero (dev bno : Z) : M fsys unit :=
  let! bp := fbread dev bno in
  do! fbset bp zero_blk in
  do! flog_write bp in
  fbrelse bp.

(** The inner loop of [balloc], with [k] turns left: whether it found a free
    block, which it has marked, logged and released. *)
Fixpoint balloc_bits (dev : Z) (bp : nat) (b : Z) (k : nat) (bi : Z) : M fsys (option Z) :=
  match k with
  | O => ret None
  | S k' =>
      let! sb := gets fsb in
      if b + bi <? sb_size sb then
        let m := Z.shiftl 1 (bi mod 8) in
        let! d := fbdata bp in
        if Z.land (rd8 d (Z.to_nat (bi / 8))) m =? 0 then
          do! fbset bp (wr8 d (Z.to_nat (bi / 8)) (Z.lor (rd8 d (Z.to_nat (bi / 8))) m)) in
          do! flog_write bp in
          do! fbrelse bp in
          ret (Some (b + bi))
        else balloc_bits dev bp b k' (bi + 1)
      else ret None
  end.

Fixpoint balloc_loop (dev : Z) (fuel : nat) (b : Z) : M fsys Z :=
  match fuel with
  | O => nofuel
  | S n =>
      let! sb := gets fsb in
      if b <? sb_size sb then
        let! bp := fbread dev (BBLOCK b sb) in
        let! r := balloc_bits dev bp b (Z.to_nat BPB) 0 in
        match r with
        | Some a =>
            do! bzero dev a in
            ret a
        | None =>
            do! fbrelse bp in
            balloc_loop dev n (b + BPB)
        end
      else panic "balloc: out of blocks"
  end.

Definition balloc (dev : Z) : M fsys Z :=
  let! sb := gets fsb in
  balloc_loop dev (S (Z.to_nat (sb_size sb / BPB + 1))) 0.

Definition bfree (dev b : Z) : M fsys unit :=
  let! sb := gets fsb in
  let! bp := fbread dev (BBLOCK b sb) in
  let bi := b mod BPB in
  let m := Z.shiftl 1 (bi mod 8) in
  let! d := fbdata bp in
  if Z.land (rd8 d (Z.to_nat (bi / 8))) m =? 0 then panic "freeing free block"
  else
    do! fbset bp (wr8 d (Z.to_nat (bi / 8)) (Z.land (rd8 d (Z.to_nat (bi / 8))) (Z.lnot m))) in
    do! flog_write bp in
    fbrelse bp.

(** ** Inodes *)

(** A C [short]. *)
Definition s16 (x : Z) : Z := (x + 32768) mod 65536 - 32768.

(** The [struct dinode] at an offset of a block. *)
Fixpoint get_addrs (d : bytes) (off k : nat) : list Z :=
  match k with O => [] | S k' => rd32 d off :: get_addrs d (off + 4) k' end.
Definition get_dinode (d : bytes) (off : nat) (x : inode) : inode :=
  mkInode (i_dev x) (i_inum x) (i_ref x) (i_lock x) (i_valid x)
    (s16 (rd16 d off)) (s16 (rd16 d (off + 2))) (s16 (rd16 d (off + 4))) (s16 (rd16 d (off + 6)))
    (rd32 d (off + 8)) (get_addrs d (off + 12) 13).
Fixpoint put_addrs (d : bytes) (off : nat) (l : list Z) : bytes :=
  match l with [] => d | a :: l' => put_addrs (wr32 d off a) (off + 4) l' end.
Definition put_dinode (d : bytes) (off : nat) (x : inode) : bytes :=
  let d := wr16 d off (i_type x) in
  let d := wr16 d (off + 2) (i_major x) in
  let d := wr16 d (off + 4) (i_minor x) in
  let d := wr16 d (off + 6) (i_nlink x) in
  let d := wr32 d (off + 8) (i_size x) in
  put_addrs d (off + 12) (i_addrs x).

(** The offset of inode [inum] in its block. *)
Definition dinode_off (inum : Z) : nat := (Z.to_nat (inum mod IPB) * DINODE)%nat.

(** [iinit]; the line it prints is not modelled. *)
Definition iinit (dev : Z) : M fsys unit :=
  do! modify (set_ic_lock false) in
  do! mfor (seq 0 NINODE) (fun i => iupd i (set_ilock initsleeplock)) in
  let! sb := inlog (readsb dev) in
  modify (set_fsb sb).

(** The loop of [iget], with the entries from [i] on still to see: the entry
    of the inode, or the first free one. *)
Fixpoint iget_scan (dev inum : Z) (k i : nat) (empty : option nat) : M fsys (nat + option nat) :=
  match k with
  | O => ret (inr empty)
  | S k' =>
      let! x := iref i in
      if (0 <? i_ref x) && (i_dev x =? dev) && (i_inum x =? inum) then ret (inl i)
      else
        iget_scan dev inum k' (S i)
          (match empty with Some e => Some e | None => if i_ref x =? 0 then Some i else None end)
  end.

Definition iget (dev inum : Z) : M fsys nat :=
  do! ic_acquire in
  let! r := iget_scan dev inum NINODE 0 None in
  match r with
  | inl i =>
      do! iupd i (fun x => set_iref (i_ref x + 1) x) in
      do! ic_release in
      ret i
  | inr None => panic "iget: no inodes"
  | inr (Some i) =>
      do! iupd i (fun x => mkInode dev inum 1 (i_lock x) 0 (i_type x) (i_major x) (i_minor x)
                             (i_nlink x) (i_size x) (i_addrs x)) in
      do! ic_release in
      ret i
  end.

(** The loop of [ialloc]. *)
Fixpoint ialloc_loop (dev type : Z) (k : nat) (inum : Z) : M fsys nat :=
  match k with
  | O => nofuel
  | S k' =>
      let! sb := gets fsb in
      if inum <? sb_ninodes sb then
        let! bp := fbread dev (IBLOCK inum sb) in
        let! d := fbdata bp in
        let off := dinode_off inum in
        if s16 (rd16 d off) =? 0 then
          do! fbset bp (wr16 (splice d off (replicate DINODE 0)) off type) in
          do! flog_write bp in
          do! fbrelse bp in
          iget dev inum
        else
          do! fbrelse bp in
          ialloc_loop dev type k' (inum + 1)
      else panic "ialloc: no inodes"
  end.

Definition ialloc (dev type : Z) : M fsys nat :=
  let! sb := gets fsb in
  ialloc_loop dev type (S (Z.to_nat (sb_ninodes sb))) 1.

Definition iupdate (ip : nat) : M fsys unit :=
  let! x := iref ip in
  let! sb := gets fsb in
  let! bp := fbread (i_dev x) (IBLOCK (i_inum x) sb) in
  let! d := fbdata bp in
  do! fbset bp (put_dinode d (dinode_off (i_inum x)) x) in
  do! flog_write bp in
  fbrelse bp.

Definition idup (ip : nat) : M fsys nat :=
  do! ic_acquire in
  do! iupd ip (fun x => set_iref (i_ref x + 1) x) in
  do! ic_release in
  ret ip.

Definition ilock (ip : nat) : M fsys unit :=
  let! x := iref ip in
  if i_ref x <? 1 then panic "ilock"
  else
    do! iacquiresleep ip in
    let! x := iref ip in
    if i_valid x =? 0 then
      let! sb := gets fsb in
      let! bp := fbread (i_dev x) (IBLOCK (i_inum x) sb) in
      let! d := fbdata bp in
      do! iupd ip (get_dinode d (dinode_off (i_inum x))) in
      do! fbrelse bp in
      do! iupd ip (set_ivalid 1) in
      let! x := iref ip in
      if i_type x =? 0 then panic "ilock: no type" else ret tt
    else ret tt.

Definition iunlock (ip : nat) : M fsys unit :=
  let! held := iholdingsleep ip in
  let! x := iref ip in
  if negb held || (i_ref x <? 1) then panic "iunlock" else ireleasesleep ip.

(** ** The content of inodes *)

(** [ip->addrs[k]] *)
Definition addr_at (x : inode) (k : Z) : Z := default 0 (i_addrs x !! Z.to_nat k).

(** [ip->addrs[k] = a] *)
Definition set_addr (k a : Z) (x : inode) : inode := set_iaddrs (<[Z.to_nat k := a]> (i_addrs x)) x.

(** [ip->addrs[k]], allocated when it is 0. *)
Definition addr_alloc (ip : nat) (k : Z) : M fsys Z :=
  let! x := iref ip in
  if addr_at x k =? 0 then
    let! a := balloc (i_dev x) in
    do! iupd ip (set_addr k a) in
    ret a
  else ret (addr_at x k).

Definition bmap (ip : nat) (bn : Z) : M fsys Z :=
  if bn <? NDIRECT then addr_alloc ip bn
  else
    let bn := bn - NDIRECT in
    if bn <? NINDIRECT then
      let! addr := addr_alloc ip NDIRECT in
      let! x := iref ip in
      let! bp := fbread (i_dev x) addr in
      let! d := fbdata bp in
      let! addr :=
        (if rd32 d (Z.to_nat (4 * bn)) =? 0 then
           let! a := balloc (i_dev x) in
           let! d := fbdata bp in
           do! fbset bp (wr32 d (Z.to_nat (4 * bn)) a) in
           do! flog_write bp in
           ret a
         else ret (rd32 d (Z.to_nat (4 * bn)))) in
      do! fbrelse bp in
      ret addr
    else panic "bmap: out of range".

Definition itrunc (ip : nat) : M fsys unit :=
  do! mfor (zrange 0 (Z.to_nat NDIRECT)) (fun i =>
    let! x := iref ip in
    if nz (addr_at x i) then
      do! bfree (i_dev x) (addr_at x i) in
      iupd ip (set_addr i 0)
    else ret tt) in
  let! x := iref ip in
  do! (if nz (addr_at x NDIRECT) then
         let! bp := fbread (i_dev x) (addr_at x NDIRECT) in
         do! mfor (zrange 0 (Z.to_nat NINDIRECT)) (fun j =>
           let! d := fbdata bp in
           if nz (rd32 d (Z.to_nat (4 * j))) then bfree (i_dev x) (rd32 d (Z.to_nat (4 * j)))
           else ret tt) in
         do! fbrelse bp in
         do! bfree (i_dev x) (addr_at x NDIRECT) in
         iupd ip (set_addr NDIRECT 0)
       else ret tt) in
  do! iupd ip (set_isize 0) in
  iupdate ip.

Definition iput (ip : nat) : M fsys unit :=
  do! iacquiresleep ip in
  let! x := iref ip in
  do! (if nz (i_valid x) && (i_nlink x =? 0) then
         do! ic_acquire in
         let! x := iref ip in
         let r := i_ref x in
         do! ic_release in
         if r =? 1 then
           do! itrunc ip in
           do! iupd ip (set_itype 0) in
           do! iupdate ip in
           iupd ip (set_ivalid 0)
         else ret tt
       else ret tt) in
  do! ireleasesleep ip in
  do! ic_acquire in
  do! iupd ip (fun x => set_iref (i_ref x - 1) x) in
  ic_release.

Definition iunlockput (ip : nat) : M fsys unit :=
  do! iunlock ip in
  iput ip.

(** [struct stat] *)
Record stat := mkStat { st_type : Z; st_dev : Z; st_ino : Z; st_nlink : Z; st_size : Z }.

Definition stati (ip : nat) : M fsys stat :=
  let! x := iref ip in
  ret (mkStat (i_type x) (i_dev x) (i_inum x) (i_nlink x) (i_size x)).

(** The device switch: what the devices put in it. *)
Class DevSw := {
  dev_read : Z -> option (nat -> Z -> M fsys (Z * bytes));
  dev_write : Z -> option (nat -> bytes -> Z -> M fsys Z);
}.

Section content.
Context `{DevSw}.

Definition has_dev {A} (sw : Z -> option A) (major : Z) : option A :=
  if (major <? 0) || (NDEV <=? major) then None else sw major.

(** The number of turns of the copy loops of [n] bytes is at most this. *)
Definition turns (n : Z) : nat := S (Z.to_nat (n / Z.of_nat BSIZE + 2)).

Fixpoint readi_loop (ip : nat) (fuel : nat) (off tot n : Z) (dst : bytes) : M fsys bytes :=
  match fuel with
  | O => nofuel
  | S k =>
      if tot <? n then
        let! x := iref ip in
        let! a := bmap ip (off / Z.of_nat BSIZE) in
        let! bp := fbread (i_dev x) a in
        let m := Z.min (n - tot) (Z.of_nat BSIZE - off mod Z.of_nat BSIZE) in
        let! d := fbdata bp in
        let dst := dst ++ slice d (Z.to_nat (off mod Z.of_nat BSIZE)) (Z.to_nat m) in
        do! fbrelse bp in
        readi_loop ip k (off + m) (tot + m) n dst
      else ret dst
  end.

Definition readi (ip : nat) (off n : Z) : M fsys (Z * bytes) :=
  let! x := iref ip in
  if i_type x =? T_DEV then
    match has_dev dev_read (i_major x) with
    | None => ret (-1, [])
    | Some read => read ip n
    end
  else if (i_size x <? off) || (u32 (off + n) <? off) then ret (-1, [])
  else
    let n := if i_size x <? off + n then i_size x - off else n in
    let! dst := readi_loop ip (turns n) off 0 n [] in
    ret (n, dst).

(** The loop of [writei]: the offset it ends at. *)
Fixpoint writei_loop (ip : nat) (fuel : nat) (src : bytes) (off tot n : Z) : M fsys Z :=
  match fuel with
  | O => nofuel
  | S k =>
      if tot <? n then
        let! x := iref ip in
        let! a := bmap ip (off / Z.of_nat BSIZE) in
        let! bp := fbread (i_dev x) a in
        let m := Z.min (n - tot) (Z.of_nat BSIZE - off mod Z.of_nat BSIZE) in
        let! d := fbdata bp in
        let chunk := slice src (Z.to_nat tot) (Z.to_nat m) in
        if (length chunk <? Z.to_nat m)%nat then fault "writei: src"
        else
          do! fbset bp (splice d (Z.to_nat (off mod Z.of_nat BSIZE)) chunk) in
          do! flog_write bp in
          do! fbrelse bp in
          writei_loop ip k src (off + m) (tot + m) n
      else ret off
  end.

Definition writei (ip : nat) (src : bytes) (off n : Z) : M fsys Z :=
  let! x := iref ip in
  if i_type x =? T_DEV then
    match has_dev dev_write (i_major x) with
    | None => ret (-1)
    | Some write => write ip src n
    end
  else if (i_size x <? off) || (u32 (off + n) <? off) then ret (-1)
  else if MAXFILE * Z.of_nat BSIZE <? off + n then ret (-1)
  else
    let! off := writei_loop ip (turns n) src off 0 n in
    let! x := iref ip in
    do! (if (0 <? n) && (i_size x <? off) then
           do! iupd ip (set_isize off) in
           iupdate ip
         else ret tt) in
    ret n.

(** ** Directories *)

(** [struct dirent] *)
Definition de_inum (de : bytes) : Z := rd16 de 0.
Definition de_name (de : bytes) : bytes := slice de 2 DIRSIZ.
Definition mk_dirent (inum : Z) (name : bytes) : bytes := le16 inum ++ name.

(** The inode of the entry and the entry's offset. *)
Fixpoint dirlookup_loop (dp : nat) (name : bytes) (fuel : nat) (off : Z) : M fsys (option (nat * Z)) :=
  match fuel with
  | O => nofuel
  | S k =>
      let! x := iref dp in
      if off <? i_size x then
        let! r := readi dp off DIRENT in
        if negb (r.1 =? DIRENT) then panic "dirlookup read"
        else
          let de := r.2 in
          if de_inum de =? 0 then dirlookup_loop dp name k (off + DIRENT)
          else if namecmp name (de_name de) =? 0 then
            let! ip := iget (i_dev x) (de_inum de) in
            ret (Some (ip, off))
          else dirlookup_loop dp name k (off + DIRENT)
      else ret None
  end.

(** The number of turns of a loop over the entries of a directory. *)
Definition dir_turns (size : Z) : nat := S (Z.to_nat (size / DIRENT + 1)).

Definition dirlookup (dp : nat) (name : bytes) : M fsys (option (nat * Z)) :=
  let! x := iref dp in
  if negb (i_type x =? T_DIR) then panic "dirlookup not DIR"
  else dirlookup_loop dp name (dir_turns (i_size x)) 0.

(** The second loop of [dirlink]: the offset of a free entry, or the size. *)
Fixpoint dirlink_loop (dp : nat) (fuel : nat) (off : Z) : M fsys Z :=
  match fuel with
  | O => nofuel
  | S k =>
      let! x := iref dp in
      if off <? i_size x then
        let! r := readi dp off DIRENT in
        if negb (r.1 =? DIRENT) then panic "dirlink read"
        else if de_inum r.2 =? 0 then ret off
        else dirlink_loop dp k (off + DIRENT)
      else ret off
  end.

Definition dirlink (dp : nat) (name : bytes) (inum : Z) : M fsys Z :=
  let! r := dirlookup dp name in
  match r with
  | Some (ip, _) =>
      do! iput ip in
      ret (-1)
  | None =>
      let! x := iref dp in
      let! off := dirlink_loop dp (dir_turns (i_size x)) 0 in
      let! r := writei dp (mk_dirent (inum mod 65536) (bstrncpy name DIRSIZ)) off DIRENT in
      if negb (r =? DIRENT) then panic "dirlink" else ret 0
  end.

(** ** Paths *)

(** The loop of [namex]: the inode, if any, and the name buffer. *)
Fixpoint namex_loop (fuel : nat) (parent : bool) (ip : nat) (path name : bytes) : M fsys (option nat * bytes) :=
  match fuel with
  | O => nofuel
  | S k =>
      match skipelem path name with
      | Some (path, name) =>
          do! ilock ip in
          let! x := iref ip in
          if negb (i_type x =? T_DIR) then
            do! iunlockput ip in
            ret (None, name)
          else if parent && (rd8 path 0 =? 0) then
            do! iunlock ip in
            ret (Some ip, name)
          else
            let! next := dirlookup ip name in
            match next with
            | None =>
                do! iunlockput ip in
                ret (None, name)
            | Some (next, _) =>
                do! iunlockput ip in
                namex_loop k parent next path name
            end
      | None =>
          if parent then
            do! iput ip in
            ret (None, name)
          else ret (Some ip, name)
      end
  end.

(** [cwd] is [myproc()->cwd]. *)
Definition namex (cwd : nat) (path : bytes) (parent : bool) (name : bytes) : M fsys (option nat * bytes) :=
  let! ip := (if rd8 path 0 =? SLASH then iget ROOTDEV ROOTINO else idup cwd) in
  namex_loop (S (length path)) parent ip path name.

Definition namei (cwd : nat) (path : bytes) : M fsys (option nat) :=
  let! r := namex cwd path false (replicate DIRSIZ 0) in
  ret r.1.

Definition nameiparent (cwd : nat) (path : bytes) (name : bytes) : M fsys (option nat * bytes) :=
  namex cwd path true name.

End content.
