(* ===== verification/FsBlock.v ===== *)
(** * Disk blocks inside a transaction (src/fs.c: bzero, balloc, bfree)

    The file system while a system call runs: the blocks have the contents [v],
    the blocks [bs] are in the log, [lk] maps the locked blocks to their
    buffers.  On top of it, the free bitmap: [balloc] takes the first free
    block and [bfree] gives one back. *)

From S2P Require Import Prelude.
From S2P Require Import Bytes.
From S2P Require Import Sleeplock.
From S2P Require Import Bio.
From S2P Require Import Log.
From S2P Require Import LogSpec.
From S2P Require Import LogTheorems.
From S2P Require Import Path.
From S2P Require Import Fs.

Open Scope Z_scope.

(** The contents of a block. *)
Definition blk (v : list bytes) (m : nat) : bytes := default [] (v !! m).

(** The file system inside a transaction; a block that is not in the log is as
    on the disk. *)
Record vol (st sz : nat) (f : fsys) (bs : list nat) (v : list bytes) (lk : gmap nat nat) : Prop := {
  vl_trans : trans st sz (lg f) bs v lk;
  vl_out : 1 <= l_outstanding (lg f);
  vl_clean : forall m, m ∈ bs \/ v !! m = memdisk (bc (lg f)) !! m;
}.

(** The same, with everything but the log as in [f]. *)
Definition vstep (st sz : nat) (f : fsys) (bs : list nat) (v : list bytes) (lk : gmap nat nat) (f' : fsys) : Prop :=
  (exists g, f' = set_lg g f) /\ vol st sz f' bs v lk.

(** Blocks that may be written: not the superblock, not the log. *)
Definition home (st sz n m : nat) : Prop := (m < n)%nat /\ m <> 1%nat /\ ~ in_log st sz m.

(** There is room in the log and in the cache for [k] more blocks. *)
Definition room (sz : nat) (bs : list nat) (lk : gmap nat nat) (k : nat) : Prop := (length bs + size lk + k < sz)%nat.

(** The logged blocks are those of [bs] and of [T]. *)
Definition grows (bs T bs' : list nat) : Prop := forall m, m ∈ bs' -> m ∈ bs \/ m ∈ T.

(** ** The bitmap *)

Definition bitof (d : bytes) (i : Z) : bool := negb (Z.land (rd8 d (Z.to_nat (i / 8))) (Z.shiftl 1 (i mod 8)) =? 0).
Definition setbit (d : bytes) (i : Z) : bytes :=
  wr8 d (Z.to_nat (i / 8)) (Z.lor (rd8 d (Z.to_nat (i / 8))) (Z.shiftl 1 (i mod 8))).
Definition clrbit (d : bytes) (i : Z) : bytes :=
  wr8 d (Z.to_nat (i / 8)) (Z.land (rd8 d (Z.to_nat (i / 8))) (Z.lnot (Z.shiftl 1 (i mod 8)))).

(** The block of the bitmap with the bit of block [b]; the block of an inode. *)
Definition bb (sb : superblock) (b : Z) : nat := Z.to_nat (b / BPB + sb_bmapstart sb).
Definition ib (sb : superblock) (i : Z) : nat := Z.to_nat (i / IPB + sb_inodestart sb).

Definition used (sb : superblock) (v : list bytes) (b : Z) : bool := bitof (blk v (bb sb b)) (b mod BPB).

(** How the parts of the disk lie. *)
Record layout (sb : superblock) (st sz n : nat) : Prop := {
  ly_size : 0 <= sb_size sb <= Z.of_nat n;
  ly_n : Z.of_nat n < 2147483648;
  ly_start : 0 <= sb_bmapstart sb /\ 0 <= sb_inodestart sb;
  ly_bmap : forall b, 0 <= b < sb_size sb -> home st sz n (bb sb b);
  ly_inode : forall i, 0 <= i < sb_ninodes sb -> home st sz n (ib sb i);
  ly_apart : forall b i, 0 <= b < sb_size sb -> 0 <= i < sb_ninodes sb -> bb sb b <> ib sb i;
}.

(** A block for the contents of files. *)
Definition is_data (sb : superblock) (st sz n : nat) (b : Z) : Prop :=
  0 < b < sb_size sb /\ home st sz n (Z.to_nat b) /\
  (forall c, 0 <= c < sb_size sb -> bb sb c <> Z.to_nat b) /\
  (forall i, 0 <= i < sb_ninodes sb -> ib sb i <> Z.to_nat b).

(** Only blocks for the contents of files are free. *)
Definition bitmap_ok (sb : superblock) (st sz : nat) (v : list bytes) : Prop :=
  forall b, 0 <= b < sb_size sb -> used sb v b = false -> is_data sb st sz (length v) b.

(** No bitmap block is locked, and no free block. *)
Definition unlocked (sb : superblock) (v : list bytes) (lk : gmap nat nat) : Prop :=
  forall b, 0 <= b < sb_size sb -> lk !! bb sb b = None /\ (used sb v b = false -> lk !! Z.to_nat b = None).

(** Block [a], the first free one, has been taken and zeroed. *)
Record taken (sb : superblock) (v : list bytes) (a : Z) (v' : list bytes) : Prop := {
  tk_range : 0 <= a < sb_size sb;
  tk_free : used sb v a = false;
  tk_first : forall b, 0 <= b < a -> used sb v b = true;
  tk_used : forall b, 0 <= b < sb_size sb -> used sb v' b = (b =? a) || used sb v b;
  tk_zero : v' !! Z.to_nat a = Some zero_blk;
  tk_other : forall m, m <> Z.to_nat a -> m <> bb sb a -> v' !! m = v !! m;
  tk_len : length v' = length v;
}.

(** Block [a] has been given back. *)
Record given (sb : superblock) (v : list bytes) (a : Z) (v' : list bytes) : Prop := {
  gv_used : forall b, 0 <= b < sb_size sb -> used sb v' b = negb (b =? a) && used sb v b;
  gv_other : forall m, m <> bb sb a -> v' !! m = v !! m;
  gv_len : length v' = length v;
}.

(** [balloc] panics when no block is free. *)
Definition disk_full (sb : superblock) (v : list bytes) (msg : string) : Prop :=
  msg = "balloc: out of blocks" /\ forall b, 0 <= b < sb_size sb -> used sb v b = true.

(** * Lemmas *)

(** ** Bits *)

Lemma land_bit x k : 0 <= k -> negb (Z.land x (Z.shiftl 1 k) =? 0) = Z.testbit x k.
Proof.
  intros Hk. destruct (Z.testbit x k) eqn:Hb.
  - apply negb_true_iff, Z.eqb_neq. intros H. apply (f_equal (fun y => Z.testbit y k)) in H.
    rewrite Z.land_spec, Hb, Z.shiftl_1_l, Z.pow2_bits_true in H by done. by rewrite Z.bits_0 in H.
  - apply negb_false_iff, Z.eqb_eq. apply Z.bits_inj'. intros j Hj. rewrite Z.land_spec, Z.bits_0, Z.shiftl_1_l.
    destruct (decide (j = k)) as [->|]; [by rewrite Hb|]. rewrite Z.pow2_bits_false by done. apply andb_false_r.
Qed.

Lemma bitof_eq d i : bitof d i = Z.testbit (rd8 d (Z.to_nat (i / 8))) (i mod 8).
Proof. apply land_bit. dlia. Qed.

Lemma rd8_wr8 d o x j : (o < length d)%nat -> rd8 (wr8 d o x) j = if decide (j = o) then x else rd8 d j.
Proof.
  intros Ho. unfold rd8, wr8. case_decide as H; [subst; by rewrite list_lookup_insert_eq|by rewrite list_lookup_insert_ne].
Qed.

Lemma bit_index i j : 0 <= i -> 0 <= j -> Z.to_nat (j / 8) = Z.to_nat (i / 8) -> j mod 8 = i mod 8 -> j = i.
Proof. intros Hi Hj H1 H2. dlia. Qed.

Lemma bitof_setbit d i j :
  0 <= i < BPB -> 0 <= j -> length d = BSIZE -> bitof (setbit d i) j = (j =? i) || bitof d j.
Proof.
  intros Hi Hj Hd. rewrite !bitof_eq. unfold setbit. rewrite rd8_wr8 by (rewrite Hd; unfold BPB, BSIZE in *; dlia).
  case_decide as H.
  - rewrite Z.lor_spec, Z.shiftl_1_l, H. destruct (decide (j mod 8 = i mod 8)) as [E|E].
    + rewrite (bit_index i j) by (lia || done). rewrite Z.eqb_refl, Z.pow2_bits_true by dlia. by rewrite orb_true_r.
    + rewrite Z.pow2_bits_false by done. rewrite orb_false_r. by rewrite (proj2 (Z.eqb_neq j i)) by (intros ->; done).
  - by rewrite (proj2 (Z.eqb_neq j i)) by (intros ->; done).
Qed.

Lemma bitof_clrbit d i j :
  0 <= i < BPB -> 0 <= j -> length d = BSIZE -> bitof (clrbit d i) j = negb (j =? i) && bitof d j.
Proof.
  intros Hi Hj Hd. rewrite !bitof_eq. unfold clrbit. rewrite rd8_wr8 by (rewrite Hd; unfold BPB, BSIZE in *; dlia).
  case_decide as H.
  - rewrite Z.land_spec, Z.lnot_spec, Z.shiftl_1_l, H by dlia. destruct (decide (j mod 8 = i mod 8)) as [E|E].
    + rewrite (bit_index i j) by (lia || done). rewrite Z.eqb_refl, Z.pow2_bits_true by dlia. apply andb_false_r.
    + rewrite Z.pow2_bits_false by done. rewrite andb_true_r. by rewrite (proj2 (Z.eqb_neq j i)) by (intros ->; done).
  - by rewrite (proj2 (Z.eqb_neq j i)) by (intros ->; done).
Qed.

(** ** Steps *)

Lemma grows_refl bs : grows bs [] bs.
Proof. intros m Hm. by left. Qed.

Lemma grows_add bs m : grows bs [m] (add_block bs m).
Proof. intros k Hk. unfold add_block in Hk. case_decide; set_solver. Qed.

Lemma grows_trans bs T bs' T' bs'' : grows bs T bs' -> grows bs' T' bs'' -> grows bs (T ++ T') bs''.
Proof. intros H1 H2 m Hm. specialize (H1 m). specialize (H2 m Hm). set_solver. Qed.

Lemma grows_sub bs T T' bs' : grows bs T bs' -> T ⊆ T' -> grows bs T' bs'.
Proof. intros H1 H2 m Hm. specialize (H1 m Hm). set_solver. Qed.

Lemma grows_len bs T bs' : NoDup bs' -> grows bs T bs' -> (length bs' <= length bs + length T)%nat.
Proof.
  intros Hn G. rewrite <- length_app. apply submseteq_length, NoDup_submseteq; [done|]. intros m Hm. apply elem_of_app. by apply G.
Qed.

Lemma vstep_trans st sz f bs v lk f1 bs1 v1 lk1 f2 :
  vstep st sz f bs v lk f1 -> vstep st sz f1 bs1 v1 lk1 f2 -> vstep st sz f bs1 v1 lk1 f2.
Proof. intros [[g ->] _] [[g' ->] H]. split; [by exists g'|done]. Qed.

Lemma vstep_refl st sz f bs v lk : vol st sz f bs v lk -> vstep st sz f bs v lk f.
Proof. intros H. split; [exists (lg f); by destruct f|done]. Qed.

Lemma vstep_fsb st sz f bs v lk f' : vstep st sz f bs v lk f' -> fsb f' = fsb f /\ icache f' = icache f /\ ic_lock f' = ic_lock f.
Proof. by intros [[g ->] _]. Qed.

Lemma wpx_inlog {A} (c : M log A) (Q : A -> fsys -> Prop) E f :
  wpx c (fun a g => Q a (set_lg g f)) E (lg f) -> wpx (inlog c) Q E f.
Proof. apply wpx_zoom. Qed.

Lemma vol_blk st sz f bs v lk m : vol st sz f bs v lk -> (m < length v)%nat -> v !! m = Some (blk v m) /\ is_blk (blk v m).
Proof.
  intros V Hm. destruct (lookup_lt_is_Some_2 v m Hm) as [d Hd]. unfold blk. rewrite Hd. split; [done|].
  eapply Forall_lookup_1; [apply (br_blk _ _ _ _ (tr_rep _ _ _ _ _ _ (vl_trans _ _ _ _ _ _ V)))|exact Hd].
Qed.

Lemma vol_grows st sz f bs v lk T bs0 : vol st sz f bs v lk -> grows bs0 T bs -> (length bs <= length bs0 + length T)%nat.
Proof. intros V. apply grows_len. apply (tr_nodup _ _ _ _ _ _ (vl_trans _ _ _ _ _ _ V)). Qed.

Lemma vol_blks st sz f bs v lk : vol st sz f bs v lk -> Forall is_blk v.
Proof. intros V. apply (br_blk _ _ _ _ (tr_rep _ _ _ _ _ _ (vl_trans _ _ _ _ _ _ V))). Qed.

Lemma vol_size st sz f bs v lk : vol st sz f bs v lk -> (sz <= NBUF)%nat.
Proof. intros V. destruct (tr_size _ _ _ _ _ _ (vl_trans _ _ _ _ _ _ V)) as (_ & _ & H). unfold LOGSIZE, NBUF, MAXOPBLOCKS in *. lia. Qed.

Lemma vol_locked st sz f bs v lk m b : vol st sz f bs v lk -> lk !! m = Some b -> (m < length v)%nat.
Proof.
  intros V Hl. destruct (rep_locked _ _ _ _ _ _ (tr_rep _ _ _ _ _ _ (vl_trans _ _ _ _ _ _ V)) Hl) as (x & _ & _ & _ & Hc & _).
  by eapply lookup_lt_Some, ca_data.
Qed.

Lemma fbread_spec st sz f bs v lk m E :
  vol st sz f bs v lk -> lk !! m = None -> (m < length v)%nat -> room sz bs lk 0 ->
  wpx (fbread 1 (Z.of_nat m)) (fun b => vstep st sz f bs v (<[m := b]> lk)) E f.
Proof.
  intros V Hl Hm Hr. apply wpx_inlog. eapply wpx_mono; [by apply (trans_bread st sz (lg f) bs v lk m (vl_trans _ _ _ _ _ _ V))| |].
  - intros b g (s & -> & [Hd Hw] & T). split; [by eexists|]. destruct V as [V1 V2 V3]. split; [done|done|].
    intros k. cbn [lg set_lg bc set_bc]. rewrite Hd. apply V3.
  - intros msg (_ & _ & Hn). pose proof (vol_size _ _ _ _ _ _ V). unfold room in Hr.
    pose proof (size_union_alt (dom lk) (list_to_set bs : gset nat)) as Hu.
    pose proof (size_list_to_set (C := gset nat) bs (tr_nodup _ _ _ _ _ _ (vl_trans _ _ _ _ _ _ V))) as Hle. rewrite size_dom in Hu.
    assert (size (list_to_set bs ∖ dom lk : gset nat) <= size (list_to_set bs : gset nat))%nat by (apply subseteq_size; set_solver). lia.
Qed.

Lemma fbdata_spec st sz f bs v lk m b E :
  vol st sz f bs v lk -> lk !! m = Some b -> wpx (fbdata b) (fun d f' => f' = f /\ d = blk v m) E f.
Proof.
  intros V Hl. apply wpx_inlog. eapply wpx_mono; [by apply (trans_bdata st sz (lg f) bs v lk m b E (vl_trans _ _ _ _ _ _ V))| |done].
  intros d g (-> & Hd & _). split; [by destruct f|]. unfold blk. by rewrite Hd.
Qed.

Lemma fbrelse_spec st sz f bs v lk m b E :
  vol st sz f bs v lk -> lk !! m = Some b -> wpx (fbrelse b) (fun _ => vstep st sz f bs v (delete m lk)) E f.
Proof.
  intros V Hl. apply wpx_inlog. eapply wpx_mono; [by apply (trans_brelse st sz (lg f) bs v lk m b E (vl_trans _ _ _ _ _ _ V) Hl); apply V| |done].
  intros _ g (s & -> & [Hd Hw] & T). split; [by eexists|]. destruct V as [V1 V2 V3]. split; [done|done|].
  intros k. cbn [lg set_lg bc set_bc]. rewrite Hd. apply V3.
Qed.

(** Changing a locked block and logging it. *)
Lemma fbput_spec {A} st sz f bs v lk m b d E (k : M fsys A) (Q : A -> fsys -> Prop) :
  vol st sz f bs v lk -> lk !! m = Some b -> is_blk d -> home st sz (length v) m -> room sz bs lk 0 ->
  (forall f', vstep st sz f (add_block bs m) (<[m := d]> v) lk f' -> wpx k Q E f') ->
  wpx (do! fbset b d in do! flog_write b in k) Q E f.
Proof.
  intros V Hl Hd (Hm & Hm1 & Hml) Hr HQ. apply wpx_bind, wpx_inlog.
  eapply wpx_mono; [by apply (trans_bset st sz (lg f) bs v lk m b d E (vl_trans _ _ _ _ _ _ V) Hl Hd Hm1 Hml)| |done].
  intros _ g (s & -> & [Hdk Hw] & T). apply wpx_bind, wpx_inlog. destruct V as [V1 V2 V3].
  assert (Hs : (0 < size lk)%nat). { destruct (decide (size lk = 0)%nat) as [Hz|]; [|lia]. apply map_size_empty_inv in Hz. by rewrite Hz in Hl. }
  eapply wpx_mono; [by eapply (log_write_spec st sz _ bs _ lk m b T); [done|unfold room in Hr; lia|..]| |done].
  intros _ g' (T' & [S1 S2 S3 S4 S5 S6] & [Hdk' Hw']). apply HQ. split; [by eexists|]. split; [done|cbn [lg set_lg]; by rewrite S4|].
  intros j. cbn [lg set_lg]. rewrite Hdk'. cbn [bc set_bc lg set_lg]. rewrite Hdk. unfold add_block. destruct (decide (j = m)) as [->|Hne].
  - left. case_decide; set_solver.
  - rewrite list_lookup_insert_ne by done. destruct (V3 j) as [H|H]; [left; case_decide; set_solver|by right].
Qed.

(** Reading a whole block and letting it go. *)
Lemma fbget_spec {A} st sz f bs v lk m E (k : bytes -> M fsys A) Q :
  vol st sz f bs v lk -> lk !! m = None -> (m < length v)%nat -> room sz bs lk 1 ->
  (forall f', vstep st sz f bs v lk f' -> wpx (k (blk v m)) Q E f') ->
  wpx (let! b := fbread 1 (Z.of_nat m) in let! d := fbdata b in do! fbrelse b in k d) Q E f.
Proof.
  intros V Hl Hm Hr HQ. wp_step. wp_use (fbread_spec st sz f bs v lk m _ V Hl Hm); [unfold room in *; lia|].
  intros b f1 [[g1 ->] V1]. wp_step. wp_use (fbdata_spec _ _ _ _ _ _ m b _ V1); [by rewrite lookup_insert_eq|].
  intros d f2 [-> ->]. wp_step. wp_use (fbrelse_spec _ _ _ _ _ _ m b _ V1); [by rewrite lookup_insert_eq|].
  intros _ f3 S3. apply HQ. destruct S3 as [[g3 ->] V3]. split; [by exists g3|].
  rewrite delete_insert_id in V3 by done. exact V3.
Qed.

Lemma vol_set_lg st sz f g bs v lk : vol st sz (set_lg g f) bs v lk -> vstep st sz f bs v lk (set_lg g f).
Proof. intros V. split; [by exists g|done]. Qed.

Lemma room_lock sz bs (lk : gmap nat nat) m b k : lk !! m = None -> room sz bs lk (S k) -> room sz bs (<[m := b]> lk) k.
Proof. intros Hl Hr. unfold room in *. rewrite map_size_insert_None by done. lia. Qed.

Lemma room_mono sz bs lk k k' : (k' <= k)%nat -> room sz bs lk k -> room sz bs lk k'.
Proof. unfold room. lia. Qed.

Lemma length_add_block bs m : (length (add_block bs m) <= S (length bs))%nat.
Proof. unfold add_block. case_decide; [lia|]. rewrite length_app. simpl. lia. Qed.

Lemma room_add sz bs lk m k : room sz bs lk (S k) -> room sz (add_block bs m) lk k.
Proof. unfold room. pose proof (length_add_block bs m). lia. Qed.

Lemma blk_insert v m d : (m < length v)%nat -> blk (<[m := d]> v) m = d.
Proof. intros H. unfold blk. by rewrite list_lookup_insert_eq. Qed.

Lemma blk_insert_ne v m k d : k <> m -> blk (<[m := d]> v) k = blk v k.
Proof. intros H. unfold blk. by rewrite list_lookup_insert_ne. Qed.

(** Reading a block, changing it, logging it and letting it go. *)
Lemma fbmod_spec {A} st sz f bs v lk m d E (k : M fsys A) Q :
  vol st sz f bs v lk -> lk !! m = None -> home st sz (length v) m -> room sz bs lk 1 -> is_blk d ->
  (forall f', vstep st sz f (add_block bs m) (<[m := d]> v) lk f' -> wpx k Q E f') ->
  wpx (let! b := fbread 1 (Z.of_nat m) in do! fbset b d in do! flog_write b in do! fbrelse b in k) Q E f.
Proof.
  intros V Hl Hm Hr Hd HQ. wp_step. wp_use (fbread_spec st sz f bs v lk m _ V Hl); [apply Hm|unfold room in *; lia|].
  intros b f1 [[g1 ->] V1]. eapply (fbput_spec _ _ _ _ _ _ m); [exact V1|by rewrite lookup_insert_eq|done|done|by apply room_lock|].
  intros f2 [[g2 ->] V2]. wp_step. wp_use (fbrelse_spec _ _ _ _ _ _ m b _ V2); [by rewrite lookup_insert_eq|].
  intros _ f3 [[g3 ->] V3]. apply HQ. split; [by exists g3|]. rewrite delete_insert_id in V3 by done. exact V3.
Qed.

Lemma zero_blk_ok : is_blk zero_blk.
Proof. apply length_replicate. Qed.

Lemma bzero_spec st sz f bs v lk m E :
  vol st sz f bs v lk -> lk !! m = None -> home st sz (length v) m -> room sz bs lk 1 ->
  wpx (bzero 1 (Z.of_nat m)) (fun _ => vstep st sz f (add_block bs m) (<[m := zero_blk]> v) lk) E f.
Proof.
  intros V Hl Hm Hr. unfold bzero. wp_step. wp_use (fbread_spec st sz f bs v lk m _ V Hl); [apply Hm|unfold room in *; lia|].
  intros b f1 [[g1 ->] V1].
  eapply (fbput_spec _ _ _ _ _ _ m); [exact V1|by rewrite lookup_insert_eq|apply zero_blk_ok|done|by apply room_lock|].
  intros f2 [[g2 ->] V2]. wp_use (fbrelse_spec _ _ _ _ _ _ m b _ V2); [by rewrite lookup_insert_eq|].
  intros _ f3 [[g3 ->] V3]. split; [by exists g3|]. rewrite delete_insert_id in V3 by done. exact V3.
Qed.

(** ** balloc *)

Lemma balloc_bits_spec st sz f bs v lk b bp k : forall bi E,
  vol st sz f bs v lk -> let m := bb (fsb f) b in
  layout (fsb f) st sz (length v) -> 0 <= b < sb_size (fsb f) ->
  lk !! m = Some bp -> room sz bs lk 0 -> 0 <= bi -> bi + Z.of_nat k = BPB ->
  (forall j, 0 <= j < bi -> bitof (blk v m) j = true) ->
  wpx (balloc_bits 1 bp b k bi) (fun r f' =>
    match r with
    | Some a => exists i, a = b + i /\ 0 <= i < BPB /\ a < sb_size (fsb f) /\ bitof (blk v m) i = false /\
        (forall j, 0 <= j < i -> bitof (blk v m) j = true) /\
        vstep st sz f (add_block bs m) (<[m := setbit (blk v m) i]> v) (delete m lk) f'
    | None => f' = f /\ forall i, 0 <= i < BPB -> b + i < sb_size (fsb f) -> bitof (blk v m) i = true
    end) E f.
Proof.
  induction k as [|k IH]; intros bi E V m L Hb Hl Hr Hbi Hk Hpre; cbn [balloc_bits].
  - apply wpx_ret. split; [done|]. intros i Hi _. apply Hpre. lia.
  - wp_step. wp_step. destruct (Z.ltb_spec (b + bi) (sb_size (fsb f))) as [Hlt|Hge].
    2:{ apply wpx_ret. split; [done|]. intros i Hi Hs. apply Hpre. lia. }
    cbv zeta. wp_step. wp_use (fbdata_spec _ _ _ _ _ _ m bp _ V Hl). intros d f' [-> ->].
    destruct (Z.eqb_spec (Z.land (rd8 (blk v m) (Z.to_nat (bi / 8))) (Z.shiftl 1 (bi mod 8))) 0) as [Hz|Hz].
    + assert (Hfree : bitof (blk v m) bi = false) by (unfold bitof; by rewrite Hz).
      destruct (vol_blk _ _ _ _ _ _ m V (vol_locked _ _ _ _ _ _ _ _ V Hl)) as [_ Hblk].
      eapply (fbput_spec _ _ _ _ _ _ m); [exact V|done|unfold is_blk; by rewrite length_wr8|by apply L|done|].
      intros f1 S1. pose proof S1 as [_ V1]. wp_step. wp_use (fbrelse_spec _ _ _ _ _ _ m bp _ V1 Hl). intros _ f2 S2.
      apply wpx_ret. exists bi. split_and!; [done|lia|lia|lia|done|done|]. by eapply vstep_trans.
    + apply IH; try done; try lia. intros j Hj. destruct (decide (j = bi)) as [->|]; [|apply Hpre; lia].
      unfold bitof. by apply negb_true_iff, Z.eqb_neq.
Qed.

Lemma bb_same sb b i : b mod BPB = 0 -> 0 <= i < BPB -> bb sb (b + i) = bb sb b /\ (b + i) mod BPB = i.
Proof. intros Hb Hi. unfold bb, BPB in *. split; [|dlia]. do 2 f_equal. dlia. Qed.

Lemma bb_inj sb b c : 0 <= sb_bmapstart sb -> 0 <= b -> 0 <= c -> bb sb c = bb sb b -> c mod BPB = b mod BPB -> c = b.
Proof. intros Hs Hb Hc H1 H2. unfold bb, BPB in *. dlia. Qed.

Lemma BBLOCK_eq sb st sz n b : layout sb st sz n -> 0 <= b < sb_size sb -> BBLOCK b sb = Z.of_nat (bb sb b).
Proof.
  intros L Hb. destruct (ly_bmap _ _ _ _ L b Hb) as [H _]. pose proof (ly_n _ _ _ _ L). destruct (ly_start _ _ _ _ L) as [Hs _].
  assert (0 <= b / BPB) by (unfold BPB; dlia). unfold BBLOCK, bb in *. rewrite u32_small by (unfold is_u32; lia). lia.
Qed.

(** The bit of [a] changes, by [g], and no other. *)
Lemma used_upd sb v a d' (g : bool -> bool) st sz :
  layout sb st sz (length v) -> 0 <= a < sb_size sb ->
  (forall j, 0 <= j < BPB -> bitof d' j = if j =? a mod BPB then g (bitof (blk v (bb sb a)) j) else bitof (blk v (bb sb a)) j) ->
  forall b, 0 <= b < sb_size sb ->
    used sb (<[bb sb a := d']> v) b = if b =? a then g (used sb v a) else used sb v b.
Proof.
  intros L Ha Hd b Hb. destruct (ly_start _ _ _ _ L) as [Hs _]. destruct (ly_bmap _ _ _ _ L a Ha) as [Hlt _].
  assert (Hm : 0 <= b mod BPB < BPB) by (unfold BPB; dlia). unfold used. destruct (decide (bb sb b = bb sb a)) as [E|E].
  - rewrite E, blk_insert by done. rewrite (Hd _ Hm). destruct (Z.eqb_spec (b mod BPB) (a mod BPB)) as [E1|E1].
    + rewrite (bb_inj sb a b) by (done || lia). rewrite Z.eqb_refl. done.
    + rewrite (proj2 (Z.eqb_neq b a)) by (by intros ->). done.
  - rewrite blk_insert_ne by done. rewrite (proj2 (Z.eqb_neq b a)) by (by intros ->). done.
Qed.

Lemma taken_intro sb st sz v a :
  layout sb st sz (length v) -> bitmap_ok sb st sz v -> Forall is_blk v -> 0 <= a < sb_size sb ->
  used sb v a = false -> (forall b, 0 <= b < a -> used sb v b = true) ->
  taken sb v a (<[Z.to_nat a := zero_blk]> (<[bb sb a := setbit (blk v (bb sb a)) (a mod BPB)]> v)).
Proof.
  intros L B Hv Ha Hf H1. destruct (B a Ha Hf) as (Ha0 & (Hlt & _) & Hbm & _).
  destruct (ly_bmap _ _ _ _ L a Ha) as [Hlt2 _].
  assert (Hblk : length (blk v (bb sb a)) = BSIZE).
  { destruct (lookup_lt_is_Some_2 v _ Hlt2) as [d Hd]. unfold blk. rewrite Hd. by eapply Forall_lookup_1 in Hv. }
  split; try done.
  - intros b Hb. unfold used. rewrite blk_insert_ne by (by apply Hbm). fold (used sb (<[bb sb a := setbit (blk v (bb sb a)) (a mod BPB)]> v) b).
    rewrite (used_upd sb v a _ (fun _ => true) st sz L Ha) by (done || (intros j Hj; rewrite bitof_setbit by (done || unfold BPB in *; dlia); by destruct (j =? _))).
    by destruct (b =? a).
  - apply list_lookup_insert_eq. by rewrite length_insert.
  - intros m Hm Hm2. by rewrite !list_lookup_insert_ne by done.
  - by rewrite !length_insert.
Qed.

Lemma balloc_loop_spec st sz bs v lk fuel : forall f b,
  vol st sz f bs v lk -> layout (fsb f) st sz (length v) -> bitmap_ok (fsb f) st sz v -> unlocked (fsb f) v lk ->
  room sz bs lk 2 -> 0 <= b -> b mod BPB = 0 -> sb_size (fsb f) - b + BPB <= Z.of_nat fuel * BPB -> (0 < fuel)%nat ->
  (forall c, 0 <= c < b -> c < sb_size (fsb f) -> used (fsb f) v c = true) ->
  wpx (balloc_loop 1 fuel b) (fun a f' => exists bs' v', vstep st sz f bs' v' lk f' /\ taken (fsb f) v a v' /\
      grows bs [bb (fsb f) a; Z.to_nat a] bs')
    (disk_full (fsb f) v) f.
Proof.
  induction fuel as [|fuel IH]; intros f b V L B U R Hb Hbm Hfuel H0 Hpre; [lia|]. cbn [balloc_loop]. wp_step. wp_step.
  destruct (Z.ltb_spec b (sb_size (fsb f))) as [Hlt|Hge].
  2:{ apply wpx_panic. split; [done|]. intros c Hc. apply Hpre; lia. }
  wp_step. rewrite (BBLOCK_eq _ _ _ _ b L) by lia. set (m := bb (fsb f) b).
  destruct (U b ltac:(lia)) as [Ul _]. fold m in Ul. destruct (ly_bmap _ _ _ _ L b ltac:(lia)) as [Hm _].
  wp_use (fbread_spec st sz f bs v lk m _ V Ul Hm); [unfold room in *; lia|]. intros bp f1 [[g1 ->] V1]. wp_step.
  wp_use (balloc_bits_spec st sz (set_lg g1 f) bs v (<[m := bp]> lk) b bp (Z.to_nat BPB) 0 _ V1); try done.
  { apply lookup_insert_eq. } { apply room_lock; [done|]. unfold room in *. lia. } { lia. }
  intros [a|] f2.
  - intros (i & -> & Hi & Ha & Hfree & Hfirst & [[g2 ->] V2]). cbn [fsb set_lg] in *. fold m in Hfree, Hfirst, V2.
    destruct (bb_same (fsb f) b i Hbm Hi) as [E1 E2].
    assert (Hfr : used (fsb f) v (b + i) = false) by (unfold used; by rewrite E1, E2).
    destruct (B (b + i) ltac:(lia) Hfr) as (_ & Hhome & Hbm2 & _). destruct (U (b + i) ltac:(lia)) as [_ Hul].
    rewrite delete_insert_id in V2 by done. wp_step. rewrite <- (Z2Nat.id (b + i)) by lia.
    wp_use (bzero_spec _ _ _ _ _ _ (Z.to_nat (b + i)) _ V2); [by apply Hul|by rewrite length_insert|apply room_add; unfold room in *; lia|].
    intros _ f3 [[g3 ->] V3]. apply wpx_ret. rewrite (Z2Nat.id (b + i)) by lia. eexists _, _. split; [split; [by exists g3|exact V3]|]. split.
    + pose proof (taken_intro (fsb f) st sz v (b + i) L B (br_blk _ _ _ _ (tr_rep _ _ _ _ _ _ (vl_trans _ _ _ _ _ _ V)))) as T.
      rewrite E1, E2 in T. apply T; [lia|done|].
      intros c Hc. destruct (Z_lt_ge_dec c b); [apply Hpre; lia|]. replace c with (b + (c - b)) by lia.
      destruct (bb_same (fsb f) b (c - b) Hbm) as [E3 E4]; [lia|]. unfold used. rewrite E3, E4. apply Hfirst. lia.
    + rewrite E1. fold m. eapply grows_sub; [eapply grows_trans; apply grows_add|]. done.
  - intros [-> Hall]. cbn [fsb set_lg] in Hall. wp_step. wp_use (fbrelse_spec _ _ _ _ _ _ m bp _ V1); [by rewrite lookup_insert_eq|].
    intros _ f3 [[g3 ->] V3]. rewrite delete_insert_id in V3 by done. cbn [set_lg] in V3.
    change (set_lg g3 (set_lg g1 f)) with (set_lg g3 f) in *.
    eapply wpx_mono; [apply (IH (set_lg g3 f) (b + BPB))| |done]; try done; try (unfold BPB in *; dlia).
    + unfold BPB in *. cbn [fsb set_lg]. lia.
    + intros c Hc Hs. cbn [fsb set_lg] in *. destruct (Z_lt_ge_dec c b); [apply Hpre; lia|]. replace c with (b + (c - b)) by lia.
      destruct (bb_same (fsb f) b (c - b) Hbm) as [E3 E4]; [lia|]. unfold used. rewrite E3, E4. apply Hall; lia.
Qed.

Lemma balloc_spec st sz f bs v lk :
  vol st sz f bs v lk -> layout (fsb f) st sz (length v) -> bitmap_ok (fsb f) st sz v -> unlocked (fsb f) v lk ->
  room sz bs lk 2 ->
  wpx (balloc 1) (fun a f' => exists bs' v', vstep st sz f bs' v' lk f' /\ taken (fsb f) v a v' /\
      grows bs [bb (fsb f) a; Z.to_nat a] bs') (disk_full (fsb f) v) f.
Proof.
  intros V L B U R. unfold balloc. wp_step. wp_step. destruct (ly_size _ _ _ _ L) as [Hs _].
  apply balloc_loop_spec; try done; unfold BPB in *; try dlia.
Qed.

(** ** bfree *)

Lemma bfree_spec st sz f bs v lk b :
  vol st sz f bs v lk -> layout (fsb f) st sz (length v) -> 0 <= b < sb_size (fsb f) -> lk !! bb (fsb f) b = None ->
  room sz bs lk 1 ->
  wpx (bfree 1 b) (fun _ f' => used (fsb f) v b = true /\ exists v',
      vstep st sz f (add_block bs (bb (fsb f) b)) v' lk f' /\ given (fsb f) v b v')
    (fun msg => msg = "freeing free block" /\ used (fsb f) v b = false) f.
Proof.
  intros V L Hb Hl R. unfold bfree. wp_step. wp_step. rewrite (BBLOCK_eq _ _ _ _ b L Hb). set (m := bb (fsb f) b) in *.
  destruct (ly_bmap _ _ _ _ L b Hb) as [Hm Hhome]. fold m in Hm, Hhome.
  wp_step. wp_use (fbread_spec st sz f bs v lk m (fun msg => msg = "freeing free block" /\ used (fsb f) v b = false) V Hl Hm); [unfold room in *; lia|].
  intros bp f1 [[g1 ->] V1]. assert (Hl1 : <[m := bp]> lk !! m = Some bp) by apply lookup_insert_eq.
  wp_step. wp_use (fbdata_spec _ _ _ _ _ _ m bp (fun msg => msg = "freeing free block" /\ used (fsb f) v b = false) V1 Hl1). intros d f2 [-> ->].
  destruct (vol_blk _ _ _ _ _ _ m V Hm) as [_ Hblk].
  destruct (Z.eqb_spec (Z.land (rd8 (blk v m) (Z.to_nat (b mod BPB / 8))) (Z.shiftl 1 (b mod BPB mod 8))) 0) as [Hz|Hz].
  - apply wpx_panic. split; [done|]. unfold used, bitof. fold m. by rewrite Hz.
  - assert (Hu : used (fsb f) v b = true) by (unfold used, bitof; fold m; by apply negb_true_iff, Z.eqb_neq).
    eapply (fbput_spec _ _ _ _ _ _ m); [exact V1|done|unfold is_blk; by rewrite length_wr8|done|by apply room_lock|].
    intros f2 [[g2 ->] V2].
    wp_use (fbrelse_spec _ _ _ _ _ _ m bp (fun msg => msg = "freeing free block" /\ used (fsb f) v b = false) V2 Hl1).
    intros _ f3 [[g3 ->] V3]. rewrite delete_insert_id in V3 by done. split; [done|].
    exists (<[m := clrbit (blk v m) (b mod BPB)]> v). split; [split; [by exists g3|exact V3]|]. split.
    + intros c Hc. subst m. rewrite (used_upd _ _ b _ (fun _ => false) st sz L Hb); [|
        intros j Hj; rewrite bitof_clrbit by (done || unfold BPB in *; dlia); by destruct (j =? _)|done].
      by destruct (c =? b).
    + intros k Hk. by rewrite list_lookup_insert_ne.
    + apply length_insert.
Qed.
