(* ===== verification/FsFile.v ===== *)
(** * The contents of files (src/fs.c: bmap, readi, writei)

    A file is the list of blocks its inode maps, directly and through the
    indirect block; [bmap] keeps this well formed, [readi] returns its bytes and
    [writei] changes exactly the bytes written. *)

From S2P Require Import Prelude.
From S2P Require Import Bytes.
From S2P Require Import Sleeplock.
From S2P Require Import Bio.
From S2P Require Import Log.
From S2P Require Import LogSpec.
From S2P Require Import LogTheorems.
From S2P Require Import Path.
From S2P Require Import Fs.
From S2P Require Import FsBlock.

Open Scope Z_scope.

(** The indirect block of an inode, and the block of the file's [k]-th 512
    bytes; 0 for none. *)
Definition ind (x : inode) : Z := addr_at x NDIRECT.
Definition entry (v : list bytes) (a k : Z) : Z := rd32 (blk v (Z.to_nat a)) (Z.to_nat (4 * k)).
Definition faddr (v : list bytes) (x : inode) (k : Z) : Z :=
  if k <? NDIRECT then addr_at x k
  else if ind x =? 0 then 0 else entry v (ind x) (k - NDIRECT).

(** The byte of a file at an offset. *)
Definition fbyte (v : list bytes) (x : inode) (o : Z) : Z :=
  rd8 (blk v (Z.to_nat (faddr v x (o / 512)))) (Z.to_nat (o mod 512)).

Section ok.
Context (sb : superblock) (st sz : nat).

(** A file whose blocks are its own, marked used, and cover its size. *)
Record file_ok (v : list bytes) (x : inode) : Prop := {
  fo_dev : i_dev x = 1;
  fo_addrs : length (i_addrs x) = 13%nat;
  fo_ind : ind x <> 0 -> is_data sb st sz (length v) (ind x) /\ used sb v (ind x) = true;
  fo_blk : forall k, 0 <= k < MAXFILE -> faddr v x k <> 0 ->
    is_data sb st sz (length v) (faddr v x k) /\ used sb v (faddr v x k) = true /\ faddr v x k <> ind x;
  fo_inj : forall j k, 0 <= j < MAXFILE -> 0 <= k < MAXFILE -> faddr v x j <> 0 -> faddr v x j = faddr v x k -> j = k;
  fo_size : 0 <= i_size x <= MAXFILE * 512;
  fo_alloc : forall k, 0 <= k -> k * 512 < i_size x -> faddr v x k <> 0;
}.

(** A used block that the file does not have. *)
Record fresh (v : list bytes) (x : inode) (a : Z) : Prop := {
  fr_data : is_data sb st sz (length v) a;
  fr_used : used sb v a = true;
  fr_ind : a <> ind x;
  fr_blk : forall k, 0 <= k < MAXFILE -> faddr v x k <> a;
}.

(** The file has the block [a] as its [k]-th; nothing else of it changed, nor
    any used block but its indirect block. *)
Record mapped (v : list bytes) (x : inode) (k a : Z) (v' : list bytes) (x' : inode) : Prop := {
  mp_ok : file_ok v' x';
  mp_bitmap : bitmap_ok sb st sz v';
  mp_len : length v' = length v;
  mp_inode : exists l, x' = set_iaddrs l x;
  mp_addr : faddr v' x' k = a;
  mp_nz : a <> 0;
  mp_others : forall j, 0 <= j < MAXFILE -> j <> k -> faddr v' x' j = faddr v x j;
  mp_old : faddr v x k <> 0 -> a = faddr v x k;
  mp_new : faddr v x k = 0 -> blk v' (Z.to_nat a) = zero_blk;
  mp_data : forall b, is_data sb st sz (length v) b -> used sb v b = true -> b <> ind x -> v' !! Z.to_nat b = v !! Z.to_nat b;
  mp_inodes : forall i, 0 <= i < sb_ninodes sb -> v' !! ib sb i = v !! ib sb i;
  mp_used : forall b, 0 <= b < sb_size sb -> used sb v b = true -> used sb v' b = true;
  mp_free : faddr v x k = 0 -> used sb v a = false;
  mp_ind : ind x' = ind x \/ (ind x = 0 /\ used sb v (ind x') = false);
}.

End ok.

(** The only panic left. *)
Definition out_of_blocks (msg : string) : Prop := msg = "balloc: out of blocks".

(** * Lemmas *)

Lemma addr_at_set x k a j :
  length (i_addrs x) = 13%nat -> 0 <= k <= NDIRECT -> 0 <= j -> addr_at (set_addr k a x) j = if j =? k then a else addr_at x j.
Proof.
  intros Hl Hk Hj. unfold addr_at, set_addr, NDIRECT in *. cbn [i_addrs set_iaddrs]. destruct (Z.eqb_spec j k) as [->|Hne].
  - by rewrite list_lookup_insert_eq by lia.
  - by rewrite list_lookup_insert_ne by lia.
Qed.

Lemma faddr_direct v x k : k < NDIRECT -> faddr v x k = addr_at x k.
Proof. intros Hk. unfold faddr. by rewrite (proj2 (Z.ltb_lt _ _)). Qed.

Lemma faddr_indirect v x k : NDIRECT <= k -> faddr v x k = if ind x =? 0 then 0 else entry v (ind x) (k - NDIRECT).
Proof. intros Hk. unfold faddr. by rewrite (proj2 (Z.ltb_ge _ _)). Qed.

(** [faddr] only looks at the inode's addresses and at its indirect block. *)
Lemma faddr_ext v v' x k : (ind x <> 0 -> v' !! Z.to_nat (ind x) = v !! Z.to_nat (ind x)) -> faddr v' x k = faddr v x k.
Proof.
  intros H. unfold faddr. destruct (k <? NDIRECT); [done|]. destruct (Z.eqb_spec (ind x) 0); [done|].
  unfold entry, blk. by rewrite H.
Qed.

Section bmap.
Context (sb : superblock) (st sz : nat).
Abbreviation file_ok := (file_ok sb st sz).
Abbreviation fresh := (fresh sb st sz).
Abbreviation mapped := (mapped sb st sz).

Lemma data_nat n a b : is_data sb st sz n a -> is_data sb st sz n b -> Z.to_nat a = Z.to_nat b -> a = b.
Proof. intros ([H1 H2] & _) ([H3 H4] & _) H. lia. Qed.

Lemma taken_bitmap v a v' : bitmap_ok sb st sz v -> taken sb v a v' -> bitmap_ok sb st sz v'.
Proof.
  intros B T b Hb Hu. rewrite (tk_used _ _ _ _ T b Hb) in Hu. apply orb_false_iff in Hu as [_ Hu].
  rewrite (tk_len _ _ _ _ T). by apply B.
Qed.

(** A used data block keeps its contents. *)
Lemma taken_data v a v' b :
  bitmap_ok sb st sz v -> taken sb v a v' -> is_data sb st sz (length v) b -> used sb v b = true -> v' !! Z.to_nat b = v !! Z.to_nat b.
Proof.
  intros B T D Hu. apply (tk_other _ _ _ _ T).
  - intros H. assert (b = a) as -> by (destruct D as ([? ?] & _); pose proof (tk_range _ _ _ _ T); lia).
    rewrite (tk_free _ _ _ _ T) in Hu. done.
  - intros H. destruct D as (_ & _ & Hb & _). apply (Hb a); [apply T|done].
Qed.

Lemma taken_faddr v a v' x k : bitmap_ok sb st sz v -> taken sb v a v' -> file_ok v x -> faddr v' x k = faddr v x k.
Proof.
  intros B T F. apply faddr_ext. intros H. destruct (fo_ind _ _ _ _ _ F H). by eapply taken_data.
Qed.

Lemma taken_used v a v' b : taken sb v a v' -> 0 <= b < sb_size sb -> used sb v b = true -> used sb v' b = true.
Proof. intros T Hb Hu. by rewrite (tk_used _ _ _ _ T b Hb), Hu, orb_true_r. Qed.

Lemma data_range n b : is_data sb st sz n b -> 0 <= b < sb_size sb.
Proof. intros ([? ?] & _). lia. Qed.

Lemma taken_file v a v' x : bitmap_ok sb st sz v -> taken sb v a v' -> file_ok v x -> file_ok v' x.
Proof.
  intros B T F. pose proof (fun k => taken_faddr v a v' x k B T F) as E. pose proof (tk_len _ _ _ _ T) as Hl.
  split; try apply F.
  - intros H. rewrite Hl. destruct (fo_ind _ _ _ _ _ F H) as [D U]. split; [done|]. apply (taken_used v a v'); [done|by eapply data_range|done].
  - intros k Hk. rewrite E, Hl. intros H. destruct (fo_blk _ _ _ _ _ F k Hk H) as (D & U & N).
    split; [done|]. split; [|done]. apply (taken_used v a v'); [done|by eapply data_range|done].
  - intros j k Hj Hk. rewrite !E. by apply F.
  - intros k Hk. rewrite E. by apply F.
Qed.

Lemma taken_fresh v a v' x : bitmap_ok sb st sz v -> taken sb v a v' -> file_ok v x -> fresh v' x a.
Proof.
  intros B T F. pose proof (tk_range _ _ _ _ T) as Ha. pose proof (tk_free _ _ _ _ T) as Hf.
  split.
  - rewrite (tk_len _ _ _ _ T). by apply B.
  - rewrite (tk_used _ _ _ _ T) by done. by rewrite Z.eqb_refl.
  - intros ->. destruct (fo_ind _ _ _ _ _ F) as [_ U]; [|congruence]. destruct (B _ Ha Hf) as ([? ?] & _). lia.
  - intros k Hk E. rewrite (taken_faddr v a v' x k B T F) in E. destruct (B _ Ha Hf) as ([? ?] & _).
    destruct (fo_blk _ _ _ _ _ F k Hk) as (_ & U & _); [lia|]. congruence.
Qed.

(** A file that gets the fresh block [a] as its [k]-th. *)
Lemma file_ok_assign v x v' x' k a :
  file_ok v x -> fresh v x a -> 0 <= k < MAXFILE -> faddr v x k = 0 ->
  length v' = length v -> (forall b, 0 <= b < sb_size sb -> used sb v' b = used sb v b) ->
  i_dev x' = i_dev x -> i_size x' = i_size x -> length (i_addrs x') = 13%nat -> ind x' = ind x ->
  (forall j, 0 <= j < MAXFILE -> faddr v' x' j = if j =? k then a else faddr v x j) ->
  file_ok v' x'.
Proof.
  intros F R Hk Hz Hl Hu Hd Hs Ha Hi Hf. assert (Hnz : a <> 0) by (destruct (fr_data _ _ _ _ _ _ R) as ([H1 H2] & _); lia).
  assert (Hsz : MAXFILE * 512 = 71680) by done. pose proof (fo_size _ _ _ _ _ F) as Hsize.
  split.
  - by rewrite Hd, (fo_dev _ _ _ _ _ F).
  - done.
  - rewrite Hi, Hl. intros H. destruct (fo_ind _ _ _ _ _ F H) as [D U]. split; [done|]. rewrite Hu; [done|by eapply data_range].
  - intros j Hj. rewrite (Hf j Hj), Hi, Hl. destruct (Z.eqb_spec j k) as [->|Hne]; intros H.
    + destruct R as [R1 R2 R3 R4]. split; [done|]. split; [rewrite Hu; [done|by eapply data_range]|done].
    + destruct (fo_blk _ _ _ _ _ F j Hj H) as (D & U & N). split; [done|]. split; [rewrite Hu; [done|by eapply data_range]|done].
  - intros i j Hij Hj. rewrite !Hf by done. destruct (Z.eqb_spec i k) as [->|Hi'], (Z.eqb_spec j k) as [->|Hj']; intros H E.
    + done.
    + by destruct (fr_blk _ _ _ _ _ _ R j Hj).
    + by destruct (fr_blk _ _ _ _ _ _ R i Hij).
    + by apply (fo_inj _ _ _ _ _ F).
  - rewrite Hs. apply F.
  - intros j Hj. rewrite Hs. intros Hlt. rewrite Hf by (unfold MAXFILE, NDIRECT, NINDIRECT in *; lia).
    destruct (j =? k); [done|]. by apply F.
Qed.

Lemma ind_set x k a : length (i_addrs x) = 13%nat -> 0 <= k <= NDIRECT -> ind (set_addr k a x) = if NDIRECT =? k then a else ind x.
Proof. intros Hl Hk. apply addr_at_set; [done|done|]. unfold NDIRECT. lia. Qed.

Lemma length_set_addr x k a : length (i_addrs (set_addr k a x)) = length (i_addrs x).
Proof. apply length_insert. Qed.

Lemma set_direct v x k a :
  file_ok v x -> fresh v x a -> 0 <= k < NDIRECT -> addr_at x k = 0 ->
  file_ok v (set_addr k a x) /\ forall j, 0 <= j < MAXFILE -> faddr v (set_addr k a x) j = if j =? k then a else faddr v x j.
Proof.
  intros F R Hk Hz. pose proof (fo_addrs _ _ _ _ _ F) as Hl.
  assert (Hi : ind (set_addr k a x) = ind x) by (rewrite ind_set by (done || lia); by rewrite (proj2 (Z.eqb_neq _ _)) by lia).
  assert (Hf : forall j, 0 <= j < MAXFILE -> faddr v (set_addr k a x) j = if j =? k then a else faddr v x j).
  { intros j Hj. unfold faddr. rewrite Hi. destruct (Z.ltb_spec j NDIRECT) as [H|H].
    - rewrite addr_at_set by (done || lia). done.
    - by rewrite (proj2 (Z.eqb_neq j k)) by lia. }
  split; [|done]. apply (file_ok_assign v x v _ k a); try done.
  - unfold MAXFILE, NDIRECT, NINDIRECT in *. lia.
  - by rewrite faddr_direct by lia.
  - by rewrite length_set_addr.
Qed.

Lemma entry_zero v a j : blk v (Z.to_nat a) = zero_blk -> entry v a j = 0.
Proof.
  intros H. unfold entry. rewrite H. unfold rd32, rd16, rd8.
  assert (Hz : forall o, default 0 (zero_blk !! o) = 0).
  { intros o. unfold zero_blk. destruct (replicate BSIZE 0 !! o) eqn:E; [|done]. by apply lookup_replicate in E as [-> _]. }
  rewrite !Hz. done.
Qed.

Lemma set_indirect v x a :
  file_ok v x -> fresh v x a -> ind x = 0 -> blk v (Z.to_nat a) = zero_blk ->
  file_ok v (set_addr NDIRECT a x) /\ ind (set_addr NDIRECT a x) = a /\
  forall j, 0 <= j < MAXFILE -> faddr v (set_addr NDIRECT a x) j = faddr v x j.
Proof.
  intros F R Hz Hb. pose proof (fo_addrs _ _ _ _ _ F) as Hl.
  assert (Hi : ind (set_addr NDIRECT a x) = a) by (rewrite ind_set by (done || unfold NDIRECT; lia); by rewrite Z.eqb_refl).
  assert (Hf : forall j, 0 <= j < MAXFILE -> faddr v (set_addr NDIRECT a x) j = faddr v x j).
  { intros j Hj. unfold faddr. rewrite Hi, Hz. destruct (Z.ltb_spec j NDIRECT) as [H|H].
    - rewrite addr_at_set by (done || unfold NDIRECT in *; lia). by rewrite (proj2 (Z.eqb_neq j _)) by lia.
    - rewrite (entry_zero v a _ Hb). cbn. by destruct (a =? 0). }
  split; [|done]. destruct F as [F1 F2 F3 F4 F5 F6 F7]. split; try done.
  - by rewrite length_set_addr.
  - rewrite Hi. intros _. split; apply R.
  - intros k Hk. rewrite Hf, Hi by done. intros H. destruct (F4 k Hk H) as (D & U & _). split; [done|]. split; [done|]. by apply R.
  - intros j k Hj Hk. rewrite !Hf by done. by apply F5.
  - intros k Hk Hs. change (i_size (set_addr NDIRECT a x)) with (i_size x) in Hs.
    rewrite Hf by (unfold MAXFILE, NDIRECT, NINDIRECT in *; lia). by apply F7.
Qed.

(** Writing a data block does not change the bitmap. *)
Lemma used_data v b d c n :
  is_data sb st sz n b -> 0 <= c < sb_size sb -> used sb (<[Z.to_nat b := d]> v) c = used sb v c.
Proof. intros (_ & _ & D & _) Hc. unfold used. by rewrite blk_insert_ne by (by apply D). Qed.

Lemma bitmap_data v b d n : is_data sb st sz n b -> bitmap_ok sb st sz v -> bitmap_ok sb st sz (<[Z.to_nat b := d]> v).
Proof. intros D B c Hc Hu. rewrite length_insert. apply B; [done|]. by rewrite (used_data v b d c n) in Hu. Qed.

Lemma set_entry v x k a :
  layout sb st sz (length v) -> Forall is_blk v -> file_ok v x -> fresh v x a -> ind x <> 0 -> NDIRECT <= k < MAXFILE -> faddr v x k = 0 ->
  let v' := <[Z.to_nat (ind x) := wr32 (blk v (Z.to_nat (ind x))) (Z.to_nat (4 * (k - NDIRECT))) a]> v in
  file_ok v' x /\ forall j, 0 <= j < MAXFILE -> faddr v' x j = if j =? k then a else faddr v x j.
Proof.
  intros L Hv F R Hi Hk Hz v'. destruct (fo_ind _ _ _ _ _ F Hi) as [D U]. pose proof (data_range _ _ D) as Hir.
  assert (Hlt : (Z.to_nat (ind x) < length v)%nat) by apply D.
  assert (Hb : length (blk v (Z.to_nat (ind x))) = 512%nat).
  { destruct (lookup_lt_is_Some_2 v _ Hlt) as [d Hd]. unfold blk. rewrite Hd. by eapply Forall_lookup_1 in Hv. }
  assert (Ha : is_u32 a). { pose proof (data_range _ _ (fr_data _ _ _ _ _ _ R)). destruct (ly_size _ _ _ _ L). pose proof (ly_n _ _ _ _ L). unfold is_u32. lia. }
  unfold MAXFILE, NDIRECT, NINDIRECT in *.
  assert (Hf : forall j, 0 <= j < MAXFILE -> faddr v' x j = if j =? k then a else faddr v x j).
  { intros j Hj. unfold faddr, MAXFILE, NDIRECT, NINDIRECT in *. destruct (Z.ltb_spec j 12) as [H|H]; [by rewrite (proj2 (Z.eqb_neq j k)) by lia|].
    rewrite (proj2 (Z.eqb_neq (ind x) 0)) by done. unfold entry, v'. rewrite blk_insert by done. destruct (Z.eqb_spec j k) as [->|Hne].
    - by rewrite rd32_wr32_eq by (done || lia).
    - rewrite rd32_wr32_ne by lia. done. }
  split; [|done]. apply (file_ok_assign v x v' x k a); try done.
  - unfold MAXFILE, NDIRECT, NINDIRECT. lia.
  - apply length_insert.
  - intros b Hb'. by apply (used_data v (ind x) _ b (length v)).
  - apply F.
Qed.

(** Mapping a block that is there. *)
Lemma mapped_old v x k : bitmap_ok sb st sz v -> file_ok v x -> faddr v x k <> 0 -> mapped v x k (faddr v x k) v x.
Proof.
  intros B F H. split; try done; [|by left]. exists (i_addrs x). by destruct x.
Qed.

Lemma taken_inode v a v' i :
  layout sb st sz (length v) -> bitmap_ok sb st sz v -> taken sb v a v' -> 0 <= i < sb_ninodes sb -> v' !! ib sb i = v !! ib sb i.
Proof.
  intros L B T Hi. destruct (B a (tk_range _ _ _ _ T) (tk_free _ _ _ _ T)) as (_ & _ & _ & D).
  apply (tk_other _ _ _ _ T); [by apply D|]. intros H. symmetry in H. revert H. apply (ly_apart _ _ _ _ L); [apply T|done].
Qed.

Lemma mapped_direct v x k a v' :
  layout sb st sz (length v) -> bitmap_ok sb st sz v -> file_ok v x -> taken sb v a v' -> 0 <= k < NDIRECT -> addr_at x k = 0 ->
  mapped v x k a v' (set_addr k a x).
Proof.
  intros L B F T Hk Hz. pose proof (taken_file v a v' x B T F) as F1. pose proof (taken_fresh v a v' x B T F) as R.
  destruct (set_direct v' x k a F1 R Hk Hz) as [F2 Hf]. assert (Hm : 0 <= k < MAXFILE) by (unfold MAXFILE, NDIRECT, NINDIRECT in *; lia).
  split.
  - done.
  - by eapply taken_bitmap.
  - apply T.
  - by eexists.
  - rewrite Hf by done. by rewrite Z.eqb_refl.
  - destruct (fr_data _ _ _ _ _ _ R) as ([H1 H2] & _). lia.
  - intros j Hj Hne. rewrite Hf, (taken_faddr v a v' x j B T F) by done. by rewrite (proj2 (Z.eqb_neq _ _)).
  - by rewrite faddr_direct by lia.
  - intros _. unfold blk. by rewrite (tk_zero _ _ _ _ T).
  - intros b D U _. by eapply taken_data.
  - intros i Hi. by eapply taken_inode.
  - intros b Hb. by apply (taken_used v a v').
  - intros _. apply T.
  - left. rewrite ind_set by (apply F || lia). by rewrite (proj2 (Z.eqb_neq _ _)) by lia.
Qed.

(** The file has an indirect block, an old one or a new empty one. *)
Record prepared (v : list bytes) (x : inode) (v' : list bytes) (x' : inode) : Prop := {
  pr_ok : file_ok v' x';
  pr_bitmap : bitmap_ok sb st sz v';
  pr_len : length v' = length v;
  pr_inode : exists l, x' = set_iaddrs l x;
  pr_ind : ind x' <> 0;
  pr_addr : forall j, 0 <= j < MAXFILE -> faddr v' x' j = faddr v x j;
  pr_data : forall b, is_data sb st sz (length v) b -> used sb v b = true -> v' !! Z.to_nat b = v !! Z.to_nat b;
  pr_other : ind x' = ind x \/ (ind x = 0 /\ used sb v (ind x') = false);
  pr_inodes : forall i, 0 <= i < sb_ninodes sb -> v' !! ib sb i = v !! ib sb i;
  pr_used : forall b, 0 <= b < sb_size sb -> used sb v b = true -> used sb v' b = true;
}.

Lemma prepared_old v x : bitmap_ok sb st sz v -> file_ok v x -> ind x <> 0 -> prepared v x v x.
Proof. intros B F H. split; try done; [|by left]. exists (i_addrs x). by destruct x. Qed.

Lemma prepared_new v x a v' :
  layout sb st sz (length v) -> bitmap_ok sb st sz v -> file_ok v x -> taken sb v a v' -> ind x = 0 ->
  prepared v x v' (set_addr NDIRECT a x).
Proof.
  intros L B F T Hz. pose proof (taken_file v a v' x B T F) as F1. pose proof (taken_fresh v a v' x B T F) as R.
  destruct (set_indirect v' x a F1 R Hz) as (F2 & Hi & Hf); [unfold blk; by rewrite (tk_zero _ _ _ _ T)|].
  destruct (fr_data _ _ _ _ _ _ R) as ([H1 H2] & _). split.
  - done.
  - by eapply taken_bitmap.
  - apply T.
  - by eexists.
  - rewrite Hi. lia.
  - intros j Hj. rewrite Hf by done. by apply (taken_faddr v a v').
  - intros b D U. by eapply taken_data.
  - right. rewrite Hi. split; [done|apply T].
  - intros i Hi'. by eapply taken_inode.
  - intros b Hb. by apply (taken_used v a v').
Qed.

Lemma mapped_entry_old v x k v' x' :
  prepared v x v' x' -> 0 <= k < MAXFILE -> faddr v x k <> 0 -> mapped v x k (faddr v x k) v' x'.
Proof.
  intros [F B Hl Hx Hi Ha Hd Ho Hin Hu] Hk H. split; try done; [by apply Ha|by intros j Hj _; apply Ha|by intros b D U _; apply Hd].
Qed.

Lemma mapped_entry_new v x k a v1 x1 v2 :
  layout sb st sz (length v) -> Forall is_blk v2 -> prepared v x v1 x1 -> taken sb v1 a v2 ->
  NDIRECT <= k < MAXFILE -> faddr v x k = 0 ->
  mapped v x k a (<[Z.to_nat (ind x1) := wr32 (blk v2 (Z.to_nat (ind x1))) (Z.to_nat (4 * (k - NDIRECT))) a]> v2) x1.
Proof.
  intros L Hv P T Hk Hz. destruct P as [F B Hl Hx Hi Ha Hd Ho Hin Hu]. rewrite <- Hl in L.
  pose proof (taken_file v1 a v2 x1 B T F) as F2. pose proof (taken_fresh v1 a v2 x1 B T F) as R.
  pose proof (taken_bitmap v1 a v2 B T) as B2. pose proof (tk_len _ _ _ _ T) as Hl2.
  assert (Hm : 0 <= k < MAXFILE) by (unfold NDIRECT in *; lia).
  assert (Hz2 : faddr v2 x1 k = 0) by (rewrite (taken_faddr v1 a v2 x1 k B T F), Ha by done; done).
  destruct (set_entry v2 x1 k a) as [F3 Hf]; try done; [by rewrite Hl2|].
  destruct (fo_ind _ _ _ _ _ F2 Hi) as [Di Ui]. destruct (fr_data _ _ _ _ _ _ R) as ([H1 H2] & _). split.
  - done.
  - by eapply bitmap_data.
  - by rewrite length_insert, Hl2.
  - done.
  - rewrite Hf by done. by rewrite Z.eqb_refl.
  - lia.
  - intros j Hj Hne. rewrite Hf, (taken_faddr v1 a v2 x1 j B T F), Ha by done. by rewrite (proj2 (Z.eqb_neq _ _)).
  - done.
  - intros _. rewrite blk_insert_ne; [unfold blk; by rewrite (tk_zero _ _ _ _ T)|].
    intros E. apply (data_nat _ _ _ (fr_data _ _ _ _ _ _ R) Di) in E. by apply (fr_ind _ _ _ _ _ _ R).
  - intros b D U Hne. rewrite list_lookup_insert_ne.
    + rewrite (taken_data v1 a v2 b B T); [by apply Hd|by rewrite Hl|]. apply Hu; [by eapply data_range|done].
    + intros E. assert (b = ind x1) as -> by (rewrite <- Hl, <- Hl2 in D; symmetry in E; by eapply data_nat).
      destruct Ho as [Ho|[_ Ho]]; [done|congruence].
  - intros i Hi'. rewrite list_lookup_insert_ne; [|intros E; symmetry in E; revert E; by apply Di].
    rewrite (taken_inode v1 a v2 i L B T Hi'). by apply Hin.
  - intros b Hb U. rewrite (used_data v2 (ind x1) _ b (length v2)) by done. apply (taken_used v1 a v2); [done..|]. by apply Hu.
  - intros _. destruct (used sb v a) eqn:E; [|done]. rewrite <- (tk_free _ _ _ _ T). symmetry. apply Hu; [lia|done].
  - done.
Qed.

(** ** bmap *)

(** The inode [ip] has become [x], and the blocks [v]; the rest of the file
    system is that of [f], except for the log and the cache. *)
Definition istep (f : fsys) (ip : nat) (x : inode) (bs : list nat) (v : list bytes) (f' : fsys) : Prop :=
  (exists g, f' = set_icache (<[ip := x]> (icache f)) (set_lg g f)) /\ vol st sz f' bs v ∅.

Lemma vol_icache f bs v lk c : vol st sz f bs v lk -> vol st sz (set_icache c f) bs v lk.
Proof. intros [V1 V2 V3]. by split. Qed.

Lemma istep_vstep f ip x bs v f' : icache f !! ip = Some x -> vstep st sz f bs v ∅ f' -> istep f ip x bs v f'.
Proof. intros Hx [[g ->] V]. split; [|done]. exists g. rewrite list_insert_id by done. by destruct f. Qed.

Lemma istep_trans f ip x bs v f1 x' bs' v' f2 :
  istep f ip x bs v f1 -> istep f1 ip x' bs' v' f2 -> istep f ip x' bs' v' f2.
Proof.
  intros [[g ->] _] [[g' ->] V]. split; [|done]. exists g'. cbn [icache set_icache set_lg]. by rewrite list_insert_insert_eq.
Qed.

Lemma istep_inode f ip x bs v f' : (ip < length (icache f))%nat -> istep f ip x bs v f' -> icache f' !! ip = Some x /\ fsb f' = fsb f.
Proof. intros Hl [[g ->] _]. cbn. split; [by apply list_lookup_insert_eq|done]. Qed.

Lemma wpx_iref (Q : inode -> fsys -> Prop) E ip x f : icache f !! ip = Some x -> Q x f -> wpx (iref ip) Q E f.
Proof. intros Hx HQ. unfold wpx, iref. by rewrite Hx. Qed.

Lemma wpx_iput_at (Q : unit -> fsys -> Prop) E ip x g f :
  icache f !! ip = Some x -> Q tt (set_icache (<[ip := g x]> (icache f)) f) -> wpx (iupd ip g) Q E f.
Proof. intros Hx HQ. unfold wpx, iupd. by rewrite Hx. Qed.

Lemma addr_alloc_spec f bs v ip x k :
  vol st sz f bs v ∅ -> fsb f = sb -> layout sb st sz (length v) -> bitmap_ok sb st sz v -> room sz bs ∅ 2 ->
  icache f !! ip = Some x -> i_dev x = 1 ->
  wpx (addr_alloc ip k) (fun a f' =>
    (addr_at x k <> 0 /\ a = addr_at x k /\ f' = f) \/
    (addr_at x k = 0 /\ exists bs' v', taken sb v a v' /\ istep f ip (set_addr k a x) bs' v' f' /\
       grows bs [bb sb a; Z.to_nat a] bs')) out_of_blocks f.
Proof.
  intros V Hsb L B R Hx Hd. unfold addr_alloc. wp_step. eapply wpx_iref; [done|].
  destruct (Z.eqb_spec (addr_at x k) 0) as [Hz|Hz]; [|apply wpx_ret; by left].
  rewrite Hd. wp_step. subst sb. eapply wpx_mono; [apply (balloc_spec st sz f bs v ∅)| |]; try done.
  2:{ intros msg [-> _]. done. }
  intros a f' (bs' & v' & [[g ->] V'] & T & G). wp_step. eapply wpx_iput_at; [exact Hx|]. wp_step. right. split; [done|].
  exists bs', v'. split; [done|]. split; [|done]. split; [by exists g|]. by apply vol_icache.
Qed.

(** The indirect block and its bitmap block. *)
Definition ind_blocks (x : inode) : list nat := if ind x =? 0 then [] else [bb sb (ind x); Z.to_nat (ind x)].

Definition bmap_post f bs v ip x k (a : Z) (f' : fsys) : Prop :=
  exists bs' v' x', mapped v x k a v' x' /\ istep f ip x' bs' v' f' /\
    grows bs ([bb sb a; Z.to_nat a] ++ ind_blocks x') bs' /\
    (faddr v x k <> 0 -> v' = v /\ x' = x /\ bs' = bs).

Lemma bmap_indirect f bs v ip x k v1 x1 bs1 f1 :
  layout sb st sz (length v) -> fsb f = sb -> icache f !! ip = Some x ->
  prepared v x v1 x1 -> istep f ip x1 bs1 v1 f1 -> grows bs [bb sb (ind x1); Z.to_nat (ind x1)] bs1 -> room sz bs1 ∅ 4 ->
  (faddr v x k <> 0 -> v1 = v /\ x1 = x /\ bs1 = bs) ->
  NDIRECT <= k < MAXFILE ->
  wpx (let! x := iref ip in
       let! bp := fbread (i_dev x) (ind x1) in
       let! d := fbdata bp in
       let! addr :=
         (if rd32 d (Z.to_nat (4 * (k - NDIRECT))) =? 0 then
            let! a := balloc (i_dev x) in
            let! d := fbdata bp in
            do! fbset bp (wr32 d (Z.to_nat (4 * (k - NDIRECT))) a) in
            do! flog_write bp in
            ret a
          else ret (rd32 d (Z.to_nat (4 * (k - NDIRECT))))) in
       do! fbrelse bp in
       ret addr) (bmap_post f bs v ip x k) out_of_blocks f1.
Proof.
  intros L Hsb Hx P S1 G1 R Hold Hk. pose proof (pr_ok _ _ _ _ P) as F. pose proof (pr_bitmap _ _ _ _ P) as B.
  destruct (istep_inode f ip x1 bs1 v1 f1) as [Hx1 Hsb1]; [by eapply lookup_lt_Some|done|]. rewrite Hsb in Hsb1.
  destruct (fo_ind _ _ _ _ _ F (pr_ind _ _ _ _ P)) as [Di Ui]. pose proof (data_range _ _ Di) as Hir. pose proof S1 as [_ V1].
  assert (Hm : 0 <= k < MAXFILE) by (unfold NDIRECT in *; lia). assert (L1 : layout sb st sz (length v1)) by (by rewrite (pr_len _ _ _ _ P)).
  set (m := Z.to_nat (ind x1)) in *. assert (Hmlt : (m < length v1)%nat) by apply Di.
  wp_step. eapply wpx_iref; [exact Hx1|]. rewrite (fo_dev _ _ _ _ _ F). wp_step.
  replace (ind x1) with (Z.of_nat m) by (unfold m; lia).
  wp_use (fbread_spec st sz f1 bs1 v1 ∅ m out_of_blocks V1 (lookup_empty _) Hmlt); [unfold room in *; lia|].
  intros bp f2 S2. rewrite insert_empty in S2. pose proof S2 as [[g2 E2] V2].
  assert (Hl : ({[m := bp]} : gmap nat nat) !! m = Some bp) by apply lookup_singleton_eq.
  wp_step. wp_use (fbdata_spec _ _ _ _ _ _ m bp out_of_blocks V2 Hl). intros d f3 [-> ->]. wp_step.
  assert (He : rd32 (blk v1 m) (Z.to_nat (4 * (k - NDIRECT))) = faddr v x k).
  { rewrite <- (pr_addr _ _ _ _ P k Hm), faddr_indirect by lia. by rewrite (proj2 (Z.eqb_neq _ _)) by apply P. }
  rewrite He. destruct (Z.eqb_spec (faddr v x k) 0) as [Hz|Hz].
  - assert (Hsb2 : fsb f2 = sb) by (by rewrite E2). wp_step.
    eapply wpx_mono; [apply (balloc_spec st sz f2 bs1 v1 _ V2); rewrite ?Hsb2; try done| |].
    { intros b Hb. split; [apply lookup_singleton_None; intros E; symmetry in E; revert E; by apply Di|].
      intros Hf. apply lookup_singleton_None. intros E. assert (b = ind x1) as -> by (unfold m in E; lia). congruence. }
    { unfold room in *. rewrite map_size_singleton. rewrite map_size_empty in R. lia. }
    2:{ by intros msg [-> _]. }
    rewrite Hsb2. intros a f3 (bs2 & v2 & S3 & T & G2). pose proof S3 as [[g3 E3] V3]. pose proof (vol_grows _ _ _ _ _ _ _ _ V3 G2) as Hlen. cbn in Hlen.
    wp_step. wp_use (fbdata_spec _ _ _ _ _ _ m bp out_of_blocks V3 Hl). intros d f4 [-> ->].
    pose proof (tk_len _ _ _ _ T) as Hl2.
    eapply (fbput_spec _ _ _ _ _ _ m); [exact V3|exact Hl| |rewrite Hl2; apply Di| |].
    { unfold is_blk. rewrite length_wr32. apply (vol_blk _ _ _ _ _ _ _ V3). by rewrite Hl2. }
    { unfold room in *. rewrite map_size_singleton. rewrite map_size_empty in R. lia. }
    intros f4 S4. pose proof S4 as [[g4 E4] V4]. wp_step. wp_step.
    wp_use (fbrelse_spec _ _ _ _ _ _ m bp out_of_blocks V4 Hl). intros _ f5 S5. apply wpx_ret.
    eexists _, _, x1. split; [by apply (mapped_entry_new v x k a v1 x1 v2 L (vol_blks _ _ _ _ _ _ V3) P T)|]. split; [|split].
    + eapply istep_trans; [exact S1|]. apply istep_vstep; [done|]. rewrite delete_singleton_eq in S5.
      eapply vstep_trans; [exact S2|]. eapply vstep_trans; [exact S3|]. by eapply vstep_trans.
    + eapply grows_sub; [eapply grows_trans; [exact G1|eapply grows_trans; [exact G2|apply grows_add]]|]. unfold ind_blocks. rewrite (proj2 (Z.eqb_neq _ _) (pr_ind _ _ _ _ P)). fold m. set_solver.
    + done.
  - wp_step. wp_step. wp_use (fbrelse_spec _ _ _ _ _ _ m bp out_of_blocks V2 Hl). intros _ f3 S3. apply wpx_ret.
    destruct (Hold Hz) as (-> & -> & ->). eexists _, _, x. split; [by apply (mapped_entry_old v x k v x)|]. split; [|split; [|done]].
    + eapply istep_trans; [exact S1|]. apply istep_vstep; [done|]. rewrite delete_singleton_eq in S3. by eapply vstep_trans.
    + eapply grows_sub; [apply grows_refl|]. set_solver.
Qed.

Lemma bmap_spec f bs v ip x k :
  vol st sz f bs v ∅ -> fsb f = sb -> layout sb st sz (length v) -> bitmap_ok sb st sz v -> room sz bs ∅ 6 ->
  icache f !! ip = Some x -> file_ok v x -> 0 <= k < MAXFILE ->
  wpx (bmap ip k) (bmap_post f bs v ip x k) out_of_blocks f.
Proof.
  intros V Hsb L B R Hx F Hk. unfold bmap. destruct (Z.ltb_spec k NDIRECT) as [Hd|Hd].
  - eapply wpx_mono; [apply (addr_alloc_spec f bs v ip x k V Hsb L B); [unfold room in *; lia|done|apply F]| |done].
    cbn beta. intros a f' [(Hz & -> & ->)|(Hz & bs' & v' & T & S & G)].
    + exists bs, v, x. rewrite <- (faddr_direct v x k Hd) in Hz |- *. split; [by apply mapped_old|].
      split; [apply istep_vstep; [done|by apply vstep_refl]|]. split; [eapply grows_sub; [apply grows_refl|set_solver]|done].
    + exists bs', v', (set_addr k a x). split; [apply mapped_direct; (done || lia)|]. split; [done|].
      split; [eapply grows_sub; [exact G|set_solver]|]. by rewrite faddr_direct.
  - cbv zeta. rewrite (proj2 (Z.ltb_lt _ _)) by (unfold MAXFILE, NDIRECT, NINDIRECT in *; lia).
    wp_step. eapply wpx_mono; [apply (addr_alloc_spec f bs v ip x NDIRECT V Hsb L B); [unfold room in *; lia|done|apply F]| |done].
    cbn beta. intros a f' [(Hz & -> & ->)|(Hz & bs' & v' & T & S & G)].
    + apply (bmap_indirect f bs v ip x k v x bs f); try done.
      * by apply prepared_old.
      * apply istep_vstep; [done|by apply vstep_refl].
      * eapply grows_sub; [apply grows_refl|set_solver].
      * unfold room in *. lia.
      * lia.
    + pose proof S as [_ V']. pose proof (vol_grows _ _ _ _ _ _ _ _ V' G) as Hlen. cbn in Hlen.
      pose proof (prepared_new v x a v' L B F T Hz) as P.
      assert (Hi : ind (set_addr NDIRECT a x) = a) by (rewrite ind_set by (apply F || unfold NDIRECT; lia); by rewrite Z.eqb_refl).
      pose proof (bmap_indirect f bs v ip x k v' _ bs' f' L Hsb Hx P S) as H. rewrite Hi in H. apply H; try done.
      * unfold room in *. lia.
      * intros Hn. rewrite faddr_indirect in Hn by lia. change (ind x = 0) in Hz. by rewrite Hz in Hn.
      * lia.
Qed.

(** A block that is there is found without a change. *)
Lemma bmap_found f bs v ip x k E :
  vol st sz f bs v ∅ -> room sz bs ∅ 1 -> icache f !! ip = Some x -> file_ok v x -> 0 <= k < MAXFILE -> faddr v x k <> 0 ->
  wpx (bmap ip k) (fun a f' => a = faddr v x k /\ vstep st sz f bs v ∅ f') E f.
Proof.
  intros V R Hx F Hk Hz. unfold bmap, addr_alloc. destruct (Z.ltb_spec k NDIRECT) as [Hd|Hd].
  - wp_step. eapply wpx_iref; [done|]. rewrite faddr_direct in Hz by done. rewrite (proj2 (Z.eqb_neq _ _) Hz).
    apply wpx_ret. rewrite faddr_direct by done. split; [done|]. by apply vstep_refl.
  - cbv zeta. rewrite (proj2 (Z.ltb_lt _ _)) by (unfold MAXFILE, NDIRECT, NINDIRECT in *; lia).
    rewrite faddr_indirect in * by done. destruct (Z.eqb_spec (ind x) 0) as [|Hi]; [done|]. destruct (fo_ind _ _ _ _ _ F Hi) as [Di _].
    wp_step. wp_step. eapply wpx_iref; [done|]. change (addr_at x NDIRECT) with (ind x). rewrite (proj2 (Z.eqb_neq _ _) Hi). wp_step.
    wp_step. eapply wpx_iref; [done|]. rewrite (fo_dev _ _ _ _ _ F). pose proof (data_range _ _ Di).
    replace (ind x) with (Z.of_nat (Z.to_nat (ind x))) at 1 by lia. set (m := Z.to_nat (ind x)) in *.
    wp_step. wp_use (fbread_spec st sz f bs v ∅ m E V (lookup_empty _)); [apply Di|unfold room in *; lia|].
    intros bp f1 [[g1 ->] V1]. rewrite insert_empty in V1. assert (Hl : ({[m := bp]} : gmap nat nat) !! m = Some bp) by apply lookup_singleton_eq.
    wp_step. wp_use (fbdata_spec _ _ _ _ _ _ m bp E V1 Hl). intros d f2 [-> ->]. wp_step.
    unfold entry in Hz |- *. fold m in Hz |- *. rewrite (proj2 (Z.eqb_neq _ _) Hz). wp_step. wp_step.
    wp_use (fbrelse_spec _ _ _ _ _ _ m bp E V1 Hl). intros _ f3 [[g3 ->] V3]. rewrite delete_singleton_eq in V3. apply wpx_ret.
    split; [done|]. split; [by exists g3|done].
Qed.

(** ** readi *)

(** The bytes of a file from [off] on. *)
Definition fbytes (v : list bytes) (x : inode) (off : Z) (n : nat) : bytes := map (fbyte v x) (zrange off n).

Lemma fbytes_app v x off n n' : fbytes v x off (n + n') = fbytes v x off n ++ fbytes v x (off + Z.of_nat n) n'.
Proof.
  unfold fbytes. rewrite <- map_app. f_equal. revert off. induction n as [|n IH]; intros off; cbn.
  - f_equal. lia.
  - f_equal. rewrite IH. do 2 f_equal. lia.
Qed.

(** A part of a file. *)
Lemma fbytes_part v x c off m : fbytes v x 0 (length c) = c -> 0 <= off -> (Z.to_nat off + m <= length c)%nat ->
  fbytes v x off m = take m (drop (Z.to_nat off) c).
Proof.
  intros H Ho Hm. replace (length c) with (Z.to_nat off + (m + (length c - Z.to_nat off - m)))%nat in H by lia.
  rewrite !fbytes_app, Z.add_0_l, Z2Nat.id in H by done. rewrite <- H at 1.
  assert (Hl : forall o k, length (fbytes v x o k) = k) by (intros o k; unfold fbytes; by rewrite length_map, length_zrange).
  by rewrite drop_app_length', take_app_length' by (by rewrite Hl).
Qed.

Lemma slice_fbytes v x off (m : nat) :
  0 <= off -> off mod 512 + Z.of_nat m <= 512 -> length (blk v (Z.to_nat (faddr v x (off / 512)))) = 512%nat ->
  slice (blk v (Z.to_nat (faddr v x (off / 512)))) (Z.to_nat (off mod 512)) m = fbytes v x off m.
Proof.
  intros Ho Hm Hl. apply list_eq_same_length with m.
  - unfold fbytes. by rewrite length_map, length_zrange.
  - apply length_slice. dlia.
  - intros i a b Hi Ha Hb. unfold fbytes in Hb. rewrite list_lookup_fmap, lookup_zrange in Hb by done.
    injection Hb as <-. unfold slice in Ha. rewrite lookup_take_lt, lookup_drop in Ha by done.
    unfold fbyte, rd8. replace ((off + Z.of_nat i) / 512) with (off / 512) by dlia.
    replace (Z.to_nat ((off + Z.of_nat i) mod 512)) with (Z.to_nat (off mod 512) + i)%nat by dlia. by rewrite Ha.
Qed.

Lemma file_block v x k :
  Forall is_blk v -> file_ok v x -> 0 <= k < MAXFILE -> faddr v x k <> 0 ->
  (Z.to_nat (faddr v x k) < length v)%nat /\ length (blk v (Z.to_nat (faddr v x k))) = 512%nat /\ 0 <= faddr v x k.
Proof.
  intros Hv F Hk Hz. destruct (fo_blk _ _ _ _ _ F k Hk Hz) as ((Hr & (Hlt & _) & _) & _). split; [done|]. split; [|lia].
  destruct (lookup_lt_is_Some_2 v _ Hlt) as [d Hd]. unfold blk. rewrite Hd. by eapply Forall_lookup_1 in Hv.
Qed.

Lemma readi_loop_spec fuel : forall f bs v ip x off tot n dst,
  vol st sz f bs v ∅ -> fsb f = sb -> layout sb st sz (length v) -> bitmap_ok sb st sz v -> room sz bs ∅ 6 ->
  icache f !! ip = Some x -> file_ok v x -> 0 <= off -> 0 <= tot <= n -> off + (n - tot) <= i_size x ->
  (0 < fuel)%nat -> (tot < n -> off mod 512 + (n - tot) <= 512 * (Z.of_nat fuel - 1)) ->
  wpx (readi_loop ip fuel off tot n dst) (fun d f' => vstep st sz f bs v ∅ f' /\
    d = dst ++ fbytes v x off (Z.to_nat (n - tot))) never f.
Proof.
  induction fuel as [|fuel IH]; intros f bs v ip x off tot n dst V Hsb L B R Hx F Ho Ht Hs Hf0 Hf; [lia|].
  cbn [readi_loop]. destruct (Z.ltb_spec tot n) as [Hlt|Hge].
  2:{ apply wpx_ret. split; [by apply vstep_refl|]. replace (n - tot) with 0 by lia. by rewrite app_nil_r. }
  specialize (Hf Hlt). change (Z.of_nat BSIZE) with 512. set (k := off / 512). set (m := Z.min (n - tot) (512 - off mod 512)).
  pose proof (fo_size _ _ _ _ _ F) as Hsize. assert (HM : MAXFILE * 512 = 71680) by done.
  assert (Hk : 0 <= k < MAXFILE) by (unfold k; change MAXFILE with 140 in *; dlia).
  assert (Hz : faddr v x k <> 0) by (apply F; unfold k; dlia).
  destruct (file_block v x k (vol_blks _ _ _ _ _ _ V) F Hk Hz) as (Hlt2 & Hlen & Hpos).
  wp_step. eapply wpx_iref; [done|]. wp_step. wp_use (bmap_found f bs v ip x k _ V); [unfold room in *; lia|done..|].
  intros a f1 [-> [[g1 ->] V1]]. rewrite (fo_dev _ _ _ _ _ F). set (a := faddr v x k) in *.
  replace a with (Z.of_nat (Z.to_nat a)) by lia.
  eapply (fbget_spec st sz _ bs v ∅ (Z.to_nat a)); [exact V1|done|done|unfold room in *; lia|].
  intros f2 [[g2 ->] V2]. cbv zeta. cbn [set_lg] in V2.
  assert (Hm : 0 < m /\ off mod 512 + m <= 512 /\ m <= n - tot) by (unfold m; dlia).
  eapply wpx_mono; [apply (IH _ bs v ip x); try done; try lia| |done].
  { dlia. }
  { intros H. unfold m in *. destruct (Z.min_spec (n - tot) (512 - off mod 512)) as [[? E]|[? E]]; rewrite E in *; dlia. }
  intros d f3 [[[g3 ->] V3] ->]. split; [split; [by exists g3|done]|].
  replace (Z.to_nat (n - tot)) with (Z.to_nat m + Z.to_nat (n - (tot + m)))%nat by lia.
  rewrite fbytes_app, <- app_assoc. rewrite <- (slice_fbytes v x off (Z.to_nat m)) by (done || lia).
  rewrite Z2Nat.id by lia. done.
Qed.

Section readi.
Context `{DevSw}.

(** [readi] of a file: what lies outside is refused, the rest is returned up
    to the end of the file. *)
Lemma readi_spec f bs v ip x off n :
  vol st sz f bs v ∅ -> fsb f = sb -> layout sb st sz (length v) -> bitmap_ok sb st sz v -> room sz bs ∅ 6 ->
  icache f !! ip = Some x -> file_ok v x -> i_type x <> T_DEV -> is_u32 off -> is_u32 n ->
  wp (readi ip off n) (fun r f' =>
    vstep st sz f bs v ∅ f' /\
    r = if decide (off <= i_size x /\ off + n < 4294967296)
        then (Z.min n (i_size x - off), fbytes v x off (Z.to_nat (Z.min n (i_size x - off))))
        else (-1, [])) f.
Proof.
  intros V Hsb L B R Hx F Ht Ho Hn. unfold readi. wp_step. eapply wpx_iref; [done|]. rewrite (proj2 (Z.eqb_neq _ _) Ht).
  unfold is_u32 in *. case_decide as Hd.
  - rewrite (proj2 (Z.ltb_ge (i_size x) off)) by lia. rewrite u32_small by (unfold is_u32; lia).
    rewrite (proj2 (Z.ltb_ge (off + n) off)) by lia. cbn [orb].
    set (n' := if i_size x <? off + n then i_size x - off else n).
    assert (En : n' = Z.min n (i_size x - off)) by (unfold n'; destruct (Z.ltb_spec (i_size x) (off + n)); lia).
    cbv zeta. wp_step. eapply wpx_mono; [apply (readi_loop_spec _ f bs v ip x); try done; try lia| |done].
    + unfold turns. lia.
    + intros _. unfold turns. change (Z.of_nat BSIZE) with 512. dlia.
    + intros d f' [S ->]. wp_step. split; [done|]. rewrite <- En, Z.sub_0_r. done.
  - assert (Hg : (i_size x <? off) || (u32 (off + n) <? off) = true).
    { apply orb_true_iff. destruct (Z_lt_ge_dec (i_size x) off); [left; by apply Z.ltb_lt|right]. apply Z.ltb_lt. unfold u32. dlia. }
    rewrite Hg. wp_step. split; [by apply vstep_refl|done].
Qed.

End readi.

End bmap.
