(* ===== verification/FsWrite.v ===== *)
(** * Writing files and inodes (src/fs.c: writei, iupdate, ilock)

    [writei] changes exactly the bytes written and extends the file, and keeps
    the inode on the disk in step with the one in memory; [iupdate] followed by
    reading the inode gives it back. *)

From S2P Require Import Prelude.
From S2P Require Import Bytes.
From S2P Require Import Sleeplock.
From S2P Require Import Bio.
From S2P Require Import Log.
From S2P Require Import LogSpec.
From S2P Require Import LogTheorems.
From S2P Require Import Path.
From S2P Require Import Fs.
From S2P Require Import FsBlock.
From S2P Require Import FsFile.

Open Scope Z_scope.

Section write.
Context (sb : superblock) (st sz : nat).
Abbreviation file_ok := (file_ok sb st sz).
Abbreviation mapped := (mapped sb st sz).

(** A block that is neither the file's nor free. *)
Definition foreign (v : list bytes) (x : inode) (b : Z) : Prop :=
  is_data sb st sz (length v) b /\ used sb v b = true /\ b <> ind x /\ forall j, 0 <= j < MAXFILE -> faddr v x j <> b.

(** The bytes [data] have been written at [off]: they are there, the other
    bytes of the file are as before, and so is every block that is not the
    file's. *)
Record wrote (v : list bytes) (x : inode) (off : Z) (data : bytes) (v' : list bytes) (x' : inode) : Prop := {
  wr_ok : file_ok v' x';
  wr_bitmap : bitmap_ok sb st sz v';
  wr_len : length v' = length v;
  wr_inode : exists l, x' = set_iaddrs l x;
  wr_new : forall i c, data !! i = Some c -> fbyte v' x' (off + Z.of_nat i) = c;
  wr_old : forall o, 0 <= o < MAXFILE * 512 -> (o < off \/ off + Z.of_nat (length data) <= o) -> faddr v x (o / 512) <> 0 ->
    fbyte v' x' o = fbyte v x o;
  wr_addr : forall j, 0 <= j < MAXFILE -> faddr v x j <> 0 -> faddr v' x' j = faddr v x j;
  wr_alloc : forall o, off <= o < off + Z.of_nat (length data) -> faddr v' x' (o / 512) <> 0;
  wr_foreign : forall b, foreign v x b -> foreign v' x' b /\ v' !! Z.to_nat b = v !! Z.to_nat b;
  wr_inodes : forall i, 0 <= i < sb_ninodes sb -> v' !! ib sb i = v !! ib sb i;
  wr_same : (forall o, off <= o < off + Z.of_nat (length data) -> faddr v x (o / 512) <> 0) -> x' = x;
}.

(** * Lemmas *)

Lemma wrote_nil v x off : bitmap_ok sb st sz v -> file_ok v x -> wrote v x off [] v x.
Proof.
  intros B F. split; try done.
  - exists (i_addrs x). by destruct x.
  - cbn. intros j Hj. lia.
Qed.

Lemma wrote_app v x off d1 v1 x1 d2 v2 x2 :
  0 <= off -> off + Z.of_nat (length (d1 ++ d2)) <= MAXFILE * 512 ->
  wrote v x off d1 v1 x1 -> wrote v1 x1 (off + Z.of_nat (length d1)) d2 v2 x2 -> wrote v x off (d1 ++ d2) v2 x2.
Proof.
  rewrite length_app. intros Ho Hm W1 W2. change (MAXFILE * 512) with 71680 in Hm.
  assert (Hblock : forall o, 0 <= o < 71680 -> 0 <= o / 512 < MAXFILE) by (intros o Ho'; change MAXFILE with 140; dlia).
  split; try apply W2.
  - by rewrite (wr_len _ _ _ _ _ _ W2), (wr_len _ _ _ _ _ _ W1).
  - destruct (wr_inode _ _ _ _ _ _ W1) as [l1 ->], (wr_inode _ _ _ _ _ _ W2) as [l2 ->]. by exists l2.
  - intros i c Hc. apply lookup_app_Some in Hc as [Hc|[Hi Hc]].
    + pose proof (lookup_lt_Some _ _ _ Hc). rewrite <- (wr_new _ _ _ _ _ _ W1 i c Hc). apply (wr_old _ _ _ _ _ _ W2); [change (MAXFILE * 512) with 71680; lia|left; lia|].
      apply (wr_alloc _ _ _ _ _ _ W1). lia.
    + rewrite <- (wr_new _ _ _ _ _ _ W2 _ c Hc). f_equal. lia.
  - rewrite length_app. intros o Hr Hout Hz. change (MAXFILE * 512) with 71680 in Hr.
    rewrite (wr_old _ _ _ _ _ _ W2 o), (wr_old _ _ _ _ _ _ W1 o); try done; try lia.
    rewrite (wr_addr _ _ _ _ _ _ W1); [done|by apply Hblock|done].
  - intros j Hj Hz. rewrite (wr_addr _ _ _ _ _ _ W2 j Hj), (wr_addr _ _ _ _ _ _ W1 j Hj Hz); [done|].
    by rewrite (wr_addr _ _ _ _ _ _ W1 j Hj Hz).
  - rewrite length_app. intros o Hr. destruct (Z_lt_ge_dec o (off + Z.of_nat (length d1))) as [Hl|Hl]; [|apply (wr_alloc _ _ _ _ _ _ W2); lia].
    rewrite (wr_addr _ _ _ _ _ _ W2); [|apply Hblock; lia|]; apply (wr_alloc _ _ _ _ _ _ W1); lia.
  - intros b Hb. destruct (wr_foreign _ _ _ _ _ _ W1 b Hb) as [Hb1 E1]. destruct (wr_foreign _ _ _ _ _ _ W2 b Hb1) as [Hb2 E2].
    split; [done|congruence].
  - intros i Hi. rewrite (wr_inodes _ _ _ _ _ _ W2 i Hi). by apply (wr_inodes _ _ _ _ _ _ W1).
  - rewrite length_app. intros Hall. assert (x1 = x) as -> by (apply (wr_same _ _ _ _ _ _ W1); intros o Hr; apply Hall; lia).
    apply (wr_same _ _ _ _ _ _ W2).
    intros o Hr. rewrite (wr_addr _ _ _ _ _ _ W1); [apply Hall; lia|apply Hblock; lia|apply Hall; lia].
Qed.

(** Changing a data block other than the indirect block. *)
Lemma faddr_data v x a d j :
  file_ok v x -> is_data sb st sz (length v) a -> a <> ind x -> faddr (<[Z.to_nat a := d]> v) x j = faddr v x j.
Proof.
  intros F D Hne. apply faddr_ext. intros Hi. apply list_lookup_insert_ne. intros E.
  destruct (fo_ind _ _ _ _ _ F Hi) as [Di _]. by apply Hne, (data_nat sb st sz (length v)).
Qed.

Lemma file_ok_data v x a d :
  file_ok v x -> is_data sb st sz (length v) a -> a <> ind x -> file_ok (<[Z.to_nat a := d]> v) x.
Proof.
  intros F D Hne. pose proof (fun j => faddr_data v x a d j F D Hne) as Ef.
  assert (Eu : forall b, is_data sb st sz (length v) b -> used sb (<[Z.to_nat a := d]> v) b = used sb v b).
  { intros b Db. apply (used_data sb st sz v a d b (length v)); [done|by eapply data_range]. }
  destruct F as [F1 F2 F3 F4 F5 F6 F7]. split; try done; rewrite ?length_insert.
  - intros Hi. destruct (F3 Hi) as [Di Ui]. by rewrite Eu.
  - intros k Hk. rewrite Ef. intros Hz. destruct (F4 k Hk Hz) as (Dk & Uk & Nk). by rewrite Eu.
  - intros j k Hj Hk. rewrite !Ef. by apply F5.
  - intros k Hk Hs. rewrite Ef. by apply F7.
Qed.

Lemma mapped_foreign v x k a v' x' b : file_ok v x -> mapped v x k a v' x' -> 0 <= k < MAXFILE -> foreign v x b -> foreign v' x' b.
Proof.
  intros F Mp Hk (D & U & Ni & Nb). split; [by rewrite (mp_len _ _ _ _ _ _ _ _ _ Mp)|].
  split; [apply Mp; [by eapply data_range|done]|]. split.
  - intros ->. destruct (mp_ind _ _ _ _ _ _ _ _ _ Mp) as [E|[_ E]]; congruence.
  - intros j Hj. destruct (decide (j = k)) as [->|Hne].
    + rewrite (mp_addr _ _ _ _ _ _ _ _ _ Mp). intros ->. destruct (decide (faddr v x k = 0)) as [Hz|Hz].
      * pose proof (mp_free _ _ _ _ _ _ _ _ _ Mp Hz). congruence.
      * apply (Nb k Hk). by rewrite <- (mp_old _ _ _ _ _ _ _ _ _ Mp Hz).
    + rewrite (mp_others _ _ _ _ _ _ _ _ _ Mp) by done. by apply Nb.
Qed.

Lemma wrote_block v x off chunk a v1 x1 :
  Forall is_blk v1 -> file_ok v x -> 0 <= off -> (0 < length chunk)%nat -> off mod 512 + Z.of_nat (length chunk) <= 512 ->
  off + Z.of_nat (length chunk) <= MAXFILE * 512 -> mapped v x (off / 512) a v1 x1 -> (faddr v x (off / 512) <> 0 -> x1 = x) ->
  wrote v x off chunk (<[Z.to_nat a := splice (blk v1 (Z.to_nat a)) (Z.to_nat (off mod 512)) chunk]> v1) x1.
Proof.
  intros Hv F Ho Hc0 Hc Hm Mp Hsame. set (k := off / 512) in *. change (MAXFILE * 512) with 71680 in Hm.
  assert (Hk : 0 <= k < MAXFILE) by (unfold k; change MAXFILE with 140; dlia).
  pose proof (mp_ok _ _ _ _ _ _ _ _ _ Mp) as F1. pose proof (mp_addr _ _ _ _ _ _ _ _ _ Mp) as Ea.
  pose proof (mp_nz _ _ _ _ _ _ _ _ _ Mp) as Hz. pose proof (mp_len _ _ _ _ _ _ _ _ _ Mp) as Hl.
  destruct (fo_blk _ _ _ _ _ F1 k Hk) as (D & U & N); [by rewrite Ea|]. rewrite Ea in D, U, N.
  destruct (file_block sb st sz v1 x1 k Hv F1 Hk) as (Hlt & Hlen & _); [by rewrite Ea|]. rewrite Ea in Hlt, Hlen.
  set (d := splice _ _ _). pose proof (fun j => faddr_data v1 x1 a d j F1 D N) as Ef.
  assert (Hin : forall o, off <= o < off + Z.of_nat (length chunk) -> o / 512 = k /\ o mod 512 = off mod 512 + (o - off)).
  { intros o Hr. unfold k. dlia. }
  split.
  - by apply file_ok_data.
  - eapply bitmap_data; [exact D|apply Mp].
  - by rewrite length_insert.
  - apply Mp.
  - intros i c Hi. pose proof (lookup_lt_Some _ _ _ Hi) as Hil. destruct (Hin (off + Z.of_nat i)) as [E1 E2]; [lia|].
    unfold fbyte. rewrite Ef, E1, Ea, blk_insert by done. unfold d.
    replace (Z.to_nat ((off + Z.of_nat i) mod 512)) with (Z.to_nat (off mod 512) + i)%nat by (pose proof (Z.mod_pos_bound off 512); lia).
    apply rd8_splice_in; [rewrite Hlen; pose proof (Z.mod_pos_bound off 512); lia|done].
  - intros o Hr Hout Hoz. change (MAXFILE * 512) with 71680 in Hr.
    assert (Hko : 0 <= o / 512 < MAXFILE) by (change MAXFILE with 140; dlia).
    assert (Hblk : forall j, 0 <= j < MAXFILE -> faddr v x j <> 0 -> v1 !! Z.to_nat (faddr v x j) = v !! Z.to_nat (faddr v x j)).
    { intros j Hj Hjz. destruct (fo_blk _ _ _ _ _ F j Hj Hjz) as (Dj & Uj & Nj). by apply (mp_data _ _ _ _ _ _ _ _ _ Mp). }
    unfold fbyte. rewrite Ef. destruct (decide (o / 512 = k)) as [E|E].
    + rewrite E in *. rewrite Ea, blk_insert by done. unfold d.
      rewrite rd8_splice_out by (unfold k in *; destruct Hout; [left|right]; dlia).
      rewrite (mp_old _ _ _ _ _ _ _ _ _ Mp Hoz). unfold blk. by rewrite Hblk.
    + rewrite (mp_others _ _ _ _ _ _ _ _ _ Mp) by done. rewrite blk_insert_ne.
      * unfold blk. by rewrite Hblk.
      * intros E2. destruct (fo_blk _ _ _ _ _ F _ Hko Hoz) as (Dj & _). rewrite <- Hl in Dj.
        apply (data_nat sb st sz (length v1)) in E2; [|done..]. apply E, (fo_inj _ _ _ _ _ F1); [done..| |].
        -- by rewrite (mp_others _ _ _ _ _ _ _ _ _ Mp).
        -- rewrite (mp_others _ _ _ _ _ _ _ _ _ Mp) by done. congruence.
  - intros j Hj Hjz. rewrite Ef. destruct (decide (j = k)) as [->|Hne].
    + rewrite Ea. by apply (mp_old _ _ _ _ _ _ _ _ _ Mp).
    + by apply (mp_others _ _ _ _ _ _ _ _ _ Mp).
  - intros o Hr. destruct (Hin o Hr) as [E _]. rewrite Ef, E, Ea. done.
  - intros b Hb. destruct (mapped_foreign v x k a v1 x1 b F Mp Hk Hb) as (Db & Ub & Nb & Nj).
    assert (Hba : b <> a) by (intros ->; by apply (Nj k Hk)). split.
    + split; [by rewrite length_insert|]. split; [by rewrite (used_data sb st sz v1 a d b (length v1)) by (done || by eapply data_range)|].
      split; [done|]. intros j Hj. rewrite Ef. by apply Nj.
    + rewrite list_lookup_insert_ne; [apply (mp_data _ _ _ _ _ _ _ _ _ Mp); apply Hb|]. intros E. by apply Hba, (data_nat sb st sz (length v1)).
  - intros i Hi. rewrite list_lookup_insert_ne; [by apply (mp_inodes _ _ _ _ _ _ _ _ _ Mp)|]. intros E. symmetry in E. revert E. by apply D.
  - intros Hall. apply Hsame. apply (Hall off). lia.
Qed.

(** ** writei *)

(** What one turn may log: the data block [a], its bitmap block and the
    indirect block with its bitmap block. *)
Definition turn_blocks (x : inode) (a : Z) : list nat := [bb sb a; Z.to_nat a] ++ ind_blocks sb x.

Lemma length_turn x a : (length (turn_blocks x a) <= 4)%nat.
Proof. unfold turn_blocks, ind_blocks. destruct (ind x =? 0); cbn; lia. Qed.

(** One turn of the loop. *)
Lemma writei_turn {A} f bs v ip x off tot m src (c : M fsys A) Q :
  vol st sz f bs v ∅ -> fsb f = sb -> layout sb st sz (length v) -> bitmap_ok sb st sz v -> room sz bs ∅ 6 ->
  icache f !! ip = Some x -> file_ok v x -> 0 <= off -> 0 <= tot -> 0 < m -> off mod 512 + m <= 512 ->
  off + m <= MAXFILE * 512 -> tot + m <= Z.of_nat (length src) ->
  (forall f' bs' v' x' a, wrote v x off (slice src (Z.to_nat tot) (Z.to_nat m)) v' x' -> istep st sz f ip x' bs' v' f' ->
     grows bs (turn_blocks x' a) bs' -> is_data sb st sz (length v) a -> (ind x <> 0 -> ind x' = ind x) -> wpx c Q out_of_blocks f') ->
  wpx (let! x := iref ip in
       let! a := bmap ip (off / Z.of_nat BSIZE) in
       let! bp := fbread (i_dev x) a in
       let! d := fbdata bp in
       let chunk := slice src (Z.to_nat tot) (Z.to_nat m) in
       if (length chunk <? Z.to_nat m)%nat then fault "writei: src"
       else
         do! fbset bp (splice d (Z.to_nat (off mod Z.of_nat BSIZE)) chunk) in
         do! flog_write bp in
         do! fbrelse bp in
         c) Q out_of_blocks f.
Proof.
  intros V Hsb L B R Hx F Ho Ht Hm Hom Hmax Hsrc HQ. change (Z.of_nat BSIZE) with 512. change (MAXFILE * 512) with 71680 in Hmax.
  assert (Hk : 0 <= off / 512 < MAXFILE) by (change MAXFILE with 140; dlia).
  wp_step. eapply wpx_iref; [done|]. wp_step. wp_use (bmap_spec sb st sz f bs v ip x (off / 512) V Hsb L B R Hx F Hk).
  intros a f1 (bs1 & v1 & x1 & Mp & S1 & G1 & Hsame). pose proof S1 as [_ V1]. rewrite (fo_dev _ _ _ _ _ F).
  pose proof (mp_ok _ _ _ _ _ _ _ _ _ Mp) as F1. destruct (fo_blk _ _ _ _ _ F1 (off / 512) Hk) as (D & U & N).
  { rewrite (mp_addr _ _ _ _ _ _ _ _ _ Mp). apply Mp. }
  rewrite (mp_addr _ _ _ _ _ _ _ _ _ Mp) in D, U, N. pose proof (data_range _ _ _ _ _ D) as Har.
  pose proof (vol_grows _ _ _ _ _ _ _ _ V1 G1) as Hlen. pose proof (length_turn x1 a) as Hlt4. fold (turn_blocks x1 a) in Hlen.
  set (ma := Z.to_nat a) in *. replace a with (Z.of_nat ma) by (unfold ma; lia).
  wp_step. wp_use (fbread_spec st sz f1 bs1 v1 ∅ ma out_of_blocks V1 (lookup_empty _)); [apply D|unfold room in *; lia|].
  intros bp f2 S2. rewrite insert_empty in S2. pose proof S2 as [[g2 E2] V2].
  assert (Hl : ({[ma := bp]} : gmap nat nat) !! ma = Some bp) by apply lookup_singleton_eq.
  wp_step. wp_use (fbdata_spec _ _ _ _ _ _ ma bp out_of_blocks V2 Hl). intros d f3 [-> ->]. cbv zeta.
  set (chunk := slice src (Z.to_nat tot) (Z.to_nat m)) in *.
  assert (Hch : length chunk = Z.to_nat m) by (apply length_slice; lia). rewrite Hch, Nat.ltb_irrefl.
  eapply (fbput_spec _ _ _ _ _ _ ma); [exact V2|exact Hl| |apply D| |].
  { unfold is_blk. rewrite length_splice. apply (vol_blk _ _ _ _ _ _ _ V2). apply D. }
  { unfold room in *. rewrite map_size_singleton. rewrite map_size_empty in R. lia. }
  intros f4 S4. pose proof S4 as [[g4 E4] V4]. wp_step. wp_use (fbrelse_spec _ _ _ _ _ _ ma bp out_of_blocks V4 Hl).
  intros _ f5 S5. rewrite delete_singleton_eq in S5. apply (HQ _ (add_block bs1 ma) (<[ma := splice (blk v1 ma) (Z.to_nat (off mod 512)) chunk]> v1) x1 a).
  - apply wrote_block; try done; [apply (vol_blks _ _ _ _ _ _ V1)|lia|lia|change (MAXFILE * 512) with 71680; lia|]. intros Hz. by apply Hsame.
  - eapply istep_trans; [exact S1|]. apply istep_vstep; [by apply (istep_inode st sz f ip x1 bs1 v1 f1); [eapply lookup_lt_Some|]|].
    eapply vstep_trans; [exact S2|]. by eapply vstep_trans.
  - eapply grows_sub; [eapply grows_trans; [exact G1|apply grows_add]|]. unfold turn_blocks, ma. set_solver.
  - by rewrite <- (mp_len _ _ _ _ _ _ _ _ _ Mp).
  - intros Hi. by destruct (mp_ind _ _ _ _ _ _ _ _ _ Mp) as [E|[E _]].
Qed.

(** On a disk with one bitmap block, what a write may log: the bitmap, the
    indirect block and the data blocks [T]. *)
Definition write_blocks (x : inode) (T : list nat) : list nat :=
  bb sb 0 :: (if ind x =? 0 then [] else [Z.to_nat (ind x)]) ++ T.

Lemma bb_one b : sb_size sb <= BPB -> 0 <= b < sb_size sb -> bb sb b = bb sb 0.
Proof. intros H Hb. unfold bb, BPB in *. do 2 f_equal. dlia. Qed.

Lemma length_write x T : (length (write_blocks x T) <= 2 + length T)%nat.
Proof. unfold write_blocks. destruct (ind x =? 0); cbn; lia. Qed.

Lemma turn_write x x' a T bs0 bs bs' (v : list bytes) :
  sb_size sb <= BPB -> is_data sb st sz (length v) a -> (ind x' <> 0 -> is_data sb st sz (length v) (ind x')) -> (ind x <> 0 -> ind x' = ind x) ->
  grows bs0 (write_blocks x T) bs -> grows bs (turn_blocks x' a) bs' -> grows bs0 (write_blocks x' (Z.to_nat a :: T)) bs'.
Proof.
  intros Hone Da Di Hi G G' m Hm. destruct (G' m Hm) as [Hb|Hb].
  - destruct (G m Hb) as [|Hb']; [by left|right]. unfold write_blocks in *. destruct (Z.eqb_spec (ind x) 0) as [E|E]; [set_solver|].
    rewrite (Hi E), (proj2 (Z.eqb_neq _ _) E). set_solver.
  - right. unfold turn_blocks, ind_blocks, write_blocks in *. rewrite (bb_one a Hone) in Hb by (by eapply data_range).
    destruct (Z.eqb_spec (ind x') 0) as [E|E]; [set_solver|]. rewrite (bb_one (ind x') Hone) in Hb by (eapply data_range; by apply Di). set_solver.
Qed.

Section loop.
Context `{DevSw}.

Lemma writei_loop_spec (Hone : sb_size sb <= BPB) ip src n bs0 : forall fuel J T f bs v x off tot,
  vol st sz f bs v ∅ -> fsb f = sb -> layout sb st sz (length v) -> bitmap_ok sb st sz v ->
  icache f !! ip = Some x -> file_ok v x -> 0 <= off -> 0 <= tot <= n -> n <= Z.of_nat (length src) ->
  off + (n - tot) <= MAXFILE * 512 -> (J < fuel)%nat -> (tot < n -> off mod 512 + (n - tot) <= 512 * Z.of_nat J) ->
  grows bs0 (write_blocks x T) bs -> room sz bs0 ∅ (length T + J + 8) ->
  wpx (writei_loop ip fuel src off tot n) (fun r f' => r = off + (n - tot) /\ exists bs' v' x' T',
      wrote v x off (slice src (Z.to_nat tot) (Z.to_nat (n - tot))) v' x' /\ istep st sz f ip x' bs' v' f' /\
      grows bs0 (write_blocks x' T') bs' /\ (length T' <= length T + J)%nat) out_of_blocks f.
Proof.
  induction fuel as [|fuel IH]; intros J T f bs v x off tot V Hsb L B Hx F Ho Ht Hsrc Hmax HJ Hturns G R; [lia|].
  cbn [writei_loop]. destruct (Z.ltb_spec tot n) as [Hlt|Hge].
  2:{ apply wpx_ret. split; [lia|]. exists bs, v, x, T. replace (n - tot) with 0 by lia. split; [by apply wrote_nil|].
      split; [apply istep_vstep; [done|by apply vstep_refl]|]. split; [done|lia]. }
  specialize (Hturns Hlt). set (m := Z.min (n - tot) (Z.of_nat BSIZE - off mod Z.of_nat BSIZE)). change (Z.of_nat BSIZE) with 512 in m.
  assert (Hm : 0 < m /\ off mod 512 + m <= 512 /\ m <= n - tot) by (unfold m; dlia).
  pose proof (vol_grows _ _ _ _ _ _ _ _ V G) as Hlen. pose proof (length_write x T) as HlenT.
  destruct J as [|J]; [pose proof (Z.mod_pos_bound off 512); lia|].
  apply (writei_turn f bs v ip x off tot m src); try done; try lia; [unfold room in *; lia|].
  intros f' bs' v' x' a W S G' Da Hi. pose proof S as [_ V']. pose proof (wr_len _ _ _ _ _ _ W) as Hl.
  destruct (istep_inode st sz f ip x' bs' v' f') as [Hx' Hsb']; [by eapply lookup_lt_Some|done|].
  assert (G2 : grows bs0 (write_blocks x' (Z.to_nat a :: T)) bs').
  { apply (turn_write x x' a T bs0 bs bs' v); try done. intros E. rewrite <- Hl. by apply (fo_ind _ _ _ _ _ (wr_ok _ _ _ _ _ _ W)). }
  eapply wpx_mono; [apply (IH J (Z.to_nat a :: T) f' bs' v' x')| |done]; try done; try lia.
  - congruence.
  - by rewrite Hl.
  - apply W.
  - apply W.
  - intros Hlt'. unfold m in *. destruct (Z.min_spec (n - tot) (512 - off mod 512)) as [[? E]|[? E]]; rewrite E in *; dlia.
  - unfold room in *. cbn [length]. lia.
  - cbn beta. intros r f2 (-> & bs2 & v2 & x2 & T2 & W2 & S2 & G3 & HT2). split; [lia|].
    exists bs2, v2, x2, T2. split; [|split; [by eapply istep_trans|split; [done|cbn in *; lia]]].
    assert (Hc : length (slice src (Z.to_nat tot) (Z.to_nat m)) = Z.to_nat m) by (apply length_slice; lia).
    replace (slice src (Z.to_nat tot) (Z.to_nat (n - tot))) with
      (slice src (Z.to_nat tot) (Z.to_nat m) ++ slice src (Z.to_nat (tot + m)) (Z.to_nat (n - (tot + m)))).
    + eapply wrote_app; [done| |exact W|].
      * rewrite length_app, !length_slice by lia. lia.
      * rewrite Hc, Z2Nat.id by lia. done.
    + unfold slice. rewrite Z2Nat.inj_add, <- drop_drop by lia. rewrite take_take_drop. f_equal. lia.
Qed.

End loop.

(** ** Inodes on the disk *)

(** A C [short]. *)
Definition is_s16 (x : Z) : Prop := -32768 <= x < 32768.

Lemma s16_mod x : is_s16 x -> s16 (x mod 65536) = x.
Proof. unfold is_s16, s16. intros H. dlia. Qed.

Lemma rd16_wr16 d o x : (o + 2 <= length d)%nat -> rd16 (wr16 d o x) o = x mod 65536.
Proof.
  intros Hl. unfold rd16, wr16, le16.
  rewrite rd8_splice_hd, (rd8_splice_in _ _ _ 1 ((x / 256) mod 256)) by (done || simpl; lia). dlia.
Qed.

Lemma length_put_addrs l : forall d o, length (put_addrs d o l) = length d.
Proof. induction l as [|a l IH]; intros d o; cbn [put_addrs]; [done|]. by rewrite IH, length_wr32. Qed.

Lemma rd8_put_addrs l : forall d o j, (j < o \/ o + 4 * length l <= j)%nat -> rd8 (put_addrs d o l) j = rd8 d j.
Proof.
  induction l as [|a l IH]; intros d o j Hj; cbn [put_addrs]; [done|]. cbn [length] in Hj. rewrite IH by lia.
  unfold wr32. apply rd8_splice_out. rewrite length_le32. lia.
Qed.

Lemma rd32_put_addrs l d o j : (j + 4 <= o \/ o + 4 * length l <= j)%nat -> rd32 (put_addrs d o l) j = rd32 d j.
Proof. intros Hj. unfold rd32, rd16. rewrite !rd8_put_addrs by lia. done. Qed.

Lemma rd16_put_addrs l d o j : (j + 2 <= o \/ o + 4 * length l <= j)%nat -> rd16 (put_addrs d o l) j = rd16 d j.
Proof. intros Hj. unfold rd16. rewrite !rd8_put_addrs by lia. done. Qed.

Lemma get_put_addrs l : forall d o, (o + 4 * length l <= length d)%nat -> Forall is_u32 l -> get_addrs (put_addrs d o l) o (length l) = l.
Proof.
  induction l as [|a l IH]; intros d o Hl Hu; cbn [length get_addrs put_addrs]; [done|]. cbn [length] in Hl.
  apply Forall_cons in Hu as [Ha Hu]. f_equal.
  - rewrite rd32_put_addrs by lia. apply rd32_wr32_eq; [lia|done].
  - apply IH; [rewrite length_wr32; lia|done].
Qed.

(** The fields of an inode fit their C types. *)
Record inode_range (x : inode) : Prop := {
  ir_type : is_s16 (i_type x);
  ir_major : is_s16 (i_major x);
  ir_minor : is_s16 (i_minor x);
  ir_nlink : is_s16 (i_nlink x);
  ir_size : is_u32 (i_size x);
  ir_addrs : length (i_addrs x) = 13%nat /\ Forall is_u32 (i_addrs x);
}.

Lemma get_put_dinode d o x : (o + 64 <= length d)%nat -> inode_range x -> get_dinode (put_dinode d o x) o x = x.
Proof.
  intros Hl [R1 R2 R3 R4 R5 [R6 R7]]. unfold get_dinode, put_dinode.
  set (d5 := wr32 _ (o + 8) _). assert (Hd5 : length d5 = length d) by (unfold d5; by rewrite length_wr32, !length_wr16).
  rewrite <- R6, get_put_addrs by (done || (rewrite R6, Hd5; lia)).
  rewrite !rd16_put_addrs, rd32_put_addrs by lia. subst d5. unfold wr32 at 1 2 3 4.
  rewrite !rd16_splice_out by (rewrite length_le32; lia).
  rewrite rd32_wr32_eq by (done || (rewrite !length_wr16; lia)).
  assert (Hne : forall d a b y, (a + 2 <= b \/ b + 2 <= a)%nat -> rd16 (wr16 d b y) a = rd16 d a).
  { intros d' a b y H. unfold wr16. apply rd16_splice_out. cbn. lia. }
  rewrite !Hne by lia. repeat (rewrite rd16_wr16 by (rewrite ?length_wr16; lia); rewrite ?Hne by lia).
  rewrite !s16_mod by done. by destruct x.
Qed.

Lemma length_put_dinode d o x : length (put_dinode d o x) = length d.
Proof. unfold put_dinode. by rewrite length_put_addrs, length_wr32, !length_wr16. Qed.

(** The inode on the disk is that in memory. *)
Definition synced (v : list bytes) (x : inode) : Prop :=
  get_dinode (blk v (ib sb (i_inum x))) (dinode_off (i_inum x)) x = x.

(** A byte of an inode on the disk. *)
Definition dinode_byte (v : list bytes) (i : Z) (j : nat) : Z := rd8 (blk v (ib sb i)) (dinode_off i + j).

Lemma rd8_put_dinode d o x j : length (i_addrs x) = 13%nat -> (j < o \/ o + 64 <= j)%nat -> rd8 (put_dinode d o x) j = rd8 d j.
Proof.
  intros Hl Hj. unfold put_dinode. rewrite rd8_put_addrs by (rewrite Hl; lia). unfold wr32, wr16.
  rewrite !rd8_splice_out by (rewrite ?length_le32; cbn; lia). done.
Qed.

Lemma IBLOCK_eq n i : layout sb st sz n -> 0 <= i < sb_ninodes sb -> IBLOCK i sb = Z.of_nat (ib sb i).
Proof.
  intros L Hi. destruct (ly_inode _ _ _ _ L i Hi) as [H _]. pose proof (ly_n _ _ _ _ L). destruct (ly_start _ _ _ _ L) as [_ Hs].
  assert (0 <= i / IPB) by (unfold IPB; dlia). unfold IBLOCK, ib in *. rewrite u32_small by (unfold is_u32; lia). lia.
Qed.

Lemma dinode_off_le i : 0 <= i -> (dinode_off i + 64 <= BSIZE)%nat.
Proof. intros Hi. unfold dinode_off, IPB, DINODE, BSIZE. dlia. Qed.

Lemma dinode_apart i j : 0 <= i -> 0 <= j -> 0 <= sb_inodestart sb -> i <> j -> ib sb i = ib sb j ->
  (dinode_off j + 64 <= dinode_off i \/ dinode_off i + 64 <= dinode_off j)%nat.
Proof. intros Hi Hj Hs Hne E. unfold ib, dinode_off, IPB, DINODE in *. dlia. Qed.

Lemma dinode_other n v x i j :
  layout sb st sz n -> length (i_addrs x) = 13%nat -> 0 <= i_inum x -> 0 <= i -> i <> i_inum x -> (j < 64)%nat ->
  (ib sb (i_inum x) < length v)%nat ->
  dinode_byte (<[ib sb (i_inum x) := put_dinode (blk v (ib sb (i_inum x))) (dinode_off (i_inum x)) x]> v) i j = dinode_byte v i j.
Proof.
  intros L Ha Hx Hi Hne Hj Hlt. unfold dinode_byte. destruct (decide (ib sb i = ib sb (i_inum x))) as [E|E].
  - rewrite E, blk_insert by done. apply rd8_put_dinode; [done|].
    destruct (dinode_apart i (i_inum x)); try done; try lia. apply (ly_start _ _ _ _ L).
  - by rewrite blk_insert_ne.
Qed.

Lemma iupdate_spec f bs v ip x E :
  vol st sz f bs v ∅ -> fsb f = sb -> layout sb st sz (length v) -> room sz bs ∅ 1 -> icache f !! ip = Some x ->
  i_dev x = 1 -> 0 <= i_inum x < sb_ninodes sb ->
  let m := ib sb (i_inum x) in
  wpx (iupdate ip) (fun _ => vstep st sz f (add_block bs m) (<[m := put_dinode (blk v m) (dinode_off (i_inum x)) x]> v) ∅) E f.
Proof.
  intros V Hsb L R Hx Hd Hi m. unfold iupdate. wp_step. eapply wpx_iref; [done|]. wp_step. wp_step. rewrite Hsb, Hd, (IBLOCK_eq _ _ L Hi). fold m.
  destruct (ly_inode _ _ _ _ L _ Hi) as [Hm Hhome]. fold m in Hm, Hhome.
  wp_step. wp_use (fbread_spec st sz f bs v ∅ m E V (lookup_empty _) Hm); [unfold room in *; lia|].
  intros bp f1 S1. rewrite insert_empty in S1. pose proof S1 as [[g1 ->] V1].
  assert (Hl : ({[m := bp]} : gmap nat nat) !! m = Some bp) by apply lookup_singleton_eq.
  wp_step. wp_use (fbdata_spec _ _ _ _ _ _ m bp E V1 Hl). intros d f2 [-> ->].
  eapply (fbput_spec _ _ _ _ _ _ m); [exact V1|exact Hl| |done|unfold room in *; rewrite map_size_singleton; rewrite map_size_empty in R; lia|].
  { unfold is_blk. rewrite length_put_dinode. apply (vol_blk _ _ _ _ _ _ _ V1 Hm). }
  intros f2 S2. pose proof S2 as [_ V2]. wp_use (fbrelse_spec _ _ _ _ _ _ m bp E V2 Hl). intros _ f3 S3. rewrite delete_singleton_eq in S3.
  eapply vstep_trans; [exact S1|]. by eapply vstep_trans.
Qed.

(** ** The size of the file *)

(** Changing a block of inodes changes no file and no bitmap. *)
Lemma used_inode n v i d b : layout sb st sz n -> 0 <= i < sb_ninodes sb -> 0 <= b < sb_size sb -> used sb (<[ib sb i := d]> v) b = used sb v b.
Proof. intros L Hi Hb. unfold used. rewrite blk_insert_ne; [done|]. by apply (ly_apart _ _ _ _ L). Qed.

Lemma data_not_inode n b i : is_data sb st sz n b -> 0 <= i < sb_ninodes sb -> Z.to_nat b <> ib sb i.
Proof. intros (_ & _ & _ & D) Hi E. by apply (D i Hi). Qed.

Lemma faddr_inode v x i d j : file_ok v x -> 0 <= i < sb_ninodes sb -> faddr (<[ib sb i := d]> v) x j = faddr v x j.
Proof.
  intros F Hi. apply faddr_ext. intros Hz. destruct (fo_ind _ _ _ _ _ F Hz) as [D _].
  apply list_lookup_insert_ne. intros E. symmetry in E. revert E. by apply (data_not_inode (length v)).
Qed.

Lemma file_ok_inode v x i d :
  layout sb st sz (length v) -> file_ok v x -> 0 <= i < sb_ninodes sb -> file_ok (<[ib sb i := d]> v) x.
Proof.
  intros L F Hi. pose proof (fun j => faddr_inode v x i d j F Hi) as Ef.
  assert (Eu : forall b, is_data sb st sz (length v) b -> used sb (<[ib sb i := d]> v) b = used sb v b).
  { intros b Db. apply (used_inode (length v)); [done..|by eapply data_range]. }
  destruct F as [F1 F2 F3 F4 F5 F6 F7]. split; try done; rewrite ?length_insert.
  - intros Hz. destruct (F3 Hz) as [Di Ui]. by rewrite Eu.
  - intros k Hk. rewrite Ef. intros Hz. destruct (F4 k Hk Hz) as (Dk & Uk & Nk). by rewrite Eu.
  - intros j k Hj Hk. rewrite !Ef. by apply F5.
  - intros k Hk Hs. rewrite Ef. by apply F7.
Qed.

Lemma file_ok_size v x s :
  file_ok v x -> 0 <= s <= MAXFILE * 512 -> (forall k, 0 <= k -> k * 512 < s -> faddr v x k <> 0) -> file_ok v (set_isize s x).
Proof. intros [F1 F2 F3 F4 F5 F6 F7] Hs Ha. by split. Qed.

(** The file has the bytes [data] at [off], and has grown to hold them; its
    other bytes, the blocks of others and the other inodes are as before. *)
Record written (v : list bytes) (x : inode) (off : Z) (data : bytes) (v' : list bytes) (x' : inode) : Prop := {
  wn_ok : file_ok v' x';
  wn_bitmap : bitmap_ok sb st sz v';
  wn_len : length v' = length v;
  wn_inode : exists l, x' = set_isize (Z.max (i_size x) (off + Z.of_nat (length data))) (set_iaddrs l x);
  wn_new : forall i c, data !! i = Some c -> fbyte v' x' (off + Z.of_nat i) = c;
  wn_old : forall o, 0 <= o < i_size x -> (o < off \/ off + Z.of_nat (length data) <= o) -> fbyte v' x' o = fbyte v x o;
  wn_foreign : forall b, foreign v x b -> foreign v' x' b /\ v' !! Z.to_nat b = v !! Z.to_nat b;
  wn_inodes : forall i j, 0 <= i < sb_ninodes sb -> i <> i_inum x -> (j < 64)%nat -> dinode_byte v' i j = dinode_byte v i j;
  wn_synced : synced v x -> synced v' x';
}.

Lemma set_isize_id x : set_isize (i_size x) x = x.
Proof. by destruct x. Qed.

(** A write inside the file. *)
Lemma written_inside v x off data v' x' :
  file_ok v x -> 0 <= i_inum x < sb_ninodes sb -> 0 <= off -> off + Z.of_nat (length data) <= i_size x ->
  wrote v x off data v' x' -> x' = x /\ written v x off data v' x'.
Proof.
  intros F Hi Ho Hs W. pose proof (fo_size _ _ _ _ _ F) as Hsz. change (MAXFILE * 512) with 71680 in Hsz.
  assert (Hal : forall o, 0 <= o < i_size x -> faddr v x (o / 512) <> 0) by (intros o Hr; apply F; dlia).
  assert (x' = x) as -> by (apply (wr_same _ _ _ _ _ _ W); intros o Hr; apply Hal; lia). split; [done|].
  split; try apply W.
  - exists (i_addrs x). rewrite Z.max_l by lia. by destruct x.
  - intros o Hr Hout. apply (wr_old _ _ _ _ _ _ W); [change (MAXFILE * 512) with 71680; lia|done|by apply Hal].
  - intros i j Hi' _ _. unfold dinode_byte, blk. by rewrite (wr_inodes _ _ _ _ _ _ W i Hi').
  - unfold synced, blk. by rewrite (wr_inodes _ _ _ _ _ _ W _ Hi).
Qed.

Lemma data_u32 n b : layout sb st sz n -> is_data sb st sz n b -> is_u32 b.
Proof.
  intros L D. pose proof (data_range _ _ _ _ _ D). destruct (ly_size _ _ _ _ L). pose proof (ly_n _ _ _ _ L). unfold is_u32. lia.
Qed.

Lemma file_addrs_u32 v x : layout sb st sz (length v) -> file_ok v x -> Forall is_u32 (i_addrs x).
Proof.
  intros L F. apply Forall_lookup_2. intros i a Hi. pose proof (lookup_lt_Some _ _ _ Hi) as Hlt. rewrite (fo_addrs _ _ _ _ _ F) in Hlt.
  assert (Ea : addr_at x (Z.of_nat i) = a) by (unfold addr_at; by rewrite Nat2Z.id, Hi).
  destruct (decide (a = 0)) as [->|Hz]; [done|]. destruct (decide (i = 12)%nat) as [->|Hne].
  - change (ind x = a) in Ea. destruct (fo_ind _ _ _ _ _ F) as [D _]; [by rewrite Ea|]. rewrite Ea in D. by eapply data_u32.
  - rewrite <- (faddr_direct v) in Ea by (unfold NDIRECT; lia). destruct (fo_blk _ _ _ _ _ F (Z.of_nat i)) as (D & _).
    + change MAXFILE with 140. lia.
    + congruence.
    + rewrite Ea in D. by eapply data_u32.
Qed.

(** A write that extends the file, after its inode has been written back. *)
Lemma written_beyond v x off data v' x' :
  layout sb st sz (length v) -> Forall is_blk v' -> file_ok v x -> 0 <= i_inum x < sb_ninodes sb -> inode_range x -> 0 <= off <= i_size x ->
  i_size x < off + Z.of_nat (length data) <= MAXFILE * 512 -> wrote v x off data v' x' ->
  let y := set_isize (off + Z.of_nat (length data)) x' in let m := ib sb (i_inum x) in
  file_ok v' y /\ written v x off data (<[m := put_dinode (blk v' m) (dinode_off (i_inum x)) y]> v') y.
Proof.
  intros L Hv F Hi [R1 R2 R3 R4 R5 R6] Ho Hs W y m. pose proof (fo_size _ _ _ _ _ F) as Hsz. change (MAXFILE * 512) with 71680 in *.
  pose proof (wr_len _ _ _ _ _ _ W) as Hl. destruct (wr_inode _ _ _ _ _ _ W) as [l El].
  assert (Hal : forall o, 0 <= o < i_size x -> faddr v x (o / 512) <> 0) by (intros o Hr; apply F; dlia).
  assert (Fy : file_ok v' y).
  { apply file_ok_size; [apply W|change (MAXFILE * 512) with 71680; lia|]. intros k Hk Hks. destruct (Z_lt_ge_dec (k * 512) (i_size x)) as [Hlt|Hge].
    - rewrite (wr_addr _ _ _ _ _ _ W); [by apply F|change MAXFILE with 140; lia|by apply F].
    - replace k with (k * 512 / 512) by dlia. apply (wr_alloc _ _ _ _ _ _ W). lia. }
  split; [done|]. assert (L' : layout sb st sz (length v')) by (by rewrite Hl).
  destruct (ly_inode _ _ _ _ L' _ Hi) as [Hm _]. fold m in Hm. set (d := put_dinode _ _ _).
  assert (Iy : i_inum y = i_inum x) by (subst y; by rewrite El).
  assert (Ef : forall j, faddr (<[m := d]> v') y j = faddr v' x' j) by (intros j; by apply (faddr_inode v' y)).
  assert (Eu : forall b, 0 <= b < sb_size sb -> used sb (<[m := d]> v') b = used sb v' b) by (intros b; by apply (used_inode (length v'))).
  assert (Eb : forall o, 0 <= o < 71680 -> faddr v' x' (o / 512) <> 0 -> fbyte (<[m := d]> v') y o = fbyte v' x' o).
  { intros o Hr Hz. unfold fbyte. rewrite Ef, blk_insert_ne; [done|].
    destruct (fo_blk _ _ _ _ _ (wr_ok _ _ _ _ _ _ W) (o / 512)) as (D & _); [change MAXFILE with 140; dlia|done|]. by apply (data_not_inode (length v')). }
  split.
  - by apply file_ok_inode.
  - intros b Hb Hu. rewrite length_insert. apply W; [done|]. by rewrite Eu in Hu.
  - by rewrite length_insert.
  - exists l. rewrite Z.max_r by lia. subst y. by rewrite El.
  - intros i c Hc. pose proof (lookup_lt_Some _ _ _ Hc). rewrite Eb; [by apply (wr_new _ _ _ _ _ _ W)|lia|]. apply (wr_alloc _ _ _ _ _ _ W). lia.
  - intros o Hr Hout. rewrite Eb; [|lia|].
    + apply (wr_old _ _ _ _ _ _ W); [change (MAXFILE * 512) with 71680; lia|done|by apply Hal].
    + rewrite (wr_addr _ _ _ _ _ _ W); [by apply Hal|change MAXFILE with 140; dlia|by apply Hal].
  - intros b Hb. destruct (wr_foreign _ _ _ _ _ _ W b Hb) as [(D & U & Ni & Nj) E]. split.
    + split; [by rewrite length_insert|]. split; [rewrite Eu; [done|by eapply data_range]|]. split; [done|].
      intros j Hj. rewrite Ef. by apply Nj.
    + rewrite list_lookup_insert_ne; [done|]. intros E2. symmetry in E2. revert E2. by apply (data_not_inode (length v')).
  - intros i j Hi' Hne Hj. pose proof (dinode_other (length v') v' y i j L') as Hd. rewrite Iy in Hd.
    etransitivity; [apply Hd; [apply Fy|lia|lia|done|done|done]|]. unfold dinode_byte, blk. by rewrite (wr_inodes _ _ _ _ _ _ W i Hi').
  - intros _. unfold synced. rewrite Iy. fold m. rewrite blk_insert by done. apply get_put_dinode.
    + assert (Hbl : length (blk v' m) = BSIZE).
      { destruct (lookup_lt_is_Some_2 v' m Hm) as [e He]. unfold blk. rewrite He. by eapply Forall_lookup_1 in Hv. }
      rewrite Hbl. apply dinode_off_le. lia.
    + subst y. rewrite El. split; try done; cbn.
      * unfold is_u32. lia.
      * split; [rewrite El in Fy; apply (fo_addrs _ _ _ _ _ Fy)|]. rewrite El in Fy. apply (file_addrs_u32 v' _ L' Fy).
Qed.

(** The number of blocks that [n] bytes at [off] lie in. *)
Definition nblocks (off n : Z) : nat := Z.to_nat ((off mod 512 + n + 511) / 512).

Section writei.
Context `{DevSw}.

(** What [writei] does to a file whose inode is not a device. *)
Definition writei_post (f : fsys) (bs : list nat) (v : list bytes) (ip : nat) (x : inode) (src : bytes) (off n : Z)
    (r : Z) (f' : fsys) : Prop :=
  if decide (off <= i_size x /\ off + n <= MAXFILE * 512)
  then r = n /\ exists bs' v' x', istep st sz f ip x' bs' v' f' /\ written v x off (take (Z.to_nat n) src) v' x' /\
         (length bs' <= length bs + nblocks off n + 3)%nat
  else r = -1 /\ f' = f.

Lemma writei_spec f bs v ip x src off n :
  vol st sz f bs v ∅ -> fsb f = sb -> layout sb st sz (length v) -> bitmap_ok sb st sz v -> sb_size sb <= BPB ->
  icache f !! ip = Some x -> file_ok v x -> inode_range x -> 0 <= i_inum x < sb_ninodes sb -> i_type x <> T_DEV ->
  is_u32 off -> is_u32 n -> n <= Z.of_nat (length src) -> room sz bs ∅ (nblocks off n + 9) ->
  wpx (writei ip src off n) (writei_post f bs v ip x src off n) out_of_blocks f.
Proof.
  intros V Hsb L B Hone Hx F Rx Hi Ht Ho Hn Hsrc R. unfold writei, writei_post. wp_step. eapply wpx_iref; [done|].
  rewrite (proj2 (Z.eqb_neq _ _) Ht). unfold is_u32 in *. change (MAXFILE * Z.of_nat BSIZE) with 71680. change (MAXFILE * 512) with 71680.
  pose proof (fo_size _ _ _ _ _ F) as Hsz. change (MAXFILE * 512) with 71680 in Hsz. case_decide as Hd.
  2:{ destruct (Z.ltb_spec (i_size x) off); cbn [orb]; [by apply wpx_ret|]. destruct (Z.ltb_spec (u32 (off + n)) off); [by apply wpx_ret|].
      assert (Hov : 71680 < off + n) by (unfold u32 in *; dlia). rewrite (proj2 (Z.ltb_lt _ _) Hov). by apply wpx_ret. }
  rewrite (proj2 (Z.ltb_ge (i_size x) off)) by lia. rewrite u32_small by (unfold is_u32; lia).
  rewrite (proj2 (Z.ltb_ge (off + n) off)), (proj2 (Z.ltb_ge 71680 (off + n))) by lia. cbn [orb].
  assert (Hnb : 0 <= (off mod 512 + n + 511) / 512) by dlia.
  wp_step. eapply wpx_mono; [apply (writei_loop_spec Hone ip src n bs (turns n) (nblocks off n) [] f bs v x off 0)| |done]; try done; try lia.
  { change (MAXFILE * 512) with 71680. lia. }
  { unfold nblocks, turns. change (Z.of_nat BSIZE) with 512. dlia. }
  { intros _. unfold nblocks. dlia. }
  { eapply grows_sub; [apply grows_refl|]. set_solver. }
  { unfold room in *. cbn. lia. }
  cbn beta. rewrite Z.sub_0_r. intros r f1 (-> & bs1 & v1 & x1 & T & W & S & G & HT). pose proof S as [_ V1]. cbn [length] in HT.
  change (slice src (Z.to_nat 0) (Z.to_nat n)) with (take (Z.to_nat n) src) in W. set (data := take (Z.to_nat n) src) in *.
  assert (Hdl : Z.of_nat (length data) = n) by (unfold data; rewrite length_take; lia).
  pose proof (vol_grows _ _ _ _ _ _ _ _ V1 G) as Hlen. pose proof (length_write x1 T) as HlT. pose proof (wr_len _ _ _ _ _ _ W) as Hl.
  destruct (istep_inode st sz f ip x1 bs1 v1 f1) as [Hx1 Hsb1]; [by eapply lookup_lt_Some|done|].
  destruct (wr_inode _ _ _ _ _ _ W) as [l El]. assert (Hs1 : i_size x1 = i_size x) by (by rewrite El).
  wp_step. eapply wpx_iref; [done|]. rewrite Hs1. wp_step. destruct (Z.ltb_spec 0 n) as [Hn0|Hn0], (Z.ltb_spec (i_size x) (off + n)) as [Hg|Hg]; cbn [andb].
  2-4: wp_step; wp_step; split; [done|]; exists bs1, v1, x1; split; [done|]; split; [|lia];
       apply (written_inside v x off data v1 x1); try done; lia.
  wp_step. eapply wpx_iput_at; [done|]. rewrite <- Hdl in Hg.
  destruct (written_beyond v x off data v1 x1) as [Fy Wn]; try done; [apply (vol_blks _ _ _ _ _ _ V1)|lia|change (MAXFILE * 512) with 71680; lia|].
  rewrite Hdl in Fy, Wn. set (y := set_isize (off + n) x1) in *.
  assert (Iy : i_inum y = i_inum x) by (subst y; by rewrite El).
  wp_use (iupdate_spec (set_icache (<[ip := y]> (icache f1)) f1) bs1 v1 ip y out_of_blocks).
  { by apply vol_icache. } { cbn. congruence. } { by rewrite Hl. } { unfold room in *. lia. }
  { apply list_lookup_insert_eq. by eapply lookup_lt_Some. } { subst y. rewrite El. apply F. } { by rewrite Iy. }
  rewrite Iy. intros _ f2 [[g2 ->] V2]. wp_step. split; [done|]. eexists _, _, y. split; [|split; [exact Wn|]].
  - eapply istep_trans; [exact S|]. split; [by exists g2|done].
  - pose proof (length_add_block bs1 (ib sb (i_inum x))). lia.
Qed.

End writei.

End write.
