(* ===== verification/FsPid.v ===== *)
(** * The call that runs (src/bio.c, src/log.c, src/fs.c)

    Between [begin_op] and [end_op] the file system code never changes which
    process runs it, so that the sleep locks a call takes it can release, nor the
    count of operations in the log. *)

From S2P Require Import Prelude.
From S2P Require Import Bytes.
From S2P Require Import Sleeplock.
From S2P Require Import Bio.
From S2P Require Import Log.
From S2P Require Import Path.
From S2P Require Import Fs.

Open Scope Z_scope.

(** A computation that, when it returns, has not changed [p] of the state. *)
Definition fixes {S A T} (p : S -> T) (c : M S A) : Prop := forall s a s', c s = Ret a s' -> p s' = p s.

(** The process, the operations in the log, and whether it is being committed. *)
Definition log_ctx (g : log) : Z * Z * Z := (mypid (bc g), l_outstanding g, l_committing g).
Definition fs_ctx (f : fsys) : Z * Z * Z := log_ctx (lg f).

(** * Lemmas *)

Lemma wpx_fixes {S A T} (p : S -> T) (c : M S A) Q E s : fixes p c -> wpx c Q E s -> wpx c (fun a s' => Q a s' /\ p s' = p s) E s.
Proof. unfold wpx. intros K H. destruct (c s) as [a s'| | |] eqn:Hc; [|done..]. split; [done|by eapply K]. Qed.

Section fixes.
Context {S T : Type} (p : S -> T).

Lemma fixes_ret {A} (a : A) : fixes p (ret a).
Proof. by intros s b s' [= <- <-]. Qed.

Lemma fixes_gets {A} (g : S -> A) : fixes p (gets g).
Proof. by intros s b s' [= <- <-]. Qed.

Lemma fixes_panic {A} m : fixes p (panic m : M S A).
Proof. by intros s b s'. Qed.

Lemma fixes_fault {A} m : fixes p (fault m : M S A).
Proof. by intros s b s'. Qed.

Lemma fixes_nofuel {A} : fixes p (nofuel : M S A).
Proof. by intros s b s'. Qed.

Lemma fixes_modify g : (forall s, p (g s) = p s) -> fixes p (modify g).
Proof. intros H s b s' [= <- <-]. apply H. Qed.

Lemma fixes_bind {A B} (c : M S A) (k : A -> M S B) : fixes p c -> (forall a, fixes p (k a)) -> fixes p (bind c k).
Proof. intros Hc Hk s b s'. unfold bind. destruct (c s) as [a s1| | |] eqn:E; [|done..]. intros H. rewrite (Hk a s1 b s' H). by eapply Hc. Qed.

Lemma fixes_mfor {A} (l : list A) (c : A -> M S unit) : (forall a, fixes p (c a)) -> fixes p (mfor l c).
Proof. intros H. induction l as [|a l IH]; [apply fixes_ret|]. cbn [mfor]. by apply fixes_bind. Qed.

Lemma fixes_acquire held set : (forall b s, p (set b s) = p s) -> fixes p (lock_acquire held set).
Proof. intros H s b s'. unfold lock_acquire. destruct (held s); [done|]. intros [= <- <-]. apply H. Qed.

Lemma fixes_release held set : (forall b s, p (set b s) = p s) -> fixes p (lock_release held set).
Proof. intros H s b s'. unfold lock_release. destruct (held s); [|done]. intros [= <- <-]. apply H. Qed.

Lemma fixes_acquiresleep get set pid : (forall l s, p (set l s) = p s) -> fixes p (acquiresleep get set pid).
Proof. intros H s b s'. unfold acquiresleep. destruct (get s) as [l|]; [|done]. destruct (sl_try _ l); [|done]. intros [= <- <-]. apply H. Qed.

Lemma fixes_releasesleep get set : (forall l s, p (set l s) = p s) -> fixes p (releasesleep get set).
Proof. intros H s b s'. unfold releasesleep. destruct (get s) as [l|]; [|done]. intros [= <- <-]. apply H. Qed.

Lemma fixes_holdingsleep get pid : fixes p (holdingsleep get pid).
Proof. intros s b s'. unfold holdingsleep. destruct (get s) as [l|]; [|done]. by intros [= <- <-]. Qed.

End fixes.

Lemma fixes_zoom {S S' A T} (get : S' -> S) (set : S -> S' -> S') (c : M S A) (p : S -> T) (q : S' -> T) :
  (forall s s', q (set s s') = p s) -> (forall s, q s = p (get s)) -> fixes p c -> fixes q (zoom get set c).
Proof.
  intros H1 H2 Hc s a s'. unfold zoom. destruct (c (get s)) as [b t| | |] eqn:E; [|done..]. intros [= <- <-]. rewrite H1, H2. by eapply Hc.
Qed.

Create HintDb fixes.
#[export] Hint Resolve fixes_ret fixes_gets fixes_panic fixes_fault fixes_nofuel fixes_bind fixes_mfor fixes_holdingsleep : fixes.
#[export] Hint Extern 2 (fixes _ (modify _)) => apply fixes_modify; reflexivity : fixes.
#[export] Hint Extern 2 (fixes _ (lock_acquire _ _)) => apply fixes_acquire; reflexivity : fixes.
#[export] Hint Extern 2 (fixes _ (lock_release _ _)) => apply fixes_release; reflexivity : fixes.
#[export] Hint Extern 2 (fixes _ (acquiresleep _ _ _)) => apply fixes_acquiresleep; reflexivity : fixes.
#[export] Hint Extern 2 (fixes _ (releasesleep _ _)) => apply fixes_releasesleep; reflexivity : fixes.

(** Goes through the code. *)
Ltac fixes_tac :=
  repeat (intros; first
    [ solve [eauto with fixes nocore]
    | apply fixes_bind
    | apply fixes_mfor
    | match goal with
      | |- fixes _ (let '(_, _) := ?e in _) => destruct e
      | |- fixes _ (if ?b then _ else _) => destruct b
      | |- fixes _ (match ?e with _ => _ end) => destruct e
      end
    | progress cbv zeta ]).

(** ** The cache *)

Lemma fixes_bref b : fixes mypid (bref b).
Proof. intros s x s'. unfold bref. destruct (bufs s !! b); [|done]. by intros [= <- <-]. Qed.

Lemma fixes_bupd b g : fixes mypid (bupd b g).
Proof. intros s x s'. unfold bupd. destruct (bufs s !! b); [|done]. by intros [= <- <-]. Qed.
#[export] Hint Resolve fixes_bref fixes_bupd : fixes.

Lemma fixes_iderw b : fixes mypid (iderw b).
Proof. unfold iderw, bholdingsleep. fixes_tac. Qed.

Lemma fixes_bscan dir q n : forall b, fixes mypid (bscan dir q n b).
Proof. induction n as [|n IH]; intros b; cbn [bscan]; fixes_tac. Qed.
#[export] Hint Resolve fixes_iderw fixes_bscan : fixes.

Lemma fixes_bread dev bno : fixes mypid (bread dev bno).
Proof. unfold bread, bget, bc_acquire, bc_release, bacquiresleep. fixes_tac. Qed.

Lemma fixes_brelse b : fixes mypid (brelse b).
Proof. unfold brelse, bholdingsleep, breleasesleep, bc_acquire, bc_release, bunlink, bpush. fixes_tac. Qed.

Lemma fixes_bdata b : fixes mypid (bdata b).
Proof. unfold bdata. fixes_tac. Qed.

Lemma fixes_bset b d : fixes mypid (bset b d).
Proof. unfold bset. fixes_tac. Qed.

Lemma fixes_bpin b : fixes mypid (bpin b).
Proof. unfold bpin. fixes_tac. Qed.
#[export] Hint Resolve fixes_bread fixes_brelse fixes_bdata fixes_bset fixes_bpin : fixes.

(** ** The log *)

Lemma fixes_inb {A} (c : M bcache A) : fixes mypid c -> fixes log_ctx (inb c).
Proof.
  intros Hc g a g'. unfold inb, zoom. destruct (c (bc g)) as [b s| | |] eqn:E; [|done..]. intros [= <- <-]. unfold log_ctx. cbn.
  by rewrite (Hc _ _ _ E).
Qed.

Lemma fixes_lh_get i : fixes log_ctx (lh_get i).
Proof. intros g x g'. unfold lh_get. destruct (_ && _); [|done]. destruct (lh_block g !! _); [|done]. by intros [= <- <-]. Qed.

Lemma fixes_lh_put i b : fixes log_ctx (lh_put i b).
Proof. unfold lh_put. fixes_tac. Qed.
#[export] Hint Resolve fixes_inb fixes_lh_get fixes_lh_put : fixes.

Lemma fixes_absorb bno n : forall i, fixes log_ctx (absorb bno n i).
Proof. induction n as [|n IH]; intros i; cbn [absorb]; fixes_tac. Qed.
#[export] Hint Resolve fixes_absorb : fixes.

Lemma fixes_log_write b : fixes log_ctx (log_write b).
Proof. unfold log_write, log_acquire, log_release. fixes_tac. Qed.
#[export] Hint Resolve fixes_log_write : fixes.

(** ** The file system *)

Lemma fixes_inlog {A} (c : M log A) : fixes log_ctx c -> fixes fs_ctx (inlog c).
Proof. by apply fixes_zoom. Qed.
#[export] Hint Resolve fixes_inlog : fixes.

Lemma fixes_fbread dev bno : fixes fs_ctx (fbread dev bno).
Proof. unfold fbread. fixes_tac. Qed.

Lemma fixes_fbdata b : fixes fs_ctx (fbdata b).
Proof. unfold fbdata. fixes_tac. Qed.

Lemma fixes_fbset b d : fixes fs_ctx (fbset b d).
Proof. unfold fbset. fixes_tac. Qed.

Lemma fixes_fbrelse b : fixes fs_ctx (fbrelse b).
Proof. unfold fbrelse. fixes_tac. Qed.

Lemma fixes_flog_write b : fixes fs_ctx (flog_write b).
Proof. unfold flog_write. fixes_tac. Qed.

Lemma fixes_iref i : fixes fs_ctx (iref i).
Proof. intros s x s'. unfold iref. destruct (icache s !! i); [|done]. by intros [= <- <-]. Qed.

Lemma fixes_iupd i g : fixes fs_ctx (iupd i g).
Proof. intros s x s'. unfold iupd. destruct (icache s !! i); [|done]. by intros [= <- <-]. Qed.
#[export] Hint Resolve fixes_fbread fixes_fbdata fixes_fbset fixes_fbrelse fixes_flog_write fixes_iref fixes_iupd : fixes.

Lemma fixes_balloc_bits dev bp b n : forall bi, fixes fs_ctx (balloc_bits dev bp b n bi).
Proof. induction n as [|n IH]; intros bi; cbn [balloc_bits]; fixes_tac. Qed.
#[export] Hint Resolve fixes_balloc_bits : fixes.

Lemma fixes_balloc dev : fixes fs_ctx (balloc dev).
Proof.
  unfold balloc. apply fixes_bind; [fixes_tac|]. intros sb. generalize 0. induction (S _) as [|n IH]; intros b; cbn [balloc_loop]; [fixes_tac|].
  unfold bzero. fixes_tac.
Qed.
#[export] Hint Resolve fixes_balloc : fixes.

Lemma fixes_bmap ip bn : fixes fs_ctx (bmap ip bn).
Proof. unfold bmap, addr_alloc. fixes_tac. Qed.
#[export] Hint Resolve fixes_bmap : fixes.

Lemma fixes_readi_loop ip n : forall off tot m dst, fixes fs_ctx (readi_loop ip n off tot m dst).
Proof. induction n as [|n IH]; intros off tot m dst; cbn [readi_loop]; fixes_tac. Qed.
