(* ===== verification/FsDir.v ===== *)
(** * Directories and paths (src/fs.c: iget, ilock, iput, dirlookup, namex)

    The inode cache holds the inodes in use, with their references counted;
    [dirlookup] finds the first entry with a name, and [namex] follows a path
    through the directories on the disk and keeps one reference, to what it
    returns. *)

From S2P Require Import Prelude.
From S2P Require Import Bytes.
From S2P Require Import Sleeplock.
From S2P Require Import Bio.
From S2P Require Import Log.
From S2P Require Import LogSpec.
From S2P Require Import LogTheorems.
From S2P Require Import Path.
From S2P Require Import Fs.
From S2P Require Import FsBlock.
From S2P Require Import FsFile.
From S2P Require Import FsWrite.
From S2P Require Import FsPid.

Open Scope Z_scope.

(** ** What a directory and a path mean *)

(** The inode on the disk. *)
Definition disk_inode (sb : superblock) (v : list bytes) (i : Z) : inode :=
  get_dinode (blk v (ib sb i)) (dinode_off i) (mkInode 1 i 0 (mkSleep 0 0) 1 0 0 0 0 0 []).

(** The entries of a directory. *)
Definition dir_entries (v : list bytes) (x : inode) : list bytes :=
  map (fun k => fbytes v x (16 * Z.of_nat k) 16) (seq 0 (Z.to_nat (i_size x / 16))).

(** The first entry with a name: its inode and its offset. *)
Fixpoint find_name (nm : bytes) (off : Z) (l : list bytes) : option (Z * Z) :=
  match l with
  | [] => None
  | de :: l' =>
      if negb (de_inum de =? 0) && bool_decide (name_of (de_name de) = nm) then Some (de_inum de, off)
      else find_name nm (off + 16) l'
  end.

Section resolve.
Context (sb : superblock) (v : list bytes).

(** The inode that is found in directory [i] under a name. *)
Definition lookup (i : Z) (nm : bytes) : option Z :=
  let x := disk_inode sb v i in
  if i_type x =? T_DIR then fst <$> find_name nm 0 (dir_entries v x) else None.

Fixpoint resolve (i : Z) (names : list bytes) : option Z :=
  match names with
  | [] => Some i
  | nm :: names' => match lookup i nm with Some j => resolve j names' | None => None end
  end.

(** The directory that the last name is to be looked up in, and that name. *)
Fixpoint resolve_parent (i : Z) (names : list bytes) : option (Z * bytes) :=
  match names with
  | [] => None
  | [nm] => if i_type (disk_inode sb v i) =? T_DIR then Some (i, nm) else None
  | nm :: names' => match lookup i nm with Some j => resolve_parent j names' | None => None end
  end.

End resolve.

(** The references to an inode that the cache counts. *)
Definition refs (c : list inode) (i : Z) : Z := foldr (fun x n => (if i_inum x =? i then i_ref x else 0) + n) 0 c.

(** All the references. *)
Definition held (c : list inode) : Z := foldr (fun x n => i_ref x + n) 0 c.

Section cache.
Context (sb : superblock) (st sz : nat) (v : list bytes).

(** The inodes of the set [L] are files in use; what their directories list
    is in the set. *)
Record tree (L : Z -> Prop) : Prop := {
  te_range : forall i, L i -> 0 <= i < sb_ninodes sb;
  te_file : forall i, L i -> file_ok sb st sz v (disk_inode sb v i);
  te_type : forall i, L i -> i_type (disk_inode sb v i) <> 0;
  te_nlink : forall i, L i -> 0 < i_nlink (disk_inode sb v i);
  te_dir : forall i, L i -> i_type (disk_inode sb v i) = T_DIR -> i_size (disk_inode sb v i) mod 16 = 0;
  te_entry : forall i de, L i -> i_type (disk_inode sb v i) = T_DIR -> de ∈ dir_entries v (disk_inode sb v i) ->
    de_inum de <> 0 -> L (de_inum de);
}.

(** The inode cache: the entries in use are for distinct inodes, and those read
    from the disk agree with it; no entry is locked but [lk]. *)
Record cache_ok (lk : option nat) (c : list inode) : Prop := {
  co_len : length c = NINODE;
  co_ref : forall k x, c !! k = Some x -> 0 <= i_ref x;
  co_lock : forall k x, c !! k = Some x -> lk <> Some k -> sl_locked (i_lock x) = 0;
  co_live : forall k x, c !! k = Some x -> 0 < i_ref x -> i_dev x = 1 /\ 0 <= i_inum x < sb_ninodes sb /\ (i_valid x <> 0 -> synced sb v x);
  co_uniq : forall j k x y, c !! j = Some x -> c !! k = Some y -> 0 < i_ref x -> 0 < i_ref y -> i_inum x = i_inum y -> j = k;
}.

(** The file system in a transaction that has logged the blocks [bs], in the
    call [cx]. *)
Record fs_ok (cx : Z * Z * Z) (bs : list nat) (lk : option nat) (f : fsys) : Prop := {
  fk_ctx : fs_ctx f = cx;
  fk_vol : vol st sz f bs v ∅;
  fk_sb : fsb f = sb;
  fk_lock : ic_lock f = false;
  fk_cache : cache_ok lk (icache f);
}.

(** The entry [k] is for inode [i]. *)
Definition live (f : fsys) (k : nat) (i : Z) : Prop := exists x, icache f !! k = Some x /\ i_inum x = i /\ 0 < i_ref x.

(** The entry [k] is for inode [i], has been read, and is locked by the
    process that runs. *)
Definition locked (f : fsys) (k : nat) (i : Z) : Prop :=
  exists x, icache f !! k = Some x /\ i_inum x = i /\ 0 < i_ref x /\ i_valid x <> 0 /\ i_lock x = mkSleep 1 (fs_pid f).

(** References have been added to inode [i]. *)
Definition counted (f : fsys) (i n : Z) (f' : fsys) : Prop :=
  forall j, refs (icache f') j = refs (icache f) j + (if j =? i then n else 0).

End cache.

(** The panic of a full inode cache, when [n] references are held. *)
Definition no_inodes (n : Z) (msg : string) : Prop := msg = "iget: no inodes"%string /\ Z.of_nat NINODE <= n.

(** * Lemmas *)

(** ** Names *)

Lemma namecmp_cut n : forall p q, bstrncmp p q n = 0 <-> cut_nul (take n p) = cut_nul (take n q).
Proof.
  assert (Hs : forall n p, cut_nul (take (S n) p) = if rd8 p 0 =? 0 then [] else rd8 p 0 :: cut_nul (take n (tail p))).
  { intros m [|a p]; [done|]. cbn [take cut_nul tail]. by change (rd8 (a :: p) 0) with a. }
  induction n as [|n IH]; intros p q; [done|]. cbn [bstrncmp]. rewrite !Hs. unfold nz.
  destruct (Z.eqb_spec (rd8 p 0) 0) as [Hp|Hp], (Z.eqb_spec (rd8 q 0) 0) as [Hq|Hq]; cbn [negb andb].
  - rewrite Hp, Hq. done.
  - split; [lia|done].
  - rewrite (proj2 (Z.eqb_neq _ _)) by lia. split; [lia|done].
  - destruct (Z.eqb_spec (rd8 p 0) (rd8 q 0)) as [E|E]; [rewrite IH, E; split; congruence|]. split; [lia|congruence].
Qed.

Lemma namecmp_eq p q : namecmp p q = 0 <-> name_of p = name_of q.
Proof. apply namecmp_cut. Qed.

Lemma elems_from_cons path : forall cur, cur <> [] -> elems_from cur path <> [].
Proof.
  induction path as [|d path IH]; intros cur Hc; cbn [elems_from].
  - by rewrite decide_False.
  - destruct (d =? SLASH); [by rewrite decide_False|]. apply IH. by destruct cur.
Qed.

(** The test of [namex] for the last element. *)
Lemma head_elems path : is_path path -> (rd8 (skip_slashes path) 0 =? 0) = bool_decide (elems path = []).
Proof.
  intros Hp. rewrite <- (skip_slashes_elems path). pose proof (skip_slashes_path _ Hp) as Hq.
  destruct (skip_slashes path) as [|c q] eqn:E; [done|]. pose proof (skip_slashes_head _ _ _ E) as Hc. apply Forall_cons in Hq as [Hc0 Hq].
  change (rd8 (c :: q) 0) with c. rewrite (proj2 (Z.eqb_neq _ _) Hc0). symmetry. apply bool_decide_eq_false. unfold elems. cbn [elems_from].
  rewrite (proj2 (Z.eqb_neq _ _) Hc). by apply elems_from_cons.
Qed.

(** ** References *)

Lemma refs_insert c k x y i : c !! k = Some x ->
  refs (<[k := y]> c) i = refs c i - (if i_inum x =? i then i_ref x else 0) + (if i_inum y =? i then i_ref y else 0).
Proof.
  unfold refs. revert k. induction c as [|z c IH]; intros k Hk; [done|]. destruct k as [|k].
  - injection Hk as ->. change (<[0%nat := y]> (x :: c)) with (y :: c). cbn [foldr]. lia.
  - change (<[S k := y]> (z :: c)) with (z :: <[k := y]> c). cbn [foldr]. rewrite (IH k Hk). lia.
Qed.

(** A change that keeps the inode and the count. *)
Lemma refs_keep c k x y i : c !! k = Some x -> i_inum y = i_inum x -> i_ref y = i_ref x -> refs (<[k := y]> c) i = refs c i.
Proof. intros Hk H1 H2. rewrite (refs_insert c k x y i Hk), H1, H2. lia. Qed.

Lemma refs_nonneg c i : (forall k x, c !! k = Some x -> 0 <= i_ref x) -> 0 <= refs c i.
Proof.
  unfold refs. induction c as [|x c IH]; intros H; cbn [foldr]; [lia|]. pose proof (H 0%nat x eq_refl). specialize (IH (fun k => H (S k))).
  destruct (i_inum x =? i); lia.
Qed.

Lemma refs_zero c i : (forall k x, c !! k = Some x -> i_inum x = i -> i_ref x = 0) -> refs c i = 0.
Proof.
  unfold refs. induction c as [|x c IH]; intros H; cbn [foldr]; [done|]. rewrite IH by (intros k; apply (H (S k))).
  destruct (Z.eqb_spec (i_inum x) i) as [E|]; [rewrite (H 0%nat x eq_refl E)|]; done.
Qed.

(** A full cache holds a reference for each entry. *)
Lemma held_full c : (forall k x, c !! k = Some x -> 0 < i_ref x) -> Z.of_nat (length c) <= held c.
Proof.
  unfold held. induction c as [|x c IH]; intros H; cbn [foldr length]; [lia|]. pose proof (H 0%nat x eq_refl). specialize (IH (fun k => H (S k))). lia.
Qed.

(** The references are those to the inodes of any list with all of them. *)
Lemma held_sum c l : NoDup l -> (forall x, x ∈ c -> i_inum x ∈ l) -> held c = foldr (fun i n => refs c i + n) 0 l.
Proof.
  intros Hl. assert (H0 : forall l', foldr (fun i n => refs [] i + n) 0 l' = 0) by (induction l' as [|i l' IH]; [done|]; cbn [foldr]; by rewrite IH).
  assert (Hx : forall x c' l', foldr (fun i n => refs (x :: c') i + n) 0 l' = foldr (fun i n => (if i_inum x =? i then i_ref x else 0) + n) 0 l' + foldr (fun i n => refs c' i + n) 0 l').
  { intros x c' l'. induction l' as [|i l' IH]; [done|]. cbn [foldr]. rewrite IH. change (refs (x :: c') i) with ((if i_inum x =? i then i_ref x else 0) + refs c' i). lia. }
  assert (H1 : forall x l', i_inum x ∉ l' -> foldr (fun i n => (if i_inum x =? i then i_ref x else 0) + n) 0 l' = 0).
  { intros x l'. induction l' as [|i l' IH]; [done|]. rewrite not_elem_of_cons. intros [Hne Hn]. cbn [foldr]. rewrite (IH Hn), (proj2 (Z.eqb_neq _ _) Hne). done. }
  induction c as [|x c IH]; intros H; [by rewrite H0|]. rewrite Hx. change (held (x :: c)) with (i_ref x + held c). rewrite IH by set_solver. f_equal.
  assert (Hin : i_inum x ∈ l) by set_solver. clear -Hl Hin H1. induction Hl as [|i l Hi Hl IH]; [by apply not_elem_of_nil in Hin|]. cbn [foldr].
  apply elem_of_cons in Hin as [<-|Hin]; [rewrite Z.eqb_refl, H1 by done; lia|]. rewrite <- IH by done. by rewrite (proj2 (Z.eqb_neq _ _)) by set_solver.
Qed.

(** What the counts say of their sum. *)
Lemma counted_held f i n f' : counted f i n f' -> held (icache f') = held (icache f) + n.
Proof.
  intros H. set (l := remove_dups (i :: (i_inum <$> icache f) ++ (i_inum <$> icache f'))). assert (Hl : NoDup l) by apply NoDup_remove_dups.
  assert (Hin : forall j, j ∈ i :: (i_inum <$> icache f) ++ (i_inum <$> icache f') -> j ∈ l) by (intros j; unfold l; by rewrite elem_of_remove_dups).
  rewrite (held_sum (icache f) l), (held_sum (icache f') l); [|done|intros x Hx; apply Hin; set_solver|done|intros x Hx; apply Hin; set_solver].
  assert (Hi : i ∈ l) by (apply Hin; set_solver). clear Hin. revert Hi. generalize dependent l. intros l Hl Hi.
  assert (Hno : forall l', i ∉ l' -> foldr (fun j m => refs (icache f') j + m) 0 l' = foldr (fun j m => refs (icache f) j + m) 0 l').
  { intros l'. induction l' as [|j l' IH]; [done|]. rewrite not_elem_of_cons. intros [Hne Hn]. cbn [foldr]. by rewrite IH, H, (proj2 (Z.eqb_neq j i)), Z.add_0_r. }
  induction Hl as [|j l Hj Hl IH]; [by apply not_elem_of_nil in Hi|]. cbn [foldr]. rewrite H. apply elem_of_cons in Hi as [<-|Hi].
  - rewrite Z.eqb_refl, (Hno l) by done. lia.
  - rewrite IH, (proj2 (Z.eqb_neq j i)) by set_solver. lia.
Qed.

Lemma fs_ctx_pid f f' : fs_ctx f' = fs_ctx f -> fs_pid f' = fs_pid f.
Proof. intros H. exact (f_equal (fun c => c.1.1) H). Qed.

(** ** Inodes on the disk and in memory *)

Section ops.
Context (sb : superblock) (st sz : nat) (v : list bytes) (cx : Z * Z * Z) (bs : list nat).
Abbreviation cache_ok := (cache_ok sb v).
Abbreviation fs_ok := (fs_ok sb st sz v cx bs).
Abbreviation disk_inode := (disk_inode sb v).

(** An inode that agrees with the disk has its fields. *)
Lemma synced_fields x i : synced sb v x -> i_inum x = i ->
  i_type x = i_type (disk_inode i) /\ i_nlink x = i_nlink (disk_inode i) /\ i_size x = i_size (disk_inode i) /\ i_addrs x = i_addrs (disk_inode i).
Proof. intros H <-. unfold synced in H. rewrite <- H. done. Qed.

Lemma synced_iref r x : synced sb v x -> synced sb v (set_iref r x).
Proof. intros H. transitivity (set_iref r (get_dinode (blk v (ib sb (i_inum x))) (dinode_off (i_inum x)) x)); [done|]. by rewrite H. Qed.

Lemma synced_ilock l x : synced sb v x -> synced sb v (set_ilock l x).
Proof. intros H. transitivity (set_ilock l (get_dinode (blk v (ib sb (i_inum x))) (dinode_off (i_inum x)) x)); [done|]. by rewrite H. Qed.

Lemma faddr_fields x y k : i_addrs x = i_addrs y -> faddr v x k = faddr v y k.
Proof. intros H. unfold faddr, ind, addr_at. by rewrite H. Qed.

Lemma fbytes_fields x y off n : i_addrs x = i_addrs y -> fbytes v x off n = fbytes v y off n.
Proof. intros H. unfold fbytes. apply map_ext. intros o. unfold fbyte. by rewrite (faddr_fields x y). Qed.

Lemma file_ok_fields x y : i_dev x = 1 -> i_size x = i_size y -> i_addrs x = i_addrs y -> file_ok sb st sz v y -> file_ok sb st sz v x.
Proof.
  intros Hd Hs Ha [F1 F2 F3 F4 F5 F6 F7]. assert (Hi : ind x = ind y) by (unfold ind, addr_at; by rewrite Ha).
  split; rewrite ?Hi, ?Hs, ?Ha; try done; setoid_rewrite (fun k => faddr_fields x y k Ha); done.
Qed.

Lemma dir_entries_fields x y : i_size x = i_size y -> i_addrs x = i_addrs y -> dir_entries v x = dir_entries v y.
Proof. intros Hs Ha. unfold dir_entries. rewrite Hs. apply map_ext. intros k. by apply fbytes_fields. Qed.

(** ** The cache *)

(** A change of an entry that keeps what the cache promises. *)
Lemma cache_upd lk lk' c k x y :
  cache_ok lk c -> c !! k = Some x -> i_inum y = i_inum x -> i_dev y = i_dev x -> 0 <= i_ref y -> (0 < i_ref y -> 0 < i_ref x) ->
  (lk' = Some k \/ sl_locked (i_lock y) = 0) -> (forall j, j <> k -> lk' <> Some j -> lk <> Some j) ->
  (i_valid y <> 0 -> synced sb v y) -> cache_ok lk' (<[k := y]> c).
Proof.
  intros [C1 C2 C3 C4 C5] Hk Hi Hd Hr Hp Hl Hlk Hs.
  assert (Hcase : forall j z, <[k := y]> c !! j = Some z -> (j = k /\ z = y) \/ (j <> k /\ c !! j = Some z)).
  { intros j z Hj. destruct (decide (j = k)) as [->|Hne]; [left|right; by rewrite list_lookup_insert_ne in Hj].
    rewrite list_lookup_insert_eq in Hj by (by eapply lookup_lt_Some). split; congruence. }
  split.
  - by rewrite length_insert.
  - intros j z Hj. destruct (Hcase j z Hj) as [[-> ->]|[Hne Hz]]; [done|by eapply C2].
  - intros j z Hj Hj'. destruct (Hcase j z Hj) as [[-> ->]|[Hne Hz]]; [by destruct Hl|]. eapply C3; [done|]. by apply Hlk.
  - intros j z Hj Hz'. destruct (Hcase j z Hj) as [[-> ->]|[Hne Hz]]; [|by eapply C4]. destruct (C4 k x Hk (Hp Hz')) as (H1 & H2 & _). by rewrite Hd, Hi.
  - intros j j' z z' Hj Hj' Hz Hz' E. destruct (Hcase j z Hj) as [[-> ->]|[Hne Hcz]], (Hcase j' z' Hj') as [[-> ->]|[Hne' Hcz']]; [done|..].
    + rewrite Hi in E. by apply (C5 k j' x z'); auto.
    + rewrite Hi in E. by apply (C5 j k z x); auto.
    + by eapply C5.
Qed.

(** ** iget *)

Lemma iget_scan_spec i E : forall n k e f, (k + n <= length (icache f))%nat ->
  wpx (iget_scan 1 i n k e) (fun r f' => f' = f /\
    match r with
    | inl j => exists x, icache f !! j = Some x /\ 0 < i_ref x /\ i_dev x = 1 /\ i_inum x = i
    | inr e' => (forall j x, (k <= j < k + n)%nat -> icache f !! j = Some x -> 0 < i_ref x -> i_dev x = 1 -> i_inum x <> i) /\
        match e' with
        | Some j => e = Some j \/ exists x, icache f !! j = Some x /\ i_ref x = 0
        | None => e = None /\ forall j x, (k <= j < k + n)%nat -> icache f !! j = Some x -> i_ref x <> 0
        end
    end) E f.
Proof.
  induction n as [|n IH]; intros k e f Hk; cbn [iget_scan].
  - apply wpx_ret. split; [done|]. split; [intros j x Hj; lia|]. destruct e; [by left|split; [done|intros j x Hj; lia]].
  - destruct (lookup_lt_is_Some_2 (icache f) k) as [x Hx]; [lia|]. wp_step. eapply wpx_iref; [done|].
    destruct (Z.ltb_spec 0 (i_ref x)) as [Hr|Hr], (Z.eqb_spec (i_dev x) 1) as [Hd|Hd], (Z.eqb_spec (i_inum x) i) as [Hi|Hi]; cbn [andb].
    1: apply wpx_ret; split; [done|]; by exists x.
    all: (eapply wpx_mono; [apply IH; lia| |done]); (intros r f' [-> Hp]; split; [done|]); (destruct r as [j|e']; [done|]);
      destruct Hp as [H1 H2]; (split; [intros j y Hj Hy; destruct (decide (j = k)) as [->|]; [assert (y = x) by congruence; subst; lia|exact (H1 j y ltac:(lia) Hy)]|]);
      (destruct e; [by destruct e' as [j|]; [|destruct H2]; naive_solver|]); (destruct e' as [j|];
        [|destruct H2 as [H2 H3]; split; [done|]; intros j y Hj Hy; destruct (decide (j = k)) as [->|]; [|exact (H3 j y ltac:(lia) Hy)]; assert (y = x) by congruence; subst; by destruct (Z.eqb_spec (i_ref x) 0)]);
      (destruct H2 as [H2|H2]; [|by right]); (destruct (Z.eqb_spec (i_ref x) 0); [|done]); injection H2 as <-; right; by exists x.
Qed.

(** The cache has changed, and nothing else. *)
Lemma fs_upd lk lk' f f' : fs_ok lk f -> lg f' = lg f -> fsb f' = fsb f -> ic_lock f' = false -> cache_ok lk' (icache f') -> fs_ok lk' f'.
Proof. intros [X [V1 V2 V3] Hsb _ _] E1 E2 E3 C. split; [unfold fs_ctx in *; congruence| |congruence|done|done]. split; by rewrite E1. Qed.

Lemma locked_upd f f' k x y j i : lg f' = lg f -> icache f !! k = Some x -> icache f' = <[k := y]> (icache f) ->
  i_inum y = i_inum x -> i_valid y = i_valid x -> i_lock y = i_lock x -> 0 < i_ref y -> locked f j i -> locked f' j i.
Proof.
  intros E Hk Hc Hi Hv Hl Hr (z & Hz & H1 & H2 & H3 & H4). unfold locked, fs_pid in *. rewrite Hc, E. destruct (decide (j = k)) as [->|Hne].
  - rewrite list_lookup_insert_eq by (by eapply lookup_lt_Some). assert (z = x) as -> by congruence. exists y. rewrite Hi, Hv, Hl. done.
  - rewrite list_lookup_insert_ne by done. by exists z.
Qed.

(** A free entry that is given to an inode not in the cache. *)
Lemma cache_new lk c k x i : cache_ok lk c -> c !! k = Some x -> i_ref x = 0 -> lk <> Some k -> 0 <= i < sb_ninodes sb ->
  (forall j y, c !! j = Some y -> 0 < i_ref y -> i_inum y <> i) ->
  cache_ok lk (<[k := mkInode 1 i 1 (i_lock x) 0 (i_type x) (i_major x) (i_minor x) (i_nlink x) (i_size x) (i_addrs x)]> c).
Proof.
  intros [C1 C2 C3 C4 C5] Hk Hr Hlk Hi Hno. set (y := mkInode _ _ _ _ _ _ _ _ _ _ _).
  assert (Hcase : forall j z, <[k := y]> c !! j = Some z -> (j = k /\ z = y) \/ (j <> k /\ c !! j = Some z)).
  { intros j z Hj. destruct (decide (j = k)) as [->|Hne]; [left|right; by rewrite list_lookup_insert_ne in Hj].
    rewrite list_lookup_insert_eq in Hj by (by eapply lookup_lt_Some). split; congruence. }
  split.
  - by rewrite length_insert.
  - intros j z Hj. destruct (Hcase j z Hj) as [[-> ->]|[Hne Hz]]; [cbn; lia|by eapply C2].
  - intros j z Hj Hj'. destruct (Hcase j z Hj) as [[-> ->]|[Hne Hz]]; [|by eapply C3]. by apply (C3 k x).
  - intros j z Hj Hz'. destruct (Hcase j z Hj) as [[-> ->]|[Hne Hz]]; [done|by eapply C4].
  - intros j j' z z' Hj Hj' Hz Hz' E. destruct (Hcase j z Hj) as [[-> ->]|[Hne Hcz]], (Hcase j' z' Hj') as [[-> ->]|[Hne' Hcz']]; [done|..].
    + by destruct (Hno j' z' Hcz').
    + by destruct (Hno j z Hcz).
    + by eapply C5.
Qed.

(** One more reference to an inode in the cache, or an entry for it. *)
Lemma iget_spec lk f i : fs_ok lk f -> 0 <= i < sb_ninodes sb ->
  (forall k, lk = Some k -> exists i', locked f k i') ->
  wpx (iget 1 i) (fun k f' => fs_ok lk f' /\ live f' k i /\ counted f i 1 f' /\ (forall j i', locked f j i' -> locked f' j i')) (no_inodes (held (icache f))) f.
Proof.
  intros H Hi Hlk. pose proof H as [Hx0 V Hsb Hl C]. unfold iget. wp_step. apply wpx_acquire; [done|]. wp_step.
  eapply wpx_mono; [apply (iget_scan_spec i never); cbn; rewrite (co_len _ _ _ _ C); lia| |done].
  intros r f' [-> Hr]. cbn [icache set_ic_lock] in Hr. destruct r as [k|[k|]]; cycle 2.
  { apply wpx_panic. split; [done|]. destruct Hr as [_ [_ Hr]]. rewrite <- (co_len _ _ _ _ C). apply held_full. intros k x Hk.
    pose proof (co_ref _ _ _ _ C k x Hk). pose proof (lookup_lt_Some _ _ _ Hk) as Hlt. rewrite (co_len _ _ _ _ C) in Hlt. specialize (Hr k x ltac:(lia) Hk). lia. }
  - destruct Hr as (x & Hx & Hp & Hd & Hin). wp_step. eapply wpx_iput_at; [exact Hx|]. wp_step. apply wpx_release; [done|]. apply wpx_ret.
    set (f' := set_ic_lock _ _). set (y := set_iref (i_ref x + 1) x). assert (Hc : icache f' = <[k := y]> (icache f)) by done.
    split; [|split; [|split]].
    + apply (fs_upd lk lk f); try done. rewrite Hc. destruct (co_live _ _ _ _ C k x Hx Hp) as (_ & _ & Hs).
      apply (cache_upd lk lk _ k x); try done; [cbn; lia| |].
      * destruct (decide (lk = Some k)); [by left|right]. by apply (co_lock _ _ _ _ C k x Hx).
      * intros Hv. by apply synced_iref, Hs.
    + exists y. rewrite Hc, list_lookup_insert_eq by (by eapply lookup_lt_Some). split; [done|]. split; [done|cbn; lia].
    + intros j. rewrite Hc, (refs_insert _ _ x) by done. cbn [y i_inum set_iref i_ref]. rewrite Hin. rewrite (Z.eqb_sym i j). destruct (j =? i); lia.
    + intros j i'. apply (locked_upd f f' k x y); try done. cbn. lia.
  - destruct Hr as [Hno [?|(x & Hx & Hz)]]; [done|]. wp_step. eapply wpx_iput_at; [exact Hx|]. wp_step. apply wpx_release; [done|]. apply wpx_ret.
    assert (Hnk : lk <> Some k). { intros E. destruct (Hlk k E) as (i' & z & Hz' & _ & Hp & _). assert (z = x) by congruence. subst. lia. }
    set (f' := set_ic_lock _ _). set (y := mkInode 1 i 1 (i_lock x) 0 (i_type x) (i_major x) (i_minor x) (i_nlink x) (i_size x) (i_addrs x)). assert (Hc : icache f' = <[k := y]> (icache f)) by done.
    split; [|split; [|split]].
    + apply (fs_upd lk lk f); try done. rewrite Hc. apply cache_new; try done. intros j z Hj Hp. apply (Hno j z); try done.
      * apply lookup_lt_Some in Hj. rewrite (co_len _ _ _ _ C) in Hj. lia.
      * by apply (co_live _ _ _ _ C j z).
    + exists y. rewrite Hc, list_lookup_insert_eq by (by eapply lookup_lt_Some). done.
    + intros j. rewrite Hc, (refs_insert _ _ x) by done. cbn [y i_inum i_ref]. rewrite Hz. rewrite (Z.eqb_sym i j). destruct (i_inum x =? j), (j =? i); lia.
    + intros j i' (z & Hz' & H1 & H2 & H3 & H4). unfold locked. rewrite Hc. destruct (decide (j = k)) as [->|]; [assert (z = x) by congruence; subst; lia|].
      rewrite list_lookup_insert_ne by done. by exists z.
Qed.

(** ** Locking an inode *)

Lemma alter_insert (g : inode -> inode) (k : nat) x (c : list inode) : c !! k = Some x -> alter g k c = <[k := g x]> c.
Proof.
  intros Hk. apply list_eq. intros j. destruct (decide (j = k)) as [->|Hne].
  - rewrite list_lookup_alter_eq, Hk, list_lookup_insert_eq by (by eapply lookup_lt_Some). done.
  - by rewrite list_lookup_alter_ne, list_lookup_insert_ne by done.
Qed.

Lemma iacquiresleep_spec (Q : unit -> fsys -> Prop) E k x f : icache f !! k = Some x -> sl_locked (i_lock x) = 0 ->
  Q tt (set_icache (<[k := set_ilock (mkSleep 1 (fs_pid f)) x]> (icache f)) f) -> wpx (iacquiresleep k) Q E f.
Proof.
  intros Hk Hl HQ. unfold wpx, iacquiresleep, acquiresleep, ino_lock_get, ino_lock_set. rewrite Hk. cbn. unfold sl_try. rewrite Hl. cbn.
  by rewrite (alter_insert _ _ x).
Qed.

Lemma ireleasesleep_spec (Q : unit -> fsys -> Prop) E k x f : icache f !! k = Some x ->
  Q tt (set_icache (<[k := set_ilock (mkSleep 0 0) x]> (icache f)) f) -> wpx (ireleasesleep k) Q E f.
Proof.
  intros Hk HQ. unfold wpx, ireleasesleep, releasesleep, ino_lock_get, ino_lock_set. rewrite Hk. cbn. by rewrite (alter_insert _ _ x).
Qed.

Lemma iholdingsleep_spec (Q : bool -> fsys -> Prop) E k x f : icache f !! k = Some x ->
  Q (sl_holding (fs_pid f) (i_lock x)) f -> wpx (iholdingsleep k) Q E f.
Proof. intros Hk HQ. unfold wpx, iholdingsleep, holdingsleep, ino_lock_get. rewrite Hk. exact HQ. Qed.

(** The inode as [ilock] leaves it. *)
Lemma ilock_spec L f k i E : tree sb st sz v L -> layout sb st sz (length v) -> room sz bs ∅ 1 -> fs_ok None f -> live f k i -> L i ->
  wpx (ilock k) (fun _ f' => fs_ok (Some k) f' /\ locked f' k i /\ counted f i 0 f') E f.
Proof.
  intros Te Ly R H (x & Hx & Hi & Hp) HL. pose proof H as [Hx0 V Hsb Hl C]. destruct (co_live _ _ _ _ C k x Hx Hp) as (Hd & Hr & Hs).
  pose proof (lookup_lt_Some _ _ _ Hx) as Hlt.
  unfold ilock. wp_step. eapply wpx_iref; [done|]. rewrite (proj2 (Z.ltb_ge _ _)) by lia. wp_step.
  eapply iacquiresleep_spec; [done|by eapply co_lock|]. set (x1 := set_ilock _ x). set (f1 := set_icache _ f).
  assert (Hx1 : icache f1 !! k = Some x1) by (by apply list_lookup_insert_eq). wp_step. eapply wpx_iref; [done|].
  assert (Hc : forall f' y, vol st sz f' bs v ∅ -> fsb f' = fsb f -> ic_lock f' = ic_lock f -> icache f' = <[k := y]> (icache f) -> fs_ctx f' = fs_ctx f ->
    i_inum y = i_inum x -> i_dev y = i_dev x -> i_ref y = i_ref x -> i_lock y = i_lock x1 -> i_valid y <> 0 -> synced sb v y ->
    fs_ok (Some k) f' /\ locked f' k i /\ counted f i 0 f').
  { intros f' y V' E1 E2 E3 E4 H1 H2 H3 H4 H5 H6. split; [|split].
    - split; [congruence|done|congruence|congruence|]. rewrite E3. apply (cache_upd None _ _ k x); try done; [lia|by left].
    - exists y. rewrite E3, list_lookup_insert_eq by done. rewrite H1, H3, H4, (fs_ctx_pid _ _ E4). done.
    - intros j. rewrite E3, (refs_keep _ _ x y) by done. destruct (j =? i); lia. }
  destruct (Z.eqb_spec (i_valid x1) 0) as [Hv|Hv].
  2:{ apply wpx_ret. apply (Hc f1 x1); try done; [by apply vol_icache|]. by apply synced_ilock, Hs. }
  change (i_dev x1) with (i_dev x). change (i_inum x1) with (i_inum x). rewrite Hi, Hd in *. wp_step. apply wpx_gets. change (fsb f1) with (fsb f). rewrite Hsb.
  rewrite (IBLOCK_eq sb st sz (length v) i Ly Hr). destruct (ly_inode _ _ _ _ Ly i Hr) as [Hm _]. set (m := ib sb i) in *.
  wp_step. assert (V1 : vol st sz f1 bs v ∅) by (by apply vol_icache).
  eapply wpx_mono; [eapply (wpx_fixes fs_ctx); [apply fixes_fbread|apply (fbread_spec st sz f1 bs v ∅ m E V1 (lookup_empty _) Hm); unfold room in *; lia]| |done].
  intros b f2 [[[g2 ->] V2] P2]. rewrite insert_empty in V2. assert (Hb : ({[m := b]} : gmap nat nat) !! m = Some b) by apply lookup_singleton_eq.
  wp_step. wp_use (fbdata_spec _ _ _ _ _ _ m b E V2 Hb). intros d f3 [-> ->]. wp_step. eapply wpx_iput_at; [exact Hx1|]. wp_step.
  eapply wpx_mono; [eapply (wpx_fixes fs_ctx); [apply fixes_fbrelse|apply (fbrelse_spec st sz _ bs v {[m := b]} m b E); [by apply vol_icache|done]]| |done].
  intros _ f4 [[[g4 ->] V4] P4]. rewrite delete_singleton_eq in V4. wp_step. eapply wpx_iput_at; [by apply list_lookup_insert_eq, (lookup_lt_Some _ _ _ Hx1)|].
  set (y := set_ivalid 1 _). wp_step. eapply wpx_iref; [apply list_lookup_insert_eq; cbn; rewrite length_insert; by apply (lookup_lt_Some _ _ _ Hx1)|].
  assert (Hy : i_type y = i_type (disk_inode i)) by done. rewrite Hy, (proj2 (Z.eqb_neq _ _) (te_type _ _ _ _ _ Te i HL)). apply wpx_ret.
  apply (Hc _ y); try done.
  - by apply vol_icache.
  - cbn [icache set_icache set_lg f1]. by rewrite !list_insert_insert_eq.
  - transitivity (fs_ctx f1); [|done]. rewrite <- P2. exact P4.
  - unfold synced. change (i_inum y) with (i_inum x). rewrite Hi. done.
Qed.

Lemma refs_at lk c k x : cache_ok lk c -> c !! k = Some x -> 0 < i_ref x -> refs c (i_inum x) = i_ref x.
Proof.
  intros C Hk Hp. pose proof (refs_insert c k x (set_iref 0 x) (i_inum x) Hk) as H. cbn [i_inum i_ref set_iref] in H. rewrite Z.eqb_refl in H.
  rewrite refs_zero in H; [lia|]. intros j y Hj Hi. destruct (decide (j = k)) as [->|Hne].
  - rewrite list_lookup_insert_eq in Hj by (by eapply lookup_lt_Some). by injection Hj as <-.
  - rewrite list_lookup_insert_ne in Hj by done. pose proof (co_ref _ _ _ _ C j y Hj). destruct (decide (0 < i_ref y)) as [Hy|]; [|lia].
    destruct Hne. by apply (co_uniq _ _ _ _ C j k y x).
Qed.

Lemma live_refs lk f k i : fs_ok lk f -> live f k i -> 0 < refs (icache f) i.
Proof. intros H (x & Hx & <- & Hp). by rewrite (refs_at lk _ k x (fk_cache _ _ _ _ _ _ _ _ H)). Qed.

Lemma locked_live f k i : locked f k i -> live f k i.
Proof. intros (x & H1 & H2 & H3 & _). by exists x. Qed.

Lemma iunlock_frees f k i E : fs_ok (Some k) f -> locked f k i ->
  wpx (iunlock k) (fun _ f' => fs_ok None f' /\ counted f i 0 f' /\ forall j i', live f j i' -> live f' j i') E f.
Proof.
  intros H (x & Hx & Hi & Hp & Hv & Hl). pose proof H as [Hx0 V Hsb Hlk C]. destruct (co_live _ _ _ _ C k x Hx Hp) as (Hd & Hr & Hs).
  unfold iunlock. wp_step. eapply iholdingsleep_spec; [done|]. wp_step. eapply wpx_iref; [done|]. rewrite Hl. unfold sl_holding. cbn [sl_locked sl_pid].
  rewrite Z.eqb_refl, (proj2 (Z.ltb_ge _ _)) by lia. cbn [nz Z.eqb negb andb orb]. eapply ireleasesleep_spec; [done|].
  set (y := set_ilock _ x). set (f' := set_icache _ f). assert (Hc : icache f' = <[k := y]> (icache f)) by done. split; [|split].
  - apply (fs_upd (Some k) None f); try done. rewrite Hc. apply (cache_upd (Some k) None _ k x); try done; [cbn; lia|by right|by intros j Hj _ [= ->]|].
    intros Hv'. by apply synced_ilock, Hs.
  - intros j. rewrite Hc, (refs_keep _ _ x) by done. destruct (j =? i); lia.
  - intros j i' (z & Hz & Hzi & Hzp). unfold live. rewrite Hc. destruct (decide (j = k)) as [->|Hne].
    + rewrite list_lookup_insert_eq by (by eapply lookup_lt_Some). exists y. assert (z = x) as -> by congruence. done.
    + rewrite list_lookup_insert_ne by done. by exists z.
Qed.

(** Giving up a reference to a file that still has a name. *)
Lemma iput_spec L f k i E : tree sb st sz v L -> fs_ok None f -> live f k i -> L i ->
  wpx (iput k) (fun _ f' => fs_ok None f' /\ counted f i (-1) f' /\
    forall j i', live f j i' -> 0 < refs (icache f') i' -> live f' j i') E f.
Proof.
  intros Te H (x & Hx & Hi & Hp) HL. pose proof H as [Hx0 V Hsb Hlk C]. destruct (co_live _ _ _ _ C k x Hx Hp) as (Hd & Hr & Hs). pose proof (lookup_lt_Some _ _ _ Hx) as Hlt.
  assert (Hlock : sl_locked (i_lock x) = 0) by (by eapply co_lock).
  unfold iput. wp_step. eapply iacquiresleep_spec; [done|done|]. set (x1 := set_ilock _ x). set (f1 := set_icache _ f).
  assert (Hx1 : icache f1 !! k = Some x1) by (by apply list_lookup_insert_eq). wp_step. eapply wpx_iref; [done|].
  assert (Hn : nz (i_valid x1) && (i_nlink x1 =? 0) = false).
  { destruct (decide (i_valid x = 0)) as [Hv|Hv]; [change (i_valid x1) with (i_valid x); by rewrite Hv|].
    apply andb_false_iff. right. apply Z.eqb_neq. destruct (synced_fields x i (Hs Hv) Hi) as (_ & E1 & _). change (i_nlink x1) with (i_nlink x).
    pose proof (te_nlink _ _ _ _ _ Te i HL). lia. }
  rewrite Hn. wp_step. apply wpx_ret. wp_step. eapply ireleasesleep_spec; [done|]. set (f2 := set_icache _ f1). wp_step. apply wpx_acquire; [done|].
  wp_step. eapply wpx_iput_at; [apply list_lookup_insert_eq; by apply (lookup_lt_Some _ _ _ Hx1)|]. apply wpx_release; [done|].
  set (f' := set_ic_lock _ _). set (y := set_iref _ _) in f'.
  assert (Hc : icache f' = <[k := y]> (icache f)) by (cbn [f' f2 f1 icache set_ic_lock set_icache]; by rewrite !list_insert_insert_eq).
  assert (Hcnt : counted f i (-1) f').
  { intros j. rewrite Hc, (refs_insert _ _ x) by done. cbn [y i_inum i_ref set_iref set_ilock x1]. rewrite Hi, (Z.eqb_sym i j). destruct (j =? i); lia. }
  split; [|split; [done|]].
  - apply (fs_upd None None f); try done. rewrite Hc. apply (cache_upd None None _ k x); try done; [cbn; lia|by right|].
    intros Hv. apply (synced_iref (i_ref x - 1)), (synced_ilock (mkSleep 0 0)), (synced_ilock (mkSleep 1 (fs_pid f))), Hs, Hv.
  - intros j i' (z & Hz & Hzi & Hzp) Hpos. unfold live. rewrite Hc. destruct (decide (j = k)) as [->|Hne].
    + rewrite list_lookup_insert_eq by done. exists y. assert (z = x) as -> by congruence. split; [done|]. split; [done|].
      rewrite <- Hzi, Hi, Hcnt, Z.eqb_refl in Hpos. rewrite <- Hi, (refs_at None _ k x C Hx Hp) in Hpos. cbn. lia.
    + rewrite list_lookup_insert_ne by done. by exists z.
Qed.

Lemma idup_spec lk f k i E : fs_ok lk f -> live f k i -> wpx (idup k) (fun k' f' => k' = k /\ fs_ok lk f' /\ live f' k i /\ counted f i 1 f') E f.
Proof.
  intros H (x & Hx & Hi & Hp). pose proof H as [Hx0 V Hsb Hl C]. destruct (co_live _ _ _ _ C k x Hx Hp) as (_ & _ & Hs).
  unfold idup. wp_step. apply wpx_acquire; [done|]. wp_step. eapply wpx_iput_at; [exact Hx|]. wp_step. apply wpx_release; [done|]. apply wpx_ret.
  set (f' := set_ic_lock _ _). set (y := set_iref (i_ref x + 1) x). assert (Hc : icache f' = <[k := y]> (icache f)) by done.
  split; [done|]. split; [|split].
  - apply (fs_upd lk lk f); try done. rewrite Hc. apply (cache_upd lk lk _ k x); try done; [cbn; lia| |].
    + destruct (decide (lk = Some k)); [by left|right]. by apply (co_lock _ _ _ _ C k x Hx).
    + intros Hv. by apply synced_iref, Hs.
  - exists y. rewrite Hc, list_lookup_insert_eq by (by eapply lookup_lt_Some). split; [done|]. split; [done|cbn; lia].
  - intros j. rewrite Hc, (refs_insert _ _ x) by done. cbn [y i_inum set_iref i_ref]. rewrite Hi, (Z.eqb_sym i j). destruct (j =? i); lia.
Qed.

(** ** dirlookup *)

Lemma locked_lg f g k i : fs_pid (set_lg g f) = fs_pid f -> locked f k i -> locked (set_lg g f) k i.
Proof. intros Hp (x & H). exists x. by rewrite Hp. Qed.

Section dir.
Context `{DevSw} (L : Z -> Prop) (Te : tree sb st sz v L) (Ly : layout sb st sz (length v)) (B : bitmap_ok sb st sz v) (R : room sz bs ∅ 6).

Lemma readi_ctx ip x off n f a f' : icache f !! ip = Some x -> i_type x <> T_DEV -> readi ip off n f = Ret a f' -> fs_ctx f' = fs_ctx f.
Proof.
  intros Hx Ht. unfold readi. unfold bind at 1, iref at 1. rewrite Hx, (proj2 (Z.eqb_neq _ _) Ht). destruct (_ || _); [by intros [= _ <-]|]. cbv zeta.
  set (n' := if i_size x <? off + n then i_size x - off else n). apply (fixes_bind fs_ctx (readi_loop ip (turns n') off 0 n' []) (fun dst => ret (n', dst))); [apply fixes_readi_loop|].
  intros d. apply fixes_ret.
Qed.

(** Reading a locked file. *)
Lemma read_locked f k i off n (x := disk_inode i) : fs_ok (Some k) f -> locked f k i -> L i -> i_type x <> T_DEV -> is_u32 off -> is_u32 n ->
  wp (readi k off n) (fun r f' => fs_ok (Some k) f' /\ locked f' k i /\ counted f i 0 f' /\
    r = if decide (off <= i_size x /\ off + n < 4294967296)
        then (Z.min n (i_size x - off), fbytes v x off (Z.to_nat (Z.min n (i_size x - off))))
        else (-1, [])) f.
Proof.
  intros Hf Hlk HL Ht Ho Hn. pose proof Hf as [Hx0 V Hsb Hl C]. pose proof Hlk as (y & Hy & Hi & Hp & Hv & _).
  destruct (co_live _ _ _ _ C k y Hy Hp) as (Hd & Hr & Hs). destruct (synced_fields y i (Hs Hv) Hi) as (F1 & F2 & F3 & F4). fold x in F1, F2, F3, F4.
  pose proof (te_file _ _ _ _ _ Te i HL) as F. assert (Hty : i_type y <> T_DEV) by (by rewrite F1).
  assert (Hwp := readi_spec sb st sz f bs v k y off n V Hsb Ly B R Hy (file_ok_fields y x Hd F3 F4 F) Hty Ho Hn).
  unfold wp, wpx in Hwp |- *. destruct (readi _ _ _ f) as [r f'| | |] eqn:E; [|done..]. destruct Hwp as [[[g ->] V'] ->].
  pose proof (readi_ctx _ _ _ _ _ _ _ Hy Hty E) as Hpid. split; [split; try done; congruence|]. split; [apply locked_lg; [by apply fs_ctx_pid|done]|]. split.
  - intros j. change (icache (set_lg g f)) with (icache f). destruct (j =? i); lia.
  - rewrite F3. by rewrite (fbytes_fields y x).
Qed.

(** Reading an entry of a locked directory. *)
Lemma read_entry f k i (m : nat) (x := disk_inode i) : fs_ok (Some k) f -> locked f k i -> L i -> i_type x = T_DIR -> Z.of_nat m < i_size x / 16 ->
  wp (readi k (16 * Z.of_nat m) DIRENT) (fun r f' => fs_ok (Some k) f' /\ locked f' k i /\ counted f i 0 f' /\
    r = (16, fbytes v x (16 * Z.of_nat m) 16)) f.
Proof.
  intros Hf Hlk HL Ht Hm. pose proof (fo_size _ _ _ _ _ (te_file _ _ _ _ _ Te i HL)) as Hsz. fold x in Hsz. change (MAXFILE * 512) with 71680 in Hsz.
  eapply wpx_mono; [apply (read_locked f k i); [done..|fold x; by rewrite Ht|unfold is_u32; dlia|done]| |done]. fold x. intros r f' (H1 & H2 & H3 & ->).
  split; [done|]. split; [done|]. split; [done|]. unfold DIRENT. rewrite decide_True by dlia. by rewrite Z.min_l by dlia.
Qed.

Lemma counted_0 f i i' f1 n f2 : counted f i 0 f1 -> counted f1 i' n f2 -> counted f i' n f2.
Proof. intros H1 H2 j. rewrite H2, H1. destruct (j =? i); lia. Qed.

Lemma length_entries x : length (dir_entries v x) = Z.to_nat (i_size x / 16).
Proof. unfold dir_entries. by rewrite length_map, length_seq. Qed.

Lemma drop_entries x m : (m < Z.to_nat (i_size x / 16))%nat ->
  drop m (dir_entries v x) = fbytes v x (16 * Z.of_nat m) 16 :: drop (S m) (dir_entries v x).
Proof.
  intros Hm. apply drop_S. unfold dir_entries. change (map ?g ?l) with (g <$> l). rewrite list_lookup_fmap, lookup_seq_lt by done. done.
Qed.

(** What a lookup of a name in a directory finds. *)
Definition found (f : fsys) (k : nat) (i : Z) (res : option (Z * Z)) (r : option (nat * Z)) (f' : fsys) : Prop :=
  fs_ok (Some k) f' /\ locked f' k i /\
  match res with
  | None => r = None /\ counted f i 0 f'
  | Some (j, off) => exists ip, r = Some (ip, off) /\ live f' ip j /\ L j /\ counted f j 1 f'
  end.

Lemma dirlookup_loop_spec k i name (x := disk_inode i) n : forall m f, fs_ok (Some k) f -> locked f k i -> L i -> i_type x = T_DIR ->
  (m <= length (dir_entries v x))%nat -> (length (dir_entries v x) - m < n)%nat ->
  wpx (dirlookup_loop k name n (16 * Z.of_nat m)) (found f k i (find_name (name_of name) (16 * Z.of_nat m) (drop m (dir_entries v x)))) (no_inodes (held (icache f))) f.
Proof.
  induction n as [|n IH]; intros m f Hf Hlk HL Ht Hm Hn; [lia|]. cbn [dirlookup_loop]. rewrite length_entries in Hm, Hn.
  pose proof Hlk as (y & Hy & Hi & Hp & Hv & _). pose proof Hf as [Hx0 V Hsb Hl C].
  destruct (co_live _ _ _ _ C k y Hy Hp) as (Hd & Hr & Hs). destruct (synced_fields y i (Hs Hv) Hi) as (F1 & F2 & F3 & F4). fold x in F1, F2, F3, F4.
  pose proof (fo_size _ _ _ _ _ (te_file _ _ _ _ _ Te i HL)) as Hsz. fold x in Hsz. pose proof (te_dir _ _ _ _ _ Te i HL Ht) as H16. fold x in H16.
  wp_step. eapply wpx_iref; [done|]. rewrite F3. destruct (Z.ltb_spec (16 * Z.of_nat m) (i_size x)) as [Hlt|Hge].
  2:{ apply wpx_ret. rewrite drop_ge by (rewrite length_entries; dlia). split; [done|]. split; [done|]. split; [done|]. intros j. destruct (j =? i); lia. }
  rewrite drop_entries by dlia. set (de := fbytes v x (16 * Z.of_nat m) 16). cbn [find_name].
  wp_step. eapply wpx_mono; [apply (read_entry f k i m Hf Hlk HL Ht); fold x; dlia| |done]. cbn beta. fold x de. intros r f1 (Hf1 & Hlk1 & Hc1 & ->). cbn [fst snd].
  pose proof (counted_held _ _ _ _ Hc1) as Hh. rewrite Z.add_0_r in Hh.
  change (16 =? DIRENT) with true. cbn [negb].
  assert (Hnext : wpx (dirlookup_loop k name n (16 * Z.of_nat m + DIRENT)) (found f k i (find_name (name_of name) (16 * Z.of_nat m + 16) (drop (S m) (dir_entries v x)))) (no_inodes (held (icache f))) f1).
  { replace (16 * Z.of_nat m + DIRENT) with (16 * Z.of_nat (S m)) by (unfold DIRENT; lia). replace (16 * Z.of_nat m + 16) with (16 * Z.of_nat (S m)) by lia.
    eapply wpx_mono; [apply (IH (S m) f1 Hf1 Hlk1 HL Ht); rewrite length_entries; dlia| |by rewrite Hh]. intros r f2 (H1 & H2 & H3). split; [done|]. split; [done|].
    destruct (find_name _ _ _) as [[j off]|].
    - destruct H3 as (ip & H3 & H4 & H5 & H6). exists ip. split; [done|]. split; [done|]. split; [done|]. by eapply counted_0.
    - destruct H3 as [H3 H4]. split; [done|]. by eapply counted_0. }
  destruct (Z.eqb_spec (de_inum de) 0) as [Hz|Hz]; cbn [negb andb]; [exact Hnext|].
  destruct (Z.eqb_spec (namecmp name (de_name de)) 0) as [He|He].
  2:{ rewrite bool_decide_eq_false_2; [exact Hnext|]. intros E. apply He, namecmp_eq. by rewrite E. }
  rewrite bool_decide_eq_true_2 by (symmetry; by apply namecmp_eq). rewrite Hd. wp_step.
  assert (HLj : L (de_inum de)).
  { apply (te_entry _ _ _ _ _ Te i); try done. fold x. apply list_elem_of_lookup. exists m. unfold dir_entries. change (map ?g ?l) with (g <$> l).
    rewrite list_lookup_fmap, lookup_seq_lt by dlia. done. }
  eapply wpx_mono; [apply (iget_spec (Some k) f1 (de_inum de) Hf1); [by apply Te|intros k' [= <-]; by exists i]| |by rewrite Hh].
  intros ip f2 (H1 & H2 & H3 & H4). apply wpx_ret. split; [done|]. split; [by apply H4|]. exists ip. split; [done|]. split; [done|]. split; [done|].
  by eapply counted_0.
Qed.

(** [dirlookup] finds the first entry with the name. *)
Lemma dirlookup_spec k i name f (x := disk_inode i) : fs_ok (Some k) f -> locked f k i -> L i -> i_type x = T_DIR ->
  wpx (dirlookup k name) (found f k i (find_name (name_of name) 0 (dir_entries v x))) (no_inodes (held (icache f))) f.
Proof.
  intros Hf Hlk HL Ht. pose proof Hlk as (y & Hy & Hi & Hp & Hv & _). pose proof Hf as [Hx0 V Hsb Hl C].
  destruct (co_live _ _ _ _ C k y Hy Hp) as (Hd & Hr & Hs). destruct (synced_fields y i (Hs Hv) Hi) as (F1 & F2 & F3 & F4). fold x in F1, F2, F3, F4.
  unfold dirlookup. wp_step. eapply wpx_iref; [done|]. rewrite F1, Ht. change (negb (T_DIR =? T_DIR)) with false. rewrite F3.
  apply (dirlookup_loop_spec k i name _ 0); try done; [lia|]. fold x. rewrite length_entries. unfold dir_turns, DIRENT.
  pose proof (fo_size _ _ _ _ _ (te_file _ _ _ _ _ Te i HL)) as Hsz. fold x in Hsz. dlia.
Qed.

(** ** namex *)

Lemma iunlockput_spec k i f E : fs_ok (Some k) f -> locked f k i -> L i ->
  wpx (iunlockput k) (fun _ f' => fs_ok None f' /\ counted f i (-1) f' /\
    forall j i', live f j i' -> 0 < refs (icache f') i' -> live f' j i') E f.
Proof.
  intros Hf Hlk HL. unfold iunlockput. wp_step. wp_use (iunlock_frees f k i E Hf Hlk). intros _ f1 (H1 & H2 & H3).
  eapply wpx_mono; [apply (iput_spec L f1 k i E Te H1); [by apply H3, locked_live|done]| |done].
  intros _ f2 (H4 & H5 & H6). split; [done|]. split; [by eapply counted_0|]. intros j i' Hj Hp. by apply H6; [apply H3|].
Qed.

(** The reference to [i] has been exchanged for one to what was found. *)
Definition traded (f : fsys) (i : Z) (o : option Z) (f' : fsys) : Prop :=
  forall n, refs (icache f') n = refs (icache f) n - (if n =? i then 1 else 0) + match o with Some j => if n =? j then 1 else 0 | None => 0 end.

(** What following the names from [i] gives. *)
Definition outcome (parent : bool) (i : Z) (names : list bytes) : option Z :=
  if parent then fst <$> resolve_parent sb v i names else resolve sb v i names.

Definition namex_post (f : fsys) (parent : bool) (i : Z) (names : list bytes) (r : option nat * bytes) (f' : fsys) : Prop :=
  fs_ok None f' /\ traded f i (outcome parent i names) f' /\
  match outcome parent i names with
  | Some j => exists ip, r.1 = Some ip /\ live f' ip j /\ L j
  | None => r.1 = None
  end /\
  (parent = true -> forall j nm, resolve_parent sb v i names = Some (j, nm) -> name_of r.2 = nm).

Lemma skip_slashes_idem path : skip_slashes (skip_slashes path) = skip_slashes path.
Proof.
  destruct (skip_slashes path) as [|c q] eqn:E; [done|]. pose proof (skip_slashes_head _ _ _ E) as Hc. cbn [skip_slashes]. by rewrite (proj2 (Z.eqb_neq _ _) Hc).
Qed.

Lemma skipelem_rest path name path' name' : skipelem path name = Some (path', name') -> skip_slashes path' = path'.
Proof.
  unfold skipelem. destruct (_ =? 0); [done|]. destruct (span_elem _) as [s rest]. intros [= <- _]. apply skip_slashes_idem.
Qed.

(** Names that lead nowhere from [i]. *)
Lemma outcome_none parent i nm names : lookup sb v i nm = None -> (parent = true -> names = [] -> i_type (disk_inode i) <> T_DIR) ->
  outcome parent i (nm :: names) = None /\ (parent = true -> resolve_parent sb v i (nm :: names) = None).
Proof.
  intros Hl Hp. unfold outcome. assert (Hr : parent = true -> resolve_parent sb v i (nm :: names) = None).
  { intros ->. destruct names as [|nm' names]; cbn [resolve_parent]; [|by rewrite Hl]. by rewrite (proj2 (Z.eqb_neq _ _) (Hp eq_refl eq_refl)). }
  split; [|done]. destruct parent; [by rewrite Hr|]. cbn [resolve]. by rewrite Hl.
Qed.

Lemma outcome_some parent i nm names j : lookup sb v i nm = Some j -> (parent = true -> names <> []) ->
  outcome parent i (nm :: names) = outcome parent j names /\ (parent = true -> resolve_parent sb v i (nm :: names) = resolve_parent sb v j names).
Proof.
  intros Hl Hp. unfold outcome. assert (Hr : parent = true -> resolve_parent sb v i (nm :: names) = resolve_parent sb v j names).
  { intros E. specialize (Hp E). destruct names as [|nm' names]; [done|]. cbn [resolve_parent]. by rewrite Hl. }
  split; [|done]. destruct parent; [by rewrite Hr|]. cbn [resolve]. by rewrite Hl.
Qed.

(** Following a path that leads nowhere. *)
Lemma namex_none parent f i nm names f1 k name E : outcome parent i (nm :: names) = None /\ (parent = true -> resolve_parent sb v i (nm :: names) = None) ->
  counted f i 0 f1 -> fs_ok (Some k) f1 -> locked f1 k i -> L i ->
  wpx (do! iunlockput k in ret (None, name)) (namex_post f parent i (nm :: names)) E f1.
Proof.
  intros [E1 E2] Hc Hf1 Hlk HL. wp_step. wp_use (iunlockput_spec k i f1 E Hf1 Hlk HL). intros _ f3 (H1 & H2 & _). apply wpx_ret.
  split; [done|]. rewrite E1. split; [|split; [done|]].
  - intros n. rewrite H2, Hc. destruct (n =? i); lia.
  - intros Hp j nm'. by rewrite (E2 Hp).
Qed.

Lemma namex_loop_spec parent n : forall ip i path name f, fs_ok None f -> live f ip i -> L i ->
  is_path path -> length name = DIRSIZ -> (length path < n)%nat ->
  wpx (namex_loop n parent ip path name) (namex_post f parent i (take DIRSIZ <$> elems path)) (no_inodes (held (icache f))) f.
Proof.
  induction n as [|n IH]; intros ip i path name f Hf Hlv HL Hp Hn Hlen; [lia|]. cbn [namex_loop].
  pose proof (skipelem_spec path name Hp Hn) as Hse. destruct (skipelem path name) as [[path' name']|] eqn:Es.
  2:{ rewrite Hse. destruct parent.
      - wp_step. wp_use (iput_spec L f ip i _ Te Hf Hlv HL). intros _ f1 (H1 & H2 & _). apply wpx_ret. split; [done|]. split; [|done].
        intros j. rewrite H2. cbn. destruct (j =? i); lia.
      - apply wpx_ret. split; [done|]. split; [|split; [by exists ip|done]]. intros j. cbn. destruct (j =? i); lia. }
  destruct Hse as (s & He & Hnm & Hn' & Hp' & Hlen'). rewrite He, fmap_cons, <- Hnm.
  assert (Hend : (rd8 path' 0 =? 0) = bool_decide (elems path' = [])) by (rewrite <- head_elems by done; by rewrite (skipelem_rest _ _ _ _ Es)).
  wp_step. eapply wpx_mono; [apply (ilock_spec L f ip i never Te Ly); [unfold room in *; lia|done..]| |done]. intros _ f1 (Hf1 & Hlk1 & Hc1).
  pose proof (counted_held _ _ _ _ Hc1) as Hh1. rewrite Z.add_0_r in Hh1.
  pose proof Hlk1 as (y & Hy & Hi & Hpos & Hv & _). destruct (co_live _ _ _ _ (fk_cache _ _ _ _ _ _ _ _ Hf1) ip y Hy Hpos) as (_ & _ & Hs).
  destruct (synced_fields y i (Hs Hv) Hi) as (F1 & _). wp_step. eapply wpx_iref; [done|]. rewrite F1.
  destruct (Z.eqb_spec (i_type (disk_inode i)) T_DIR) as [Ht|Ht]; cbn [negb].
  2:{ apply namex_none; try done. apply outcome_none; [|done]. unfold lookup. by rewrite (proj2 (Z.eqb_neq _ _) Ht). }
  destruct (parent && (rd8 path' 0 =? 0)) eqn:Elast.
  { apply andb_true_iff in Elast as [-> Elast]. rewrite Hend in Elast. apply bool_decide_eq_true in Elast. rewrite Elast.
    assert (Er : resolve_parent sb v i [name_of name'] = Some (i, name_of name')) by (cbn [resolve_parent]; by rewrite Ht).
    wp_step. wp_use (iunlock_frees f1 ip i _ Hf1 Hlk1). intros _ f2 (H1 & H2 & H3). apply wpx_ret. unfold namex_post, outcome, traded. cbn [fmap list_fmap]. rewrite Er.
    split; [done|]. split; [|split; [|by intros _ j nm [= <- <-]]].
    - intros j. rewrite H2, Hc1. cbn. destruct (j =? i); lia.
    - exists ip. split; [done|]. split; [by apply H3, locked_live|done]. }
  assert (Hmore : parent = true -> take DIRSIZ <$> elems path' <> []).
  { intros ->. cbn [andb] in Elast. rewrite Hend in Elast. apply bool_decide_eq_false in Elast. by destruct (elems path'). }
  wp_step. eapply wpx_mono; [apply (dirlookup_spec ip i name' f1 Hf1 Hlk1 HL Ht)| |by rewrite Hh1]. intros r f2 (Hf2 & Hlk2 & Hr).
  assert (Hlook : lookup sb v i (name_of name') = fst <$> find_name (name_of name') 0 (dir_entries v (disk_inode i))) by (unfold lookup; by rewrite Ht).
  destruct (find_name _ _ _) as [[j off]|] eqn:Ef; cbn [fmap option_fmap option_map fst] in Hlook.
  - destruct Hr as (next & -> & Hlv2 & HLj & Hc2). destruct (outcome_some parent i _ _ j Hlook Hmore) as [Eo Er].
    wp_step. wp_use (iunlockput_spec ip i f2 _ Hf2 Hlk2 HL). intros _ f3 (Hf3 & Hc3 & Hl3).
    assert (Hcnt : forall m, refs (icache f3) m = refs (icache f) m - (if m =? i then 1 else 0) + (if m =? j then 1 else 0)).
    { intros m. rewrite Hc3, Hc2, Hc1. destruct (m =? i), (m =? j); lia. }
    assert (Hlv3 : live f3 next j).
    { apply Hl3; [done|]. rewrite Hcnt, Z.eqb_refl. pose proof (live_refs _ _ _ _ Hf Hlv). pose proof (refs_nonneg (icache f) j (co_ref _ _ _ _ (fk_cache _ _ _ _ _ _ _ _ Hf))).
      destruct (Z.eqb_spec j i) as [->|]; lia. }
    eapply wpx_mono; [apply (IH next j path' name' f3 Hf3 Hlv3 HLj Hp' Hn'); lia| |].
    2:{ pose proof (counted_held _ _ _ _ Hc2). pose proof (counted_held _ _ _ _ Hc3). by replace (held (icache f3)) with (held (icache f)) by lia. }
    intros r f4 (H1 & H2 & H3 & H4). unfold namex_post. rewrite Eo. split; [done|]. split; [|split; [done|]].
    + intros m. rewrite H2, Hcnt. destruct (m =? j); lia.
    + intros Hpar. rewrite (Er Hpar). by apply H4.
  - destruct Hr as [-> Hc2]. apply namex_none; try done; [|by eapply counted_0]. apply outcome_none; [done|]. intros Hpar E. by destruct (Hmore Hpar).
Qed.

End dir.

End ops.

(** ** What namei and nameiparent promise *)

(** The inode a path starts from. *)
Definition start (cwd : Z) (path : bytes) : Z := if rd8 path 0 =? SLASH then ROOTINO else cwd.

Lemma namex_spec sb st sz v cx bs `{DevSw} L f cwd icwd path parent name :
  tree sb st sz v L -> layout sb st sz (length v) -> bitmap_ok sb st sz v -> room sz bs ∅ 6 -> fs_ok sb st sz v cx bs None f ->
  L ROOTINO -> (rd8 path 0 <> SLASH -> live f cwd icwd /\ L icwd) -> is_path path -> length name = DIRSIZ ->
  wpx (namex cwd path parent name) (fun r f' => exists f1, counted f (start icwd path) 1 f1 /\
    namex_post sb st sz v cx bs L f1 parent (start icwd path) (take DIRSIZ <$> elems path) r f') (no_inodes (held (icache f) + 1)) f.
Proof.
  intros Te Ly B R Hf Hroot Hcwd Hp Hn. unfold namex, start. wp_step.
  assert (Hloop : forall ip i f1, fs_ok sb st sz v cx bs None f1 -> live f1 ip i -> L i -> counted f i 1 f1 ->
    wpx (namex_loop (S (length path)) parent ip path name) (fun r f' => exists f1, counted f i 1 f1 /\
      namex_post sb st sz v cx bs L f1 parent i (take DIRSIZ <$> elems path) r f') (no_inodes (held (icache f) + 1)) f1).
  { intros ip i f1 H1 H2 HL H3. rewrite <- (counted_held _ _ _ _ H3).
    eapply wpx_mono; [apply (namex_loop_spec sb st sz v cx bs L Te Ly B R parent _ ip i path name f1); (done || lia)| |done]. intros r f2 Hr. by exists f1. }
  destruct (Z.eqb_spec (rd8 path 0) SLASH) as [Hs|Hs].
  - eapply wpx_mono; [apply (iget_spec sb st sz v cx bs None f ROOTINO Hf); [by apply Te|done]| |intros msg [H1 H2]; split; [done|lia]].
    intros ip f1 (H1 & H2 & H3 & _). by apply Hloop.
  - destruct (Hcwd Hs) as [Hl HL]. eapply wpx_mono; [apply (idup_spec sb st sz v cx bs None f cwd icwd never Hf Hl)| |done].
    intros ip f1 (-> & H1 & H2 & H3). by apply Hloop.
Qed.
