(* ===== verification/Pipe.v ===== *)
(** * Pipes (src/pipe.c)

    A pipe is a ring buffer with two counters that run modulo 2^32.  The
    operations are seen from the process that calls them: when one has to
    sleep until another process reads or writes, its run does not return
    ([NoFuel]).  The transfers of several readers and writers, in any order,
    are the steps of [pipe_step]. *)

From S2P Require Import Prelude.
From S2P Require Import Bytes.

Open Scope Z_scope.

Definition PIPESIZE : Z := 512.

Record pipe := mkPipe {
  p_lock : bool;
  p_data : bytes;
  p_nread : Z;
  p_nwrite : Z;
  p_readopen : Z;
  p_writeopen : Z;
}.

Definition set_p_lock (v : bool) (p : pipe) : pipe :=
  mkPipe v (p_data p) (p_nread p) (p_nwrite p) (p_readopen p) (p_writeopen p).
Definition set_p_readopen (v : Z) (p : pipe) : pipe :=
  mkPipe (p_lock p) (p_data p) (p_nread p) (p_nwrite p) v (p_writeopen p).
Definition set_p_writeopen (v : Z) (p : pipe) : pipe :=
  mkPipe (p_lock p) (p_data p) (p_nread p) (p_nwrite p) (p_readopen p) v.

(** The pipe [pipealloc] makes; its page holds what it held. *)
Definition new_pipe (junk : bytes) : pipe := mkPipe false junk 0 0 1 1.

(** [p->nwrite == p->nread + PIPESIZE] and [p->nread == p->nwrite] *)
Definition pipe_full (p : pipe) : bool := p_nwrite p =? u32 (p_nread p + PIPESIZE).
Definition pipe_empty (p : pipe) : bool := p_nread p =? p_nwrite p.

(** [p->data[p->nwrite++ % PIPESIZE] = c] *)
Definition pipe_put (c : Z) (p : pipe) : pipe :=
  mkPipe (p_lock p) (<[Z.to_nat (p_nwrite p mod PIPESIZE) := c]> (p_data p)) (p_nread p)
    (u32 (p_nwrite p + 1)) (p_readopen p) (p_writeopen p).

(** [p->data[p->nread++ % PIPESIZE]] *)
Definition pipe_head (p : pipe) : Z := rd8 (p_data p) (Z.to_nat (p_nread p mod PIPESIZE)).
Definition pipe_next (p : pipe) : pipe :=
  mkPipe (p_lock p) (p_data p) (u32 (p_nread p + 1)) (p_nwrite p) (p_readopen p) (p_writeopen p).

Definition pipe_acquire : M pipe unit := lock_acquire p_lock set_p_lock.
Definition pipe_release : M pipe unit := lock_release p_lock set_p_lock.

(** [pipeclose]: whether the last end is closed, and the page is freed. *)
Definition pipeclose (writable : bool) : M pipe bool :=
  do! pipe_acquire in
  do! modify (if writable then set_p_writeopen 0 else set_p_readopen 0) in
  let! ro := gets p_readopen in
  let! wo := gets p_writeopen in
  do! pipe_release in
  ret ((ro =? 0) && (wo =? 0)).

(** [killed] is [myproc()->killed]. *)
Fixpoint pipewrite_loop (killed : bool) (addr : bytes) : M pipe bool :=
  match addr with
  | [] => ret true
  | c :: addr' =>
      let! full := gets pipe_full in
      if full then
        let! ro := gets p_readopen in
        if (ro =? 0) || killed then
          do! pipe_release in
          ret false
        else nofuel
      else
        do! modify (pipe_put c) in
        pipewrite_loop killed addr'
  end.

Definition pipewrite (killed : bool) (addr : bytes) (n : Z) : M pipe Z :=
  do! pipe_acquire in
  let! ok := pipewrite_loop killed (take (Z.to_nat n) addr) in
  if ok then
    do! pipe_release in
    ret n
  else ret (-1).

(** The copy loop of [piperead]: the bytes it copies. *)
Fixpoint piperead_loop (k : nat) : M pipe bytes :=
  match k with
  | O => ret []
  | S k' =>
      let! empty := gets pipe_empty in
      if empty then ret []
      else
        let! c := gets pipe_head in
        do! modify pipe_next in
        let! rest := piperead_loop k' in
        ret (c :: rest)
  end.

Definition piperead (killed : bool) (n : Z) : M pipe (Z * bytes) :=
  do! pipe_acquire in
  let! empty := gets pipe_empty in
  let! wo := gets p_writeopen in
  if empty && nz wo then
    if killed then
      do! pipe_release in
      ret (-1, [])
    else nofuel
  else
    let! d := piperead_loop (Z.to_nat n) in
    do! pipe_release in
    ret (Z.of_nat (length d), d).

(** ** Readers and writers *)

(** Transfers of single bytes by any processes; [sent] and [got] are the
    bytes that went in and came out so far. *)
Record pipe_sys := mkPsys { ps_pipe : pipe; ps_sent : bytes; ps_got : bytes }.

Inductive pipe_step : pipe_sys -> pipe_sys -> Prop :=
  | ps_write c p sent got : pipe_full p = false ->
      pipe_step (mkPsys p sent got) (mkPsys (pipe_put c p) (sent ++ [c]) got)
  | ps_read p sent got : pipe_empty p = false ->
      pipe_step (mkPsys p sent got) (mkPsys (pipe_next p) sent (got ++ [pipe_head p]))
  | ps_close p p' w b sent got : pipeclose w p = Ret b p' ->
      pipe_step (mkPsys p sent got) (mkPsys p' sent got).

Inductive pipe_reach (S0 : pipe_sys) : pipe_sys -> Prop :=
  | pr_refl : pipe_reach S0 S0
  | pr_step S S' : pipe_reach S0 S -> pipe_step S S' -> pipe_reach S0 S'.

(** A pipe holds the queue [q]. *)
Record pipe_rep (p : pipe) (q : bytes) : Prop := {
  pq_len : length (p_data p) = Z.to_nat PIPESIZE;
  pq_cap : Z.of_nat (length q) <= PIPESIZE;
  pq_read : is_u32 (p_nread p);
  pq_write : p_nwrite p = u32 (p_nread p + Z.of_nat (length q));
  pq_data : forall i c, q !! i = Some c -> p_data p !! Z.to_nat ((p_nread p + Z.of_nat i) mod PIPESIZE) = Some c;
}.

(** * Lemmas *)

(** The counters run modulo 2^32, of which the size is a divisor. *)
Lemma u32_mod_size x : u32 x mod PIPESIZE = x mod PIPESIZE.
Proof. unfold u32, PIPESIZE. dlia. Qed.

Lemma mod_size_range x : 0 <= x mod PIPESIZE < PIPESIZE.
Proof. unfold PIPESIZE. dlia. Qed.

Lemma pipe_full_iff p q : pipe_rep p q -> pipe_full p = bool_decide (Z.of_nat (length q) = PIPESIZE).
Proof.
  intros [_ Hc [Hr1 Hr2] Hw _]. unfold pipe_full. rewrite Hw. unfold u32, PIPESIZE in *.
  case_bool_decide as Hq; [apply Z.eqb_eq; by rewrite Hq|]. apply Z.eqb_neq. intros He. apply Hq. revert He. dlia.
Qed.

Lemma pipe_empty_iff p q : pipe_rep p q -> pipe_empty p = bool_decide (q = []).
Proof.
  intros [_ Hc [Hr1 Hr2] Hw _]. unfold pipe_empty. rewrite Hw. unfold u32, PIPESIZE in *.
  case_bool_decide as Hq; [subst; apply Z.eqb_eq; simpl; dlia|]. apply Z.eqb_neq. intros He. apply Hq.
  apply nil_length_inv. revert He. dlia.
Qed.

Lemma pipe_put_rep p q c : pipe_rep p q -> Z.of_nat (length q) < PIPESIZE -> pipe_rep (pipe_put c p) (q ++ [c]).
Proof.
  intros [Hl Hc Hr Hw Hd] Hlt. pose proof (mod_size_range (p_nread p + Z.of_nat (length q))) as Hm.
  split; simpl.
  - by rewrite length_insert.
  - rewrite length_app. simpl. lia.
  - done.
  - rewrite Hw, length_app. unfold u32. simpl. rewrite Zplus_mod_idemp_l. f_equal. lia.
  - intros i d Hi. rewrite Hw, u32_mod_size. apply lookup_app_Some in Hi as [Hi|[Hge Hi]].
    + rewrite list_lookup_insert_ne; [by apply Hd|]. apply lookup_lt_Some in Hi. unfold PIPESIZE in *. dlia.
    + apply list_lookup_singleton_Some in Hi as [Hi <-]. replace i with (length q) by lia.
      apply list_lookup_insert_eq. rewrite Hl. lia.
Qed.

Lemma pipe_next_rep p c q : pipe_rep p (c :: q) -> pipe_head p = c /\ pipe_rep (pipe_next p) q.
Proof.
  intros [Hl Hc Hr Hw Hd]. split.
  - unfold pipe_head, rd8. pose proof (Hd 0%nat c eq_refl) as H0. rewrite Z.add_0_r in H0. by rewrite H0.
  - split; simpl in *; [done|lia|apply u32_range| |].
    + rewrite Hw. unfold u32. rewrite Zplus_mod_idemp_l. f_equal. lia.
    + intros i d Hi. specialize (Hd (S i) d Hi).
      replace ((u32 (p_nread p + 1) + Z.of_nat i) mod PIPESIZE) with ((p_nread p + Z.of_nat (S i)) mod PIPESIZE); [done|].
      symmetry. rewrite <- (Zplus_mod_idemp_l (u32 (p_nread p + 1))), u32_mod_size, Zplus_mod_idemp_l. f_equal. lia.
Qed.

Lemma pipe_rep_core p p' q :
  pipe_rep p q -> p_data p' = p_data p -> p_nread p' = p_nread p -> p_nwrite p' = p_nwrite p -> pipe_rep p' q.
Proof. intros [? ? ? ? ?] E1 E2 E3. split; rewrite ?E1, ?E2, ?E3; done. Qed.

Lemma pipeclose_core w p b p' :
  pipeclose w p = Ret b p' -> p_data p' = p_data p /\ p_nread p' = p_nread p /\ p_nwrite p' = p_nwrite p.
Proof.
  unfold pipeclose, pipe_acquire, pipe_release, bind, lock_acquire, lock_release, modify, gets, ret.
  destruct (p_lock p); [done|]. by destruct w; intros [= <- <-].
Qed.

(** ** Calls *)

Lemma pipewrite_loop_spec killed addr p q :
  pipe_rep p q -> Z.of_nat (length q + length addr) <= PIPESIZE ->
  wp (pipewrite_loop killed addr) (fun ok p' => ok = true /\ p_lock p' = p_lock p /\ pipe_rep p' (q ++ addr)) p.
Proof.
  revert p q. induction addr as [|c addr IH]; intros p q I Hl; cbn [pipewrite_loop]; simpl in Hl.
  - wp_step. by rewrite app_nil_r.
  - wp_step. wp_step. rewrite (pipe_full_iff p q I), bool_decide_eq_false_2 by lia. wp_step. wp_step.
    wp_use (IH (pipe_put c p) (q ++ [c])).
    + apply pipe_put_rep; [done|lia].
    + rewrite length_app. simpl. lia.
    + intros ok p' (-> & Hk & I'). rewrite <- app_assoc in I'. done.
Qed.

Lemma piperead_loop_spec k p q :
  pipe_rep p q ->
  wp (piperead_loop k) (fun d p' => d = take k q /\ p_lock p' = p_lock p /\ pipe_rep p' (drop k q)) p.
Proof.
  revert p q. induction k as [|k IH]; intros p q I; cbn [piperead_loop]; [by wp_step|].
  wp_step. wp_step. rewrite (pipe_empty_iff p q I). destruct q as [|c q].
  - rewrite bool_decide_eq_true_2 by done. by wp_step.
  - rewrite bool_decide_eq_false_2 by done. destruct (pipe_next_rep p c q I) as [Hh I'].
    wp_step. wp_step. wp_step. wp_step. wp_step. wp_use (IH (pipe_next p) q I'). intros d p' (-> & Hk & I''). wp_step.
    by rewrite Hh.
Qed.

(** ** Theorems *)

(** C15: a pipe is a queue.  Whatever transfers the readers and writers of a
    new pipe make, the bytes read are, in order, the first of the bytes
    written, and at most [PIPESIZE] bytes are under way; this holds however
    often the counters wrap around. *)
Theorem pipe_fifo junk S :
  length junk = Z.to_nat PIPESIZE -> pipe_reach (mkPsys (new_pipe junk) [] []) S ->
  exists q, ps_sent S = ps_got S ++ q /\ Z.of_nat (length q) <= PIPESIZE /\ pipe_rep (ps_pipe S) q.
Proof.
  intros Hj Hr. induction Hr as [|S S' Hr (q & Hs & Hq & I) Hst].
  - exists []. split; [done|]. split; [unfold PIPESIZE; simpl; lia|]. split; simpl; done.
  - destruct Hst as [c p sent got Hf|p sent got He|p p' w b sent got Hc]; simpl in *.
    + rewrite (pipe_full_iff p q I), bool_decide_eq_false in Hf. exists (q ++ [c]).
      rewrite Hs, app_assoc. split; [done|]. split; [rewrite length_app; simpl; lia|]. apply pipe_put_rep; [done|lia].
    + rewrite (pipe_empty_iff p q I), bool_decide_eq_false in He. destruct q as [|c q]; [done|].
      destruct (pipe_next_rep p c q I) as [Hh I']. exists q. rewrite Hs, Hh, <- app_assoc. simpl in Hq. split; [done|]. split; [lia|done].
    + exists q. destruct (pipeclose_core _ _ _ _ Hc) as (E1 & E2 & E3). split; [done|]. split; [done|]. by eapply pipe_rep_core.
Qed.

Lemma pipe_fifo_witness :
  let S := mkPsys (pipe_next (pipe_put 66 (pipe_put 65 (new_pipe (replicate 512 0))))) [65; 66] [65] in
  exists q, ps_sent S = ps_got S ++ q /\ Z.of_nat (length q) <= PIPESIZE /\ pipe_rep (ps_pipe S) q.
Proof.
  cbv zeta. apply (pipe_fifo (replicate 512 0)); [reflexivity|].
  eapply pr_step; [eapply pr_step; [eapply pr_step; [apply pr_refl|]|]|].
  - exact (ps_write 65 (new_pipe (replicate 512 0)) [] [] eq_refl).
  - exact (ps_write 66 (pipe_put 65 (new_pipe (replicate 512 0))) [65] [] eq_refl).
  - exact (ps_read (pipe_put 66 (pipe_put 65 (new_pipe (replicate 512 0)))) [65; 66] [] eq_refl).
Defined.

(** [piperead] and [pipewrite] as calls: a write that fits returns its
    count and appends its bytes; a read of a pipe that is not empty, or whose
    writers are gone, returns the first bytes of the queue, as many as there
    are up to the count. *)
Theorem pipe_calls p q killed addr n :
  pipe_rep p q -> p_lock p = false -> 0 <= n ->
  (n <= Z.of_nat (length addr) -> Z.of_nat (length q) + n <= PIPESIZE ->
   wp (pipewrite killed addr n)
     (fun r p' => r = n /\ p_lock p' = false /\ pipe_rep p' (q ++ take (Z.to_nat n) addr)) p) /\
  ((q <> [] \/ p_writeopen p = 0) ->
   wp (piperead killed n)
     (fun r p' => r = (Z.min n (Z.of_nat (length q)), take (Z.to_nat n) q) /\ p_lock p' = false /\
                  pipe_rep p' (drop (Z.to_nat n) q)) p).
Proof.
  intros I Hl Hn. split.
  - intros Ha Hq. unfold pipewrite. wp_step. apply wpx_acquire; [done|]. wp_step.
    wp_use (pipewrite_loop_spec killed (take (Z.to_nat n) addr) (set_p_lock true p) q).
    + by eapply pipe_rep_core.
    + rewrite length_take. lia.
    + intros ok p' (-> & Hk & I'). wp_step. apply wpx_release; [done|]. wp_step. split; [done|]. split; [done|]. by eapply pipe_rep_core.
  - intros Hq. unfold piperead. wp_step. apply wpx_acquire; [done|]. wp_steps.
    assert (I1 : pipe_rep (set_p_lock true p) q) by (by eapply pipe_rep_core).
    rewrite (pipe_empty_iff _ q I1). cbn [p_writeopen set_p_lock].
    assert (bool_decide (q = []) && nz (p_writeopen p) = false) as ->.
    { destruct Hq as [Hq| ->]; [by rewrite bool_decide_eq_false_2|by rewrite andb_false_r]. }
    wp_step. wp_use (piperead_loop_spec (Z.to_nat n) _ q I1). intros d p' (-> & Hk & I'). wp_step.
    apply wpx_release; [done|]. wp_step. split; [|split; [done|by eapply pipe_rep_core]].
    f_equal. rewrite length_take. lia.
Qed.

Lemma pipe_calls_witness :
  let p := pipe_put 65 (new_pipe (replicate 512 0)) in
  (1 <= Z.of_nat (length [66]) -> Z.of_nat (length [65]) + 1 <= PIPESIZE ->
   wp (pipewrite false [66] 1)
     (fun r p' => r = 1 /\ p_lock p' = false /\ pipe_rep p' ([65] ++ take (Z.to_nat 1) [66])) p) /\
  ([65] <> [] \/ p_writeopen p = 0 ->
   wp (piperead false 1)
     (fun r p' => r = (Z.min 1 (Z.of_nat (length [65])), take (Z.to_nat 1) [65]) /\ p_lock p' = false /\
                  pipe_rep p' (drop (Z.to_nat 1) [65])) p).
Proof.
  cbv zeta. apply (pipe_calls (pipe_put 65 (new_pipe (replicate 512 0))) [65] false [66] 1).
  - apply (pipe_put_rep _ []); [|unfold PIPESIZE; simpl; lia].
    split; [reflexivity|unfold PIPESIZE; simpl; lia|unfold is_u32; simpl; lia|reflexivity|intros i c H; discriminate].
  - reflexivity.
  - lia.
Defined.
