(* ===== verification/File.v ===== *)
(** * Open files (src/file.c, src/file.h, and the allocation of pipes of
    src/pipe.c)

    The table of open files over the file system and the pipes.  A pipe lives
    in a page of its own; [pipes] has the pipe at each such page.  Operations
    that allocate or free a page run on the pair with the page allocator.  A
    pointer to a file is its index in the table. *)

From S2P Require Import Prelude.
From S2P Require Import CString.
From S2P Require Import Mmu.
From S2P Require Import Kalloc.
From S2P Require Import Kernel.
From S2P Require Import ProcSpec.
From S2P Require Import Bytes.
From S2P Require Import Sleeplock.
From S2P Require Import Bio.
From S2P Require Import Log.
From S2P Require Import Path.
From S2P Require Import Fs.
From S2P Require Import Pipe.

Open Scope Z_scope.

Definition NFILE : nat := 100.

Inductive ftype := FD_NONE | FD_PIPE | FD_INODE.

#[export] Instance ftype_eq_dec : EqDecision ftype.
Proof. solve_decision. Defined.

Record file := mkFile {
  f_type : ftype;
  f_ref : Z;
  f_readable : Z;
  f_writable : Z;
  f_pipe : Z;
  f_ip : nat;
  f_off : Z;
}.

Definition set_fref (v : Z) (x : file) : file :=
  mkFile (f_type x) v (f_readable x) (f_writable x) (f_pipe x) (f_ip x) (f_off x).
Definition set_foff (v : Z) (x : file) : file :=
  mkFile (f_type x) (f_ref x) (f_readable x) (f_writable x) (f_pipe x) (f_ip x) v.
Definition set_fpipe (r w p : Z) (x : file) : file :=
  mkFile FD_PIPE (f_ref x) r w p (f_ip x) (f_off x).

(** [fkilled] is [myproc()->killed]. *)
Record files := mkFiles {
  fsy : fsys;
  ftab : list file;
  ft_lock : bool;
  pipes : gmap Z pipe;
  fkilled : bool;
}.

Definition set_fsy (v : fsys) (s : files) : files := mkFiles v (ftab s) (ft_lock s) (pipes s) (fkilled s).
Definition set_ftab (v : list file) (s : files) : files := mkFiles (fsy s) v (ft_lock s) (pipes s) (fkilled s).
Definition set_ft_lock (v : bool) (s : files) : files := mkFiles (fsy s) (ftab s) v (pipes s) (fkilled s).
Definition set_pipes (v : gmap Z pipe) (s : files) : files := mkFiles (fsy s) (ftab s) (ft_lock s) v (fkilled s).

(** Calls into the file system; file operations next to the page allocator. *)
Definition infy {A} (c : M fsys A) : M files A := zoom fsy set_fsy c.
Definition infile {A} (c : M files A) : M (files * phys) A := zoom fst (fun x p => (x, p.2)) c.
Definition inpages {A} (c : M phys A) : M (files * phys) A := zoom snd (fun x p => (p.1, x)) c.

(** [*f] and an assignment to [*f]. *)
Definition fref (i : nat) : M files file :=
  fun s => match ftab s !! i with Some x => Ret x s | None => Fault "file" end.
Definition fupd (i : nat) (g : file -> file) : M files unit :=
  fun s =>
    match ftab s !! i with
    | Some x => Ret tt (set_ftab (<[i := g x]> (ftab s)) s)
    | None => Fault "file"
    end.

(** A call on the pipe at address [a]. *)
Definition inpipe {A} (a : Z) (c : M pipe A) : M files A :=
  fun s =>
    match pipes s !! a with
    | None => Fault "pipe"
    | Some p =>
        match c p with
        | Ret r p' => Ret r (set_pipes (<[a := p']> (pipes s)) s)
        | Panic m => Panic m
        | Fault w => Fault w
        | NoFuel => NoFuel
        end
    end.

Definition ft_acquire : M files unit := lock_acquire ft_lock set_ft_lock.
Definition ft_release : M files unit := lock_release ft_lock set_ft_lock.

Definition fileinit : M files unit := modify (set_ft_lock false).

(** The first entry with no references, if any, among the [k] from [i] on. *)
Fixpoint filealloc_scan (k i : nat) : M files (option nat) :=
  match k with
  | O => ret None
  | S k' =>
      let! x := fref i in
      if f_ref x =? 0 then ret (Some i) else filealloc_scan k' (S i)
  end.

Definition filealloc : M files (option nat) :=
  do! ft_acquire in
  let! r := filealloc_scan NFILE 0 in
  match r with
  | Some i =>
      do! fupd i (set_fref 1) in
      do! ft_release in
      ret (Some i)
  | None =>
      do! ft_release in
      ret None
  end.

Definition filedup (f : nat) : M files unit :=
  do! ft_acquire in
  let! x := fref f in
  if f_ref x <? 1 then panic "filedup"
  else
    do! fupd f (fun x => set_fref (f_ref x + 1) x) in
    ft_release.

Section ops.
Context {K : KernelImage} `{DevSw}.

(** [pipeclose] of the pipe at [a], and the [kfree] of its page. *)
Definition fpipeclose (a : Z) (writable : bool) : M (files * phys) unit :=
  let! last := infile (inpipe a (pipeclose writable)) in
  if last then
    do! infile (modify (fun s => set_pipes (delete a (pipes s)) s)) in
    inpages (kfree a)
  else ret tt.

Definition fileclose (f : nat) : M (files * phys) unit :=
  do! infile ft_acquire in
  let! x := infile (fref f) in
  if f_ref x <? 1 then panic "fileclose"
  else
    do! infile (fupd f (fun x => set_fref (f_ref x - 1) x)) in
    let! ff := infile (fref f) in
    if 0 <? f_ref ff then infile ft_release
    else
      do! infile (fupd f (fun x => mkFile FD_NONE 0 (f_readable x) (f_writable x) (f_pipe x) (f_ip x) (f_off x))) in
      do! infile ft_release in
      match f_type ff with
      | FD_PIPE => fpipeclose (f_pipe ff) (nz (f_writable ff))
      | FD_INODE =>
          do! infile (infy (inlog begin_op)) in
          do! infile (infy (iput (f_ip ff))) in
          infile (infy (inlog end_op))
      | FD_NONE => ret tt
      end.

Definition filestat (f : nat) : M files (option stat) :=
  let! x := fref f in
  match f_type x with
  | FD_INODE =>
      do! infy (ilock (f_ip x)) in
      let! st := infy (stati (f_ip x)) in
      do! infy (iunlock (f_ip x)) in
      ret (Some st)
  | _ => ret None
  end.

Definition fileread (f : nat) (n : Z) : M files (Z * bytes) :=
  let! x := fref f in
  if f_readable x =? 0 then ret (-1, [])
  else
    match f_type x with
    | FD_PIPE =>
        let! killed := gets fkilled in
        inpipe (f_pipe x) (piperead killed n)
    | FD_INODE =>
        do! infy (ilock (f_ip x)) in
        let! r := infy (readi (f_ip x) (f_off x) (u32 n)) in
        do! (if 0 <? r.1 then fupd f (fun x => set_foff (u32 (f_off x + r.1)) x) else ret tt) in
        do! infy (iunlock (f_ip x)) in
        ret r
    | FD_NONE => panic "fileread"
    end.

(** The most bytes [filewrite] writes in one transaction. *)
Definition write_max : Z := ((MAXOPBLOCKS - 1 - 1 - 2) / 2) * 512.

(** The loop of [filewrite] on an inode: what it leaves in [i]. *)
Fixpoint filewrite_loop (f : nat) (fuel : nat) (addr : bytes) (n i : Z) : M files Z :=
  match fuel with
  | O => nofuel
  | S k =>
      if i <? n then
        let n1 := Z.min (n - i) write_max in
        do! infy (inlog begin_op) in
        let! x := fref f in
        do! infy (ilock (f_ip x)) in
        let! x := fref f in
        let! r := infy (writei (f_ip x) (drop (Z.to_nat i) addr) (f_off x) n1) in
        do! (if 0 <? r then fupd f (fun x => set_foff (u32 (f_off x + r)) x) else ret tt) in
        do! infy (iunlock (f_ip x)) in
        do! infy (inlog end_op) in
        if r <? 0 then ret i
        else if negb (r =? n1) then panic "short filewrite"
        else filewrite_loop f k addr n (i + r)
      else ret i
  end.

Definition filewrite (f : nat) (addr : bytes) (n : Z) : M files Z :=
  let! x := fref f in
  if f_writable x =? 0 then ret (-1)
  else
    match f_type x with
    | FD_PIPE =>
        let! killed := gets fkilled in
        inpipe (f_pipe x) (pipewrite killed addr n)
    | FD_INODE =>
        let! i := filewrite_loop f (S (Z.to_nat (n / write_max + 1))) addr n 0 in
        ret (if i =? n then n else -1)
    | FD_NONE => panic "filewrite"
    end.

(** [pipealloc]: the read end and the write end, or [None] for -1.  The pipe's
    [data] is at offset 52 of the page, after its lock. *)
Definition pipealloc : M (files * phys) (option (nat * nat)) :=
  let! f0 := infile filealloc in
  match f0 with
  | None => ret None
  | Some f0 =>
      let! f1 := infile filealloc in
      match f1 with
      | None =>
          do! fileclose f0 in
          ret None
      | Some f1 =>
          let! p := inpages kalloc in
          if p =? 0 then
            do! fileclose f0 in
            do! fileclose f1 in
            ret None
          else
            let! junk := gets (fun s => ldbytes (mem s.2) (p + 52) (Z.to_nat PIPESIZE)) in
            do! infile (modify (fun s => set_pipes (<[p := new_pipe junk]> (pipes s)) s)) in
            do! infile (fupd f0 (set_fpipe 1 0 p)) in
            do! infile (fupd f1 (set_fpipe 0 1 p)) in
            ret (Some (f0, f1))
      end
  end.

(** The interface the process code uses; a null pointer is 0, entry [i] of a
    table is [i + 1]. *)
#[export] Instance files_ops : FileOps files := {|
  Kernel.filedup := fun f => filedup (Z.to_nat (f - 1));
  Kernel.fileclose := fun f => fileclose (Z.to_nat (f - 1));
  Kernel.idup := fun i => do! infy (idup (Z.to_nat (i - 1))) in ret tt;
  Kernel.iput := fun i => infy (iput (Z.to_nat (i - 1)));
  Kernel.begin_op := infy (inlog begin_op);
  Kernel.end_op := infy (inlog end_op);
  Kernel.namei := fun cwd path =>
    let! r := infy (namei (Z.to_nat (cwd - 1)) path) in
    ret (match r with Some i => Z.of_nat i + 1 | None => 0 end);
|}.

End ops.

(** ** Who holds what *)

(** The references to open files that are held anywhere (in the descriptor
    tables of the processes), and what calls do to them. *)
Inductive file_step `{KernelImage} `{DevSw} :
    (files * phys) * list nat -> (files * phys) * list nat -> Prop :=
  | fs_alloc s s' i held : infile filealloc s = Ret (Some i) s' -> file_step (s, held) (s', i :: held)
  | fs_none s s' held : infile filealloc s = Ret None s' -> file_step (s, held) (s', held)
  | fs_dup s s' i held : i ∈ held -> infile (filedup i) s = Ret tt s' -> file_step (s, held) (s', i :: held)
  | fs_close s s' i h1 h2 : fileclose i s = Ret tt s' -> file_step (s, h1 ++ i :: h2) (s', h1 ++ h2)
  | fs_pipe s s' f0 f1 held : pipealloc s = Ret (Some (f0, f1)) s' -> file_step (s, held) (s', f0 :: f1 :: held)
  | fs_nopipe s s' held : pipealloc s = Ret None s' -> file_step (s, held) (s', held)
  | fs_read s s' i n r held : i ∈ held -> infile (fileread i n) s = Ret r s' -> file_step (s, held) (s', held)
  | fs_write s s' i a n r held : i ∈ held -> infile (filewrite i a n) s = Ret r s' -> file_step (s, held) (s', held).

Inductive file_reach `{KernelImage} `{DevSw} (S0 : (files * phys) * list nat) :
    (files * phys) * list nat -> Prop :=
  | fr_refl : file_reach S0 S0
  | fr_step S S' : file_reach S0 S -> file_step S S' -> file_reach S0 S'.

Definition count (i : nat) (held : list nat) : Z := Z.of_nat (length (filter (.= i) held)).

Definition refs (s : files) : list Z := f_ref <$> ftab s.

(** Every entry's reference count is the number of references to it. *)
Definition refs_ok (s : files) (held : list nat) : Prop :=
  length (refs s) = NFILE /\ (forall i r, refs s !! i = Some r -> r = count i held) /\
  (forall i, i ∈ held -> (i < NFILE)%nat).

(** * Lemmas *)

(** ** The interface of the process code *)

Definition files_ready (s : files) : Prop := ft_lock s = false /\ ic_lock (fsy s) = false.
Definition file_held (s : files) (f : Z) : Prop :=
  exists x, ftab s !! Z.to_nat (f - 1) = Some x /\ 1 <= f_ref x.
Definition ino_held (s : files) (i : Z) : Prop :=
  exists x, icache (fsy s) !! Z.to_nat (i - 1) = Some x /\ 1 <= i_ref x.

Lemma wpx_fref i x (Q : file -> files -> Prop) E s : ftab s !! i = Some x -> Q x s -> wpx (fref i) Q E s.
Proof. intros H HQ. unfold wpx, fref. by rewrite H. Qed.

Lemma wpx_fupd i g x (Q : unit -> files -> Prop) E s :
  ftab s !! i = Some x -> Q tt (set_ftab (<[i := g x]> (ftab s)) s) -> wpx (fupd i g) Q E s.
Proof. intros H HQ. unfold wpx, fupd. by rewrite H. Qed.

Lemma wpx_iupd i g x (Q : unit -> fsys -> Prop) E s :
  icache s !! i = Some x -> Q tt (set_icache (<[i := g x]> (icache s)) s) -> wpx (iupd i g) Q E s.
Proof. intros H HQ. unfold wpx, iupd. by rewrite H. Qed.

Lemma filedup_spec s f x :
  ft_lock s = false -> ftab s !! f = Some x -> 1 <= f_ref x ->
  wp (filedup f) (fun _ s' => s' = set_ftab (<[f := set_fref (f_ref x + 1) x]> (ftab s)) s) s.
Proof.
  intros Hl Hx Hr. unfold filedup. wp_step. apply wpx_acquire; [done|]. wp_step. eapply wpx_fref; [exact Hx|].
  rewrite (proj2 (Z.ltb_ge _ _)) by lia. wp_step. eapply wpx_fupd; [exact Hx|]. apply wpx_release; [done|].
  destruct s; simpl in *. by subst.
Qed.

Lemma held_insert (l : list file) i j g x :
  l !! i = Some x -> (f_ref x <= f_ref (g x)) ->
  (exists y, l !! j = Some y /\ 1 <= f_ref y) -> exists y, <[i := g x]> l !! j = Some y /\ 1 <= f_ref y.
Proof.
  intros Hx Hg (y & Hy & Hr). destruct (decide (i = j)) as [->|Hne].
  - exists (g x). rewrite list_lookup_insert_eq by (by eapply lookup_lt_Some). split; [done|]. rewrite Hx in Hy. injection Hy as ->. lia.
  - exists y. by rewrite list_lookup_insert_ne.
Qed.

(** The file layer keeps the promises the process code relies on. *)
#[export] Program Instance files_laws {K : KernelImage} {D : DevSw} : FileLaws files := {|
  fs_ok := files_ready; file_open := file_held; inode_held := ino_held |}.
Next Obligation.
  intros K D s f [Hl Hi] (x & Hx & Hr). simpl. wp_use (filedup_spec s (Z.to_nat (f - 1)) x Hl Hx Hr).
  intros _ s' ->. split; [done|]. split; [|done]. intros g Hg.
  exact (held_insert (ftab s) _ _ (fun x => set_fref (f_ref x + 1) x) x Hx ltac:(simpl; lia) Hg).
Qed.
Next Obligation.
  intros K D s i [Hl Hi] (x & Hx & Hr). simpl. wp_step. unfold infy. apply wpx_zoom. unfold idup.
  wp_step. apply wpx_acquire; [done|]. wp_step. eapply wpx_iupd; [exact Hx|]. wp_step. apply wpx_release; [done|]. wp_step. wp_step.
  split; [done|]. split; [done|]. intros j (y & Hy & Hry). unfold ino_held. simpl.
  destruct (decide (Z.to_nat (i - 1) = Z.to_nat (j - 1))) as [He|Hne].
  - rewrite <- He in *. exists (set_iref (i_ref x + 1) x). rewrite list_lookup_insert_eq by (by eapply lookup_lt_Some).
    split; [done|]. simpl. lia.
  - exists y. by rewrite list_lookup_insert_ne.
Qed.

(** ** Reference counts *)

(** A computation that leaves the reference counts as they are. *)
Definition quietf {A} (c : M files A) : Prop := forall s a s', c s = Ret a s' -> refs s' = refs s.
Definition quietp {A} (c : M (files * phys) A) : Prop := forall s a s', c s = Ret a s' -> refs s'.1 = refs s.1.

Create HintDb quiet.

Lemma quietf_bind {A B} (c : M files A) (k : A -> M files B) : quietf c -> (forall a, quietf (k a)) -> quietf (bind c k).
Proof.
  intros Hc Hk s b s' H. unfold bind in H. destruct (c s) as [a s1| | |] eqn:E; try done.
  rewrite (Hk _ _ _ _ H). by eapply Hc.
Qed.
Lemma quietf_ret {A} (a : A) : quietf (ret a).
Proof. by intros s b s' [= <- <-]. Qed.
Lemma quietf_gets {A} (f : files -> A) : quietf (gets f).
Proof. by intros s b s' [= <- <-]. Qed.
Lemma quietf_panic {A} m : quietf (A := A) (panic m).
Proof. done. Qed.
Lemma quietf_nofuel {A} : quietf (A := A) nofuel.
Proof. done. Qed.
Lemma quietf_fref i : quietf (fref i).
Proof. intros s a s'. unfold fref. destruct (ftab s !! i); [|done]. by intros [= <- <-]. Qed.
Lemma quietf_infy {A} (c : M fsys A) : quietf (infy c).
Proof. intros s a s'. unfold infy, zoom. destruct (c _); try done. by intros [= <- <-]. Qed.
Lemma quietf_inpipe {A} a (c : M pipe A) : quietf (inpipe a c).
Proof. intros s r s'. unfold inpipe. destruct (pipes s !! a); [|done]. destruct (c _); try done. by intros [= <- <-]. Qed.
Lemma quietf_acquire : quietf ft_acquire.
Proof. intros s a s'. unfold ft_acquire, lock_acquire. destruct (ft_lock s); [done|]. by intros [= <- <-]. Qed.
Lemma quietf_release : quietf ft_release.
Proof. intros s a s'. unfold ft_release, lock_release. destruct (ft_lock s); [|done]. by intros [= <- <-]. Qed.
Lemma quietf_fupd i g : (forall x, f_ref (g x) = f_ref x) -> quietf (fupd i g).
Proof.
  intros Hg s a s'. unfold fupd, refs. destruct (ftab s !! i) as [x|] eqn:Hx; [|done]. intros [= <- <-]. simpl.
  rewrite list_fmap_insert, Hg. apply list_insert_id. by rewrite list_lookup_fmap, Hx.
Qed.

Ltac quietf_step :=
  match goal with
  | |- quietf (bind _ _) => apply quietf_bind; [|intros ?]
  | |- quietf (ret _) => apply quietf_ret
  | |- quietf (gets _) => apply quietf_gets
  | |- quietf (panic _) => apply quietf_panic
  | |- quietf nofuel => apply quietf_nofuel
  | |- quietf (fref _) => apply quietf_fref
  | |- quietf (infy _) => apply quietf_infy
  | |- quietf (inpipe _ _) => apply quietf_inpipe
  | |- quietf (fupd _ _) => apply quietf_fupd; done
  | |- quietf (if ?b then _ else _) => destruct b
  | |- quietf (match ?x with _ => _ end) => destruct x
  end.

Section refcounts.
Context {K : KernelImage} {D : DevSw}.

Lemma quietf_fileread f n : quietf (fileread f n).
Proof. unfold fileread. repeat quietf_step. Qed.

Lemma quietf_filewrite_loop f fuel addr n i : quietf (filewrite_loop f fuel addr n i).
Proof. revert i. induction fuel as [|k IH]; intros i; cbn [filewrite_loop]; repeat quietf_step. apply IH. Qed.

Lemma quietf_filewrite f addr n : quietf (filewrite f addr n).
Proof. unfold filewrite. repeat quietf_step. apply quietf_filewrite_loop. Qed.

Lemma infile_run {A} (c : M files A) s a s' : infile c s = Ret a s' -> c s.1 = Ret a s'.1 /\ s'.2 = s.2.
Proof. unfold infile, zoom. destruct (c s.1); try done. by intros [= <- <-]. Qed.

Lemma bind_run {S A B} (c : M S A) (k : A -> M S B) s b s' :
  bind c k s = Ret b s' -> exists a s1, c s = Ret a s1 /\ k a s1 = Ret b s'.
Proof. unfold bind. destruct (c s) as [a s1| | |]; try done. by exists a, s1. Qed.

Lemma fupd_run i g s u s' :
  fupd i g s = Ret u s' -> exists x, ftab s !! i = Some x /\ refs s' = <[i := f_ref (g x)]> (refs s) /\ ftab s' !! i = Some (g x).
Proof.
  unfold fupd, refs. destruct (ftab s !! i) as [x|] eqn:Hx; [|done]. intros [= <- <-]. exists x. split; [done|].
  simpl. rewrite list_fmap_insert. split; [done|]. apply list_lookup_insert_eq. by eapply lookup_lt_Some.
Qed.

Lemma filealloc_scan_run k i s r s' :
  filealloc_scan k i s = Ret r s' -> s' = s /\ forall j, r = Some j -> exists x, ftab s !! j = Some x /\ f_ref x = 0.
Proof.
  revert i. induction k as [|k IH]; intros i; cbn [filealloc_scan].
  - by intros [= <- <-].
  - intros (x & s1 & Hx & Hk)%bind_run. unfold fref in Hx. destruct (ftab s !! i) as [y|] eqn:Hy; [|done].
    injection Hx as <- <-. destruct (Z.eqb_spec (f_ref y) 0) as [H0|_]; [|by apply (IH (S i))].
    injection Hk as <- <-. split; [done|]. intros j [= <-]. by exists y.
Qed.

Lemma filealloc_run s r s' :
  filealloc s = Ret r s' ->
  match r with
  | Some i => refs s !! i = Some 0 /\ refs s' = <[i := 1]> (refs s)
  | None => refs s' = refs s
  end.
Proof.
  intros (u & s1 & H1 & (r1 & s2 & H2 & H)%bind_run)%bind_run. pose proof (quietf_acquire _ _ _ H1) as E1.
  destruct (filealloc_scan_run _ _ _ _ _ H2) as [-> Hz]. destruct r1 as [i|].
  - destruct (bind_run _ _ _ _ _ H) as (u3 & s3 & H3 & H'). destruct (bind_run _ _ _ _ _ H') as (u4 & s4 & H4 & H5).
    injection H5 as <- <-. destruct (fupd_run _ _ _ _ _ H3) as (x & Hx & E3 & _). destruct (Hz i eq_refl) as (y & Hy & H0).
    rewrite Hx in Hy. injection Hy as <-. pose proof (quietf_release _ _ _ H4) as E4. rewrite E4, E3, E1. split; [|done].
    rewrite <- E1. unfold refs. by rewrite list_lookup_fmap, Hx, <- H0.
  - destruct (bind_run _ _ _ _ _ H) as (u3 & s3 & H3 & H'). injection H' as <- <-. by rewrite (quietf_release _ _ _ H3).
Qed.

Lemma filedup_run s f u s' :
  filedup f s = Ret u s' -> exists r, refs s !! f = Some r /\ 1 <= r /\ refs s' = <[f := r + 1]> (refs s).
Proof.
  intros (u1 & s1 & H1 & (x & s2 & H2 & H)%bind_run)%bind_run. pose proof (quietf_acquire _ _ _ H1) as E1.
  pose proof (quietf_fref _ _ _ _ H2) as E2. unfold fref in H2. destruct (ftab s1 !! f) as [y|] eqn:Hy; [|done]. injection H2 as <- <-.
  destruct (Z.ltb_spec (f_ref y) 1) as [|Hr]; [done|].
  destruct (bind_run _ _ _ _ _ H) as (u3 & s3 & H3 & H4). destruct (fupd_run _ _ _ _ _ H3) as (z & Hz & E3 & _).
  rewrite Hy in Hz. injection Hz as <-. exists (f_ref y). rewrite (quietf_release _ _ _ H4), E3, <- E1.
  split; [|done]. unfold refs. by rewrite list_lookup_fmap, Hy.
Qed.

Lemma quietp_infile {A} (c : M files A) : quietf c -> quietp (infile c).
Proof. intros Hc s a s' [H _]%infile_run. by eapply Hc. Qed.

Lemma quietp_inpages {A} (c : M phys A) : quietp (inpages c).
Proof. intros s a s'. unfold inpages, zoom. destruct (c _); try done. by intros [= <- <-]. Qed.

Lemma quietp_bind {A B} (c : M (files * phys) A) (k : A -> M (files * phys) B) :
  quietp c -> (forall a, quietp (k a)) -> quietp (bind c k).
Proof. intros Hc Hk s b s' (a & s1 & H1 & H2)%bind_run. rewrite (Hk _ _ _ _ H2). by eapply Hc. Qed.

Lemma quietp_ret {A} (a : A) : quietp (ret a).
Proof. by intros s b s' [= <- <-]. Qed.

Lemma quietp_fpipeclose a w : quietp (fpipeclose a w).
Proof.
  unfold fpipeclose. apply quietp_bind; [apply quietp_infile, quietf_inpipe|]. intros [|]; [|apply quietp_ret].
  apply quietp_bind; [|intros _; apply quietp_inpages]. apply quietp_infile. by intros s u s' [= <- <-].
Qed.

(** The end of [fileclose], after the entry has been freed. *)
Lemma quietp_close_tail ff :
  quietp (match f_type ff with
          | FD_PIPE => fpipeclose (f_pipe ff) (nz (f_writable ff))
          | FD_INODE =>
              do! infile (infy (inlog begin_op)) in
              do! infile (infy (iput (f_ip ff))) in
              infile (infy (inlog end_op))
          | FD_NONE => ret tt
          end).
Proof.
  destruct (f_type ff); [apply quietp_ret|apply quietp_fpipeclose|].
  repeat (apply quietp_bind; [apply quietp_infile, quietf_infy|intros _]). apply quietp_infile, quietf_infy.
Qed.

Lemma fileclose_run s f u s' :
  fileclose f s = Ret u s' -> exists r, refs s.1 !! f = Some r /\ 1 <= r /\ refs s'.1 = <[f := r - 1]> (refs s.1).
Proof.
  unfold fileclose. intros (u1 & s1 & [H1 _]%infile_run & (x & s2 & [H2 _]%infile_run & H)%bind_run)%bind_run.
  pose proof (quietf_acquire _ _ _ H1) as E1. unfold fref in H2. destruct (ftab s1.1 !! f) as [y|] eqn:Hy; [|done].
  injection H2 as -> E2. destruct (Z.ltb_spec (f_ref x) 1) as [|Hr]; [done|].
  destruct (bind_run _ _ _ _ _ H) as (u3 & s3 & [H3 _]%infile_run & H'). clear H.
  destruct (fupd_run _ _ _ _ _ H3) as (z & Hz & E3 & At3). rewrite <- E2, Hy in Hz. injection Hz as <-.
  destruct (bind_run _ _ _ _ _ H') as (ff & s4 & [H4 _]%infile_run & H). clear H'.
  unfold fref in H4. rewrite At3 in H4. injection H4 as <- E4.
  exists (f_ref x). split; [rewrite <- E1; unfold refs; by rewrite list_lookup_fmap, Hy|]. split; [done|].
  cbn [f_ref set_fref] in H. destruct (Z.ltb_spec 0 (f_ref x - 1)) as [Hpos|Hz].
  - apply infile_run in H as [H _]. rewrite (quietf_release _ _ _ H), <- E4, E3, <- E2, E1. done.
  - destruct (bind_run _ _ _ _ _ H) as (u5 & s5 & [H5 _]%infile_run & H'). destruct (bind_run _ _ _ _ _ H') as (u6 & s6 & [H6 _]%infile_run & H7).
    rewrite (quietp_close_tail _ _ _ _ H7), (quietf_release _ _ _ H6).
    destruct (fupd_run _ _ _ _ _ H5) as (w & Hw & E5 & _). rewrite E5, <- E4, E3, <- E2, E1, list_insert_insert_eq.
    f_equal. simpl. lia.
Qed.

Lemma pipealloc_run s r s' :
  pipealloc s = Ret r s' ->
  match r with
  | Some (f0, f1) => refs s.1 !! f0 = Some 0 /\ refs s.1 !! f1 = Some 0 /\ f0 <> f1 /\ refs s'.1 = <[f1 := 1]> (<[f0 := 1]> (refs s.1))
  | None => refs s'.1 = refs s.1
  end.
Proof.
  unfold pipealloc. intros (r0 & s1 & [H1 _]%infile_run & H)%bind_run. apply filealloc_run in H1.
  destruct r0 as [f0|]; [|by injection H as <- <-]. destruct H1 as [Z0 E0].
  assert (L0 : (f0 < length (refs s.1))%nat) by (by eapply lookup_lt_Some).
  destruct (bind_run _ _ _ _ _ H) as (r1 & s2 & [H2 _]%infile_run & H'). clear H. apply filealloc_run in H2.
  destruct r1 as [f1|].
  - destruct H2 as [Z1 E1]. rewrite E0 in Z1.
    assert (Hne : f0 <> f1) by (intros ->; by rewrite list_lookup_insert_eq in Z1).
    rewrite list_lookup_insert_ne in Z1 by done.
    destruct (bind_run _ _ _ _ _ H') as (p & s3 & H3 & H). clear H'. pose proof (quietp_inpages _ _ _ _ H3) as E3.
    destruct (p =? 0).
    + destruct (bind_run _ _ _ _ _ H) as (u4 & s4 & H4 & H'). destruct (bind_run _ _ _ _ _ H') as (u5 & s5 & H5 & H6).
      injection H6 as <- <-. destruct (fileclose_run _ _ _ _ H4) as (a & Ha & _ & E4).
      destruct (fileclose_run _ _ _ _ H5) as (b & Hb & _ & E5). rewrite E3, E1, E0 in Ha, E4. rewrite E4 in Hb, E5. rewrite E5.
      rewrite list_lookup_insert_ne, list_lookup_insert_eq in Ha by (done || congruence). injection Ha as <-.
      rewrite list_lookup_insert_ne, list_lookup_insert_eq in Hb by (rewrite ?length_insert; done || by eapply lookup_lt_Some).
      injection Hb as <-. change (1 - 1) with 0.
      apply list_eq. intros j. destruct (decide (j = f1)) as [->|]; [|rewrite list_lookup_insert_ne by congruence].
      * rewrite list_lookup_insert_eq by (rewrite !length_insert; by eapply lookup_lt_Some). done.
      * destruct (decide (j = f0)) as [->|].
        -- rewrite list_lookup_insert_eq by (by rewrite !length_insert). done.
        -- by rewrite !list_lookup_insert_ne by congruence.
    + destruct (bind_run _ _ _ _ _ H) as (j4 & s4 & H4 & H'). injection H4 as <- <-.
      destruct (bind_run _ _ _ _ _ H') as (u5 & s5 & [H5 _]%infile_run & H6). injection H5 as <- E5.
      destruct (bind_run _ _ _ _ _ H6) as (u6 & s6 & [H7 _]%infile_run & H8).
      destruct (bind_run _ _ _ _ _ H8) as (u7 & s7 & [H9 _]%infile_run & H10). injection H10 as <- <-.
      split; [done|]. split; [done|]. split; [done|].
      rewrite (quietf_fupd f1 (set_fpipe 0 1 p) (fun x => eq_refl) _ _ _ H9), (quietf_fupd f0 (set_fpipe 1 0 p) (fun x => eq_refl) _ _ _ H7).
      rewrite <- E5. change (refs (set_pipes _ s3.1)) with (refs s3.1). by rewrite E3, E1, E0.
  - destruct (bind_run _ _ _ _ _ H') as (u4 & s4 & H4 & H5). injection H5 as <- <-.
    destruct (fileclose_run _ _ _ _ H4) as (a & Ha & _ & E4). rewrite E4, H2, E0, list_insert_insert_eq.
    rewrite H2, E0, list_lookup_insert_eq in Ha by done. injection Ha as <-. by apply list_insert_id.
Qed.

(** ** The invariant *)

Lemma count_cons i j held : count i (j :: held) = (if decide (j = i) then 1 else 0) + count i held.
Proof. unfold count. rewrite filter_cons. case_decide; simpl; lia. Qed.

Lemma count_pos i held : 1 <= count i held -> i ∈ held.
Proof.
  induction held as [|j held IH]; [done|]. rewrite count_cons. case_decide as Hj; [subst; set_solver|].
  intros H. apply elem_of_cons. right. apply IH. lia.
Qed.

Lemma count_in i held : i ∈ held -> 1 <= count i held.
Proof.
  induction held as [|j held IH]; [by intros ?%elem_of_nil|]. rewrite count_cons. intros [->|H]%elem_of_cons.
  - rewrite decide_True by done. unfold count. lia.
  - specialize (IH H). case_decide; lia.
Qed.

Lemma count_middle i j h1 h2 : count i (h1 ++ j :: h2) = (if decide (j = i) then 1 else 0) + count i (h1 ++ h2).
Proof.
  induction h1 as [|a h1 IH]; [apply count_cons|]. simpl app. rewrite !count_cons, IH. lia.
Qed.

(** One reference more to [i]. *)
Lemma refs_add s s' held i r :
  refs_ok s held -> refs s !! i = Some r -> refs s' = <[i := r + 1]> (refs s) -> refs_ok s' (i :: held).
Proof.
  intros (Hl & Hr & Hh) Hi E. pose proof (lookup_lt_Some _ _ _ Hi) as Hlt. split_and!.
  - by rewrite E, length_insert.
  - intros j q. rewrite E, count_cons. intros Hj. destruct (decide (i = j)) as [->|Hne].
    + rewrite list_lookup_insert_eq in Hj by done. injection Hj as <-. rewrite <- (Hr j r Hi). lia.
    + rewrite list_lookup_insert_ne in Hj by done. by rewrite (Hr j q Hj).
  - intros j [->|Hj]%elem_of_cons; [lia|by apply Hh].
Qed.

Lemma refs_remove s s' h1 h2 i r :
  refs_ok s (h1 ++ i :: h2) -> refs s !! i = Some r -> refs s' = <[i := r - 1]> (refs s) -> refs_ok s' (h1 ++ h2).
Proof.
  intros (Hl & Hr & Hh) Hi E. pose proof (lookup_lt_Some _ _ _ Hi) as Hlt. split_and!.
  - by rewrite E, length_insert.
  - intros j q. rewrite E. intros Hj. destruct (decide (i = j)) as [->|Hne].
    + rewrite list_lookup_insert_eq in Hj by done. injection Hj as <-. rewrite (Hr j r Hi), count_middle, decide_True by done. lia.
    + rewrite list_lookup_insert_ne in Hj by done. by rewrite (Hr j q Hj), count_middle, decide_False.
  - intros j Hj. apply Hh. set_solver.
Qed.

Lemma refs_same s s' held : refs_ok s held -> refs s' = refs s -> refs_ok s' held.
Proof. intros H E. unfold refs_ok. by rewrite E. Qed.

Lemma file_step_ok S S' : refs_ok S.1.1 S.2 -> file_step S S' -> refs_ok S'.1.1 S'.2.
Proof.
  intros I Hst. destruct Hst as [s s' i held H|s s' held H|s s' i held Hi H|s s' i h1 h2 H|s s' f0 f1 held H|s s' held H|s s' i n r held Hi H|s s' i a n r held Hi H]; simpl in *.
  - apply infile_run in H as [[Hz E]%filealloc_run _]. by eapply refs_add.
  - apply infile_run in H as [E%filealloc_run _]. by eapply refs_same.
  - apply infile_run in H as [(r & Hr & _ & E)%filedup_run _]. by eapply refs_add.
  - apply fileclose_run in H as (r & Hr & _ & E). by eapply refs_remove.
  - apply pipealloc_run in H as (Z0 & Z1 & Hne & E). rewrite list_insert_insert_ne in E by congruence.
    assert (I1 : refs_ok (set_ftab (<[f1 := set_fref 1 (default (mkFile FD_NONE 0 0 0 0 0 0) (ftab s.1 !! f1))]> (ftab s.1)) s.1) (f1 :: held)).
    { eapply refs_add; [exact I|exact Z1|]. unfold refs. simpl. by rewrite list_fmap_insert. }
    eapply refs_add; [exact I1| |].
    + unfold refs. simpl. rewrite list_fmap_insert. rewrite list_lookup_insert_ne by congruence. exact Z0.
    + rewrite E. unfold refs. simpl. by rewrite list_fmap_insert.
  - apply pipealloc_run in H. by eapply refs_same.
  - apply infile_run in H as [E%quietf_fileread _]. by eapply refs_same.
  - apply infile_run in H as [E%quietf_filewrite _]. by eapply refs_same.
Qed.

End refcounts.

(** ** Theorems *)

(** C22: reference counting of open files.  However descriptors are opened,
    duplicated, closed, read, written and made into pipes, the count of every
    entry of the file table stays the number of references held to it; so an
    entry that is held is never handed out again, and a reference that is held
    can always be duplicated. *)
Theorem file_refcounts {K : KernelImage} {D : DevSw} S0 S :
  refs_ok S0.1.1 S0.2 -> file_reach S0 S ->
  refs_ok S.1.1 S.2 /\
  (forall i, i ∈ S.2 -> exists x, ftab S.1.1 !! i = Some x /\ 1 <= f_ref x) /\
  (forall i s', infile filealloc S.1 = Ret (Some i) s' -> i ∉ S.2) /\
  (forall i, i ∈ S.2 -> ft_lock S.1.1 = false -> exists s', infile (filedup i) S.1 = Ret tt s').
Proof.
  intros H0 Hr. assert (I : refs_ok S.1.1 S.2).
  { induction Hr as [|S S' Hr IH Hst]; [done|]. by eapply file_step_ok. }
  assert (Hheld : forall i, i ∈ S.2 -> exists x, ftab S.1.1 !! i = Some x /\ 1 <= f_ref x).
  { intros i Hi. destruct I as (Hl & Hrf & Hh). destruct (lookup_lt_is_Some_2 (refs S.1.1) i) as [r Hir].
    { rewrite Hl. by apply Hh. }
    pose proof (Hrf i r Hir) as Er. unfold refs in Hir. rewrite list_lookup_fmap in Hir.
    destruct (ftab S.1.1 !! i) as [x|]; [|done]. exists x. split; [done|]. injection Hir as Hx. pose proof (count_in i S.2 Hi). lia. }
  split; [done|]. split; [done|]. split.
  - intros i s' [[Hz _]%filealloc_run _]%infile_run Hi. destruct I as (_ & Hrf & _).
    pose proof (Hrf i 0 Hz). pose proof (count_in i S.2 Hi). lia.
  - intros i Hi Hlk. destruct (Hheld i Hi) as (x & Hx & Hx1).
    destruct (wp_run _ _ _ (filedup_spec S.1.1 i x Hlk Hx Hx1)) as ([] & s' & Hrun & _).
    exists (s', S.1.2). unfold infile, zoom. by rewrite Hrun.
Qed.

(** An empty file table over an empty disk, with no devices. *)
Definition no_devices : DevSw := {| dev_read := fun _ => None; dev_write := fun _ => None |}.
Definition closed_file : file := mkFile FD_NONE 0 0 0 0 0 0.
Definition no_files : files :=
  mkFiles (mkFs (mkLog (bss 1 [] []) false 0 0 0 0 0 0 []) [] false (mkSuper 0 0 0 0 0 0 0))
    (replicate NFILE closed_file) false ∅ false.
Definition one_file : files := set_ftab (<[0%nat := set_fref 1 closed_file]> (ftab no_files)) no_files.

Lemma no_files_ok : refs_ok no_files [].
Proof.
  split; [reflexivity|]. split.
  - intros i r. unfold refs, no_files. cbn [ftab]. rewrite fmap_replicate. intros [-> _]%lookup_replicate. reflexivity.
  - intros i H. by apply elem_of_nil in H.
Qed.

Lemma file_refcounts_witness :
  refs_ok one_file [0%nat] /\
  (forall i, i ∈ [0%nat] -> exists x, ftab one_file !! i = Some x /\ 1 <= f_ref x) /\
  (forall i s', infile filealloc (one_file, boot_phys) = Ret (Some i) s' -> i ∉ [0%nat]) /\
  (forall i, i ∈ [0%nat] -> ft_lock one_file = false -> exists s', infile (filedup i) (one_file, boot_phys) = Ret tt s').
Proof.
  apply (@file_refcounts demo_image no_devices (no_files, boot_phys, []) (one_file, boot_phys, [0%nat]) no_files_ok).
  eapply fr_step; [apply fr_refl|]. apply (@fs_alloc demo_image no_devices (no_files, boot_phys) (one_file, boot_phys) 0 []).
  vm_compute. reflexivity.
Defined.
