(* ===== verification/FsTheorems.v ===== *)
(** * What the file system's blocks and files promise (src/fs.c, src/file.c)

    Allocation of blocks, and reading and writing of files, inside a
    transaction; with a small disk. *)

From S2P Require Import Prelude.
From S2P Require Import Bytes.
From S2P Require Import Sleeplock.
From S2P Require Import Bio.
From S2P Require Import Log.
From S2P Require Import LogSpec.
From S2P Require Import LogTheorems.
From S2P Require Import Path.
From S2P Require Import Fs.
From S2P Require Import FsBlock.
From S2P Require Import FsFile.
From S2P Require Import FsWrite.
From S2P Require Import File.

Open Scope Z_scope.

(** A file, not a device, in a transaction on a disk with one bitmap block. *)
Record fstate (st sz : nat) (f : fsys) (bs : list nat) (v : list bytes) (ip : nat) (x : inode) : Prop := {
  fs_vol : vol st sz f bs v ∅;
  fs_layout : layout (fsb f) st sz (length v);
  fs_bitmap : bitmap_ok (fsb f) st sz v;
  fs_one : sb_size (fsb f) <= BPB;
  fs_inode : icache f !! ip = Some x;
  fs_file : file_ok (fsb f) st sz v x;
  fs_range : inode_range x;
  fs_inum : 0 <= i_inum x < sb_ninodes (fsb f);
  fs_type : i_type x <> T_DEV;
}.

(** ** A small disk *)

(** A log of 12 blocks from block 2 on, the inodes in block 14, the bitmap in
    block 15, and 4 data blocks. *)
Definition fdemo_sb : superblock := mkSuper 20 4 8 12 2 14 15.
Definition fdemo_sb_blk : bytes := put_words zero_blk 0 [20; 4; 8; 12; 2; 14; 15].
Definition fdemo_bitmap : bytes := wr8 (wr8 zero_blk 0 255) 1 255.
Definition fdemo_disk : list bytes :=
  [zero_blk; fdemo_sb_blk] ++ replicate 13 zero_blk ++ [fdemo_bitmap] ++ replicate 4 zero_blk.
(** An empty file. *)
Definition fdemo_inode : inode := mkInode 1 3 1 (mkSleep 1 1) 1 T_FILE 0 0 1 0 (replicate 13 0).
Definition fdemo_log : log := after (do! reboot in begin_op) (reset 1 fdemo_disk).
Definition fdemo : fsys := mkFs fdemo_log [fdemo_inode] false fdemo_sb.
Definition fdemo_view : list bytes := <[2%nat := clear_header zero_blk]> fdemo_disk.

(** * Lemmas *)

Lemma written_range sb st sz v x off data v' x' :
  layout sb st sz (length v) -> inode_range x -> written sb st sz v x off data v' x' -> inode_range x'.
Proof.
  intros L [R1 R2 R3 R4 R5 R6] W. destruct (wn_inode _ _ _ _ _ _ _ _ _ W) as [l El]. pose proof (wn_ok _ _ _ _ _ _ _ _ _ W) as F.
  rewrite <- (wn_len _ _ _ _ _ _ _ _ _ W) in L. pose proof (fo_size _ _ _ _ _ F) as Hs. change (MAXFILE * 512) with 71680 in Hs.
  split; [by rewrite El..|unfold is_u32; lia|]. split; [apply F|by eapply file_addrs_u32].
Qed.

Lemma written_state st sz f bs v ip x off data bs' v' x' f' :
  fstate st sz f bs v ip x -> istep st sz f ip x' bs' v' f' -> written (fsb f) st sz v x off data v' x' -> fstate st sz f' bs' v' ip x'.
Proof.
  intros [V L B O I F R N T] S W. pose proof S as [_ V']. pose proof (wn_len _ _ _ _ _ _ _ _ _ W) as Hl.
  destruct (istep_inode st sz f ip x' bs' v' f') as [Hx Hsb]; [by eapply lookup_lt_Some|done|].
  destruct (wn_inode _ _ _ _ _ _ _ _ _ W) as [l El]. split; rewrite ?Hsb, ?Hl; try done; try apply W.
  - by eapply written_range.
  - by rewrite El.
  - by rewrite El.
Qed.

Lemma nblocks_max off n : 0 <= n <= write_max -> (nblocks off n <= 4)%nat.
Proof. intros Hn. unfold nblocks, write_max, MAXOPBLOCKS in *. dlia. Qed.

Section files.
Context `{DevSw}.

(** [writei] on a file in a transaction. *)
Lemma writei_state st sz f bs v ip x src off n :
  fstate st sz f bs v ip x -> is_u32 off -> is_u32 n -> n <= Z.of_nat (length src) -> room sz bs ∅ (nblocks off n + 9) ->
  off <= i_size x -> off + n <= MAXFILE * 512 ->
  wpx (writei ip src off n) (fun r f' => r = n /\ exists bs' v' x', fstate st sz f' bs' v' ip x' /\
      written (fsb f) st sz v x off (take (Z.to_nat n) src) v' x' /\ fsb f' = fsb f /\
      (length bs' <= length bs + nblocks off n + 3)%nat) out_of_blocks f.
Proof.
  intros Hf Ho Hn Hs R H1 H2. pose proof Hf as [V L B O I F Rg N T].
  eapply wpx_mono; [apply (writei_spec (fsb f) st sz f bs v ip x src off n); done| |done].
  intros r f'. unfold writei_post. rewrite decide_True by done. intros (-> & bs' & v' & x' & S & W & Hl). split; [done|].
  exists bs', v', x'. split; [by eapply written_state|]. split; [done|]. split; [|done].
  by apply (istep_inode st sz f ip x' bs' v' f'); [eapply lookup_lt_Some|].
Qed.

End files.

Lemma fbytes_written sb st sz v x off data v' x' :
  written sb st sz v x off data v' x' -> fbytes v' x' off (length data) = data.
Proof.
  intros W. apply list_eq_same_length with (length data); [done|unfold fbytes; by rewrite length_map, length_zrange|].
  intros i a b Hi Ha Hb. unfold fbytes in Ha. rewrite list_lookup_fmap, lookup_zrange in Ha by done. injection Ha as <-.
  by apply (wn_new _ _ _ _ _ _ _ _ _ W).
Qed.

Lemma fdemo_layout : layout fdemo_sb 2 12 20.
Proof.
  split; cbn [sb_size sb_bmapstart sb_inodestart sb_ninodes fdemo_sb]; try lia.
  - intros b Hb. unfold home, in_log, bb, BPB. cbn [sb_bmapstart fdemo_sb]. replace (b / 4096) with 0 by dlia. cbn. lia.
  - intros i Hi. unfold home, in_log, ib, IPB. cbn [sb_inodestart fdemo_sb]. replace (i / 8) with 0 by dlia. cbn. lia.
  - intros b i Hb Hi. unfold bb, ib, BPB, IPB. cbn [sb_bmapstart sb_inodestart fdemo_sb].
    replace (b / 4096) with 0 by dlia. replace (i / 8) with 0 by dlia. cbn. lia.
Qed.

Lemma fdemo_data b : 16 <= b < 20 -> is_data fdemo_sb 2 12 20 b.
Proof.
  intros Hb. unfold is_data, home, in_log. cbn [sb_size fdemo_sb]. split; [lia|]. split; [lia|]. split.
  - intros c Hc. unfold bb, BPB. cbn [sb_bmapstart fdemo_sb]. replace (c / 4096) with 0 by dlia. cbn. lia.
  - intros i Hi. cbn [sb_ninodes fdemo_sb] in Hi. unfold ib, IPB. cbn [sb_inodestart fdemo_sb]. replace (i / 8) with 0 by dlia. cbn. lia.
Qed.

Lemma fdemo_bitmap_ok : bitmap_ok fdemo_sb 2 12 fdemo_view.
Proof.
  assert (Hu : forallb (used fdemo_sb fdemo_view) (zrange 0 16) = true) by (vm_compute; reflexivity).
  intros b Hb Hf. cbn [sb_size fdemo_sb] in Hb. destruct (Z_lt_ge_dec b 16) as [Hlt|Hge].
  - rewrite forallb_forall in Hu. rewrite (Hu b) in Hf by (apply list_elem_of_In, elem_of_zrange; lia). done.
  - change (length fdemo_view) with 20%nat. apply fdemo_data. lia.
Qed.

Lemma fdemo_vol : vol 2 12 fdemo [] fdemo_view ∅.
Proof.
  assert (HD : Forall is_blk fdemo_disk) by (repeat constructor).
  assert (H1 : Z.of_nat (length fdemo_disk) < 2147483648 /\ (2 + 12 <= length fdemo_disk)%nat /\ (1 < 2)%nat /\ Z.of_nat 12 <= LOGSIZE)
    by (change (length fdemo_disk) with 20%nat; unfold LOGSIZE; lia).
  assert (H2 : exists sb, fdemo_disk !! 1%nat = Some sb /\ rd32 sb 16 = Z.of_nat 2 /\ rd32 sb 12 = Z.of_nat 12)
    by (exists fdemo_sb_blk; split; [reflexivity|split; vm_compute; reflexivity]).
  assert (H3 : on_disk_header zero_blk []) by (split; vm_compute; done).
  destruct (wp_run _ _ _ (reboot_trans 2 12 fdemo_disk 1 zero_blk HD H1 ltac:(lia) H2 eq_refl H3)) as ([] & g1 & Hr & T & Ho & Hc & HM).
  assert (H4 : lh_n g1 + (l_outstanding g1 + 1) * MAXOPBLOCKS <= LOGSIZE)
    by (rewrite Ho, (lg_n _ _ _ _ (tr_geom _ _ _ _ _ _ T)); unfold MAXOPBLOCKS, LOGSIZE; cbn; lia).
  destruct (wp_run _ _ _ (begin_op_spec g1 (tr_lock _ _ _ _ _ _ T) Hc H4)) as ([] & g2 & Hr2 & Hg2).
  assert (Hl : fdemo_log = g2) by exact (after_bind _ _ _ _ _ _ _ Hr Hr2).
  unfold fdemo. rewrite Hl. rewrite HM in T. split; cbn [lg].
  - rewrite Hg2. by eapply trans_same.
  - rewrite Hg2. cbn. lia.
  - intros m. right. rewrite Hg2. cbn. by rewrite HM.
Qed.

Lemma fdemo_room : room 12 [] ∅ 11.
Proof. unfold room. rewrite map_size_empty. cbn. lia. Qed.

Lemma room_le sz bs lk j k : room sz bs lk k -> (j <= k)%nat -> room sz bs lk j.
Proof. unfold room. lia. Qed.

Lemma fdemo_state : fstate 2 12 fdemo [] fdemo_view 0 fdemo_inode.
Proof.
  split.
  - exact fdemo_vol.
  - exact fdemo_layout.
  - exact fdemo_bitmap_ok.
  - vm_compute. discriminate.
  - reflexivity.
  - assert (Ha : forall k, addr_at fdemo_inode k = 0).
    { intros k. unfold addr_at. cbn [i_addrs fdemo_inode]. destruct (replicate 13 0 !! Z.to_nat k) eqn:E; [|done].
      by apply lookup_replicate in E as [-> _]. }
    assert (Hf : forall k, faddr fdemo_view fdemo_inode k = 0).
    { intros k. unfold faddr, ind. rewrite !Ha. by destruct (k <? NDIRECT). }
    split; try reflexivity.
    + unfold ind. rewrite Ha. done.
    + intros k _. by rewrite Hf.
    + intros j k _ _. by rewrite Hf.
    + change (MAXFILE * 512) with 71680. cbn. lia.
    + intros k Hk. cbn. lia.
  - split; cbn [i_type i_major i_minor i_nlink i_size i_addrs fdemo_inode]; unfold is_s16, is_u32, T_FILE; [lia..|].
    split; [reflexivity|]. by apply Forall_replicate.
  - cbn. lia.
  - discriminate.
Qed.

(** ** Theorems *)

(** Allocation of disk blocks.  [balloc] takes the first block that is
    free in the bitmap, marks it and zeroes it, changes no other block outside
    the bitmap, and panics exactly when no block is free; [bfree] of a used
    block clears its bit and nothing else, and panics on a free one. *)
Theorem balloc_bfree st sz f bs v lk :
  vol st sz f bs v lk -> layout (fsb f) st sz (length v) -> bitmap_ok (fsb f) st sz v -> unlocked (fsb f) v lk -> room sz bs lk 2 ->
  wpx (balloc 1) (fun a f' => exists bs' v', vstep st sz f bs' v' lk f' /\ taken (fsb f) v a v' /\ bitmap_ok (fsb f) st sz v')
    (disk_full (fsb f) v) f /\
  forall b, 0 <= b < sb_size (fsb f) ->
    wpx (bfree 1 b) (fun _ f' => used (fsb f) v b = true /\ exists v',
        vstep st sz f (add_block bs (bb (fsb f) b)) v' lk f' /\ given (fsb f) v b v')
      (fun msg => msg = "freeing free block" /\ used (fsb f) v b = false) f.
Proof.
  intros V L B U R. split.
  - eapply wpx_mono; [by apply (balloc_spec st sz f bs v lk)| |done]. intros a f' (bs' & v' & S & T & _).
    exists bs', v'. split; [done|]. split; [done|]. by eapply taken_bitmap.
  - intros b Hb. destruct (U b Hb) as [Hl _]. apply bfree_spec; try done. unfold room in *. lia.
Qed.

Lemma balloc_bfree_witness : exists a f', balloc 1 fdemo = Ret a f' /\ exists v', taken fdemo_sb fdemo_view a v'.
Proof.
  destruct (balloc_bfree 2 12 fdemo [] fdemo_view ∅ fdemo_vol fdemo_layout fdemo_bitmap_ok) as [H _].
  - intros b Hb. split; [apply lookup_empty|]. intros _. apply lookup_empty.
  - apply (room_le _ _ _ _ _ fdemo_room). lia.
  - destruct (wpx_cases _ _ _ _ H) as [(a & f' & Hr & bs' & v' & _ & T & _)|(m & Hm)].
    + exists a, f'. split; [exact Hr|]. exists v'. exact T.
    + exfalso. destruct Hm as [_ Hm]. cbn [fsb fdemo] in Hm. specialize (Hm 16 ltac:(cbn; lia)). revert Hm. vm_compute. discriminate.
Defined.

(** C24: [writei] writes a file.  A write that starts inside the file and does
    not pass the largest file returns its count; afterwards the file has the
    bytes written, and is longer if they pass its end; every other byte of it,
    every block of other files and every other inode is as before, and the
    inode on the disk still is that in memory.  A write of at most [write_max]
    bytes logs at most [MAXOPBLOCKS] blocks.  Other writes return -1 and
    change nothing.  The only panic is a full disk. *)
Theorem writei_writes `{DevSw} st sz f bs v ip x src off n :
  fstate st sz f bs v ip x -> is_u32 off -> is_u32 n -> n <= Z.of_nat (length src) -> room sz bs ∅ (nblocks off n + 9) ->
  wpx (writei ip src off n) (fun r f' =>
    if decide (off <= i_size x /\ off + n <= MAXFILE * 512)
    then r = n /\ exists bs' v' x', fstate st sz f' bs' v' ip x' /\ written (fsb f) st sz v x off (take (Z.to_nat n) src) v' x' /\
           (n <= write_max -> Z.of_nat (length bs') <= Z.of_nat (length bs) + MAXOPBLOCKS)
    else r = -1 /\ f' = f) out_of_blocks f.
Proof.
  intros Hf Ho Hn Hs R. pose proof Hf as [V L B O I F Rg N T].
  eapply wpx_mono; [apply (writei_spec (fsb f) st sz f bs v ip x src off n); done| |done].
  intros r f'. unfold writei_post. case_decide as Hd; [|done]. intros (-> & bs' & v' & x' & S & W & Hl). split; [done|].
  exists bs', v', x'. split; [by eapply written_state|]. split; [done|]. intros Hm. unfold is_u32 in Hn.
  pose proof (nblocks_max off n ltac:(lia)). unfold MAXOPBLOCKS. lia.
Qed.

Lemma writei_writes_witness : exists f', @writei no_devices 0 [1; 2; 3] 0 3 fdemo = Ret 3 f' /\
  exists v' x', written fdemo_sb 2 12 fdemo_view fdemo_inode 0 [1; 2; 3] v' x'.
Proof.
  assert (H : wpx (@writei no_devices 0 [1; 2; 3] 0 3) (fun r f' => r = 3 /\
      exists v' x', written fdemo_sb 2 12 fdemo_view fdemo_inode 0 [1; 2; 3] v' x') out_of_blocks fdemo).
  { eapply wpx_mono.
    - apply (@writei_writes no_devices 2 12 fdemo [] fdemo_view 0 fdemo_inode [1; 2; 3] 0 3 fdemo_state).
      + unfold is_u32. lia.
      + unfold is_u32. lia.
      + cbn. lia.
      + apply (room_le _ _ _ _ _ fdemo_room). vm_compute. lia.
    - intros r f'. cbv beta. rewrite decide_True by (split; vm_compute; discriminate). intros (-> & bs' & v' & x' & _ & W & _). eauto.
    - done. }
  destruct (wpx_result _ _ _ _ 3 H) as (f' & Hr & _ & W); [vm_compute; reflexivity|]. exists f'. split; [exact Hr|exact W].
Defined.

(** What is written is read back.  After a [writei] inside a transaction, a
    [readi] of the same range returns the bytes written. *)
Theorem writei_readi_roundtrip `{DevSw} st sz f bs v ip x src off n :
  fstate st sz f bs v ip x -> is_u32 off -> is_u32 n -> n <= Z.of_nat (length src) -> room sz bs ∅ (nblocks off n + 9) ->
  off <= i_size x -> off + n <= MAXFILE * 512 ->
  wpx (do! writei ip src off n in readi ip off n) (fun r _ => r = (n, take (Z.to_nat n) src)) out_of_blocks f.
Proof.
  intros Hf Ho Hn Hs R H1 H2. wp_step. wp_use (writei_state st sz f bs v ip x src off n Hf Ho Hn Hs R H1 H2).
  intros r f' (-> & bs' & v' & x' & Hf' & W & Hsb & Hl). pose proof Hf' as [V' L' B' O' I' F' R' N' T'].
  unfold is_u32 in *. change (MAXFILE * 512) with 71680 in H2. rewrite Hsb in *.
  eapply wpx_mono; [apply (readi_spec (fsb f) st sz f' bs' v' ip x' off n); try done; unfold room in *; try lia| |done].
  destruct (wn_inode _ _ _ _ _ _ _ _ _ W) as [l El]. set (data := take (Z.to_nat n) src) in *.
  assert (Hdl : Z.of_nat (length data) = n) by (unfold data; rewrite length_take; lia).
  assert (Hsz : i_size x' = Z.max (i_size x) (off + n)) by (rewrite El, <- Hdl; done).
  intros r f2 [_ ->]. rewrite decide_True by lia. rewrite Z.min_l by lia. f_equal.
  rewrite <- Hdl, Nat2Z.id. by eapply fbytes_written.
Qed.

Lemma writei_readi_roundtrip_witness :
  exists f', (do! @writei no_devices 0 [1; 2; 3] 0 3 in @readi no_devices 0 0 3) fdemo = Ret (3, [1; 2; 3]) f'.
Proof.
  destruct (wpx_result _ (fun r _ => r = (3, [1; 2; 3])) out_of_blocks fdemo (3, [1; 2; 3])
    (@writei_readi_roundtrip no_devices 2 12 fdemo [] fdemo_view 0 fdemo_inode [1; 2; 3] 0 3 fdemo_state
      ltac:(unfold is_u32; lia) ltac:(unfold is_u32; lia) ltac:(cbn; lia)
      (room_le 12 [] ∅ (nblocks 0 3 + 9) 11 fdemo_room ltac:(vm_compute; lia)) ltac:(cbn; lia) ltac:(vm_compute; discriminate)))
    as (f' & Hr & _); [vm_compute; reflexivity|]. exists f'. exact Hr.
Defined.
