(* ===== verification/FsBoot.v ===== *)
(** * Booting, and what names mean after it (src/fs.c, src/proc.c: forkret)

    The file system as the first process finds it - [binit] of main, [iinit]
    and [initlog] of [forkret] - and the theorem on path names, with a small
    disk that has a directory. *)

From S2P Require Import Prelude.
From S2P Require Import Bytes.
From S2P Require Import Sleeplock.
From S2P Require Import Bio.
From S2P Require Import Log.
From S2P Require Import LogSpec.
From S2P Require Import LogTheorems.
From S2P Require Import Path.
From S2P Require Import Fs.
From S2P Require Import FsBlock.
From S2P Require Import FsFile.
From S2P Require Import FsWrite.
From S2P Require Import FsPid.
From S2P Require Import FsDir.
From S2P Require Import File.
From S2P Require Import FsTheorems.

Open Scope Z_scope.

(** The memory after a reset. *)
Definition zero_inode : inode := mkInode 0 0 0 (mkSleep 0 0) 0 0 0 0 0 0 (replicate 13 0).
Definition fs_reset (pid : Z) (D : list bytes) : fsys := mkFs (reset pid D) (replicate NINODE zero_inode) false (mkSuper 0 0 0 0 0 0 0).

Definition fs_boot : M fsys unit :=
  do! inlog (inb binit) in
  do! iinit ROOTDEV in
  inlog (initlog ROOTDEV).

(** The file system between calls. *)
Record fs_idle (sb : superblock) (st sz : nat) (v : list bytes) (f : fsys) : Prop := {
  fi_trans : trans st sz (lg f) [] v ∅;
  fi_disk : memdisk (bc (lg f)) = v;
  fi_ops : l_outstanding (lg f) = 0 /\ l_committing (lg f) = 0;
  fi_sb : fsb f = sb;
  fi_lock : ic_lock f = false;
  fi_cache : cache_ok sb v None (icache f);
}.

(** ** A small disk with a directory *)

(** A program in the ELF format: the entry point is 0, and its one segment, of
    four bytes in the file and eight in memory, is a jump to itself. *)
Definition ddemo_prog : bytes :=
  [127; 69; 76; 70] ++ replicate 20 0 ++ le32 0 ++ le32 52 ++ replicate 12 0 ++ le16 1 ++ replicate 6 0 ++
  le32 1 ++ le32 84 ++ le32 0 ++ le32 0 ++ le32 4 ++ le32 8 ++ replicate 8 0 ++ [235; 254; 0; 0].

(** The disk of FsTheorems.v with a root directory in block 16, and a file "a"
    that is inode 2, with the program in block 17. *)
Definition ddemo_root : inode := mkInode 1 1 0 (mkSleep 0 0) 1 T_DIR 0 0 1 48 (16 :: replicate 12 0).
Definition ddemo_file : inode := mkInode 1 2 0 (mkSleep 0 0) 1 T_FILE 0 0 1 88 (17 :: replicate 12 0).
Definition ddemo_dir : bytes :=
  mk_dirent 1 (bstrncpy [46] 14) ++ mk_dirent 1 (bstrncpy [46; 46] 14) ++ mk_dirent 2 (bstrncpy [97] 14) ++ replicate 464 0.
Definition ddemo_inodes : bytes := put_dinode (put_dinode zero_blk 64 ddemo_root) 128 ddemo_file.
Definition ddemo_disk : list bytes :=
  [zero_blk; fdemo_sb_blk] ++ replicate 12 zero_blk ++ [ddemo_inodes; wr8 fdemo_bitmap 2 3; ddemo_dir; ddemo_prog ++ replicate 424 0] ++ replicate 2 zero_blk.

(** After booting, with the root directory as the current one. *)
Definition ddemo_boot : M fsys nat :=
  do! (do! fs_boot in inlog begin_op) in
  iget ROOTDEV ROOTINO.
Definition ddemo : fsys := after ddemo_boot (fs_reset 1 ddemo_disk).

(** * Lemmas *)

Lemma init_locks E f : icache f = replicate NINODE zero_inode ->
  wpx (mfor (seq 0 NINODE) (fun i => iupd i (set_ilock initsleeplock))) (fun _ f' => f' = f) E f.
Proof.
  intros Hc. eapply wpx_mono; [apply (wpx_mfor _ (fun l f' => f' = f /\ Forall (fun i => (i < NINODE)%nat) l) E)| |done].
  - intros i l s [-> Hl]. apply Forall_cons in Hl as [Hi Hl]. assert (Hx : icache f !! i = Some zero_inode) by (rewrite Hc; by apply lookup_replicate_2).
    eapply wpx_iput_at; [exact Hx|]. split; [|done]. change (set_ilock initsleeplock zero_inode) with zero_inode. rewrite list_insert_id by done. by destruct f.
  - split; [done|]. apply Forall_forall. intros i Hi. apply elem_of_seq in Hi. lia.
  - intros [] s [-> _]. done.
Qed.

(** Every entry of the inode cache is free. *)
Lemma cache_free sb v : cache_ok sb v None (replicate NINODE zero_inode).
Proof.
  assert (H : forall k x, replicate NINODE zero_inode !! k = Some x -> x = zero_inode) by (intros k x Hk; by apply lookup_replicate in Hk as [-> _]).
  split.
  - apply length_replicate.
  - intros k x Hk. by rewrite (H k x Hk).
  - intros k x Hk _. by rewrite (H k x Hk).
  - intros k x Hk. rewrite (H k x Hk). cbn. lia.
  - intros j k x y Hj _ Hx. rewrite (H j x Hj) in Hx. cbn in Hx. lia.
Qed.

(** Beginning an operation. *)
Lemma begin_idle sb st sz v f : fs_idle sb st sz v f ->
  wp (inlog begin_op) (fun _ f' => fs_ok sb st sz v (fs_pid f, 1, 0) [] None f' /\ icache f' = icache f) f.
Proof.
  intros [T M [O C] Hsb Hl Hc]. apply wpx_inlog. eapply wpx_mono; [apply (begin_op_spec (lg f)); [apply T|done|]| |done].
  { by rewrite (lg_n _ _ _ _ (tr_geom _ _ _ _ _ _ T)), O. }
  intros [] g' ->. split; [|done]. split; try done.
  - unfold fs_ctx, log_ctx. cbn. by rewrite O, C.
  - split; [by eapply trans_same|cbn; rewrite O; lia|]. intros m. right. cbn. by rewrite M.
Qed.

(** Booting from a disk with an empty log. *)
Lemma fs_boot_idle st sz D pid h : bootable st sz D h [] [] ->
  wp fs_boot (fun _ f => fs_idle (get_superblock (blk D 1)) st sz (<[st := clear_header h]> D) f /\ icache f = replicate NINODE zero_inode) (fs_reset pid D).
Proof.
  intros Hb. pose proof (bt_sb _ _ _ _ _ _ Hb) as (d & Hd & _). unfold fs_boot. wp_step. apply wpx_inlog. apply wpx_inb.
  wp_use (binit_spec pid D [] never (bt_blk _ _ _ _ _ _ Hb)). intros _ s (M & W & _ & I). wp_step. unfold iinit. wp_step. apply wpx_modify.
  wp_step. eapply wpx_mono; [by apply (init_locks never)| |done]. intros [] f1 ->. wp_step. apply wpx_inlog.
  wp_use (readsb_spec (set_bc s (reset pid D)) D d I Hd). intros r g1 (s1 & -> & -> & I1 & [M1 W1]). apply wpx_modify. apply wpx_inlog.
  cbn in M1, W1. eapply wpx_mono; [apply (initlog_spec st sz D pid h [] [] s1 Hb I1); congruence| |done]. intros [] g Hg.
  destruct (booted_trans _ _ _ _ _ Hb Hg) as [T Hm]. rewrite Hm in T. split; [|done].
  split; [done|done|split; apply Hg|cbn; unfold blk; by rewrite Hd|done|apply cache_free].
Qed.

(** ... and beginning an operation. *)
Lemma fs_boot_spec st sz D pid h : bootable st sz D h [] [] ->
  wp (do! fs_boot in inlog begin_op) (fun _ f =>
    (exists p, fs_ok (get_superblock (blk D 1)) st sz (<[st := clear_header h]> D) (p, 1, 0) [] None f) /\ icache f = replicate NINODE zero_inode) (fs_reset pid D).
Proof.
  intros Hb. wp_step. eapply wpx_mono; [by apply fs_boot_idle| |done]. intros [] f [Hf Hc].
  eapply wpx_mono; [by apply begin_idle| |done]. intros [] f' [Hf' Hc']. split; [by exists (fs_pid f)|congruence].
Qed.

(** ** The small disk *)

Lemma ddemo_bootable : bootable 2 12 ddemo_disk zero_blk [] [].
Proof.
  split; try done.
  - repeat constructor.
  - change (length ddemo_disk) with 20%nat. unfold LOGSIZE. lia.
  - exists fdemo_sb_blk. split; [reflexivity|split; vm_compute; reflexivity].
  - cbn. lia.
  - intros m Hm. by apply elem_of_nil in Hm.
Qed.

Definition ddemo_view : list bytes := <[2%nat := clear_header zero_blk]> ddemo_disk.

Lemma ddemo_sb : get_superblock (blk ddemo_disk 1) = fdemo_sb.
Proof. vm_compute. reflexivity. Qed.

Lemma ddemo_bitmap : bitmap_ok fdemo_sb 2 12 ddemo_view.
Proof.
  assert (Hu : forallb (used fdemo_sb ddemo_view) (zrange 0 18) = true) by (vm_compute; reflexivity).
  intros b Hb Hf. cbn [sb_size fdemo_sb] in Hb. destruct (Z_lt_ge_dec b 18) as [Hlt|Hge].
  - rewrite forallb_forall in Hu. rewrite (Hu b) in Hf by (apply list_elem_of_In, elem_of_zrange; lia). done.
  - change (length ddemo_view) with 20%nat. apply fdemo_data. lia.
Qed.

(** A file whose blocks are all in the inode. *)
Lemma small_file v x (a : Z) : length v = 20%nat -> i_dev x = 1 -> length (i_addrs x) = 13%nat -> 0 <= i_size x <= 512 ->
  (a = 0 /\ i_size x = 0 \/ 16 <= a < 20 /\ used fdemo_sb v a = true) ->
  (forall k, 0 <= k <= 12 -> addr_at x k = if k =? 0 then a else 0) -> file_ok fdemo_sb 2 12 v x.
Proof.
  intros Hl Hd Ha Hs Hblk Haddr. assert (Hi : ind x = 0) by (apply (Haddr 12); lia).
  assert (Hf : forall k, 0 <= k -> faddr v x k = if k =? 0 then a else 0).
  { intros k Hk. unfold faddr. rewrite Hi. destruct (Z.ltb_spec k NDIRECT) as [H|H]; unfold NDIRECT in H; [apply Haddr; lia|]. by rewrite (proj2 (Z.eqb_neq k 0)) by lia. }
  split; try done.
  - intros k Hk. rewrite Hf, Hi, Hl by lia. destruct (Z.eqb_spec k 0) as [->|]; [|done]. intros Hz. destruct Hblk as [[-> _]|[Hr Hu]]; [done|].
    split; [by apply fdemo_data|]. split; [done|lia].
  - intros j k Hj Hk. rewrite !Hf by lia. destruct (Z.eqb_spec j 0) as [->|], (Z.eqb_spec k 0) as [->|]; try done.
  - change (MAXFILE * 512) with 71680. lia.
  - intros k Hk Hks. rewrite Hf by lia. rewrite (proj2 (Z.eqb_eq k 0)) by lia. lia.
Qed.

Lemma demo_addrs x a : forallb (fun k => addr_at x k =? (if k =? 0 then a else 0)) (zrange 0 13) = true ->
  forall k, 0 <= k <= 12 -> addr_at x k = if k =? 0 then a else 0.
Proof. intros Ha k Hk. rewrite forallb_forall in Ha. apply Z.eqb_eq, Ha, list_elem_of_In, elem_of_zrange. lia. Qed.

Definition ddemo_set (i : Z) : Prop := i = 1 \/ i = 2.

Lemma ddemo_tree : tree fdemo_sb 2 12 ddemo_view ddemo_set.
Proof.
  assert (H1 : disk_inode fdemo_sb ddemo_view 1 = ddemo_root) by (vm_compute; reflexivity).
  assert (H2 : disk_inode fdemo_sb ddemo_view 2 = ddemo_file) by (vm_compute; reflexivity).
  split.
  - intros i [->| ->]; cbn; lia.
  - intros i [->| ->]; [rewrite H1|rewrite H2]; clear H1 H2.
    + apply (small_file _ _ 16); [done|done|done|cbn; lia|right; split; [lia|vm_compute; reflexivity]|by apply demo_addrs].
    + apply (small_file _ _ 17); [done|done|done|cbn; lia|right; split; [lia|vm_compute; reflexivity]|by apply demo_addrs].
  - intros i [->| ->]; [rewrite H1|rewrite H2]; clear H1 H2; done.
  - intros i [->| ->]; [rewrite H1|rewrite H2]; clear H1 H2; done.
  - intros i [->| ->]; [rewrite H1|rewrite H2]; clear H1 H2; done.
  - intros i de [->| ->]; [rewrite H1|rewrite H2; clear H1 H2; done]. clear H1 H2. intros _ Hde Hz.
    assert (He : map de_inum (dir_entries ddemo_view ddemo_root) = [1; 1; 2]) by (vm_compute; reflexivity).
    assert (Hin : de_inum de ∈ map de_inum (dir_entries ddemo_view ddemo_root)) by (apply list_elem_of_In, in_map, list_elem_of_In, Hde).
    rewrite He in Hin. clear He Hde. rewrite !elem_of_cons, elem_of_nil in Hin. unfold ddemo_set. tauto.
Qed.

Lemma ddemo_ok : fs_ok fdemo_sb 2 12 ddemo_view (1, 1, 0) [] None ddemo /\ live ddemo 0 1.
Proof.
  assert (H : wpx ddemo_boot (fun k f => (exists p, fs_ok fdemo_sb 2 12 ddemo_view (p, 1, 0) [] None f) /\ live f k 1) (no_inodes 0) (fs_reset 1 ddemo_disk)).
  { unfold ddemo_boot. wp_step. eapply wpx_mono; [apply (fs_boot_spec 2 12 ddemo_disk 1 zero_blk ddemo_bootable)| |done].
    intros [] f [[p Hf] Hc]. rewrite ddemo_sb in Hf. fold ddemo_view in Hf.
    eapply wpx_mono; [apply (iget_spec fdemo_sb 2 12 ddemo_view (p, 1, 0) [] None f 1 Hf); [cbn; lia|done]| |by rewrite Hc].
    intros k f' (H1 & H2 & _). split; [by exists p|done]. }
  destruct (wpx_result _ _ _ _ 0%nat H) as (f & Hr & [p Hf] & Hl); [vm_compute; reflexivity|].
  assert (Ef : ddemo = f) by (unfold ddemo, after; by rewrite Hr). rewrite <- Ef in Hf, Hl. split; [|done].
  assert (Hp : fs_ctx ddemo = (1, 1, 0)) by (vm_compute; reflexivity). rewrite (fk_ctx _ _ _ _ _ _ _ _ Hf) in Hp. injection Hp as ->. done.
Qed.

(** ** Theorems *)

(** C23: path names mean what the directories on the disk say.  In a file system
    whose directories list files in use, [namei] returns the inode that following
    the elements of the path leads to, from the root or the current directory, and
    0 when it leads nowhere; [nameiparent] stops one element early, and leaves the
    last one in the buffer.  Either way the call holds exactly one more reference
    than before, to the inode it returns, every inode is unlocked, and the disk
    is as it was; the only panic is that of a full inode cache, for which at
    least NINODE - 1 references must be held. *)
Theorem namei_resolves sb st sz v cx bs `{DevSw} L f cwd icwd path name :
  tree sb st sz v L -> layout sb st sz (length v) -> bitmap_ok sb st sz v -> room sz bs ∅ 6 -> fs_ok sb st sz v cx bs None f ->
  L ROOTINO -> (rd8 path 0 <> SLASH -> live f cwd icwd /\ L icwd) -> is_path path -> length name = DIRSIZ ->
  let names := take DIRSIZ <$> elems path in let i := start icwd path in
  wpx (namei cwd path) (fun r f' => fs_ok sb st sz v cx bs None f' /\
    match resolve sb v i names with
    | Some j => exists ip, r = Some ip /\ live f' ip j /\ counted f j 1 f'
    | None => r = None /\ counted f i 0 f'
    end) (no_inodes (held (icache f) + 1)) f /\
  wpx (nameiparent cwd path name) (fun r f' => fs_ok sb st sz v cx bs None f' /\
    match resolve_parent sb v i names with
    | Some (j, nm) => exists ip, r.1 = Some ip /\ live f' ip j /\ counted f j 1 f' /\ name_of r.2 = nm
    | None => r.1 = None /\ counted f i 0 f'
    end) (no_inodes (held (icache f) + 1)) f.
Proof.
  intros Te Ly B R Hf Hroot Hcwd Hp Hn names i. split.
  - unfold namei. wp_step. eapply wpx_mono; [apply (namex_spec sb st sz v cx bs L f cwd icwd path false (replicate DIRSIZ 0)); done| |done].
    fold names i. intros r f' (f1 & Hc & H1 & H2 & H3 & _). apply wpx_ret. split; [done|]. cbn [outcome] in *. destruct (resolve sb v i names) as [j|].
    + destruct H3 as (ip & H3 & H4 & _). exists ip. split; [done|]. split; [done|]. intros m. rewrite H2, Hc. destruct (m =? i), (m =? j); lia.
    + split; [done|]. intros m. rewrite H2, Hc. destruct (m =? i); lia.
  - unfold nameiparent. eapply wpx_mono; [apply (namex_spec sb st sz v cx bs L f cwd icwd path true name); done| |done].
    fold names i. intros r f' (f1 & Hc & H1 & H2 & H3 & H4). split; [done|]. cbn [outcome] in *. specialize (H4 eq_refl). destruct (resolve_parent sb v i names) as [[j nm]|]; cbn in *.
    + destruct H3 as (ip & H3 & H5 & _). exists ip. split; [done|]. split; [done|]. split; [|by apply (H4 j)]. intros m. rewrite H2, Hc. destruct (m =? i), (m =? j); lia.
    + split; [done|]. intros m. rewrite H2, Hc. destruct (m =? i); lia.
Qed.

(** "/a" *)
Lemma namei_resolves_witness : exists f', @namei no_devices 0 [47; 97] ddemo = Ret (Some 1%nat) f' /\ live f' 1 2.
Proof.
  destruct ddemo_ok as [Hf Hl].
  destruct (@namei_resolves fdemo_sb 2 12 ddemo_view (1, 1, 0) [] no_devices ddemo_set ddemo 0 1 [47; 97] (replicate 14 0)
    ddemo_tree fdemo_layout ddemo_bitmap ltac:(unfold room; rewrite map_size_empty; cbn; lia) Hf ltac:(by left) ltac:(done) ltac:(repeat constructor; lia) eq_refl) as [H _].
  destruct (wpx_result _ _ _ _ (Some 1%nat) H) as (f' & Hr & _ & Hj); [vm_compute; reflexivity|]. exists f'. split; [done|].
  assert (Hres : resolve fdemo_sb ddemo_view (start 1 [47; 97]) (take DIRSIZ <$> elems [47; 97]) = Some 2) by (vm_compute; reflexivity).
  rewrite Hres in Hj. destruct Hj as (ip & [= <-] & Hlv & _). done.
Defined.
