(* ===== verification/Args.v ===== *)
(** * System call arguments (src/syscall.c)

    Fetching integers, pointers and strings from the memory and the stack of
    the current process.  User memory is reached through the page table of the
    process; the addresses that were checked lie below its size. *)

From S2P Require Import Prelude.
From S2P Require Import CString.
From S2P Require Import Mmu.
From S2P Require Import Kalloc.
From S2P Require Import Vm.
From S2P Require Import Demo.
From S2P Require Import VmTheorems.
From S2P Require Import Kernel.
From S2P Require Import Shm.

Open Scope Z_scope.

Section args.
Context {F : Type}.

(** The current process. *)
Definition mycur : M (kernel F) proc := let! cur := myproc in get_proc cur.

(** A byte and a word of user memory. *)
Definition uld8 (a : Z) : M (kernel F) Z := let! p := mycur in inphys (va_ld8 (pgdir p) a).
Definition uld32 (a : Z) : M (kernel F) Z := let! p := mycur in inphys (va_ld32 (pgdir p) a).

(** [fetchint]: the integer, or [None] for -1. *)
Definition fetchint (addr : Z) : M (kernel F) (option Z) :=
  let! p := mycur in
  if (sz p <=? addr) || (sz p <? u32 (addr + 4)) then ret None
  else
    let! v := uld32 addr in
    ret (Some (s32 v)).

(** The loop of [fetchstr], with [k] bytes left below the size: the length. *)
Fixpoint fetchstr_loop (k : nat) (start s : Z) : M (kernel F) (option Z) :=
  match k with
  | O => ret None
  | S k' =>
      let! c := uld8 s in
      if c =? 0 then ret (Some (s - start)) else fetchstr_loop k' start (s + 1)
  end.

(** [fetchstr]: the length of the string at [addr], or [None] for -1. *)
Definition fetchstr (addr : Z) : M (kernel F) (option Z) :=
  let! p := mycur in
  if sz p <=? addr then ret None
  else fetchstr_loop (Z.to_nat (sz p - addr)) addr addr.

Definition argint (n : Z) : M (kernel F) (option Z) :=
  let! p := mycur in
  fetchint (u32 (tf_esp (tf p) + 4 + 4 * n)).

(** [argptr]: the pointer, or [None] for -1. *)
Definition argptr (n size : Z) : M (kernel F) (option Z) :=
  let! p := mycur in
  let! r := argint n in
  match r with
  | None => ret None
  | Some i =>
      if (size <? 0) || (sz p <=? u32 i) || (sz p <? u32 (u32 i + size)) then ret None
      else ret (Some (u32 i))
  end.

(** [argstr]: the address and the length of the string, or [None] for -1. *)
Definition argstr (n : Z) : M (kernel F) (option (Z * Z)) :=
  let! r := argint n in
  match r with
  | None => ret None
  | Some addr =>
      let! l := fetchstr (u32 addr) in
      ret (match l with Some l => Some (u32 addr, l) | None => None end)
  end.

(** The bytes of user memory from [a] on, and storing bytes there. *)
Fixpoint ubytes (a : Z) (n : nat) : M (kernel F) (list Z) :=
  match n with
  | O => ret []
  | S n' =>
      let! c := uld8 a in
      let! l := ubytes (a + 1) n' in
      ret (c :: l)
  end.

Fixpoint ustore (a : Z) (l : list Z) : M (kernel F) unit :=
  match l with
  | [] => ret tt
  | c :: l' =>
      let! p := mycur in
      do! inphys (va_st8 (pgdir p) a c) in
      ustore (a + 1) l'
  end.

(** The string an argument points at. *)
Definition argpath (n : Z) : M (kernel F) (option (list Z)) :=
  let! r := argstr n in
  match r with
  | None => ret None
  | Some (a, l) =>
      let! s := ubytes a (Z.to_nat l) in
      ret (Some s)
  end.

End args.

(** * Lemmas *)

(** A computation that changes nothing when it returns. *)
Definition reads {F A} (c : M (kernel F) A) : Prop := forall s a s', c s = Ret a s' -> s' = s.

(** A sequence that returns is two computations that return. *)
Lemma run_bind {S A B} (c : M S A) (k : A -> M S B) (s : S) b (s' : S) :
  bind c k s = Ret b s' -> exists a (s1 : S), c s = Ret a s1 /\ k a s1 = Ret b s'.
Proof. unfold bind. destruct (c s) as [a s1| | |]; try done. by exists a, s1. Qed.

Section reads.
Context {F : Type}.
Implicit Types s : kernel F.

Lemma reads_bind {A B} (c : M (kernel F) A) (k : A -> M (kernel F) B) :
  reads c -> (forall a, reads (k a)) -> reads (bind c k).
Proof. intros Hc Hk s b s' (a & s1 & H1 & H2)%run_bind. rewrite (Hk _ _ _ _ H2). by eapply Hc. Qed.

Lemma reads_ret {A} (a : A) : reads (F := F) (ret a).
Proof. by intros s b s' [= <- <-]. Qed.

Lemma reads_mycur : reads (F := F) mycur.
Proof.
  apply reads_bind; [by intros s a s' [= <- <-]|]. intros cur s p s'. unfold get_proc.
  destruct (ptable s !! cur); [|done]. by intros [= <- <-].
Qed.

Lemma va_ld8_reads pgdir a ph b ph' : va_ld8 pgdir a ph = Ret b ph' -> ph' = ph.
Proof.
  unfold va_ld8, bind, gets. destruct (va_xlat _ _ _ _); [|done]. by intros [= <- <-].
Qed.

Lemma va_ld32_reads pgdir a ph b ph' : va_ld32 pgdir a ph = Ret b ph' -> ph' = ph.
Proof.
  unfold va_ld32. intros (b0 & p0 & H0 & (b1 & p1 & H1 & (b2 & p2 & H2 & (b3 & p3 & H3 & H4)%run_bind)%run_bind)%run_bind)%run_bind.
  injection H4 as <- <-. apply va_ld8_reads in H0, H1, H2, H3. congruence.
Qed.

Lemma reads_inphys {A} (c : M phys A) : (forall ph b ph', c ph = Ret b ph' -> ph' = ph) -> reads (F := F) (inphys c).
Proof.
  intros Hc s a s'. unfold inphys, zoom. destruct (c (kphys s)) as [b ph| | |] eqn:E; try done. intros [= <- <-].
  rewrite (Hc _ _ _ E). by destruct s.
Qed.

Lemma reads_uld8 a : reads (F := F) (uld8 a).
Proof. apply reads_bind; [apply reads_mycur|]. intros p. apply reads_inphys. apply va_ld8_reads. Qed.

Lemma reads_uld32 a : reads (F := F) (uld32 a).
Proof. apply reads_bind; [apply reads_mycur|]. intros p. apply reads_inphys. apply va_ld32_reads. Qed.

Lemma reads_fetchint a : reads (F := F) (fetchint a).
Proof.
  apply reads_bind; [apply reads_mycur|]. intros p. case_if E; [apply reads_ret|].
  apply reads_bind; [apply reads_uld32|]. intros v. apply reads_ret.
Qed.

Lemma reads_argint n : reads (F := F) (argint n).
Proof. apply reads_bind; [apply reads_mycur|]. intros p. apply reads_fetchint. Qed.

Lemma mycur_run s p : ptable s !! curproc s = Some p -> mycur s = Ret p s.
Proof. intros H. unfold mycur, bind, myproc, gets, get_proc. by rewrite H. Qed.

Lemma uld8_run s p a c s' :
  ptable s !! curproc s = Some p -> uld8 a s = Ret c s' -> va_ld8 (pgdir p) a (kphys s) = Ret c (kphys s).
Proof.
  intros Hp (q & s1 & Hq & H)%run_bind. rewrite (mycur_run s p Hp) in Hq. injection Hq as <- <-.
  unfold inphys, zoom in H. destruct (va_ld8 _ _ _) as [b ph| | |] eqn:E; try done. injection H as <- <-.
  f_equal. by eapply va_ld8_reads.
Qed.

(** A string in the memory of the process: [l] bytes that are not 0, then 0. *)
Definition ustring (ph : phys) (pgdir a l : Z) : Prop :=
  va_ld8 pgdir (a + l) ph = Ret 0 ph /\
  forall i, 0 <= i < l -> exists c, c <> 0 /\ va_ld8 pgdir (a + i) ph = Ret c ph.

Lemma fetchstr_loop_run s p k start a l s' :
  ptable s !! curproc s = Some p -> fetchstr_loop k start a s = Ret (Some l) s' -> start <= a ->
  (forall i, start <= i < a -> exists c, c <> 0 /\ va_ld8 (pgdir p) i (kphys s) = Ret c (kphys s)) ->
  s' = s /\ 0 <= l /\ start + l < a + Z.of_nat k /\ ustring (kphys s) (pgdir p) start l.
Proof.
  intros Hp. revert a. induction k as [|k IH]; intros a H Ha Hb; cbn [fetchstr_loop] in H; [done|].
  apply run_bind in H as (c & s1 & Hc & H). pose proof (reads_uld8 _ _ _ _ Hc) as ->.
  pose proof (uld8_run _ _ _ _ _ Hp Hc) as Hv. destruct (Z.eqb_spec c 0) as [Hc0|Hc0].
  - injection H as <- <-. rewrite Hc0 in Hv. split; [done|]. split; [lia|]. split; [lia|]. split.
    + by replace (start + (a - start)) with a by lia.
    + intros i Hi. apply Hb. lia.
  - destruct (IH (a + 1) H) as (-> & H1 & H2 & H3); [lia| |].
    + intros i Hi. destruct (decide (i = a)) as [->|]; [by exists c|]. apply Hb. lia.
    + split; [done|]. split; [done|]. split; [lia|done].
Qed.

End reads.

(** ** Theorems *)

(** C33: pointers from user space stay inside the process.  [argptr] accepts
    an argument exactly when the block of [size] bytes it points at lies below
    the size of the process, computed without wrap-around, and changes
    nothing; the string that [argstr] accepts lies inside the process with its
    terminator. *)
Theorem args_in_process {F} (s : kernel F) p n size :
  ptable s !! curproc s = Some p -> 0 <= sz p <= 2147483648 -> size < 2147483648 ->
  (forall r s', argint n s = Ret r s' ->
     argptr n size s = Ret (match r with
                            | Some v => if decide (0 <= size /\ u32 v < sz p /\ u32 v + size <= sz p)
                                        then Some (u32 v) else None
                            | None => None
                            end) s) /\
  (forall a l s', argstr n s = Ret (Some (a, l)) s' ->
     s' = s /\ 0 <= a /\ 0 <= l /\ a + l < sz p /\ ustring (kphys s) (pgdir p) a l).
Proof.
  intros Hp Hsz Hsize. split.
  - intros r s' H. pose proof (reads_argint _ _ _ _ H) as ->. unfold argptr, bind. rewrite (mycur_run s p Hp), H.
    destruct r as [v|]; [|done]. pose proof (u32_range v) as [Hv1 Hv2].
    case_decide as Hd.
    + destruct Hd as (H1 & H2 & H3). rewrite (u32_small (u32 v + size)) by (unfold is_u32; lia).
      rewrite (proj2 (Z.ltb_ge _ _)), (proj2 (Z.leb_gt _ _)), (proj2 (Z.ltb_ge _ _)) by lia. done.
    + destruct (Z.ltb_spec size 0); [done|]. destruct (Z.leb_spec (sz p) (u32 v)); [done|].
      rewrite (u32_small (u32 v + size)) by (unfold is_u32; lia). rewrite (proj2 (Z.ltb_lt _ _)) by lia. done.
  - intros a l s' (r & s1 & H1 & H2)%run_bind. pose proof (reads_argint _ _ _ _ H1) as ->.
    destruct r as [addr|]; [|done]. apply run_bind in H2 as (m & s2 & H2 & H3). destruct m as [l'|]; [|done].
    injection H3 as <- <- <-. pose proof (u32_range addr) as [Hv1 Hv2].
    apply run_bind in H2 as (q & s3 & Hq & H2). rewrite (mycur_run s p Hp) in Hq. injection Hq as <- <-.
    destruct (Z.leb_spec (sz p) (u32 addr)); [done|].
    destruct (fetchstr_loop_run s p _ _ _ _ _ Hp H2) as (-> & H4 & H5 & H6); [lia|intros; lia|].
    split; [done|]. split; [done|]. split; [done|]. split; [lia|done].
Qed.

(** A process of one page whose first argument is 16, where the string "hi"
    starts. *)
Definition args_proc : proc :=
  mkProc 4096 demo_dir 0 RUNNING 1 None (mkTf 0 0 0 0 0 0 0 0 0 0 0 0 0 0 0 0 0 0 0) 0 ChNone 0 [] 0 [] [].
Definition args_demo : kernel unit :=
  after (do! ustore 4 [16] in ustore 16 [104; 105])
    (mkKernel demo_user [args_proc] false 2 0 0 [] false tt).

Lemma result_reads {F A} (c : M (kernel F) A) s a : reads c -> result c s = Some a -> c s = Ret a s.
Proof.
  unfold result. intros Hc. destruct (c s) as [b s'| | |] eqn:E; try done. intros [= <-]. by rewrite (Hc _ _ _ E).
Qed.

Lemma reads_argstr {F} n : reads (F := F) (argstr n).
Proof.
  apply reads_bind; [apply reads_argint|]. intros [a|]; [|apply reads_ret].
  apply reads_bind; [|intros; apply reads_ret]. apply reads_bind; [apply reads_mycur|].
  intros p. case_if E; [apply reads_ret|]. generalize (u32 a) at 3.
  induction (Z.to_nat _) as [|k IH]; intros b; [apply reads_ret|].
  apply reads_bind; [apply reads_uld8|]. intros c. case_if Ec; [apply reads_ret|apply IH].
Qed.

Lemma args_in_process_witness :
  argptr 0 4080 args_demo = Ret (Some 16) args_demo /\ argptr 0 4081 args_demo = Ret None args_demo /\
  argstr 0 args_demo = Ret (Some (16, 2)) args_demo /\ ustring (kphys args_demo) demo_dir 16 2.
Proof.
  assert (Hp : ptable args_demo !! curproc args_demo = Some args_proc) by (vm_compute; reflexivity).
  assert (Hi : argint 0 args_demo = Ret (Some 16) args_demo)
    by (apply (result_reads _ _ _ (reads_argint 0)); vm_compute; reflexivity).
  assert (Hs : argstr 0 args_demo = Ret (Some (16, 2)) args_demo)
    by (apply (result_reads _ _ _ (reads_argstr 0)); vm_compute; reflexivity).
  assert (Hz : 0 <= sz args_proc <= 2147483648) by (split; discriminate).
  split; [|split; [|split]].
  - exact (proj1 (args_in_process args_demo args_proc 0 4080 Hp Hz ltac:(lia)) _ _ Hi).
  - exact (proj1 (args_in_process args_demo args_proc 0 4081 Hp Hz ltac:(lia)) _ _ Hi).
  - exact Hs.
  - exact (proj2 (proj2 (proj2 (proj2 (proj2 (args_in_process args_demo args_proc 0 0 Hp Hz ltac:(lia)) _ _ _ Hs))))).
Defined.
