(* ===== verification/Sysproc.v ===== *)
(** * Process system calls (src/sysproc.c)

    The handlers on the machine's state: the kernel's, and the clock that
    src/trap.c keeps.  A handler that may sleep or that ends the process returns
    an option: [None] when it left for the scheduler (inside [sched]).  The loop
    of [sys_sleep] is one pass, [sleep_pass], between [ticks_sleep] and
    [ticks_resume], the two halves of [sleep(&ticks, &tickslock)]. *)

From S2P Require Import Prelude.
From S2P Require Import CString.
From S2P Require Import Mmu.
From S2P Require Import Kalloc.
From S2P Require Import Vm.
From S2P Require Import Kernel.
From S2P Require Import Shm.
From S2P Require Import Proc.
From S2P Require Import Args.

Open Scope Z_scope.

Record machine (F : Type) := mkMachine {
  kern : kernel F;
  ticks : Z;
  tickslock : bool;
}.
Arguments mkMachine {F}.
Arguments kern {F}.
Arguments ticks {F}.
Arguments tickslock {F}.

(** The address of the variable [ticks], the channel of [sys_sleep]. *)
Class TicksAddr := ticks_addr : Z.

Section sysproc.
Context {K : KernelImage} {KC : KernelCode} {TA : TicksAddr} {F : Type} {FO : FileOps F}.

Definition set_kern (v : kernel F) (m : machine F) : machine F := mkMachine v (ticks m) (tickslock m).
Definition set_ticks (v : Z) (m : machine F) : machine F := mkMachine (kern m) v (tickslock m).
Definition set_tickslock (v : bool) (m : machine F) : machine F := mkMachine (kern m) (ticks m) v.

(** Kernel code on the machine. *)
Definition ink {A} (c : M (kernel F) A) : M (machine F) A := zoom kern set_kern c.

Definition ticks_acquire : M (machine F) unit := lock_acquire tickslock set_tickslock.
Definition ticks_release : M (machine F) unit := lock_release tickslock set_tickslock.

Definition sys_fork : M (machine F) Z := ink fork.

Definition sys_exit : M (machine F) (option Z) := do! ink exit_ in ret None.

Definition sys_wait : M (machine F) (option Z) :=
  let! r := ink wait_enter in
  ret (match r with
       | WPid p => Some p
       | WNoChild => Some (-1)
       | WSleep => None
       end).

Definition sys_kill : M (machine F) Z :=
  let! p := ink (argint 0) in
  match p with
  | None => ret (-1)
  | Some p => ink (kill p)
  end.

Definition sys_getpid : M (machine F) Z := let! p := ink mycur in ret (pid p).

Definition sys_sbrk : M (machine F) Z :=
  let! n := ink (argint 0) in
  match n with
  | None => ret (-1)
  | Some n =>
      let! p := ink mycur in
      let addr := s32 (sz p) in
      let! r := ink (growproc n) in
      if r <? 0 then ret (-1) else ret addr
  end.

(** [sleep(&ticks, &tickslock)] up to [sched] and from there on. *)
Definition ticks_sleep : M (machine F) unit :=
  do! ink ptable_acquire in
  do! ticks_release in
  ink (sleep_enter (ChAddr ticks_addr) None).

Definition ticks_resume : M (machine F) unit :=
  do! ink (sleep_exit None) in
  do! ink ptable_release in
  ticks_acquire.

(** One pass of the loop of [sys_sleep]; [ticks - ticks0 < n] compares
    unsigned numbers. *)
Definition sleep_pass (n ticks0 : Z) : M (machine F) (option Z) :=
  let! now := gets ticks in
  if u32 (now - ticks0) <? u32 n then
    let! p := ink mycur in
    if nz (killed p) then
      do! ticks_release in
      ret (Some (-1))
    else
      do! ticks_sleep in
      ret None
  else
    do! ticks_release in
    ret (Some 0).

Definition sys_sleep : M (machine F) (option Z) :=
  let! n := ink (argint 0) in
  match n with
  | None => ret (Some (-1))
  | Some n =>
      do! ticks_acquire in
      let! ticks0 := gets ticks in
      sleep_pass n ticks0
  end.

Definition sys_uptime : M (machine F) Z :=
  do! ticks_acquire in
  let! xticks := gets ticks in
  do! ticks_release in
  ret (s32 xticks).

Definition sys_shmget : M (machine F) Z :=
  let! key := ink (argint 0) in
  match key with
  | None => ret (-1)
  | Some key =>
      let! size := ink (argint 1) in
      match size with
      | None => ret (-1)
      | Some size =>
          let! shmflag := ink (argint 2) in
          match shmflag with
          | None => ret (-1)
          | Some shmflag => ink (shmget (u32 key) (u32 size) shmflag)
          end
      end
  end.

Definition sys_shmdt : M (machine F) Z :=
  let! i := ink (argint 0) in
  match i with
  | None => ret 0
  | Some i => ink (shmdt (u32 i))
  end.

Definition sys_shmat : M (machine F) Z :=
  let! shmid := ink (argint 0) in
  match shmid with
  | None => ret 0
  | Some shmid =>
      let! i := ink (argint 1) in
      match i with
      | None => ret 0
      | Some i =>
          let! shmflag := ink (argint 2) in
          match shmflag with
          | None => ret 0
          | Some shmflag => ink (shmat shmid (u32 i) shmflag)
          end
      end
  end.

Definition sys_shmctl : M (machine F) Z :=
  let! shmid := ink (argint 0) in
  match shmid with
  | None => ret (-1)
  | Some shmid =>
      let! cmd := ink (argint 1) in
      match cmd with
      | None => ret (-1)
      | Some cmd =>
          let! buf := ink (argint 2) in
          match buf with
          | None => ret (-1)
          | Some buf => ink (shmctl shmid cmd (u32 buf))
          end
      end
  end.

End sysproc.
