(* ===== verification/Sysfile.v ===== *)
(** * File system calls (src/sysfile.c)

    The handlers on the kernel's state with the file layer of File.  The part
    of a handler between its [begin_op] and [end_op] that works on inodes only
    is a definition on the file system of its own.  File pointers of a process
    and inode pointers are numbered from 1, with 0 for null. *)

From S2P Require Import Prelude.
From S2P Require Import CString.
From S2P Require Import Mmu.
From S2P Require Import Kalloc.
From S2P Require Import Vm.
From S2P Require Import Kernel.
From S2P Require Import Shm.
From S2P Require Import Proc.
From S2P Require Import Args.
From S2P Require Import Bytes.
From S2P Require Import Sleeplock.
From S2P Require Import Bio.
From S2P Require Import Log.
From S2P Require Import Path.
From S2P Require Import Fs.
From S2P Require Import Pipe.
From S2P Require Import File.

Open Scope Z_scope.

Definition O_RDONLY : Z := 0.
Definition O_WRONLY : Z := 1.
Definition O_RDWR : Z := 2.
Definition O_CREATE : Z := 512.

(** "." and ".." *)
Definition DOT : bytes := [46].
Definition DOTDOT : bytes := [46; 46].

(** ** On inodes *)

Section inodes.
Context `{DevSw}.

(** The part of [sys_link] inside the transaction; [cwd] is the current
    directory. *)
Definition link_bad (ip : nat) : M fsys Z :=
  do! ilock ip in
  do! iupd ip (fun x => set_inlink (s16 (i_nlink x - 1)) x) in
  do! iupdate ip in
  do! iunlockput ip in
  ret (-1).

Definition link_inodes (cwd : nat) (old new : bytes) : M fsys Z :=
  let! r := namei cwd old in
  match r with
  | None => ret (-1)
  | Some ip =>
      do! ilock ip in
      let! x := iref ip in
      if i_type x =? T_DIR then
        do! iunlockput ip in
        ret (-1)
      else
        do! iupd ip (fun x => set_inlink (s16 (i_nlink x + 1)) x) in
        do! iupdate ip in
        do! iunlock ip in
        let! r := nameiparent cwd new (replicate DIRSIZ 0) in
        match r with
        | (None, _) => link_bad ip
        | (Some dp, name) =>
            do! ilock dp in
            let! y := iref dp in
            let! x := iref ip in
            let! l := (if negb (i_dev y =? i_dev x) then ret (-1) else dirlink dp name (i_inum x)) in
            if l <? 0 then
              do! iunlockput dp in
              link_bad ip
            else
              do! iunlockput dp in
              do! iput ip in
              ret 0
        end
  end.

(** [isdirempty] *)
Fixpoint isdirempty_loop (dp : nat) (fuel : nat) (off : Z) : M fsys bool :=
  match fuel with
  | O => nofuel
  | S k =>
      let! x := iref dp in
      if off <? i_size x then
        let! r := readi dp off DIRENT in
        if negb (r.1 =? DIRENT) then panic "isdirempty: readi"
        else if negb (de_inum r.2 =? 0) then ret false
        else isdirempty_loop dp k (off + DIRENT)
      else ret true
  end.

Definition isdirempty (dp : nat) : M fsys bool :=
  let! x := iref dp in
  isdirempty_loop dp (dir_turns (i_size x)) (2 * DIRENT).

(** The part of [sys_unlink] inside the transaction. *)
Definition unlink_bad (dp : nat) : M fsys Z :=
  do! iunlockput dp in
  ret (-1).

Definition unlink_inodes (cwd : nat) (path : bytes) : M fsys Z :=
  let! r := nameiparent cwd path (replicate DIRSIZ 0) in
  match r with
  | (None, _) => ret (-1)
  | (Some dp, name) =>
      do! ilock dp in
      if (namecmp name DOT =? 0) || (namecmp name DOTDOT =? 0) then unlink_bad dp
      else
        let! r := dirlookup dp name in
        match r with
        | None => unlink_bad dp
        | Some (ip, off) =>
            do! ilock ip in
            let! x := iref ip in
            if i_nlink x <? 1 then panic "unlink: nlink < 1"
            else
              let! full := (if i_type x =? T_DIR then let! e := isdirempty ip in ret (negb e) else ret false) in
              if full then
                do! iunlockput ip in
                unlink_bad dp
              else
                let! w := writei dp (replicate (Z.to_nat DIRENT) 0) off DIRENT in
                if negb (w =? DIRENT) then panic "unlink: writei"
                else
                  do! (if i_type x =? T_DIR then
                         do! iupd dp (fun y => set_inlink (s16 (i_nlink y - 1)) y) in
                         iupdate dp
                       else ret tt) in
                  do! iunlockput dp in
                  do! iupd ip (fun x => set_inlink (s16 (i_nlink x - 1)) x) in
                  do! iupdate ip in
                  do! iunlockput ip in
                  ret 0
        end
  end.

Definition create (cwd : nat) (path : bytes) (type major minor : Z) : M fsys (option nat) :=
  let! r := nameiparent cwd path (replicate DIRSIZ 0) in
  match r with
  | (None, _) => ret None
  | (Some dp, name) =>
      do! ilock dp in
      let! r := dirlookup dp name in
      match r with
      | Some (ip, _) =>
          do! iunlockput dp in
          do! ilock ip in
          let! x := iref ip in
          if (type =? T_FILE) && (i_type x =? T_FILE) then ret (Some ip)
          else
            do! iunlockput ip in
            ret None
      | None =>
          let! y := iref dp in
          let! ip := ialloc (i_dev y) type in
          do! ilock ip in
          do! iupd ip (set_idev (s16 major) (s16 minor) 1) in
          do! iupdate ip in
          let! x := iref ip in
          do! (if type =? T_DIR then
                 do! iupd dp (fun y => set_inlink (s16 (i_nlink y + 1)) y) in
                 do! iupdate dp in
                 let! l1 := dirlink ip DOT (i_inum x) in
                 if l1 <? 0 then panic "create dots"
                 else
                   let! l2 := dirlink ip DOTDOT (i_inum y) in
                   if l2 <? 0 then panic "create dots" else ret tt
               else ret tt) in
          let! l := dirlink dp name (i_inum x) in
          if l <? 0 then panic "create: dirlink"
          else
            do! iunlockput dp in
            ret (Some ip)
      end
  end.

(** The inode [sys_open] opens, locked. *)
Definition open_inode (cwd : nat) (path : bytes) (omode : Z) : M fsys (option nat) :=
  if nz (Z.land omode O_CREATE) then create cwd path T_FILE 0 0
  else
    let! r := namei cwd path in
    match r with
    | None => ret None
    | Some ip =>
        do! ilock ip in
        let! x := iref ip in
        if (i_type x =? T_DIR) && negb (omode =? O_RDONLY) then
          do! iunlockput ip in
          ret None
        else ret (Some ip)
    end.

(** The new current directory of [sys_chdir], and the release of the old. *)
Definition chdir_inode (cwd : nat) (path : bytes) : M fsys (option nat) :=
  let! r := namei cwd path in
  match r with
  | None => ret None
  | Some ip =>
      do! ilock ip in
      let! x := iref ip in
      if negb (i_type x =? T_DIR) then
        do! iunlockput ip in
        ret None
      else
        do! iunlock ip in
        do! iput cwd in
        ret (Some ip)
  end.

End inodes.

(** ** The handlers *)

(** The file layer sees the pid and the [killed] flag of the process. *)
Definition set_files_proc (pid_ : Z) (k : bool) (s : files) : files :=
  let f := fsy s in
  let g := lg f in
  let b := bc g in
  mkFiles (set_lg (set_bc (mkBcache (bufs b) (bc_lock b) pid_ (memdisk b) (writes b)) g) f)
    (ftab s) (ft_lock s) (pipes s) k.

Section handlers.
Context {K : KernelImage} `{DevSw}.
Implicit Types s : kernel files.

(** A call into the file layer, for the current process. *)
Definition incall {A} (c : M (files * phys) A) : M (kernel files) A :=
  let! p := mycur in
  do! infs (modify (set_files_proc (pid p) (nz (killed p)))) in
  infsp c.
Definition ininodes {A} (c : M fsys A) : M (kernel files) A := incall (infile (infy c)).
Definition kbegin_op : M (kernel files) unit := ininodes (inlog begin_op).
Definition kend_op : M (kernel files) unit := ininodes (inlog end_op).

(** The index a nonnull pointer stands for, and the pointer to an index. *)
Definition idx (p : Z) : nat := Z.to_nat (p - 1).
Definition ptr (i : nat) : Z := Z.of_nat i + 1.

(** [argfd]: the descriptor and the file, or [None] for -1. *)
Definition argfd (n : Z) : M (kernel files) (option (Z * Z)) :=
  let! r := argint n in
  match r with
  | None => ret None
  | Some fd =>
      let! p := mycur in
      if (fd <? 0) || (NOFILE <=? fd) then ret None
      else
        match zidx (ofile p) fd with
        | None => fault "ofile"
        | Some f => if f =? 0 then ret None else ret (Some (fd, f))
        end
  end.

(** [myproc()->ofile[fd] = f] *)
Definition set_fd (fd f : Z) : M (kernel files) unit :=
  let! cur := myproc in
  upd_proc cur (fun p => set_ofile (zupd (ofile p) fd f) p).

Fixpoint fdalloc_loop (f : Z) (k : nat) (fd : Z) : M (kernel files) Z :=
  match k with
  | O => ret (-1)
  | S k' =>
      let! p := mycur in
      match zidx (ofile p) fd with
      | None => fault "ofile"
      | Some g =>
          if g =? 0 then
            do! set_fd fd f in
            ret fd
          else fdalloc_loop f k' (fd + 1)
      end
  end.
Definition fdalloc (f : Z) : M (kernel files) Z := fdalloc_loop f (Z.to_nat NOFILE) 0.

Definition sys_dup : M (kernel files) Z :=
  let! r := argfd 0 in
  match r with
  | None => ret (-1)
  | Some (_, f) =>
      let! fd := fdalloc f in
      if fd <? 0 then ret (-1)
      else
        do! incall (infile (filedup (idx f))) in
        ret fd
  end.

(** The arguments of [sys_read] and [sys_write]: the file, the buffer and its
    size. *)
Definition arg_rw : M (kernel files) (option (Z * Z * Z)) :=
  let! r := argfd 0 in
  match r with
  | None => ret None
  | Some (_, f) =>
      let! n := argint 2 in
      match n with
      | None => ret None
      | Some n =>
          let! p := argptr 1 n in
          match p with
          | None => ret None
          | Some p => ret (Some (f, p, n))
          end
      end
  end.

Definition sys_read : M (kernel files) Z :=
  let! a := arg_rw in
  match a with
  | None => ret (-1)
  | Some (f, p, n) =>
      let! r := incall (infile (fileread (idx f) n)) in
      do! ustore p r.2 in
      ret r.1
  end.

Definition sys_write : M (kernel files) Z :=
  let! a := arg_rw in
  match a with
  | None => ret (-1)
  | Some (f, p, n) =>
      let! d := ubytes p (Z.to_nat n) in
      incall (infile (filewrite (idx f) d n))
  end.

Definition sys_close : M (kernel files) Z :=
  let! r := argfd 0 in
  match r with
  | None => ret (-1)
  | Some (fd, f) =>
      do! set_fd fd 0 in
      do! incall (fileclose (idx f)) in
      ret 0
  end.

(** The bytes of a [struct stat]. *)
Definition stat_bytes (st : stat) : bytes :=
  le16 (st_type st) ++ [0; 0] ++ le32 (st_dev st) ++ le32 (st_ino st) ++ le16 (st_nlink st) ++ [0; 0] ++ le32 (st_size st).
Definition STAT : Z := 20.

Definition sys_fstat : M (kernel files) Z :=
  let! r := argfd 0 in
  match r with
  | None => ret (-1)
  | Some (_, f) =>
      let! p := argptr 1 STAT in
      match p with
      | None => ret (-1)
      | Some p =>
          let! st := incall (infile (filestat (idx f))) in
          match st with
          | None => ret (-1)
          | Some st =>
              do! ustore p (stat_bytes st) in
              ret 0
          end
      end
  end.

Definition my_cwd : M (kernel files) nat := let! p := mycur in ret (idx (cwd p)).

Definition sys_link : M (kernel files) Z :=
  let! old := argpath 0 in
  match old with
  | None => ret (-1)
  | Some old =>
      let! new := argpath 1 in
      match new with
      | None => ret (-1)
      | Some new =>
          do! kbegin_op in
          let! cwd := my_cwd in
          let! r := ininodes (link_inodes cwd old new) in
          do! kend_op in
          ret r
      end
  end.

Definition sys_unlink : M (kernel files) Z :=
  let! path := argpath 0 in
  match path with
  | None => ret (-1)
  | Some path =>
      do! kbegin_op in
      let! cwd := my_cwd in
      let! r := ininodes (unlink_inodes cwd path) in
      do! kend_op in
      ret r
  end.

Definition sys_open : M (kernel files) Z :=
  let! path := argpath 0 in
  match path with
  | None => ret (-1)
  | Some path =>
      let! omode := argint 1 in
      match omode with
      | None => ret (-1)
      | Some omode =>
          do! kbegin_op in
          let! cwd := my_cwd in
          let! r := ininodes (open_inode cwd path omode) in
          match r with
          | None =>
              do! kend_op in
              ret (-1)
          | Some ip =>
              let! f := incall (infile filealloc) in
              let! fd := match f with None => ret (-1) | Some f => fdalloc (ptr f) end in
              match f with
              | None =>
                  do! ininodes (iunlockput ip) in
                  do! kend_op in
                  ret (-1)
              | Some f =>
                  if fd <? 0 then
                    do! incall (fileclose f) in
                    do! ininodes (iunlockput ip) in
                    do! kend_op in
                    ret (-1)
                  else
                    do! ininodes (iunlock ip) in
                    do! kend_op in
                    do! incall (infile (fupd f (fun x =>
                      mkFile FD_INODE (f_ref x)
                        (if nz (Z.land omode O_WRONLY) then 0 else 1)
                        (if nz (Z.land omode O_WRONLY) || nz (Z.land omode O_RDWR) then 1 else 0)
                        (f_pipe x) ip 0))) in
                    ret fd
              end
          end
      end
  end.

(** The common part of [sys_mkdir] and [sys_mknod]: make the inode, if there
    is a path and the numbers for it, and leave the transaction. *)
Definition make_inode (path : option bytes) (type : Z) (nums : option (Z * Z)) : M (kernel files) Z :=
  let! r := match path, nums with
            | Some path, Some (major, minor) =>
                let! cwd := my_cwd in
                ininodes (create cwd path type major minor)
            | _, _ => ret None
            end in
  match r with
  | None =>
      do! kend_op in
      ret (-1)
  | Some ip =>
      do! ininodes (iunlockput ip) in
      do! kend_op in
      ret 0
  end.

Definition sys_mkdir : M (kernel files) Z :=
  do! kbegin_op in
  let! path := argpath 0 in
  make_inode path T_DIR (Some (0, 0)).

Definition sys_mknod : M (kernel files) Z :=
  do! kbegin_op in
  let! path := argpath 0 in
  match path with
  | None => make_inode None T_DEV None
  | Some path =>
      let! major := argint 1 in
      match major with
      | None => make_inode None T_DEV None
      | Some major =>
          let! minor := argint 2 in
          match minor with
          | None => make_inode None T_DEV None
          | Some minor => make_inode (Some path) T_DEV (Some (major, minor))
          end
      end
  end.

Definition sys_chdir : M (kernel files) Z :=
  let! cur := myproc in
  do! kbegin_op in
  let! path := argpath 0 in
  match path with
  | None =>
      do! kend_op in
      ret (-1)
  | Some path =>
      let! cwd := my_cwd in
      let! r := ininodes (chdir_inode cwd path) in
      match r with
      | None =>
          do! kend_op in
          ret (-1)
      | Some ip =>
          do! kend_op in
          do! upd_proc cur (set_cwd (ptr ip)) in
          ret 0
      end
  end.

Definition sys_pipe : M (kernel files) Z :=
  let! cur := myproc in
  let! fd := argptr 0 8 in
  match fd with
  | None => ret (-1)
  | Some fd =>
      let! r := incall pipealloc in
      match r with
      | None => ret (-1)
      | Some (rf, wf) =>
          let! fd0 := fdalloc (ptr rf) in
          if fd0 <? 0 then
            do! incall (fileclose rf) in
            do! incall (fileclose wf) in
            ret (-1)
          else
            let! fd1 := fdalloc (ptr wf) in
            if fd1 <? 0 then
              do! set_fd fd0 0 in
              do! incall (fileclose rf) in
              do! incall (fileclose wf) in
              ret (-1)
            else
              do! ustore fd (le32 fd0) in
              do! ustore (fd + 4) (le32 fd1) in
              ret 0
      end
  end.

(** ** exec's arguments *)

Definition MAXARG : Z := 32.

(** The loop of [sys_exec]: the argument strings (address and length). *)
Fixpoint exec_args (k : nat) (uargv i : Z) : M (kernel files) (option (list (Z * Z))) :=
  match k with
  | O => ret None
  | S k' =>
      let! uarg := fetchint (u32 (uargv + 4 * i)) in
      match uarg with
      | None => ret None
      | Some uarg =>
          if uarg =? 0 then ret (Some [])
          else
            let! l := fetchstr (u32 uarg) in
            match l with
            | None => ret None
            | Some l =>
                let! rest := exec_args k' uargv (i + 1) in
                ret (match rest with Some rest => Some ((u32 uarg, l) :: rest) | None => None end)
            end
      end
  end.

End handlers.
