(* ===== verification/Exec.v ===== *)
(** * exec (src/exec.c, src/elf.h)

    Loading a program from a file into a new address space, building the
    argument stack, and switching the process to it.  Arguments are strings in
    the memory of the process, by address and length. *)

From S2P Require Import Prelude.
From S2P Require Import CString.
From S2P Require Import Mmu.
From S2P Require Import Kalloc.
From S2P Require Import Vm.
From S2P Require Import Kernel.
From S2P Require Import Shm.
From S2P Require Import Proc.
From S2P Require Import Args.
From S2P Require Import Bytes.
From S2P Require Import Sleeplock.
From S2P Require Import Bio.
From S2P Require Import Log.
From S2P Require Import Path.
From S2P Require Import Fs.
From S2P Require Import File.
From S2P Require Import Sysfile.

Open Scope Z_scope.

Definition ELF_MAGIC : Z := 1179403647.
Definition ELF_PROG_LOAD : Z := 1.

(** [struct elfhdr] and [struct proghdr]: their sizes and the fields used. *)
Definition ELFHDR : Z := 52.
Definition PROGHDR : Z := 32.

Record elfhdr := mkElf { e_magic : Z; e_entry : Z; e_phoff : Z; e_phnum : Z }.
Definition get_elfhdr (d : bytes) : elfhdr := mkElf (rd32 d 0) (rd32 d 24) (rd32 d 28) (rd16 d 44).

Record proghdr := mkPh { ph_type : Z; ph_off : Z; ph_vaddr : Z; ph_filesz : Z; ph_memsz : Z }.
Definition get_proghdr (d : bytes) : proghdr := mkPh (rd32 d 0) (rd32 d 4) (rd32 d 8) (rd32 d 16) (rd32 d 20).

Definition set_eip_esp (eip esp : Z) (t : trapframe) : trapframe :=
  mkTf (tf_edi t) (tf_esi t) (tf_ebp t) (tf_oesp t) (tf_ebx t) (tf_edx t) (tf_ecx t) (tf_eax t)
    (tf_gs t) (tf_fs t) (tf_es t) (tf_ds t) (tf_trapno t) (tf_err t) eip (tf_cs t) (tf_eflags t) esp (tf_ss t).

(** The path from its last slash on. *)
Fixpoint last_elem (path last : bytes) : bytes :=
  match path with
  | [] => last
  | c :: path' => last_elem path' (if c =? SLASH then path' else last)
  end.

Section exec.
Context {K : KernelImage} `{DevSw}.

(** [loaduvm] (src/vm.c) with the [readi] of the file system. *)
Fixpoint kloaduvm_loop (fuel : nat) (pgdir addr : Z) (ip : nat) (offset sz i : Z) : M (kernel files) Z :=
  match fuel with
  | O => nofuel
  | S fuel' =>
      if i <? sz then
        let! pte := inphys (walkpgdir pgdir (u32 (addr + i)) false) in
        if pte =? 0 then panic "loaduvm: address should exist"
        else
          let! e := inphys (gets (fun s => ld32 (mem s) pte)) in
          let pa := PTE_ADDR e in
          let n := if sz - i <? PGSIZE then sz - i else PGSIZE in
          let! r := ininodes (readi ip (u32 (offset + i)) n) in
          do! inphys (upd_mem (fun m => stbytes m (P2V pa) r.2)) in
          if negb (r.1 =? n) then ret (-1)
          else kloaduvm_loop fuel' pgdir addr ip offset sz (u32 (i + PGSIZE))
      else ret 0
  end.

Definition kloaduvm (pgdir addr : Z) (ip : nat) (offset sz : Z) : M (kernel files) Z :=
  if nz (addr mod PGSIZE) then panic "loaduvm: addr must be page aligned"
  else kloaduvm_loop (S (Z.to_nat (sz / PGSIZE + 1))) pgdir addr ip offset sz 0.

(** [copyout] (src/vm.c) from bytes the kernel has read. *)
Fixpoint kcopyout_loop (fuel : nat) (pgdir va : Z) (buf : bytes) : M phys Z :=
  match fuel with
  | O => nofuel
  | S fuel' =>
      if (0 <? length buf)%nat then
        let va0 := PGROUNDDOWN va in
        let! pa0 := uva2ka pgdir va0 in
        if pa0 =? 0 then ret (-1)
        else
          let n := Z.to_nat (PGSIZE - (va - va0)) in
          do! upd_mem (fun m => stbytes m (pa0 + (va - va0)) (take n buf)) in
          kcopyout_loop fuel' pgdir (u32 (va0 + PGSIZE)) (drop n buf)
      else ret 0
  end.

Definition kcopyout (pgdir va : Z) (buf : bytes) : M (kernel files) Z :=
  inphys (kcopyout_loop (S (length buf)) pgdir va buf).

(** The loop over the program headers: the size of the image, or [None]. *)
Fixpoint exec_load (ip : nat) (pgdir : Z) (k : nat) (off sz : Z) : M (kernel files) (option Z) :=
  match k with
  | O => ret (Some sz)
  | S k' =>
      let! r := ininodes (readi ip off PROGHDR) in
      if negb (r.1 =? PROGHDR) then ret None
      else
        let ph := get_proghdr r.2 in
        if negb (ph_type ph =? ELF_PROG_LOAD) then exec_load ip pgdir k' (u32 (off + PROGHDR)) sz
        else if ph_memsz ph <? ph_filesz ph then ret None
        else if u32 (ph_vaddr ph + ph_memsz ph) <? ph_vaddr ph then ret None
        else
          let! sz := inphys (allocuvm pgdir sz (u32 (ph_vaddr ph + ph_memsz ph))) in
          if sz =? 0 then ret None
          else if nz (ph_vaddr ph mod PGSIZE) then ret None
          else
            let! l := kloaduvm pgdir (ph_vaddr ph) ip (ph_off ph) (ph_filesz ph) in
            if l <? 0 then ret None else exec_load ip pgdir k' (u32 (off + PROGHDR)) sz
  end.

(** [(sp - (strlen(arg) + 1)) & ~3] *)
Definition push_sp (sp len : Z) : Z := Z.land (u32 (sp - (len + 1))) 4294967292.

(** The loop that pushes the argument strings: the stack pointer and the
    addresses of the copies, or [None]. *)
Fixpoint exec_push (pgdir : Z) (argv : list (Z * Z)) (argc sp : Z) : M (kernel files) (option (Z * list Z)) :=
  match argv with
  | [] => ret (Some (sp, []))
  | (a, len) :: argv' =>
      if MAXARG <=? argc then ret None
      else
        let sp := push_sp sp len in
        let! s := ubytes a (Z.to_nat (len + 1)) in
        let! r := kcopyout pgdir sp s in
        if r <? 0 then ret None
        else
          let! rest := exec_push pgdir argv' (argc + 1) sp in
          ret (match rest with Some (sp', l) => Some (sp', sp :: l) | None => None end)
  end.

(** The words of [ustack]: a return address, [argc], [argv] and the pointers. *)
Definition ustack_words (sp : Z) (ptrs : list Z) : list Z :=
  let argc := Z.of_nat (length ptrs) in
  [4294967295; argc; u32 (sp - (argc + 1) * 4)] ++ ptrs ++ [0].

(** The failure exits: with the inode still locked, and after it was put. *)
Definition exec_bad (pgdir : Z) (ip : option nat) : M (kernel files) Z :=
  do! (if nz pgdir then inphys (freevm pgdir) else ret tt) in
  match ip with
  | Some ip =>
      do! ininodes (iunlockput ip) in
      do! kend_op in
      ret (-1)
  | None => ret (-1)
  end.

(** The commit to the new image. *)
Definition exec_commit (path : bytes) (pgdir_ sz_ entry sp : Z) : M (kernel files) Z :=
  let! cur := myproc in
  do! upd_proc cur (set_name (copy_name (last_elem path path))) in
  do! mfor (zrange 0 (Z.to_nat SHAREDREGIONS)) (exit_seg cur) in
  let! p := get_proc cur in
  let oldpgdir := pgdir p in
  do! upd_proc cur (set_pgdir pgdir_) in
  do! upd_proc cur (set_sz sz_) in
  do! upd_proc cur (fun p => set_tf (set_eip_esp entry sp (tf p)) p) in
  do! switchuvm cur in
  do! inphys (freevm oldpgdir) in
  ret 0.

(** The second half of [exec]: the user stack. *)
Definition exec_stack (path : bytes) (argv : list (Z * Z)) (pgdir_ sz_ entry : Z) : M (kernel files) Z :=
  let sz_ := PGROUNDUP sz_ in
  let! sz_ := inphys (allocuvm pgdir_ sz_ (u32 (sz_ + 2 * PGSIZE))) in
  if sz_ =? 0 then exec_bad pgdir_ None
  else
    do! inphys (clearpteu pgdir_ (u32 (sz_ - 2 * PGSIZE))) in
    let! r := exec_push pgdir_ argv 0 sz_ in
    match r with
    | None => exec_bad pgdir_ None
    | Some (sp, ptrs) =>
        let words := ustack_words sp ptrs in
        let sp := u32 (sp - 4 * Z.of_nat (length words)) in
        let! c := kcopyout pgdir_ sp (concat (le32 <$> words)) in
        if c <? 0 then exec_bad pgdir_ None else exec_commit path pgdir_ sz_ entry sp
    end.

Definition exec (path : bytes) (argv : list (Z * Z)) : M (kernel files) Z :=
  do! kbegin_op in
  let! cwd := my_cwd in
  let! r := ininodes (namei cwd path) in
  match r with
  | None =>
      do! kend_op in
      ret (-1)
  | Some ip =>
      do! ininodes (ilock ip) in
      let! r := ininodes (readi ip 0 ELFHDR) in
      if negb (r.1 =? ELFHDR) then exec_bad 0 (Some ip)
      else
        let elf := get_elfhdr r.2 in
        if negb (e_magic elf =? ELF_MAGIC) then exec_bad 0 (Some ip)
        else
          let! pgdir_ := inphys setupkvm in
          if pgdir_ =? 0 then exec_bad 0 (Some ip)
          else
            let! sz_ := exec_load ip pgdir_ (Z.to_nat (e_phnum elf)) (e_phoff elf) 0 in
            match sz_ with
            | None => exec_bad pgdir_ (Some ip)
            | Some sz_ =>
                do! ininodes (iunlockput ip) in
                do! kend_op in
                exec_stack path argv pgdir_ sz_ (e_entry elf)
            end
  end.

Definition sys_exec : M (kernel files) Z :=
  let! path := argpath 0 in
  match path with
  | None => ret (-1)
  | Some path =>
      let! uargv := argint 1 in
      match uargv with
      | None => ret (-1)
      | Some uargv =>
          let! argv := exec_args (Z.to_nat MAXARG) (u32 uargv) 0 in
          match argv with
          | None => ret (-1)
          | Some argv => exec path argv
          end
      end
  end.

End exec.

(** * Lemmas *)

(** A computation that leaves the process table, the shared regions and the
    identity of the current process as they are. *)
Definition keeps {A} (c : M (kernel files) A) : Prop :=
  forall s a s', c s = Ret a s' -> ptable s' = ptable s /\ shmTable s' = shmTable s /\ curproc s' = curproc s.

(** A computation that succeeds with 0, or fails with -1 and keeps the tables. *)
Definition clean (c : M (kernel files) Z) : Prop :=
  forall s r s', c s = Ret r s' ->
    r = 0 \/ r = -1 /\ ptable s' = ptable s /\ shmTable s' = shmTable s /\ curproc s' = curproc s.

Lemma keeps_bind {A B} (c : M (kernel files) A) (k : A -> M (kernel files) B) :
  keeps c -> (forall a, keeps (k a)) -> keeps (bind c k).
Proof.
  intros Hc Hk s b s' (a & s1 & H1 & H2)%bind_run.
  destruct (Hc _ _ _ H1) as (E1 & E2 & E3). destruct (Hk _ _ _ _ H2) as (E4 & E5 & E6). split; [congruence|]. split; congruence.
Qed.

Lemma keeps_ret {A} (a : A) : keeps (ret a).
Proof. by intros s b s' [= <- <-]. Qed.

Lemma keeps_panic {A} m : keeps (A := A) (panic m).
Proof. done. Qed.

Lemma keeps_nofuel {A} : keeps (A := A) nofuel.
Proof. done. Qed.

Lemma keeps_get_proc i : keeps (get_proc i).
Proof. intros s a s'. unfold get_proc. destruct (ptable s !! i); [|done]. by intros [= <- <-]. Qed.

Lemma keeps_gets {A} (f : kernel files -> A) : keeps (gets f).
Proof. by intros s a s' [= <- <-]. Qed.

Lemma keeps_inphys {A} (c : M phys A) : keeps (inphys c).
Proof. intros s a s'. unfold inphys, zoom. destruct (c _); try done. by intros [= <- <-]. Qed.

Lemma keeps_infs {A} (c : M files A) : keeps (infs c).
Proof. intros s a s'. unfold infs, zoom. destruct (c _); try done. by intros [= <- <-]. Qed.

Lemma keeps_infsp {A} (c : M (files * phys) A) : keeps (infsp c).
Proof. intros s a s'. unfold infsp, zoom. destruct (c _); try done. by intros [= <- <-]. Qed.

Create HintDb keeps.
#[export] Hint Resolve keeps_ret keeps_panic keeps_nofuel keeps_get_proc keeps_gets keeps_inphys keeps_infs keeps_infsp : keeps.

Lemma clean_bind {A} (c : M (kernel files) A) (k : A -> M (kernel files) Z) :
  keeps c -> (forall a, clean (k a)) -> clean (bind c k).
Proof.
  intros Hc Hk s b s' (a & s1 & H1 & H2)%bind_run. destruct (Hc _ _ _ H1) as (E1 & E2 & E3).
  destruct (Hk _ _ _ _ H2) as [|(Hr & E4 & E5 & E6)]; [by left|]. right. split; [done|]. split; [congruence|]. split; congruence.
Qed.

Lemma clean_fail : clean (ret (-1)).
Proof. intros s r s' [= <- <-]. by right. Qed.

(** Every result of the computation is [r]. *)
Definition ends {A} (r : A) (c : M (kernel files) A) : Prop := forall s a s', c s = Ret a s' -> a = r.

Lemma ends_bind {A B} (r : B) (c : M (kernel files) A) (k : A -> M (kernel files) B) :
  (forall a, ends r (k a)) -> ends r (bind c k).
Proof. intros Hk s b s' (a & s1 & _ & H)%bind_run. by eapply Hk. Qed.

Section failing.
Context {K : KernelImage} {D : DevSw}.

Lemma keeps_mycur : keeps mycur.
Proof. unfold mycur. apply keeps_bind; [apply keeps_gets|]. auto with keeps. Qed.

Lemma keeps_incall {A} (c : M (files * phys) A) : keeps (incall c).
Proof.
  unfold incall. apply keeps_bind; [apply keeps_mycur|]. intros p. apply keeps_bind; auto with keeps.
Qed.

Lemma keeps_ininodes {A} (c : M fsys A) : keeps (ininodes c).
Proof. apply keeps_incall. Qed.
#[local] Hint Resolve keeps_mycur keeps_ininodes keeps_incall : keeps.

Lemma keeps_ubytes a n : keeps (ubytes a n).
Proof.
  revert a. induction n as [|n IH]; intros a; cbn [ubytes]; [apply keeps_ret|].
  apply keeps_bind; [|intros c; apply keeps_bind; [apply IH|auto with keeps]].
  unfold uld8. apply keeps_bind; auto with keeps.
Qed.

Lemma keeps_loaduvm fuel pgdir addr ip offset sz i : keeps (kloaduvm_loop fuel pgdir addr ip offset sz i).
Proof.
  revert i. induction fuel as [|k IH]; intros i; cbn [kloaduvm_loop]; [apply keeps_nofuel|].
  case_if E1; [|apply keeps_ret]. apply keeps_bind; [apply keeps_inphys|]. intros pte. case_if E2; [apply keeps_panic|].
  apply keeps_bind; [apply keeps_inphys|]. intros e. apply keeps_bind; [apply keeps_ininodes|]. intros r.
  apply keeps_bind; [apply keeps_inphys|]. intros _. case_if E3; [apply keeps_ret|]. apply IH.
Qed.

Lemma keeps_load ip pgdir k off sz : keeps (exec_load ip pgdir k off sz).
Proof.
  revert off sz. induction k as [|k IH]; intros off sz; cbn [exec_load]; [apply keeps_ret|].
  apply keeps_bind; [apply keeps_ininodes|]. intros r. case_if E1; [apply keeps_ret|]. case_if E2; [apply IH|].
  case_if E3; [apply keeps_ret|]. case_if E4; [apply keeps_ret|].
  apply keeps_bind; [apply keeps_inphys|]. intros sz'. case_if E5; [apply keeps_ret|]. case_if E6; [apply keeps_ret|].
  apply keeps_bind; [|intros l; case_if E7; [apply keeps_ret|apply IH]].
  unfold kloaduvm. case_if E8; [apply keeps_panic|]. apply keeps_loaduvm.
Qed.

Lemma keeps_push pgdir argv argc sp : keeps (exec_push pgdir argv argc sp).
Proof.
  revert argc sp. induction argv as [|[a len] argv IH]; intros argc sp; cbn [exec_push]; [apply keeps_ret|].
  case_if E1; [apply keeps_ret|]. apply keeps_bind; [apply keeps_ubytes|]. intros s.
  apply keeps_bind; [apply keeps_inphys|]. intros r. case_if E2; [apply keeps_ret|].
  apply keeps_bind; [apply IH|]. auto with keeps.
Qed.

Lemma clean_bad pgdir ip : clean (exec_bad pgdir ip).
Proof.
  unfold exec_bad. apply clean_bind; [case_if E; auto with keeps|]. intros _. destruct ip as [ip|]; [|apply clean_fail].
  do 2 (apply clean_bind; [apply keeps_ininodes|intros _]). apply clean_fail.
Qed.

Lemma clean_commit path pgdir sz entry sp : clean (exec_commit path pgdir sz entry sp).
Proof.
  assert (H : ends 0 (exec_commit path pgdir sz entry sp)).
  { unfold exec_commit. repeat (apply ends_bind; intros ?). by intros s r s' [= <- <-]. }
  intros s r s' Hr. left. by eapply H.
Qed.

Lemma clean_stack path argv pgdir sz entry : clean (exec_stack path argv pgdir sz entry).
Proof.
  unfold exec_stack. apply clean_bind; [apply keeps_inphys|]. intros sz'. case_if E1; [apply clean_bad|].
  apply clean_bind; [apply keeps_inphys|]. intros _. apply clean_bind; [apply keeps_push|].
  intros [[sp' ptrs]|]; [|apply clean_bad]. apply clean_bind; [apply keeps_inphys|]. intros c.
  case_if E2; [apply clean_bad|apply clean_commit].
Qed.

End failing.

(** ** Theorems *)

(** An [exec] that fails leaves the process as it was.  [exec] answers 0
    or -1, and when it answers -1 -- a missing file, a bad header, a segment
    that does not fit, no memory, too many arguments -- no process, no shared
    region and no register of the caller has changed. *)
Theorem exec_fails_cleanly {K : KernelImage} {D : DevSw} path argv s r s' :
  exec path argv s = Ret r s' ->
  r = 0 \/ r = -1 /\ ptable s' = ptable s /\ shmTable s' = shmTable s /\ curproc s' = curproc s.
Proof.
  revert s r s'. change (clean (exec path argv)). unfold exec.
  apply clean_bind; [apply keeps_ininodes|]. intros _.
  apply clean_bind; [apply keeps_bind; [apply keeps_mycur|auto with keeps]|]. intros cwd.
  apply clean_bind; [apply keeps_ininodes|]. intros [ip|].
  2:{ apply clean_bind; [apply keeps_ininodes|]. intros _. apply clean_fail. }
  apply clean_bind; [apply keeps_ininodes|]. intros _. apply clean_bind; [apply keeps_ininodes|]. intros h.
  case_if E1; [apply clean_bad|]. cbv zeta. case_if E2; [apply clean_bad|].
  apply clean_bind; [apply keeps_inphys|]. intros pgdir. case_if E3; [apply clean_bad|].
  apply clean_bind; [apply keeps_load|]. intros [sz|]; [|apply clean_bad].
  do 2 (apply clean_bind; [apply keeps_ininodes|intros _]). apply clean_stack.
Qed.

(** A process whose current directory is an empty file: there is nothing to
    load from it. *)
Definition exec_demo_fs : files :=
  mkFiles (mkFs (mkLog (bss 1 [] []) false 0 0 0 0 1 0 []) [mkInode 1 1 1 (mkSleep 0 0) 1 T_FILE 0 0 1 0 (replicate 13 0)]
    false (mkSuper 0 0 0 0 0 0 0)) [] false ∅ false.
Definition exec_demo_proc : proc :=
  mkProc 0 0 0 RUNNING 1 None (mkTf 0 0 0 0 0 0 0 0 0 0 0 0 0 0 0 0 0 0 0) 0 ChNone 0 (replicate 16 0) 1 [] [].
Definition exec_demo : kernel files := mkKernel boot_phys [exec_demo_proc] false 2 0 0 [] false exec_demo_fs.

Lemma exec_fails_cleanly_witness :
  exists r (s' : kernel files), (r = 0 \/ r = -1 /\ ptable s' = ptable exec_demo /\ shmTable s' = shmTable exec_demo /\
                         curproc s' = curproc exec_demo) /\ r = -1.
Proof.
  exists (-1), (after (@exec demo_image no_devices [] []) exec_demo). split; [|reflexivity].
  apply (@exec_fails_cleanly demo_image no_devices [] [] exec_demo (-1)). vm_compute. reflexivity.
Defined.
