(* ===== verification/ExecSpace.v ===== *)
(** * Building an address space page by page (src/exec.c, src/vm.c)

    The states that an address space goes through while a program is loaded are
    described by [grown] of Uvm.v: the pages below a size are new frames with
    given bytes and permissions.  The lemmas here say how growing it further,
    failing to, writing into it and withdrawing a page from the user change it. *)

From S2P Require Import Prelude.
From S2P Require Import CString.
From S2P Require Import Mmu.
From S2P Require Import Kalloc.
From S2P Require Import Vm.
From S2P Require Import Uvm.
From S2P Require Import Vmspace.

Open Scope Z_scope.

(** The bytes of an address space by address, and those of its pages. *)
Definition img_fill (img : Z -> Z) (va o : Z) : Z := img (va - va mod 4096 + o).

(** Storing bytes, and new pages from [lo] on. *)
Definition img_write (img : Z -> Z) (a : Z) (l : list Z) (b : Z) : Z :=
  if (a <=? b) && (b <? a + Z.of_nat (length l)) then default 0 (l !! Z.to_nat (b - a)) mod 256 else img b.
Definition img_grow (img : Z -> Z) (lo a : Z) : Z := if a <? lo then img a else 0.

(** The permissions with one page kept from the user. *)
Definition guard_perm (g va : Z) : Z := if va / 4096 =? g / 4096 then PTE_W else Z.lor PTE_W PTE_U.

(** The address space [d] has the bytes [img] below [hi]. *)
Definition image {K : KernelImage} (perm : Z -> Z) (img : Z -> Z) (d hi : Z) (fl1 : list Z) (s1 : phys) (fl2 : list Z) (s2 : phys) : Prop :=
  grown perm (img_fill img) d 0 hi hi fl1 s1 [] fl2 s2.

(** So few free pages that an address space up to [hi] may not fit: all the
    tables it can have, twice, and its pages. *)
Definition short_of (fl : list Z) (hi : Z) : Prop := Z.of_nat (length fl) <= 2051 + hi / 4096.

(** * Lemmas *)

Lemma guard_perm_ok g va : 0 <= guard_perm g va < 4096.
Proof. unfold guard_perm. by destruct (_ =? _). Qed.

(** Clearing the user bit of a page's address. *)
Lemma land_not_U x : x mod 4096 = 0 -> is_u32 x -> Z.land x (u32 (Z.lnot PTE_U)) = x.
Proof.
  intros Hm [H0 Hx]. replace x with (x / 4096 * 2 ^ 12) by (change (2 ^ 12) with 4096; dlia). set (y := x / 4096).
  apply Z.bits_inj'. intros n Hn. rewrite Z.land_spec. destruct (Z.lt_ge_cases n 12) as [Hlo|Hge]; [by rewrite Z.mul_pow2_bits_low|].
  rewrite Z.mul_pow2_bits by lia. destruct (Z.lt_ge_cases n 32) as [Hlt|Hbig].
  - change (u32 (Z.lnot PTE_U)) with (Z.lxor (Z.ones 32) (1 * 2 ^ 2)). rewrite Z.lxor_spec, Z.ones_spec_low, (Z.mul_pow2_bits 1 2) by lia.
    rewrite (Z.bits_above_log2 1) by (cbn; lia). by rewrite andb_true_r.
  - replace (Z.testbit y (n - 12)) with false; [done|]. symmetry. destruct (Z.eq_dec y 0) as [->|Hz]; [apply Z.bits_0|].
    apply Z.bits_above_log2; [unfold y; dlia|]. apply Z.log2_lt_pow2; [unfold y in *; dlia|]. apply (Z.lt_le_trans _ (2 ^ 20)); [change (2 ^ 20) with 1048576; unfold y; dlia|].
    apply Z.pow_le_mono_r; lia.
Qed.

Section space.
Context {K : KernelImage} {KI : KernelImageOk K}.

Lemma grown_ext perm fill perm' fill' d lo hi top fl s held fl' s' :
  (forall va, lo <= va < hi -> perm' va = perm va) ->
  (forall va o, lo <= va < hi -> 0 <= o < 4096 -> fill' va o = fill va o) ->
  grown perm fill d lo hi top fl s held fl' s' -> grown perm' fill' d lo hi top fl s held fl' s'.
Proof.
  intros Hp Hf [P D F O I W H C T Mo R L]. split; try done. intros va Hva. destruct (I va Hva) as (q & H1 & H2 & H3 & H4).
  exists q. rewrite Hp by done. split_and!; try done. intros b Hb. rewrite Hf by lia. auto.
Qed.

(** A frame of a grown range. *)
Lemma grown_frame perm fill (Hperm : forall va, 0 <= perm va < 4096) d lo hi top fl s held fl' s' va :
  grown perm fill d lo hi top fl s held fl' s' -> lo <= va < hi ->
  let q := frame_of (pte_view (mem s') d va) in
  q ∈ fl /\ is_page q /\ (q ∉ fl') /\ ~ pt_page (mem s') d q /\ maps_to (mem s') d va q /\
  pte_view (mem s') d va = mk_pte (V2P q) (perm va) /\ forall b, q <= b < q + 4096 -> ld8 (mem s') b = fill va (b - q).
Proof.
  intros G Hva. destruct (gr_in G va Hva) as (q & Hq & Hp & Hv & Hb). cbv zeta. rewrite Hv, frame_mk_pte by done.
  assert (Hm : maps_to (mem s') d va q) by (split; rewrite Hv; [apply mk_pte_present|by rewrite frame_mk_pte]).
  destruct (own_frame _ _ _ _ _ (gr_own G) va q Hva Hm) as (_ & H1 & H2). done.
Qed.

(** Growing twice. *)
Lemma grown_app perm fill (Hperm : forall va, 0 <= perm va < 4096) d lo mid hi fl s fl1 s1 fl2 s2 :
  grown perm fill d lo mid mid fl s [] fl1 s1 -> grown perm fill d mid hi hi fl1 s1 [] fl2 s2 ->
  0 <= lo <= mid -> mid mod 4096 = 0 -> mid <= hi <= 4294967296 -> grown perm fill d lo hi hi fl s [] fl2 s2.
Proof.
  intros G1 G2 Hlo Hmid Hhi.
  assert (Hlow : forall va q, lo <= va < mid -> maps_to (mem s2) d va q <-> maps_to (mem s1) d va q).
  { intros va q Hva. unfold maps_to. by rewrite (gr_out G2) by (unfold is_u32; lia). }
  assert (Hold : forall va q, lo <= va < mid -> maps_to (mem s2) d va q -> (q ∉ fl1) /\ ~ pt_page (mem s1) d q /\ is_page q).
  { intros va q Hva Hm%Hlow; [|done]. by destruct (own_frame _ _ _ _ _ (gr_own G1) va q Hva Hm) as (? & ? & ?). }
  assert (Hnew : forall va q, mid <= va < hi -> maps_to (mem s2) d va q -> q ∈ fl1).
  { intros va q Hva [_ ->]. by apply (grown_frame perm fill Hperm d mid hi hi fl1 s1 [] fl2 s2 va G2). }
  split; try apply G2.
  - intros q Hq. by apply (gr_free G1), (gr_free G2).
  - intros va Hu Hva. rewrite (gr_out G2), (gr_out G1) by (done || lia). done.
  - intros va Hva. destruct (Z.lt_ge_cases va mid) as [Hlt|Hge].
    + destruct (gr_in G1 va ltac:(lia)) as (q & Hq & Hp & Hv & Hb). exists q. rewrite (gr_out G2) by (unfold is_u32; lia).
      split_and!; try done. intros b Hr. rewrite <- Hb by done. apply (gr_frame G2 q); try done.
      all: destruct (Hold va q ltac:(lia)) as (? & ? & _); try done; apply Hlow; [lia|]; split; rewrite Hv; [apply mk_pte_present|by rewrite frame_mk_pte].
    + destruct (gr_in G2 va ltac:(lia)) as (q & Hq & Hrest). exists q. split; [by apply (gr_free G1)|done].
  - split.
    + intros va q Hva Hm. destruct (Z.lt_ge_cases va mid) as [Hlt|Hge]; [|apply (own_frame _ _ _ _ _ (gr_own G2) va); [lia|done]].
      destruct (Hold va q ltac:(lia) Hm) as (H1 & H2 & H3). split; [done|]. split; [intros Hq; by apply H1, (gr_free G2)|].
      intros [?|[? _]]%(gr_pt G2); done.
    + intros va vb q Hva Hvb Ha Hb. destruct (Z.lt_ge_cases va mid) as [Hlt|Hge], (Z.lt_ge_cases vb mid) as [Hlt'|Hge'].
      * apply (own_inj _ _ _ _ _ (gr_own G1) va vb q); try lia; apply Hlow; (done || lia).
      * destruct (Hold va q ltac:(lia) Ha) as [[] _]. by apply (Hnew vb); [lia|].
      * destruct (Hold vb q ltac:(lia) Hb) as [[] _]. by apply (Hnew va); [lia|].
      * apply (own_inj _ _ _ _ _ (gr_own G2) va vb q); (done || lia).
  - by intros q ?%elem_of_nil.
  - intros q Hq. destruct (gr_cover G1 q Hq) as [H|[H|[?%elem_of_nil|(va & Hva & Hm)]]]; [|right; left; by apply (gr_mono G2)|done|].
    + destruct (gr_cover G2 q H) as [?|[?|[?%elem_of_nil|(va & Hva & Hm)]]]; [tauto|tauto|done|]. right; right; right. exists va. split; [lia|done].
    + right; right; right. exists va. split; [lia|by apply Hlow].
  - intros q [H|[H1 H2]]%(gr_pt G2); [|right; split; [by apply (gr_free G1)|done]]. destruct (gr_pt G1 q H) as [?|[? Hn]]; [by left|].
    right. split; [done|]. intros Hq. by apply Hn, (gr_free G2).
  - intros q Hq. by apply (gr_mono G2), (gr_mono G1).
  - intros q Hq Hnp Hnf. eapply same_bytes_trans; [by apply (gr_frame G1)|]. apply (gr_frame G2); [done| |].
    + intros [?|[? _]]%(gr_pt G1); done.
    + intros Hin. by apply Hnf, (gr_free G1).
  - rewrite (gr_lock G2). apply G1.
Qed.

(** A failure to grow, undone, leaves the space as it was. *)
Lemma grown_back perm fill (Hperm : forall va, 0 <= perm va < 4096) d lo mid hi fl s fl1 s1 fl2 s2 :
  grown perm fill d lo mid mid fl s [] fl1 s1 -> rolled_back d mid hi fl1 s1 [] fl2 s2 ->
  (forall va, mid <= va < hi -> pte_view (mem s1) d va = 0) ->
  0 <= lo -> mid <= 4294967296 -> grown perm fill d lo mid mid fl s [] fl2 s2.
Proof.
  intros G B Hz Hlo Hmid.
  assert (Hv : forall va, is_u32 va -> pte_view (mem s2) d va = pte_view (mem s1) d va).
  { intros va Hva. destruct (decide (mid <= va < hi)) as [Hin|Hout]; [destruct (rb_view _ _ _ _ _ _ _ _ B va Hin) as [->| ->]; [by rewrite Hz|done]|]. apply (rb_out _ _ _ _ _ _ _ _ B); [done|lia]. }
  assert (Hm : forall va q, lo <= va < mid -> maps_to (mem s2) d va q <-> maps_to (mem s1) d va q).
  { intros va q Hva. unfold maps_to. by rewrite Hv by (unfold is_u32; lia). }
  split; try apply B.
  - intros q Hq. by apply (gr_free G), (rb_free _ _ _ _ _ _ _ _ B).
  - intros va Hu Hva. rewrite Hv by done. by apply (gr_out G).
  - intros va Hva. destruct (grown_frame perm fill Hperm d lo mid mid fl s [] fl1 s1 va G Hva) as (H1 & H2 & H3 & H4 & _ & H5 & H6).
    set (q := frame_of _) in *. exists q. rewrite Hv by (unfold is_u32; lia). split_and!; try done. intros b Hb. rewrite <- H6 by done. by apply (rb_frame _ _ _ _ _ _ _ _ B q).
  - split.
    + intros va q Hva Hq%Hm; [|done]. destruct (own_frame _ _ _ _ _ (gr_own G) va q Hva Hq) as (H1 & H2 & H3). split; [done|].
      split; [intros Hin; by apply H2, (rb_free _ _ _ _ _ _ _ _ B)|]. intros [?|[? _]]%(rb_pt _ _ _ _ _ _ _ _ B); done.
    + intros va vb q Hva Hvb Ha Hb. apply (own_inj _ _ _ _ _ (gr_own G) va vb q); try done; by apply Hm.
  - by intros q ?%elem_of_nil.
  - intros q Hq. destruct (gr_cover G q Hq) as [H|[H|[?%elem_of_nil|(va & Hva & Hq')]]]; [|right; left; by apply (rb_mono _ _ _ _ _ _ _ _ B)|done|].
    + destruct (rb_cover _ _ _ _ _ _ _ _ B q H) as [?|[?|?%elem_of_nil]]; [tauto|tauto|done].
    + right; right; right. exists va. split; [lia|by apply Hm].
  - intros q [H|[H1 H2]]%(rb_pt _ _ _ _ _ _ _ _ B); [|right; split; [by apply (gr_free G)|done]]. destruct (gr_pt G q H) as [?|[? Hn]]; [by left|].
    right. split; [done|]. intros Hq. by apply Hn, (rb_free _ _ _ _ _ _ _ _ B).
  - intros q Hq. by apply (rb_mono _ _ _ _ _ _ _ _ B), (gr_mono G).
  - intros q Hq Hnp Hnf. eapply same_bytes_trans; [by apply (gr_frame G)|]. apply (rb_frame _ _ _ _ _ _ _ _ B); [done| |].
    + intros [?|[? _]]%(gr_pt G); done.
    + intros Hin. by apply Hnf, (gr_free G).
  - rewrite (rb_lock _ _ _ _ _ _ _ _ B). apply G.
Qed.

(** A change inside one frame. *)
Lemma grown_store perm fill fill' (Hperm : forall va, 0 <= perm va < 4096) d lo hi fl s fl1 s1 va m' :
  grown perm fill d lo hi hi fl s [] fl1 s1 -> 0 <= lo -> hi <= 4294967296 -> lo <= va < hi ->
  let q := frame_of (pte_view (mem s1) d va) in
  (forall b, b < q \/ q + 4096 <= b -> ld8 m' b = ld8 (mem s1) b) ->
  (forall vb o, lo <= vb < hi -> 0 <= o < 4096 -> fill' vb o = if vb / 4096 =? va / 4096 then ld8 m' (q + o) else fill vb o) ->
  grown perm fill' d lo hi hi fl s [] fl1 (set_mem m' s1).
Proof.
  intros G Hlo Hhi Hva q Hout Hin.
  destruct (grown_frame perm fill Hperm d lo hi hi fl s [] fl1 s1 va G Hva) as (H1 & H2 & H3 & H4 & H5 & _). fold q in H1, H2, H3, H4, H5.
  assert (Hs : forall r, is_page r -> r <> q -> same_bytes (mem s1) m' r).
  { intros r Hr Hne b Hb. apply Hout. destruct (is_page_disjoint r q Hr H2 Hne); lia. }
  assert (Hpt : forall r, pt_page (mem s1) d r -> same_bytes (mem s1) m' r).
  { intros r Hr. apply Hs; [by apply (pt_page_is_page _ _ _ _ (gr_dir G)) in Hr as [? _]|]. by intros ->. }
  assert (Hd : same_bytes (mem s1) m' d) by (apply Hpt; by left).
  assert (Hiff : forall r, pt_page m' d r <-> pt_page (mem s1) d r) by (intros; by apply pt_page_ext).
  assert (Hv : forall vb, pte_view m' d vb = pte_view (mem s1) d vb) by (intros; by apply pte_view_ext).
  assert (Hmap : forall vb r, maps_to m' d vb r <-> maps_to (mem s1) d vb r) by (intros; unfold maps_to; by rewrite Hv).
  split; try apply G.
  - apply phys_ok_frame; [apply G|]. intros r b Hr Hb. apply Hs with r; [by eapply phys_ok_page; [apply G|]|by intros ->|done].
  - by eapply pgdir_ok_ext; [exact Hd| |apply G].
  - intros vb Hu Hvb. change (mem (set_mem m' s1)) with m'. rewrite Hv. by apply (gr_out G).
  - intros vb Hvb. destruct (grown_frame perm fill Hperm d lo hi hi fl s [] fl1 s1 vb G Hvb) as (B1 & B2 & B3 & B4 & B5 & B6 & B7). set (r := frame_of (pte_view (mem s1) d vb)) in *.
    exists r. change (mem (set_mem m' s1)) with m'. rewrite Hv. split_and!; try done. intros b Hb. rewrite Hin by lia. destruct (Z.eqb_spec (vb / 4096) (va / 4096)) as [Heq|Hne].
    + assert (r = q) as -> by (unfold r, q; rewrite (pte_view_page _ _ vb va) by (unfold is_u32; lia || done); done). f_equal. lia.
    + rewrite <- B7 by done. apply (Hs r); [done| |done]. intros E. apply Hne, (own_inj _ _ _ _ _ (gr_own G) vb va q); try done. by rewrite <- E.
  - change (mem (set_mem m' s1)) with m'. split.
    + intros vb r Hvb Hr%Hmap. rewrite Hiff. by apply (own_frame _ _ _ _ _ (gr_own G) vb).
    + intros vb vc r Hvb Hvc Hr%Hmap Hr'%Hmap. by apply (own_inj _ _ _ _ _ (gr_own G) vb vc r).
  - by intros r ?%elem_of_nil.
  - intros r Hr. change (mem (set_mem m' s1)) with m'. rewrite Hiff. destruct (gr_cover G r Hr) as [?|[?|[?|(vb & Hvb & Hm)]]]; [tauto..|]. right; right; right. exists vb. by rewrite Hmap.
  - intros r. change (mem (set_mem m' s1)) with m'. rewrite Hiff. apply (gr_pt G).
  - intros r Hr. change (mem (set_mem m' s1)) with m'. by apply Hiff, (gr_mono G).
  - intros r Hr Hnp Hnf. change (mem (set_mem m' s1)) with m'. eapply same_bytes_trans; [by apply (gr_frame G)|]. apply Hs; [done|]. by intros ->.
Qed.

(** A new entry for the page of [va] that maps the same frame. *)
Lemma grown_reperm perm perm' fill (Hperm : forall va, 0 <= perm va < 4096) (Hperm' : forall va, 0 <= perm' va < 4096) d lo hi fl s fl1 s1 s2 va :
  grown perm fill d lo hi hi fl s [] fl1 s1 -> 0 <= lo -> hi <= 4294967296 -> lo <= va < hi -> hi mod 4096 = 0 -> lo mod 4096 = 0 ->
  vm_step d fl1 s1 fl1 s2 ->
  (forall vb, is_u32 vb -> pte_view (mem s2) d vb =
     if vb / 4096 =? va / 4096 then mk_pte (V2P (frame_of (pte_view (mem s1) d va))) (perm' va) else pte_view (mem s1) d vb) ->
  (forall vb, lo <= vb < hi -> perm' vb = if vb / 4096 =? va / 4096 then perm' va else perm vb) ->
  grown perm' fill d lo hi hi fl s [] fl1 s2.
Proof.
  intros G Hlo Hhi Hva Hal Hal0 St Hv Hp.
  assert (Hpt : forall r, pt_page (mem s2) d r <-> pt_page (mem s1) d r).
  { intros r. split; [|apply St]. intros [?|[? ?]]%(vs_pt _ _ _ _ _ St); done. }
  assert (Hin : forall vb, lo <= vb < hi -> pte_view (mem s2) d vb = mk_pte (V2P (frame_of (pte_view (mem s1) d vb))) (perm' vb)).
  { intros vb Hvb. rewrite Hv, (Hp vb) by (first [done|lia|unfold is_u32; lia]).
    destruct (grown_frame perm fill Hperm d lo hi hi fl s [] fl1 s1 vb G Hvb) as (_ & _ & _ & _ & _ & B6 & _).
    destruct (Z.eqb_spec (vb / 4096) (va / 4096)) as [Heq|Hne]; [|done]. by rewrite (pte_view_page _ _ vb va) by (first [done|lia|unfold is_u32; lia]). }
  assert (Hmap : forall vb r, lo <= vb < hi -> maps_to (mem s2) d vb r <-> maps_to (mem s1) d vb r).
  { intros vb r Hvb. destruct (grown_frame perm fill Hperm d lo hi hi fl s [] fl1 s1 vb G Hvb) as (_ & B2 & _ & _ & B5 & B6 & _).
    unfold maps_to. rewrite Hin, mk_pte_present, frame_mk_pte by done. destruct B5 as [-> _]. done. }
  split; try apply G; try apply St.
  - intros vb Hu Hvb. rewrite Hv by done. destruct (Z.eqb_spec (vb / 4096) (va / 4096)) as [Heq|Hne]; [dlia|]. by apply (gr_out G).
  - intros vb Hvb. destruct (grown_frame perm fill Hperm d lo hi hi fl s [] fl1 s1 vb G Hvb) as (B1 & B2 & B3 & B4 & B5 & B6 & B7). set (r := frame_of (pte_view (mem s1) d vb)) in *.
    exists r. rewrite Hin by done. split_and!; try done. intros b Hb. rewrite <- B7 by done. by apply (vs_frame _ _ _ _ _ St r).
  - split.
    + intros vb r Hvb Hr%Hmap; [|done]. rewrite Hpt. by apply (own_frame _ _ _ _ _ (gr_own G) vb).
    + intros vb vc r Hvb Hvc Hr%Hmap Hr'%Hmap; [|done..]. by apply (own_inj _ _ _ _ _ (gr_own G) vb vc r).
  - by intros r ?%elem_of_nil.
  - intros r Hr. rewrite Hpt. destruct (gr_cover G r Hr) as [?|[?|[?|(vb & Hvb & Hm)]]]; [tauto..|]. right; right; right. exists vb. by rewrite Hmap.
  - intros r. rewrite Hpt. apply (gr_pt G).
  - intros r Hr. by apply Hpt, (gr_mono G).
  - intros r Hr Hnp Hnf. eapply same_bytes_trans; [by apply (gr_frame G)|]. apply (vs_frame _ _ _ _ _ St); [done| |].
    + intros [?|[? _]]%(gr_pt G); done.
    + intros Hin'. by apply Hnf, (gr_free G).
  - rewrite (vs_lock _ _ _ _ _ St). apply G.
Qed.

(** ** Images *)

Lemma image_ext perm img img' d hi fl1 s1 fl2 s2 : (forall a, 0 <= a < hi -> img' a = img a) -> hi mod 4096 = 0 ->
  image perm img d hi fl1 s1 fl2 s2 -> image perm img' d hi fl1 s1 fl2 s2.
Proof. intros H Hal. apply grown_ext; [done|]. intros va o Hva Ho. unfold img_fill. apply H. dlia. Qed.

(** Above the image nothing is mapped for the user. *)
Lemma image_above perm img fl s d fl1 s1 hi fl2 s2 va :
  new_space fl s d fl1 s1 -> image perm img d hi fl1 s1 fl2 s2 -> 0 <= hi <= va -> va < KERNBASE -> pte_view (mem s2) d va = 0.
Proof.
  intros N G Hva Hk. rewrite (gr_out G), (ns_view _ _ _ _ _ N) by (first [alia|right; lia]). unfold kernel_view. by rewrite (proj2 (Z.ltb_lt _ _) Hk).
Qed.

Lemma pte_present_pde m d va : present (pte_view m d va) = true -> present (pde_at m d (PDX va)) = true.
Proof. unfold pte_view. by destruct (present (pde_at m d (PDX va))). Qed.

(** The entry [walkpgdir] finds for a mapped address. *)
Lemma walk_mapped perm img (Hperm : forall va, 0 <= perm va < 4096) d hi fl1 s1 fl2 s2 va Q E :
  image perm img d hi fl1 s1 fl2 s2 -> 0 <= va < hi ->
  (forall pte, (pte =? 0) = false -> pte = pgtab_at (mem s2) d (PDX va) + 4 * PTX va -> present (pde_at (mem s2) d (PDX va)) = true ->
     ld32 (mem s2) pte = pte_view (mem s2) d va -> Q pte s2) ->
  wpx (walkpgdir d va false) Q E s2.
Proof.
  intros G Hva HQ. destruct (grown_frame perm _ Hperm d 0 hi hi fl1 s1 [] fl2 s2 va G Hva) as (_ & _ & _ & _ & [Hp _] & _).
  pose proof (pte_present_pde _ _ _ Hp) as Hpde. unfold wpx. rewrite walkpgdir_look, Hpde. apply HQ; try done.
  - apply Z.eqb_neq. destruct (tab_ok _ _ _ (gr_dir G) _ (PDX_range va) Hpde) as [Hpg%is_page_range _]. pose proof (PTX_range va). alia.
  - unfold pte_view. by rewrite Hpde.
Qed.

(** Storing bytes inside a page. *)
Lemma image_write perm img (Hperm : forall va, 0 <= perm va < 4096) d hi fl1 s1 fl2 s2 va l :
  image perm img d hi fl1 s1 fl2 s2 -> hi <= 4294967296 -> 0 <= va < hi -> va mod 4096 + Z.of_nat (length l) <= 4096 ->
  image perm (img_write img va l) d hi fl1 s1 fl2 (set_mem (stbytes (mem s2) (user_addr (mem s2) d va) l) s2).
Proof.
  intros G Hhi Hva Hl. destruct (grown_frame perm _ Hperm d 0 hi hi fl1 s1 [] fl2 s2 va G Hva) as (_ & _ & _ & _ & _ & _ & Hb).
  unfold user_addr. set (q := frame_of (pte_view (mem s2) d va)) in *. pose proof (Z.mod_pos_bound va 4096 ltac:(lia)) as Hm.
  apply (grown_store perm (img_fill img) _ Hperm d 0 hi fl1 s1 fl2 s2 va); try done; fold q.
  - intros b Hout. rewrite ld8_stbytes. zcases; try done; lia.
  - intros vb o Hvb Ho. unfold img_fill, img_write. destruct (Z.eqb_spec (vb / 4096) (va / 4096)) as [Heq|Hne].
    + rewrite ld8_stbytes. replace (q + o - (q + va mod 4096)) with (vb - vb mod 4096 + o - va) by dlia. zcases; try done; try dlia.
      all: rewrite Hb by lia; unfold img_fill; f_equal; dlia.
    + zcases; try done; dlia.
Qed.

(** The pages of the image and of its tables are all that was taken. *)
Lemma image_count perm img fl s d fl1 s1 hi fl2 s2 :
  NoDup fl -> new_space fl s d fl1 s1 -> image perm img d hi fl1 s1 fl2 s2 -> 0 <= hi <= 4294967296 -> hi mod 4096 = 0 ->
  Z.of_nat (length fl) <= Z.of_nat (length fl2) + 1025 + hi / 4096.
Proof.
  intros Hnd N G Hhi Hal. apply (pages_bound (mem s2) d fl2 0 (hi / 4096) fl Hnd); [lia|done|dlia|dlia|]. intros q [Hq|Hq]%(ns_cover _ _ _ _ _ N).
  - destruct (gr_cover G q Hq) as [?|[?|[?%elem_of_nil|(va & Hva & Hm)]]]; [tauto|tauto|done|]. right; right. exists va. split; [dlia|done].
  - right; left. by apply (gr_mono G).
Qed.

(** [allocuvm] on an image. *)
Lemma image_alloc fl s d fl1 s1 img sz newsz fl2 s2 :
  NoDup fl -> new_space fl s d fl1 s1 -> image user_perm img d (PGROUNDUP sz) fl1 s1 fl2 s2 -> 0 <= sz <= HEAPLIMIT -> 0 <= newsz ->
  wp (allocuvm d sz newsz) (fun r s' => exists fl',
    (r = 0 /\ (newsz < HEAPLIMIT -> short_of fl (PGROUNDUP newsz)) /\ image user_perm img d (PGROUNDUP sz) fl1 s1 fl' s') \/
    (r = Z.max sz newsz /\ newsz < HEAPLIMIT /\
     image user_perm (img_grow img (PGROUNDUP sz)) d (PGROUNDUP (Z.max sz newsz)) fl1 s1 fl' s')) s2.
Proof.
  intros Hnd N G Hsz Hnew. assert (El : PGROUNDUP sz = (sz + 4095) / 4096 * 4096) by (apply PGROUNDUP_eq; alia).
  destruct (Z.lt_ge_cases newsz HEAPLIMIT) as [Hlim|Hlim].
  2:{ unfold allocuvm. rewrite (proj2 (Z.leb_le _ _)) by lia. apply wpx_ret. exists fl2. left. split; [done|]. split; [lia|done]. }
  assert (Hkeep : image user_perm (img_grow img (PGROUNDUP sz)) d (PGROUNDUP sz) fl1 s1 fl2 s2).
  { eapply image_ext; [|dlia|exact G]. intros a Ha. unfold img_grow. by rewrite (proj2 (Z.ltb_lt _ _)) by lia. }
  destruct (Z.lt_ge_cases newsz sz) as [Hlt|Hge].
  { unfold allocuvm. rewrite (proj2 (Z.leb_gt _ _)), (proj2 (Z.ltb_lt _ _)) by lia. apply wpx_ret. exists fl2. right. by rewrite Z.max_l by lia. }
  rewrite Z.max_r by lia. assert (Eh : PGROUNDUP newsz = (newsz + 4095) / 4096 * 4096) by (apply PGROUNDUP_eq; alia).
  assert (Hz : forall va, PGROUNDUP sz <= va < PGROUNDUP newsz -> pte_view (mem s2) d va = 0).
  { intros va Hva. apply (image_above user_perm img fl s d fl1 s1 (PGROUNDUP sz) fl2 s2 va N G); alia. }
  wp_use (allocuvm_spec d sz newsz fl2 s2); [apply G|apply G|lia|lia|by intros va Hva; rewrite Hz|].
  intros r s' [(-> & fl' & G')|(-> & fl' & B)]; exists fl'.
  - right. split; [done|]. split; [done|].
    apply (grown_app user_perm _ user_perm_ok d 0 (PGROUNDUP sz) (PGROUNDUP newsz) fl1 s1 fl2 s2); [exact Hkeep| |alia..].
    eapply grown_ext; [| |exact G']; [done|]. intros va o Hva Ho. unfold img_fill, img_grow, zero_fill. rewrite (proj2 (Z.ltb_ge _ _)) by dlia. done.
  - left. split; [done|]. split.
    { intros _. unfold short_of. pose proof (image_count _ _ _ _ _ _ _ _ _ _ Hnd N G ltac:(alia) ltac:(alia)). pose proof (rb_short _ _ _ _ _ _ _ _ B). alia. }
    by apply (grown_back user_perm _ user_perm_ok d 0 (PGROUNDUP sz) (PGROUNDUP newsz) fl1 s1 fl2 s2); [..|alia].
Qed.

(** [clearpteu]. *)
Lemma image_clear img d hi fl1 s1 fl2 s2 va :
  image user_perm img d hi fl1 s1 fl2 s2 -> hi <= 4294967296 -> 0 <= va < hi -> hi mod 4096 = 0 ->
  wp (clearpteu d va) (fun _ s' => image (guard_perm va) img d hi fl1 s1 fl2 s') s2.
Proof.
  intros G Hhi Hva Hal. destruct (grown_frame user_perm _ user_perm_ok d 0 hi hi fl1 s1 [] fl2 s2 va G Hva) as (_ & B2 & _ & _ & _ & B6 & _).
  unfold clearpteu. wp_step. eapply walk_mapped; [apply user_perm_ok|exact G|done|]. intros pte Hz Ep Hpde He. rewrite Hz.
  unfold upd_mem. apply wpx_modify. rewrite He. set (q := frame_of (pte_view (mem s2) d va)) in *.
  assert (Hnew : Z.land (pte_view (mem s2) d va) (u32 (Z.lnot PTE_U)) = mk_pte (V2P q) (guard_perm va va)).
  { rewrite B6. unfold user_perm, guard_perm. rewrite Z.eqb_refl. unfold mk_pte. rewrite !Z.land_lor_distr_l.
    change (Z.land (Z.land PTE_W (u32 (Z.lnot PTE_U))) 0) with 0. pose proof (is_page_range q B2). rewrite V2P_high by alia.
    rewrite (land_not_U (q - KERNBASE)) by alia. done. }
  rewrite Hnew. subst pte. destruct (vm_step_store d fl2 s2 va (mk_pte (V2P q) (guard_perm va va))) as [St Hv]; try done; [apply G|apply G|unfold is_u32; lia| |].
  { apply mk_pte_u32; [..|apply guard_perm_ok]; pose proof (is_page_range q B2); rewrite V2P_high by alia; alia. }
  apply (grown_reperm user_perm (guard_perm va) _ user_perm_ok (guard_perm_ok va) d 0 hi fl1 s1 fl2 s2 _ va); try done.
  intros vb Hvb. unfold guard_perm, user_perm. rewrite Z.eqb_refl. by destruct (_ =? _).
Qed.

End space.
