(* ===== verification/ExecImage.v ===== *)
(** * Loading a program (src/exec.c, src/vm.c: loaduvm, src/elf.h)

    What an ELF file says the memory of the program is, as a function of the
    bytes of the file, and that the loop over the program headers builds it. *)

From S2P Require Import Prelude.
From S2P Require Import CString.
From S2P Require Import Mmu.
From S2P Require Import Kalloc.
From S2P Require Import Vm.
From S2P Require Import Uvm.
From S2P Require Import Vmspace.
From S2P Require Import ExecSpace.
From S2P Require Import Kernel.
From S2P Require Import ShmGet.
From S2P Require Import Args.
From S2P Require Import Bytes.
From S2P Require Import Sleeplock.
From S2P Require Import Bio.
From S2P Require Import Log.
From S2P Require Import LogTheorems.
From S2P Require Import Path.
From S2P Require Import Fs.
From S2P Require Import FsBlock.
From S2P Require Import FsFile.
From S2P Require Import FsPid.
From S2P Require Import FsDir.
From S2P Require Import File.
From S2P Require Import Sysfile.
From S2P Require Import Exec.

Open Scope Z_scope.

(** ** What a file means *)

(** [n] bytes of a file from [off] on, if it has them. *)
Definition part (c : bytes) (off n : Z) : option bytes :=
  if off + n <=? Z.of_nat (length c) then Some (take (Z.to_nat n) (drop (Z.to_nat off) c)) else None.

(** The bytes of a segment; of an empty one the offset does not matter. *)
Definition seg_data (c : bytes) (off n : Z) : option bytes := if n =? 0 then Some [] else part c off n.

(** A segment that can be loaded, given the size of the image so far. *)
Definition seg_ok (ph : proghdr) (sz : Z) : bool :=
  (ph_filesz ph <=? ph_memsz ph) && (ph_vaddr ph + ph_memsz ph <? HEAPLIMIT) &&
  negb (Z.max sz (ph_vaddr ph + ph_memsz ph) =? 0) && (ph_vaddr ph mod 4096 =? 0).

(** The size and the bytes of the image after [k] program headers from [off]
    on: each segment is zero, then has the bytes of the file. *)
Fixpoint elf_load (c : bytes) (k : nat) (off sz : Z) (img : Z -> Z) : option (Z * (Z -> Z)) :=
  match k with
  | O => Some (sz, img)
  | S k' =>
      match part c off PROGHDR with
      | None => None
      | Some d =>
          let ph := get_proghdr d in
          if negb (ph_type ph =? ELF_PROG_LOAD) then elf_load c k' (off + PROGHDR) sz img
          else if negb (seg_ok ph sz) then None
          else
            match seg_data c (ph_off ph) (ph_filesz ph) with
            | None => None
            | Some l =>
                elf_load c k' (off + PROGHDR) (Z.max sz (ph_vaddr ph + ph_memsz ph))
                  (img_write (img_grow img (PGROUNDUP sz)) (ph_vaddr ph) l)
            end
      end
  end.

(** The entry point, the size and the bytes of a program. *)
Definition elf_program (c : bytes) : option (Z * Z * (Z -> Z)) :=
  match part c 0 ELFHDR with
  | None => None
  | Some d =>
      let elf := get_elfhdr d in
      if negb (e_magic elf =? ELF_MAGIC) then None
      else
        match elf_load c (Z.to_nat (e_phnum elf)) (e_phoff elf) 0 (fun _ => 0) with
        | None => None
        | Some (sz, img) => Some (e_entry elf, sz, img)
        end
  end.

(** * Lemmas *)

Lemma length_part c off n l : part c off n = Some l -> 0 <= off -> 0 <= n -> Z.of_nat (length l) = n.
Proof. unfold part. destruct (Z.leb_spec (off + n) (Z.of_nat (length c))); [|done]. intros [= <-] Ho Hn. rewrite length_take, length_drop. lia. Qed.

Lemma part_bytes c off n l : Forall is_byte c -> part c off n = Some l -> Forall is_byte l.
Proof. unfold part. destruct (_ <=? _); [|done]. intros H [= <-]. by apply Forall_take, Forall_drop. Qed.

(** Storing one piece after another. *)
Lemma img_write_app img a l l' b : img_write (img_write img a l) (a + Z.of_nat (length l)) l' b = img_write img a (l ++ l') b.
Proof.
  unfold img_write. rewrite length_app. zcases; try done; try lia.
  - rewrite lookup_app_r by lia. do 3 f_equal. lia.
  - rewrite lookup_app_l by lia. done.
Qed.

(** ** The file that is read *)

Section load.
Context {K : KernelImage} {KI : KernelImageOk K} {D : DevSw}.
Context (sb : superblock) (st sz : nat) (v : list bytes) (bs : list nat) (L : Z -> Prop).
Context (Te : tree sb st sz v L) (Ly : layout sb st sz (length v)) (B : bitmap_ok sb st sz v) (R : room sz bs ∅ 6).

(** The process that calls, and the kernel it calls in; the file layer is as
    the call finds it, but for the file system. *)
Context (s0 : kernel files) (p : proc) (Hcur : ptable s0 !! curproc s0 = Some p) (out : Z * Z).
Definition cx : Z * Z * Z := (pid p, out.1, out.2).
Definition at_fs (ph : phys) (f : fsys) : kernel files :=
  set_kphys ph (set_kfs (set_fsy f (set_files_proc (pid p) (nz (killed p)) (kfs s0))) s0).

Lemma set_files_proc_fsy f k F : fs_pid f = pid p -> set_files_proc (pid p) k (set_fsy f (set_files_proc (pid p) k F)) = set_fsy f (set_files_proc (pid p) k F).
Proof.
  intros Hp. unfold set_files_proc, set_fsy, fs_pid in *. cbn. f_equal. destruct f as [g ic lk b]. unfold set_lg in *. cbn in *. f_equal.
  destruct g as [b0 ? ? ? ? ? ? ? ?]. unfold set_bc. cbn in *. f_equal. destruct b0. cbn in *. by subst.
Qed.

Lemma wpx_ininodes {A} (c : M fsys A) (Q : A -> kernel files -> Prop) E ph f : fs_pid f = pid p ->
  wpx c (fun a f' => Q a (at_fs ph f')) E f -> wpx (ininodes c) Q E (at_fs ph f).
Proof.
  intros Hp H. unfold ininodes, incall, mycur, myproc. wp_step. wp_step. apply wpx_gets. eapply wpx_get_proc; [exact Hcur|]. wp_step. apply wpx_zoom, wpx_modify.
  apply wpx_zoom. unfold infile. apply wpx_zoom. unfold infy. apply wpx_zoom. cbn [fst kfs set_kfs at_fs set_kphys]. rewrite set_files_proc_fsy by done.
  eapply wpx_mono; [exact H| |done]. intros a f' HQ. exact HQ.
Qed.

(** The file, locked, and its bytes. *)
Context (ip : nat) (i : Z) (HL : L i) (x := disk_inode sb v i) (Ht : i_type x <> T_DEV) (f0 : fsys).
Context (c : bytes) (Hc : c = fbytes v x 0 (Z.to_nat (i_size x))) (Hbytes : Forall is_byte c).
Definition reading (f : fsys) : Prop := fs_ok sb st sz v cx bs (Some ip) f /\ locked f ip i /\ counted f0 i 0 f.

Lemma length_file : Z.of_nat (length c) = i_size x /\ 0 <= i_size x <= 71680.
Proof. pose proof (fo_size _ _ _ _ _ (te_file _ _ _ _ _ Te i HL)) as Hs. fold x in Hs. change (MAXFILE * 512) with 71680 in Hs. rewrite Hc. unfold fbytes. rewrite length_map, length_zrange. lia. Qed.

Lemma wpx_readi ph f off n (Q : Z * bytes -> kernel files -> Prop) E : reading f -> is_u32 off -> 0 < n -> is_u32 n ->
  (forall f' r, reading f' -> match part c off n with Some l => r = (n, l) | None => r.1 <> n /\ Z.of_nat (length r.2) <= n end -> Q r (at_fs ph f')) ->
  wpx (ininodes (readi ip off n)) Q E (at_fs ph f).
Proof.
  intros (Hf & Hl & Hn0) Ho Hn Hnu HQ. destruct length_file as [Hlen Hsz]. unfold is_u32 in Ho. apply wpx_ininodes; [exact (f_equal (fun c => c.1.1) (fk_ctx _ _ _ _ _ _ _ _ Hf))|].
  eapply wpx_mono; [apply (read_locked sb st sz v cx bs L Te Ly B R f ip i off n Hf Hl HL Ht Ho Hnu)| |done]. fold x. intros r f' (H1 & H2 & H3 & ->).
  apply HQ; [split; [done|]; split; [done|by eapply counted_0]|]. unfold part. rewrite Hlen.
  assert (Hfl : forall o k, length (fbytes v x o k) = k) by (intros o k; unfold fbytes; by rewrite length_map, length_zrange).
  destruct (Z.leb_spec (off + n) (i_size x)) as [Hin|Hout].
  - rewrite decide_True by lia. rewrite Z.min_l by lia. f_equal. apply fbytes_part; [|lia..]. rewrite Hc at 2. f_equal. lia.
  - destruct (decide _) as [[Hle _]|]; cbn [fst snd]; [|cbn; lia]. rewrite Z.min_r, Hfl by lia. lia.
Qed.

Section segment.
Context (d hi : Z) (fl1 : list Z) (s1 : phys) (fl2 : list Z).
Abbreviation has ph img := (image user_perm img d hi fl1 s1 fl2 ph).

(** The outcome of loading a segment. *)
Definition seg_loaded (img : Z -> Z) (addr off n r : Z) (ph : phys) : Prop :=
  match seg_data c off n with
  | Some l => r = 0 /\ has ph (img_write img addr l)
  | None => r = -1 /\ exists img', has ph img'
  end.

(** One page of [loaduvm]. *)
Lemma load_page img addr n ph f off (k : Z * bytes -> M (kernel files) Z) Q E :
  has ph img -> reading f -> 0 <= addr -> addr mod 4096 = 0 -> 0 < n <= 4096 -> addr + n <= hi -> hi <= HEAPLIMIT -> is_u32 off ->
  (forall ph' f' r, reading f' -> match part c off n with Some l => r = (n, l) /\ has ph' (img_write img addr l) | None => r.1 <> n /\ exists img', has ph' img' end ->
     wpx (k r) Q E (at_fs ph' f')) ->
  wpx (let! pte := inphys (walkpgdir d addr false) in
       if pte =? 0 then panic "loaduvm: address should exist"
       else
         let! e := inphys (gets (fun s => ld32 (mem s) pte)) in
         let! r := ininodes (readi ip off n) in
         do! inphys (upd_mem (fun m => stbytes m (P2V (PTE_ADDR e)) r.2)) in
         k r) Q E (at_fs ph f).
Proof.
  intros G Hf Ha Hal Hn Hhi Hlim Ho HQ. wp_step. apply wpx_zoom. cbn [kphys at_fs set_kphys].
  eapply walk_mapped; [apply user_perm_ok|exact G|lia|]. intros pte Hz _ _ He. rewrite Hz. wp_step. apply wpx_zoom, wpx_gets. cbn [kphys at_fs set_kphys]. rewrite He.
  change (set_kphys ph (set_kphys ph (at_fs ph f))) with (at_fs ph f). wp_step. apply wpx_readi; [done|done|lia|unfold is_u32; lia|]. intros f' r Hf' Hr.
  wp_step. apply wpx_zoom. unfold upd_mem. apply wpx_modify. cbn [kphys at_fs set_kphys]. fold (frame_of (pte_view (mem ph) d addr)).
  assert (Hlen : Z.of_nat (length r.2) <= n).
  { destruct (part c off n) as [l|] eqn:Hp; [|by destruct Hr]. rewrite Hr. cbn. unfold is_u32 in Ho. rewrite (length_part _ _ _ _ Hp) by lia. lia. }
  pose proof (image_write user_perm img user_perm_ok d hi fl1 s1 fl2 ph addr r.2 G ltac:(alia) ltac:(lia) ltac:(lia)) as G'.
  unfold user_addr in G'. rewrite Hal, Z.add_0_r in G'.
  apply (HQ (set_mem (stbytes (mem ph) (frame_of (pte_view (mem ph) d addr)) r.2) ph) f' r Hf').
  destruct (part c off n) as [l|]; [split; [done|]|split; [by destruct Hr|by eexists]]. by rewrite Hr in G' |- *.
Qed.

(** The bytes of the segment that are loaded when the counter is [j]. *)
Definition loaded_at (off n j : Z) : bytes := take (Z.to_nat (Z.min j n)) (drop (Z.to_nat off) c).

Lemma kloaduvm_loop_spec img addr off n : 0 <= addr -> addr mod 4096 = 0 -> 0 <= n -> addr + n <= hi -> hi <= HEAPLIMIT -> hi mod 4096 = 0 -> is_u32 off ->
  forall fuel j ph f, has ph (img_write img addr (loaded_at off n j)) -> reading f -> 0 <= j < n + 4096 -> j mod 4096 = 0 -> n + 4096 <= j + 4096 * Z.of_nat fuel ->
  (0 < j -> off + Z.min j n <= Z.of_nat (length c)) ->
  wp (kloaduvm_loop fuel d addr ip off n j) (fun r s' => exists ph' f', s' = at_fs ph' f' /\ reading f' /\ seg_loaded img addr off n r ph') (at_fs ph f).
Proof.
  intros Ha Hal Hn Hhi Hlim Hhal Ho. destruct length_file as [Hlen Hsz]. unfold is_u32 in Ho.
  induction fuel as [|fuel IH]; intros j ph f G Hf Hj Hjm Hfuel Hpre; [lia|]. cbn [kloaduvm_loop]. destruct (Z.ltb_spec j n) as [Hlt|Hge].
  2:{ apply wpx_ret. exists ph, f. split; [done|]. split; [done|]. unfold seg_loaded, seg_data, loaded_at in *. destruct (Z.eqb_spec n 0) as [->|Hnz].
      - split; [done|]. by rewrite Z.min_r in G by lia.
      - unfold part. rewrite Z.min_r in Hpre, G by lia. rewrite (proj2 (Z.leb_le _ _)) by (apply Hpre; lia). done. }
  rewrite (u32_small (addr + j)) by alia. set (m := if n - j <? PGSIZE then n - j else PGSIZE).
  assert (Hm : 0 < m <= 4096 /\ j + m <= n /\ Z.min (j + 4096) n = j + m) by (unfold m; consts; zcases; lia).
  assert (Hoff : u32 (off + j) = off + j) by (destruct (Z.eq_dec j 0) as [->|]; [rewrite Z.add_0_r|]; apply u32_small; unfold is_u32; lia).
  assert (Hll : Z.of_nat (length (loaded_at off n j)) = j).
  { unfold loaded_at. rewrite length_take, length_drop. destruct (Z.eq_dec j 0); lia. }
  rewrite Hoff. apply (load_page (img_write img addr (loaded_at off n j)) (addr + j) m ph f (off + j)); try done; [lia|dlia|lia|lia|unfold is_u32; destruct (Z.eq_dec j 0); lia|].
  intros ph' f' r Hf' Hr. destruct (part c (off + j) m) as [l|] eqn:Hp.
  - destruct Hr as [-> G']. cbn [fst]. rewrite Z.eqb_refl. cbn [negb]. rewrite u32_small by alia.
    unfold part in Hp. destruct (Z.leb_spec (off + j + m) (Z.of_nat (length c))) as [Hin|]; [|done]. injection Hp as <-.
    change PGSIZE with 4096. apply IH; try done; [|lia|dlia|lia|lia].
    eapply image_ext; [|done|exact G']. intros b Hb. replace (addr + j) with (addr + Z.of_nat (length (loaded_at off n j))) by lia. rewrite img_write_app. f_equal. unfold loaded_at.
    replace (Z.min (j + 4096) n) with (j + m) by lia. rewrite (Z.min_l j n) by lia. rewrite Z2Nat.inj_add, <- take_take_drop, drop_drop by lia. do 3 f_equal. lia.
  - destruct Hr as [Hr [img' G']]. rewrite (proj2 (Z.eqb_neq _ _) Hr). cbn [negb]. apply wpx_ret. exists ph', f'. split; [done|]. split; [done|].
    unfold seg_loaded, seg_data. rewrite (proj2 (Z.eqb_neq n 0)) by lia. unfold part in Hp |- *.
    destruct (Z.leb_spec (off + j + m) (Z.of_nat (length c))) as [|Hbad]; [done|]. rewrite (proj2 (Z.leb_gt _ _)) by lia. split; [done|by exists img'].
Qed.

Lemma kloaduvm_spec img addr off n ph f : has ph img -> reading f -> 0 <= addr -> addr mod 4096 = 0 -> 0 <= n -> addr + n <= hi -> hi <= HEAPLIMIT -> hi mod 4096 = 0 -> is_u32 off ->
  wp (kloaduvm d addr ip off n) (fun r s' => exists ph' f', s' = at_fs ph' f' /\ reading f' /\ seg_loaded img addr off n r ph') (at_fs ph f).
Proof.
  intros G Hf Ha Hal Hn Hhi Hlim Hhal Ho. unfold kloaduvm. change PGSIZE with 4096. rewrite Hal. cbn [nz Z.eqb negb].
  apply kloaduvm_loop_spec; try done; [|lia|dlia]. eapply image_ext; [|done|exact G]. intros b Hb. unfold img_write, loaded_at. rewrite Z.min_l, take_0 by lia. change (Z.of_nat (length [])) with 0. zcases; try done; lia.
Qed.

End segment.

(** The size of the image only grows. *)
Lemma elf_load_range : forall n off sz1 img sz2 img2, elf_load c n off sz1 img = Some (sz2, img2) -> 0 <= sz1 < HEAPLIMIT -> sz1 <= sz2 < HEAPLIMIT.
Proof.
  induction n as [|n IH]; intros off sz1 img sz2 img2 H Hsz; cbn [elf_load] in H; [injection H as <- <-; lia|].
  destruct (part c off PROGHDR) as [dat|]; [|done]. destruct (negb (_ =? ELF_PROG_LOAD)); [by eapply IH|]. destruct (seg_ok (get_proghdr dat) sz1) eqn:Hok; [|done]. cbn [negb] in H.
  destruct (seg_data _ _ _); [|done]. apply IH in H; [lia|]. unfold seg_ok in Hok. rewrite !andb_true_iff in Hok. destruct Hok as [[[_ Hlt%Z.ltb_lt] _] _]. lia.
Qed.

(** The loop over the program headers. *)
Lemma exec_load_spec fl s d fl1 s1 (Hnd : NoDup fl) (N : new_space fl s d fl1 s1) : forall n off sz1 img fl2 ph f,
  image user_perm img d (PGROUNDUP sz1) fl1 s1 fl2 ph -> reading f -> 0 <= sz1 < HEAPLIMIT -> is_u32 off ->
  wp (exec_load ip d n off sz1) (fun r s' => exists ph' f' fl3, s' = at_fs ph' f' /\ reading f' /\
    match r with
    | Some sz2 => exists img2, elf_load c n off sz1 img = Some (sz2, img2) /\ 0 <= sz2 < HEAPLIMIT /\ image user_perm img2 d (PGROUNDUP sz2) fl1 s1 fl3 ph'
    | None => (forall sz2 img2, elf_load c n off sz1 img = Some (sz2, img2) -> short_of fl (PGROUNDUP sz2)) /\
        exists img2 hi, 0 <= hi <= HEAPLIMIT /\ image user_perm img2 d hi fl1 s1 fl3 ph'
    end) (at_fs ph f).
Proof.
  induction n as [|n IH]; intros off sz1 img fl2 ph f G Hf Hsz1 Ho; cbn [exec_load elf_load].
  { apply wpx_ret. exists ph, f, fl2. split; [done|]. split; [done|]. by exists img. }
  assert (Hr1 : 0 <= PGROUNDUP sz1 <= HEAPLIMIT) by (rewrite PGROUNDUP_eq by alia; alia).
  wp_step. apply wpx_readi; [done|done|done|done|]. intros f1 r Hf1 Hr. destruct (part c off PROGHDR) as [dat|] eqn:Hp.
  2:{ rewrite (proj2 (Z.eqb_neq _ _)) by (by destruct Hr). cbn [negb]. apply wpx_ret. exists ph, f1, fl2. split; [done|]. split; [done|]. split; [done|]. by exists img, (PGROUNDUP sz1). }
  subst r. cbn [fst snd]. rewrite Z.eqb_refl. cbn [negb].
  assert (Hoff : u32 (off + PROGHDR) = off + PROGHDR /\ is_u32 (off + PROGHDR)).
  { destruct length_file as [Hlen Hsz]. unfold part in Hp. destruct (Z.leb_spec (off + PROGHDR) (Z.of_nat (length c))); [|done]. unfold is_u32 in *. unfold PROGHDR in *. split; [apply u32_small; unfold is_u32|]; lia. }
  destruct Hoff as [-> Ho']. pose proof (part_bytes _ _ _ _ Hbytes Hp) as Hb. set (h := get_proghdr dat).
  assert (Hh : is_u32 (ph_off h) /\ is_u32 (ph_vaddr h) /\ is_u32 (ph_filesz h) /\ is_u32 (ph_memsz h)) by (split_and!; by apply rd32_range).
  destruct Hh as (H1 & H2 & H3 & H4). destruct (negb (ph_type h =? ELF_PROG_LOAD)); [by eapply IH|].
  set (next := if negb (seg_ok h sz1) then None else _).
  assert (Hstop : forall ph' f' fl3 img2 hi, reading f' -> 0 <= hi <= HEAPLIMIT -> image user_perm img2 d hi fl1 s1 fl3 ph' ->
    (forall sz2 img2, next = Some (sz2, img2) -> short_of fl (PGROUNDUP sz2)) ->
    exists ph2 f2 fl4, at_fs ph' f' = at_fs ph2 f2 /\ reading f2 /\ (forall sz2 img2, next = Some (sz2, img2) -> short_of fl (PGROUNDUP sz2)) /\
      exists img2 hi, 0 <= hi <= HEAPLIMIT /\ image user_perm img2 d hi fl1 s1 fl4 ph2).
  { intros ph' f' fl3 img2 hi' A1 A2 A3 A4. exists ph', f', fl3. split; [done|]. split; [done|]. split; [done|]. by exists img2, hi'. }
  assert (Hno : seg_ok h sz1 = false -> forall sz2 img2, next = Some (sz2, img2) -> short_of fl (PGROUNDUP sz2)) by (intros E0 sz2 img2; unfold next; by rewrite E0).
  destruct (Z.ltb_spec (ph_memsz h) (ph_filesz h)) as [Hbad|Hmem].
  { apply wpx_ret. eapply Hstop; [done..|apply Hno]. unfold seg_ok. by rewrite (proj2 (Z.leb_gt _ _) Hbad). }
  destruct (Z.ltb_spec (u32 (ph_vaddr h + ph_memsz h)) (ph_vaddr h)) as [Hbad|Hwrap].
  { apply wpx_ret. eapply Hstop; [done..|apply Hno]. unfold seg_ok. rewrite (proj2 (Z.ltb_ge (ph_vaddr h + ph_memsz h) HEAPLIMIT)); [by rewrite andb_false_r|].
    unfold u32, is_u32 in *. consts. dlia. }
  assert (Htop : u32 (ph_vaddr h + ph_memsz h) = ph_vaddr h + ph_memsz h).
  { unfold u32 in *. unfold is_u32 in *. apply Z.mod_small. dlia. }
  rewrite Htop. set (top := ph_vaddr h + ph_memsz h) in *. unfold is_u32 in H2, H3, H4. wp_step. apply wpx_zoom. cbn [kphys at_fs set_kphys].
  eapply wpx_mono; [apply (image_alloc fl s d fl1 s1 img sz1 top fl2 ph Hnd N G ltac:(lia) ltac:(lia))| |done]. intros r ph1 (fl3 & Hr).
  change (set_kphys ph1 (at_fs ph f1)) with (at_fs ph1 f1). destruct Hr as [(-> & Hshort & G1)|(-> & Hlim & G1)].
  { cbn [Z.eqb]. apply wpx_ret. eapply Hstop; [done..|]. intros sz2 img2 Hn. unfold next in Hn. destruct (seg_ok h sz1) eqn:Hok; [|done]. cbn [negb] in Hn.
    destruct (seg_data _ _ _); [|done]. unfold seg_ok in Hok. rewrite !andb_true_iff in Hok. destruct Hok as [[[_ Hlt%Z.ltb_lt] _] _]. fold top in Hlt.
    apply elf_load_range in Hn; [|fold top; lia]. fold top in Hn. specialize (Hshort Hlt). unfold short_of in *. rewrite PGROUNDUP_eq in Hshort |- * by alia. dlia. }
  assert (Hr2 : 0 <= PGROUNDUP (Z.max sz1 top) <= HEAPLIMIT /\ PGROUNDUP (Z.max sz1 top) mod 4096 = 0 /\ top <= PGROUNDUP (Z.max sz1 top)) by (rewrite PGROUNDUP_eq by alia; alia).
  destruct Hr2 as (Hr2 & Hr3 & Hr4).
  assert (Hok : seg_ok h sz1 = negb (Z.max sz1 top =? 0) && (ph_vaddr h mod 4096 =? 0)).
  { unfold seg_ok. fold top. by rewrite (proj2 (Z.leb_le _ _) Hmem), (proj2 (Z.ltb_lt _ _) Hlim). }
  destruct (Z.max sz1 top =? 0); [apply wpx_ret; eapply Hstop; [done..|by apply Hno]|]. change PGSIZE with 4096. unfold nz.
  destruct (Z.eqb_spec (ph_vaddr h mod 4096) 0) as [Hal|Hal]; cbn [negb andb] in Hok |- *; [|apply wpx_ret; eapply Hstop; [done..|by apply Hno]].
  unfold next in *. rewrite Hok in *. cbn [negb] in *.
  wp_step. eapply wpx_mono; [apply (kloaduvm_spec d _ fl1 s1 fl3 _ (ph_vaddr h) (ph_off h) (ph_filesz h) ph1 f1 G1); (done || lia)| |done].
  intros r s' (ph2 & f2 & -> & Hf2 & Hl). unfold seg_loaded in Hl. destruct (seg_data c (ph_off h) (ph_filesz h)) as [l|].
  - destruct Hl as [-> G2]. cbn [Z.ltb Z.compare]. eapply IH; [exact G2|done|lia|done].
  - destruct Hl as [-> [img' G2]]. cbn [Z.ltb Z.compare]. apply wpx_ret. by eapply Hstop.
Qed.

End load.
