(* ===== verification/ExecStack.v ===== *)
(** * The stack of a new program (src/exec.c)

    The second half of [exec]: the guard page, the argument strings and the
    vector of pointers that main receives. *)

From S2P Require Import Prelude.
From S2P Require Import CString.
From S2P Require Import Mmu.
From S2P Require Import Kalloc.
From S2P Require Import Vm.
From S2P Require Import Uvm.
From S2P Require Import Vmspace.
From S2P Require Import ExecSpace.
From S2P Require Import Kernel.
From S2P Require Import Shm.
From S2P Require Import ShmGet.
From S2P Require Import Args.
From S2P Require Import Bytes.
From S2P Require Import Fs.
From S2P Require Import File.
From S2P Require Import Sysfile.
From S2P Require Import Exec.

Open Scope Z_scope.

(** ** What main finds on its stack *)

Definition word (img : Z -> Z) (a : Z) : Z := img a + 256 * img (a + 1) + 65536 * (img (a + 2) + 256 * img (a + 3)).

(** A string with its terminator. *)
Definition str_at (img : Z -> Z) (a : Z) (str : bytes) : Prop :=
  forall k c, (str ++ [0]) !! k = Some c -> img (a + Z.of_nat k) = c.

(** A return address, argc, argv; the vector with the strings it points at,
    all of them below [top]; and a null pointer. *)
Record main_args (img : Z -> Z) (esp top : Z) (strs : list bytes) : Prop := {
  ma_align : esp mod 4 = 0;
  ma_ret : word img esp = 4294967295;
  ma_argc : word img (esp + 4) = Z.of_nat (length strs);
  ma_argv : word img (esp + 8) = esp + 12;
  ma_str : forall k str, strs !! k = Some str -> let a := word img (esp + 12 + 4 * Z.of_nat k) in
    esp < a /\ a + Z.of_nat (length str) < top /\ str_at img a str;
  ma_null : word img (esp + 12 + 4 * Z.of_nat (length strs)) = 0;
}.

(** Where the strings go: each below the one before, at a multiple of 4. *)
Fixpoint push_args (strs : list bytes) (sp : Z) : Z * list Z :=
  match strs with
  | [] => (sp, [])
  | str :: strs' =>
      let sp1 := (sp - (Z.of_nat (length str) + 1)) / 4 * 4 in
      let r := push_args strs' sp1 in (r.1, sp1 :: r.2)
  end.

Fixpoint push_img (strs : list bytes) (sp : Z) (img : Z -> Z) : Z -> Z :=
  match strs with
  | [] => img
  | str :: strs' =>
      let sp1 := (sp - (Z.of_nat (length str) + 1)) / 4 * 4 in
      push_img strs' sp1 (img_write img sp1 (str ++ [0]))
  end.

(** The stack pointer of main, for a stack from [top] down; the arguments fit
    into a page, wherever it is. *)
Definition main_esp (strs : list bytes) (top : Z) : Z := (push_args strs top).1 - 4 * (Z.of_nat (length strs) + 4).
Definition args_fit (strs : list bytes) : Prop := (length strs <= 32)%nat /\ -4096 <= main_esp strs 0.

#[global] Instance args_fit_dec strs : Decision (args_fit strs) := _.

(** The bytes of the stack page. *)
Definition stack_img (strs : list bytes) (top : Z) (img : Z -> Z) : Z -> Z :=
  img_write (push_img strs top img) (main_esp strs top) (concat (le32 <$> ustack_words (push_args strs top).1 (push_args strs top).2)).

(** A string in the memory of the caller. *)
Definition arg_at (m : memory) (pg a : Z) (str : bytes) : Prop :=
  0 <= a /\ a + Z.of_nat (length str) < HEAPLIMIT /\
  forall k c, (str ++ [0]) !! k = Some c ->
    present (pte_view m pg (a + Z.of_nat k)) = true /\ ld8 m (user_addr m pg (a + Z.of_nat k)) = c.

(** * Lemmas *)

Lemma push_args_le strs : forall sp, (push_args strs sp).1 <= sp.
Proof. induction strs as [|str strs IH]; intros sp; cbn; [lia|]. etrans; [apply IH|dlia]. Qed.

Lemma length_push_args strs : forall sp, length (push_args strs sp).2 = length strs.
Proof. induction strs as [|str strs IH]; intros sp; cbn; [done|]. by rewrite IH. Qed.

Lemma push_args_align strs : forall sp, sp mod 4 = 0 -> (push_args strs sp).1 mod 4 = 0.
Proof. induction strs as [|str strs IH]; intros sp Hs; cbn; [done|]. apply IH. dlia. Qed.

Lemma push_args_shift strs : forall sp t, t mod 4 = 0 -> (push_args strs (sp + t)).1 = (push_args strs sp).1 + t.
Proof. induction strs as [|str strs IH]; intros sp t Ht; cbn; [done|]. rewrite <- IH by done. do 2 f_equal. dlia. Qed.

Lemma args_fit_top strs top : top mod 4 = 0 -> args_fit strs <-> (length strs <= 32)%nat /\ top - 4096 <= main_esp strs top.
Proof. intros Ht. unfold args_fit, main_esp. rewrite <- (Z.add_0_l top) at 2. rewrite push_args_shift by done. lia. Qed.

Lemma args_fit_at strs top : args_fit strs -> top mod 4 = 0 -> (length strs <= 32)%nat /\ top - 4096 <= main_esp strs top.
Proof. intros Hf Ht. by apply args_fit_top. Qed.

(** Later strings lie below. *)
Lemma push_img_above strs : forall sp img a, sp <= a -> push_img strs sp img a = img a.
Proof.
  induction strs as [|str strs IH]; intros sp img a Ha; cbn; [done|]. rewrite IH by dlia. unfold img_write. rewrite length_app. cbn [length].
  zcases; try done; dlia.
Qed.

Lemma push_args_str strs : forall sp img k str, Forall (Forall is_byte) strs -> strs !! k = Some str ->
  exists a, (push_args strs sp).2 !! k = Some a /\ (push_args strs sp).1 <= a /\ a + Z.of_nat (length str) < sp /\ str_at (push_img strs sp img) a str.
Proof.
  induction strs as [|str0 strs IH]; intros sp img k str Hb Hk; [done|]. apply Forall_cons in Hb as [Hb0 Hb]. cbn [push_args push_img]. cbv zeta. cbn [fst snd].
  set (sp1 := (sp - _) / 4 * 4). assert (Hsp1 : sp1 + Z.of_nat (length str0) < sp) by (unfold sp1; dlia). destruct k as [|k]; cbn in Hk.
  - injection Hk as <-. exists sp1. split; [done|]. split; [apply push_args_le|]. split; [done|]. intros k c Hc. rewrite push_img_above by lia.
    pose proof (lookup_lt_Some _ _ _ Hc) as Hlt. unfold img_write. zcases; try lia. replace (Z.to_nat (sp1 + Z.of_nat k - sp1)) with k by lia. rewrite Hc. cbn.
    assert (Hall : Forall is_byte (str0 ++ [0])) by (apply Forall_app; split; [done|]; constructor; [unfold is_byte; lia|constructor]).
    apply Z.mod_small. exact (Forall_lookup_1 _ _ _ _ Hall Hc).
  - destruct (IH sp1 (img_write img sp1 (str0 ++ [0])) k str Hb Hk) as (a & H1 & H2 & H3 & H4). exists a. split; [done|]. split; [done|]. split; [lia|done].
Qed.

Lemma length_words ws : length (concat (le32 <$> ws)) = (4 * length ws)%nat.
Proof. induction ws as [|w ws IH]; [done|]. rewrite fmap_cons. cbn [concat length]. rewrite length_app, length_le32, IH. lia. Qed.

(** Words that were stored. *)
Lemma word_write img a ws : forall k w, Forall is_u32 ws -> ws !! k = Some w -> word (img_write img a (concat (le32 <$> ws))) (a + 4 * Z.of_nat k) = w.
Proof.
  assert (Hget : forall ws k w j, ws !! k = Some w -> (j < 4)%nat -> concat (le32 <$> ws) !! (4 * k + j)%nat = le32 w !! j).
  { clear. induction ws as [|w0 ws IH]; intros k w j Hk Hj; [done|]. rewrite fmap_cons. cbn [concat]. destruct k as [|k]; cbn in Hk.
    - injection Hk as ->. rewrite lookup_app_l by (rewrite length_le32; lia). done.
    - rewrite lookup_app_r by (rewrite length_le32; lia). rewrite length_le32. replace (4 * S k + j - 4)%nat with (4 * k + j)%nat by lia. by apply IH. }
  intros k w Hu Hk. pose proof (lookup_lt_Some _ _ _ Hk) as Hlt. pose proof (Forall_lookup_1 _ _ _ _ Hu Hk) as [Hw1 Hw2].
  assert (Hb : forall j, (j < 4)%nat -> img_write img a (concat (le32 <$> ws)) (a + 4 * Z.of_nat k + Z.of_nat j) = default 0 (le32 w !! j) mod 256).
  { intros j Hj. unfold img_write. rewrite length_words. zcases; try lia. replace (Z.to_nat _) with (4 * k + j)%nat by lia. by rewrite (Hget ws k w j). }
  pose proof (Hb 0%nat ltac:(lia)) as B0. rewrite Z.add_0_r in B0. pose proof (Hb 1%nat ltac:(lia)) as B1. pose proof (Hb 2%nat ltac:(lia)) as B2. pose proof (Hb 3%nat ltac:(lia)) as B3.
  unfold word. change (Z.of_nat 1) with 1 in B1. change (Z.of_nat 2) with 2 in B2. change (Z.of_nat 3) with 3 in B3. rewrite B0, B1, B2, B3. unfold le32, le16. cbn. rewrite !Z.mod_mod by lia. dlia.
Qed.

(** Below the stack page nothing is stored. *)
Lemma push_img_below strs : forall sp img a, a < (push_args strs sp).1 -> push_img strs sp img a = img a.
Proof.
  induction strs as [|str strs IH]; intros sp img a Ha; [done|]. cbn [push_args push_img] in *. cbv zeta in *. cbn [fst] in Ha. rewrite IH by done.
  pose proof (push_args_le strs ((sp - (Z.of_nat (length str) + 1)) / 4 * 4)). unfold img_write. zcases; try done; lia.
Qed.

Lemma stack_img_below strs top img a : args_fit strs -> top mod 4 = 0 -> a < top - 4096 -> stack_img strs top img a = img a.
Proof.
  intros Hf Ht Ha. destruct (args_fit_at strs top Hf Ht) as [_ Hsp]. unfold stack_img, main_esp in *. unfold img_write.
  rewrite (proj2 (Z.leb_gt _ _)) by lia. apply push_img_below. lia.
Qed.

(** The stack has what main expects. *)
Lemma stack_main_args strs top img : args_fit strs -> top mod 4 = 0 -> 4096 <= top < 4294967296 -> Forall (Forall is_byte) strs ->
  main_args (stack_img strs top img) (main_esp strs top) top strs.
Proof.
  intros Hf Hal Htop Hb. destruct (args_fit_at strs top Hf Hal) as [Hn Hfit]. pose proof (push_args_le strs top) as Hle. pose proof (push_args_align strs top Hal) as Ha. pose proof (length_push_args strs top) as Hl.
  assert (Hstr := push_args_str strs top img). unfold main_esp in *. unfold stack_img. fold (main_esp strs top). set (sp := (push_args strs top).1) in *. set (ptrs := (push_args strs top).2) in *.
  assert (Hptr : Forall is_u32 ptrs).
  { apply Forall_lookup_2. intros k a Hk. pose proof (lookup_lt_Some _ _ _ Hk) as Hlt. rewrite Hl in Hlt. apply lookup_lt_is_Some in Hlt as [str Hs].
    destruct (Hstr k str Hb Hs) as (a' & H1 & H2 & H3 & _). assert (a' = a) as -> by congruence. unfold is_u32. lia. }
  assert (Hu : Forall is_u32 (ustack_words sp ptrs)).
  { unfold ustack_words. cbn [app]. do 2 (apply Forall_cons; split; [unfold is_u32; lia|]).
    apply Forall_cons. split; [apply Z.mod_pos_bound; lia|]. apply Forall_app. split; [done|]. apply Forall_singleton. unfold is_u32. lia. }
  set (ws := ustack_words sp ptrs) in *. set (esp := main_esp strs top). assert (He : esp = sp - 4 * (Z.of_nat (length strs) + 4)) by done.
  assert (Hw : forall k w, ws !! k = Some w -> word (img_write (push_img strs top img) esp (concat (le32 <$> ws))) (esp + 4 * Z.of_nat k) = w) by (intros k w; by apply word_write).
  assert (Hlen : Z.of_nat (length (concat (le32 <$> ws))) = 4 * (Z.of_nat (length strs) + 4)).
  { rewrite length_words. unfold ws, ustack_words. rewrite !length_app, Hl. cbn [length]. lia. }
  split.
  - fold esp. rewrite He. dlia.
  - specialize (Hw 0%nat 4294967295 eq_refl). by rewrite Z.add_0_r in Hw.
  - specialize (Hw 1%nat (Z.of_nat (length ptrs)) eq_refl). by rewrite Hl in Hw.
  - specialize (Hw 2%nat _ eq_refl). change (4 * Z.of_nat 2) with 8 in Hw. rewrite Hw, Hl. rewrite u32_small by (unfold is_u32; lia). lia.
  - intros k str Hk. destruct (Hstr k str Hb Hk) as (a & H1 & H2 & H3 & H4).
    specialize (Hw (3 + k)%nat a). replace (esp + 4 * Z.of_nat (3 + k)) with (esp + 12 + 4 * Z.of_nat k) in Hw by lia. cbv zeta. rewrite Hw.
    2:{ change (ws !! (3 + k)%nat) with ((ptrs ++ [0]) !! k). by rewrite lookup_app_l by (by eapply lookup_lt_Some). }
    split; [lia|]. split; [done|]. intros j c Hc. rewrite <- (H4 j c Hc). unfold img_write. rewrite Hlen. zcases; try done; lia.
  - specialize (Hw (3 + length strs)%nat 0). replace (esp + 4 * Z.of_nat (3 + length strs)) with (esp + 12 + 4 * Z.of_nat (length strs)) in Hw by lia. apply Hw.
    change (ws !! (3 + length strs)%nat) with ((ptrs ++ [0]) !! length strs). rewrite lookup_app_r by lia. by rewrite Hl, Nat.sub_diag.
Qed.

(** The user may access the pages above the guard. *)
Lemma mk_pte_user pa : nz (Z.land (mk_pte pa (Z.lor PTE_W PTE_U)) PTE_U) = true.
Proof.
  unfold mk_pte, nz. rewrite !Z.land_lor_distr_l. change (Z.land PTE_P PTE_U) with 0. change (Z.lor (Z.land PTE_W PTE_U) (Z.land PTE_U PTE_U)) with 4.
  apply negb_true_iff, Z.eqb_neq. rewrite Z.lor_0_r. intros [_ H]%Z.lor_eq_0_iff. done.
Qed.

Lemma mk_pte_kernel pa : pa mod 4096 = 0 -> nz (Z.land (mk_pte pa PTE_W) PTE_U) = false.
Proof.
  intros Hpa. unfold mk_pte, nz. rewrite !Z.land_lor_distr_l. change (Z.land PTE_P PTE_U) with 0. change (Z.land PTE_W PTE_U) with 0.
  rewrite !Z.lor_0_r. change PTE_U with (Z.land 4095 4). rewrite Z.land_assoc. change 4095 with (Z.ones 12). rewrite Z.land_ones by lia.
  change (2 ^ 12) with 4096. by rewrite Hpa.
Qed.

Lemma push_sp_eq sp len : 0 <= len -> len + 1 <= sp < 4294967296 -> push_sp sp len = (sp - (len + 1)) / 4 * 4.
Proof.
  intros Hl Hs. unfold push_sp. rewrite u32_small by (unfold is_u32; lia). change 4294967292 with (4294967296 - 2 ^ 2).
  rewrite land_high_mask by (unfold is_u32; lia). change (2 ^ 2) with 4. dlia.
Qed.

Section stack.
Context {K : KernelImage} {KI : KernelImageOk K} {D : DevSw}.

(** The caller, its address space, and the new one being built beside it. *)
Context (s : kernel files) (p : proc) (Hcur : ptable s !! curproc s = Some p).
Context (fl : list Z) (ph0 : phys) (d : Z) (fl1 : list Z) (s1 : phys) (N : new_space fl ph0 d fl1 s1).
Context (Pd : pgdir_ok (mem ph0) (pgdir p) fl) (Po : uvm_own (mem ph0) (pgdir p) fl 0 HEAPLIMIT).

(** What was not free has not changed. *)
Lemma image_old perm img hi fl2 ph q : image perm img d hi fl1 s1 fl2 ph -> is_page q -> q ∉ fl -> same_bytes (mem ph0) (mem ph) q.
Proof.
  intros G Hq Hn. eapply same_bytes_trans; [by apply N|]. apply (gr_frame G); [done| |].
  - intros Hp. by apply Hn, (ns_pt _ _ _ _ _ N).
  - intros Hin. apply Hn. destruct (ns_suffix _ _ _ _ _ N) as [u Eu]. rewrite Eu. apply elem_of_app. by right.
Qed.

Lemma old_view perm img hi fl2 ph va : image perm img d hi fl1 s1 fl2 ph -> pte_view (mem ph) (pgdir p) va = pte_view (mem ph0) (pgdir p) va.
Proof. intros G. apply pte_view_ext. intros q Hq. destruct (pt_page_is_page _ _ _ _ Pd Hq). by eapply image_old. Qed.

Lemma ubytes_spec perm img hi fl2 ph : image perm img d hi fl1 s1 fl2 ph -> forall l a, 0 <= a -> a + Z.of_nat (length l) <= HEAPLIMIT ->
  (forall k c, l !! k = Some c -> present (pte_view (mem ph0) (pgdir p) (a + Z.of_nat k)) = true /\ ld8 (mem ph0) (user_addr (mem ph0) (pgdir p) (a + Z.of_nat k)) = c) ->
  wp (ubytes a (length l)) (fun r s' => r = l /\ s' = set_kphys ph s) (set_kphys ph s).
Proof.
  intros G. induction l as [|c l IH]; intros a Ha Hhi Hl; cbn [length ubytes]; [by apply wpx_ret|]. cbn [length] in Hhi.
  destruct (Hl 0%nat c eq_refl) as [Hp Hc]. rewrite Z.add_0_r in Hp, Hc. wp_step. unfold uld8, mycur, myproc. wp_step. wp_step. apply wpx_gets. eapply wpx_get_proc; [exact Hcur|].
  apply wpx_zoom. unfold va_ld8. wp_step. apply wpx_gets. cbn [kphys set_kphys]. rewrite u32_small by alia. unfold va_xlat. rewrite (old_view _ _ _ _ _ _ G), Hp. cbn [negb orb andb].
  apply wpx_ret. change PGSIZE with 4096. fold (frame_of (pte_view (mem ph0) (pgdir p) a)). fold (user_addr (mem ph0) (pgdir p) a).
  destruct (own_frame _ _ _ _ _ Po a _ ltac:(lia) (conj Hp eq_refl)) as (Hq & Hn & _).
  assert (Hb : ld8 (mem ph) (user_addr (mem ph0) (pgdir p) a) = c).
  { rewrite <- Hc. apply (image_old _ _ _ _ _ _ G Hq Hn). unfold user_addr. pose proof (Z.mod_pos_bound a 4096 ltac:(lia)). lia. }
  rewrite Hb. change (set_kphys ph (set_kphys ph s)) with (set_kphys ph s). wp_step. eapply wpx_mono; [apply (IH (a + 1)); [lia|lia|]| |done].
  - intros k c' Hk. specialize (Hl (S k) c' Hk). by replace (a + 1 + Z.of_nat k) with (a + Z.of_nat (S k)) by lia.
  - intros r s' [-> ->]. by apply wpx_ret.
Qed.

Section top.
Context (top : Z) (fl2 : list Z) (Htop : 8192 <= top <= HEAPLIMIT) (Hal : top mod 4096 = 0).
Abbreviation has ph img := (image (guard_perm (top - 8192)) img d top fl1 s1 fl2 ph).

(** [copyout] into the stack page. *)
Lemma kcopyout_spec img ph va l : has ph img -> top - 4096 <= va -> l <> [] -> va + Z.of_nat (length l) <= top ->
  wp (kcopyout d va l) (fun r s' => r = 0 /\ exists ph', s' = set_kphys ph' s /\ has ph' (img_write img va l)) (set_kphys ph s).
Proof.
  intros G Hva Hne Hl. unfold kcopyout. apply wpx_zoom. cbn [kphys set_kphys kcopyout_loop]. assert (Hpos : (0 < length l)%nat) by (destruct l; [done|cbn; lia]).
  rewrite (proj2 (Nat.ltb_lt _ _) Hpos). cbv zeta. rewrite PGROUNDDOWN_eq by alia. set (va0 := va - va mod 4096).
  assert (H0 : 0 <= va0 < top /\ va0 / 4096 = va / 4096 /\ va0 / 4096 <> (top - 8192) / 4096 /\ va mod 4096 + Z.of_nat (length l) <= 4096) by (unfold va0; dlia).
  destruct H0 as (H0 & H1 & H2 & H3). destruct (grown_frame _ _ (guard_perm_ok _) d 0 top top fl1 s1 [] fl2 ph va0 G H0) as (_ & B2 & _ & _ & [B5 _] & B6 & _).
  pose proof (pte_present_pde _ _ _ B5) as Hpde. wp_step. unfold wpx at 1. rewrite uva2ka_spec; [|done|by destruct (tab_ok _ _ _ (gr_dir G) _ (PDX_range _) Hpde)].
  assert (Hu : nz (Z.land (pte_view (mem ph) d va0) PTE_U) = true).
  { rewrite B6. unfold guard_perm. rewrite (proj2 (Z.eqb_neq _ _) H2). apply mk_pte_user. }
  rewrite B5, Hu. cbn [andb]. rewrite (proj2 (Z.eqb_neq _ 0)) by (by apply is_page_nz). wp_step. unfold upd_mem. apply wpx_modify.
  replace (va - va0) with (va mod 4096) by (unfold va0; lia). rewrite take_ge, drop_ge by (change PGSIZE with 4096; lia).
  destruct (length l) as [|n] eqn:El; [lia|]. cbn [kcopyout_loop length Nat.ltb Nat.leb]. apply wpx_ret. split; [done|]. eexists. split; [reflexivity|].
  pose proof (image_write (guard_perm (top - 8192)) img (guard_perm_ok _) d top fl1 s1 fl2 ph va l G ltac:(alia) ltac:(lia) ltac:(lia)) as G'.
  unfold user_addr in G'. by rewrite (pte_view_page _ _ va va0) in G' by (unfold is_u32; alia || done).
Qed.

(** [copyout] into the guard page below it. *)
Lemma kcopyout_guard img ph va l : has ph img -> top - 8192 <= va < top - 4096 -> l <> [] ->
  wp (kcopyout d va l) (fun r s' => r = -1 /\ s' = set_kphys ph s) (set_kphys ph s).
Proof.
  intros G Hva Hne. unfold kcopyout. apply wpx_zoom. cbn [kphys set_kphys kcopyout_loop]. assert (Hpos : (0 < length l)%nat) by (destruct l; [done|cbn; lia]).
  rewrite (proj2 (Nat.ltb_lt _ _) Hpos). cbv zeta. rewrite PGROUNDDOWN_eq by alia. set (va0 := va - va mod 4096).
  assert (H0 : 0 <= va0 < top /\ va0 / 4096 = (top - 8192) / 4096) by (unfold va0; dlia). destruct H0 as (H0 & H1).
  destruct (grown_frame _ _ (guard_perm_ok _) d 0 top top fl1 s1 [] fl2 ph va0 G H0) as (_ & B2 & _ & _ & [B5 _] & B6 & _).
  pose proof (pte_present_pde _ _ _ B5) as Hpde. wp_step. unfold wpx at 1. rewrite uva2ka_spec; [|done|by destruct (tab_ok _ _ _ (gr_dir G) _ (PDX_range _) Hpde)].
  assert (Hu : nz (Z.land (pte_view (mem ph) d va0) PTE_U) = false).
  { rewrite B6. unfold guard_perm. rewrite H1, Z.eqb_refl. apply mk_pte_kernel. pose proof (is_page_range _ B2). rewrite V2P_high by alia. destruct B2. alia. }
  rewrite B5, Hu. cbn [andb Z.eqb]. by apply wpx_ret.
Qed.

(** The strings: they are pushed while they are few enough and stay in the
    stack page. *)
Lemma exec_push_spec : forall argv strs argc sp img ph, has ph img ->
  Forall2 (fun a str => a.2 = Z.of_nat (length str) /\ arg_at (mem ph0) (pgdir p) a.1 str) argv strs ->
  Forall (fun str => (length str < 4096)%nat) strs -> 0 <= argc <= 32 -> sp <= top -> top - 4096 <= sp -> sp mod 4 = 0 ->
  let fit := argc + Z.of_nat (length strs) <= 32 /\ top - 4096 <= (push_args strs sp).1 in
  wp (exec_push d argv argc sp) (fun r s' => exists ph', s' = set_kphys ph' s /\
    (fit /\ r = Some (push_args strs sp) /\ has ph' (push_img strs sp img) \/ ~ fit /\ r = None /\ exists img', has ph' img')) (set_kphys ph s).
Proof.
  induction argv as [|[a len] argv IH]; intros strs argc sp img ph G HF Hsh Hc Hsp Hfit Hal4 fit; cbn [exec_push].
  { apply Forall2_nil_inv_l in HF as ->. apply wpx_ret. exists ph. split; [done|]. left. split; [|done]. subst fit. cbn. lia. }
  apply Forall2_cons_inv_l in HF as (str & strs' & [Hlen (Ha & Hend & Hbytes)] & HF & ->). cbn [fst snd] in Hlen, Ha, Hend, Hbytes. subst len.
  apply Forall_cons in Hsh as [Hs1 Hsh]. cbn [push_args push_img length] in fit |- *. cbv zeta in fit |- *. cbn [fst snd] in fit |- *. change MAXARG with 32.
  destruct (Z.leb_spec 32 argc) as [Hmax|Hmax]; [apply wpx_ret; exists ph; split; [done|]; right; split; [subst fit; lia|]; split; [done|by exists img]|].
  set (sp1 := (sp - (Z.of_nat (length str) + 1)) / 4 * 4) in *. pose proof (push_args_le strs' sp1) as Hle.
  assert (Hsp1 : sp1 + Z.of_nat (length str) + 1 <= sp /\ top - 8192 <= sp1 /\ sp1 mod 4 = 0) by (unfold sp1; dlia).
  rewrite push_sp_eq by (unfold HEAPLIMIT in *; lia). fold sp1. wp_step.
  replace (Z.to_nat (Z.of_nat (length str) + 1)) with (length (str ++ [0])) by (rewrite length_app; cbn; lia).
  eapply wpx_mono; [apply (ubytes_spec _ _ _ _ _ G (str ++ [0]) a Ha); [rewrite length_app; cbn; lia|done]| |done]. intros r s' [-> ->]. wp_step.
  assert (Hne : str ++ [0] <> []) by (by destruct str). destruct (Z_lt_ge_dec sp1 (top - 4096)) as [Hlow|Hin].
  { eapply wpx_mono; [apply (kcopyout_guard img ph sp1 (str ++ [0]) G); [lia|done]| |done]. intros r s' [-> ->]. cbn [Z.ltb Z.compare]. apply wpx_ret.
    exists ph. split; [done|]. right. split; [subst fit; lia|]. split; [done|by exists img]. }
  eapply wpx_mono; [apply (kcopyout_spec img ph sp1 (str ++ [0]) G); [lia|done|rewrite length_app; cbn; lia]| |done].
  intros r s' (-> & ph1 & -> & G1). cbn [Z.ltb Z.compare]. wp_step. eapply wpx_mono; [apply (IH strs' (argc + 1) sp1 _ ph1 G1 HF Hsh); lia| |done].
  intros r s' (ph2 & -> & [(Hf & -> & G2)|(Hf & -> & G2)]); apply wpx_ret; exists ph2; (split; [done|]).
  - left. split; [subst fit; lia|]. destruct (push_args strs' sp1) as [sp2 l]. done.
  - right. split; [subst fit; lia|done].
Qed.

End top.

End stack.
