(* ===== verification/ExecTheorems.v ===== *)
(** * exec runs a program (src/exec.c)

    The whole of [exec]: from a path to a process whose memory is the image of
    the ELF file that the path names, with its arguments on the stack. *)

From S2P Require Import Prelude.
From S2P Require Import CString.
From S2P Require Import Mmu.
From S2P Require Import Kalloc.
From S2P Require Import Vm.
From S2P Require Import Uvm.
From S2P Require Import Vmspace.
From S2P Require Import ExecSpace.
From S2P Require Import Kernel.
From S2P Require Import Shm.
From S2P Require Import ShmGet.
From S2P Require Import ShmAttach.
From S2P Require Import Proc.
From S2P Require Import ShmDetach.
From S2P Require Import Args.
From S2P Require Import Bytes.
From S2P Require Import Sleeplock.
From S2P Require Import Bio.
From S2P Require Import Log.
From S2P Require Import LogSpec.
From S2P Require Import LogTheorems.
From S2P Require Import Path.
From S2P Require Import Fs.
From S2P Require Import FsBlock.
From S2P Require Import FsFile.
From S2P Require Import FsWrite.
From S2P Require Import FsPid.
From S2P Require Import FsDir.
From S2P Require Import File.
From S2P Require Import FsBoot.
From S2P Require Import Sysfile.
From S2P Require Import Exec.
From S2P Require Import ExecImage.
From S2P Require Import ExecStack.

Open Scope Z_scope.

(** The address space [old] has been replaced by [d], which has the bytes [img]
    below [hi]: the pages of [old] are free, those of [d] were, and no other
    page has changed or is lost; pages of the list [sh] may have become free,
    too. *)
Record replaced {K : KernelImage} (fl : list Z) (s : phys) (old : Z) (sh : list Z) (perm img : Z -> Z) (d hi : Z) (fl' : list Z) (s' : phys) : Prop := {
  rp_phys : phys_ok fl' s';
  rp_dir : pgdir_ok (mem s') d fl';
  rp_page : forall va, 0 <= va < hi -> exists q, q ∈ fl /\ is_page q /\ pte_view (mem s') d va = mk_pte (V2P q) (perm va) /\
    ld8 (mem s') (q + va mod 4096) = img va;
  rp_own : uvm_own (mem s') d fl' 0 HEAPLIMIT;
  rp_rest : forall va, is_u32 va -> hi <= va -> pte_view (mem s') d va = kernel_view va;
  rp_keep : forall q, is_page q -> q ∉ fl -> ~ space_page (mem s) old HEAPLIMIT q -> q ∉ fl' -> same_bytes (mem s) (mem s') q;
  rp_free : forall q, q ∈ fl' -> q ∈ fl \/ space_page (mem s) old HEAPLIMIT q \/ q ∈ sh;
  rp_cover : forall q, q ∈ fl \/ space_page (mem s) old HEAPLIMIT q -> q ∈ fl' \/ space_page (mem s') d hi q;
  rp_lock : use_lock s' = use_lock s;
}.

(** The process after exec. *)
Definition exec_proc (path : bytes) (d top entry esp : Z) (p : proc) : proc :=
  set_tf (set_eip_esp entry esp (tf p)) (set_sz top (set_pgdir d (set_name (copy_name (last_elem path path)) p))).

(** No slot has a segment. *)
Definition no_segments (pgs : list sharedPages) : Prop := Forall (fun g => seg_used g = false) pgs.

(** The blocks outside the log and the references to inodes are the same. *)
Record fs_same (sb : superblock) (st sz : nat) (v : list bytes) (f f' : fsys) : Prop := {
  fm_idle : exists v', fs_idle sb st sz v' f' /\ forall m, ~ in_log st sz m -> v' !! m = v !! m;
  fm_refs : forall j, FsDir.refs (icache f') j = FsDir.refs (icache f) j;
}.

(** The bytes of a file. *)
Definition file_bytes (sb : superblock) (v : list bytes) (i : Z) : bytes :=
  let x := disk_inode sb v i in fbytes v x 0 (Z.to_nat (i_size x)).

(** What [exec] relies on: the caller's memory, with any shared segments
    attached; its arguments, each shorter than a page; a file system between
    calls; and a path whose file, if there is one, is no device. *)
Record exec_ready {K : KernelImage} (fl : list Z) (sb : superblock) (st sz : nat) (v : list bytes) (L : Z -> Prop) (icwd : Z)
    (path : bytes) (argv : list (Z * Z)) (strs : list bytes) (s : kernel files) (p : proc) : Prop := {
  er_segs : segs_inv fl p s;
  er_own : uvm_own (mem (kphys s)) (pgdir p) fl 0 HEAPLIMIT;
  er_private : forall va q, 0 <= va < HEAPLIMIT -> maps_to (mem (kphys s)) (pgdir p) va q -> q ∉ shm_pages (shmTable s);
  er_kstack : kstack p <> 0;
  er_fs : fs_idle sb st sz v (fsy (kfs s));
  er_tree : tree sb st sz v L;
  er_layout : layout sb st sz (length v);
  er_bitmap : bitmap_ok sb st sz v;
  er_room : room sz [] ∅ 6;
  er_root : L ROOTINO;
  er_cwd : rd8 path 0 <> SLASH -> live (fsy (kfs s)) (idx (cwd p)) icwd /\ L icwd;
  er_path : is_path path;
  er_file : forall j, resolve sb v (start icwd path) (take DIRSIZ <$> elems path) = Some j ->
    i_type (disk_inode sb v j) <> T_DEV /\ Forall is_byte (file_bytes sb v j);
  er_args : Forall2 (fun a str => a.2 = Z.of_nat (length str) /\ arg_at (mem (kphys s)) (pgdir p) a.1 str) argv strs;
  er_short : Forall (fun str => (length str < 4096)%nat) strs;
}.

(** All segments of the slots [pgs] have been detached; the table is [tab']. *)
Record segs_gone (fl' : list Z) (tab : list shmRegion) (pgs : list sharedPages) (tab' : list shmRegion) (pgs' : list sharedPages) : Prop := {
  sg_none : length pgs' = length pgs /\ no_segments pgs';
  sg_table : forall n r, zidx tab n = Some r -> exists r', zidx tab' n = Some r' /\ region_after fl' r r';
  sg_same : no_segments pgs -> tab' = tab /\ pgs' = pgs;
}.

(** The kernel after the call, with the processes [tab]. *)
Definition after_call (s : kernel files) (p : proc) (tab : list proc) (ph : phys) (f : fsys) : kernel files :=
  set_ptable tab (at_fs s p ph f).

(** There is memory for the program [c]. *)
Definition has_room (fl : list Z) (c : bytes) : Prop :=
  forall entry size img, elf_program c = Some (entry, size, img) -> PGROUNDUP size + 8192 < HEAPLIMIT /\ ~ short_of fl (PGROUNDUP size + 8192).

(** [exec] has failed: nothing is left of the attempt. *)
Definition exec_failed {K : KernelImage} (fl : list Z) (sb : superblock) (st sz : nat) (v : list bytes) (s : kernel files) (p : proc) (s' : kernel files) : Prop :=
  exists ph f fl', s' = after_call s p (ptable s) ph f /\ fs_same sb st sz v (fsy (kfs s)) f /\ all_back fl (kphys s) fl' ph.

(** [exec] has succeeded with the program [c]: the process starts at its entry
    point, in an address space with the image of the program, a guard page above
    it, and the arguments on the stack in the page above that.  It has no shared
    segments; the regions it had attached are there with other counts, or were
    removed. *)
Definition exec_done {K : KernelImage} (fl : list Z) (sb : superblock) (st sz : nat) (v : list bytes) (path : bytes) (strs : list bytes) (c : bytes)
    (s : kernel files) (p : proc) (s' : kernel files) : Prop :=
  exists entry size img, elf_program c = Some (entry, size, img) /\
    let base := PGROUNDUP size in let top := base + 8192 in let esp := main_esp strs top in
    top < HEAPLIMIT /\ args_fit strs /\
    exists d img' ph f fl' tab' pgs,
      s' = set_shmTable tab' (after_call s p (<[curproc s := exec_proc path d top entry esp (set_pages pgs p)]> (ptable s)) ph f) /\
      fs_same sb st sz v (fsy (kfs s)) f /\
      replaced fl (kphys s) (pgdir p) (shm_pages (shmTable s)) (guard_perm base) img' d top fl' ph /\
      (forall a, 0 <= a < base -> img' a = img a) /\ main_args img' esp top strs /\
      segs_gone fl' (shmTable s) (pages p) tab' pgs.

(** * Lemmas *)

(** ** The file system in a call *)

Lemma buf_ok_pid pid pid' v dt b x : buf_ok pid v ∅ dt b x -> buf_ok pid' v ∅ dt b x.
Proof. intros [Hl [Hu|[bn [H1 H2 H3 H4 H5]]]]; (split; [done|]); [by left|right]. exists bn. by split. Qed.

Lemma trans_pid st sz g v pid : trans st sz g [] v ∅ ->
  trans st sz (set_bc (mkBcache (bufs (bc g)) (bc_lock (bc g)) pid (memdisk (bc g)) (writes (bc g))) g) [] v ∅.
Proof.
  intros [T1 T2 T3 T4 T5 T6 [B1 B2 B3 B4 B5 B6 B7 B8 B9 B10 B11] T8 T10 T11]. split; try done; [by eapply geom_ext|]. split; try done.
  intros b x Hb Hx. eapply buf_ok_pid, B7; done.
Qed.

(** Beginning an operation for a process. *)
Lemma begin_call sb st sz v F pid k : fs_idle sb st sz v (fsy F) ->
  wp (inlog begin_op) (fun _ f => fs_ok sb st sz v (pid, 1, 0) [] None f /\ icache f = icache (fsy F)) (fsy (set_files_proc pid k F)).
Proof.
  intros [T M O Hsb Hl Hc]. apply (begin_idle sb st sz v (fsy (set_files_proc pid k F))). split; try done. by apply trans_pid.
Qed.

(** The inode cache after a commit. *)
Lemma cache_ok_view sb st sz v v' lk c : layout sb st sz (length v) -> (forall m, ~ in_log st sz m -> v' !! m = v !! m) -> cache_ok sb v lk c -> cache_ok sb v' lk c.
Proof.
  intros Ly Hv [C1 C2 C3 C4 C5]. split; try done. intros k x Hk Hp. destruct (C4 k x Hk Hp) as (H1 & H2 & H3). split; [done|]. split; [done|]. intros Hvx. specialize (H3 Hvx).
  unfold synced in *. destruct (ly_inode _ _ _ _ Ly (i_inum x) H2) as (_ & _ & Hn). unfold blk in *. by rewrite Hv.
Qed.

(** Ending the operation. *)
Lemma end_call sb st sz v pid f0 f E : layout sb st sz (length v) -> fs_ok sb st sz v (pid, 1, 0) [] None f -> (forall j, FsDir.refs (icache f) j = FsDir.refs (icache f0) j) ->
  wpx (inlog end_op) (fun _ f' => fs_same sb st sz v f0 f') E f.
Proof.
  intros Ly [X [T V2 V3] Hsb Hl Hc] Hr. unfold fs_ctx, log_ctx in X. injection X as _ HO HC. apply wpx_inlog.
  eapply wpx_mono; [apply (end_op_spec st sz (lg f) [] v T HO HC)| |done]. intros [] g' ((v' & T' & M' & Hv) & O' & C'). split; [|done].
  exists v'. split; [|done]. split; try done. cbn. by eapply cache_ok_view.
Qed.

(** ** Replacing an address space *)

Section commit.
Context {K : KernelImage} {KI : KernelImageOk K} {D : DevSw}.
Context (s : kernel files) (p : proc).
Context (fl : list Z) (ph0 : phys) (d : Z) (fl1 : list Z) (s1 : phys) (Hnd : NoDup fl) (N : new_space fl ph0 d fl1 s1).
Context (I0 : segs_inv fl p (set_kphys ph0 s)) (Po : uvm_own (mem ph0) (pgdir p) fl 0 HEAPLIMIT).
Context (Hpriv : forall va q, 0 <= va < HEAPLIMIT -> maps_to (mem ph0) (pgdir p) va q -> q ∉ shm_pages (shmTable s)).
Let Hcur : ptable s !! curproc s = Some p := sv_proc _ _ _ I0.
Let Pd : pgdir_ok (mem ph0) (pgdir p) fl := sv_dir _ _ _ I0.

Lemma free_sub q : q ∈ fl1 -> q ∈ fl.
Proof. intros Hq. destruct (ns_suffix _ _ _ _ _ N) as [u Eu]. rewrite Eu. apply elem_of_app. by right. Qed.

(** The pages of the caller are not free. *)
Lemma old_used q : space_page (mem ph0) (pgdir p) HEAPLIMIT q -> is_page q /\ q ∉ fl.
Proof. intros [Hq|(va & Hva & Hm)]; [by eapply pt_page_is_page|]. by destruct (own_frame _ _ _ _ _ Po va q Hva Hm) as (? & ? & _). Qed.

Section image.
Context (perm img : Z -> Z) (Hperm : forall va, 0 <= perm va < 4096) (hi : Z) (fl2 : list Z) (ph : phys).
Context (G : image perm img d hi fl1 s1 fl2 ph) (Hhi : 0 <= hi <= HEAPLIMIT).

(** They are the same while the image is built. *)
Lemma old_space q : space_page (mem ph) (pgdir p) HEAPLIMIT q <-> space_page (mem ph0) (pgdir p) HEAPLIMIT q.
Proof.
  assert (Hd : same_bytes (mem ph0) (mem ph) (pgdir p)).
  { eapply (image_old fl ph0 d fl1 s1 N); [exact G|apply Pd|apply Pd]. }
  unfold space_page, maps_to. rewrite (pt_page_ext (mem ph0)) by done. split; (intros [?|(va & Hva & Hm)]; [by left|right; exists va]).
  all: by rewrite (old_view p fl ph0 d fl1 s1 N Pd _ _ _ _ _ _ G) in *.
Qed.

Lemma old_dir : pgdir_ok (mem ph) (pgdir p) fl2.
Proof.
  eapply (pgdir_ok_ext (mem ph0)); [|intros q Hq; by apply free_sub, (gr_free G)|exact Pd].
  eapply (image_old fl ph0 d fl1 s1 N); [exact G|apply Pd|apply Pd].
Qed.

Lemma old_own : uvm_own (mem ph) (pgdir p) fl2 0 HEAPLIMIT.
Proof.
  split.
  - intros va q Hva Hm. assert (Hs : space_page (mem ph0) (pgdir p) HEAPLIMIT q) by (apply old_space; right; by exists va).
    destruct (old_used q Hs) as [H1 H2]. split; [done|]. split; [intros Hq; by apply H2, free_sub, (gr_free G)|].
    assert (Hd : same_bytes (mem ph0) (mem ph) (pgdir p)) by (eapply (image_old fl ph0 d fl1 s1 N); [exact G|apply Pd|apply Pd]).
    rewrite (pt_page_ext (mem ph0)) by done. unfold maps_to in Hm. rewrite (old_view p fl ph0 d fl1 s1 N Pd _ _ _ _ _ _ G) in Hm.
    by apply (own_frame _ _ _ _ _ Po va).
  - intros va vb q Hva Hvb Ha Hb. unfold maps_to in Ha, Hb. rewrite (old_view p fl ph0 d fl1 s1 N Pd _ _ _ _ _ va G) in Ha. rewrite (old_view p fl ph0 d fl1 s1 N Pd _ _ _ _ _ vb G) in Hb. by apply (own_inj _ _ _ _ _ Po va vb q).
Qed.

(** The new address space owns its pages. *)
Lemma new_own : uvm_own (mem ph) d fl2 0 HEAPLIMIT.
Proof.
  eapply own_extend; [apply G|]. intros va Hva. by rewrite (image_above perm img fl ph0 d fl1 s1 hi fl2 ph va N G) by (consts; lia).
Qed.

(** They were free. *)
Lemma new_free q : space_page (mem ph) d hi q -> q ∈ fl.
Proof.
  intros [Hq|(va & Hva & _ & ->)].
  - destruct (gr_pt G q Hq) as [?|[? _]]; [by eapply ns_pt|by apply free_sub].
  - apply free_sub. by apply (grown_frame perm _ Hperm d 0 hi hi fl1 s1 [] fl2 ph va G).
Qed.

(** The segments of the caller while the image is built. *)
Lemma old_segs : segs_inv fl2 p (set_kphys ph s).
Proof.
  assert (Hd : same_bytes (mem ph0) (mem ph) (pgdir p)) by (eapply (image_old fl ph0 d fl1 s1 N); [exact G|apply Pd|apply Pd]).
  pose proof I0 as [I1 I2 I3 I4 I5 I6 I7 I8 I9]. cbn [kphys set_kphys shmTable] in I1, I2, I4, I5, I7, I8. split; cbn [kphys set_kphys shmTable]; try done.
  - apply G.
  - destruct I2 as [T1 T2 T3 T4 T5 T6]. split; try done. destruct (proj1 (NoDup_app _ _) T6) as (T7 & T8 & _). apply NoDup_app. split; [done|]. split; [|apply (ok_nodup _ _ (gr_phys G))].
    intros q Hq Hf. by apply (T8 q Hq), free_sub, (gr_free G).
  - apply old_dir.
  - intros q Hq. rewrite (pt_page_ext (mem ph0)) by done. by apply I5.
  - intros i g k Hg Hu Hk. rewrite (old_view p fl ph0 d fl1 s1 N Pd _ _ _ _ _ _ G). by apply (I8 i).
Qed.

(** Freeing the old address space, the segments being detached. *)
Section detached.
Context (p1 p3 : proc) (sx s3 : kernel files) (fl3 : list Z) (Hx : kphys sx = ph /\ shmTable sx = shmTable s) (Hp1 : pgdir p1 = pgdir p).
Context (Dt : detached_to SHAREDREGIONS fl2 p1 sx fl3 p3 s3).

Lemma detached_space q : space_page (mem (kphys s3)) (pgdir p) HEAPLIMIT q <-> space_page (mem ph0) (pgdir p) HEAPLIMIT q.
Proof.
  rewrite <- old_space. destruct Hx as [Hx1 _]. unfold space_page, maps_to.
  assert (Hpt : pt_page (mem (kphys s3)) (pgdir p) q <-> pt_page (mem ph) (pgdir p) q) by (rewrite <- Hp1, <- Hx1; apply (dt_pt _ _ _ _ _ _ _ Dt)).
  rewrite Hpt. split; (intros [?|(va & Hva & Hm)]; [by left|right; exists va]); (split; [done|]).
  all: pose proof (dt_low _ _ _ _ _ _ _ Dt va Hva) as Hv; rewrite Hp1, Hx1 in Hv; by rewrite Hv in *.
Qed.

Lemma detached_own : uvm_own (mem (kphys s3)) (pgdir p) fl3 0 HEAPLIMIT.
Proof.
  destruct Hx as [Hx1 Hx2]. assert (Hm : forall va q, 0 <= va < HEAPLIMIT -> maps_to (mem (kphys s3)) (pgdir p) va q -> maps_to (mem ph) (pgdir p) va q).
  { intros va q Hva. unfold maps_to. by rewrite <- Hp1, (dt_low _ _ _ _ _ _ _ Dt va Hva), Hx1. }
  split.
  - intros va q Hva Hq. apply Hm in Hq; [|done]. destruct (own_frame _ _ _ _ _ old_own va q Hva Hq) as (H1 & H2 & H3). split; [done|]. split.
    + intros [Hf|Hf]%(dt_free _ _ _ _ _ _ _ Dt); [done|]. rewrite Hx2 in Hf. revert Hf. apply (Hpriv va); [done|].
      unfold maps_to in *. by rewrite (old_view p fl ph0 d fl1 s1 N Pd _ _ _ _ _ _ G) in Hq.
    + rewrite <- Hp1, (dt_pt _ _ _ _ _ _ _ Dt), Hx1, Hp1. done.
  - intros va vb q Hva Hvb Ha Hb. apply (own_inj _ _ _ _ _ old_own va vb q); auto.
Qed.

(** The pages of the new address space stay as they are. *)
Lemma detached_new q : space_page (mem ph) d hi q -> q ∉ fl3 /\ same_bytes (mem ph) (mem (kphys s3)) q.
Proof.
  intros Hq. pose proof (new_free q Hq) as Hf. destruct Hx as [Hx1 Hx2].
  assert (Hpg : is_page q /\ q ∉ fl2).
  { destruct Hq as [Hq|(va & Hva & _ & ->)]; [by destruct (pt_page_is_page _ _ _ _ (gr_dir G) Hq)|].
    by destruct (grown_frame perm _ Hperm d 0 hi hi fl1 s1 [] fl2 ph va G Hva) as (_ & ? & ? & _). }
  assert (Hn : q ∉ fl3).
  { intros [?|Hs]%(dt_free _ _ _ _ _ _ _ Dt); [by apply Hpg|]. rewrite Hx2 in Hs. pose proof (to_owned _ _ (sv_tab _ _ _ I0)) as Ho.
    apply NoDup_app in Ho as (_ & Ho & _). by apply (Ho q). }
  split; [done|]. rewrite <- Hx1. apply (dt_data _ _ _ _ _ _ _ Dt); [apply Hpg| |done]. rewrite Hx1, Hp1. intros Ho.
  destruct (old_used q) as [_ []]; [|done]. apply old_space. by left.
Qed.

Lemma free_old_spec : wp (freevm (pgdir p)) (fun _ ph' => exists fl', replaced fl ph0 (pgdir p) (shm_pages (shmTable s)) perm img d hi fl' ph' /\
  forall q, q ∈ fl3 -> q ∈ fl') (kphys s3).
Proof.
  assert (D3 : pgdir_ok (mem (kphys s3)) (pgdir p) fl3).
  { pose proof (sv_dir _ _ _ (dt_inv _ _ _ _ _ _ _ Dt)) as H. by rewrite (dt_proc _ _ _ _ _ _ _ Dt), <- Hp1 in *. }
  eapply wpx_mono; [apply (freevm_spec (pgdir p) fl3 (kphys s3)); [apply (dt_inv _ _ _ _ _ _ _ Dt)|exact D3|apply detached_own]| |done].
  intros [] ph' (fl' & P' & F' & S' & U'). exists fl'. setoid_rewrite detached_space in F'. setoid_rewrite detached_space in S'. split; [|intros q Hq; apply F'; by left].
  assert (Hnew : forall q, space_page (mem ph) d hi q -> same_bytes (mem ph) (mem ph') q).
  { intros q Hq. pose proof (new_free q Hq) as Hf. destruct (detached_new q Hq) as [Hn Hb]. eapply same_bytes_trans; [exact Hb|].
    apply S'; [|intros [_ Ho]%old_used; done]. destruct Hq as [Hq|(va & Hva & _ & ->)].
    - by destruct (pt_page_is_page _ _ _ _ (gr_dir G) Hq).
    - by apply (grown_frame perm _ Hperm d 0 hi hi fl1 s1 [] fl2 ph va G). }
  assert (Hpt : forall q, pt_page (mem ph) d q -> same_bytes (mem ph) (mem ph') q) by (intros q Hq; apply Hnew; by left).
  assert (Hv : forall va, pte_view (mem ph') d va = pte_view (mem ph) d va) by (intros va; by apply pte_view_ext).
  assert (Hiff : forall q, pt_page (mem ph') d q <-> pt_page (mem ph) d q) by (intros q; apply pt_page_ext, Hpt; by left).
  assert (Hfl : forall q, q ∈ fl' -> space_page (mem ph) d hi q -> q ∈ fl2).
  { intros q Hq Hs. apply F' in Hq as [Hq|Hq]; [by destruct (detached_new q Hs)|]. destruct (old_used q Hq) as [_ []]. by apply new_free. }
  destruct Hx as [Hx1 Hx2]. split; try done.
  - eapply kept_dir; [apply G|done|]. intros q Hq Hp. apply Hfl; [done|by left].
  - intros va Hva. destruct (grown_frame perm _ Hperm d 0 hi hi fl1 s1 [] fl2 ph va G Hva) as (B1 & B2 & _ & _ & B5 & B6 & B7). set (q := frame_of (pte_view (mem ph) d va)) in *.
    exists q. split; [by apply free_sub|]. split; [done|]. rewrite Hv. split; [done|]. pose proof (Z.mod_pos_bound va 4096 ltac:(lia)).
    rewrite (Hnew q) by (lia || (right; by exists va)). rewrite B7 by lia. unfold img_fill. f_equal. lia.
  - eapply kept_own; [apply new_own|done|]. intros va q Hva Hq Hm. destruct (Z.lt_ge_cases va hi) as [Hlt|Hge].
    + apply Hfl; [done|]. right. exists va. split; [lia|done].
    + destruct Hm as [Hp _]. by rewrite (image_above perm img fl ph0 d fl1 s1 hi fl2 ph va N G) in Hp by (consts; lia).
  - intros va Hu Hva. rewrite Hv, (gr_out G) by (done || lia). by apply (ns_view _ _ _ _ _ N).
  - intros q Hq Hn Hs Hnf. eapply same_bytes_trans; [by eapply (image_old fl ph0 d fl1 s1 N)|]. eapply same_bytes_trans; [|by apply S'].
    rewrite <- Hx1. apply (dt_data _ _ _ _ _ _ _ Dt); [done| |intros Hq3; apply Hnf, F'; by left]. rewrite Hx1, Hp1. intros Ho. apply Hs, old_space. by left.
  - intros q [Hq|Hq]%F'; [|by right; left]. apply (dt_free _ _ _ _ _ _ _ Dt) in Hq as [Hq|Hq]; [left; by apply free_sub, (gr_free G)|]. right; right. by rewrite <- Hx2.
  - intros q [Hq|Hq]; [|left; apply F'; by right]. destruct (ns_cover _ _ _ _ _ N q Hq) as [Hf|Hf].
    + destruct (gr_cover G q Hf) as [?|[?|[?%elem_of_nil|(va & Hva & Hm)]]]; [left; apply F'; left; by apply (dt_sub _ _ _ _ _ _ _ Dt)|right; left; by apply Hiff|done|].
      right; right. exists va. unfold maps_to. by rewrite Hv.
    + right; left. by apply Hiff, (gr_mono G).
  - rewrite U', (dt_lock _ _ _ _ _ _ _ Dt), Hx1, (gr_lock G). apply N.
Qed.

End detached.

End image.

Context (Hk : kstack p <> 0).

Lemma segs_named q (sx : kernel files) fx : segs_inv fx p sx -> pgdir q = pgdir p -> pages q = pages p -> segs_inv fx q (set_ptable (<[curproc sx := q]> (ptable sx)) sx).
Proof.
  intros [H1 H2 H3 H4 H5 H6 H7 H8 H9] Hd Hp. split; cbn [kphys set_ptable shmTable ptable curproc shm_lock]; rewrite ?Hd, ?Hp; try done.
  apply list_lookup_insert_eq. by eapply lookup_lt_Some.
Qed.

Lemma exec_commit_spec path img perm top entry sp fl2 ph : (forall va, 0 <= perm va < 4096) -> image perm img d top fl1 s1 fl2 ph -> 0 <= top <= HEAPLIMIT ->
  wp (exec_commit path d top entry sp) (fun r s' => r = 0 /\ exists ph' fl' tab' pgs,
    s' = set_shmTable tab' (set_kphys ph' (set_ptable (<[curproc s := exec_proc path d top entry sp (set_pages pgs p)]> (ptable s)) s)) /\
    replaced fl ph0 (pgdir p) (shm_pages (shmTable s)) perm img d top fl' ph' /\ segs_gone fl' (shmTable s) (pages p) tab' pgs) (set_kphys ph s).
Proof.
  intros Hperm G Htop. pose proof (lookup_lt_Some _ _ _ Hcur) as Hlt. unfold exec_commit, myproc. wp_step. apply wpx_gets. cbn [curproc set_kphys].
  set (p1 := set_name (copy_name (last_elem path path)) p). wp_step. eapply wpx_upd_proc; [exact Hcur|]. fold p1.
  set (sx := set_ptable (<[curproc s := p1]> (ptable s)) (set_kphys ph s)).
  assert (Ix : segs_inv fl2 p1 sx) by (apply (segs_named p1 (set_kphys ph s)); [by eapply old_segs|done..]).
  wp_step. eapply wpx_mono; [apply (exit_segs_spec fl2 p1 sx Ix)| |done]. intros [] s3 (fl3 & p3 & Dt).
  pose proof (dt_rest _ _ _ _ _ _ _ Dt) as E3. pose proof (dt_proc _ _ _ _ _ _ _ Dt) as Ep3. set (tab' := shmTable s3) in *. set (ph3 := kphys s3) in *. set (pgs := pages p3) in *.
  assert (Hfree := free_old_spec perm img Hperm top fl2 ph G Htop p1 p3 sx s3 fl3 (conj eq_refl eq_refl) eq_refl Dt). fold ph3 in Hfree.
  set (tab := fun q => set_shmTable tab' (set_ptable (<[curproc s := q]> (ptable s)) (set_kphys ph3 s))).
  assert (Es3 : s3 = tab p3). { rewrite E3. unfold tab, sx. cbn. by rewrite list_insert_insert_eq. }
  assert (Hget : forall q, ptable (tab q) !! curproc s = Some q) by (intros q; by apply list_lookup_insert_eq).
  assert (Hupd : forall q f (Q : unit -> kernel files -> Prop) E, Q tt (tab (f q)) -> wpx (upd_proc (curproc s) f) Q E (tab q)).
  { intros q f Q E HQ. eapply wpx_upd_proc; [apply Hget|]. cbn [tab ptable set_ptable set_shmTable]. by rewrite list_insert_insert_eq. }
  assert (Hsg : forall fl', (forall q, q ∈ fl3 -> q ∈ fl') -> segs_gone fl' (shmTable s) (pages p) tab' pgs).
  { intros fl' Hsub. pose proof (so_len _ (sv_segs _ _ _ (dt_inv _ _ _ _ _ _ _ Dt))) as L3. pose proof (so_len _ (sv_segs _ _ _ I0)) as L0. split.
    - split; [unfold pgs; congruence|]. apply Forall_lookup. intros n g Hg. pose proof (dt_slots _ _ _ _ _ _ _ Dt n g Hg) as Hn.
      apply lookup_lt_Some in Hg. fold pgs in L3. rewrite (proj2 (Z.ltb_lt _ _)) in Hn by (rewrite L3 in Hg; lia). done.
    - intros n r Hr. destruct (dt_table _ _ _ _ _ _ _ Dt n r Hr) as (r' & Hr' & Ha). exists r'. split; [done|]. eapply region_after_trans; [exact Hsub|exact Ha|]. by left.
    - intros Hno. destruct (dt_noop _ _ _ _ _ _ _ Dt Hno) as [E _]. split; [unfold tab'; by rewrite E|]. unfold pgs.
      assert (Hp : Some p3 = Some p1) by (rewrite <- (Hget p3), <- Es3, E; apply list_lookup_insert_eq; done). by injection Hp as ->. }
  clearbody tab' ph3 pgs. rewrite Es3. wp_step. eapply wpx_get_proc; [apply Hget|]. wp_step. apply Hupd. wp_step. apply Hupd. wp_step. apply Hupd.
  wp_step. unfold switchuvm. wp_step. eapply wpx_get_proc; [apply Hget|]. rewrite Ep3.
  cbn [kstack pgdir set_tf set_sz set_pgdir set_pages p1 set_name]. rewrite (proj2 (Z.eqb_neq _ _) Hk), (proj2 (Z.eqb_neq d 0)) by (apply is_page_nz, (gr_dir G)). apply wpx_ret.
  wp_step. apply wpx_zoom. eapply wpx_mono; [exact Hfree| |done]. intros [] ph' (fl' & Hr & Hsub). apply wpx_ret. split; [done|].
  exists ph', fl', tab', pgs. split; [done|]. split; [done|]. by apply Hsg.
Qed.

(** ** The stack and the outcome *)

(** The image is given up: every page is free again. *)
Definition given_up (s' : kernel files) : Prop := exists ph' fl', s' = set_kphys ph' s /\ all_back fl ph0 fl' ph'.

(** The process runs the program: its image below [sz], then a guard page and
    the stack. *)
Definition committed_to (path : bytes) (strs : list bytes) (entry sz : Z) (img : Z -> Z) (s' : kernel files) : Prop :=
  let top := PGROUNDUP sz + 8192 in let esp := main_esp strs top in
  top < HEAPLIMIT /\ args_fit strs /\ exists ph' fl' tab' pgs,
    s' = set_shmTable tab' (set_kphys ph' (set_ptable (<[curproc s := exec_proc path d top entry esp (set_pages pgs p)]> (ptable s)) s)) /\
    replaced fl ph0 (pgdir p) (shm_pages (shmTable s)) (guard_perm (PGROUNDUP sz)) (stack_img strs top (img_grow img (PGROUNDUP sz))) d top fl' ph' /\
    segs_gone fl' (shmTable s) (pages p) tab' pgs.

Lemma abort_spec perm img hi fl2 ph : (forall va, 0 <= perm va < 4096) -> image perm img d hi fl1 s1 fl2 ph -> 0 <= hi <= HEAPLIMIT ->
  wp (inphys (freevm d)) (fun _ s' => given_up s') (set_kphys ph s).
Proof.
  intros Hperm G Hhi. apply wpx_zoom. eapply wpx_mono; [apply (grown_abort perm _ Hperm fl ph0 d fl1 s1 hi fl2 ph N G Hhi)| |done].
  intros [] ph' [fl' Hb]. by exists ph', fl'.
Qed.

Lemma give_up_spec perm img hi fl2 ph : (forall va, 0 <= perm va < 4096) -> image perm img d hi fl1 s1 fl2 ph -> 0 <= hi <= HEAPLIMIT ->
  wp (exec_bad d None) (fun r s' => r = -1 /\ given_up s') (set_kphys ph s).
Proof.
  intros Hperm G Hhi. unfold exec_bad. wp_step. unfold nz. rewrite (proj2 (Z.eqb_neq d 0)) by (apply is_page_nz, (gr_dir G)). cbn [negb].
  eapply wpx_mono; [apply (abort_spec perm img hi fl2 ph Hperm G Hhi)| |done]. intros [] s' Hg. by apply wpx_ret.
Qed.

Lemma exec_stack_spec path argv strs sz img entry fl2 ph : image user_perm img d (PGROUNDUP sz) fl1 s1 fl2 ph -> 0 <= sz < HEAPLIMIT ->
  Forall2 (fun a str => a.2 = Z.of_nat (length str) /\ arg_at (mem ph0) (pgdir p) a.1 str) argv strs ->
  Forall (fun str => (length str < 4096)%nat) strs ->
  wp (exec_stack path argv d sz entry) (fun r s' =>
    r = -1 /\ given_up s' /\ (args_fit strs -> PGROUNDUP sz + 8192 < HEAPLIMIT -> short_of fl (PGROUNDUP sz + 8192)) \/ r = 0 /\ committed_to path strs entry sz img s') (set_kphys ph s).
Proof.
  intros G Hsz HF Hshort4. set (base := PGROUNDUP sz) in *. assert (Eb : base = (sz + 4095) / 4096 * 4096) by (apply PGROUNDUP_eq; alia).
  assert (Hround : forall a, a mod 4096 = 0 -> 0 <= a <= HEAPLIMIT -> PGROUNDUP a = a) by (intros a H1 H2; rewrite PGROUNDUP_eq by alia; dlia).
  assert (Hb0 : PGROUNDUP base = base) by (apply Hround; alia).
  unfold exec_stack. fold base. change (2 * PGSIZE) with 8192. rewrite (u32_small (base + 8192)) by alia. wp_step. apply wpx_zoom. cbn [kphys set_kphys].
  rewrite <- Hb0 in G. eapply wpx_mono; [apply (image_alloc fl ph0 d fl1 s1 img base (base + 8192) fl2 ph Hnd N G); alia| |done].
  intros r ph1 (fl3 & [(-> & Hshort & G1)|(-> & Hlim & G1)]); change (set_kphys ph1 (set_kphys ph s)) with (set_kphys ph1 s); rewrite Hb0 in G1.
  { cbn [Z.eqb]. eapply wpx_mono; [apply (give_up_spec user_perm img base fl3 ph1 user_perm_ok G1); alia| |done]. intros r s' [-> Hg]. left. split; [done|]. split; [done|].
    intros _ Hl. specialize (Hshort Hl). by rewrite (Hround (base + 8192)) in Hshort by alia. }
  rewrite Z.max_r in G1 by lia. rewrite Z.max_r by lia. set (top := base + 8192) in *. rewrite (Hround top) in G1 by (unfold top; alia). rewrite (proj2 (Z.eqb_neq top 0)) by (unfold top; alia).
  rewrite (u32_small (top - 8192)) by (unfold top; alia). replace (top - 8192) with base by (unfold top; lia). wp_step. apply wpx_zoom.
  eapply wpx_mono; [apply (image_clear (img_grow img base) d top fl1 s1 fl3 ph1 base G1); unfold top; alia| |done]. intros [] ph2 G2. cbn [kphys set_kphys].
  change (set_kphys ph2 (set_kphys ph1 s)) with (set_kphys ph2 s). assert (Ht4 : top mod 4 = 0 /\ top mod 4096 = 0 /\ 8192 <= top <= HEAPLIMIT) by (unfold top; alia).
  destruct Ht4 as (Ht4 & Hal & Htop). pose proof (args_fit_top strs top Ht4) as Hfits. pose proof (length_push_args strs top) as Hlp. unfold main_esp in Hfits.
  replace base with (top - 8192) in G2 by (unfold top; lia). wp_step.
  eapply wpx_mono; [apply (exec_push_spec s p Hcur fl ph0 d fl1 s1 N Pd Po top fl3 Htop Hal argv strs 0 top _ ph2 G2 HF Hshort4); lia| |done].
  cbv zeta. intros r s' (ph3 & -> & [(Hin & -> & G3)|(Hout & -> & img' & G3)]).
  2:{ eapply wpx_mono; [apply (give_up_spec _ img' top fl3 ph3 (guard_perm_ok _) G3); lia| |done]. intros r s' [-> Hg]. left. split; [done|]. split; [done|].
      intros Hf. exfalso. apply Hout. apply Hfits in Hf. lia. }
  destruct (push_args strs top) as [sp ptrs] eqn:Ep. cbn [fst snd] in *.
  assert (Hlw : Z.of_nat (length (ustack_words sp ptrs)) = Z.of_nat (length strs) + 4) by (unfold ustack_words; rewrite !length_app; cbn [length]; lia).
  assert (Hsp4 : sp mod 4 = 0 /\ sp <= top) by (pose proof (push_args_align strs top Ht4); pose proof (push_args_le strs top); rewrite Ep in *; done).
  rewrite Hlw, u32_small by (unfold is_u32; consts; lia). assert (Hesp : sp - 4 * (Z.of_nat (length strs) + 4) = main_esp strs top) by (unfold main_esp; by rewrite Ep).
  rewrite Hesp. set (ws := concat (le32 <$> ustack_words sp ptrs)). assert (Hws : Z.of_nat (length ws) = 4 * (Z.of_nat (length strs) + 4)) by (unfold ws; rewrite length_words; lia).
  assert (Hne : ws <> []) by (intros E; rewrite E in Hws; cbn in Hws; lia). wp_step.
  destruct (Z_lt_ge_dec (main_esp strs top) (top - 4096)) as [Hlow|Hok].
  { eapply wpx_mono; [apply (kcopyout_guard s d fl1 s1 top fl3 Htop Hal _ ph3 (main_esp strs top) ws G3); [lia|done]| |done]. intros r s' [-> ->]. cbn [Z.ltb Z.compare].
    eapply wpx_mono; [apply (give_up_spec _ _ top fl3 ph3 (guard_perm_ok _) G3); lia| |done]. intros r s' [-> Hg]. left. split; [done|]. split; [done|].
    intros Hf. exfalso. apply Hfits in Hf. lia. }
  eapply wpx_mono; [apply (kcopyout_spec s d fl1 s1 top fl3 Htop Hal _ ph3 (main_esp strs top) ws G3); [lia|done|lia]| |done].
  intros r s' (-> & ph4 & -> & G4). cbn [Z.ltb Z.compare].
  eapply wpx_mono; [apply (exec_commit_spec path _ _ top entry (main_esp strs top) fl3 ph4 (guard_perm_ok _) G4); lia| |done].
  intros r s' (-> & ph5 & fl5 & tab' & pgs & -> & Hrep & Hsg). right. split; [done|]. unfold committed_to. fold base. fold top. split; [done|]. split; [apply Hfits; lia|].
  exists ph5, fl5, tab', pgs. split; [done|]. split; [|done]. unfold stack_img. rewrite Ep. by replace (top - 8192) with base in Hrep by (unfold top; lia).
Qed.

End commit.

(** ** The call *)

Lemma all_back_refl {K : KernelImage} fl s : phys_ok fl s -> all_back fl s fl s.
Proof. by intros H. Qed.

Section call.
Context {K : KernelImage} {KI : KernelImageOk K} {D : DevSw}.
Context (fl : list Z) (sb : superblock) (st sz : nat) (v : list bytes) (L : Z -> Prop) (icwd : Z).
Context (path : bytes) (argv : list (Z * Z)) (strs : list bytes) (s : kernel files) (p : proc).
Context (X : exec_ready fl sb st sz v L icwd path argv strs s p) (Hstr : Forall (Forall is_byte) strs).
Let Hcur : ptable s !! curproc s = Some p := sv_proc _ _ _ (er_segs _ _ _ _ _ _ _ _ _ _ _ _ X).
Abbreviation in_call := (fs_ok sb st sz v (pid p, 1, 0) []).
Abbreviation failed := (exec_failed fl sb st sz v s p).

Lemma call_pid lk f : in_call lk f -> fs_pid f = pid p.
Proof. intros H. exact (f_equal (fun c => c.1.1) (fk_ctx _ _ _ _ _ _ _ _ H)). Qed.

Lemma wpx_first_call {A} (c : M fsys A) (Q : A -> kernel files -> Prop) E :
  wpx c (fun a f => Q a (at_fs s p (kphys s) f)) E (fsy (set_files_proc (pid p) (nz (killed p)) (kfs s))) -> wpx (ininodes c) Q E s.
Proof.
  intros H. unfold ininodes, incall, mycur, myproc. wp_step. wp_step. apply wpx_gets. eapply wpx_get_proc; [exact Hcur|].
  wp_step. apply wpx_zoom, wpx_modify. apply wpx_zoom. unfold infile. apply wpx_zoom. unfold infy. apply wpx_zoom. eapply wpx_mono; [exact H| |done]. intros a f HQ. exact HQ.
Qed.

Lemma wpx_call {A} (c : M fsys A) (Q : A -> kernel files -> Prop) E lk ph f : in_call lk f ->
  wpx c (fun a f' => Q a (at_fs s p ph f')) E f -> wpx (ininodes c) Q E (at_fs s p ph f).
Proof. intros Hf. apply (wpx_ininodes s p Hcur). by eapply call_pid. Qed.

(** Closing the file that was read. *)
Lemma close_spec ip j f2 ph f (Q : unit -> kernel files -> Prop) E : L j -> (forall n, FsDir.refs (icache f2) n = FsDir.refs (icache (fsy (kfs s))) n + if n =? j then 1 else 0) ->
  reading sb st sz v [] p (1, 0) ip j f2 f -> (forall f', fs_same sb st sz v (fsy (kfs s)) f' -> Q tt (at_fs s p ph f')) ->
  wpx (ininodes (iunlockput ip)) (fun _ s' => wpx kend_op Q E s') E (at_fs s p ph f).
Proof.
  intros HL Hr (Hf & Hl & Hc) HQ. eapply wpx_call; [exact Hf|].
  eapply wpx_mono; [apply (iunlockput_spec sb st sz v (pid p, 1, 0) [] L (er_tree _ _ _ _ _ _ _ _ _ _ _ _ X) ip j f E Hf Hl HL)| |done]. intros _ f' (Hf' & Hc' & _).
  unfold kend_op. eapply wpx_call; [exact Hf'|]. eapply wpx_mono; [apply (end_call sb st sz v (pid p) (fsy (kfs s)) f' E (er_layout _ _ _ _ _ _ _ _ _ _ _ _ X) Hf')| |done].
  - intros n. rewrite Hc', Hc, Hr. destruct (n =? j); lia.
  - intros [] f'' Hs. by apply HQ.
Qed.

(** The failure exit with the file open. *)
Lemma exec_bad_spec ip j f2 d ph f : L j -> (forall n, FsDir.refs (icache f2) n = FsDir.refs (icache (fsy (kfs s))) n + if n =? j then 1 else 0) ->
  reading sb st sz v [] p (1, 0) ip j f2 f ->
  (d = 0 /\ (exists fl', all_back fl (kphys s) fl' ph) \/
   exists fl1 s1 fl2 img hi, new_space fl (kphys s) d fl1 s1 /\ image user_perm img d hi fl1 s1 fl2 ph /\ 0 <= hi <= HEAPLIMIT) ->
  wp (exec_bad d (Some ip)) (fun r s' => r = -1 /\ failed s') (at_fs s p ph f).
Proof.
  intros HL Hr Hf Hd. unfold exec_bad. wp_step.
  assert (Hfree : wp (if nz d then inphys (freevm d) else ret tt) (fun _ s' => exists ph' fl', s' = at_fs s p ph' f /\ all_back fl (kphys s) fl' ph') (at_fs s p ph f)).
  { destruct Hd as [[-> [fl' Hb]]|(fl1 & s1 & fl2 & img & hi & N & G & Hhi)]; [apply wpx_ret; by exists ph, fl'|]. unfold nz.
    rewrite (proj2 (Z.eqb_neq d 0)) by (apply is_page_nz, (gr_dir G)). cbn [negb]. apply wpx_zoom.
    eapply wpx_mono; [apply (grown_abort user_perm _ user_perm_ok fl (kphys s) d fl1 s1 hi fl2 ph N G Hhi)| |done]. intros [] ph' [fl' Hb]. by exists ph', fl'. }
  eapply wpx_mono; [exact Hfree| |done]. intros [] s' (ph' & fl' & -> & Hb). wp_step. eapply wpx_mono; [apply (close_spec ip j f2 ph' f (fun _ s' => failed s') never HL Hr Hf)| |done].
  - intros f' Hs. by exists ph', f', fl'.
  - intros [] s' Hs. wp_step. eapply wpx_mono; [exact Hs| |done]. intros [] s'' Hx. by apply wpx_ret.
Qed.

Lemma segs_at_fs fx ph f : segs_inv fx p s -> segs_inv fx p (set_kphys (kphys s) (at_fs s p ph f)).
Proof. intros [H1 H2 H3 H4 H5 H6 H7 H8 H9]. by split. Qed.

(** From the locked file on. *)
Lemma exec_file_spec ip j f2 : L j -> resolve sb v (start icwd path) (take DIRSIZ <$> elems path) = Some j ->
  (forall n, FsDir.refs (icache f2) n = FsDir.refs (icache (fsy (kfs s))) n + if n =? j then 1 else 0) ->
  reading sb st sz v [] p (1, 0) ip j f2 f2 ->
  wp (let! r := ininodes (readi ip 0 ELFHDR) in
      if negb (r.1 =? ELFHDR) then exec_bad 0 (Some ip)
      else
        let elf := get_elfhdr r.2 in
        if negb (e_magic elf =? ELF_MAGIC) then exec_bad 0 (Some ip)
        else
          let! pgdir_ := inphys setupkvm in
          if pgdir_ =? 0 then exec_bad 0 (Some ip)
          else
            let! sz_ := exec_load ip pgdir_ (Z.to_nat (e_phnum elf)) (e_phoff elf) 0 in
            match sz_ with
            | None => exec_bad pgdir_ (Some ip)
            | Some sz_ =>
                do! ininodes (iunlockput ip) in
                do! kend_op in
                exec_stack path argv pgdir_ sz_ (e_entry elf)
            end)
    (fun r s' => r = -1 /\ failed s' /\ (elf_program (file_bytes sb v j) = None \/ ~ has_room fl (file_bytes sb v j) \/ ~ args_fit strs) \/
                 r = 0 /\ exec_done fl sb st sz v path strs (file_bytes sb v j) s p s') (at_fs s p (kphys s) f2).
Proof.
  intros HL Hres Hr Hf2. destruct (er_file _ _ _ _ _ _ _ _ _ _ _ _ X j Hres) as [Ht Hbytes]. pose proof X as [Xs Xo Xpr Xk Xf Te Ly B R _ _ _ _ Xa Xsh].
  pose proof (sv_phys _ _ _ Xs) as Xp.
  set (c := file_bytes sb v j) in *. assert (Hback : exists fl', all_back fl (kphys s) fl' (kphys s)) by (exists fl; by apply all_back_refl).
  pose proof (ok_nodup _ _ Xp) as Hnd. set (why := elf_program c = None \/ ~ has_room fl c \/ ~ args_fit strs).
  assert (Hshort : (forall entry size img, elf_program c = Some (entry, size, img) -> PGROUNDUP size + 8192 < HEAPLIMIT -> short_of fl (PGROUNDUP size + 8192)) -> why).
  { intros Hs. unfold why. destruct (elf_program c) as [[[e z] im]|] eqn:Ep; [right; left|by left]. intros Hroom. destruct (Hroom e z im Ep) as [H1 H2]. by eapply H2, Hs. }
  assert (Hbad : forall d ph f Q, why -> reading sb st sz v [] p (1, 0) ip j f2 f ->
    (d = 0 /\ (exists fl', all_back fl (kphys s) fl' ph) \/ exists fl1 s1 fl2 img hi, new_space fl (kphys s) d fl1 s1 /\ image user_perm img d hi fl1 s1 fl2 ph /\ 0 <= hi <= HEAPLIMIT) ->
    wp (exec_bad d (Some ip)) (fun r s' => r = -1 /\ failed s' /\ why \/ Q r s') (at_fs s p ph f)).
  { intros d ph f Q Hy Hf Hd. eapply wpx_mono; [by apply (exec_bad_spec ip j f2 d ph f HL Hr Hf Hd)| |done]. intros r s' [-> H]. by left. }
  wp_step. apply (wpx_readi sb st sz v [] L Te Ly B R s p Hcur (1, 0) ip j HL Ht f2 c eq_refl); [done..|]. intros f3 r Hf3 Hpart.
  destruct (part c 0 ELFHDR) as [h|] eqn:Eh; [|rewrite (proj2 (Z.eqb_neq _ _)) by (by destruct Hpart); cbn [negb]; apply Hbad; [left; unfold elf_program; by rewrite Eh|done|by left]].
  subst r. cbn [fst snd]. rewrite Z.eqb_refl. cbn [negb]. cbv zeta. set (elf := get_elfhdr h). destruct (negb (e_magic elf =? ELF_MAGIC)) eqn:Em; [apply Hbad; [left; unfold elf_program; rewrite Eh; fold elf; by rewrite Em|done|by left]|].
  assert (Hprog : elf_program c = match elf_load c (Z.to_nat (e_phnum elf)) (e_phoff elf) 0 (fun _ => 0) with Some (sz, img) => Some (e_entry elf, sz, img) | None => None end).
  { unfold elf_program. rewrite Eh. fold elf. by rewrite Em. }
  wp_step. apply wpx_zoom. eapply wpx_mono; [by apply (setupkvm_full fl (kphys s))| |done]. intros d ph1 (fl1 & [[Hd N]|(-> & Hb & Hlen)]); change (set_kphys ph1 (at_fs s p (kphys s) f3)) with (at_fs s p ph1 f3).
  2:{ cbn [Z.eqb]. apply Hbad; [|done|].
      { apply Hshort. intros e z im Hp _. rewrite Hprog in Hp. destruct (elf_load _ _ _ _ _) as [[z' im']|] eqn:El; [|done]. injection Hp as _ <- _.
        apply elf_load_range in El; [|done]. unfold short_of. rewrite PGROUNDUP_eq by alia. dlia. }
      left. split; [done|by exists fl1]. }
  rewrite (proj2 (Z.eqb_neq d 0) Hd). wp_step. pose proof (part_bytes _ _ _ _ Hbytes Eh) as Hhb.
  eapply wpx_mono; [apply (exec_load_spec sb st sz v [] L Te Ly B R s p Hcur (1, 0) ip j HL Ht f2 c eq_refl Hbytes fl (kphys s) d fl1 ph1 Hnd N (Z.to_nat (e_phnum elf)) (e_phoff elf) 0 (fun _ => 0) fl1 ph1 f3)| |done].
  { apply grown_refl; apply N. } { done. } { done. } { by apply rd32_range. }
  intros [size|] s' (ph2 & f4 & fl3 & -> & Hf4 & Hres2).
  2:{ destruct Hres2 as (Hsh & img2 & hi & Hhi & G). apply Hbad; [|done|].
      { apply Hshort. intros e z im Hp _. rewrite Hprog in Hp. destruct (elf_load _ _ _ _ _) as [[z' im']|] eqn:El; [|done]. injection Hp as _ <- _.
        specialize (Hsh _ _ eq_refl). unfold short_of in *. dlia. }
      right. by exists fl1, ph1, fl3, img2, hi. }
  destruct Hres2 as (img & Hload & Hsize & G). wp_step.
  eapply wpx_mono; [apply (close_spec ip j f2 ph2 f4 (fun _ s' => exists f, s' = at_fs s p ph2 f /\ fs_same sb st sz v (fsy (kfs s)) f) never HL Hr Hf4); intros f' Hs'; by exists f'| |done].
  intros [] s' Hend. wp_step. eapply wpx_mono; [exact Hend| |done]. intros [] s'' (f5 & -> & Hs5).
  change (at_fs s p ph2 f5) with (set_kphys ph2 (at_fs s p ph2 f5)).
  eapply wpx_mono; [apply (exec_stack_spec (at_fs s p ph2 f5) p fl (kphys s) d fl1 ph1 Hnd N (segs_at_fs fl ph2 f5 Xs) Xo Xpr Xk path argv strs size img (e_entry elf) fl3 ph2 G Hsize Xa Xsh)| |done].
  rewrite Hload in Hprog. intros r s3 [(-> & (ph' & fl' & -> & Hb) & Hsh)|[-> (Htop & Hfit & ph' & fl' & tab' & pgs & -> & Hrep & Hsg)]].
  { left. split; [done|]. split; [by exists ph', f5, fl'|]. destruct (args_fit_dec strs) as [Hfit|Hfit]; [|by right; right].
    apply Hshort. intros e z im Hp. rewrite Hprog in Hp. injection Hp as _ <- _. by apply Hsh. }
  right. split; [done|].
  exists (e_entry elf), size, img. split; [done|]. cbv zeta. split; [done|]. split; [done|].
  exists d, (stack_img strs (PGROUNDUP size + 8192) (img_grow img (PGROUNDUP size))), ph', f5, fl', tab', pgs. split; [reflexivity|]. split; [done|]. split; [exact Hrep|].
  assert (Eb : PGROUNDUP size = (size + 4095) / 4096 * 4096) by (apply PGROUNDUP_eq; alia). split; [|split; [apply stack_main_args; [done|dlia|alia|done]|exact Hsg]].
  intros a Ha. rewrite stack_img_below; [|done|dlia|lia]. unfold img_grow. by rewrite (proj2 (Z.ltb_lt _ _)) by lia.
Qed.

(** The whole call. *)
Lemma exec_spec : wpx (exec path argv) (fun r s' =>
    match resolve sb v (start icwd path) (take DIRSIZ <$> elems path) with
    | None => r = -1 /\ failed s'
    | Some j => r = -1 /\ failed s' /\ (elf_program (file_bytes sb v j) = None \/ ~ has_room fl (file_bytes sb v j) \/ ~ args_fit strs) \/
                r = 0 /\ exec_done fl sb st sz v path strs (file_bytes sb v j) s p s'
    end) (no_inodes (held (icache (fsy (kfs s))) + 1)) s.
Proof.
  pose proof X as [Xs _ _ _ Xf Te Ly B R Xr Xcwd Xpath _ _ _]. unfold exec. wp_step. unfold kbegin_op. apply wpx_first_call.
  eapply wpx_mono; [apply (begin_call sb st sz v (kfs s) (pid p) (nz (killed p)) Xf)| |done]. intros [] f1 [Hf1 Hic]. wp_step. unfold my_cwd, mycur, myproc. wp_step. wp_step. apply wpx_gets.
  eapply wpx_get_proc; [exact Hcur|]. apply wpx_ret. wp_step. eapply wpx_call; [exact Hf1|]. unfold namei. wp_step.
  eapply wpx_mono; [apply (namex_spec sb st sz v (pid p, 1, 0) [] L f1 (idx (cwd p)) icwd path false (replicate DIRSIZ 0) Te Ly B R Hf1 Xr); [|done|by rewrite length_replicate]| |by rewrite Hic].
  { intros Hs. destruct (Xcwd Hs) as [Hl HL]. split; [|done]. unfold live. by rewrite Hic. }
  intros r f2 (fA & HcA & Hf2 & Htr & Hout & _). apply wpx_ret. cbn [outcome] in Htr, Hout. unfold traded in Htr.
  destruct (resolve sb v (start icwd path) (take DIRSIZ <$> elems path)) as [j|] eqn:Hres.
  - destruct Hout as (ip & -> & Hlive & HL). wp_step. eapply wpx_call; [exact Hf2|].
    eapply wpx_mono; [apply (ilock_spec sb st sz v (pid p, 1, 0) [] L f2 ip j never Te Ly); [unfold room in *; lia|done..]| |done]. intros _ f3 (Hf3 & Hl3 & Hc3).
    eapply wpx_mono; [apply (exec_file_spec ip j f3 HL Hres)| |done].
    + intros n. rewrite Hc3, Htr, HcA, Hic. destruct (n =? start icwd path), (n =? j); lia.
    + split; [done|]. split; [done|]. intros n. destruct (n =? j); lia.
    + done.
  - rewrite Hout. wp_step. unfold kend_op. eapply wpx_call; [exact Hf2|].
    eapply wpx_mono; [apply (end_call sb st sz v (pid p) (fsy (kfs s)) f2 _ Ly Hf2)| |done].
    + intros n. rewrite Htr, HcA, Hic. destruct (n =? start icwd path); lia.
    + intros [] f' Hs. apply wpx_ret. split; [done|]. exists (kphys s), f', fl. split; [done|]. split; [done|]. apply all_back_refl, (sv_phys _ _ _ Xs).
Qed.

End call.
