(* ===== verification/ExecRun.v ===== *)
(** * exec runs the program that a path names (src/exec.c)

    The theorem on [exec] as a whole, and a kernel with a program on its disk
    at which it is applied. *)

From S2P Require Import Prelude.
From S2P Require Import CString.
From S2P Require Import Mmu.
From S2P Require Import Kalloc.
From S2P Require Import Vm.
From S2P Require Import Uvm.
From S2P Require Import Vmspace.
From S2P Require Import ExecSpace.
From S2P Require Import Kernel.
From S2P Require Import Shm.
From S2P Require Import ShmGet.
From S2P Require Import ShmAttach.
From S2P Require Import Proc.
From S2P Require Import Args.
From S2P Require Import Bytes.
From S2P Require Import Sleeplock.
From S2P Require Import Bio.
From S2P Require Import Log.
From S2P Require Import LogSpec.
From S2P Require Import LogTheorems.
From S2P Require Import Path.
From S2P Require Import Fs.
From S2P Require Import FsBlock.
From S2P Require Import FsFile.
From S2P Require Import FsWrite.
From S2P Require Import FsPid.
From S2P Require Import FsDir.
From S2P Require Import File.
From S2P Require Import FsBoot.
From S2P Require Import Sysfile.
From S2P Require Import Exec.
From S2P Require Import ExecImage.
From S2P Require Import ExecStack.
From S2P Require Import Demo.
From S2P Require Import FsTheorems.
From S2P Require Import ExecTheorems.

Open Scope Z_scope.

(** ** A kernel in which a program can run *)

(** Four thousand free pages. *)
Definition run_pages : list Z := map (fun i => 0x80200000 + i * 4096) (zrange 0 (Z.to_nat 4000)).
Definition run_phys : phys := mkPhys (demo_chain run_pages) (hd 0 run_pages) true false.

(** The memory of the caller: one page, which starts with the string "a". *)
Definition run_space `{KernelImage} : M phys Z :=
  let! d := setupkvm in
  do! allocuvm d 0 4096 in
  do! modify (fun s => set_mem (stbytes (mem s) (user_addr (mem s) d 0) [97; 0]) s) in
  ret d.

(** The caller, on the disk of FsBoot.v. *)
Definition run_proc (d : Z) : proc :=
  mkProc 4096 d 0x80100000 RUNNING 1 None demo_tf 0 ChNone 0 (replicate 16 0) 1 [] (replicate (Z.to_nat SHAREDREGIONS) (mkPages NOKEY 0 (-1) 0 0)).
Definition run_files : files := mkFiles (after fs_boot (fs_reset 1 ddemo_disk)) [] false ∅ false.
Definition run_kernel (d : Z) (ph : phys) : kernel files :=
  mkKernel ph [run_proc d] false 2 0 0 (replicate (Z.to_nat SHAREDREGIONS) region0) false run_files.

(** The bytes of the page. *)
Definition run_img : Z -> Z := img_write (img_grow (fun _ => 0) 0) 0 [97; 0].

(** * Lemmas *)

#[local] Existing Instances demo_image demo_image_ok.

Lemma run_phys_ok : phys_ok run_pages run_phys.
Proof.
  assert (Hp : forall q, q ∈ run_pages -> is_page q).
  { unfold run_pages. intros q (i & -> & Hi)%list_elem_of_fmap. apply elem_of_zrange in Hi. unfold is_page, end_, demo_image. consts. split; dlia. }
  assert (Hnd : NoDup run_pages) by (apply NoDup_fmap_2; [intros i j; lia|apply NoDup_zrange]).
  split; [|done|done]. apply demo_chain_ok; [|done]. by apply Forall_forall.
Qed.

Lemma length_run_pages : Z.of_nat (length run_pages) = 4000.
Proof. unfold run_pages. rewrite length_map, length_zrange. lia. Qed.

Lemma run_space_spec : wp run_space (fun d ph => exists fl fl1 s1,
  new_space run_pages run_phys d fl1 s1 /\ image user_perm run_img d 4096 fl1 s1 fl ph) run_phys.
Proof.
  pose proof length_run_pages as Hlen. pose proof run_phys_ok as P. pose proof (ok_nodup _ _ P) as Hnd. unfold run_space. wp_step.
  eapply wpx_mono; [apply (setupkvm_full run_pages run_phys P)| |done]. intros d s1 (fl1 & [[Hd N]|(_ & _ & Hs)]); [|lia].
  wp_step. eapply wpx_mono; [apply (image_alloc run_pages run_phys d fl1 s1 (fun _ => 0) 0 4096 fl1 s1 Hnd N); [apply grown_refl; apply N|consts; lia|lia]| |done].
  intros r s2 (fl2 & [(_ & Hs & _)|(_ & _ & G)]).
  { specialize (Hs ltac:(consts; lia)). unfold short_of in Hs. change (PGROUNDUP 4096) with 4096 in Hs. rewrite Hlen in Hs. dlia. }
  wp_step. apply wpx_modify, wpx_ret. exists fl2, fl1, s1. split; [done|]. by apply (image_write user_perm _ user_perm_ok).
Qed.

Lemma run_files_idle : fs_idle fdemo_sb 2 12 ddemo_view (fsy run_files) /\ icache (fsy run_files) = replicate NINODE zero_inode.
Proof.
  destruct (wp_run fs_boot _ _ (fs_boot_idle 2 12 ddemo_disk 1 zero_blk ddemo_bootable)) as ([] & f & Hr & Hf). rewrite ddemo_sb in Hf.
  unfold run_files, after. cbn [fsy]. by rewrite Hr.
Qed.

Lemma run_inodes msg : ~ no_inodes (held (icache (fsy run_files)) + 1) msg.
Proof. rewrite (proj2 run_files_idle). intros [_ H]. by vm_compute in H. Qed.

Lemma run_resolve : resolve fdemo_sb ddemo_view (start 0 [47; 97]) (take DIRSIZ <$> elems [47; 97]) = Some 2.
Proof. vm_compute. reflexivity. Qed.

Lemma run_file : file_bytes fdemo_sb ddemo_view 2 = ddemo_prog.
Proof. vm_compute. reflexivity. Qed.

Lemma run_arg d ph fl1 s1 fl : image user_perm run_img d 4096 fl1 s1 fl ph -> arg_at (mem ph) d 0 [97].
Proof.
  intros G. split; [lia|]. split; [cbn; consts; lia|]. intros k c Hk. assert (Hlt : (k < 2)%nat) by (by apply lookup_lt_Some in Hk).
  destruct (grown_frame user_perm _ user_perm_ok d 0 4096 4096 fl1 s1 [] fl ph (0 + Z.of_nat k) G ltac:(lia)) as (_ & _ & _ & _ & [Hp _] & _ & Hb). split; [done|].
  unfold user_addr. set (q := frame_of _) in *. rewrite Hb by dlia. replace (q + _ - q) with (Z.of_nat k) by dlia. destruct k as [|[|k]]; [by injection Hk as <-..|lia].
Qed.

Lemma run_segs d ph fl fl1 s1 : new_space run_pages run_phys d fl1 s1 -> image user_perm run_img d 4096 fl1 s1 fl ph ->
  segs_inv fl (run_proc d) (run_kernel d ph).
Proof.
  intros N G. apply shm_state_segs, shm_inv_fresh; [apply G|apply G|reflexivity..| |].
  - intros i g [-> _]%lookup_replicate. reflexivity.
  - intros va Hva. change (present (pte_view (mem ph) d va) = false).
    by rewrite (image_above user_perm run_img run_pages run_phys d fl1 s1 4096 fl ph va N G) by (consts; lia).
Qed.

Lemma run_ready d ph fl fl1 s1 : new_space run_pages run_phys d fl1 s1 -> image user_perm run_img d 4096 fl1 s1 fl ph ->
  exec_ready fl fdemo_sb 2 12 ddemo_view ddemo_set 0 [47; 97] [(0, 1)] [[97]] (run_kernel d ph) (run_proc d).
Proof.
  intros N G. split.
  - by eapply run_segs.
  - apply (new_own run_pages run_phys d fl1 s1 N user_perm run_img 4096 fl ph G). consts. lia.
  - intros va q _ _ Hq. by apply elem_of_nil in Hq.
  - discriminate.
  - apply (proj1 run_files_idle).
  - apply ddemo_tree.
  - apply fdemo_layout.
  - apply ddemo_bitmap.
  - unfold room. rewrite map_size_empty. cbn. lia.
  - by left.
  - intros Hs. by destruct Hs.
  - repeat constructor; lia.
  - rewrite run_resolve. intros j [= <-]. rewrite run_file. split; [by vm_compute|]. apply (bool_decide_unpack _). vm_compute. done.
  - constructor; [|constructor]. split; [reflexivity|]. by eapply run_arg.
  - repeat constructor.
Qed.

Lemma run_program : exists img, elf_program ddemo_prog = Some (0, 8, img).
Proof. eexists. vm_compute. reflexivity. Qed.

Lemma run_room d ph fl fl1 s1 : new_space run_pages run_phys d fl1 s1 -> image user_perm run_img d 4096 fl1 s1 fl ph -> has_room fl ddemo_prog.
Proof.
  intros N G e z im. destruct run_program as [img ->]. intros [= <- <- <-]. change (PGROUNDUP 8 + 8192) with 12288.
  pose proof (image_count _ _ _ _ _ _ _ _ _ _ (ok_nodup _ _ run_phys_ok) N G ltac:(lia) eq_refl) as Hc. rewrite length_run_pages in Hc. clear N G.
  unfold short_of. split; [consts; lia|dlia].
Qed.

(** ** Theorem *)

(** The arguments are bytes. *)
Lemma arg_bytes m pg argv strs : Forall2 (fun a str => a.2 = Z.of_nat (length str) /\ arg_at m pg a.1 str) argv strs -> Forall (Forall is_byte) strs.
Proof.
  induction 1 as [|a str argv strs [_ (_ & _ & Ha)] _ IH]; constructor; [|done]. apply Forall_lookup. intros k c Hk.
  destruct (Ha k c) as [_ <-]; [by apply lookup_app_l_Some|]. apply ld8_range.
Qed.

(** C8: exec runs the program that its path names.  A process calls exec with a
    path that names no device and with arguments each shorter than a page, between
    two operations of the file system; it may have shared segments attached.  If the
    path leads to no file, the call returns -1.  If it leads to a file, the call
    returns -1 only if that is no valid program, if memory does not suffice for it,
    or if there are more than 32 arguments or more than the stack page holds.
    Otherwise it returns 0, and the process starts at the entry point of the program,
    in an address space that has the bytes of the segments as the file has them and
    zeros behind them, then a page the program cannot use, then the stack page, with
    argc, argv and the strings laid out on it as the code of a C program expects.
    All pages of the old address space are free then, and every shared segment is
    detached: a region is as before but for its counts, or has been removed and its
    pages are free.  In each case every other page, every other process and the
    blocks outside the log are as before, no page is lost and no inode stays
    referenced.  There is no panic but that of a full inode cache. *)
Theorem exec_runs {K : KernelImage} {KI : KernelImageOk K} {D : DevSw} fl sb st sz v L icwd path argv strs s p :
  exec_ready fl sb st sz v L icwd path argv strs s p ->
  wpx (exec path argv) (fun r s' =>
    match resolve sb v (start icwd path) (take DIRSIZ <$> elems path) with
    | None => r = -1 /\ exec_failed fl sb st sz v s p s'
    | Some j =>
        let c := file_bytes sb v j in
        r = -1 /\ exec_failed fl sb st sz v s p s' /\ (elf_program c = None \/ ~ has_room fl c \/ ~ args_fit strs) \/
        r = 0 /\ exec_done fl sb st sz v path strs c s p s'
    end) (no_inodes (held (icache (fsy (kfs s))) + 1)) s.
Proof. intros X. apply (exec_spec fl sb st sz v L icwd path argv strs s p X). apply (arg_bytes _ _ _ _ (er_args _ _ _ _ _ _ _ _ _ _ _ _ X)). Qed.

(** "/a" with one argument: the program of eight bytes starts at 0, with three
    pages of memory. *)
Lemma exec_runs_witness : exists d ph s' q, run_space run_phys = Ret d ph /\ @exec demo_image no_devices [47; 97] [(0, 1)] (run_kernel d ph) = Ret 0 s' /\
  ptable s' = [q] /\ name q = [97] /\ Kernel.sz q = 12288 /\ tf_eip (tf q) = 0 /\ tf_esp (tf q) = 12264.
Proof.
  destruct (wp_run _ _ _ run_space_spec) as (d & ph & Hd & fl & fl1 & s1 & N & G). exists d, ph.
  pose proof (@exec_runs demo_image demo_image_ok no_devices fl fdemo_sb 2 12 ddemo_view ddemo_set 0 [47; 97] [(0, 1)] [[97]] (run_kernel d ph) (run_proc d)
    (run_ready d ph fl fl1 s1 N G)) as H.
  rewrite run_resolve, run_file in H. cbv zeta in H. pose proof (run_room d ph fl fl1 s1 N G) as Hroom. destruct run_program as [img Hprog].
  destruct (wp_run _ _ _ (wpx_mono _ _ _ _ never _ H (fun r s' Hx => Hx) (fun msg Hm => run_inodes msg Hm))) as (r & s' & Hr & [(_ & _ & [Hno|[Hno|Hno]])|[-> Hdone]]).
  - rewrite Hprog in Hno. discriminate.
  - exact (False_ind _ (Hno Hroom)).
  - exfalso. apply Hno. split; [cbn; lia|]. vm_compute. discriminate.
  - destruct Hdone as (entry & size & im & Hp & _ & _ & d' & _ & ph' & f' & _ & tab' & pgs & -> & _). rewrite Hprog in Hp. injection Hp as <- <- _.
    eexists _, _. split; [exact Hd|]. split; [exact Hr|]. split; [reflexivity|]. vm_compute. split_and!; reflexivity.
Defined.
