(* ===== verification/Trap.v ===== *)
(** * System call dispatch and traps (src/syscall.c, src/syscall.h, src/trap.c,
    src/traps.h)

    [syscall] picks the handler by the number in %eax; [trap] serves system
    calls, interrupts and faults.  The interrupt handlers of the devices are an
    interface.  What is printed is not modelled. *)

From S2P Require Import Prelude.
From S2P Require Import CString.
From S2P Require Import Mmu.
From S2P Require Import Kalloc.
From S2P Require Import Vm.
From S2P Require Import Kernel.
From S2P Require Import Shm.
From S2P Require Import ShmGet.
From S2P Require Import Proc.
From S2P Require Import Args.
From S2P Require Import Sysproc.
From S2P Require Import Bytes.
From S2P Require Import Path.
From S2P Require Import Fs.
From S2P Require Import File.
From S2P Require Import Sysfile.
From S2P Require Import Exec.

Open Scope Z_scope.

Definition T_SYSCALL : Z := 64.
Definition T_IRQ0 : Z := 32.
Definition IRQ_TIMER : Z := 0.
Definition IRQ_KBD : Z := 1.
Definition IRQ_COM1 : Z := 4.
Definition IRQ_IDE : Z := 14.
Definition IRQ_SPURIOUS : Z := 31.
Definition T_PGFLT : Z := 14.

(** "testShared" *)
Definition test_name : bytes := [116; 101; 115; 116; 83; 104; 97; 114; 101; 100].

(** The devices' interrupt handlers. *)
Class IntrOps := {
  ideintr : M (machine files) unit;
  kbdintr : M (machine files) unit;
  uartintr : M (machine files) unit;
}.

(** How a trap ends: back to where it came from, by [exit], by [yield], or
    inside a system call that left for the scheduler. *)
Inductive trap_end := TRet | TExit | TYield | TSched.

Section trap.
Context {K : KernelImage} {KC : KernelCode} {D : DevSw} {TA : TicksAddr} {IO : IntrOps}.

(** A handler that returns to its caller. *)
Definition returns (c : M (machine files) Z) : M (machine files) (option Z) := let! v := c in ret (Some v).

(** The table of handlers; [None] for an empty entry. *)
Definition syscalls (num : Z) : option (M (machine files) (option Z)) :=
  match num with
  | 1 => Some (returns sys_fork)
  | 2 => Some sys_exit
  | 3 => Some sys_wait
  | 4 => Some (returns (ink sys_pipe))
  | 5 => Some (returns (ink sys_read))
  | 6 => Some (returns sys_kill)
  | 7 => Some (returns (ink sys_exec))
  | 8 => Some (returns (ink sys_fstat))
  | 9 => Some (returns (ink sys_chdir))
  | 10 => Some (returns (ink sys_dup))
  | 11 => Some (returns sys_getpid)
  | 12 => Some (returns sys_sbrk)
  | 13 => Some sys_sleep
  | 14 => Some (returns sys_uptime)
  | 15 => Some (returns (ink sys_open))
  | 16 => Some (returns (ink sys_write))
  | 17 => Some (returns (ink sys_mknod))
  | 18 => Some (returns (ink sys_unlink))
  | 19 => Some (returns (ink sys_link))
  | 20 => Some (returns (ink sys_mkdir))
  | 21 => Some (returns (ink sys_close))
  | 22 => Some (returns sys_shmget)
  | 23 => Some (returns sys_shmat)
  | 24 => Some (returns sys_shmdt)
  | 25 => Some (returns sys_shmctl)
  | _ => None
  end.

(** [curproc->tf->eax = v] *)
Definition set_result (v : Z) : M (machine files) unit :=
  ink (let! cur := myproc in upd_proc cur (fun p => set_tf (set_eax (u32 v) (tf p)) p)).

(** [syscall]: whether the handler returned. *)
Definition syscall : M (machine files) bool :=
  let! p := ink mycur in
  match syscalls (s32 (tf_eax (tf p))) with
  | Some f =>
      let! r := f in
      match r with
      | Some v => do! set_result v in ret true
      | None => ret false
      end
  | None => do! set_result (-1) in ret true
  end.

(** [myproc()->killed = 1] *)
Definition set_my_killed : M (machine files) unit :=
  ink (let! cur := myproc in upd_proc cur (set_killed 1)).

(** [myproc()], null when the processor runs no process. *)
Definition myproc_opt : M (machine files) (option proc) :=
  gets (fun m => ptable (kern m) !! curproc (kern m)).

(** The [default] case: a fault of the kernel is a bug, a fault of a process
    kills it. *)
Definition bad_trap (t : trapframe) : M (machine files) unit :=
  let! p := myproc_opt in
  if bool_decide (p = None) || (Z.land (tf_cs t) 3 =? 0) then panic "trap" else set_my_killed.

(** [case 14]. *)
Definition page_fault (t : trapframe) : M (machine files) unit :=
  let! p := ink mycur in
  let name := cut_nul (name p) in
  if negb (bstrncmp name test_name (length name) =? 0) then bad_trap t else set_my_killed.

(** The [switch] of [trap]; [cpu] is [cpuid()]. *)
Definition trap_switch (cpu : Z) (t : trapframe) : M (machine files) unit :=
  let no := tf_trapno t in
  if no =? T_IRQ0 + IRQ_TIMER then
    if cpu =? 0 then
      do! ticks_acquire in
      do! modify (fun m => set_ticks (u32 (ticks m + 1)) m) in
      do! ink (wakeup (ChAddr ticks_addr)) in
      ticks_release
    else ret tt
  else if no =? T_IRQ0 + IRQ_IDE then ideintr
  else if no =? T_IRQ0 + IRQ_IDE + 1 then ret tt
  else if no =? T_IRQ0 + IRQ_KBD then kbdintr
  else if no =? T_IRQ0 + IRQ_COM1 then uartintr
  else if (no =? T_IRQ0 + 7) || (no =? T_IRQ0 + IRQ_SPURIOUS) then ret tt
  else if no =? T_PGFLT then page_fault t
  else bad_trap t.

(** [myproc() && myproc()->killed && (tf->cs&3) == DPL_USER] *)
Definition must_exit (t : trapframe) : M (machine files) bool :=
  let! p := myproc_opt in
  ret (match p with Some p => nz (killed p) && (Z.land (tf_cs t) 3 =? DPL_USER) | None => false end).

(** The end of [trap], also where a process that yielded resumes. *)
Definition trap_resume (t : trapframe) : M (machine files) trap_end :=
  let! e := must_exit t in
  if e then
    do! ink exit_ in
    ret TExit
  else ret TRet.

Definition trap (cpu : Z) (t : trapframe) : M (machine files) trap_end :=
  if tf_trapno t =? T_SYSCALL then
    let! p := ink mycur in
    if nz (killed p) then
      do! ink exit_ in
      ret TExit
    else
      do! ink (let! cur := myproc in upd_proc cur (set_tf t)) in
      let! back := syscall in
      if negb back then ret TSched else
      let! p := ink mycur in
      if nz (killed p) then
        do! ink exit_ in
        ret TExit
      else ret TRet
  else
    do! trap_switch cpu t in
    let! e := must_exit t in
    if e then
      do! ink exit_ in
      ret TExit
    else
      let! p := myproc_opt in
      match p with
      | Some p =>
          if state_eqb (state p) RUNNING && (tf_trapno t =? T_IRQ0 + IRQ_TIMER) then
            do! ink yield_enter in
            ret TYield
          else trap_resume t
      | None => trap_resume t
      end.

End trap.

(** * Lemmas *)

(** [strncmp(name, q, strlen(name)) == 0] tests for a prefix. *)
Lemma bstrncmp_prefix a : Forall (fun c => c <> 0) a -> forall q, bstrncmp a q (length a) = 0 <-> a `prefix_of` q.
Proof.
  induction 1 as [|c a Hc _ IH]; intros q; cbn [length bstrncmp]; [split; [intros _; apply prefix_nil|done]|].
  change (rd8 (c :: a) 0) with c. unfold nz. rewrite (proj2 (Z.eqb_neq _ _) Hc). cbn [negb andb tail].
  destruct q as [|d q].
  - change (rd8 [] 0) with 0. rewrite (proj2 (Z.eqb_neq _ _) Hc). split; [lia|]. intros H. by apply prefix_nil_not in H.
  - change (rd8 (d :: q) 0) with d. cbn [tail]. destruct (Z.eqb_spec c d) as [->|Hd].
    + rewrite IH. split; [apply prefix_cons|apply prefix_cons_inv_2].
    + split; [lia|]. intros H. by apply prefix_cons_inv_1 in H.
Qed.

Lemma cut_nul_nonzero s : Forall (fun c => c <> 0) (cut_nul s).
Proof. induction s as [|c s IH]; cbn; [done|]. destruct (Z.eqb_spec c 0); by constructor. Qed.

Section faults.
Context {K : KernelImage} {KC : KernelCode} {D : DevSw} {TA : TicksAddr} {IO : IntrOps}.

(** A trap from the kernel does not end the process on its way out. *)
Lemma must_exit_kernel t m : Z.land (tf_cs t) 3 = 0 -> must_exit t m = Ret false m.
Proof.
  intros Hcs. unfold must_exit, bind, myproc_opt, gets, ret. rewrite Hcs.
  destruct (ptable (kern m) !! curproc (kern m)); [|done]. by rewrite andb_false_r.
Qed.

Lemma trap_end_kernel cpu t m m' :
  tf_trapno t = T_PGFLT -> Z.land (tf_cs t) 3 = 0 -> trap_switch cpu t m = Ret tt m' -> trap cpu t m = Ret TRet m'.
Proof.
  intros Ht Hcs Hm. unfold trap. rewrite Ht. cbn [Z.eqb T_PGFLT T_SYSCALL Pos.eqb]. unfold bind at 1. rewrite Hm.
  unfold bind at 1. rewrite (must_exit_kernel _ _ Hcs). unfold bind, myproc_opt, gets.
  assert (Hr : trap_resume t m' = Ret TRet m').
  { unfold trap_resume, bind. by rewrite (must_exit_kernel _ _ Hcs). }
  destruct (ptable (kern m') !! curproc (kern m')) as [q|]; [|done].
  change (T_PGFLT =? T_IRQ0 + IRQ_TIMER) with false. by rewrite andb_false_r.
Qed.

Lemma set_my_killed_run m p :
  ptable (kern m) !! curproc (kern m) = Some p ->
  set_my_killed m = Ret tt (set_kern (set_ptable (<[curproc (kern m) := set_killed 1 p]> (ptable (kern m))) (kern m)) m).
Proof. intros Hp. unfold set_my_killed, ink, zoom, bind, myproc, gets, upd_proc. by rewrite Hp. Qed.

Lemma ink_mycur_run (m : machine files) p :
  ptable (kern m) !! curproc (kern m) = Some p -> ink mycur m = Ret p m.
Proof. intros Hp. unfold ink, zoom. rewrite (mycur_run _ _ Hp). by destruct m. Qed.

End faults.

(** * Sleeping on the clock *)

Section clock.
Context {K : KernelImage} {KC : KernelCode} {D : DevSw} {TA : TicksAddr} {IO : IntrOps}.

(** What can happen while a process is in the loop of [sys_sleep]: a clock
    interrupt on processor 0, a call of [kill] by another process, and the
    scheduler looking at the process's slot. *)
Inductive clock_event := Tick | Kill (p : Z) | Turn.

#[global] Instance clock_event_eq_dec : EqDecision clock_event.
Proof. solve_decision. Defined.

(** The scheduler switches to the process, which goes on in [sleep]. *)
Definition take_turn (i : nat) : M (machine files) unit :=
  let! _ := ink (do! ptable_acquire in scheduler_pick i) in
  ticks_resume.

(** The loop of [sys_sleep] of the process in slot [i] over a sequence of
    events, from the start of a pass: [None] when the events end before the
    call returns.  A pass that sleeps ends in the scheduler, which releases
    ptable.lock; a turn of a process that is not RUNNABLE passes it over. *)
Fixpoint sleep_wait (n ticks0 : Z) (i : nat) (t : trapframe) (evs : list clock_event) : M (machine files) (option Z) :=
  match evs with
  | [] => ret None
  | Tick :: evs' =>
      do! trap_switch 0 t in
      sleep_wait n ticks0 i t evs'
  | Kill p :: evs' =>
      let! _ := ink (kill p) in
      sleep_wait n ticks0 i t evs'
  | Turn :: evs' =>
      let! p := ink (get_proc i) in
      if state_eqb (state p) RUNNABLE then
        do! take_turn i in
        let! r := sleep_pass n ticks0 in
        match r with
        | Some v => ret (Some v)
        | None => do! ink (modify (set_ptable_lock false)) in sleep_wait n ticks0 i t evs'
        end
      else sleep_wait n ticks0 i t evs'
  end.

Definition sleep_run (n ticks0 : Z) (i : nat) (t : trapframe) (evs : list clock_event) : M (machine files) (option Z) :=
  let! r := sleep_pass n ticks0 in
  match r with
  | Some v => ret (Some v)
  | None => do! ink (modify (set_ptable_lock false)) in sleep_wait n ticks0 i t evs
  end.

(** What the caller of sleep(n) is promised, [el] ticks after the call, with
    process identifier [p]: at its first turn at which [n] ticks have passed it
    returns 0, at an earlier turn at which it has been killed -1. *)
Fixpoint sleep_outcome (n p el : Z) (dead : bool) (evs : list clock_event) : option Z :=
  match evs with
  | [] => None
  | Tick :: evs' => sleep_outcome n p (u32 (el + 1)) dead evs'
  | Kill q :: evs' => sleep_outcome n p el (dead || (q =? p)) evs'
  | Turn :: evs' =>
      if n <=? el then Some 0 else if dead then Some (-1) else sleep_outcome n p el dead evs'
  end.

Definition ticks_in (evs : list clock_event) : Z :=
  Z.of_nat (length (filter (fun e => e = Tick) evs)).

(** A process that can be switched to, the only one with its identifier. *)
Record live (i : nat) (p : proc) (m : machine files) : Prop := mkLive {
  lv_proc : ptable (kern m) !! i = Some p;
  lv_cur : curproc (kern m) = i;
  lv_pid : forall j q, ptable (kern m) !! j = Some q -> pid q = pid p -> j = i;
  lv_stack : kstack p <> 0;
  lv_dir : pgdir p <> 0;
  lv_shm : shm_lock (kern m) = false;
  lv_kmem : kmem_lock (kphys (kern m)) = false;
}.

(** It runs in the loop of [sys_sleep]. *)
Definition in_loop (i : nat) (p : proc) (m : machine files) : Prop :=
  live i p m /\ state p = RUNNING /\ ptable_lock (kern m) = false /\ tickslock m = true.

(** It has left the processor there: asleep, not killed and with ticks to
    wait for, or woken up. *)
Definition waiting (n el : Z) (i : nat) (p : proc) (m : machine files) : Prop :=
  live i p m /\ ptable_lock (kern m) = false /\ tickslock m = false /\
  (state p = SLEEPING /\ chan p = ChAddr ticks_addr /\ killed p = 0 /\ el < n \/ state p = RUNNABLE).

Lemma find_here f i l p : l !! i = Some p -> f p = true -> find_proc f i (drop i l) = Some i.
Proof. intros Hl Hp. rewrite (drop_S l p i Hl). cbn. by rewrite Hp. Qed.

(** A pass of the loop returns, or sleeps. *)
Lemma sleep_pass_wp n ticks0 i p m :
  in_loop i p m ->
  wp (sleep_pass n ticks0) (fun r m' => ticks m' = ticks m /\
    let el := u32 (ticks m - ticks0) in
    if u32 n <=? el then r = Some 0 /\ tickslock m' = false
    else if nz (killed p) then r = Some (-1) /\ tickslock m' = false
    else r = None /\ exists p', waiting (u32 n) el i p' (set_kern (set_ptable_lock false (kern m')) m') /\
      pid p' = pid p /\ killed p' = killed p) m.
Proof.
  intros ([Hp Hc Hq Hs Hd Hsh Hkm] & Hr & Hpl & Hl). unfold sleep_pass. apply wpx_bind, wpx_gets.
  rewrite Z.leb_antisym. destruct (_ <? _) eqn:Hn; cbn [negb].
  2: { apply wpx_bind, wpx_release; [done|]. by apply wpx_ret. }
  apply wpx_bind, wpx_zoom. apply wpx_bind, wpx_gets. eapply wpx_get_proc; [by rewrite Hc|].
  destruct (nz (killed p)) eqn:Hk.
  { apply wpx_bind, wpx_release; [done|]. by apply wpx_ret. }
  assert (Hlt : (i < length (ptable (kern m)))%nat) by (by eapply lookup_lt_Some).
  unfold ticks_sleep. apply wpx_bind, wpx_bind, wpx_zoom, wpx_acquire; [done|].
  apply wpx_bind, wpx_release; [done|]. apply wpx_zoom. unfold sleep_enter.
  apply wpx_bind, wpx_gets. apply wpx_bind, wpx_ret. apply wpx_bind. cbn. rewrite Hc.
  eapply wpx_upd_proc; [exact Hp|]. apply wpx_bind.
  eapply wpx_upd_proc; [by apply list_lookup_insert_eq|]. unfold sched. apply wpx_bind, wpx_gets.
  apply wpx_bind. cbn. rewrite Hc. eapply wpx_get_proc; [apply list_lookup_insert_eq; by rewrite length_insert|].
  apply wpx_bind, wpx_gets. cbn. apply wpx_bind, wpx_gets. cbn. rewrite Hsh, Hkm. cbn. apply wpx_ret.
  split; [done|]. split; [done|]. exists (set_state SLEEPING (set_chan (ChAddr ticks_addr) p)). split; [|done].
  split; [|split; [done|split; [done|left]]]; cbn.
  - split; cbn; try done; [by rewrite list_lookup_insert_eq by (by rewrite length_insert)|].
    intros j q. rewrite list_insert_insert_eq. intros [(-> & _)|(_ & Hj)]%list_lookup_insert_Some; [done|]. by apply Hq.
  - apply negb_false_iff, Z.eqb_eq in Hk. repeat split; [done|lia].
Qed.

(** A clock interrupt counts, and wakes the process. *)
Lemma tick_wp n el i t p m :
  waiting n el i p m -> tf_trapno t = T_IRQ0 + IRQ_TIMER ->
  wp (trap_switch 0 t) (fun _ m' => ticks m' = u32 (ticks m + 1) /\ exists p',
    waiting n (u32 (el + 1)) i p' m' /\ pid p' = pid p /\ killed p' = killed p) m.
Proof.
  intros ([Hp Hc Hq Hs Hd Hsh Hkm] & Hpl & Hl & Hst) Ht. unfold trap_switch. rewrite Ht.
  apply wpx_bind, wpx_acquire; [exact Hl|]. apply wpx_bind, wpx_modify. apply wpx_bind, wpx_zoom.
  apply wpx_bind, wpx_acquire; [done|]. apply wpx_bind, wpx_modify. apply wpx_release; [done|].
  apply wpx_release; [done|]. split; [done|].
  exists (if wakes (ChAddr ticks_addr) p then set_state RUNNABLE p else p).
  split; [|by destruct (wakes _ p)]. split; [|split; [done|split; [done|right]]].
  - split; cbn; try done; [by rewrite list_lookup_fmap, Hp|..]; try (by destruct (wakes _ p)).
    intros j q (q0 & -> & Hj)%list_lookup_fmap_Some. intros Hpq. apply (Hq _ _ Hj).
    destruct (wakes _ q0), (wakes _ p); done.
  - destruct Hst as [(Hst & Hch & _)|Hst]; unfold wakes; rewrite Hst; [|done].
    rewrite Hch. cbn. by rewrite bool_decide_true.
Qed.

(** A kill of the process marks it and wakes it; of another one, leaves it. *)
Lemma kill_wp n el i q p m :
  waiting n el i p m ->
  wp (ink (kill q)) (fun _ m' => ticks m' = ticks m /\ exists p',
    waiting n el i p' m' /\ pid p' = pid p /\ nz (killed p') = nz (killed p) || (q =? pid p)) m.
Proof.
  intros ([Hp Hc Hq Hs Hd Hsh Hkm] & Hpl & Hl & Hst). apply wpx_zoom. unfold kill.
  apply wpx_bind, wpx_acquire; [done|]. apply wpx_bind, wpx_gets. cbn [ptable set_ptable_lock].
  destruct (find_proc _ 0 _) as [j|] eqn:Hf.
  - apply find_proc_Some in Hf as (j' & r & -> & Hj & Hpid%Z.eqb_eq & _). cbn [Nat.add].
    apply wpx_bind. eapply wpx_upd_proc; [exact Hj|]. apply wpx_bind.
    assert (Hlt : (j' < length (ptable (kern m)))%nat) by (by eapply lookup_lt_Some).
    eapply wpx_get_proc; [by apply list_lookup_insert_eq|]. apply wpx_bind.
    set (r' := if state_eqb (state r) SLEEPING then set_state RUNNABLE (set_killed 1 r) else set_killed 1 r).
    cut (wpx (do! ptable_release in ret 0) (fun _ k' => ticks (set_kern k' m) = ticks m /\ exists p',
      waiting n el i p' (set_kern k' m) /\ pid p' = pid p /\ nz (killed p') = nz (killed p) || (q =? pid p))
      (fun _ => False) (set_ptable (<[j' := r']> (ptable (kern m))) (set_ptable_lock true (kern m)))).
    { intros H. subst r'. cbn [state set_killed] in *. destruct (state_eqb (state r) SLEEPING).
      - eapply wpx_upd_proc; [by apply list_lookup_insert_eq|]. cbn. rewrite list_insert_insert_eq. exact H.
      - apply wpx_ret, H. }
    apply wpx_bind, wpx_release; [done|]. apply wpx_ret. split; [done|].
    assert (Hr' : pid r' = q /\ kstack r' = kstack r /\ pgdir r' = pgdir r /\ killed r' = 1).
    { subst r'. by destruct (state_eqb (state r) SLEEPING). }
    destruct Hr' as (Hr1 & Hr2 & Hr3 & Hr4).
    destruct (decide (j' = i)) as [->|Hne].
    + rewrite Hp in Hj. injection Hj as <-. exists r'. split; [|split; [by rewrite Hr1|]].
      2: { rewrite Hr4, Hpid, Z.eqb_refl. by rewrite orb_true_r. }
      split; [|split; [done|split; [done|right]]].
      * split; cbn; try done; [by apply list_lookup_insert_eq|..]; try congruence.
        intros k x [(-> & _)|(_ & Hk)]%list_lookup_insert_Some; [done|]. rewrite Hr1, <- Hpid. by apply Hq.
      * subst r'. destruct Hst as [(Hst & _)|Hst]; rewrite Hst; done.
    + exists p. split; [|split; [done|]].
      2: { rewrite (proj2 (Z.eqb_neq q (pid p))); [by rewrite orb_false_r|]. intros ->. by apply Hne, (Hq j' r). }
      split; [|done]. split; cbn; try done; [by rewrite list_lookup_insert_ne|].
      intros k x [(-> & <- & _)|(_ & Hk)]%list_lookup_insert_Some; [|by apply Hq].
      rewrite Hr1, <- Hpid. by apply Hq.
  - apply wpx_bind, wpx_release; [done|]. apply wpx_ret. split; [done|]. exists p. split; [|split; [done|]].
    + split; [|done]. by split.
    + pose proof (find_proc_None _ _ _ _ _ Hf Hp) as Hx. cbn in Hx. rewrite Z.eqb_sym, Hx. by rewrite orb_false_r.
Qed.

(** At its turn a process that was woken resumes in its loop. *)
Lemma turn_wp n el i p m :
  waiting n el i p m -> state p = RUNNABLE ->
  wp (take_turn i)
    (fun _ m' => ticks m' = ticks m /\ exists p', in_loop i p' m' /\ pid p' = pid p /\ killed p' = killed p) m.
Proof.
  intros ([Hp Hc Hq Hs Hd Hsh Hkm] & Hpl & Hl & _) Hst.
  assert (Hlt : (i < length (ptable (kern m)))%nat) by (by eapply lookup_lt_Some).
  apply wpx_bind, wpx_zoom. apply wpx_bind, wpx_acquire; [done|].
  apply wpx_bind, wpx_gets. rewrite (find_here _ i _ _ Hp) by (by rewrite Hst). apply wpx_bind, wpx_modify.
  apply wpx_bind. apply wpx_bind. eapply wpx_get_proc; [exact Hp|].
  rewrite (proj2 (Z.eqb_neq _ _) Hs), (proj2 (Z.eqb_neq _ _) Hd). apply wpx_ret.
  apply wpx_bind. eapply wpx_upd_proc; [exact Hp|]. apply wpx_ret.
  unfold ticks_resume. apply wpx_bind, wpx_zoom, wpx_bind, wpx_gets. apply wpx_bind.
  eapply wpx_upd_proc; [by apply list_lookup_insert_eq|]. apply wpx_ret.
  apply wpx_bind, wpx_zoom, wpx_release; [done|]. apply wpx_acquire; [done|]. split; [done|].
  exists (set_chan ChNone (set_state RUNNING p)). split; [|done]. split; [|done].
  split; cbn; try done; [by rewrite list_lookup_insert_eq by (by rewrite length_insert)|].
  intros j q. rewrite list_insert_insert_eq. intros [(-> & _)|(_ & Hj)]%list_lookup_insert_Some; [done|]. by apply Hq.
Qed.

(** What is left at the end of a call. *)
Definition slept (r : option Z) (m : machine files) : Prop := r <> None -> tickslock m = false.

Lemma elapsed_tick now ticks0 : u32 (u32 (now + 1) - ticks0) = u32 (u32 (now - ticks0) + 1).
Proof. unfold u32. rewrite Zminus_mod_idemp_l, Zplus_mod_idemp_l. f_equal. lia. Qed.

Lemma sleep_wait_wp n ticks0 i t evs : tf_trapno t = T_IRQ0 + IRQ_TIMER -> forall p m,
  waiting (u32 n) (u32 (ticks m - ticks0)) i p m ->
  wp (sleep_wait n ticks0 i t evs) (fun r m' =>
    r = sleep_outcome (u32 n) (pid p) (u32 (ticks m - ticks0)) (nz (killed p)) evs /\ slept r m') m.
Proof.
  intros Ht. induction evs as [|[|q|] evs IH]; intros p m W; cbn [sleep_wait sleep_outcome].
  - apply wpx_ret. split; [done|]. by intros [].
  - apply wpx_bind. eapply wpx_mono; [apply (tick_wp _ _ _ _ _ _ W Ht)| |done].
    intros [] m' (Hm & p' & W' & <- & <-). rewrite <- elapsed_tick, <- Hm. rewrite <- elapsed_tick, <- Hm in W'. by apply IH.
  - apply wpx_bind. eapply wpx_mono; [apply (kill_wp _ _ _ _ _ _ W)| |done].
    intros _ m' (Hm & p' & W' & <- & <-). rewrite <- Hm. rewrite <- Hm in W'. by apply IH.
  - apply wpx_bind, wpx_zoom. eapply wpx_get_proc; [apply W|]. replace (set_kern (kern m) m) with m by (by destruct m).
    destruct (state_eqb (state p) RUNNABLE) eqn:Hst.
    + apply bool_decide_eq_true in Hst.
      apply wpx_bind. eapply wpx_mono; [apply (turn_wp _ _ _ _ _ W Hst)| |done].
      intros _ m1 (Hm1 & p1 & L & <- & <-). apply wpx_bind. eapply wpx_mono; [apply (sleep_pass_wp n ticks0 _ _ _ L)| |done].
      intros r m2 (Hm2 & Hr). rewrite Hm1 in Hr. cbv zeta in Hr.
      destruct (u32 n <=? _); [destruct Hr as [-> Hl]; apply wpx_ret; by split; [|intros _]|].
      destruct (nz (killed p1)) eqn:Hk; [destruct Hr as [-> Hl]; apply wpx_ret; by split; [|intros _]|].
      destruct Hr as (-> & p2 & W2 & <- & Hk2). apply wpx_bind, wpx_zoom, wpx_modify.
      specialize (IH p2 (set_kern (set_ptable_lock false (kern m2)) m2)).
      change (ticks (set_kern _ m2)) with (ticks m2) in IH. rewrite Hk2, Hk, Hm2, Hm1 in IH. exact (IH W2).
    + destruct W as (L & Hpl & Hl & [(Hs & Hch & Hk & Hn)|Hs]); [|by rewrite Hs in Hst].
      rewrite (proj2 (Z.leb_gt _ _) Hn), Hk. cbn. change false with (nz 0). rewrite <- Hk. apply IH.
      split; [done|]. split; [done|]. split; [done|]. by left.
Qed.

Lemma sleep_run_wp n i t evs p m :
  in_loop i p m -> tf_trapno t = T_IRQ0 + IRQ_TIMER ->
  wp (sleep_run n (ticks m) i t evs) (fun r m' =>
    r = sleep_outcome (u32 n) (pid p) 0 (nz (killed p)) (Turn :: evs) /\ slept r m') m.
Proof.
  intros L Ht. unfold sleep_run. cbn [sleep_outcome]. apply wpx_bind.
  eapply wpx_mono; [apply (sleep_pass_wp n (ticks m) _ _ _ L)| |done]. intros r m2 (Hm2 & Hr). cbv zeta in Hr.
  assert (H0 : u32 (ticks m - ticks m) = 0) by (by rewrite Z.sub_diag). rewrite H0 in Hr.
  destruct (u32 n <=? 0); [destruct Hr as [-> Hl]; apply wpx_ret; by split; [|intros _]|].
  destruct (nz (killed p)) eqn:Hk; [destruct Hr as [-> Hl]; apply wpx_ret; by split; [|intros _]|].
  destruct Hr as (-> & p2 & W2 & <- & Hk2). apply wpx_bind, wpx_zoom, wpx_modify.
  pose proof (sleep_wait_wp n (ticks m) i t evs Ht p2 (set_kern (set_ptable_lock false (kern m2)) m2)) as H.
  change (ticks (set_kern _ m2)) with (ticks m2) in H. rewrite Hk2, Hk, Hm2, H0 in H. exact (H W2).
Qed.

Lemma outcome_zero n p evs : forall el dead, 0 <= el -> sleep_outcome n p el dead evs = Some 0 -> n <= el + ticks_in evs.
Proof.
  unfold ticks_in. induction evs as [|[|q|] evs IH]; intros el dead Hel; cbn [sleep_outcome]; [done|..].
  - intros H. apply IH in H; [|apply u32_range]. rewrite filter_cons_True by done. cbn [length].
    pose proof (Z.mod_le (el + 1) 4294967296 ltac:(lia) ltac:(lia)). unfold u32 in *. lia.
  - intros H. apply IH in H; [|done]. by rewrite filter_cons_False.
  - rewrite filter_cons_False by done. destruct (Z.leb_spec n el); [lia|]. destruct dead; [done|]. by apply IH.
Qed.

Lemma outcome_turn n p evs rest : forall el dead,
  0 <= el -> el + ticks_in evs < 2 ^ 32 -> n <= el + ticks_in evs ->
  is_Some (sleep_outcome n p el dead (evs ++ Turn :: rest)) /\
  (dead = false -> Kill p ∉ evs -> sleep_outcome n p el dead (evs ++ Turn :: rest) = Some 0).
Proof.
  unfold ticks_in. induction evs as [|[|q|] evs IH]; intros el dead Hel; cbn [sleep_outcome app].
  - cbn. intros _ Hn. rewrite (proj2 (Z.leb_le _ _)) by lia. by split.
  - rewrite filter_cons_True by done. cbn [length]. intros Hlt Hn. rewrite u32_small by (unfold is_u32; lia).
    destruct (IH (el + 1) dead) as [H1 H2]; [lia..|]. split; [done|]. intros Hd Hk. apply H2; [done|]. set_solver.
  - rewrite filter_cons_False by done. intros Hlt Hn. destruct (IH el (dead || (q =? p))) as [H1 H2]; [done..|].
    split; [done|]. intros -> Hk. apply H2; [|set_solver]. cbn. apply Z.eqb_neq. set_solver.
  - rewrite filter_cons_False by done. intros Hlt Hn. destruct (Z.leb_spec n el); [by split|].
    destruct dead; [by split|]. destruct (IH el false) as [H1 H2]; [done..|]. split; [done|]. intros Hd Hk. apply H2; set_solver.
Qed.

End clock.

(** ** Theorems *)

(** C34: sleep(n) under any sequence of clock interrupts, kills and turns of the
    scheduler.  The call returns exactly what [sleep_outcome] says: at the
    process's first turn at which [n] ticks have passed, [n] taken unsigned and
    the clock wrapping around at 2^32, it returns 0; at an earlier turn at which
    it has been killed, -1; and until then it does not return.  So it returns 0
    only after at least [n] ticks; and once [n] ticks (and fewer than 2^32) have
    passed it does return at its next turn, with 0 if nobody killed it. *)
Theorem sleep_returns_after_ticks {K : KernelImage} {KC : KernelCode} {D : DevSw} {TA : TicksAddr} {IO : IntrOps}
    i p t n evs (m : machine files) :
  in_loop i p m -> tf_trapno t = T_IRQ0 + IRQ_TIMER ->
  (exists m', let r := sleep_outcome (u32 n) (pid p) 0 (nz (killed p)) (Turn :: evs) in
    sleep_run n (ticks m) i t evs m = Ret r m' /\ (r <> None -> tickslock m' = false)) /\
  (forall m', sleep_run n (ticks m) i t evs m = Ret (Some 0) m' -> u32 n <= ticks_in evs) /\
  (forall evs1 rest, evs = evs1 ++ Turn :: rest -> u32 n <= ticks_in evs1 < 2 ^ 32 ->
    exists v m', sleep_run n (ticks m) i t evs m = Ret (Some v) m' /\
      (killed p = 0 -> Kill (pid p) ∉ evs1 -> v = 0)).
Proof.
  intros L Ht.
  assert (H : exists m', let r := sleep_outcome (u32 n) (pid p) 0 (nz (killed p)) (Turn :: evs) in
    sleep_run n (ticks m) i t evs m = Ret r m' /\ slept r m').
  { destruct (wp_run _ _ _ (sleep_run_wp n i t evs p m L Ht)) as (r & m' & Hr & -> & Hs). by exists m'. }
  destruct H as (m' & Hr & Hs). cbv zeta in Hr. split; [by exists m'|]. split.
  - intros m1 H1. rewrite Hr in H1. injection H1 as H1 _. 
    apply (outcome_zero _ _ (Turn :: evs) 0 _) in H1; [|lia]. unfold ticks_in in *. by rewrite filter_cons_False in H1.
  - intros evs1 rest -> Hn. change (Turn :: evs1 ++ Turn :: rest) with ((Turn :: evs1) ++ Turn :: rest) in Hr.
    destruct (outcome_turn (u32 n) (pid p) (Turn :: evs1) rest 0 (nz (killed p))) as [[v Hv] H2];
      [lia|unfold ticks_in in *; rewrite filter_cons_False by done; lia..|].
    rewrite Hv in Hr. exists v, m'. split; [done|]. intros Hk Hkill. rewrite Hk in H2.
    rewrite Hk in Hv. rewrite H2 in Hv; [by injection Hv|done|set_solver].
Qed.

(** A page fault in the kernel (trap 14 with the kernel's code segment)
    is a panic exactly when the name of the process is not a prefix of
    "testShared": with such a name - the empty one included - the process is
    marked killed and the kernel goes on. *)
Theorem kernel_page_fault {K : KernelImage} {KC : KernelCode} {D : DevSw} {TA : TicksAddr} {IO : IntrOps}
    cpu t (m : machine files) p :
  ptable (kern m) !! curproc (kern m) = Some p -> tf_trapno t = T_PGFLT -> Z.land (tf_cs t) 3 = 0 ->
  let name := cut_nul (name p) in
  trap cpu t m =
    if decide (name `prefix_of` test_name)
    then Ret TRet (set_kern (set_ptable (<[curproc (kern m) := set_killed 1 p]> (ptable (kern m))) (kern m)) m)
    else Panic "trap".
Proof.
  intros Hp Ht Hcs nm. pose proof (bstrncmp_prefix nm (cut_nul_nonzero _) test_name) as Hpre.
  assert (Hsw : trap_switch cpu t m = if bstrncmp nm test_name (length nm) =? 0 then set_my_killed m else bad_trap t m).
  { unfold trap_switch. rewrite Ht.
    change (page_fault t m = if bstrncmp nm test_name (length nm) =? 0 then set_my_killed m else bad_trap t m).
    unfold page_fault, bind. rewrite (ink_mycur_run m p Hp). fold nm. by destruct (bstrncmp _ _ _ =? 0). }
  case_decide as Hd.
  - apply Hpre in Hd. rewrite Hd in Hsw. cbn in Hsw. apply (trap_end_kernel cpu); [done..|].
    by rewrite Hsw, (set_my_killed_run m p Hp).
  - rewrite (proj2 (Z.eqb_neq _ _)) in Hsw by tauto. unfold trap. rewrite Ht. cbn [Z.eqb T_PGFLT T_SYSCALL Pos.eqb].
    unfold bind. rewrite Hsw. unfold bad_trap, bind, myproc_opt, gets. rewrite Hp, Hcs. done.
Qed.

(** A machine whose clock is about to wrap around, with one process in
    [sys_sleep]; its name is "test". *)
Definition trap_proc : proc :=
  mkProc 4096 0x80300000 0x80310000 RUNNING 1 None (mkTf 0 0 0 0 0 0 0 0 0 0 0 0 0 0 0 0 0 0 0) 0 ChNone 0
    (replicate 16 0) 1 [116; 101; 115; 116; 0] [].
Definition trap_demo : machine files :=
  mkMachine (mkKernel boot_phys [trap_proc] false 2 0 0 [] false exec_demo_fs) 4294967295 true.
Definition trap_frame (no : Z) : trapframe := mkTf 0 0 0 0 0 0 0 0 0 0 0 0 no 0 0 8 0 0 0.
Definition no_interrupts : IntrOps := {| ideintr := ret tt; kbdintr := ret tt; uartintr := ret tt |}.
Definition trap_code : KernelCode :=
  {| forkret_ := 0x80103000; trapret_ := 0x80105000; initcode_start := 0x8010a460; initcode_size := 44 |}.
Definition demo_ticks : TicksAddr := 0x80112000.

#[local] Existing Instances demo_image trap_code demo_ticks no_interrupts no_devices.

Lemma sleep_returns_after_ticks_witness : exists m',
  sleep_run 2 4294967295 0 (trap_frame 32) [Tick; Turn; Kill 5; Turn; Tick; Turn; Turn] trap_demo = Ret (Some 0) m' /\
  tickslock m' = false.
Proof.
  destruct (sleep_returns_after_ticks (D := no_devices) 0 trap_proc (trap_frame 32) 2
    [Tick; Turn; Kill 5; Turn; Tick; Turn; Turn] trap_demo) as ((m' & Hr & Hl) & _).
  - split; [|repeat split]. split; try reflexivity; try discriminate.
    intros [|j] q; [reflexivity|discriminate].
  - reflexivity.
  - exists m'. split; [exact Hr|]. apply Hl. discriminate.
Defined.

Lemma kernel_page_fault_witness : exists m',
  trap 0 (trap_frame 14) trap_demo = Ret TRet m' /\
  killed <$> ptable (kern m') !! 0%nat = Some 1.
Proof.
  eexists. split.
  - rewrite (kernel_page_fault 0 (trap_frame 14) trap_demo trap_proc
      eq_refl eq_refl eq_refl). rewrite decide_True by (exists [83; 104; 97; 114; 101; 100]; reflexivity). reflexivity.
  - reflexivity.
Defined.
