(* ===== verification/Ulib.v ===== *)
(** * The user library (src/ulib.c)

    The functions on strings and memory of a user program, on the
    byte-addressed memory of CString.v, and the input of [gets].

    A loop that ends at a NUL byte takes fuel; [sfuel], the number of bytes
    ever written, is enough for every string, because memory that was never
    written reads as 0. *)

From S2P Require Import Prelude.
From S2P Require Import CString.
From S2P Require Import Bytes.

Open Scope Z_scope.

(** ** A user program

    Its memory; for each file descriptor what reads will return, in the pieces
    they arrive in; and what it has written, byte by byte, with the
    descriptor. *)
Record user := mkUser {
  umem : memory;
  uin : gmap Z (list bytes);
  uout : list (Z * Z);
}.

Definition set_umem (m : memory) (u : user) : user := mkUser m (uin u) (uout u).
Definition set_uin (i : gmap Z (list bytes)) (u : user) : user := mkUser (umem u) i (uout u).
Definition set_uout (o : list (Z * Z)) (u : user) : user := mkUser (umem u) (uin u) o.

Definition upd_umem (f : memory -> memory) : M user unit := modify (fun u => set_umem (f (umem u)) u).

(** A function of memory that may run out of fuel. *)
Definition ulift {A} (f : memory -> option A) : M user A :=
  let! m := gets umem in
  match f m with Some a => ret a | None => nofuel end.

(** The next piece of at most [n] bytes, and what is left; no bytes at the end
    of the input. *)
Definition take_piece (n : nat) (cs : list bytes) : bytes * list bytes :=
  match cs with
  | [] => ([], [])
  | c :: cs' => (take n c, if (length c <=? n)%nat then cs' else drop n c :: cs')
  end.

(** [read(fd, a, n)] and [write(fd, a, n)], seen from the program. *)
Definition read (fd a n : Z) : M user Z :=
  let! i := gets uin in
  let (l, cs) := take_piece (Z.to_nat n) (default [] (i !! fd)) in
  do! modify (set_uin (<[fd := cs]> i)) in
  do! upd_umem (fun m => stbytes m a l) in
  ret (Z.of_nat (length l)).

Definition write (fd : Z) (l : bytes) : M user unit :=
  modify (fun u => set_uout (uout u ++ map (pair fd) l) u).

(** What was written to [fd]. *)
Definition written_to (fd : Z) (u : user) : bytes := map snd (filter (fun x => x.1 = fd) (uout u)).

(** ** src/ulib.c *)

Definition sfuel (m : memory) : nat := S (size m).

Fixpoint strcpy_loop (k : nat) (m : memory) (s t : Z) : option memory :=
  match k with
  | O => None
  | S k' =>
      let c := ld8 m t in
      let m := st8 m s c in
      if nz c then strcpy_loop k' m (s + 1) (t + 1) else Some m
  end.

Definition strcpy (m : memory) (s t : Z) : option memory := strcpy_loop (sfuel m) m s t.

Fixpoint strcmp_loop (k : nat) (m : memory) (p q : Z) : option Z :=
  match k with
  | O => None
  | S k' =>
      if nz (ld8 m p) && (ld8 m p =? ld8 m q) then strcmp_loop k' m (p + 1) (q + 1)
      else Some (ld8 m p - ld8 m q)
  end.

Definition strcmp (m : memory) (p q : Z) : option Z := strcmp_loop (sfuel m) m p q.

Definition strlen (m : memory) (s : Z) : option Z := strlen_loop m s 0 (sfuel m).

Definition memset (m : memory) (dst c n : Z) : memory := stosb m dst c (Z.to_nat n).

(** The address of the first [c], or 0. *)
Fixpoint strchr_loop (k : nat) (m : memory) (s c : Z) : option Z :=
  match k with
  | O => None
  | S k' =>
      if nz (ld8 m s) then
        if ld8 m s =? c then Some s else strchr_loop k' m (s + 1) c
      else Some 0
  end.

Definition strchr (m : memory) (s c : Z) : option Z := strchr_loop (sfuel m) m s c.

(** [c] is a local variable of [gets]; its byte is what [read] returns. *)
Definition getc (fd : Z) : M user (option Z) :=
  let! i := gets uin in
  let (l, cs) := take_piece 1 (default [] (i !! fd)) in
  do! modify (set_uin (<[fd := cs]> i)) in
  ret (head l).

Fixpoint ugets_loop (k : nat) (buf i : Z) : M user Z :=
  match k with
  | O => ret i
  | S k' =>
      let! cc := getc 0 in
      match cc with
      | None => ret i
      | Some c =>
          do! upd_umem (fun m => st8 m (buf + i) c) in
          if (c =? 10) || (c =? 13) then ret (i + 1) else ugets_loop k' buf (i + 1)
      end
  end.

Definition ugets (buf max : Z) : M user Z :=
  let! i := ugets_loop (Z.to_nat (max - 1)) buf 0 in
  do! upd_umem (fun m => st8 m (buf + i) 0) in
  ret buf.

(** [open], [fstat] and [close], seen from the program. *)
Class FdCalls := {
  open : Z -> Z -> M user Z;
  fstat : Z -> Z -> M user Z;
  close : Z -> M user unit;
}.

Definition O_RDONLY : Z := 0.

Definition stat `{FdCalls} (n st : Z) : M user Z :=
  let! fd := open n O_RDONLY in
  if fd <? 0 then ret (-1)
  else
    let! r := fstat fd st in
    do! close fd in
    ret r.

Definition is_digit (c : Z) : bool := (48 <=? c) && (c <=? 57).

(** A signed overflow wraps around. *)
Fixpoint atoi_loop (k : nat) (m : memory) (s n : Z) : option Z :=
  match k with
  | O => None
  | S k' =>
      if is_digit (ld8 m s) then atoi_loop k' m (s + 1) (s32 (n * 10 + ld8 m s - 48))
      else Some n
  end.

Definition atoi (m : memory) (s : Z) : option Z := atoi_loop (sfuel m) m s 0.

Definition memmove (m : memory) (vdst vsrc n : Z) : memory := copy_up m vdst vsrc (Z.to_nat n).

(** * Lemmas *)

(** ** Strings *)

Lemma cstring_nil m s : cstring m s [] <-> ld8 m s = 0.
Proof.
  unfold cstring. cbn. rewrite Z.add_0_r. split; [by intros (_ & _ & H)|]. intros H. by split_and!.
Qed.

Lemma cstring_cons m s c l : cstring m s (c :: l) <-> ld8 m s = c /\ c <> 0 /\ cstring m (s + 1) l.
Proof.
  unfold cstring. cbn [length ldbytes]. rewrite Forall_cons.
  replace (s + Z.of_nat (S (length l))) with (s + 1 + Z.of_nat (length l)) by lia. split.
  - intros ([= H1 H2] & [H3 H4] & H5). done.
  - intros (-> & H3 & H2 & H4 & H5). by rewrite H2.
Qed.

Lemma ld8_nz_dom m a : ld8 m a <> 0 -> a ∈ dom m.
Proof. intros H. apply elem_of_dom. destruct (m !! a) eqn:E; [eauto|]. unfold ld8 in H. by rewrite E in H. Qed.

Lemma cstring_dom m s l : cstring m s l -> forall a, s <= a < s + Z.of_nat (length l) -> a ∈ dom m.
Proof.
  revert s. induction l as [|c l IH]; intros s Hs a Ha; cbn [length] in Ha; [lia|].
  apply cstring_cons in Hs as (Hc & Hnz & Hl). destruct (decide (a = s)) as [->|Hne].
  - apply ld8_nz_dom. by rewrite Hc.
  - apply (IH (s + 1)); [done|lia].
Qed.

(** The fuel is enough: a string occupies written memory. *)
Lemma cstring_size m s l : cstring m s l -> (length l < sfuel m)%nat.
Proof.
  intros Hs. unfold sfuel. pose proof (cstring_dom m s l Hs) as Hd. clear Hs.
  assert (Hn : size (list_to_set (zrange s (length l)) : gset Z) = length l).
  { rewrite size_list_to_set by apply NoDup_zrange. apply length_zrange. }
  rewrite <- (size_dom m). rewrite <- Hn at 1. apply Nat.lt_succ_r, subseteq_size. intros a Ha.
  apply elem_of_list_to_set, elem_of_zrange in Ha. apply Hd. lia.
Qed.

Lemma strlen_loop_spec m l : forall s n k, cstring m (s + n) l -> (length l < k)%nat ->
  strlen_loop m s n k = Some (n + Z.of_nat (length l)).
Proof.
  induction l as [|c l IH]; intros s n [|k] Hs Hk; cbn [length] in *; try lia; cbn [strlen_loop].
  - apply cstring_nil in Hs. rewrite Hs. cbn. f_equal. lia.
  - apply cstring_cons in Hs as (Hc & Hnz & Hl). unfold nz. rewrite Hc, (proj2 (Z.eqb_neq _ _) Hnz). cbn [negb].
    rewrite IH; [f_equal; lia| |lia]. by replace (s + (n + 1)) with (s + n + 1) by lia.
Qed.

Lemma strlen_spec m s l : cstring m s l -> strlen m s = Some (Z.of_nat (length l)).
Proof.
  intros Hs. unfold strlen. rewrite (strlen_loop_spec m l); [done| |by eapply cstring_size]. by rewrite Z.add_0_r.
Qed.

(** The difference of the first bytes at which two strings differ. *)
Fixpoint scmp (p q : bytes) : Z :=
  match p, q with
  | [], [] => 0
  | [], d :: _ => - d
  | c :: _, [] => c
  | c :: p', d :: q' => if c =? d then scmp p' q' else c - d
  end.

Lemma strcmp_loop_spec m p : forall k a b q, cstring m a p -> cstring m b q -> (length p < k)%nat ->
  strcmp_loop k m a b = Some (scmp p q).
Proof.
  induction p as [|c p IH]; intros [|k] a b q Hp Hq Hk; cbn [length] in *; try lia; cbn [strcmp_loop scmp].
  - apply cstring_nil in Hp. rewrite Hp. cbn [nz negb Z.eqb andb].
    destruct q as [|d q]; [apply cstring_nil in Hq|apply cstring_cons in Hq as (Hq & _)]; by rewrite Hq.
  - apply cstring_cons in Hp as (Hc & Hnz & Hp). unfold nz. rewrite Hc, (proj2 (Z.eqb_neq _ _) Hnz). cbn [negb andb].
    destruct q as [|d q].
    + apply cstring_nil in Hq. rewrite Hq, (proj2 (Z.eqb_neq _ _) Hnz). f_equal. lia.
    + apply cstring_cons in Hq as (Hd & _ & Hq). rewrite Hd. destruct (c =? d); [|done]. apply IH; [done..|lia].
Qed.

Lemma strcmp_spec m a b p q : cstring m a p -> cstring m b q -> strcmp m a b = Some (scmp p q).
Proof. intros Hp Hq. apply strcmp_loop_spec; [done..|by eapply cstring_size]. Qed.

Lemma scmp_eq p : forall q, Forall (fun c => 0 < c) p -> Forall (fun c => 0 < c) q -> scmp p q = 0 <-> p = q.
Proof.
  induction p as [|c p IH]; intros [|d q] Hp Hq; cbn [scmp]; rewrite ?Forall_cons in *; try (split; [lia|done]); [done|].
  destruct Hp as [Hc Hp], Hq as [Hd Hq]. destruct (Z.eqb_spec c d) as [->|Hne].
  - rewrite IH by done. split; congruence.
  - split; [lia|congruence].
Qed.

Lemma stbytes_app m a l l' : stbytes m a (l ++ l') = stbytes (stbytes m a l) (a + Z.of_nat (length l)) l'.
Proof.
  revert m a. induction l as [|c l IH]; intros m a; cbn [stbytes app length]; [by rewrite Z.add_0_r|].
  rewrite IH. f_equal. lia.
Qed.

Lemma cstring_ext m m' s l : (forall a, s <= a <= s + Z.of_nat (length l) -> ld8 m' a = ld8 m a) -> cstring m s l -> cstring m' s l.
Proof.
  revert s. induction l as [|c l IH]; intros s He; cbn [length] in He.
  - rewrite !cstring_nil. intros <-. apply He. lia.
  - rewrite !cstring_cons. intros (Hc & Hn & Hl). split; [rewrite He by lia; done|]. split; [done|].
    apply IH; [|done]. intros a Ha. apply He. lia.
Qed.

(** A string of bytes that are not 0. *)
Definition is_str (l : bytes) : Prop := Forall (fun c => 0 < c < 256) l.

Lemma cstring_str m s l : cstring m s l -> is_str l.
Proof.
  revert s. induction l as [|c l IH]; intros s Hs; [constructor|]. apply cstring_cons in Hs as (Hc & Hn & Hl).
  constructor; [|by eapply IH]. pose proof (ld8_range m s). lia.
Qed.

Lemma cstring_stbytes m s l : is_str l -> cstring (stbytes m s (l ++ [0])) s l.
Proof.
  revert m s. induction l as [|c l IH]; intros m s Hl; cbn [app stbytes].
  - apply cstring_nil. apply ld8_st8_eq.
  - apply Forall_cons in Hl as [Hc Hl]. apply cstring_cons. split; [|split; [lia|by apply IH]].
    rewrite ld8_stbytes. rewrite (proj2 (Z.leb_gt _ _)) by lia. cbn [andb]. rewrite ld8_st8_eq. apply Z.mod_small. lia.
Qed.

Lemma strcpy_loop_spec l : forall k m s t, cstring m t l -> (length l < k)%nat ->
  s + Z.of_nat (length l) < t \/ t + Z.of_nat (length l) < s -> strcpy_loop k m s t = Some (stbytes m s (l ++ [0])).
Proof.
  induction l as [|c l IH]; intros [|k] m s t Ht Hk Hd; cbn [length] in *; try lia; cbn [strcpy_loop].
  - apply cstring_nil in Ht. by rewrite Ht.
  - apply cstring_cons in Ht as (Hc & Hn & Hl). unfold nz. rewrite Hc, (proj2 (Z.eqb_neq _ _) Hn). cbn [negb app stbytes].
    apply IH; [|lia..]. eapply cstring_ext; [|done]. intros a Ha. apply ld8_st8_ne. lia.
Qed.

(** [strcpy] to memory apart from the string copies it with its NUL. *)
Lemma strcpy_spec m s t l : cstring m t l -> s + Z.of_nat (length l) < t \/ t + Z.of_nat (length l) < s ->
  strcpy m s t = Some (stbytes m s (l ++ [0])).
Proof. intros Ht Hd. apply strcpy_loop_spec; [done| |done]. by eapply cstring_size. Qed.

(** Where [c] is first in a list. *)
Fixpoint index_of (c : Z) (l : bytes) : option nat :=
  match l with
  | [] => None
  | x :: l' => if x =? c then Some O else S <$> index_of c l'
  end.

Lemma strchr_loop_spec c l : forall k m s, cstring m s l -> (length l < k)%nat ->
  strchr_loop k m s c = Some (match index_of c l with Some i => s + Z.of_nat i | None => 0 end).
Proof.
  induction l as [|x l IH]; intros [|k] m s Hs Hk; cbn [length] in *; try lia; cbn [strchr_loop index_of].
  - apply cstring_nil in Hs. by rewrite Hs.
  - apply cstring_cons in Hs as (Hx & Hn & Hl). unfold nz. rewrite Hx, (proj2 (Z.eqb_neq _ _) Hn). cbn [negb].
    destruct (x =? c); [f_equal; lia|]. rewrite (IH k m (s + 1)) by (done || lia). destruct (index_of c l); cbn; f_equal; lia.
Qed.

Lemma strchr_spec m s c l : cstring m s l ->
  strchr m s c = Some (match index_of c l with Some i => s + Z.of_nat i | None => 0 end).
Proof. intros Hs. apply strchr_loop_spec; [done|by eapply cstring_size]. Qed.

(** The value of a string of digits, from [n] on. *)
Definition dec (n : Z) (l : bytes) : Z := fold_left (fun n c => n * 10 + c - 48) l n.

Lemma s32_idem_step n c : s32 (s32 n * 10 + c) = s32 (n * 10 + c).
Proof. unfold s32. f_equal. dlia. Qed.

Lemma atoi_loop_spec l : forall k m s n l', cstring m s (l ++ l') -> Forall (fun c => is_digit c = true) l ->
  match l' with c :: _ => is_digit c = false | [] => True end -> (length l < k)%nat -> n = s32 n ->
  atoi_loop k m s n = Some (s32 (dec n l)).
Proof.
  induction l as [|c l IH]; intros [|k] m s n l' Hs Hd Hl' Hk Hn; cbn [length app] in *; try lia; cbn [atoi_loop].
  - assert (Hz : is_digit (ld8 m s) = false).
    { destruct l' as [|c l']; [apply cstring_nil in Hs|apply cstring_cons in Hs as (Hs & _)]; by rewrite Hs. }
    rewrite Hz. f_equal. done.
  - apply cstring_cons in Hs as (Hc & _ & Hs). apply Forall_cons in Hd as [Hcd Hd]. rewrite Hc, Hcd.
    rewrite (IH k m (s + 1) _ l') by (done || lia || (unfold s32; dlia)). f_equal. unfold dec. cbn [fold_left].
    generalize (n * 10 + c - 48). clear. induction l as [|c l IH]; intros x; cbn [fold_left].
    + unfold s32. dlia.
    + rewrite <- IH. rewrite <- (IH (x * 10 + c - 48)). do 2 f_equal. unfold s32. dlia.
Qed.

Lemma atoi_spec m s l l' : cstring m s (l ++ l') -> Forall (fun c => is_digit c = true) l ->
  match l' with c :: _ => is_digit c = false | [] => True end -> atoi m s = Some (s32 (dec 0 l)).
Proof.
  intros Hs Hd Hl'. apply (atoi_loop_spec l _ m s 0 l'); try done.
  pose proof (cstring_size m s _ Hs) as Hk. rewrite length_app in Hk. lia.
Qed.

(** ** Reading a line *)

Definition left_over (rest : bytes) : list bytes := match rest with [] => [] | _ => [rest] end.

Lemma getc_spec fd c rest u : uin u !! fd = Some [c :: rest] -> getc fd u = Ret (Some c) (set_uin (<[fd := left_over rest]> (uin u)) u).
Proof. intros Hi. unfold getc, bind, Prelude.gets, modify, ret. rewrite Hi. cbn. by destruct rest. Qed.

Lemma ugets_loop_line buf rest : forall l k i u, uin u !! 0 = Some [l ++ 10 :: rest] -> Forall (fun c => c <> 10 /\ c <> 13) l -> (length l < k)%nat ->
  ugets_loop k buf i u = Ret (i + Z.of_nat (length l) + 1)
    (set_uin (<[0 := left_over rest]> (uin u)) (set_umem (stbytes (umem u) (buf + i) (l ++ [10])) u)).
Proof.
  induction l as [|c l IH]; intros [|k] i u Hi Hl Hk; cbn [length app] in *; try lia; cbn [ugets_loop]; unfold bind.
  - rewrite (getc_spec 0 10 rest) by done. cbn. f_equal. lia.
  - rewrite (getc_spec 0 c (l ++ 10 :: rest)) by done. apply Forall_cons in Hl as [[H1 H2] Hl]. unfold upd_umem, modify.
    rewrite (proj2 (Z.eqb_neq _ _) H1), (proj2 (Z.eqb_neq _ _) H2). cbn [orb].
    assert (Hlo : left_over (l ++ 10 :: rest) = [l ++ 10 :: rest]) by (by destruct l). rewrite Hlo.
    rewrite IH; [|cbn; apply lookup_insert_eq|done|lia]. cbn [set_umem set_uin umem uin uout stbytes app]. rewrite insert_insert_eq.
    replace (buf + (i + 1)) with (buf + i + 1) by lia. f_equal. lia.
Qed.

(** [gets] stores a line with its newline and a NUL, and leaves what comes
    after it. *)
Lemma ugets_line buf max l rest u : uin u !! 0 = Some [l ++ 10 :: rest] -> Forall (fun c => c <> 10 /\ c <> 13) l -> Z.of_nat (length l) + 2 <= max ->
  ugets buf max u = Ret buf (set_uin (<[0 := left_over rest]> (uin u)) (set_umem (stbytes (umem u) buf (l ++ [10; 0])) u)).
Proof.
  intros Hi Hl Hm. unfold ugets, bind. rewrite (ugets_loop_line buf rest l) by (done || lia). unfold upd_umem, modify, ret. cbn. rewrite Z.add_0_r.
  f_equal. unfold set_uin, set_umem. cbn [umem uin uout]. change ([10; 0]) with ([10] ++ [0]). rewrite app_assoc, (stbytes_app _ _ (l ++ [10])), length_app.
  cbn [stbytes length]. do 2 f_equal. lia.
Qed.
