(* ===== verification/Numeral.v ===== *)
(** * Numbers in decimal and hexadecimal

    [printint] is the same loop in src/printf.c (user programs) and in
    src/console.c (the kernel), up to the digits and where the characters go.
    Here it is once, for any digits and any output, with the numerals it
    prints. *)

From S2P Require Import Prelude.
From S2P Require Import CString.
From S2P Require Import Bytes.

Open Scope Z_scope.

Section numeral.
Context (digits : Z -> Z).

(** The local [buf] of 16 characters. *)
Definition push_digit {S} (buf : bytes) (c : Z) : M S bytes :=
  if (length buf <? 16)%nat then ret (buf ++ [c]) else fault "printint: buf".

(** [do buf[i++] = digits[x % base]; while((x /= base) != 0);] *)
Fixpoint printint_loop {S} (k : nat) (x base : Z) (buf : bytes) : M S bytes :=
  match k with
  | O => nofuel
  | Datatypes.S k' =>
      let! buf := push_digit buf (digits (x mod base)) in
      let x := x / base in
      if nz x then printint_loop k' x base buf else ret buf
  end.

(** The body of [printint], with the function that puts out a character. *)
Definition print_number {S} (out : Z -> M S unit) (xx base sgn : Z) : M S unit :=
  let neg := nz sgn && (xx <? 0) in
  let x := if neg then u32 (- xx) else u32 xx in
  let! buf := printint_loop 32 x base [] in
  let! buf := (if neg then push_digit buf 45 else ret buf) in
  mfor (rev buf) out.

(** The digits of [x], most significant first. *)
Fixpoint numeral_from (k : nat) (base x : Z) (acc : bytes) : bytes :=
  match k with
  | O => acc
  | S k' => let acc := digits (x mod base) :: acc in if x / base =? 0 then acc else numeral_from k' base (x / base) acc
  end.

Definition numeral (base x : Z) : bytes := numeral_from 32 base x [].

Definition signed_dec (x : Z) : bytes := if x <? 0 then 45 :: numeral 10 (- x) else numeral 10 x.

(** The number a numeral stands for. *)
Definition numval (val : Z -> Z) (base : Z) (l : bytes) : Z := fold_left (fun n c => n * base + val c) l 0.

(** ** Numerals *)

Lemma numeral_from_acc k base : forall x acc, numeral_from k base x acc = numeral_from k base x [] ++ acc.
Proof.
  induction k as [|k IH]; intros x acc; [done|]. cbn [numeral_from]. destruct (x / base =? 0); [done|].
  rewrite IH, (IH _ [_]), <- app_assoc. done.
Qed.

Lemma numeral_from_S k base x : numeral_from (S k) base x [] =
  (if x / base =? 0 then [] else numeral_from k base (x / base) []) ++ [digits (x mod base)].
Proof. cbn [numeral_from]. destruct (x / base =? 0); [done|]. by rewrite numeral_from_acc. Qed.

Lemma div_lt_pow x base n : 0 < base -> 0 <= x < base ^ Z.of_nat (S n) -> 0 <= x / base < base ^ Z.of_nat n.
Proof.
  intros Hb Hx. rewrite Nat2Z.inj_succ, Z.pow_succ_r in Hx by lia.
  split; [apply Z.div_pos; lia|apply Z.div_lt_upper_bound; lia].
Qed.

Lemma length_numeral_from base n : 0 < base -> forall k x, 0 <= x < base ^ Z.of_nat (S n) -> (length (numeral_from k base x []) <= S n)%nat.
Proof.
  intros Hb. induction n as [|n IH]; intros [|k] x Hx; [cbn; lia| |cbn; lia|]; rewrite numeral_from_S, length_app; cbn [length].
  - rewrite Z.pow_1_r in Hx. rewrite Z.div_small by lia. cbn. lia.
  - destruct (x / base =? 0); [cbn; lia|]. pose proof (IH k (x / base) (div_lt_pow x base _ Hb Hx)). lia.
Qed.

Lemma pow_32 base : 10 <= base -> 4294967296 <= base ^ Z.of_nat 32.
Proof. intros Hb. transitivity (10 ^ 32); [vm_compute; discriminate|]. apply Z.pow_le_mono_l. lia. Qed.

Lemma length_numeral base x : 10 <= base -> is_u32 x -> (length (numeral base x) <= 10)%nat.
Proof.
  intros Hb Hx. unfold is_u32 in Hx. apply length_numeral_from; [lia|]. split; [lia|]. eapply Z.lt_le_trans; [apply Hx|].
  transitivity (10 ^ 10); [vm_compute; discriminate|]. apply Z.pow_le_mono_l. lia.
Qed.

Lemma numval_app val base l c : numval val base (l ++ [c]) = numval val base l * base + val c.
Proof. unfold numval. by rewrite fold_left_app. Qed.

Lemma numval_numeral val base x : 10 <= base -> is_u32 x -> (forall d, 0 <= d < base -> val (digits d) = d) ->
  numval val base (numeral base x) = x.
Proof.
  intros Hb Hx Hd. pose proof (pow_32 base Hb). unfold is_u32 in Hx. unfold numeral.
  assert (HI : forall k x, 0 <= x < base ^ Z.of_nat k -> (0 < k)%nat -> numval val base (numeral_from k base x []) = x); [|apply HI; lia].
  clear x Hx. induction k as [|k IH]; intros x Hx Hk; [lia|]. rewrite numeral_from_S, numval_app.
  rewrite Hd by (pose proof (Z.mod_pos_bound x base); lia). pose proof (Z.div_mod x base). destruct (Z.eqb_spec (x / base) 0) as [Hz|Hz].
  - cbn. lia.
  - destruct k as [|k].
    + rewrite Z.pow_1_r in Hx. rewrite Z.div_small in Hz by lia. done.
    + rewrite IH; [|apply div_lt_pow; [lia|done]|lia]. lia.
Qed.

Lemma numeral_digits (P : Z -> Prop) base x : 1 < base -> 0 <= x -> (forall d, 0 <= d < base -> P (digits d)) -> Forall P (numeral base x).
Proof.
  intros Hb Hx Hd. unfold numeral. generalize 32%nat. intros k. revert x Hx. induction k as [|k IH]; intros x Hx; [constructor|].
  rewrite numeral_from_S. apply Forall_app. split.
  - destruct (x / base =? 0); [constructor|]. apply IH. apply Z.div_pos; lia.
  - apply Forall_singleton, Hd. apply Z.mod_pos_bound. lia.
Qed.

(** ** printint *)

Section output.
Context {St : Type} (out : Z -> M St unit).

Lemma push_digit_spec buf c (s : St) : (length buf < 16)%nat -> push_digit buf c s = Ret (buf ++ [c]) s.
Proof. intros H. unfold push_digit. by rewrite (proj2 (Nat.ltb_lt _ _)). Qed.

Lemma printint_loop_spec base : 1 < base -> forall k x buf (s : St), 0 <= x < base ^ Z.of_nat k -> (0 < k)%nat ->
  (length buf + length (numeral_from k base x []) <= 16)%nat ->
  printint_loop k x base buf s = Ret (buf ++ rev (numeral_from k base x [])) s.
Proof.
  intros Hb. induction k as [|k IH]; intros x buf s Hx Hk Hl; [lia|]. rewrite numeral_from_S in *. rewrite length_app in Hl. cbn [length] in Hl.
  cbn [printint_loop]. unfold bind at 1. rewrite push_digit_spec by lia. unfold nz. destruct (Z.eqb_spec (x / base) 0) as [H0|H0]; [done|].
  cbn [negb]. destruct k as [|k].
  - rewrite Z.pow_1_r in Hx. rewrite Z.div_small in H0 by lia. done.
  - rewrite IH; [|apply div_lt_pow; [lia|done]|lia|rewrite length_app; cbn [length]; lia].
    rewrite rev_app_distr, <- app_assoc. done.
Qed.

(** The digits of an unsigned number are put out in order. *)
Lemma print_number_unsigned xx base s : 10 <= base -> print_number out xx base 0 s = mfor (numeral base (u32 xx)) out s.
Proof.
  intros Hb. assert (Hu : is_u32 (u32 xx)) by (unfold is_u32, u32; apply Z.mod_pos_bound; lia).
  pose proof (length_numeral base (u32 xx) Hb Hu) as Hl. pose proof (pow_32 base Hb). unfold is_u32 in Hu.
  unfold print_number. cbn [nz Z.eqb negb andb]. unfold bind. rewrite printint_loop_spec; [|lia|lia|lia|cbn [length]; unfold numeral in Hl; lia].
  cbn [app]. unfold ret. by rewrite rev_involutive.
Qed.

Lemma print_number_signed xx s : - 2147483648 <= xx < 2147483648 -> print_number out xx 10 1 s = mfor (signed_dec xx) out s.
Proof.
  intros Hx. unfold signed_dec. destruct (Z.ltb_spec xx 0) as [H0|H0].
  - assert (Hu : is_u32 (- xx)) by (unfold is_u32; lia). pose proof (length_numeral 10 (- xx) ltac:(lia) Hu) as Hl.
    pose proof (pow_32 10 ltac:(lia)). unfold print_number. rewrite (proj2 (Z.ltb_lt _ _) H0). cbn [nz Z.eqb negb andb].
    rewrite u32_small by done. unfold is_u32 in Hu. unfold bind. rewrite printint_loop_spec; [|lia|lia|lia|cbn [length]; unfold numeral in Hl; lia].
    cbn [app]. rewrite push_digit_spec by (rewrite length_rev; unfold numeral in Hl; lia). by rewrite rev_app_distr, rev_involutive.
  - pose proof (print_number_unsigned xx 10 s ltac:(lia)) as Hp. rewrite u32_small in Hp by (unfold is_u32; lia). rewrite <- Hp.
    unfold print_number. rewrite (proj2 (Z.ltb_ge _ _) H0). done.
Qed.

End output.
End numeral.
