(* ===== verification/Printf.v ===== *)
(** * printf (src/printf.c)

    Formatted output of user programs.  The arguments after the format are the
    words on the stack that [ap] walks over. *)

From S2P Require Import Prelude.
From S2P Require Import CString.
From S2P Require Import Bytes.
From S2P Require Import Numeral.
From S2P Require Import Ulib.

Open Scope Z_scope.

Definition putc (fd c : Z) : M user unit := write fd [c mod 256].

(** The characters of [digits]. *)
Definition digits (d : Z) : Z := if d <? 10 then 48 + d else 55 + d.

Definition printint (fd xx base sgn : Z) : M user unit := print_number digits (putc fd) xx base sgn.

(** [*ap], and [ap++]. *)
Definition arg (ap : list Z) : M user (Z * list Z) :=
  match ap with
  | a :: ap' => ret (a, ap')
  | [] => fault "printf: no argument"
  end.

(** [while( *s != 0 ){ putc(fd, *s); s++; }] *)
Fixpoint puts (k : nat) (fd s : Z) : M user unit :=
  match k with
  | O => nofuel
  | S k' =>
      let! m := gets umem in
      if nz (ld8 m s) then
        do! putc fd (ld8 m s) in
        puts k' fd (s + 1)
      else ret tt
  end.

Definition null_str : bytes := [40; 110; 117; 108; 108; 41].

(** One conversion: the arguments left. *)
Definition conversion (fd c : Z) (ap : list Z) : M user (list Z) :=
  if c =? 100 then
    let! a := arg ap in
    do! printint fd (s32 a.1) 10 1 in
    ret a.2
  else if (c =? 120) || (c =? 112) then
    let! a := arg ap in
    do! printint fd (s32 a.1) 16 0 in
    ret a.2
  else if c =? 115 then
    let! a := arg ap in
    do! (if a.1 =? 0 then mfor null_str (putc fd)
         else let! m := gets umem in puts (sfuel m) fd a.1) in
    ret a.2
  else if c =? 99 then
    let! a := arg ap in
    do! putc fd a.1 in
    ret a.2
  else if c =? 37 then
    do! putc fd c in
    ret ap
  else
    do! putc fd 37 in
    do! putc fd c in
    ret ap.

Fixpoint printf_loop (k : nat) (fd fmt i state : Z) (ap : list Z) : M user unit :=
  match k with
  | O => nofuel
  | S k' =>
      let! m := gets umem in
      let c := ld8 m (fmt + i) in
      if nz c then
        if state =? 0 then
          if c =? 37 then printf_loop k' fd fmt (i + 1) 37 ap
          else
            do! putc fd c in
            printf_loop k' fd fmt (i + 1) state ap
        else if state =? 37 then
          let! ap := conversion fd c ap in
          printf_loop k' fd fmt (i + 1) 0 ap
        else printf_loop k' fd fmt (i + 1) state ap
      else ret tt
  end.

Definition printf (fd fmt : Z) (ap : list Z) : M user unit :=
  let! m := gets umem in
  printf_loop (sfuel m) fd fmt 0 0 ap.

(** ** What it prints *)

(** The string an argument points to; a null pointer prints as (null). *)
Definition points_to (m : memory) (a : Z) (l : bytes) : Prop := if a =? 0 then l = null_str else cstring m a l.

(** What a format makes of its arguments. *)
Inductive formats (m : memory) : bytes -> list Z -> bytes -> Prop :=
  | fm_end ap : formats m [] ap []
  | fm_lone ap : formats m [37] ap []
  | fm_char c f ap o : c <> 37 -> formats m f ap o -> formats m (c :: f) ap (c :: o)
  | fm_d f a ap o : formats m f ap o -> formats m (37 :: 100 :: f) (a :: ap) (signed_dec digits (s32 a) ++ o)
  | fm_x c f a ap o : c = 120 \/ c = 112 -> formats m f ap o -> formats m (37 :: c :: f) (a :: ap) (numeral digits 16 (u32 a) ++ o)
  | fm_s f a ap l o : points_to m a l -> formats m f ap o -> formats m (37 :: 115 :: f) (a :: ap) (l ++ o)
  | fm_c f a ap o : formats m f ap o -> formats m (37 :: 99 :: f) (a :: ap) (a mod 256 :: o)
  | fm_percent f ap o : formats m f ap o -> formats m (37 :: 37 :: f) ap (37 :: o)
  | fm_other c f ap o : ¬ (c ∈ [100; 120; 112; 115; 99; 37]) -> formats m f ap o -> formats m (37 :: c :: f) ap (37 :: c :: o).

(** The number a digit stands for. *)
Definition digit_val (c : Z) : Z := if c <? 58 then c - 48 else c - 55.

Definition emit (fd : Z) (l : bytes) (u : user) : user := set_uout (uout u ++ map (pair fd) l) u.

(** * Lemmas *)

(** ** printint *)

(** A digit of base at most 16 is read back. *)
Lemma digit_val_digits d : 0 <= d < 16 -> digit_val (digits d) = d.
Proof. intros Hd. unfold digit_val, digits. destruct (Z.ltb_spec d 10); zcases; lia. Qed.

Lemma numeral_bytes base x : 1 < base <= 16 -> is_u32 x -> Forall is_byte (numeral digits base x).
Proof.
  unfold is_u32. intros Hb Hx. apply numeral_digits; [lia..|]. intros d Hd. unfold is_byte, digits. zcases; lia.
Qed.

Lemma signed_dec_bytes x : - 2147483648 <= x < 2147483648 -> Forall is_byte (signed_dec digits x).
Proof.
  intros Hx. unfold signed_dec. zcases; [constructor; [done|]|]; apply numeral_bytes; unfold is_u32; lia.
Qed.

Lemma putc_spec fd c u : is_byte c -> putc fd c u = Ret tt (emit fd [c] u).
Proof. intros Hc. unfold is_byte in Hc. unfold putc. by rewrite Z.mod_small. Qed.

Lemma emit_nil fd u : emit fd [] u = u.
Proof. unfold emit. cbn. rewrite app_nil_r. by destruct u. Qed.

Lemma emit_app fd l l' u : emit fd l' (emit fd l u) = emit fd (l ++ l') u.
Proof. unfold emit, set_uout. cbn. by rewrite map_app, app_assoc. Qed.

Lemma umem_emit fd l u : umem (emit fd l u) = umem u.
Proof. done. Qed.

Lemma mfor_putc fd l : forall u, Forall is_byte l -> mfor l (putc fd) u = Ret tt (emit fd l u).
Proof.
  induction l as [|c l IH]; intros u Hl; cbn [mfor]; [by rewrite emit_nil|]. apply Forall_cons in Hl as [Hc Hl].
  unfold bind. rewrite putc_spec, IH by done. by rewrite emit_app.
Qed.

Lemma printint_unsigned fd xx u : printint fd xx 16 0 u = Ret tt (emit fd (numeral digits 16 (u32 xx)) u).
Proof.
  unfold printint. rewrite print_number_unsigned by lia. apply mfor_putc, numeral_bytes; [lia|].
  unfold is_u32, u32. apply Z.mod_pos_bound. lia.
Qed.

Lemma printint_signed fd xx u : - 2147483648 <= xx < 2147483648 -> printint fd xx 10 1 u = Ret tt (emit fd (signed_dec digits xx) u).
Proof. intros Hx. unfold printint. rewrite print_number_signed by done. by apply mfor_putc, signed_dec_bytes. Qed.

(** ** printf *)

Lemma puts_spec fd l : forall k s u, cstring (umem u) s l -> (length l < k)%nat -> puts k fd s u = Ret tt (emit fd l u).
Proof.
  induction l as [|c l IH]; intros [|k] s u Hs Hk; cbn [length] in *; try lia; cbn [puts]; unfold bind, gets.
  - apply cstring_nil in Hs. rewrite Hs. cbn. by rewrite emit_nil.
  - pose proof (cstring_str _ _ _ Hs) as Hb. apply Forall_cons in Hb as [Hb _].
    apply cstring_cons in Hs as (Hc & Hn & Hl). unfold nz. rewrite Hc, (proj2 (Z.eqb_neq _ _) Hn). cbn [negb].
    rewrite putc_spec by (unfold is_byte; lia). rewrite IH by (done || lia). by rewrite emit_app.
Qed.

(** One conversion with its argument. *)
Lemma conversion_spec fd c f ap o u : is_byte c -> formats (umem u) (37 :: c :: f) ap o ->
  exists l ap' o', o = l ++ o' /\ formats (umem u) f ap' o' /\ conversion fd c ap u = Ret ap' (emit fd l u).
Proof.
  intros Hc HF. inversion HF; subst; try done.
  - exists (signed_dec digits (s32 a)), ap0, o0. split; [done|]. split; [done|]. unfold conversion, bind, arg, ret. cbn [Z.eqb Pos.eqb fst].
    rewrite printint_signed by (unfold s32; dlia). done.
  - exists (numeral digits 16 (u32 a)), ap0, o0. split; [done|]. split; [done|]. unfold conversion, bind, arg, ret.
    assert (Hu : u32 (s32 a) = u32 a) by (unfold u32, s32; dlia).
    destruct H1 as [-> | ->]; cbn [Z.eqb Pos.eqb orb fst]; rewrite printint_unsigned, Hu by lia; done.
  - exists l, ap0, o0. split; [done|]. split; [done|]. unfold conversion, bind, arg, ret. cbn [Z.eqb Pos.eqb orb fst snd].
    unfold points_to in *. destruct (a =? 0).
    + subst l. rewrite mfor_putc; [done|]. by repeat constructor.
    + unfold gets. rewrite (puts_spec fd l) by (done || by eapply cstring_size). done.
  - exists [a mod 256], ap0, o0. split; [done|]. split; [done|]. unfold conversion, bind, arg, ret. cbn [Z.eqb Pos.eqb orb fst snd].
    unfold putc. done.
  - exists [37], ap, o0. split; [done|]. split; [done|]. unfold conversion, bind, ret. cbn [Z.eqb Pos.eqb orb].
    rewrite putc_spec by done. done.
  - exists [37; c], ap, o0. split; [done|]. split; [done|]. rewrite !not_elem_of_cons in H1. destruct H1 as (N1 & N2 & N3 & N4 & N5 & N6 & _).
    unfold conversion. rewrite !(proj2 (Z.eqb_neq _ _)) by done. cbn [orb]. unfold bind, ret.
    rewrite putc_spec by done. rewrite putc_spec by done. by rewrite emit_app.
Qed.

Lemma printf_loop_spec fd fmt : forall n f k i ap o u, (length f <= n)%nat -> cstring (umem u) (fmt + i) f -> formats (umem u) f ap o ->
  (length f < k)%nat -> printf_loop k fd fmt i 0 ap u = Ret tt (emit fd o u).
Proof.
  induction n as [|n IH]; intros f k i ap o u Hn Hs HF Hk.
  - destruct f; cbn [length] in *; [|lia]. inversion HF; subst. destruct k; [lia|]. cbn [printf_loop]. unfold bind, gets.
    apply cstring_nil in Hs. rewrite Hs. cbn. by rewrite emit_nil.
  - destruct f as [|c f]; [by apply (IH [] k i ap o); cbn [length] in *; [lia|..]|]. cbn [length] in *. destruct k as [|k]; [lia|].
    pose proof (cstring_str _ _ _ Hs) as Hb. apply Forall_cons in Hb as [Hb Hb'].
    apply cstring_cons in Hs as (Hc & Hz & Hs). replace (fmt + i + 1) with (fmt + (i + 1)) in Hs by lia.
    cbn [printf_loop]. unfold bind at 1, gets at 1. unfold nz at 1. rewrite Hc, (proj2 (Z.eqb_neq _ _) Hz). cbn [negb Z.eqb].
    destruct (Z.eqb_spec c 37) as [->|Hp].
    + destruct k as [|k]; [lia|]. cbn [printf_loop]. unfold bind at 1, gets at 1. destruct f as [|d f].
      * inversion HF; subst; [|done]. apply cstring_nil in Hs. rewrite Hs. cbn. by rewrite emit_nil.
      * apply Forall_cons in Hb' as [Hd _]. apply cstring_cons in Hs as (Hd' & Hdz & Hs). cbn [length] in *.
        replace (fmt + (i + 1) + 1) with (fmt + (i + 1 + 1)) in Hs by lia. unfold nz. rewrite Hd', (proj2 (Z.eqb_neq _ _) Hdz).
        cbn [negb Z.eqb Pos.eqb]. destruct (conversion_spec fd d f ap o u) as (l & ap' & o' & -> & HF' & Hr); [unfold is_byte; lia|done|].
        unfold bind. rewrite Hr. rewrite (IH f k (i + 1 + 1) ap' o') by (done || lia). by rewrite emit_app.
    + inversion HF; subst; try done. unfold bind. rewrite putc_spec by (unfold is_byte; lia).
      rewrite (IH f k (i + 1) ap o0) by (done || lia). by rewrite emit_app.
Qed.

(** ** Numbers are read back *)

Lemma dec_numval l : forall n, Forall (fun c => 48 <= c < 58) l -> dec n l = fold_left (fun n c => n * 10 + digit_val c) l n.
Proof.
  induction l as [|c l IH]; intros n Hl; [done|]. apply Forall_cons in Hl as [Hc Hl]. cbn. unfold dec in IH |- *. cbn.
  rewrite IH by done. f_equal. unfold digit_val. rewrite (proj2 (Z.ltb_lt _ _)) by lia. lia.
Qed.

Lemma dec_digits : Forall (fun d => is_digit (digits d) = true /\ 48 <= digits d < 58) (seqZ 0 10).
Proof. by repeat constructor. Qed.

Lemma dec_numeral x : is_u32 x -> dec 0 (numeral digits 10 x) = x /\ Forall (fun c => is_digit c = true) (numeral digits 10 x).
Proof.
  intros Hx. assert (Hd : Forall (fun c => is_digit c = true /\ 48 <= c < 58) (numeral digits 10 x)).
  { apply numeral_digits; [lia|by destruct Hx|]. intros d Hd. pose proof dec_digits as H. rewrite Forall_forall in H. apply H, elem_of_seqZ. lia. }
  split; [|eapply Forall_impl; [exact Hd|naive_solver]]. rewrite dec_numval by (eapply Forall_impl; [exact Hd|cbn; lia]).
  apply (numval_numeral digits digit_val 10 x); [lia|done|]. intros d Hb. apply digit_val_digits. lia.
Qed.

(** * Theorems *)

(** [printf] prints what its format says.  Whatever the format and the
    arguments it uses, it writes the characters of the format, the numbers in
    decimal with their sign and in hexadecimal, the strings and the
    characters, in order, and nothing else changes. *)
Theorem printf_formats fd fmt f ap o u :
  cstring (umem u) fmt f -> formats (umem u) f ap o -> printf fd fmt ap u = Ret tt (emit fd o u).
Proof.
  intros Hs HF. unfold printf, bind, gets. apply (printf_loop_spec fd fmt (length f) f); [done| |done|by eapply cstring_size].
  by rewrite Z.add_0_r.
Qed.

(** A format, and a string it prints. *)
Definition fmt_demo : user := mkUser (stbytes (stbytes ∅ 100 [37; 100; 32; 37; 120; 32; 37; 115; 37; 0]) 200 [104; 105; 0]) ∅ [].

Lemma printf_formats_witness : printf 1 100 [4294967284; 255; 200] fmt_demo =
  Ret tt (emit 1 [45; 49; 50; 32; 70; 70; 32; 104; 105] fmt_demo).
Proof.
  apply (printf_formats 1 100 [37; 100; 32; 37; 120; 32; 37; 115; 37]).
  - split; [reflexivity|]. split; [repeat constructor; discriminate|reflexivity].
  - apply (fm_d _ _ 4294967284 _ [32; 70; 70; 32; 104; 105]). apply fm_char; [discriminate|].
    apply (fm_x _ 120 _ 255 _ [32; 104; 105]); [by left|]. apply fm_char; [discriminate|].
    apply (fm_s _ _ 200 _ [104; 105] []); [|apply fm_lone]. split; [reflexivity|]. split; [repeat constructor; discriminate|reflexivity].
Defined.

Lemma signed_dec_str x : - 2147483648 <= x < 2147483648 -> is_str (signed_dec digits x).
Proof.
  intros Hx. assert (H : forall y, is_u32 y -> is_str (numeral digits 10 y)).
  { intros y [Hy _]. apply numeral_digits; [lia|done|]. intros d Hd. unfold digits. zcases; lia. }
  unfold signed_dec. destruct (Z.ltb_spec x 0); [constructor; [lia|]|]; apply H; unfold is_u32; lia.
Qed.

(** A number printed in decimal is read back by [atoi] from the characters
    printed, if it is not negative; [atoi] takes a minus sign for the end of
    the number 0. *)
Theorem printint_atoi fd x u m s :
  - 2147483648 <= x < 2147483648 ->
  exists l, printint fd x 10 1 u = Ret tt (emit fd l u) /\ atoi (stbytes m s (l ++ [0])) s = Some (Z.max x 0).
Proof.
  intros Hx. exists (signed_dec digits x). split; [by apply printint_signed|].
  pose proof (cstring_stbytes m s _ (signed_dec_str x Hx)) as Hs. set (m' := stbytes _ _ _) in *. clearbody m'. unfold signed_dec in Hs.
  destruct (Z.ltb_spec x 0) as [H0|H0].
  - rewrite (atoi_spec m' s [] (45 :: numeral digits 10 (- x))); [|done|constructor|done]. rewrite Z.max_r by lia. reflexivity.
  - destruct (dec_numeral x) as [Hv Hd]; [unfold is_u32; lia|].
    rewrite (atoi_spec m' s (numeral digits 10 x) []); [|by rewrite app_nil_r|done|done]. rewrite Hv, Z.max_l by lia. f_equal. unfold s32. dlia.
Qed.

Lemma printint_atoi_witness : exists l, printint 1 2025 10 1 fmt_demo = Ret tt (emit 1 l fmt_demo) /\
  atoi (stbytes ∅ 300 (l ++ [0])) 300 = Some 2025.
Proof. apply (printint_atoi 1 2025 fmt_demo ∅ 300). lia. Defined.
