(* ===== verification/Grep.v ===== *)
(** * grep (src/grep.c)

    The matcher, on strings as lists of bytes up to the terminator, and the
    loop that reads a file through a buffer and prints the lines that match. *)

From S2P Require Import Prelude.
From S2P Require Import CString.
From S2P Require Import Bytes.
From S2P Require Import Ulib.

Open Scope Z_scope.

(** The characters ^ $ . * and the end of a line. *)
Definition CARET : Z := 94.
Definition DOLLAR : Z := 36.
Definition DOT : Z := 46.
Definition STAR : Z := 42.
Definition NEWLINE : Z := 10.

(** ** The matcher *)

(** [matchstar(c, re, text)], with [here] the function [matchhere(re, _)]. *)
Fixpoint matchstar (here : bytes -> bool) (c : Z) (text : bytes) : bool :=
  here text ||
  match text with
  | t :: text' => ((t =? c) || (c =? DOT)) && matchstar here c text'
  | [] => false
  end.

Fixpoint matchhere (re text : bytes) : bool :=
  match re with
  | [] => true
  | r0 :: re1 =>
      let literal :=
        if (r0 =? DOLLAR) && (match re1 with [] => true | _ => false end)
        then match text with [] => true | _ => false end
        else match text with
             | t :: text' => ((r0 =? DOT) || (r0 =? t)) && matchhere re1 text'
             | [] => false
             end in
      match re1 with
      | r1 :: re2 => if r1 =? STAR then matchstar (matchhere re2) r0 text else literal
      | [] => literal
      end
  end.

(** [do if(matchhere(re, text)) return 1; while( *text++ != 0 );] *)
Fixpoint match_any (re text : bytes) : bool :=
  matchhere re text || match text with _ :: text' => match_any re text' | [] => false end.

Definition match_ (re text : bytes) : bool :=
  match re with
  | r0 :: re1 => if r0 =? CARET then matchhere re1 text else match_any re text
  | [] => match_any re text
  end.

(** ** The loop over a file *)

(** The string at an address. *)
Fixpoint cstr_loop (k : nat) (m : memory) (s : Z) : option bytes :=
  match k with
  | O => None
  | S k' => if nz (ld8 m s) then cons (ld8 m s) <$> cstr_loop k' m (s + 1) else Some []
  end.

Definition cstr (s : Z) (m : memory) : option bytes := cstr_loop (sfuel m) m s.

(** [sizeof(buf)] *)
Definition BUFSIZE : Z := 1024.

Section grep.
(** The address of the static [buf]. *)
Variable buf : Z.

(** The line from [p] to [q]. *)
Definition grep_line (pattern p q : Z) : M user unit :=
  do! upd_umem (fun m => st8 m q 0) in
  let! re := ulift (cstr pattern) in
  let! text := ulift (cstr p) in
  if match_ re text then
    do! upd_umem (fun m => st8 m q NEWLINE) in
    let! m := gets umem in
    write 1 (ldbytes m p (Z.to_nat (q + 1 - p)))
  else ret tt.

(** [while((q = strchr(p, '\n')) != 0)]: where [p] ends. *)
Fixpoint grep_lines (k : nat) (pattern p : Z) : M user Z :=
  match k with
  | O => nofuel
  | S k' =>
      let! q := ulift (fun m => strchr m p NEWLINE) in
      if nz q then
        do! grep_line pattern p q in
        grep_lines k' pattern (q + 1)
      else ret p
  end.

Fixpoint grep_loop (k : nat) (pattern fd m : Z) : M user unit :=
  match k with
  | O => nofuel
  | S k' =>
      let! n := read fd (buf + m) (BUFSIZE - m - 1) in
      if 0 <? n then
        let m := m + n in
        do! upd_umem (fun h => st8 h (buf + m) 0) in
        let! p := grep_lines (Z.to_nat BUFSIZE) pattern buf in
        let m := if p =? buf then 0 else m in
        if 0 <? m then
          let m := m - (p - buf) in
          do! upd_umem (fun h => memmove h buf p m) in
          grep_loop k' pattern fd m
        else grep_loop k' pattern fd m
      else ret tt
  end.

(** A turn reads at least one byte. *)
Definition grep (pattern fd : Z) : M user unit :=
  let! i := gets uin in
  grep_loop (S (length (concat (default [] (i !! fd))))) pattern fd 0.

End grep.

(** ** What a pattern means *)

(** A character, or any number of it. *)
Inductive item := One (c : Z) | Many (c : Z).

Definition accepts (c t : Z) : Prop := c = DOT \/ c = t.

(** The strings a sequence of items stands for. *)
Inductive lang : list item -> bytes -> Prop :=
  | lang_nil : lang [] []
  | lang_one c p t s : accepts c t -> lang p s -> lang (One c :: p) (t :: s)
  | lang_many c p s1 s2 : Forall (accepts c) s1 -> lang p s2 -> lang (Many c :: p) (s1 ++ s2).

(** The items of a pattern, and whether it ends in a $ that stands for the end
    of the text. *)
Fixpoint items (re : bytes) : list item * bool :=
  match re with
  | [] => ([], false)
  | r0 :: re1 =>
      let literal :=
        if (r0 =? DOLLAR) && (match re1 with [] => true | _ => false end) then ([], true)
        else (One r0 :: (items re1).1, (items re1).2) in
      match re1 with
      | r1 :: re2 => if r1 =? STAR then (Many r0 :: (items re2).1, (items re2).2) else literal
      | [] => literal
      end
  end.

(** The text has, from its start on, a string of the pattern, which takes up
    all of it if the pattern ends in $. *)
Definition matches_here (re text : bytes) : Prop :=
  exists s rest, text = s ++ rest /\ lang (items re).1 s /\ ((items re).2 = true -> rest = []).

Definition matches (re text : bytes) : Prop :=
  match re with
  | r0 :: re1 => if r0 =? CARET then matches_here re1 text else exists a b, text = a ++ b /\ matches_here re b
  | [] => exists a b, text = a ++ b /\ matches_here re b
  end.

(** The complete lines of a text. *)
Fixpoint lines_from (cur text : bytes) : list bytes :=
  match text with
  | [] => []
  | c :: text' => if c =? NEWLINE then cur :: lines_from [] text' else lines_from (cur ++ [c]) text'
  end.

Definition lines (text : bytes) : list bytes := lines_from [] text.

(** What is left of a text after them. *)
Fixpoint last_from (cur text : bytes) : bytes :=
  match text with
  | [] => cur
  | c :: text' => last_from (if c =? NEWLINE then [] else cur ++ [c]) text'
  end.

Definition last_line (text : bytes) : bytes := last_from [] text.

(** The lines that match, as they are printed. *)
Definition printed (re : bytes) (ls : list bytes) : bytes :=
  concat (map (fun l => l ++ [NEWLINE]) (filter (fun l => match_ re l = true) ls)).

(** * Lemmas *)

(** ** The matcher *)

Lemma matchstar_spec here c : forall text, matchstar here c text = true <->
  exists s rest, text = s ++ rest /\ Forall (accepts c) s /\ here rest = true.
Proof.
  induction text as [|t text IH]; cbn [matchstar]; rewrite orb_true_iff.
  - split; [intros [H|H]; [by exists [], []|done]|]. intros (s & rest & He & _ & Hh). symmetry in He. apply app_nil in He as [-> ->]. by left.
  - rewrite andb_true_iff, orb_true_iff, !Z.eqb_eq, IH. split.
    + intros [H|[Hc (s & rest & -> & Hs & Hr)]]; [by exists [], (t :: text)|]. exists (t :: s), rest. split; [done|]. split; [|done].
      constructor; [|done]. unfold accepts. naive_solver.
    + intros (s & rest & He & Hs & Hr). destruct s as [|x s]; cbn in He; [left; by rewrite He|]. injection He as -> ->.
      apply Forall_cons in Hs as [Hx Hs]. right. split; [unfold accepts in Hx; naive_solver|]. by exists s, rest.
Qed.

(** A pattern, two characters at a time. *)
Lemma pattern_ind (P : bytes -> Prop) :
  P [] -> (forall r0, P [r0]) -> (forall r0 r1 re, P (r1 :: re) -> P re -> P (r0 :: r1 :: re)) -> forall re, P re.
Proof.
  intros H0 H1 H2 re. assert (H : P re /\ forall r, P (r :: re)); [|by apply H].
  induction re as [|r re [IH1 IH2]]; [by split|]. split; [by apply IH2|]. intros r'. apply H2; [by apply IH2|done].
Qed.

(** What [matchhere] does where there is no star. *)
Lemma matches_literal r0 re1 text :
  items (r0 :: re1) = (One r0 :: (items re1).1, (items re1).2) ->
  matches_here (r0 :: re1) text <-> exists t text', text = t :: text' /\ accepts r0 t /\ matches_here re1 text'.
Proof.
  intros Hi. unfold matches_here. rewrite Hi. cbn [fst snd]. split.
  - intros (s & rest & -> & Hs & He). inversion Hs; subst. exists t, (s0 ++ rest). split; [done|]. split; [done|]. by exists s0, rest.
  - intros (t & text' & -> & Ha & s & rest & -> & Hs & He). exists (t :: s), rest. split; [done|]. split; [by constructor|done].
Qed.

Lemma matches_star r0 re text : matches_here (r0 :: STAR :: re) text <->
  exists s rest, text = s ++ rest /\ Forall (accepts r0) s /\ matches_here re rest.
Proof.
  unfold matches_here. cbn [items]. rewrite Z.eqb_refl. cbn [fst snd]. split.
  - intros (s & rest & -> & Hs & He). inversion Hs; subst. exists s1, (s2 ++ rest). rewrite app_assoc. split; [done|]. split; [done|].
    by exists s2, rest.
  - intros (s1 & r & -> & Ha & s2 & rest & -> & Hs & He). exists (s1 ++ s2), rest. rewrite app_assoc. split; [done|]. split; [by constructor|done].
Qed.

Lemma matches_end text : matches_here [DOLLAR] text <-> text = [].
Proof.
  unfold matches_here. cbn. split.
  - intros (s & rest & -> & Hs & He). inversion Hs. by rewrite He.
  - intros ->. exists [], []. split; [done|]. split; [constructor|done].
Qed.

Lemma matchhere_spec re : forall text, matchhere re text = true <-> matches_here re text.
Proof.
  induction re as [|r0|r0 r1 re IH1 IH2] using pattern_ind; intros text.
  - split; [|done]. intros _. exists [], text. split; [done|]. split; [constructor|done].
  - cbn [matchhere]. destruct (Z.eqb_spec r0 DOLLAR) as [->|Hd]; cbn [andb].
    + rewrite matches_end. by destruct text.
    + rewrite matches_literal; [|cbn; by rewrite (proj2 (Z.eqb_neq _ _) Hd)].
      assert (Hn : forall l, matches_here [] l) by (intros l; exists [], l; split; [done|split; [constructor|done]]).
      destruct text as [|t text]; [naive_solver|]. rewrite andb_true_r, orb_true_iff, !Z.eqb_eq. unfold accepts. naive_solver.
  - assert (Hm : matchhere (r0 :: r1 :: re) text = if r1 =? STAR then matchstar (matchhere re) r0 text
        else match text with t :: text' => ((r0 =? DOT) || (r0 =? t)) && matchhere (r1 :: re) text' | [] => false end).
    { cbn [matchhere]. by rewrite andb_false_r. }
    rewrite Hm. destruct (Z.eqb_spec r1 STAR) as [->|Hs].
    + rewrite matchstar_spec, matches_star. by setoid_rewrite IH2.
    + rewrite matches_literal; [|cbn [items]; by rewrite (proj2 (Z.eqb_neq _ _) Hs), andb_false_r].
      destruct text as [|t text]; [naive_solver|]. rewrite andb_true_iff, orb_true_iff, !Z.eqb_eq, IH1. unfold accepts. naive_solver.
Qed.

Lemma match_any_spec re : forall text, match_any re text = true <-> exists a b, text = a ++ b /\ matches_here re b.
Proof.
  induction text as [|t text IH]; cbn [match_any]; rewrite orb_true_iff, matchhere_spec.
  - split; [intros [H|H]; [by exists [], []|done]|]. intros (a & b & He & Hb). symmetry in He. apply app_nil in He as [-> ->]. by left.
  - rewrite IH. split.
    + intros [H|(a & b & -> & H)]; [by exists [], (t :: text)|]. by exists (t :: a), b.
    + intros (a & b & He & Hb). destruct a as [|x a]; cbn in He; [left; by rewrite He|]. injection He as -> ->. right. by exists a, b.
Qed.

(** ** Lines *)

Lemma lines_from_app a b : forall cur, lines_from cur (a ++ b) = lines_from cur a ++ lines_from (last_from cur a) b.
Proof.
  induction a as [|c a IH]; intros cur; [done|]. cbn [app lines_from last_from]. destruct (c =? NEWLINE); rewrite IH; done.
Qed.

Lemma lines_from_none a : forall cur, NEWLINE ∉ a -> lines_from cur a = [] /\ last_from cur a = cur ++ a.
Proof.
  induction a as [|c a IH]; intros cur Ha; [by rewrite app_nil_r|]. apply not_elem_of_cons in Ha as [Hc Ha]. cbn [lines_from last_from].
  rewrite (proj2 (Z.eqb_neq _ _)) by done. destruct (IH (cur ++ [c]) Ha) as [H1 H2]. rewrite H1, H2, <- app_assoc. done.
Qed.

Lemma last_from_none a : forall cur, NEWLINE ∉ cur -> NEWLINE ∉ last_from cur a.
Proof.
  induction a as [|c a IH]; intros cur Hc; [done|]. cbn [last_from]. apply IH. destruct (Z.eqb_spec c NEWLINE) as [->|Hn].
  - apply not_elem_of_nil.
  - rewrite not_elem_of_app, list_elem_of_singleton. naive_solver.
Qed.

Lemma last_line_none a : NEWLINE ∉ last_line a.
Proof. exact (last_from_none a [] (not_elem_of_nil _)). Qed.

(** The text starts with what is left over from before. *)
Lemma lines_from_cur cur a : NEWLINE ∉ cur -> lines_from cur a = lines (cur ++ a).
Proof. intros Hc. unfold lines. rewrite lines_from_app. destruct (lines_from_none cur [] Hc) as [-> ->]. done. Qed.

Lemma lines_split a b : NEWLINE ∉ a -> lines (a ++ NEWLINE :: b) = a :: lines b /\ last_line (a ++ NEWLINE :: b) = last_line b.
Proof.
  intros Ha. unfold lines, last_line. rewrite lines_from_app. destruct (lines_from_none a [] Ha) as [H1 H2]. rewrite H1, H2. split; [done|].
  clear H1 H2. generalize (@nil Z) at 1. induction a as [|c a IH]; intros cur; [done|].
  apply not_elem_of_cons in Ha as [Hc Ha]. cbn [app last_from]. by rewrite IH.
Qed.

Lemma length_last_line a : (length (last_line a) <= length a)%nat /\ (NEWLINE ∈ a -> (length (last_line a) < length a)%nat).
Proof.
  assert (H : forall cur, (length (last_from cur a) <= length cur + length a)%nat /\ (NEWLINE ∈ a -> (length (last_from cur a) < length a)%nat)).
  { induction a as [|c a IH]; intros cur; [cbn; split; [lia|by intros ?%elem_of_nil]|]. cbn [last_from length].
    destruct (IH (if c =? NEWLINE then [] else cur ++ [c])) as [H1 H2]. destruct (Z.eqb_spec c NEWLINE) as [->|Hn].
    - cbn [length] in H1. split; [lia|]. intros _. lia.
    - rewrite length_app in H1. cbn [length] in H1. split; [lia|]. intros [Hc|Ha]%elem_of_cons; [congruence|]. specialize (H2 Ha). lia. }
  destruct (H []) as [H1 H2]. done.
Qed.

Lemma last_line_suffix a : exists b, a = b ++ last_line a.
Proof.
  unfold last_line. assert (H : forall cur, exists b, cur ++ a = b ++ last_from cur a).
  { induction a as [|c a IH]; intros cur; [exists []; by rewrite app_nil_r|]. cbn [last_from]. destruct (Z.eqb_spec c NEWLINE) as [->|Hn].
    - destruct (IH []) as [b Hb]. exists (cur ++ NEWLINE :: b). cbn in Hb. rewrite <- app_assoc. cbn. by rewrite <- Hb.
    - destruct (IH (cur ++ [c])) as [b Hb]. exists b. by rewrite <- Hb, <- app_assoc. }
  apply (H []).
Qed.

Lemma index_of_some c l : forall i, index_of c l = Some i -> l = take i l ++ (c :: drop (S i) l) /\ (c ∉ take i l) /\ (i < length l)%nat.
Proof.
  induction l as [|x l IH]; intros i Hi; [done|]. cbn [index_of] in Hi. destruct (Z.eqb_spec x c) as [->|Hn].
  - injection Hi as <-. cbn. split; [by rewrite drop_0|]. split; [apply not_elem_of_nil|lia].
  - destruct (index_of c l) as [j|] eqn:Ej; [|done]. injection Hi as <-. destruct (IH j eq_refl) as (H1 & H2 & H3). cbn [take drop app length].
    split; [by f_equal|]. split; [|lia]. apply not_elem_of_cons. split; [congruence|done].
Qed.

Lemma index_of_none c l : index_of c l = None -> c ∉ l.
Proof.
  induction l as [|x l IH]; intros Hi; [apply not_elem_of_nil|]. cbn [index_of] in Hi. destruct (Z.eqb_spec x c) as [->|Hn]; [done|].
  destruct (index_of c l); [done|]. apply not_elem_of_cons. split; [congruence|by apply IH].
Qed.

Lemma printed_app re l l' : printed re (l ++ l') = printed re l ++ printed re l'.
Proof. unfold printed. by rewrite filter_app, map_app, concat_app. Qed.

(** ** Strings in memory *)

Lemma cstr_spec m s l : cstring m s l -> cstr s m = Some l.
Proof.
  intros Hs. pose proof (cstring_size _ _ _ Hs) as Hk. unfold cstr. revert s Hs Hk. generalize (sfuel m) as k.
  induction l as [|c l IH]; intros [|k] s Hs Hk; cbn [length] in *; try lia; cbn [cstr_loop].
  - apply cstring_nil in Hs. by rewrite Hs.
  - apply cstring_cons in Hs as (Hc & Hn & Hl). unfold nz. rewrite Hc, (proj2 (Z.eqb_neq _ _) Hn). cbn [negb].
    rewrite IH; [done..|lia].
Qed.

Lemma cstring_app m s a b : cstring m s (a ++ b) -> ldbytes m s (length a) = a /\ cstring m (s + Z.of_nat (length a)) b.
Proof.
  revert s. induction a as [|c a IH]; intros s; cbn [app length ldbytes]; [by rewrite Z.add_0_r|].
  rewrite cstring_cons. intros (-> & _ & Hs). destruct (IH _ Hs) as [H1 H2]. rewrite H1. split; [done|].
  by replace (s + Z.of_nat (S (length a))) with (s + 1 + Z.of_nat (length a)) by lia.
Qed.

(** A string from its bytes and the NUL after them. *)
Lemma cstring_bytes m s l : is_str l -> ldbytes m s (length l) = l -> ld8 m (s + Z.of_nat (length l)) = 0 -> cstring m s l.
Proof. intros Hl Hb Hz. split; [done|]. split; [|done]. eapply Forall_impl; [exact Hl|]. cbn. lia. Qed.

Lemma wpx_ulift {A} (f : memory -> option A) a (Q : A -> user -> Prop) E u : f (umem u) = Some a -> Q a u -> wpx (ulift f) Q E u.
Proof. intros Hf HQ. unfold wpx, ulift, bind, gets. by rewrite Hf. Qed.

(** ** The loop over a buffer *)

Lemma apart_string m a b m' s l : apart m a b m' -> s + Z.of_nat (length l) < a \/ b <= s -> cstring m s l -> cstring m' s l.
Proof. intros H Hd. apply cstring_ext. intros x Hx. apply H. lia. Qed.

(** Printing one line. *)
Lemma grep_line_spec pattern re p a (u : user) :
  NEWLINE ∉ a -> is_str a -> 0 < p -> cstring (umem u) pattern re -> ldbytes (umem u) p (length a) = a ->
  pattern + Z.of_nat (length re) < p \/ p + Z.of_nat (length a) < pattern ->
  let q := p + Z.of_nat (length a) in
  wp (grep_line pattern p q)
    (fun _ u' => uin u' = uin u /\ uout u' = uout u ++ map (pair 1) (printed re [a]) /\ apart (umem u) q (q + 1) (umem u')) u.
Proof.
  intros Ha Hs Hp Hpat Hb Hd q. unfold grep_line. assert (A1 : apart (umem u) q (q + 1) (st8 (umem u) q 0)) by (apply apart_st8; lia).
  assert (Hb1 : forall m', apart (umem u) q (q + 1) m' -> ldbytes m' p (length a) = a).
  { intros m' A. rewrite <- Hb at 2. apply ldbytes_ext. intros i Hi. apply A. lia. }
  wp_step. apply wpx_modify. wp_step. apply (wpx_ulift _ re).
  { apply cstr_spec. cbn. eapply apart_string; [exact A1|lia|done]. }
  wp_step. apply (wpx_ulift _ a).
  { apply cstr_spec. cbn. apply cstring_bytes; [done|by apply Hb1|]. apply ld8_st8_eq. }
  unfold printed. rewrite filter_cons. case_decide as Hm.
  - rewrite Hm. wp_step. apply wpx_modify. wp_step. apply wpx_gets. apply wpx_modify. cbn [uin uout umem set_umem set_uout]. split; [done|].
    assert (A2 : apart (umem u) q (q + 1) (st8 (st8 (umem u) q 0) q NEWLINE)) by (eapply apart_trans; [exact A1|apply (apart_st8 _ q _ (q + 1)); lia|lia..]).
    split; [|exact A2]. do 2 f_equal. replace (Z.to_nat (q + 1 - p)) with (length a + 1)%nat by lia.
    rewrite ldbytes_app, Hb1 by exact A2. cbn. fold q. rewrite ld8_st8_eq, app_nil_r. done.
  - rewrite (not_true_is_false _ Hm). apply wpx_ret. cbn. rewrite app_nil_r. done.
Qed.

Lemma grep_lines_spec pattern re : forall k l p (u : user),
  cstring (umem u) p l -> cstring (umem u) pattern re -> 0 < p -> (length l < k)%nat ->
  pattern + Z.of_nat (length re) < p \/ p + Z.of_nat (length l) < pattern ->
  wp (grep_lines k pattern p) (fun p' u' => p' = p + Z.of_nat (length l) - Z.of_nat (length (last_line l)) /\ uin u' = uin u /\
      uout u' = uout u ++ map (pair 1) (printed re (lines l)) /\ apart (umem u) p p' (umem u')) u.
Proof.
  induction k as [|k IH]; intros l p u Hl Hpat Hp Hk Hd; [lia|]. cbn [grep_lines].
  wp_step. eapply wpx_ulift; [by apply strchr_spec|]. destruct (index_of NEWLINE l) as [i|] eqn:Ei.
  - destruct (index_of_some _ _ _ Ei) as (El & Hn & Hi). set (a := take i l) in *. set (b := drop (S i) l) in *.
    assert (Hla : length a = i) by (unfold a; rewrite length_take; lia).
    assert (Hll : (length l = length a + S (length b))%nat) by (rewrite El at 1; by rewrite length_app).
    pose proof (cstring_str _ _ _ Hl) as Hs. rewrite El in Hs, Hl. apply Forall_app in Hs as [Hsa Hsb]. apply cstring_app in Hl as [Hba Hlb].
    apply cstring_cons in Hlb as (Hq & _ & Hlb). destruct (lines_split a b Hn) as [L1 L2]. rewrite <- El in L1, L2. rewrite L1, L2.
    unfold nz. rewrite (proj2 (Z.eqb_neq _ _)) by lia. cbn [negb]. rewrite <- Hla.
    wp_step. wp_use (grep_line_spec pattern re p a u Hn Hsa Hp Hpat Hba ltac:(lia)).
    intros [] u1 (Hi1 & Ho1 & A1). eapply wpx_mono; [apply (IH b)| |done].
    + eapply apart_string; [exact A1|lia|done].
    + eapply apart_string; [exact A1|lia|done].
    + lia.
    + lia.
    + lia.
    + intros p' u' (-> & Hi2 & Ho2 & A2). pose proof (proj1 (length_last_line b)). split; [lia|]. split; [congruence|]. split.
      * rewrite Ho2, Ho1, <- app_assoc, <- map_app, <- printed_app. done.
      * eapply apart_trans; [exact A1|exact A2|lia..].
  - apply index_of_none in Ei. destruct (lines_from_none l [] Ei) as [L1 L2]. cbn [nz Z.eqb negb]. apply wpx_ret.
    unfold lines, last_line. rewrite L1, L2. cbn. rewrite app_nil_r. split; [lia|]. done.
Qed.

(** ** The loop over a file *)

(** Reading a file that arrives in one piece. *)
Lemma read_file fd a n rest cs (u : user) :
  uin u !! fd = Some cs -> cs = [rest] \/ cs = [] /\ rest = [] -> 0 <= n ->
  wp (read fd a n) (fun r u' => let chunk := take (Z.to_nat n) rest in r = Z.of_nat (length chunk) /\
      umem u' = stbytes (umem u) a chunk /\ uout u' = uout u /\
      exists cs', uin u' !! fd = Some cs' /\ let rest' := drop (Z.to_nat n) rest in cs' = [rest'] \/ cs' = [] /\ rest' = []) u.
Proof.
  intros Hi Hc Hn. unfold read. wp_step. apply wpx_gets. rewrite Hi. change (default [] (Some cs)) with cs.
  assert (Ht : exists cs', take_piece (Z.to_nat n) cs = (take (Z.to_nat n) rest, cs') /\
      (cs' = [drop (Z.to_nat n) rest] \/ cs' = [] /\ drop (Z.to_nat n) rest = [])).
  { destruct Hc as [-> |[-> ->]]; cbn [take_piece].
    - destruct (Nat.leb_spec (length rest) (Z.to_nat n)); eexists; (split; [done|]); [right|by left].
      split; [done|]. apply drop_ge. lia.
    - exists []. rewrite take_nil, drop_nil. split; [done|]. by right. }
  destruct Ht as (cs' & -> & Hcs'). wp_step. apply wpx_modify. wp_step. apply wpx_modify. apply wpx_ret. cbn.
  split; [done|]. split; [done|]. split; [done|]. exists cs'. split; [apply lookup_insert_eq|done].
Qed.

Section loop.
Variable buf pattern : Z.
Variable re : bytes.
Hypothesis Hbuf : 0 < buf.
Hypothesis Hapart : pattern + Z.of_nat (length re) < buf \/ buf + BUFSIZE <= pattern.

(** The buffer with what was left and what was read, and a NUL. *)
Lemma buffer_text m pre chunk : is_str (pre ++ chunk) -> ldbytes m buf (length pre) = pre ->
  (length (pre ++ chunk) <= 1023)%nat ->
  let m' := st8 (stbytes m (buf + Z.of_nat (length pre)) chunk) (buf + (Z.of_nat (length pre) + Z.of_nat (length chunk))) 0 in
  cstring m' buf (pre ++ chunk) /\ apart m buf (buf + BUFSIZE) m'.
Proof.
  intros Hs Hb Hl m'. rewrite length_app in Hl. split.
  - apply cstring_bytes; [done| |].
    + rewrite length_app, ldbytes_app. f_equal.
      * rewrite <- Hb at 2. apply ldbytes_ext. intros i Hi. unfold m'. rewrite ld8_st8_ne, ld8_stbytes by lia. zcases; try done; lia.
      * apply list_eq. intros i. destruct (decide (i < length chunk)%nat) as [Hi|Hi].
        -- rewrite lookup_ldbytes by done. destruct (lookup_lt_is_Some_2 chunk i Hi) as [c Hc]. rewrite Hc. f_equal. unfold m'.
           rewrite ld8_st8_ne, ld8_stbytes by lia. apply Forall_app in Hs as [_ Hs]. pose proof (Forall_lookup_1 _ _ _ _ Hs Hc) as Hr. cbn in Hr.
           zcases; try lia. replace (Z.to_nat _) with i by lia. rewrite Hc. cbn. apply Z.mod_small. lia.
        -- rewrite !lookup_ge_None_2; [done|lia|rewrite length_ldbytes; lia].
    + unfold m'. rewrite length_app, Nat2Z.inj_add. apply ld8_st8_eq.
  - intros x Hx. unfold m', BUFSIZE in *. rewrite ld8_st8_ne, ld8_stbytes by lia. zcases; try done; lia.
Qed.

(** What is left moves to the start of the buffer. *)
Lemma buffer_move m l p : cstring m buf l -> (length l <= 1023)%nat ->
  p = buf + Z.of_nat (length l) - Z.of_nat (length (last_line l)) ->
  forall m1, apart m buf p m1 -> let m2 := memmove m1 buf p (Z.of_nat (length (last_line l))) in
  ldbytes m2 buf (length (last_line l)) = last_line l /\ apart m1 buf (buf + BUFSIZE) m2.
Proof.
  intros Hl Hn Hp m1 A m2. pose proof (proj1 (length_last_line l)) as Hle. destruct (last_line_suffix l) as [b Hb].
  assert (Hlb : length l = (length b + length (last_line l))%nat) by (rewrite Hb at 1; apply length_app).
  unfold m2, memmove. rewrite Nat2Z.id. split.
  - rewrite Hb in Hl. apply cstring_app in Hl as [_ [Hl _]]. rewrite <- Hl at 3. apply ldbytes_ext. intros i Hi.
    rewrite ld8_copy_up by lia. zcases; try lia. rewrite A by lia. f_equal. lia.
  - intros x Hx. unfold BUFSIZE in Hx. rewrite ld8_copy_up by lia. zcases; try done; lia.
Qed.

(** No line is too long for the buffer. *)
Definition short_lines (text : bytes) : Prop := Forall (fun l => (length l <= 1022)%nat) (lines text).

(** Without a newline in a full buffer there is none at all. *)
Lemma lines_dropped a b : NEWLINE ∉ a -> length a = 1023%nat \/ b = [] -> short_lines (a ++ b) -> lines (a ++ b) = [] /\ lines b = [].
Proof.
  intros Ha Hl Hs. assert (Hb : NEWLINE ∉ b).
  { destruct Hl as [Hl| ->]; [|apply not_elem_of_nil]. destruct (index_of NEWLINE b) as [i|] eqn:Ei; [|by apply index_of_none].
    apply index_of_some in Ei as (Eb & Hn & Hi). exfalso. unfold short_lines in Hs. rewrite Eb, app_assoc in Hs.
    destruct (lines_split (a ++ take i b) (drop (S i) b)) as [E _]; [by rewrite not_elem_of_app|].
    rewrite E in Hs. apply Forall_cons in Hs as [Hs _]. rewrite length_app in Hs. lia. }
  split; apply lines_from_none; [|done]. by rewrite not_elem_of_app.
Qed.

Lemma lines_next text rest : lines (text ++ rest) = lines text ++ lines (last_line text ++ rest).
Proof. unfold lines at 1. rewrite lines_from_app, (lines_from_cur (last_from [] text)) by apply last_line_none. done. Qed.

Lemma grep_loop_spec fd : forall k pre rest cs (u : user),
  uin u !! fd = Some cs -> cs = [rest] \/ cs = [] /\ rest = [] -> (length rest < k)%nat ->
  ldbytes (umem u) buf (length pre) = pre -> (length pre <= 1022)%nat -> NEWLINE ∉ pre -> is_str (pre ++ rest) -> short_lines (pre ++ rest) ->
  cstring (umem u) pattern re ->
  wp (grep_loop buf k pattern fd (Z.of_nat (length pre))) (fun _ u' =>
    uout u' = uout u ++ map (pair 1) (printed re (lines (pre ++ rest))) /\ apart (umem u) buf (buf + BUFSIZE) (umem u')) u.
Proof.
  induction k as [|k IH]; intros pre rest cs u Hi Hcs Hk Hb Hl Hn Hs Hsh Hpat; [lia|]. cbn [grep_loop].
  wp_step. wp_use (read_file fd (buf + Z.of_nat (length pre)) (BUFSIZE - Z.of_nat (length pre) - 1) rest cs u Hi Hcs ltac:(unfold BUFSIZE; lia)).
  replace (Z.to_nat (BUFSIZE - Z.of_nat (length pre) - 1)) with (1023 - length pre)%nat by (unfold BUFSIZE; lia).
  intros n u1 (-> & Hm1 & Ho1 & cs1 & Hi1 & Hcs1). set (chunk := take (1023 - length pre) rest) in *. set (rest1 := drop (1023 - length pre) rest) in *.
  assert (Er : rest = chunk ++ rest1) by (symmetry; apply take_drop).
  assert (Hcl : length chunk = Nat.min (1023 - length pre) (length rest)) by apply length_take.
  assert (Hrl : length rest1 = (length rest - (1023 - length pre))%nat) by apply length_drop.
  destruct (Z.ltb_spec 0 (Z.of_nat (length chunk))) as [Hpos|Hzero].
  2:{ assert (rest = []) as -> by (destruct rest; [done|cbn [length] in *; lia]). apply wpx_ret. rewrite app_nil_r.
      destruct (lines_from_none pre [] Hn) as [L _]. unfold lines. rewrite L, Ho1, Hm1. cbn. rewrite app_nil_r. split; [done|].
      unfold chunk. rewrite take_nil. by intros x _. }
  rewrite Er, app_assoc in Hs, Hsh |- *. apply Forall_app in Hs as [Hst Hsr].
  destruct (buffer_text (umem u) pre chunk Hst Hb ltac:(rewrite length_app; lia)) as [Ht A1]. rewrite <- Hm1 in Ht, A1.
  wp_step. apply wpx_modify. set (u2 := set_umem _ u1). set (text := pre ++ chunk) in *.
  assert (Hlt : (length text = length pre + length chunk)%nat) by apply length_app.
  wp_step. wp_use (grep_lines_spec pattern re (Z.to_nat BUFSIZE) text buf u2 Ht).
  { eapply apart_string; [exact A1|exact Hapart|done]. }
  { done. } { unfold BUFSIZE. lia. } { unfold BUFSIZE in Hapart. lia. }
  intros p u3 (Hp & Hi3 & Ho3 & A3). pose proof (length_last_line text) as [Hll Hln].
  assert (A13 : apart (umem u) buf (buf + BUFSIZE) (umem u3)) by (eapply apart_trans; [exact A1|exact A3|unfold BUFSIZE; lia..]).
  assert (Hpat3 : cstring (umem u3) pattern re) by (eapply apart_string; [exact A13|exact Hapart|done]).
  destruct (Z.eqb_spec p buf) as [Hpb|Hpb].
  - assert (Hnt : NEWLINE ∉ text) by (intros Hin; specialize (Hln Hin); lia).
    destruct (lines_dropped text rest1 Hnt) as [L1 L2]; [|done|].
    { destruct (decide (length text = 1023%nat)); [by left|right]. apply nil_length_inv. lia. }
    destruct (lines_from_none text [] Hnt) as [L3 _]. unfold lines in Ho3. rewrite L3 in Ho3. cbn [Z.ltb Z.compare].
    eapply wpx_mono; [apply (IH [] rest1 cs1 u3)| |done]; try done; try (cbn; lia); cbn [app].
    + by rewrite Hi3.
    + apply not_elem_of_nil.
    + unfold short_lines. rewrite L2. constructor.
    + intros [] u4 [Ho4 A4]. rewrite L1, Ho4, L2, Ho3. cbn. rewrite !app_nil_r, Ho1. split; [done|]. by eapply apart_both; [exact A13|].
  - rewrite (proj2 (Z.ltb_lt _ _)) by lia. replace (_ + _ - (p - buf)) with (Z.of_nat (length (last_line text))) by lia.
    destruct (buffer_move _ text p Ht ltac:(lia) Hp (umem u3) A3) as [Hb4 A4].
    wp_step. apply wpx_modify. set (u4 := set_umem _ u3). rewrite lines_next. unfold short_lines in Hsh. rewrite lines_next in Hsh.
    apply Forall_app in Hsh as [_ Hsh]. destruct (last_line_suffix text) as [b Eb]. rewrite Eb in Hst. apply Forall_app in Hst as [_ Hst].
    eapply wpx_mono; [apply (IH (last_line text) rest1 cs1 u4)| |done]; try done.
    + cbn. by rewrite Hi3.
    + lia.
    + lia.
    + apply last_line_none.
    + by apply Forall_app.
    + eapply apart_string; [exact A4|exact Hapart|done].
    + intros [] u5 [Ho5 A5]. rewrite Ho5. cbn [uout u4 set_umem]. rewrite Ho3. cbn [uout u2 set_umem]. rewrite Ho1, <- app_assoc, <- map_app, <- printed_app.
      split; [done|]. eapply apart_both; [exact A13|]. by eapply apart_both; [exact A4|].
Qed.

End loop.

(** * Theorems *)

(** C19: the matcher of grep decides its patterns.  [match] answers 1 exactly
    when the text contains a string of the language of the pattern, at its
    start for a pattern with ^ and up to its end for one with $. *)
Theorem match_matches re text : match_ re text = true <-> matches re text.
Proof.
  unfold match_, matches. destruct re as [|r0 re]; [apply match_any_spec|].
  destruct (r0 =? CARET); [apply matchhere_spec|apply match_any_spec].
Qed.

(** Grep prints the lines that match.  For a file without NUL bytes whose
    lines fit the buffer, grep writes to its output exactly the complete lines
    the pattern matches, in order, and changes no memory but its buffer. *)
Theorem grep_prints_matches buf pattern re fd data (u : user) :
  0 < buf -> pattern + Z.of_nat (length re) < buf \/ buf + BUFSIZE <= pattern -> cstring (umem u) pattern re ->
  uin u !! fd = Some [data] -> is_str data -> short_lines data ->
  wp (grep buf pattern fd) (fun _ u' => uout u' = uout u ++ map (pair 1) (printed re (lines data)) /\
    apart (umem u) buf (buf + BUFSIZE) (umem u')) u.
Proof.
  intros Hb Ha Hp Hi Hs Hl. unfold grep. wp_step. apply wpx_gets. rewrite Hi.
  apply (grep_loop_spec buf pattern re Hb Ha fd _ [] data [data]); try done.
  - by left.
  - change (default [] (Some [data])) with [data]. cbn [concat]. rewrite app_nil_r. lia.
  - cbn. lia.
  - apply not_elem_of_nil.
Qed.

(** A pattern a.c at 100, and the lines abc, xy and aaac. *)
Definition grep_demo (pieces : list bytes) : user := mkUser (stbytes ∅ 100 [97; 46; 99; 0]) {[0 := pieces]} [].

Lemma grep_prints_matches_witness : wp (grep 1000 100 0) (fun _ u' =>
  uout u' = map (pair 1) [97; 98; 99; 10; 97; 97; 97; 99; 10]) (grep_demo [[97; 98; 99; 10; 120; 121; 10; 97; 97; 97; 99; 10]]).
Proof.
  eapply wpx_mono; [apply (grep_prints_matches 1000 100 [97; 46; 99] 0 [97; 98; 99; 10; 120; 121; 10; 97; 97; 97; 99; 10])| |done].
  - lia.
  - left. cbn. lia.
  - split; [reflexivity|]. split; [repeat constructor; discriminate|reflexivity].
  - reflexivity.
  - repeat constructor.
  - repeat constructor; cbn; lia.
  - intros [] u' [-> _]. reflexivity.
Defined.

(** A line that arrives in two pieces is lost: when a piece has no newline, [m]
    is set to 0 and the bytes read are forgotten. *)
Example grep_forgets_pieces :
  uout (after (grep 1000 100 0) (grep_demo [[97; 98; 99; 10]])) = map (pair 1) [97; 98; 99; 10] /\
  uout (after (grep 1000 100 0) (grep_demo [[97; 98]; [99; 10]])) = [].
Proof. split; vm_compute; reflexivity. Qed.
