(* ===== verification/Umalloc.v ===== *)
(** * The user memory allocator (src/umalloc.c)

    The free blocks form a circular list through their headers, in the order
    of their addresses, that starts at the static header [base]; a header is
    two words, and sizes count headers.

    The specification says which blocks are free and which are handed out:
    [heap_ok] relates a list of free blocks and a map of allocated ones to the
    memory.  The blocks are disjoint and no two free blocks touch. *)

From S2P Require Import Prelude.
From S2P Require Import CString.
From stdpp Require Import sorting.

Open Scope Z_scope.

(** Memory, the end of the program's memory, and the static [freep]. *)
Record heap := mkHeap { hmem : memory; hbrk : Z; freep : Z }.

Definition set_hmem (m : memory) (h : heap) : heap := mkHeap m (hbrk h) (freep h).
Definition set_hbrk (b : Z) (h : heap) : heap := mkHeap (hmem h) b (freep h).
Definition set_freep (p : Z) (h : heap) : heap := mkHeap (hmem h) (hbrk h) p.

(** The system call sbrk, seen from the program: whether the kernel grants
    [n] more bytes above the end of memory, which stays below the shared
    segments. *)
Class Sbrk := { sbrk_ok : Z -> Z -> bool }.
Class SbrkSpec `(SB : Sbrk) := { sbrk_limit : forall b n, sbrk_ok b n = true -> b + n < 2147483648 }.

Definition sbrk `{Sbrk} (n : Z) : M heap Z :=
  let! b := gets hbrk in
  if sbrk_ok b n then
    do! modify (set_hbrk (u32 (b + n))) in
    ret b
  else ret 4294967295.

(** ** Headers *)

(** [p + n], for a pointer to a header. *)
Definition hdr (p n : Z) : Z := u32 (p + 8 * n).

Definition s_ptr (p : Z) : M heap Z := gets (fun h => ld32 (hmem h) p).
Definition s_size (p : Z) : M heap Z := gets (fun h => ld32 (hmem h) (p + 4)).
Definition set_ptr (p v : Z) : M heap unit := modify (fun h => set_hmem (st32 (hmem h) p v) h).
Definition set_size (p v : Z) : M heap unit := modify (fun h => set_hmem (st32 (hmem h) (p + 4) v) h).

(** A block: its address and its size. *)
Abbreviation block := (Z * Z)%type.

Section umalloc.
Context `{SB : Sbrk}.
(** The address of the static header. *)
Variable base : Z.

(** At least as many turns as there are free blocks. *)
Definition hfuel (h : heap) : nat := Z.to_nat ((hbrk h - base) / 8).

(** ** free *)

(** [for(p = freep; !(bp > p && bp < p->s.ptr); p = p->s.ptr) ...] *)
Fixpoint free_find (k : nat) (bp p : Z) : M heap Z :=
  match k with
  | O => nofuel
  | S k' =>
      let! q := s_ptr p in
      if (p <? bp) && (bp <? q) then ret p
      else if (q <=? p) && ((p <? bp) || (bp <? q)) then ret p
      else free_find k' bp q
  end.

Definition free (ap : Z) : M heap unit :=
  let bp := hdr ap (-1) in
  let! k := gets hfuel in
  let! p := gets freep in
  let! p := free_find (k + 2) bp p in
  let! q := s_ptr p in
  let! bs := s_size bp in
  do! (if hdr bp bs =? q then
         let! qs := s_size q in
         do! set_size bp (u32 (bs + qs)) in
         let! qn := s_ptr q in
         set_ptr bp qn
       else set_ptr bp q) in
  let! ps := s_size p in
  do! (if hdr p ps =? bp then
         let! bs := s_size bp in
         do! set_size p (u32 (ps + bs)) in
         let! bn := s_ptr bp in
         set_ptr p bn
       else set_ptr p bp) in
  modify (set_freep p).

(** ** malloc *)

Definition morecore (nu : Z) : M heap Z :=
  let nu := if nu <? 4096 then 4096 else nu in
  let! p := sbrk (s32 (nu * 8)) in
  if p =? 4294967295 then ret 0
  else
    do! set_size p nu in
    do! free (hdr p 1) in
    gets freep.

(** The block [p], of [nunits] or more headers, is taken. *)
Definition malloc_take (nunits prevp p : Z) : M heap Z :=
  let! sz := s_size p in
  let! p :=
    (if sz =? nunits then
       let! q := s_ptr p in
       do! set_ptr prevp q in
       ret p
     else
       do! set_size p (u32 (sz - nunits)) in
       let! sz := s_size p in
       let p := hdr p sz in
       do! set_size p nunits in
       ret p) in
  do! modify (set_freep prevp) in
  ret (hdr p 1).

Fixpoint malloc_loop (k : nat) (nunits prevp p : Z) : M heap Z :=
  match k with
  | O => nofuel
  | S k' =>
      let! sz := s_size p in
      if nunits <=? sz then malloc_take nunits prevp p
      else
        let! f := gets freep in
        if p =? f then
          let! p := morecore nunits in
          if p =? 0 then ret 0
          else
            let! q := s_ptr p in
            malloc_loop k' nunits p q
        else
          let! q := s_ptr p in
          malloc_loop k' nunits p q
  end.

Definition malloc (nbytes : Z) : M heap Z :=
  let nunits := u32 (nbytes + 7) / 8 + 1 in
  let! f := gets freep in
  do! (if f =? 0 then
         do! set_ptr base base in
         do! modify (set_freep base) in
         set_size base 0
       else ret tt) in
  let! prevp := gets freep in
  let! p := s_ptr prevp in
  let! k := gets hfuel in
  malloc_loop (2 * k + 6) nunits prevp p.

(** ** The specification *)

(** [y] lies after [x], and they do not touch. *)
Definition before (x y : block) : Prop := x.1 + 8 * x.2 < y.1 /\ x.1 + 8 <= y.1.

(** The end of a block; the static header is one header long. *)
Definition bend (x : block) : Z := x.1 + 8 * Z.max 1 x.2.

Definition hd_addr (l : list block) (e : Z) : Z := match l with [] => e | x :: _ => x.1 end.

(** The blocks [l] are linked in memory, the last one to [e]. *)
Fixpoint seg (m : memory) (l : list block) (e : Z) : Prop :=
  match l with
  | [] => True
  | x :: l' => ld32 m x.1 = hd_addr l' e /\ ld32 m (x.1 + 4) = x.2 /\ seg m l' e
  end.

Definition blocks_apart (a s a' s' : Z) : Prop := a + 8 * s <= a' \/ a' + 8 * s' <= a.

(** [L] are the free blocks, [base] first, and [A] the allocated ones. *)
Record heap_ok (h : heap) (L : list block) (A : gmap Z Z) : Prop := {
  ho_base : 0 < base /\ hd_addr L 0 = base /\ forall x, x ∈ L -> if x.1 =? base then x.2 = 0 else 1 <= x.2;
  ho_sorted : StronglySorted before L;
  ho_seg : seg (hmem h) L base;
  ho_brk : hbrk h < 2147483648 /\ Forall (fun x => bend x <= hbrk h) L;
  ho_freep : exists x, x ∈ L /\ freep h = x.1;
  ho_alloc : forall a s, A !! a = Some s -> 1 <= s /\ base + 8 <= a /\ a + 8 * s <= hbrk h /\ ld32 (hmem h) (a + 4) = s;
  ho_apart : forall a s a' s', A !! a = Some s -> A !! a' = Some s' -> a <> a' -> blocks_apart a s a' s';
  ho_free : forall a s x, A !! a = Some s -> x ∈ L -> a + 8 * s <= x.1 \/ bend x <= a;
}.

(** Before the first call of [malloc], too. *)
Definition heap_inv (h : heap) (A : gmap Z Z) : Prop :=
  freep h = 0 /\ A = ∅ /\ 0 < base /\ base + 8 <= hbrk h < 2147483648 \/ exists L, heap_ok h L A.

(** The bytes of the allocated blocks are the same. *)
Definition kept (A : gmap Z Z) (h h' : heap) : Prop :=
  forall a s b, A !! a = Some s -> a <= b < a + 8 * s -> ld8 (hmem h') b = ld8 (hmem h) b.

(** One of the free blocks has [n] headers or more. *)
Definition free_room (h : heap) (A : gmap Z Z) (n : Z) : Prop :=
  exists L, heap_ok h L A /\ Exists (fun x => n <= x.2) L.

(** The free units. *)
Definition units (L : list block) : Z := foldr (fun x n => x.2 + n) 0 L.

End umalloc.

(** * Lemmas *)

(** ** Lists of blocks *)

Lemma hd_addr_app l l' e : hd_addr (l ++ l') e = hd_addr l (hd_addr l' e).
Proof. by destruct l. Qed.

Lemma seg_app m l l' e : seg m (l ++ l') e <-> seg m l (hd_addr l' e) /\ seg m l' e.
Proof.
  induction l as [|x l IH]; cbn [app seg]; [naive_solver|]. rewrite hd_addr_app, IH. naive_solver.
Qed.

(** The headers are where they were. *)
Lemma seg_frame m m' l e :
  (forall x, x ∈ l -> ld32 m' x.1 = ld32 m x.1 /\ ld32 m' (x.1 + 4) = ld32 m (x.1 + 4)) -> seg m l e -> seg m' l e.
Proof.
  induction l as [|x l IH]; intros He; [done|]. cbn [seg]. intros (H1 & H2 & H3). destruct (He x) as [E1 E2]; [apply elem_of_cons; by left|].
  rewrite E1, E2. split; [done|]. split; [done|]. apply IH; [|done]. intros y Hy. apply He. apply elem_of_cons. by right.
Qed.

Lemma hdr_small p n : is_u32 (p + 8 * n) -> hdr p n = p + 8 * n.
Proof. apply u32_small. Qed.

(** The place of an address between the free blocks. *)
Lemma split_at bp L : StronglySorted before L -> (forall x, x ∈ L -> x.1 <> bp) -> L <> [] -> hd_addr L 0 < bp ->
  exists l1 x l2, L = l1 ++ x :: l2 /\ x.1 < bp /\ Forall (fun y => y.1 < bp) l1 /\ Forall (fun y => bp < y.1) l2.
Proof.
  induction L as [|x L IH]; intros Hs Hn Hne Hlt; [done|]. cbn [hd_addr] in Hlt. inversion Hs as [|? ? Hs' Hf]; subst.
  assert (Hn' : forall y, y ∈ L -> y.1 <> bp) by (intros y Hy; apply Hn; apply elem_of_cons; by right).
  destruct L as [|y L]; [by exists [], x, []|]. destruct (Z_lt_ge_dec y.1 bp) as [Hy|Hy].
  - destruct IH as (l1 & z & l2 & E & Hz & H1 & H2); [done..|]. exists (x :: l1), z, l2. rewrite E. split; [done|]. split; [done|].
    split; [by constructor|done].
  - exists [], x, (y :: L). split; [done|]. split; [done|]. split; [constructor|]. specialize (Hn' y ltac:(apply elem_of_cons; by left)).
    constructor; [lia|]. inversion Hs' as [|? ? _ Hf']; subst. eapply Forall_impl; [exact Hf'|]. intros z [_ Hz]. lia.
Qed.

Lemma sorted_length L B : StronglySorted before L -> Forall (fun x => x.1 + 8 <= B) L -> L <> [] ->
  hd_addr L 0 + 8 * Z.of_nat (length L) <= B.
Proof.
  induction L as [|x L IH]; intros Hs Hf Hn; [done|]. inversion Hs as [|? ? Hs' Hb]; subst. apply Forall_cons in Hf as [Hx Hf].
  cbn [hd_addr length]. destruct L as [|y L]; [cbn; lia|]. specialize (IH Hs' Hf ltac:(done)). cbn [hd_addr] in IH.
  apply Forall_cons in Hb as [[_ Hxy] _]. cbn [length] in *. lia.
Qed.

Lemma units_app l l' : units (l ++ l') = units l + units l'.
Proof. unfold units. induction l as [|x l IH]; cbn [app foldr]; lia. Qed.

Section specs.
Context `{SB : Sbrk}.
Variable base : Z.

(** ** Finding the place of a block *)

(** The loop of [free] goes past [p], whose next block is [q]. *)
Definition goes_on (bp p q : Z) : bool := negb ((p <? bp) && (bp <? q)) && negb ((q <=? p) && ((p <? bp) || (bp <? q))).

Fixpoint passes (bp : Z) (l : list block) (e : Z) : Prop :=
  match l with
  | [] => True
  | x :: l' => goes_on bp x.1 (hd_addr l' e) = true /\ passes bp l' e
  end.

Lemma free_find_pass bp e : forall l k h, seg (hmem h) l e -> passes bp l e ->
  free_find (length l + k) bp (hd_addr l e) h = free_find k bp e h.
Proof.
  induction l as [|x l IH]; intros k h Hs Hp; [done|]. destruct Hs as (H1 & _ & Hs). destruct Hp as [Hg Hp].
  cbn [length Nat.add free_find hd_addr]. unfold bind, s_ptr, gets. rewrite H1. unfold goes_on in Hg. apply andb_true_iff in Hg as [G1 G2].
  apply negb_true_iff in G1, G2. rewrite G1, G2. by apply IH.
Qed.

Lemma free_find_stop bp p k h : goes_on bp p (ld32 (hmem h) p) = false -> free_find (S k) bp p h = Ret p h.
Proof.
  unfold goes_on. intros Hg. cbn [free_find]. unfold bind, s_ptr, gets. destruct ((p <? bp) && (bp <? _)); [done|]. cbn [negb andb] in Hg.
  apply negb_false_iff in Hg. by rewrite Hg.
Qed.

Lemma passes_low bp (x : block) l : StronglySorted before (l ++ [x]) -> x.1 < bp -> passes bp l x.1.
Proof.
  intros Hs Hx. induction l as [|y l IH]; [done|]. inversion Hs as [|? ? Hs' Hf]; subst. split; [|by apply IH].
  assert (Hq : y.1 < hd_addr l x.1 <= x.1).
  { destruct l as [|z l]; cbn [hd_addr app] in *; apply Forall_cons in Hf as [[_ Hf] Hf']; [lia|]. split; [lia|].
    inversion Hs' as [|? ? _ Hz]; subst. apply Forall_app in Hz as [_ Hz]. apply Forall_cons in Hz as [[_ Hz] _]. lia. }
  unfold goes_on. rewrite (proj2 (Z.ltb_ge bp _)) by lia. rewrite (proj2 (Z.leb_gt _ y.1)) by lia. by rewrite andb_false_r.
Qed.

Lemma passes_high bp l : StronglySorted before l -> Forall (fun y => bp < y.1) l -> base < bp -> passes bp l base.
Proof.
  intros Hs Hb Hlt. induction l as [|y l IH]; [done|]. inversion Hs as [|? ? Hs' Hf]; subst. apply Forall_cons in Hb as [Hy Hb].
  split; [|by apply IH]. unfold goes_on. rewrite (proj2 (Z.ltb_ge y.1 bp)) by lia. cbn [andb orb negb].
  destruct l as [|z l]; cbn [hd_addr]; [by rewrite (proj2 (Z.ltb_ge bp base)), andb_false_r by lia|].
  apply Forall_cons in Hf as [[_ Hf] _]. by rewrite (proj2 (Z.leb_gt _ y.1)) by lia.
Qed.

Lemma goes_on_here bp (x : block) l2 : x.1 < bp -> base <= x.1 -> Forall (fun y => bp < y.1) l2 -> goes_on bp x.1 (hd_addr l2 base) = false.
Proof.
  intros Hx Hb Hl. unfold goes_on. rewrite (proj2 (Z.ltb_lt _ _) Hx). cbn [andb orb]. destruct l2 as [|y l2]; cbn [hd_addr].
  - rewrite (proj2 (Z.leb_le _ _) Hb), andb_false_r. done.
  - apply Forall_cons in Hl as [Hy _]. rewrite (proj2 (Z.ltb_lt _ _) Hy). done.
Qed.

Lemma fuel_split {A} (l : list A) n : (length l <= n)%nat -> exists k, n = (length l + k)%nat.
Proof. intros H. exists (n - length l)%nat. lia. Qed.

(** From any block of the list, the loop ends at the one before [bp]. *)
Lemma free_find_spec bp h l1 (x : block) l2 (z : block) : seg (hmem h) (l1 ++ x :: l2) base -> StronglySorted before (l1 ++ x :: l2) ->
  hd_addr (l1 ++ x :: l2) 0 = base -> x.1 < bp -> Forall (fun y => bp < y.1) l2 -> z ∈ l1 ++ x :: l2 -> base < bp ->
  forall k, (length (l1 ++ x :: l2) < k)%nat -> free_find k bp z.1 h = Ret x.1 h.
Proof.
  intros Hs Hso Hb Hx Hl2 Hz Hlt k Hk. apply seg_app in Hs as [Hs1 Hs2]. cbn [hd_addr] in Hs1.
  rewrite cons_middle, app_assoc in Hso. apply StronglySorted_app in Hso as (Hc & Hso1 & Hso2). pose proof (passes_low bp x l1 Hso1 Hx) as P1.
  pose proof (passes_high bp l2 Hso2 Hl2 Hlt) as P2. rewrite length_app in Hk. cbn [length] in Hk.
  assert (Hbx : base <= x.1).
  { destruct l1 as [|y l1]; cbn [app hd_addr] in Hb; [lia|]. inversion Hso1 as [|? ? _ Hf]; subst. apply Forall_app in Hf as [_ Hf].
    apply Forall_cons in Hf as [[_ Hf] _]. lia. }
  assert (Hstop : forall j, free_find (S j) bp x.1 h = Ret x.1 h).
  { intros j. apply free_find_stop. destruct Hs2 as (-> & _). by apply goes_on_here. }
  assert (Hseg : forall c1 c2 e, seg (hmem h) (c1 ++ z :: c2) e -> passes bp (c1 ++ z :: c2) e ->
      forall j, free_find (length (z :: c2) + j) bp z.1 h = free_find j bp e h).
  { intros c1 c2 e Hsc Hpc j. apply seg_app in Hsc as [_ Hsc]. apply (free_find_pass bp e (z :: c2)); [done|].
    clear -Hpc. induction c1 as [|y c1 IH]; [done|]. destruct Hpc as [_ Hpc]. by apply IH. }
  apply elem_of_app in Hz as [Hz|[->|Hz]%elem_of_cons].
  - apply list_elem_of_split in Hz as (c1 & c2 & ->). rewrite length_app in Hk. destruct (fuel_split (z :: c2) k) as [j Hj]; [cbn [length] in *; lia|].
    rewrite Hj, (Hseg c1 c2 x.1) by done. cbn [length] in *. destruct j; [lia|]. apply Hstop.
  - destruct k; [lia|]. apply Hstop.
  - destruct Hs2 as (_ & _ & Hs2). apply list_elem_of_split in Hz as (c1 & c2 & ->). rewrite length_app in Hk.
    destruct (fuel_split (z :: c2) k) as [j Hj]; [cbn [length] in *; lia|]. rewrite Hj, (Hseg c1 c2 base) by done.
    destruct (fuel_split l1 j) as [i Hi]; [cbn [length] in *; lia|]. rewrite Hi. rewrite <- Hb, hd_addr_app. cbn [hd_addr].
    rewrite (free_find_pass bp x.1 l1) by done. cbn [length] in *. destruct i; [lia|]. apply Hstop.
Qed.

(** ** The blocks of a heap *)

Lemma ho_in h L A x : heap_ok base h L A -> x ∈ L ->
  0 < base <= x.1 /\ 0 <= x.2 /\ x.1 + 8 <= hbrk h /\ x.1 + 8 * x.2 <= hbrk h /\ hbrk h < 2147483648 /\ (x.1 <> base -> base + 8 <= x.1 /\ 1 <= x.2).
Proof.
  intros H Hx. destruct (ho_base _ _ _ _ H) as (Hb & Hh & Hs). destruct (ho_brk _ _ _ _ H) as [Hk Hf].
  rewrite Forall_forall in Hf. specialize (Hf x Hx). unfold bend in Hf. specialize (Hs x Hx).
  assert (Hge : x.1 = base \/ base + 8 <= x.1).
  { pose proof (ho_sorted _ _ _ _ H) as Hso. destruct L as [|y L]; [by apply elem_of_nil in Hx|]. cbn [hd_addr] in Hh.
    apply elem_of_cons in Hx as [->|Hx]; [by left|]. inversion Hso as [|? ? _ Hfo]; subst. rewrite Forall_forall in Hfo.
    destruct (Hfo x Hx). right. lia. }
  destruct (Z.eqb_spec x.1 base); lia.
Qed.

Lemma ho_length h L A : heap_ok base h L A -> (length L <= hfuel base h)%nat.
Proof.
  intros H. destruct (ho_base _ _ _ _ H) as (Hb & Hh & _). assert (Hn : L <> []) by (intros ->; cbn in Hh; lia).
  pose proof (sorted_length L (hbrk h) (ho_sorted _ _ _ _ H)) as Hl. rewrite Hh in Hl. unfold hfuel.
  assert (base + 8 * Z.of_nat (length L) <= hbrk h); [|dlia]. apply Hl; [|done]. apply Forall_forall. intros x Hx.
  destruct (ho_in h L A x H Hx). lia.
Qed.

(** ** free *)

(** The freed block is joined with the next one, if they touch. *)
Definition joined_next (bp s : Z) (l2 : list block) (bs' : Z) (tail : list block) : Prop :=
  (tail = l2 /\ bs' = s /\ bp + 8 * s <> hd_addr l2 base) \/ (exists qs, l2 = (bp + 8 * s, qs) :: tail /\ bs' = s + qs).

Lemma free_next bp s l2 h : 0 < base < bp -> 1 <= s -> bp + 8 * s < 2147483648 -> ld32 (hmem h) (bp + 4) = s -> seg (hmem h) l2 base ->
  Forall (fun y => bp + 8 * s <= y.1 /\ 1 <= y.2 /\ y.1 + 8 * y.2 < 2147483648) l2 ->
  wp (if hdr bp s =? hd_addr l2 base then
         let! qs := s_size (hd_addr l2 base) in
         do! set_size bp (u32 (s + qs)) in
         let! qn := s_ptr (hd_addr l2 base) in
         set_ptr bp qn
       else set_ptr bp (hd_addr l2 base))
    (fun _ h1 => exists m1 bs' tail, h1 = set_hmem m1 h /\ apart (hmem h) bp (bp + 8) m1 /\ ld32 m1 bp = hd_addr tail base /\
       ld32 m1 (bp + 4) = bs' /\ joined_next bp s l2 bs' tail) h.
Proof.
  intros Hb Hs Hbs Hsz Hseg Hl. rewrite hdr_small by (unfold is_u32; lia).
  assert (Hu : is_u32 (hd_addr l2 base)).
  { destruct l2 as [|y l2]; cbn [hd_addr]; [unfold is_u32; lia|]. apply Forall_cons in Hl as [Hy _]. unfold is_u32. lia. }
  destruct (Z.eqb_spec (bp + 8 * s) (hd_addr l2 base)) as [He|He].
  - destruct l2 as [|[q qs] l2]; cbn [hd_addr] in *; [lia|]. cbn [fst] in *. subst q. destruct Hseg as (H1 & H2 & Hseg). cbn [fst snd] in *.
    apply Forall_cons in Hl as [Hq Hl]. cbn [fst snd] in Hq.
    wp_step. apply wpx_gets. wp_step. apply wpx_modify. wp_step. apply wpx_gets. apply wpx_modify. cbn [hmem set_hmem].
    rewrite H2, (u32_small (s + qs)) by (unfold is_u32; lia). set (m' := st32 (hmem h) (bp + 4) (s + qs)).
    assert (A1 : apart (hmem h) bp (bp + 8) m') by (intros y Hy; apply ld8_st32_ne; lia).
    rewrite (ld32_apart _ _ _ _ (bp + 8 * s) A1), H1 by lia.
    assert (Hu2 : is_u32 (hd_addr l2 base)).
    { destruct l2 as [|y l2]; cbn [hd_addr]; [unfold is_u32; lia|]. apply Forall_cons in Hl as [Hy _]. unfold is_u32. lia. }
    exists (st32 m' bp (hd_addr l2 base)), (s + qs), l2. split; [done|]. split; [|split; [|split]].
    + eapply apart_trans; [exact A1|apply (apart_st32 _ bp _ (bp + 8)); lia|lia..].
    + by apply ld32_st32_eq.
    + rewrite ld32_st32_ne by lia. apply ld32_st32_eq. unfold is_u32. lia.
    + right. by exists qs.
  - apply wpx_modify. exists (st32 (hmem h) bp (hd_addr l2 base)), s, l2. split; [done|]. split; [apply apart_st32; lia|].
    split; [by apply ld32_st32_eq|]. split; [|by left]. rewrite ld32_st32_ne by lia. done.
Qed.

(** And with the one before. *)
Definition joined_prev (x : block) (bp bs' : Z) (mid : list block) : Prop :=
  (x.1 + 8 * x.2 = bp /\ mid = [(x.1, x.2 + bs')]) \/ (x.1 + 8 * x.2 < bp /\ mid = [x; (bp, bs')]).

Lemma free_prev x bp bs' e h : 0 <= x.1 -> x.1 + 8 <= bp -> 0 <= x.2 -> x.1 + 8 * x.2 <= bp -> 1 <= bs' -> bp + 8 * bs' < 2147483648 -> is_u32 e ->
  ld32 (hmem h) (x.1 + 4) = x.2 -> ld32 (hmem h) bp = e -> ld32 (hmem h) (bp + 4) = bs' ->
  wp (if hdr x.1 x.2 =? bp then
         let! bs := s_size bp in
         do! set_size x.1 (u32 (x.2 + bs)) in
         let! bn := s_ptr bp in
         set_ptr x.1 bn
       else set_ptr x.1 bp)
    (fun _ h1 => exists m1 mid, h1 = set_hmem m1 h /\ apart (hmem h) x.1 (x.1 + 8) m1 /\ joined_prev x bp bs' mid /\ seg m1 mid e) h.
Proof.
  intros H0 H8 Hn Hle Hbs Hlt He Hx Hp Hs. rewrite hdr_small by (unfold is_u32; lia). destruct (Z.eqb_spec (x.1 + 8 * x.2) bp) as [Hj|Hj].
  - wp_step. apply wpx_gets. wp_step. apply wpx_modify. wp_step. apply wpx_gets. apply wpx_modify. cbn [hmem set_hmem].
    rewrite Hs, (u32_small (x.2 + bs')) by (unfold is_u32; lia). rewrite (ld32_st32_ne _ _ bp), Hp by lia.
    eexists _, [(x.1, x.2 + bs')]. split; [done|]. split; [|split; [by left|]].
    + intros y Hy. rewrite !ld8_st32_ne by lia. done.
    + cbn [seg fst snd hd_addr]. rewrite ld32_st32_eq by done. rewrite ld32_st32_ne by lia. rewrite ld32_st32_eq by (unfold is_u32; lia). done.
  - apply wpx_modify. eexists _, [x; (bp, bs')]. split; [done|]. split; [apply apart_st32; lia|]. split; [right; split; [lia|done]|].
    cbn [seg fst snd hd_addr]. rewrite ld32_st32_eq by (unfold is_u32; lia). rewrite !ld32_st32_ne by lia. rewrite Hx, Hp, Hs. done.
Qed.

(** What is known of the place of a freed block. *)
Record place (l1 : list block) (x : block) (l2 : list block) (bp s : Z) : Prop := {
  pl_size : 1 <= s;
  pl_base : 0 < base /\ base + 8 <= bp;
  pl_prev : base <= x.1 /\ 0 <= x.2 /\ bend x <= bp;
  pl_next : Forall (fun y => bp + 8 * s <= y.1 /\ 1 <= y.2) l2;
  pl_sorted : StronglySorted before (l1 ++ x :: l2);
}.

Lemma joined_sorted l1 x l2 bp s bs' tail mid : place l1 x l2 bp s -> joined_next bp s l2 bs' tail -> joined_prev x bp bs' mid ->
  StronglySorted before (l1 ++ mid ++ tail).
Proof.
  intros [P1 P2 P3 P4 P5] Hn Hp. unfold bend in P3. apply StronglySorted_app in P5 as (C & S1 & S2). inversion S2 as [|? ? S2' Fx]; subst.
  rewrite Forall_forall in Fx, P4.
  assert (Ht : StronglySorted before tail /\ 1 <= bs' /\ forall z, z ∈ tail -> z ∈ l2 /\ bp + 8 * bs' < z.1).
  { destruct Hn as [(-> & -> & Hne)|(qs & -> & ->)].
    - split; [done|]. split; [lia|]. intros z Hz. split; [done|]. destruct l2 as [|y l2]; [by apply elem_of_nil in Hz|]. cbn [hd_addr] in Hne.
      destruct (P4 y); [apply elem_of_cons; by left|]. apply elem_of_cons in Hz as [->|Hz]; [lia|].
      inversion S2' as [|? ? _ Fy]; subst. rewrite Forall_forall in Fy. destruct (Fy z Hz). lia.
    - inversion S2' as [|? ? S3 Fy]; subst. rewrite Forall_forall in Fy. destruct (P4 (bp + 8 * s, qs)) as [_ Hq]; [apply elem_of_cons; by left|].
      cbn [snd] in Hq. split; [done|]. split; [lia|]. intros z Hz. split; [apply elem_of_cons; by right|]. destruct (Fy z Hz) as [Hz1 _]. cbn [fst snd] in Hz1. lia. }
  destruct Ht as (St & Hbs & Ht). apply StronglySorted_app. split; [|split; [done|]].
  - intros y z Hy Hz. destruct (C y x Hy) as [Y1 Y2]; [apply elem_of_cons; by left|]. apply elem_of_app in Hz as [Hz|Hz].
    + destruct Hp as [(Hj & ->)|(Hj & ->)]; rewrite ?elem_of_cons, ?elem_of_nil in Hz; unfold before; naive_solver lia.
    + apply C; [done|]. apply elem_of_cons. right. by apply Ht.
  - destruct Hp as [(Hj & ->)|(Hj & ->)]; cbn [app].
    + constructor; [done|]. apply Forall_forall. intros z Hz. destruct (Ht z Hz). unfold before. cbn [fst snd]. lia.
    + constructor; [constructor; [done|]|].
      * apply Forall_forall. intros z Hz. destruct (Ht z Hz). unfold before. cbn [fst snd]. lia.
      * constructor; [unfold before; cbn [fst snd]; lia|]. apply Forall_forall. intros z Hz. apply Fx. by apply Ht.
Qed.

(** A block that contains the freed one, joined or not. *)
Definition grown (x : block) (l2 : list block) (bp s : Z) (y : block) : Prop :=
  (y.1 = bp \/ y.1 = x.1 /\ x.1 + 8 * x.2 = bp) /\ 1 <= y.2 /\
  (y.1 + 8 * y.2 = bp + 8 * s \/ exists q, q ∈ l2 /\ q.1 = bp + 8 * s /\ y.1 + 8 * y.2 = q.1 + 8 * q.2).

Lemma joined_blocks l1 x l2 bp s bs' tail mid y : place l1 x l2 bp s -> joined_next bp s l2 bs' tail -> joined_prev x bp bs' mid ->
  y ∈ l1 ++ mid ++ tail -> y ∈ l1 ++ x :: l2 \/ grown x l2 bp s y.
Proof.
  intros [P1 P2 P3 P4 P5] Hn Hp Hy. rewrite Forall_forall in P4. apply elem_of_app in Hy as [Hy|Hy]; [left; set_solver|].
  apply elem_of_app in Hy as [Hy|Hy].
  - assert (Hb : 1 <= bs' /\ (bp + 8 * bs' = bp + 8 * s \/ exists q, q ∈ l2 /\ q.1 = bp + 8 * s /\ bp + 8 * bs' = q.1 + 8 * q.2)).
    { destruct Hn as [(-> & -> & _)|(qs & -> & ->)]; [by split; [lia|left]|]. destruct (P4 (bp + 8 * s, qs)) as [_ Hq]; [apply elem_of_cons; by left|].
      cbn [snd] in Hq. split; [lia|]. right. exists (bp + 8 * s, qs). split; [apply elem_of_cons; by left|]. cbn [fst snd]. lia. }
    destruct Hb as [Hb1 Hb2]. destruct Hp as [(Hj & ->)|(Hj & ->)].
    + apply elem_of_cons in Hy as [->|Hy]; [|by apply elem_of_nil in Hy]. right. unfold grown. cbn [fst snd]. split; [by right|]. split; [lia|].
      replace (x.1 + 8 * (x.2 + bs')) with (bp + 8 * bs') by lia. done.
    + apply elem_of_cons in Hy as [->|Hy]; [left; set_solver|]. apply elem_of_cons in Hy as [->|Hy]; [|by apply elem_of_nil in Hy].
      right. unfold grown. cbn [fst snd]. split; [by left|]. done.
  - left. destruct Hn as [(-> & _)|(qs & -> & _)]; set_solver.
Qed.

Lemma joined_units l1 x l2 bp s bs' tail mid : joined_next bp s l2 bs' tail -> joined_prev x bp bs' mid ->
  units (l1 ++ mid ++ tail) = units (l1 ++ x :: l2) + s.
Proof.
  intros Hn Hp. rewrite !units_app. assert (units mid = x.2 + bs') by (destruct Hp as [(_ & ->)|(_ & ->)]; unfold units; cbn; lia).
  assert (units tail + bs' = units l2 + s) by (destruct Hn as [(-> & -> & _)|(qs & -> & ->)]; unfold units; cbn [foldr snd]; lia).
  unfold units in *. cbn [foldr]. lia.
Qed.

Lemma ho_place h L A bp s : heap_ok base h L A -> A !! bp = Some s -> exists l1 x l2, L = l1 ++ x :: l2 /\ place l1 x l2 bp s.
Proof.
  intros H Hbp. destruct (ho_alloc _ _ _ _ H _ _ Hbp) as (Hs & Hlo & Hhi & _). destruct (ho_base _ _ _ _ H) as (Hb & Hh & _).
  assert (Hd : forall x, x ∈ L -> bp + 8 * s <= x.1 \/ bend x <= bp) by (intros x Hx; by eapply ho_free).
  destruct (split_at bp L) as (l1 & x & l2 & -> & Hx & _ & Hl2).
  - by eapply ho_sorted.
  - intros x Hx. destruct (Hd x Hx) as [?|Hd']; [lia|]. unfold bend in Hd'. lia.
  - intros ->. cbn in Hh. lia.
  - lia.
  - exists l1, x, l2. split; [done|]. rewrite Forall_forall in Hl2. split; try done.
    + destruct (ho_in h _ A x H) as (H1 & H2 & _); [set_solver|]. destruct (Hd x); [set_solver|lia|lia].
    + apply Forall_forall. intros y Hy. specialize (Hl2 y Hy). destruct (ho_in h _ A y H) as (H1 & H2 & _ & _ & _ & H3); [set_solver|].
      destruct (Hd y) as [?|Hd']; [set_solver|lia|]. unfold bend in Hd'. lia.
    + by eapply ho_sorted.
Qed.

Lemma joined_length l1 x l2 bp s bs' tail mid : joined_next bp s l2 bs' tail -> joined_prev x bp bs' mid ->
  (length (l1 ++ mid ++ tail) <= S (length (l1 ++ x :: l2)))%nat.
Proof.
  intros Hn Hp. rewrite !length_app. assert (length mid <= 2)%nat by (destruct Hp as [(_ & ->)|(_ & ->)]; cbn; lia).
  assert (length tail <= length l2)%nat by (destruct Hn as [(-> & _)|(qs & -> & _)]; cbn [length]; lia). cbn [length]. lia.
Qed.

(** ** The heap after the joined blocks were written *)

Section joined.
Variables (h : heap) (A : gmap Z Z) (l1 : list block) (x : block) (l2 : list block) (bp s bs' : Z) (tail mid : list block) (m' : memory).
Hypothesis H : heap_ok base h (l1 ++ x :: l2) A.
Hypothesis Hbp : A !! bp = Some s.
Hypothesis P : place l1 x l2 bp s.
Hypothesis Hn : joined_next bp s l2 bs' tail.
Hypothesis Hp : joined_prev x bp bs' mid.
Hypothesis Hm : seg m' mid (hd_addr tail base).
(** Only the two headers change. *)
Hypothesis Ha : forall b, ~ (bp <= b < bp + 8) -> ~ (x.1 <= b < x.1 + 8) -> ld8 m' b = ld8 (hmem h) b.

Let h' : heap := set_freep x.1 (set_hmem m' h).

Lemma joined_x : x ∈ l1 ++ x :: l2.
Proof. set_solver. Qed.

Lemma joined_kept : kept (delete bp A) h h'.
Proof.
  intros a s' b Has Hb'. apply lookup_delete_Some in Has as [Hne Has]. cbn.
  destruct (ho_in h _ A x H joined_x) as (X1 & X2 & _). pose proof (pl_size _ _ _ _ _ P).
  destruct (ho_apart _ _ _ _ H _ _ _ _ Has Hbp ltac:(done)); destruct (ho_free _ _ _ _ H _ _ x Has joined_x) as [?|Hd]; unfold bend in *; apply Ha; lia.
Qed.

Lemma joined_seg : seg m' (l1 ++ mid ++ tail) base.
Proof.
  pose proof P as [P1 P2 P3 P4 P5]. unfold bend in P3. rewrite Forall_forall in P4. apply StronglySorted_app in P5 as (C & S1 & S2).
  assert (Hw : forall a, a + 4 <= bp \/ bp + 8 <= a -> a + 4 <= x.1 \/ x.1 + 8 <= a -> ld32 m' a = ld32 (hmem h) a).
  { intros a H1 H2. apply ld32_ext. intros b Hb'. apply Ha; lia. }
  pose proof (ho_seg _ _ _ _ H) as Hseg. apply seg_app in Hseg as [G1 G2]. cbn [hd_addr] in G1. rewrite !seg_app. split; [|split; [done|]].
  - rewrite hd_addr_app. replace (hd_addr mid _) with x.1 by (by destruct Hp as [(_ & ->)|(_ & ->)]). eapply seg_frame; [|exact G1].
    intros y Hy. destruct (C y x Hy) as [_ Hyx]; [set_solver|]. split; apply Hw; lia.
  - destruct G2 as (_ & _ & G2). assert (Gt : seg (hmem h) tail base) by (destruct Hn as [(-> & _)|(qs & -> & _)]; [done|by apply G2]).
    eapply seg_frame; [|exact Gt]. intros y Hy.
    assert (bp + 8 * s <= y.1) by (apply P4; destruct Hn as [(-> & _)|(qs & -> & _)]; set_solver). split; apply Hw; lia.
Qed.

(** Blocks that contain the freed one stay inside the heap and apart from the
    allocated blocks. *)
Lemma joined_grown y : grown x l2 bp s y ->
  base + 8 <= y.1 /\ 1 <= y.2 /\ bend y <= hbrk h /\ forall a s', a <> bp -> A !! a = Some s' -> a + 8 * s' <= y.1 \/ bend y <= a.
Proof.
  intros (Hy1 & Hy2 & Hy3). pose proof P as [P1 P2 P3 P4 P5]. unfold bend in P3. rewrite Forall_forall in P4.
  destruct (ho_alloc _ _ _ _ H _ _ Hbp) as (_ & _ & Hhi & _). destruct (ho_in h _ A x H joined_x) as (X1 & X2 & X3 & X4 & X5 & X6).
  destruct (ho_base _ _ _ _ H) as (Hb & _ & Hsz). specialize (Hsz x joined_x).
  split; [destruct Hy1 as [Hy1|[Hy1 Hj]]; [lia|]; destruct (Z.eqb_spec x.1 base); lia|]. split; [done|]. split.
  - destruct Hy3 as [He|(q & Hq & Hq1 & He)]; [unfold bend; lia|]. destruct (ho_in h _ A q H) as (_ & _ & _ & Q4 & _); [set_solver|]. unfold bend. lia.
  - intros a s' Hne Has. pose proof (ho_alloc _ _ _ _ H _ _ Has) as (A1 & _). pose proof (ho_apart _ _ _ _ H _ _ _ _ Has Hbp Hne) as D1.
    unfold blocks_apart in D1. pose proof (ho_free _ _ _ _ H _ _ x Has joined_x) as D2. unfold bend in *. destruct Hy3 as [He|(q & Hq & Hq1 & He)]; [lia|].
    pose proof (ho_free _ _ _ _ H _ _ q Has ltac:(set_solver)) as D3. destruct (P4 q Hq). unfold bend in D3. lia.
Qed.

Lemma joined_heap : heap_ok base h' (l1 ++ mid ++ tail) (delete bp A).
Proof.
  destruct (ho_base _ _ _ _ H) as (Hb & Hh & Hsz). destruct (ho_brk _ _ _ _ H) as [Hk Hf].
  assert (F : forall y, y ∈ l1 ++ mid ++ tail -> y ∈ l1 ++ x :: l2 \/ grown x l2 bp s y) by (intros y; exact (joined_blocks l1 x l2 bp s bs' tail mid y P Hn Hp)).
  split; cbn [hmem hbrk freep h' set_freep set_hmem].
  - split; [done|]. split.
    + destruct l1 as [|z l1']; [|done]. cbn [app hd_addr] in Hh |- *. by destruct Hp as [(_ & ->)|(_ & ->)].
    + intros y Hy. destruct (F y Hy) as [Hy'|Hy']; [by apply Hsz|]. destruct (joined_grown y Hy') as (G1 & G2 & _).
      by rewrite (proj2 (Z.eqb_neq _ _)) by lia.
  - by eapply joined_sorted.
  - apply joined_seg.
  - split; [done|]. rewrite Forall_forall in Hf. apply Forall_forall. intros y Hy. destruct (F y Hy) as [Hy'|Hy']; [by apply Hf|by apply joined_grown].
  - destruct Hp as [(_ & ->)|(_ & ->)]; eexists; (split; [apply elem_of_app; right; apply elem_of_app; left; apply elem_of_cons; by left|done]).
  - intros a s' Has. pose proof Has as Has'. apply lookup_delete_Some in Has as [Hne Has]. destruct (ho_alloc _ _ _ _ H _ _ Has) as (A1 & A2 & A3 & A4).
    do 3 (split; [done|]). rewrite <- A4. apply ld32_ext. intros b Hb'. apply (joined_kept a s' b Has'). lia.
  - intros a s1 a' s2 H1 H2. apply lookup_delete_Some in H1 as [_ H1]. apply lookup_delete_Some in H2 as [_ H2]. by eapply ho_apart.
  - intros a s' y Has Hy. apply lookup_delete_Some in Has as [Hne Has]. destruct (F y Hy) as [Hy'|Hy']; [by eapply ho_free|].
    destruct (joined_grown y Hy') as (_ & _ & _ & G). by apply G.
Qed.

End joined.

(** A freed block becomes free, and the other blocks keep their contents. *)
Lemma free_spec h L A bp s : heap_ok base h L A -> A !! bp = Some s ->
  wp (free base (bp + 8)) (fun _ h' => exists L', heap_ok base h' L' (delete bp A) /\ kept (delete bp A) h h' /\
    units L' = units L + s /\ hbrk h' = hbrk h /\ (length L' <= S (length L))%nat /\ exists y, y ∈ L' /\ s <= y.2) h.
Proof.
  intros H Hbp. destruct (ho_place h L A bp s H Hbp) as (l1 & x & l2 & -> & P). pose proof P as [P1 P2 P3 P4 P5]. unfold bend in P3.
  destruct (ho_alloc _ _ _ _ H _ _ Hbp) as (_ & _ & Hhi & Hsz). destruct (ho_brk _ _ _ _ H) as [Hk _]. destruct (ho_freep _ _ _ _ H) as (z & Hz & Ef).
  pose proof (ho_length _ _ _ H) as Hlen. pose proof (ho_seg _ _ _ _ H) as Hseg. destruct (ho_base _ _ _ _ H) as (_ & Hh & _).
  unfold free. rewrite hdr_small by (unfold is_u32; lia). replace (bp + 8 + 8 * -1) with bp by lia.
  wp_step. apply wpx_gets. wp_step. apply wpx_gets. wp_step. unfold wpx at 1. rewrite Ef, (free_find_spec bp h l1 x l2 z); try done; try lia.
  2:{ rewrite Forall_forall in P4. apply Forall_forall. intros y Hy. destruct (P4 y Hy). lia. }
  apply seg_app in Hseg as [_ Hseg]. destruct Hseg as (Q1 & Q2 & Hseg). wp_step. apply wpx_gets. rewrite Q1. wp_step. apply wpx_gets. rewrite Hsz.
  wp_step. wp_use (free_next bp s l2 h ltac:(lia) P1 ltac:(lia) Hsz Hseg).
  { rewrite Forall_forall in P4. apply Forall_forall. intros y Hy. destruct (P4 y Hy). destruct (ho_in h _ A y H); [set_solver|]. lia. }
  intros [] h1 (m1 & bs' & tail & -> & A1 & N1 & N2 & Hn).
  assert (Hb : 1 <= bs' /\ bp + 8 * bs' < 2147483648 /\ is_u32 (hd_addr tail base)).
  { rewrite Forall_forall in P4. assert (Hu : forall l, (forall y, y ∈ l -> y ∈ l2) -> is_u32 (hd_addr l base)).
    { intros [|y l] Hl; cbn [hd_addr]; [unfold is_u32; lia|]. destruct (ho_in h _ A y H); [set_solver|]. unfold is_u32. lia. }
    destruct Hn as [(-> & -> & _)|(qs & -> & ->)]; [split; [lia|]; split; [lia|by apply Hu]|].
    destruct (P4 (bp + 8 * s, qs)) as [_ Hq]; [set_solver|]. destruct (ho_in h _ A (bp + 8 * s, qs) H) as (_ & _ & _ & Hq2 & _); [set_solver|].
    cbn [fst snd] in *. split; [lia|]. split; [lia|]. apply Hu. set_solver. }
  destruct Hb as (Hb1 & Hb2 & Hb3). wp_step. apply wpx_gets. cbn [hmem set_hmem]. rewrite (ld32_apart _ _ _ _ (x.1 + 4) A1), Q2 by lia.
  wp_step. wp_use (free_prev x bp bs' (hd_addr tail base) (set_hmem m1 h)); [lia|lia|lia|lia|done|done|done|cbn; rewrite (ld32_apart _ _ _ _ (x.1 + 4) A1) by lia; done|done|done|].
  intros [] h2 (m2 & mid & -> & A2 & Hp & Hm). apply wpx_modify. cbn [hmem set_hmem] in A2.
  change (set_hmem m2 (set_hmem m1 h)) with (set_hmem m2 h).
  assert (Ha : forall b, ~ (bp <= b < bp + 8) -> ~ (x.1 <= b < x.1 + 8) -> ld8 m2 b = ld8 (hmem h) b) by (intros b B1 B2; rewrite A2, A1 by lia; done).
  exists (l1 ++ mid ++ tail). split; [exact (joined_heap h A l1 x l2 bp s bs' tail mid m2 H Hbp P Hn Hp Hm Ha)|].
  split; [eapply joined_kept; eassumption|]. split; [by eapply joined_units|]. split; [done|]. split; [by eapply joined_length|].
  assert (s <= bs') by (destruct Hn as [(_ & -> & _)|(qs & -> & ->)]; [lia|]; rewrite Forall_forall in P4; destruct (P4 (bp + 8 * s, qs)) as [_ Hq]; [set_solver|cbn [snd] in Hq; lia]).
  destruct Hp as [(_ & ->)|(_ & ->)]; [exists (x.1, x.2 + bs')|exists (bp, bs')]; (split; [set_solver|cbn; lia]).
Qed.

(** ** malloc *)

(** The block before another one in the list, its size changed or itself
    removed: what [malloc_take] makes of the list. *)
Definition taken_list (l1 : list block) (y : block) (l2 : list block) (n : Z) : list block :=
  if y.2 =? n then l1 ++ l2 else l1 ++ (y.1, y.2 - n) :: l2.

Section take.
Variables (h : heap) (A : gmap Z Z) (l1 : list block) (z y : block) (l2 : list block) (n : Z).
Hypothesis H : heap_ok base h ((l1 ++ [z]) ++ y :: l2) A.
Hypothesis Hn : 1 <= n <= y.2.

Lemma take_y : y ∈ (l1 ++ [z]) ++ y :: l2.
Proof. set_solver. Qed.

Lemma take_z : z ∈ (l1 ++ [z]) ++ y :: l2.
Proof. set_solver. Qed.

(** The blocks of the new list are old ones, or the first part of [y]. *)
Lemma taken_in x : x ∈ taken_list (l1 ++ [z]) y l2 n -> x ∈ (l1 ++ [z]) ++ y :: l2 /\ (x.1 + 8 * x.2 <= y.1 \/ y.1 + 8 * y.2 <= x.1) \/
  x = (y.1, y.2 - n) /\ n < y.2.
Proof.
  assert (Hs : forall w, w ∈ (l1 ++ [z]) ++ l2 -> w ∈ (l1 ++ [z]) ++ y :: l2 /\ (w.1 + 8 * w.2 <= y.1 \/ y.1 + 8 * y.2 <= w.1)).
  { intros w Hw. split; [set_solver|]. pose proof (ho_sorted _ _ _ _ H) as S. apply StronglySorted_app in S as (C & _ & S2).
    apply elem_of_app in Hw as [Hw|Hw]; [destruct (C w y Hw); [set_solver|lia]|]. inversion S2 as [|? ? _ F]; subst.
    rewrite Forall_forall in F. destruct (F w Hw). lia. }
  unfold taken_list. destruct (Z.eqb_spec y.2 n); intros Hx; [left; by apply Hs|].
  apply elem_of_app in Hx as [Hx|[->|Hx]%elem_of_cons]; [left; apply Hs; set_solver| |left; apply Hs; set_solver]. right. split; [done|lia].
Qed.

Lemma taken_sorted : StronglySorted before (taken_list (l1 ++ [z]) y l2 n).
Proof.
  pose proof (ho_sorted _ _ _ _ H) as S. apply StronglySorted_app in S as (C & S1 & S2). inversion S2 as [|? ? S2' F]; subst.
  rewrite Forall_forall in F. unfold taken_list. destruct (Z.eqb_spec y.2 n).
  - apply StronglySorted_app. split; [|done]. intros a b Ha Hb. apply C; set_solver.
  - apply StronglySorted_app. split; [|split; [done|]].
    + intros a b Ha [->|Hb]%elem_of_cons; [|apply C; set_solver]. destruct (C a y Ha) as [C1 C2]; [set_solver|]. done.
    + constructor; [done|]. apply Forall_forall. intros b Hb. destruct (F b Hb). split; cbn [fst snd]; lia.
Qed.

Definition taken_addr : Z := y.1 + 8 * (y.2 - n).

(** The memory after [y], or its last part, was taken. *)
Hypothesis Hyb : y.1 <> base.
Variable m' : memory.
Hypothesis Hseg : seg m' (taken_list (l1 ++ [z]) y l2 n) base.
Hypothesis Hsize : ld32 m' (taken_addr + 4) = n.
Hypothesis Ha : forall b, ~ (z.1 <= b < z.1 + 8) -> ~ (y.1 <= b < y.1 + 8 * y.2) -> ld8 m' b = ld8 (hmem h) b.

Let h' : heap := set_freep z.1 (set_hmem m' h).

Lemma taken_kept : kept A h h'.
Proof.
  intros a s b Has Hb. cbn. pose proof (ho_alloc _ _ _ _ H _ _ Has). pose proof (ho_free _ _ _ _ H _ _ y Has take_y) as D1.
  pose proof (ho_free _ _ _ _ H _ _ z Has take_z) as D2. unfold bend in *. apply Ha; lia.
Qed.

Lemma carved_fresh : A !! taken_addr = None.
Proof.
  destruct (A !! taken_addr) as [s|] eqn:E; [|done]. exfalso. pose proof (ho_alloc _ _ _ _ H _ _ E) as (S1 & _).
  pose proof (ho_free _ _ _ _ H _ _ y E take_y) as D1. unfold bend, taken_addr in *. lia.
Qed.

Lemma taken_heap : heap_ok base h' (taken_list (l1 ++ [z]) y l2 n) (<[taken_addr := n]> A).
Proof.
  destruct (ho_base _ _ _ _ H) as (Hb & Hh & Hsz). destruct (ho_brk _ _ _ _ H) as [Hk Hf]. rewrite Forall_forall in Hf.
  destruct (ho_in h _ A y H take_y) as (Y1 & Y2 & Y3 & Y4 & Y5 & Y6). destruct (Y6 Hyb) as [Y7 Y8].
  split; cbn [hmem hbrk freep h' set_freep set_hmem].
  - split; [done|]. split; [|intros x Hx; destruct (taken_in x Hx) as [[Hx' _]|[-> Hlt]]; [by apply Hsz|cbn [fst snd]; by rewrite (proj2 (Z.eqb_neq _ _) Hyb) by lia; lia]].
    rewrite hd_addr_app in Hh. unfold taken_list. destruct (y.2 =? n); rewrite hd_addr_app; destruct l1; done.
  - exact taken_sorted.
  - exact Hseg.
  - split; [done|]. apply Forall_forall. intros x Hx. destruct (taken_in x Hx) as [[Hx' _]|[-> Hlt]]; [by apply Hf|]. unfold bend. cbn [fst snd]. lia.
  - exists z. split; [|done]. unfold taken_list. destruct (y.2 =? n); set_solver.
  - intros a s [[<- <-]|[Hne Has]]%lookup_insert_Some; [unfold taken_addr in *; split_and!; [lia..|done]|].
    destruct (ho_alloc _ _ _ _ H _ _ Has) as (A1 & A2 & A3 & A4). do 3 (split; [done|]). rewrite <- A4. apply ld32_ext. intros b Hb'.
    apply (taken_kept a s b Has). lia.
  - assert (D : forall a s, A !! a = Some s -> blocks_apart taken_addr n a s).
    { intros a s Has. pose proof (ho_free _ _ _ _ H _ _ y Has take_y) as D1. unfold bend, blocks_apart, taken_addr in *. lia. }
    intros a s a' s' [[<- <-]|[N1 H1]]%lookup_insert_Some [[<- <-]|[N2 H2]]%lookup_insert_Some Hne; [done|by apply D| |by eapply ho_apart].
    destruct (D a s H1); [by right|by left].
  - intros a s x [[<- <-]|[N1 H1]]%lookup_insert_Some Hx; destruct (taken_in x Hx) as [[Hx' Hd]|[-> Hlt]].
    + destruct (ho_in h _ A x H Hx') as (X1 & X2 & _ & _ & _ & X6). unfold bend, taken_addr. destruct (Z.eq_dec x.1 base); [right|]; lia.
    + unfold bend, taken_addr. cbn [fst snd]. lia.
    + by eapply ho_free.
    + pose proof (ho_free _ _ _ _ H _ _ y H1 take_y) as D1. unfold bend in *. cbn [fst snd]. lia.
Qed.

End take.

Lemma taken_units l1 y l2 n : units (taken_list l1 y l2 n) + n = units (l1 ++ y :: l2).
Proof. unfold taken_list. destruct (Z.eqb_spec y.2 n); rewrite !units_app; unfold units; cbn [foldr snd]; lia. Qed.

(** The memory after a block was taken. *)
Lemma taken_memory h A l1 z y l2 n : heap_ok base h ((l1 ++ [z]) ++ y :: l2) A -> 1 <= n <= y.2 ->
  let m' := if y.2 =? n then st32 (hmem h) z.1 (hd_addr l2 base)
            else st32 (st32 (hmem h) (y.1 + 4) (y.2 - n)) (taken_addr y n + 4) n in
  seg m' (taken_list (l1 ++ [z]) y l2 n) base /\ ld32 m' (taken_addr y n + 4) = n /\
  forall b, ~ (z.1 <= b < z.1 + 8) -> ~ (y.1 <= b < y.1 + 8 * y.2) -> ld8 m' b = ld8 (hmem h) b.
Proof.
  intros H Hn m'. destruct (ho_in h _ A y H) as (Y1 & Y2 & Y3 & Y4 & Y5 & _); [set_solver|]. destruct (ho_in h _ A z H) as (Z1 & Z2 & Z3 & Z4 & _); [set_solver|].
  pose proof (ho_sorted _ _ _ _ H) as S. apply StronglySorted_app in S as (C & S1 & S2). inversion S2 as [|? ? S2' F]; subst. rewrite Forall_forall in F.
  apply StronglySorted_app in S1 as (C1 & S1 & _). destruct (C z y) as [Zy1 Zy2]; [set_solver..|].
  pose proof (ho_seg _ _ _ _ H) as G. apply seg_app in G as [G1 (G2 & G3 & G4)]. cbn [hd_addr] in G1. unfold m', taken_list, taken_addr. clear m'.
  assert (Fl2 : forall m2, apart (hmem h) z.1 (y.1 + 8 * y.2) m2 -> seg m2 l2 base).
  { intros m2 Am. eapply seg_frame; [|exact G4]. intros x Hx. destruct (F x Hx). split; apply (ld32_apart _ _ _ _ _ Am); lia. }
  destruct (Z.eqb_spec y.2 n) as [He|He].
  - assert (Hu : is_u32 (hd_addr l2 base)).
    { destruct l2 as [|x l2']; cbn [hd_addr]; [unfold is_u32; lia|]. destruct (ho_in h _ A x H) as (X1 & _ & X3 & _); [set_solver|]. unfold is_u32. lia. }
    split; [|split].
    + apply seg_app in G1 as [G0 (_ & G1 & _)]. cbn [hd_addr fst] in G0. rewrite <- app_assoc. apply seg_app. cbn [app hd_addr seg fst snd]. split; [|split; [|split]].
      * eapply seg_frame; [|exact G0]. intros x Hx. destruct (C1 x z Hx) as [_ Hxz]; [set_solver|]. rewrite !ld32_st32_ne by lia. done.
      * by apply ld32_st32_eq.
      * rewrite ld32_st32_ne by lia. done.
      * apply Fl2. intros b Hb. apply ld8_st32_ne. lia.
    + rewrite ld32_st32_ne by lia. replace (y.1 + 8 * (y.2 - n) + 4) with (y.1 + 4) by lia. lia.
    + intros b B1 B2. apply ld8_st32_ne. lia.
  - split; [|split].
    + apply seg_app. cbn [hd_addr seg fst snd]. split; [|split; [|split]].
      * eapply seg_frame; [|exact G1]. intros x Hx. destruct (C x y Hx) as [_ Hxy]; [set_solver|]. rewrite !ld32_st32_ne by lia. done.
      * rewrite !ld32_st32_ne by lia. done.
      * rewrite ld32_st32_ne by lia. apply ld32_st32_eq. unfold is_u32. lia.
      * apply Fl2. intros b Hb. rewrite !ld8_st32_ne by lia. done.
    + apply ld32_st32_eq. unfold is_u32. lia.
    + intros b B1 B2. rewrite !ld8_st32_ne by lia. done.
Qed.

(** A block [malloc] hands out. *)
Definition handed (h : heap) (L : list block) (A : gmap Z Z) (n r : Z) (h' : heap) : Prop :=
  exists a L', r = a + 8 /\ A !! a = None /\ heap_ok base h' L' (<[a := n]> A) /\ kept A h h' /\ units L' + n = units L.

Lemma malloc_take_spec h A l1 z y l2 n : heap_ok base h ((l1 ++ [z]) ++ y :: l2) A -> 1 <= n <= y.2 -> y.1 <> base ->
  wp (malloc_take n z.1 y.1) (handed h ((l1 ++ [z]) ++ y :: l2) A n) h.
Proof.
  intros H Hn Hb. destruct (ho_in h _ A y H) as (Y1 & Y2 & Y3 & Y4 & Y5 & _); [set_solver|].
  pose proof (ho_seg _ _ _ _ H) as G. apply seg_app in G as [_ (G2 & G3 & _)].
  destruct (taken_memory h A l1 z y l2 n H Hn) as (M1 & M2 & M3).
  assert (Hend : handed h ((l1 ++ [z]) ++ y :: l2) A n (taken_addr y n + 8) (set_freep z.1 (set_hmem (if y.2 =? n then st32 (hmem h) z.1 (hd_addr l2 base)
            else st32 (st32 (hmem h) (y.1 + 4) (y.2 - n)) (taken_addr y n + 4) n) h))).
  { exists (taken_addr y n), (taken_list (l1 ++ [z]) y l2 n). split; [done|]. split; [by eapply carved_fresh|].
    split; [by apply taken_heap|]. split; [by eapply taken_kept|apply taken_units]. }
  unfold malloc_take. wp_step. apply wpx_gets. rewrite G3. destruct (Z.eqb_spec y.2 n) as [He|He].
  - wp_step. wp_step. apply wpx_gets. rewrite G2. wp_step. apply wpx_modify. apply wpx_ret. wp_step. apply wpx_modify. apply wpx_ret.
    rewrite hdr_small by (unfold is_u32; lia). replace (y.1 + 8 * 1) with (taken_addr y n + 8) by (unfold taken_addr; lia). exact Hend.
  - wp_step. wp_step. apply wpx_modify. wp_step. apply wpx_gets. cbn [hmem set_hmem]. rewrite (u32_small (y.2 - n)) by (unfold is_u32; lia).
    rewrite ld32_st32_eq by (unfold is_u32; lia). rewrite (hdr_small y.1) by (unfold is_u32; lia). fold (taken_addr y n).
    wp_step. apply wpx_modify. apply wpx_ret. wp_step. apply wpx_modify. apply wpx_ret.
    rewrite hdr_small by (unfold is_u32, taken_addr; lia). replace (taken_addr y n + 8 * 1) with (taken_addr y n + 8) by lia. exact Hend.
Qed.

(** *** The search *)

Fixpoint last_addr (prev : Z) (l : list block) : Z := match l with [] => prev | x :: l' => last_addr x.1 l' end.

Lemma last_addr_snoc x l : exists l1 z, x :: l = l1 ++ [z] /\ z.1 = last_addr x.1 l.
Proof.
  revert x. induction l as [|y l IH]; intros x; [by exists [], x|]. destruct (IH y) as (l1 & z & E & Hz). exists (x :: l1), z. split; [cbn; by rewrite <- E|done].
Qed.

Lemma last_addr_app prev l l' : last_addr prev (l ++ l') = last_addr (last_addr prev l) l'.
Proof. revert prev. induction l as [|x l IH]; intros prev; [done|]. apply IH. Qed.

(** The loop goes past blocks that are too small. *)
Lemma malloc_pass n e : forall l k prev h, seg (hmem h) l e -> Forall (fun x => x.2 < n /\ x.1 <> freep h) l ->
  malloc_loop base (length l + k) n prev (hd_addr l e) h = malloc_loop base k n (last_addr prev l) e h.
Proof.
  induction l as [|x l IH]; intros k prev h Hs Hf; [done|]. destruct Hs as (H1 & H2 & Hs). apply Forall_cons in Hf as [[Hx Hne] Hf].
  cbn [length Nat.add malloc_loop hd_addr last_addr]. unfold bind, s_size, s_ptr, gets. rewrite H2, (proj2 (Z.leb_gt _ _) Hx).
  rewrite (proj2 (Z.eqb_neq _ _) Hne), H1. by apply IH.
Qed.

Lemma first_fit n (l : list block) : Forall (fun x => x.2 < n) l \/ exists c1 y c2, l = c1 ++ y :: c2 /\ n <= y.2 /\ Forall (fun x => x.2 < n) c1.
Proof.
  induction l as [|x l [IH|(c1 & y & c2 & -> & Hy & Hc)]]; [left; constructor| |]; (destruct (Z_lt_ge_dec x.2 n); [|right; eexists [], x, _; split; [done|]; split; [lia|constructor]]).
  - left. by constructor.
  - right. exists (x :: c1), y, c2. split; [done|]. split; [done|]. by constructor.
Qed.

Lemma sorted_addr L x y l1 l2 : StronglySorted before (l1 ++ x :: l2) -> y ∈ l1 ++ l2 -> L = l1 ++ x :: l2 -> y.1 <> x.1.
Proof.
  intros S Hy _. apply StronglySorted_app in S as (C & _ & S2). inversion S2 as [|? ? _ F]; subst. rewrite Forall_forall in F.
  apply elem_of_app in Hy as [Hy|Hy]; [destruct (C y x Hy) as [_ ?]; [set_solver|lia]|]. destruct (F y Hy). lia.
Qed.

(** With a block that fits, the search takes the first one from [freep] on. *)
Lemma malloc_search h L A n k : heap_ok base h L A -> 1 <= n -> ~ Forall (fun x => x.2 < n) L -> (length L <= k)%nat ->
  wp (malloc_loop base k n (freep h) (ld32 (hmem h) (freep h))) (handed h L A n) h.
Proof.
  intros H Hn Hfit Hk. destruct (ho_freep _ _ _ _ H) as (f & Hf & Ef). apply list_elem_of_split in Hf as (pre & suf & ->). rewrite Ef.
  pose proof (ho_seg _ _ _ _ H) as G. apply seg_app in G as [G1 (G2 & _ & G3)]. cbn [hd_addr] in G1. rewrite G2.
  destruct (ho_base _ _ _ _ H) as (Hb & Hh & Hsz). pose proof (ho_sorted _ _ _ _ H) as So.
  assert (Hne : forall x, x ∈ pre ++ suf -> x.1 <> freep h) by (intros x Hx; rewrite Ef; by eapply sorted_addr).
  assert (Hyb : forall y, y ∈ pre ++ f :: suf -> n <= y.2 -> y.1 <> base) by (intros y Hy Hny E; specialize (Hsz y Hy); rewrite (proj2 (Z.eqb_eq _ _) E) in Hsz; lia).
  assert (Htake : forall c1 c2 y k' prev, pre ++ f :: suf = c1 ++ y :: c2 -> n <= y.2 -> (exists l1 z, c1 = l1 ++ [z] /\ z.1 = prev) ->
    wp (malloc_loop base (S k') n prev y.1) (handed h (pre ++ f :: suf) A n) h).
  { intros c1 c2 y k' prev E Hy (l1 & z & -> & <-). cbn [malloc_loop]. wp_step. apply wpx_gets. rewrite E in H, Hyb |- *.
    pose proof (ho_seg _ _ _ _ H) as G. apply seg_app in G as [_ (_ & G4 & _)]. rewrite G4, (proj2 (Z.leb_le _ _) Hy).
    apply malloc_take_spec; [done|lia|]. apply Hyb; [set_solver|done]. }
  rewrite length_app in Hk. cbn [length] in Hk. destruct (first_fit n suf) as [Fs|(c1 & y & c2 & -> & Hy & Fc)].
  - destruct (first_fit n (pre ++ [f])) as [Fp|(c1 & y & c2 & E & Hy & Fc)].
    { exfalso. apply Hfit. rewrite cons_middle, app_assoc. by apply Forall_app. }
    assert (Ey : pre ++ f :: suf = c1 ++ y :: (c2 ++ suf)) by (rewrite cons_middle, app_assoc, E, <- app_assoc; done).
    assert (Hc1 : c1 <> []) by (intros ->; cbn in E; rewrite Ey in Hh; cbn in Hh; apply (Hyb y); [rewrite Ey; set_solver|done..]).
    assert (Hlc : (length pre = length c1 + length c2)%nat) by (apply (f_equal length) in E; rewrite !length_app in E; cbn [length] in E; lia).
    assert (Hcf : Forall (fun x => x.2 < n /\ x.1 <> freep h) c1).
    { apply Forall_forall. intros x Hx. rewrite Forall_forall in Fc. split; [by apply Fc|]. rewrite Ef. rewrite Ey in So. apply StronglySorted_app in So as (C & _ & _).
      assert (f ∈ y :: c2 ++ suf); [|destruct (C x f Hx) as [_ ?]; [done|lia]].
      destruct c2 as [|w c2] using rev_ind; [|rewrite app_comm_cons, app_assoc in E; apply app_inj_tail in E as [_ ->]; set_solver].
      apply app_inj_tail in E as [_ ->]. set_solver. }
    destruct (fuel_split suf k) as [k1 ->]; [lia|]. unfold wpx. rewrite (malloc_pass n base suf).
    2:{ exact G3. } 2:{ apply Forall_forall. intros x Hx. rewrite Forall_forall in Fs. split; [by apply Fs|]. apply Hne. set_solver. }
    destruct (fuel_split c1 k1) as [k2 ->]; [lia|]. destruct c1 as [|w c1]; [done|].
    assert (Ew : w.1 = base) by (rewrite Ey in Hh; exact Hh).
    assert (Gc : seg (hmem h) (w :: c1) y.1) by (pose proof (ho_seg _ _ _ _ H) as G; rewrite Ey in G; by apply seg_app in G as [G _]).
    pose proof (malloc_pass n y.1 (w :: c1) k2 (last_addr f.1 suf) h Gc Hcf) as P. cbn [hd_addr] in P. rewrite Ew in P. rewrite P.
    destruct k2 as [|k2]; [cbn [length] in *; lia|]. apply (Htake (w :: c1) (c2 ++ suf)); [done..|]. destruct (last_addr_snoc w c1) as (l1 & z & E1 & E2). by exists l1, z.
  - destruct (fuel_split c1 k) as [k1 ->]; [rewrite length_app in Hk; cbn [length] in Hk; lia|]. unfold wpx. rewrite hd_addr_app. cbn [hd_addr].
    rewrite (malloc_pass n y.1 c1).
    2:{ by apply seg_app in G3 as [G3 _]. } 2:{ apply Forall_forall. intros x Hx. rewrite Forall_forall in Fc. split; [by apply Fc|]. apply Hne. set_solver. }
    rewrite length_app in Hk. cbn [length] in Hk. destruct k1 as [|k1]; [lia|]. apply (Htake (pre ++ f :: c1) c2); [by rewrite <- app_assoc|done|].
    destruct (last_addr_snoc f c1) as (l1 & z & E1 & E2). exists (pre ++ l1), z. by rewrite E1, app_assoc.
Qed.

(** Without one, it comes round to [freep] and asks for more memory. *)
Lemma malloc_round h L A n k : heap_ok base h L A -> Forall (fun x => x.2 < n) L ->
  malloc_loop base (length L + k) n (freep h) (ld32 (hmem h) (freep h)) h =
  (let! p := morecore base n in
   if p =? 0 then ret 0
   else
     let! q := s_ptr p in
     malloc_loop base k n p q) h.
Proof.
  intros H Hf. destruct (ho_freep _ _ _ _ H) as (f & Hin & Ef). apply list_elem_of_split in Hin as (pre & suf & ->). rewrite Ef.
  pose proof (ho_seg _ _ _ _ H) as G. apply seg_app in G as [G1 (G2 & G3 & G4)]. cbn [hd_addr] in G1. rewrite G2.
  destruct (ho_base _ _ _ _ H) as (_ & Hh & _). rewrite hd_addr_app in Hh. cbn [hd_addr] in Hh.
  assert (Hp : forall l, (forall x, x ∈ l -> x ∈ pre ++ suf) -> Forall (fun x => x.2 < n /\ x.1 <> freep h) l).
  { intros l Hl. apply Forall_forall. intros x Hx. rewrite Forall_forall in Hf. split; [apply Hf; specialize (Hl x Hx); set_solver|].
    rewrite Ef. eapply sorted_addr; [by eapply ho_sorted|by apply Hl|done]. }
  replace (length (pre ++ f :: suf) + k)%nat with (length suf + (length pre + S k))%nat by (rewrite length_app; cbn [length]; lia).
  rewrite (malloc_pass n base suf) by (done || (apply Hp; set_solver)).
  assert (P : malloc_loop base (length pre + S k) n (last_addr f.1 suf) base h = malloc_loop base (S k) n (last_addr (last_addr f.1 suf) pre) f.1 h).
  { rewrite <- (malloc_pass n f.1 pre) by (done || (apply Hp; set_solver)). destruct pre; cbn [hd_addr] in *; by subst. }
  rewrite P. cbn [malloc_loop]. unfold bind at 1, s_size at 1, gets at 1. rewrite G3.
  apply Forall_app in Hf as [_ Hf]. apply Forall_cons in Hf as [Hf _]. rewrite (proj2 (Z.leb_gt _ _) Hf).
  unfold bind at 1, gets at 1. rewrite Ef, Z.eqb_refl. done.
Qed.

Context `{!SbrkSpec SB}.

Definition ask (n : Z) : Z := 8 * Z.max n 4096.

(** New memory at the end is one more allocated block. *)
Lemma heap_more h L A u : heap_ok base h L A -> 1 <= u -> base + 8 <= hbrk h -> hbrk h + 8 * u < 2147483648 ->
  let h' := set_hmem (st32 (hmem h) (hbrk h + 4) u) (set_hbrk (hbrk h + 8 * u) h) in
  heap_ok base h' L (<[hbrk h := u]> A) /\ A !! hbrk h = None /\ kept A h h'.
Proof.
  intros H Hu Hb Hlim h'. pose proof (proj1 (ho_base _ _ _ _ H)) as Hb0. assert (Hl : forall x, x ∈ L -> x.1 + 8 <= hbrk h /\ x.1 + 8 * x.2 <= hbrk h /\ 0 <= x.2)
    by (intros x Hx; destruct (ho_in h L A x H Hx) as (_ & X2 & X3 & X4 & _); lia).
  assert (K : kept A h h').
  { intros a s b Has Hb'. cbn. destruct (ho_alloc _ _ _ _ H _ _ Has) as (_ & _ & A3 & _). apply ld8_st32_ne. lia. }
  assert (Hnone : A !! hbrk h = None).
  { destruct (A !! hbrk h) as [s|] eqn:E; [|done]. destruct (ho_alloc _ _ _ _ H _ _ E) as (A1 & _ & A3 & _). lia. }
  split; [|split; [done|exact K]]. split; cbn [hmem hbrk freep h' set_hmem set_hbrk].
  - by eapply ho_base.
  - by eapply ho_sorted.
  - eapply seg_frame; [|by eapply ho_seg]. intros x Hx. destruct (Hl x Hx). rewrite !ld32_st32_ne by lia. done.
  - split; [lia|]. destruct (ho_brk _ _ _ _ H) as [_ F]. eapply Forall_impl; [exact F|]. cbn. lia.
  - by eapply ho_freep.
  - intros a s [[<- <-]|[Hne Has]]%lookup_insert_Some; [split_and!; [lia..|apply ld32_st32_eq; unfold is_u32; lia]|].
    destruct (ho_alloc _ _ _ _ H _ _ Has) as (A1 & A2 & A3 & A4). split_and!; [lia..|]. rewrite ld32_st32_ne by lia. done.
  - assert (D : forall a s, A !! a = Some s -> blocks_apart (hbrk h) u a s) by (intros a s Has; destruct (ho_alloc _ _ _ _ H _ _ Has) as (_ & _ & A3 & _); right; lia).
    intros a s a' s' [[<- <-]|[N1 H1]]%lookup_insert_Some [[<- <-]|[N2 H2]]%lookup_insert_Some Hne; [done|by apply D| |by eapply ho_apart].
    destruct (D a s H1); [by right|by left].
  - intros a s x [[<- <-]|[N1 H1]]%lookup_insert_Some Hx; [|by eapply ho_free]. destruct (Hl x Hx). unfold bend. lia.
Qed.

Lemma morecore_spec h L A n : heap_ok base h L A -> 1 <= n -> 8 * n < 2147483648 ->
  wp (morecore base n) (fun p h' =>
    (p = 0 /\ h' = h /\ sbrk_ok (hbrk h) (ask n) = false) \/
    (p = freep h' /\ p <> 0 /\ sbrk_ok (hbrk h) (ask n) = true /\ exists L', heap_ok base h' L' A /\ kept A h h' /\ (length L' <= S (length L))%nat /\
       units L' = units L + Z.max n 4096 /\ exists y, y ∈ L' /\ n <= y.2)) h.
Proof.
  intros H Hn Hlim. set (u := Z.max n 4096). assert (Hu : (if n <? 4096 then 4096 else n) = u) by (unfold u; destruct (Z.ltb_spec n 4096); lia).
  unfold morecore. rewrite Hu. replace (s32 (u * 8)) with (ask n) by (unfold ask, s32, u; dlia).
  assert (Hb : base + 8 <= hbrk h /\ 0 < base /\ hbrk h < 2147483648).
  { destruct (ho_base _ _ _ _ H) as (Hb & Hh & _). destruct L as [|x L]; [cbn in Hh; lia|]. destruct (ho_in h _ A x H) as (X1 & _ & X3 & _ & X5 & _); [set_solver|]. lia. }
  wp_step. unfold sbrk. wp_step. apply wpx_gets. destruct (sbrk_ok (hbrk h) (ask n)) eqn:Eok.
  - pose proof (sbrk_limit _ _ Eok) as Hlt. wp_step. apply wpx_modify. apply wpx_ret. rewrite (proj2 (Z.eqb_neq _ 4294967295)) by lia.
    rewrite u32_small by (unfold is_u32, ask in *; lia). change (ask n) with (8 * u) in *.
    destruct (heap_more h L A u H ltac:(unfold u; lia) ltac:(lia) Hlt) as (H1 & Hnone & K1).
    wp_step. apply wpx_modify. rewrite hdr_small by (unfold is_u32, u in *; lia). replace (hbrk h + 8 * 1) with (hbrk h + 8) by lia. cbn [hmem set_hbrk].
    wp_step. wp_use (free_spec _ L (<[hbrk h := u]> A) (hbrk h) u H1 (lookup_insert_eq _ _ _)).
    intros [] h2 (L' & H2 & K2 & U2 & B2 & N2 & y & Hy & Hyn). rewrite delete_insert_id in H2, K2 by done. apply wpx_gets. right. split; [done|].
    split; [destruct (ho_freep _ _ _ _ H2) as (x & Hx & ->); destruct (ho_in h2 L' A x H2 Hx); lia|]. split; [done|]. exists L'.
    split; [done|]. split; [intros a s b Has Hb'; rewrite (K2 a s b), (K1 a s b) by done; done|]. split; [done|]. split; [done|]. exists y. split; [done|unfold u in *; lia].
  - apply wpx_ret. rewrite Z.eqb_refl. apply wpx_ret. by left.
Qed.

(** The free list is in memory: there is only one. *)
Lemma seg_det m e : forall l l', seg m l e -> seg m l' e -> hd_addr l e = hd_addr l' e ->
  (forall x, x ∈ l -> x.1 <> e) -> (forall x, x ∈ l' -> x.1 <> e) -> l = l'.
Proof.
  induction l as [|x l IH]; intros [|y l'] G G' Hh Hl Hl'; cbn [hd_addr seg] in *; [done|..].
  - destruct (Hl' y); [set_solver|done].
  - destruct (Hl x); [set_solver|done].
  - destruct G as (G1 & G2 & G3), G' as (G1' & G2' & G3'), x as [a s], y as [a' s']. cbn in *. subst a'. f_equal; [congruence|].
    apply IH; [done|done|congruence|set_solver..].
Qed.

Lemma heap_ok_list h L L' A A' : heap_ok base h L A -> heap_ok base h L' A' -> L = L'.
Proof.
  assert (Hcons : forall L A, heap_ok base h L A -> exists t, L = (base, 0) :: t /\ seg (hmem h) t base /\ ld32 (hmem h) base = hd_addr t base /\
    forall x, x ∈ t -> x.1 <> base).
  { intros [|[a s] t] B H; destruct (ho_base _ _ _ _ H) as (Hb & Hh & Hz); cbn in Hh; [lia|]. subst a.
    pose proof (Hz (base, s) ltac:(set_solver)) as Hs. cbn in Hs. rewrite Z.eqb_refl in Hs. subst s.
    destruct (ho_seg _ _ _ _ H) as (G1 & _ & G3). exists t. split; [done|]. split; [done|]. split; [done|]. intros x Hx.
    pose proof (ho_sorted _ _ _ _ H) as S. apply StronglySorted_inv in S as [_ S]. rewrite Forall_forall in S. destruct (S x Hx) as [_ Hlt]. cbn in Hlt. lia. }
  intros H H'. destruct (Hcons _ _ H) as (t & -> & G & Hd & Hn), (Hcons _ _ H') as (t' & -> & G' & Hd' & Hn'). f_equal.
  eapply seg_det; [exact G|exact G'|congruence|done|done].
Qed.

Lemma no_room h L A n : heap_ok base h L A -> Forall (fun x => x.2 < n) L -> ~ free_room base h A n.
Proof.
  intros H F (L' & H' & (x & Hx & Hn)%Exists_exists). rewrite <- (heap_ok_list _ _ _ _ _ H H') in Hx.
  rewrite Forall_forall in F. specialize (F x Hx). cbn in F. lia.
Qed.

Lemma some_room h L A n : heap_ok base h L A -> ~ Forall (fun x => x.2 < n) L -> free_room base h A n.
Proof.
  intros H F. exists L. split; [done|]. apply not_Forall_Exists in F; [|solve_decision]. eapply Exists_impl; [exact F|]. cbn. lia.
Qed.

(** What [malloc] promises: 0, exactly when no free block is large enough and
    the kernel refuses more memory; or else a new block. *)
Definition malloc_post (h : heap) (A : gmap Z Z) (n r : Z) (h' : heap) : Prop :=
  (r = 0 /\ (~ free_room base h A n /\ sbrk_ok (hbrk h) (ask n) = false) /\ kept A h h' /\ exists L, heap_ok base h' L A /\ Forall (fun x => x.2 < n) L) \/
  ((free_room base h A n \/ sbrk_ok (hbrk h) (ask n) = true) /\ exists a L, r = a + 8 /\ A !! a = None /\ heap_ok base h' L (<[a := n]> A) /\ kept A h h').

Lemma malloc_loop_spec h L A n k : heap_ok base h L A -> 1 <= n -> 8 * n < 2147483648 -> (2 * length L + 2 <= k)%nat ->
  wp (malloc_loop base k n (freep h) (ld32 (hmem h) (freep h))) (malloc_post h A n) h.
Proof.
  intros H Hn Hlim Hk. destruct (decide (Forall (fun x => x.2 < n) L)) as [Hf|Hf].
  - destruct (fuel_split L k) as [k1 ->]; [lia|]. eapply wpx_ext; [by eapply malloc_round|]. wp_step. wp_use (morecore_spec h L A n H Hn Hlim).
    intros p h1 [(-> & -> & Hno)|(-> & Hp & Hok & L' & H1 & K1 & N1 & _ & y & Hy & Hyn)].
    + apply wpx_ret. left. split; [done|]. split; [split; [by eapply no_room|done]|]. split; [done|]. by exists L.
    + rewrite (proj2 (Z.eqb_neq _ _) Hp). wp_step. apply wpx_gets. eapply wpx_mono; [apply (malloc_search h1 L' A n k1 H1 Hn)| |done].
      * intros F. rewrite Forall_forall in F. specialize (F y Hy). cbn in F. lia.
      * lia.
      * intros r h2 (a & L2 & -> & Ha & H2 & K2 & _). right. split; [by right|]. exists a, L2. split; [done|]. split; [done|]. split; [done|].
        intros a' s b Has Hb. rewrite (K2 a' s b), (K1 a' s b) by done. done.
  - eapply wpx_mono; [apply (malloc_search h L A n k H Hn Hf); lia| |done]. intros r h2 (a & L2 & -> & Ha & H2 & K2 & _). right.
    split; [left; by eapply some_room|]. by exists a, L2.
Qed.

(** The first call sets up the list. *)
Lemma heap_first h : 0 < base -> base + 8 <= hbrk h < 2147483648 ->
  heap_ok base (set_hmem (st32 (st32 (hmem h) base base) (base + 4) 0) (set_freep base h)) [(base, 0)] ∅.
Proof.
  intros Hb Hk. split; cbn [hmem hbrk freep set_hmem set_freep hd_addr]; try (intros ? ? ?; by rewrite lookup_empty); try (intros ? ?; by rewrite lookup_empty).
  - split; [done|]. split; [done|]. intros x ->%list_elem_of_singleton. cbn. by rewrite Z.eqb_refl.
  - repeat constructor.
  - cbn [seg fst snd hd_addr]. rewrite ld32_st32_ne, ld32_st32_eq by (unfold is_u32; lia). rewrite ld32_st32_eq by (unfold is_u32; lia). done.
  - split; [lia|]. constructor; [unfold bend; cbn; lia|constructor].
  - exists (base, 0). split; [set_solver|done].
Qed.

Lemma malloc_spec h A nbytes : let n := u32 (nbytes + 7) / 8 + 1 in
  heap_inv base h A -> 8 * n < 2147483648 -> wp (malloc base nbytes) (malloc_post h A n) h.
Proof.
  intros n HI Hn2. unfold malloc. fold n. assert (Hn1 : 1 <= n) by (unfold n, u32; dlia).
  assert (Hgo : forall h1 L, heap_ok base h1 L A -> wp (let! prevp := gets freep in let! p := s_ptr prevp in let! k := gets (hfuel base) in
      malloc_loop base (2 * k + 6) n prevp p) (malloc_post h1 A n) h1).
  { intros h1 L H1. wp_step. apply wpx_gets. wp_step. apply wpx_gets. wp_step. apply wpx_gets. apply (malloc_loop_spec h1 L); [done..|].
    pose proof (ho_length h1 L A H1). lia. }
  wp_step. apply wpx_gets. destruct HI as [(Hf & -> & Hb & Hk)|(L & H)].
  - rewrite Hf, Z.eqb_refl. wp_step. wp_step. apply wpx_modify. wp_step. apply wpx_modify. apply wpx_modify.
    eapply wpx_mono; [apply (Hgo _ _ (heap_first h Hb Hk))| |done]. 
    assert (Hroom : forall h, freep h = 0 -> ~ free_room base h ∅ n).
    { intros h0 Hf0 (L & H & _). destruct (ho_freep _ _ _ _ H) as (x & Hx & Ex). destruct (ho_in h0 L ∅ x H Hx) as (X1 & _). lia. }
    intros r h' [(-> & [Hnr Hno] & _ & HL)|([Hr|Hr] & a & L & -> & Ha & HL & _)].
    + left. split; [done|]. split; [split; [by apply Hroom|done]|]. split; [|done]. intros a s b. by rewrite lookup_empty.
    + exfalso. revert Hr. apply (no_room _ [(base, 0)]); [by apply heap_first|]. repeat constructor. cbn. lia.
    + right. split; [by right|]. exists a, L. split; [done|]. split; [done|]. split; [done|]. intros a' s b. by rewrite lookup_empty.
  - destruct (ho_freep _ _ _ _ H) as (x & Hx & Ex). destruct (ho_in h L A x H Hx) as (X1 & _). rewrite (proj2 (Z.eqb_neq (freep h) 0)) by lia.
    wp_step. apply wpx_ret. by eapply Hgo.
Qed.

End specs.
