(* ===== verification/UmallocTheorems.v ===== *)
(** * What the user memory allocator promises (src/umalloc.c)

    [malloc] by itself, and any sequence of calls by a program that frees only
    what it was given and writes only inside its blocks. *)

From S2P Require Import Prelude.
From S2P Require Import CString.
From S2P Require Import Umalloc.

Open Scope Z_scope.

(** ** A program that uses the heap

    [A] are the blocks it holds and [G] the bytes it stored in them. *)
Record client := mkClient { cheap : heap; cblocks : gmap Z Z; cstored : gmap Z Z }.

Section client.
Context `{SB : Sbrk}.
Variable base : Z.

(** The headers [malloc] takes for a size; near 2^32 the sum wraps around. *)
Definition units_for (nbytes : Z) : Z := u32 (nbytes + 7) / 8 + 1.

(** The sizes for which [morecore] asks the kernel for a positive number of
    bytes: for the others [nu * sizeof(Header)] is not an int. *)
Definition askable (nbytes : Z) : Prop := 8 * units_for nbytes < 2147483648.

(** The bytes of a block after its header. *)
Definition inside (a s b : Z) : Prop := a + 8 <= b < a + 8 * s.
#[global] Instance inside_dec a s b : Decision (inside a s b) := _.

Inductive client_step : client -> client -> Prop :=
  | cs_malloc h A G nbytes r h' :
      askable nbytes -> malloc base nbytes h = Ret r h' ->
      client_step (mkClient h A G) (mkClient h' (if r =? 0 then A else <[r - 8 := units_for nbytes]> A) G)
  | cs_free h A G a s h' :
      A !! a = Some s -> free base (a + 8) h = Ret tt h' ->
      client_step (mkClient h A G) (mkClient h' (delete a A) (filter (fun x => ~ inside a s x.1) G))
  | cs_store h A G a s b v :
      A !! a = Some s -> inside a s b -> 0 <= v < 256 ->
      client_step (mkClient h A G) (mkClient (set_hmem (st8 (hmem h) b v) h) A (<[b := v]> G))
  | cs_sbrk h A G n r h' :
      0 <= n -> sbrk n h = Ret r h' -> client_step (mkClient h A G) (mkClient h' A G).

Inductive client_reach (c : client) : client -> Prop :=
  | cr_refl : client_reach c c
  | cr_step c1 c2 : client_reach c c1 -> client_step c1 c2 -> client_reach c c2.

(** What holds at every moment. *)
Record client_ok (c : client) : Prop := {
  co_inv : heap_inv base (cheap c) (cblocks c);
  co_in : forall b v, cstored c !! b = Some v -> exists a s, cblocks c !! a = Some s /\ inside a s b;
  co_bytes : forall b v, cstored c !! b = Some v -> ld8 (hmem (cheap c)) b = v;
}.

(** A program that has not called [malloc] yet. *)
Definition starts (c : client) : Prop :=
  freep (cheap c) = 0 /\ 0 < base /\ base + 8 <= hbrk (cheap c) < 2147483648 /\ cblocks c = ∅ /\ cstored c = ∅.

End client.

(** * Lemmas *)

Section proofs.
Context `{SB : Sbrk} `{!SbrkSpec SB}.
Variable base : Z.

(** Blocks held at one time do not overlap. *)
Lemma inv_apart h A : heap_inv base h A -> forall a s, A !! a = Some s ->
  1 <= s /\ base + 8 <= a /\ a + 8 * s <= hbrk h /\ forall a' s', A !! a' = Some s' -> a <> a' -> blocks_apart a s a' s'.
Proof.
  intros [(_ & -> & _)|(L & H)] a s Has; [by rewrite lookup_empty in Has|]. destruct (ho_alloc _ _ _ _ H _ _ Has) as (A1 & A2 & A3 & _).
  do 3 (split; [done|]). intros a' s'. by eapply ho_apart.
Qed.

(** The stored bytes survive what keeps the blocks. *)
Lemma stored_kept A h h' (G : gmap Z Z) : kept A h h' -> (forall b v, G !! b = Some v -> exists a s, A !! a = Some s /\ inside a s b) ->
  (forall b v, G !! b = Some v -> ld8 (hmem h) b = v) -> forall b v, G !! b = Some v -> ld8 (hmem h') b = v.
Proof. intros K I B b v Hb. destruct (I b v Hb) as (a & s & Ha & Hin). unfold inside in Hin. rewrite (K a s b); [by apply B|done|lia]. Qed.

Lemma malloc_step_ok h A G nbytes r h' : client_ok base (mkClient h A G) -> askable nbytes -> malloc base nbytes h = Ret r h' ->
  client_ok base (mkClient h' (if r =? 0 then A else <[r - 8 := units_for nbytes]> A) G).
Proof.
  intros [HI HG HB] Hn Hr. cbn [cheap cblocks cstored] in *. pose proof (wpx_ret_inv _ _ _ _ _ _ (malloc_spec base h A nbytes HI Hn) Hr) as HP.
  destruct HP as [(-> & _ & K & L & H & _)|(_ & a & L & -> & Ha & H & K)].
  - rewrite Z.eqb_refl. split; cbn; [by right; exists L|done|by eapply stored_kept].
  - destruct (inv_apart h' _ (or_intror (ex_intro _ L H)) a _ (lookup_insert_eq _ _ _)) as (_ & Hlo & _). destruct (ho_base _ _ _ _ H) as [Hb _].
    rewrite (proj2 (Z.eqb_neq (a + 8) 0)) by lia. replace (a + 8 - 8) with a by lia. split; cbn; [by right; exists L| |by eapply stored_kept].
    intros b v Hbv. destruct (HG b v Hbv) as (a' & s' & Ha' & Hin). exists a', s'. split; [|done]. rewrite lookup_insert_ne; [done|congruence].
Qed.

Lemma free_step_ok h A G a s h' : client_ok base (mkClient h A G) -> A !! a = Some s -> free base (a + 8) h = Ret tt h' ->
  client_ok base (mkClient h' (delete a A) (filter (fun x => ~ inside a s x.1) G)).
Proof.
  intros [HI HG HB] Ha Hr. cbn [cheap cblocks cstored] in *. destruct HI as [(_ & -> & _)|(L & H)]; [by rewrite lookup_empty in Ha|].
  pose proof (wpx_ret_inv _ _ _ _ _ _ (free_spec base h L A a s H Ha) Hr) as (L' & H' & K & _).
  assert (HG' : forall b v, filter (fun x : Z * Z => ~ inside a s x.1) G !! b = Some v -> exists a' s', delete a A !! a' = Some s' /\ inside a' s' b).
  { intros b v [Hb Hout]%map_lookup_filter_Some. destruct (HG b v Hb) as (a' & s' & Ha' & Hin). exists a', s'. split; [|done].
    rewrite lookup_delete_ne; [done|]. intros <-. apply Hout. cbn. congruence. }
  split; cbn; [by right; exists L'|done|]. eapply stored_kept; [exact K|done|]. intros b v [Hb _]%map_lookup_filter_Some. by apply HB.
Qed.

(** Storing inside a block touches no header and no other block. *)
Lemma store_step_ok h A G a s b v : client_ok base (mkClient h A G) -> A !! a = Some s -> inside a s b -> 0 <= v < 256 ->
  client_ok base (mkClient (set_hmem (st8 (hmem h) b v) h) A (<[b := v]> G)).
Proof.
  intros [HI HG HB] Ha Hin Hv. cbn [cheap cblocks cstored] in *. unfold inside in Hin. split; cbn [cheap cblocks cstored hmem set_hmem].
  - right. destruct HI as [(_ & -> & _)|(L & H)]; [by rewrite lookup_empty in Ha|]. exists L.
    assert (Hfree : forall x, x ∈ L -> b < x.1 \/ x.1 + 8 <= b).
    { intros x Hx. pose proof (ho_free _ _ _ _ H _ _ x Ha Hx) as D. unfold bend in D. lia. }
    assert (Hw : forall x, b < x \/ x + 4 <= b -> ld32 (st8 (hmem h) b v) x = ld32 (hmem h) x).
    { intros x Hx. apply ld32_ext. intros y Hy. apply ld8_st8_ne. lia. }
    split; cbn [hmem hbrk freep set_hmem]; try by eapply H.
    + eapply seg_frame; [|by eapply ho_seg]. intros x Hx. destruct (Hfree x Hx); split; apply Hw; lia.
    + intros a' s' Ha'. destruct (ho_alloc _ _ _ _ H _ _ Ha') as (A1 & A2 & A3 & A4). do 3 (split; [done|]). rewrite Hw; [done|].
      destruct (Z.eq_dec a' a) as [->|Hne]; [lia|]. 
      destruct (ho_apart _ _ _ _ H _ _ _ _ Ha Ha' ltac:(done)); lia.
  - intros b' v' [[<- <-]|[Hne Hb']]%lookup_insert_Some; [by exists a, s|by eapply HG].
  - intros b' v' [[<- <-]|[Hne Hb']]%lookup_insert_Some; [rewrite ld8_st8_eq; by apply Z.mod_small|]. rewrite ld8_st8_ne by congruence. by apply HB.
Qed.

(** More memory for the program itself. *)
Lemma sbrk_step_ok h A G n r h' : client_ok base (mkClient h A G) -> 0 <= n -> sbrk n h = Ret r h' -> client_ok base (mkClient h' A G).
Proof.
  intros [HI HG HB] Hn Hr. cbn [cheap cblocks cstored] in *. unfold sbrk, bind, gets in Hr. destruct (sbrk_ok (hbrk h) n) eqn:Eok; [|by injection Hr as _ <-].
  injection Hr as _ <-. pose proof (sbrk_limit _ _ Eok) as Hlim. split; cbn; try done. destruct HI as [(Hf & -> & Hb & Hk)|(L & H)].
  - left. cbn. rewrite u32_small by (unfold is_u32; lia). do 3 (split; [done|]). lia.
  - right. exists L. destruct (ho_brk _ _ _ _ H) as [Hk F]. destruct (ho_base _ _ _ _ H) as (Hb & Hh & _).
    assert (0 <= hbrk h). { destruct L as [|x L]; [cbn in Hh; lia|]. destruct (ho_in base h _ A x H) as (X1 & _ & X3 & _); [set_solver|]. lia. }
    split; cbn [hmem hbrk freep set_hbrk]; rewrite ?u32_small by (unfold is_u32; lia); try by eapply H.
    + split; [lia|]. eapply Forall_impl; [exact F|]. cbn. lia.
    + intros a s Has. destruct (ho_alloc _ _ _ _ H _ _ Has) as (A1 & A2 & A3 & A4). split_and!; [lia..|done].
Qed.

Lemma client_step_ok c c' : client_step base c c' -> client_ok base c -> client_ok base c'.
Proof.
  intros Hs Hc. destruct Hs; [by eapply malloc_step_ok|by eapply free_step_ok|by eapply store_step_ok|by eapply sbrk_step_ok].
Qed.

Lemma client_reach_ok c c' : client_reach base c c' -> client_ok base c -> client_ok base c'.
Proof. intros Hr Hc. induction Hr as [|c1 c2 _ IH Hs]; [done|]. by eapply client_step_ok. Qed.

Lemma starts_ok c : starts base c -> client_ok base c.
Proof.
  intros (Hf & Hb & Hk & HA & HG). split; [by left|rewrite HG; intros b v Hv; by rewrite lookup_empty in Hv..].
Qed.

End proofs.

(** * Theorems *)

(** C17: [malloc] allocates.  From any state of the heap it returns.  It returns
    0 exactly when no free block is large enough and the kernel refuses more
    memory; otherwise a block of its own, apart from every block in use and inside
    the memory of the program.  The block has room for the size asked, unless the
    size is so near 2^32 that the number of headers wraps around.  The free list is
    in order and the contents of the other blocks are as they were.  The sizes are
    those for which [morecore] asks for a positive number of bytes. *)
Theorem malloc_allocates `{SB : Sbrk} `{!SbrkSpec SB} base h A nbytes :
  heap_inv base h A -> askable nbytes ->
  wp (malloc base nbytes) (fun r h' => let n := units_for nbytes in kept A h h' /\
    (r = 0 <-> ~ free_room base h A n /\ sbrk_ok (hbrk h) (ask n) = false) /\
    if decide (r = 0) then exists L, heap_ok base h' L A /\ Forall (fun x => x.2 < n) L
    else heap_inv base h' (<[r - 8 := n]> A) /\ A !! (r - 8) = None /\
      (0 <= nbytes < 4294967289 -> nbytes <= 8 * (n - 1)) /\ base + 16 <= r /\ r + 8 * (n - 1) <= hbrk h' /\
      forall a s, A !! a = Some s -> r + 8 * (n - 1) <= a \/ a + 8 * s <= r - 8) h.
Proof.
  intros HI Hn. eapply wpx_mono; [by apply malloc_spec| |done]. fold (units_for nbytes).
  intros r h' [(-> & Hno & K & L & H & F)|(Hyes & a & L & -> & Ha & H & K)]; (split; [done|]).
  - split; [done|]. rewrite decide_True by done. by exists L.
  - destruct (ho_base _ _ _ _ H) as [Hb _].
    destruct (inv_apart base h' _ (or_intror (ex_intro _ L H)) a _ (lookup_insert_eq _ _ _)) as (H1 & H2 & H3 & H4).
    split; [split; [lia|]; intros [Hr Hs]; destruct Hyes; [done|congruence]|].
    rewrite decide_False by lia. replace (a + 8 - 8) with a by lia. split; [by right; exists L|]. split; [done|].
    split; [unfold units_for, u32; dlia|]. split; [lia|]. split; [lia|]. intros a' s' Ha'. assert (Hne : a <> a') by congruence.
    destruct (H4 a' s') as [?|?]; [by rewrite lookup_insert_ne|done|left; lia|right; lia].
Qed.

(** The kernel grants memory up to 64 kB. *)
Definition small_sbrk : Sbrk := {| sbrk_ok b n := b + n <? 65536 |}.
#[local] Instance small_sbrk_spec : SbrkSpec small_sbrk.
Proof. split. intros b n. cbn. intros H%Z.ltb_lt. lia. Qed.

Definition small_heap : heap := mkHeap ∅ 4096 0.

Lemma malloc_allocates_witness : exists r h', @malloc small_sbrk 16 100 small_heap = Ret r h' /\ r = 36760 /\ 36760 + 100 <= hbrk h'.
Proof.
  assert (H : wp (@malloc small_sbrk 16 100) (fun r h' => r <> 0 -> r + 100 <= hbrk h') small_heap).
  { eapply wpx_mono.
    - apply (@malloc_allocates small_sbrk small_sbrk_spec 16 small_heap ∅ 100).
      + left. split; [reflexivity|]. split; [reflexivity|]. cbn. lia.
      + reflexivity.
    - intros r h' (_ & _ & Hr) Hne. rewrite decide_False in Hr by exact Hne. destruct Hr as (_ & _ & _ & _ & Hr & _).
      change (8 * (units_for 100 - 1)) with 104 in Hr. lia.
    - done. }
  destruct (wpx_result _ _ _ _ 36760 H) as (h' & Hr & Hb); [vm_compute; reflexivity|].
  exists 36760, h'. split; [exact Hr|]. split; [reflexivity|]. apply Hb. discriminate.
Defined.

(** C28: a program that uses [malloc] and [free] as it should is safe.  After
    any sequence of calls of [malloc], for sizes whose number of bytes is positive
    as an int, of [free] for blocks it holds, of stores into its blocks, of as many
    bytes as [malloc] really gave it, and of calls of sbrk that do not shrink its
    memory, its blocks lie inside its memory and do not overlap, and they hold what
    it stored in them; and any further such [malloc], and [free] of any of its
    blocks, returns. *)
Theorem heap_clients_safe `{SB : Sbrk} `{!SbrkSpec SB} base c0 c :
  starts base c0 -> client_reach base c0 c ->
  (forall a s, cblocks c !! a = Some s -> base + 8 <= a /\ a + 8 * s <= hbrk (cheap c) /\
     forall a' s', cblocks c !! a' = Some s' -> a <> a' -> blocks_apart a s a' s') /\
  (forall b v, cstored c !! b = Some v -> ld8 (hmem (cheap c)) b = v) /\
  (forall nbytes, askable nbytes -> exists r h', malloc base nbytes (cheap c) = Ret r h') /\
  (forall a s, cblocks c !! a = Some s -> exists h', free base (a + 8) (cheap c) = Ret tt h').
Proof.
  intros H0 Hr. destruct (client_reach_ok base c0 c Hr (starts_ok base c0 H0)) as [HI HG HB]. split; [|split; [exact HB|split]].
  - intros a s Ha. destruct (inv_apart base _ _ HI a s Ha) as (_ & H2 & H3 & H4). done.
  - intros nbytes Hn. destruct (wp_run _ _ _ (malloc_spec base _ _ nbytes HI Hn)) as (r & h' & E & _). by exists r, h'.
  - intros a s Ha. destruct HI as [(_ & E & _)|(L & H)]; [rewrite E in Ha; by rewrite lookup_empty in Ha|].
    destruct (wp_run _ _ _ (free_spec base _ L _ a s H Ha)) as ([] & h' & E & _). by exists h'.
Qed.

(** One block, with a byte stored in it. *)
Definition small_client : client := mkClient small_heap ∅ ∅.
Definition small_heap1 : heap := after (@malloc small_sbrk 16 100) small_heap.

Lemma heap_clients_safe_witness : exists c, @client_reach small_sbrk 16 small_client c /\ cblocks c = {[36752 := 14]} /\
  cstored c = {[36800 := 7]} /\ ld8 (hmem (cheap c)) 36800 = 7.
Proof.
  set (c := mkClient (set_hmem (st8 (hmem small_heap1) 36800 7) small_heap1) {[36752 := 14]} {[36800 := 7]}).
  assert (Hr : @client_reach small_sbrk 16 small_client c).
  { eapply (cr_step 16 small_client (mkClient small_heap1 {[36752 := 14]} ∅)).
    - eapply (cr_step 16 small_client small_client); [apply cr_refl|].
      apply (@cs_malloc small_sbrk 16 small_heap ∅ ∅ 100 36760 small_heap1); [reflexivity|].
      apply result_after. vm_compute. reflexivity.
    - apply (@cs_store small_sbrk 16 small_heap1 {[36752 := 14]} ∅ 36752 14 36800 7); [apply lookup_singleton_eq|unfold inside; lia|lia]. }
  exists c. split; [exact Hr|]. split; [reflexivity|]. split; [reflexivity|].
  destruct (@heap_clients_safe small_sbrk small_sbrk_spec 16 small_client c) as (_ & HB & _).
  - split; [reflexivity|]. split; [lia|]. split; [cbn; lia|]. split; reflexivity.
  - exact Hr.
  - apply HB. apply lookup_singleton_eq.
Defined.

(** For the other sizes [morecore] asks sbrk for no memory, or to take some
    away. *)
Lemma not_askable_shrinks nbytes : ~ askable nbytes -> s32 (units_for nbytes * 8) <= 0.
Proof. unfold askable, units_for, s32, u32. intros H. dlia. Qed.

(** A size near 2^32 wraps around in the computation of the units: the block
    handed out has no room at all. *)
Example malloc_overflows : @result heap Z (@malloc small_sbrk 16 4294967290) small_heap = Some 36864 /\
  ld32 (hmem (after (@malloc small_sbrk 16 4294967290) small_heap)) (36864 - 4) = 1.
Proof. split; vm_compute; reflexivity. Qed.
