(* ===== verification/Sh.v ===== *)
(** * The shell (src/sh.c)

    The lexer and the recursive-descent parser, which build commands in memory
    that [malloc] returned and refer to the words of the line by pointers into
    it, and [nulterminate], which ends the words.

    The line is a list of bytes without a terminator; reading at its end gives
    0.  Pointers into it are positions, and pointers to commands are positions
    in the list of the commands built so far.  [malloc] is taken to succeed, as
    the source does. *)

From S2P Require Import Prelude.
From S2P Require Import Bytes.

Open Scope Z_scope.

Definition MAXARGS : nat := 10.
Definition O_RDONLY : Z := 0.
Definition O_WRONLY : Z := 1.
Definition O_CREATE : Z := 512.

(** [struct cmd] and its kinds.  An argument and a file name are the pointers
    to their first character and past their last. *)
Inductive node :=
  | Nexec (argv : list (nat * nat))
  | Nredir (cmd : nat) (file efile : nat) (mode fd : Z)
  | Npipe (left right : nat)
  | Nlist (left right : nat)
  | Nback (cmd : nat).

(** The line, the position [*ps] in it, and the commands. *)
Record shell := mkShell { s_buf : bytes; s_pos : nat; s_nodes : list node }.

Definition set_pos (p : nat) (s : shell) : shell := mkShell (s_buf s) p (s_nodes s).
Definition set_nodes (l : list node) (s : shell) : shell := mkShell (s_buf s) (s_pos s) l.
Definition set_buf (b : bytes) (s : shell) : shell := mkShell b (s_pos s) (s_nodes s).

(** ** Constructors *)

Definition new_node (n : node) : M shell nat :=
  let! l := gets s_nodes in
  do! modify (set_nodes (l ++ [n])) in
  ret (length l).

Definition execcmd : M shell nat := new_node (Nexec []).
Definition redircmd (subcmd file efile : nat) (mode fd : Z) : M shell nat := new_node (Nredir subcmd file efile mode fd).
Definition pipecmd (left right : nat) : M shell nat := new_node (Npipe left right).
Definition listcmd (left right : nat) : M shell nat := new_node (Nlist left right).
Definition backcmd (subcmd : nat) : M shell nat := new_node (Nback subcmd).

(** ** Tokens *)

Definition whitespace : bytes := [32; 9; 13; 10; 11].
Definition symbols : bytes := [60; 124; 62; 38; 59; 40; 41].

(** [strchr(l, c)] as a condition; it does not find the terminator. *)
Definition strchr (l : bytes) (c : Z) : bool := existsb (Z.eqb c) l.

(** [while(s < es && strchr(whitespace, *s)) s++;], for at most [n] turns. *)
Fixpoint skip_ws (buf : bytes) (n s : nat) : nat :=
  match n with
  | O => s
  | S n' => if strchr whitespace (rd8 buf s) then skip_ws buf n' (S s) else s
  end.

(** [while(s < es && !strchr(whitespace, *s) && !strchr(symbols, *s)) s++;] *)
Fixpoint skip_word (buf : bytes) (n s : nat) : nat :=
  match n with
  | O => s
  | S n' => if strchr whitespace (rd8 buf s) || strchr symbols (rd8 buf s) then s else skip_word buf n' (S s)
  end.

(** The token, and the values of [q] and [eq]. *)
Definition gettoken (es : nat) : M shell (Z * (nat * nat)) :=
  let! buf := gets s_buf in
  let! s := gets s_pos in
  let s := skip_ws buf (es - s) s in
  let q := s in
  let c := rd8 buf s in
  let r :=
    (if c =? 0 then (c, s)
     else if existsb (Z.eqb c) [124; 40; 41; 59; 38; 60] then (c, S s)
     else if c =? 62 then
       if rd8 buf (S s) =? 62 then (43, S (S s)) else (c, S s)
     else (97, skip_word buf (es - s) s)) in
  let eq := r.2 in
  let s := skip_ws buf (es - r.2) r.2 in
  do! modify (set_pos s) in
  ret (r.1, (q, eq)).

Definition peek (es : nat) (toks : bytes) : M shell bool :=
  let! buf := gets s_buf in
  let! s := gets s_pos in
  let s := skip_ws buf (es - s) s in
  do! modify (set_pos s) in
  ret (nz (rd8 buf s) && strchr toks (rd8 buf s)).

(** ** The parser *)

(** The modes of [parseredirs]; >> is opened like >. *)
Definition redir_mode (tok : Z) : Z * Z :=
  if tok =? 60 then (O_RDONLY, 0) else (Z.lor O_WRONLY O_CREATE, 1).

Fixpoint parseredirs (k : nat) (cmd es : nat) : M shell nat :=
  match k with
  | O => nofuel
  | S k' =>
      let! b := peek es [60; 62] in
      if b then
        let! tok := gettoken es in
        let! w := gettoken es in
        if negb (w.1 =? 97) then panic "missing file for redirection"
        else
          let m := redir_mode tok.1 in
          let! cmd := redircmd cmd w.2.1 w.2.2 m.1 m.2 in
          parseredirs k' cmd es
      else ret cmd
  end.

(** [cmd->argv[argc] = q; cmd->eargv[argc] = eq;], with [argc] the number of
    arguments so far. *)
Definition add_arg (cmd : nat) (w : nat * nat) : M shell nat :=
  let! l := gets s_nodes in
  match l !! cmd with
  | Some (Nexec argv) =>
      do! modify (set_nodes (<[cmd := Nexec (argv ++ [w])]> l)) in
      ret (length argv + 1)%nat
  | _ => fault "add_arg"
  end.

(** [while(!peek(ps, es, "|)&;"))]: the value of [ret]. *)
Fixpoint parseargs (k : nat) (cmd r es : nat) : M shell nat :=
  match k with
  | O => nofuel
  | S k' =>
      let! b := peek es [124; 41; 38; 59] in
      if b then ret r
      else
        let! tok := gettoken es in
        if tok.1 =? 0 then ret r
        else if negb (tok.1 =? 97) then panic "syntax"
        else
          let! argc := add_arg cmd tok.2 in
          if (MAXARGS <=? argc)%nat then panic "too many args"
          else
            let! r := parseredirs k' r es in
            parseargs k' cmd r es
  end.

(** [while(peek(ps, es, "&"))] *)
Fixpoint parseback (k : nat) (cmd es : nat) : M shell nat :=
  match k with
  | O => nofuel
  | S k' =>
      let! b := peek es [38] in
      if b then
        do! gettoken es in
        let! cmd := backcmd cmd in
        parseback k' cmd es
      else ret cmd
  end.

Fixpoint parseline (k : nat) (es : nat) {struct k} : M shell nat :=
  match k with
  | O => nofuel
  | S k' =>
      let! cmd := parsepipe k' es in
      let! cmd := parseback k' cmd es in
      let! b := peek es [59] in
      if b then
        do! gettoken es in
        let! r := parseline k' es in
        listcmd cmd r
      else ret cmd
  end
with parsepipe (k : nat) (es : nat) {struct k} : M shell nat :=
  match k with
  | O => nofuel
  | S k' =>
      let! cmd := parseexec k' es in
      let! b := peek es [124] in
      if b then
        do! gettoken es in
        let! r := parsepipe k' es in
        pipecmd cmd r
      else ret cmd
  end
with parseblock (k : nat) (es : nat) {struct k} : M shell nat :=
  match k with
  | O => nofuel
  | S k' =>
      let! b := peek es [40] in
      if negb b then panic "parseblock"
      else
        do! gettoken es in
        let! cmd := parseline k' es in
        let! b := peek es [41] in
        if negb b then panic "syntax - missing )"
        else
          do! gettoken es in
          parseredirs k' cmd es
  end
with parseexec (k : nat) (es : nat) {struct k} : M shell nat :=
  match k with
  | O => nofuel
  | S k' =>
      let! b := peek es [40] in
      if b then parseblock k' es
      else
        let! cmd := execcmd in
        let! r := parseredirs k' cmd es in
        parseargs k' cmd r es
  end.

(** [*p = 0]; past the end of the line there is the terminator already. *)
Definition put_nul (p : nat) : M shell unit := modify (fun s => set_buf (<[p := 0]> (s_buf s)) s).

Fixpoint nulterminate (k : nat) (cmd : nat) : M shell unit :=
  match k with
  | O => nofuel
  | S k' =>
      let! l := gets s_nodes in
      match l !! cmd with
      | Some (Nexec argv) => mfor argv (fun w => put_nul w.2)
      | Some (Nredir c _ efile _ _) =>
          do! nulterminate k' c in
          put_nul efile
      | Some (Npipe c d) =>
          do! nulterminate k' c in
          nulterminate k' d
      | Some (Nlist c d) =>
          do! nulterminate k' c in
          nulterminate k' d
      | Some (Nback c) => nulterminate k' c
      | None => fault "nulterminate"
      end
  end.

(** The depth of the calls is bounded by the number of tokens. *)
Definition parse_fuel (es : nat) : nat := 4 * es + 8.

Definition parsecmd : M shell nat :=
  let! buf := gets s_buf in
  let es := length buf in
  let! cmd := parseline (parse_fuel es) es in
  do! peek es [] in
  let! s := gets s_pos in
  if negb (s =? es)%nat then panic "syntax"
  else
    let! l := gets s_nodes in
    do! nulterminate (S (length l)) cmd in
    ret cmd.

(** ** The language

    The tokens of a line, in one pass; [cur] is where the word being read
    starts. *)
Inductive token :=
  | Tword (q eq : nat)
  | Tsym (c : Z)
  | Tappend.

Definition flush (cur : option nat) (i : nat) : list token :=
  match cur with Some q => [Tword q i] | None => [] end.

Fixpoint lex (cur : option nat) (i : nat) (l : bytes) : list token :=
  match l with
  | [] => flush cur i
  | c :: l' =>
      if strchr whitespace c then flush cur i ++ lex None (S i) l'
      else if strchr symbols c then
        flush cur i ++
        match l' with
        | d :: l'' => if (c =? 62) && (d =? 62) then Tappend :: lex None (S (S i)) l'' else Tsym c :: lex None (S i) l'
        | [] => [Tsym c]
        end
      else lex (Some (default i cur)) (S i) l'
  end.

Definition tokens (buf : bytes) : list token := lex None 0 buf.

(** Commands. *)
Inductive cmd :=
  | Exec (argv : list (nat * nat))
  | Redir (c : cmd) (file : nat * nat) (mode fd : Z)
  | Pipe (left right : cmd)
  | List (left right : cmd)
  | Back (c : cmd).

(** A part of a simple command: a word, or a redirection with its file. *)
Inductive item :=
  | Iword (w : nat * nat)
  | Iredir (op : token) (w : nat * nat).

Definition is_op (t : token) : Prop := t = Tsym 60 \/ t = Tsym 62 \/ t = Tappend.

Definition item_tokens (x : item) : list token :=
  match x with
  | Iword w => [Tword w.1 w.2]
  | Iredir op w => [op; Tword w.1 w.2]
  end.

Definition words (l : list item) : list (nat * nat) := omap (fun x => match x with Iword w => Some w | _ => None end) l.

Definition op_mode (op : token) : Z * Z :=
  match op with
  | Tsym c => redir_mode c
  | _ => redir_mode 43
  end.

(** The redirections, from the inside out. *)
Definition wrap (c : cmd) (x : item) : cmd :=
  match x with
  | Iword _ => c
  | Iredir op w => Redir c w (op_mode op).1 (op_mode op).2
  end.

Definition item_ok (x : item) : Prop := match x with Iword _ => True | Iredir op _ => is_op op end.
Definition is_redir (x : item) : Prop := match x with Iword _ => False | Iredir op _ => is_op op end.

Fixpoint backs (n : nat) (c : cmd) : cmd := match n with O => c | S n' => backs n' (Back c) end.

(** The grammar of the shell. *)
Inductive g_line : list token -> cmd -> Prop :=
  | gl_end ts c n : g_pipe ts c -> g_line (ts ++ replicate n (Tsym 38)) (backs n c)
  | gl_list ts c n ts' c' : g_pipe ts c -> g_line ts' c' ->
      g_line (ts ++ replicate n (Tsym 38) ++ Tsym 59 :: ts') (List (backs n c) c')
with g_pipe : list token -> cmd -> Prop :=
  | gp_exec ts c : g_exec ts c -> g_pipe ts c
  | gp_pipe ts c ts' c' : g_exec ts c -> g_pipe ts' c' -> g_pipe (ts ++ Tsym 124 :: ts') (Pipe c c')
with g_exec : list token -> cmd -> Prop :=
  | ge_simple l : Forall item_ok l -> (length (words l) < MAXARGS)%nat ->
      g_exec (concat (map item_tokens l)) (foldl wrap (Exec (words l)) l)
  | ge_block ts c l : g_line ts c -> Forall is_redir l ->
      g_exec (Tsym 40 :: ts ++ Tsym 41 :: concat (map item_tokens l)) (foldl wrap c l).

(** The command at a pointer. *)
Inductive at_ptr (l : list node) : nat -> cmd -> Prop :=
  | ap_exec p argv : l !! p = Some (Nexec argv) -> at_ptr l p (Exec argv)
  | ap_redir p q c f e m d : l !! p = Some (Nredir q f e m d) -> (q < p)%nat -> at_ptr l q c -> at_ptr l p (Redir c (f, e) m d)
  | ap_pipe p q r c d : l !! p = Some (Npipe q r) -> (q < p)%nat -> (r < p)%nat -> at_ptr l q c -> at_ptr l r d -> at_ptr l p (Pipe c d)
  | ap_list p q r c d : l !! p = Some (Nlist q r) -> (q < p)%nat -> (r < p)%nat -> at_ptr l q c -> at_ptr l r d -> at_ptr l p (List c d)
  | ap_back p q c : l !! p = Some (Nback q) -> (q < p)%nat -> at_ptr l q c -> at_ptr l p (Back c).

(** The words of a command, by their spans. *)
Fixpoint spans (c : cmd) : list (nat * nat) :=
  match c with
  | Exec argv => argv
  | Redir c' w _ _ => spans c' ++ [w]
  | Pipe c1 c2 | List c1 c2 => spans c1 ++ spans c2
  | Back c' => spans c'
  end.

(** The C string at a position. *)
Fixpoint cstr_at (l : bytes) : bytes :=
  match l with
  | [] => []
  | c :: l' => if c =? 0 then [] else c :: cstr_at l'
  end.

Definition string_at (buf : bytes) (q : nat) : bytes := cstr_at (drop q buf).
