(* ===== verification/ShSpec.v ===== *)
(** * The parser of the shell accepts its grammar

    Lemmas for src/sh.c: the lexer gives the tokens of the line, the parser
    builds a command the grammar derives, and it finds the command of every
    line the grammar derives. *)

From S2P Require Import Prelude.
From S2P Require Import Bytes.
From S2P Require Import Sh.

Open Scope Z_scope.

(** No terminator inside the line. *)
Definition no_nul (buf : bytes) : Prop := Forall (fun c => c <> 0) buf.

(** What [gettoken] answers for a token, and its first character. *)
Definition token_code (t : token) : Z := match t with Tword _ _ => 97 | Tsym c => c | Tappend => 43 end.

Definition starts_with (toks : bytes) (ts : list token) : bool :=
  match ts with
  | Tsym c :: _ => strchr toks c
  | Tappend :: _ => strchr toks 62
  | _ => false
  end.

(** ** The lexer *)

Section lexer.
Variable buf : bytes.
Hypothesis Hbuf : no_nul buf.

(** The tokens from a position on. *)
Definition toks (p : nat) : list token := lex None p (drop p buf).

Lemma drop_rd8 s : (s < length buf)%nat -> drop s buf = rd8 buf s :: drop (S s) buf /\ rd8 buf s <> 0.
Proof.
  intros Hs. destruct (lookup_lt_is_Some_2 buf s Hs) as [c Hc]. unfold rd8. rewrite Hc. split; [by apply drop_S|].
  exact (Forall_lookup_1 _ _ _ _ Hbuf Hc).
Qed.

Lemma rd8_end s : (length buf <= s)%nat -> rd8 buf s = 0 /\ toks s = [].
Proof. intros Hs. unfold rd8, toks. rewrite lookup_ge_None_2, drop_ge by done. done. Qed.

Lemma toks_char s : (s < length buf)%nat -> toks s = lex None s (rd8 buf s :: drop (S s) buf).
Proof. intros Hs. unfold toks. by rewrite (proj1 (drop_rd8 s Hs)). Qed.

Lemma skip_ws_spec n : forall s, (s + n = length buf)%nat -> let s' := skip_ws buf n s in
  (s <= s' <= length buf)%nat /\ toks s' = toks s /\ (s' = length buf \/ (s' < length buf)%nat /\ strchr whitespace (rd8 buf s') = false).
Proof.
  induction n as [|n IH]; intros s Hs; cbn [skip_ws]; [split; [lia|]; split; [done|]; left; lia|].
  destruct (strchr whitespace (rd8 buf s)) eqn:Hw.
  - destruct (IH (S s)) as (H1 & H2 & H3); [lia|]. split; [lia|]. split; [|done]. rewrite H2, (toks_char s) by lia. cbn [lex]. by rewrite Hw.
  - split; [lia|]. split; [done|]. right. split; [lia|done].
Qed.

Lemma skip_word_spec q n : forall s, (s + n = length buf)%nat -> let e := skip_word buf n s in
  (s <= e <= length buf)%nat /\ lex (Some q) s (drop s buf) = Tword q e :: toks e.
Proof.
  induction n as [|n IH]; intros s Hs; cbn [skip_word].
  - split; [lia|]. unfold toks. rewrite drop_ge by lia. done.
  - destruct (drop_rd8 s) as [Hd _]; [lia|]. destruct (strchr whitespace (rd8 buf s)) eqn:Hw; cbn [orb].
    + split; [lia|]. rewrite (toks_char s) by lia. rewrite Hd. cbn [lex]. by rewrite Hw.
    + destruct (strchr symbols (rd8 buf s)) eqn:Hy.
      * split; [lia|]. rewrite (toks_char s) by lia. rewrite Hd. cbn [lex]. by rewrite Hw, Hy.
      * destruct (IH (S s)) as (H1 & H2); [lia|]. split; [lia|]. rewrite Hd. cbn [lex default]. rewrite Hw, Hy. exact H2.
Qed.

(** The state of the parser before the tokens [ts]. *)
Definition parse_at (s : shell) (ts : list token) : Prop := s_buf s = buf /\ (s_pos s <= length buf)%nat /\ toks (s_pos s) = ts.

Lemma symbols_cases c : strchr symbols c = true <-> existsb (Z.eqb c) [124; 40; 41; 59; 38; 60] = true \/ c = 62.
Proof.
  unfold strchr, symbols. cbn [existsb]. rewrite !orb_true_iff, !Z.eqb_eq. naive_solver.
Qed.

(** One token, from a position that is not white space. *)
Lemma token_at s : (s < length buf)%nat -> strchr whitespace (rd8 buf s) = false ->
  let c := rd8 buf s in
  let r := if c =? 0 then (c, s)
     else if existsb (Z.eqb c) [124; 40; 41; 59; 38; 60] then (c, S s)
     else if c =? 62 then (if rd8 buf (S s) =? 62 then (43, S (S s)) else (c, S s))
     else (97, skip_word buf (length buf - s) s) in
  (s < r.2 <= length buf)%nat /\ exists t, toks s = t :: toks r.2 /\ r.1 = token_code t /\
    match t with Tword q e => q = s /\ e = r.2 | Tsym d => strchr symbols d = true | Tappend => True end.
Proof.
  intros Hs Hw c r. destruct (drop_rd8 s Hs) as [Hd Hz]. unfold r. clear r. fold c in Hz, Hd, Hw. rewrite (proj2 (Z.eqb_neq _ _) Hz).
  rewrite (toks_char s Hs). fold c. pose proof (symbols_cases c) as Hsym. destruct (existsb (Z.eqb c) [124; 40; 41; 59; 38; 60]) eqn:He.
  - assert (Hy : strchr symbols c = true) by (apply Hsym; by left). assert (Hne : (c =? 62) = false) by (apply Z.eqb_neq; intros E; rewrite E in He; done).
    cbn [fst snd]. split; [lia|]. exists (Tsym c). split; [|done]. cbn [lex flush app]. rewrite Hw, Hy, Hne. cbn [andb]. unfold toks. destruct (drop (S s) buf); done.
  - destruct (Z.eqb_spec c 62) as [Ec|Ec].
    + assert (Hy : strchr symbols c = true) by (apply Hsym; by right). cbn [lex flush app]. rewrite Hw, Hy, (proj2 (Z.eqb_eq c 62) Ec). cbn [andb].
      destruct (Nat.lt_ge_cases (S s) (length buf)) as [Hs2|Hs2].
      * destruct (drop_rd8 (S s) Hs2) as [Hd2 _]. rewrite Hd2. destruct (rd8 buf (S s) =? 62); cbn [fst snd].
        -- split; [lia|]. by exists Tappend.
        -- split; [lia|]. exists (Tsym c). split; [|done]. unfold toks. by rewrite Hd2.
      * destruct (rd8_end (S s) Hs2) as [-> Ht]. cbn [Z.eqb fst snd]. split; [lia|]. exists (Tsym c). split; [|done]. by rewrite drop_ge, Ht by lia.
    + assert (Hy : strchr symbols c = false) by (apply not_true_is_false; rewrite Hsym; intros [?|?]; done). cbn [fst snd].
      destruct (skip_word_spec s (length buf - s) s) as [H1 H2]; [lia|]. rewrite Hd in H2. cbn [lex default] in H2 |- *. rewrite Hw, Hy in H2 |- *.
      assert (Hgt : (s < skip_word buf (length buf - s) s)%nat).
      { replace (length buf - s)%nat with (S (length buf - S s)) by lia. cbn [skip_word]. fold c. rewrite Hw, Hy. cbn [orb].
        destruct (skip_word_spec s (length buf - S s) (S s)) as [H3 _]; [lia|]. lia. }
      split; [lia|]. exists (Tword s (skip_word buf (length buf - s) s)). done.
Qed.

Lemma gettoken_spec s ts : parse_at s ts ->
  wp (gettoken (length buf)) (fun r s' => exists p, s' = set_pos p s /\
    match ts with
    | [] => r.1 = 0 /\ parse_at s' []
    | t :: rest => r.1 = token_code t /\ parse_at s' rest /\ match t with Tword q e => r.2 = (q, e) | Tsym d => strchr symbols d = true | Tappend => True end
    end) s.
Proof.
  intros (Hb & Hp & Ht). unfold gettoken. wp_step. apply wpx_gets. wp_step. apply wpx_gets. rewrite Hb.
  destruct (skip_ws_spec (length buf - s_pos s) (s_pos s)) as (H1 & H2 & H3); [lia|]. set (q := skip_ws _ _ _) in *. rewrite Ht in H2.
  wp_step. apply wpx_modify. apply wpx_ret. eexists. split; [done|]. destruct H3 as [E|[Hq Hw]].
  - destruct (rd8_end q) as [Hz Hn]; [lia|]. rewrite Hz. cbn [Z.eqb fst snd]. rewrite H2 in Hn. rewrite Hn. split; [done|]. split; [done|]. cbn [s_pos set_pos].
    destruct (skip_ws_spec (length buf - q) q) as (H4 & H5 & _); [lia|]. split; [lia|]. by rewrite H5, H2.
  - pose proof (token_at q Hq Hw) as HT. cbv zeta in HT. set (r := if _ =? 0 then _ else _) in *. destruct HT as (Hr & t & E & Ec & Em).
    rewrite H2 in E. rewrite E. split; [done|]. destruct (skip_ws_spec (length buf - r.2) r.2) as (H4 & H5 & _); [lia|]. split.
    + split; [done|]. cbn [s_pos set_pos]. split; [lia|done].
    + destruct t as [q' e'| |]; [|done..]. destruct Em as [-> ->]. done.
Qed.

Lemma peek_spec tk s ts : (forall c, strchr tk c = true -> strchr symbols c = true) -> parse_at s ts ->
  wp (peek (length buf) tk) (fun b s' => exists p, s' = set_pos p s /\ parse_at s' ts /\ b = starts_with tk ts /\ (ts = [] -> p = length buf)) s.
Proof.
  intros Htk (Hb & Hp & Ht). unfold peek. wp_step. apply wpx_gets. wp_step. apply wpx_gets. rewrite Hb.
  destruct (skip_ws_spec (length buf - s_pos s) (s_pos s)) as (H1 & H2 & H3); [lia|]. set (q := skip_ws _ _ _) in *. rewrite Ht in H2.
  wp_step. apply wpx_modify. apply wpx_ret. exists q. split; [done|]. split; [split; [done|]; cbn [s_pos set_pos]; split; [lia|done]|]. destruct H3 as [E|[Hq Hw]].
  - destruct (rd8_end q) as [Hz Hn]; [lia|]. rewrite Hz. rewrite H2 in Hn. rewrite Hn. done.
  - pose proof (token_at q Hq Hw) as HT. cbv zeta in HT. destruct (drop_rd8 q Hq) as [_ Hz]. rewrite (proj2 (Z.eqb_neq _ _) Hz) in HT.
    unfold nz. rewrite (proj2 (Z.eqb_neq _ _) Hz). cbn [negb andb]. set (c := rd8 buf q) in *. rewrite H2 in HT. pose proof (symbols_cases c) as Hsym.
    assert (Hns : strchr symbols c = false -> strchr tk c = false) by (intros Hn; apply not_true_is_false; intros Hy; rewrite (Htk c Hy) in Hn; done).
    destruct HT as (_ & t & -> & Hc & Hm). split; [|done]. cbn [starts_with].
    destruct (existsb (Z.eqb c) [124; 40; 41; 59; 38; 60]) eqn:He; [|destruct (Z.eqb_spec c 62) as [Ec|Ec]]; cbn [fst] in Hc.
    + destruct t as [| |]; cbn in Hc; [|by rewrite Hc|]; rewrite Hc in He; done.
    + rewrite Ec in *. destruct (rd8 buf (S q) =? 62); cbn [fst] in Hc; destruct t; cbn in Hc; try done. all: by subst.
    + destruct t; cbn in Hc; [|subst; done|done]. apply Hns, not_true_is_false. rewrite Hsym. intros [?|?]; done.
Qed.

End lexer.

(** ** Commands in memory *)

Lemma at_ptr_lt l p c : at_ptr l p c -> (p < length l)%nat.
Proof. intros H. destruct H; by eapply lookup_lt_Some. Qed.

Lemma at_ptr_prefix l l' p c : l `prefix_of` l' -> at_ptr l p c -> at_ptr l' p c.
Proof.
  intros Hp H. induction H.
  - apply ap_exec. by eapply prefix_lookup_Some.
  - eapply ap_redir; [by eapply prefix_lookup_Some|done..].
  - eapply ap_pipe; [by eapply prefix_lookup_Some|done..].
  - eapply ap_list; [by eapply prefix_lookup_Some|done..].
  - eapply ap_back; [by eapply prefix_lookup_Some|done..].
Qed.

(** [r] is the command [p] inside the redirections of [xs]. *)
Inductive chain (l : list node) (p : nat) : nat -> list item -> Prop :=
  | ch_nil : chain l p p []
  | ch_word r xs w : chain l p r xs -> chain l p r (xs ++ [Iword w])
  | ch_redir r q xs op f e : l !! r = Some (Nredir q f e (op_mode op).1 (op_mode op).2) -> (q < r)%nat -> chain l p q xs ->
      chain l p r (xs ++ [Iredir op (f, e)]).

Lemma chain_at l p r xs c : chain l p r xs -> at_ptr l p c -> at_ptr l r (foldl wrap c xs).
Proof.
  intros H Hp. induction H; [done|rewrite foldl_app; done|]. rewrite foldl_app. cbn. by eapply ap_redir.
Qed.

Lemma chain_prefix l l' p r xs : l `prefix_of` l' -> chain l p r xs -> chain l' p r xs.
Proof.
  intros Hp H. induction H; [apply ch_nil|by apply ch_word|]. eapply ch_redir; [by eapply prefix_lookup_Some|done..].
Qed.

(** Adding an argument does not move the redirections. *)
Lemma chain_insert l p r xs argv argv' : l !! p = Some (Nexec argv) -> chain l p r xs -> chain (<[p := Nexec argv']> l) p r xs.
Proof.
  intros Hp H. induction H; [apply ch_nil|by apply ch_word|]. eapply ch_redir; [|done..]. rewrite list_lookup_insert_ne; [done|]. congruence.
Qed.

Lemma words_app l l' : words (l ++ l') = words l ++ words l'.
Proof. apply omap_app. Qed.

Lemma words_redirs l : Forall is_redir l -> words l = [].
Proof. induction 1 as [|x l Hx _ IH]; [done|]. destruct x; [done|]. exact IH. Qed.

Lemma redirs_items l : Forall is_redir l -> Forall item_ok l.
Proof. intros H. eapply Forall_impl; [exact H|]. by intros []. Qed.

Lemma new_node_spec n s : wp (new_node n) (fun p s' => s' = set_nodes (s_nodes s ++ [n]) s /\ p = length (s_nodes s)) s.
Proof. unfold new_node. wp_step. apply wpx_gets. wp_step. apply wpx_modify. apply wpx_ret. done. Qed.

Lemma new_node_at (l : list node) n : (l ++ [n]) !! length l = Some n.
Proof. by rewrite lookup_app_r, Nat.sub_diag by lia. Qed.

(** Any message. *)
Definition any (_ : string) : Prop := True.

Lemma wp_any {S A} (c : M S A) (Q : A -> S -> Prop) s : wp c Q s -> wpx c Q any s.
Proof. intros H. eapply wpx_mono; [exact H|done|done]. Qed.

(** ** The parser is sound *)

Section sound.
Variable buf : bytes.
Hypothesis Hbuf : no_nul buf.

Abbreviation parse_at := (parse_at buf).
Abbreviation es := (length buf).

Lemma parse_at_nodes s ts l : parse_at s ts -> parse_at (set_nodes l s) ts.
Proof. done. Qed.

Lemma starts_op ts : starts_with [60; 62] ts = true -> exists op rest, ts = op :: rest /\ is_op op.
Proof.
  destruct ts as [|[q e|c|] ts]; cbn; try done; unfold strchr; cbn [existsb].
  - rewrite !orb_true_iff, !Z.eqb_eq. intros H. exists (Tsym c), ts. split; [done|]. unfold is_op. naive_solver.
  - intros _. exists Tappend, ts. split; [done|]. unfold is_op. by right; right.
Qed.

Lemma op_code op : is_op op -> redir_mode (token_code op) = op_mode op.
Proof. by intros [->|[->| ->]]. Qed.

(** [starts_with] of one symbol. *)
Lemma starts_sym c ts : strchr symbols c = true -> c <> 62 -> starts_with [c] ts = true -> exists rest, ts = Tsym c :: rest.
Proof.
  intros _ Hc. destruct ts as [|[q e|d|] ts]; cbn [starts_with]; try done; unfold strchr; cbn [existsb]; rewrite orb_false_r, Z.eqb_eq; [intros ->; by exists ts|].
  intros E. congruence.
Qed.

Lemma one_symbol c : strchr symbols c = true -> forall d, strchr [c] d = true -> strchr symbols d = true.
Proof. intros Hc d. unfold strchr at 1. cbn [existsb]. rewrite orb_false_r, Z.eqb_eq. by intros ->. Qed.

Lemma redir_symbols d : strchr [60; 62] d = true -> strchr symbols d = true.
Proof. unfold strchr, symbols. cbn [existsb]. rewrite !orb_true_iff, !Z.eqb_eq. naive_solver. Qed.

Lemma args_symbols d : strchr [124; 41; 38; 59] d = true -> strchr symbols d = true.
Proof. unfold strchr, symbols. cbn [existsb]. rewrite !orb_true_iff, !Z.eqb_eq. naive_solver. Qed.

(** One redirection is added. *)
Lemma redir_step s ts r p xs op w : parse_at s ts -> chain (s_nodes s) p r xs -> (r < length (s_nodes s))%nat ->
  wp (redircmd r w.1 w.2 (op_mode op).1 (op_mode op).2) (fun r' s' => parse_at s' ts /\ s_nodes s `prefix_of` s_nodes s' /\
    chain (s_nodes s') p r' (xs ++ [Iredir op w]) /\ (r' < length (s_nodes s'))%nat) s.
Proof.
  intros Ht Hc Hr. eapply wpx_mono; [apply new_node_spec| |done]. intros r' s' [-> ->]. cbn [s_nodes set_nodes]. split; [done|].
  split; [by apply prefix_app_r|]. split; [|rewrite length_app; cbn; lia]. destruct w as [f e].
  eapply ch_redir; [apply new_node_at|done|]. eapply chain_prefix; [by apply prefix_app_r|done].
Qed.

Lemma parseredirs_sound p : forall k ts r xs s, parse_at s ts -> (length ts < k)%nat -> chain (s_nodes s) p r xs -> (r < length (s_nodes s))%nat ->
  wpx (parseredirs k r es) (fun r' s' => exists l rest, ts = concat (map item_tokens l) ++ rest /\ Forall is_redir l /\ parse_at s' rest /\
    s_nodes s `prefix_of` s_nodes s' /\ chain (s_nodes s') p r' (xs ++ l) /\ (r' < length (s_nodes s'))%nat) any s.
Proof.
  induction k as [|k IH]; intros ts r xs s Ht Hk Hc Hr; [lia|]. cbn [parseredirs].
  wp_step. apply wp_any. wp_use (peek_spec buf Hbuf [60; 62] s ts redir_symbols Ht). intros b s1 (q & -> & Ht1 & -> & _).
  destruct (starts_with [60; 62] ts) eqn:Es.
  - destruct (starts_op ts Es) as (op & rest & -> & Hop). wp_step. apply wp_any. wp_use (gettoken_spec buf Hbuf _ _ Ht1).
    intros tok s2 (q2 & -> & Hcode & Ht2 & _). rewrite Hcode, (op_code op Hop). wp_step. apply wp_any. wp_use (gettoken_spec buf Hbuf _ _ Ht2).
    intros w s3 (q3 & -> & Hw). destruct rest as [|t rest]; [destruct Hw as [-> _]; by apply wpx_panic|]. destruct Hw as (Hw & Ht3 & Hm).
    destruct (Z.eqb_spec w.1 97) as [E|E]; [|by apply wpx_panic]. cbn [negb]. destruct t as [q' e'|d|]; cbn [token_code] in Hw; [|exfalso; rewrite <- Hw, E in Hm; discriminate|congruence].
    destruct w as [w1 w2]. cbn [fst snd] in *. subst w2. wp_step. apply wp_any.
    wp_use (redir_step _ rest r p xs op (q', e') Ht3 Hc Hr). intros r1 s4 (Ht4 & P4 & Hc4 & Hr4). eapply wpx_mono; [apply (IH rest r1 (xs ++ [Iredir op (q', e')]) s4)| |done]; try done.
    + cbn [length] in Hk. lia.
    + intros r' s' (l & rest' & -> & Hl & Ht' & P' & Hc' & Hr'). exists (Iredir op (q', e') :: l), rest'. split; [done|]. split; [by constructor|].
      split; [done|]. split; [by etrans|]. split; [by rewrite <- app_assoc in Hc'|done].
  - apply wpx_ret. exists [], ts. split; [done|]. split; [constructor|]. split; [done|]. split; [done|]. by rewrite app_nil_r.
Qed.

Lemma add_arg_spec s cmd argv w : s_nodes s !! cmd = Some (Nexec argv) ->
  wp (add_arg cmd w) (fun n s' => n = (length argv + 1)%nat /\ s' = set_nodes (<[cmd := Nexec (argv ++ [w])]> (s_nodes s)) s) s.
Proof. intros H. unfold add_arg. wp_step. apply wpx_gets. rewrite H. wp_step. apply wpx_modify. by apply wpx_ret. Qed.

Lemma prefix_insert (pre l : list node) i x : pre `prefix_of` l -> (length pre <= i)%nat -> pre `prefix_of` <[i := x]> l.
Proof. intros [l' ->] Hi. rewrite insert_app_r_alt by done. by apply prefix_app_r. Qed.

(** A simple command so far. *)
Record simple (pre : list node) (s : shell) (cmd r : nat) (xs : list item) : Prop := {
  si_pre : pre `prefix_of` s_nodes s /\ (length pre <= cmd)%nat;
  si_node : s_nodes s !! cmd = Some (Nexec (words xs));
  si_chain : chain (s_nodes s) cmd r xs;
  si_lt : (r < length (s_nodes s))%nat;
  si_ok : Forall item_ok xs;
  si_args : (length (words xs) < MAXARGS)%nat;
}.

Lemma simple_grow pre s cmd r xs s' r' l : simple pre s cmd r xs -> s_nodes s `prefix_of` s_nodes s' -> Forall is_redir l ->
  chain (s_nodes s') cmd r' (xs ++ l) -> (r' < length (s_nodes s'))%nat -> simple pre s' cmd r' (xs ++ l).
Proof.
  intros [[S1 S1'] S2 S3 S4 S5 S6] P Hl Hc Hr. rewrite <- (app_nil_r (words xs)) in S2, S6. rewrite <- (words_redirs l Hl), <- words_app in S2, S6.
  split; try done; [split; [by etrans|done]|by eapply prefix_lookup_Some|]. apply Forall_app. split; [done|by apply redirs_items].
Qed.

Lemma simple_word pre s cmd r xs w : simple pre s cmd r xs -> (length (words xs) + 1 < MAXARGS)%nat ->
  simple pre (set_nodes (<[cmd := Nexec (words xs ++ [w])]> (s_nodes s)) s) cmd r (xs ++ [Iword w]).
Proof.
  intros [[S1 S1'] S2 S3 S4 S5 S6] Hn. assert (Ew : words (xs ++ [Iword w]) = words xs ++ [w]) by apply words_app.
  split; rewrite ?Ew; cbn [s_nodes set_nodes].
  - split; [by apply prefix_insert|done].
  - apply list_lookup_insert_eq. by eapply lookup_lt_Some.
  - apply ch_word. by eapply chain_insert.
  - by rewrite length_insert.
  - apply Forall_app. split; [done|]. by repeat constructor.
  - rewrite length_app. cbn. lia.
Qed.

Lemma parseargs_sound pre cmd : forall k ts r xs s, parse_at s ts -> (length ts < k)%nat -> simple pre s cmd r xs ->
  wpx (parseargs k cmd r es) (fun r' s' => exists l rest, ts = concat (map item_tokens l) ++ rest /\ parse_at s' rest /\ simple pre s' cmd r' (xs ++ l)) any s.
Proof.
  induction k as [|k IH]; intros ts r xs s Ht Hk HS; [lia|]. cbn [parseargs].
  wp_step. apply wp_any. wp_use (peek_spec buf Hbuf [124; 41; 38; 59] s ts args_symbols Ht). intros b s1 (q & -> & Ht1 & -> & _).
  assert (Hstop : forall q ts', ts = ts' -> parse_at (set_pos q s) ts' -> exists l rest, ts = concat (map item_tokens l) ++ rest /\ parse_at (set_pos q s) rest /\ simple pre (set_pos q s) cmd r (xs ++ l)).
  { intros q' ts' -> Ht'. exists [], ts'. split; [done|]. split; [done|]. rewrite app_nil_r. destruct HS. by split. }
  destruct (starts_with [124; 41; 38; 59] ts) eqn:Es; [apply wpx_ret; by eapply Hstop|].
  wp_step. apply wp_any. wp_use (gettoken_spec buf Hbuf _ _ Ht1). intros tok s2 (q2 & -> & Htok).
  destruct ts as [|t ts]; [destruct Htok as [-> Ht2]; apply wpx_ret; by eapply Hstop|]. destruct Htok as (Hcode & Ht2 & Hm).
  destruct (Z.eqb_spec tok.1 0) as [E0|E0].
  { exfalso. destruct t as [| d |]; cbn in Hcode; [congruence| |congruence]. rewrite <- Hcode, E0 in Hm. discriminate. }
  destruct (Z.eqb_spec tok.1 97) as [E|E]; [|by apply wpx_panic]. cbn [negb].
  destruct t as [q' e'|d|]; cbn [token_code] in Hcode; [|exfalso; rewrite <- Hcode, E in Hm; discriminate|congruence].
  destruct tok as [tok1 tok2]. cbn [fst snd] in *. subst tok2. pose proof HS as [S1 S2 S3 S4 S5 S6].
  wp_step. apply wp_any. wp_use (add_arg_spec (set_pos q2 (set_pos q s)) cmd (words xs) (q', e') S2). intros n s3 [-> ->].
  destruct (Nat.leb_spec MAXARGS (length (words xs) + 1)) as [Hm'|Hm']; [by apply wpx_panic|].
  pose proof (simple_word pre (set_pos q2 (set_pos q s)) cmd r xs (q', e') (Build_simple pre (set_pos q2 (set_pos q s)) cmd r xs S1 S2 S3 S4 S5 S6) Hm') as HS3.
  set (s3 := set_nodes _ _) in *. cbn [length] in Hk. assert (Ht3 : parse_at s3 ts) by done.
  wp_step. wp_use (parseredirs_sound cmd k ts r _ s3 Ht3 ltac:(lia) (si_chain _ _ _ _ _ HS3) (si_lt _ _ _ _ _ HS3)).
  intros r1 s4 (l & rest & -> & Hl & Ht4 & P4 & Hc4 & Hr4). pose proof (simple_grow pre s3 cmd r _ s4 r1 l HS3 P4 Hl Hc4 Hr4) as HS4.
  eapply wpx_mono; [apply (IH rest r1 ((xs ++ [Iword (q', e')]) ++ l) s4 Ht4); [rewrite length_app in Hk; lia|exact HS4]| |done].
  intros r' s' (l' & rest' & -> & Ht' & HS'). exists (Iword (q', e') :: l ++ l'), rest'. split; [|split; [done|]].
  - cbn. by rewrite map_app, concat_app, <- app_assoc.
  - rewrite <- !app_assoc in HS'. exact HS'.
Qed.

Lemma parseback_sound : forall k ts p c s, parse_at s ts -> (length ts < k)%nat -> at_ptr (s_nodes s) p c ->
  wpx (parseback k p es) (fun p' s' => exists n rest, ts = replicate n (Tsym 38) ++ rest /\ parse_at s' rest /\
    s_nodes s `prefix_of` s_nodes s' /\ at_ptr (s_nodes s') p' (backs n c)) any s.
Proof.
  induction k as [|k IH]; intros ts p c s Ht Hk Hp; [lia|]. cbn [parseback].
  wp_step. apply wp_any. wp_use (peek_spec buf Hbuf [38] s ts (one_symbol 38 eq_refl) Ht). intros b s1 (q & -> & Ht1 & -> & _).
  destruct (starts_with [38] ts) eqn:Es.
  - destruct (starts_sym 38 ts eq_refl ltac:(done) Es) as [rest ->]. wp_step. apply wp_any. wp_use (gettoken_spec buf Hbuf _ _ Ht1).
    intros tok s2 (q2 & -> & _ & Ht2 & _). wp_step. apply wp_any. wp_use new_node_spec. intros p1 s3 [-> ->]. cbn [length] in Hk.
    eapply wpx_mono; [apply (IH rest _ (Back c))| |done]; [done|lia| |].
    + cbn [s_nodes set_nodes set_pos]. eapply ap_back; [apply new_node_at|by eapply at_ptr_lt|]. apply (at_ptr_prefix (s_nodes s)); [by apply prefix_app_r|done].
    + cbn [s_nodes set_nodes set_pos]. intros p' s' (n & rest' & -> & Ht' & P' & Hp'). exists (S n), rest'. split; [done|]. split; [done|]. split; [|done].
      etrans; [|exact P']. by apply prefix_app_r.
  - apply wpx_ret. exists O, ts. done.
Qed.

(** What a parsing function returns. *)
Definition sound_post (G : list token -> cmd -> Prop) (s : shell) (ts : list token) (p : nat) (s' : shell) : Prop :=
  exists ts1 rest c, ts = ts1 ++ rest /\ G ts1 c /\ parse_at s' rest /\ s_nodes s `prefix_of` s_nodes s' /\ at_ptr (s_nodes s') p c.

Definition line_sound (k : nat) : Prop := forall s ts, parse_at s ts -> (4 * length ts + 4 <= k)%nat -> wpx (parseline k es) (sound_post g_line s ts) any s.
Definition pipe_sound (k : nat) : Prop := forall s ts, parse_at s ts -> (4 * length ts + 3 <= k)%nat -> wpx (parsepipe k es) (sound_post g_pipe s ts) any s.
Definition exec_sound (k : nat) : Prop := forall s ts, parse_at s ts -> (4 * length ts + 2 <= k)%nat -> wpx (parseexec k es) (sound_post g_exec s ts) any s.
Definition block_sound (k : nat) : Prop := forall s ts, parse_at s ts -> (4 * length ts + 1 <= k)%nat -> wpx (parseblock k es) (sound_post g_exec s ts) any s.

Lemma line_step k : pipe_sound k -> line_sound k -> line_sound (S k).
Proof.
  intros IHp IHl s ts Ht Hk. cbn [parseline]. wp_step. wp_use (IHp s ts Ht ltac:(lia)). intros p s1 (ts1 & rest & c & -> & G1 & Ht1 & P1 & A1).
  rewrite length_app in Hk. wp_step. wp_use (parseback_sound k rest p c s1 Ht1 ltac:(lia) A1). intros p2 s2 (n & rest2 & -> & Ht2 & P2 & A2).
  wp_step. apply wp_any. wp_use (peek_spec buf Hbuf [59] s2 rest2 (one_symbol 59 eq_refl) Ht2). intros b s3 (q & -> & Ht3 & -> & _).
  destruct (starts_with [59] rest2) eqn:Es.
  - destruct (starts_sym 59 rest2 eq_refl ltac:(done) Es) as [rest3 ->]. wp_step. apply wp_any. wp_use (gettoken_spec buf Hbuf _ _ Ht3).
    intros tok s4 (q2 & -> & _ & Ht4 & _). rewrite length_app in Hk. cbn [length] in Hk. wp_step. wp_use (IHl _ rest3 Ht4 ltac:(lia)).
    intros p5 s5 (ts5 & rest5 & c5 & -> & G5 & Ht5 & P5 & A5). eapply wpx_mono; [apply wp_any, new_node_spec| |done]. intros p6 s6 [-> ->].
    exists (ts1 ++ replicate n (Tsym 38) ++ Tsym 59 :: ts5), rest5, (List (backs n c) c5). split; [by rewrite <- !app_assoc|]. split; [by constructor|].
    split; [done|]. cbn [s_nodes set_nodes set_pos] in *. split; [etrans; [exact P1|]; etrans; [exact P2|]; etrans; [exact P5|]; by apply prefix_app_r|].
    pose proof (at_ptr_prefix _ _ _ _ P5 A2) as A2'.
    eapply ap_list; [apply new_node_at|by eapply at_ptr_lt|by eapply at_ptr_lt| |]; (apply (at_ptr_prefix (s_nodes s5)); [by apply prefix_app_r|done]).
  - apply wpx_ret. exists (ts1 ++ replicate n (Tsym 38)), rest2, (backs n c). split; [by rewrite <- app_assoc|]. split; [by constructor|]. split; [done|].
    split; [by etrans|done].
Qed.

Lemma pipe_step k : exec_sound k -> pipe_sound k -> pipe_sound (S k).
Proof.
  intros IHe IHp s ts Ht Hk. cbn [parsepipe]. wp_step. wp_use (IHe s ts Ht ltac:(lia)). intros p s1 (ts1 & rest & c & -> & G1 & Ht1 & P1 & A1).
  rewrite length_app in Hk. wp_step. apply wp_any. wp_use (peek_spec buf Hbuf [124] s1 rest (one_symbol 124 eq_refl) Ht1). intros b s3 (q & -> & Ht3 & -> & _).
  destruct (starts_with [124] rest) eqn:Es.
  - destruct (starts_sym 124 rest eq_refl ltac:(done) Es) as [rest3 ->]. wp_step. apply wp_any. wp_use (gettoken_spec buf Hbuf _ _ Ht3).
    intros tok s4 (q2 & -> & _ & Ht4 & _). cbn [length] in Hk. wp_step. wp_use (IHp _ rest3 Ht4 ltac:(lia)).
    intros p5 s5 (ts5 & rest5 & c5 & -> & G5 & Ht5 & P5 & A5). eapply wpx_mono; [apply wp_any, new_node_spec| |done]. intros p6 s6 [-> ->].
    exists (ts1 ++ Tsym 124 :: ts5), rest5, (Pipe c c5). split; [by rewrite <- app_assoc|]. split; [by constructor|].
    split; [done|]. cbn [s_nodes set_nodes set_pos] in *. split; [etrans; [exact P1|]; etrans; [exact P5|]; by apply prefix_app_r|].
    pose proof (at_ptr_prefix _ _ _ _ P5 A1) as A1'.
    eapply ap_pipe; [apply new_node_at|by eapply at_ptr_lt|by eapply at_ptr_lt| |]; (apply (at_ptr_prefix (s_nodes s5)); [by apply prefix_app_r|done]).
  - apply wpx_ret. exists ts1, rest, c. split; [done|]. split; [by constructor|]. done.
Qed.

Lemma block_step k : line_sound k -> block_sound (S k).
Proof.
  intros IHl s ts Ht Hk. cbn [parseblock]. wp_step. apply wp_any. wp_use (peek_spec buf Hbuf [40] s ts (one_symbol 40 eq_refl) Ht).
  intros b s1 (q & -> & Ht1 & -> & _). destruct (starts_with [40] ts) eqn:Es; cbn [negb]; [|by apply wpx_panic].
  destruct (starts_sym 40 ts eq_refl ltac:(done) Es) as [rest ->]. wp_step. apply wp_any. wp_use (gettoken_spec buf Hbuf _ _ Ht1).
  intros tok s2 (q2 & -> & _ & Ht2 & _). cbn [length] in Hk. wp_step. wp_use (IHl _ rest Ht2 ltac:(lia)).
  intros p s3 (ts3 & rest3 & c & -> & G3 & Ht3 & P3 & A3). wp_step. apply wp_any. wp_use (peek_spec buf Hbuf [41] s3 rest3 (one_symbol 41 eq_refl) Ht3).
  intros b s4 (q4 & -> & Ht4 & -> & _). destruct (starts_with [41] rest3) eqn:Es4; cbn [negb]; [|by apply wpx_panic].
  destruct (starts_sym 41 rest3 eq_refl ltac:(done) Es4) as [rest4 ->]. wp_step. apply wp_any. wp_use (gettoken_spec buf Hbuf _ _ Ht4).
  intros tok5 s5 (q5 & -> & _ & Ht5 & _). rewrite length_app in Hk. cbn [length] in Hk. cbn [s_nodes set_pos] in P3.
  eapply wpx_mono; [apply (parseredirs_sound p k rest4 p [] _ Ht5)| |done]; [lia|apply ch_nil|cbn; by eapply at_ptr_lt|].
  intros r s6 (l & rest6 & -> & Hl & Ht6 & P6 & Hc & Hr). exists (Tsym 40 :: ts3 ++ Tsym 41 :: concat (map item_tokens l)), rest6, (foldl wrap c l).
  split; [cbn; by rewrite <- app_assoc|]. split; [by constructor|]. split; [done|]. cbn [s_nodes set_pos] in P6. split; [by etrans|].
  eapply chain_at; [exact Hc|]. by eapply at_ptr_prefix.
Qed.

Lemma exec_step k : block_sound k -> exec_sound (S k).
Proof.
  intros IHb s ts Ht Hk. cbn [parseexec]. wp_step. apply wp_any. wp_use (peek_spec buf Hbuf [40] s ts (one_symbol 40 eq_refl) Ht).
  intros b s1 (q & -> & Ht1 & -> & _). destruct (starts_with [40] ts) eqn:Es.
  - eapply wpx_mono; [apply (IHb _ ts Ht1); lia| |done]. done.
  - wp_step. apply wp_any. wp_use new_node_spec. intros p s2 [-> ->]. cbn [s_nodes set_pos]. set (s2 := set_nodes _ _). assert (Ht2 : parse_at s2 ts) by done.
    set (p := length (s_nodes s)). assert (Hlt : (p < length (s_nodes s2))%nat) by (cbn; rewrite length_app; cbn; lia).
    assert (HS : simple (s_nodes s) s2 p p []).
    { split; [split; [by apply prefix_app_r|done]|apply new_node_at|apply ch_nil|done|constructor|cbn; unfold MAXARGS; lia]. }
    wp_step. wp_use (parseredirs_sound p k ts p [] s2 Ht2 ltac:(lia) (ch_nil _ _) Hlt). intros r s3 (l & rest & -> & Hl & Ht3 & P3 & Hc3 & Hr3).
    pose proof (simple_grow _ s2 p p [] s3 r l HS P3 Hl Hc3 Hr3) as HS3. rewrite length_app in Hk.
    eapply wpx_mono; [apply (parseargs_sound (s_nodes s) p k rest r l s3 Ht3 ltac:(lia) HS3)| |done].
    intros r' s4 (l' & rest' & -> & Ht4 & HS4). exists (concat (map item_tokens (l ++ l'))), rest', (foldl wrap (Exec (words (l ++ l'))) (l ++ l')).
    destruct HS4 as [[S1 S1'] S2 S3 S4 S5 S6]. split; [by rewrite map_app, concat_app, <- app_assoc|]. split; [by constructor|]. split; [done|].
    split; [done|]. eapply chain_at; [done|]. by apply ap_exec.
Qed.

Lemma parse_sound k : line_sound k /\ pipe_sound k /\ exec_sound k /\ block_sound k.
Proof.
  induction k as [|k (I1 & I2 & I3 & I4)].
  - split; [|split; [|split]]; intros s ts _ Hk; lia.
  - split; [by apply line_step|]. split; [by apply pipe_step|]. split; [by apply exec_step|by apply block_step].
Qed.

End sound.

(** ** The parser is complete *)

(** The tokens that may follow a part of a line. *)
Definition follows (tk : bytes) (rest : list token) : Prop := rest = [] \/ starts_with tk rest = true.

Lemma follows_sym tk c rest : strchr tk c = true -> follows tk (Tsym c :: rest).
Proof. intros H. by right. Qed.

Lemma strchr_elem tk c : strchr tk c = true <-> c ∈ tk.
Proof.
  unfold strchr. rewrite existsb_exists. setoid_rewrite Z.eqb_eq. rewrite list_elem_of_In. split; [intros (x & Hx & ->); done|]. intros H. by exists c.
Qed.

Lemma follows_mono tk tk' rest : (forall c, c ∈ tk -> c ∈ tk') -> follows tk rest -> follows tk' rest.
Proof.
  intros Hs [->|H]; [by left|]. right. destruct rest as [|[q e|c|] rest]; try done; cbn [starts_with] in *; apply strchr_elem, Hs, strchr_elem, H.
Qed.

(** What follows does not start with other symbols. *)
Lemma follows_not tk tk' rest : (forall c, c ∈ tk -> c ∉ tk') -> follows tk rest -> starts_with tk' rest = false.
Proof.
  intros Hs [->|H]; [done|]. apply not_true_is_false. intros H'. destruct rest as [|[q e|c|] rest]; try done; cbn [starts_with] in *;
    rewrite strchr_elem in H, H'; by eapply Hs.
Qed.

Scheme g_line_min := Induction for g_line Sort Prop
  with g_pipe_min := Induction for g_pipe Sort Prop
  with g_exec_min := Induction for g_exec Sort Prop.
Combined Scheme grammar_ind from g_line_min, g_pipe_min, g_exec_min.

Section complete.
Variable buf : bytes.
Hypothesis Hbuf : no_nul buf.

Abbreviation parse_at := (parse_at buf).
Abbreviation es := (length buf).

(** A look at the next token, with its outcome known. *)
Lemma peek_known tk s ts b (Q : bool -> shell -> Prop) : (forall c, c ∈ tk -> strchr symbols c = true) -> parse_at s ts -> starts_with tk ts = b ->
  (forall p, parse_at (set_pos p s) ts -> Q b (set_pos p s)) -> wp (peek es tk) Q s.
Proof.
  intros Hs Ht Hb HQ. eapply wpx_mono; [apply (peek_spec buf Hbuf tk s ts); [|done]| |done]; [intros c Hc; apply Hs, strchr_elem, Hc|].
  intros b' s' (p & -> & Ht' & -> & _). rewrite Hb. by apply HQ.
Qed.

Lemma skip_token s t ts (Q : (Z * (nat * nat)) -> shell -> Prop) : parse_at s (t :: ts) ->
  (forall p w, parse_at (set_pos p s) ts -> (match t with Tword q e => w = (q, e) | _ => True end) -> Q (token_code t, w) (set_pos p s)) ->
  wp (gettoken es) Q s.
Proof.
  intros Ht HQ. eapply wpx_mono; [by apply (gettoken_spec buf Hbuf s (t :: ts))| |done]. intros [r w] s' (p & -> & E & Ht' & Hm). cbn [fst snd] in *. subst r.
  apply HQ; [done|]. by destruct t.
Qed.

Ltac is_symbol := intros ?; rewrite ?elem_of_cons, ?elem_of_nil; intros; destruct_or?; subst; try done; reflexivity.
Ltac not_in := let H := fresh in let H' := fresh in intros ? H H'; rewrite !elem_of_cons, elem_of_nil in H; rewrite !elem_of_cons, elem_of_nil in H'; lia.

Lemma parseredirs_complete p rest : starts_with [60; 62] rest = false -> forall l k r xs s, Forall is_redir l ->
  parse_at s (concat (map item_tokens l) ++ rest) -> (length l < k)%nat -> chain (s_nodes s) p r xs -> (r < length (s_nodes s))%nat ->
  wp (parseredirs k r es) (fun r' s' => parse_at s' rest /\ s_nodes s `prefix_of` s_nodes s' /\ chain (s_nodes s') p r' (xs ++ l) /\ (r' < length (s_nodes s'))%nat) s.
Proof.
  intros Hrest. induction l as [|x l IH]; intros [|k] r xs s Hl Ht Hk Hc Hr; cbn [length] in Hk; try lia; cbn [parseredirs].
  - wp_step. eapply (peek_known _ _ rest); [is_symbol|done|done|]. intros q Ht1. apply wpx_ret. split; [done|]. split; [done|]. by rewrite app_nil_r.
  - apply Forall_cons in Hl as [Hx Hl]. destruct x as [|op [f e]]; [done|]. cbn [map concat item_tokens app] in Ht. cbn in Hx. wp_step.
    eapply (peek_known _ _ _ true); [is_symbol|exact Ht|by destruct Hx as [->|[->| ->]]|]. intros q Ht1. cbv beta iota. wp_step. eapply skip_token; [exact Ht1|].
    intros q2 w2 Ht2 _. cbn [fst]. rewrite (op_code op Hx). wp_step. eapply skip_token; [exact Ht2|]. intros q3 w Ht3 ->. cbn [fst snd token_code Z.eqb Pos.eqb negb].
    wp_step. wp_use (redir_step buf _ _ r p xs op (f, e) Ht3 Hc Hr). intros r1 s4 (Ht4 & P4 & Hc4 & Hr4).
    eapply wpx_mono; [apply (IH k r1 (xs ++ [Iredir op (f, e)]) s4 Hl Ht4 ltac:(lia) Hc4 Hr4)| |done].
    intros r' s' (Ht' & P' & Hc' & Hr'). split; [done|]. split; [by etrans|]. split; [by rewrite <- app_assoc in Hc'|done].
Qed.

Lemma split_redirs l : Forall item_ok l -> exists l1 l2, l = l1 ++ l2 /\ Forall is_redir l1 /\ (l2 = [] \/ exists w l3, l2 = Iword w :: l3).
Proof.
  induction 1 as [|x l Hx _ (l1 & l2 & -> & H1 & H2)]; [exists [], []; split; [done|]; split; [constructor|by left]|]. destruct x as [w|op w].
  - exists [], (Iword w :: l1 ++ l2). split; [done|]. split; [constructor|]. right. by exists w, (l1 ++ l2).
  - exists (Iredir op w :: l1), l2. split; [done|]. split; [by constructor|done].
Qed.

Definition after_exec : bytes := [124; 41; 38; 59].

(** Neither a word nor what may follow starts with a redirection. *)
Lemma args_no_op l2 rest : (l2 = [] \/ exists w l3, l2 = Iword w :: l3) -> follows after_exec rest ->
  starts_with [60; 62] (concat (map item_tokens l2) ++ rest) = false.
Proof. intros [->|(w & l3 & ->)] Hf; [|done]. eapply follows_not; [|exact Hf]. unfold after_exec. not_in. Qed.

Lemma length_tokens l : (length l <= length (concat (map item_tokens l)))%nat.
Proof. induction l as [|x l IH]; [cbn; lia|]. cbn [map concat length]. rewrite length_app. destruct x; cbn [item_tokens length]; lia. Qed.

Lemma parseargs_complete pre cmd rest : follows after_exec rest -> forall n l k r xs s, (length l <= n)%nat -> Forall item_ok l -> (l = [] \/ exists w l3, l = Iword w :: l3) ->
  parse_at s (concat (map item_tokens l) ++ rest) -> (length l < k)%nat -> simple pre s cmd r xs -> (length (words (xs ++ l)) < MAXARGS)%nat ->
  wp (parseargs k cmd r es) (fun r' s' => parse_at s' rest /\ simple pre s' cmd r' (xs ++ l)) s.
Proof.
  intros Hf. induction n as [|n IH]; intros l [|k] r xs s Hn Hl Hw Ht Hk HS Hm; try lia; cbn [parseargs].
  1: assert (l = []) as -> by (destruct l; [done|cbn in Hn; lia]). 2: destruct Hw as [->|([f e] & l3 & ->)].
  1,2: cbn [map concat app] in Ht; wp_step; destruct Hf as [->|Hf];
    [eapply (peek_known _ _ [] false); [is_symbol|exact Ht|reflexivity|]; intros q Ht1; cbv beta iota; wp_step;
     eapply wpx_mono; [apply (gettoken_spec buf Hbuf _ [] Ht1)| |done]; intros tok s2 (q2 & -> & -> & Ht2); apply wpx_ret; rewrite app_nil_r; split; [done|]; destruct HS; by split
    |eapply (peek_known _ _ rest); [is_symbol|exact Ht|exact Hf|]; intros q Ht1; apply wpx_ret; rewrite app_nil_r; split; [done|]; destruct HS; by split].
  apply Forall_cons in Hl as [_ Hl]. cbn [map concat item_tokens app length fst snd] in *. pose proof HS as [S1 S2 S3 S4 S5 S6].
  assert (Ew : words (xs ++ Iword (f, e) :: l3) = words xs ++ (f, e) :: words l3) by apply words_app. rewrite Ew, length_app in Hm. cbn [length] in Hm.
  wp_step. eapply (peek_known _ _ _ false); [is_symbol|exact Ht|done|]. intros q Ht1. cbv beta iota. wp_step. eapply skip_token; [exact Ht1|].
  intros q2 w Ht2 ->. cbn [fst snd token_code Z.eqb Pos.eqb negb]. wp_step. wp_use (add_arg_spec (set_pos q2 (set_pos q s)) cmd (words xs) (f, e) S2).
  intros m s3 [-> ->]. rewrite (proj2 (Nat.leb_gt _ _)) by lia.
  pose proof (simple_word pre (set_pos q2 (set_pos q s)) cmd r xs (f, e) (Build_simple pre (set_pos q2 (set_pos q s)) cmd r xs S1 S2 S3 S4 S5 S6) ltac:(lia)) as HS3.
  set (s3 := set_nodes _ _) in *. destruct (split_redirs l3 Hl) as (l1 & l2 & -> & H1 & H2). rewrite map_app, concat_app, <- app_assoc in Ht2.
  rewrite length_app in Hn, Hk. apply Forall_app in Hl as [_ Hl2]. assert (Ht3 : parse_at s3 (concat (map item_tokens l1) ++ concat (map item_tokens l2) ++ rest)) by exact Ht2.
  wp_step. wp_use (parseredirs_complete cmd _ (args_no_op l2 rest H2 Hf) l1 k r _ s3 H1 Ht3 ltac:(lia) (si_chain _ _ _ _ _ HS3) (si_lt _ _ _ _ _ HS3)).
  intros r1 s4 (Ht4 & P4 & Hc4 & Hr4). pose proof (simple_grow pre s3 cmd r _ s4 r1 l1 HS3 P4 H1 Hc4 Hr4) as HS4.
  eapply wpx_mono; [apply (IH l2 k r1 _ s4 ltac:(lia) Hl2 H2 Ht4 ltac:(lia) HS4)| |done].
  - rewrite !words_app, !length_app in *. cbn [length]. change (words [Iword (f, e)]) with [(f, e)]. cbn [length]. lia.
  - intros r' s' (Ht' & HS'). split; [done|]. rewrite <- !app_assoc in HS'. exact HS'.
Qed.

Lemma parseback_complete rest : starts_with [38] rest = false -> forall n k p c s, parse_at s (replicate n (Tsym 38) ++ rest) -> (n < k)%nat -> at_ptr (s_nodes s) p c ->
  wp (parseback k p es) (fun p' s' => parse_at s' rest /\ s_nodes s `prefix_of` s_nodes s' /\ at_ptr (s_nodes s') p' (backs n c)) s.
Proof.
  intros Hr. induction n as [|n IH]; intros [|k] p c s Ht Hk Hp; try lia; cbn [parseback replicate app] in *.
  - wp_step. eapply (peek_known _ _ rest); [is_symbol|done|done|]. intros q Ht1. by apply wpx_ret.
  - wp_step. eapply (peek_known _ _ _ true); [is_symbol|exact Ht|reflexivity|]. intros q Ht1. cbv beta iota. wp_step. eapply skip_token; [exact Ht1|]. intros q2 w Ht2 _.
    wp_step. wp_use new_node_spec. intros p1 s3 [-> ->]. cbn [s_nodes set_pos]. eapply wpx_mono; [apply (IH k _ (Back c))| |done]; [exact Ht2|lia| |].
    + cbn [s_nodes set_nodes set_pos]. eapply ap_back; [apply new_node_at|by eapply at_ptr_lt|]. apply (at_ptr_prefix (s_nodes s)); [by apply prefix_app_r|done].
    + cbn [s_nodes set_nodes set_pos]. intros p' s' (Ht' & P' & Hp'). split; [done|]. split; [|done]. etrans; [|exact P']. by apply prefix_app_r.
Qed.

(** The part of the line is parsed, up to what follows it. *)
Definition complete_post (s : shell) (rest : list token) (c : cmd) (p : nat) (s' : shell) : Prop :=
  parse_at s' rest /\ s_nodes s `prefix_of` s_nodes s' /\ at_ptr (s_nodes s') p c.

Definition line_complete (ts : list token) (c : cmd) : Prop := forall s rest k, parse_at s (ts ++ rest) -> follows [41] rest ->
  (4 * length (ts ++ rest) + 4 <= k)%nat -> wp (parseline k es) (complete_post s rest c) s.
Definition pipe_complete (ts : list token) (c : cmd) : Prop := forall s rest k, parse_at s (ts ++ rest) -> follows [41; 38; 59] rest ->
  (4 * length (ts ++ rest) + 3 <= k)%nat -> wp (parsepipe k es) (complete_post s rest c) s.
Definition exec_complete (ts : list token) (c : cmd) : Prop := forall s rest k, parse_at s (ts ++ rest) -> follows after_exec rest ->
  (4 * length (ts ++ rest) + 2 <= k)%nat -> wp (parseexec k es) (complete_post s rest c) s.

(** A pipe with its ampersands, up to what follows them. *)
Lemma backs_complete ts c n s rest k : pipe_complete ts c -> parse_at s (ts ++ replicate n (Tsym 38) ++ rest) -> follows [41; 59] rest ->
  (4 * length (ts ++ replicate n (Tsym 38) ++ rest) + 4 <= S k)%nat ->
  wp (let! cmd := parsepipe k es in parseback k cmd es) (complete_post s rest (backs n c)) s.
Proof.
  intros Hp Ht Hf Hk. wp_step. wp_use (Hp s (replicate n (Tsym 38) ++ rest) k Ht); [|lia|].
  { destruct n; [|by right]. cbn. eapply follows_mono; [|exact Hf]. intros c'. rewrite !elem_of_cons. naive_solver. }
  intros p s1 (Ht1 & P1 & A1). rewrite !length_app, length_replicate in Hk.
  assert (Hno : starts_with [38] rest = false) by (eapply follows_not; [|exact Hf]; not_in).
  eapply wpx_mono; [apply (parseback_complete rest Hno n k p c s1 Ht1 ltac:(lia) A1)| |done].
  intros p2 s2 (Ht2 & P2 & A2). split; [done|]. split; [by etrans|done].
Qed.

Lemma bind_assoc {S A B C} (c : M S A) (f : A -> M S B) (g : B -> M S C) Q E s :
  wpx (let! b := (let! a := c in f a) in g b) Q E s -> wpx (let! a := c in let! b := f a in g b) Q E s.
Proof. unfold wpx, bind. destruct (c s); done. Qed.

Lemma line_end_complete ts c n : pipe_complete ts c -> line_complete (ts ++ replicate n (Tsym 38)) (backs n c).
Proof.
  intros Hp s rest [|k] Ht Hf Hk; [lia|]. cbn [parseline]. rewrite <- app_assoc in Ht, Hk. apply bind_assoc. wp_step.
  wp_use (backs_complete ts c n s rest k Hp Ht); [eapply follows_mono; [|exact Hf]; intros c'; rewrite !elem_of_cons; naive_solver|done|].
  intros p2 s2 (Ht2 & P2 & A2). wp_step. eapply (peek_known _ _ rest false); [is_symbol|done|by eapply follows_not; [|exact Hf]; not_in|].
  intros q Ht3. apply wpx_ret. done.
Qed.

Lemma line_list_complete ts c n ts' c' : pipe_complete ts c -> line_complete ts' c' ->
  line_complete (ts ++ replicate n (Tsym 38) ++ Tsym 59 :: ts') (List (backs n c) c').
Proof.
  intros Hp Hl s rest [|k] Ht Hf Hk; [lia|]. cbn [parseline]. rewrite <- !app_assoc in Ht, Hk. cbn [app] in Ht, Hk. apply bind_assoc. wp_step.
  wp_use (backs_complete ts c n s (Tsym 59 :: ts' ++ rest) k Hp Ht); [by right|done|]. intros p2 s2 (Ht2 & P2 & A2).
  wp_step. eapply (peek_known _ _ _ true); [is_symbol|exact Ht2|done|]. intros q Ht3. cbv beta iota. wp_step. eapply skip_token; [exact Ht3|]. intros q4 w Ht4 _.
  rewrite !length_app in Hk. cbn [length] in Hk. wp_step. wp_use (Hl _ rest k Ht4 Hf); [lia|]. intros p5 s5 (Ht5 & P5 & A5).
  eapply wpx_mono; [apply new_node_spec| |done]. intros p6 s6 [-> ->]. cbn [s_nodes set_pos] in P5. split; [done|]. cbn [s_nodes set_nodes].
  split; [etrans; [exact P2|]; etrans; [exact P5|]; by apply prefix_app_r|]. pose proof (at_ptr_prefix _ _ _ _ P5 A2) as A2'.
  eapply ap_list; [apply new_node_at|by eapply at_ptr_lt|by eapply at_ptr_lt| |]; (apply (at_ptr_prefix (s_nodes s5)); [by apply prefix_app_r|done]).
Qed.

Lemma pipe_exec_complete ts c : exec_complete ts c -> pipe_complete ts c.
Proof.
  intros He s rest [|k] Ht Hf Hk; [lia|]. cbn [parsepipe]. wp_step. wp_use (He s rest k Ht); [|lia|].
  { eapply follows_mono; [|exact Hf]. intros c'. unfold after_exec. rewrite !elem_of_cons. naive_solver. }
  intros p s1 (Ht1 & P1 & A1). wp_step. eapply (peek_known _ _ rest false); [is_symbol|done|by eapply follows_not; [|exact Hf]; not_in|].
  intros q Ht2. by apply wpx_ret.
Qed.

Lemma pipe_pipe_complete ts c ts' c' : exec_complete ts c -> pipe_complete ts' c' -> pipe_complete (ts ++ Tsym 124 :: ts') (Pipe c c').
Proof.
  intros He Hp s rest [|k] Ht Hf Hk; [lia|]. cbn [parsepipe]. rewrite <- app_assoc in Ht, Hk. cbn [app] in Ht, Hk. wp_step.
  wp_use (He s (Tsym 124 :: ts' ++ rest) k Ht); [by right|lia|]. intros p2 s2 (Ht2 & P2 & A2).
  wp_step. eapply (peek_known _ _ _ true); [is_symbol|exact Ht2|done|]. intros q Ht3. cbv beta iota. wp_step. eapply skip_token; [exact Ht3|]. intros q4 w Ht4 _.
  rewrite !length_app in Hk. cbn [length] in Hk. wp_step. wp_use (Hp _ rest k Ht4 Hf); [rewrite length_app in *; lia|]. intros p5 s5 (Ht5 & P5 & A5).
  eapply wpx_mono; [apply new_node_spec| |done]. intros p6 s6 [-> ->]. cbn [s_nodes set_pos] in P5. split; [done|]. cbn [s_nodes set_nodes].
  split; [etrans; [exact P2|]; etrans; [exact P5|]; by apply prefix_app_r|]. pose proof (at_ptr_prefix _ _ _ _ P5 A2) as A2'.
  eapply ap_pipe; [apply new_node_at|by eapply at_ptr_lt|by eapply at_ptr_lt| |]; (apply (at_ptr_prefix (s_nodes s5)); [by apply prefix_app_r|done]).
Qed.

Lemma exec_simple_complete l : Forall item_ok l -> (length (words l) < MAXARGS)%nat -> exec_complete (concat (map item_tokens l)) (foldl wrap (Exec (words l)) l).
Proof.
  intros Hl Hm s rest [|k] Ht Hf Hk; [lia|]. cbn [parseexec]. wp_step. eapply (peek_known _ _ _ false); [is_symbol|exact Ht| |].
  { destruct l as [|[w|op w] l]; [eapply follows_not; [|exact Hf]; unfold after_exec; not_in|done|].
    apply Forall_cons in Hl as [Hx _]. cbn in Hx. by destruct Hx as [->|[->| ->]]. }
  intros q Ht1. cbv beta iota. wp_step. wp_use new_node_spec. intros p s2 [-> ->]. cbn [s_nodes set_pos]. set (s2 := set_nodes _ _). set (p := length (s_nodes s)).
  assert (Hlt : (p < length (s_nodes s2))%nat) by (cbn; rewrite length_app; cbn; lia).
  assert (HS : simple (s_nodes s) s2 p p []).
  { split; [split; [by apply prefix_app_r|done]|apply new_node_at|apply ch_nil|done|constructor|cbn; unfold MAXARGS; lia]. }
  destruct (split_redirs l Hl) as (l1 & l2 & -> & H1 & H2). pose proof (length_tokens (l1 ++ l2)) as Hlen. rewrite !length_app in Hk, Hlen.
  assert (Ht2 : parse_at s2 (concat (map item_tokens l1) ++ concat (map item_tokens l2) ++ rest)) by (rewrite map_app, concat_app, <- app_assoc in Ht1; exact Ht1).
  wp_step. wp_use (parseredirs_complete p _ (args_no_op l2 rest H2 Hf) l1 k p [] s2 H1 Ht2 ltac:(lia) (ch_nil _ _) Hlt).
  intros r s3 (Ht3 & P3 & Hc3 & Hr3). pose proof (simple_grow _ s2 p p [] s3 r l1 HS P3 H1 Hc3 Hr3) as HS3. apply Forall_app in Hl as [_ Hl2].
  eapply wpx_mono; [apply (parseargs_complete (s_nodes s) p rest Hf (length l2) l2 k r l1 s3 ltac:(lia) Hl2 H2 Ht3 ltac:(lia) HS3 Hm)| |done].
  intros r' s4 (Ht4 & [[S1 S1'] S2 S3 S4 S5 S6]). split; [done|]. split; [done|]. eapply chain_at; [done|]. by apply ap_exec.
Qed.

Lemma exec_block_complete ts c l : line_complete ts c -> Forall is_redir l ->
  exec_complete (Tsym 40 :: ts ++ Tsym 41 :: concat (map item_tokens l)) (foldl wrap c l).
Proof.
  intros Hline Hl s rest [|[|k]] Ht Hf Hk; [lia|lia|]. cbn [parseexec app] in *. rewrite <- app_assoc in Ht, Hk. cbn [app length] in *.
  wp_step. eapply (peek_known _ _ _ true); [is_symbol|exact Ht|done|]. intros q Ht1. cbv beta iota. cbn [parseblock].
  wp_step. eapply (peek_known _ _ _ true); [is_symbol|exact Ht1|done|]. intros q1 Ht2. cbn [negb]. cbv beta iota. wp_step. eapply skip_token; [exact Ht2|].
  intros q3 w Ht3 _. wp_step. wp_use (Hline _ (Tsym 41 :: concat (map item_tokens l) ++ rest) k Ht3); [by right|lia|]. intros p s4 (Ht4 & P4 & A4).
  cbn [s_nodes set_pos] in P4. wp_step. eapply (peek_known _ _ _ true); [is_symbol|exact Ht4|done|]. intros q5 Ht5. cbn [negb]. cbv beta iota.
  wp_step. eapply skip_token; [exact Ht5|]. intros q6 w6 Ht6 _. pose proof (length_tokens l) as Hlen. rewrite length_app in Hk. cbn [length] in Hk. rewrite length_app in Hk.
  assert (Hno : starts_with [60; 62] rest = false) by (eapply follows_not; [|exact Hf]; unfold after_exec; not_in).
  eapply wpx_mono; [apply (parseredirs_complete p rest Hno l k p [] _ Hl Ht6 ltac:(lia) (ch_nil _ _))| |done].
  - cbn. by eapply at_ptr_lt.
  - intros r s7 (Ht7 & P7 & Hc & Hr). cbn [s_nodes set_pos] in P7. split; [done|]. split; [by etrans|]. eapply chain_at; [exact Hc|]. by eapply at_ptr_prefix.
Qed.

Lemma parse_complete : (forall ts c, g_line ts c -> line_complete ts c) /\ (forall ts c, g_pipe ts c -> pipe_complete ts c) /\ (forall ts c, g_exec ts c -> exec_complete ts c).
Proof.
  apply (grammar_ind (fun ts c _ => line_complete ts c) (fun ts c _ => pipe_complete ts c) (fun ts c _ => exec_complete ts c)); intros.
  - by apply line_end_complete.
  - by apply line_list_complete.
  - by apply pipe_exec_complete.
  - by apply pipe_pipe_complete.
  - by apply exec_simple_complete.
  - by apply exec_block_complete.
Qed.

End complete.
