(* ===== verification/ShTheorems.v ===== *)
(** * What the parser of the shell promises (src/sh.c)

    [parsecmd] accepts exactly the lines of the grammar of Sh.v, builds the
    command the grammar gives them, and leaves its words as C strings. *)

From S2P Require Import Prelude.
From S2P Require Import Bytes.
From S2P Require Import Sh.
From S2P Require Import ShSpec.

Open Scope Z_scope.

(** The line before it is parsed. *)
Definition new_shell (buf : bytes) : shell := mkShell buf 0 [].

(** The line with the ends of words set to 0. *)
Definition nul_spans (buf : bytes) (sp : list (nat * nat)) : bytes := foldl (fun b w => <[w.2 := 0]> b) buf sp.

Definition word_char (c : Z) : Prop := strchr whitespace c = false /\ strchr symbols c = false.

(** A word of the line, as long as it can be. *)
Definition is_word (buf : bytes) (q e : nat) : Prop :=
  (q < e <= length buf)%nat /\ (forall j, (q <= j < e)%nat -> word_char (rd8 buf j)) /\ (e = length buf \/ ~ word_char (rd8 buf e)).

(** * Lemmas *)

(** ** Ending the words *)

Lemma mfor_put_nul argv : forall s, mfor argv (fun w : nat * nat => put_nul w.2) s = Ret tt (set_buf (nul_spans (s_buf s) argv) s).
Proof.
  induction argv as [|w argv IH]; intros s; [by destruct s|]. cbn [mfor]. unfold bind, put_nul, modify. by rewrite IH.
Qed.

Lemma nul_spans_app buf l l' : nul_spans buf (l ++ l') = nul_spans (nul_spans buf l) l'.
Proof. apply foldl_app. Qed.

Lemma nulterminate_spec l p c : at_ptr l p c -> forall k s, s_nodes s = l -> (p < k)%nat ->
  nulterminate k p s = Ret tt (set_buf (nul_spans (s_buf s) (spans c)) s).
Proof.
  induction 1 as [p argv Hp|p q c f e m d Hp Hq _ IH|p q r c d Hp Hq Hr _ IH1 _ IH2|p q r c d Hp Hq Hr _ IH1 _ IH2|p q c Hp Hq _ IH];
    intros [|k] s Hs Hk; try lia; cbn [nulterminate spans]; unfold bind at 1, gets; rewrite Hs, Hp.
  - apply mfor_put_nul.
  - unfold bind. rewrite IH by (done || lia). rewrite nul_spans_app. done.
  - unfold bind. rewrite IH1 by (done || lia). rewrite IH2 by (done || lia). rewrite nul_spans_app. done.
  - unfold bind. rewrite IH1 by (done || lia). rewrite IH2 by (done || lia). rewrite nul_spans_app. done.
  - by rewrite IH by (done || lia).
Qed.

Lemma length_nul_spans sp : forall buf, length (nul_spans buf sp) = length buf.
Proof. induction sp as [|w sp IH]; intros buf; [done|]. cbn. unfold nul_spans in IH. by rewrite IH, length_insert. Qed.

Lemma rd8_nul_spans sp : forall buf j, (j < length buf)%nat -> rd8 (nul_spans buf sp) j = if decide (j ∈ map snd sp) then 0 else rd8 buf j.
Proof.
  induction sp as [|w sp IH]; intros buf j Hj; [done|]. cbn [nul_spans foldl map]. fold (nul_spans (<[w.2 := 0]> buf) sp). rewrite IH by (by rewrite length_insert).
  destruct (decide (j ∈ map snd sp)); [rewrite decide_True; [done|set_solver]|]. unfold rd8. destruct (decide (j = w.2)) as [->|Hne].
  - rewrite list_lookup_insert_eq by done. rewrite decide_True; [done|set_solver].
  - rewrite list_lookup_insert_ne by done. rewrite decide_False; [done|set_solver].
Qed.

(** ** The words of the tokens *)

Lemma lex_words buf : forall l cur i q e, drop i buf = l -> (i <= length buf)%nat ->
  (forall q0, cur = Some q0 -> (q0 < i)%nat /\ forall j, (q0 <= j < i)%nat -> word_char (rd8 buf j)) ->
  Tword q e ∈ lex cur i l -> is_word buf q e.
Proof.
  assert (Hfl : forall (cur : option nat) i q e, (i <= length buf)%nat -> (i = length buf \/ ~ word_char (rd8 buf i)) ->
    (forall q0, cur = Some q0 -> (q0 < i)%nat /\ forall j, (q0 <= j < i)%nat -> word_char (rd8 buf j)) -> Tword q e ∈ flush cur i -> is_word buf q e).
  { intros [q0|] i q e Hi Hend Hc Hin; cbn in Hin; [|by apply elem_of_nil in Hin]. apply list_elem_of_singleton in Hin as [= -> ->].
    destruct (Hc q0 eq_refl) as [H1 H2]. split; [lia|]. done. }
  intros l. remember (length l) as n eqn:Hn. assert (Hle : (length l <= n)%nat) by lia. clear Hn. revert l Hle.
  induction n as [|n IH]; intros l Hle cur i q e Hd Hi Hcur Hin.
  { destruct l; [|cbn in Hle; lia]. eapply Hfl; [exact Hi| |exact Hcur|exact Hin]. left. apply (f_equal length) in Hd. rewrite length_drop in Hd. cbn in Hd. lia. }
  destruct l as [|c l]; cbn [lex] in Hin. { eapply Hfl; [exact Hi| |exact Hcur|exact Hin]. left. apply (f_equal length) in Hd. rewrite length_drop in Hd. cbn in Hd. lia. }
  cbn [length] in Hle. assert (Hlt : (i < length buf)%nat) by (apply (f_equal length) in Hd; rewrite length_drop in Hd; cbn [length] in Hd; lia).
  assert (Hc : rd8 buf i = c). { unfold rd8. rewrite <- (Nat.add_0_r i), <- lookup_drop, Hd. done. }
  assert (Hd1 : drop (S i) buf = l). { replace (S i) with (i + 1)%nat by lia. rewrite <- drop_drop, Hd. done. }
  assert (Hnone : forall q0 : nat, None = Some q0 -> (q0 < S i)%nat /\ forall j, (q0 <= j < S i)%nat -> word_char (rd8 buf j)) by done.
  destruct (strchr whitespace c) eqn:Hw; [|destruct (strchr symbols c) eqn:Hy].
  - apply elem_of_app in Hin as [Hin|Hin]; [|by eapply (IH l); [lia|exact Hd1|lia|exact Hnone|exact Hin]].
    eapply Hfl; [exact Hi| |exact Hcur|exact Hin]. right. rewrite Hc. intros [E _]. congruence.
  - apply elem_of_app in Hin as [Hin|Hin]; [eapply Hfl; [exact Hi| |exact Hcur|exact Hin]; right; rewrite Hc; intros [_ E]; congruence|].
    destruct l as [|d l]; [by apply list_elem_of_singleton in Hin|]. destruct ((c =? 62) && (d =? 62)); apply elem_of_cons in Hin as [Hin|Hin]; try done.
    + assert (Hd2 : drop (S (S i)) buf = l). { replace (S (S i)) with (S i + 1)%nat by lia. rewrite <- drop_drop, Hd1. done. }
      assert (S (S i) <= length buf)%nat. { apply (f_equal length) in Hd1. rewrite length_drop in Hd1. cbn [length] in Hd1. lia. }
      eapply (IH l); [cbn [length] in Hle; lia|exact Hd2|done| |exact Hin]. done.
    + by eapply (IH (d :: l)); [lia|exact Hd1|lia|exact Hnone|exact Hin].
  - eapply (IH l); [lia|exact Hd1|lia| |exact Hin]. intros q0 [= <-]. assert (Hwc : word_char (rd8 buf i)) by (by rewrite Hc).
    destruct cur as [q1|]; cbn [default]; unfold id.
    + destruct (Hcur q1 eq_refl) as [H1 H2]. split; [lia|]. intros j Hj. destruct (decide (j = i)) as [->|]; [done|]. apply H2. lia.
    + split; [lia|]. intros j Hj. by replace j with i by lia.
Qed.

Lemma tokens_words buf q e : Tword q e ∈ tokens buf -> is_word buf q e.
Proof. intros H. eapply (lex_words buf (drop 0 buf) None 0); [done|lia|done|]. by rewrite drop_0. Qed.

Lemma spans_wrap l : forall c w, w ∈ spans (foldl wrap c l) -> w ∈ spans c \/ Tword w.1 w.2 ∈ concat (map item_tokens l).
Proof.
  induction l as [|x l IH]; intros c w Hw; [by left|]. cbn [foldl map concat] in *. destruct (IH _ _ Hw) as [H|H]; [|right; set_solver].
  destruct x as [v|op v]; cbn [wrap spans item_tokens] in *; [by left|]. apply elem_of_app in H as [H|H%list_elem_of_singleton]; [by left|]. subst v. right. set_solver.
Qed.

Lemma words_tokens l w : w ∈ words l -> Tword w.1 w.2 ∈ concat (map item_tokens l).
Proof.
  unfold words. rewrite list_elem_of_omap. intros ([v|op v] & Hx & E); [|done]. injection E as ->. apply list_elem_of_split in Hx as (l1 & l2 & ->).
  rewrite map_app, concat_app. cbn. set_solver.
Qed.

Lemma spans_backs n : forall c, spans (backs n c) = spans c.
Proof. induction n as [|n IH]; intros c; [done|]. cbn. by rewrite IH. Qed.

(** The words of a command are words of its tokens. *)
Lemma spans_tokens : (forall ts c, g_line ts c -> forall w, w ∈ spans c -> Tword w.1 w.2 ∈ ts) /\
  (forall ts c, g_pipe ts c -> forall w, w ∈ spans c -> Tword w.1 w.2 ∈ ts) /\ (forall ts c, g_exec ts c -> forall w, w ∈ spans c -> Tword w.1 w.2 ∈ ts).
Proof.
  apply (grammar_ind (fun ts c _ => forall w, w ∈ spans c -> Tword w.1 w.2 ∈ ts) (fun ts c _ => forall w, w ∈ spans c -> Tword w.1 w.2 ∈ ts)
    (fun ts c _ => forall w, w ∈ spans c -> Tword w.1 w.2 ∈ ts)).
  - intros ts c n _ IH w. rewrite spans_backs. set_solver.
  - intros ts c n ts' c' _ IH _ IH' w. cbn [spans]. rewrite spans_backs. set_solver.
  - done.
  - intros ts c ts' c' _ IH _ IH' w. cbn [spans]. set_solver.
  - intros l _ _ w Hw. destruct (spans_wrap _ _ _ Hw) as [H|H]; [|done]. by apply words_tokens.
  - intros ts c l _ IH _ w Hw. destruct (spans_wrap _ _ _ Hw) as [H|H]; set_solver.
Qed.

(** ** The strings *)

Lemma cstr_at_take l n : (forall j, (j < n)%nat -> exists c, l !! j = Some c /\ c <> 0) -> (l !! n = None \/ l !! n = Some 0) -> cstr_at l = take n l.
Proof.
  revert n. induction l as [|c l IH]; intros n Hn He; [by rewrite take_nil|]. destruct n as [|n].
  - destruct He as [He|He]; [done|]. injection He as ->. done.
  - destruct (Hn 0%nat) as (d & [= ->] & Hd); [lia|]. cbn. rewrite (proj2 (Z.eqb_neq _ _) Hd). f_equal. apply IH; [|done].
    intros j Hj. destruct (Hn (S j)) as (x & Hx & Hx0); [lia|]. by exists x.
Qed.

Lemma word_string buf sp q e : no_nul buf -> (forall w, w ∈ sp -> is_word buf w.1 w.2) -> (q, e) ∈ sp ->
  string_at (nul_spans buf sp) q = slice buf q (e - q).
Proof.
  intros Hb Hsp Hin. destruct (Hsp _ Hin) as ([H1 H2] & H3 & H4). cbn [fst snd] in *.
  assert (Hlk : forall j, (j < length buf)%nat -> nul_spans buf sp !! j = Some (rd8 (nul_spans buf sp) j)).
  { intros j Hj. unfold rd8. destruct (lookup_lt_is_Some_2 (nul_spans buf sp) j) as [c ->]; [by rewrite length_nul_spans|done]. }
  assert (Hout : forall j, (q <= j < e)%nat -> j ∉ map snd sp).
  { intros j Hj Hj'. apply list_elem_of_fmap in Hj' as (w & -> & Hw). destruct (Hsp w Hw) as (_ & _ & [E|E]); [lia|]. by apply E, H3. }
  unfold string_at. rewrite (cstr_at_take _ (e - q)).
  - unfold slice. apply list_eq. intros j. rewrite !lookup_take. case_decide as Hj; [|done]. rewrite !lookup_drop, Hlk by lia.
    rewrite rd8_nul_spans, decide_False by (lia || (apply Hout; lia)). unfold rd8. destruct (lookup_lt_is_Some_2 buf (q + j)%nat) as [c ->]; [lia|done].
  - intros j Hj. rewrite lookup_drop, Hlk by lia. eexists. split; [done|]. rewrite rd8_nul_spans, decide_False by (lia || (apply Hout; lia)).
    unfold rd8. destruct (lookup_lt_is_Some_2 buf (q + j)%nat) as [c Hc]; [lia|]. rewrite Hc. exact (Forall_lookup_1 _ _ _ _ Hb Hc).
  - rewrite lookup_drop. replace (q + (e - q))%nat with e by lia. destruct (decide (e < length buf)%nat) as [He|He].
    + right. rewrite Hlk by done. rewrite rd8_nul_spans by done. rewrite decide_True; [done|]. apply list_elem_of_fmap. by exists (q, e).
    + left. apply lookup_ge_None_2. rewrite length_nul_spans. lia.
Qed.

(** ** The whole line *)

Lemma at_ptr_det l p c : at_ptr l p c -> forall c', at_ptr l p c' -> c = c'.
Proof.
  induction 1 as [p argv Hp|p q c f e m d Hp _ _ IH|p q r c d Hp _ _ _ IH1 _ IH2|p q r c d Hp _ _ _ IH1 _ IH2|p q c Hp _ _ IH]; intros c' Hc'; inversion Hc'; simplify_eq; f_equal; eauto.
Qed.

(** The command at [p], with its words ended. *)
Definition parsed (buf : bytes) (c : cmd) (p : nat) (s : shell) : Prop :=
  at_ptr (s_nodes s) p c /\ forall w, w ∈ spans c -> string_at (s_buf s) w.1 = slice buf w.1 (w.2 - w.1).

Lemma parsecmd_end buf c p s1 : no_nul buf -> parse_at buf s1 [] -> at_ptr (s_nodes s1) p c -> g_line (tokens buf) c ->
  wp (do! peek (length buf) [] in
      let! s := gets s_pos in
      if negb (s =? length buf)%nat then panic "syntax"
      else
        let! l := gets s_nodes in
        do! nulterminate (S (length l)) p in
        ret p) (parsed buf c) s1.
Proof.
  intros Hb Ht Hp Hg. wp_step. wp_use (peek_spec buf Hb [] s1 [] ltac:(done) Ht). intros b s2 (q & -> & Ht2 & _ & Hq).
  wp_step. apply wpx_gets. cbn [s_pos set_pos]. rewrite (Hq eq_refl), Nat.eqb_refl. cbn [negb]. wp_step. apply wpx_gets. cbn [s_nodes set_pos].
  wp_step. unfold wpx at 1. rewrite (nulterminate_spec _ p c Hp) by (done || (pose proof (at_ptr_lt _ _ _ Hp); cbn; lia)). apply wpx_ret.
  split; [done|]. intros [q1 e1] Hw. cbn [s_buf set_buf set_pos fst snd]. destruct Ht as [-> _]. apply word_string; [done| |done].
  intros w Hw'. apply tokens_words. by apply (proj1 spans_tokens _ _ Hg).
Qed.

Lemma new_parse_at buf : parse_at buf (new_shell buf) (tokens buf).
Proof. split; [done|]. cbn. split; [lia|]. unfold toks, tokens. by rewrite drop_0. Qed.

Lemma lex_length : forall n l cur i, (length l <= n)%nat -> (length (lex cur i l) <= length l + match cur with Some _ => 1 | None => 0 end)%nat.
Proof.
  induction n as [|n IH]; intros l cur i Hn; (destruct l as [|c l]; cbn [length lex] in *; [by destruct cur; cbn; lia|]); [lia|].
  assert (Hf : (length (flush cur i) <= match cur with Some _ => 1 | None => 0 end)%nat) by (destruct cur; cbn; lia).
  destruct (strchr whitespace c); [rewrite length_app; pose proof (IH l None (S i) ltac:(lia)); cbn in *; lia|]. destruct (strchr symbols c).
  - rewrite length_app. destruct l as [|d l]; [cbn; lia|]. cbn [length] in *. destruct ((c =? 62) && (d =? 62)); cbn [length].
    + pose proof (IH l None (S (S i)) ltac:(lia)). cbn in *. lia.
    + pose proof (IH (d :: l) None (S i) ltac:(cbn [length]; lia)) as H. cbn [length] in H. lia.
  - pose proof (IH l (Some (default i cur)) (S i) ltac:(lia)). cbn in *. destruct cur; lia.
Qed.

Lemma parse_fuel_enough buf : (4 * length (tokens buf) + 4 <= parse_fuel (length buf))%nat.
Proof. pose proof (lex_length (length buf) buf None 0 ltac:(lia)). unfold parse_fuel, tokens. cbn in *. lia. Qed.

Lemma parsecmd_complete buf c : no_nul buf -> g_line (tokens buf) c -> wp parsecmd (parsed buf c) (new_shell buf).
Proof.
  intros Hb Hg. unfold parsecmd. wp_step. apply wpx_gets. cbn [s_buf new_shell]. wp_step.
  wp_use (proj1 (parse_complete buf Hb) _ _ Hg (new_shell buf) [] (parse_fuel (length buf))).
  - rewrite app_nil_r. apply new_parse_at.
  - by left.
  - rewrite app_nil_r. apply parse_fuel_enough.
  - intros p s1 (Ht & _ & Hp). by apply parsecmd_end.
Qed.

Lemma parsecmd_sound buf : no_nul buf -> wpx parsecmd (fun p s => exists c, g_line (tokens buf) c /\ parsed buf c p s) any (new_shell buf).
Proof.
  intros Hb. unfold parsecmd. wp_step. apply wpx_gets. cbn [s_buf new_shell]. wp_step.
  wp_use (proj1 (parse_sound buf Hb (parse_fuel (length buf))) (new_shell buf) (tokens buf) (new_parse_at buf) (parse_fuel_enough buf)).
  intros p s1 (ts1 & rest & c & E & Hg & Ht & _ & Hp). destruct rest as [|t rest].
  - rewrite app_nil_r in E. subst ts1. eapply wpx_mono; [by apply wp_any, parsecmd_end| |done]. intros p' s' HP. by exists c.
  - wp_step. apply wp_any. wp_use (peek_spec buf Hb [] s1 (t :: rest) ltac:(done) Ht). intros b s2 (q & -> & (_ & Hq & Ht2) & _ & _).
    wp_step. apply wpx_gets. cbn [s_pos set_pos] in *. destruct (Nat.eqb_spec q (length buf)) as [->|Hne]; [|by apply wpx_panic].
    rewrite (proj2 (rd8_end buf (length buf) ltac:(lia))) in Ht2. done.
Qed.

(** * Theorems *)

(** C27: the parser of the shell decides its grammar.  For every line,
    [parsecmd] returns exactly when the grammar derives a command from the
    tokens of the line; there is then only one, it is the command built in
    memory, and each of its arguments and file names is, as a C string, the
    text of its word.  Every other line ends in one of the panics. *)
Theorem parsecmd_decides buf :
  no_nul buf ->
  wpx parsecmd
    (fun p s => exists c, g_line (tokens buf) c /\ (forall c', g_line (tokens buf) c' -> c' = c) /\
       at_ptr (s_nodes s) p c /\ forall w, w ∈ spans c -> string_at (s_buf s) w.1 = slice buf w.1 (w.2 - w.1))
    (fun _ => ~ exists c, g_line (tokens buf) c) (new_shell buf).
Proof.
  intros Hb. pose proof (parsecmd_sound buf Hb) as HS. assert (HC : forall c, g_line (tokens buf) c -> wp parsecmd (parsed buf c) (new_shell buf)) by (intros; by apply parsecmd_complete).
  unfold wpx in *. destruct (parsecmd (new_shell buf)) as [p s|m| |]; [| |done..].
  - destruct HS as (c & Hg & Hp & Hs). exists c. split; [done|]. split; [|done]. intros c' Hg'. destruct (HC c' Hg') as [Hp' _]. by eapply at_ptr_det.
  - intros (c & Hg). exact (HC c Hg).
Qed.

(** The line [ls > a; cat a | wc &]. *)
Definition line_demo : bytes := [108; 115; 32; 62; 32; 97; 59; 32; 99; 97; 116; 32; 97; 32; 124; 32; 119; 99; 32; 38; 10].

Lemma parsecmd_decides_witness : exists p s c, parsecmd (new_shell line_demo) = Ret p s /\ at_ptr (s_nodes s) p c /\
  c = List (Redir (Exec [(0, 2)%nat]) (5, 6)%nat 513 1) (Back (Pipe (Exec [(8, 11)%nat; (12, 13)%nat]) (Exec [(16, 18)%nat]))) /\
  string_at (s_buf s) 8 = [99; 97; 116].
Proof.
  destruct (wpx_result _ _ _ _ 6%nat (parsecmd_decides line_demo ltac:(repeat constructor; discriminate)) ltac:(vm_compute; reflexivity)) as (s & Hr & c & _ & _ & Hp & Hs).
  exists 6%nat, s, c. split; [exact Hr|]. split; [exact Hp|].
  assert (Ec : c = List (Redir (Exec [(0, 2)%nat]) (5, 6)%nat 513 1) (Back (Pipe (Exec [(8, 11)%nat; (12, 13)%nat]) (Exec [(16, 18)%nat])))).
  { assert (Hn : s_nodes s = s_nodes (after parsecmd (new_shell line_demo))) by (unfold after; rewrite Hr; reflexivity).
    revert Hp Hn. generalize (s_nodes s). intros l Hp Hn. vm_compute in Hn. subst l.
    apply (at_ptr_det _ _ _ Hp). eapply ap_list; [reflexivity|lia|lia| |].
    - eapply ap_redir; [reflexivity|lia|]. apply ap_exec. reflexivity.
    - eapply ap_back; [reflexivity|lia|]. eapply ap_pipe; [reflexivity|lia|lia|apply ap_exec; reflexivity..]. }
  split; [exact Ec|]. refine (eq_trans (Hs (8, 11)%nat _) _); [|reflexivity]. rewrite Ec. apply (list_elem_of_lookup_2 _ 2). reflexivity.
Defined.
