(* ===== verification/ShRun.v ===== *)
(** * Running commands (src/sh.c)

    [runcmd] as the program of system calls it makes, and what that program
    launches: which programs, with which files on which descriptors.

    A program of system calls goes on with the answer of each call; [fork]
    goes on twice.  [launch] runs one whose calls succeed, except that opening
    a file may fail; descriptors are handed out lowest first, as [fdalloc] of
    src/sysfile.c does. *)

From S2P Require Import Prelude.
From S2P Require Import Bytes.
From S2P Require Import CString.
From S2P Require Import Ulib.
From S2P Require Import Printf.
From S2P Require Import Grep.
From S2P Require Import Sh.
From S2P Require Import ShSpec.

Open Scope Z_scope.

(** ** The program *)

Inductive prog :=
  | Pexit
  | Pexec (argv : list bytes) (fails : prog)
  | Pprint (msg : bytes) (k : prog)
  | Pclose (fd : nat) (k : prog)
  | Popen (file : bytes) (mode : Z) (k : Z -> prog)
  | Pdup (fd : nat) (k : prog)
  | Ppipe (k : option (nat * nat) -> prog)
  | Pfork (k : Z -> prog)
  | Pwait (k : prog).

(** [panic] and [fork1] of src/sh.c. *)
Definition sh_panic (s : bytes) : prog := Pprint (s ++ [10]) Pexit.

Definition fork1 (k : Z -> prog) : prog :=
  Pfork (fun pid => if pid =? -1 then sh_panic [102; 111; 114; 107] else k pid).

Section run.
(** The string of an argument or a file name. *)
Variable str : nat * nat -> bytes.

Definition failed (what : bytes) (name : bytes) : bytes := what ++ [32] ++ name ++ [32; 102; 97; 105; 108; 101; 100; 10].

Fixpoint runcmd (c : cmd) : prog :=
  match c with
  | Exec argv =>
      match argv with
      | [] => Pexit
      | w :: _ => Pexec (map str argv) (Pprint (failed [101; 120; 101; 99] (str w)) Pexit)
      end
  | Redir c' file mode fd =>
      Pclose (Z.to_nat fd) (
      Popen (str file) mode (fun r =>
        if r <? 0 then Pprint (failed [111; 112; 101; 110] (str file)) Pexit
        else runcmd c'))
  | List c1 c2 => fork1 (fun pid => if pid =? 0 then runcmd c1 else Pwait (runcmd c2))
  | Pipe c1 c2 =>
      Ppipe (fun p =>
        match p with
        | None => sh_panic [112; 105; 112; 101]
        | Some (p0, p1) =>
            fork1 (fun pid =>
              if pid =? 0 then Pclose 1 (Pdup p1 (Pclose p0 (Pclose p1 (runcmd c1))))
              else fork1 (fun pid =>
                if pid =? 0 then Pclose 0 (Pdup p0 (Pclose p0 (Pclose p1 (runcmd c2))))
                else Pclose p0 (Pclose p1 (Pwait (Pwait Pexit)))))
        end)
  | Back c' => fork1 (fun pid => if pid =? 0 then runcmd c' else Pexit)
  end.

End run.

(** ** Reading commands *)

(** [printf] of a constant without conversions. *)
Definition puts_const (fd : Z) (s : bytes) : M user unit := mfor s (putc fd).

Definition getcmd (buf nbuf : Z) : M user Z :=
  do! puts_const 2 [36; 32] in
  do! upd_umem (fun m => Ulib.memset m buf 0 nbuf) in
  do! ugets buf nbuf in
  let! m := gets umem in
  ret (if ld8 m buf =? 0 then -1 else 0).

(** What one turn of the loop in [main] does with a line. *)
Inductive turn :=
  | Tend
  | Tchdir (dir : bytes)
  | Trun (line : bytes).

Definition main_turn (buf : Z) : M user turn :=
  let! r := getcmd buf 100 in
  if r <? 0 then ret Tend
  else
    let! m := gets umem in
    if (ld8 m buf =? 99) && (ld8 m (buf + 1) =? 100) && (ld8 m (buf + 2) =? 32) then
      let! n := ulift (fun m => Ulib.strlen m buf) in
      do! upd_umem (fun m => st8 m (buf + n - 1) 0) in
      let! d := ulift (cstr (buf + 3)) in
      ret (Tchdir d)
    else
      let! l := ulift (cstr buf) in
      ret (Trun l).

(** ** What is launched *)

(** What a descriptor is open on. *)
Inductive ofile :=
  | Finherited (n : nat)
  | Fopened (name : bytes) (mode : Z)
  | Fpipe (id : nat) (writes : bool).

Abbreviation fdtable := (gmap nat ofile).

Definition NOFILE : nat := 16.

Definition fdalloc (fds : fdtable) : option nat := snd <$> list_find (fun i => fds !! i = None) (seq 0 NOFILE).

Section launch.
(** Whether a file can be opened. *)
Variable open_ok : bytes -> Z -> bool.

(** The programs launched, and the number of pipes made so far. *)
Fixpoint launch (p : prog) (fds : fdtable) (n : nat) : list (list bytes * fdtable) * nat :=
  match p with
  | Pexit => ([], n)
  | Pexec argv _ => ([(argv, fds)], n)
  | Pprint _ k => launch k fds n
  | Pclose fd k => launch k (delete fd fds) n
  | Popen file mode k =>
      match fdalloc fds with
      | Some fd => if open_ok file mode then launch (k (Z.of_nat fd)) (<[fd := Fopened file mode]> fds) n else launch (k (-1)) fds n
      | None => launch (k (-1)) fds n
      end
  | Pdup fd k =>
      match fdalloc fds, fds !! fd with
      | Some i, Some f => launch k (<[i := f]> fds) n
      | _, _ => launch k fds n
      end
  | Ppipe k =>
      match fdalloc fds with
      | Some i =>
          match fdalloc (<[i := Fpipe n false]> fds) with
          | Some j => launch (k (Some (i, j))) (<[j := Fpipe n true]> (<[i := Fpipe n false]> fds)) (S n)
          | None => launch (k None) fds n
          end
      | None => launch (k None) fds n
      end
  | Pfork k =>
      let (l1, n1) := launch (k 0) fds n in
      let (l2, n2) := launch (k 1) fds n1 in
      (l1 ++ l2, n2)
  | Pwait k => launch k fds n
  end.

(** What a command means: redirections and pipes change one descriptor. *)
Fixpoint plumb (str : nat * nat -> bytes) (c : cmd) (fds : fdtable) (n : nat) : list (list bytes * fdtable) * nat :=
  match c with
  | Exec argv => (match argv with [] => [] | _ => [(map str argv, fds)] end, n)
  | Redir c' file mode fd =>
      if open_ok (str file) mode then plumb str c' (<[Z.to_nat fd := Fopened (str file) mode]> fds) n else ([], n)
  | Pipe c1 c2 =>
      let (l1, n1) := plumb str c1 (<[1%nat := Fpipe n true]> fds) (S n) in
      let (l2, n2) := plumb str c2 (<[0%nat := Fpipe n false]> fds) n1 in
      (l1 ++ l2, n2)
  | List c1 c2 =>
      let (l1, n1) := plumb str c1 fds n in
      let (l2, n2) := plumb str c2 fds n1 in
      (l1 ++ l2, n2)
  | Back c' => plumb str c' fds n
  end.

End launch.

(** The redirections of a parsed command are those of descriptors 0 and 1. *)
Fixpoint redirs_ok (c : cmd) : Prop :=
  match c with
  | Exec _ => True
  | Redir c' _ _ fd => (fd = 0 \/ fd = 1) /\ redirs_ok c'
  | Pipe c1 c2 | List c1 c2 => redirs_ok c1 /\ redirs_ok c2
  | Back c' => redirs_ok c'
  end.

(** * Lemmas *)

Lemma fdalloc_spec fds i : (i < NOFILE)%nat -> fds !! i = None -> (forall j, (j < i)%nat -> is_Some (fds !! j)) -> fdalloc fds = Some i.
Proof.
  intros Hi Hn Hj. unfold fdalloc. assert (E : list_find (fun k => fds !! k = None) (seq 0 NOFILE) = Some (i, i)); [|by rewrite E].
  apply list_find_Some. split; [by apply lookup_seq_lt|]. split; [done|]. intros j k Hk Hlt Hnone. apply lookup_seq in Hk as [-> _].
  destruct (Hj j Hlt) as [f Hf]. cbn in Hnone. congruence.
Qed.

(** With a free descriptor there is a lowest one. *)
Lemma fdalloc_free fds k : (k < NOFILE)%nat -> fds !! k = None -> exists i, fdalloc fds = Some i /\ (i <= k)%nat /\ fds !! i = None.
Proof.
  intros Hk Hn. unfold fdalloc. destruct (list_find (fun i => fds !! i = None) (seq 0 NOFILE)) as [[i j]|] eqn:E.
  - apply list_find_Some in E as (H1 & H2 & H3). apply lookup_seq in H1 as [-> H1]. cbn [Nat.add snd fmap option_fmap option_map] in *. exists i. split; [done|]. split; [|done].
    destruct (Nat.le_gt_cases i k) as [?|Hlt]; [done|]. exfalso. apply (H3 k k); [by apply lookup_seq_lt|done|done].
  - exfalso. apply list_find_None in E. rewrite Forall_forall in E. apply (E k); [|done]. apply elem_of_seq. lia.
Qed.

(** Three descriptors are open and the last two are not, so that a pipe can be
    made. *)
Definition fds_ok (fds : fdtable) : Prop :=
  is_Some (fds !! 0%nat) /\ is_Some (fds !! 1%nat) /\ is_Some (fds !! 2%nat) /\ fds !! 14%nat = None /\ fds !! 15%nat = None.

Lemma fds_ok_insert fds i f : fds_ok fds -> i = 0%nat \/ i = 1%nat -> fds_ok (<[i := f]> fds).
Proof.
  intros (H0 & H1 & H2 & H14 & H15) [->| ->]; unfold fds_ok; rewrite ?lookup_insert_eq, ?lookup_insert_ne by done; eauto.
Qed.

(** Closing 0 or 1 and opening something gives that descriptor again. *)
Lemma fdalloc_reopen fds i : fds_ok fds -> i = 0%nat \/ i = 1%nat -> fdalloc (delete i fds) = Some i.
Proof.
  intros (H0 & H1 & _) Hi. apply fdalloc_spec; [unfold NOFILE; lia|apply lookup_delete_eq|]. intros j Hj. assert (i = 1%nat /\ j = 0%nat) as [-> ->] by lia.
  by rewrite lookup_delete_ne.
Qed.

(** The two ends of a new pipe. *)
Lemma pipe_fds fds n : fds_ok fds -> exists i j, fdalloc fds = Some i /\ fdalloc (<[i := Fpipe n false]> fds) = Some j /\
  fds !! i = None /\ fds !! j = None /\ i <> j /\ (2 < i)%nat /\ (2 < j)%nat.
Proof.
  intros (H0 & H1 & H2 & H14 & H15). destruct (fdalloc_free fds 14) as (i & Ei & Hi & Ni); [unfold NOFILE; lia|done|].
  destruct (fdalloc_free (<[i := Fpipe n false]> fds) 15) as (j & Ej & Hj & Nj); [unfold NOFILE; lia|rewrite lookup_insert_ne by lia; done|].
  assert (Hij : i <> j) by (intros ->; by rewrite lookup_insert_eq in Nj). rewrite lookup_insert_ne in Nj by done. exists i, j.
  assert (Hlow : forall k, fds !! k = None -> (2 < k)%nat).
  { intros k Hk. destruct (Nat.le_gt_cases k 2) as [Hle|?]; [|done]. exfalso. assert (k = 0 \/ k = 1 \/ k = 2)%nat as [->|[->| ->]] by lia; rewrite Hk in *; by eapply is_Some_None. }
  split; [done|]. split; [done|]. split; [done|]. split; [done|]. split; [done|]. split; by apply Hlow.
Qed.

(** The child of a pipe that takes the end [e] as descriptor [d]: what is left
    is the table it started from with that end on [d]. *)
Lemma pipe_child fds i j d e f n : fds_ok fds -> d = 0%nat \/ d = 1%nat -> fds !! i = None -> fds !! j = None -> i <> j -> (2 < i)%nat -> (2 < j)%nat ->
  e = i \/ e = j -> (<[j := Fpipe n true]> (<[i := Fpipe n false]> fds) : fdtable) !! e = Some f ->
  let t := delete d (<[j := Fpipe n true]> (<[i := Fpipe n false]> fds)) in
  fdalloc t = Some d /\ t !! e = Some f /\ delete j (delete i (<[d := f]> t)) = <[d := f]> fds.
Proof.
  intros Hok Hd Ni Nj Hij Hi Hj He Hf t. pose proof Hok as (H0 & H1 & _). split; [|split].
  - unfold t. apply fdalloc_spec; [unfold NOFILE; lia|apply lookup_delete_eq|]. intros k Hk. assert (d = 1%nat /\ k = 0%nat) as [-> ->] by lia.
    rewrite lookup_delete_ne, !lookup_insert_ne by lia. done.
  - unfold t. rewrite lookup_delete_ne by lia. done.
  - apply map_eq. intros k. unfold t. destruct (decide (k = j)) as [->|Kj]; [rewrite lookup_delete_eq, lookup_insert_ne by lia; done|].
    rewrite lookup_delete_ne by done. destruct (decide (k = i)) as [->|Ki]; [rewrite lookup_delete_eq, lookup_insert_ne by lia; done|].
    rewrite lookup_delete_ne by done. destruct (decide (k = d)) as [->|Kd]; [by rewrite !lookup_insert_eq|].
    rewrite lookup_insert_ne, lookup_delete_ne, !lookup_insert_ne by done. done.
Qed.

Lemma launch_redir open_ok str c file mode fd fds n : fds_ok fds -> fd = 0 \/ fd = 1 ->
  launch open_ok (runcmd str (Redir c file mode fd)) fds n =
  if open_ok (str file) mode then launch open_ok (runcmd str c) (<[Z.to_nat fd := Fopened (str file) mode]> fds) n else ([], n).
Proof.
  intros Hok Hfd. cbn [runcmd launch]. rewrite fdalloc_reopen by (done || lia). destruct (open_ok (str file) mode); [|done].
  rewrite (proj2 (Z.ltb_ge _ _)) by lia. by rewrite insert_delete_eq.
Qed.

Lemma launch_pipe open_ok str c1 c2 fds n : fds_ok fds ->
  launch open_ok (runcmd str (Pipe c1 c2)) fds n =
  (let (l1, n1) := launch open_ok (runcmd str c1) (<[1%nat := Fpipe n true]> fds) (S n) in
   let (l2, n2) := launch open_ok (runcmd str c2) (<[0%nat := Fpipe n false]> fds) n1 in
   (l1 ++ l2, n2)).
Proof.
  intros Hok. cbn [runcmd launch]. destruct (pipe_fds fds n Hok) as (i & j & -> & -> & Ni & Nj & Hij & Hi & Hj). cbn [launch fork1 Z.eqb Pos.eqb Z.opp].
  destruct (pipe_child fds i j 1 j (Fpipe n true) n) as (-> & -> & ->); try done; [by right|by right|apply lookup_insert_eq|].
  destruct (launch open_ok (runcmd str c1) _ (S n)) as [l1 n1].
  destruct (pipe_child fds i j 0 i (Fpipe n false) n) as (-> & -> & ->); try done; [by left|by left|rewrite lookup_insert_ne by done; apply lookup_insert_eq|].
  destruct (launch open_ok (runcmd str c2) _ n1) as [l2 n2]. by rewrite app_nil_r.
Qed.

(** The parser makes no other redirections. *)
Lemma redirs_ok_wrap l : forall c, Forall item_ok l -> redirs_ok c -> redirs_ok (foldl wrap c l).
Proof.
  induction l as [|x l IH]; intros c Hl Hc; [done|]. apply Forall_cons in Hl as [Hx Hl]. cbn [foldl]. apply IH; [done|].
  destruct x as [w|op w]; [done|]. split; [|done]. cbn in Hx. destruct Hx as [->|[->| ->]]; cbn; auto.
Qed.

Lemma redirs_ok_backs n : forall c, redirs_ok c -> redirs_ok (backs n c).
Proof. induction n as [|n IH]; intros c Hc; [done|]. by apply IH. Qed.

Lemma parsed_redirs_ok : (forall ts c, g_line ts c -> redirs_ok c) /\ (forall ts c, g_pipe ts c -> redirs_ok c) /\ (forall ts c, g_exec ts c -> redirs_ok c).
Proof.
  apply (grammar_ind (fun _ c _ => redirs_ok c) (fun _ c _ => redirs_ok c) (fun _ c _ => redirs_ok c)); intros.
  - by apply redirs_ok_backs.
  - split; [by apply redirs_ok_backs|done].
  - done.
  - done.
  - by apply redirs_ok_wrap.
  - apply redirs_ok_wrap; [|done]. by apply redirs_items.
Qed.

(** * Theorems *)

(** C16: [runcmd] plumbs.  For every command, the programs it launches and the
    files on their descriptors are those the command means: a redirection
    changes one descriptor, the two sides of a pipe get its two ends on
    descriptors 1 and 0 and no program keeps another end open, and where a
    file cannot be opened nothing of that part is launched. *)
Theorem runcmd_plumbs open_ok str c fds n :
  fds_ok fds -> redirs_ok c -> launch open_ok (runcmd str c) fds n = plumb open_ok str c fds n.
Proof.
  revert fds n. induction c as [argv|c IH file mode fd|c1 IH1 c2 IH2|c1 IH1 c2 IH2|c IH]; intros fds n Hok Hr.
  - by destruct argv.
  - destruct Hr as [Hfd Hr]. rewrite launch_redir by done. cbn [plumb]. destruct (open_ok (str file) mode); [|done].
    apply IH; [|done]. apply fds_ok_insert; [done|lia].
  - destruct Hr as [Hr1 Hr2]. rewrite launch_pipe by done. cbn [plumb]. rewrite IH1 by (done || (apply fds_ok_insert; [done|by right])).
    destruct (plumb open_ok str c1 _ (S n)) as [l1 n1]. rewrite IH2 by (done || (apply fds_ok_insert; [done|by left])). done.
  - destruct Hr as [Hr1 Hr2]. cbn [runcmd launch fork1 Z.eqb Pos.eqb Z.opp plumb]. rewrite IH1 by done. destruct (plumb open_ok str c1 fds n) as [l1 n1].
    by rewrite IH2.
  - cbn [runcmd launch fork1 Z.eqb Pos.eqb Z.opp plumb]. rewrite IH by done. destruct (plumb open_ok str c fds n). by rewrite app_nil_r.
Qed.

(** A pipe of two programs, the second with its output in a file. *)
Definition fds_demo : fdtable := {[0%nat := Finherited 0; 1%nat := Finherited 1; 2%nat := Finherited 2]}.

Lemma runcmd_plumbs_witness :
  (launch (fun _ _ => true) (runcmd (fun w => [Z.of_nat w.1]) (Pipe (Exec [(1, 2)%nat]) (Redir (Exec [(3, 4)%nat]) (5, 6)%nat 513 1))) fds_demo 0).1 =
  [([[1]], <[1%nat := Fpipe 0 true]> fds_demo); ([[3]], <[1%nat := Fopened [5] 513]> (<[0%nat := Fpipe 0 false]> fds_demo))].
Proof.
  rewrite (runcmd_plumbs (fun _ _ => true) (fun w => [Z.of_nat w.1])).
  - reflexivity.
  - unfold fds_ok, fds_demo. repeat split; try (eexists; reflexivity); reflexivity.
  - cbn. auto.
Defined.

(** ** Reading commands *)

(** One turn of the main loop reads one line; a line that starts with cd and a
    space changes the directory, any other is run. *)
Lemma main_turn_line buf l rest u :
  uin u !! 0 = Some [l ++ 10 :: rest] -> is_str l -> Forall (fun c => c <> 10 /\ c <> 13) l -> (length l <= 98)%nat ->
  exists u', main_turn buf u = Ret (if decide (take 3 l = [99; 100; 32]) then Tchdir (drop 3 l) else Trun (l ++ [10])) u' /\
    uin u' = <[0 := left_over rest]> (uin u).
Proof.
  intros Hi Hs Hl Hn. unfold main_turn, getcmd, puts_const, bind. rewrite mfor_putc by (by repeat constructor). unfold upd_umem at 1, modify.
  set (u1 := set_umem _ (emit 2 [36; 32] u)). rewrite (ugets_line buf 100 l rest u1) by (done || lia). set (m1 := Ulib.memset _ _ _ _) in *.
  set (u2 := set_uin _ _). assert (Hstr : is_str (l ++ [10])) by (apply Forall_app; split; [done|by repeat constructor]).
  assert (Hc : cstring (umem u2) buf (l ++ [10])).
  { cbn. change [10; 0] with ([10] ++ [0]). rewrite app_assoc. by apply cstring_stbytes. }
  unfold Prelude.gets, ret. assert (H0 : (if ld8 (umem u2) buf =? 0 then -1 else 0) = 0).
  { destruct l as [|c l]; cbn [app] in Hc; apply cstring_cons in Hc as (-> & Hz & _); by rewrite (proj2 (Z.eqb_neq _ _) Hz). }
  rewrite H0. cbn [Z.ltb Z.compare]. set (isCd := (_ =? 99) && _ && _).
  assert (Hcd : isCd = bool_decide (take 3 l = [99; 100; 32])).
  { unfold isCd. destruct l as [|a [|b [|c l]]]; cbn [app] in Hc; repeat (apply cstring_cons in Hc as (? & _ & Hc));
      rewrite ?Z.add_assoc in *; replace (buf + 1 + 1) with (buf + 2) in * by lia.
    - rewrite H. cbn [Z.eqb Pos.eqb andb]. by rewrite bool_decide_false.
    - rewrite H1. cbn [Z.eqb Pos.eqb]. rewrite andb_false_r. by rewrite bool_decide_false.
    - rewrite H2. cbn [Z.eqb Pos.eqb]. rewrite andb_false_r. by rewrite bool_decide_false.
    - rewrite H, H1, H2. cbn [take firstn]. apply eq_true_iff_eq. rewrite bool_decide_eq_true, !andb_true_iff, !Z.eqb_eq. split; [by intros [[-> ->] ->]|by intros [= -> -> ->]]. }
  rewrite Hcd. case_decide as Hd; [rewrite bool_decide_true by done|rewrite bool_decide_false by done].
  - unfold ulift, bind, Prelude.gets. rewrite (strlen_spec _ _ _ Hc). unfold ret, upd_umem, modify.
    assert (El : l = [99; 100; 32] ++ drop 3 l) by (rewrite <- Hd at 1; by rewrite take_drop). set (d := drop 3 l) in *.
    assert (Hcd3 : cstring (st8 (umem u2) (buf + Z.of_nat (length (l ++ [10])) - 1) 0) (buf + 3) d).
    { assert (Hll : length l = (3 + length d)%nat) by (rewrite El at 1; done). rewrite El in Hc. rewrite <- app_assoc in Hc.
      apply cstring_app in Hc as [_ Hc]. apply cstring_app in Hc as [Hb _]. cbn [length] in Hb. rewrite length_app, Hll. cbn [length].
      apply cstring_bytes; [rewrite El in Hs; by apply Forall_app in Hs as [_ Hs]| |].
      - rewrite <- Hb at 3. apply ldbytes_ext. intros j Hj. apply ld8_st8_ne. lia.
      - replace (buf + 3 + Z.of_nat (length d)) with (buf + Z.of_nat (3 + length d + 1) - 1) by lia. apply ld8_st8_eq. }
    cbn [umem set_umem]. rewrite (cstr_spec _ _ _ Hcd3). eexists. split; done.
  - unfold ulift, bind, Prelude.gets. rewrite (cstr_spec _ _ _ Hc). eexists. split; done.
Qed.
