(* ===== verification/Screen.v ===== *)
(** * The console's output (src/console.c, src/uart.c)

    Characters go to the serial port and to the text screen, whose memory is
    a window of cells with a cursor in two registers of its controller.
    [cprintf] formats onto them.  The specification is a terminal that never
    forgets: an endless sheet of rows of 80 cells, of which the screen shows
    24. *)

From S2P Require Import Prelude.
From S2P Require Import CString.
From S2P Require Import Bytes.
From S2P Require Import Numeral.
From S2P Require Import Ulib.
From S2P Require Import Printf.

Open Scope Z_scope.

Definition BACKSPACE : Z := 256.

(** The cells from [crt] on, the cursor registers 14 and 15 of the controller,
    whether there is a serial port and what went out on it, and [panicked]. *)
Record screen := mkScreen {
  crt : list Z;
  crt_hi : Z;
  crt_lo : Z;
  uart : bool;
  serial : bytes;
  panicked : bool;
}.

Definition set_crt (v : list Z) (s : screen) : screen := mkScreen v (crt_hi s) (crt_lo s) (uart s) (serial s) (panicked s).
Definition set_cursor (hi lo : Z) (s : screen) : screen := mkScreen (crt s) hi lo (uart s) (serial s) (panicked s).
Definition set_serial (v : bytes) (s : screen) : screen := mkScreen (crt s) (crt_hi s) (crt_lo s) (uart s) v (panicked s).

(** The wait for the transmitter ends after 128 turns whatever the port says. *)
Definition uartputc (c : Z) : M screen unit :=
  let! u := gets uart in
  if u then modify (fun s => set_serial (serial s ++ [c mod 256]) s) else ret tt.

(** [crt[i] = v] *)
Definition crt_put (i v : Z) : M screen unit :=
  let! l := gets crt in
  if (0 <=? i) && (i <? Z.of_nat (length l)) then modify (set_crt (<[Z.to_nat i := v]> l)) else fault "crt".

(** [memmove(crt, crt+80, sizeof(crt[0])*23*80)], and
    [memset(crt+pos, 0, sizeof(crt[0])*(24*80 - pos))]. *)
Definition crt_scroll (pos : Z) : M screen unit :=
  do! modify (fun s => set_crt (splice (crt s) 0 (slice (crt s) 80 1840)) s) in
  if pos <=? 1920 then modify (fun s => set_crt (splice (crt s) (Z.to_nat pos) (replicate (Z.to_nat (1920 - pos)) 0)) s)
  else fault "memset".

(** The cursor goes to [pos], the cell under it is cleared. *)
Definition cga_move (pos : Z) : M screen unit :=
  if (pos <? 0) || (25 * 80 <? pos) then panic "pos under/overflow"
  else
    let! pos :=
      (if 24 <=? pos / 80 then
         do! crt_scroll (pos - 80) in
         ret (pos - 80)
       else ret pos) in
    do! modify (set_cursor (Z.shiftr pos 8 mod 256) (pos mod 256)) in
    crt_put pos (Z.lor 32 1792).

Definition cgaputc (c : Z) : M screen unit :=
  let! hi := gets crt_hi in
  let! lo := gets crt_lo in
  let pos := Z.lor (Z.shiftl hi 8) lo in
  let! pos :=
    (if c =? 10 then ret (pos + (80 - pos mod 80))
     else if c =? BACKSPACE then ret (if 0 <? pos then pos - 1 else pos)
     else
       do! crt_put pos (Z.lor (Z.land c 255) 1792) in
       ret (pos + 1)) in
  cga_move pos.

(** After a panic of another processor the loop never ends. *)
Definition consputc (c : Z) : M screen unit :=
  let! p := gets panicked in
  if p then nofuel
  else
    do! (if c =? BACKSPACE then
           do! uartputc 8 in
           do! uartputc 32 in
           uartputc 8
         else uartputc c) in
    cgaputc c.

(** ** cprintf *)

Definition cdigits (d : Z) : Z := if d <? 10 then 48 + d else 87 + d.

Definition cprintint (xx base sign : Z) : M screen unit := print_number cdigits consputc xx base sign.

(** [*argp++] *)
Definition carg (argp : list Z) : M screen (Z * list Z) :=
  match argp with
  | a :: argp' => ret (a, argp')
  | [] => fault "cprintf: no argument"
  end.

(** [for(; *s; s++) consputc( *s);] *)
Fixpoint cputs (k : nat) (m : memory) (s : Z) : M screen unit :=
  match k with
  | O => nofuel
  | S k' =>
      if nz (ld8 m s) then
        do! consputc (ld8 m s) in
        cputs k' m (s + 1)
      else ret tt
  end.

(** The switch: the arguments left. *)
Definition cconversion (m : memory) (c : Z) (argp : list Z) : M screen (list Z) :=
  if c =? 100 then
    let! a := carg argp in
    do! cprintint (s32 a.1) 10 1 in
    ret a.2
  else if (c =? 120) || (c =? 112) then
    let! a := carg argp in
    do! cprintint (s32 a.1) 16 0 in
    ret a.2
  else if c =? 115 then
    let! a := carg argp in
    do! (if a.1 =? 0 then mfor null_str consputc else cputs (sfuel m) m a.1) in
    ret a.2
  else if c =? 37 then
    do! consputc 37 in
    ret argp
  else
    do! consputc 37 in
    do! consputc c in
    ret argp.

Fixpoint cprintf_loop (k : nat) (m : memory) (fmt i : Z) (argp : list Z) : M screen unit :=
  match k with
  | O => nofuel
  | S k' =>
      let c := ld8 m (fmt + i) in
      if c =? 0 then ret tt
      else if negb (c =? 37) then
        do! consputc c in
        cprintf_loop k' m fmt (i + 1) argp
      else
        let c := ld8 m (fmt + (i + 1)) in
        if c =? 0 then ret tt
        else
          let! argp := cconversion m c argp in
          cprintf_loop k' m fmt (i + 2) argp
  end.

(** ** The endless terminal *)

(** The cells written so far, the cursor, and the first row on the screen. *)
Record term := mkTerm { t_cells : list Z; t_cur : nat; t_top : nat }.

(** A character in white on black, and the blank the cursor stands on. *)
Definition glyph (c : Z) : Z := Z.lor (Z.land c 255) 1792.
Definition blank : Z := Z.lor 32 1792.

(** The cursor goes to [p]: a new row if it is past the last one. *)
Definition term_goto (cells : list Z) (p : nat) (t : term) : term :=
  if (length cells <=? p)%nat then mkTerm (<[p := blank]> (cells ++ replicate 80 0)) p (S (t_top t))
  else mkTerm (<[p := blank]> cells) p (t_top t).

Definition term_put (t : term) (c : Z) : term :=
  if c =? 10 then term_goto (t_cells t) (t_cur t + (80 - t_cur t mod 80)) t
  else if c =? BACKSPACE then term_goto (t_cells t) (if (80 * t_top t <? t_cur t)%nat then t_cur t - 1 else t_cur t) t
  else term_goto (<[t_cur t := glyph c]> (t_cells t)) (t_cur t + 1) t.

Definition term_puts (l : list Z) (t : term) : term := fold_left term_put l t.

(** What a format of [cprintf] makes of its arguments. *)
Inductive cformats (m : memory) : bytes -> list Z -> bytes -> Prop :=
  | cf_end ap : cformats m [] ap []
  | cf_lone ap : cformats m [37] ap []
  | cf_char c f ap o : c <> 37 -> cformats m f ap o -> cformats m (c :: f) ap (c :: o)
  | cf_d f a ap o : cformats m f ap o -> cformats m (37 :: 100 :: f) (a :: ap) (signed_dec cdigits (s32 a) ++ o)
  | cf_x c f a ap o : c = 120 \/ c = 112 -> cformats m f ap o -> cformats m (37 :: c :: f) (a :: ap) (numeral cdigits 16 (u32 a) ++ o)
  | cf_s f a ap l o : points_to m a l -> cformats m f ap o -> cformats m (37 :: 115 :: f) (a :: ap) (l ++ o)
  | cf_percent f ap o : cformats m f ap o -> cformats m (37 :: 37 :: f) ap (37 :: o)
  | cf_other c f ap o : ¬ (c ∈ [100; 120; 112; 115; 37]) -> cformats m f ap o -> cformats m (37 :: c :: f) ap (37 :: c :: o).

(** What goes out on the serial port for a character. *)
Definition wire (c : Z) : bytes := if c =? BACKSPACE then [8; 32; 8] else [c mod 256].

Definition cursor (s : screen) : Z := Z.lor (Z.shiftl (crt_hi s) 8) (crt_lo s).

(** The screen shows the rows of the terminal from [t_top] on. *)
Record shows (s : screen) (t : term) : Prop := {
  sh_len : (2000 <= length (crt s))%nat;
  sh_sheet : length (t_cells t) = (80 * t_top t + 1920)%nat;
  sh_cells : take 1920 (crt s) = drop (80 * t_top t) (t_cells t);
  sh_top : (80 * t_top t <= t_cur t < length (t_cells t))%nat;
  sh_cursor : cursor s = Z.of_nat (t_cur t) - 80 * Z.of_nat (t_top t);
}.

(** * Lemmas *)

Lemma splice_eq d off src : (off + length src <= length d)%nat -> splice d off src = take off d ++ src ++ drop (off + length src) d.
Proof.
  unfold splice. revert d off. induction src as [|x src IH]; intros d off Hl; cbn [list_inserts length app] in *.
  - rewrite Nat.add_0_r. by rewrite take_drop.
  - rewrite IH, insert_app_l by (rewrite ?length_take; lia). rewrite <- (take_insert_lt d (S off) off) by lia. rewrite take_insert_lt by lia.
    rewrite (take_S_r d off (default x (d !! off))); [|destruct (lookup_lt_is_Some_2 d off) as [y ->]; [lia|done]].
    rewrite insert_app_r_alt by (rewrite length_take; lia). rewrite length_take, Nat.min_l by lia.
    rewrite Nat.sub_diag. cbn. rewrite <- app_assoc. cbn. do 4 f_equal. lia.
Qed.

Lemma wpx_run_eq {S A} (c : M S A) (Q : A -> S -> Prop) E (s : S) a s' : c s = Ret a s' -> Q a s' -> wpx c Q E s.
Proof. unfold wpx. by intros ->. Qed.

(** ** The cursor *)

Lemma cursor_set p s : 0 <= p < 65536 -> cursor (set_cursor (Z.shiftr p 8 mod 256) (p mod 256) s) = p.
Proof.
  intros Hp. unfold cursor. cbn [crt_hi crt_lo set_cursor]. rewrite Z.shiftl_mul_pow2, Z.shiftr_div_pow2 by lia.
  rewrite (lor_low_high 8) by dlia. dlia.
Qed.

(** ** The window *)

Lemma window_insert (A B : list Z) n k i v : (k <= i < k + n)%nat -> take n A = drop k B ->
  take n (<[(i - k)%nat := v]> A) = drop k (<[i := v]> B).
Proof. intros Hi H. rewrite take_insert_lt, drop_insert_ge by lia. by rewrite H. Qed.

(** The rows move up by one, and the last one is empty. *)
Lemma window_scroll (A B : list Z) k : (2000 <= length A)%nat -> length B = (k + 1920)%nat -> take 1920 A = drop k B ->
  take 1920 (splice (splice A 0 (slice A 80 1840)) 1840 (replicate 80 0)) = drop (k + 80) (B ++ replicate 80 0).
Proof.
  intros HA HB HE. assert (Hs : length (slice A 80 1840) = 1840%nat) by (apply length_slice; lia).
  rewrite splice_eq by (rewrite length_splice, length_replicate; lia). rewrite length_replicate.
  rewrite (splice_eq A) by (rewrite Hs; lia). rewrite Hs. change (take 0 A) with (@nil Z). rewrite app_nil_l.
  rewrite (take_app_length' (slice A 80 1840)) by lia. rewrite app_assoc, take_app_length' by (rewrite length_app, Hs, length_replicate; lia).
  rewrite drop_app_le by lia. f_equal. rewrite <- drop_drop, <- HE. unfold slice. by rewrite take_drop_commute.
Qed.

Lemma shows_cursor s t : shows s t -> 0 <= cursor s < 1920.
Proof. intros [H1 H2 H3 H4 H5]. lia. Qed.

(** What output leaves alone. *)
Definition kept_io (s s' : screen) : Prop := uart s' = uart s /\ panicked s' = panicked s /\ serial s' = serial s.

Lemma crt_put_spec i v (Q : unit -> screen -> Prop) s :
  0 <= i < 2000 -> (2000 <= length (crt s))%nat -> Q tt (set_crt (<[Z.to_nat i := v]> (crt s)) s) -> wp (crt_put i v) Q s.
Proof.
  intros Hi Hl HQ. unfold crt_put. wp_step. apply wpx_gets. rewrite (proj2 (Z.leb_le _ _)), (proj2 (Z.ltb_lt _ _)) by lia.
  cbn [andb]. by apply wpx_modify.
Qed.

Lemma cga_move_spec cells p t s : (2000 <= length (crt s))%nat -> length cells = (80 * t_top t + 1920)%nat ->
  take 1920 (crt s) = drop (80 * t_top t) cells -> (80 * t_top t <= p <= length cells)%nat ->
  wp (cga_move (Z.of_nat p - 80 * Z.of_nat (t_top t))) (fun _ s' => shows s' (term_goto cells p t) /\ kept_io s s') s.
Proof.
  intros Hl Hc Hw Hp. unfold cga_move. rewrite (proj2 (Z.ltb_ge _ _)), (proj2 (Z.ltb_ge _ _)) by lia. cbn [orb].
  unfold term_goto. destruct (Nat.leb_spec (length cells) p) as [Hge|Hlt].
  - rewrite (proj2 (Z.leb_le _ _)) by dlia. replace (Z.of_nat p - 80 * Z.of_nat (t_top t) - 80) with 1840 by lia.
    assert (Hp' : p = (80 * t_top t + 80 + 1840)%nat) by lia. pose proof (window_scroll _ _ _ Hl Hc Hw) as Hs.
    wp_step. unfold crt_scroll. wp_steps. cbn [Z.leb Z.compare Pos.compare Pos.compare_cont]. apply wpx_modify. wp_steps.
    apply crt_put_spec; [lia|cbn [crt set_crt set_cursor]; rewrite !length_splice; lia|].
    cbn [crt set_crt set_cursor]. change (Z.to_nat (1920 - 1840)) with 80%nat. change (Z.to_nat 1840) with 1840%nat.
    split; [|done]. split; cbn [crt set_crt set_cursor t_cells t_top t_cur]; rewrite ?length_insert, ?length_splice, ?length_app, ?length_replicate; try lia.
    + replace (80 * S (t_top t))%nat with (80 * t_top t + 80)%nat by lia. rewrite <- (window_insert _ _ 1920 (80 * t_top t + 80) p blank ltac:(lia) Hs).
      by replace (p - (80 * t_top t + 80))%nat with 1840%nat by lia.
    + unfold cursor. cbn [crt_hi crt_lo set_cursor set_crt]. rewrite Nat2Z.inj_succ. transitivity 1840; [reflexivity|lia].
  - rewrite (proj2 (Z.leb_gt _ _)) by dlia. wp_steps. apply crt_put_spec; [lia|done|]. cbn [crt set_crt set_cursor].
    split; [|done]. split; cbn [crt set_crt set_cursor t_cells t_top t_cur]; rewrite ?length_insert; try lia.
    + rewrite <- (window_insert _ _ 1920 (80 * t_top t) p blank ltac:(lia) Hw). by replace (Z.to_nat (Z.of_nat p - 80 * Z.of_nat (t_top t))) with (p - 80 * t_top t)%nat by lia.
    + change (cursor (set_crt ?x ?y)) with (cursor y). apply (cursor_set _ s). lia.
Qed.

Lemma cgaputc_spec c t s : shows s t -> wp (cgaputc c) (fun _ s' => shows s' (term_put t c) /\ kept_io s s') s.
Proof.
  intros Hs. pose proof (shows_cursor s t Hs) as Hr. destruct Hs as [Hl Hc Hw Ht Hp]. unfold cgaputc. do 2 (wp_step; apply wpx_gets).
  change (Z.lor (Z.shiftl (crt_hi s) 8) (crt_lo s)) with (cursor s). rewrite Hp. unfold term_put. case_if E1; [|case_if E2].
  - wp_steps. replace (Z.of_nat (t_cur t) - _ + _) with (Z.of_nat (t_cur t + (80 - t_cur t mod 80)) - 80 * Z.of_nat (t_top t)).
    + apply cga_move_spec; [done..|]. pose proof (Nat.div_mod_eq (t_cur t) 80). pose proof (Nat.mod_upper_bound (t_cur t) 80). lia.
    + pose proof (Nat.mod_upper_bound (t_cur t) 80). rewrite Nat2Z.inj_add, Nat2Z.inj_sub, Nat2Z.inj_mod by lia. dlia.
  - wp_steps. replace (if _ <? _ then _ else _) with (Z.of_nat (if (80 * t_top t <? t_cur t)%nat then t_cur t - 1 else t_cur t) - 80 * Z.of_nat (t_top t)).
    + apply cga_move_spec; try done. destruct (Nat.ltb_spec (80 * t_top t) (t_cur t)); lia.
    + destruct (Nat.ltb_spec (80 * t_top t) (t_cur t)); zcases; lia.
  - wp_step. wp_step. apply crt_put_spec; [lia|done|]. wp_steps.
    replace (Z.of_nat (t_cur t) - _ + 1) with (Z.of_nat (t_cur t + 1) - 80 * Z.of_nat (t_top t)) by lia.
    eapply wpx_mono; [apply (cga_move_spec (<[t_cur t := glyph c]> (t_cells t)) (t_cur t + 1) t)| |done].
    + cbn [crt set_crt]. by rewrite length_insert.
    + by rewrite length_insert.
    + cbn [crt set_crt]. replace (Z.to_nat _) with (t_cur t - 80 * t_top t)%nat by lia. apply window_insert; [lia|done].
    + rewrite length_insert. lia.
    + done.
Qed.

Lemma uartputc_spec c s : uartputc c s = Ret tt (if uart s then set_serial (serial s ++ [c mod 256]) s else s).
Proof. unfold uartputc, bind, gets, modify, ret. by destruct (uart s). Qed.

(** The whole output: [l] went to the terminal and to the serial port. *)
Record printed (l : list Z) (s : screen) (t : term) (s' : screen) : Prop := {
  pr_shows : shows s' (term_puts l t);
  pr_serial : serial s' = serial s ++ (if uart s then concat (map wire l) else []);
  pr_uart : uart s' = uart s;
  pr_alive : panicked s' = panicked s;
}.

Lemma consputc_spec c t s : panicked s = false -> shows s t -> wp (consputc c) (fun _ s' => printed [c] s t s') s.
Proof.
  intros Hp Hs. unfold consputc. wp_step. apply wpx_gets. rewrite Hp. wp_step.
  set (s1 := if uart s then set_serial (serial s ++ wire c) s else s).
  assert (Hu : (if c =? BACKSPACE then do! uartputc 8 in do! uartputc 32 in uartputc 8 else uartputc c) s = Ret tt s1).
  { unfold s1, wire. case_match; unfold bind; rewrite !uartputc_spec; destruct (uart s) eqn:Eu; cbn [uart set_serial serial]; rewrite ?Eu;
      cbn [uart set_serial serial]; rewrite ?Eu; cbn [serial set_serial]; by rewrite <- ?app_assoc. }
  eapply wpx_run_eq; [exact Hu|]. eapply wpx_mono; [apply (cgaputc_spec c t)| |done].
  - unfold s1. destruct (uart s); [|done]. by destruct Hs.
  - intros [] s' [H1 (H2 & H3 & H4)]. split; [done|..]; rewrite ?H2, ?H3, ?H4; unfold s1; destruct (uart s) eqn:Eu; cbn; rewrite ?app_nil_r; done.
Qed.

Lemma term_puts_app l l' t : term_puts (l ++ l') t = term_puts l' (term_puts l t).
Proof. apply fold_left_app. Qed.

Lemma printed_nil s t : shows s t -> printed [] s t s.
Proof. intros Hs. split; [done| |done..]. by destruct (uart s); rewrite app_nil_r. Qed.

Lemma output_app l l' s t s1 s2 : printed l s t s1 -> printed l' s1 (term_puts l t) s2 -> printed (l ++ l') s t s2.
Proof.
  intros [H1 H2 H3 H4] [H5 H6 H7 H8]. split; [by rewrite term_puts_app| |by rewrite H7|by rewrite H8].
  rewrite H6, H2, H3. destruct (uart s); by rewrite <- ?app_assoc, ?map_app, ?concat_app, ?app_nil_r.
Qed.

Lemma consputs_spec l : forall t s, panicked s = false -> shows s t -> wp (mfor l consputc) (fun _ s' => printed l s t s') s.
Proof.
  induction l as [|c l IH]; intros t s Hp Hs; cbn [mfor]; [by apply wpx_ret, printed_nil|].
  wp_step. eapply wpx_mono; [by apply consputc_spec| |done]. intros [] s1 H1. pose proof H1 as [Hs1 _ _ Hp1].
  eapply wpx_mono; [apply (IH _ s1 ltac:(by rewrite Hp1) Hs1)| |done]. intros [] s2 H2. by apply (output_app [c] l s t s1 s2).
Qed.

(** ** cprintf prints characters *)

Lemma mfor_app {S A} (f : A -> M S unit) l l' s : mfor (l ++ l') f s = (do! mfor l f in mfor l' f) s.
Proof.
  revert s. induction l as [|x l IH]; intros s; [done|]. cbn [mfor app]. unfold bind in *. destruct (f x s); [apply IH|done..].
Qed.

Lemma cputs_spec m l : forall k a s, cstring m a l -> (length l < k)%nat -> cputs k m a s = mfor l consputc s.
Proof.
  induction l as [|c l IH]; intros [|k] a s Hs Hk; cbn [length] in *; try lia; cbn [cputs mfor].
  - apply cstring_nil in Hs. by rewrite Hs.
  - apply cstring_cons in Hs as (Hc & Hn & Hl). unfold nz. rewrite Hc, (proj2 (Z.eqb_neq _ _) Hn). cbn [negb].
    unfold bind. destruct (consputc c s); [|done..]. apply IH; [done|lia].
Qed.

Lemma cconversion_spec m c f ap o s : cformats m (37 :: c :: f) ap o ->
  exists l ap' o', o = l ++ o' /\ cformats m f ap' o' /\ cconversion m c ap s = (do! mfor l consputc in ret ap') s.
Proof.
  intros HF. inversion HF; subst; try done.
  - exists (signed_dec cdigits (s32 a)), ap0, o0. split; [done|]. split; [done|]. unfold cconversion, bind, carg, ret. cbn [Z.eqb Pos.eqb fst snd].
    unfold cprintint. rewrite print_number_signed by (unfold s32; dlia). done.
  - exists (numeral cdigits 16 (u32 a)), ap0, o0. split; [done|]. split; [done|]. unfold cconversion, bind, carg, ret.
    rewrite <- (u32_s32 a). destruct H1 as [-> | ->]; cbn [Z.eqb Pos.eqb orb fst snd]; unfold cprintint; by rewrite print_number_unsigned by lia.
  - exists l, ap0, o0. split; [done|]. split; [done|]. unfold cconversion, bind, carg, ret. cbn [Z.eqb Pos.eqb orb fst snd].
    unfold points_to in *. destruct (a =? 0); [by subst l|]. by rewrite (cputs_spec m l) by (done || by eapply cstring_size).
  - exists [37], ap, o0. split; [done|]. split; [done|]. unfold cconversion, bind, ret. cbn [Z.eqb Pos.eqb orb mfor].
    unfold bind. by destruct (consputc 37 s).
  - exists [37; c], ap, o0. split; [done|]. split; [done|]. rewrite !not_elem_of_cons in H1. destruct H1 as (N1 & N2 & N3 & N4 & N5 & _).
    unfold cconversion. rewrite !(proj2 (Z.eqb_neq _ _)) by done. cbn [orb mfor]. unfold bind, ret.
    destruct (consputc 37 s) as [[] s1| | |]; [|done..]. by destruct (consputc c s1).
Qed.

Lemma cformats_char m c f ap o : c <> 37 -> cformats m (c :: f) ap o -> exists o', o = c :: o' /\ cformats m f ap o'.
Proof. intros Hc HF. inversion HF; subst; try done. by eexists. Qed.

Lemma cprintf_loop_spec m fmt : forall n f k i ap o s, (length f <= n)%nat -> cstring m (fmt + i) f -> cformats m f ap o ->
  (length f < k)%nat -> cprintf_loop k m fmt i ap s = mfor o consputc s.
Proof.
  induction n as [|n IH]; intros f [|k] i ap o s Hn Hs HF Hk; try lia.
  - destruct f; cbn [length] in *; [|lia]. inversion HF; subst. cbn [cprintf_loop]. apply cstring_nil in Hs. by rewrite Hs.
  - destruct f as [|c f]; cbn [cprintf_loop]; [inversion HF; subst; apply cstring_nil in Hs; by rewrite Hs|]. cbn [length] in *.
    apply cstring_cons in Hs as (Hc & Hz & Hs). replace (fmt + i + 1) with (fmt + (i + 1)) in Hs by lia.
    rewrite Hc, (proj2 (Z.eqb_neq _ _) Hz). destruct (Z.eqb_spec c 37) as [->|Hp]; cbn [negb].
    + destruct f as [|d f]; [apply cstring_nil in Hs; rewrite Hs; inversion HF; subst; done|].
      apply cstring_cons in Hs as (Hd & Hdz & Hs). cbn [length] in *. replace (fmt + (i + 1) + 1) with (fmt + (i + 2)) in Hs by lia.
      rewrite Hd, (proj2 (Z.eqb_neq _ _) Hdz). destruct (cconversion_spec m d f ap o s HF) as (l & ap' & o' & -> & HF' & Hr).
      unfold bind at 1. rewrite Hr, mfor_app. unfold bind, ret. destruct (mfor l consputc s); [|done..]. apply (IH f); (done || lia).
    + destruct (cformats_char m c f ap o Hp HF) as (o' & -> & HF'). cbn [mfor]. unfold bind. destruct (consputc c s); [|done..]. apply (IH f); (done || lia).
Qed.

(** ** Text stays where it was written *)

Definition plain (c : Z) : Prop := c <> 10 /\ c <> BACKSPACE.

Lemma term_goto_cells cells p t : t_cur (term_goto cells p t) = p /\ (length cells <= length (t_cells (term_goto cells p t)))%nat /\
  forall j, (j < p)%nat -> (j < length cells)%nat -> t_cells (term_goto cells p t) !! j = cells !! j.
Proof.
  unfold term_goto. destruct (Nat.leb_spec (length cells) p); cbn [t_cur t_cells]; rewrite length_insert, ?length_app; (split; [done|]); (split; [lia|]);
    intros j Hj Hl; rewrite list_lookup_insert_ne by lia; [by rewrite lookup_app_l|done].
Qed.

Lemma term_goto_room cells p t : (p <= length cells)%nat -> (p < length (t_cells (term_goto cells p t)))%nat.
Proof.
  intros Hp. unfold term_goto. destruct (Nat.leb_spec (length cells) p); cbn [t_cells]; rewrite length_insert, ?length_app, ?length_replicate; lia.
Qed.

Lemma term_put_plain c t : plain c -> (t_cur t < length (t_cells t))%nat ->
  t_cur (term_put t c) = S (t_cur t) /\ (t_cur (term_put t c) < length (t_cells (term_put t c)))%nat /\
  t_cells (term_put t c) !! t_cur t = Some (glyph c) /\ forall j, (j < t_cur t)%nat -> t_cells (term_put t c) !! j = t_cells t !! j.
Proof.
  intros [Hc1 Hc2] Ht. unfold term_put. rewrite !(proj2 (Z.eqb_neq _ _)) by done. set (cells := <[t_cur t := glyph c]> (t_cells t)).
  assert (Hl : length cells = length (t_cells t)) by apply length_insert.
  destruct (term_goto_cells cells (t_cur t + 1) t) as (H1 & H2 & H3). pose proof (term_goto_room cells (t_cur t + 1) t ltac:(lia)).
  rewrite H1. split; [lia|]. split; [done|]. split; [rewrite H3 by lia; by apply list_lookup_insert_eq|].
  intros j Hj. rewrite H3 by lia. apply list_lookup_insert_ne. lia.
Qed.

Lemma term_text l : forall t, Forall plain l -> (t_cur t < length (t_cells t))%nat ->
  t_cur (term_puts l t) = (t_cur t + length l)%nat /\ (forall j, (j < t_cur t)%nat -> t_cells (term_puts l t) !! j = t_cells t !! j) /\
  forall i c, l !! i = Some c -> t_cells (term_puts l t) !! (t_cur t + i)%nat = Some (glyph c).
Proof.
  induction l as [|c l IH]; intros t Hl Ht; [cbn; by rewrite Nat.add_0_r|]. apply Forall_cons in Hl as [Hc Hl].
  destruct (term_put_plain c t Hc Ht) as (H1 & H2 & H3 & H4). destruct (IH (term_put t c) Hl H2) as (H5 & H6 & H7).
  change (term_puts (c :: l) t) with (term_puts l (term_put t c)). rewrite H1 in *. split; [rewrite H5; cbn [length]; lia|]. split.
  - intros j Hj. rewrite H6 by lia. by apply H4.
  - intros [|i] x Hx; [injection Hx as <-; rewrite Nat.add_0_r, H6 by lia; done|]. rewrite <- (H7 i x Hx). f_equal. lia.
Qed.
