(* ===== verification/Console.v ===== *)
(** * The console device (src/console.c)

    Characters from the keyboard or the serial port come in by interrupts and
    are edited in a ring of 128 bytes; a line that is complete can be read.
    The indices [r], [w] and [e] of the ring run modulo 2^32.  A read that has
    to wait ends the run with [Rsleep] and is continued from there. *)

From S2P Require Import Prelude.
From S2P Require Import CString.
From S2P Require Import Bytes.
From S2P Require Import Sleeplock.
From S2P Require Import Bio.
From S2P Require Import Log.
From S2P Require Import Fs.
From S2P Require Import Screen.

Open Scope Z_scope.

Definition INPUT_BUF : Z := 128.

(** [struct input] *)
Record input := mkInput { i_buf : bytes; i_r : Z; i_w : Z; i_e : Z }.

(** [cons], [input] and the screen; [wakes] counts [wakeup(&input.r)]. *)
Record console := mkConsole {
  con_lock : bool;
  con_locking : bool;
  con_in : input;
  con_scr : screen;
  wakes : nat;
}.

Definition set_con_lock (v : bool) (s : console) : console := mkConsole v (con_locking s) (con_in s) (con_scr s) (wakes s).
Definition set_con_in (v : input) (s : console) : console := mkConsole (con_lock s) (con_locking s) v (con_scr s) (wakes s).
Definition set_con_scr (v : screen) (s : console) : console := mkConsole (con_lock s) (con_locking s) (con_in s) v (wakes s).
Definition add_wake (s : console) : console := mkConsole (con_lock s) (con_locking s) (con_in s) (con_scr s) (S (wakes s)).

Definition con_acquire : M console unit := lock_acquire con_lock set_con_lock.
Definition con_release : M console unit := lock_release con_lock set_con_lock.

Definition on_screen {A} : M screen A -> M console A := zoom con_scr set_con_scr.

(** [input.buf[i % INPUT_BUF]] *)
Definition slot (i : Z) : nat := Z.to_nat (i mod INPUT_BUF).

(** [input.e--] *)
Definition back_e (i : input) : input := mkInput (i_buf i) (i_r i) (i_w i) (u32 (i_e i - 1)).
(** [input.buf[input.e++ % INPUT_BUF] = c] *)
Definition put_e (c : Z) (i : input) : input := mkInput (<[slot (i_e i) := c mod 256]> (i_buf i)) (i_r i) (i_w i) (u32 (i_e i + 1)).
(** [input.w = input.e] *)
Definition commit_w (i : input) : input := mkInput (i_buf i) (i_r i) (i_e i) (i_e i).
(** [input.r++] and [input.r--] *)
Definition next_r (i : input) : input := mkInput (i_buf i) (u32 (i_r i + 1)) (i_w i) (i_e i).
Definition back_r (i : input) : input := mkInput (i_buf i) (u32 (i_r i - 1)) (i_w i) (i_e i).

Definition upd_in (f : input -> input) : M console unit := modify (fun s => set_con_in (f (con_in s)) s).

(** ** Interrupts *)

Definition erase : M console unit :=
  do! upd_in back_e in
  on_screen (consputc BACKSPACE).

(** [while(input.e != input.w && input.buf[(input.e-1) % INPUT_BUF] != '\n')] *)
Fixpoint kill_line (k : nat) : M console unit :=
  match k with
  | O => nofuel
  | S k' =>
      let! i := gets con_in in
      if negb (i_e i =? i_w i) && negb (rd8 (i_buf i) (slot (u32 (i_e i - 1))) =? 10) then
        do! erase in
        kill_line k'
      else ret tt
  end.

(** One character; whether it asks for the list of processes. *)
Definition console_char (c : Z) : M console bool :=
  if c =? 16 then ret true
  else if c =? 21 then
    let! i := gets con_in in
    do! kill_line (S (Z.to_nat (u32 (i_e i - i_w i)))) in
    ret false
  else if (c =? 8) || (c =? 127) then
    let! i := gets con_in in
    do! (if negb (i_e i =? i_w i) then erase else ret tt) in
    ret false
  else
    let! i := gets con_in in
    if nz c && (u32 (i_e i - i_r i) <? INPUT_BUF) then
      let c := if c =? 13 then 10 else c in
      do! upd_in (put_e c) in
      do! on_screen (consputc c) in
      let! i := gets con_in in
      do! (if (c =? 10) || (c =? 4) || (i_e i =? u32 (i_r i + INPUT_BUF)) then
             do! upd_in commit_w in
             modify add_wake
           else ret tt) in
      ret false
    else ret false.

Fixpoint console_chars (cs : list Z) (dump : bool) : M console bool :=
  match cs with
  | [] => ret dump
  | c :: cs' =>
      let! d := console_char c in
      console_chars cs' (dump || d)
  end.

(** [cs] is what [getc] delivers before it answers -1; the result says
    whether [procdump] is called. *)
Definition consoleintr (cs : list Z) : M console bool :=
  do! con_acquire in
  let! dump := console_chars cs false in
  do! con_release in
  ret dump.

(** ** Reading *)

Inductive rd_end :=
  | Rdone (n : Z) (dst : bytes)
  | Rkilled
  | Rsleep (n : Z) (dst : bytes).

(** [target] bytes are wanted, [n] are missing, [dst] is there; [killed] is
    [myproc()->killed]. *)
Fixpoint read_loop (k : nat) (killed : bool) (target n : Z) (dst : bytes) : M console rd_end :=
  match k with
  | O => nofuel
  | S k' =>
      if n <=? 0 then ret (Rdone (target - n) dst)
      else
        let! i := gets con_in in
        if i_r i =? i_w i then ret (if killed then Rkilled else Rsleep n dst)
        else
          let c := rd8 (i_buf i) (slot (i_r i)) in
          do! upd_in next_r in
          if c =? 4 then
            do! (if n <? target then upd_in back_r else ret tt) in
            ret (Rdone (target - n) dst)
          else if c =? 10 then ret (Rdone (target - (n - 1)) (dst ++ [c]))
          else read_loop k' killed target (n - 1) (dst ++ [c])
  end.

(** From a call or a wakeup to the next sleep or the end; sleep releases the
    lock. *)
Definition read_pass (killed : bool) (target n : Z) (dst : bytes) : M console rd_end :=
  do! con_acquire in
  let! i := gets con_in in
  let! r := read_loop (S (S (Z.to_nat (u32 (i_w i - i_r i))))) killed target n dst in
  do! con_release in
  ret r.

(** ** The device and the inode it is called through *)

Record cdev := mkCdev { cd_fs : fsys; cd_con : console }.

Definition in_fs {A} : M fsys A -> M cdev A := zoom cd_fs (fun v s => mkCdev v (cd_con s)).
Definition in_con {A} : M console A -> M cdev A := zoom cd_con (fun v s => mkCdev (cd_fs s) v).

(** The end of a pass: back in the caller with the inode locked, or asleep. *)
Definition read_end (ip : nat) (r : rd_end) : M cdev rd_end :=
  match r with
  | Rsleep n dst => ret r
  | Rdone _ _ | Rkilled =>
      do! in_fs (ilock ip) in
      ret r
  end.

Definition consoleread (ip : nat) (killed : bool) (n : Z) : M cdev rd_end :=
  do! in_fs (iunlock ip) in
  let! r := in_con (read_pass killed n n []) in
  read_end ip r.

(** The rest of [consoleread], after a [wakeup]. *)
Definition consoleread_resume (ip : nat) (killed : bool) (target n : Z) (dst : bytes) : M cdev rd_end :=
  let! r := in_con (read_pass killed target n dst) in
  read_end ip r.

Definition consolewrite (ip : nat) (buf : bytes) (n : Z) : M cdev Z :=
  do! in_fs (iunlock ip) in
  do! in_con (
    do! con_acquire in
    do! on_screen (mfor (map (fun c => Z.land c 255) (take (Z.to_nat n) buf)) consputc) in
    con_release) in
  do! in_fs (ilock ip) in
  ret n.

(** [m] is the memory the format and its strings are in. *)
Definition cprintf (m : memory) (fmt : Z) (argp : list Z) : M console unit :=
  let! locking := gets con_locking in
  do! (if locking then con_acquire else ret tt) in
  if fmt =? 0 then panic "null fmt"
  else
    do! on_screen (cprintf_loop (Ulib.sfuel m) m fmt 0 argp) in
    if locking then con_release else ret tt.

(** ** The line discipline *)

(** What can be read, and the line under the cursor. *)
Record ld := mkLd { avail : bytes; line : bytes }.

Definition ends_line (c : Z) : bool := (c =? 10) || (c =? 4).

(** A character: the new state, what is echoed, and whether readers wake. *)
Definition edit (c : Z) (d : ld) : ld * list Z * bool :=
  if c =? 16 then (d, [], false)
  else if c =? 21 then (mkLd (avail d) [], map (fun _ => BACKSPACE) (line d), false)
  else if (c =? 8) || (c =? 127) then
    match line d with
    | [] => (d, [], false)
    | _ :: _ => (mkLd (avail d) (removelast (line d)), [BACKSPACE], false)
    end
  else if (c =? 0) || (128 <=? length (avail d) + length (line d))%nat then (d, [], false)
  else
    let c := if c =? 13 then 10 else c in
    let l := line d ++ [c mod 256] in
    if ends_line c || (length (avail d) + length l =? 128)%nat then (mkLd (avail d ++ l) [], [c], true)
    else (mkLd (avail d) l, [c], false).

(** Reading up to [n] bytes, of which [got] are there: how it ends, and what
    is left to read. *)
Fixpoint take_line (killed : bool) (target n : Z) (dst av : bytes) : rd_end * bytes :=
  if n <=? 0 then (Rdone (target - n) dst, av)
  else
    match av with
    | [] => (if killed then Rkilled else Rsleep n dst, [])
    | c :: av' =>
        if c =? 4 then (Rdone (target - n) dst, if n <? target then av else av')
        else if c =? 10 then (Rdone (target - (n - 1)) (dst ++ [c]), av')
        else take_line killed target (n - 1) (dst ++ [c]) av'
    end.

(** A run of characters: what is echoed, and how often readers wake. *)
Fixpoint edits (cs : list Z) (d : ld) : ld * list Z * nat :=
  match cs with
  | [] => (d, [], 0%nat)
  | c :: cs' =>
      let '(d1, o1, b) := edit c d in
      let '(d2, o2, n) := edits cs' d1 in
      (d2, o1 ++ o2, ((if b then 1 else 0) + n)%nat)
  end.

(** What happens to the console: an interrupt, or a pass of a reader. *)
Inductive event :=
  | Eintr (cs : list Z)
  | Eread (killed : bool) (target n : Z) (dst : bytes).

Inductive outcome := Ointr (dump : bool) | Oread (r : rd_end).

Definition con_event (e : event) : M console outcome :=
  match e with
  | Eintr cs => let! b := consoleintr cs in ret (Ointr b)
  | Eread killed target n dst => let! r := read_pass killed target n dst in ret (Oread r)
  end.

Fixpoint con_events (es : list event) : M console (list outcome) :=
  match es with
  | [] => ret []
  | e :: es' =>
      let! o := con_event e in
      let! os := con_events es' in
      ret (o :: os)
  end.

(** The same on the line discipline: outcomes, echo and wakeups. *)
Definition ld_event (e : event) (d : ld) : ld * outcome * list Z * nat :=
  match e with
  | Eintr cs => let '(d', o, n) := edits cs d in (d', Ointr (existsb (Z.eqb 16) cs), o, n)
  | Eread killed target n dst => let '(r, av) := take_line killed target n dst (avail d) in (mkLd av (line d), Oread r, [], 0%nat)
  end.

Fixpoint ld_events (es : list event) (d : ld) : ld * list outcome * list Z * nat :=
  match es with
  | [] => (d, [], [], 0%nat)
  | e :: es' =>
      let '(d1, x, o1, n1) := ld_event e d in
      let '(d2, xs, o2, n2) := ld_events es' d1 in
      (d2, x :: xs, o1 ++ o2, (n1 + n2)%nat)
  end.

(** The ring holds the two parts, one after the other. *)
Record ring (i : input) (d : ld) : Prop := {
  rg_len : length (i_buf i) = 128%nat;
  rg_cap : (length (avail d) + length (line d) <= 128)%nat;
  rg_r : is_u32 (i_r i);
  rg_w : i_w i = u32 (i_r i + Z.of_nat (length (avail d)));
  rg_e : i_e i = u32 (i_r i + Z.of_nat (length (avail d) + length (line d)));
  rg_data : forall k c, (avail d ++ line d) !! k = Some c -> i_buf i !! slot (i_r i + Z.of_nat k) = Some c;
}.

(** Between interrupts the line under the cursor has no newline. *)
Definition editing (i : input) (d : ld) : Prop := ring i d /\ 10 ∉ line d.

(** * Lemmas *)

(** ** The ring *)

Lemma slot_u32 x : slot (u32 x) = slot x.
Proof. unfold slot, u32, INPUT_BUF. f_equal. dlia. Qed.

Lemma slot_lt x : (slot x < 128)%nat.
Proof. unfold slot, INPUT_BUF. dlia. Qed.

Lemma slot_ne x k n : (k < n < 128)%nat -> slot (x + Z.of_nat k) <> slot (x + Z.of_nat n).
Proof. unfold slot, INPUT_BUF. dlia. Qed.

Lemma ring_line_empty i d : ring i d -> (i_e i =? i_w i) = bool_decide (line d = []).
Proof.
  intros [_ Hc [Hr1 Hr2] Hw He _]. rewrite Hw, He. unfold u32. case_bool_decide as Hl; [rewrite Hl, Nat.add_0_r; apply Z.eqb_refl|].
  apply Z.eqb_neq. intros H. apply Hl, nil_length_inv. revert H. dlia.
Qed.

Lemma ring_avail_empty i d : ring i d -> (i_r i =? i_w i) = bool_decide (avail d = []).
Proof.
  intros [_ Hc [Hr1 Hr2] Hw He _]. rewrite Hw. unfold u32. case_bool_decide as Hl.
  - rewrite Hl. apply Z.eqb_eq. cbn. dlia.
  - apply Z.eqb_neq. intros H. apply Hl, nil_length_inv. revert H. dlia.
Qed.

Lemma ring_sizes i d : ring i d -> u32 (i_e i - i_r i) = Z.of_nat (length (avail d) + length (line d)) /\
  u32 (i_e i - i_w i) = Z.of_nat (length (line d)) /\ u32 (i_w i - i_r i) = Z.of_nat (length (avail d)).
Proof. intros [_ Hc [Hr1 Hr2] Hw He _]. rewrite Hw, He. unfold u32. dlia. Qed.

Lemma ring_full i d : ring i d -> (i_e i =? u32 (i_r i + INPUT_BUF)) = (length (avail d) + length (line d) =? 128)%nat.
Proof.
  intros [_ Hc [Hr1 Hr2] Hw He _]. rewrite He. unfold u32, INPUT_BUF.
  destruct (Nat.eqb_spec (length (avail d) + length (line d)) 128) as [->|Hn]; [by apply Z.eqb_eq|]. apply Z.eqb_neq. dlia.
Qed.

Lemma ring_back i a l c : ring i (mkLd a (l ++ [c])) ->
  rd8 (i_buf i) (slot (u32 (i_e i - 1))) = c /\ ring (back_e i) (mkLd a l).
Proof.
  intros [Hb Hc Hr Hw He Hd]. cbn [avail line] in *. rewrite length_app in *. cbn [length] in *. split.
  - unfold rd8. replace (slot (u32 (i_e i - 1))) with (slot (i_r i + Z.of_nat (length (a ++ l)))).
    + rewrite (Hd _ c); [done|]. rewrite app_assoc. by apply list_lookup_middle.
    + rewrite He, slot_u32, length_app. unfold slot, u32, INPUT_BUF. f_equal. dlia.
  - split; cbn [i_buf i_r i_w i_e back_e avail line]; try done; [lia|rewrite He; unfold u32; dlia|].
    intros k x Hk. apply Hd. rewrite app_assoc. by apply lookup_app_l_Some.
Qed.

Lemma ring_put i a l c : ring i (mkLd a l) -> (length a + length l < 128)%nat -> is_byte c -> ring (put_e c i) (mkLd a (l ++ [c])).
Proof.
  unfold is_byte. intros [Hb Hc Hr Hw He Hd] Hlt Hcb. cbn [avail line] in *. split; cbn [i_buf i_r i_w i_e put_e avail line]; try done.
  - by rewrite length_insert.
  - rewrite length_app. cbn [length]. lia.
  - rewrite He, length_app. cbn [length]. unfold u32. dlia.
  - intros k x Hk. rewrite He, slot_u32, Z.mod_small by done. rewrite <- length_app in *. rewrite app_assoc in Hk. apply lookup_app_Some in Hk as [Hk|[Hge Hk]].
    + rewrite list_lookup_insert_ne; [by apply Hd|]. apply lookup_lt_Some in Hk. apply not_eq_sym, slot_ne. lia.
    + apply list_lookup_singleton_Some in Hk as [Hk <-]. replace k with (length (a ++ l)) by lia. apply list_lookup_insert_eq.
      rewrite Hb. apply slot_lt.
Qed.

Lemma ring_commit i a l : ring i (mkLd a l) -> ring (commit_w i) (mkLd (a ++ l) []).
Proof.
  intros [Hb Hc Hr Hw He Hd]. cbn [avail line] in *.
  split; cbn [i_buf i_r i_w i_e commit_w avail line length]; rewrite ?app_nil_r, ?length_app, ?Nat.add_0_r; done.
Qed.

Lemma ring_next i c a l : ring i (mkLd (c :: a) l) -> rd8 (i_buf i) (slot (i_r i)) = c /\ ring (next_r i) (mkLd a l) /\ back_r (next_r i) = i.
Proof.
  intros [Hb Hc Hr Hw He Hd]. cbn [avail line length] in *. split; [|split].
  - unfold rd8. specialize (Hd 0%nat c eq_refl). by rewrite Z.add_0_r in Hd; rewrite Hd.
  - split; cbn [i_buf i_r i_w i_e next_r avail line]; try done; [lia|apply u32_range|rewrite Hw; unfold u32; dlia|rewrite He; unfold u32; dlia|].
    intros k x Hk. rewrite <- (Hd (S k) x Hk). f_equal. unfold slot, u32, INPUT_BUF. f_equal. dlia.
  - unfold back_r, next_r. cbn. destruct i as [b r w e]. cbn in *. f_equal. unfold is_u32 in Hr. unfold u32. dlia.
Qed.

(** ** Interrupts *)

(** From [s], the line discipline went from [d] to [d'], [o] was echoed and
    readers were woken [n] times. *)
Record moved (o : list Z) (n : nat) (t : term) (s : console) (d' : ld) (s' : console) : Prop := {
  mv_in : editing (con_in s') d';
  mv_out : Screen.printed o (con_scr s) t (con_scr s');
  mv_lock : con_lock s' = con_lock s;
  mv_locking : con_locking s' = con_locking s;
  mv_wakes : wakes s' = (wakes s + n)%nat;
}.

(** A console at rest. *)
Definition con_ok (s : console) (d : ld) (t : term) : Prop :=
  editing (con_in s) d /\ shows (con_scr s) t /\ panicked (con_scr s) = false.

Lemma moved_refl t s d : con_ok s d t -> moved [] 0 t s d s.
Proof. intros (H1 & H2 & H3). split; [done|by apply printed_nil|done..|lia]. Qed.

Lemma moved_ok o n t s d' s' d : con_ok s d t -> moved o n t s d' s' -> con_ok s' d' (term_puts o t).
Proof. intros (_ & _ & Hp) [H1 [H2 _ _ H4] _ _ _]. split; [done|]. split; [done|by rewrite H4]. Qed.

Lemma moved_trans o o' n n' t s d1 s1 d2 s2 : moved o n t s d1 s1 -> moved o' n' (term_puts o t) s1 d2 s2 -> moved (o ++ o') (n + n') t s d2 s2.
Proof.
  intros [H1 H2 H3 H4 H5] [H6 H7 H8 H9 H10]. split; [done|by eapply output_app|by rewrite H8|by rewrite H9|]. rewrite H10, H5. lia.
Qed.

Lemma erase_spec a l c t s : con_ok s (mkLd a (l ++ [c])) t -> wp erase (fun _ s' => moved [BACKSPACE] 0 t s (mkLd a l) s') s.
Proof.
  intros ((Hr & Hn) & Hs & Hp). destruct (ring_back _ _ _ _ Hr) as [_ Hr']. unfold erase. wp_step. unfold upd_in. apply wpx_modify.
  apply wpx_zoom. eapply wpx_mono; [by apply consputc_spec| |done]. intros [] sc Hpr. split; [|exact Hpr|done..|cbn; lia].
  split; [exact Hr'|]. cbn [line] in *. set_solver.
Qed.

Lemma kill_line_spec a : forall l t s, con_ok s (mkLd a l) t ->
  wp (kill_line (S (length l))) (fun _ s' => moved (map (fun _ => BACKSPACE) l) 0 t s (mkLd a []) s') s.
Proof.
  induction l as [|c l IH] using rev_ind; intros t s Hok; pose proof Hok as ((Hr & Hn) & Hs & Hp).
  - cbn [kill_line length]. wp_step. apply wpx_gets. rewrite (ring_line_empty _ _ Hr). cbn. by apply moved_refl.
  - rewrite length_app, Nat.add_comm. change (1 + length l)%nat with (S (length l)). cbn [kill_line]. wp_step. apply wpx_gets.
    destruct (ring_back _ _ _ _ Hr) as [Hc _]. rewrite (ring_line_empty _ _ Hr), Hc, bool_decide_false by (cbn; by destruct l).
    cbn [line] in Hn. rewrite (proj2 (Z.eqb_neq _ _)) by set_solver. cbn [negb andb]. wp_step.
    eapply wpx_mono; [by apply (erase_spec a l c)| |done]. intros [] s1 H1. eapply wpx_mono; [apply IH; by eapply moved_ok in H1| |done].
    intros [] s2 H2. replace (map _ (l ++ [c])) with ([BACKSPACE] ++ map (fun _ => BACKSPACE) l).
    + by apply (moved_trans [BACKSPACE] _ 0 0 t s (mkLd a l) s1).
    + rewrite map_app. cbn. clear. induction l as [|x l IH]; [done|]. cbn. by rewrite <- IH.
Qed.

Definition wakes_of (b : bool) : nat := if b then 1 else 0.

(** What [console_char] does, for a state [x] the specification gives. *)
Definition does (t : term) (s : console) (x : ld * list Z * bool) (s' : console) : Prop :=
  moved x.1.2 (wakes_of x.2) t s x.1.1 s'.

Lemma put_char_spec c d t s : con_ok s d t -> is_byte c -> (length (avail d) + length (line d) < 128)%nat ->
  wp (do! upd_in (put_e c) in
      do! on_screen (consputc c) in
      let! i := gets con_in in
      do! (if (c =? 10) || (c =? 4) || (i_e i =? u32 (i_r i + INPUT_BUF)) then
             do! upd_in commit_w in
             modify add_wake
           else ret tt) in
      ret false)
   (fun b s' => b = false /\ does t s (if ends_line c || (length (avail d) + length (line d ++ [c]) =? 128)%nat
      then (mkLd (avail d ++ line d ++ [c]) [], [c], true) else (mkLd (avail d) (line d ++ [c]), [c], false)) s') s.
Proof.
  intros ((Hr & Hn) & Hs & Hp) Hc Hl. destruct d as [a l]. cbn [avail line] in *. pose proof (ring_put _ _ _ _ Hr Hl Hc) as Hr1.
  wp_step. unfold upd_in at 1. apply wpx_modify. wp_step. apply wpx_zoom. eapply wpx_mono; [by apply consputc_spec| |done].
  intros [] sc Hpr. wp_step. apply wpx_gets. cbn [con_in set_con_scr set_con_in]. rewrite (ring_full _ _ Hr1). cbn [avail line].
  unfold ends_line. case_if E.
  - wp_step. wp_step. unfold upd_in. apply wpx_modify. apply wpx_modify. apply wpx_ret. split; [done|].
    split; [|exact Hpr|done..|cbn; lia]. split; [by apply ring_commit|apply not_elem_of_nil].
  - wp_steps. split; [done|]. split; [|exact Hpr|done..|cbn; lia]. split; [exact Hr1|]. cbn [line fst snd].
    apply orb_false_iff in E as [E _]. apply orb_false_iff in E as [E _]. apply Z.eqb_neq in E. set_solver.
Qed.

Lemma console_char_spec c d t s : con_ok s d t -> is_byte c ->
  wp (console_char c) (fun b s' => b = (c =? 16) /\ does t s (edit c d) s') s.
Proof.
  intros Hok Hc. pose proof Hok as ((Hr & Hn) & Hs & Hp). destruct (ring_sizes _ _ Hr) as (Hz1 & Hz2 & Hz3). unfold console_char, edit.
  case_if E1; [apply wpx_ret; split; [done|by apply moved_refl]|]. case_if E2; [|case_if E3].
  - wp_step. apply wpx_gets. wp_step. rewrite Hz2, Nat2Z.id. destruct d as [a l]. cbn [line avail] in *.
    eapply wpx_mono; [by apply kill_line_spec| |done]. intros [] s' H. apply wpx_ret. split; [done|exact H].
  - wp_step. apply wpx_gets. rewrite (ring_line_empty _ _ Hr). destruct d as [a l]. cbn [line avail] in *.
    destruct l as [|x l _] using rev_ind; cbn [line].
    + wp_steps. split; [done|by apply moved_refl].
    + rewrite bool_decide_false by (by destruct l). cbn [negb]. wp_step. eapply wpx_mono; [by apply (erase_spec a l x)| |done].
      intros [] s' H. apply wpx_ret. split; [done|]. rewrite removelast_last. by destruct (l ++ [x]) eqn:E; [destruct l|].
  - wp_step. apply wpx_gets. rewrite Hz1. unfold nz, INPUT_BUF. destruct (Z.eqb_spec c 0) as [->|Hc0]; cbn [negb andb orb].
    { apply wpx_ret. split; [done|by apply moved_refl]. }
    destruct (Nat.leb_spec 128 (length (avail d) + length (line d))) as [Hge|Hlt].
    { rewrite (proj2 (Z.ltb_ge _ _)) by lia. apply wpx_ret. split; [done|by apply moved_refl]. }
    rewrite (proj2 (Z.ltb_lt _ _)) by lia. set (c' := if c =? 13 then 10 else c).
    assert (Hc' : is_byte c') by (unfold c'; by destruct (c =? 13)). rewrite (Z.mod_small c') by exact Hc'. by apply put_char_spec.
Qed.

Lemma console_chars_spec cs : forall d t s b0, con_ok s d t -> Forall is_byte cs ->
  wp (console_chars cs b0) (fun b s' => b = b0 || existsb (Z.eqb 16) cs /\ let '(d', o, n) := edits cs d in moved o n t s d' s') s.
Proof.
  induction cs as [|c cs IH]; intros d t s b0 Hok Hcs; cbn [console_chars edits existsb].
  - apply wpx_ret. rewrite orb_false_r. split; [done|by apply moved_refl].
  - apply Forall_cons in Hcs as [Hc Hcs]. wp_step. eapply wpx_mono; [by apply console_char_spec| |done]. intros b1 s1 [-> H1].
    destruct (edit c d) as [[d1 o1] w1]. unfold does in H1. cbn [fst snd] in H1.
    eapply wpx_mono; [apply (IH d1); [by eapply moved_ok|done]| |done]. intros b2 s2 [-> H2]. rewrite <- orb_assoc, (Z.eqb_sym c 16).
    split; [done|]. destruct (edits cs d1) as [[d2 o2] n2]. by eapply moved_trans.
Qed.

(** ** The lock around an operation *)

Lemma with_lock {A} (c : M console A) (Q : A -> console -> Prop) s : con_lock s = false ->
  wp c (fun a s' => con_lock s' = true /\ Q a (set_con_lock false s')) (set_con_lock true s) ->
  wp (do! con_acquire in let! a := c in do! con_release in ret a) Q s.
Proof.
  intros Hl Hc. wp_step. apply wpx_acquire; [done|]. wp_step. eapply wpx_mono; [exact Hc| |done]. intros a s' [Hl' HQ].
  wp_step. apply wpx_release; [done|]. by apply wpx_ret.
Qed.

Lemma moved_unlock o n t s d' s' : con_lock s = false -> moved o n t (set_con_lock true s) d' s' ->
  con_lock s' = true /\ moved o n t s d' (set_con_lock false s').
Proof. intros Hl [H1 H2 H3 H4 H5]. split; [done|]. split; (done || by cbn). Qed.

Lemma consoleintr_spec cs d t s : con_lock s = false -> con_ok s d t -> Forall is_byte cs ->
  wp (consoleintr cs) (fun b s' => b = existsb (Z.eqb 16) cs /\ let '(d', o, n) := edits cs d in moved o n t s d' s') s.
Proof.
  intros Hl Hok Hcs. apply with_lock; [done|]. eapply wpx_mono; [by apply (console_chars_spec cs d t)| |done].
  intros b s' [-> H]. destruct (edits cs d) as [[d' o] n]. destruct (moved_unlock _ _ _ _ _ _ Hl H). by split.
Qed.

(** ** Reading *)

Lemma read_loop_spec killed target t : forall av k n dst l s, con_ok s (mkLd av l) t -> (length av < k)%nat ->
  wp (read_loop k killed target n dst) (fun r s' => exists av', take_line killed target n dst av = (r, av') /\ moved [] 0 t s (mkLd av' l) s') s.
Proof.
  induction av as [|c av IH]; intros [|k] n dst l s Hok Hk; try (cbn in Hk; lia); pose proof Hok as ((Hr & Hn) & Hs & Hp);
    cbn [read_loop take_line]; (case_if E; [apply wpx_ret; eexists; split; [done|by apply moved_refl]|]);
    wp_step; apply wpx_gets; rewrite (ring_avail_empty _ _ Hr).
  - cbn [bool_decide]. apply wpx_ret. eexists. split; [done|by apply moved_refl].
  - rewrite bool_decide_false by done. destruct (ring_next _ _ _ _ Hr) as (Hc & Hr' & Hb). rewrite Hc. wp_step. unfold upd_in at 1. apply wpx_modify.
    assert (M1 : moved [] 0 t s (mkLd av l) (set_con_in (next_r (con_in s)) s)) by (split; [by split|by apply printed_nil|done..|cbn; lia]).
    case_if E4; [|case_if E10].
    + case_if E5; wp_steps; [unfold upd_in; apply wpx_modify; apply wpx_ret|]; (eexists; split; [done|]); [|done].
      cbn [con_in set_con_in]. rewrite Hb. destruct s. by apply moved_refl.
    + apply wpx_ret. by eexists.
    + eapply wpx_mono; [apply (IH k (n - 1) (dst ++ [c]) l); [exact (moved_ok _ _ _ _ _ _ _ Hok M1)|cbn in Hk; lia]| |done].
      intros r s' (av' & E' & M2). exists av'. split; [done|]. exact (moved_trans [] [] 0 0 t s _ _ _ _ M1 M2).
Qed.

Lemma read_pass_spec killed target n dst d t s : con_lock s = false -> con_ok s d t ->
  wp (read_pass killed target n dst) (fun r s' => exists av', take_line killed target n dst (avail d) = (r, av') /\ moved [] 0 t s (mkLd av' (line d)) s') s.
Proof.
  intros Hl Hok. unfold read_pass. pose proof Hok as ((Hr & _) & _). destruct (ring_sizes _ _ Hr) as (_ & _ & Hz). destruct d as [av l].
  cbn [avail line] in *. wp_step. apply wpx_acquire; [done|]. wp_step. apply wpx_gets. wp_step.
  eapply wpx_mono; [apply (read_loop_spec killed target t av _ n dst l); [done|cbn [con_in set_con_lock]; lia]| |done].
  intros r s' (av' & E & H). destruct (moved_unlock _ _ _ _ _ _ Hl H) as [Hl' H']. wp_step. apply wpx_release; [done|]. apply wpx_ret. by exists av'.
Qed.

(** ** Events *)

Definition event_ok (e : event) : Prop := match e with Eintr cs => Forall is_byte cs | Eread _ _ _ _ => True end.

Lemma con_event_spec e d t s : con_lock s = false -> con_ok s d t -> event_ok e ->
  wp (con_event e) (fun x s' => let '(d', x', o, n) := ld_event e d in x = x' /\ moved o n t s d' s') s.
Proof.
  intros Hl Hok He. destruct e as [cs|killed target n dst]; cbn [con_event ld_event]; wp_step.
  - eapply wpx_mono; [by apply (consoleintr_spec cs d t)| |done]. intros b s' [-> H]. apply wpx_ret. by destruct (edits cs d) as [[d' o] n].
  - eapply wpx_mono; [by apply read_pass_spec| |done]. intros r s' (av' & -> & H). by apply wpx_ret.
Qed.

Lemma con_events_spec es : forall d t s, con_lock s = false -> con_ok s d t -> Forall event_ok es ->
  wp (con_events es) (fun xs s' => let '(d', xs', o, n) := ld_events es d in xs = xs' /\ moved o n t s d' s') s.
Proof.
  induction es as [|e es IH]; intros d t s Hl Hok Hes; cbn [con_events ld_events].
  - apply wpx_ret. split; [done|by apply moved_refl].
  - apply Forall_cons in Hes as [He Hes]. wp_step. eapply wpx_mono; [by apply (con_event_spec e d t)| |done]. intros x s1.
    destruct (ld_event e d) as [[[d1 x'] o1] n1]. intros [-> H1]. wp_step.
    eapply wpx_mono; [apply (IH d1 (term_puts o1 t)); [by rewrite (mv_lock _ _ _ _ _ _ H1)|by eapply moved_ok|done]| |done].
    intros xs s2. destruct (ld_events es d1) as [[[d2 xs'] o2] n2]. intros [-> H2]. apply wpx_ret. split; [done|]. by eapply moved_trans.
Qed.

(** ** The inode's lock around the device *)

(** The process has locked the inode, as [readi] and [writei] ask. *)
Definition ilocked (ip : nat) (f : fsys) : Prop :=
  exists x, icache f !! ip = Some x /\ 1 <= i_ref x /\ i_lock x = mkSleep 1 (fs_pid f) /\ i_valid x <> 0.

(** The file system while the device works: the inode is unlocked. *)
Definition unlocked (ip : nat) (f : fsys) : fsys := ino_lock_set ip (mkSleep 0 0) f.

Lemma iunlock_spec ip f : ilocked ip f -> iunlock ip f = Ret tt (unlocked ip f).
Proof.
  intros (x & Hx & Hr & Hl & Hv). unfold iunlock, bind, iholdingsleep, holdingsleep, iref, ino_lock_get. rewrite Hx. cbn [fmap option_fmap option_map].
  rewrite Hx. unfold sl_holding. rewrite Hl. cbn [sl_locked sl_pid]. rewrite Z.eqb_refl, (proj2 (Z.ltb_ge _ _)) by lia. cbn.
  unfold ireleasesleep, releasesleep, ino_lock_get. rewrite Hx. done.
Qed.

Lemma relock ip f x : icache f !! ip = Some x -> i_lock x = mkSleep 1 (fs_pid f) -> iacquiresleep ip (unlocked ip f) = Ret tt f.
Proof.
  intros Hx Hl. unfold iacquiresleep, acquiresleep, ino_lock_get, unlocked, ino_lock_set. cbn [icache set_icache].
  rewrite list_lookup_alter_eq, Hx. cbn [fmap option_fmap option_map i_lock set_ilock]. unfold sl_try. cbn [sl_locked nz Z.eqb negb]. f_equal.
  destruct f as [g ic lk sb]. unfold fs_pid, set_icache in *. cbn in *. f_equal. apply list_eq. intros j.
  destruct (decide (ip = j)) as [<-|Hne]; [|by rewrite !list_lookup_alter_ne]. rewrite !list_lookup_alter_eq, Hx. cbn. f_equal.
  destruct x. cbn in *. by subst.
Qed.

Lemma ilock_unlocked ip f : ilocked ip f -> ilock ip (unlocked ip f) = Ret tt f.
Proof.
  intros (x & Hx & Hr & Hl & Hv). unfold ilock. unfold bind at 1, iref at 1. unfold unlocked at 1, ino_lock_set. cbn [icache set_icache].
  rewrite list_lookup_alter_eq, Hx. cbn [fmap option_fmap option_map i_ref set_ilock]. rewrite (proj2 (Z.ltb_ge _ _)) by lia.
  unfold bind at 1. rewrite (relock ip f x) by done. unfold bind at 1, iref at 1. rewrite Hx. by rewrite (proj2 (Z.eqb_neq _ _)).
Qed.

Lemma map_low_byte l : Forall is_byte l -> map (fun c => Z.land c 255) l = l.
Proof.
  intros H. induction H as [|c l Hc H IH]; [done|]. cbn [map]. rewrite IH. f_equal. unfold is_byte in Hc.
  change 255 with (Z.ones 8). rewrite Z.land_ones by lia. by apply Z.mod_small.
Qed.

Lemma consolewrite_spec ip l n d t f s : ilocked ip f -> con_lock s = false -> con_ok s d t -> Forall is_byte l ->
  wp (consolewrite ip l n) (fun r s' => r = n /\ cd_fs s' = f /\ moved (take (Z.to_nat n) l) 0 t s d (cd_con s')) (mkCdev f s).
Proof.
  intros Hi Hl (He & Hs & Hp) Hb. unfold consolewrite. wp_step. apply wpx_zoom. cbn [cd_fs]. eapply wpx_run_eq; [by apply iunlock_spec|].
  wp_step. apply wpx_zoom. cbn [cd_con]. wp_step. apply wpx_acquire; [done|]. wp_step. apply wpx_zoom.
  replace (map _ _) with (take (Z.to_nat n) l).
  - eapply wpx_mono; [by apply consputs_spec| |done]. intros [] sc Hpr. apply wpx_release; [done|]. wp_step. apply wpx_zoom. cbn [cd_fs].
    eapply wpx_run_eq; [by apply ilock_unlocked|]. apply wpx_ret. split; [done|]. split; [done|]. cbn [cd_con].
    split; [done|exact Hpr|done..|cbn; lia].
  - symmetry. by apply map_low_byte, Forall_take.
Qed.

(** Reading through the inode: back with the inode locked, or asleep with
    it unlocked. *)
Lemma read_end_spec ip r f s : ilocked ip f ->
  wp (read_end ip r) (fun r' s' => r' = r /\ cd_con s' = s /\ cd_fs s' = match r with Rsleep _ _ => unlocked ip f | _ => f end) (mkCdev (unlocked ip f) s).
Proof.
  intros Hi. destruct r; cbn [read_end]; [| |by apply wpx_ret]; wp_step; apply wpx_zoom; cbn [cd_fs];
    (eapply wpx_run_eq; [by apply ilock_unlocked|]); by apply wpx_ret.
Qed.

(** A pass through the inode, from the call or from a wakeup. *)
Lemma consoleread_resume_spec ip killed target n dst d t f s : ilocked ip f -> con_lock s = false -> con_ok s d t ->
  wp (consoleread_resume ip killed target n dst) (fun r s' => exists av', take_line killed target n dst (avail d) = (r, av') /\
    moved [] 0 t s (mkLd av' (line d)) (cd_con s') /\ cd_fs s' = match r with Rsleep _ _ => unlocked ip f | _ => f end) (mkCdev (unlocked ip f) s).
Proof.
  intros Hi Hl Hok. unfold consoleread_resume. wp_step. apply wpx_zoom. cbn [cd_con]. eapply wpx_mono; [by apply read_pass_spec| |done].
  intros r s' (av' & E & H). eapply wpx_mono; [by apply read_end_spec| |done]. intros r' s2 (-> & -> & ->). by exists av'.
Qed.

Lemma cprintf_spec m fmt f ap o d t s : con_lock s = false -> con_ok s d t -> fmt <> 0 -> cstring m fmt f -> cformats m f ap o ->
  wp (cprintf m fmt ap) (fun _ s' => moved o 0 t s d s') s.
Proof.
  intros Hl (He & Hs & Hp) Hf Hc HF. unfold cprintf. wp_step. apply wpx_gets.
  assert (HL : forall s0, con_scr s0 = con_scr s -> wp (on_screen (cprintf_loop (Ulib.sfuel m) m fmt 0 ap)) (fun _ s1 => Screen.printed o (con_scr s) t (con_scr s1) /\ s1 = set_con_scr (con_scr s1) s0) s0).
  { intros s0 E0. apply wpx_zoom. rewrite E0. eapply wpx_ext; [apply (cprintf_loop_spec m fmt (length f) f); [done|by rewrite Z.add_0_r|done|by eapply Ulib.cstring_size]|].
    eapply wpx_mono; [by apply consputs_spec| |done]. by intros [] sc Hpr. }
  rewrite (proj2 (Z.eqb_neq _ _) Hf). destruct (con_locking s) eqn:Ek.
  - wp_step. apply wpx_acquire; [done|]. wp_step. eapply wpx_mono; [by apply HL| |done]. intros [] s1 [Hpr ->]. apply wpx_release; [done|].
    split; [done|exact Hpr|done..|cbn; lia].
  - wp_steps. eapply wpx_mono; [by apply HL| |done]. intros [] s1 [Hpr ->]. apply wpx_ret. split; [done|exact Hpr|done..|cbn; lia].
Qed.

Lemma concat_wire l : Forall is_byte l -> concat (map wire l) = l.
Proof.
  intros H. induction H as [|c l Hc H IH]; [done|]. unfold is_byte in Hc. cbn. unfold wire, BACKSPACE in *.
  rewrite (proj2 (Z.eqb_neq _ _)) by lia. cbn. by rewrite IH, Z.mod_small.
Qed.

(** ** Readers are woken *)

Lemma edit_wakes c d : (edit c d).2 = false -> avail (edit c d).1.1 = avail d.
Proof.
  unfold edit. destruct (c =? 16); [done|]. destruct (c =? 21); [done|]. destruct (_ || _); [by destruct (line d)|].
  destruct (_ || _); [done|]. by destruct (_ || _).
Qed.

(** Characters that wake nobody leave nothing new to read, so a reader that
    sleeps has nothing to read. *)
Lemma edits_wake cs : forall d, (edits cs d).2 = 0%nat -> avail (edits cs d).1.1 = avail d.
Proof.
  induction cs as [|c cs IH]; intros d H; [done|]. cbn [edits] in *. pose proof (edit_wakes c d) as Hw.
  destruct (edit c d) as [[d1 o1] b]. specialize (IH d1). destruct (edits cs d1) as [[d2 o2] n]. cbn [fst snd] in *.
  destruct b; [lia|]. rewrite IH by lia. by apply Hw.
Qed.

Lemma take_line_sleeps killed target n dst av n' dst' : (take_line killed target n dst av).1 = Rsleep n' dst' -> (take_line killed target n dst av).2 = [].
Proof.
  revert n dst. induction av as [|c av IH]; intros n dst; cbn [take_line]; [by destruct (n <=? 0)|].
  destruct (n <=? 0); [done|]. destruct (c =? 4); [by destruct (n <? target)|]. destruct (c =? 10); [done|]. apply IH.
Qed.

(** * Theorems *)

(** C26: the console is a line discipline.  Whatever interrupts and reads come,
    in any order and across the wrap-around of the indices, the ring of 128
    bytes behaves as the bytes that can be read and the line being edited:
    every read gets what the edited lines say, the echo appears on the screen
    and on the serial port, and readers are woken when there is more to
    read. *)
Theorem console_refines es d t s :
  con_lock s = false -> con_ok s d t -> Forall event_ok es ->
  wp (con_events es) (fun xs s' => let '(d', xs', o, n) := ld_events es d in
    xs = xs' /\ con_ok s' d' (term_puts o t) /\ con_lock s' = false /\ wakes s' = (wakes s + n)%nat /\
    serial (con_scr s') = serial (con_scr s) ++ (if uart (con_scr s) then concat (map wire o) else [])) s.
Proof.
  intros Hl Hok Hes. eapply wpx_mono; [by apply (con_events_spec es d t)| |done]. intros xs s'. destruct (ld_events es d) as [[[d' xs'] o] n].
  intros [-> H]. split; [done|]. split; [by eapply moved_ok|]. destruct H as [_ H2 H3 _ H5]. rewrite H3. split; [done|]. split; [done|]. by destruct H2.
Qed.

(** A console at rest, the indices of its ring about to wrap around. *)
Definition screen_demo : screen := mkScreen (replicate 2000 0) 7 126 true [] false.
Definition con_demo : console := mkConsole false true (mkInput (replicate 128 0) 4294967294 4294967294 4294967294) screen_demo 0.
Definition term_demo : term := mkTerm (replicate 1920 0) 1918 0.

Lemma con_demo_ok : con_ok con_demo (mkLd [] []) term_demo.
Proof.
  split; [|split; [|done]].
  - split; [|apply not_elem_of_nil]. split; try done; cbn; lia.
  - split; try done; vm_compute; lia.
Qed.

(** ab, backspace, c and a newline are typed; two reads of at most two bytes. *)
Definition events_demo : list event := [Eintr [97; 98]; Eread false 2 2 []; Eintr [8; 99; 13]; Eread false 2 2 []; Eread false 2 2 []].

Lemma console_refines_witness : exists s', con_events events_demo con_demo =
    Ret [Ointr false; Oread (Rsleep 2 []); Ointr false; Oread (Rdone 2 [97; 99]); Oread (Rdone 1 [10])] s' /\ con_ok s' (mkLd [] []) (term_puts [97; 98; 256; 99; 10] term_demo).
Proof.
  pose proof (console_refines events_demo (mkLd [] []) term_demo con_demo eq_refl con_demo_ok ltac:(repeat constructor; done)) as H.
  destruct (wpx_result _ _ _ _ [Ointr false; Oread (Rsleep 2 []); Ointr false; Oread (Rdone 2 [97; 99]); Oread (Rdone 1 [10])] H) as (s' & Hr & _ & Hk & _); [vm_compute; reflexivity|].
  exists s'. split; [exact Hr|exact Hk].
Defined.

(** What is written to the console is on the screen.  [consolewrite] writes
    all its bytes to an endless terminal, of which the screen shows the last 24
    rows, without leaving the screen's memory; what was written stays readable
    there, and the file system is as it was. *)
Theorem console_displays ip l d t f s :
  ilocked ip f -> con_lock s = false -> con_ok s d t -> Forall is_byte l ->
  wp (consolewrite ip l (Z.of_nat (length l))) (fun r s' =>
    r = Z.of_nat (length l) /\ cd_fs s' = f /\ con_ok (cd_con s') d (term_puts l t) /\
    serial (con_scr (cd_con s')) = serial (con_scr s) ++ (if uart (con_scr s) then l else []) /\
    (10 ∉ l -> forall i c, l !! i = Some c -> t_cells (term_puts l t) !! (t_cur t + i)%nat = Some (glyph c))) (mkCdev f s).
Proof.
  intros Hi Hl Hok Hb. eapply wpx_mono; [by apply (consolewrite_spec ip l _ d t)| |done]. intros r s' (-> & Hf & H).
  rewrite Nat2Z.id, firstn_all in H. split; [done|]. split; [done|]. split; [by eapply moved_ok|]. split.
  - rewrite (pr_serial _ _ _ _ (mv_out _ _ _ _ _ _ H)). f_equal. destruct (uart (con_scr s)); [|done]. by apply concat_wire.
  - intros Hn. destruct Hok as (_ & [_ _ _ [_ Ht] _] & _). destruct (term_text l t) as (_ & _ & Htext); [|done|done].
    rewrite Forall_forall in *. intros c Hc. specialize (Hb c Hc). unfold is_byte in Hb. split; [congruence|unfold BACKSPACE; lia].
Qed.

(** The inode of the console, locked by the process that writes. *)
Definition dev_demo : fsys :=
  mkFs (mkLog (mkBcache [] false 3 [] []) false 0 0 0 0 1 0 []) [mkInode 1 7 1 (mkSleep 1 3) 1 3 1 1 1 0 []] false (mkSuper 0 0 0 0 0 0 0).

(** Three characters at the end of the last row: the screen scrolls. *)
Lemma console_displays_witness : exists s', consolewrite 0 [104; 105; 33] 3 (mkCdev dev_demo con_demo) = Ret 3 s' /\ cd_fs s' = dev_demo /\
  shows (con_scr (cd_con s')) (term_puts [104; 105; 33] term_demo) /\ t_top (term_puts [104; 105; 33] term_demo) = 1%nat.
Proof.
  destruct (wpx_result _ _ _ _ 3 (console_displays 0 [104; 105; 33] (mkLd [] []) term_demo dev_demo con_demo
    ltac:(eexists; split; [reflexivity|]; cbn; split; [lia|]; split; [reflexivity|discriminate]) eq_refl con_demo_ok
    ltac:(repeat constructor; done))) as (s' & Hr & _ & Hf & Hk & _); [vm_compute; reflexivity|].
  exists s'. split; [exact Hr|]. split; [exact Hf|]. split; [apply Hk|vm_compute; reflexivity].
Defined.
