(* ===== verification/Kbd.v ===== *)
(** * The keyboard and the serial port as input (src/kbd.c, src/kbd.h, src/uart.c)

    Scan codes become characters through tables chosen by the modifier keys;
    the characters go to [consoleintr].  The last theorem follows a line from
    the keys to the process that reads it. *)

From S2P Require Import Prelude.
From S2P Require Import Bytes.
From S2P Require Import Screen.
From S2P Require Import Console.

Open Scope Z_scope.

Definition SHIFT : Z := 1.
Definition CTL : Z := 2.
Definition ALT : Z := 4.
Definition CAPSLOCK : Z := 8.
Definition NUMLOCK : Z := 16.
Definition SCROLLLOCK : Z := 32.
Definition E0ESC : Z := 64.

Definition KEY_HOME : Z := 224.
Definition KEY_END : Z := 225.
Definition KEY_UP : Z := 226.
Definition KEY_DN : Z := 227.
Definition KEY_LF : Z := 228.
Definition KEY_RT : Z := 229.
Definition KEY_PGUP : Z := 230.
Definition KEY_PGDN : Z := 231.
Definition KEY_INS : Z := 232.
Definition KEY_DEL : Z := 233.

(** An array of 256 bytes: first elements, and elements at given indices. *)
Definition table (l : list Z) (at_ : list (nat * Z)) : list Z :=
  foldr (fun p t => <[p.1 := p.2]> t) (l ++ replicate (256 - length l) 0) at_.

Definition shiftcode : list Z := table [] [(29%nat, CTL); (42%nat, SHIFT); (54%nat, SHIFT); (56%nat, ALT); (157%nat, CTL); (184%nat, ALT)].

Definition togglecode : list Z := table [] [(58%nat, CAPSLOCK); (69%nat, NUMLOCK); (70%nat, SCROLLLOCK)].

(** The keys behind an E0 escape that all maps share. *)
Definition e0keys : list (nat * Z) :=
  [(200%nat, KEY_UP); (208%nat, KEY_DN); (201%nat, KEY_PGUP); (209%nat, KEY_PGDN); (203%nat, KEY_LF); (205%nat, KEY_RT);
   (151%nat, KEY_HOME); (207%nat, KEY_END); (210%nat, KEY_INS); (211%nat, KEY_DEL)].

Definition normalmap : list Z := table
  [0; 27; 49; 50; 51; 52; 53; 54;
   55; 56; 57; 48; 45; 61; 8; 9;
   113; 119; 101; 114; 116; 121; 117; 105;
   111; 112; 91; 93; 10; 0; 97; 115;
   100; 102; 103; 104; 106; 107; 108; 59;
   39; 96; 0; 92; 122; 120; 99; 118;
   98; 110; 109; 44; 46; 47; 0; 42;
   0; 32; 0; 0; 0; 0; 0; 0;
   0; 0; 0; 0; 0; 0; 0; 55;
   56; 57; 45; 52; 53; 54; 43; 49;
   50; 51; 48; 46; 0; 0; 0; 0]
  ((156%nat, 10) :: (181%nat, 47) :: e0keys).

Definition shiftmap : list Z := table
  [0; 27; 33; 64; 35; 36; 37; 94;
   38; 42; 40; 41; 95; 43; 8; 9;
   81; 87; 69; 82; 84; 89; 85; 73;
   79; 80; 123; 125; 10; 0; 65; 83;
   68; 70; 71; 72; 74; 75; 76; 58;
   34; 126; 0; 124; 90; 88; 67; 86;
   66; 78; 77; 60; 62; 63; 0; 42;
   0; 32; 0; 0; 0; 0; 0; 0;
   0; 0; 0; 0; 0; 0; 0; 55;
   56; 57; 45; 52; 53; 54; 43; 49;
   50; 51; 48; 46; 0; 0; 0; 0]
  ((156%nat, 10) :: (181%nat, 47) :: e0keys).

(** [C(x)], in an array of [uchar]. *)
Definition Ctl (x : Z) : Z := (x - 64) mod 256.

Definition ctlmap : list Z := table
  ([0; 0; 0; 0; 0; 0; 0; 0;
    0; 0; 0; 0; 0; 0; 0; 0] ++
   map Ctl [81; 87; 69; 82; 84; 89; 85; 73] ++
   [Ctl 79; Ctl 80; 0; 0; 13; 0; Ctl 65; Ctl 83] ++
   [Ctl 68; Ctl 70; Ctl 71; Ctl 72; Ctl 74; Ctl 75; Ctl 76; 0;
    0; 0; 0; Ctl 92; Ctl 90; Ctl 88; Ctl 67; Ctl 86;
    Ctl 66; Ctl 78; Ctl 77; 0; 0; Ctl 47; 0; 0])
  ((156%nat, 13) :: (181%nat, Ctl 47) :: e0keys).

Definition charcode : list (list Z) := [normalmap; shiftmap; ctlmap; ctlmap].

(** [data] from the port, with [shift]: the result and the new [shift]; no
    result for an index outside an array. *)
Definition kbd_decode (shift data : Z) : option (Z * Z) :=
  if data =? 224 then Some (0, Z.lor shift E0ESC)
  else if nz (Z.land data 128) then
    let data := if nz (Z.land shift E0ESC) then data else Z.land data 127 in
    sc ← shiftcode !! Z.to_nat data;
    Some (0, Z.land shift (Z.lnot (Z.lor sc E0ESC)))
  else
    let esc := nz (Z.land shift E0ESC) in
    let data := if esc then Z.lor data 128 else data in
    let shift := if esc then Z.land shift (Z.lnot E0ESC) else shift in
    sc ← shiftcode !! Z.to_nat data;
    tc ← togglecode !! Z.to_nat data;
    let shift := Z.lxor (Z.lor shift sc) tc in
    m ← charcode !! Z.to_nat (Z.land shift (Z.lor CTL SHIFT));
    c ← m !! Z.to_nat data;
    let c :=
      if nz (Z.land shift CAPSLOCK) then
        if (97 <=? c) && (c <=? 122) then c - 32
        else if (65 <=? c) && (c <=? 90) then c + 32
        else c
      else c in
    Some (c, shift).

(** The static [shift], and the scan codes waiting at the port. *)
Record kbd := mkKbd { kb_shift : Z; kb_port : list Z }.

Definition kbdgetc : M kbd Z :=
  fun k =>
    match kb_port k with
    | [] => Ret (-1) k
    | data :: port =>
        match kbd_decode (kb_shift k) data with
        | Some (c, shift) => Ret c (mkKbd shift port)
        | None => Fault "kbdgetc"
        end
    end.

(** The calls of [getc] in [consoleintr], up to the first -1. *)
Fixpoint getc_all {S} (getc : M S Z) (k : nat) : M S (list Z) :=
  match k with
  | O => nofuel
  | Datatypes.S k' =>
      let! c := getc in
      if c <? 0 then ret []
      else
        let! cs := getc_all getc k' in
        ret (c :: cs)
  end.

(** The serial port: whether there is one, and the bytes received. *)
Record uartp := mkUart { ua_on : bool; ua_port : bytes }.

Definition uartgetc : M uartp Z :=
  fun u =>
    if negb (ua_on u) then Ret (-1) u
    else
      match ua_port u with
      | [] => Ret (-1) u
      | c :: port => Ret c (mkUart (ua_on u) port)
      end.

(** The machine's input. *)
Record tty := mkTty { tt_kbd : kbd; tt_uart : uartp; tt_con : console }.

Definition in_kbd {A} : M kbd A -> M tty A := zoom tt_kbd (fun v s => mkTty v (tt_uart s) (tt_con s)).
Definition in_uart {A} : M uartp A -> M tty A := zoom tt_uart (fun v s => mkTty (tt_kbd s) v (tt_con s)).
Definition in_tty {A} : M console A -> M tty A := zoom tt_con (fun v s => mkTty (tt_kbd s) (tt_uart s) v).

(** [consoleintr(kbdgetc)]; the port and the console are apart, so that the
    characters can be taken first. *)
Definition kbdintr : M tty bool :=
  let! n := gets (fun s => length (kb_port (tt_kbd s))) in
  let! cs := in_kbd (getc_all kbdgetc (S n)) in
  in_tty (consoleintr cs).

Definition uartintr : M tty bool :=
  let! n := gets (fun s => length (ua_port (tt_uart s))) in
  let! cs := in_uart (getc_all uartgetc (S n)) in
  in_tty (consoleintr cs).

(** ** Typing *)

(** The key that gives a character in a map, if it is a single scan code. *)
Fixpoint key_in (m : list Z) (k : Z) (c : Z) : option Z :=
  match m with
  | [] => None
  | x :: m' => if x =? c then Some k else key_in m' (k + 1) c
  end.

(** The scan codes of typing a character: the key alone, or with shift. *)
Definition strokes (c : Z) : list Z :=
  match key_in (take 128 normalmap) 0 c with
  | Some k => [k; k + 128]
  | None =>
      match key_in (take 128 shiftmap) 0 c with
      | Some k => [42; k; k + 128; 170]
      | None => []
      end
  end.

Fixpoint kbd_run (shift : Z) (port : list Z) : option (list Z * Z) :=
  match port with
  | [] => Some ([], shift)
  | data :: port' =>
      p ← kbd_decode shift data;
      q ← kbd_run p.2 port';
      Some (p.1 :: q.1, q.2)
  end.

Definition printable (c : Z) : Prop := 32 <= c < 127.

(** No modifier is held and caps lock is off. *)
Definition at_rest (shift : Z) : Prop := shift ∈ [0; NUMLOCK; SCROLLLOCK; NUMLOCK + SCROLLLOCK].

(** * Lemmas *)

(** ** The tables *)

(** All states and all codes. *)
Definition decodes_ok (shift data : Z) : bool :=
  match kbd_decode shift data with
  | Some (c, s) => (0 <=? c) && (c <? 256) && (0 <=? s) && (s <? 128)
  | None => false
  end.

Lemma decodes_all : forallb (fun s => forallb (decodes_ok s) (zrange 0 256)) (zrange 0 128) = true.
Proof. vm_compute. reflexivity. Qed.

Lemma kbd_decode_ok shift data : 0 <= shift < 128 -> is_byte data ->
  exists c s, kbd_decode shift data = Some (c, s) /\ is_byte c /\ 0 <= s < 128.
Proof.
  intros Hs Hd. pose proof decodes_all as H. rewrite forallb_forall in H.
  specialize (H shift ltac:(apply list_elem_of_In, elem_of_zrange; lia)). rewrite forallb_forall in H.
  specialize (H data ltac:(apply list_elem_of_In, elem_of_zrange; unfold is_byte in Hd; lia)). unfold decodes_ok in H.
  destruct (kbd_decode shift data) as [[c s]|]; [|done]. exists c, s. split; [done|]. unfold is_byte.
  repeat (apply andb_true_iff in H as [H ?]). lia.
Qed.

(** ** Runs *)

Lemma kbd_run_app s p1 p2 : kbd_run s (p1 ++ p2) =
  (q1 ← kbd_run s p1; q2 ← kbd_run q1.2 p2; Some (q1.1 ++ q2.1, q2.2)).
Proof.
  revert s. induction p1 as [|d p1 IH]; intros s; cbn [app kbd_run].
  - cbn. by destruct (kbd_run s p2) as [[]|].
  - destruct (kbd_decode s d) as [[c s1]|]; [|done]. cbn. rewrite IH. destruct (kbd_run s1 p1) as [[c1 s2]|]; [|done]. cbn.
    by destruct (kbd_run s2 p2) as [[]|].
Qed.

Lemma kbd_run_ok port : forall s, 0 <= s < 128 -> Forall is_byte port ->
  exists cs s', kbd_run s port = Some (cs, s') /\ Forall is_byte cs /\ 0 <= s' < 128.
Proof.
  induction port as [|d port IH]; intros s Hs Hp; [by eexists [], s|]. apply Forall_cons in Hp as [Hd Hp].
  destruct (kbd_decode_ok s d Hs Hd) as (c & s1 & E & Hc & Hs1). destruct (IH s1 Hs1 Hp) as (cs & s2 & E2 & Hcs & Hs2).
  exists (c :: cs), s2. cbn [kbd_run]. rewrite E. cbn. rewrite E2. cbn. split; [done|]. split; [by constructor|done].
Qed.

Lemma kbd_run_length port : forall s cs s', kbd_run s port = Some (cs, s') -> length cs = length port.
Proof.
  induction port as [|d port IH]; intros s cs s' E; cbn [kbd_run] in E; [by injection E as <- <-|].
  destruct (kbd_decode s d) as [[c s1]|]; [|done]. cbn in E. destruct (kbd_run s1 port) as [[cs1 s2]|] eqn:Er; [|done]. cbn in E.
  injection E as <- <-. cbn. by rewrite (IH _ _ _ Er).
Qed.

Lemma getc_all_S {St} (getc : M St Z) k :
  getc_all getc (S k) = (let! c := getc in if c <? 0 then ret [] else let! cs := getc_all getc k in ret (c :: cs)).
Proof. done. Qed.

Lemma kbd_getc_all port : forall s cs s', kbd_run s port = Some (cs, s') -> Forall is_byte cs ->
  getc_all kbdgetc (S (length port)) (mkKbd s port) = Ret cs (mkKbd s' []).
Proof.
  induction port as [|d port IH]; intros s cs s' E Hcs; rewrite getc_all_S; cbn [length].
  - injection E as <- <-. done.
  - cbn [kbd_run] in E. destruct (kbd_decode s d) as [[c s1]|] eqn:Ed; [|done]. cbn in E.
    destruct (kbd_run s1 port) as [[cs1 s2]|] eqn:Er; [|done]. cbn in E. injection E as <- <-. apply Forall_cons in Hcs as [Hc Hcs].
    unfold bind at 1, kbdgetc at 1. cbn [kb_port kb_shift]. rewrite Ed. unfold is_byte in Hc. rewrite (proj2 (Z.ltb_ge _ _)) by lia.
    unfold bind. rewrite (IH s1 cs1 s2 Er Hcs). done.
Qed.

Lemma uart_getc_all u : ua_on u = true -> Forall is_byte (ua_port u) ->
  getc_all uartgetc (S (length (ua_port u))) u = Ret (ua_port u) (mkUart true []).
Proof.
  destruct u as [on port]. cbn [ua_on ua_port]. intros -> Hp. induction port as [|c port IH]; [done|]. apply Forall_cons in Hp as [Hc Hp].
  rewrite getc_all_S. cbn [length]. unfold bind at 1, uartgetc at 1. cbn [ua_on negb ua_port]. unfold is_byte in Hc. rewrite (proj2 (Z.ltb_ge _ _)) by lia.
  unfold bind. by rewrite IH.
Qed.

(** ** Typed text *)

Definition typed_ok (s c : Z) : bool :=
  match kbd_run s (strokes c) with
  | Some (cs, s') => (s' =? s) && bool_decide (filter (fun x => x <> 0) cs = [c]) && forallb (fun x => (0 <=? x) && (x <? 256)) cs
  | None => false
  end.

Lemma typed_all : forallb (fun s => forallb (typed_ok s) (10 :: zrange 32 95)) [0; 16; 32; 48] = true.
Proof. vm_compute. reflexivity. Qed.

Lemma strokes_typed s c : at_rest s -> c = 10 \/ printable c ->
  exists cs, kbd_run s (strokes c) = Some (cs, s) /\ filter (fun x => x <> 0) cs = [c] /\ Forall is_byte cs.
Proof.
  intros Hs Hc. pose proof typed_all as H. rewrite forallb_forall in H. specialize (H s ltac:(by apply list_elem_of_In)).
  rewrite forallb_forall in H.
  assert (Hin : In c (10 :: zrange 32 95)).
  { destruct Hc as [-> | Hc]; [by left|]. right. apply list_elem_of_In, elem_of_zrange. unfold printable in Hc. lia. }
  specialize (H c Hin). unfold typed_ok in H. destruct (kbd_run s (strokes c)) as [[cs s']|]; [|done].
  apply andb_true_iff in H as [H H3]. apply andb_true_iff in H as [H1 H2]. apply Z.eqb_eq in H1 as ->. apply bool_decide_eq_true in H2.
  exists cs. split; [done|]. split; [done|]. rewrite forallb_forall in H3. apply Forall_forall. intros x Hx.
  specialize (H3 x ltac:(by apply list_elem_of_In)). unfold is_byte. lia.
Qed.

Lemma strokes_text s l : at_rest s -> Forall (fun c => c = 10 \/ printable c) l ->
  exists cs, kbd_run s (concat (map strokes l)) = Some (cs, s) /\ filter (fun x => x <> 0) cs = l /\ Forall is_byte cs.
Proof.
  intros Hs. induction l as [|c l IH]; intros Hl; [by exists []|]. apply Forall_cons in Hl as [Hc Hl].
  destruct (strokes_typed s c Hs Hc) as (cs1 & E1 & F1 & B1). destruct (IH Hl) as (cs2 & E2 & F2 & B2).
  exists (cs1 ++ cs2). cbn [map concat]. rewrite kbd_run_app, E1. cbn. rewrite E2. cbn. split; [done|].
  split; [rewrite filter_app, F1, F2; done|by apply Forall_app].
Qed.

(** ** The line discipline on typed text *)

Lemma edits_app cs cs' d : edits (cs ++ cs') d =
  (let '(d1, o1, n1) := edits cs d in let '(d2, o2, n2) := edits cs' d1 in (d2, o1 ++ o2, (n1 + n2)%nat)).
Proof.
  revert d. induction cs as [|c cs IH]; intros d; cbn [app edits]; [by destruct (edits cs' d) as [[]]|].
  destruct (edit c d) as [[d1 o1] b]. rewrite IH. destruct (edits cs d1) as [[d2 o2] n2]. destruct (edits cs' d2) as [[d3 o3] n3].
  by rewrite app_assoc, Nat.add_assoc.
Qed.

(** Zeros are ignored. *)
Lemma edits_filter cs : forall d, edits cs d = edits (filter (fun x => x <> 0) cs) d.
Proof.
  induction cs as [|c cs IH]; intros d; [done|]. rewrite filter_cons. case_decide as Hc; cbn [edits].
  - destruct (edit c d) as [[d1 o1] b]. by rewrite IH.
  - assert (c = 0) as -> by (destruct (decide (c = 0)); [done|by destruct Hc]). cbn. rewrite IH. by destruct (edits _ d) as [[]].
Qed.

Lemma edit_printable c a l : printable c -> (length a + length l < 127)%nat -> edit c (mkLd a l) = (mkLd a (l ++ [c]), [c], false).
Proof.
  unfold printable. intros Hc Hl. unfold edit. cbn [avail line]. rewrite !(proj2 (Z.eqb_neq c _)) by lia. cbn [orb].
  rewrite (proj2 (Nat.leb_gt _ _)) by lia. unfold ends_line. rewrite !(proj2 (Z.eqb_neq c _)) by lia. cbn [orb].
  rewrite length_app. cbn [length]. rewrite (proj2 (Nat.eqb_neq _ _)) by lia. by rewrite Z.mod_small by lia.
Qed.

Lemma edits_printable w : forall a l, Forall printable w -> (length a + length l + length w < 128)%nat ->
  edits w (mkLd a l) = (mkLd a (l ++ w), w, 0%nat).
Proof.
  induction w as [|c w IH]; intros a l Hw Hl; cbn [edits length] in *; [by rewrite app_nil_r|]. apply Forall_cons in Hw as [Hc Hw].
  rewrite edit_printable by (done || lia). rewrite IH by (done || rewrite length_app; cbn [length]; lia). by rewrite <- app_assoc.
Qed.

Lemma edits_line w a l : Forall printable w -> (length a + length l + length w < 128)%nat ->
  edits (w ++ [10]) (mkLd a l) = (mkLd (a ++ l ++ w ++ [10]) [], w ++ [10], 1%nat).
Proof.
  intros Hw Hl. rewrite edits_app, edits_printable by (done || cbn; lia). cbn [edits]. unfold edit. cbn [Z.eqb Pos.eqb orb avail line].
  rewrite length_app, (proj2 (Nat.leb_gt _ _)) by lia. cbn. by rewrite <- app_assoc.
Qed.

(** Reading from a line gives as much of it as is asked for. *)
Lemma take_line_text w : forall target n dst, Forall printable w -> 0 <= n ->
  let text := w ++ [10] in let k := Nat.min (Z.to_nat n) (length text) in
  take_line false target n dst text = (Rdone (target - n + Z.of_nat k) (dst ++ take k text), drop k text).
Proof.
  induction w as [|c w IH]; intros target n dst Hw Hn text k; subst text k; cbn [app take_line length]; (destruct (Z.leb_spec n 0) as [Hz|Hz];
    [replace n with 0 by lia; cbn; rewrite app_nil_r; do 2 f_equal; lia|]); (destruct (Z.to_nat n) as [|n'] eqn:En; [lia|]).
  - cbn [Z.eqb Pos.eqb Nat.min take drop]. rewrite Nat.min_0_r. cbn. do 2 f_equal. lia.
  - apply Forall_cons in Hw as [Hc Hw]. unfold printable in Hc. rewrite !(proj2 (Z.eqb_neq c _)) by lia. rewrite IH by (done || lia).
    replace (Z.to_nat (n - 1)) with n' by lia. cbn [Nat.min take drop]. rewrite <- app_assoc. cbn [app]. do 2 f_equal. lia.
Qed.

Lemma kbdintr_spec cs shift port s' u con d t : kbd_run shift port = Some (cs, s') -> Forall is_byte cs -> con_lock con = false -> con_ok con d t ->
  wp kbdintr (fun b s => b = existsb (Z.eqb 16) cs /\ tt_kbd s = mkKbd s' [] /\ tt_uart s = u /\
    let '(d', o, n) := edits cs d in moved o n t con d' (tt_con s)) (mkTty (mkKbd shift port) u con).
Proof.
  intros Hr Hb Hl Hok. unfold kbdintr. wp_step. apply wpx_gets. wp_step. apply wpx_zoom. cbn [tt_kbd kb_port].
  eapply wpx_run_eq; [by apply kbd_getc_all|]. apply wpx_zoom. cbn [tt_con]. eapply wpx_mono; [by apply (consoleintr_spec cs d t)| |done].
  intros b con' [-> H]. done.
Qed.

Lemma uartintr_spec k port con d t : Forall is_byte port -> con_lock con = false -> con_ok con d t ->
  wp uartintr (fun b s => b = existsb (Z.eqb 16) port /\ tt_uart s = mkUart true [] /\
    let '(d', o, n) := edits port d in moved o n t con d' (tt_con s)) (mkTty k (mkUart true port) con).
Proof.
  intros Hb Hl Hok. unfold uartintr. wp_step. apply wpx_gets. wp_step. apply wpx_zoom. cbn [tt_uart ua_port].
  eapply wpx_run_eq; [by apply (uart_getc_all (mkUart true port))|]. apply wpx_zoom. cbn [tt_con ua_port].
  eapply wpx_mono; [by apply (consoleintr_spec port d t)| |done]. intros b con' [-> H]. done.
Qed.

(** * Theorems *)

(** The keyboard driver stays in its tables.  Whatever scan codes come,
    [kbdgetc] looks up no index outside its arrays, every character it
    delivers is a byte and the modifiers stay seven bits; the interrupt
    empties the port and leaves the console at rest. *)
Theorem kbd_bytes shift port u con d t :
  0 <= shift < 128 -> Forall is_byte port -> con_lock con = false -> con_ok con d t ->
  wp kbdintr (fun _ s => 0 <= kb_shift (tt_kbd s) < 128 /\ kb_port (tt_kbd s) = [] /\ con_lock (tt_con s) = false /\
    exists cs d' o, Forall is_byte cs /\ length cs = length port /\ (edits cs d).1 = (d', o) /\ con_ok (tt_con s) d' (term_puts o t))
    (mkTty (mkKbd shift port) u con).
Proof.
  intros Hs Hp Hl Hok. destruct (kbd_run_ok port shift Hs Hp) as (cs & s' & Hr & Hcs & Hs').
  eapply wpx_mono; [by apply (kbdintr_spec cs shift port s' u con d t)| |done]. intros b s (_ & -> & _ & H).
  destruct (edits cs d) as [[d' o] n] eqn:Ee. split; [done|]. split; [done|]. split; [by rewrite (mv_lock _ _ _ _ _ _ H)|].
  exists cs, d', o. rewrite Ee. split; [done|]. split; [by eapply kbd_run_length|]. split; [done|]. by eapply moved_ok.
Qed.

(** Caps lock, an extended key with its release, and pause. *)
Lemma kbd_bytes_witness : exists s, kbdintr (mkTty (mkKbd 0 [58; 186; 224; 72; 224; 200; 225; 29; 69]) (mkUart true []) con_demo) = Ret false s /\
  kb_shift (tt_kbd s) < 128 /\ con_lock (tt_con s) = false.
Proof.
  pose proof (kbd_bytes 0 [58; 186; 224; 72; 224; 200; 225; 29; 69] (mkUart true []) con_demo (mkLd [] []) term_demo
    ltac:(lia) ltac:(repeat constructor; done) eq_refl con_demo_ok) as H.
  destruct (wpx_result _ _ _ _ false H) as (s & Hr & Hs & _ & Hl & _); [vm_compute; reflexivity|].
  exists s. split; [exact Hr|]. split; [apply Hs|exact Hl].
Defined.

(** C18: a line travels from the keys to the reader.  Nothing is ready to be read,
    and a beginning [l] of the line, maybe empty, was typed before.  Whoever now
    types the printable characters [w] and Enter, with no modifier held and caps
    lock off, the whole line fitting the buffer of 128 bytes, sees [w] and the
    newline on the screen and wakes the readers once; and a process, not killed,
    that reads [n] bytes from the console gets the first [n] of the line, or all of
    it; the rest of the line is what the next reader finds. *)
Theorem typed_line_read shift u con t l w n :
  at_rest shift -> con_lock con = false -> con_ok con (mkLd [] l) t ->
  Forall printable l -> Forall printable w -> (length l + length w < 128)%nat ->
  let text := l ++ w ++ [10] in let k := Nat.min (Z.to_nat n) (length text) in
  wp (do! kbdintr in in_tty (read_pass false n n []))
    (fun r s => r = Rdone (Z.of_nat k) (take k text) /\ kb_shift (tt_kbd s) = shift /\
       con_ok (tt_con s) (mkLd (drop k text) []) (term_puts (w ++ [10]) t) /\ wakes (tt_con s) = S (wakes con))
    (mkTty (mkKbd shift (concat (map strokes (w ++ [10])))) u con).
Proof.
  intros Hs Hl Hok Hpl Hw Hlen text k. destruct (strokes_text shift (w ++ [10]) Hs) as (cs & Hr & Hf & Hb).
  { apply Forall_app. split; [|by repeat constructor]. eapply Forall_impl; [exact Hw|]. by right. }
  wp_step. eapply wpx_mono; [by apply (kbdintr_spec cs shift _ shift u con (mkLd [] l) t)| |done]. intros b s (_ & Hk & _ & H).
  rewrite edits_filter, Hf, edits_line in H by (done || cbn; lia). apply wpx_zoom. cbn [app] in H. fold text in H.
  eapply wpx_mono; [apply (read_pass_spec false n n [] (mkLd text []) (term_puts (w ++ [10]) t)); [by rewrite (mv_lock _ _ _ _ _ _ H)|by apply (moved_ok _ _ _ _ _ _ _ Hok H)]| |done].
  intros r con' (av' & E & H'). cbn [avail line] in *.
  assert (Et : take_line false n n [] text = (Rdone (Z.of_nat k) (take k text), drop k text)).
  { destruct (Z_lt_ge_dec n 0) as [Hn|Hn].
    - unfold k. replace (Z.to_nat n) with 0%nat by lia. cbn. destruct text; cbn [take_line]; rewrite (proj2 (Z.leb_le n 0)) by lia; cbn; do 2 f_equal; lia.
    - unfold k, text. rewrite (app_assoc l w), take_line_text by (lia || by apply Forall_app). cbn [app]. do 2 f_equal. lia. }
  rewrite Et in E. injection E as <- <-. split; [done|]. split; [by rewrite Hk|]. split.
  - by apply (moved_ok [] 0 _ (tt_con s) _ _ (mkLd text [])); [apply (moved_ok _ _ _ _ _ _ _ Hok H)|].
  - cbn [tt_con]. rewrite (mv_wakes _ _ _ _ _ _ H'), (mv_wakes _ _ _ _ _ _ H). lia.
Qed.

(** The line [ls > A]. *)
Lemma typed_line_read_witness : exists s, (do! kbdintr in in_tty (read_pass false 100 100 []))
    (mkTty (mkKbd 0 (concat (map strokes [108; 115; 32; 62; 32; 65; 10]))) (mkUart true []) con_demo) =
    Ret (Rdone 7 [108; 115; 32; 62; 32; 65; 10]) s /\ con_ok (tt_con s) (mkLd [] []) (term_puts [108; 115; 32; 62; 32; 65; 10] term_demo).
Proof.
  pose proof (typed_line_read 0 (mkUart true []) con_demo term_demo [] [108; 115; 32; 62; 32; 65] 100
    ltac:(by left) eq_refl con_demo_ok ltac:(constructor) ltac:(repeat constructor; done) ltac:(cbn; lia)) as H.
  destruct (wpx_result _ _ _ _ (Rdone 7 [108; 115; 32; 62; 32; 65; 10]) H) as (s & Hr & _ & _ & Hk & _); [vm_compute; reflexivity|].
  exists s. split; [exact Hr|exact Hk].
Defined.
