(* ===== verification/Ide.v ===== *)
(** * The IDE driver (src/ide.c)

    Requests wait in a queue linked through the buffers; the drive works on
    the first one and interrupts when it is done.  The drive is hardware: the
    classes [Ata] and [AtaSpec] say what the driver relies on, the task file
    registers and commands of the ATA standard, with transfers that may fail.
    Processes that call [iderw],
    the drive and its interrupts interleave in [ide_step]. *)

From S2P Require Import Prelude.
From S2P Require Import Bytes.
From S2P Require Import Sleeplock.
From S2P Require Import Bio.

Open Scope Z_scope.

Definition SECTOR_SIZE : nat := 512.
Definition IDE_BSY : Z := 128.
Definition IDE_DRDY : Z := 64.
Definition IDE_DF : Z := 32.
Definition IDE_ERR : Z := 1.
Definition IDE_CMD_READ : Z := 32.
Definition IDE_CMD_WRITE : Z := 48.
Definition IDE_CMD_RDMUL : Z := 196.
Definition IDE_CMD_WRMUL : Z := 197.
Definition FSSIZE : Z := 1000.

(** ** The drive *)

(** What a drive is doing: reading a sector, expecting the data of a sector to
    write, writing it, or offering the data it read. *)
Inductive ata_cmd :=
  | Cread (unit lba : Z)
  | Cexpect (unit lba : Z)
  | Cwrite (unit lba : Z) (d : bytes)
  | Cdata (unit lba : Z).

(** The ports as the processor sees them: [outb], [outsl] of one sector to the
    data port, [inb(0x1f7)] and [insl] of one sector; [finish] is the drive
    ending its command, and [polls] bounds how often the status has to be read
    until the drive is ready. *)
Class Ata := {
  ata : Type;
  outb : Z -> Z -> ata -> ata;
  outsl : bytes -> ata -> ata;
  poll : ata -> Z * ata;
  insl : ata -> bytes * ata;
  finish : ata -> ata;
  polls : ata -> nat;
}.

(** The unit and the sector that the registers address. *)
Definition reg_unit (r : Z -> Z) : Z := Z.shiftr (r 502) 4 mod 2.
Definition reg_lba (r : Z -> Z) : Z := r 499 + 256 * r 500 + 65536 * r 501 + 16777216 * (r 502 mod 16).

Class AtaSpec (A : Ata) := {
  reg : ata -> Z -> Z;
  active : ata -> option ata_cmd;
  sectors : ata -> Z -> Z -> bytes;
  failed : ata -> bool;

  (* registers other than the command register only take their value *)
  outb_reg a p v q : active a = None -> p <> 503 -> 0 <= v < 256 -> reg (outb p v a) q = if decide (q = p) then v else reg a q;
  outb_idle a p v : active a = None -> p <> 503 -> active (outb p v a) = None;
  outb_keeps a p v : active a = None -> sectors (outb p v a) = sectors a;
  (* commands for one sector in LBA mode *)
  outb_read a : active a = None -> reg a 498 = 1 -> Z.testbit (reg a 502) 6 = true ->
    active (outb 503 IDE_CMD_READ a) = Some (Cread (reg_unit (reg a)) (reg_lba (reg a)));
  outb_write a : active a = None -> reg a 498 = 1 -> Z.testbit (reg a 502) 6 = true ->
    active (outb 503 IDE_CMD_WRITE a) = Some (Cexpect (reg_unit (reg a)) (reg_lba (reg a)));
  outsl_write a u b d : active a = Some (Cexpect u b) -> length d = SECTOR_SIZE ->
    active (outsl d a) = Some (Cwrite u b d) /\ sectors (outsl d a) = sectors a;
  (* the end of a command, which may have failed: then no data is offered, and
     the sector that was to be written may hold anything *)
  finish_read a u b : active a = Some (Cread u b) ->
    active (finish a) = (if failed (finish a) then None else Some (Cdata u b)) /\ sectors (finish a) = sectors a;
  finish_write a u b d : active a = Some (Cwrite u b d) -> active (finish a) = None /\
    (failed (finish a) = false -> sectors (finish a) u b = d) /\
    forall u' b', ~ (u' = u /\ b' = b) -> sectors (finish a) u' b' = sectors a u' b';
  insl_data a u b : active a = Some (Cdata u b) ->
    (insl a).1 = sectors a u b /\ active (insl a).2 = None /\ sectors (insl a).2 = sectors a;
  (* the status register: a drive that has no command to do becomes ready, and
     its error bits say whether the last command failed *)
  poll_keeps a : active (poll a).2 = active a /\ sectors (poll a).2 = sectors a /\ (forall q, reg (poll a).2 q = reg a q) /\
    failed (poll a).2 = failed a;
  poll_ready a : (active a = None \/ exists u b, active a = Some (Cdata u b)) ->
    Z.land (poll a).1 192 = 64 \/ (polls (poll a).2 < polls a)%nat;
  poll_error a : Z.land (poll a).1 192 = 64 -> nz (Z.land (poll a).1 33) = failed a;
}.

(** ** The driver *)

(** [struct buf], as far as the driver uses it. *)
Record ibuf := mkIbuf {
  ib_flags : Z;
  ib_dev : Z;
  ib_blockno : Z;
  ib_lock : sleeplock;
  ib_qnext : option nat;
  ib_data : bytes;
}.

Definition set_ib_flags (v : Z) (x : ibuf) : ibuf := mkIbuf v (ib_dev x) (ib_blockno x) (ib_lock x) (ib_qnext x) (ib_data x).
Definition set_ib_qnext (v : option nat) (x : ibuf) : ibuf := mkIbuf (ib_flags x) (ib_dev x) (ib_blockno x) (ib_lock x) v (ib_data x).
Definition set_ib_data (v : bytes) (x : ibuf) : ibuf := mkIbuf (ib_flags x) (ib_dev x) (ib_blockno x) (ib_lock x) (ib_qnext x) v.

Section driver.
Context {A : Ata}.

(** The buffers, [idequeue], [havedisk1], [idelock], the drive, and the
    buffers [wakeup] was called for. *)
Record ide := mkIde {
  ibs : list ibuf;
  idequeue : option nat;
  havedisk1 : bool;
  idelock : bool;
  drive : ata;
  woken : list nat;
}.

Definition set_ibs (v : list ibuf) (s : ide) : ide := mkIde v (idequeue s) (havedisk1 s) (idelock s) (drive s) (woken s).
Definition set_idequeue (v : option nat) (s : ide) : ide := mkIde (ibs s) v (havedisk1 s) (idelock s) (drive s) (woken s).
Definition set_havedisk1 (v : bool) (s : ide) : ide := mkIde (ibs s) (idequeue s) v (idelock s) (drive s) (woken s).
Definition set_idelock (v : bool) (s : ide) : ide := mkIde (ibs s) (idequeue s) (havedisk1 s) v (drive s) (woken s).
Definition set_drive (v : ata) (s : ide) : ide := mkIde (ibs s) (idequeue s) (havedisk1 s) (idelock s) v (woken s).
Definition add_woken (b : nat) (s : ide) : ide := mkIde (ibs s) (idequeue s) (havedisk1 s) (idelock s) (drive s) (woken s ++ [b]).

Definition ide_acquire : M ide unit := lock_acquire idelock set_idelock.
Definition ide_release : M ide unit := lock_release idelock set_idelock.

Definition ibref (b : nat) : M ide ibuf :=
  fun s => match ibs s !! b with Some x => Ret x s | None => Fault "buf" end.
Definition ibupd (b : nat) (f : ibuf -> ibuf) : M ide unit :=
  fun s => match ibs s !! b with Some x => Ret tt (set_ibs (<[b := f x]> (ibs s)) s) | None => Fault "buf" end.

Definition io (f : ata -> ata) : M ide unit := modify (fun s => set_drive (f (drive s)) s).

(** [inb(0x1f7)] *)
Definition inb : M ide Z := fun s => Ret (poll (drive s)).1 (set_drive (poll (drive s)).2 s).

Fixpoint idewait_loop (k : nat) : M ide Z :=
  match k with
  | O => nofuel
  | S k' =>
      let! r := inb in
      if negb (Z.land r (Z.lor IDE_BSY IDE_DRDY) =? IDE_DRDY) then idewait_loop k' else ret r
  end.

Definition idewait (checkerr : bool) : M ide Z :=
  let! k := gets (fun s => polls (drive s)) in
  let! r := idewait_loop (S k) in
  if checkerr && nz (Z.land r (Z.lor IDE_DF IDE_ERR)) then ret (-1) else ret 0.

(** The loop of [ideinit] that looks for disk 1. *)
Fixpoint find_disk1 (k : nat) : M ide unit :=
  match k with
  | O => ret tt
  | S k' =>
      let! r := inb in
      if nz r then modify (set_havedisk1 true) else find_disk1 k'
  end.

Definition ideinit : M ide unit :=
  let! _ := idewait false in
  do! io (outb 502 (Z.lor 224 (Z.shiftl 1 4))) in
  do! find_disk1 1000 in
  io (outb 502 (Z.lor 224 (Z.shiftl 0 4))).

Definition idestart (p : option nat) : M ide unit :=
  match p with
  | None => panic "idestart"
  | Some b =>
      let! x := ibref b in
      if FSSIZE <=? ib_blockno x then panic "incorrect blockno"
      else
        let sector_per_block := Z.of_nat BSIZE / Z.of_nat SECTOR_SIZE in
        let sector := ib_blockno x * sector_per_block in
        let read_cmd := if sector_per_block =? 1 then IDE_CMD_READ else IDE_CMD_RDMUL in
        let write_cmd := if sector_per_block =? 1 then IDE_CMD_WRITE else IDE_CMD_WRMUL in
        if 7 <? sector_per_block then panic "idestart"
        else
          let! _ := idewait false in
          do! io (outb 1014 0) in
          do! io (outb 498 sector_per_block) in
          do! io (outb 499 (Z.land sector 255)) in
          do! io (outb 500 (Z.land (Z.shiftr sector 8) 255)) in
          do! io (outb 501 (Z.land (Z.shiftr sector 16) 255)) in
          do! io (outb 502 (Z.lor (Z.lor 224 (Z.shiftl (Z.land (ib_dev x) 1) 4)) (Z.land (Z.shiftr sector 24) 15))) in
          if nz (Z.land (ib_flags x) B_DIRTY) then
            do! io (outb 503 write_cmd) in
            io (outsl (ib_data x))
          else io (outb 503 read_cmd)
  end.

(** [insl(0x1f0, b->data, BSIZE/4)] *)
Definition read_data (b : nat) : M ide unit :=
  let! r := gets (fun s => insl (drive s)) in
  do! modify (set_drive r.2) in
  ibupd b (set_ib_data r.1).

(** The data of the finished request, and its flags. *)
Definition ide_reply (b : nat) (x : ibuf) : M ide unit :=
  do! (if negb (nz (Z.land (ib_flags x) B_DIRTY)) then
         let! w := idewait true in
         if 0 <=? w then read_data b else ret tt
       else ret tt) in
  do! ibupd b (fun x => set_ib_flags (Z.lor (ib_flags x) B_VALID) x) in
  ibupd b (fun x => set_ib_flags (Z.land (ib_flags x) (Z.lnot B_DIRTY)) x).

Definition ideintr : M ide unit :=
  do! ide_acquire in
  let! q := gets idequeue in
  match q with
  | None => ide_release
  | Some b =>
      let! x := ibref b in
      do! modify (set_idequeue (ib_qnext x)) in
      do! ide_reply b x in
      do! modify (add_woken b) in
      let! q := gets idequeue in
      do! (match q with None => ret tt | Some _ => idestart q end) in
      ide_release
  end.

(** [*pp], for [pp] the address of [idequeue] or of a buffer's [qnext]. *)
Definition load_pp (pp : option nat) : M ide (option nat) :=
  match pp with
  | None => gets idequeue
  | Some c => let! x := ibref c in ret (ib_qnext x)
  end.

Definition store_pp (pp v : option nat) : M ide unit :=
  match pp with
  | None => modify (set_idequeue v)
  | Some c => ibupd c (set_ib_qnext v)
  end.

(** [for(pp=&idequeue; *pp; pp=&( *pp)->qnext); *pp = b;] *)
Fixpoint insert_queue (k : nat) (pp : option nat) (b : nat) : M ide unit :=
  match k with
  | O => nofuel
  | S k' =>
      let! p := load_pp pp in
      match p with
      | Some c => insert_queue k' (Some c) b
      | None => store_pp pp (Some b)
      end
  end.

(** The condition of the loop around [sleep], and its end. *)
Definition rw_done (x : ibuf) : bool := Z.land (ib_flags x) (Z.lor B_VALID B_DIRTY) =? B_VALID.

Definition iderw_wait (b : nat) : M ide bool :=
  let! x := ibref b in
  do! ide_release in
  ret (rw_done x).

(** [iderw] up to its first sleep: whether it has returned. *)
Definition iderw_enter (pid : Z) (b : nat) : M ide bool :=
  let! x := ibref b in
  if negb (sl_holding pid (ib_lock x)) then panic "iderw: buf not locked"
  else if rw_done x then panic "iderw: nothing to do"
  else
    let! have := gets havedisk1 in
    if negb (ib_dev x =? 0) && negb have then panic "iderw: ide disk 1 not present"
    else
      do! ide_acquire in
      do! ibupd b (set_ib_qnext None) in
      let! k := gets (fun s => length (ibs s)) in
      do! insert_queue (S k) None b in
      let! q := gets idequeue in
      do! (if decide (q = Some b) then idestart (Some b) else ret tt) in
      iderw_wait b.

(** The turn of the loop after a wakeup. *)
Definition iderw_resume (b : nat) : M ide bool :=
  do! ide_acquire in
  iderw_wait b.

(** ** Processes, the drive and its interrupts *)

(** The driver, whether the drive has interrupted, and the buffers whose
    processes are inside [iderw]. *)
Record isys := mkIsys { is_ide : ide; is_irq : bool; is_wait : gset nat }.

(** A buffer on the disk that the driver has something to do with. *)
Record req_ok (x : ibuf) : Prop := {
  rq_todo : rw_done x = false;
  rq_block : 0 <= ib_blockno x < FSSIZE;
  rq_dev : is_u32 (ib_dev x);
  rq_len : length (ib_data x) = SECTOR_SIZE;
}.

Inductive ide_step `{!AtaSpec A} : isys -> isys -> Prop :=
  (* a process that holds the buffer calls iderw *)
  | it_call pid b x r s s' irq W : b ∉ W -> ibs s !! b = Some x -> req_ok x -> iderw_enter pid b s = Ret r s' ->
      ide_step (mkIsys s irq W) (mkIsys s' irq ({[b]} ∪ W))
  (* the drive ends its command *)
  | it_finish c s W : active (drive s) = Some c -> ide_step (mkIsys s false W) (mkIsys (set_drive (finish (drive s)) s) true W)
  (* an interrupt, of the drive or spurious while it is idle *)
  | it_intr s s' irq W : irq = true \/ idequeue s = None -> ideintr s = Ret tt s' -> ide_step (mkIsys s irq W) (mkIsys s' false W)
  (* a process wakes up, and leaves iderw or sleeps again *)
  | it_wake b r s s' irq W : b ∈ W -> iderw_resume b s = Ret r s' ->
      ide_step (mkIsys s irq W) (mkIsys s' irq (if r then W ∖ {[b]} else W))
  (* buffers outside iderw belong to their processes *)
  | it_edit b x x' s irq W : b ∉ W -> ibs s !! b = Some x -> ib_qnext x' = ib_qnext x ->
      ide_step (mkIsys s irq W) (mkIsys (set_ibs (<[b := x']> (ibs s)) s) irq W).

Inductive ide_reach `{!AtaSpec A} (S0 : isys) : isys -> Prop :=
  | ir_refl : ide_reach S0 S0
  | ir_step S1 S2 : ide_reach S0 S1 -> ide_step S1 S2 -> ide_reach S0 S2.

(** ** What it implements *)

Definition disk := Z -> Z -> bytes.

Definition dirty (x : ibuf) : bool := nz (Z.land (ib_flags x) B_DIRTY).
Definition unit_of (x : ibuf) : Z := Z.land (ib_dev x) 1.

(** A served request, on the buffer and on the disk.  When the drive reported no
    error ([ok]) it is as in src/memide.c: the block is written if the buffer is
    dirty, and read if it is not.  After an error the buffer keeps its data and is
    marked valid and clean all the same, and a block that was to be written may
    hold anything. *)
Definition serve (ok : bool) (D : disk) (x : ibuf) : ibuf :=
  set_ib_flags (Z.land (Z.lor (ib_flags x) B_VALID) (Z.lnot B_DIRTY)) (if dirty x || negb ok then x else set_ib_data (D (unit_of x) (ib_blockno x)) x).

Definition serve_disk (ok : bool) (x : ibuf) (D D' : disk) : Prop :=
  forall u b, if decide (dirty x = true /\ u = unit_of x /\ b = ib_blockno x) then ok = true -> D' u b = ib_data x else D' u b = D u b.

(** A first-in first-out server: buffers (without their links), the disk, the
    queue, whether the first request has ended on the disk and how, and who
    waits. *)
Record server := mkServer { sv_bufs : list ibuf; sv_disk : disk; sv_q : list nat; sv_done : option bool; sv_wait : gset nat }.

Definition norm (x : ibuf) : ibuf := set_ib_qnext None x.

Inductive server_step : server -> server -> Prop :=
  | sv_call b x bs D q f W : b ∉ W -> bs !! b = Some x -> req_ok x ->
      server_step (mkServer bs D q f W) (mkServer bs D (q ++ [b]) f ({[b]} ∪ W))
  | sv_work b x bs D D' q ok W : bs !! b = Some x -> serve_disk ok x D D' ->
      server_step (mkServer bs D (b :: q) None W) (mkServer bs D' (b :: q) (Some ok) W)
  | sv_reply b x bs D q ok W : bs !! b = Some x ->
      server_step (mkServer bs D (b :: q) (Some ok) W) (mkServer (<[b := serve ok D x]> bs) D q None W)
  | sv_leave b bs D q f W : b ∈ W -> b ∉ q -> server_step (mkServer bs D q f W) (mkServer bs D q f (W ∖ {[b]}))
  | sv_idle S : server_step S S
  | sv_edit b x x' bs D q f W : b ∉ W -> bs !! b = Some x -> ib_qnext x' = None ->
      server_step (mkServer bs D q f W) (mkServer (<[b := x']> bs) D q f W).

Inductive server_reach (S0 : server) : server -> Prop :=
  | sr_refl : server_reach S0 S0
  | sr_step S1 S2 : server_reach S0 S1 -> server_step S1 S2 -> server_reach S0 S2.

(** The links from [h] on are the queue [q]. *)
Fixpoint chain (l : list ibuf) (h : option nat) (q : list nat) : Prop :=
  match q with
  | [] => h = None
  | b :: q' => h = Some b /\ exists x, l !! b = Some x /\ chain l (ib_qnext x) q'
  end.

(** What the drive does for a request, and when it has ended. *)
Definition request (x : ibuf) : option ata_cmd :=
  Some (if dirty x then Cwrite (unit_of x) (ib_blockno x) (ib_data x) else Cread (unit_of x) (ib_blockno x)).

Definition ended (x : ibuf) (ok : bool) : option ata_cmd :=
  if dirty x || negb ok then None else Some (Cdata (unit_of x) (ib_blockno x)).

Record ide_rep `{!AtaSpec A} (S : isys) (T : server) : Prop := {
  ir_bufs : sv_bufs T = norm <$> ibs (is_ide S);
  ir_chain : chain (ibs (is_ide S)) (idequeue (is_ide S)) (sv_q T);
  ir_nodup : NoDup (sv_q T);
  ir_req : forall b, b ∈ sv_q T -> b ∈ sv_wait T /\ exists x, ibs (is_ide S) !! b = Some x /\ req_ok x;
  ir_served : forall b, b ∈ sv_wait T -> b ∉ sv_q T -> exists x, ibs (is_ide S) !! b = Some x /\ rw_done x = true;
  ir_disk : forall u b, sv_disk T u b = sectors (drive (is_ide S)) u b;
  ir_drive : match sv_q T with
             | [] => is_irq S = false /\ active (drive (is_ide S)) = None
             | b :: _ => exists x, ibs (is_ide S) !! b = Some x /\ 
                 active (drive (is_ide S)) = if is_irq S then ended x (negb (failed (drive (is_ide S)))) else request x
             end;
  ir_irq : sv_done T = if is_irq S then Some (negb (failed (drive (is_ide S)))) else None;
  ir_wait : sv_wait T = is_wait S;
  ir_lock : idelock (is_ide S) = false;
}.
End driver.

(** * Lemmas *)

Section proofs.
Context {A : Ata} `{!AtaSpec A}.

(** ** The drive *)

Lemma lba_registers u lba : (u = 0 \/ u = 1) -> 0 <= lba < 268435456 ->
  let r6 := Z.lor (Z.lor 224 (Z.shiftl u 4)) (Z.land (Z.shiftr lba 24) 15) in
  0 <= r6 < 256 /\ Z.shiftr r6 4 mod 2 = u /\ Z.testbit r6 6 = true /\
  Z.land lba 255 + 256 * Z.land (Z.shiftr lba 8) 255 + 65536 * Z.land (Z.shiftr lba 16) 255 + 16777216 * (r6 mod 16) = lba.
Proof.
  intros Hu Hl. cbn zeta. change 255 with (Z.ones 8). change 15 with (Z.ones 4). rewrite !Z.land_ones, !Z.shiftr_div_pow2 by lia.
  change (2 ^ 8) with 256. change (2 ^ 4) with 16. change (2 ^ 16) with 65536. change (2 ^ 24) with 16777216.
  set (n := (lba / 16777216) mod 16). assert (Hn : 0 <= n < 16) by (unfold n; dlia).
  assert (Hr : Z.lor (Z.lor 224 (Z.shiftl u 4)) n = 224 + 16 * u + n).
  { assert (E : Z.lor 224 (Z.shiftl u 4) = 224 + 16 * u) by (by destruct Hu as [-> | ->]). rewrite E. apply (lor_low_high 4); dlia. }
  rewrite Hr. split; [lia|]. split; [destruct Hu as [-> | ->]; dlia|]. split; [|unfold n; dlia].
  rewrite Z.testbit_true by lia. change (2 ^ 6) with 64. destruct Hu as [-> | ->]; dlia.
Qed.

(** Only the drive changes, and only its readiness. *)
Definition same_drive (a a' : ata) : Prop := active a' = active a /\ sectors a' = sectors a /\ (forall q, reg a' q = reg a q) /\ failed a' = failed a.

Definition quiet (a : ata) : Prop := active a = None \/ exists u b, active a = Some (Cdata u b).

Lemma idewait_loop_spec k : forall s, quiet (drive s) -> (polls (drive s) < k)%nat ->
  wp (idewait_loop k) (fun r s' => nz (Z.land r 33) = failed (drive s) /\ exists a, s' = set_drive a s /\ same_drive (drive s) a) s.
Proof.
  induction k as [|k IH]; intros s Hq Hk; [lia|]. cbn [idewait_loop]. wp_step. unfold inb, wpx at 1. cbn beta iota.
  pose proof (poll_keeps (drive s)) as Hkeep. change (Z.lor IDE_BSY IDE_DRDY) with 192. change IDE_DRDY with 64.
  destruct (Z.eqb_spec (Z.land (poll (drive s)).1 192) 64) as [He|Hne]; cbn [negb].
  - apply wpx_ret. split; [by apply poll_error|]. by eexists.
  - destruct (poll_ready (drive s) Hq) as [|Hless]; [done|]. destruct Hkeep as (K1 & K2 & K3 & K4).
    eapply wpx_mono; [apply IH| |done]; cbn [drive set_drive]; [unfold quiet; by rewrite K1|lia|].
    intros r s' (Hr & a & -> & H1 & H2 & H3 & H4). cbn [drive set_drive] in *. split; [by rewrite Hr|]. exists a. split; [done|].
    split; [by rewrite H1|]. split; [by rewrite H2|]. split; [intros q; by rewrite H3|by rewrite H4].
Qed.

Lemma idewait_spec e s : quiet (drive s) -> 
  wp (idewait e) (fun r s' => r = (if e && failed (drive s) then -1 else 0) /\ exists a, s' = set_drive a s /\ same_drive (drive s) a) s.
Proof.
  intros Hq. unfold idewait. wp_step. apply wpx_gets. wp_step. eapply wpx_mono; [apply idewait_loop_spec; [done|lia]| |done].
  intros r s' [Hr Hs]. change (Z.lor IDE_DF IDE_ERR) with 33. rewrite Hr. by destruct (e && failed (drive s)); apply wpx_ret.
Qed.

(** The registers after writing one of them. *)
Lemma out_reg a p v : active a = None -> p <> 503 -> 0 <= v < 256 ->
  active (outb p v a) = None /\ sectors (outb p v a) = sectors a /\ forall q, reg (outb p v a) q = if decide (q = p) then v else reg a q.
Proof. intros Ha Hp Hv. split; [by apply outb_idle|]. split; [by apply outb_keeps|]. intros q. by apply outb_reg. Qed.

(** The task file for a sector. *)
Definition task_file (u lba : Z) (a : ata) : ata :=
  outb 502 (Z.lor (Z.lor 224 (Z.shiftl u 4)) (Z.land (Z.shiftr lba 24) 15))
    (outb 501 (Z.land (Z.shiftr lba 16) 255) (outb 500 (Z.land (Z.shiftr lba 8) 255) (outb 499 (Z.land lba 255) (outb 498 1 (outb 1014 0 a))))).

Lemma low_byte x : 0 <= Z.land x 255 < 256.
Proof. change 255 with (Z.ones 8). rewrite Z.land_ones by lia. apply Z.mod_pos_bound. lia. Qed.

Lemma task_file_spec u lba a : (u = 0 \/ u = 1) -> 0 <= lba < 268435456 -> active a = None ->
  let a' := task_file u lba a in
  active a' = None /\ sectors a' = sectors a /\ reg a' 498 = 1 /\ Z.testbit (reg a' 502) 6 = true /\
  reg_unit (reg a') = u /\ reg_lba (reg a') = lba.
Proof.
  intros Hu Hl Ha. destruct (lba_registers u lba Hu Hl) as (H6 & Hun & Hbit & Hlba). cbn zeta. unfold task_file.
  destruct (out_reg a 1014 0 Ha) as (A1 & S1 & R1); [done..|]. destruct (out_reg _ 498 1 A1) as (A2 & S2 & R2); [done..|].
  destruct (out_reg _ 499 (Z.land lba 255) A2) as (A3 & S3 & R3); [done|apply low_byte|].
  destruct (out_reg _ 500 (Z.land (Z.shiftr lba 8) 255) A3) as (A4 & S4 & R4); [done|apply low_byte|].
  destruct (out_reg _ 501 (Z.land (Z.shiftr lba 16) 255) A4) as (A5 & S5 & R5); [done|apply low_byte|].
  destruct (out_reg _ 502 _ A5 ltac:(done) H6) as (A6 & S6 & R6).
  split; [done|]. split; [by rewrite S6, S5, S4, S3, S2, S1|]. unfold reg_unit, reg_lba.
  rewrite !R6, !R5, !R4, !R3, !R2. cbn [decide]. repeat (rewrite decide_True by done || rewrite decide_False by done). done.
Qed.

Lemma unit_of_range x : unit_of x = 0 \/ unit_of x = 1.
Proof.
  unfold unit_of. pose proof (Z.land_ones (ib_dev x) 1 ltac:(lia)) as H. change (Z.ones 1) with 1 in H. change (2 ^ 1) with 2 in H.
  rewrite H. dlia.
Qed.

Lemma idestart_spec b x s : ibs s !! b = Some x -> req_ok x -> active (drive s) = None ->
  wp (idestart (Some b)) (fun _ s' => exists a, s' = set_drive a s /\ active a = request x /\ sectors a = sectors (drive s)) s.
Proof.
  intros Hx [Ht Hb Hd Hl] Ha. unfold idestart. wp_step. unfold ibref at 1. unfold wpx at 1. rewrite Hx. unfold FSSIZE in *.
  rewrite (proj2 (Z.leb_gt _ _)) by lia. change (Z.of_nat BSIZE / Z.of_nat SECTOR_SIZE) with 1. rewrite Z.mul_1_r. change (7 <? 1) with false. change (1 =? 1) with true. cbn iota.
  wp_step. eapply wpx_mono; [apply idewait_spec; by left|cbn beta|done]. intros r s1 (_ & a0 & -> & Ha0 & Hs0 & _).
  assert (Ha0' : active a0 = None) by (by rewrite Ha0). change (Z.land (ib_dev x) 1) with (unit_of x).
  unfold io. wp_steps. cbn [drive set_drive]. change (outb 502 _ _) with (task_file (unit_of x) (ib_blockno x) a0).
  destruct (task_file_spec (unit_of x) (ib_blockno x) a0 (unit_of_range x) ltac:(lia) Ha0') as (A1 & S1 & R1 & R2 & R3 & R4). unfold request.
  change (nz (Z.land (ib_flags x) B_DIRTY)) with (dirty x). destruct (dirty x).
  - wp_steps. cbn [drive set_drive]. pose proof (outb_write _ A1 R1 R2) as A2. rewrite R3, R4 in A2. destruct (outsl_write _ _ _ _ A2 Hl) as [A3 S3].
    eexists. split; [reflexivity|]. cbn [drive set_drive]. split; [exact A3|]. rewrite S3, outb_keeps, S1 by exact A1. exact Hs0.
  - wp_steps. cbn [drive set_drive]. pose proof (outb_read _ A1 R1 R2) as A2. rewrite R3, R4 in A2.
    eexists. split; [reflexivity|]. cbn [drive set_drive]. split; [exact A2|]. rewrite outb_keeps, S1 by exact A1. exact Hs0.
Qed.

Lemma wpx_assoc {St X Y V} (c : M St X) (k : X -> M St Y) (g : Y -> M St V) Q E s :
  wpx (bind (bind c k) g) Q E s -> wpx (bind c (fun a => bind (k a) g)) Q E s.
Proof. unfold wpx, bind. by destruct (c s). Qed.

(** ** The queue *)

Lemma chain_ext l l' q : forall h, (forall b x, b ∈ q -> l !! b = Some x -> exists x', l' !! b = Some x' /\ ib_qnext x' = ib_qnext x) ->
  chain l h q -> chain l' h q.
Proof.
  induction q as [|b q IH]; intros h Hl Hc; [done|]. destruct Hc as (-> & x & Hx & Hc). split; [done|].
  destruct (Hl b x) as (x' & Hx' & E); [left|done|]. exists x'. split; [done|]. rewrite E. apply IH; [|done]. intros b' y Hb'. apply Hl. by right.
Qed.

Lemma chain_insert_other l h q b x' : b ∉ q -> chain l h q -> chain (<[b := x']> l) h q.
Proof.
  intros Hb. apply chain_ext. intros d x Hd Hx. exists x. split; [|done]. rewrite list_lookup_insert_ne; [done|]. by intros ->.
Qed.

Lemma chain_qnext l q b x x' : forall h, l !! b = Some x -> ib_qnext x' = ib_qnext x -> chain l h q -> chain (<[b := x']> l) h q.
Proof.
  intros h Hx Hq. apply chain_ext. intros d y Hd Hy. destruct (decide (d = b)) as [->|Hne].
  - exists x'. rewrite list_lookup_insert_eq by (by eapply lookup_lt_Some). split; [done|]. congruence.
  - exists y. by rewrite list_lookup_insert_ne by done.
Qed.

Lemma norm_insert (l : list ibuf) (b : nat) x x' : l !! b = Some x -> norm x' = norm x -> norm <$> <[b := x']> l = norm <$> l.
Proof. intros Hx E. rewrite list_fmap_insert, E. apply list_insert_id. by rewrite list_lookup_fmap, Hx. Qed.

Definition loads (s : ide) (pp : option nat) : option (option nat) :=
  match pp with None => Some (idequeue s) | Some c => ib_qnext <$> ibs s !! c end.

Lemma load_pp_spec s pp h (Q : option nat -> ide -> Prop) : loads s pp = Some h -> Q h s -> wp (load_pp pp) Q s.
Proof.
  intros Hl HQ. destruct pp as [c|]; cbn [loads load_pp] in *; [|injection Hl as <-; by apply wpx_gets].
  unfold wpx, bind, ibref. destruct (ibs s !! c); [|done]. injection Hl as <-; done.
Qed.

(** What linking [b] behind the queue [q] that starts at [pp] changes. *)
Record linked (s : ide) (pp : option nat) (q : list nat) (b : nat) (s' : ide) : Prop := {
  lk_norm : norm <$> ibs s' = norm <$> ibs s;
  lk_rest : havedisk1 s' = havedisk1 s /\ idelock s' = idelock s /\ drive s' = drive s /\ woken s' = woken s;
  lk_head : is_Some pp -> idequeue s' = idequeue s;
  lk_keep d x : d ∉ q -> pp <> Some d -> ibs s !! d = Some x -> ibs s' !! d = Some x;
  lk_chain : exists h, loads s' pp = Some h /\ chain (ibs s') h (q ++ [b]);
}.

Lemma store_linked s pp b xb : loads s pp = Some None -> ibs s !! b = Some xb -> ib_qnext xb = None -> pp <> Some b ->
  wp (store_pp pp (Some b)) (fun _ s' => linked s pp [] b s') s.
Proof.
  intros Hl Hb Hn Hne. destruct pp as [c|]; cbn [store_pp loads] in *.
  - unfold wpx, ibupd. destruct (ibs s !! c) as [xc|] eqn:Hc; [|done]. injection Hl as Hl. split; cbn [ibs set_ibs app]; try done.
    + by eapply norm_insert.
    + intros d x _ Hd Hx. rewrite list_lookup_insert_ne; [done|congruence].
    + exists (Some b). split; [cbn; by rewrite list_lookup_insert_eq by (by eapply lookup_lt_Some)|]. split; [done|].
      exists xb. split; [|done]. rewrite list_lookup_insert_ne; [done|congruence].
  - apply wpx_modify. split; cbn [ibs set_idequeue app]; try done. exists (Some b). split; [done|]. split; [done|]. by exists xb.
Qed.

Lemma insert_queue_spec b xb q : forall k pp h s, (length q < k)%nat -> loads s pp = Some h -> chain (ibs s) h q -> NoDup q -> b ∉ q ->
  (forall c, pp = Some c -> c ∉ q) -> ibs s !! b = Some xb -> ib_qnext xb = None -> pp <> Some b ->
  wp (insert_queue k pp b) (fun _ s' => linked s pp q b s') s.
Proof.
  induction q as [|d q IH]; intros [|k] pp h s Hk Hl Hc Hnd Hbq Hpp Hb Hn Hne; cbn [length] in Hk; try lia; cbn [insert_queue];
    wp_step; (eapply load_pp_spec; [exact Hl|]).
  - cbn in Hc. subst h. by eapply store_linked.
  - destruct Hc as (-> & x & Hx & Hc). apply NoDup_cons in Hnd as [Hd Hnd]. apply not_elem_of_cons in Hbq as [Hbd Hbq].
    eapply wpx_mono; [apply (IH k (Some d) (ib_qnext x)); try done; [lia|cbn; by rewrite Hx|congruence|congruence]| |done].
    intros [] s' [Hnorm Hrest Hhead Hkeep (h' & Hh' & Hch)]. split; [done|done|intros _; by apply Hhead| |].
    + intros e y He _. apply not_elem_of_cons in He as [He1 He2]. apply Hkeep; [done|congruence].
    + assert (Hl' : loads s' pp = Some (Some d)).
      { destruct pp as [c|]; cbn in *; [|by rewrite Hhead]. destruct (ibs s !! c) as [xc|] eqn:Hxc; [|done].
        specialize (Hpp c eq_refl). apply not_elem_of_cons in Hpp as [Hcd Hcq]. rewrite (Hkeep c xc); [done|done|congruence|done]. }
      exists (Some d). split; [done|]. cbn [loads app chain] in *. split; [done|]. destruct (ibs s' !! d) as [y|]; [|done]. injection Hh' as <-. by exists y.
Qed.

Lemma chain_length l q : forall h, chain l h q -> NoDup q -> (length q <= length l)%nat.
Proof.
  intros h Hc Hn. assert (Hd : q ⊆ seq 0 (length l)).
  { revert h Hc. clear Hn. induction q as [|b q IH]; intros h Hc; [intros x Hx; by apply elem_of_nil in Hx|]. destruct Hc as (_ & x & Hx & Hc). intros c Hcq.
    apply elem_of_cons in Hcq as [->|Hcq]; [|by eapply IH]. apply elem_of_seq. apply lookup_lt_Some in Hx. lia. }
  rewrite <- (length_seq (length l) 0). by apply submseteq_length, NoDup_submseteq.
Qed.

Lemma chain_det l q : forall h q', chain l h q -> chain l h q' -> q = q'.
Proof.
  induction q as [|b q IH]; intros h [|b' q'] H H'; cbn [chain] in *; [done|destruct H'; congruence|destruct H; congruence|].
  destruct H as (E & x & Hx & H), H' as (E' & x' & Hx' & H'). assert (b' = b) as -> by congruence. assert (x' = x) as -> by congruence.
  f_equal. by eapply IH.
Qed.

(** ** Serving a request *)

Lemma rw_done_serve ok D x : rw_done (serve ok D x) = true.
Proof.
  assert (H : forall f, Z.land (Z.land (Z.lor f 2) (Z.lnot 4)) 6 = 2).
  { intros f. rewrite <- Z.land_assoc. change (Z.land (Z.lnot 4) 6) with 2. apply Z.bits_inj'. intros n _.
    rewrite Z.land_spec, Z.lor_spec. by destruct (Z.testbit f n), (Z.testbit 2 n). }
  unfold rw_done, serve. apply Z.eqb_eq. destruct (dirty x || negb ok); apply H.
Qed.

Lemma norm_serve ok D x : norm (serve ok D x) = serve ok D (norm x).
Proof. unfold serve. change (dirty (norm x)) with (dirty x). by destruct (dirty x || negb ok). Qed.

Lemma serve_ext ok D D' x : (forall u b, D u b = D' u b) -> serve ok D x = serve ok D' x.
Proof. intros H. unfold serve. by rewrite H. Qed.

Lemma ide_reply_spec b x s : ibs s !! b = Some x -> active (drive s) = ended x (negb (failed (drive s))) ->
  wp (ide_reply b x)
    (fun _ s' => exists a, s' = set_drive a (set_ibs (<[b := serve (negb (failed (drive s))) (sectors (drive s)) x]> (ibs s)) s) /\
       active a = None /\ sectors a = sectors (drive s)) s.
Proof.
  intros Hx Ha. pose proof (lookup_lt_Some _ _ _ Hx) as Hlt.
  assert (Hf : forall y s1, ibs s1 !! b = Some y -> wp (do! ibupd b (fun x => set_ib_flags (Z.lor (ib_flags x) B_VALID) x) in
      ibupd b (fun x => set_ib_flags (Z.land (ib_flags x) (Z.lnot B_DIRTY)) x))
    (fun _ s' => s' = set_ibs (<[b := set_ib_flags (Z.land (Z.lor (ib_flags y) B_VALID) (Z.lnot B_DIRTY)) y]> (ibs s1)) s1) s1).
  { intros y s1 Hy. pose proof (lookup_lt_Some _ _ _ Hy). unfold wpx, bind, ibupd. rewrite Hy. cbn [ibs set_ibs].
    rewrite list_lookup_insert_eq by done. cbn [ib_flags set_ib_flags]. unfold set_ibs. cbn. by rewrite list_insert_insert_eq. }
  unfold ide_reply. change (nz (Z.land (ib_flags x) B_DIRTY)) with (dirty x). unfold serve, ended in *. destruct (dirty x); cbn [negb orb] in *.
  - wp_step. apply wpx_ret. eapply wpx_mono; [by apply Hf| |done]. intros [] s' ->. exists (drive s). done.
  - assert (Hq : quiet (drive s)) by (unfold quiet; rewrite Ha; destruct (failed (drive s)); cbn; eauto).
    wp_step. wp_step. eapply wpx_mono; [by apply idewait_spec|cbn beta|done].
    intros r s1 (-> & a1 & -> & K1 & K2 & _). rewrite Ha in K1. cbn [andb]. destruct (failed (drive s)); cbn [negb Z.leb Z.compare] in *.
    + apply wpx_ret. eapply wpx_mono; [by apply (Hf x)| |done]. intros [] s' ->. exists a1. cbn [ibs set_drive]. by rewrite K2.
    + unfold read_data. wp_step. apply wpx_gets. wp_step. apply wpx_modify. cbn [drive set_drive].
      destruct (insl_data _ _ _ K1) as (D1 & D2 & D3). unfold wpx at 1, ibupd at 1. cbn [ibs set_drive]. rewrite Hx.
      eapply wpx_mono; [apply (Hf (set_ib_data (insl a1).1 x)); cbn [ibs set_ibs set_drive]; by apply list_lookup_insert_eq| |done].
      intros [] s' ->. exists (insl a1).2. cbn [ibs set_ibs set_drive]. rewrite list_insert_insert_eq, D1, D3, K2. split; [done|]. by split.
Qed.

(** The drive after the first request is gone: it has the next one. *)
Lemma next_spec q s : chain (ibs s) (idequeue s) q -> (forall b, b ∈ q -> exists x, ibs s !! b = Some x /\ req_ok x) -> active (drive s) = None ->
  wp (let! q := gets idequeue in match q with None => ret tt | Some _ => idestart q end)
    (fun _ s' => exists a, s' = set_drive a s /\ sectors a = sectors (drive s) /\
       match q with [] => active a = None | b :: _ => exists x, ibs s !! b = Some x /\ active a = request x end) s.
Proof.
  intros Hc Hr Ha. wp_step. apply wpx_gets. destruct q as [|b q]; cbn [chain] in Hc.
  - rewrite Hc. apply wpx_ret. exists (drive s). by destruct s.
  - destruct Hc as (-> & _). destruct (Hr b) as (x & Hx & Hok); [left|]. eapply wpx_mono; [by apply idestart_spec| |done].
    intros [] s' (a & -> & H1 & H2). exists a. split; [done|]. split; [done|]. by exists x.
Qed.

Lemma ideintr_spec s irq T W : ide_rep (mkIsys s irq W) T -> irq = true \/ idequeue s = None ->
  wp ideintr (fun _ s' => exists T', server_step T T' /\ sv_q T' = tail (sv_q T) /\ sv_wait T' = sv_wait T /\ ide_rep (mkIsys s' false W) T') s.
Proof.
  intros R Hirq. destruct T as [bs D q f W']. destruct R as [Rb Rc Rn Rq Rs Rd Ra Rf Rw Rl]. cbn [sv_bufs sv_disk sv_q sv_done sv_wait is_ide is_irq is_wait] in *. subst W'.
  unfold ideintr. wp_step. apply wpx_acquire; [done|]. wp_step. apply wpx_gets. cbn [idequeue set_idelock]. destruct q as [|b q]; cbn [chain] in Rc.
  - rewrite Rc. destruct Ra as [-> Ra]. subst f. apply wpx_release; [done|]. exists (mkServer bs D [] None W). split; [apply sv_idle|]. split; [done|]. split; [done|].
    replace (set_idelock false (set_idelock true s)) with s by (destruct s; cbn in *; by subst). by split.
  - destruct Rc as (Rh & x & Hx & Rc). rewrite Rh in *. destruct Hirq as [-> | Hn]; [|done]. subst f.
    destruct Ra as (x' & Hx' & Ra). assert (x' = x) as -> by congruence. apply NoDup_cons in Rn as [Hbq Rn].
    wp_step. unfold ibref at 1, wpx at 1. cbn [ibs set_idelock]. rewrite Hx. wp_step. apply wpx_modify. wp_step.
    eapply wpx_mono; [apply (ide_reply_spec b x); [done|exact Ra]|cbn beta|done]. intros [] s1 (a1 & -> & Ha1 & Hs1). cbn [drive set_idequeue set_idelock] in *.
    wp_step. apply wpx_modify. apply wpx_assoc. wp_step.
    set (s2 := add_woken b _). set (ok := negb (failed (drive s))) in *. assert (Hi2 : ibs s2 = <[b := serve ok (sectors (drive s)) x]> (ibs s)) by done.
    assert (Hreq : forall d, d ∈ q -> exists y, ibs s2 !! d = Some y /\ req_ok y).
    { intros d Hd. rewrite Hi2. rewrite list_lookup_insert_ne by (by intros ->). apply Rq. by right. }
    assert (Hch : chain (ibs s2) (ib_qnext x) q) by (rewrite Hi2; by apply chain_insert_other).
    eapply wpx_mono; [apply (next_spec q s2); [exact Hch|exact Hreq|exact Ha1]| |done]. intros [] s3 (a & -> & Hs3 & Hq3). apply wpx_release; [done|].
    exists (mkServer (<[b := serve ok D (norm x)]> bs) D q None W). split; [constructor; by rewrite Rb, list_lookup_fmap, Hx|]. split; [done|]. split; [done|].
    assert (HD : forall u c, D u c = sectors (drive s) u c) by done.
    split; cbn [sv_bufs sv_disk sv_q sv_done sv_wait is_ide is_irq is_wait ibs set_idelock set_drive idequeue drive idelock]; try done.
    + rewrite Hi2, Rb, list_fmap_insert, norm_serve. by rewrite (serve_ext _ _ _ _ HD).
    + intros d Hd. split; [apply Rq; by right|by apply Hreq].
    + intros d Hd Hdq. rewrite Hi2. destruct (decide (d = b)) as [->|Hne].
      * exists (serve ok (sectors (drive s)) x). rewrite list_lookup_insert_eq by (by eapply lookup_lt_Some). split; [done|apply rw_done_serve].
      * rewrite list_lookup_insert_ne by done. apply Rs; [done|]. by apply not_elem_of_cons.
    + intros u c. rewrite Hs3. cbn. by rewrite Hs1, HD.
    + by destruct q.
Qed.

(** ** The steps *)

Lemma req_ok_norm x : req_ok x -> req_ok (norm x).
Proof. intros [H1 H2 H3 H4]. by split. Qed.

(** The end of [iderw_enter], once the request is in the queue. *)
Lemma enter_end b x s : ibs s !! b = Some x -> idelock s = true -> wp (iderw_wait b) (fun r s' => r = rw_done x /\ s' = set_idelock false s) s.
Proof. intros Hx Hl. unfold iderw_wait. wp_step. unfold ibref, wpx at 1. rewrite Hx. wp_step. apply wpx_release; [done|]. by apply wpx_ret. Qed.

(** The same buffers up to the links. *)
Lemma norm_lookup (l l' : list ibuf) d x : norm <$> l' = norm <$> l -> l !! d = Some x -> exists x', l' !! d = Some x' /\ norm x' = norm x.
Proof.
  intros Hn Hx. assert (H : (norm <$> l') !! d = Some (norm x)) by (by rewrite Hn, list_lookup_fmap, Hx). rewrite list_lookup_fmap in H.
  destruct (l' !! d) as [x'|]; [|done]. exists x'. split; [done|]. change (Some (norm x') = Some (norm x)) in H. congruence.
Qed.

Lemma norm_same x x' : norm x' = norm x -> (req_ok x -> req_ok x') /\ rw_done x' = rw_done x /\ request x' = request x /\ forall ok, ended x' ok = ended x ok.
Proof.
  destruct x, x'. unfold norm. cbn. intros H. injection H as -> -> -> -> ->. split; [|done]. intros [H1 H2 H3 H4]. by split.
Qed.

Lemma rep_queued s irq bs D q f W b x s2 a : ide_rep (mkIsys s irq W) (mkServer bs D q f W) -> ibs s !! b = Some x -> req_ok x ->
  norm <$> ibs s2 = norm <$> ibs s -> chain (ibs s2) (idequeue s2) (q ++ [b]) -> b ∉ q -> sectors a = sectors (drive s) ->
  active a = match q with [] => request x | _ :: _ => active (drive s) end -> failed a = failed (drive s) \/ q = [] ->
  ide_rep (mkIsys (set_idelock false (set_drive a s2)) irq ({[b]} ∪ W)) (mkServer bs D (q ++ [b]) f ({[b]} ∪ W)).
Proof.
  intros [Rb Rc Rn Rq Rs Rd Ra Rf Rw Rl] Hx Hok Hn Hc Hbq Hsa Haa Hfa.
  cbn [sv_bufs sv_disk sv_q sv_done sv_wait is_ide is_irq is_wait] in *.
  split; cbn [sv_bufs sv_disk sv_q sv_done sv_wait is_ide is_irq is_wait ibs set_idelock set_drive idequeue drive idelock]; try done.
  - by rewrite Rb.
  - apply NoDup_app. split; [done|]. split; [|apply NoDup_singleton]. intros d Hd Hd'. apply list_elem_of_singleton in Hd'. by subst.
  - intros d Hd. apply elem_of_app in Hd as [Hd|Hd].
    + destruct (Rq d Hd) as [HdW (y & Hy & Hyok)]. split; [by apply elem_of_union_r|]. destruct (norm_lookup _ _ _ _ Hn Hy) as (y' & Hy' & E).
      exists y'. split; [done|]. by apply (norm_same y).
    + apply list_elem_of_singleton in Hd as ->. split; [apply elem_of_union_l; by apply elem_of_singleton|].
      destruct (norm_lookup _ _ _ _ Hn Hx) as (y' & Hy' & E). exists y'. split; [done|]. by apply (norm_same x).
  - intros d Hd Hdq. apply not_elem_of_app in Hdq as [Hdq Hdb]. apply elem_of_union in Hd as [Hd|Hd]; [apply elem_of_singleton in Hd; subst d; destruct Hdb; by apply list_elem_of_singleton|].
    destruct (Rs d Hd Hdq) as (y & Hy & Hyd). destruct (norm_lookup _ _ _ _ Hn Hy) as (y' & Hy' & E). exists y'. split; [done|].
    by rewrite (proj1 (proj2 (norm_same _ _ E))).
  - intros u c. by rewrite Hsa.
  - destruct q as [|b0 q]; cbn [app].
    + destruct Ra as [-> _]. destruct (norm_lookup _ _ _ _ Hn Hx) as (y' & Hy' & E). exists y'. split; [done|]. by rewrite Haa, (proj1 (proj2 (proj2 (norm_same _ _ E)))).
    + destruct Ra as (y & Hy & Hay). destruct (norm_lookup _ _ _ _ Hn Hy) as (y' & Hy' & E). exists y'. split; [done|].
      destruct Hfa as [Hfa|]; [|done]. destruct (norm_same _ _ E) as (_ & _ & Er & Ee). by rewrite Haa, Hay, Hfa, Er, Ee.
  - rewrite Rf. destruct irq; [|done]. destruct Hfa as [-> | ->]; [done|]. by destruct Ra.
Qed.

(** A call: the request goes to the end of the queue, and to the drive if it
    is the only one; the panics are those of the tests. *)
Lemma iderw_enter_spec pid b x s irq bs D q f W : ide_rep (mkIsys s irq W) (mkServer bs D q f W) -> b ∉ W -> ibs s !! b = Some x -> req_ok x ->
  wpx (iderw_enter pid b) (fun r s' => r = false /\ ide_rep (mkIsys s' irq ({[b]} ∪ W)) (mkServer bs D (q ++ [b]) f ({[b]} ∪ W)))
    (fun _ => sl_holding pid (ib_lock x) = false \/ (ib_dev x <> 0 /\ havedisk1 s = false)) s.
Proof.
  intros R HbW Hx Hok. pose proof (rq_todo _ Hok) as Hnd. pose proof (ir_lock _ _ R) as Rl. pose proof (ir_chain _ _ R) as Rc. pose proof (ir_nodup _ _ R) as Rn.
  assert (Hbq : b ∉ q) by (intros Hb; by destruct (ir_req _ _ R b Hb)). cbn [is_ide sv_q] in *.
  unfold iderw_enter. wp_step. unfold ibref at 1, wpx at 1. rewrite Hx. destruct (sl_holding pid (ib_lock x)) eqn:Eh; cbn [negb]; [|apply wpx_panic; by left].
  rewrite Hnd. wp_step. apply wpx_gets. case_if Ed.
  { apply wpx_panic. right. apply andb_true_iff in Ed as [E1 E2]. apply negb_true_iff in E1, E2. by apply Z.eqb_neq in E1. }
  clear Ed. wp_step. apply wpx_acquire; [done|]. wp_step. unfold ibupd at 1, wpx at 1. cbn [ibs set_idelock]. rewrite Hx.
  set (xb := set_ib_qnext None x). set (s1 := set_ibs _ _). pose proof (lookup_lt_Some _ _ _ Hx) as Hlt.
  assert (Hb1 : ibs s1 !! b = Some xb) by (by apply list_lookup_insert_eq).
  assert (Hc1 : chain (ibs s1) (idequeue s1) q) by (by apply chain_insert_other). pose proof (chain_length _ _ _ Hc1 Rn).
  wp_step. apply wpx_gets. wp_step. eapply wpx_mono; [apply (insert_queue_spec b xb q _ None (idequeue s1)); (done || lia)| |done].
  intros [] s2 [Ln (Lh & Ll & Ldr & Lw) _ Lk (h & Lh' & Lc)]. injection Lh' as <-.
  assert (Hb2 : ibs s2 !! b = Some xb) by (by apply Lk). assert (Hn2 : norm <$> ibs s2 = norm <$> ibs s) by (rewrite Ln; by apply (norm_insert _ _ x)).
  pose proof (rep_queued s irq bs D q f W b x s2) as HR. wp_step. apply wpx_gets. wp_step. destruct q as [|c q].
  - pose proof Lc as [Lq _]. rewrite decide_True by done. destruct (ir_drive _ _ R) as [_ Ra]. cbn [is_ide] in Ra.
    eapply wpx_mono; [apply (idestart_spec b xb); [done|by apply (norm_same x)|by rewrite Ldr]| |done]. intros [] s3 (a & -> & Ha & Hs).
    eapply wpx_mono; [by apply (enter_end b xb)| |done]. intros r s4 [-> ->]. split; [done|]. apply HR; try done; [by rewrite Hs, Ldr|by right].
  - destruct Lc as [Lq Lc]. rewrite decide_False; [|rewrite Lq; intros E; injection E as ->; apply Hbq; left]. apply wpx_ret.
    eapply wpx_mono; [by apply (enter_end b xb)| |done]. intros r s4 [-> ->]. split; [done|].
    apply (HR (drive s2)); try done; [by rewrite Ldr..|left; by rewrite Ldr].
Qed.

(** The drive ends its command. *)
Lemma finish_spec s c T W : ide_rep (mkIsys s false W) T -> active (drive s) = Some c ->
  exists T', server_step T T' /\ sv_q T' = sv_q T /\ sv_wait T' = sv_wait T /\ sv_q T <> [] /\ ide_rep (mkIsys (set_drive (finish (drive s)) s) true W) T'.
Proof.
  intros R Hc. destruct T as [bs D q f W']. destruct R as [Rb Rc Rn Rq Rs Rd Ra Rf Rw Rl].
  cbn [sv_bufs sv_disk sv_q sv_done sv_wait is_ide is_irq is_wait] in *. subst W' f. destruct q as [|b q]; [destruct Ra; congruence|].
  destruct Ra as (x & Hx & Ra). set (a := finish (drive s)). exists (mkServer bs (sectors a) (b :: q) (Some (negb (failed a))) W).
  split; [|split; [done|]; split; [done|]; split; [done|]].
  - apply (sv_work b (norm x)); [by rewrite Rb, list_lookup_fmap, Hx|]. intros u d. unfold request, dirty in *. cbn [norm set_ib_qnext ib_flags ib_blockno ib_data].
    change (unit_of (norm x)) with (unit_of x). change (nz (Z.land (ib_flags x) B_DIRTY)) with (dirty x) in *. case_decide as Hd.
    + destruct Hd as (E & -> & ->). rewrite E in Ra. destruct (finish_write _ _ _ _ Ra) as (_ & Hok & _). intros Hn. apply Hok. by apply negb_true_iff.
    + rewrite Rd. destruct (dirty x); [apply (finish_write _ _ _ _ Ra); tauto|]. unfold a. by rewrite (proj2 (finish_read _ _ _ Ra)).
  - split; cbn [sv_bufs sv_disk sv_q sv_done sv_wait is_ide is_irq is_wait ibs idequeue drive set_drive idelock]; try done.
    exists x. split; [done|]. unfold a, request, ended in *. destruct (dirty x); cbn [orb].
    + apply (finish_write _ _ _ _ Ra).
    + destruct (finish_read _ _ _ Ra) as [-> _]. by destruct (failed (finish (drive s))).
Qed.

Lemma iderw_resume_spec b s irq T W : ide_rep (mkIsys s irq W) T -> b ∈ W ->
  wp (iderw_resume b) (fun r s' => s' = s /\ (r = true <-> b ∉ sv_q T)) s.
Proof.
  intros R Hb. pose proof (ir_lock _ _ R) as Rl. cbn [is_ide] in Rl. unfold iderw_resume. wp_step. apply wpx_acquire; [done|].
  assert (Hs : set_idelock false (set_idelock true s) = s) by (destruct s; cbn in *; by subst).
  destruct (decide (b ∈ sv_q T)) as [Hq|Hq].
  - destruct (ir_req _ _ R b Hq) as [_ (x & Hx & Hok)]. eapply wpx_mono; [by apply (enter_end b x)| |done].
    intros r s' [-> ->]. split; [done|]. rewrite (rq_todo _ Hok). done.
  - destruct (ir_served _ _ R b) as (x & Hx & Hd); [by rewrite (ir_wait _ _ R)|done|]. eapply wpx_mono; [by apply (enter_end b x)| |done].
    intros r s' [-> ->]. split; [done|]. by rewrite Hd.
Qed.

Lemma edit_spec b x x' s irq bs D q f W : ide_rep (mkIsys s irq W) (mkServer bs D q f W) -> b ∉ W -> ibs s !! b = Some x -> ib_qnext x' = ib_qnext x ->
  ide_rep (mkIsys (set_ibs (<[b := x']> (ibs s)) s) irq W) (mkServer (<[b := norm x']> bs) D q f W).
Proof.
  intros [Rb Rc Rn Rq Rs Rd Ra Rf Rw Rl] HbW Hx Hq. cbn [sv_bufs sv_disk sv_q sv_done sv_wait is_ide is_irq is_wait] in *.
  assert (Hbq : b ∉ q) by (intros Hb; by destruct (Rq b Hb)).
  split; cbn [sv_bufs sv_disk sv_q sv_done sv_wait is_ide is_irq is_wait ibs set_ibs idequeue drive idelock]; try done.
  - by rewrite Rb, list_fmap_insert.
  - by eapply chain_qnext.
  - intros d Hd. rewrite list_lookup_insert_ne by (by intros ->). by apply Rq.
  - intros d Hd Hdq. rewrite list_lookup_insert_ne by (by intros ->). by apply Rs.
  - destruct q as [|b0 q]; [done|]. rewrite list_lookup_insert_ne; [done|]. intros ->. apply Hbq. left.
Qed.

(** ** The simulation *)

Lemma ide_step_sim S1 S2 T1 : ide_rep S1 T1 -> ide_step S1 S2 -> exists T2, server_step T1 T2 /\ ide_rep S2 T2.
Proof.
  intros R H. destruct H as [pid b x r s s' irq W HbW Hx Hok E|c s W Hc|s s' irq W Hi E|b r s s' irq W Hb E|b x x' s irq W HbW Hx Hq];
    destruct T1 as [bs D q f W']; pose proof (ir_wait _ _ R) as Rw; cbn [sv_wait is_wait] in Rw; subst W'.
  - destruct (wpx_ret_inv _ _ _ _ _ _ (iderw_enter_spec pid b x s irq bs D q f W R HbW Hx Hok) E) as [-> R'].
    eexists. split; [|exact R']. apply (sv_call b (norm x)); [done| |by apply req_ok_norm]. pose proof (ir_bufs _ _ R) as Rb. cbn [sv_bufs is_ide] in Rb.
    by rewrite Rb, list_lookup_fmap, Hx.
  - destruct (finish_spec s c _ W R Hc) as (T2 & H1 & _ & _ & _ & H2). by exists T2.
  - destruct (wpx_ret_inv _ _ _ _ _ _ (ideintr_spec s irq _ W R Hi) E) as (T2 & H1 & _ & _ & H2). by exists T2.
  - destruct (wpx_ret_inv _ _ _ _ _ _ (iderw_resume_spec b s irq _ W R Hb) E) as (-> & Hr). destruct r.
    + exists (mkServer bs D q f (W ∖ {[b]})). assert (Hbq : b ∉ q) by (by apply Hr). split; [by apply sv_leave|].
      destruct R as [Rb Rc Rn Rq Rs Rd Ra Rf Rw Rl]. cbn [sv_bufs sv_disk sv_q sv_done sv_wait is_ide is_irq is_wait] in *.
      split; cbn [sv_bufs sv_disk sv_q sv_done sv_wait is_ide is_irq is_wait]; try done.
      * intros d Hd. destruct (Rq d Hd) as [HdW H]. split; [|done]. apply elem_of_difference. split; [done|]. intros E'. apply elem_of_singleton in E'. by subst.
      * intros d Hd. apply elem_of_difference in Hd as [Hd _]. by apply Rs.
    + eexists. split; [apply sv_idle|done].
  - eexists. split; [|by eapply edit_spec]. apply (sv_edit b (norm x)); [done| |done]. pose proof (ir_bufs _ _ R) as Rb. cbn [sv_bufs is_ide] in Rb.
    by rewrite Rb, list_lookup_fmap, Hx.
Qed.

(** The driver at the start: nothing is queued and the drive is idle. *)
Definition ide_start (S0 : isys) : Prop :=
  idequeue (is_ide S0) = None /\ idelock (is_ide S0) = false /\ active (drive (is_ide S0)) = None /\ is_irq S0 = false /\ is_wait S0 = ∅.

Definition server_of (S0 : isys) : server := mkServer (norm <$> ibs (is_ide S0)) (sectors (drive (is_ide S0))) [] None ∅.

Lemma ide_start_rep S0 : ide_start S0 -> ide_rep S0 (server_of S0).
Proof.
  intros (H1 & H2 & H3 & H4 & H5). unfold server_of. split; cbn [sv_bufs sv_disk sv_q sv_done sv_wait]; try done; try set_solver.
  - apply NoDup_nil_2.
  - by rewrite H4.
Qed.

Lemma ide_reach_sim S0 S1 : ide_start S0 -> ide_reach S0 S1 -> exists T, server_reach (server_of S0) T /\ ide_rep S1 T.
Proof.
  intros H0. induction 1 as [|S1 S2 Hr (T & HT & R) Hs]; [exists (server_of S0); split; [constructor|by apply ide_start_rep]|].
  destruct (ide_step_sim _ _ _ R Hs) as (T2 & Ht & R2). exists T2. split; [by eapply sr_step|done].
Qed.

(** ** Completion *)

(** The drive ends a command and interrupts. *)
Definition ide_round : M ide unit := do! io finish in ideintr.

Lemma request_active x : exists c, request x = Some c.
Proof. unfold request. eauto. Qed.

Lemma ide_round_spec b q s T W : ide_rep (mkIsys s false W) T -> sv_q T = b :: q ->
  wp ide_round (fun _ s' => exists T', ide_rep (mkIsys s' false W) T' /\ sv_q T' = q /\ sv_wait T' = sv_wait T) s.
Proof.
  intros R Hq. pose proof (ir_drive _ _ R) as Ra. rewrite Hq in Ra. destruct Ra as (x & Hx & Ra). cbn [is_ide is_irq] in *.
  destruct (request_active x) as [c Hc]. rewrite Hc in Ra. destruct (finish_spec s c T W R Ra) as (T1 & _ & Hq1 & Hw1 & _ & R1).
  unfold ide_round, io. wp_step. apply wpx_modify. eapply wpx_mono; [apply (ideintr_spec _ true T1 W R1); by left| |done].
  intros [] s' (T2 & _ & Hq2 & Hw2 & R2). exists T2. split; [done|]. split; [by rewrite Hq2, Hq1, Hq|by rewrite Hw2].
Qed.

Lemma mfor_count {St X} (l : list X) (c : M St unit) s : mfor (replicate (length l) tt) (fun _ => c) s = mfor l (fun _ => c) s.
Proof. revert s. induction l as [|x l IH]; intros s; [done|]. cbn. unfold bind. destruct (c s); [apply IH|done..]. Qed.

Lemma ide_rounds_spec q : forall s T W, ide_rep (mkIsys s false W) T -> sv_q T = q ->
  wp (mfor q (fun _ => ide_round)) (fun _ s' => exists T', ide_rep (mkIsys s' false W) T' /\ sv_q T' = [] /\ sv_wait T' = sv_wait T) s.
Proof.
  induction q as [|b q IH]; intros s T W R Hq; cbn [mfor]; [apply wpx_ret; by exists T|].
  wp_step. eapply wpx_mono; [by eapply ide_round_spec| |done]. intros [] s1 (T1 & R1 & Hq1 & Hw1).
  eapply wpx_mono; [by apply (IH s1 T1 W)| |done]. intros [] s2 (T2 & R2 & Hq2 & Hw2). exists T2. split; [done|]. split; [done|by rewrite Hw2].
Qed.

End proofs.

(** ** A drive *)

(** A drive that takes [ty_busy] polls to become ready after a command; the
    sectors [bad] cannot be read or written. *)
Record toy := mkToy { ty_reg : Z -> Z; ty_act : option ata_cmd; ty_sec : Z -> Z -> bytes; ty_busy : nat; ty_err : bool }.

Definition toy_outb (p v : Z) (a : toy) : toy :=
  if decide (p = 503) then
    let u := reg_unit (ty_reg a) in
    let b := reg_lba (ty_reg a) in
    mkToy (ty_reg a) (if v =? IDE_CMD_READ then Some (Cread u b) else Some (Cexpect u b)) (ty_sec a) (ty_busy a) false
  else mkToy (fun q => if decide (q = p) then v else ty_reg a q) (ty_act a) (ty_sec a) (ty_busy a) (ty_err a).

Definition toy_outsl (d : bytes) (a : toy) : toy :=
  match ty_act a with
  | Some (Cexpect u b) => mkToy (ty_reg a) (Some (Cwrite u b d)) (ty_sec a) (ty_busy a) (ty_err a)
  | _ => a
  end.

Definition toy_poll (a : toy) : Z * toy :=
  match ty_busy a with
  | O => (if ty_err a then 65 else 64, a)
  | S n => (128, mkToy (ty_reg a) (ty_act a) (ty_sec a) n (ty_err a))
  end.

Definition toy_insl (a : toy) : bytes * toy :=
  match ty_act a with
  | Some (Cdata u b) => (ty_sec a u b, mkToy (ty_reg a) None (ty_sec a) 0 (ty_err a))
  | _ => ([], a)
  end.

Definition toy_finish (bad : Z -> Z -> bool) (a : toy) : toy :=
  match ty_act a with
  | Some (Cread u b) => mkToy (ty_reg a) (if bad u b then None else Some (Cdata u b)) (ty_sec a) 2 (bad u b)
  | Some (Cwrite u b d) => mkToy (ty_reg a) None (fun u' b' => if decide (u' = u /\ b' = b /\ bad u b = false) then d else ty_sec a u' b') 2 (bad u b)
  | _ => a
  end.

Definition toy_ata (bad : Z -> Z -> bool) : Ata := Build_Ata toy toy_outb toy_outsl toy_poll toy_insl (toy_finish bad) ty_busy.

(** No bad sectors, and only such. *)
Definition no_bad (u b : Z) : bool := false.
Definition all_bad (u b : Z) : bool := true.

#[export] Instance toy_spec bad : AtaSpec (toy_ata bad).
Proof.
  unshelve eapply (Build_AtaSpec (toy_ata bad) ty_reg ty_act ty_sec ty_err); cbn; unfold toy_outb, toy_outsl, toy_poll, toy_insl, toy_finish.
  - intros a p v q _ Hp _. by rewrite (decide_False _ _ Hp).
  - intros a p v Ha Hp. by rewrite (decide_False _ _ Hp).
  - intros a p v _. by case_decide.
  - done.
  - done.
  - intros a u b d -> _. done.
  - intros a u b ->. done.
  - intros a u b d ->. cbn. split; [done|]. split; [intros Hb; by rewrite decide_True|]. intros u' b' Hn. rewrite decide_False; [done|]. tauto.
  - intros a u b ->. done.
  - intros a. by destruct (ty_busy a).
  - intros a _. destruct (ty_busy a); [left; by destruct (ty_err a)|right; cbn; lia].
  - intros a. destruct (ty_busy a); [by destruct (ty_err a)|done].
Defined.

(** * Theorems *)

(** C25: the IDE driver is a first-in first-out server of blocks.  In every
    interleaving of processes that call [iderw] for buffers of blocks below
    FSSIZE, the drive and its interrupts, the driver behaves as a queue whose
    requests are served one by one.  A request that the drive ends without an error
    is served as the in-memory driver does it: a dirty buffer is written to its
    block, another one is filled from it.  After an error of the drive the buffer
    keeps its data and is marked valid and clean all the same.  The drive always has
    the first request and never a second one, a process stays in [iderw] until its
    own request is done, and calls and interrupts return. *)
Theorem ide_refines `{HA : Ata} `{!AtaSpec HA} S0 S1 :
  ide_start S0 -> ide_reach S0 S1 ->
  (exists T, server_reach (server_of S0) T /\ ide_rep S1 T) /\
  (forall pid b x, b ∉ is_wait S1 -> ibs (is_ide S1) !! b = Some x -> req_ok x -> sl_holding pid (ib_lock x) = true ->
     ib_dev x = 0 \/ havedisk1 (is_ide S1) = true -> exists s', iderw_enter pid b (is_ide S1) = Ret false s') /\
  (is_irq S1 = true -> exists s', ideintr (is_ide S1) = Ret tt s').
Proof.
  intros H0 Hr. destruct (ide_reach_sim S0 S1 H0 Hr) as (T & HT & R). split; [by exists T|]. destruct S1 as [s irq W], T as [bs D q f W'].
  pose proof (ir_wait _ _ R) as Rw. cbn in Rw. subst W'. cbn [is_ide is_wait is_irq]. split.
  - intros pid b x HbW Hx Hok Hh Hd. pose proof (iderw_enter_spec pid b x s irq bs D q f W R HbW Hx Hok) as H. unfold wpx in H.
    destruct (iderw_enter pid b s) as [r s'| | |]; [|destruct H as [H|[H1 H2]]; [congruence|]; destruct Hd; congruence|done..]. destruct H as [-> _]. by exists s'.
  - intros ->. destruct (wp_run _ _ _ (ideintr_spec s true _ W R ltac:(by left))) as ([] & s' & E & _). by exists s'.
Qed.

(** Two buffers for block 5 of disk 1: the first is written, then the second
    is read. *)
Definition ide_demo : @ide (toy_ata no_bad) :=
  @mkIde (toy_ata no_bad) [mkIbuf 4 1 5 (mkSleep 1 3) None (replicate 512 7); mkIbuf 0 1 5 (mkSleep 1 4) None (replicate 512 0)] None true false
    (mkToy (fun _ => 0) None (fun _ _ => replicate 512 0) 1 false) [].

Definition ide_demo1 := after (iderw_enter 3 0) ide_demo.
Definition ide_demo2 := after (iderw_enter 4 1) ide_demo1.

Lemma demo_req0 : req_ok (mkIbuf 4 1 5 (mkSleep 1 3) None (replicate 512 7)).
Proof. split; try reflexivity; unfold is_u32, FSSIZE; cbn; lia. Qed.

Lemma demo_req1 : req_ok (mkIbuf 0 1 5 (mkSleep 1 4) None (replicate 512 0)).
Proof. split; try reflexivity; unfold is_u32, FSSIZE; cbn; lia. Qed.

Lemma ide_demo_start : ide_start (mkIsys ide_demo false ∅).
Proof. by repeat split. Qed.

Lemma ide_demo_reach : ide_reach (mkIsys ide_demo false ∅) (mkIsys ide_demo2 false ({[1%nat]} ∪ ({[0%nat]} ∪ ∅))).
Proof.
  apply (ir_step _ (mkIsys ide_demo1 false ({[0%nat]} ∪ ∅))); [eapply ir_step; [apply ir_refl|]|].
  - eapply (it_call 3 0 _ false); [apply not_elem_of_empty|reflexivity|apply demo_req0|]. apply (result_after (iderw_enter 3 0) ide_demo). vm_compute. reflexivity.
  - eapply (it_call 4 1 _ false); [set_solver|vm_compute; reflexivity|apply demo_req1|]. apply (result_after (iderw_enter 4 1) ide_demo1). vm_compute. reflexivity.
Qed.

Lemma ide_refines_witness : exists T, server_reach (server_of (mkIsys ide_demo false ∅)) T /\
  ide_rep (mkIsys ide_demo2 false ({[1%nat]} ∪ ({[0%nat]} ∪ ∅))) T /\ sv_q T = [0%nat; 1%nat].
Proof.
  destruct (ide_refines (mkIsys ide_demo false ∅) _ ide_demo_start ide_demo_reach) as ((T & HT & R) & _).
  exists T. split; [exact HT|]. split; [exact R|]. apply (chain_det (ibs ide_demo2) (sv_q T) (idequeue ide_demo2)); [apply (ir_chain _ _ R)|].
  vm_compute. split; [reflexivity|]. eexists. split; [reflexivity|]. split; [reflexivity|]. eexists. split; reflexivity.
Defined.

(** C32: every request is served.  From any reachable state, once an interrupt of
    the drive that is pending has been taken, as many ends of commands with their
    interrupts as there are requests left empty the queue, whether the commands fail
    or not, and every process inside [iderw] then leaves it. *)
Theorem ide_completes `{HA : Ata} `{!AtaSpec HA} S0 S1 :
  ide_start S0 -> ide_reach S0 S1 ->
  exists n s', (n <= length (ibs (is_ide S1)))%nat /\
    (do! (if is_irq S1 then ideintr else ret tt) in mfor (replicate n tt) (fun _ => ide_round)) (is_ide S1) = Ret tt s' /\
    idequeue s' = None /\ forall b, b ∈ is_wait S1 -> iderw_resume b s' = Ret true s'.
Proof.
  intros H0 Hr. destruct (ide_reach_sim S0 S1 H0 Hr) as (T & HT & R). destruct S1 as [s irq W]. cbn [is_irq is_ide is_wait] in *.
  assert (Hp : exists s1 T1, (if irq then ideintr else ret tt) s = Ret tt s1 /\ ide_rep (mkIsys s1 false W) T1 /\ (length (sv_q T1) <= length (sv_q T))%nat).
  { destruct irq; [|by exists s, T]. destruct (wp_run _ _ _ (ideintr_spec s true T W R (or_introl eq_refl))) as ([] & s1 & E & T1 & _ & Hq & _ & R1).
    exists s1, T1. split; [done|]. split; [done|]. rewrite Hq. destruct (sv_q T); cbn; lia. }
  destruct Hp as (s1 & T1 & E1 & R1 & Hle). pose proof (chain_length _ _ _ (ir_chain _ _ R) (ir_nodup _ _ R)) as Hlen. cbn [is_ide] in Hlen.
  destruct (wp_run _ _ _ (ide_rounds_spec (sv_q T1) s1 T1 W R1 eq_refl)) as ([] & s' & E & T' & R' & Hq & Hw).
  exists (length (sv_q T1)), s'. split; [lia|]. split; [unfold bind; by rewrite E1, <- E, mfor_count|].
  pose proof (ir_chain _ _ R') as Hc. rewrite Hq in Hc. split; [exact Hc|]. intros b Hb.
  destruct (wp_run _ _ _ (iderw_resume_spec b s' false T' W R' Hb)) as (r & s2 & E2 & -> & Hr2). rewrite E2. f_equal. apply Hr2. rewrite Hq. apply not_elem_of_nil.
Qed.

Lemma ide_completes_witness : exists s', mfor (replicate 2 tt) (fun _ => ide_round) ide_demo2 = Ret tt s' /\
  iderw_resume 1 s' = Ret true s' /\ ib_data <$> ibs s' = [replicate 512 7; replicate 512 7].
Proof.
  destruct (ide_completes (mkIsys ide_demo false ∅) _ ide_demo_start ide_demo_reach) as (n & s' & Hn & E & Hq & Hb). cbn [is_ide is_wait is_irq] in E, Hn, Hb.
  change (mfor (replicate n tt) (fun _ => ide_round) ide_demo2 = Ret tt s') in E.
  assert (n = 2%nat) as ->.
  { replace (length (ibs ide_demo2)) with 2%nat in Hn by (vm_compute; reflexivity).
    destruct n as [|[|[|n]]]; [exfalso; cbn in E; injection E as <-; revert Hq; vm_compute; discriminate| |reflexivity|lia].
    exfalso. assert (Hs : idequeue (after (mfor (replicate 1 tt) (fun _ => ide_round)) ide_demo2) = idequeue s') by (unfold after; by rewrite E).
    rewrite Hq in Hs. revert Hs. vm_compute. discriminate. }
  exists s'. split; [exact E|]. split; [apply Hb; set_solver|].
  assert (Hs : after (mfor (replicate 2 tt) (fun _ => ide_round)) ide_demo2 = s') by (unfold after; by rewrite E). rewrite <- Hs. vm_compute. reflexivity.
Defined.

(** A read that fails: the buffer gets no data, and is marked valid all the
    same. *)
Example read_error_is_valid :
  let s := after ide_round (after (@iderw_enter (toy_ata all_bad) 4 0)
    (@mkIde (toy_ata all_bad) [mkIbuf 0 1 5 (mkSleep 1 4) None (replicate 512 0)] None true false (mkToy (fun _ => 0) None (fun _ _ => replicate 512 7) 0 false) [])) in
  map ib_flags (ibs s) = [B_VALID] /\ map ib_data (ibs s) = [replicate 512 0].
Proof. vm_compute. split; reflexivity. Qed.
