(* ===== verification/Mkfs.v ===== *)
(** * The maker of disk images (src/mkfs.c)

    mkfs writes a file system into a file, on the host: the superblock, the
    inodes, a root directory with an entry for every file given, the contents,
    and the bitmap at the end.  The image is a list of blocks; an error or a
    failed assertion is a panic. *)

From S2P Require Import Prelude.
From S2P Require Import Bytes.
From S2P Require Import Sleeplock.
From S2P Require Import Bio.
From S2P Require Import Log.
From S2P Require Import LogSpec.
From S2P Require Import LogTheorems.
From S2P Require Import Path.
From S2P Require Import Fs.
From S2P Require Import FsBlock.
From S2P Require Import FsFile.
From S2P Require Import FsWrite.
From S2P Require Import Ide.

Open Scope Z_scope.

Definition NINODES : Z := 200.
Definition nbitmap : Z := FSSIZE / (Z.of_nat BSIZE * 8) + 1.
Definition ninodeblocks : Z := NINODES / IPB + 1.
Definition nlog : Z := LOGSIZE.
Definition nmeta : Z := 2 + nlog + ninodeblocks + nbitmap.

Definition mk_sb : superblock :=
  mkSuper FSSIZE (FSSIZE - nmeta) NINODES nlog 2 (2 + nlog) (2 + nlog + ninodeblocks).

(** The image file, [freeinode] and [freeblock]. *)
Record mkfs := mkMkfs { img : list bytes; freeinode : Z; freeblock : Z }.

Definition set_img (v : list bytes) (s : mkfs) : mkfs := mkMkfs v (freeinode s) (freeblock s).

(** A write past the end extends the file. *)
Definition wsect (sec : Z) (buf : bytes) : M mkfs unit :=
  modify (fun s =>
    let n := Z.to_nat sec in
    set_img (if (n <? length (img s))%nat then <[n := buf]> (img s)
             else img s ++ replicate (n - length (img s)) zero_blk ++ [buf]) s).

Definition rsect (sec : Z) : M mkfs bytes :=
  let! l := gets img in
  match l !! Z.to_nat sec with
  | Some d => ret d
  | None => panic "read"
  end.

(** An inode with nothing in it; the fields of inodes in memory do not matter
    here. *)
Definition blank_inode (inum : Z) : inode := mkInode 1 inum 0 (mkSleep 0 0) 1 0 0 0 0 0 (replicate 13 0).

Definition winode (inum : Z) (x : inode) : M mkfs unit :=
  let bn := IBLOCK inum mk_sb in
  let! d := rsect bn in
  wsect bn (put_dinode d (dinode_off inum) x).

Definition rinode (inum : Z) : M mkfs inode :=
  let! d := rsect (IBLOCK inum mk_sb) in
  ret (get_dinode d (dinode_off inum) (blank_inode inum)).

(** [freeblock++] *)
Definition next_block : M mkfs Z :=
  let! a := gets freeblock in
  do! modify (fun s => mkMkfs (img s) (freeinode s) (u32 (a + 1))) in
  ret a.

Definition mk_ialloc (type : Z) : M mkfs Z :=
  let! inum := gets freeinode in
  do! modify (fun s => mkMkfs (img s) (u32 (inum + 1)) (freeblock s)) in
  do! winode inum (set_itype type (set_inlink 1 (blank_inode inum))) in
  ret inum.

(** The block of the file's [fbn]-th 512 bytes, allocated if there is none. *)
Definition iappend_map (x : inode) (fbn : Z) : M mkfs (Z * inode) :=
  if fbn <? NDIRECT then
    if addr_at x fbn =? 0 then
      let! a := next_block in
      ret (a, set_addr fbn a x)
    else ret (addr_at x fbn, x)
  else
    let! x := (if addr_at x NDIRECT =? 0 then
                 let! a := next_block in
                 ret (set_addr NDIRECT a x)
               else ret x) in
    let! indirect := rsect (addr_at x NDIRECT) in
    let off := Z.to_nat (4 * (fbn - NDIRECT)) in
    if rd32 indirect off =? 0 then
      let! a := next_block in
      do! wsect (addr_at x NDIRECT) (wr32 indirect off a) in
      ret (a, x)
    else ret (rd32 indirect off, x).

Fixpoint iappend_loop (k : nat) (x : inode) (off : Z) (p : bytes) : M mkfs (inode * Z) :=
  match k with
  | O => nofuel
  | S k' =>
      if (length p =? 0)%nat then ret (x, off)
      else
        let fbn := off / Z.of_nat BSIZE in
        if negb (fbn <? MAXFILE) then panic "assert"
        else
          let! r := iappend_map x fbn in
          let n1 := Z.min (Z.of_nat (length p)) ((fbn + 1) * Z.of_nat BSIZE - off) in
          let! buf := rsect r.1 in
          do! wsect r.1 (splice buf (Z.to_nat (off - fbn * Z.of_nat BSIZE)) (take (Z.to_nat n1) p)) in
          iappend_loop k' r.2 (off + n1) (drop (Z.to_nat n1) p)
  end.

Definition iappend (inum : Z) (p : bytes) : M mkfs unit :=
  let! x := rinode inum in
  let! r := iappend_loop (S (length p)) x (i_size x) p in
  winode inum (set_isize r.2 r.1).

(** The bitmap with the first [used] blocks. *)
Definition bits (used : nat) : bytes := fold_left (fun d i => setbit d i) (zrange 0 used) zero_blk.

Definition mk_balloc (used : Z) : M mkfs unit :=
  if used <? Z.of_nat BSIZE * 8 then wsect (sb_bmapstart mk_sb) (bits (Z.to_nat used)) else panic "assert".

(** The loop that copies a file, up to the first [read] of nothing. *)
Fixpoint append_reads (inum : Z) (reads : list bytes) : M mkfs unit :=
  match reads with
  | [] => ret tt
  | p :: reads' => if (0 <? length p)%nat then do! iappend inum p in append_reads inum reads' else ret tt
  end.

(** The name without the leading [_]. *)
Definition bare (name : bytes) : bytes := match name with 95 :: name => name | name => name end.

(** A file on the command line: its name, and what [read] delivers of it if
    [open] succeeds. *)
Definition mk_file (f : bytes * option (list bytes)) : M mkfs unit :=
  if existsb (Z.eqb 47) f.1 then panic "assert"
  else
    match f.2 with
    | None => panic "open"
    | Some reads =>
        let! inum := mk_ialloc T_FILE in
        do! iappend ROOTINO (mk_dirent (inum mod 65536) (bstrncpy (bare f.1) DIRSIZ)) in
        append_reads inum reads
    end.

Definition sb_block (sb : superblock) : bytes :=
  splice zero_blk 0 (concat (map le32 [sb_size sb; sb_nblocks sb; sb_ninodes sb; sb_nlog sb; sb_logstart sb; sb_inodestart sb; sb_bmapstart sb])).

Definition mk_main (files : list (bytes * option (list bytes))) : M mkfs unit :=
  do! mfor (zrange 0 (Z.to_nat FSSIZE)) (fun i => wsect i zero_blk) in
  do! wsect 1 (sb_block mk_sb) in
  let! rootino := mk_ialloc T_DIR in
  if negb (rootino =? ROOTINO) then panic "assert"
  else
    do! iappend rootino (mk_dirent rootino (bstrncpy [46] DIRSIZ)) in
    do! iappend rootino (mk_dirent rootino (bstrncpy [46; 46] DIRSIZ)) in
    do! mfor files mk_file in
    let! din := rinode rootino in
    let off := (i_size din / Z.of_nat BSIZE + 1) * Z.of_nat BSIZE in
    do! winode rootino (set_isize off din) in
    let! fb := gets freeblock in
    mk_balloc fb.

(** The truncated file, and the counters at the start. *)
Definition mk_start : mkfs := mkMkfs [] 1 nmeta.

(** ** The image under construction *)

(** The image with the bitmap that [mk_balloc] would write now. *)
Definition view (s : mkfs) : list bytes := <[58%nat := bits (Z.to_nat (freeblock s))]> (img s).

(** The blocks from [freeblock] on are untouched. *)
Record mst (s : mkfs) : Prop := {
  ms_len : length (img s) = 1000%nat;
  ms_blk : Forall is_blk (img s);
  ms_free : 59 <= freeblock s <= 1000;
  ms_zero : forall b, freeblock s <= b < 1000 -> img s !! Z.to_nat b = Some zero_blk;
}.

Abbreviation mfile_ok := (file_ok mk_sb 2 30).
Abbreviation mmapped := (mapped mk_sb 2 30).
Abbreviation mwrote := (wrote mk_sb 2 30).

(** The blocks of a file of [n] bytes, the indirect block included. *)
Definition cost (n : Z) : Z := (n + 511) / 512 + (if 6144 <? n then 1 else 0).

(** The file has the blocks of its first [n] bytes. *)
Definition alloced (v : list bytes) (x : inode) (n : Z) : Prop := forall k, 0 <= k -> k * 512 < n -> faddr v x k <> 0.

(** The blocks [iappend_map] takes. *)
Definition missing (v : list bytes) (x : inode) (k : Z) : Z :=
  if k <? NDIRECT then (if addr_at x k =? 0 then 1 else 0)
  else (if ind x =? 0 then 1 else 0) + (if faddr v x k =? 0 then 1 else 0).

(** The block belongs to the file. *)
Definition owns (v : list bytes) (x : inode) (b : Z) : Prop :=
  b <> 0 /\ (b = ind x \/ exists k, 0 <= k < MAXFILE /\ faddr v x k = b).

(** The file's blocks are behind the metadata. *)
Definition high (v : list bytes) (x : inode) : Prop :=
  (ind x <> 0 -> 59 <= ind x) /\ forall k, 0 <= k < MAXFILE -> faddr v x k <> 0 -> 59 <= faddr v x k.

(** The file's blocks hold nothing from [off] on. *)
Definition clean (v : list bytes) (x : inode) (off : Z) : Prop :=
  forall o, off <= o < 71680 -> faddr v x (o / 512) <> 0 -> fbyte v x o = 0.

(** The boot block, the superblock, the log and the next inode are as before. *)
Definition kept (s s' : mkfs) : Prop := freeinode s' = freeinode s /\ forall b, (b < 32)%nat -> img s' !! b = img s !! b.

(** An inode as [rinode] makes it. *)
Definition host (x : inode) : Prop := i_dev x = 1 /\ i_ref x = 0 /\ i_lock x = mkSleep 0 0 /\ i_valid x = 1.

(** The type of the [i]-th inode: the root directory is the first. *)
Definition kind (i : nat) : Z := if (i =? 0)%nat then T_DIR else T_FILE.

(** The file with the [i]-th inode, and its contents. *)
Record entry_ok (v : list bytes) (i : nat) (x : inode) (c : bytes) : Prop := {
  en_inum : i_inum x = Z.of_nat i + 1;
  en_host : host x;
  en_kind : i_type x = kind i /\ i_major x = 0 /\ i_minor x = 0 /\ i_nlink x = 1;
  en_file : mfile_ok v x;
  en_high : high v x;
  en_synced : synced mk_sb v x;
  en_range : inode_range x;
  en_size : i_size x = Z.of_nat (length c);
  en_bytes : fbytes v x 0 (length c) = c;
  en_clean : clean v x (i_size x);
}.

(** The files are there and have no block in common. *)
Record files_ok (v : list bytes) (es : list (inode * bytes)) : Prop := {
  fs_entry : forall i x c, es !! i = Some (x, c) -> entry_ok v i x c;
  fs_apart : forall i j x c y d b, es !! i = Some (x, c) -> es !! j = Some (y, d) -> owns v x b -> owns v y b -> i = j;
}.

(** The blocks of all files. *)
Definition total (cs : list bytes) : Z := foldr (fun c n => cost (Z.of_nat (length c)) + n) 0 cs.

Record mk_inv (s : mkfs) (es : list (inode * bytes)) : Prop := {
  mk_st : mst s;
  mk_low : forall b, (b < 32)%nat -> img s !! b = Some (if (b =? 1)%nat then sb_block mk_sb else zero_blk);
  mk_inum : freeinode s = Z.of_nat (length es) + 1;
  mk_few : (length es < 200)%nat;
  mk_files : files_ok (view s) es;
  mk_owned : forall b, 59 <= b < freeblock s -> exists i x c, es !! i = Some (x, c) /\ owns (view s) x b;
  mk_count : freeblock s <= nmeta + total es.*2;
}.

(** * Lemmas *)

(** ** The layout and the bitmap *)

Lemma mk_bb b : 0 <= b < 1000 -> bb mk_sb b = 58%nat.
Proof. intros Hb. unfold bb, BPB. change (sb_bmapstart mk_sb) with 58. rewrite Z.div_small by lia. done. Qed.

Lemma mk_ib i : 0 <= i < 200 -> (32 <= ib mk_sb i < 58)%nat.
Proof. intros Hi. unfold ib, IPB. change (sb_inodestart mk_sb) with 32. dlia. Qed.

Lemma mk_layout : layout mk_sb 2 30 1000.
Proof.
  split; try done.
  - intros b Hb. rewrite mk_bb by done. unfold home, in_log. lia.
  - intros i Hi. pose proof (mk_ib i Hi). unfold home, in_log. lia.
  - intros b i Hb Hi. rewrite mk_bb by done. pose proof (mk_ib i Hi). lia.
Qed.

Lemma mk_data b : 59 <= b < 1000 -> is_data mk_sb 2 30 1000 b.
Proof.
  intros Hb. unfold is_data, home, in_log. change (sb_size mk_sb) with 1000. change (sb_ninodes mk_sb) with 200.
  split; [lia|]. split; [lia|]. split; [intros c Hc; rewrite mk_bb by lia; lia|]. intros i Hi. pose proof (mk_ib i Hi). lia.
Qed.

Lemma data_mk n b : is_data mk_sb 2 30 n b -> 0 < b < 1000 /\ Z.to_nat b <> 58%nat.
Proof. intros (H1 & _ & H2 & _). change (sb_size mk_sb) with 1000 in *. split; [done|]. specialize (H2 0). rewrite mk_bb in H2 by lia. lia. Qed.

Lemma rd8_zero o : rd8 zero_blk o = 0.
Proof. unfold rd8, zero_blk. destruct (replicate BSIZE 0 !! o) as [y|] eqn:E; [|done]. by apply lookup_replicate in E as [-> _]. Qed.

Lemma zrange_S lo n : zrange lo (S n) = zrange lo n ++ [lo + Z.of_nat n].
Proof.
  revert lo. induction n as [|n IH]; intros lo; [cbn; f_equal; lia|]. change (zrange lo (S (S n))) with (lo :: zrange (lo + 1) (S n)).
  rewrite IH. cbn. do 3 f_equal. lia.
Qed.

Lemma bits_S n : bits (S n) = setbit (bits n) (Z.of_nat n).
Proof. unfold bits. by rewrite zrange_S, fold_left_app. Qed.

Lemma length_bits n : length (bits n) = 512%nat.
Proof. induction n as [|n IH]; [done|]. rewrite bits_S. unfold setbit. by rewrite length_wr8. Qed.

Lemma bitof_bits n i : (n <= 4096)%nat -> 0 <= i -> bitof (bits n) i = (i <? Z.of_nat n).
Proof.
  intros Hn Hi. induction n as [|n IH].
  - rewrite bitof_eq. change (bits 0) with zero_blk. rewrite rd8_zero, Z.testbit_0_l. symmetry. apply Z.ltb_ge. lia.
  - rewrite bits_S, bitof_setbit, IH; [|lia|unfold BPB; lia|done|apply length_bits]. destruct (Z.eqb_spec i (Z.of_nat n)); zcases; lia.
Qed.

(** ** The view *)

Lemma length_view s : length (view s) = length (img s).
Proof. apply length_insert. Qed.

Lemma view_blks s : mst s -> Forall is_blk (view s).
Proof. intros H. apply Forall_insert; [apply H|apply length_bits]. Qed.

Lemma used_view s b : mst s -> 0 <= b < 1000 -> used mk_sb (view s) b = (b <? freeblock s).
Proof.
  intros [H1 _ H2 _] Hb. unfold used, view. rewrite mk_bb, blk_insert by (done || lia). rewrite Z.mod_small by (unfold BPB; lia).
  rewrite bitof_bits by lia. by rewrite Z2Nat.id by lia.
Qed.

Lemma bitmap_view s : mst s -> bitmap_ok mk_sb 2 30 (view s).
Proof.
  intros H b Hb Hu. change (sb_size mk_sb) with 1000 in Hb. rewrite used_view in Hu by done. apply Z.ltb_ge in Hu.
  rewrite length_view, (ms_len _ H). apply mk_data. pose proof (ms_free _ H). lia.
Qed.

Lemma lookup_view s b : b <> 58%nat -> view s !! b = img s !! b.
Proof. intros Hb. apply list_lookup_insert_ne. lia. Qed.

Definition bump (s : mkfs) : mkfs := mkMkfs (img s) (freeinode s) (freeblock s + 1).

Lemma bump_taken s : mst s -> freeblock s < 1000 -> taken mk_sb (view s) (freeblock s) (view (bump s)) /\ mst (bump s).
Proof.
  intros H Hf. pose proof (ms_free _ H) as Hr. assert (H' : mst (bump s)).
  { destruct H as [H1 H2 H3 H4]. split; try done; cbn; [lia|]. intros b Hb. apply H4. lia. }
  split; [|done]. split; change (sb_size mk_sb) with 1000.
  - lia.
  - rewrite used_view by (done || lia). apply Z.ltb_irrefl.
  - intros b Hb. rewrite used_view by (done || lia). apply Z.ltb_lt; lia.
  - intros b Hb. rewrite !used_view by done. cbn [freeblock bump]. destruct (Z.eqb_spec b (freeblock s)); zcases; lia.
  - rewrite lookup_view by lia. apply H. lia.
  - intros m Hm Hm2. rewrite mk_bb in Hm2 by lia. by rewrite !lookup_view.
  - by rewrite !length_view.
Qed.

Lemma blk_length v m : Forall is_blk v -> (m < length v)%nat -> length (blk v m) = BSIZE.
Proof. intros Hv Hm. destruct (lookup_lt_is_Some_2 v m Hm) as [d Hd]. unfold blk. rewrite Hd. by eapply Forall_lookup_1 in Hv. Qed.

(** ** Sectors *)

Lemma rsect_spec (Q : bytes -> mkfs -> Prop) E a s : length (img s) = 1000%nat -> 0 <= a < 1000 -> Z.to_nat a <> 58%nat -> Q (blk (view s) (Z.to_nat a)) s -> wpx (rsect a) Q E s.
Proof.
  intros H Ha Hn HQ. unfold rsect. wp_step. apply wpx_gets. rewrite <- lookup_view by done. unfold blk in HQ.
  destruct (lookup_lt_is_Some_2 (view s) (Z.to_nat a)) as [d Hd]; [rewrite length_view, H; lia|]. rewrite Hd in *. by apply wpx_ret.
Qed.

Lemma rsect_full (Q : bytes -> mkfs -> Prop) (E : string -> Prop) a s : length (img s) = 1000%nat -> 1000 <= a -> E "read"%string -> wpx (rsect a) Q E s.
Proof. intros H Ha HE. unfold rsect. wp_step. apply wpx_gets. rewrite lookup_ge_None_2 by (rewrite H; lia). by apply wpx_panic. Qed.

(** The state after writing a sector that is not free. *)
Definition put (a : Z) (d : bytes) (s : mkfs) : mkfs := set_img (<[Z.to_nat a := d]> (img s)) s.

Lemma wsect_spec (Q : unit -> mkfs -> Prop) E a d s : length (img s) = 1000%nat -> 0 <= a < 1000 -> Q tt (put a d s) -> wpx (wsect a d) Q E s.
Proof.
  intros H Ha HQ. unfold wsect. apply wpx_modify. rewrite (proj2 (Nat.ltb_lt _ _)) by (rewrite H; lia). exact HQ.
Qed.

Lemma put_spec a d s : mst s -> 0 <= a < freeblock s -> Z.to_nat a <> 58%nat -> is_blk d ->
  mst (put a d s) /\ view (put a d s) = <[Z.to_nat a := d]> (view s).
Proof.
  intros [H1 H2 H3 H4] Ha Hn Hd. split.
  - split; cbn; [by rewrite length_insert|by apply Forall_insert|done|]. intros b Hb. rewrite list_lookup_insert_ne by lia. by apply H4.
  - unfold view, put. cbn. by apply list_insert_insert_ne.
Qed.

Lemma put_kept a d s : 32 <= a -> kept s (put a d s).
Proof. intros Ha. split; [done|]. intros b Hb. cbn. apply list_lookup_insert_ne. lia. Qed.

Lemma kept_trans s s1 s2 : kept s s1 -> kept s1 s2 -> kept s s2.
Proof. intros [H1 H2] [H3 H4]. split; [congruence|]. intros b Hb. by rewrite H4, H2. Qed.

Lemma next_block_spec (Q : Z -> mkfs -> Prop) E s : mst s -> Q (freeblock s) (bump s) -> wpx next_block Q E s.
Proof.
  intros H HQ. unfold next_block. wp_step. apply wpx_gets. wp_step. apply wpx_modify. pose proof (ms_free _ H).
  rewrite u32_small by (unfold is_u32; lia). by apply wpx_ret.
Qed.

(** ** Mapping a block *)

(** The blocks taken are the block [a] and the indirect block. *)
Definition took (s s' : mkfs) (a : Z) (x' : inode) : Prop := forall b, freeblock s <= b < freeblock s' -> b = a \/ b = ind x'.

(** A mapped block that is on the disk, or the disk is full. *)
Definition map_post (s : mkfs) (x : inode) (k : Z) (r : Z * inode) (s' : mkfs) : Prop :=
  kept s s' /\
  ((mst s' /\ mmapped (view s) x k r.1 (view s') r.2 /\ (faddr (view s) x k <> 0 -> r.2 = x) /\
      took s s' r.1 r.2 /\ freeblock s' = freeblock s + missing (view s) x k) \/
   (length (img s') = 1000%nat /\ 1000 <= r.1 /\ 1000 < freeblock s + missing (view s) x k)).

Definition prep_post (s : mkfs) (x x' : inode) (s' : mkfs) : Prop :=
  kept s s' /\
  ((mst s' /\ prepared mk_sb 2 30 (view s) x (view s') x' /\ (ind x <> 0 -> x' = x) /\
      took s s' (ind x') x' /\ freeblock s' = freeblock s + (if ind x =? 0 then 1 else 0)) \/
   (length (img s') = 1000%nat /\ 1000 <= ind x' /\ 1000 < freeblock s + (if ind x =? 0 then 1 else 0))).

Lemma view_layout s : mst s -> layout mk_sb 2 30 (length (view s)).
Proof. intros H. rewrite length_view, (ms_len _ H). apply mk_layout. Qed.

Lemma prep_spec s x E : mst s -> mfile_ok (view s) x ->
  wpx (if addr_at x NDIRECT =? 0 then let! a := next_block in ret (set_addr NDIRECT a x) else ret x) (prep_post s x) E s.
Proof.
  intros H F. pose proof (bitmap_view s H) as B. pose proof (ms_free _ H) as Hr. unfold prep_post. change (addr_at x NDIRECT) with (ind x). destruct (Z.eqb_spec (ind x) 0) as [Hz|Hz].
  - wp_step. apply next_block_spec; [done|]. apply wpx_ret. split; [done|].
    destruct (Z_lt_ge_dec (freeblock s) 1000) as [Hf|Hf]; [left|right].
    + destruct (bump_taken s H Hf) as [T H']. split; [done|]. split; [by apply prepared_new; [apply view_layout|..]|]. split; [done|]. split; [|done].
      intros b Hb. left. cbn in Hb. rewrite ind_set by (apply F || unfold NDIRECT; lia). rewrite Z.eqb_refl. lia.
    + split; [apply (ms_len _ H)|]. rewrite ind_set by (apply F || unfold NDIRECT; lia). rewrite Z.eqb_refl. lia.
  - apply wpx_ret. split; [done|]. left. split; [done|]. split; [by apply prepared_old|]. split; [done|]. split; [|lia]. intros b Hb. lia.
Qed.

Lemma own_block s b : mst s -> is_data mk_sb 2 30 (length (view s)) b -> used mk_sb (view s) b = true -> 0 < b < freeblock s /\ b < 1000 /\ Z.to_nat b <> 58%nat.
Proof. intros H D U. destruct (data_mk _ _ D) as [Hb Hn]. rewrite used_view in U by (done || lia). apply Z.ltb_lt in U. lia. Qed.

Lemma unused_high s b : mst s -> used mk_sb (view s) b = false -> 0 <= b < 1000 -> 59 <= b.
Proof. intros H U Hb. rewrite used_view in U by done. apply Z.ltb_ge in U. pose proof (ms_free _ H). lia. Qed.

Lemma mapped_high s x k a v' x' : mst s -> 0 <= k < MAXFILE -> mmapped (view s) x k a v' x' -> high (view s) x -> high v' x'.
Proof.
  intros H Hk Mp [H1 H2]. pose proof (mp_ok _ _ _ _ _ _ _ _ _ Mp) as F. split.
  - intros Hi. destruct (fo_ind _ _ _ _ _ F Hi) as [D _]. destruct (data_mk _ _ D) as [Hr _].
    destruct (mp_ind _ _ _ _ _ _ _ _ _ Mp) as [E|[_ U]]; [rewrite E in *; by apply H1|]. apply (unused_high s); [done|done|lia].
  - intros j Hj Hz. destruct (fo_blk _ _ _ _ _ F j Hj Hz) as (D & _). destruct (data_mk _ _ D) as [Hr _].
    destruct (decide (j = k)) as [->|Hne]; [|rewrite (mp_others _ _ _ _ _ _ _ _ _ Mp) in * by done; by apply H2].
    rewrite (mp_addr _ _ _ _ _ _ _ _ _ Mp) in *. destruct (decide (faddr (view s) x k = 0)) as [E|E].
    + apply (unused_high s); [done|by apply Mp|lia].
    + rewrite (mp_old _ _ _ _ _ _ _ _ _ Mp E). by apply H2.
Qed.

(** A new entry in the indirect block. *)
Lemma new_entry_spec s x k x1 s1 E :
  mst s -> mst s1 -> prepared mk_sb 2 30 (view s) x (view s1) x1 -> NDIRECT <= k < MAXFILE -> faddr (view s) x k = 0 -> 59 <= ind x1 ->
  wpx (let! a := next_block in
       do! wsect (ind x1) (wr32 (blk (view s1) (Z.to_nat (ind x1))) (Z.to_nat (4 * (k - NDIRECT))) a) in
       ret (a, x1))
    (fun r s' => kept s1 s' /\
      ((mst s' /\ mmapped (view s) x k r.1 (view s') r.2 /\ r.1 = freeblock s1 /\ r.2 = x1 /\ freeblock s' = freeblock s1 + 1) \/
       (length (img s') = 1000%nat /\ 1000 <= r.1 /\ 1000 < freeblock s1 + 1))) E s1.
Proof.
  intros H H1 P Hk Hz Hi59. pose proof (pr_ok _ _ _ _ _ _ _ P) as F1. pose proof (pr_ind _ _ _ _ _ _ _ P) as Hi. destruct (fo_ind _ _ _ _ _ F1 Hi) as [D U].
  destruct (own_block s1 _ H1 D U) as (Hib & Hi1000 & Hi58). pose proof (ms_len _ H1) as Hlen. pose proof (ms_free _ H1) as Hr.
  wp_step. apply next_block_spec; [done|]. wp_step. apply wsect_spec; [done|lia|]. apply wpx_ret. split; [apply (put_kept _ _ (bump s1)); lia|]. cbn [fst snd].
  destruct (Z_lt_ge_dec (freeblock s1) 1000) as [Hf|Hf]; [left|right; cbn; rewrite length_insert; lia].
  destruct (bump_taken s1 H1 Hf) as [T H2]. set (d := wr32 _ _ _).
  destruct (put_spec (ind x1) d (bump s1)) as [H3 E3]; [done|cbn; lia|done|unfold is_blk, d; rewrite length_wr32; eapply blk_length; [apply view_blks, H1|apply D]|].
  split; [done|]. split; [|done]. rewrite E3. unfold d.
  replace (blk (view s1) (Z.to_nat (ind x1))) with (blk (view (bump s1)) (Z.to_nat (ind x1))).
  - apply (mapped_entry_new _ _ _ _ _ _ _ (view s1)); try done; [by apply view_layout|by apply view_blks].
  - unfold blk. by rewrite (taken_data mk_sb 2 30 _ _ _ _ (bitmap_view s1 H1) T D U).
Qed.

Lemma iappend_map_spec s x k : mst s -> mfile_ok (view s) x -> high (view s) x -> 0 <= k < MAXFILE ->
  wpx (iappend_map x k) (map_post s x k) (fun msg => msg = "read"%string /\ 1000 < freeblock s + missing (view s) x k) s.
Proof.
  intros H F Hh Hk. pose proof (bitmap_view s H) as B. pose proof (ms_free _ H) as Hr. unfold iappend_map, map_post, missing.
  destruct (Z.ltb_spec k NDIRECT) as [Hd|Hd].
  - rewrite faddr_direct by done. destruct (Z.eqb_spec (addr_at x k) 0) as [Hz|Hz].
    + wp_step. apply next_block_spec; [done|]. apply wpx_ret. split; [done|].
      destruct (Z_lt_ge_dec (freeblock s) 1000) as [Hf|Hf]; [left|right].
      * destruct (bump_taken s H Hf) as [T H']. split; [done|]. split; [apply mapped_direct; [by apply view_layout|done..|lia|done]|]. split; [by intros []|]. split; [|done]. intros b Hb. left. cbn in *. lia.
      * split; [apply (ms_len _ H)|]. cbn. lia.
    + apply wpx_ret. split; [done|]. left. split; [done|]. cbn [fst snd]. rewrite <- (faddr_direct (view s) x k Hd) in Hz |- *.
      split; [by apply mapped_old|]. split; [done|]. split; [|lia]. intros b Hb. lia.
  - wp_step. eapply wpx_mono; [by apply (prep_spec s x never)| |done]. intros x1 s1 [Hfi [(H1 & P & Hsame & Ht & Hf1)|(Hl & Hi & Hfull)]].
    2:{ wp_step. apply rsect_full; [done|done|]. split; [done|]. destruct (faddr (view s) x k =? 0); lia. }
    pose proof (pr_ok _ _ _ _ _ _ _ P) as F1. pose proof (pr_ind _ _ _ _ _ _ _ P) as Hi. destruct (fo_ind _ _ _ _ _ F1 Hi) as [D U].
    destruct (own_block s1 _ H1 D U) as (Hib & Hi1000 & Hi58). wp_step. apply rsect_spec; [apply H1|unfold ind in *; lia|done|].
    set (o := Z.to_nat (4 * (k - NDIRECT))). assert (He : rd32 (blk (view s1) (Z.to_nat (addr_at x1 NDIRECT))) o = faddr (view s) x k).
    { rewrite <- (pr_addr _ _ _ _ _ _ _ P k Hk), faddr_indirect by done. by rewrite (proj2 (Z.eqb_neq _ _) Hi). }
    rewrite He. destruct (Z.eqb_spec (faddr (view s) x k) 0) as [Hz|Hz].
    + assert (Hi59 : 59 <= ind x1).
      { destruct (pr_other _ _ _ _ _ _ _ P) as [E|[_ Hu]]; [rewrite E in *; by apply Hh|]. apply (unused_high s); [done|done|lia]. }
      replace (freeblock s + _) with (freeblock s1 + 1) by (rewrite Hf1; lia).
      eapply wpx_mono; [apply (new_entry_spec s x k x1 s1 never); (done || lia)| |done]. intros [a y] s2 [Hfi2 Hr2]. split; [by eapply kept_trans|]. cbn [fst snd] in *.
      destruct Hr2 as [(H2 & Mp & -> & -> & Hf2)|Hr2]; [left|by right]. split; [done|]. split; [done|]. split; [done|]. split; [|done].
      intros b Hb. destruct (decide (b = freeblock s1)); [by left|]. right. by destruct (Ht b ltac:(lia)).
    + apply wpx_ret. split; [done|]. left. split; [done|]. cbn [fst snd]. split; [by apply mapped_entry_old|].
      split; [|split; [intros b Hb; right; by destruct (Ht b)|lia]]. intros _. apply Hsame. intros E. apply Hz. rewrite faddr_indirect by done. by rewrite E.
Qed.

(** ** The blocks a file takes *)

Lemma cost_mono a b : 0 <= a <= b -> cost a <= cost b.
Proof. intros H. unfold cost. zcases; dlia. Qed.

(** The blocks allocated for one turn of the loop. *)
Lemma missing_cost v x off n : 0 <= off -> 0 < n -> off mod 512 + n <= 512 -> alloced v x off ->
  missing v x (off / 512) <= cost (off + n) - cost off.
Proof.
  intros Ho Hn Hm A. assert (Hz : off mod 512 <> 0 -> faddr v x (off / 512) <> 0) by (intros H; apply A; dlia).
  unfold missing, cost. unfold NDIRECT. destruct (Z.ltb_spec (off / 512) 12) as [Hk|Hk].
  - rewrite faddr_direct in Hz by done. destruct (Z.eqb_spec (addr_at x (off / 512)) 0); zcases; dlia.
  - rewrite faddr_indirect in * by done. destruct (Z.eqb_spec (ind x) 0) as [Hi|Hi].
    + assert (Hoff : off = 6144); [|subst; cbn; zcases; dlia].
      destruct (decide (off mod 512 = 0)) as [E|E]; [|by destruct (Hz E)]. destruct (decide (off = 6144)) as [|Hne]; [done|].
      destruct (A 12); [lia|dlia|]. rewrite faddr_indirect by done. by rewrite Hi.
    + destruct (Z.eqb_spec (entry v (ind x) (off / 512 - NDIRECT)) 0); zcases; dlia.
Qed.

Lemma wrote_alloced v x off p v' x' : 0 <= off <= 71680 -> off + Z.of_nat (length p) <= 71680 -> mwrote v x off p v' x' ->
  alloced v x off -> alloced v' x' (off + Z.of_nat (length p)).
Proof.
  intros Ho Hm W A k Hk Hl. destruct (Z_lt_ge_dec (k * 512) off) as [Hlt|Hge].
  - rewrite (wr_addr _ _ _ _ _ _ _ _ _ W); [by apply A|change MAXFILE with 140; lia|by apply A].
  - replace k with (k * 512 / 512) by dlia. apply (wr_alloc _ _ _ _ _ _ _ _ _ W). lia.
Qed.

(** ** Appending *)

(** The file would be too long, or the disk is full. *)
Definition nospace (s : mkfs) (off n : Z) (msg : string) : Prop :=
  (msg = "assert"%string /\ 71680 < off + n) \/ (msg = "read"%string /\ 1000 < freeblock s + (cost (off + n) - cost off)).

(** The bytes [p] have been appended at [off], and the blocks taken are the
    file's. *)
Record appended (s : mkfs) (x : inode) (off : Z) (p : bytes) (x' : inode) (s' : mkfs) : Prop := {
  ap_size : off + Z.of_nat (length p) <= 71680;
  ap_kept : kept s s';
  ap_st : mst s';
  ap_high : high (view s') x';
  ap_wrote : mwrote (view s) x off p (view s') x';
  ap_cost : freeblock s' <= freeblock s + (cost (off + Z.of_nat (length p)) - cost off);
  ap_free : freeblock s <= freeblock s';
  ap_owns : forall b, owns (view s) x b \/ freeblock s <= b < freeblock s' -> owns (view s') x' b;
  ap_clean : clean (view s) x off -> clean (view s') x' (off + Z.of_nat (length p));
}.

Lemma appended_nil s x off : mst s -> mfile_ok (view s) x -> high (view s) x -> off <= 71680 -> appended s x off [] x s.
Proof.
  intros H F Hh Ho. split; cbn; rewrite ?Z.add_0_r; try done; try lia; [apply wrote_nil; [by apply bitmap_view|done]|]. intros b [Hb|Hb]; [done|lia].
Qed.

Lemma appended_trans s x off p x1 s1 q x2 s2 : 0 <= off ->
  appended s x off p x1 s1 -> appended s1 x1 (off + Z.of_nat (length p)) q x2 s2 -> appended s x off (p ++ q) x2 s2.
Proof.
  intros Ho [P1 P2 P3 P4 P5 P6 P7 P8 P9] [Q1 Q2 Q3 Q4 Q5 Q6 Q7 Q8 Q9].
  split; try done; rewrite ?length_app, ?Nat2Z.inj_add, ?Z.add_assoc; try done; try lia.
  - by eapply kept_trans.
  - eapply wrote_app; [done| |exact P5|done]. change (MAXFILE * 512) with 71680. rewrite length_app. lia.
  - intros b Hb. apply Q8. destruct (Z_lt_ge_dec b (freeblock s1)) as [Hlt|Hge]; [left; apply P8|]; destruct Hb as [Hb|Hb]; [by left|right; lia|left; apply P8; by left|right; lia].
  - intros Hc. by apply Q9, P9.
Qed.

(** A block that is mapped stays the file's, and so do its others. *)
Lemma mapped_owns s s1 x k a x1 b : 0 <= k < MAXFILE -> mmapped (view s) x k a (view s1) x1 -> took s s1 a x1 ->
  owns (view s) x b \/ (0 < b /\ freeblock s <= b < freeblock s1) -> owns (view s1) x1 b.
Proof.
  intros Hk Mp Ht [[Hz Hb]|[Hz Hb]]; (split; [try done; lia|]).
  - destruct Hb as [->|(j & Hj & <-)].
    + left. by destruct (mp_ind _ _ _ _ _ _ _ _ _ Mp) as [E|[E _]].
    + right. exists j. split; [done|]. destruct (decide (j = k)) as [->|Hne].
      * by rewrite (mp_addr _ _ _ _ _ _ _ _ _ Mp), (mp_old _ _ _ _ _ _ _ _ _ Mp Hz).
      * by rewrite (mp_others _ _ _ _ _ _ _ _ _ Mp).
  - destruct (Ht b Hb) as [->| ->]; [right|by left]. exists k. split; [done|]. apply (mp_addr _ _ _ _ _ _ _ _ _ Mp).
Qed.

(** What follows the bytes written is still 0. *)
Lemma mapped_clean v x off c a v1 x1 : mfile_ok v x -> 0 <= off -> off / 512 < MAXFILE -> off mod 512 + Z.of_nat (length c) <= 512 -> (0 < length c)%nat ->
  Forall is_blk v1 -> mmapped v x (off / 512) a v1 x1 -> clean v x off ->
  clean (<[Z.to_nat a := splice (blk v1 (Z.to_nat a)) (Z.to_nat (off mod 512)) c]> v1) x1 (off + Z.of_nat (length c)).
Proof.
  intros F Ho Hk Hc Hc0 Hv Mp C o Hr. set (k := off / 512) in *. assert (Hk0 : 0 <= k) by (unfold k; dlia).
  pose proof (mp_ok _ _ _ _ _ _ _ _ _ Mp) as F1. pose proof (mp_addr _ _ _ _ _ _ _ _ _ Mp) as Ea. pose proof (mp_nz _ _ _ _ _ _ _ _ _ Mp) as Hz.
  destruct (fo_blk _ _ _ _ _ F1 k ltac:(done)) as (D & U & N); [by rewrite Ea|]. rewrite Ea in D, U, N.
  set (d := splice _ _ _). rewrite (faddr_data mk_sb 2 30 v1 x1 a d) by done. unfold fbyte. rewrite (faddr_data mk_sb 2 30 v1 x1 a d) by done.
  assert (Hblk : forall j, 0 <= j < MAXFILE -> faddr v x j <> 0 -> blk v1 (Z.to_nat (faddr v x j)) = blk v (Z.to_nat (faddr v x j))).
  { intros j Hj Hjz. destruct (fo_blk _ _ _ _ _ F j Hj Hjz) as (Dj & Uj & Nj). unfold blk. by rewrite (mp_data _ _ _ _ _ _ _ _ _ Mp). }
  assert (Ho' : 0 <= o / 512 < MAXFILE) by (change MAXFILE with 140; dlia).
  destruct (decide (o / 512 = k)) as [E|E]; intros Hoz.
  - rewrite E, Ea, blk_insert by apply D. unfold d. rewrite rd8_splice_out by (unfold k in *; right; dlia).
    destruct (decide (faddr v x k = 0)) as [Hn|Hn].
    + rewrite (mp_new _ _ _ _ _ _ _ _ _ Mp Hn). apply rd8_zero.
    + rewrite (mp_old _ _ _ _ _ _ _ _ _ Mp Hn), Hblk by done. rewrite <- E. apply (C o); [lia|]. by rewrite E.
  - rewrite (mp_others _ _ _ _ _ _ _ _ _ Mp) in * by done. rewrite blk_insert_ne; [rewrite Hblk by done|].
    + apply (C o); [lia|done].
    + intros E2. destruct (fo_blk _ _ _ _ _ F _ Ho' Hoz) as (Dj & _). rewrite <- (mp_len _ _ _ _ _ _ _ _ _ Mp) in Dj.
      apply (data_nat mk_sb 2 30 (length v1)) in E2; [|done..]. apply E, (fo_inj _ _ _ _ _ F1); [done|done|..].
      * by rewrite (mp_others _ _ _ _ _ _ _ _ _ Mp).
      * rewrite (mp_others _ _ _ _ _ _ _ _ _ Mp) by done. congruence.
Qed.

(** One turn of the loop. *)
Lemma iappend_turn {A} (c : inode -> M mkfs A) Q (E : string -> Prop) s x off chunk :
  mst s -> mfile_ok (view s) x -> high (view s) x -> alloced (view s) x off -> 0 <= off -> off / 512 < MAXFILE ->
  (0 < length chunk)%nat -> off mod 512 + Z.of_nat (length chunk) <= 512 ->
  (1000 < freeblock s + (cost (off + Z.of_nat (length chunk)) - cost off) -> E "read"%string) ->
  (forall x' s', appended s x off chunk x' s' -> wpx (c x') Q E s') ->
  wpx (let! r := iappend_map x (off / 512) in
       let! buf := rsect r.1 in
       do! wsect r.1 (splice buf (Z.to_nat (off mod 512)) chunk) in
       c r.2) Q E s.
Proof.
  intros H F Hh A0 Ho Hk Hc0 Hc HE HQ. pose proof (missing_cost (view s) x off (Z.of_nat (length chunk)) Ho ltac:(lia) Hc A0) as Hcost.
  assert (Hk' : 0 <= off / 512 < MAXFILE) by dlia. assert (Hm : off + Z.of_nat (length chunk) <= 71680) by (change MAXFILE with 140 in Hk; dlia).
  wp_step. eapply wpx_mono; [by apply iappend_map_spec| |intros msg [-> Hf]; apply HE; lia].
  intros [a x1] s1 [Hfi [(H1 & Mp & Hsame & Ht & Hf)|(Hl & Ha & Hf)]]; cbn [fst snd] in *.
  2:{ wp_step. apply rsect_full; [done|done|]. apply HE. lia. }
  pose proof (mp_ok _ _ _ _ _ _ _ _ _ Mp) as F1. pose proof (mp_addr _ _ _ _ _ _ _ _ _ Mp) as Ea. pose proof (mp_nz _ _ _ _ _ _ _ _ _ Mp) as Hz.
  destruct (fo_blk _ _ _ _ _ F1 (off / 512) Hk') as (D & U & N); [by rewrite Ea|]. rewrite Ea in D, U, N.
  destruct (own_block s1 _ H1 D U) as (Hib & Hi1000 & Hi58).
  wp_step. apply rsect_spec; [apply H1|lia|done|]. wp_step. apply wsect_spec; [apply H1|lia|]. set (d := splice _ _ _).
  destruct (put_spec a d s1) as [H2 E2]; [done|lia|done|unfold is_blk, d; rewrite length_splice; apply blk_length; [by apply view_blks|apply D]|].
  assert (Hh1 : high (view s1) x1) by (by apply (mapped_high s x (off / 512) a)).
  assert (Ha : 59 <= a) by (rewrite <- Ea; apply Hh1; [done|by rewrite Ea]).
  assert (Ef : forall j, faddr (view (put a d s1)) x1 j = faddr (view s1) x1 j) by (intros j; rewrite E2; by apply (faddr_data mk_sb 2 30)).
  assert (H0m : 0 <= missing (view s) x (off / 512)) by (unfold missing; zcases; lia).
  apply HQ. split; try done.
  - eapply kept_trans; [done|apply put_kept; lia].
  - split; [apply Hh1|]. intros j Hj. rewrite Ef. by apply Hh1.
  - rewrite E2. apply wrote_block; try done. by apply view_blks.
  - cbn. lia.
  - cbn. lia.
  - intros b Hb. cbn [freeblock put set_img] in Hb. unfold owns. setoid_rewrite Ef. apply (mapped_owns s s1 x (off / 512) a x1 b Hk' Mp Ht).
    pose proof (ms_free _ H). destruct Hb as [Hb|Hb]; [by left|right; lia].
  - intros C. rewrite E2. apply (mapped_clean (view s) x); try done. by apply view_blks.
Qed.

Lemma iappend_loop_spec fuel : forall s x off p,
  (length p < fuel)%nat -> mst s -> mfile_ok (view s) x -> high (view s) x -> alloced (view s) x off -> 0 <= off <= 71680 ->
  wpx (iappend_loop fuel x off p) (fun r s' => r.2 = off + Z.of_nat (length p) /\ appended s x off p r.1 s') (nospace s off (Z.of_nat (length p))) s.
Proof.
  induction fuel as [|fuel IH]; intros s x off p Hf H F Hh A Ho; [lia|]. cbn [iappend_loop]. destruct (Nat.eqb_spec (length p) 0) as [Hz|Hz].
  { apply wpx_ret. destruct p; [|done]. cbn [fst snd length]. split; [lia|]. apply appended_nil; (done || lia). }
  change (Z.of_nat BSIZE) with 512. destruct (Z.ltb_spec (off / 512) MAXFILE) as [Hk|Hk]; cbn [negb].
  2:{ apply wpx_panic. left. split; [done|]. change MAXFILE with 140 in Hk. dlia. }
  set (n1 := Z.min _ _). assert (Hn : 0 < n1 <= Z.of_nat (length p) /\ off mod 512 + n1 <= 512) by (unfold n1; dlia).
  set (c := take (Z.to_nat n1) p). assert (Hc : Z.of_nat (length c) = n1) by (unfold c; rewrite length_take; lia).
  replace (off - off / 512 * 512) with (off mod 512) by dlia.
  apply (iappend_turn (fun x' => iappend_loop fuel x' (off + n1) (drop (Z.to_nat n1) p)) _ _ s x off c); try done; try lia.
  { rewrite Hc. intros Hf'. right. split; [done|]. pose proof (cost_mono (off + n1) (off + Z.of_nat (length p))). lia. }
  intros x' s' AP. pose proof AP as [Hm _ H' Hh' W Hfb _ _ _]. rewrite Hc in Hm, Hfb.
  assert (A' : alloced (view s') x' (off + n1)) by (rewrite <- Hc; apply (wrote_alloced (view s) x off c); (done || lia)).
  assert (Ed : Z.of_nat (length (drop (Z.to_nat n1) p)) = Z.of_nat (length p) - n1) by (rewrite length_drop; lia).
  eapply wpx_mono; [apply IH; try done; [rewrite length_drop; lia|apply W|lia]| |].
  - intros [y o] s2 [E1 AP2]. cbn [fst snd] in *. split; [lia|]. rewrite <- (take_drop (Z.to_nat n1) p). fold c.
    eapply appended_trans; [lia|exact AP|by rewrite Hc].
  - unfold nospace. intros msg. rewrite Ed. replace (off + n1 + (Z.of_nat (length p) - n1)) with (off + Z.of_nat (length p)) by lia.
    intros [[-> ?]|[-> ?]]; [by left|]. right. split; [done|lia].
Qed.
