(* ===== verification/MkfsTheorems.v ===== *)
(** * What mkfs makes (src/mkfs.c)

    The image is a file system: every file is there, under its name in the root
    directory and with the bytes that were read, and the bitmap marks exactly
    the blocks in use. *)

From S2P Require Import Prelude.
From S2P Require Import Bytes.
From S2P Require Import Sleeplock.
From S2P Require Import Bio.
From S2P Require Import Log.
From S2P Require Import LogSpec.
From S2P Require Import LogTheorems.
From S2P Require Import Path.
From S2P Require Import Fs.
From S2P Require Import FsBlock.
From S2P Require Import FsFile.
From S2P Require Import FsWrite.
From S2P Require Import Ide.
From S2P Require Import Mkfs.

Open Scope Z_scope.

(** ** The image wanted *)

(** The bytes read before the end of the file. *)
Fixpoint delivered (reads : list bytes) : bytes :=
  match reads with
  | [] => []
  | p :: reads' => if (0 <? length p)%nat then p ++ delivered reads' else []
  end.

Definition content (f : bytes * option (list bytes)) : bytes := delivered (default [] f.2).

Definition dirent (inum : Z) (name : bytes) : bytes := mk_dirent inum (bstrncpy name DIRSIZ).

Definition root_dir (files : list (bytes * option (list bytes))) : bytes :=
  dirent 1 [46] ++ dirent 1 [46; 46] ++ concat (imap (fun i f => dirent (Z.of_nat i + 2) (bare f.1)) files).

(** The contents of the inodes, from the root directory on. *)
Definition contents (files : list (bytes * option (list bytes))) : list bytes := root_dir files :: map content files.

(** The inode on the disk. *)
Definition inode_at (v : list bytes) (inum : Z) : inode := get_dinode (blk v (ib mk_sb inum)) (dinode_off inum) (blank_inode inum).

Record image_ok (v : list bytes) (files : list (bytes * option (list bytes))) : Prop := {
  io_len : length v = 1000%nat /\ Forall is_blk v;
  io_super : get_superblock (blk v 1) = mk_sb;
  io_log : forall b, (2 <= b < 32)%nat -> blk v b = zero_blk;
  (* the root directory; its size is rounded up to blocks *)
  io_root : let x := inode_at v 1 in let n := Z.of_nat (length (root_dir files)) in
    i_type x = T_DIR /\ i_nlink x = 1 /\ i_size x = (n / 512 + 1) * 512 /\
    fbytes v x 0 (length (root_dir files)) = root_dir files /\ clean v x n /\ (n mod 512 <> 0 -> mfile_ok v x);
  io_file : forall j f, files !! j = Some f -> let x := inode_at v (Z.of_nat j + 2) in
    i_type x = T_FILE /\ i_nlink x = 1 /\ i_size x = Z.of_nat (length (content f)) /\
    fbytes v x 0 (length (content f)) = content f /\ mfile_ok v x;
  (* no block belongs to two files, and the used blocks are theirs *)
  io_apart : forall i j b, 1 <= i <= Z.of_nat (length files) + 1 -> 1 <= j <= Z.of_nat (length files) + 1 ->
    owns v (inode_at v i) b -> owns v (inode_at v j) b -> i = j;
  io_bitmap : forall b, 0 <= b < 1000 ->
    used mk_sb v b = true <-> b < nmeta \/ exists i, 1 <= i <= Z.of_nat (length files) + 1 /\ owns v (inode_at v i) b;
}.

(** Why mkfs may give up: a name with a slash, a file that cannot be opened or
    is too long, or a full disk. *)
Definition mk_failure (files : list (bytes * option (list bytes))) (msg : string) : Prop :=
  (msg = "assert"%string /\ exists f, f ∈ files /\ (47 ∈ f.1 \/ 71680 < Z.of_nat (length (content f)))) \/
  (msg = "open"%string /\ exists f, f ∈ files /\ f.2 = None) \/
  (msg = "read"%string /\ 1000 < nmeta + total (contents files)).

(** Arithmetic on inode numbers. *)
Ltac ilia := change (sb_ninodes mk_sb) with 200; lia.

(** * Lemmas *)

(** ** Inodes *)

Lemma get_addrs_ext d d' o n : forall k, (k + 4 * n <= 64)%nat -> (forall j, (j < 64)%nat -> rd8 d (o + j) = rd8 d' (o + j)) ->
  get_addrs d (o + k) n = get_addrs d' (o + k) n.
Proof.
  induction n as [|n IH]; intros k Hk H; cbn [get_addrs]; [done|]. f_equal.
  - unfold rd32, rd16. rewrite <- !Nat.add_assoc, !H by lia. done.
  - rewrite <- Nat.add_assoc. apply IH; [lia|done].
Qed.

Lemma get_dinode_ext d d' o x : (forall j, (j < 64)%nat -> rd8 d (o + j) = rd8 d' (o + j)) -> get_dinode d o x = get_dinode d' o x.
Proof.
  intros H. unfold get_dinode. rewrite (get_addrs_ext d d' o 13 12) by (done || lia). pose proof (H 0%nat ltac:(lia)) as H0. rewrite Nat.add_0_r in H0.
  f_equal; unfold rd32, rd16; rewrite <- ?Nat.add_assoc, ?H0, ?H by lia; done.
Qed.

Lemma mk_IBLOCK i : 0 <= i < 200 -> IBLOCK i mk_sb = Z.of_nat (ib mk_sb i).
Proof. exact (IBLOCK_eq mk_sb 2 30 1000 i mk_layout). Qed.

Lemma entry_at v i x c : entry_ok v i x c -> inode_at v (Z.of_nat i + 1) = x.
Proof.
  intros [E1 (E2 & E3 & E4 & E5) _ _ _ E6 _ _ _ _]. unfold synced in E6. rewrite E1 in E6. unfold inode_at. etransitivity; [|exact E6].
  unfold get_dinode. cbn. by rewrite E1, E2, E3, E4, E5.
Qed.

(** The inode that is read back is the entry's. *)
Lemma rinode_spec (Q : inode -> mkfs -> Prop) E s i x c :
  mst s -> (i < 199)%nat -> entry_ok (view s) i x c -> Q x s -> wpx (rinode (Z.of_nat i + 1)) Q E s.
Proof.
  intros H Hi Ex HQ. unfold rinode. pose proof (mk_ib (Z.of_nat i + 1) ltac:(lia)) as Hb.
  rewrite mk_IBLOCK by lia. wp_step. apply rsect_spec; [apply H|lia|lia|]. rewrite Nat2Z.id. apply wpx_ret.
  fold (inode_at (view s) (Z.of_nat i + 1)). by rewrite (entry_at _ _ _ _ Ex).
Qed.

Lemma winode_spec (Q : unit -> mkfs -> Prop) E s x inum :
  mst s -> 0 <= inum < 200 -> length (i_addrs x) = 13%nat ->
  (forall s', mst s' -> kept s s' -> freeblock s' = freeblock s ->
     view s' = <[ib mk_sb inum := put_dinode (blk (view s) (ib mk_sb inum)) (dinode_off inum) x]> (view s) -> Q tt s') ->
  wpx (winode inum x) Q E s.
Proof.
  intros H Hi Ha HQ. unfold winode. pose proof (mk_ib inum Hi) as Hb.
  rewrite mk_IBLOCK by lia. wp_step. apply rsect_spec; [apply H|lia|lia|].
  rewrite Nat2Z.id. apply wsect_spec; [apply H|lia|]. pose proof (ms_free _ H).
  destruct (put_spec (Z.of_nat (ib mk_sb inum)) (put_dinode (blk (view s) (ib mk_sb inum)) (dinode_off inum) x) s) as [H1 E1]; [done|lia|lia| |].
  { unfold is_blk. rewrite length_put_dinode. apply blk_length; [by apply view_blks|]. rewrite length_view, (ms_len _ H). lia. }
  rewrite Nat2Z.id in E1. apply HQ; try done. apply put_kept. lia.
Qed.

(** ** Bytes *)

Lemma fbytes_new v x p : forall off, (forall i c, p !! i = Some c -> fbyte v x (off + Z.of_nat i) = c) -> fbytes v x off (length p) = p.
Proof.
  induction p as [|a p IH]; intros off H; [done|]. unfold fbytes in *. cbn [length zrange map]. f_equal.
  - rewrite <- (H 0%nat a) by done. f_equal. lia.
  - apply IH. intros i c Hi. rewrite <- (H (S i) c) by done. f_equal. lia.
Qed.

Lemma fbytes_same v x v' x' n : forall off, (forall o, off <= o < off + Z.of_nat n -> fbyte v' x' o = fbyte v x o) -> fbytes v' x' off n = fbytes v x off n.
Proof.
  induction n as [|n IH]; intros off H; [done|]. unfold fbytes in *. cbn [zrange map]. f_equal; [apply H; lia|]. apply IH. intros o Ho. apply H. lia.
Qed.

(** ** The other files *)

(** A file none of whose blocks has changed. *)
Lemma entry_kept v v' j y d :
  length v' = length v -> (forall b, owns v y b -> v' !! Z.to_nat b = v !! Z.to_nat b /\ used mk_sb v' b = true) ->
  (forall k, (k < 64)%nat -> dinode_byte mk_sb v' (i_inum y) k = dinode_byte mk_sb v (i_inum y) k) ->
  entry_ok v j y d -> entry_ok v' j y d /\ forall b, owns v' y b <-> owns v y b.
Proof.
  intros Hl Hb Hd [E1 E2 Ek F E3 E4 E5 E6 E7 E8].
  assert (Ef : forall k, faddr v' y k = faddr v y k).
  { intros k. apply faddr_ext. intros Hi. apply Hb. split; [done|]. by left. }
  assert (Ho : forall k, 0 <= k < MAXFILE -> faddr v y k <> 0 -> owns v y (faddr v y k)) by (intros k Hk Hz; split; [done|]; right; eauto).
  assert (Eb : forall o, 0 <= o < 71680 -> faddr v y (o / 512) <> 0 -> fbyte v' y o = fbyte v y o).
  { intros o Hr Hz. unfold fbyte, blk. rewrite Ef. destruct (Hb (faddr v y (o / 512))) as [-> _]; [|done]. apply Ho; [change MAXFILE with 140; dlia|done]. }
  pose proof (fo_size _ _ _ _ _ F) as Hs. change (MAXFILE * 512) with 71680 in Hs.
  split.
  - split; try done.
    + destruct F as [F1 F2 F3 F4 F5 F6 F7]. split; try done.
      * intros Hi. rewrite Hl. split; [by apply F3|]. apply Hb. split; [done|]. by left.
      * intros k Hk. rewrite Ef, Hl. intros Hz. destruct (F4 k Hk Hz) as (D & _ & N). split; [done|]. split; [|done]. by apply Hb, Ho.
      * intros k k' Hk Hk'. rewrite !Ef. by apply F5.
      * intros k Hk Hs0. rewrite Ef. by apply F7.
    + split; [apply E3|]. intros k Hk. rewrite Ef. by apply E3.
    + unfold synced in *. etransitivity; [|exact E4]. by apply get_dinode_ext.
    + etransitivity; [|exact E7]. apply fbytes_same. intros o Ho'. apply Eb; [lia|]. apply F; dlia.
    + intros o Hr. rewrite Ef. intros Hz. rewrite Eb by (done || lia). by apply E8.
  - intros b. unfold owns. by setoid_rewrite Ef.
Qed.

(** ** Appending to a file *)

Abbreviation mwritten := (written mk_sb 2 30).

Lemma written_entry v i x c p v' x' :
  layout mk_sb 2 30 (length v) -> entry_ok v i x c -> (i < 199)%nat -> (0 < length p)%nat -> high v' x' -> clean v' x' (i_size x') ->
  mwritten v x (Z.of_nat (length c)) p v' x' -> entry_ok v' i x' (c ++ p).
Proof.
  intros L [E1 E2 Ek F E3 E4 [R1 R2 R3 R4 R5 R6] E6 E7 E8] Hi Hp Hh Hc W. destruct (wn_inode _ _ _ _ _ _ _ _ _ W) as [l El]. pose proof (wn_ok _ _ _ _ _ _ _ _ _ W) as F'.
  assert (Hs : i_size x' = Z.of_nat (length (c ++ p))) by (rewrite El, length_app; cbn; lia).
  split; try done.
  - by rewrite El.
  - rewrite El. exact E2.
  - rewrite El. exact Ek.
  - by apply W.
  - split; try (rewrite El; done).
    + pose proof (fo_size _ _ _ _ _ F') as Hsz. change (MAXFILE * 512) with 71680 in Hsz. unfold is_u32. lia.
    + split; [apply F'|]. apply (file_addrs_u32 mk_sb 2 30 v'); [by rewrite (wn_len _ _ _ _ _ _ _ _ _ W)|done].
  - rewrite length_app, fbytes_app, Z.add_0_l. f_equal.
    + etransitivity; [|exact E7]. apply fbytes_same. intros o Ho. apply (wn_old _ _ _ _ _ _ _ _ _ W); lia.
    + apply fbytes_new. apply W.
Qed.

(** The other files, which have no block in common with this one. *)
Lemma written_others v i x c p v' x' j y d :
  entry_ok v i x c -> entry_ok v j y d -> i <> j -> (j < 199)%nat -> (forall b, owns v x b -> owns v y b -> False) ->
  mwritten v x (Z.of_nat (length c)) p v' x' ->
  (entry_ok v' j y d /\ forall b, owns v' y b <-> owns v y b) /\ forall b, owns v y b -> owns v' x' b -> False.
Proof.
  intros Ex Ey Hij Hj Hap W.
  assert (Hfor : forall b, owns v y b -> foreign mk_sb 2 30 v x b).
  { intros b Hb. assert (D : is_data mk_sb 2 30 (length v) b /\ used mk_sb v b = true).
    { destruct Hb as [Hz [->|(k & Hk & <-)]]; [by apply (fo_ind _ _ _ _ _ (en_file _ _ _ _ Ey))|].
      destruct (fo_blk _ _ _ _ _ (en_file _ _ _ _ Ey) k Hk Hz) as (D & U & _). done. }
    split; [apply D|]. split; [apply D|]. split.
    - intros ->. apply (Hap (ind x)); [|done]. destruct Hb. split; [done|]. by left.
    - intros k Hk E. apply (Hap b); [|done]. destruct Hb. split; [done|]. right. eauto. }
  split.
  - apply entry_kept; [apply W| | |done].
    + intros b Hb. destruct (wn_foreign _ _ _ _ _ _ _ _ _ W b (Hfor b Hb)) as [(_ & U & _) E]. done.
    + intros k Hk. apply (wn_inodes _ _ _ _ _ _ _ _ _ W); [rewrite (en_inum _ _ _ _ Ey); ilia|rewrite (en_inum _ _ _ _ Ey), (en_inum _ _ _ _ Ex); lia|done].
  - intros b Hb Ho. destruct (wn_foreign _ _ _ _ _ _ _ _ _ W b (Hfor b Hb)) as [(_ & _ & Ni & Nj) _].
    destruct Ho as [_ [->|(k & Hk & E)]]; [done|]. by apply (Nj k Hk).
Qed.

Lemma written_files v es i x c p v' x' :
  files_ok v es -> (length es < 200)%nat -> es !! i = Some (x, c) -> mwritten v x (Z.of_nat (length c)) p v' x' ->
  entry_ok v' i x' (c ++ p) -> files_ok v' (<[i := (x', c ++ p)]> es).
Proof.
  intros [Hen Hap] Hfew Hi W Ex'. pose proof (lookup_lt_Some _ _ _ Hi) as Hlt. pose proof (Hen i x c Hi) as Ex.
  assert (Ho : forall j y d, es !! j = Some (y, d) -> i <> j ->
    (entry_ok v' j y d /\ forall b, owns v' y b <-> owns v y b) /\ forall b, owns v y b -> owns v' x' b -> False).
  { intros j y d Hj Hne. pose proof (lookup_lt_Some _ _ _ Hj). apply (written_others v i x c p v' x' j y d); auto; [lia|].
    intros b H1 H2. by apply Hne, (Hap i j x c y d b). }
  split.
  - intros j y d Hj. destruct (decide (i = j)) as [<-|Hne].
    + rewrite list_lookup_insert_eq in Hj by done. by injection Hj as <- <-.
    + rewrite list_lookup_insert_ne in Hj by done. by apply Ho.
  - intros j k y d z e b Hj Hk Hb Hb'. destruct (decide (i = j)) as [<-|Hne], (decide (i = k)) as [<-|Hne']; [done|..].
    + rewrite list_lookup_insert_eq in Hj by done. injection Hj as <- <-. rewrite list_lookup_insert_ne in Hk by done.
      destruct (Ho k z e Hk Hne') as [[_ Hw] Hx]. apply Hw in Hb'. by destruct (Hx b).
    + rewrite list_lookup_insert_eq in Hk by done. injection Hk as <- <-. rewrite list_lookup_insert_ne in Hj by done.
      destruct (Ho j y d Hj Hne) as [[_ Hw] Hx]. apply Hw in Hb. by destruct (Hx b).
    + rewrite list_lookup_insert_ne in Hj, Hk by done. destruct (Ho j y d Hj Hne) as [[_ Hw] _], (Ho k z e Hk Hne') as [[_ Hw'] _].
      apply Hw in Hb. apply Hw' in Hb'. by eapply Hap.
Qed.

Lemma total_insert cs i c c' : cs !! i = Some c ->
  total (<[i := c']> cs) = total cs + (cost (Z.of_nat (length c')) - cost (Z.of_nat (length c))).
Proof.
  revert i. induction cs as [|e cs IH]; intros i Hi; [done|]. destruct i as [|i]; cbn in Hi.
  - injection Hi as ->. change (<[0%nat := ?a]> (?e :: cs)) with (a :: cs). unfold total. cbn [foldr]. lia.
  - change (<[S i := ?a]> (?e :: cs)) with (e :: <[i := a]> cs). unfold total in *. cbn [foldr]. rewrite (IH i Hi). lia.
Qed.

(** Writing an inode changes nothing of a file. *)
Lemma inode_write v x i d : mfile_ok v x -> 0 <= i < 200 ->
  (forall k, faddr (<[ib mk_sb i := d]> v) x k = faddr v x k) /\
  forall o, 0 <= o < 71680 -> faddr v x (o / 512) <> 0 -> fbyte (<[ib mk_sb i := d]> v) x o = fbyte v x o.
Proof.
  intros F Hi. assert (Ef : forall k, faddr (<[ib mk_sb i := d]> v) x k = faddr v x k) by (intros k; by apply (faddr_inode mk_sb 2 30)).
  split; [done|]. intros o Ho Hz. unfold fbyte. rewrite Ef, blk_insert_ne; [done|].
  destruct (fo_blk _ _ _ _ _ F (o / 512)) as (D & _); [change MAXFILE with 140; dlia|done|]. by apply (data_not_inode mk_sb 2 30 (length v)).
Qed.

(** Appending, and writing the inode. *)
Lemma appended_inv s es i x c p x1 s1 s2 :
  let y := set_isize (Z.of_nat (length c) + Z.of_nat (length p)) x1 in let m := ib mk_sb (Z.of_nat i + 1) in
  mk_inv s es -> es !! i = Some (x, c) -> (0 < length p)%nat -> appended s x (Z.of_nat (length c)) p x1 s1 ->
  mst s2 -> kept s1 s2 -> freeblock s2 = freeblock s1 -> view s2 = <[m := put_dinode (blk (view s1) m) (dinode_off (Z.of_nat i + 1)) y]> (view s1) ->
  mk_inv s2 (<[i := (y, c ++ p)]> es).
Proof.
  intros y m [H Hlow Hin Hfew Hf Hown Hct] Hi Hp [Hmax K1 H1 Hh1 W Hfb Hfle Ho Hc1] H2 K2 Hf2 E2.
  pose proof (fs_entry _ _ Hf i x c Hi) as Ex. pose proof (lookup_lt_Some _ _ _ Hi) as Hlt. pose proof (en_size _ _ _ _ Ex) as Hs.
  pose proof (en_inum _ _ _ _ Ex) as Hx. set (off := Z.of_nat (length c)) in *. assert (Hi' : 0 <= Z.of_nat i + 1 < 200) by lia.
  destruct (written_beyond mk_sb 2 30 (view s) x off p (view s1) x1) as [Fy Wn]; try done;
    [by apply view_layout|by apply view_blks|apply Ex|by rewrite Hx|apply Ex|rewrite Hs; lia|rewrite Hs; change (MAXFILE * 512) with 71680; lia|].
  fold y in Fy, Wn. rewrite Hx in Wn. fold m in Wn. rewrite <- E2 in Wn.
  destruct (inode_write (view s1) y (Z.of_nat i + 1) (put_dinode (blk (view s1) m) (dinode_off (Z.of_nat i + 1)) y) Fy Hi') as [Ef Eb].
  fold m in Ef, Eb. rewrite <- E2 in Ef, Eb.
  assert (Hoy : forall b, owns (view s1) x1 b -> owns (view s2) y b) by (intros b; unfold owns; by setoid_rewrite Ef).
  assert (Ey : entry_ok (view s2) i y (c ++ p)).
  { apply (written_entry (view s) i x c p); try done; [by apply view_layout|lia|..].
    - split; [apply Hh1|]. intros k Hk. rewrite Ef. by apply Hh1.
    - intros o Hr. change (i_size y) with (off + Z.of_nat (length p)) in Hr. rewrite Ef. intros Hz. rewrite Eb by (done || lia).
      apply Hc1; [rewrite <- Hs; apply Ex|done..]. }
  split.
  - done.
  - intros b Hb. rewrite (proj2 (kept_trans _ _ _ K1 K2) b Hb). by apply Hlow.
  - rewrite (proj1 (kept_trans _ _ _ K1 K2)), length_insert. done.
  - by rewrite length_insert.
  - by apply (written_files (view s) es i x c p).
  - intros b Hb. rewrite Hf2 in Hb. destruct (Z_lt_ge_dec b (freeblock s)) as [Hl|Hg].
    + destruct (Hown b) as (j & z & e & Hj & Hz); [lia|]. destruct (decide (i = j)) as [<-|Hne].
      * exists i, y, (c ++ p). rewrite list_lookup_insert_eq by done. split; [done|]. apply Hoy, Ho. left. congruence.
      * exists j, z, e. rewrite list_lookup_insert_ne by done. split; [done|]. pose proof (lookup_lt_Some _ _ _ Hj).
        eapply (written_others (view s) i x c p (view s2) y j z e); try done; [by apply Hf|lia|].
        intros b' H3 H4. by apply Hne, (fs_apart _ _ Hf i j x c z e b').
    + exists i, y, (c ++ p). rewrite list_lookup_insert_eq by done. split; [done|]. apply Hoy, Ho. right. lia.
  - rewrite list_fmap_insert. cbn [snd]. rewrite (total_insert _ _ c) by (by rewrite list_lookup_fmap, Hi).
    rewrite length_app, Nat2Z.inj_add, Hf2. fold off. lia.
Qed.

(** The disk holds the files [cs], in the order of their inodes. *)
Definition built (s : mkfs) (cs : list bytes) : Prop := exists es, mk_inv s es /\ es.*2 = cs.

(** The disk or the [i]-th file cannot take the bytes. *)
Definition toobig (cs : list bytes) (c : bytes) (msg : string) : Prop :=
  (msg = "assert"%string /\ 71680 < Z.of_nat (length c)) \/ (msg = "read"%string /\ 1000 < nmeta + total cs).

Lemma iappend_spec s cs i c p : built s cs -> cs !! i = Some c -> (0 < length p)%nat ->
  wpx (iappend (Z.of_nat i + 1) p) (fun _ s' => built s' (<[i := c ++ p]> cs)) (toobig (<[i := c ++ p]> cs) (c ++ p)) s.
Proof.
  intros (es & I & <-) Hi Hp. rewrite list_lookup_fmap in Hi. destruct (es !! i) as [[x c']|] eqn:Hx; [|done]. injection Hi as ->.
  pose proof I as [H _ _ Hfew Hf _ Hct]. pose proof (fs_entry _ _ Hf i x c Hx) as Ex. pose proof (lookup_lt_Some _ _ _ Hx) as Hlt.
  pose proof (en_file _ _ _ _ Ex) as F. pose proof (fo_size _ _ _ _ _ F) as Hsz. change (MAXFILE * 512) with 71680 in Hsz. rewrite (en_size _ _ _ _ Ex) in Hsz.
  unfold iappend. wp_step. apply (rinode_spec _ _ s i x c); [done|lia|done|]. rewrite (en_size _ _ _ _ Ex). set (off := Z.of_nat (length c)) in *.
  wp_step. eapply wpx_mono; [apply (iappend_loop_spec _ s x off p); [lia|done|done|apply Ex| |lia]| |].
  { intros k Hk Hs. apply F; [done|]. rewrite (en_size _ _ _ _ Ex). done. }
  2:{ intros msg. unfold nospace, toobig. rewrite (total_insert _ _ c) by (by rewrite list_lookup_fmap, Hx). rewrite length_app, Nat2Z.inj_add. fold off.
      intros [[-> ?]|[-> ?]]; [by left|]. right. split; [done|lia]. }
  intros [x1 o1] s1 [Eo AP]. cbn [fst snd] in *. subst o1. pose proof AP as [_ K1 H1 _ W _ _ _ _].
  apply winode_spec; [done|lia|apply (wr_ok _ _ _ _ _ _ _ _ _ W)|]. intros s2 H2 K2 Hf2 E2.
  exists (<[i := (set_isize (off + Z.of_nat (length p)) x1, c ++ p)]> es). split; [by apply (appended_inv s es i x c p x1 s1)|]. by rewrite list_fmap_insert.
Qed.

(** ** Allocating inodes *)

(** The inode [mk_ialloc] writes. *)
Definition new_inode (i : nat) : inode := set_itype (kind i) (set_inlink 1 (blank_inode (Z.of_nat i + 1))).

Lemma addr_new i k : addr_at (new_inode i) k = 0.
Proof.
  unfold addr_at. change (i_addrs (new_inode i)) with (replicate 13 0). destruct (replicate 13 0 !! Z.to_nat k) as [a|] eqn:E; [|done].
  by apply lookup_replicate in E as [-> _].
Qed.

Lemma faddr_new v i k : faddr v (new_inode i) k = 0.
Proof. unfold faddr, ind. rewrite !addr_new. by destruct (k <? NDIRECT). Qed.

Lemma owns_new v i b : ~ owns v (new_inode i) b.
Proof. unfold owns, ind. setoid_rewrite faddr_new. rewrite addr_new. intros [Hz [->|(k & _ & <-)]]; done. Qed.

Lemma new_range i : inode_range (new_inode i).
Proof. split; try done; [by destruct i|]. split; [done|]. by apply Forall_replicate. Qed.

Lemma new_entry v i : (i < 199)%nat -> (ib mk_sb (Z.of_nat i + 1) < length v)%nat -> Forall is_blk v ->
  let m := ib mk_sb (Z.of_nat i + 1) in
  entry_ok (<[m := put_dinode (blk v m) (dinode_off (Z.of_nat i + 1)) (new_inode i)]> v) i (new_inode i) [].
Proof.
  intros Hi Hm Hv m. set (d := put_dinode _ _ _). split; try done.
  - split; try done.
    + intros k Hk []. apply faddr_new.
    + intros j k Hj Hk []. apply faddr_new.
    + intros k Hk. change (i_size (new_inode i)) with 0. lia.
  - split; [intros []; apply addr_new|]. intros k Hk []. apply faddr_new.
  - unfold synced. change (i_inum (new_inode i)) with (Z.of_nat i + 1). fold m. rewrite blk_insert by done. apply get_put_dinode.
    + rewrite blk_length by done. apply dinode_off_le. lia.
    + apply new_range.
  - apply new_range.
  - intros o Hr []. apply faddr_new.
Qed.

(** Writing an inode changes no other file. *)
Lemma write_other v i x j y d : let m := ib mk_sb (Z.of_nat i + 1) in
  let v' := <[m := put_dinode (blk v m) (dinode_off (Z.of_nat i + 1)) x]> v in
  layout mk_sb 2 30 (length v) -> i_inum x = Z.of_nat i + 1 -> length (i_addrs x) = 13%nat -> (i < 199)%nat -> i <> j -> entry_ok v j y d ->
  entry_ok v' j y d /\ forall b, owns v' y b <-> owns v y b.
Proof.
  intros m v' L Hx Ha Hi Hne Ey. pose proof (en_file _ _ _ _ Ey) as F. destruct (ly_inode _ _ _ _ L (Z.of_nat i + 1)) as [Hm _]; [ilia|].
  apply (entry_kept v); [apply length_insert| | |done].
  - intros b [Hz Hb]. assert (D : is_data mk_sb 2 30 (length v) b /\ used mk_sb v b = true).
    { destruct Hb as [->|(k & Hk & <-)]; [by apply F|]. destruct (fo_blk _ _ _ _ _ F k Hk Hz) as (D & U & _). done. }
    destruct D as [D U]. split.
    + apply list_lookup_insert_ne. intros E. symmetry in E. revert E. apply (data_not_inode mk_sb 2 30 (length v)); [done|ilia].
    + unfold v', m. rewrite (used_inode mk_sb 2 30 (length v)); [done|done|ilia|by eapply data_range].
  - intros k Hk. pose proof (dinode_other mk_sb 2 30 (length v) v x (i_inum y) k L Ha) as Hd. rewrite Hx in Hd.
    apply Hd; rewrite ?(en_inum _ _ _ _ Ey); (done || lia).
Qed.

(** The files there are, after a new inode has been written. *)
Lemma new_files v es : let n := length es in let m := ib mk_sb (Z.of_nat n + 1) in
  layout mk_sb 2 30 (length v) -> Forall is_blk v -> files_ok v es -> (n < 199)%nat ->
  let v' := <[m := put_dinode (blk v m) (dinode_off (Z.of_nat n + 1)) (new_inode n)]> v in
  files_ok v' (es ++ [(new_inode n, [])]) /\ forall i x c b, es !! i = Some (x, c) -> owns v' x b <-> owns v x b.
Proof.
  intros n m L Hv [Hen Hap] Hn v'. destruct (ly_inode _ _ _ _ L (Z.of_nat n + 1)) as [Hm _]; [ilia|]. fold m in Hm.
  assert (Ho : forall i x c, es !! i = Some (x, c) -> entry_ok v' i x c /\ forall b, owns v' x b <-> owns v x b).
  { intros i x c Hi. pose proof (lookup_lt_Some _ _ _ Hi). apply (write_other v n (new_inode n)); try done; [lia|by apply Hen]. }
  split; [split|].
  - intros i x c Hi. apply lookup_app_Some in Hi as [Hi|[Hi Hx]]; [by apply Ho|]. apply list_lookup_singleton_Some in Hx as [Hx [= <- <-]].
    replace i with n by lia. by apply new_entry.
  - intros i j x c y e b Hi Hj Hb Hb'. apply lookup_app_Some in Hi as [Hi|[Hi Hx]]; apply lookup_app_Some in Hj as [Hj|[Hj Hy]].
    + apply (Ho i x c Hi) in Hb. apply (Ho j y e Hj) in Hb'. by eapply Hap.
    + apply list_lookup_singleton_Some in Hy as [_ [= <- <-]]. by apply owns_new in Hb'.
    + apply list_lookup_singleton_Some in Hx as [_ [= <- <-]]. by apply owns_new in Hb.
    + apply list_lookup_singleton_Some in Hx as [Hx _], Hy as [Hy _]. lia.
  - intros i x c b Hi. by apply (Ho i x c Hi).
Qed.

Lemma total_app cs cs' : total (cs ++ cs') = total cs + total cs'.
Proof. unfold total. induction cs as [|c cs IH]; cbn [foldr app]; [done|]. rewrite IH. lia. Qed.

Lemma mk_ialloc_spec s cs E : built s cs -> (length cs < 199)%nat ->
  wpx (mk_ialloc (kind (length cs))) (fun r s' => r = Z.of_nat (length cs) + 1 /\ built s' (cs ++ [[]])) E s.
Proof.
  intros (es & [H Hlow Hin Hfew Hf Hown Hct] & <-) Hn. rewrite length_map in *. unfold mk_ialloc. wp_step. apply wpx_gets. wp_step. apply wpx_modify.
  rewrite Hin, u32_small by (unfold is_u32; lia). set (n := length es) in *. set (s0 := mkMkfs _ _ _). change (view s) with (view s0) in *.
  assert (H0 : mst s0) by (destruct H; by split). wp_step. apply winode_spec; [done|lia|done|]. intros s2 H2 K2 Hf2 E2. wp_step. split; [done|].
  destruct (new_files (view s0) es) as [Hf' Ho]; [by apply view_layout|by apply view_blks|done|done|]. fold n in Hf', Ho. unfold new_inode in Hf', Ho. rewrite <- E2 in Hf', Ho.
  exists (es ++ [(new_inode n, [])]). split; [|by rewrite fmap_app]. split.
  - done.
  - intros b Hb. rewrite (proj2 K2 b Hb). by apply Hlow.
  - rewrite (proj1 K2), length_app. cbn. lia.
  - rewrite length_app. cbn. lia.
  - done.
  - intros b Hb. rewrite Hf2 in Hb. destruct (Hown b Hb) as (i & x & c & Hi & Hx). exists i, x, c.
    split; [by apply lookup_app_l_Some|]. by apply (Ho i x c b Hi).
  - rewrite fmap_app, total_app, Hf2. change (freeblock s0) with (freeblock s). change (total ([(new_inode n, [])].*2)) with 0. lia.
Qed.

(** ** The files given *)

Lemma length_bstrncpy n : forall l, length (bstrncpy l n) = n.
Proof. induction n as [|n IH]; intros l; cbn [bstrncpy]; [done|]. destruct (nz (rd8 l 0)); cbn [length]; [by rewrite IH|by rewrite length_replicate]. Qed.

Lemma length_dirent i name : length (dirent i name) = 16%nat.
Proof. unfold dirent, mk_dirent. by rewrite length_app, length_bstrncpy. Qed.

Lemma root_dir_snoc files f : root_dir (files ++ [f]) = root_dir files ++ dirent (Z.of_nat (length files) + 2) (bare f.1).
Proof.
  unfold root_dir. rewrite imap_app, concat_app. cbn [imap concat]. rewrite app_nil_r, <- !app_assoc. cbn [compose]. by rewrite Nat.add_0_r.
Qed.

Lemma length_root_dir files : length (root_dir files) = (16 * (length files + 2))%nat.
Proof.
  induction files as [|f files IH] using rev_ind; [done|]. rewrite root_dir_snoc, !length_app, IH, length_dirent. cbn [length]. lia.
Qed.

Lemma cost_nonneg n : 0 <= n -> 0 <= cost n.
Proof. intros Hn. unfold cost. zcases; dlia. Qed.

Lemma total_nonneg cs : 0 <= total cs.
Proof. unfold total. induction cs as [|c cs IH]; cbn [foldr]; [lia|]. pose proof (cost_nonneg (Z.of_nat (length c))). lia. Qed.

Lemma total_cons c cs : total (c :: cs) = cost (Z.of_nat (length c)) + total cs.
Proof. done. Qed.

(** More files need no less. *)
Lemma failure_app files files' msg : mk_failure files msg -> mk_failure (files ++ files') msg.
Proof.
  intros [[-> (f & Hf & H)]|[[-> (f & Hf & H)]|[-> H]]]; [left; split; [done|]; exists f; set_solver|right; left; split; [done|]; exists f; set_solver|].
  right; right. split; [done|]. unfold contents in *. rewrite !total_cons, map_app, total_app in *.
  pose proof (total_nonneg (map content files')). pose proof (cost_mono (Z.of_nat (length (root_dir files))) (Z.of_nat (length (root_dir (files ++ files'))))) as Hc.
  rewrite !length_root_dir, length_app in *. lia.
Qed.

Lemma append_reads_spec reads : forall s cs c, built s (cs ++ [c]) ->
  wpx (append_reads (Z.of_nat (length cs) + 1) reads) (fun _ s' => built s' (cs ++ [c ++ delivered reads]))
    (toobig (cs ++ [c ++ delivered reads]) (c ++ delivered reads)) s.
Proof.
  induction reads as [|p reads IH]; intros s cs c B; cbn [append_reads delivered]; [rewrite app_nil_r; by apply wpx_ret|].
  destruct (Nat.ltb_spec 0 (length p)) as [Hp|Hp]; [|rewrite app_nil_r; by apply wpx_ret].
  assert (Ei : forall c', <[length cs := c']> (cs ++ [c]) = cs ++ [c']) by (intros c'; by rewrite insert_app_r_alt, Nat.sub_diag by lia).
  wp_step. eapply wpx_mono; [apply (iappend_spec s (cs ++ [c]) (length cs) c p); [done|by apply list_lookup_middle|done]| |].
  - intros [] s1 B1. rewrite Ei in B1. rewrite app_assoc. by apply IH.
  - intros msg. rewrite Ei. rewrite app_assoc. set (c1 := c ++ p). set (c2 := c1 ++ delivered reads).
    assert (Hl : (length c1 <= length c2)%nat) by (unfold c2; rewrite length_app; lia).
    pose proof (cost_mono (Z.of_nat (length c1)) (Z.of_nat (length c2)) ltac:(lia)) as Hc.
    unfold toobig. rewrite !total_app, !total_cons. intros [[-> ?]|[-> ?]]; [left|right]; (split; [done|lia]).
Qed.

Lemma mk_file_spec s pre f : built s (contents pre) -> (length pre < 198)%nat ->
  wpx (mk_file f) (fun _ s' => built s' (contents (pre ++ [f]))) (mk_failure (pre ++ [f])) s.
Proof.
  intros B Hn. assert (Hin : f ∈ pre ++ [f]) by set_solver. unfold mk_file. destruct (existsb (Z.eqb 47) f.1) eqn:Es.
  { apply wpx_panic. left. split; [done|]. exists f. split; [done|]. left. apply existsb_exists in Es as (y & Hy & E). apply Z.eqb_eq in E as <-. by apply list_elem_of_In. }
  destruct f.2 as [reads|] eqn:Er; [|apply wpx_panic; right; left; eauto].
  assert (Ec : content f = delivered reads) by (unfold content; by rewrite Er).
  assert (El : length (contents pre) = S (length pre)) by (unfold contents; cbn [length]; by rewrite length_map).
  assert (Et : contents (pre ++ [f]) = root_dir (pre ++ [f]) :: map content pre ++ [content f]) by (unfold contents; by rewrite map_app).
  pose proof (length_root_dir (pre ++ [f])) as Hr. rewrite length_app in Hr. cbn [length] in Hr.
  wp_step. pose proof (mk_ialloc_spec s (contents pre) (mk_failure (pre ++ [f])) B) as H. rewrite El in H. eapply wpx_mono; [apply H; lia| |done].
  intros inum s1 [-> B1]. rewrite (Z.mod_small (_ + 1)) by lia. fold (dirent (Z.of_nat (S (length pre)) + 1) (bare f.1)).
  replace (Z.of_nat (S (length pre)) + 1) with (Z.of_nat (length pre) + 2) by lia. wp_step.
  eapply wpx_mono; [apply (iappend_spec s1 (contents pre ++ [[]]) 0 (root_dir pre)); [done|done|rewrite length_dirent; lia]| |].
  - rewrite <- root_dir_snoc. change (<[0%nat := ?c]> (contents pre ++ [[]])) with (c :: map content pre ++ [[]]).
    intros [] s2 B2. pose proof (append_reads_spec reads s2 (root_dir (pre ++ [f]) :: map content pre) [] B2) as Ha.
    cbn [length] in Ha. rewrite length_map in Ha. replace (Z.of_nat (length pre) + 2) with (Z.of_nat (S (length pre)) + 1) by lia.
    eapply wpx_mono; [exact Ha| |].
    + intros [] s3 B3. by rewrite Et, Ec.
    + intros msg [[-> Hm]|[-> Hm]]; [left|right; right]; (split; [done|]); [|by rewrite Et, Ec].
      exists f. split; [done|]. right. by rewrite Ec.
  - rewrite <- root_dir_snoc. change (<[0%nat := ?c]> (contents pre ++ [[]])) with (c :: map content pre ++ [[]]).
    intros msg [[-> Hm]|[-> Hm]]; [lia|]. right; right. split; [done|]. rewrite Et. rewrite !total_cons, !total_app in *.
    pose proof (total_nonneg [content f]). change (total [[]]) with 0 in Hm. lia.
Qed.

Lemma mk_files_spec rest : forall s pre, built s (contents pre) -> (length (pre ++ rest) <= 198)%nat ->
  wpx (mfor rest mk_file) (fun _ s' => built s' (contents (pre ++ rest))) (mk_failure (pre ++ rest)) s.
Proof.
  induction rest as [|f rest IH]; intros s pre B Hn; cbn [mfor]; [rewrite app_nil_r; by apply wpx_ret|].
  rewrite cons_middle, app_assoc in *. rewrite !length_app in Hn. cbn [length] in Hn.
  wp_step. eapply wpx_mono; [apply (mk_file_spec s pre f B); lia| |].
  - intros [] s1 B1. apply IH; [done|]. rewrite !length_app. cbn [length]. lia.
  - intros msg. apply failure_app.
Qed.

(** ** The start and the end *)

Definition empty_disk : mkfs := mkMkfs (<[1%nat := sb_block mk_sb]> (replicate 1000 zero_blk)) 1 nmeta.

Lemma zero_spec (Q : unit -> mkfs -> Prop) E :
  Q tt (mkMkfs (replicate 1000 zero_blk) 1 nmeta) -> wpx (mfor (zrange 0 (Z.to_nat FSSIZE)) (fun i => wsect i zero_blk)) Q E mk_start.
Proof.
  intros HQ. eapply wpx_mono; [apply (wpx_zrange _ (fun i s => s = mkMkfs (replicate (Z.to_nat i) zero_blk) 1 nmeta) never)| |done].
  - intros i s Hi ->. unfold wsect. apply wpx_modify. cbn [img set_img freeinode freeblock]. rewrite length_replicate, Nat.ltb_irrefl, Nat.sub_diag.
    unfold set_img. cbn [freeinode freeblock replicate app]. f_equal. rewrite Z2Nat.inj_add, Nat.add_comm by lia. cbn [Z.to_nat Pos.to_nat Pos.iter_op].
    change (Z.to_nat 1 + Z.to_nat i)%nat with (S (Z.to_nat i)). by rewrite replicate_S_end.
  - done.
  - by intros [] s ->.
Qed.

Lemma empty_built : built empty_disk [].
Proof.
  exists []. split; [|done]. assert (Hz : forall b, (b < 1000)%nat -> img empty_disk !! b = Some (if (b =? 1)%nat then sb_block mk_sb else zero_blk)).
  { intros b Hb. cbn [img empty_disk]. destruct (Nat.eqb_spec b 1) as [->|Hne]; [by rewrite list_lookup_insert_eq by (rewrite length_replicate; lia)|].
    rewrite list_lookup_insert_ne by done. by apply lookup_replicate_2. }
  split; try done.
  - split.
    + cbn [img empty_disk]. by rewrite length_insert, length_replicate.
    + apply Forall_insert; [by apply Forall_replicate|done].
    + change (freeblock empty_disk) with 59. lia.
    + intros b Hb. change (freeblock empty_disk) with 59 in Hb. rewrite Hz by lia. by rewrite (proj2 (Nat.eqb_neq _ _)) by lia.
  - intros b Hb. apply Hz. lia.
  - cbn. lia.
  - intros b Hb. change (freeblock empty_disk) with 59 in Hb. lia.
Qed.

Lemma root_owns v (x : inode) sz b : owns v (set_isize sz x) b <-> owns v x b.
Proof. done. Qed.

(** The directory with its size rounded up. *)
Lemma root_image v x c (sz := (Z.of_nat (length c) / 512 + 1) * 512) (y := set_isize sz x)
    (v' := <[ib mk_sb 1 := put_dinode (blk v (ib mk_sb 1)) (dinode_off 1) y]> v) :
  layout mk_sb 2 30 (length v) -> Forall is_blk v -> entry_ok v 0 x c -> Z.of_nat (length c) < 71680 ->
  inode_at v' 1 = y /\ fbytes v' y 0 (length c) = c /\ clean v' y (Z.of_nat (length c)) /\
  (Z.of_nat (length c) mod 512 <> 0 -> mfile_ok v' y) /\ forall b, owns v' y b <-> owns v x b.
Proof.
  intros L Hv [E1 (E2 & E3 & E4 & E5) Ek F Eh Es [R1 R2 R3 R4 R5 R6] E6 E7 E8] Hc.
  destruct (ly_inode _ _ _ _ L 1) as [Hm _]; [ilia|]. destruct (inode_write v x 1 (put_dinode (blk v (ib mk_sb 1)) (dinode_off 1) y) F) as [Ef Eb]; [lia|]. fold v' in Ef, Eb.
  assert (Hsz : 0 <= sz <= 71680) by (unfold sz; dlia).
  assert (Hal : forall o, 0 <= o < Z.of_nat (length c) -> faddr v x (o / 512) <> 0) by (intros o Ho; apply F; [|rewrite E6]; dlia).
  split; [|split; [|split; [|split]]].
  - assert (Hg : get_dinode (blk v' (ib mk_sb 1)) (dinode_off 1) y = y).
    { unfold v'. rewrite blk_insert by done. apply get_put_dinode; [rewrite blk_length by done; apply dinode_off_le; lia|].
      split; try done. unfold is_u32. cbn. lia. }
    etransitivity; [|exact Hg]. unfold inode_at, get_dinode. cbn. change (Z.of_nat 0 + 1) with 1 in E1. by rewrite E1, E2, E3, E4, E5.
  - etransitivity; [|exact E7]. apply fbytes_same. intros o Ho. apply Eb; [lia|]. apply Hal. lia.
  - intros o Hr Hz. change (faddr v' x (o / 512) <> 0) in Hz. rewrite Ef in Hz. change (fbyte v' x o = 0). rewrite Eb by (done || lia). apply E8; [lia|done].
  - intros Hmod. apply file_ok_inode; [done| |ilia]. apply file_ok_size; [done|change (MAXFILE * 512) with 71680; lia|].
    intros k Hk Hks. apply F; [done|]. rewrite E6. unfold sz in Hks. dlia.
  - intros b. unfold y. rewrite root_owns. unfold owns. by setoid_rewrite Ef.
Qed.

(** The image that the invariant and the last writes give. *)
Lemma built_image s files s2 (x := inode_at (view s) 1)
    (y := set_isize ((Z.of_nat (length (root_dir files)) / 512 + 1) * 512) x) :
  built s (contents files) -> (length files <= 198)%nat -> mst s2 -> kept s s2 -> freeblock s2 = freeblock s ->
  view s2 = <[ib mk_sb 1 := put_dinode (blk (view s) (ib mk_sb 1)) (dinode_off 1) y]> (view s) -> image_ok (view s2) files.
Proof.
  intros (es & [H Hlow Hin Hfew Hf Hown Hct] & Ees) Hn H2 K2 Hf2 E2. pose proof (view_layout s H) as L.
  assert (Hes : length es = S (length files)) by (rewrite <- (length_map snd es); change (map snd es) with es.*2; rewrite Ees; cbn [contents length]; by rewrite length_map).
  assert (Hnth : forall i, (i <= length files)%nat -> exists z, es !! i = Some (z, default [] (contents files !! i))).
  { intros i Hi. destruct (lookup_lt_is_Some_2 es i) as [[z c] Hz]; [lia|]. exists z. rewrite <- Ees, list_lookup_fmap, Hz. done. }
  destruct (Hnth 0%nat) as [x0 Hx0]; [lia|]. change (default [] (contents files !! 0%nat)) with (root_dir files) in Hx0. pose proof (fs_entry _ _ Hf _ _ _ Hx0) as Ex. pose proof (entry_at _ _ _ _ Ex) as Eat.
  change (Z.of_nat 0 + 1) with 1 in Eat. fold x in Eat. subst x0. pose proof (length_root_dir files) as Hlen.
  destruct (root_image (view s) x (root_dir files) L (view_blks s H) Ex) as (Ey & Eb & Ec & Efo & Eo); [lia|]. fold y in Ey, Eb, Ec, Efo, Eo. rewrite <- E2 in Ey, Eb, Ec, Efo, Eo.
  assert (Hoth : forall i z c, es !! S i = Some (z, c) -> entry_ok (view s2) (S i) z c /\ forall b, owns (view s2) z b <-> owns (view s) z b).
  { intros i z c Hz. rewrite E2. apply (write_other (view s) 0 y); try done; [lia|by apply Hf]. }
  (* an inode of the image belongs to an entry *)
  assert (Hino : forall i, 1 <= i <= Z.of_nat (length files) + 1 -> exists z c, es !! Z.to_nat (i - 1) = Some (z, c) /\
    forall b, owns (view s2) (inode_at (view s2) i) b <-> owns (view s) z b).
  { intros i Hi. destruct (Hnth (Z.to_nat (i - 1))) as [z Hz]; [lia|]. exists z, (default [] (contents files !! Z.to_nat (i - 1))). split; [done|]. destruct (Z.to_nat (i - 1)) as [|k] eqn:Ek.
    - replace i with 1 by lia. rewrite Hx0 in Hz. injection Hz as <-. rewrite Ey. exact Eo.
    - destruct (Hoth k z _ Hz) as [Ez Hoz]. pose proof (entry_at _ _ _ _ Ez) as Eatz. replace (Z.of_nat (S k) + 1) with i in Eatz by lia. by rewrite Eatz. }
  split.
  - split; [by rewrite length_view, (ms_len _ H2)|by apply view_blks].
  - unfold blk. rewrite lookup_view, (proj2 K2), Hlow by lia. reflexivity.
  - intros b Hb. unfold blk. rewrite lookup_view, (proj2 K2), Hlow by lia. by rewrite (proj2 (Nat.eqb_neq _ _)) by lia.
  - cbv zeta. rewrite Ey. destruct (en_kind _ _ _ _ Ex) as (Kt & _ & _ & Kn). done.
  - intros j f Hj. cbv zeta. pose proof (lookup_lt_Some _ _ _ Hj). destruct (Hnth (S j)) as [z Hz]; [lia|].
    assert (Ecf : default [] (contents files !! S j) = content f) by (change (contents files !! S j) with ((content <$> files) !! j); by rewrite list_lookup_fmap, Hj).
    rewrite Ecf in Hz. destruct (Hoth j z _ Hz) as [Ez _]. pose proof (entry_at _ _ _ _ Ez) as Eatz. replace (Z.of_nat (S j) + 1) with (Z.of_nat j + 2) in Eatz by lia.
    rewrite Eatz. destruct Ez as [_ _ (Kt & _ & _ & Kn) Fz _ _ _ Sz Bz _]. done.
  - intros i j b Hi Hj Hb Hb'. destruct (Hino i Hi) as (z & c & Hz & Ho), (Hino j Hj) as (z' & c' & Hz' & Ho'). apply Ho in Hb. apply Ho' in Hb'.
    pose proof (fs_apart _ _ Hf _ _ _ _ _ _ b Hz Hz' Hb Hb'). lia.
  - intros b Hb. rewrite used_view, Hf2, Z.ltb_lt by done. change nmeta with 59. split.
    + intros Hlt. destruct (Z_lt_ge_dec b 59) as [|Hge]; [by left|right]. destruct (Hown b) as (i & z & c & Hz & Ho); [lia|].
      pose proof (lookup_lt_Some _ _ _ Hz). exists (Z.of_nat i + 1). split; [lia|]. destruct (Hino (Z.of_nat i + 1)) as (z' & c' & Hz' & Ho'); [lia|].
      apply Ho'. replace (Z.to_nat (Z.of_nat i + 1 - 1)) with i in Hz' by lia. congruence.
    + pose proof (ms_free _ H). intros [Hlt|(i & Hi & Ho)]; [lia|]. destruct (Hino i Hi) as (z & c & Hz & Ho'). apply Ho' in Ho.
      pose proof (en_file _ _ _ _ (fs_entry _ _ Hf _ _ _ Hz)) as F. destruct Ho as [Hnz [->|(k & Hk & <-)]].
      * destruct (fo_ind _ _ _ _ _ F Hnz) as [D U]. by apply (own_block s).
      * destruct (fo_blk _ _ _ _ _ F k Hk Hnz) as (D & U & _). by apply (own_block s).
Qed.

Lemma mk_finish_spec s files E : built s (contents files) -> (length files <= 198)%nat ->
  wpx (let! din := rinode ROOTINO in
       let off := (i_size din / Z.of_nat BSIZE + 1) * Z.of_nat BSIZE in
       do! winode ROOTINO (set_isize off din) in
       let! fb := gets freeblock in
       mk_balloc fb) (fun _ s' => image_ok (img s') files) E s.
Proof.
  intros B Hn. pose proof B as (es & I & Ees). pose proof I as [H _ _ _ Hf _ _]. destruct es as [|[x c] es]; [done|]. injection Ees as -> Ees.
  pose proof (fs_entry _ _ Hf 0 x _ eq_refl) as Ex. pose proof (entry_at _ _ _ _ Ex) as Eat. change (Z.of_nat 0 + 1) with 1 in Eat.
  wp_step. apply (rinode_spec _ _ s 0 x (root_dir files)); [done|lia|done|]. rewrite (en_size _ _ _ _ Ex). cbv zeta. change (Z.of_nat BSIZE) with 512.
  apply wpx_bind. apply winode_spec; [done|unfold ROOTINO; lia|apply (en_file _ _ _ _ Ex)|]. intros s2 H2 K2 Hf2 E2. wp_step. apply wpx_gets.
  unfold mk_balloc. pose proof (ms_free _ H2). rewrite (proj2 (Z.ltb_lt _ _)) by (change (Z.of_nat BSIZE * 8) with 4096; lia).
  apply wsect_spec; [apply H2|done|]. change (img (put (sb_bmapstart mk_sb) (bits (Z.to_nat (freeblock s2))) s2)) with (view s2).
  apply (built_image s files s2); try done. rewrite Eat. exact E2.
Qed.

(** The whole run of mkfs. *)
Lemma mk_main_spec files : (length files <= 198)%nat ->
  wpx (mk_main files) (fun _ s => image_ok (img s) files) (mk_failure files) mk_start.
Proof.
  intros Hn. unfold mk_main. wp_step. apply zero_spec. wp_step. apply wsect_spec; [by apply length_replicate|lia|].
  change (put 1 _ _) with empty_disk. pose proof empty_built as B0.
  wp_step. change T_DIR with (kind (length (@nil bytes))). eapply wpx_mono; [apply (mk_ialloc_spec _ [] never B0); cbn; lia| |done].
  intros r s1 [-> B1]. change (negb _) with false. cbn [length app] in *. change (Z.of_nat 0 + 1) with 1 in *.
  assert (Hsmall : forall s c k, built s [c] -> length c = (16 * k)%nat -> (k < 3)%nat -> forall nm,
    wpx (iappend 1 (dirent 1 nm)) (fun _ s' => built s' [c ++ dirent 1 nm]) (mk_failure files) s).
  { intros s c k B Hl Hk nm. eapply wpx_mono; [apply (iappend_spec s [c] 0 c (dirent 1 nm)); [done|done|rewrite length_dirent; lia]|done|].
    assert (Hc : length (c ++ dirent 1 nm) = (16 * (k + 1))%nat) by (rewrite length_app, length_dirent; lia).
    change (<[0%nat := ?d]> [c]) with [d]. unfold toobig. rewrite total_cons, Hc. change (total []) with 0. change nmeta with 59.
    intros msg [[_ ?]|[_ Hb]]; [lia|]. unfold cost in Hb. exfalso. revert Hb. zcases; dlia. }
  wp_step. eapply wpx_mono; [apply (Hsmall s1 [] 0%nat B1); (done || lia)| |done]. intros [] s2 B2.
  wp_step. eapply wpx_mono; [apply (Hsmall s2 _ 1%nat B2); (done || lia)| |done]. intros [] s3 B3.
  wp_step. eapply wpx_mono; [apply (mk_files_spec files s3 []); [done|done]| |done]. intros [] s4 B4.
  by apply mk_finish_spec.
Qed.

(** ** Theorems *)

(** C20: mkfs makes the file system it is asked for: with at most 198 files, it
    either gives up for a named reason - a slash in a name, a file that cannot
    be opened or is longer than 140 blocks, a full disk - or leaves an image with
    the right superblock and an empty log, in which the root directory has the
    entries and every inode the bytes of its file, no block has two owners, and
    the bitmap marks exactly the metadata and the blocks of the files. *)
Theorem mkfs_image files : (length files <= 198)%nat ->
  wpx (mk_main files) (fun _ s => image_ok (img s) files) (mk_failure files) mk_start.
Proof. apply mk_main_spec. Qed.

Definition mk_demo : list (bytes * option (list bytes)) :=
  [([95; 99; 97; 116], Some [replicate 512 7; replicate 100 8; []]); ([82], Some [[104; 105]])].

Lemma mk_demo_fits msg : ~ mk_failure mk_demo msg.
Proof.
  intros [[_ (f & Hf & H)]|[[_ (f & Hf & H)]|[_ H]]]; [| |by vm_compute in H]; unfold mk_demo in Hf; rewrite !elem_of_cons in Hf;
    destruct Hf as [->|[->|Hf]]; try done; try (by apply not_elem_of_nil in Hf);
    (destruct H as [H|H]; [apply list_elem_of_In in H; cbn in H; lia|by vm_compute in H]).
Qed.

Lemma mkfs_image_witness : exists r s, mk_main mk_demo mk_start = Ret r s /\ image_ok (img s) mk_demo.
Proof.
  apply (wp_run (mk_main mk_demo) (fun _ s => image_ok (img s) mk_demo) mk_start).
  apply (wpx_mono (mk_main mk_demo) _ _ _ _ mk_start (mkfs_image mk_demo ltac:(cbn; lia))); [done|exact mk_demo_fits].
Defined.

(** With 30 files the entries fill a block, and the size of the root directory
    covers a second block that it does not have. *)
Example root_beyond :
  match mk_main (replicate 30 ([97], Some [])) mk_start with
  | Ret _ s => let x := inode_at (img s) 1 in i_size x = 1024 /\ faddr (img s) x 1 = 0
  | _ => False
  end.
Proof. vm_compute. done. Qed.
