(* ===== verification/MkfsBoot.v ===== *)
(** * From mkfs to a running kernel (src/mkfs.c, src/fs.c, src/log.c)

    The kernel boots from the image that mkfs makes, finds every file under its
    name in the root directory, and reads back the bytes that were given. *)

From S2P Require Import Prelude.
From S2P Require Import Bytes.
From S2P Require Import Sleeplock.
From S2P Require Import Bio.
From S2P Require Import Log.
From S2P Require Import LogSpec.
From S2P Require Import LogTheorems.
From S2P Require Import Path.
From S2P Require Import Fs.
From S2P Require Import FsBlock.
From S2P Require Import FsFile.
From S2P Require Import FsWrite.
From S2P Require Import FsDir.
From S2P Require Import File.
From S2P Require Import FsTheorems.
From S2P Require Import FsBoot.
From S2P Require Import Ide.
From S2P Require Import Mkfs.
From S2P Require Import MkfsTheorems.

Open Scope Z_scope.

(** A read of a file by its name, the way [exec] reads a program. *)
Definition read_path `{DevSw} (cwd : nat) (path : bytes) (off n : Z) : M fsys (Z * bytes) :=
  let! r := namei cwd path in
  match r with
  | None => ret (-1, [])
  | Some ip =>
      do! ilock ip in
      let! r := readi ip off n in
      do! iunlockput ip in
      ret r
  end.

Definition boot_and_read `{DevSw} (path : bytes) (off n : Z) : M fsys (Z * bytes) :=
  do! (do! fs_boot in inlog begin_op) in
  read_path 0 path off n.

(** The entries of the root directory. *)
Definition entries (files : list (bytes * option (list bytes))) : list bytes :=
  dirent 1 [46] :: dirent 1 [46; 46] :: imap (fun i f => dirent (Z.of_nat i + 2) (bare f.1)) files.

(** The name a file has on the disk. *)
Definition disk_name (f : bytes * option (list bytes)) : bytes := take DIRSIZ (bare f.1).

(** The inodes of the image. *)
Definition given (files : list (bytes * option (list bytes))) (i : Z) : Prop := 1 <= i <= Z.of_nat (length files) + 1.

(** * Lemmas *)

(** ** Reading by name *)

Lemma read_path_spec sb st sz v cx bs `{DevSw} L f cwd icwd path i off n :
  tree sb st sz v L -> layout sb st sz (length v) -> bitmap_ok sb st sz v -> room sz bs ∅ 6 -> fs_ok sb st sz v cx bs None f ->
  L ROOTINO -> (rd8 path 0 <> SLASH -> live f cwd icwd /\ L icwd) -> is_path path ->
  resolve sb v (start icwd path) (take DIRSIZ <$> elems path) = Some i -> i_type (disk_inode sb v i) <> T_DEV -> is_u32 off -> is_u32 n ->
  let x := disk_inode sb v i in
  wpx (read_path cwd path off n) (fun r f' => fs_ok sb st sz v cx bs None f' /\ held (icache f') = held (icache f) /\
    r = if decide (off <= i_size x /\ off + n < 4294967296)
        then (Z.min n (i_size x - off), fbytes v x off (Z.to_nat (Z.min n (i_size x - off))))
        else (-1, [])) (no_inodes (held (icache f) + 1)) f.
Proof.
  intros Te Ly B R Hf Hroot Hcwd Hp Hres Ht Ho Hn x. unfold read_path, namei. wp_step. wp_step.
  eapply wpx_mono; [apply (namex_spec sb st sz v cx bs L f cwd icwd path false (replicate DIRSIZ 0)); done| |done].
  unfold namex_post, outcome. rewrite Hres. intros r f2 (f1 & Hc & Hf2 & Hc2 & (ip & Er & Hlv & HL) & _). apply wpx_ret. rewrite Er. wp_step.
  eapply wpx_mono; [apply (ilock_spec sb st sz v cx bs L f2 ip i never Te Ly); [unfold room in *; lia|done..]| |done]. intros _ f3 (Hf3 & Hlk3 & Hc3). wp_step.
  eapply wpx_mono; [apply (read_locked sb st sz v cx bs L Te Ly B R f3 ip i off n); done| |done]. fold x. intros r4 f4 (Hf4 & Hlk4 & Hc4 & ->). wp_step.
  eapply wpx_mono; [apply (iunlockput_spec sb st sz v cx bs L Te ip i f4 never Hf4 Hlk4 HL)| |done]. intros _ f5 (Hf5 & Hc5 & _). apply wpx_ret.
  split; [done|]. split; [|done].
  assert (Hcnt : counted f (start icwd path) 0 f5).
  { intros j. rewrite Hc5, Hc4, Hc3, Hc2, Hc. destruct (j =? start icwd path), (j =? i); lia. }
  rewrite (counted_held _ _ _ _ Hcnt). lia.
Qed.

(** ** Directory entries *)

Lemma root_dir_entries files : root_dir files = concat (entries files).
Proof. done. Qed.

Lemma entries_16 files : Forall (fun e => length e = 16%nat) (entries files).
Proof.
  unfold entries. repeat (apply Forall_cons; split; [apply length_dirent|]). apply Forall_lookup. intros i e He.
  rewrite list_lookup_imap in He. destruct (files !! i); [|done]. injection He as <-. apply length_dirent.
Qed.

(** The entries of a directory, one by one. *)
Lemma fbytes_chunks v x l : forall off k e, Forall (fun e => length e = 16%nat) l -> fbytes v x off (length (concat l)) = concat l ->
  l !! k = Some e -> fbytes v x (off + 16 * Z.of_nat k) 16 = e.
Proof.
  induction l as [|a l IH]; intros off k e Hl H Hk; [done|]. apply Forall_cons in Hl as [Ha Hl]. cbn [concat] in H.
  rewrite length_app, Ha, fbytes_app in H. apply app_inj_1 in H as [H1 H2]; [|unfold fbytes; by rewrite length_map, length_zrange].
  destruct k as [|k]; [injection Hk as <-; rewrite Z.add_0_r; done|]. rewrite <- (IH (off + Z.of_nat 16) k e Hl H2 Hk). f_equal. lia.
Qed.

Lemma find_name_first nm l : forall k off e, l !! k = Some e -> de_inum e <> 0 -> name_of (de_name e) = nm ->
  (forall i e', (i < k)%nat -> l !! i = Some e' -> name_of (de_name e') <> nm) -> find_name nm off l = Some (de_inum e, off + 16 * Z.of_nat k).
Proof.
  induction l as [|a l IH]; intros k off e Hk Hz Hnm Hno; [done|]. cbn [find_name]. destruct k as [|k].
  - injection Hk as ->. rewrite (proj2 (Z.eqb_neq _ _) Hz), bool_decide_eq_true_2 by done. cbn. by rewrite Z.add_0_r.
  - rewrite bool_decide_eq_false_2, andb_false_r by (apply (Hno 0%nat a); [lia|done]). rewrite (IH k (off + 16) e); try done; [do 2 f_equal; lia|].
    intros i e' Hi. apply (Hno (S i)). lia.
Qed.

Lemma name_bstrncpy n : forall nm, cut_nul (bstrncpy nm n) = cut_nul (take n nm).
Proof.
  induction n as [|n IH]; intros nm; [done|]. cbn [bstrncpy]. unfold nz. destruct nm as [|c nm]; [done|]. change (rd8 (c :: nm) 0) with c. cbn [take cut_nul tail].
  destruct (Z.eqb_spec c 0) as [->|Hc]; [done|]. cbn [negb cut_nul]. by rewrite (proj2 (Z.eqb_neq _ _) Hc), IH.
Qed.

Lemma cut_path nm : is_path nm -> cut_nul nm = nm.
Proof. induction 1 as [|c nm Hc Hnm IH]; [done|]. cbn [cut_nul]. by rewrite (proj2 (Z.eqb_neq _ _) Hc), IH. Qed.

Lemma name_dirent i nm : is_path nm -> name_of (de_name (dirent i nm)) = take DIRSIZ nm.
Proof.
  intros Hp. unfold name_of. replace (take DIRSIZ (de_name (dirent i nm))) with (bstrncpy nm DIRSIZ).
  - rewrite name_bstrncpy. by apply cut_path, Forall_take.
  - unfold de_name, dirent, mk_dirent, slice, le16. cbn [app drop]. rewrite take_take, Nat.min_id, take_ge; [done|]. by rewrite drop_0, length_bstrncpy.
Qed.

Lemma inum_dirent i nm : 0 <= i < 65536 -> de_inum (dirent i nm) = i.
Proof.
  intros Hi. unfold de_inum, dirent, mk_dirent, rd16, le16. cbn [app]. change (rd8 (?a :: _) 0) with a. change (rd8 (_ :: ?b :: _) (0 + 1)) with b. dlia.
Qed.

(** ** The image *)

Section image.
Context (files : list (bytes * option (list bytes))) (v : list bytes).
Hypothesis Hn : (length files <= 198)%nat.
Hypothesis Himg : image_ok v files.

Lemma image_bootable : bootable 2 30 v zero_blk [] [].
Proof.
  destruct (io_len _ _ Himg) as [Hl Hb]. pose proof (io_super _ _ Himg) as Hs.
  destruct (lookup_lt_is_Some_2 v 1) as [d Hd]; [lia|]. destruct (lookup_lt_is_Some_2 v 2) as [h Hh]; [lia|].
  pose proof (io_log _ _ Himg 2%nat ltac:(lia)) as Hz. unfold blk in Hs, Hz. rewrite Hd in Hs. rewrite Hh in Hz. cbn [default id] in Hs, Hz.
  split; try done.
  - rewrite Hl. unfold LOGSIZE. lia.
  - exists d. split; [done|]. by injection Hs.
  - by rewrite Hh, Hz.
  - cbn. lia.
  - intros m Hm. by apply elem_of_nil in Hm.
Qed.

Lemma image_view : <[2%nat := clear_header zero_blk]> v = v.
Proof.
  destruct (io_len _ _ Himg) as [Hl Hb]. destruct (lookup_lt_is_Some_2 v 2) as [h Hh]; [lia|].
  pose proof (io_log _ _ Himg 2%nat ltac:(lia)) as Hz. unfold blk in Hz. rewrite Hh in Hz. cbn [default id] in Hz. change (clear_header zero_blk) with zero_blk.
  apply list_insert_id. by rewrite Hh, Hz.
Qed.

Lemma image_bitmap : bitmap_ok mk_sb 2 30 v.
Proof.
  intros b Hb Hu. change (sb_size mk_sb) with 1000 in Hb. rewrite (proj1 (io_len _ _ Himg)). apply mk_data.
  destruct (Z_lt_ge_dec b 59) as [Hlt|]; [|lia]. assert (used mk_sb v b = true) by (apply (io_bitmap _ _ Himg b Hb); by left). congruence.
Qed.

Lemma inode_at_disk i : inode_at v i = disk_inode mk_sb v i.
Proof. done. Qed.

Lemma root_fields : let x := disk_inode mk_sb v 1 in let n := Z.of_nat (length (root_dir files)) in
  i_type x = T_DIR /\ i_nlink x = 1 /\ i_size x = (n / 512 + 1) * 512 /\
  fbytes v x 0 (length (root_dir files)) = root_dir files /\ clean v x n /\ (n mod 512 <> 0 -> file_ok mk_sb 2 30 v x).
Proof. rewrite <- inode_at_disk. apply Himg. Qed.

Lemma file_fields j f : files !! j = Some f -> let x := disk_inode mk_sb v (Z.of_nat j + 2) in
  i_type x = T_FILE /\ i_nlink x = 1 /\ i_size x = Z.of_nat (length (content f)) /\
  fbytes v x 0 (length (content f)) = content f /\ file_ok mk_sb 2 30 v x.
Proof. rewrite <- inode_at_disk. apply Himg. Qed.

(** A name of the disk leads to its inode; the size of the root directory does
    not reach past its blocks. *)
Hypothesis Hfull : (Z.of_nat (length files) + 2) mod 32 <> 0.

Lemma root_ok : file_ok mk_sb 2 30 v (disk_inode mk_sb v 1).
Proof.
  destruct root_fields as (_ & _ & _ & _ & _ & H). apply H. rewrite length_root_dir. dlia.
Qed.

(** An entry of the root directory: one of those made, or an empty one. *)
Lemma root_entry k : (k < Z.to_nat (i_size (disk_inode mk_sb v 1) / 16))%nat -> let e := fbytes v (disk_inode mk_sb v 1) (16 * Z.of_nat k) 16 in
  match entries files !! k with Some e' => e = e' | None => de_inum e = 0 end.
Proof.
  intros Hk e. destruct root_fields as (_ & _ & Hs & Hb & Hc & _). set (x := disk_inode mk_sb v 1) in *.
  destruct (entries files !! k) as [e'|] eqn:Ee.
  - rewrite root_dir_entries in Hb. apply (fbytes_chunks v x (entries files) 0 k e'); [apply entries_16|done|done].
  - apply lookup_ge_None in Ee. assert (Hge : (length files + 2 <= k)%nat) by (unfold entries in Ee; cbn [length] in Ee; rewrite length_imap in Ee; lia).
    rewrite length_root_dir in *. pose proof root_ok as F. pose proof (fo_size _ _ _ _ _ F) as Hsz. fold x in Hsz, F. change (MAXFILE * 512) with 71680 in Hsz.
    assert (Hz : forall o, 16 * Z.of_nat k <= o < 16 * Z.of_nat k + 16 -> fbyte v x o = 0).
    { intros o Ho. apply Hc; [dlia|]. apply (fo_alloc _ _ _ _ _ F); dlia. }
    unfold e, fbytes, de_inum, rd16. cbn [zrange map]. change (rd8 (?a :: _) 0) with a. change (rd8 (_ :: ?b :: _) (0 + 1)) with b. rewrite !Hz by lia. done.
Qed.

Lemma entries_lookup k e : entries files !! k = Some e ->
  (k < 2)%nat /\ e = dirent 1 (if (k =? 0)%nat then [46] else [46; 46]) \/ exists f, files !! (k - 2)%nat = Some f /\ (2 <= k)%nat /\ e = dirent (Z.of_nat k) (bare f.1).
Proof.
  destruct k as [|[|k]]; [intros [= <-]; left; split; [lia|done]..|].
  change (entries files !! S (S k)) with (imap (fun i f => dirent (Z.of_nat i + 2) (bare f.1)) files !! k).
  change (S (S k) - 2)%nat with (k - 0)%nat. rewrite Nat.sub_0_r, list_lookup_imap. destruct (files !! k) as [f|]; [|done].
  intros [= <-]. right. exists f. split; [done|]. split; [lia|]. f_equal. lia.
Qed.

Lemma image_tree : tree mk_sb 2 30 v (given files).
Proof.
  assert (Hcase : forall i, given files i -> i = 1 \/ exists j f, files !! j = Some f /\ i = Z.of_nat j + 2).
  { intros i Hi. unfold given in Hi. destruct (decide (i = 1)) as [->|Hne]; [by left|right]. destruct (lookup_lt_is_Some_2 files (Z.to_nat (i - 2))) as [f Hf]; [lia|].
    exists (Z.to_nat (i - 2)), f. split; [done|lia]. }
  split.
  - intros i Hi. unfold given in Hi. ilia.
  - intros i Hi. destruct (Hcase i Hi) as [->|(j & f & Hf & ->)]; [apply root_ok|]. apply (file_fields j f Hf).
  - intros i Hi. destruct (Hcase i Hi) as [->|(j & f & Hf & ->)]; [by rewrite (proj1 root_fields)|]. by rewrite (proj1 (file_fields j f Hf)).
  - intros i Hi. destruct (Hcase i Hi) as [->|(j & f & Hf & ->)]; [destruct root_fields as (_ & H & _)|destruct (file_fields j f Hf) as (_ & H & _)]; lia.
  - intros i Hi. destruct (Hcase i Hi) as [->|(j & f & Hf & ->)]; [|by rewrite (proj1 (file_fields j f Hf))].
    destruct root_fields as (_ & _ & Hs & _). intros _. rewrite Hs. dlia.
  - intros i de Hi Ht Hde Hz. destruct (Hcase i Hi) as [->|(j & f & Hf & ->)]; [|by rewrite (proj1 (file_fields j f Hf)) in Ht].
    apply list_elem_of_lookup in Hde as [k Hk]. unfold dir_entries in Hk. change (map ?g ?l) with (g <$> l) in Hk. rewrite list_lookup_fmap in Hk.
    destruct (seq _ _ !! k) as [k'|] eqn:Ek; [|done]. apply lookup_seq in Ek as [-> Hlt]. injection Hk as <-.
    pose proof (root_entry k Hlt) as He. cbn zeta in He. destruct (entries files !! k) as [e|] eqn:Ee; [|done]. rewrite He. unfold given.
    destruct (entries_lookup k e Ee) as [[Hk ->]|(f & Hf & Hk & ->)]; rewrite inum_dirent; try lia; apply lookup_lt_Some in Hf; lia.
Qed.

Lemma image_lookup j f : Forall (fun g => is_path g.1) files -> files !! j = Some f ->
  disk_name f <> [46] -> disk_name f <> [46; 46] -> (forall i g, (i < j)%nat -> files !! i = Some g -> disk_name g <> disk_name f) ->
  lookup mk_sb v 1 (disk_name f) = Some (Z.of_nat j + 2).
Proof.
  intros Hpath Hj H1 H2 Hno. unfold lookup. destruct root_fields as (Ht & _ & Hs & _).
  set (x := disk_inode mk_sb v 1) in *. rewrite Ht. change (T_DIR =? T_DIR) with true. cbn iota.
  assert (Hbare : forall i g, files !! i = Some g -> is_path (bare g.1)).
  { intros i g Hg. apply (Forall_lookup_1 _ _ _ _ Hpath) in Hg. destruct g as [nm o]. cbn in *. unfold bare. destruct nm as [|c nm]; [done|].
    apply Forall_cons in Hg as [? Hg]. repeat case_match; try done; by apply Forall_cons. }
  assert (Hlen : (j + 2 < Z.to_nat (i_size x / 16))%nat).
  { rewrite Hs, length_root_dir. apply lookup_lt_Some in Hj. dlia. }
  assert (Hat : forall k, (k <= j + 2)%nat -> dir_entries v x !! k = entries files !! k).
  { intros k Hk. unfold dir_entries. change (map ?g ?l) with (g <$> l). rewrite list_lookup_fmap, lookup_seq_lt by lia. cbn [fmap option_fmap option_map].
    pose proof (root_entry k ltac:(fold x; lia)) as He. cbn zeta in He. fold x in He. rewrite Nat.add_0_l. destruct (entries files !! k) eqn:Ee; [by rewrite He|].
    apply lookup_ge_None in Ee. unfold entries in Ee. cbn [length] in Ee. rewrite length_imap in Ee. apply lookup_lt_Some in Hj. lia. }
  assert (Hent : entries files !! (j + 2)%nat = Some (dirent (Z.of_nat j + 2) (bare f.1))).
  { rewrite Nat.add_comm. change (entries files !! (2 + j)%nat) with (imap (fun i f => dirent (Z.of_nat i + 2) (bare f.1)) files !! j). by rewrite list_lookup_imap, Hj. }
  rewrite (find_name_first _ _ (j + 2) 0 (dirent (Z.of_nat j + 2) (bare f.1))).
  - cbn. f_equal. apply inum_dirent. apply lookup_lt_Some in Hj. lia.
  - by rewrite Hat by lia.
  - rewrite inum_dirent; [lia|]. apply lookup_lt_Some in Hj. lia.
  - apply name_dirent. by eapply Hbare.
  - intros i e Hi He. rewrite Hat in He by lia. destruct (entries_lookup i e He) as [[Hi2 ->]|(g & Hg & Hi2 & ->)].
    + destruct i as [|[|i]]; [by apply not_eq_sym..|lia].
    + rewrite name_dirent by (by eapply Hbare). apply (Hno (i - 2)%nat g); [lia|done].
Qed.

End image.

(** ** Theorems *)

(** C21: what mkfs is given is what the kernel reads.  When mkfs has made an
    image of at most 198 files, and a kernel boots from it (recovering the log) and
    opens a path that names one of the files in the root directory, a read at any
    offset up to the end returns the bytes of that file there, up to its end, and a
    read past the end or past 2^32 answers -1; nothing panics.  The names
    are those of the command line without a leading underscore, cut to DIRSIZ bytes;
    of files with the same name the first one counts.  The number of entries of the
    root directory must not be a multiple of 32, since mkfs then gives it a size that
    its blocks do not cover. *)
Theorem mkfs_boots `{DevSw} files pid j f path e off n :
  (length files <= 198)%nat -> (Z.of_nat (length files) + 2) mod 32 <> 0 -> Forall (fun g => is_path g.1) files ->
  files !! j = Some f -> (forall i g, (i < j)%nat -> files !! i = Some g -> disk_name g <> disk_name f) ->
  disk_name f <> [46] -> disk_name f <> [46; 46] ->
  is_path path -> rd8 path 0 = SLASH -> elems path = [e] -> take DIRSIZ e = disk_name f ->
  is_u32 off -> is_u32 n ->
  wpx (mk_main files) (fun _ s =>
    wp (boot_and_read path off n) (fun r _ =>
      let len := Z.of_nat (length (content f)) in
      let m := Z.min n (len - off) in
      r = if decide (off <= len /\ off + n < 4294967296) then (m, take (Z.to_nat m) (drop (Z.to_nat off) (content f)))
          else (-1, [])) (fs_reset pid (img s)))
    (mk_failure files) mk_start.
Proof.
  intros Hn Hfull Hpath Hj Hno H1 H2 Hp Hs He Hnm Ho Hm.
  eapply wpx_mono; [apply (mk_main_spec files Hn)| |done]. intros [] s Himg. cbn beta. set (v := img s) in *. unfold boot_and_read. wp_step.
  eapply wpx_mono; [apply (fs_boot_spec 2 30 v pid zero_blk (image_bootable files v Hn Himg))| |done].
  rewrite (image_view files v Hn Himg), (io_super _ _ Himg). intros [] fs [[p Hf] Hc].
  destruct (file_fields files v Himg j f Hj) as (F1 & _ & F3 & F4 & _).
  assert (Hres : resolve mk_sb v (start 0 path) (take DIRSIZ <$> elems path) = Some (Z.of_nat j + 2)).
  { unfold start. rewrite Hs, He. cbn [Z.eqb SLASH Pos.eqb fmap list_fmap]. cbn [resolve]. rewrite Hnm. change ROOTINO with 1. by rewrite (image_lookup files v Hn Himg Hfull j f). }
  eapply wpx_mono; [apply (read_path_spec mk_sb 2 30 v (p, 1, 0) [] (given files) fs 0 0 path (Z.of_nat j + 2) off n); try done| |].
  - by apply image_tree.
  - rewrite (proj1 (io_len _ _ Himg)). apply mk_layout.
  - by apply (image_bitmap files).
  - unfold room. rewrite map_size_empty. cbn. lia.
  - unfold given, ROOTINO. lia.
  - by rewrite F1.
  - intros r f' (_ & _ & ->). rewrite F3. cbv zeta. case_decide as Hd; [|done]. destruct Hd as [Hoff Hwrap]. f_equal. set (m := Z.min n _). apply fbytes_part; [done|unfold is_u32 in Ho; lia..].
  - intros msg [_ Hbig]. rewrite Hc in Hbig. by vm_compute in Hbig.
Qed.

(** The program "cat" of the small image, around its first block boundary. *)
Lemma mkfs_boots_witness : exists r s, mk_main mk_demo mk_start = Ret r s /\
  wp (@boot_and_read no_devices [47; 99; 97; 116] 510 4) (fun r _ => r = (4, [7; 7; 8; 8])) (fs_reset 1 (img s)).
Proof.
  apply (wp_run (mk_main mk_demo) (fun _ s => wp (@boot_and_read no_devices [47; 99; 97; 116] 510 4) (fun r _ => r = (4, [7; 7; 8; 8])) (fs_reset 1 (img s))) mk_start).
  apply (wpx_mono (mk_main mk_demo) _ _ _ _ mk_start
    (@mkfs_boots no_devices mk_demo 1 0 ([95; 99; 97; 116], Some [replicate 512 7; replicate 100 8; []]) [47; 99; 97; 116] [99; 97; 116] 510 4
       ltac:(cbn; lia) ltac:(done) ltac:(repeat constructor; lia) eq_refl ltac:(intros; lia) ltac:(done) ltac:(done)
       ltac:(repeat constructor; lia) eq_refl eq_refl eq_refl ltac:(done) ltac:(done))); [|exact mk_demo_fits].
  intros r s H. exact H.
Defined.
