(* ===== verification/Mp.v ===== *)
(** * The multiprocessor tables (src/mp.c, src/mp.h)

    The BIOS describes the processors and the I/O APICs in tables.  [mpinit]
    looks for a floating pointer structure, follows it to the configuration
    table, and reads the entries.  Memory is read at kernel addresses; an access
    to an address the kernel does not map is a fault.  The port of the IMCR is
    what [inb] answers. *)

From S2P Require Import Prelude.
From S2P Require Import CString.
From S2P Require Import Mmu.

Open Scope Z_scope.

Definition NCPU : Z := 8.

(** Table entry types. *)
Definition MPPROC : Z := 0.
Definition MPBUS : Z := 1.
Definition MPIOAPIC : Z := 2.
Definition MPIOINTR : Z := 3.
Definition MPLINTR : Z := 4.

(** The sizes of struct mp, mpconf, mpproc and mpioapic. *)
Definition SIZEOF_MP : Z := 16.
Definition SIZEOF_MPCONF : Z := 44.
Definition SIZEOF_MPPROC : Z := 20.
Definition SIZEOF_MPIOAPIC : Z := 8.

(** "_MP_" and "PCMP" *)
Definition mp_signature : list Z := [95; 77; 80; 95].
Definition conf_signature : list Z := [80; 67; 77; 80].

(** Memory, the apic ids of [cpus], [ncpu], [ioapicid], [lapic], and the port
    writes. *)
Record mps := mkMps {
  mp_mem : memory;
  apicids : list Z;
  ncpu : Z;
  ioapicid : Z;
  lapic : Z;
  mp_out : list (Z * Z);
}.

Definition set_cpu (n id : Z) (s : mps) : mps :=
  mkMps (mp_mem s) (<[Z.to_nat n := id]> (apicids s)) (n + 1) (ioapicid s) (lapic s) (mp_out s).
Definition set_ioapicid (v : Z) (s : mps) : mps := mkMps (mp_mem s) (apicids s) (ncpu s) v (lapic s) (mp_out s).
Definition set_lapic (v : Z) (s : mps) : mps := mkMps (mp_mem s) (apicids s) (ncpu s) (ioapicid s) v (mp_out s).
Definition mp_outb (port v : Z) : M mps unit :=
  modify (fun s => mkMps (mp_mem s) (apicids s) (ncpu s) (ioapicid s) (lapic s) (mp_out s ++ [(port, v)])).

(** What the kernel's page table maps. *)
Definition mapped (a : Z) : bool :=
  ((KERNBASE <=? a) && (a <? KERNBASE + PHYSTOP)) || ((DEVSPACE <=? a) && (a <? 4294967296)).

Definition rdb (a : Z) : M mps Z :=
  let! m := gets mp_mem in
  if mapped a then ret (ld8 m a) else fault "page fault".

Definition rdw (a : Z) : M mps Z :=
  let! b0 := rdb a in
  let! b1 := rdb (a + 1) in
  let! b2 := rdb (a + 2) in
  let! b3 := rdb (a + 3) in
  ret (b0 + 256 * b1 + 65536 * b2 + 16777216 * b3).

(** The loop of [sum]. *)
Fixpoint sum_loop (addr : Z) (n : nat) (acc : Z) : M mps Z :=
  match n with
  | O => ret acc
  | S n' =>
      let! b := rdb addr in
      sum_loop (addr + 1) n' (acc + b)
  end.

Definition sum (addr len : Z) : M mps Z :=
  let! r := sum_loop addr (Z.to_nat len) 0 in
  ret (r mod 256).

(** [memcmp(p, sig, length sig) == 0] *)
Fixpoint same_bytes (p : Z) (sig : list Z) : M mps bool :=
  match sig with
  | [] => ret true
  | c :: sig' =>
      let! b := rdb p in
      if b =? c then same_bytes (p + 1) sig' else ret false
  end.

(** The loop of [mpsearch1]. *)
Fixpoint mpsearch1_loop (fuel : nat) (p e : Z) : M mps (option Z) :=
  match fuel with
  | O => nofuel
  | S n =>
      if p <? e then
        let! eq := same_bytes p mp_signature in
        if eq then
          let! c := sum p SIZEOF_MP in
          if c =? 0 then ret (Some p) else mpsearch1_loop n (u32 (p + SIZEOF_MP)) e
        else mpsearch1_loop n (u32 (p + SIZEOF_MP)) e
      else ret None
  end.

Definition mpsearch1 (a len : Z) : M mps (option Z) :=
  let addr := P2V a in
  mpsearch1_loop (S (Z.to_nat len)) addr (u32 (addr + len)).

Definition mpsearch : M mps (option Z) :=
  let bda := P2V 0x400 in
  let! hi := rdb (bda + 0x0F) in
  let! lo := rdb (bda + 0x0E) in
  let p := Z.shiftl (Z.lor (Z.shiftl hi 8) lo) 4 in
  let! r :=
    (if nz p then mpsearch1 p 1024
     else
       let! hi := rdb (bda + 0x14) in
       let! lo := rdb (bda + 0x13) in
       let p := Z.lor (Z.shiftl hi 8) lo * 1024 in
       mpsearch1 (u32 (p - 1024)) 1024) in
  match r with
  | Some mp => ret (Some mp)
  | None => mpsearch1 0xF0000 0x10000
  end.

(** The addresses of the table and of the floating pointer. *)
Definition mpconfig : M mps (option (Z * Z)) :=
  let! r := mpsearch in
  match r with
  | None => ret None
  | Some mp =>
      let! physaddr := rdw (mp + 4) in
      if physaddr =? 0 then ret None
      else
        let conf := P2V physaddr in
        let! eq := same_bytes conf conf_signature in
        if negb eq then ret None
        else
          let! version := rdb (conf + 6) in
          if negb (version =? 1) && negb (version =? 4) then ret None
          else
            let! l0 := rdb (conf + 4) in
            let! l1 := rdb (conf + 5) in
            let! c := sum conf (l0 + 256 * l1) in
            if negb (c =? 0) then ret None else ret (Some (conf, mp))
  end.

(** The loop of [mpinit]: [ismp] at its end.  The [break] of an unknown entry
    leaves the [switch], not the loop, and [p] stays where it is. *)
Fixpoint mpinit_loop (fuel : nat) (p e : Z) (ismp : bool) : M mps bool :=
  match fuel with
  | O => nofuel
  | S k =>
      if p <? e then
        let! t := rdb p in
        if t =? MPPROC then
          let! n := gets ncpu in
          do! (if n <? NCPU then
                 let! id := rdb (p + 1) in
                 modify (set_cpu n id)
               else ret tt) in
          mpinit_loop k (u32 (p + SIZEOF_MPPROC)) e ismp
        else if t =? MPIOAPIC then
          let! no := rdb (p + 1) in
          do! modify (set_ioapicid no) in
          mpinit_loop k (u32 (p + SIZEOF_MPIOAPIC)) e ismp
        else if (t =? MPBUS) || (t =? MPIOINTR) || (t =? MPLINTR) then
          mpinit_loop k (u32 (p + 8)) e ismp
        else mpinit_loop k p e false
      else ret ismp
  end.

(** [imcr] is what [inb(0x23)] answers. *)
Definition mpinit (imcr : Z) (fuel : nat) : M mps unit :=
  let! r := mpconfig in
  match r with
  | None => panic "Expect to run on an SMP"
  | Some (conf, mp) =>
      let! a := rdw (conf + 36) in
      do! modify (set_lapic a) in
      let! l0 := rdb (conf + 4) in
      let! l1 := rdb (conf + 5) in
      let! ismp := mpinit_loop fuel (u32 (conf + SIZEOF_MPCONF)) (u32 (conf + (l0 + 256 * l1))) true in
      if negb ismp then panic "Didn't find a suitable machine"
      else
        let! imcrp := rdb (mp + 12) in
        if nz imcrp then
          do! mp_outb 0x22 0x70 in
          mp_outb 0x23 (Z.lor imcr 1)
        else ret tt
  end.

(** ** What the tables say *)

Fixpoint total (l : list Z) : Z := match l with [] => 0 | b :: l' => b + total l' end.

(** A floating pointer structure is at [p]. *)
Definition is_mp (m : memory) (p : Z) : bool :=
  bool_decide (ldbytes m p 4 = mp_signature) && (total (ldbytes m p 16) mod 256 =? 0).

(** Where the code looks for it, in the order of the search; the comment in
    the source has the last area start at 0xE0000. *)
Fixpoint area (p : Z) (n : nat) : list Z := match n with O => [] | S n' => p :: area (p + 16) n' end.
Definition ebda (m : memory) : Z := 16 * (ld8 m (KERNBASE + 0x40E) + 256 * ld8 m (KERNBASE + 0x40F)).
Definition basemem (m : memory) : Z := 1024 * (ld8 m (KERNBASE + 0x413) + 256 * ld8 m (KERNBASE + 0x414)).
Definition places (m : memory) : list Z :=
  (if ebda m =? 0 then area (KERNBASE + basemem m - 1024) 64 else area (KERNBASE + ebda m) 64) ++ area (KERNBASE + 0xF0000) 4096.

(** The table the floating pointer leads to. *)
Definition conf_of (m : memory) (mp : Z) : Z := KERNBASE + ld32 m (mp + 4).
Definition conf_len (m : memory) (c : Z) : Z := ld8 m (c + 4) + 256 * ld8 m (c + 5).
Definition is_conf (m : memory) (c : Z) : bool :=
  bool_decide (ldbytes m c 4 = conf_signature) && ((ld8 m (c + 6) =? 1) || (ld8 m (c + 6) =? 4)) &&
  (total (ldbytes m c (Z.to_nat (conf_len m c))) mod 256 =? 0).

Inductive mpentry := EProc (id : Z) | EIoapic (no : Z) | EOther.

(** The entries from [p] on; [true] when they end at [e], [false] when one has a
    type that is not known. *)
Inductive entries (m : memory) (e : Z) : Z -> list mpentry -> bool -> Prop :=
  | en_end p : e <= p -> entries m e p [] true
  | en_proc p es b : p < e -> ld8 m p = MPPROC -> entries m e (p + SIZEOF_MPPROC) es b ->
      entries m e p (EProc (ld8 m (p + 1)) :: es) b
  | en_ioapic p es b : p < e -> ld8 m p = MPIOAPIC -> entries m e (p + SIZEOF_MPIOAPIC) es b ->
      entries m e p (EIoapic (ld8 m (p + 1)) :: es) b
  | en_other p es b : p < e -> ld8 m p ∈ [MPBUS; MPIOINTR; MPLINTR] -> entries m e (p + 8) es b ->
      entries m e p (EOther :: es) b
  | en_unknown p : p < e -> MPLINTR < ld8 m p -> entries m e p [] false.

(** What [mpinit] makes of them. *)
Definition record_entry (s : mps) (x : mpentry) : mps :=
  match x with
  | EProc id => if ncpu s <? NCPU then set_cpu (ncpu s) id s else s
  | EIoapic no => set_ioapicid no s
  | EOther => s
  end.

(** The processors and the I/O APICs among the entries. *)
Definition proc_ids (es : list mpentry) : list Z := omap (fun x => match x with EProc id => Some id | _ => None end) es.
Definition ioapic_nos (es : list mpentry) : list Z := omap (fun x => match x with EIoapic no => Some no | _ => None end) es.

(** * Lemmas *)

Lemma mapped_low a : KERNBASE <= a < KERNBASE + PHYSTOP -> mapped a = true.
Proof. intros H. unfold mapped. rewrite (proj2 (Z.leb_le _ _)), (proj2 (Z.ltb_lt _ _)) by lia. done. Qed.

(** [n] bytes from [a] on are in the memory of the kernel. *)
Definition inside (a n : Z) : Prop := KERNBASE <= a /\ a + n <= KERNBASE + PHYSTOP.

Lemma rdb_run a s : KERNBASE <= a < KERNBASE + PHYSTOP -> rdb a s = Ret (ld8 (mp_mem s) a) s.
Proof. intros Ha. unfold rdb, bind, gets. by rewrite mapped_low. Qed.

Lemma rdb_spec (Q : Z -> mps -> Prop) E a s : KERNBASE <= a < KERNBASE + PHYSTOP -> Q (ld8 (mp_mem s) a) s -> wpx (rdb a) Q E s.
Proof. intros Ha HQ. unfold wpx. by rewrite rdb_run. Qed.

Lemma rdw_spec (Q : Z -> mps -> Prop) E a s : inside a 4 -> Q (ld32 (mp_mem s) a) s -> wpx (rdw a) Q E s.
Proof. intros [Ha He] HQ. unfold rdw. do 4 (wp_step; apply rdb_spec; [lia|]). by apply wpx_ret. Qed.

Lemma sum_loop_spec (Q : Z -> mps -> Prop) E s n : forall a acc, inside a (Z.of_nat n) -> Q (acc + total (ldbytes (mp_mem s) a n)) s -> wpx (sum_loop a n acc) Q E s.
Proof.
  induction n as [|n IH]; intros a acc [Ha He] HQ; cbn [sum_loop ldbytes total] in *; [apply wpx_ret; by rewrite Z.add_0_r in HQ|].
  wp_step. apply rdb_spec; [lia|]. apply IH; [split; lia|]. by rewrite <- Z.add_assoc.
Qed.

Lemma sum_spec (Q : Z -> mps -> Prop) E s a n : 0 <= n -> inside a n -> Q (total (ldbytes (mp_mem s) a (Z.to_nat n)) mod 256) s -> wpx (sum a n) Q E s.
Proof. intros Hn Hi HQ. unfold sum. wp_step. apply sum_loop_spec; [by rewrite Z2Nat.id|]. by apply wpx_ret. Qed.

Lemma same_bytes_spec (Q : bool -> mps -> Prop) E s sig : forall p, inside p (Z.of_nat (length sig)) ->
  Q (bool_decide (ldbytes (mp_mem s) p (length sig) = sig)) s -> wpx (same_bytes p sig) Q E s.
Proof.
  induction sig as [|c sig IH]; intros p [Hp He] HQ; cbn [same_bytes length ldbytes] in *; [by apply wpx_ret|].
  wp_step. apply rdb_spec; [lia|]. destruct (Z.eqb_spec (ld8 (mp_mem s) p) c) as [Hc|Hc].
  - apply IH; [split; lia|]. rewrite (bool_decide_ext _ (ldbytes (mp_mem s) (p + 1) (length sig) = sig)) in HQ; [done|]. rewrite Hc. split; [by intros [= ?]|by intros ->].
  - apply wpx_ret. by rewrite bool_decide_eq_false_2 in HQ by congruence.
Qed.

(** ** The search *)

Lemma mpsearch1_loop_spec (Q : option Z -> mps -> Prop) E s n : forall fuel p, (n < fuel)%nat -> inside p (16 * Z.of_nat n) ->
  Q (find (is_mp (mp_mem s)) (area p n)) s -> wpx (mpsearch1_loop fuel p (p + 16 * Z.of_nat n)) Q E s.
Proof.
  induction n as [|n IH]; intros fuel p Hf [Hp He] HQ; (destruct fuel as [|fuel]; [lia|]); cbn [mpsearch1_loop].
  - rewrite (proj2 (Z.ltb_ge _ _)) by lia. by apply wpx_ret.
  - rewrite (proj2 (Z.ltb_lt _ _)) by lia. cbn [area find] in HQ. unfold is_mp in HQ at 1. wp_step. apply same_bytes_spec; [split; cbn; lia|].
    assert (Hnext : Q (find (is_mp (mp_mem s)) (area (p + 16) n)) s -> wpx (mpsearch1_loop fuel (u32 (p + SIZEOF_MP)) (p + 16 * Z.of_nat (S n))) Q E s).
    { intros HQ'. unfold SIZEOF_MP, KERNBASE, PHYSTOP in *. rewrite u32_small by (unfold is_u32; lia).
      replace (p + 16 * Z.of_nat (S n)) with (p + 16 + 16 * Z.of_nat n) by lia. apply IH; [lia|split; unfold KERNBASE, PHYSTOP; lia|done]. }
    change (length mp_signature) with 4%nat. destruct (bool_decide _); cbn [andb] in HQ; [|by apply Hnext].
    wp_step. apply sum_spec; [done|split; unfold SIZEOF_MP; lia|]. change (Z.to_nat SIZEOF_MP) with 16%nat. destruct (_ =? 0); [by apply wpx_ret|by apply Hnext].
Qed.

Lemma mpsearch1_spec (Q : option Z -> mps -> Prop) E s a (n : nat) : 0 <= a -> a + 16 * Z.of_nat n <= PHYSTOP ->
  Q (find (is_mp (mp_mem s)) (area (KERNBASE + a) n)) s -> wpx (mpsearch1 a (16 * Z.of_nat n)) Q E s.
Proof.
  intros Ha He HQ. unfold mpsearch1, P2V. cbv zeta. assert (Hu : u32 (a + KERNBASE) = KERNBASE + a).
  { rewrite u32_small; [lia|]. unfold is_u32, KERNBASE, PHYSTOP in *. lia. }
  rewrite Hu, u32_small by (unfold is_u32, KERNBASE, PHYSTOP in *; lia). apply mpsearch1_loop_spec; [lia|split; lia|done].
Qed.

Lemma find_app {A} (f : A -> bool) l l' : find f (l ++ l') = match find f l with Some x => Some x | None => find f l' end.
Proof. induction l as [|x l IH]; cbn; [done|]. by destruct (f x). Qed.

(** Two bytes make a 16-bit number. *)
Lemma lor_bytes hi lo : 0 <= hi < 256 -> 0 <= lo < 256 -> Z.lor (Z.shiftl hi 8) lo = 256 * hi + lo.
Proof.
  intros Hh Hl. rewrite Z.shiftl_mul_pow2 by lia. pose proof (Z.add_lor_land (hi * 2 ^ 8) lo) as Hs. enough (Z.land (hi * 2 ^ 8) lo = 0) by lia. clear Hs.
  apply Z.bits_inj_0. intros i. rewrite Z.land_spec. destruct (Z.ltb_spec i 8) as [Hi|Hi].
  - destruct (Z.ltb_spec i 0) as [Hn|Hn]; [by rewrite !Z.testbit_neg_r by lia|]. by rewrite Z.mul_pow2_bits_low by lia.
  - rewrite (Z.bits_above_log2 lo), andb_false_r; [done|lia|]. destruct (Z.eq_dec lo 0) as [->|]; [cbn; lia|]. apply Z.log2_lt_pow2; [lia|].
    assert (2 ^ 8 <= 2 ^ i) by (apply Z.pow_le_mono_r; lia). lia.
Qed.

Lemma mpsearch_spec (Q : option Z -> mps -> Prop) E s : let m := mp_mem s in ebda m <> 0 \/ 0 < basemem m ->
  Q (find (is_mp m) (places m)) s -> wpx mpsearch Q E s.
Proof.
  intros m Hb HQ. unfold mpsearch. change (P2V 0x400) with (KERNBASE + 0x400).
  assert (Hbios : Q (find (is_mp m) (area (KERNBASE + 0xF0000) 4096)) s -> wpx (mpsearch1 0xF0000 0x10000) Q E s).
  { intros H. change 0x10000 with (16 * Z.of_nat 4096). apply mpsearch1_spec; [lia|unfold PHYSTOP; lia|done]. }
  assert (Harea : forall a, 0 <= a -> a + 1024 <= PHYSTOP -> Q (match find (is_mp m) (area (KERNBASE + a) 64) with Some x => Some x | None => find (is_mp m) (area (KERNBASE + 0xF0000) 4096) end) s ->
    wpx (mpsearch1 a 1024) (fun r s' => wpx (match r with Some mp => ret (Some mp) | None => mpsearch1 0xF0000 0x10000 end) Q E s') E s).
  { intros a Ha He H. change 1024 with (16 * Z.of_nat 64). apply mpsearch1_spec; [lia|lia|]. fold m. destruct (find _ (area (KERNBASE + a) 64)); [by apply wpx_ret|by apply Hbios]. }
  unfold places in HQ. rewrite find_app in HQ. wp_step. apply rdb_spec; [done|]. wp_step. apply rdb_spec; [done|]. fold m.
  pose proof (ld8_range m (KERNBASE + 0x40F)) as B1. pose proof (ld8_range m (KERNBASE + 0x40E)) as B2.
  change (KERNBASE + 0x400 + 0x0F) with (KERNBASE + 0x40F). change (KERNBASE + 0x400 + 0x0E) with (KERNBASE + 0x40E).
  rewrite lor_bytes, Z.shiftl_mul_pow2 by lia. replace ((256 * _ + _) * 2 ^ 4) with (ebda m) by (unfold ebda; lia).
  wp_step. unfold nz. destruct (Z.eqb_spec (ebda m) 0) as [Hz|Hz]; cbn [negb].
  - wp_step. apply rdb_spec; [done|]. wp_step. apply rdb_spec; [done|]. fold m.
    change (KERNBASE + 0x400 + 0x14) with (KERNBASE + 0x414). change (KERNBASE + 0x400 + 0x13) with (KERNBASE + 0x413).
    pose proof (ld8_range m (KERNBASE + 0x414)). pose proof (ld8_range m (KERNBASE + 0x413)). rewrite lor_bytes by lia.
    assert (Hbm : basemem m = (256 * ld8 m (KERNBASE + 0x414) + ld8 m (KERNBASE + 0x413)) * 1024) by (unfold basemem; lia). rewrite <- Hbm.
    rewrite u32_small by (unfold is_u32; lia). apply Harea; [lia|unfold PHYSTOP; lia|]. by rewrite Z.add_sub_assoc.
  - apply Harea; [unfold ebda in *; lia|unfold ebda, PHYSTOP; lia|done].
Qed.

(** ** The table *)

(** The table is in the memory of the kernel, whatever its length. *)
Definition in_memory (m : memory) (mp : Z) : Prop := ld32 m (mp + 4) + 65536 + 20 <= PHYSTOP.

Lemma find_place m mp : ebda m <> 0 \/ 0 < basemem m -> find (is_mp m) (places m) = Some mp -> inside mp 16.
Proof.
  intros Hb Hf. apply find_some in Hf as [Hf _]. apply list_elem_of_In in Hf. unfold places in Hf.
  assert (Ha : forall n p q, q ∈ area p n -> p <= q /\ q + 16 <= p + 16 * Z.of_nat n).
  { induction n as [|n IH]; intros p q Hq; cbn [area] in Hq; [by apply not_elem_of_nil in Hq|].
    apply elem_of_cons in Hq as [->|Hq]; [lia|]. specialize (IH _ _ Hq). lia. }
  pose proof (ld8_range m (KERNBASE + 0x40F)). pose proof (ld8_range m (KERNBASE + 0x40E)).
  pose proof (ld8_range m (KERNBASE + 0x414)). pose proof (ld8_range m (KERNBASE + 0x413)).
  apply elem_of_app in Hf as [Hf|Hf]; [|apply Ha in Hf; unfold inside, KERNBASE, PHYSTOP in *; lia].
  destruct (Z.eqb_spec (ebda m) 0) as [Hz|Hz]; apply Ha in Hf; unfold inside, ebda, basemem, KERNBASE, PHYSTOP in *; lia.
Qed.

(** The floating pointer and the table, if there are such. *)
Definition found_conf (m : memory) : option (Z * Z) :=
  match find (is_mp m) (places m) with
  | Some mp => if negb (ld32 m (mp + 4) =? 0) && is_conf m (conf_of m mp) then Some (conf_of m mp, mp) else None
  | None => None
  end.

(** What the search needs: a memory size, and a table below PHYSTOP. *)
Definition firmware (m : memory) : Prop :=
  (ebda m <> 0 \/ 0 < basemem m) /\ forall mp, find (is_mp m) (places m) = Some mp -> in_memory m mp.

Lemma mpconfig_spec (Q : option (Z * Z) -> mps -> Prop) E s : firmware (mp_mem s) -> Q (found_conf (mp_mem s)) s -> wpx mpconfig Q E s.
Proof.
  intros [Hb Hin] HQ. set (m := mp_mem s) in *. unfold mpconfig, found_conf in *. wp_step. apply mpsearch_spec; [done|]. fold m.
  destruct (find (is_mp m) (places m)) as [mp|] eqn:Hf; [|by apply wpx_ret].
  pose proof (find_place m mp Hb Hf) as [H1 H2]. specialize (Hin mp eq_refl). unfold in_memory in Hin. pose proof (ld32_range m (mp + 4)) as Hr. unfold is_u32 in Hr.
  wp_step. apply rdw_spec; [split; lia|]. fold m. destruct (Z.eqb_spec (ld32 m (mp + 4)) 0) as [Hz|Hz]; cbn [negb andb] in *; [by apply wpx_ret|].
  assert (Hc : P2V (ld32 m (mp + 4)) = conf_of m mp) by (unfold P2V, conf_of; rewrite u32_small; [lia|unfold is_u32, KERNBASE, PHYSTOP in *; lia]).
  assert (Hci : inside (conf_of m mp) (65536 + 20)) by (unfold inside, conf_of; lia). rewrite Hc. set (c := conf_of m mp) in *. destruct Hci as [H3 H4].
  unfold is_conf in HQ. wp_step. apply same_bytes_spec; [split; cbn; lia|]. fold m. change (length conf_signature) with 4%nat.
  destruct (bool_decide _); cbn [andb negb] in *; [|by apply wpx_ret]. wp_step. apply rdb_spec; [lia|]. fold m. rewrite <- negb_orb.
  destruct ((ld8 m (c + 6) =? 1) || (ld8 m (c + 6) =? 4)); cbn [andb negb] in *; [|by apply wpx_ret].
  wp_step. apply rdb_spec; [lia|]. wp_step. apply rdb_spec; [lia|]. fold m. change (ld8 m (c + 4) + 256 * ld8 m (c + 5)) with (conf_len m c).
  assert (Hl : 0 <= conf_len m c < 65536) by (unfold conf_len; pose proof (ld8_range m (c + 4)); pose proof (ld8_range m (c + 5)); lia).
  wp_step. apply sum_spec; [lia|split; lia|]. fold m. destruct (_ =? 0); by apply wpx_ret.
Qed.

Lemma found_inside m c mp : firmware m -> found_conf m = Some (c, mp) -> inside c (65536 + 20) /\ inside mp 16.
Proof.
  intros [Hb Hin]. unfold found_conf. destruct (find _ _) as [q|] eqn:Hf; [|done]. destruct (negb _ && _) eqn:Hz; [|done]. intros [= <- <-].
  split; [|by apply (find_place m)]. specialize (Hin q eq_refl). unfold in_memory in Hin. pose proof (ld32_range m (q + 4)) as Hr. unfold is_u32 in Hr.
  unfold inside, conf_of. lia.
Qed.

(** ** The entries *)

Lemma record_mem es : forall s, mp_mem (fold_left record_entry es s) = mp_mem s.
Proof. induction es as [|x es IH]; intros s; [done|]. cbn [fold_left]. rewrite IH. unfold record_entry. destruct x; [|done..]. by destruct (_ <? _). Qed.

(** Entries up to the end are recorded one after the other. *)
Lemma mpinit_loop_ends (Q : bool -> mps -> Prop) E m e : e + 20 <= KERNBASE + PHYSTOP -> forall p es b, entries m e p es b -> b = true -> KERNBASE <= p -> forall fuel s, mp_mem s = m -> (length es < fuel)%nat ->
  Q true (fold_left record_entry es s) -> wpx (mpinit_loop fuel p e true) Q E s.
Proof.
  intros He p es b H. assert (Hu : forall p k, KERNBASE <= p < e -> 0 <= k <= 20 -> u32 (p + k) = p + k) by (intros; unfold KERNBASE, PHYSTOP in *; apply u32_small; unfold is_u32; lia).
  induction H as [p Hp|p es b Hp Ht H IH|p es b Hp Ht H IH|p es b Hp Ht H IH|p Hp Ht]; intros Hb Hlow fuel s Hm Hf HQ; try done;
    (destruct fuel as [|fuel]; [cbn in Hf; lia|]); cbn [mpinit_loop]; cbn [length fold_left] in Hf, HQ.
  - rewrite (proj2 (Z.ltb_ge _ _)) by lia. by apply wpx_ret.
  - rewrite (proj2 (Z.ltb_lt _ _)) by lia. wp_step. apply rdb_spec; [lia|]. rewrite Hm, Ht. change (MPPROC =? MPPROC) with true. cbn iota. wp_step. apply wpx_gets. wp_step.
    rewrite Hu by (unfold SIZEOF_MPPROC; lia). unfold record_entry in HQ at 2. destruct (ncpu s <? NCPU).
    + wp_step. apply rdb_spec; [lia|]. rewrite Hm. apply wpx_modify. apply IH; try done; [unfold SIZEOF_MPPROC; lia|lia].
    + apply wpx_ret. apply IH; try done; [unfold SIZEOF_MPPROC; lia|lia].
  - rewrite (proj2 (Z.ltb_lt _ _)) by lia. wp_step. apply rdb_spec; [lia|]. rewrite Hm, Ht. change (MPIOAPIC =? MPPROC) with false. change (MPIOAPIC =? MPIOAPIC) with true. cbn iota.
    wp_step. apply rdb_spec; [lia|]. rewrite Hm. wp_step. apply wpx_modify. rewrite Hu by (unfold SIZEOF_MPIOAPIC; lia). apply IH; try done; [unfold SIZEOF_MPIOAPIC; lia|lia].
  - rewrite (proj2 (Z.ltb_lt _ _)) by lia. wp_step. apply rdb_spec; [lia|]. rewrite Hm. rewrite !elem_of_cons in Ht.
    destruct Ht as [Ht|[Ht|[Ht|Ht]]]; [..|by apply not_elem_of_nil in Ht]; rewrite Ht; cbn [Z.eqb MPBUS MPPROC MPIOAPIC MPIOINTR MPLINTR Pos.eqb orb]; rewrite Hu by lia; (apply IH; try done; lia).
Qed.

(** An entry of unknown type is met again and again. *)
Lemma mpinit_loop_stuck m e p : p < e -> KERNBASE <= p -> e <= KERNBASE + PHYSTOP -> MPLINTR < ld8 m p ->
  forall fuel s b, mp_mem s = m -> mpinit_loop fuel p e b s = NoFuel.
Proof.
  intros Hp Hlow He Ht. induction fuel as [|fuel IH]; intros s b Hm; [done|]. cbn [mpinit_loop]. rewrite (proj2 (Z.ltb_lt _ _)) by done.
  unfold bind at 1. rewrite rdb_run, Hm by lia. unfold MPLINTR in Ht. unfold MPPROC, MPIOAPIC, MPBUS, MPIOINTR, MPLINTR.
  rewrite !(proj2 (Z.eqb_neq _ _)) by lia. cbn [orb]. by apply IH.
Qed.

Lemma mpinit_loop_unknown m e : e + 20 <= KERNBASE + PHYSTOP -> forall p es b, entries m e p es b -> b = false -> KERNBASE <= p -> forall fuel s i, mp_mem s = m ->
  mpinit_loop fuel p e i s = NoFuel.
Proof.
  intros He p es b H. assert (Hu : forall p k, KERNBASE <= p < e -> 0 <= k <= 20 -> u32 (p + k) = p + k) by (intros; unfold KERNBASE, PHYSTOP in *; apply u32_small; unfold is_u32; lia).
  induction H as [p Hp|p es b Hp Ht H IH|p es b Hp Ht H IH|p es b Hp Ht H IH|p Hp Ht]; intros Hb Hlow fuel s i Hm; try done;
    (destruct fuel as [|fuel]; [done|]).
  4:{ apply (mpinit_loop_stuck m); (done || lia). }
  all: cbn [mpinit_loop]; rewrite (proj2 (Z.ltb_lt _ _)) by done; unfold bind at 1; rewrite rdb_run, Hm by lia.
  - rewrite Ht. change (MPPROC =? MPPROC) with true. cbn iota. unfold bind, gets, ret. rewrite Hu by (unfold SIZEOF_MPPROC; lia). destruct (ncpu s <? NCPU).
    + rewrite rdb_run by lia. unfold modify. apply IH; try done. unfold SIZEOF_MPPROC. lia.
    + apply IH; try done. unfold SIZEOF_MPPROC. lia.
  - rewrite Ht. change (MPIOAPIC =? MPPROC) with false. change (MPIOAPIC =? MPIOAPIC) with true. cbn iota. unfold bind at 1. rewrite rdb_run by lia. unfold bind, modify.
    rewrite Hu by (unfold SIZEOF_MPIOAPIC; lia). apply IH; try done. unfold SIZEOF_MPIOAPIC. lia.
  - rewrite !elem_of_cons in Ht. destruct Ht as [Ht|[Ht|[Ht|Ht]]]; [..|by apply not_elem_of_nil in Ht]; rewrite Ht; cbn [Z.eqb MPBUS MPPROC MPIOAPIC MPIOINTR MPLINTR Pos.eqb orb];
      rewrite Hu by lia; (apply IH; try done; lia).
Qed.

(** What recording the entries leaves. *)
Lemma record_cpus es : forall s, length (apicids s) = Z.to_nat NCPU -> 0 <= ncpu s <= NCPU -> let s' := fold_left record_entry es s in
  ncpu s' = Z.min NCPU (ncpu s + Z.of_nat (length (proc_ids es))) /\ length (apicids s') = Z.to_nat NCPU /\
  take (Z.to_nat (ncpu s')) (apicids s') = take (Z.to_nat (ncpu s)) (apicids s) ++ take (Z.to_nat (NCPU - ncpu s)) (proc_ids es) /\
  lapic s' = lapic s /\ mp_out s' = mp_out s /\ ioapicid s' = List.last (ioapic_nos es) (ioapicid s).
Proof.
  induction es as [|x es IH]; intros s Hl Hn; cbn [fold_left].
  - cbn. rewrite take_nil, app_nil_r. split; [lia|done].
  - destruct x as [id|no|]; cbn [record_entry].
    + destruct (Z.ltb_spec (ncpu s) NCPU) as [Hlt|Hge].
      * destruct (IH (set_cpu (ncpu s) id s)) as (H1 & H2 & H3 & H4 & H5 & H6); [cbn; by rewrite length_insert|cbn; lia|]. cbn [ncpu apicids set_cpu lapic mp_out ioapicid] in *.
        change (proc_ids (EProc id :: es)) with (id :: proc_ids es). change (ioapic_nos (EProc id :: es)) with (ioapic_nos es). cbn [length]. split; [lia|]. split; [done|]. split; [|done].
        rewrite H3. replace (Z.to_nat (ncpu s + 1)) with (S (Z.to_nat (ncpu s))) by lia. replace (Z.to_nat (NCPU - ncpu s)) with (S (Z.to_nat (NCPU - (ncpu s + 1)))) by lia. cbn [take].
        rewrite (take_S_r _ _ id) by (apply list_lookup_insert_eq; lia). rewrite take_insert_ge, <- app_assoc by lia. done.
      * destruct (IH s Hl Hn) as (H1 & H2 & H3 & H4 & H5 & H6). change (proc_ids (EProc id :: es)) with (id :: proc_ids es). change (ioapic_nos (EProc id :: es)) with (ioapic_nos es). cbn [length].
        replace (Z.to_nat (NCPU - ncpu s)) with 0%nat in * by lia. cbn [take] in *. split; [lia|done].
    + destruct (IH (set_ioapicid no s) Hl Hn) as (H1 & H2 & H3 & H4 & H5 & H6). cbn [ncpu apicids set_ioapicid lapic mp_out ioapicid] in *.
      change (proc_ids (EIoapic no :: es)) with (proc_ids es). change (ioapic_nos (EIoapic no :: es)) with (no :: ioapic_nos es). split; [done|]. split; [done|]. split; [done|].
      split; [done|]. split; [done|]. rewrite H6. cbn [List.last]. destruct (ioapic_nos es) as [|y l]; [done|]. clear. revert y. induction l as [|z l IH]; intros y; [done|apply (IH z)].
    + apply (IH s Hl Hn).
Qed.

(** ** Theorems *)

(** C35: [mpinit] finds the processors.  The floating pointer structure is the
    first one with the signature and a checksum of 0 in the areas the code
    searches: the first kilobyte of the extended BIOS data area or, when there is
    none, the last one of base memory, and then 0xF0000 to 0xFFFFF (the comment
    above [mpsearch] says from 0xE0000 on).  Without one, or when it leads to no
    table with the signature, a known version and a checksum of 0, the kernel
    panics.  Otherwise the apic ids of the
    first NCPU processors of the table are recorded in order, with the address of
    the local APIC and the number of the last I/O APIC; the IMCR is written when
    the machine has one.  A table with an entry of an unknown type makes the loop go
    on for ever, and the panic meant for it is not reached. *)
Theorem mpinit_detects imcr s : let m := mp_mem s in
  firmware m -> ncpu s = 0 -> length (apicids s) = Z.to_nat NCPU ->
  match found_conf m with
  | None => forall fuel, mpinit imcr fuel s = Panic "Expect to run on an SMP"
  | Some (c, mp) => forall es b, entries m (c + conf_len m c) (c + SIZEOF_MPCONF) es b ->
      if b then forall fuel, (length es < fuel)%nat ->
        wp (mpinit imcr fuel) (fun _ s' =>
          ncpu s' = Z.min NCPU (Z.of_nat (length (proc_ids es))) /\ take (Z.to_nat (ncpu s')) (apicids s') = take (Z.to_nat NCPU) (proc_ids es) /\
          lapic s' = ld32 m (c + 36) /\ ioapicid s' = List.last (ioapic_nos es) (ioapicid s) /\
          mp_out s' = mp_out s ++ (if ld8 m (mp + 12) =? 0 then [] else [(0x22, 0x70); (0x23, Z.lor imcr 1)])) s
      else forall fuel, mpinit imcr fuel s = NoFuel
  end.
Proof.
  intros m Hfw Hn Hl. destruct (found_conf m) as [[c mp]|] eqn:Hc.
  2:{ intros fuel. assert (H : wpx mpconfig (fun r s' => r = None /\ s' = s) never s) by (apply mpconfig_spec; [done|]; fold m; by rewrite Hc).
      unfold mpinit, bind, wpx in *. destruct (mpconfig s) as [r s'| | |]; [|done..]. by destruct H as [-> ->]. }
  intros es b He. destruct (found_inside m c mp Hfw Hc) as [[C1 C2] [M1 M2]].
  assert (Hlen : 0 <= conf_len m c < 65536) by (unfold conf_len; pose proof (ld8_range m (c + 4)); pose proof (ld8_range m (c + 5)); lia).
  assert (Hu : u32 (c + SIZEOF_MPCONF) = c + SIZEOF_MPCONF /\ u32 (c + conf_len m c) = c + conf_len m c) by (unfold SIZEOF_MPCONF, KERNBASE, PHYSTOP in *; split; apply u32_small; unfold is_u32; lia).
  assert (Hstart : forall (Q : unit -> mps -> Prop) E fuel, wpx (let! ismp := mpinit_loop fuel (c + SIZEOF_MPCONF) (c + conf_len m c) true in
      if negb ismp then panic "Didn't find a suitable machine" else let! imcrp := rdb (mp + 12) in
        if nz imcrp then do! mp_outb 0x22 0x70 in mp_outb 0x23 (Z.lor imcr 1) else ret tt) Q E (set_lapic (ld32 m (c + 36)) s) -> wpx (mpinit imcr fuel) Q E s).
  { intros Q E fuel H. unfold mpinit. wp_step. apply mpconfig_spec; [done|]. fold m. rewrite Hc. wp_step. apply rdw_spec; [split; lia|]. fold m. wp_step. apply wpx_modify.
    wp_step. apply rdb_spec; [lia|]. wp_step. apply rdb_spec; [lia|]. cbn [mp_mem set_lapic]. fold m. change (ld8 m (c + 4) + 256 * ld8 m (c + 5)) with (conf_len m c).
    destruct Hu as [-> ->]. exact H. }
  destruct b; intros fuel.
  - intros Hf. apply Hstart. wp_step. eapply (mpinit_loop_ends _ _ m); [|exact He|done|unfold SIZEOF_MPCONF; lia|done|done|]; [lia|].
    destruct (record_cpus es (set_lapic (ld32 m (c + 36)) s)) as (H1 & H2 & H3 & H4 & H5 & H6); [done|cbn; rewrite Hn; unfold NCPU; lia|].
    cbn [ncpu apicids set_lapic lapic mp_out ioapicid] in *. rewrite Hn in *. cbn [negb]. wp_step. apply rdb_spec; [lia|]. rewrite record_mem. cbn [mp_mem set_lapic]. fold m.
    unfold nz. destruct (_ =? 0); cbn [negb].
    + apply wpx_ret. by rewrite app_nil_r.
    + wp_step. apply wpx_modify. apply wpx_modify. cbn [ncpu apicids lapic mp_out ioapicid]. rewrite H5, <- app_assoc. done.
  - assert (H : forall s', mp_mem s' = m -> mpinit_loop fuel (c + SIZEOF_MPCONF) (c + conf_len m c) true s' = NoFuel).
    { intros s' Hm'. eapply (mpinit_loop_unknown m); [|exact He|done|unfold SIZEOF_MPCONF; lia|done]. lia. }
    assert (Hcf : wpx mpconfig (fun r s' => r = Some (c, mp) /\ s' = s) never s) by (apply mpconfig_spec; [done|]; fold m; by rewrite Hc).
    unfold mpinit, bind at 1. unfold wpx in Hcf. destruct (mpconfig s) as [r s'| | |]; [|done..]. destruct Hcf as [-> ->].
    unfold bind, rdw, bind, ret, modify. rewrite !rdb_run by lia. cbn [mp_mem set_lapic]. fold m. change (ld8 m (c + 4) + 256 * ld8 m (c + 5)) with (conf_len m c).
    destruct Hu as [-> ->]. by rewrite H.
Qed.

(** A machine with two processors, and one whose table has an entry of type 9:
    floating pointer at 0xF0000, table at 0x9000. *)
Definition mp_demo_table (t : Z) : list Z :=
  conf_signature ++ [92; 0; 4; (147 - t) mod 256] ++ replicate 20 0 ++ replicate 8 0 ++ [0; 0; 224; 254] ++ replicate 4 0 ++
  [0; 0; 20; 3] ++ replicate 16 0 ++ [0; 1; 20; 1] ++ replicate 16 0 ++ [t; 2; 17; 1; 0; 0; 192; 254].
Definition mp_demo_mem (t : Z) : memory :=
  stbytes (stbytes (stbytes ∅ 0x80000413 [128; 2]) 0x800F0000 (mp_signature ++ [0; 144; 0; 0; 1; 4; 16; 0; 0; 0; 0; 0])) 0x80009000 (mp_demo_table t).
Definition mp_demo (t : Z) : mps := mkMps (mp_demo_mem t) (replicate 8 0) 0 0 0 [].

(** Processors 0 and 1, and an entry of type [t]. *)
Lemma mp_demo_facts t : t = 2 \/ t = 9 ->
  firmware (mp_demo_mem t) /\ found_conf (mp_demo_mem t) = Some (0x80009000, 0x800F0000) /\ 0x80009000 + conf_len (mp_demo_mem t) 0x80009000 = 0x8000905C.
Proof.
  intros Ht. assert (H : find (is_mp (mp_demo_mem t)) (places (mp_demo_mem t)) = Some 0x800F0000 /\ basemem (mp_demo_mem t) = 655360 /\ ld32 (mp_demo_mem t) (0x800F0000 + 4) = 0x9000).
  { by destruct Ht as [-> | ->]; vm_compute. }
  destruct H as (Hf & Hb & Hp). split; [|clear Hf Hb Hp; by destruct Ht as [-> | ->]; vm_compute].
  split; [right; rewrite Hb; lia|]. rewrite Hf. intros mp [= <-]. unfold in_memory. rewrite Hp. unfold PHYSTOP. lia.
Qed.

Lemma mp_demo_procs t es b : t = 2 \/ t = 9 -> entries (mp_demo_mem t) 0x8000905C 0x80009054 es b ->
  entries (mp_demo_mem t) 0x8000905C (0x80009000 + SIZEOF_MPCONF) (EProc 0 :: EProc 1 :: es) b.
Proof.
  intros Ht H. assert (Hld : forall p c, (p, c) ∈ [(0x8000902C, 0); (0x8000902D, 0); (0x80009040, 0); (0x80009041, 1)] -> ld8 (mp_demo_mem t) p = c).
  { intros p c Hp. rewrite !elem_of_cons in Hp. destruct Hp as [[= -> ->]|[[= -> ->]|[[= -> ->]|[[= -> ->]|Hp]]]]; [by destruct Ht as [-> | ->]; vm_compute..|by apply not_elem_of_nil in Hp]. }
  rewrite <- (Hld 0x8000902D 0) at 1 by set_solver. apply (en_proc _ _ 0x8000902C); [lia|apply Hld; set_solver|].
  rewrite <- (Hld 0x80009041 1) at 1 by set_solver. apply (en_proc _ _ 0x80009040); [lia|apply Hld; set_solver|done].
Qed.

Lemma mp_demo_known : entries (mp_demo_mem 2) 0x8000905C (0x80009000 + SIZEOF_MPCONF) [EProc 0; EProc 1; EIoapic 2] true.
Proof.
  apply mp_demo_procs; [by left|]. assert (Hno : ld8 (mp_demo_mem 2) (0x80009054 + 1) = 2) by (vm_compute; reflexivity).
  assert (H := en_ioapic (mp_demo_mem 2) 0x8000905C 0x80009054 [] true). rewrite Hno in H. apply H; [lia|vm_compute; reflexivity|]. apply en_end. unfold SIZEOF_MPIOAPIC. lia.
Qed.

Lemma mp_demo_unknown : entries (mp_demo_mem 9) 0x8000905C (0x80009000 + SIZEOF_MPCONF) [EProc 0; EProc 1] false.
Proof. apply mp_demo_procs; [by right|]. apply en_unknown; [lia|vm_compute; reflexivity]. Qed.

Lemma mpinit_detects_witness :
  (exists r s', mpinit 0 4 (mp_demo 2) = Ret r s' /\ ncpu s' = 2 /\ take (Z.to_nat (ncpu s')) (apicids s') = [0; 1] /\ ioapicid s' = 2) /\
  mpinit 0 1000 (mp_demo 9) = NoFuel.
Proof.
  split.
  - destruct (mp_demo_facts 2 (or_introl eq_refl)) as (Hf & Hc & Hl). assert (H := mpinit_detects 0 (mp_demo 2) Hf eq_refl eq_refl).
    cbn [mp_mem mp_demo] in H. rewrite Hc, Hl in H. specialize (H _ true mp_demo_known 4%nat (le_n 4)).
    destruct (wp_run _ _ _ H) as (r & s' & Hr & Hn & Hi & _ & Ho & _). exists r, s'. split; [exact Hr|]. split; [exact Hn|]. split; [exact Hi|exact Ho].
  - destruct (mp_demo_facts 9 (or_intror eq_refl)) as (Hf & Hc & Hl). assert (H := mpinit_detects 0 (mp_demo 9) Hf eq_refl eq_refl).
    cbn [mp_mem mp_demo] in H. rewrite Hc, Hl in H. exact (H _ false mp_demo_unknown 1000%nat).
Defined.
