(* ===== verification/Apic.v ===== *)
(** * Interrupt controllers and the clock chip (src/lapic.c, src/ioapic.c,
    src/picirq.c, src/date.h)

    The drivers are sequences of accesses to device registers.  A device is what
    it answers to a read after the accesses so far; nothing else is assumed of
    it, and a loop that waits for it has fuel.  What registers hold and what
    messages are sent is read off the accesses. *)

From S2P Require Import Prelude.
From S2P Require Import CString.
From S2P Require Import Mmu.

Open Scope Z_scope.

(** Accesses: a word written or read in memory-mapped registers, a byte written
    or read at a port, a half-word stored in memory. *)
Inductive event :=
  | Wr (a v : Z)
  | Rd (a : Z)
  | Out (port v : Z)
  | In (port : Z)
  | St16 (a v : Z).

#[export] Instance event_eq_dec : EqDecision event.
Proof. solve_decision. Defined.

(** The answer to a read after a history. *)
Class Machine := answer : list event -> event -> Z.

Definition T_IRQ0 : Z := 32.
Definition IRQ_TIMER : Z := 0.
Definition IRQ_ERROR : Z := 19.
Definition IRQ_SPURIOUS : Z := 31.

(** Indices of the registers of the local APIC. *)
Definition ID : Z := 8.
Definition VER : Z := 12.
Definition TPR : Z := 32.
Definition EOI : Z := 44.
Definition SVR : Z := 60.
Definition ESR : Z := 160.
Definition ICRLO : Z := 192.
Definition ICRHI : Z := 196.
Definition TIMER : Z := 200.
Definition PCINT : Z := 208.
Definition LINT0 : Z := 212.
Definition LINT1 : Z := 216.
Definition ERROR : Z := 220.
Definition TICR : Z := 224.
Definition TDCR : Z := 248.

Definition ENABLE : Z := 0x100.
Definition INIT : Z := 0x500.
Definition STARTUP : Z := 0x600.
Definition DELIVS : Z := 0x1000.
Definition ASSERT : Z := 0x4000.
Definition LEVEL : Z := 0x8000.
Definition BCAST : Z := 0x80000.
Definition X1 : Z := 0xB.
Definition PERIODIC : Z := 0x20000.
Definition MASKED : Z := 0x10000.

Definition IOAPIC : Z := 0xFEC00000.
Definition REG_ID : Z := 0.
Definition REG_VER : Z := 1.
Definition REG_TABLE : Z := 0x10.
Definition INT_DISABLED : Z := 0x10000.

Definition IO_PIC1 : Z := 0x20.
Definition IO_PIC2 : Z := 0xA0.

Definition CMOS_PORT : Z := 0x70.
Definition CMOS_RETURN : Z := 0x71.
Definition CMOS_STATA : Z := 0xa.
Definition CMOS_STATB : Z := 0xb.
Definition CMOS_UIP : Z := Z.shiftl 1 7.

Section drivers.
Context {D : Machine}.
Abbreviation dev := (M (list event)).

Definition access (e : event) : dev unit := modify (fun h => h ++ [e]).

Definition query (e : event) : dev Z :=
  let! h := gets id in
  do! access e in
  ret (answer h e).

(** ** lapic.c *)

(** [lapic] is the address that [mpinit] found, 0 without one. *)
Definition lapicw (lapic index value : Z) : dev unit :=
  do! access (Wr (lapic + 4 * index) (u32 value)) in
  let! _ := query (Rd (lapic + 4 * ID)) in
  ret tt.

(** [while(lapic[ICRLO] & DELIVS)] *)
Fixpoint wait_delivs (lapic : Z) (fuel : nat) : dev unit :=
  match fuel with
  | O => nofuel
  | S n =>
      let! r := query (Rd (lapic + 4 * ICRLO)) in
      if nz (Z.land r DELIVS) then wait_delivs lapic n else ret tt
  end.

Definition lapicinit (lapic : Z) (fuel : nat) : dev unit :=
  if lapic =? 0 then ret tt
  else
    do! lapicw lapic SVR (Z.lor ENABLE (T_IRQ0 + IRQ_SPURIOUS)) in
    do! lapicw lapic TDCR X1 in
    do! lapicw lapic TIMER (Z.lor PERIODIC (T_IRQ0 + IRQ_TIMER)) in
    do! lapicw lapic TICR 10000000 in
    do! lapicw lapic LINT0 MASKED in
    do! lapicw lapic LINT1 MASKED in
    let! ver := query (Rd (lapic + 4 * VER)) in
    do! (if 4 <=? Z.land (Z.shiftr ver 16) 0xFF then lapicw lapic PCINT MASKED else ret tt) in
    do! lapicw lapic ERROR (T_IRQ0 + IRQ_ERROR) in
    do! lapicw lapic ESR 0 in
    do! lapicw lapic ESR 0 in
    do! lapicw lapic EOI 0 in
    do! lapicw lapic ICRHI 0 in
    do! lapicw lapic ICRLO (Z.lor (Z.lor BCAST INIT) LEVEL) in
    do! wait_delivs lapic fuel in
    lapicw lapic TPR 0.

Definition lapicid (lapic : Z) : dev Z :=
  if lapic =? 0 then ret 0
  else
    let! v := query (Rd (lapic + 4 * ID)) in
    ret (Z.shiftr v 24).

Definition lapiceoi (lapic : Z) : dev unit := if lapic =? 0 then ret tt else lapicw lapic EOI 0.

Definition microdelay (us : Z) : dev unit := ret tt.

(** [outb]: the byte that is written. *)
Definition outb (port v : Z) : dev unit := access (Out port (v mod 256)).

Definition lapicstartap (lapic apicid addr : Z) : dev unit :=
  do! outb CMOS_PORT 0xF in
  do! outb (CMOS_PORT + 1) 0x0A in
  let wrv := P2V (Z.lor (Z.shiftl 0x40 4) 0x67) in
  do! access (St16 wrv 0) in
  do! access (St16 (wrv + 2) (Z.shiftr addr 4 mod 65536)) in
  do! lapicw lapic ICRHI (Z.shiftl apicid 24) in
  do! lapicw lapic ICRLO (Z.lor (Z.lor INIT LEVEL) ASSERT) in
  do! microdelay 200 in
  do! lapicw lapic ICRLO (Z.lor INIT LEVEL) in
  do! microdelay 100 in
  mfor (zrange 0 2) (fun _ =>
    do! lapicw lapic ICRHI (Z.shiftl apicid 24) in
    do! lapicw lapic ICRLO (Z.lor STARTUP (Z.shiftr addr 12)) in
    microdelay 200).

(** ** The clock *)

Record rtcdate := mkDate { second : Z; minute : Z; hour : Z; day : Z; month : Z; year : Z }.

#[export] Instance rtcdate_eq_dec : EqDecision rtcdate.
Proof. solve_decision. Defined.

Definition cmos_read (reg : Z) : dev Z :=
  do! outb CMOS_PORT reg in
  do! microdelay 200 in
  let! v := query (In CMOS_RETURN) in
  ret (v mod 256).

Definition fill_rtcdate : dev rtcdate :=
  let! s := cmos_read 0x00 in
  let! mi := cmos_read 0x02 in
  let! h := cmos_read 0x04 in
  let! d := cmos_read 0x07 in
  let! mo := cmos_read 0x08 in
  let! y := cmos_read 0x09 in
  ret (mkDate s mi h d mo y).

(** The loop that reads the date twice. *)
Fixpoint read_date (fuel : nat) : dev rtcdate :=
  match fuel with
  | O => nofuel
  | S n =>
      let! t1 := fill_rtcdate in
      let! a := cmos_read CMOS_STATA in
      if nz (Z.land a CMOS_UIP) then read_date n
      else
        let! t2 := fill_rtcdate in
        if bool_decide (t1 = t2) then ret t1 else read_date n
  end.

(** [CONV] *)
Definition conv (x : Z) : Z := u32 (Z.shiftr x 4 * 10 + Z.land x 0xf).

Definition map_date (f : Z -> Z) (t : rtcdate) : rtcdate :=
  mkDate (f (second t)) (f (minute t)) (f (hour t)) (f (day t)) (f (month t)) (f (year t)).

Definition cmostime (fuel : nat) : dev rtcdate :=
  let! sb := cmos_read CMOS_STATB in
  let bcd := Z.land sb (Z.shiftl 1 2) =? 0 in
  let! t1 := read_date fuel in
  let t1 := if bcd then map_date conv t1 else t1 in
  ret (mkDate (second t1) (minute t1) (hour t1) (day t1) (month t1) (u32 (year t1 + 2000))).

(** ** ioapic.c and picirq.c *)

Definition ioapicread (reg : Z) : dev Z :=
  do! access (Wr IOAPIC reg) in
  query (Rd (IOAPIC + 16)).

Definition ioapicwrite (reg data : Z) : dev unit :=
  do! access (Wr IOAPIC reg) in
  access (Wr (IOAPIC + 16) (u32 data)).

(** The message about an id that differs is not modelled. *)
Definition ioapicinit : dev unit :=
  let! v := ioapicread REG_VER in
  let maxintr := Z.land (Z.shiftr v 16) 0xFF in
  let! _ := ioapicread REG_ID in
  mfor (zrange 0 (Z.to_nat (maxintr + 1))) (fun i =>
    do! ioapicwrite (REG_TABLE + 2 * i) (Z.lor INT_DISABLED (T_IRQ0 + i)) in
    ioapicwrite (REG_TABLE + 2 * i + 1) 0).

Definition ioapicenable (irq cpunum : Z) : dev unit :=
  do! ioapicwrite (REG_TABLE + 2 * irq) (T_IRQ0 + irq) in
  ioapicwrite (REG_TABLE + 2 * irq + 1) (Z.shiftl cpunum 24).

Definition picinit : dev unit :=
  do! outb (IO_PIC1 + 1) 0xFF in
  outb (IO_PIC2 + 1) 0xFF.

End drivers.

(** ** What the accesses mean *)

(** The registers of the I/O APIC: a write of the first word selects one, a
    write of the data word sets it. *)
Definition io_step (st : Z * gmap Z Z) (e : event) : Z * gmap Z Z :=
  match e with
  | Wr a v => if a =? IOAPIC then (v, st.2) else if a =? IOAPIC + 16 then (st.1, <[st.1 := v]> st.2) else st
  | _ => st
  end.
Definition io_state (h : list event) : Z * gmap Z Z := fold_left io_step h (0, ∅).
Definition io_regs (h : list event) : gmap Z Z := (io_state h).2.

(** The entry of the redirection table for an interrupt. *)
Definition redirection (h : list event) (i : Z) : option (Z * Z) :=
  match io_regs h !! (REG_TABLE + 2 * i), io_regs h !! (REG_TABLE + 2 * i + 1) with
  | Some lo, Some hi => Some (lo, hi)
  | _, _ => None
  end.

(** The last write of a register of the local APIC. *)
Definition last_write (h : list event) (a : Z) : option Z :=
  fold_left (fun r e => match e with Wr b v => if b =? a then Some v else r | _ => r end) h None.

(** The interprocessor interrupts that are sent: the destination and the
    command, at each write of the low command register. *)
Definition ipi_step (lapic : Z) (st : Z * list (Z * Z)) (e : event) : Z * list (Z * Z) :=
  match e with
  | Wr a v =>
      if a =? lapic + 4 * ICRHI then (Z.shiftr v 24, st.2)
      else if a =? lapic + 4 * ICRLO then (st.1, st.2 ++ [(st.1, v)]) else st
  | _ => st
  end.
Definition ipis (lapic : Z) (h : list event) : list (Z * Z) := (fold_left (ipi_step lapic) h (0, [])).2.

(** The register of the clock chip that is selected. *)
Definition cmos_reg (h : list event) : Z :=
  fold_left (fun r e => match e with Out p v => if p =? CMOS_PORT then v else r | _ => r end) h 0.

(** Its time, in reads of the chip. *)
Definition time (h : list event) : nat := length (filter (fun e => e = In CMOS_RETURN) h).

(** The registers of the date. *)
Definition date_regs : list Z := [0; 2; 4; 7; 8; 9].

(** A chip's answers at its times; [reading chip n t]: the date read from time
    [n] on. *)
Definition reading (chip : nat -> Z -> Z) (n : nat) (t : rtcdate) : Prop :=
  t = mkDate (chip n 0) (chip (n + 1)%nat 2) (chip (n + 2)%nat 4) (chip (n + 3)%nat 7) (chip (n + 4)%nat 8) (chip (n + 5)%nat 9).

(** The packed decimal digits of a number below 100. *)
Definition to_bcd (x : Z) : Z := 16 * (x / 10) + x mod 10.

(** The processor that an interrupt has been routed to. *)
Definition routed (es : list (Z * Z)) (i : Z) : option Z := fold_left (fun r e => if e.1 =? i then Some e.2 else r) es None.

(** * Lemmas *)

Section lemmas.
Context {D : Machine}.
Implicit Types h : list event.

Lemma access_spec (Q : unit -> list event -> Prop) E e h : Q tt (h ++ [e]) -> wpx (access e) Q E h.
Proof. intros HQ. by apply wpx_modify. Qed.

Lemma query_spec (Q : Z -> list event -> Prop) E e h : Q (answer h e) (h ++ [e]) -> wpx (query e) Q E h.
Proof. intros HQ. unfold query. wp_step. apply wpx_gets. wp_step. apply access_spec. by apply wpx_ret. Qed.

(** ** The I/O APIC *)

Lemma io_state_app h e : io_state (h ++ [e]) = io_step (io_state h) e.
Proof. unfold io_state. by rewrite fold_left_app. Qed.

Lemma ioapicwrite_spec (Q : unit -> list event -> Prop) E reg data h :
  (forall h', io_regs h' = <[reg := u32 data]> (io_regs h) -> Q tt h') -> wpx (ioapicwrite reg data) Q E h.
Proof.
  intros HQ. unfold ioapicwrite. wp_step. apply access_spec. apply access_spec. apply HQ. unfold io_regs. by rewrite !io_state_app.
Qed.

Lemma ioapicread_spec (Q : Z -> list event -> Prop) E reg h :
  (forall h', io_regs h' = io_regs h -> Q (answer (h ++ [Wr IOAPIC reg]) (Rd (IOAPIC + 16))) h') -> wpx (ioapicread reg) Q E h.
Proof.
  intros HQ. unfold ioapicread. wp_step. apply access_spec. apply query_spec. apply HQ. unfold io_regs. by rewrite !io_state_app.
Qed.

(** Both words of an entry. *)
Lemma redirect_spec (Q : unit -> list event -> Prop) E i lo hi h :
  (forall h', redirection h' i = Some (u32 lo, u32 hi) -> (forall j, j <> i -> redirection h' j = redirection h j) -> Q tt h') ->
  wpx (do! ioapicwrite (REG_TABLE + 2 * i) lo in ioapicwrite (REG_TABLE + 2 * i + 1) hi) Q E h.
Proof.
  intros HQ. wp_step. apply ioapicwrite_spec. intros h1 H1. apply ioapicwrite_spec. intros h2 H2. apply HQ.
  - unfold redirection. rewrite H2, H1. by rewrite lookup_insert_ne, !lookup_insert_eq by lia.
  - intros j Hj. unfold redirection. rewrite H2, H1. by rewrite !lookup_insert_ne by lia.
Qed.

Lemma disabled_value i : 0 <= i < 256 -> u32 (Z.lor INT_DISABLED (T_IRQ0 + i)) = INT_DISABLED + T_IRQ0 + i.
Proof.
  intros Hi. pose proof (Z.add_lor_land INT_DISABLED (T_IRQ0 + i)) as Hs. assert (Hz : Z.land INT_DISABLED (T_IRQ0 + i) = 0).
  { apply Z.bits_inj_0. intros k. rewrite Z.land_spec. change INT_DISABLED with (2 ^ 16). destruct (Z.eqb_spec k 16) as [->|Hk].
    - rewrite (Z.bits_above_log2 (T_IRQ0 + i)), andb_false_r; [done|unfold T_IRQ0; lia|]. unfold T_IRQ0. apply Z.log2_lt_pow2; lia.
    - by rewrite Z.pow2_bits_false by lia. }
  rewrite Hz in Hs. rewrite u32_small; unfold INT_DISABLED, T_IRQ0, is_u32 in *; lia.
Qed.

Lemma routed_snoc es e i : routed (es ++ [e]) i = if e.1 =? i then Some e.2 else routed es i.
Proof. unfold routed. by rewrite fold_left_app. Qed.

(** ** The clock *)

Lemma cmos_read_spec (chip : nat -> Z -> Z) (Q : Z -> list event -> Prop) E reg h :
  (forall h, answer h (In CMOS_RETURN) = chip (time h) (cmos_reg h)) -> 0 <= reg < 256 -> (forall n, 0 <= chip n reg < 256) ->
  (forall h', time h' = S (time h) -> Q (chip (time h) reg) h') -> wpx (cmos_read reg) Q E h.
Proof.
  intros Ha Hr Hc HQ. unfold cmos_read. wp_step. apply access_spec. wp_step. apply wpx_ret. wp_step. apply query_spec. apply wpx_ret.
  rewrite Ha. assert (Ht : time (h ++ [Out CMOS_PORT (reg mod 256)]) = time h).
  { unfold time. rewrite filter_app, length_app, filter_cons_False, filter_nil by done. cbn [length]. lia. }
  assert (Hg : cmos_reg (h ++ [Out CMOS_PORT (reg mod 256)]) = reg) by (unfold cmos_reg; rewrite fold_left_app; cbn; apply Z.mod_small; lia).
  rewrite Ht, Hg, (Z.mod_small (chip _ _)) by apply Hc. apply HQ. rewrite <- Ht. unfold time at 1. rewrite filter_app, length_app, (filter_cons_True _ (In CMOS_RETURN)), filter_nil by done. cbn [length]. unfold time. lia.
Qed.

Lemma fill_spec (chip : nat -> Z -> Z) (Q : rtcdate -> list event -> Prop) E h :
  (forall h, answer h (In CMOS_RETURN) = chip (time h) (cmos_reg h)) -> (forall n r, 0 <= chip n r < 256) ->
  (forall t h', reading chip (time h) t -> time h' = (time h + 6)%nat -> Q t h') -> wpx fill_rtcdate Q E h.
Proof.
  intros Ha Hc HQ. unfold fill_rtcdate. do 6 (wp_step; apply (cmos_read_spec chip); [done|lia|done|]; intros ?h ?H).
  apply wpx_ret. apply HQ; [|lia]. unfold reading. f_equal; f_equal; lia.
Qed.

Lemma read_date_spec (chip : nat -> Z -> Z) n0 E fuel : forall h,
  (forall h, answer h (In CMOS_RETURN) = chip (time h) (cmos_reg h)) -> (forall n r, 0 <= chip n r < 256) ->
  (forall n, (n0 <= n < n0 + 26)%nat -> Z.land (chip n CMOS_STATA) CMOS_UIP = 0 /\ forall r, r ∈ date_regs -> chip n r = chip n0 r) ->
  (time h <= n0 + 13)%nat -> (n0 - time h < fuel)%nat ->
  wpx (read_date fuel) (fun t _ => exists n, reading chip n t /\ Z.land (chip (n + 6)%nat CMOS_STATA) CMOS_UIP = 0 /\ reading chip (n + 7) t) E h.
Proof.
  induction fuel as [|fuel IH]; intros h Ha Hc Hst Ht Hf; [lia|]. cbn [read_date]. set (n := time h) in *.
  wp_step. apply (fill_spec chip); [done..|]. intros t1 h1 R1 T1. fold n in R1, T1. wp_step. apply (cmos_read_spec chip); [done|done|done|]. intros h2 T2. rewrite T1 in *.
  unfold nz. destruct (Z.eqb_spec (Z.land (chip (n + 6)%nat CMOS_STATA) CMOS_UIP) 0) as [Hu|Hu]; cbn [negb].
  2:{ assert (Hn : (n + 6 < n0)%nat) by (destruct (decide (n + 6 < n0)%nat); [done|]; destruct Hu; apply Hst; lia). apply IH; try done; rewrite T2; lia. }
  wp_step. apply (fill_spec chip); [done..|]. intros t2 h3 R2 T3. rewrite T2 in R2, T3. case_bool_decide as He.
  - apply wpx_ret. exists n. split; [done|]. split; [done|]. rewrite He. replace (n + 7)%nat with (S (n + 6)) by lia. done.
  - assert (Hn : (n < n0)%nat).
    { destruct (decide (n < n0)%nat) as [|Hge]; [done|]. destruct He. rewrite R1, R2.
      assert (Hr : forall k r, (n <= k < n + 13)%nat -> r ∈ date_regs -> chip k r = chip n0 r) by (intros k r Hk Hr; apply Hst; [lia|done]).
      f_equal; (etransitivity; [apply Hr; [lia|unfold date_regs; by rewrite !elem_of_cons; tauto]|symmetry; apply Hr; [lia|unfold date_regs; by rewrite !elem_of_cons; tauto]]). }
    apply IH; try done; rewrite T3; lia.
Qed.

Lemma conv_bcd x : 0 <= x < 100 -> conv (to_bcd x) = x.
Proof.
  intros Hx. assert (H : forallb (fun x => conv (to_bcd x) =? x) (zrange 0 100) = true) by (vm_compute; reflexivity).
  rewrite forallb_forall in H. apply Z.eqb_eq, H, list_elem_of_In, elem_of_zrange. lia.
Qed.

(** ** The local APIC *)

Lemma lapicw_spec (Q : unit -> list event -> Prop) E lapic i v h :
  Q tt (h ++ [Wr (lapic + 4 * i) (u32 v); Rd (lapic + 4 * ID)]) -> wpx (lapicw lapic i v) Q E h.
Proof. intros HQ. unfold lapicw. wp_step. apply access_spec. wp_step. apply query_spec. apply wpx_ret. by rewrite <- app_assoc. Qed.

Lemma last_write_lapicw h lapic i v a r : last_write (h ++ [Wr (lapic + 4 * i) v; Rd a]) (lapic + 4 * r) = if i =? r then Some v else last_write h (lapic + 4 * r).
Proof.
  unfold last_write. rewrite fold_left_app. cbn [fold_left]. destruct (Z.eqb_spec i r) as [->|Hne]; [by rewrite Z.eqb_refl|]. by rewrite (proj2 (Z.eqb_neq _ _)) by lia.
Qed.

Lemma last_write_rd h a b : last_write (h ++ [Rd a]) b = last_write h b.
Proof. unfold last_write. by rewrite fold_left_app. Qed.

(** The wait ends when the APIC has delivered, after [k] more accesses at most. *)
Lemma wait_delivs_spec (Q : unit -> list event -> Prop) E lapic n fuel : forall h,
  (forall h', Z.land (answer h' (Rd (lapic + 4 * ICRLO))) DELIVS = 0 \/ (length h' < n)%nat) -> (n - length h < fuel)%nat ->
  (forall h', (forall a, last_write h' a = last_write h a) -> Q tt h') -> wpx (wait_delivs lapic fuel) Q E h.
Proof.
  induction fuel as [|fuel IH]; intros h Hd Hf HQ; [lia|]. cbn [wait_delivs]. wp_step. apply query_spec. unfold nz.
  destruct (Z.eqb_spec (Z.land (answer h (Rd (lapic + 4 * ICRLO))) DELIVS) 0) as [Hz|Hz]; cbn [negb].
  - apply wpx_ret. apply HQ. intros a. apply last_write_rd.
  - destruct (Hd h) as [?|Hl]; [done|]. apply IH; [done|rewrite length_app; cbn; lia|]. intros h' H. apply HQ. intros a. by rewrite H, last_write_rd.
Qed.

End lemmas.

(** ** Theorems *)

(** C38: interrupts go where they are routed.  Whatever the I/O APIC held before,
    after [ioapicinit] and any calls of [ioapicenable], every interrupt it has is
    either disabled, or enabled at its vector and sent to the processor of the last
    call for it; all are edge-triggered and active high. *)
Theorem ioapic_routes {D : Machine} h es :
  let maxintr := Z.land (Z.shiftr (answer (h ++ [Wr IOAPIC REG_VER]) (Rd (IOAPIC + 16))) 16) 0xFF in
  Forall (fun e => 0 <= e.1 <= maxintr /\ 0 <= e.2 < 256) es ->
  wp (do! ioapicinit in mfor es (fun e => ioapicenable e.1 e.2)) (fun _ h' => forall i, 0 <= i <= maxintr ->
    redirection h' i = Some (match routed es i with
      | Some c => (T_IRQ0 + i, c * 16777216)
      | None => (INT_DISABLED + T_IRQ0 + i, 0)
      end)) h.
Proof.
  intros maxintr Hes. assert (Hmax : 0 <= maxintr < 256).
  { unfold maxintr. change 0xFF with (Z.ones 8). rewrite Z.land_ones by lia. apply Z.mod_pos_bound. lia. }
  wp_step. unfold ioapicinit. wp_step. apply ioapicread_spec. intros h1 _. fold maxintr. wp_step. apply ioapicread_spec. intros h2 _.
  eapply wpx_mono; [apply (wpx_zrange _ (fun i h' => forall j, 0 <= j < i -> redirection h' j = Some (INT_DISABLED + T_IRQ0 + j, 0)) never)| |done].
  - intros i h3 Hi Hr. apply redirect_spec. intros h4 H1 H2 j Hj. destruct (decide (j = i)) as [->|Hne]; [|rewrite H2 by done; apply Hr; lia].
    rewrite H1, disabled_value by lia. done.
  - intros j Hj. lia.
  - intros [] h3 H3. change (forall i, 0 <= i < 0 + Z.of_nat (Z.to_nat (maxintr + 1)) -> redirection h3 i = Some (INT_DISABLED + T_IRQ0 + i, 0)) in H3.
    eapply wpx_mono; [apply (wpx_mfor _ (fun l h' => exists done, es = done ++ l /\ forall i, 0 <= i <= maxintr ->
      redirection h' i = Some (match routed done i with Some c => (T_IRQ0 + i, c * 16777216) | None => (INT_DISABLED + T_IRQ0 + i, 0) end)) never)| |done].
    + intros [irq c] l h4 (dn & He & Hd). assert (Hic : 0 <= irq <= maxintr /\ 0 <= c < 256) by (rewrite He in Hes; apply Forall_app in Hes as [_ Hes]; by apply Forall_cons in Hes as [? _]).
      cbn [fst snd]. apply redirect_spec. intros h5 H1 H2. exists (dn ++ [(irq, c)]). split; [by rewrite <- app_assoc|]. intros i Hi. rewrite routed_snoc. cbn [fst snd].
      destruct (Z.eqb_spec irq i) as [->|Hne]; [|rewrite H2 by done; by apply Hd]. rewrite H1, Z.shiftl_mul_pow2 by lia.
      by rewrite !u32_small by (unfold is_u32, T_IRQ0; lia).
    + exists []. split; [done|]. intros i Hi. apply H3. lia.
    + intros [] h4 (dn & He & Hd). by rewrite app_nil_r in He; subst dn.
Qed.

(** [cmostime] reads a date that the clock shows.  When the clock holds still
    for 26 reads at some time, the loop ends; the date it returns has been read twice,
    with no update in progress in between, and is decoded when the chip counts in
    packed decimal digits: [conv] undoes that encoding for the numbers below 100. *)
Theorem cmostime_reads {D : Machine} (chip : nat -> Z -> Z) n0 fuel h :
  (forall h, answer h (In CMOS_RETURN) = chip (time h) (cmos_reg h)) -> (forall n r, 0 <= chip n r < 256) ->
  (forall n, (n0 <= n < n0 + 26)%nat -> Z.land (chip n CMOS_STATA) CMOS_UIP = 0 /\ forall r, r ∈ date_regs -> chip n r = chip n0 r) ->
  (time h < n0)%nat -> (n0 - time h <= fuel)%nat ->
  wp (cmostime fuel) (fun r _ => exists n t, reading chip n t /\ Z.land (chip (n + 6)%nat CMOS_STATA) CMOS_UIP = 0 /\ reading chip (n + 7) t /\
    let d := if Z.land (chip (time h) CMOS_STATB) 4 =? 0 then map_date conv t else t in
    r = mkDate (second d) (minute d) (hour d) (day d) (month d) (year d + 2000)) h /\
  forall x, 0 <= x < 100 -> conv (to_bcd x) = x.
Proof.
  intros Ha Hc Hst Ht Hf. split; [|by apply conv_bcd]. unfold cmostime. wp_step. apply (cmos_read_spec chip); [done|done|done|]. intros h1 T1. wp_step.
  eapply wpx_mono; [apply (read_date_spec chip n0 never fuel h1); try done; lia| |done].
  intros t h2 (n & R1 & Hu & R2). apply wpx_ret. exists n, t. split; [done|]. split; [done|]. split; [done|]. change (Z.shiftl 1 2) with 4. cbv zeta. f_equal.
  apply u32_small. assert (Hy : 0 <= year t < 256) by (rewrite R1; apply Hc).
  destruct (_ =? 0); [|unfold is_u32; lia]. cbn [year map_date]. unfold conv. pose proof (u32_range (Z.shiftr (year t) 4 * 10 + Z.land (year t) 0xf)) as Hr.
  rewrite u32_small in *; unfold is_u32 in *; change 0xf with (Z.ones 4); rewrite Z.land_ones, Z.shiftr_div_pow2 by lia; dlia.
Qed.

(** Another processor is started by an INIT that is asserted and taken back, and
    by two STARTUPs with the page of its code, all sent to it alone; the warm
    reset vector has been set before. *)
Theorem lapicstartap_sends {D : Machine} lapic id addr h :
  0 <= id < 256 -> 0 <= addr < 0x100000 ->
  wp (lapicstartap lapic id addr) (fun _ h' =>
    let page := Z.lor STARTUP (Z.shiftr addr 12) in
    ipis lapic h' = ipis lapic h ++ [(id, 0xC500); (id, 0x8500); (id, page); (id, page)] /\
    exists tr, h' = h ++ [Out CMOS_PORT 0xF; Out (CMOS_PORT + 1) 0x0A; St16 0x80000467 0; St16 0x80000469 (Z.shiftr addr 4 mod 65536)] ++ tr) h.
Proof.
  intros Hid Haddr. unfold lapicstartap, outb, microdelay. cbn [mfor zrange]. repeat (wp_step; first [apply access_spec|apply lapicw_spec|apply wpx_ret]).
  cbv zeta. rewrite <- !app_assoc. cbn [app]. split; [|by eexists].
  assert (Hp : 0 <= Z.lor STARTUP (Z.shiftr addr 12) < 4294967296).
  { rewrite Z.shiftr_div_pow2 by lia. assert (Hq : 0 <= addr / 2 ^ 12 < 256) by dlia. split; [apply Z.lor_nonneg; unfold STARTUP; lia|].
    apply (Z.lt_le_trans _ (2 ^ 11)); [|lia]. destruct (Z.eq_dec (Z.lor STARTUP (addr / 2 ^ 12)) 0) as [->|]; [lia|].
    assert (0 <= Z.lor STARTUP (addr / 2 ^ 12)) by (apply Z.lor_nonneg; unfold STARTUP; lia). apply Z.log2_lt_pow2; [lia|]. rewrite Z.log2_lor by (unfold STARTUP; lia).
    apply Z.max_lub_lt; [done|]. destruct (Z.eq_dec (addr / 2 ^ 12) 0) as [->|]; [done|]. apply Z.log2_lt_pow2; lia. }
  unfold ipis. rewrite fold_left_app. destruct (fold_left (ipi_step lapic) h (0, [])) as [dst l]. cbn [fold_left ipi_step].
  assert (Hs : Z.shiftr (u32 (Z.shiftl id 24)) 24 = id).
  { rewrite Z.shiftl_mul_pow2, u32_small, Z.shiftr_div_pow2 by (unfold is_u32; lia). dlia. }
  rewrite !Z.eqb_refl. rewrite !(proj2 (Z.eqb_neq (lapic + 4 * ICRLO) (lapic + 4 * ICRHI))) by (unfold ICRLO, ICRHI; lia). cbn [fst snd]. rewrite Hs.
  rewrite (u32_small (Z.lor STARTUP _)) by done. rewrite <- !app_assoc. done.
Qed.

(** After [lapicinit] the local APIC is on, its timer counts periodically at the
    vector of the clock, the other local interrupts are masked and all priorities
    are let through; the wait for the message to be delivered ends when the APIC
    says so. *)
Theorem lapicinit_sets {D : Machine} lapic h fuel n :
  lapic <> 0 -> (forall h', Z.land (answer h' (Rd (lapic + 4 * ICRLO))) DELIVS = 0 \/ (length h' < n)%nat) -> (n - length h < fuel)%nat ->
  wp (lapicinit lapic fuel) (fun _ h' => forall r v, (r, v) ∈ [(SVR, 0x13F); (TDCR, X1); (TIMER, 0x20020); (TICR, 10000000); (LINT0, MASKED); (LINT1, MASKED); (ERROR, 51);
    (ESR, 0); (EOI, 0); (ICRHI, 0); (ICRLO, 0x88500); (TPR, 0)] -> last_write h' (lapic + 4 * r) = Some v) h.
Proof.
  intros Hl Hd Hf. unfold lapicinit. rewrite (proj2 (Z.eqb_neq _ _) Hl). do 6 (wp_step; apply lapicw_spec). wp_step. apply query_spec. wp_step.
  assert (Hrest : forall h1, (length h <= length h1)%nat -> (forall r v, (r, v) ∈ [(SVR, 0x13F); (TDCR, X1); (TIMER, 0x20020); (TICR, 10000000); (LINT0, MASKED); (LINT1, MASKED)] -> last_write h1 (lapic + 4 * r) = Some v) ->
    wpx (do! lapicw lapic ERROR (T_IRQ0 + IRQ_ERROR) in do! lapicw lapic ESR 0 in do! lapicw lapic ESR 0 in do! lapicw lapic EOI 0 in do! lapicw lapic ICRHI 0 in
      do! lapicw lapic ICRLO (Z.lor (Z.lor BCAST INIT) LEVEL) in do! wait_delivs lapic fuel in lapicw lapic TPR 0)
     (fun _ h' => forall r v, (r, v) ∈ [(SVR, 0x13F); (TDCR, X1); (TIMER, 0x20020); (TICR, 10000000); (LINT0, MASKED); (LINT1, MASKED); (ERROR, 51);
       (ESR, 0); (EOI, 0); (ICRHI, 0); (ICRLO, 0x88500); (TPR, 0)] -> last_write h' (lapic + 4 * r) = Some v) never h1).
  { intros h1 Hlen H1. do 6 (wp_step; apply lapicw_spec). wp_step. apply (wait_delivs_spec _ _ lapic n); [done|rewrite !length_app; cbn [length]; lia|].
    intros h2 H2. apply lapicw_spec. intros r v Hr. rewrite last_write_lapicw, H2, !last_write_lapicw.
    rewrite !elem_of_cons in Hr. repeat (destruct Hr as [[= -> ->]|Hr]; [first [reflexivity|apply H1; rewrite !elem_of_cons; tauto]|]). by apply not_elem_of_nil in Hr. }
  destruct (4 <=? _).
  - apply lapicw_spec. apply Hrest; [rewrite !length_app; lia|]. intros r v Hr. rewrite last_write_lapicw, last_write_rd, !last_write_lapicw.
    rewrite !elem_of_cons in Hr. repeat (destruct Hr as [[= -> ->]|Hr]; [reflexivity|]). by apply not_elem_of_nil in Hr.
  - apply wpx_ret. apply Hrest; [rewrite !length_app; lia|]. intros r v Hr. rewrite last_write_rd, !last_write_lapicw.
    rewrite !elem_of_cons in Hr. repeat (destruct Hr as [[= -> ->]|Hr]; [reflexivity|]). by apply not_elem_of_nil in Hr.
Qed.

(** An I/O APIC with 24 interrupts. *)
Definition demo_ioapic : Machine := fun _ _ => 0x170011.

Lemma ioapic_routes_witness : exists r h', (do! @ioapicinit demo_ioapic in mfor [(1, 0); (14, 1)] (fun e => ioapicenable e.1 e.2)) [] = Ret r h' /\
  redirection h' 1 = Some (33, 0) /\ redirection h' 14 = Some (46, 16777216) /\ redirection h' 2 = Some (0x10022, 0).
Proof.
  assert (Hes : Forall (fun e : Z * Z => 0 <= e.1 <= 23 /\ 0 <= e.2 < 256) [(1, 0); (14, 1)]) by (repeat constructor; cbn; lia).
  destruct (wp_run _ _ _ (@ioapic_routes demo_ioapic [] [(1, 0); (14, 1)] Hes)) as (r & h' & Hr & H). exists r, h'. split; [exact Hr|].
  split; [exact (H 1 ltac:(vm_compute; split; discriminate))|]. split; [exact (H 14 ltac:(vm_compute; split; discriminate))|exact (H 2 ltac:(vm_compute; split; discriminate))].
Defined.

(** A clock that is updating during its first reads, and then shows 12:34:56 on
    15 November 2026. *)
Definition demo_chip (n : nat) (r : Z) : Z :=
  if r =? CMOS_STATA then (if (n <? 9)%nat then 0x80 else 0)
  else default 0 (list_to_map (M := gmap Z Z) [(0, 0x56); (2, 0x34); (4, 0x12); (7, 0x15); (8, 0x11); (9, 0x26); (11, 2)] !! r).
Definition demo_clock : Machine := fun h _ => demo_chip (time h) (cmos_reg h).

Lemma demo_chip_byte n r : 0 <= demo_chip n r < 256.
Proof.
  unfold demo_chip. destruct (r =? CMOS_STATA); [destruct (n <? 9)%nat; lia|]. destruct (_ !! r) as [v|] eqn:E; cbn; [|lia].
  apply elem_of_list_to_map_2 in E. rewrite !elem_of_cons in E. repeat (destruct E as [[= -> ->]|E]; [lia|]). by apply not_elem_of_nil in E.
Qed.

Lemma demo_chip_still n : (9 <= n)%nat -> Z.land (demo_chip n CMOS_STATA) CMOS_UIP = 0 /\ forall r, r ∈ date_regs -> demo_chip n r = demo_chip 9 r.
Proof.
  intros Hn. unfold demo_chip. rewrite (proj2 (Nat.ltb_ge n 9)) by lia. split; [done|]. intros r Hr. unfold date_regs in Hr. rewrite !elem_of_cons in Hr.
  repeat (destruct Hr as [->|Hr]; [reflexivity|]). by apply not_elem_of_nil in Hr.
Qed.

Lemma cmostime_reads_witness : exists r h', @cmostime demo_clock 9 [] = Ret r h' /\ (exists n, reading demo_chip n (mkDate 0x56 0x34 0x12 0x15 0x11 0x26)) /\
  r = mkDate 56 34 12 15 11 2026.
Proof.
  destruct (@cmostime_reads demo_clock demo_chip 9 9 [] ltac:(reflexivity) demo_chip_byte ltac:(intros n Hn; apply demo_chip_still; lia) ltac:(cbn; lia) ltac:(cbn; lia)) as [H _].
  destruct (wp_run _ _ _ H) as (r & h' & Hr & n & t & R1 & _ & _ & Hd). exists r, h'. split; [exact Hr|].
  assert (Ht : t = mkDate 0x56 0x34 0x12 0x15 0x11 0x26) by (rewrite R1; reflexivity). split; [exists n; rewrite <- Ht; exact R1|]. rewrite Hd, Ht. reflexivity.
Defined.
