(* ===== verification/Bootmain.v ===== *)
(** * The boot loader (src/bootmain.c, src/elf.h)

    [bootmain] reads the kernel, an ELF file from sector 1 of the disk on, into
    memory at physical addresses, and calls its entry point.  The drive is that of
    Ide.v, polled instead of interrupting: [work] is the number of polls a command
    takes.  [AtaBusy] and [AtaHealthy] add to what is relied on that the drive is
    not ready while it works, and that its reads succeed: the loader does not look
    at the error bits of the status. *)

From S2P Require Import Prelude.
From S2P Require Import CString.
From S2P Require Import Bytes.
From S2P Require Import Ide.

Open Scope Z_scope.

Definition SECTSIZE : Z := 512.
Definition ELF_MAGIC : Z := 0x464C457F.

(** The scratch space for the headers. *)
Definition scratch : Z := 0x10000.

Class AtaBusy (A : Ata) `{!AtaSpec A} : Prop :=
  poll_busy : forall a u b, active a = Some (Cread u b) -> Z.land (poll a).1 192 <> 64.

Class AtaHealthy (A : Ata) `{!AtaSpec A} : Prop :=
  reads_succeed : forall a u b, active a = Some (Cread u b) -> failed (finish a) = false.

Section loader.
Context {A : Ata}.

Record boot := mkBoot { bdrive : ata; bmem : memory }.

Definition bio (f : ata -> ata) : M boot unit := modify (fun s => mkBoot (f (bdrive s)) (bmem s)).
Definition binb : M boot Z := fun s => Ret (poll (bdrive s)).1 (mkBoot (poll (bdrive s)).2 (bmem s)).

(** [waitdisk]; [Some w]: the drive works on a command for [w] more polls. *)
Fixpoint waitdisk (fuel : nat) (w : option nat) : M boot unit :=
  match fuel with
  | O => nofuel
  | S n =>
      do! (match w with Some O => bio finish | _ => ret tt end) in
      let! r := binb in
      if negb (Z.land r 0xC0 =? 0x40) then waitdisk n (match w with Some (S w') => Some w' | _ => None end)
      else ret tt
  end.

(** [readsect]; the fuel of the second wait is an argument. *)
Definition readsect (fuel work : nat) (dst offset : Z) : M boot unit :=
  let! k := gets (fun s => polls (bdrive s)) in
  do! waitdisk (S k) None in
  do! bio (outb 0x1F2 1) in
  do! bio (outb 0x1F3 (offset mod 256)) in
  do! bio (outb 0x1F4 (Z.shiftr offset 8 mod 256)) in
  do! bio (outb 0x1F5 (Z.shiftr offset 16 mod 256)) in
  do! bio (outb 0x1F6 (Z.lor (Z.shiftr offset 24) 0xE0 mod 256)) in
  do! bio (outb 0x1F7 0x20) in
  do! waitdisk fuel (Some work) in
  modify (fun s => mkBoot (insl (bdrive s)).2 (stbytes (bmem s) dst (insl (bdrive s)).1)).

(** The loop of [readseg]. *)
Fixpoint readseg_loop (fuel work n : nat) (pa epa offset : Z) : M boot unit :=
  match n with
  | O => nofuel
  | S n' =>
      if pa <? epa then
        do! readsect fuel work pa offset in
        readseg_loop fuel work n' (u32 (pa + SECTSIZE)) epa (u32 (offset + 1))
      else ret tt
  end.

Definition readseg (fuel work : nat) (pa count offset : Z) : M boot unit :=
  let epa := u32 (pa + count) in
  let pa := u32 (pa - offset mod SECTSIZE) in
  let offset := offset / SECTSIZE + 1 in
  readseg_loop fuel work (S (Z.to_nat (count / SECTSIZE + 2))) pa epa offset.

(** The loop over the program headers. *)
Fixpoint load_segments (fuel work n : nat) (ph eph : Z) : M boot unit :=
  match n with
  | O => nofuel
  | S n' =>
      if ph <? eph then
        let! m := gets bmem in
        let pa := ld32 m (ph + 12) in
        do! readseg fuel work pa (ld32 m (ph + 16)) (ld32 m (ph + 4)) in
        let! m := gets bmem in
        let filesz := ld32 m (ph + 16) in
        let memsz := ld32 m (ph + 20) in
        do! (if filesz <? memsz
             then modify (fun s => mkBoot (bdrive s) (stosb (bmem s) (u32 (pa + filesz)) 0 (Z.to_nat (memsz - filesz))))
             else ret tt) in
        load_segments fuel work n' (u32 (ph + 32)) eph
      else ret tt
  end.

(** The address that is called, if the kernel is an ELF file. *)
Definition bootmain (fuel work : nat) : M boot (option Z) :=
  do! readseg fuel work scratch 4096 0 in
  let! m := gets bmem in
  if negb (ld32 m scratch =? ELF_MAGIC) then ret None
  else
    let ph := u32 (scratch + ld32 m (scratch + 28)) in
    let phnum := ld8 m (scratch + 44) + 256 * ld8 m (scratch + 45) in
    do! load_segments fuel work (S (Z.to_nat phnum)) ph (u32 (ph + 32 * phnum)) in
    let! m := gets bmem in
    ret (Some (ld32 m (scratch + 24))).

End loader.

(** ** The file on the disk *)

(** A byte of the kernel file. *)
Definition kbyte (sec : Z -> bytes) (o : Z) : Z := default 0 (sec (o / 512 + 1) !! Z.to_nat (o mod 512)) mod 256.

Definition kword (sec : Z -> bytes) (o : Z) : Z :=
  kbyte sec o + 256 * kbyte sec (o + 1) + 65536 * kbyte sec (o + 2) + 16777216 * kbyte sec (o + 3).

(** [struct proghdr] in the file. *)
Record proghdr := mkPh { ph_off : Z; ph_paddr : Z; ph_filesz : Z; ph_memsz : Z }.
Definition get_ph (sec : Z -> bytes) (o : Z) : proghdr :=
  mkPh (kword sec (o + 4)) (kword sec (o + 12)) (kword sec (o + 16)) (kword sec (o + 20)).
Definition phdrs (sec : Z -> bytes) : list proghdr :=
  map (fun i => get_ph sec (kword sec 28 + 32 * i)) (zrange 0 (Z.to_nat (kbyte sec 44 + 256 * kbyte sec 45))).

(** Where reading a segment starts and where it stops, in whole sectors, and
    where the segment ends. *)
Definition seg_start (p : proghdr) : Z := ph_paddr p - ph_off p mod 512.
Definition read_end (p : proghdr) : Z := seg_start p + 512 * ((ph_paddr p + ph_filesz p - seg_start p + 511) / 512).
Definition seg_end (p : proghdr) : Z := ph_paddr p + Z.max (ph_filesz p) (ph_memsz p).

(** What loading a segment leaves at an address that held [v]. *)
Definition seg_byte (sec : Z -> bytes) (x v : Z) (p : proghdr) : Z :=
  if (ph_paddr p + ph_filesz p <=? x) && (x <? ph_paddr p + ph_memsz p) then 0
  else if (seg_start p <=? x) && (x <? read_end p) then kbyte sec (ph_off p + (x - ph_paddr p))
  else v.

(** The memory that loading leaves: over the first page of the file in the
    scratch space, the segments one after the other. *)
Definition boot_image (sec : Z -> bytes) (m : memory) (x : Z) : Z :=
  foldl (seg_byte sec x) (if (scratch <=? x) && (x <? scratch + 4096) then kbyte sec (x - scratch) else ld8 m x) (phdrs sec).

(** The segment is in memory: its bytes of the file, and zeros after them. *)
Definition loaded (sec : Z -> bytes) (m : memory) (p : proghdr) : Prop :=
  forall o, 0 <= o < Z.max (ph_filesz p) (ph_memsz p) ->
    ld8 m (ph_paddr p + o) = if o <? ph_filesz p then kbyte sec (ph_off p + o) else 0.

(** The segment is read above the scratch space, and ends below the top of the
    address space and of the disk's addresses. *)
Definition seg_above (p : proghdr) : Prop :=
  scratch + 4096 <= seg_start p /\ seg_end p + 1024 <= 4294967296 /\ ph_off p + ph_filesz p + 4096 <= 512 * 268435456.

(** The headers are in the page that is read first, and the segments above it. *)
Definition bootable (sec : Z -> bytes) : Prop :=
  kword sec 28 + 32 * (kbyte sec 44 + 256 * kbyte sec 45) <= 4096 /\ Forall seg_above (phdrs sec).

(** Each segment is clear of the sectors that are read after it. *)
Fixpoint stacked (ps : list proghdr) : Prop :=
  match ps with
  | [] => True
  | p :: ps' => Forall (fun q => seg_end p <= seg_start q) ps' /\ stacked ps'
  end.

(** * Lemmas *)

Section proofs.
Context {A : Ata} `{HS : !AtaSpec A} `{HB : !AtaBusy A} `{HH : !AtaHealthy A}.
Context (fuel work : nat).
Hypothesis Hfuel : forall a u b, active a = Some (Cread u b) -> (work + polls (finish a) + 1 < fuel)%nat.

(** Waiting for a drive that has nothing to do, or has data. *)
Lemma waitdisk_quiet (Q : unit -> boot -> Prop) E n : forall s, quiet (bdrive s) -> (polls (bdrive s) < n)%nat ->
  (forall a, active a = active (bdrive s) -> sectors a = sectors (bdrive s) -> Q tt (mkBoot a (bmem s))) -> wpx (waitdisk n None) Q E s.
Proof.
  induction n as [|n IH]; intros s Hq Hn HQ; [lia|]. cbn [waitdisk]. wp_step. apply wpx_ret. wp_step. unfold binb, wpx at 1. cbn beta iota.
  destruct (poll_keeps (bdrive s)) as (K1 & K2 & _). destruct (Z.eqb_spec (Z.land (poll (bdrive s)).1 0xC0) 0x40) as [He|Hne]; cbn [negb].
  - apply wpx_ret. by apply HQ.
  - destruct (poll_ready (bdrive s) Hq) as [|Hless]; [done|]. apply IH; cbn [bdrive bmem]; [unfold quiet; by rewrite K1|lia|].
    intros a H1 H2. apply HQ; congruence.
Qed.

(** Waiting for the data of a command. *)
Lemma waitdisk_data (Q : unit -> boot -> Prop) E u b w : forall n s, active (bdrive s) = Some (Cread u b) ->
  (forall a, active a = Some (Cread u b) -> (w + polls (finish a) + 1 < n)%nat) ->
  (forall a, active a = Some (Cdata u b) -> sectors a = sectors (bdrive s) -> Q tt (mkBoot a (bmem s))) -> wpx (waitdisk n (Some w)) Q E s.
Proof.
  induction w as [|w IH]; intros n s Ha Hn HQ; pose proof (Hn _ Ha) as Hn'; (destruct n as [|n]; [lia|]).
  - destruct (finish_read (bdrive s) u b Ha) as [F1 F2]. rewrite (reads_succeed _ _ _ Ha) in F1. cbn [waitdisk]. wp_step. apply wpx_modify. wp_step. unfold binb, wpx at 1. cbn beta iota. cbn [bdrive bmem].
    destruct (poll_keeps (finish (bdrive s))) as (K1 & K2 & _). destruct (Z.eqb_spec (Z.land (poll (finish (bdrive s))).1 0xC0) 0x40) as [He|Hne]; cbn [negb].
    + apply wpx_ret. apply HQ; congruence.
    + assert (Hq : quiet (finish (bdrive s))) by (right; eauto). destruct (poll_ready _ Hq) as [|Hless]; [done|].
      apply waitdisk_quiet; cbn [bdrive bmem]; [unfold quiet; by rewrite K1|lia|]. intros a H1 H2. apply HQ; congruence.
  - cbn [waitdisk]. wp_step. apply wpx_ret. wp_step. unfold binb, wpx at 1. cbn beta iota. destruct (poll_keeps (bdrive s)) as (K1 & K2 & _).
    rewrite (proj2 (Z.eqb_neq _ _) (poll_busy _ _ _ Ha)). cbn [negb]. apply IH; cbn [bdrive bmem]; [by rewrite K1|intros a Ha'; specialize (Hn a Ha'); lia|].
    intros a H1 H2. apply HQ; congruence.
Qed.

Lemma readsect_spec (Q : unit -> boot -> Prop) E s dst off : active (bdrive s) = None -> 0 <= off < 268435456 ->
  (forall a, active a = None -> sectors a = sectors (bdrive s) -> Q tt (mkBoot a (stbytes (bmem s) dst (sectors (bdrive s) 0 off)))) ->
  wpx (readsect fuel work dst off) Q E s.
Proof.
  intros Ha Ho HQ. unfold readsect. wp_step. apply wpx_gets. wp_step. apply waitdisk_quiet; [by left|lia|]. intros a0 A0 S0. rewrite Ha in A0.
  destruct (lba_registers 0 off (or_introl eq_refl) Ho) as (H6 & Hun & Hbit & Hlba).
  assert (Hm : forall x, Z.land x 255 = x mod 256) by (intros x; change 255 with (Z.ones 8); apply Z.land_ones; lia).
  assert (Hr6 : Z.lor (Z.shiftr off 24) 0xE0 mod 256 = Z.lor (Z.lor 224 (Z.shiftl 0 4)) (Z.land (Z.shiftr off 24) 15)).
  { rewrite Z.lor_comm. change (Z.lor 224 (Z.shiftl 0 4)) with 224 in *. assert (Hs : Z.land (Z.shiftr off 24) 15 = Z.shiftr off 24).
    { change 15 with (Z.ones 4). rewrite Z.land_ones, Z.shiftr_div_pow2 by lia. apply Z.mod_small. dlia. }
    rewrite Hs in *. apply Z.mod_small. lia. }
  rewrite !Hm in *. rewrite Hr6. set (r6 := Z.lor (Z.lor 224 (Z.shiftl 0 4)) (Z.land (Z.shiftr off 24) 15)) in *.
  destruct (out_reg a0 0x1F2 1 A0) as (A1 & S1 & R1); [done..|].
  destruct (out_reg _ 0x1F3 (off mod 256) A1) as (A2 & S2 & R2); [done|dlia|].
  destruct (out_reg _ 0x1F4 (Z.shiftr off 8 mod 256) A2) as (A3 & S3 & R3); [done|apply Z.mod_pos_bound; lia|].
  destruct (out_reg _ 0x1F5 (Z.shiftr off 16 mod 256) A3) as (A4 & S4 & R4); [done|apply Z.mod_pos_bound; lia|].
  destruct (out_reg _ 0x1F6 r6 A4) as (A5 & S5 & R5); [done|done|]. set (a5 := outb 0x1F6 r6 _) in *.
  assert (Hcmd : active (outb 0x1F7 0x20 a5) = Some (Cread 0 off)).
  { change 0x1F7 with 503. change 0x20 with IDE_CMD_READ. rewrite outb_read; [|done|..].
    - f_equal. f_equal; [unfold reg_unit|unfold reg_lba]; rewrite !R5, !R4, !R3, !R2; repeat (rewrite decide_True by done || rewrite decide_False by done); done.
    - rewrite !R5, !R4, !R3, !R2, !R1. by repeat (rewrite decide_True by done || rewrite decide_False by done).
    - rewrite !R5. by rewrite decide_True by done. }
  assert (Hsec : sectors (outb 0x1F7 0x20 a5) = sectors (bdrive s)) by (rewrite outb_keeps by done; congruence).
  do 6 (wp_step; apply wpx_modify). cbn [bdrive bmem]. fold a5. wp_step. apply (waitdisk_data _ _ 0 off); cbn [bdrive bmem]; [done|intros a Ha'; by apply (Hfuel a 0 off)|].
  intros a7 A7 S7. apply wpx_modify. cbn [bdrive bmem]. destruct (insl_data a7 0 off A7) as (I1 & I2 & I3). rewrite I1, S7, Hsec. apply HQ; [done|congruence].
Qed.

(** ** Reading parts of the file *)

Context (sec : Z -> bytes).
Hypothesis Hlen : forall b, length (sec b) = 512%nat.

(** The drive is idle, and its disk is the one. *)
Definition ready (a : ata) : Prop := active a = None /\ sectors a 0 = sec.

Lemma readseg_loop_spec (Q : unit -> boot -> Prop) E n : forall pa epa off s, ready (bdrive s) -> 0 <= pa -> epa + 512 <= 4294967296 -> 1 <= off -> off + Z.of_nat n <= 268435456 ->
  epa - pa <= 512 * (Z.of_nat n - 1) -> (0 < n)%nat ->
  (forall a m, ready a -> (forall x, ld8 m x = if (pa <=? x) && (x <? pa + 512 * ((epa - pa + 511) / 512))
     then kbyte sec (512 * (off - 1) + (x - pa)) else ld8 (bmem s) x) -> Q tt (mkBoot a m)) ->
  wpx (readseg_loop fuel work n pa epa off) Q E s.
Proof.
  induction n as [|n IH]; intros pa epa off s [Ha Hs] Hpa He Ho Hn Hturns Hpos HQ; [lia|]. cbn [readseg_loop]. destruct (Z.ltb_spec pa epa) as [Hlt|Hge].
  2:{ apply wpx_ret. destruct s as [d m]. apply HQ; [done|]. intros x. destruct (Z.leb_spec pa x); [|done]. by rewrite (proj2 (Z.ltb_ge _ _)) by dlia. }
  wp_step. apply readsect_spec; [done|lia|]. intros a A1 S1. unfold SECTSIZE. rewrite !u32_small by (unfold is_u32; lia).
  apply IH; cbn [bdrive bmem]; [split; [done|by rewrite S1]|lia..|]. intros a' m R H1. apply HQ; [done|]. intros x. rewrite H1, ld8_stbytes, Hs, Hlen.
  replace (pa + 512 + 512 * ((epa - (pa + 512) + 511) / 512)) with (pa + 512 * ((epa - pa + 511) / 512)) by dlia.
  set (top := pa + 512 * ((epa - pa + 511) / 512)). assert (pa + 512 <= top) by (unfold top; dlia).
  destruct (Z.leb_spec (pa + 512) x) as [Hx|Hx].
  - rewrite (proj2 (Z.leb_le pa x)) by lia. rewrite (proj2 (Z.ltb_ge x (pa + Z.of_nat 512))) by lia. cbn [andb].
    destruct (x <? top); [|done]. f_equal. lia.
  - cbn [andb]. destruct (Z.leb_spec pa x) as [Hp|Hp]; [|done]. rewrite (proj2 (Z.ltb_lt x top)), (proj2 (Z.ltb_lt x (pa + Z.of_nat 512))) by lia. cbn [andb].
    unfold kbyte. replace ((512 * (off - 1) + (x - pa)) / 512 + 1) with off by dlia. by replace ((512 * (off - 1) + (x - pa)) mod 512) with (x - pa) by dlia.
Qed.

Lemma readseg_spec (Q : unit -> boot -> Prop) E pa count off s : ready (bdrive s) -> 0 <= count -> 0 <= off -> 0 <= pa - off mod 512 ->
  pa + count + 512 <= 4294967296 -> off + count + 4096 <= 512 * 268435456 ->
  (forall a m, ready a -> (let start := pa - off mod 512 in forall x, ld8 m x =
     if (start <=? x) && (x <? start + 512 * ((pa + count - start + 511) / 512)) then kbyte sec (off + (x - pa)) else ld8 (bmem s) x) -> Q tt (mkBoot a m)) ->
  wpx (readseg fuel work pa count off) Q E s.
Proof.
  intros R Hc Ho Hp He Hd HQ. unfold readseg, SECTSIZE. cbv zeta. rewrite !u32_small by (unfold is_u32; dlia).
  apply readseg_loop_spec; [done|lia|lia|dlia|dlia|dlia|lia|]. intros a m R' H1. apply HQ; [done|].
  intros start x. rewrite H1. fold start. destruct (_ && _); [|done]. f_equal. unfold start. dlia.
Qed.

(** ** The headers *)

(** The first page of the file is in the scratch space. *)
Definition headers (m : memory) : Prop := forall o, 0 <= o < 4096 -> ld8 m (scratch + o) = kbyte sec o.

Lemma headers_word m o : headers m -> 0 <= o -> o + 4 <= 4096 -> ld32 m (scratch + o) = kword sec o.
Proof. intros H H1 H2. unfold ld32, kword. rewrite <- !Z.add_assoc. rewrite !H by lia. done. Qed.

Lemma kword_range o : 0 <= kword sec o < 4294967296.
Proof. unfold kword, kbyte. repeat match goal with |- context [?x mod 256] => let H := fresh in pose proof (Z.mod_pos_bound x 256 ltac:(lia)) as H; generalize dependent (x mod 256); intros end. lia. Qed.

Lemma kword_nonneg o : 0 <= kword sec o.
Proof. apply kword_range. Qed.

Lemma seg_byte_below x v p : seg_above p -> 0 <= ph_off p -> 0 <= ph_filesz p -> x < scratch + 4096 -> seg_byte sec x v p = v.
Proof.
  intros (H1 & _) Ho Hf Hx. unfold seg_byte, seg_start in *. pose proof (Z.mod_pos_bound (ph_off p) 512 ltac:(lia)).
  rewrite (proj2 (Z.leb_gt (ph_paddr p + ph_filesz p) x)) by lia. cbn [andb]. by rewrite (proj2 (Z.leb_gt _ x)) by lia.
Qed.

(** Zeroing what the file does not fill. *)
Lemma zero_rest_spec (Q : unit -> boot -> Prop) E a m m0 p : seg_above p -> 0 <= ph_off p -> 0 <= ph_filesz p ->
  (forall x, ld8 m x = if (seg_start p <=? x) && (x <? read_end p) then kbyte sec (ph_off p + (x - ph_paddr p)) else ld8 m0 x) ->
  (forall m', (forall x, ld8 m' x = seg_byte sec x (ld8 m0 x) p) -> Q tt (mkBoot a m')) ->
  wpx (if ph_filesz p <? ph_memsz p then modify (fun s => mkBoot (bdrive s) (stosb (bmem s) (u32 (ph_paddr p + ph_filesz p)) 0 (Z.to_nat (ph_memsz p - ph_filesz p)))) else ret tt) Q E (mkBoot a m).
Proof.
  intros (A1 & A2 & _) Ho Hf Hm HQ. unfold seg_start, seg_end, scratch in A1, A2. pose proof (Z.mod_pos_bound (ph_off p) 512 ltac:(lia)) as Hmod.
  destruct (Z.ltb_spec (ph_filesz p) (ph_memsz p)) as [Hb|Hb].
  - apply wpx_modify. cbn [bdrive bmem]. rewrite u32_small by (unfold is_u32; lia). apply HQ. intros x. rewrite ld8_stosb, Hm. unfold seg_byte.
    replace (ph_paddr p + ph_filesz p + Z.of_nat (Z.to_nat (ph_memsz p - ph_filesz p))) with (ph_paddr p + ph_memsz p) by lia. done.
  - apply wpx_ret. apply HQ. intros x. rewrite Hm. unfold seg_byte. destruct (Z.leb_spec (ph_paddr p + ph_filesz p) x); [|done].
    by rewrite (proj2 (Z.ltb_ge x (ph_paddr p + ph_memsz p))) by lia.
Qed.

Lemma load_segments_spec (Q : unit -> boot -> Prop) E (k : nat) : forall n i s, (k < n)%nat -> 0 <= i -> kword sec 28 + 32 * (i + Z.of_nat k) <= 4096 ->
  ready (bdrive s) -> headers (bmem s) ->
  let ps := map (fun i => get_ph sec (kword sec 28 + 32 * i)) (zrange i k) in
  Forall seg_above ps ->
  (forall s', headers (bmem s') -> (forall x, ld8 (bmem s') x = foldl (seg_byte sec x) (ld8 (bmem s) x) ps) -> Q tt s') ->
  wpx (load_segments fuel work n (scratch + kword sec 28 + 32 * i) (scratch + kword sec 28 + 32 * (i + Z.of_nat k))) Q E s.
Proof.
  induction k as [|k IH]; intros n i s Hn Hi Hfit R Hh ps Hst HQ; (destruct n as [|n]; [lia|]); cbn [load_segments].
  - rewrite (proj2 (Z.ltb_ge _ _)) by lia. apply wpx_ret. by apply HQ.
  - rewrite (proj2 (Z.ltb_lt _ _)) by lia. unfold ps in *. cbn [zrange map foldl] in *. set (o := kword sec 28 + 32 * i) in *. set (p := get_ph sec o) in *.
    apply Forall_cons in Hst as [Hp Hst]. pose proof (kword_range 28) as H28.
    replace (scratch + kword sec 28 + 32 * i) with (scratch + o) by lia.
    assert (Hw : forall m, headers m -> forall d, 0 <= d <= 28 -> ld32 m (scratch + o + d) = kword sec (o + d)) by (intros m Hm d Hd; rewrite <- Z.add_assoc; apply headers_word; [done|lia..]).
    pose proof (kword_nonneg (o + 4) : 0 <= ph_off p) as P1. pose proof (kword_nonneg (o + 16) : 0 <= ph_filesz p) as P2.
    wp_step. apply wpx_gets. cbv zeta. rewrite !(Hw _ Hh) by lia. change (kword sec (o + 12)) with (ph_paddr p). change (kword sec (o + 16)) with (ph_filesz p). change (kword sec (o + 4)) with (ph_off p).
    pose proof Hp as (A1 & A2 & A3). unfold seg_start, seg_end, scratch in A1, A2. wp_step. apply readseg_spec; [done|lia..|]. intros a m R' Hm. cbv zeta in Hm.
    fold (seg_start p) (read_end p) in Hm. pose proof (Z.mod_pos_bound (ph_off p) 512 ltac:(lia)) as Hmod.
    assert (Hh1 : headers m) by (intros d Hd; rewrite Hm, (proj2 (Z.leb_gt (seg_start p) _)) by (unfold seg_start, scratch; lia); by apply Hh).
    wp_step. apply wpx_gets. cbn [bmem]. cbv zeta. rewrite !(Hw _ Hh1) by lia. change (kword sec (o + 16)) with (ph_filesz p). change (kword sec (o + 20)) with (ph_memsz p).
    wp_step. apply (zero_rest_spec _ _ _ _ (bmem s) p Hp P1 P2 Hm). intros m' Hm'.
    assert (Hh' : headers m') by (intros d Hd; rewrite Hm', seg_byte_below by (done || lia); by apply Hh).
    rewrite u32_small by (unfold is_u32, scratch; lia). replace (scratch + o + 32) with (scratch + kword sec 28 + 32 * (i + 1)) by lia.
    replace (i + Z.of_nat (S k)) with (i + 1 + Z.of_nat k) by lia. apply IH; [lia|lia|lia|done|done|done|]. intros s' Hs' Hx. apply HQ; [done|].
    intros x. by rewrite Hx, <- Hm'.
Qed.

(** What later segments leave. *)
Lemma seg_byte_clear p ps x v : Forall (fun q => seg_end p <= seg_start q /\ 0 <= ph_off q /\ 0 <= ph_filesz q) ps -> x < seg_end p -> foldl (seg_byte sec x) v ps = v.
Proof.
  induction 1 as [|q ps (H1 & H2 & H3) _ IH] in v |- *; intros Hx; [done|]. cbn [foldl].
  pose proof (Z.mod_pos_bound (ph_off q) 512 ltac:(lia)). replace (seg_byte sec x v q) with v; [by apply IH|]. unfold seg_byte, seg_start in *.
  rewrite (proj2 (Z.leb_gt (ph_paddr q + ph_filesz q) x)), (proj2 (Z.leb_gt _ x)) by lia. done.
Qed.

Lemma stacked_loaded m ps : Forall (fun q => 0 <= ph_off q /\ 0 <= ph_filesz q) ps -> stacked ps -> forall f,
  (forall x, ld8 m x = foldl (seg_byte sec x) (f x) ps) -> Forall (loaded sec m) ps.
Proof.
  induction 1 as [|p ps [Ho Hf] Hps IH]; intros Hst f Hm; [done|]. destruct Hst as [Hp Hst]. cbn [foldl] in Hm. constructor.
  - intros o Hd. rewrite Hm, (seg_byte_clear p); [|apply Forall_and; by split|unfold seg_end; lia]. unfold seg_byte.
    pose proof (Z.mod_pos_bound (ph_off p) 512 ltac:(lia)). destruct (Z.ltb_spec o (ph_filesz p)) as [Hl|Hl].
    + rewrite (proj2 (Z.leb_gt (ph_paddr p + ph_filesz p) _)) by lia. cbn [andb]. rewrite (proj2 (Z.leb_le _ _)), (proj2 (Z.ltb_lt _ _)) by (unfold read_end, seg_start; dlia).
      cbn [andb]. f_equal. lia.
    + by rewrite (proj2 (Z.leb_le _ _)), (proj2 (Z.ltb_lt _ _)) by lia.
  - by apply (IH Hst (fun x => seg_byte sec x (f x) p)).
Qed.

Lemma phdrs_nonneg : Forall (fun q => 0 <= ph_off q /\ 0 <= ph_filesz q) (phdrs sec).
Proof. unfold phdrs. apply Forall_fmap, Forall_forall. intros i _. split; apply kword_nonneg. Qed.

End proofs.

(** ** Theorems *)

(** C36: the boot loader loads the kernel.  Let the disk hold a file from sector
    1 on.  If the file does not start with the ELF magic number, [bootmain]
    returns.  If it does, with its headers in the first page and its segments
    above the scratch space, the memory at the end is, at every address, exactly
    what loading the segments in their order leaves: whole sectors from the one
    of the first byte on, then zeros to the end of the segment; and the entry point
    is called.  A segment is overwritten by a later one that starts less than a
    sector above it; when no later segment is read over an earlier one, each one
    is in memory in the end, the bytes of the file first and zeros after them.  The
    drive may take any number of polls for a sector, and fails none. *)
Theorem bootmain_loads `{A : Ata} `{HS : !AtaSpec A} `{HB : !AtaBusy A} `{HH : !AtaHealthy A} fuel work sec s :
  (forall a u b, active a = Some (Cread u b) -> (work + polls (finish a) + 1 < fuel)%nat) ->
  (forall b, length (sec b) = 512%nat) -> active (bdrive s) = None -> sectors (bdrive s) 0 = sec ->
  (kword sec 0 = ELF_MAGIC -> bootable sec) ->
  wp (bootmain fuel work) (fun r s' =>
    if kword sec 0 =? ELF_MAGIC then
      r = Some (kword sec 24) /\ (forall x, ld8 (bmem s') x = boot_image sec (bmem s) x) /\
      (stacked (phdrs sec) -> Forall (loaded sec (bmem s')) (phdrs sec))
    else r = None) s.
Proof.
  intros Hf Hlen Ha Hs Hfit. pose proof (kword_range sec 28) as H28. unfold bootmain. wp_step.
  apply (readseg_spec fuel work Hf sec Hlen); [done|lia|lia|done|unfold scratch; lia|lia|]. intros a m R H1. cbv zeta in H1.
  change (0 mod 512) with 0 in H1. rewrite Z.sub_0_r in H1. replace (scratch + 512 * ((scratch + 4096 - scratch + 511) / 512)) with (scratch + 4096) in H1 by dlia.
  wp_step. apply wpx_gets. cbn [bmem].
  assert (Hh : headers sec m) by (intros o Ho; rewrite H1, (proj2 (Z.leb_le _ _)), (proj2 (Z.ltb_lt _ _)) by lia; cbn [andb]; f_equal; lia).
  assert (Hw : forall o, 0 <= o -> o + 4 <= 4096 -> ld32 m (scratch + o) = kword sec o) by (intros o O1 O2; by apply headers_word).
  replace (ld32 m scratch) with (kword sec 0) by (rewrite <- Hw by lia; f_equal; lia).
  destruct (Z.eqb_spec (kword sec 0) ELF_MAGIC) as [Hmag|]; cbn [negb]; [|by apply wpx_ret]. destruct (Hfit Hmag) as [Hpage Habove].
  rewrite Hw by lia. cbv zeta. rewrite !(Hh 44), !(Hh 45) by lia.
  assert (Hk : 0 <= kbyte sec 44 + 256 * kbyte sec 45) by (unfold kbyte; pose proof (Z.mod_pos_bound (default 0 (sec (44 / 512 + 1) !! Z.to_nat (44 mod 512))) 256); pose proof (Z.mod_pos_bound (default 0 (sec (45 / 512 + 1) !! Z.to_nat (45 mod 512))) 256); lia).
  set (num := kbyte sec 44 + 256 * kbyte sec 45) in *. rewrite !u32_small by (unfold is_u32, scratch; lia). wp_step.
  replace (scratch + kword sec 28) with (scratch + kword sec 28 + 32 * 0) by lia. replace (scratch + kword sec 28 + 32 * 0 + 32 * num) with (scratch + kword sec 28 + 32 * (0 + Z.of_nat (Z.to_nat num))) by lia.
  apply (load_segments_spec fuel work Hf sec Hlen _ _ (Z.to_nat num) _ 0); [lia|lia|lia|done|done|done|].
  intros s' Hh' HF. fold num in HF. wp_step. apply wpx_gets. apply wpx_ret. split; [f_equal; by apply headers_word|].
  assert (Himg : forall x, ld8 (bmem s') x = boot_image sec (bmem s) x).
  { intros x. rewrite HF. unfold boot_image. cbn [bmem]. rewrite H1. by replace (0 + (x - scratch)) with (x - scratch) by lia. }
  split; [exact Himg|]. intros Hst. exact (stacked_loaded sec _ _ (phdrs_nonneg sec) Hst _ Himg).
Qed.

(** A drive that is busy until its command ends, with a kernel of one segment: five
    bytes of the file from offset 514 on at 0x100000, and three zeros. *)
Definition slow_poll (a : toy) : Z * toy :=
  match ty_act a with Some (Cread _ _) => (128, a) | _ => toy_poll a end.
#[local] Instance slow_ata : Ata := Build_Ata toy toy_outb toy_outsl slow_poll toy_insl (toy_finish no_bad) ty_busy.

#[local] Instance slow_spec : AtaSpec slow_ata.
Proof.
  unshelve eapply (Build_AtaSpec slow_ata ty_reg ty_act ty_sec ty_err); cbn; unfold slow_poll.
  - exact (outb_reg (A := toy_ata no_bad)).
  - exact (outb_idle (A := toy_ata no_bad)).
  - exact (outb_keeps (A := toy_ata no_bad)).
  - exact (outb_read (A := toy_ata no_bad)).
  - exact (outb_write (A := toy_ata no_bad)).
  - exact (outsl_write (A := toy_ata no_bad)).
  - exact (finish_read (A := toy_ata no_bad)).
  - exact (finish_write (A := toy_ata no_bad)).
  - exact (insl_data (A := toy_ata no_bad)).
  - intros a. unfold toy_poll. destruct (ty_act a) as [[]|] eqn:Ea, (ty_busy a); cbn; rewrite ?Ea; done.
  - unfold toy_poll. intros a [-> |(u & b & ->)]; (destruct (ty_busy a); [left; by destruct (ty_err a)|right; cbn; lia]).
  - intros a. unfold toy_poll. destruct (ty_act a) as [[]|], (ty_busy a); try done; by destruct (ty_err a).
Defined.

#[local] Instance slow_busy : AtaBusy slow_ata.
Proof. intros a u b Ha. cbn. unfold slow_poll. cbn in Ha. by rewrite Ha. Qed.

#[local] Instance slow_healthy : AtaHealthy slow_ata.
Proof. intros a u b Ha. cbn in *. unfold toy_finish. by rewrite Ha. Qed.

Definition demo_elf : bytes :=
  le32 ELF_MAGIC ++ replicate 20 0 ++ le32 0x10000C ++ le32 52 ++ replicate 12 0 ++ le16 1 ++ replicate 6 0 ++
  le32 1 ++ le32 514 ++ le32 0x80100000 ++ le32 0x100000 ++ le32 5 ++ le32 8 ++ replicate 436 0.
Definition demo_sectors (b : Z) : bytes := if b =? 1 then demo_elf else if b =? 2 then [1; 2; 3; 4; 5; 6; 7] ++ replicate 505 9 else replicate 512 0.
Definition demo_boot : boot := mkBoot (A := slow_ata) (mkToy (fun _ => 0) None (fun _ => demo_sectors) 1 false) ∅.

Lemma bootmain_loads_witness : exists r s', bootmain (A := slow_ata) 10 3 demo_boot = Ret r s' /\ r = Some 0x10000C /\
  forall o, 0 <= o < 8 -> ld8 (bmem s') (0x100000 + o) = if o <? 5 then o + 3 else 0.
Proof.
  assert (Hph : phdrs demo_sectors = [mkPh 514 0x100000 5 8]) by (vm_compute; reflexivity).
  assert (Hm : (kword demo_sectors 0 =? ELF_MAGIC) = true) by (vm_compute; reflexivity).
  assert (He : kword demo_sectors 24 = 0x10000C) by (vm_compute; reflexivity).
  assert (Hfit : kword demo_sectors 28 + 32 * (kbyte demo_sectors 44 + 256 * kbyte demo_sectors 45) <= 4096) by (vm_compute; discriminate).
  assert (Hb : forallb (fun o => kbyte demo_sectors (514 + o) =? o + 3) (zrange 0 5) = true) by (vm_compute; reflexivity).
  assert (Hlen : forall b, length (demo_sectors b) = 512%nat) by (intros b; unfold demo_sectors; destruct (b =? 1); [reflexivity|]; destruct (b =? 2); reflexivity).
  assert (Hst : Forall seg_above (phdrs demo_sectors)) by (rewrite Hph; repeat constructor; vm_compute; discriminate).
  assert (Hpoll : forall (a : ata) u b, active a = Some (Cread u b) -> (3 + polls (finish a) + 1 < 10)%nat) by (intros a u b Ha; cbn in *; unfold toy_finish; rewrite Ha; cbn; lia).
  pose proof (bootmain_loads (A := slow_ata) 10 3 demo_sectors demo_boot Hpoll Hlen eq_refl eq_refl (fun _ => conj Hfit Hst)) as H.
  rewrite Hm, He, Hph in H. destruct (wp_run _ _ _ H) as (r & s' & Hr & -> & _ & HF). exists (Some 0x10000C), s'. split; [exact Hr|]. split; [reflexivity|].
  specialize (HF (conj (Forall_nil_2 _) I)).
  intros o Ho. apply Forall_cons in HF as [HF _]. pose proof (HF o ltac:(cbn; lia)) as Hl. cbn [ph_paddr ph_filesz ph_off] in Hl. rewrite Hl.
  destruct (Z.ltb_spec o 5) as [H5|H5]; [|reflexivity]. rewrite forallb_forall in Hb. apply Z.eqb_eq, Hb, list_elem_of_In, elem_of_zrange. lia.
Defined.
