(* ===== verification/Descr.v ===== *)
(** * Segments and gates (src/mmu.h, src/vm.c: seginit, switchkvm, switchuvm,
    src/trap.c: tvinit, idtinit, src/x86.h: lgdt, lidt, ltr, lcr3)

    The kernel describes its segments, its interrupt handlers and the task state
    to the processor in descriptors of 64 bits with split fields.  [seginit],
    [tvinit] and [switchuvm] fill them in; how the processor reads them back is
    written down from its manual. *)

From S2P Require Import Prelude.
From S2P Require Import Mmu.

Open Scope Z_scope.

Definition SEG_KCODE : Z := 1.
Definition SEG_KDATA : Z := 2.
Definition SEG_UCODE : Z := 3.
Definition SEG_UDATA : Z := 4.
Definition SEG_TSS : Z := 5.
Definition DPL_USER : Z := 3.
Definition STA_X : Z := 8.
Definition STA_W : Z := 2.
Definition STA_R : Z := 2.
Definition STS_T32A : Z := 9.
Definition STS_IG32 : Z := 14.
Definition STS_TG32 : Z := 15.
Definition T_SYSCALL : Z := 64.

(** [struct segdesc] *)
Record segdesc := mkSeg {
  lim_15_0 : Z; base_15_0 : Z;
  base_23_16 : Z; sd_type : Z; sd_s : Z; sd_dpl : Z; sd_p : Z; lim_19_16 : Z; avl : Z; rsv1 : Z; db : Z; g : Z; base_31_24 : Z;
}.

Definition set_s (v : Z) (d : segdesc) : segdesc :=
  mkSeg (lim_15_0 d) (base_15_0 d) (base_23_16 d) (sd_type d) v (sd_dpl d) (sd_p d) (lim_19_16 d) (avl d) (rsv1 d) (db d) (g d) (base_31_24 d).

Definition SEG (type base lim dpl : Z) : segdesc :=
  mkSeg (Z.land (Z.shiftr lim 12) 0xffff) (Z.land base 0xffff)
    (Z.land (Z.shiftr base 16) 0xff) type 1 dpl 1 (Z.shiftr lim 28) 0 0 1 1 (Z.shiftr base 24).

Definition SEG16 (type base lim dpl : Z) : segdesc :=
  mkSeg (Z.land lim 0xffff) (Z.land base 0xffff)
    (Z.land (Z.shiftr base 16) 0xff) type 1 dpl 1 (Z.shiftr lim 16) 0 0 1 0 (Z.shiftr base 24).

(** The two words of the descriptor; a field keeps the low bits of what is
    assigned to it. *)
Definition bits (n v : Z) : Z := v mod 2 ^ n.
Definition seg_words (d : segdesc) : Z * Z :=
  (bits 16 (lim_15_0 d) + 2 ^ 16 * bits 16 (base_15_0 d),
   bits 8 (base_23_16 d) + 2 ^ 8 * bits 4 (sd_type d) + 2 ^ 12 * bits 1 (sd_s d) + 2 ^ 13 * bits 2 (sd_dpl d) + 2 ^ 15 * bits 1 (sd_p d) +
   2 ^ 16 * bits 4 (lim_19_16 d) + 2 ^ 20 * bits 1 (avl d) + 2 ^ 21 * bits 1 (rsv1 d) + 2 ^ 22 * bits 1 (db d) + 2 ^ 23 * bits 1 (g d) +
   2 ^ 24 * bits 8 (base_31_24 d)).

(** [struct gatedesc] *)
Record gatedesc := mkGate {
  off_15_0 : Z; gd_cs : Z;
  args : Z; gd_rsv1 : Z; gd_type : Z; gd_s : Z; gd_dpl : Z; gd_p : Z; off_31_16 : Z;
}.

Definition SETGATE (istrap : bool) (sel off d : Z) : gatedesc :=
  mkGate (Z.land off 0xffff) sel 0 0 (if istrap then STS_TG32 else STS_IG32) 0 d 1 (Z.shiftr off 16).

Definition gate_words (d : gatedesc) : Z * Z :=
  (bits 16 (off_15_0 d) + 2 ^ 16 * bits 16 (gd_cs d),
   bits 5 (args d) + 2 ^ 5 * bits 3 (gd_rsv1 d) + 2 ^ 8 * bits 4 (gd_type d) + 2 ^ 12 * bits 1 (gd_s d) + 2 ^ 13 * bits 2 (gd_dpl d) +
   2 ^ 15 * bits 1 (gd_p d) + 2 ^ 16 * bits 16 (off_31_16 d)).

(** The descriptor tables, the fields of [struct taskstate] that the kernel sets,
    and the registers of the processor. *)
Record cpu := mkCpu {
  gdt : list segdesc;
  idt : list gatedesc;
  ts_esp0 : Z; ts_ss0 : Z; ts_iomb : Z;
  gdtr : Z * Z; idtr : Z * Z; tr : Z; cr3 : Z;
}.

Definition set_gdt (v : list segdesc) (c : cpu) : cpu := mkCpu v (idt c) (ts_esp0 c) (ts_ss0 c) (ts_iomb c) (gdtr c) (idtr c) (tr c) (cr3 c).
Definition set_idt (v : list gatedesc) (c : cpu) : cpu := mkCpu (gdt c) v (ts_esp0 c) (ts_ss0 c) (ts_iomb c) (gdtr c) (idtr c) (tr c) (cr3 c).
Definition set_ts (esp0 ss0 iomb : Z) (c : cpu) : cpu := mkCpu (gdt c) (idt c) esp0 ss0 iomb (gdtr c) (idtr c) (tr c) (cr3 c).
Definition set_gdtr (v : Z * Z) (c : cpu) : cpu := mkCpu (gdt c) (idt c) (ts_esp0 c) (ts_ss0 c) (ts_iomb c) v (idtr c) (tr c) (cr3 c).
Definition set_idtr (v : Z * Z) (c : cpu) : cpu := mkCpu (gdt c) (idt c) (ts_esp0 c) (ts_ss0 c) (ts_iomb c) (gdtr c) v (tr c) (cr3 c).
Definition set_tr (v : Z) (c : cpu) : cpu := mkCpu (gdt c) (idt c) (ts_esp0 c) (ts_ss0 c) (ts_iomb c) (gdtr c) (idtr c) v (cr3 c).
Definition set_cr3 (v : Z) (c : cpu) : cpu := mkCpu (gdt c) (idt c) (ts_esp0 c) (ts_ss0 c) (ts_iomb c) (gdtr c) (idtr c) (tr c) v.

(** The limit and the base that [lgdt] and [lidt] load, from [pd]. *)
Definition pseudo_desc (p size : Z) : Z * Z :=
  let pd0 := bits 16 (size - 1) in
  let pd1 := bits 16 p in
  let pd2 := bits 16 (Z.shiftr p 16) in
  (pd0, pd1 + 2 ^ 16 * pd2).
Definition lgdt (p size : Z) : M cpu unit := modify (set_gdtr (pseudo_desc p size)).
Definition lidt (p size : Z) : M cpu unit := modify (set_idtr (pseudo_desc p size)).
Definition ltr (sel : Z) : M cpu unit := modify (set_tr sel).
Definition lcr3 (v : Z) : M cpu unit := modify (set_cr3 v).

(** An assignment to an entry of a table. *)
Definition set_seg (i : Z) (d : segdesc) : M cpu unit := modify (fun c => set_gdt (<[Z.to_nat i := d]> (gdt c)) c).
Definition set_gate (i : Z) (d : gatedesc) : M cpu unit := modify (fun c => set_idt (<[Z.to_nat i := d]> (idt c)) c).

(** [c] is the address of this processor's [gdt]. *)
Definition seginit (c : Z) : M cpu unit :=
  do! set_seg SEG_KCODE (SEG (Z.lor STA_X STA_R) 0 0xffffffff 0) in
  do! set_seg SEG_KDATA (SEG STA_W 0 0xffffffff 0) in
  do! set_seg SEG_UCODE (SEG (Z.lor STA_X STA_R) 0 0xffffffff DPL_USER) in
  do! set_seg SEG_UDATA (SEG STA_W 0 0xffffffff DPL_USER) in
  lgdt c (6 * 8).

(** [vectors] are the addresses in vectors.S. *)
Definition tvinit (vectors : Z -> Z) : M cpu unit :=
  do! mfor (zrange 0 256) (fun i => set_gate i (SETGATE false (Z.shiftl SEG_KCODE 3) (vectors i) 0)) in
  set_gate T_SYSCALL (SETGATE true (Z.shiftl SEG_KCODE 3) (vectors T_SYSCALL) DPL_USER).

Definition idtinit (idt_ : Z) : M cpu unit := lidt idt_ (256 * 8).

Definition switchkvm (kpgdir : Z) : M cpu unit := lcr3 (V2P kpgdir).

(** [switchuvm] of a process with its kernel stack and page directory; [ts] is the
    address of the task state, which has 104 bytes.  That interrupts are off
    meanwhile (pushcli, popcli) has no part in these registers. *)
Definition switchuvm (ts : Z) (p : option (Z * Z)) : M cpu unit :=
  match p with
  | None => panic "switchuvm: no process"
  | Some (kstack, pgdir) =>
      if kstack =? 0 then panic "switchuvm: no kstack"
      else if pgdir =? 0 then panic "switchuvm: no pgdir"
      else
        do! set_seg SEG_TSS (SEG16 STS_T32A ts (104 - 1) 0) in
        do! modify (fun c => set_gdt (alter (set_s 0) (Z.to_nat SEG_TSS) (gdt c)) c) in
        do! modify (set_ts (u32 (kstack + KSTACKSIZE)) (Z.shiftl SEG_KDATA 3) 0xFFFF) in
        do! ltr (Z.shiftl SEG_TSS 3) in
        lcr3 (V2P pgdir)
  end.

(** ** How the processor reads descriptors *)

Record segment := mkSegment { s_base : Z; s_limit : Z; s_type : Z; s_app : bool; s_dpl : Z; s_present : bool }.

Definition decode_seg (w : Z * Z) : segment :=
  let lim := w.1 mod 2 ^ 16 + 2 ^ 16 * (w.2 / 2 ^ 16 mod 2 ^ 4) in
  mkSegment (w.1 / 2 ^ 16 + 2 ^ 16 * (w.2 mod 2 ^ 8) + 2 ^ 24 * (w.2 / 2 ^ 24))
    (if Z.testbit w.2 23 then lim * 4096 + 4095 else lim)
    (w.2 / 2 ^ 8 mod 2 ^ 4) (Z.testbit w.2 12) (w.2 / 2 ^ 13 mod 4) (Z.testbit w.2 15).

Record gate := mkGt { gt_sel : Z; gt_off : Z; gt_type : Z; gt_dpl : Z; gt_present : bool }.

Definition decode_gate (w : Z * Z) : gate :=
  mkGt (w.1 / 2 ^ 16) (w.1 mod 2 ^ 16 + 2 ^ 16 * (w.2 / 2 ^ 16)) (w.2 / 2 ^ 8 mod 2 ^ 4) (w.2 / 2 ^ 13 mod 4) (Z.testbit w.2 15).

(** An instruction [int] of code with privilege level [cpl] may use the gate; an
    interrupt gate turns the interrupts off. *)
Definition may_int (cpl : Z) (t : gate) : bool := gt_present t && (cpl <=? gt_dpl t).
Definition masks_interrupts (t : gate) : bool := gt_type t =? STS_IG32.

(** Code with this privilege level may use the ports: not when the bitmap of
    permissions lies beyond the limit of the task state. *)
Definition may_io (cpl iopl iomb : Z) (ts : segment) : bool := (cpl <=? iopl) || (iomb <? s_limit ts).

(** * Lemmas *)

Ltac pow2s :=
  change (2 ^ 1) with 2 in *; change (2 ^ 2) with 4 in *; change (2 ^ 3) with 8 in *; change (2 ^ 4) with 16 in *; change (2 ^ 5) with 32 in *;
  change (2 ^ 8) with 256 in *; change (2 ^ 12) with 4096 in *; change (2 ^ 13) with 8192 in *; change (2 ^ 15) with 32768 in *; change (2 ^ 16) with 65536 in *;
  change (2 ^ 20) with 1048576 in *; change (2 ^ 21) with 2097152 in *; change (2 ^ 22) with 4194304 in *; change (2 ^ 23) with 8388608 in *;
  change (2 ^ 24) with 16777216 in *; change (2 ^ 28) with 268435456 in *.

Lemma land_bits n x : 0 <= n -> Z.land x (2 ^ n - 1) = x mod 2 ^ n.
Proof. intros Hn. rewrite <- Z.land_ones by done. f_equal. rewrite Z.ones_equiv. lia. Qed.

Lemma testbit_div a n : 0 <= n -> Z.testbit a n = (a / 2 ^ n mod 2 =? 1).
Proof. intros Hn. rewrite Z.testbit_eqb by done. done. Qed.

(** The words of a descriptor with fields in range, read back. *)
Lemma decode_words l1 b1 b2 t s d p l2 db_ g_ b3 :
  0 <= l1 < 65536 -> 0 <= b1 < 65536 -> 0 <= b2 < 256 -> 0 <= t < 16 -> 0 <= s < 2 -> 0 <= d < 4 -> 0 <= p < 2 -> 0 <= l2 < 16 -> 0 <= db_ < 2 -> 0 <= g_ < 2 -> 0 <= b3 < 256 ->
  decode_seg (seg_words (mkSeg l1 b1 b2 t s d p l2 0 0 db_ g_ b3)) =
  mkSegment (b1 + 65536 * b2 + 16777216 * b3) (let lim := l1 + 65536 * l2 in if g_ =? 1 then lim * 4096 + 4095 else lim) t (s =? 1) d (p =? 1).
Proof.
  intros H1 H2 H3 H4 H5 H6 H7 H8 H9 H10 H11. unfold decode_seg, seg_words, bits. cbn [lim_15_0 base_15_0 base_23_16 sd_type sd_s sd_dpl sd_p lim_19_16 avl rsv1 db g base_31_24 fst snd].
  rewrite !testbit_div by lia. pow2s.
  rewrite !(Z.mod_small l1), !(Z.mod_small b1), !(Z.mod_small b2), !(Z.mod_small t), !(Z.mod_small s), !(Z.mod_small d), !(Z.mod_small p), !(Z.mod_small l2), !(Z.mod_small db_), !(Z.mod_small g_), !(Z.mod_small b3), !(Z.mod_small 0) by lia.
  rewrite !Z.mul_0_r, !Z.add_0_r.
  f_equal.
  - dlia.
  - replace ((b2 + 256 * t + 4096 * s + 8192 * d + 32768 * p + 65536 * l2 + 4194304 * db_ + 8388608 * g_ + 16777216 * b3) / 8388608 mod 2) with g_ by dlia.
    destruct (g_ =? 1); dlia.
  - dlia.
  - f_equal. dlia.
  - dlia.
  - f_equal. dlia.
Qed.

Lemma SEG_decodes type base lim dpl : is_u32 base -> is_u32 lim -> 0 <= type < 16 -> 0 <= dpl < 4 ->
  decode_seg (seg_words (SEG type base lim dpl)) = mkSegment base (lim / 4096 * 4096 + 4095) type true dpl true.
Proof.
  unfold is_u32. intros Hb Hl Ht Hd. unfold SEG. change 0xffff with (2 ^ 16 - 1). change 0xff with (2 ^ 8 - 1). rewrite !land_bits, !Z.shiftr_div_pow2 by lia. pow2s.
  rewrite decode_words by (done || dlia). cbv zeta. cbn [Z.eqb Pos.eqb]. f_equal; dlia.
Qed.

Lemma SEG16_decodes type base lim dpl : is_u32 base -> 0 <= lim < 1048576 -> 0 <= type < 16 -> 0 <= dpl < 4 ->
  decode_seg (seg_words (set_s 0 (SEG16 type base lim dpl))) = mkSegment base lim type false dpl true.
Proof.
  unfold is_u32. intros Hb Hl Ht Hd. unfold SEG16, set_s. cbn [lim_15_0 base_15_0 base_23_16 sd_type sd_s sd_dpl sd_p lim_19_16 avl rsv1 db g base_31_24].
  change 0xffff with (2 ^ 16 - 1). change 0xff with (2 ^ 8 - 1). rewrite !land_bits, !Z.shiftr_div_pow2 by lia. pow2s.
  rewrite decode_words by (done || dlia). cbv zeta. cbn [Z.eqb Pos.eqb]. f_equal; dlia.
Qed.

Lemma SETGATE_decodes istrap sel off d : is_u32 off -> 0 <= sel < 65536 -> 0 <= d < 4 ->
  decode_gate (gate_words (SETGATE istrap sel off d)) = mkGt sel off (if istrap then STS_TG32 else STS_IG32) d true.
Proof.
  unfold is_u32. intros Ho Hs Hd. unfold decode_gate, gate_words, SETGATE, bits. cbn [off_15_0 gd_cs args gd_rsv1 gd_type gd_s gd_dpl gd_p off_31_16 fst snd].
  change 0xffff with (2 ^ 16 - 1). rewrite land_bits, Z.shiftr_div_pow2, testbit_div by lia.
  pow2s.
  rewrite (Z.mod_small sel), (Z.mod_small d), !(Z.mod_small 0), !(Z.mod_small 1) by lia. rewrite !Z.mul_0_r, !Z.add_0_r, Z.add_0_l.
  set (t := if istrap then STS_TG32 else STS_IG32). assert (Ht : 0 <= t < 16) by (unfold t; by destruct istrap). rewrite (Z.mod_small t) by done.
  f_equal; [dlia..|]. apply Z.eqb_eq. dlia.
Qed.

Lemma pseudo_desc_eq p size : is_u32 p -> 1 <= size <= 65536 -> pseudo_desc p size = (size - 1, p).
Proof. unfold is_u32. intros Hp Hs. unfold pseudo_desc, bits. rewrite Z.shiftr_div_pow2 by lia. pow2s. f_equal; dlia. Qed.

(** The gates after [tvinit]. *)
Lemma tvinit_spec (Q : unit -> cpu -> Prop) E vectors c : length (idt c) = 256%nat ->
  (forall c', gdt c' = gdt c -> ts_esp0 c' = ts_esp0 c -> gdtr c' = gdtr c ->
     (forall i, 0 <= i < 256 -> idt c' !! Z.to_nat i = Some (SETGATE (i =? T_SYSCALL) 8 (vectors i) (if i =? T_SYSCALL then DPL_USER else 0))) -> Q tt c') ->
  wpx (tvinit vectors) Q E c.
Proof.
  intros Hl HQ. unfold tvinit. wp_step.
  eapply wpx_mono; [apply (wpx_zrange _ (fun n c' => gdt c' = gdt c /\ ts_esp0 c' = ts_esp0 c /\ gdtr c' = gdtr c /\ length (idt c') = 256%nat /\
    forall i, 0 <= i < n -> idt c' !! Z.to_nat i = Some (SETGATE false 8 (vectors i) 0)) never)| |done].
  - intros n c1 Hn (H1 & H2 & H3 & H4 & H5). apply wpx_modify. cbn [gdt ts_esp0 gdtr idt set_idt]. split; [done|]. split; [done|]. split; [done|]. split; [by rewrite length_insert|].
    intros i Hi. destruct (decide (i = n)) as [->|Hne]; [rewrite list_lookup_insert_eq by lia; done|]. rewrite list_lookup_insert_ne by lia. apply H5. lia.
  - do 4 (split; [done|]). intros i Hi. lia.
  - intros [] c1 (H1 & H2 & H3 & H4 & H5). apply wpx_modify. apply HQ; try done. cbn [idt set_idt]. intros i Hi. destruct (Z.eqb_spec i T_SYSCALL) as [->|Hne].
    + rewrite list_lookup_insert_eq by (unfold T_SYSCALL; lia). done.
    + rewrite list_lookup_insert_ne by (unfold T_SYSCALL in *; lia). apply H5. lia.
Qed.

(** ** Theorems *)

(** The descriptor of an entry of a table, as the processor reads it. *)
Definition seg_at (c : cpu) (i : Z) : option segment := decode_seg ∘ seg_words <$> gdt c !! Z.to_nat i.
Definition gate_at (c : cpu) (i : Z) : option gate := decode_gate ∘ gate_words <$> idt c !! Z.to_nat i.

(** C37: the processor is set up to protect the kernel.  After [seginit], [tvinit],
    [idtinit] and [switchuvm] the code and data segments of kernel and user cover
    all of memory at privilege levels 0 and 3; every one of the 256 gates leads to
    its entry point in the kernel's code segment, with interrupts off except for
    system calls; user code may use the gate of system calls and no other; on a trap
    the processor switches to the top of the kernel stack of the process; user
    code may not use ports, and runs in the page table of its process. *)
Theorem cpu_protects c gdt_ idt_ ts vectors kstack pgdir :
  length (gdt c) = 6%nat -> length (idt c) = 256%nat -> is_u32 gdt_ -> is_u32 idt_ -> is_u32 ts -> (forall i, is_u32 (vectors i)) ->
  kstack <> 0 -> 0 < kstack + KSTACKSIZE < 4294967296 -> pgdir <> 0 ->
  wp (do! seginit gdt_ in do! tvinit vectors in do! idtinit idt_ in switchuvm ts (Some (kstack, pgdir))) (fun _ c' =>
    (forall i type dpl, (i, type, dpl) ∈ [(SEG_KCODE, 10, 0); (SEG_KDATA, 2, 0); (SEG_UCODE, 10, 3); (SEG_UDATA, 2, 3)] ->
       seg_at c' i = Some (mkSegment 0 0xffffffff type true dpl true)) /\
    seg_at c' SEG_TSS = Some (mkSegment ts 103 STS_T32A false 0 true) /\
    (forall i, 0 <= i < 256 -> exists t, gate_at c' i = Some t /\ gt_sel t = 8 * SEG_KCODE /\ gt_off t = vectors i /\
       may_int 0 t = true /\ may_int DPL_USER t = (i =? T_SYSCALL) /\ masks_interrupts t = negb (i =? T_SYSCALL)) /\
    ts_ss0 c' = 8 * SEG_KDATA /\ ts_esp0 c' = kstack + KSTACKSIZE /\
    (forall tss, seg_at c' SEG_TSS = Some tss -> may_io DPL_USER 0 (ts_iomb c') tss = false) /\
    gdtr c' = (47, gdt_) /\ idtr c' = (2047, idt_) /\ tr c' = 8 * SEG_TSS /\ cr3 c' = V2P pgdir) c.
Proof.
  intros Lg Li Hg Hi Hts Hv Hk Hks Hp. wp_step. unfold seginit, lgdt, set_seg. wp_steps. rewrite pseudo_desc_eq by (done || lia).
  set (c1 := set_gdtr _ _). apply (tvinit_spec _ _ vectors c1 Li). intros c2 G2 T2 R2 I2. unfold idtinit, lidt. wp_steps. rewrite pseudo_desc_eq by (done || lia).
  unfold switchuvm. rewrite (proj2 (Z.eqb_neq _ _) Hk), (proj2 (Z.eqb_neq _ _) Hp). unfold set_seg, ltr, lcr3. wp_steps.
  rewrite u32_small by (unfold is_u32; lia). cbn [gdt idt ts_esp0 ts_ss0 ts_iomb gdtr idtr tr cr3 set_gdt set_idt set_ts set_gdtr set_idtr set_tr set_cr3].
  unfold seg_at, gate_at. cbn [gdt idt set_gdt set_idt set_ts set_gdtr set_idtr set_tr set_cr3]. rewrite G2.
  assert (Htss : decode_seg ∘ seg_words <$> alter (set_s 0) (Z.to_nat SEG_TSS) (<[Z.to_nat SEG_TSS := SEG16 STS_T32A ts (104 - 1) 0]> (gdt c1)) !! Z.to_nat SEG_TSS = Some (mkSegment ts 103 STS_T32A false 0 true)).
  { rewrite list_lookup_alter_eq, list_lookup_insert_eq by (unfold c1; cbn [gdt set_gdt set_gdtr]; rewrite !length_insert, Lg; vm_compute; lia).
    cbn [fmap option_fmap option_map compose]. by rewrite SEG16_decodes by (done || lia). }
  split; [|split; [done|split; [|split; [done|split; [done|split; [|split; [|done]]]]]]].
  - intros i type dpl Hin. rewrite !elem_of_cons in Hin.
    destruct Hin as [[= -> -> ->]|[[= -> -> ->]|[[= -> -> ->]|[[= -> -> ->]|Hin]]]]; [..|by apply not_elem_of_nil in Hin];
      rewrite list_lookup_alter_ne, list_lookup_insert_ne by done; unfold c1; cbn [gdt set_gdt set_gdtr];
      repeat first [rewrite list_lookup_insert_eq by (rewrite ?length_insert, Lg; vm_compute; lia)|rewrite list_lookup_insert_ne by (vm_compute; lia)]; cbn [fmap option_fmap option_map compose];
      by rewrite SEG_decodes by (done || (vm_compute; split; congruence)).
  - intros i Hr. rewrite (I2 i Hr). cbn [fmap option_fmap option_map compose]. rewrite SETGATE_decodes by (done || (by destruct (i =? T_SYSCALL))).
    eexists. split; [done|]. split; [done|]. split; [done|]. unfold may_int, masks_interrupts. cbn [gt_present gt_dpl gt_type]. by destruct (i =? T_SYSCALL).
  - intros tss Ht. rewrite Htss in Ht. injection Ht as <-. done.
  - rewrite R2. done.
Qed.

Definition demo_cpu : cpu := mkCpu (replicate 6 (SEG 0 0 0 0)) (replicate 256 (SETGATE false 0 0 0)) 0 0 0 (0, 0) (0, 0) 0 0.

Lemma cpu_protects_witness : exists r c',
  (do! seginit 0x80112000 in do! tvinit (fun i => 0x80105000 + 10 * (i mod 256)) in do! idtinit 0x80114000 in switchuvm 0x80112100 (Some (0x80300000, 0x80301000))) demo_cpu = Ret r c' /\
  ts_esp0 c' = 0x80301000 /\ cr3 c' = 0x301000 /\ exists t, gate_at c' 64 = Some t /\ may_int 3 t = true.
Proof.
  assert (Hv : forall i, is_u32 (0x80105000 + 10 * (i mod 256))) by (intros i; unfold is_u32; pose proof (Z.mod_pos_bound i 256 ltac:(lia)); lia).
  destruct (wp_run _ _ _ (cpu_protects demo_cpu 0x80112000 0x80114000 0x80112100 (fun i => 0x80105000 + 10 * (i mod 256)) 0x80300000 0x80301000
    eq_refl eq_refl ltac:(done) ltac:(done) ltac:(done) Hv ltac:(done) ltac:(done) ltac:(done))) as (r & c' & Hr & _ & _ & Hg & _ & He & _ & _ & _ & _ & Hc).
  exists r, c'. split; [exact Hr|]. split; [exact He|]. split; [exact Hc|]. destruct (Hg 64 ltac:(lia)) as (t & Ht & _ & _ & _ & Hm & _). exists t. split; [exact Ht|exact Hm].
Defined.
