(* ===== verification/Entry.v ===== *)
(** * Kernel entry and exit (src/trapasm.S, src/vectors.pl, src/swtch.S,
    src/usys.S, src/initcode.S; struct trapframe of src/x86.h and struct context
    of src/proc.h)

    The assembly is kept as lists of instructions, which [step] runs on the
    registers and the memory of the current address space.  The code has no
    branches, so the instruction pointer matters only where control leaves it,
    at [ret], [iret] and a trap.  What the processor does at a trap and at
    [iret] is written down from its manual. *)

From S2P Require Import Prelude.
From S2P Require Import CString.
From S2P Require Import Mmu.
From S2P Require Import Kernel.
From S2P Require Import Proc.
From S2P Require Import ProcSpec.

Open Scope Z_scope.

Inductive reg32 := EAX | ECX | EDX | EBX | ESP | EBP | ESI | EDI.
Inductive sreg := DS | ES | FS | GS.

(** The general registers, in the order of [pushal]. *)
Record gregs := mkG { eax : Z; ecx : Z; edx : Z; ebx : Z; esp : Z; ebp : Z; esi : Z; edi : Z }.
Record sregs := mkS { ds : Z; es : Z; fs : Z; gs : Z }.

(** The processor; [xmem] is memory as the current page table shows it. *)
Record x86 := mkX { xg : gregs; xs : sregs; eip : Z; cs : Z; eflags : Z; ss : Z; xmem : memory }.

Definition getr (r : reg32) (x : x86) : Z :=
  match r with
  | EAX => eax (xg x) | ECX => ecx (xg x) | EDX => edx (xg x) | EBX => ebx (xg x)
  | ESP => esp (xg x) | EBP => ebp (xg x) | ESI => esi (xg x) | EDI => edi (xg x)
  end.

Definition setg (r : reg32) (v : Z) (g : gregs) : gregs :=
  let '(mkG a c d b s p i j) := g in
  match r with
  | EAX => mkG v c d b s p i j | ECX => mkG a v d b s p i j | EDX => mkG a c v b s p i j | EBX => mkG a c d v s p i j
  | ESP => mkG a c d b v p i j | EBP => mkG a c d b s v i j | ESI => mkG a c d b s p v j | EDI => mkG a c d b s p i v
  end.

Definition gets_ (r : sreg) (x : x86) : Z :=
  match r with DS => ds (xs x) | ES => es (xs x) | FS => fs (xs x) | GS => gs (xs x) end.

Definition sets (r : sreg) (v : Z) (s : sregs) : sregs :=
  let '(mkS d e f g) := s in
  match r with DS => mkS v e f g | ES => mkS d v f g | FS => mkS d e v g | GS => mkS d e f v end.

Definition upg (f : gregs -> gregs) (x : x86) : x86 := mkX (f (xg x)) (xs x) (eip x) (cs x) (eflags x) (ss x) (xmem x).
Definition ups (f : sregs -> sregs) (x : x86) : x86 := mkX (xg x) (f (xs x)) (eip x) (cs x) (eflags x) (ss x) (xmem x).
Definition upm (f : memory -> memory) (x : x86) : x86 := mkX (xg x) (xs x) (eip x) (cs x) (eflags x) (ss x) (f (xmem x)).
Definition setr (r : reg32) (v : Z) : x86 -> x86 := upg (setg r v).
Definition set_eip (v : Z) (x : x86) : x86 := mkX (xg x) (xs x) v (cs x) (eflags x) (ss x) (xmem x).

(** A stack operation moves 32 bits. *)
Definition push (v : Z) (x : x86) : x86 :=
  let a := u32 (getr ESP x - 4) in upm (fun m => st32 m a v) (setr ESP a x).

Definition pop (x : x86) : Z * x86 :=
  let a := getr ESP x in (ld32 (xmem x) a, setr ESP (u32 (a + 4)) x).

Definition skip (n : Z) (x : x86) : x86 := setr ESP (u32 (getr ESP x + n)) x.

Inductive instr :=
  | PushI (v : Z)                    (** pushl $v *)
  | PushR (r : reg32)                (** pushl %r *)
  | PushS (r : sreg)
  | PopR (r : reg32)                 (** popl %r *)
  | PopS (r : sreg)
  | Pushal | Popal
  | MovI (v : Z) (r : reg32)         (** movl $v, %r *)
  | MovAx (v : Z)                    (** movw $v, %ax *)
  | MovS (r : sreg)                  (** movw %ax, %r *)
  | MovR (a b : reg32)               (** movl %a, %b *)
  | LoadR (off : Z) (a b : reg32)    (** movl off(%a), %b *)
  | StoreR (a b : reg32)             (** movl %a, (%b) *)
  | AddEsp (n : Z)                   (** addl $n, %esp *)
  | Ret.

Definition pop_to (r : reg32) (x : x86) : x86 := let '(v, y) := pop x in setr r v y.

Definition step (i : instr) (x : x86) : x86 :=
  match i with
  | PushI v => push v x
  | PushR r => push (getr r x) x
  | PushS r => push (gets_ r x) x
  | PopR r => pop_to r x
  | PopS r => let '(v, y) := pop x in ups (sets r (v mod 65536)) y
  | Pushal => foldl (fun y v => push v y) x
      [getr EAX x; getr ECX x; getr EDX x; getr EBX x; getr ESP x; getr EBP x; getr ESI x; getr EDI x]
  | Popal => foldl (fun y r => pop_to r y) (skip 4 (foldl (fun y r => pop_to r y) x [EDI; ESI; EBP])) [EBX; EDX; ECX; EAX]
  | MovI v r => setr r v x
  | MovAx v => setr EAX (Z.lor (getr EAX x - getr EAX x mod 65536) v) x
  | MovS r => ups (sets r (getr EAX x mod 65536)) x
  | MovR a b => setr b (getr a x) x
  | LoadR off a b => setr b (ld32 (xmem x) (u32 (getr a x + off))) x
  | StoreR a b => upm (fun m => st32 m (getr b x) (getr a x)) x
  | AddEsp n => skip n x
  | Ret => let '(v, y) := pop x in set_eip v y
  end.

Definition run (l : list instr) (x : x86) : x86 := foldl (fun y i => step i y) x l.

(** ** The processor at a trap

    From user mode the stack of the task state is loaded first and the old one
    saved; within the kernel the frame goes on the current stack.  [e] is the
    error code, if the trap has one. *)

Definition CPL (x : x86) : Z := Z.land (cs x) 3.

Definition goto (sel off : Z) (x : x86) : x86 := mkX (xg x) (xs x) off sel (eflags x) (ss x) (xmem x).

Definition ring0 (ss0 esp0 : Z) (x : x86) : x86 :=
  if CPL x =? 3 then
    push (getr ESP x) (push (ss x) (mkX (setg ESP esp0 (xg x)) (xs x) (eip x) (cs x) (eflags x) ss0 (xmem x)))
  else x.

Definition interrupt (ss0 esp0 : Z) (e : option Z) (sel off : Z) (x : x86) : x86 :=
  let x2 := push (eip x) (push (cs x) (push (eflags x) (ring0 ss0 esp0 x))) in
  goto sel off (match e with Some v => push v x2 | None => x2 end).

(** A return to an outer ring pops the stack as well. *)
Definition iret (x : x86) : x86 :=
  let '(ip, x1) := pop x in
  let '(c, x2) := pop x1 in
  let '(fl, x3) := pop x2 in
  if Z.land c 3 =? 3 then
    let '(sp, x4) := pop x3 in
    let '(s, x5) := pop x4 in
    mkX (setg ESP sp (xg x5)) (xs x5) ip (c mod 65536) fl (s mod 65536) (xmem x5)
  else mkX (xg x3) (xs x3) ip (c mod 65536) fl (ss x3) (xmem x3).

(** ** The code *)

Definition SEG_KDATA : Z := 2.
Definition T_SYSCALL : Z := 64.

(** The traps for which vectors.pl pushes no error code of its own. *)
Definition has_errcode (i : Z) : bool := (i =? 8) || ((10 <=? i) && (i <=? 14)) || (i =? 17).

Definition vector (i : Z) : list instr := (if negb (has_errcode i) then [PushI 0] else []) ++ [PushI i].

(** Up to the call of [trap], whose argument is the last word pushed. *)
Definition alltraps : list instr :=
  [PushS DS; PushS ES; PushS FS; PushS GS; Pushal;
   MovAx (Z.shiftl SEG_KDATA 3); MovS DS; MovS ES; PushR ESP].

(** From the return of [trap]. *)
Definition after_trap : list instr := [AddEsp 4].

Definition trapret (x : x86) : x86 := iret (run [Popal; PopS GS; PopS FS; PopS ES; PopS DS; AddEsp 8] x).

Definition swtch : list instr :=
  [LoadR 4 ESP EAX; LoadR 8 ESP EDX;
   PushR EBP; PushR EBX; PushR ESI; PushR EDI;
   StoreR ESP EAX; MovR EDX ESP;
   PopR EDI; PopR ESI; PopR EBX; PopR EBP; Ret].

(** [SYSCALL(name)], before and after the trap; [n] is the call's number. *)
Definition usys_enter (n : Z) : list instr := [MovI n EAX].
Definition usys_return : list instr := [Ret].

(** initcode.S up to its trap; [argv] and [init] are the addresses of its data. *)
Definition SYS_exec : Z := 7.
Definition initcode (argv init : Z) : list instr := [PushI argv; PushI init; PushI 0; MovI SYS_exec EAX].

(** [struct trapframe] at [a] and [struct context] at [a], as C reads them. *)
Definition load_tf (m : memory) (a : Z) : trapframe :=
  let w i := ld32 m (a + 4 * i) in
  let h i := w i mod 65536 in
  mkTf (w 0) (w 1) (w 2) (w 3) (w 4) (w 5) (w 6) (w 7) (h 8) (h 9) (h 10) (h 11) (w 12) (w 13) (w 14) (h 15) (w 16) (w 17) (h 18).

Record context := mkCtx { c_edi : Z; c_esi : Z; c_ebx : Z; c_ebp : Z; c_eip : Z }.
Definition load_ctx (m : memory) (a : Z) : context :=
  mkCtx (ld32 m a) (ld32 m (a + 4)) (ld32 m (a + 8)) (ld32 m (a + 12)) (ld32 m (a + 16)).

(** ** Specification *)

(** The frame at [a] of a trap [i] with error code [err] that interrupts [x]. *)
Definition frame (a i err : Z) (x : x86) : trapframe :=
  let g := xg x in let s := xs x in
  mkTf (edi g) (esi g) (ebp g) (a + 32) (ebx g) (edx g) (ecx g) (eax g)
    (gs s) (fs s) (es s) (ds s) i err (eip x) (cs x) (eflags x) (esp g) (ss x).

(** The frame [t] with another stack; the processor saves none when it is in the
    kernel already. *)
Definition with_stack (p q : Z) (t : trapframe) : trapframe :=
  mkTf (tf_edi t) (tf_esi t) (tf_ebp t) (tf_oesp t) (tf_ebx t) (tf_edx t) (tf_ecx t) (tf_eax t) (tf_gs t) (tf_fs t)
    (tf_es t) (tf_ds t) (tf_trapno t) (tf_err t) (tf_eip t) (tf_cs t) (tf_eflags t) p q.

(** The processor in user mode with the registers of the frame [t]. *)
Definition user_of (t : trapframe) (m : memory) : x86 :=
  mkX (mkG (tf_eax t) (tf_ecx t) (tf_edx t) (tf_ebx t) (tf_esp t) (tf_ebp t) (tf_esi t) (tf_edi t))
    (mkS (tf_ds t) (tf_es t) (tf_fs t) (tf_gs t)) (tf_eip t) (tf_cs t) (tf_eflags t) (tf_ss t) m.

Definition is_u16 (v : Z) : Prop := 0 <= v < 65536.

(** The registers hold values of their width. *)
Record wfx (x : x86) : Prop := {
  wf_g : forall r, is_u32 (getr r x);
  wf_s : forall r, is_u16 (gets_ r x);
  wf_eip : is_u32 (eip x); wf_eflags : is_u32 (eflags x); wf_cs : is_u16 (cs x); wf_ss : is_u16 (ss x);
}.

(** The words [l] pushed from [a] downwards. *)
Fixpoint pushw (l : list Z) (a : Z) (m : memory) : memory :=
  match l with [] => m | v :: l => pushw l (a - 4) (st32 m (a - 4) v) end.

(** What an entry within the kernel pushes. *)
Definition saved (a i err : Z) (x : x86) : list Z :=
  [eflags x; cs x; eip x; err; i; ds (xs x); es (xs x); fs (xs x); gs (xs x);
   eax (xg x); ecx (xg x); edx (xg x); ebx (xg x); a + 32; ebp (xg x); esi (xg x); edi (xg x)].

(** * Lemmas *)

(** Run instructions on registers that are known by name. *)
Ltac x86_run := cbv beta iota zeta delta [run foldl step push pop pop_to skip getr setg gets_ sets upg ups upm setr set_eip iret
  xg xs eip cs eflags ss xmem eax ecx edx ebx esp ebp esi edi ds es fs gs
  load_tf tf_edi tf_esi tf_ebp tf_oesp tf_ebx tf_edx tf_ecx tf_eax tf_gs tf_fs tf_es tf_ds tf_trapno tf_err tf_eip tf_cs tf_eflags tf_esp tf_ss].

(** Remove the wrap-around of addresses known to be in range. *)
Ltac u32s := repeat match goal with |- context [u32 (?x + ?n)] =>
  lazymatch x with context [u32 _] => fail | _ => rewrite (u32_small (x + n)) by (unfold is_u32; lia) end end.

Lemma foldl_push l x :
  4 * Z.of_nat (length l) <= getr ESP x < 4294967296 ->
  foldl (fun y v => push v y) x l =
  upm (pushw l (getr ESP x)) (setr ESP (getr ESP x - 4 * Z.of_nat (length l)) x).
Proof.
  revert x. induction l as [|v l IH]; intros x Hx; cbn [foldl length pushw].
  - replace (getr ESP x - 4 * Z.of_nat 0) with (getr ESP x) by lia. by destruct x as [[]].
  - cbn [length] in Hx. unfold push. rewrite (u32_small (getr ESP x - 4)) by (unfold is_u32; lia).
    replace (getr ESP x - 4 * Z.of_nat (S (length l))) with (getr ESP x - 4 - 4 * Z.of_nat (length l)) by lia.
    rewrite IH by (destruct x as [[]]; cbn -[Z.of_nat Z.mul Z.sub] in *; lia). by destruct x as [[]].
Qed.

Lemma ld8_pushw l a m b :
  b < a - 4 * Z.of_nat (length l) \/ a <= b -> ld8 (pushw l a m) b = ld8 m b.
Proof.
  revert a m. induction l as [|v l IH]; intros a m Hb; cbn [pushw length] in *; [done|].
  rewrite IH by lia. apply ld8_st32_ne. lia.
Qed.

Lemma ld32_pushw l a m b k v :
  l !! k = Some v -> b = a - 4 * (Z.of_nat k + 1) -> is_u32 v -> ld32 (pushw l a m) b = v.
Proof.
  intros Hk -> Hv. revert a m k Hk. induction l as [|w l IH]; intros a m k Hk; [done|].
  destruct k as [|k]; cbn [pushw].
  - injection Hk as ->. replace (a - 4 * (Z.of_nat 0 + 1)) with (a - 4) by lia.
    rewrite (ld32_ext (st32 m (a - 4) v)); [by apply ld32_st32_eq|]. intros b Hb. apply ld8_pushw. lia.
  - rewrite <- (IH (a - 4) (st32 m (a - 4) w) k Hk). f_equal. lia.
Qed.

Lemma getr_push r v x : r <> ESP -> getr r (push v x) = getr r x.
Proof. intros Hr. by destruct x as [[]], r. Qed.

Lemma gets_push r v x : gets_ r (push v x) = gets_ r x.
Proof. by destruct x as [? []], r. Qed.

Lemma run_vector i e x :
  is_Some e <-> has_errcode i = true ->
  run (vector i) (match e with Some v => push v x | None => x end) = push i (push (default 0 e) x).
Proof.
  intros He. unfold vector. destruct e as [v|]; [by rewrite (proj1 He) by eauto|].
  destruct (has_errcode i); [by destruct (proj2 He eq_refl)|done].
Qed.

(** What the stubs push from the stack of [x0], with the registers of [x]. *)
Lemma entry_pushes i e x x0 :
  is_Some e <-> has_errcode i = true ->
  (forall r, r <> ESP -> getr r x0 = getr r x) -> (forall r, gets_ r x0 = gets_ r x) -> 72 <= getr ESP x0 < 4294967296 ->
  let a := getr ESP x0 - 68 in
  let x2 := push (eip x) (push (cs x) (push (eflags x) x0)) in
  run (vector i ++ alltraps) (match e with Some v => push v x2 | None => x2 end) =
  run [MovAx 16; MovS DS; MovS ES; PushR ESP] (upm (pushw (saved a i (default 0 e) x) (a + 68)) (setr ESP a x0)).
Proof.
  intros He Hg Hs Ha a x2. unfold run. rewrite foldl_app.
  pose proof (run_vector i e x2 He) as Hv. unfold run in Hv. rewrite Hv.
  set (y := foldl (fun y v => push v y) x0
    [eflags x; cs x; eip x; default 0 e; i; ds (xs x); es (xs x); fs (xs x); gs (xs x)]).
  assert (getr ESP y = a + 32) as Hy.
  { unfold y. rewrite foldl_push by (cbn [length]; lia). unfold a. destruct x0 as [[]]; cbn -[pushw Z.sub Z.mul]. lia. }
  assert (foldl (fun y v => push v y) x0 (saved a i (default 0 e) x) =
    upm (pushw (saved a i (default 0 e) x) (a + 68)) (setr ESP a x0)) as Hp.
  { rewrite foldl_push by (change (length _) with 17%nat; lia). replace (a + 68) with (getr ESP x0) by (unfold a; lia). done. }
  rewrite <- Hp. change alltraps with ([PushS DS; PushS ES; PushS FS; PushS GS; Pushal] ++ [MovAx 16; MovS DS; MovS ES; PushR ESP]).
  rewrite foldl_app. clear Hv. enough (foldl (fun y i => step i y) (push i (push (default 0 e) x2))
    [PushS DS; PushS ES; PushS FS; PushS GS; Pushal] = foldl (fun y v => push v y) x0 (saved a i (default 0 e) x)) as ->;
    [reflexivity|].
  cbn [foldl step]. unfold x2.
  clear Hp. unfold saved. rewrite <- Hy. cbn [foldl].
  rewrite !gets_push, !Hs.
  rewrite !(getr_push EAX), !(getr_push ECX), !(getr_push EDX), !(getr_push EBX), !(getr_push EBP), !(getr_push ESI), !(getr_push EDI) by discriminate.
  rewrite (Hg EAX), (Hg ECX), (Hg EDX), (Hg EBX), (Hg EBP), (Hg ESI), (Hg EDI) by discriminate. reflexivity.
Qed.

Lemma goto_push sel off v x : goto sel off (push v x) = push v (goto sel off x).
Proof. by destruct x as [[]]. Qed.

Lemma entry_last x :
  4 <= getr ESP x < 4294967296 ->
  let y := run [MovAx 16; MovS DS; MovS ES; PushR ESP] x in
  getr ESP y = getr ESP x - 4 /\ xmem y = st32 (xmem x) (getr ESP x - 4) (getr ESP x) /\
  gets_ DS y = 16 /\ gets_ ES y = 16 /\ eip y = eip x /\ cs y = cs x /\ ss y = ss x.
Proof.
  intros Hx. assert (forall z, Z.lor (z - z mod 65536) 16 mod 65536 = 16) as Hax.
  { intros z. rewrite (lor_low_high 16); change (2 ^ 16) with 65536; [|lia|dlia|lia]. dlia. }
  destruct x as [[] []]. cbn -[Z.sub Z.lor Z.modulo u32 st32 Z.le Z.lt] in *. rewrite !Hax, !u32_small by (unfold is_u32; lia).
  done.
Qed.

Lemma pushw_app l k a m : pushw (l ++ k) a m = pushw k (a - 4 * Z.of_nat (length l)) (pushw l a m).
Proof.
  revert a m. induction l as [|v l IH]; intros a m; cbn [app pushw length]; [f_equal; lia|]. rewrite IH. f_equal. lia.
Qed.

(** The trap from the registers [x] with the stack of [x0]. *)
Lemma entry_spec i e x x0 :
  is_Some e <-> has_errcode i = true ->
  (forall r, r <> ESP -> getr r x0 = getr r x) -> (forall r, gets_ r x0 = gets_ r x) -> 72 <= getr ESP x0 < 4294967296 ->
  let a := getr ESP x0 - 68 in
  let x2 := push (eip x) (push (cs x) (push (eflags x) x0)) in
  let y := run (vector i ++ alltraps) (match e with Some v => push v x2 | None => x2 end) in
  getr ESP y = a - 4 /\ xmem y = pushw (saved a i (default 0 e) x ++ [a]) (a + 68) (xmem x0) /\
  gets_ DS y = 16 /\ gets_ ES y = 16 /\ eip y = eip x0 /\ cs y = cs x0 /\ ss y = ss x0.
Proof.
  intros He Hg Hs Ha a x2 y. unfold y, x2. rewrite (entry_pushes i e x x0 He Hg Hs Ha). fold a.
  set (z := upm _ _). assert (getr ESP z = a) as Hz by (by destruct x0 as [[]]).
  destruct (entry_last z) as (-> & -> & Hl); [rewrite Hz; lia|]. rewrite Hz. split_and!; [done| |tauto..].
  rewrite pushw_app. change (length _) with 17%nat. cbn [pushw].
  replace (a + 68 - 4 * Z.of_nat 17) with a by lia. done.
Qed.

(** What the stubs pushed is the frame C reads; without a change of ring its
    last two words are not part of it. *)
Lemma load_saved i err x a m :
  wfx x -> is_u32 (a + 32) -> is_u32 i -> is_u32 err ->
  load_tf (pushw (saved a i err x ++ [a]) (a + 68) m) a =
  with_stack (ld32 m (a + 68)) (ld32 m (a + 72) mod 65536) (frame a i err x).
Proof.
  intros [Hg Hs Hip Hfl Hc _] Ha Hi Herr. unfold is_u16 in *. unfold load_tf, frame, with_stack. cbn zeta. cbn [tf_edi tf_esi tf_ebp tf_oesp tf_ebx tf_edx tf_ecx tf_eax
    tf_gs tf_fs tf_es tf_ds tf_trapno tf_err tf_eip tf_cs tf_eflags].
  assert (forall k v j, (saved a i err x ++ [a]) !! k = Some v -> j = 16 - Z.of_nat k -> is_u32 v ->
    ld32 (pushw (saved a i err x ++ [a]) (a + 68) m) (a + 4 * j) = v) as Hld.
  { intros k v j Hk -> Hv. apply (ld32_pushw _ _ _ _ k); [done|lia|done]. }
  assert (forall k v j, (saved a i err x ++ [a]) !! k = Some v -> j = 16 - Z.of_nat k -> is_u16 v ->
    ld32 (pushw (saved a i err x ++ [a]) (a + 68) m) (a + 4 * j) mod 65536 = v) as Hlh.
  { unfold is_u16. intros k v j Hk Hj Hv. rewrite (Hld k v j Hk Hj) by (unfold is_u32; lia). apply Z.mod_small. lia. }
  f_equal; try match goal with
    | |- ld32 _ (a + 4 * ?j) = ?v => eapply (Hld (Z.to_nat (16 - j)));
        [reflexivity|reflexivity|first [assumption|exact (Hg EAX)|exact (Hg ECX)|exact (Hg EDX)|exact (Hg EBX)|exact (Hg EBP)|exact (Hg ESI)|exact (Hg EDI)]]
    | |- ld32 _ (a + 4 * ?j) mod 65536 = ?v => eapply (Hlh (Z.to_nat (16 - j)));
        [reflexivity|reflexivity|first [assumption|exact (Hs DS)|exact (Hs ES)|exact (Hs FS)|exact (Hs GS)]]
    end.
  - apply ld32_ext. intros b Hb. apply ld8_pushw. lia.
  - f_equal. apply ld32_ext. intros b Hb. apply ld8_pushw. lia.
Qed.

Lemma interrupt_eq ss0 t e sel off x :
  interrupt ss0 t e sel off x =
  (let x2 := push (eip x) (push (cs x) (push (eflags x) (goto sel off (ring0 ss0 t x)))) in
   match e with Some v => push v x2 | None => x2 end).
Proof. unfold interrupt. destruct e; by rewrite !goto_push. Qed.

Lemma ring0_user x ss0 t sel off :
  CPL x = 3 -> 80 <= t < 4294967296 ->
  let x0 := goto sel off (ring0 ss0 t x) in
  (forall r, r <> ESP -> getr r x0 = getr r x) /\ (forall r, gets_ r x0 = gets_ r x) /\
  getr ESP x0 = t - 8 /\ xmem x0 = st32 (st32 (xmem x) (t - 4) (ss x)) (t - 8) (getr ESP x) /\
  eip x0 = off /\ cs x0 = sel /\ ss x0 = ss0.
Proof.
  intros Hu Ht x0. unfold x0, ring0. rewrite Hu. cbn [Z.eqb Pos.eqb]. unfold push.
  destruct x as [[] []]. cbn -[u32 st32 Z.sub]. rewrite (u32_small (t - 4)) by (unfold is_u32; lia).
  rewrite (u32_small (t - 4 - 4)) by (unfold is_u32; lia). replace (t - 4 - 4) with (t - 8) by lia.
  split_and!; try done; intros []; done.
Qed.

(** A trap out of user mode leaves, at the top of the kernel stack, the frame of
    the registers, and its address as the argument of [trap]. *)
Lemma user_entry i e x ss0 t sel off :
  wfx x -> CPL x = 3 -> is_Some e <-> has_errcode i = true -> is_u32 i -> is_u32 (default 0 e) -> 80 <= t < 4294967296 ->
  let a := t - 76 in
  let y := run (vector i ++ alltraps) (interrupt ss0 t e sel off x) in
  getr ESP y = a - 4 /\ ld32 (xmem y) (a - 4) = a /\ load_tf (xmem y) a = frame a i (default 0 e) x /\
  (forall b, b < a - 4 \/ t <= b -> ld8 (xmem y) b = ld8 (xmem x) b) /\
  gets_ DS y = 16 /\ gets_ ES y = 16 /\ eip y = off /\ cs y = sel /\ ss y = ss0.
Proof.
  intros Hwf Hu He Hi Herr Ht a y. unfold y. rewrite interrupt_eq. cbv zeta.
  destruct (ring0_user x ss0 t sel off Hu Ht) as (Hr & Hs & Hesp & Hm & Hip & Hc & Hss).
  set (x0 := goto sel off (ring0 ss0 t x)) in *.
  destruct (entry_spec i e x x0 He Hr Hs ltac:(rewrite Hesp; lia)) as (-> & -> & -> & -> & -> & -> & ->).
  rewrite Hesp. replace (t - 8 - 68) with a by lia. pose proof (load_saved i (default 0 e) x a (xmem x0) Hwf) as Hl.
  pose proof (wf_g x Hwf ESP) as Hsp. pose proof (wf_ss x Hwf) as Hs16. unfold is_u16 in Hs16.
  split_and!; [done| | | |done..].
  - apply (ld32_pushw _ _ _ _ 17); [done|lia|unfold is_u32; lia].
  - rewrite Hl by (done || (unfold is_u32; lia)). rewrite Hm. cbv zeta.
    replace (a + 68) with (t - 8) by lia. replace (a + 72) with (t - 4) by lia.
    rewrite ld32_st32_eq, ld32_st32_ne, ld32_st32_eq by (done || lia || (unfold is_u32; lia)).
    rewrite (Z.mod_small (ss x)) by lia. reflexivity.
  - intros b Hb. rewrite ld8_pushw by (change (length _) with 18%nat; lia). rewrite Hm, !ld8_st32_ne by lia. done.
Qed.

Lemma land_3_mod16 w : Z.land (w mod 65536) 3 = Z.land w 3.
Proof. change 3 with (Z.ones 2). rewrite !Z.land_ones by lia. change (2 ^ 2) with 4. dlia. Qed.

(** The registers as [trapret] finds them before its [iret]. *)
Lemma trapret_pops y a :
  getr ESP y = a -> 0 <= a < 4294967296 - 76 ->
  let t := load_tf (xmem y) a in
  run [Popal; PopS GS; PopS FS; PopS ES; PopS DS; AddEsp 8] y =
  mkX (mkG (tf_eax t) (tf_ecx t) (tf_edx t) (tf_ebx t) (a + 56) (tf_ebp t) (tf_esi t) (tf_edi t))
    (mkS (tf_ds t) (tf_es t) (tf_fs t) (tf_gs t)) (eip y) (cs y) (eflags y) (ss y) (xmem y).
Proof.
  intros Hesp Ha. destruct y as [[] [] ? ? ? ? m]. cbn in Hesp. subst.
  x86_run. u32s. rewrite <- !Z.add_assoc. rewrite Z.add_0_r. reflexivity.
Qed.

(** With a frame of user mode, [trapret] resumes it; *)
Lemma trapret_user y a t :
  getr ESP y = a -> 0 <= a < 4294967296 - 76 -> load_tf (xmem y) a = t -> Z.land (tf_cs t) 3 = 3 ->
  trapret y = user_of t (xmem y).
Proof.
  intros Hesp Ha <- Hu. unfold trapret. rewrite (trapret_pops y a Hesp Ha). destruct y as [? ? ? ? ? ? m].
  cbn [load_tf tf_cs xmem] in Hu. rewrite land_3_mod16 in Hu. unfold user_of. x86_run. u32s. rewrite <- !Z.add_assoc.
  change (56 + 4) with (4 * 15). rewrite Hu. reflexivity.
Qed.

(** with one of the kernel, [trapret] goes on above the frame. *)
Lemma trapret_kernel y a t :
  getr ESP y = a -> 0 <= a < 4294967296 - 76 -> load_tf (xmem y) a = t -> Z.land (tf_cs t) 3 <> 3 ->
  trapret y = mkX (mkG (tf_eax t) (tf_ecx t) (tf_edx t) (tf_ebx t) (a + 68) (tf_ebp t) (tf_esi t) (tf_edi t))
    (mkS (tf_ds t) (tf_es t) (tf_fs t) (tf_gs t)) (tf_eip t) (tf_cs t) (tf_eflags t) (ss y) (xmem y).
Proof.
  intros Hesp Ha <- Hu. unfold trapret. rewrite (trapret_pops y a Hesp Ha). destruct y as [? ? ? ? ? ? m].
  cbn [load_tf tf_cs xmem] in Hu. rewrite land_3_mod16 in Hu. x86_run. u32s. rewrite <- !Z.add_assoc.
  change (56 + 4) with (4 * 15). apply Z.eqb_neq in Hu. rewrite Hu. reflexivity.
Qed.

(** A trap within the kernel leaves its frame on the stack in use. *)
Lemma kernel_entry i e x ss0 t sel off :
  wfx x -> CPL x = 0 -> is_Some e <-> has_errcode i = true -> is_u32 i -> is_u32 (default 0 e) -> 72 <= getr ESP x ->
  let a := getr ESP x - 68 in
  let y := run (vector i ++ alltraps) (interrupt ss0 t e sel off x) in
  getr ESP y = a - 4 /\ ld32 (xmem y) (a - 4) = a /\ ss y = ss x /\
  load_tf (xmem y) a = with_stack (ld32 (xmem x) (a + 68)) (ld32 (xmem x) (a + 72) mod 65536) (frame a i (default 0 e) x) /\
  forall b, b < a - 4 \/ a + 68 <= b -> ld8 (xmem y) b = ld8 (xmem x) b.
Proof.
  intros Hwf Hu He Hi Herr Ht a y. pose proof (wf_g x Hwf ESP) as Hsp. unfold is_u32 in Hsp.
  assert (goto sel off (ring0 ss0 t x) = goto sel off x) as Hg by (unfold ring0; by rewrite Hu).
  unfold y. rewrite interrupt_eq, Hg. cbv zeta.
  destruct (entry_spec i e x (goto sel off x)) as (-> & -> & _ & _ & _ & _ & ->);
    [done|by destruct x; intros []|by destruct x; intros []|exact (conj Ht (proj2 Hsp))|].
  change (getr ESP (goto sel off x)) with (getr ESP x). change (xmem (goto sel off x)) with (xmem x). fold a.
  split_and!; [done| |done| |].
  - apply (ld32_pushw _ _ _ _ 17); [done|lia|unfold is_u32; lia].
  - apply load_saved; [done|unfold is_u32; lia|done..].
  - intros b Hb. apply ld8_pushw. change (length _) with 18%nat. lia.
Qed.

(** The registers of the kernel come back from its frame. *)
Lemma kernel_resumes x y a i err :
  CPL x = 0 -> getr ESP y = a -> getr ESP x = a + 68 -> 0 <= a < 4294967296 - 76 -> ss y = ss x ->
  with_stack 0 0 (load_tf (xmem y) a) = with_stack 0 0 (frame a i err x) ->
  trapret y = upm (fun _ => xmem y) x.
Proof.
  intros Hu Hesp Hx Ha Hss Hf. remember (load_tf (xmem y) a) as t eqn:Ht. symmetry in Ht. injection Hf as H1 H2 H3 H4 H5 H6 H7 H8 H9 H10 H11 H12 H13 H14 H15 H16 H17.
  rewrite (trapret_kernel y a t Hesp Ha Ht) by (rewrite H16; fold (CPL x); lia).
  rewrite H1, H2, H3, H5, H6, H7, H8, H9, H10, H11, H12, H15, H16, H17, Hss, <- Hx. by destruct x as [[] []].
Qed.

(** [swtch] on a stack that holds its two arguments. *)
Lemma swtch_run x s new :
  getr ESP x = s -> 16 <= s < 4294967296 - 12 -> ld32 (xmem x) (s + 8) = new -> new < 4294967296 - 20 ->
  let old := ld32 (xmem x) (s + 4) in
  let m := st32 (pushw [ebp (xg x); ebx (xg x); esi (xg x); edi (xg x)] s (xmem x)) old (s - 16) in
  let c := load_ctx m new in
  run swtch x = mkX (mkG old (ecx (xg x)) new (c_ebx c) (new + 20) (c_ebp c) (c_esi c) (c_edi c))
    (xs x) (c_eip c) (cs x) (eflags x) (ss x) m.
Proof.
  intros Hesp Hs Hn Hr. pose proof (ld32_range (xmem x) (s + 8)) as Hn0. rewrite Hn in Hn0. unfold is_u32 in Hn0.
  destruct x as [[] [] ? ? ? ? m]. cbn in Hesp. subst. unfold swtch, load_ctx. x86_run.
  cbn [c_edi c_esi c_ebx c_ebp c_eip pushw ebp ebx esi edi xg xmem] in *. u32s. set (new := ld32 m (s + 8)) in *.
  rewrite (u32_small (s - 4)), (u32_small (s - 4 - 4)), (u32_small (s - 4 - 4 - 4)), (u32_small (s - 4 - 4 - 4 - 4))
    by (unfold is_u32; lia).
  u32s. rewrite <- !Z.add_assoc. replace (s - 4 - 4 - 4 - 4) with (s - 16) by lia. reflexivity.
Qed.

(** The context [swtch] leaves, where [*old] is outside of it. *)
Lemma swtch_saves x s new :
  wfx x -> getr ESP x = s -> 16 <= s < 4294967296 - 12 -> ld32 (xmem x) (s + 8) = new -> new < 4294967296 - 20 ->
  let old := ld32 (xmem x) (s + 4) in
  let m := xmem (run swtch x) in
  old + 4 <= s - 16 \/ s + 4 <= old ->
  ld32 m old = s - 16 /\
  load_ctx m (s - 16) = mkCtx (edi (xg x)) (esi (xg x)) (ebx (xg x)) (ebp (xg x)) (ld32 (xmem x) s).
Proof.
  intros Hwf Hesp Hs Hn Hr old m Ho. unfold m. rewrite (swtch_run x s new Hesp Hs Hn Hr). fold old. cbn [xmem]. split.
  - apply ld32_st32_eq. unfold is_u32. lia.
  - unfold load_ctx. set (l := [_; _; _; _]). f_equal; rewrite ld32_st32_ne by lia.
    + apply (ld32_pushw l _ _ _ 3); [done|lia|exact (wf_g x Hwf EDI)].
    + apply (ld32_pushw l _ _ _ 2); [done|lia|exact (wf_g x Hwf ESI)].
    + apply (ld32_pushw l _ _ _ 1); [done|lia|exact (wf_g x Hwf EBX)].
    + apply (ld32_pushw l _ _ _ 0); [done|lia|exact (wf_g x Hwf EBP)].
    + replace (s - 16 + 16) with s by lia. apply ld32_ext. intros b Hb. apply ld8_pushw. lia.
Qed.

Lemma wfx_set_eax n x : wfx x -> is_u32 n -> wfx (setr EAX n x).
Proof.
  intros [Hg Hs H1 H2 H3 H4] Hn. split; [|by destruct x..]. intros r. pose proof (Hg r). by destruct x as [[]], r.
Qed.

Lemma load_tf_ext m m' a : (forall b, a <= b < a + 76 -> ld8 m' b = ld8 m b) -> load_tf m' a = load_tf m a.
Proof.
  intros H. assert (forall i, 0 <= i < 19 -> ld32 m' (a + 4 * i) = ld32 m (a + 4 * i)) as Hw.
  { intros i Hi. apply ld32_ext. intros b Hb. apply H. lia. }
  unfold load_tf. by rewrite !Hw by lia.
Qed.

(** * Theorems *)

(** C9: A system call stub of usys.S called from user code enters the kernel with
    the trap frame of its registers at the top of the process' kernel stack and
    its address as the argument of trap: trap number 64, the call's number in
    eax, and esp at the return address, below the arguments.  Memory outside of
    the frame is as it was.  Whatever the kernel then does, when trap returns
    with v in the frame's eax, the stub returns to its caller with v in eax, its
    return address popped, and every other register as it was. *)
Theorem usys_calls n x ss0 t sel off :
  wfx x -> CPL x = 3 -> is_u32 n -> 80 <= t < 4294967296 -> getr ESP x < 4294967296 - 4 ->
  let x1 := run (vector T_SYSCALL ++ alltraps) (interrupt ss0 t None sel off (run (usys_enter n) x)) in
  let a := t - 76 in
  ld32 (xmem x1) (getr ESP x1) = a /\
  load_tf (xmem x1) a = frame a T_SYSCALL 0 (setr EAX n x) /\
  (forall b, b < a - 4 \/ t <= b -> ld8 (xmem x1) b = ld8 (xmem x) b) /\
  forall y v, getr ESP y = getr ESP x1 -> load_tf (xmem y) a = set_eax v (load_tf (xmem x1) a) ->
    run usys_return (trapret (run after_trap y)) =
    mkX (setg ESP (getr ESP x + 4) (setg EAX v (xg x))) (xs x) (ld32 (xmem y) (getr ESP x)) (cs x) (eflags x) (ss x) (xmem y).
Proof.
  intros Hwf Hu Hn Ht Hsp x1 a. pose proof (wf_g x Hwf ESP) as Hsp0. unfold is_u32 in Hsp0.
  destruct (user_entry T_SYSCALL None (setr EAX n x) ss0 t sel off) as (Hesp & Harg & Htf & Hm & _);
    [by apply wfx_set_eax|done|by split; [intros []|]|done|done|done|].
  change (run (usys_enter n) x) with (setr EAX n x) in x1. fold x1 a in Hesp, Harg, Htf, Hm. cbn [default] in Htf. clearbody x1.
  split_and!; [by rewrite Hesp|done|done|].
  intros y v Hy Hl. rewrite Htf in Hl. rewrite Hesp in Hy.
  assert (getr ESP (run after_trap y) = a) as Ha.
  { transitivity (u32 (getr ESP y + 4)); [by destruct y as [[]]|]. rewrite Hy, u32_small by (unfold is_u32; lia). lia. }
  assert (xmem (run after_trap y) = xmem y) as Hmy by (by destruct y as [[]]).
  rewrite (trapret_user _ a (set_eax v (frame a T_SYSCALL 0 (setr EAX n x)))); [|done|lia|by rewrite Hmy|by destruct x].
  rewrite Hmy. destruct x as [[] []]. unfold usys_return. x86_run. cbn in *. by rewrite u32_small by (unfold is_u32; lia).
Qed.

Definition demo_x : x86 := mkX (mkG 11 12 13 14 0x2ff0 16 17 18) (mkS 35 35 0 0) 0x101 27 514 35 ∅.

Lemma demo_wf : wfx demo_x.
Proof. split; try (intros []); unfold is_u32, is_u16; vm_compute; split; congruence. Qed.

Lemma usys_calls_witness :
  load_tf (xmem (run (vector T_SYSCALL ++ alltraps) (interrupt 16 0x80401000 None 8 0x80105000 (run (usys_enter 22) demo_x))))
    (0x80401000 - 76) = frame (0x80401000 - 76) T_SYSCALL 0 (setr EAX 22 demo_x).
Proof.
  apply (usys_calls 22 demo_x 16 0x80401000 8 0x80105000 demo_wf); [reflexivity|unfold is_u32; lia|lia|reflexivity].
Defined.

(** An interrupt or exception within the kernel is transparent: its frame lies
    below the stack in use, and when trap returns with the frame as it was, all
    registers, the stack pointer included, are those of the interrupted code. *)
Theorem kernel_trap_returns i e x ss0 t sel off :
  wfx x -> CPL x = 0 -> is_Some e <-> has_errcode i = true -> 0 <= i < 256 -> is_u32 (default 0 e) ->
  72 <= getr ESP x < 4294967296 - 8 ->
  let x1 := run (vector i ++ alltraps) (interrupt ss0 t e sel off x) in
  let a := getr ESP x - 68 in
  ld32 (xmem x1) (getr ESP x1) = a /\
  tf_trapno (load_tf (xmem x1) a) = i /\ tf_err (load_tf (xmem x1) a) = default 0 e /\
  (forall b, b < a - 4 \/ getr ESP x <= b -> ld8 (xmem x1) b = ld8 (xmem x) b) /\
  forall y, getr ESP y = getr ESP x1 -> ss y = ss x1 ->
    with_stack 0 0 (load_tf (xmem y) a) = with_stack 0 0 (load_tf (xmem x1) a) ->
    trapret (run after_trap y) = upm (fun _ => xmem y) x.
Proof.
  intros Hwf Hu He Hi Herr Hsp x1 a.
  destruct (kernel_entry i e x ss0 t sel off) as (Hesp & Harg & Hss & Htf & Hm); [done..|unfold is_u32; lia|done|lia|].
  fold x1 a in Hesp, Harg, Hss, Htf, Hm. clearbody x1. replace (a + 68) with (getr ESP x) in * by lia.
  split_and!; [by rewrite Hesp|by rewrite Htf|by rewrite Htf|done|].
  intros y Hy Hs Hl. rewrite Hesp in Hy. rewrite Htf in Hl.
  assert (getr ESP (run after_trap y) = a) as Ha.
  { transitivity (u32 (getr ESP y + 4)); [by destruct y as [[]]|]. rewrite Hy, u32_small by (unfold is_u32; lia). lia. }
  assert (xmem (run after_trap y) = xmem y) as Hmy by (by destruct y as [[]]).
  assert (ss (run after_trap y) = ss y) as Hsy by (by destruct y as [[]]).
  rewrite (kernel_resumes x _ a i (default 0 e)); [by rewrite Hmy|done|done|lia|lia|congruence|]. by rewrite Hmy.
Qed.

(** A thread of the kernel that calls swtch leaves its context in *old.  When
    another call of swtch, on another stack, switches to that context, the first
    call returns to its caller with the callee-saved registers and the stack it
    had. *)
Theorem swtch_resumes x y s s' new :
  wfx x -> getr ESP x = s -> 16 <= s < 4294967296 - 12 -> ld32 (xmem x) (s + 8) = new -> new < 4294967296 - 20 ->
  (let old := ld32 (xmem x) (s + 4) in old + 4 <= s - 16 \/ s + 4 <= old) ->
  getr ESP y = s' -> 16 <= s' < 4294967296 - 12 -> ld32 (xmem y) (s' + 8) = ld32 (xmem (run swtch x)) (ld32 (xmem x) (s + 4)) ->
  (let old := ld32 (xmem y) (s' + 4) in old + 4 <= s - 16 \/ s + 4 <= old) -> s' <= s - 16 \/ s + 4 <= s' - 16 ->
  (forall b, s - 16 <= b < s + 4 -> ld8 (xmem y) b = ld8 (xmem (run swtch x)) b) ->
  let z := run swtch y in
  eip z = ld32 (xmem x) s /\ getr ESP z = s + 4 /\
  getr EBX z = getr EBX x /\ getr EBP z = getr EBP x /\ getr ESI z = getr ESI x /\ getr EDI z = getr EDI x /\
  eip (run swtch x) = c_eip (load_ctx (xmem (run swtch x)) new) /\ getr ESP (run swtch x) = new + 20.
Proof.
  intros Hwf Hx Hs Hn Hr Ho Hy Hs' Hback Ho' Hd Hm z. cbv zeta in Ho'.
  destruct (swtch_saves x s new Hwf Hx Hs Hn Hr Ho) as (Hold & Hctx). rewrite Hold in Hback.
  unfold z. rewrite (swtch_run y s' (s - 16) Hy Hs' Hback ltac:(lia)). cbv zeta.
  set (m := st32 _ _ _). assert (load_ctx m (s - 16) = load_ctx (xmem (run swtch x)) (s - 16)) as ->.
  { assert (forall o, 0 <= o <= 16 -> ld32 m (s - 16 + o) = ld32 (xmem (run swtch x)) (s - 16 + o)) as Hw.
    { intros o Hb. apply ld32_ext. intros b Hbb. unfold m. rewrite ld8_st32_ne by lia. rewrite ld8_pushw by (cbn [length]; lia). apply Hm. lia. }
    unfold load_ctx. rewrite <- (Z.add_0_r (s - 16)) at 1. rewrite !Hw, Z.add_0_r by lia. done. }
  rewrite Hctx. cbn [c_edi c_esi c_ebx c_ebp c_eip]. rewrite (swtch_run x s new Hx Hs Hn Hr).
  cbn [getr xg eip esp ebx ebp esi edi xmem]. split_and!; try done. lia.
Qed.

Section first_run.
Context {KC : KernelCode}.

(** C10: The first run of a new process.  allocproc left a stack on which the
    scheduler's swtch to the new context starts forkret with zeroed registers;
    when forkret returns, its stack as it found it, control is at trapret, and
    trapret enters user mode with exactly the registers of the process' trap
    frame. *)
Theorem process_starts x s k t :
  getr ESP x = s -> 16 <= s < 4294967296 - 12 -> ld32 (xmem x) (s + 8) = new_context k -> 0 <= k < 4294967296 - 4096 ->
  stack_ok (xmem x) k -> load_tf (xmem x) (k + KSTACKSIZE - SIZEOF_TRAPFRAME) = t -> Z.land (tf_cs t) 3 = 3 ->
  s <= k \/ k + 4096 <= s - 16 -> (let old := ld32 (xmem x) (s + 4) in old + 4 <= k \/ k + 4096 <= old) ->
  let y := run swtch x in
  eip y = forkret_ /\ getr EBX y = 0 /\ getr EBP y = 0 /\ getr ESI y = 0 /\ getr EDI y = 0 /\
  forall z, getr ESP z = getr ESP y -> (forall b, getr ESP y <= b < k + 4096 -> ld8 (xmem z) b = ld8 (xmem y) b) ->
    eip (run [Ret] z) = trapret_ /\ trapret (run [Ret] z) = user_of t (xmem z).
Proof.
  intros Hx Hs Hn Hk (Htr & Hfk & Hz) Ht Hu Hd Ho y. cbv zeta in Ho. unfold new_context, KSTACKSIZE, SIZEOF_TRAPFRAME, SIZEOF_CONTEXT in *.
  unfold y. rewrite (swtch_run x s _ Hx Hs Hn ltac:(lia)). cbv zeta. set (m := st32 _ _ _).
  assert (forall b, k <= b < k + 4096 -> ld8 m b = ld8 (xmem x) b) as Hm.
  { intros b Hb. unfold m. rewrite ld8_st32_ne by lia. apply ld8_pushw. cbn [length]. lia. }
  assert (forall o, 0 <= o <= 12 -> ld32 m (k + 4096 - 76 - 4 - 20 + o) = 0) as Hzero.
  { intros o Hb. unfold ld32. rewrite !Hm, !Hz by lia. done. }
  unfold load_ctx. cbn [c_edi c_esi c_ebx c_ebp c_eip getr xg eip esp ebx ebp esi edi xmem].
  pose proof (Hzero 0 ltac:(lia)) as Hzero0. rewrite Z.add_0_r in Hzero0. rewrite Hzero0, (Hzero 4), (Hzero 8), (Hzero 12) by lia. split_and!; try done.
  - rewrite <- Hfk. apply ld32_ext. intros b Hb. apply Hm. lia.
  - replace (k + 4096 - 76 - 4 - 20 + 20) with (k + 4096 - 76 - 4) by lia. intros z Hz1 Hzm. change (esp (xg z)) with (getr ESP z) in Hz1.
    assert (run [Ret] z = set_eip (ld32 (xmem z) (k + 4096 - 76 - 4)) (setr ESP (k + 4096 - 76) z)) as ->.
    { transitivity (set_eip (ld32 (xmem z) (getr ESP z)) (setr ESP (u32 (getr ESP z + 4)) z)); [reflexivity|].
      rewrite Hz1, u32_small by (unfold is_u32; lia). by replace (k + 4096 - 76 - 4 + 4) with (k + 4096 - 76) by lia. }
    split.
    + rewrite <- Htr. apply ld32_ext. intros b Hb. rewrite Hzm, Hm by lia. done.
    + assert (xmem (set_eip (ld32 (xmem z) (k + 4096 - 76 - 4)) (setr ESP (k + 4096 - 76) z)) = xmem z) as Hmz by done.
      rewrite <- Hmz at 2. apply (trapret_user _ (k + 4096 - 76)); [by destruct z as [[]]|lia| |done].
      rewrite Hmz, <- Ht. apply load_tf_ext. intros b Hb. rewrite Hzm, Hm by lia. done.
Qed.

End first_run.

Definition demo_code : KernelCode := {| forkret_ := 0x80103a00; trapret_ := 0x80105b00; initcode_start := 0; initcode_size := 0 |}.

(** The kernel stack at 0x80400000, and a call of [swtch] on another. *)
Definition demo_stack : memory :=
  let m := st32 (st32 (st32 ∅ (0x80401000 - 16) 27) (0x80300104) 0x80200000) (0x80300108) (new_context 0x80400000) in
  let m1 := st32 m (0x80400000 + KSTACKSIZE - SIZEOF_TRAPFRAME - 4) (@trapret_ demo_code) in
  st32 (memset m1 (new_context 0x80400000) 0 SIZEOF_CONTEXT) (new_context 0x80400000 + 16) (@forkret_ demo_code).

Definition demo_sched : x86 := mkX (mkG 0 0 0 0 0x80300100 0 0 0) (mkS 16 16 0 0) 0 8 2 16 demo_stack.

Lemma demo_stack_ok : @stack_ok demo_code demo_stack 0x80400000.
Proof.
  apply (@new_stack_bytes demo_code); unfold is_u32; vm_compute; split; congruence.
Qed.

Lemma process_starts_witness : eip (run swtch demo_sched) = 0x80103a00.
Proof.
  refine (proj1 (@process_starts demo_code demo_sched 0x80300100 0x80400000 _ _ _ _ _ demo_stack_ok eq_refl _ _ _));
    first [lia|reflexivity|vm_compute; left; congruence].
Defined.

(** initcode.S enters the kernel with the number of exec, the path "/init" as
    the first argument and its argv as the second, where [argint] looks. *)
Theorem initcode_execs argv init x :
  is_u32 argv -> is_u32 init -> getr ESP x = PGSIZE ->
  let y := run (initcode argv init) x in
  getr EAX y = SYS_exec /\ getr ESP y = PGSIZE - 12 /\
  ld32 (xmem y) (getr ESP y + 4) = init /\ ld32 (xmem y) (getr ESP y + 8) = argv.
Proof.
  intros Ha Hi Hx. destruct x as [[] []]. cbn in Hx. subst. unfold initcode. x86_run.
  change (u32 (PGSIZE - 4)) with 4092. change (u32 (4092 - 4)) with 4088. change (u32 (4088 - 4)) with 4084.
  split_and!; [done..| |].
  - rewrite ld32_st32_ne by lia. by apply ld32_st32_eq.
  - rewrite !ld32_st32_ne by lia. by apply ld32_st32_eq.
Qed.
