(* ===== verification/TestShared.v ===== *)
(** * The tests of shared memory (src/testShared.c)

    The test program of shared memory as a user process of the kernel model: its
    system calls run the kernel's operations, its loads and stores go through the
    page table of the process, and its calls of printf are recorded.  [forkTest]
    is left out.  The first test is proved to pass in every state with memory to
    spare; the others are run on a concrete machine. *)

From S2P Require Import Prelude.
From S2P Require Import CString.
From S2P Require Import Mmu.
From S2P Require Import Kalloc.
From S2P Require Import Vm.
From S2P Require Import Demo.
From S2P Require Import Uvm.
From S2P Require Import Kernel.
From S2P Require Import Shm.
From S2P Require Import ShmGet.
From S2P Require Import ShmAttach.
From S2P Require Import ShmTheorems.

From Stdlib Require Import String Ascii.

Open Scope Z_scope.

Definition KEY1 : Z := 2000.
Definition KEY2 : Z := 4000.
Definition KEY3 : Z := 7777.
Definition KEY4 : Z := 2006.
Definition KEY5 : Z := 4001.
Definition KEY6 : Z := 7778.
Definition KEY7 : Z := 3567.
Definition allowedAddr : Z := HEAPLIMIT + 3 * PGSIZE.

(** The characters of the texts that Rocq has no escapes for. *)
Definition tab : string := String "009" EmptyString.
Definition nl : string := String "010" EmptyString.

Fixpoint bytes (t : string) : list Z :=
  match t with
  | EmptyString => []
  | String c t => Z.of_nat (nat_of_ascii c) :: bytes t
  end.

Section tests.
Context {K : KernelImage} {F : Type}.

(** The process under test: the kernel it runs on, and the formats and
    arguments it gave to printf. *)
Record tester := mkTester { tk : kernel F; tout : list (string * list Z) }.

Definition insys {A} (c : M (kernel F) A) : M tester A := zoom tk (fun k t => mkTester k (tout t)) c.
Definition print_args (f : string) (l : list Z) : M tester unit := modify (fun t => mkTester (tk t) (tout t ++ [(f, l)])).
Definition print (f : string) : M tester unit := print_args f [].

(** A load or store of the process at [va]: the page must be a user page. *)
Definition user_page (va : Z) : M (kernel F) Z :=
  let! p := myproc in
  let! pr := get_proc p in
  let! m := gets (fun s => mem (kphys s)) in
  if nz (Z.land (pte_view m (pgdir pr) (u32 va)) PTE_U) then ret (pgdir pr) else fault "page fault".

Definition load (va : Z) : M tester Z := insys (let! d := user_page va in inphys (va_ld8 d va)).
Definition store (va b : Z) : M tester unit := insys (let! d := user_page va in inphys (va_st8 d va b)).

(** [ptr[i] = string[i]] from [i] on, and the comparison. *)
Fixpoint write_loop (ptr : Z) (l : list Z) : M tester unit :=
  match l with
  | [] => ret tt
  | b :: l => do! store ptr b in write_loop (ptr + 1) l
  end.

Fixpoint check_loop (ptr : Z) (l : list Z) : M tester bool :=
  match l with
  | [] => ret true
  | b :: l =>
      let! c := load ptr in
      if negb (c =? b) then ret false else check_loop (ptr + 1) l
  end.

(** The pointer that shmat returns, as an int. *)
Definition negative (ptr : Z) : bool := s32 ptr <? 0.

(** From the region's identifier on. *)
Definition basic_use (shmid : Z) : M tester Z :=
  let string := bytes "Test String" in
  let! ptr := insys (shmat shmid 0 0) in
  if negative ptr then ret (-1) else
  do! write_loop ptr string in
  let! dt := insys (shmdt ptr) in
  if dt <? 0 then ret (-1) else
  let! ptr := insys (shmat shmid 0 0) in
  if negative ptr then ret (-1) else
  let! ok := check_loop ptr string in
  if negb ok then ret (-1) else
  let! dt := insys (shmdt ptr) in
  if dt <? 0 then ret (-1) else
  let! ctl := insys (shmctl shmid IPC_RMID 0) in
  if ctl <? 0 then ret (-1) else
  do! print ("Pass" ++ nl) in
  ret 0.

Definition basicSharedTest : M tester Z :=
  do! print "* (Basic) Create segment, write, read and destroy test : " in
  let! shmid := insys (shmget KEY1 2565 (Z.lor 6 IPC_CREAT)) in
  if shmid <? 0 then ret (-1) else basic_use shmid.

(** [printf(1, "Pass\n")] or [printf(1, "Fail\n")]. *)
Definition verdict (pass : bool) : M tester unit := print ((if pass then "Pass" else "Fail") ++ nl).
Definition item (f : string) : M tester unit := print (tab ++ "- " ++ f).
Definition subverdict (pass : bool) : M tester unit := print (tab ++ tab ++ "- " ++ (if pass then "Pass" else "Fail") ++ nl).

Definition shmgetTest : M tester unit :=
  do! print ("* Tests for variants of shmget :" ++ nl) in
  do! item "To check negative key input : " in
  let! shmid := insys (shmget (u32 (-1)) 5000 (Z.lor 6 IPC_CREAT)) in
  do! verdict (shmid <? 0) in
  do! item "Region permission other than Read / Read-Write (no permissions) : " in
  let! shmid := insys (shmget KEY1 4000 IPC_CREAT) in
  do! verdict (shmid <? 0) in
  do! item "Requesting region with more than decided pages ( > 64) : " in
  let! shmid := insys (shmget KEY1 16000040 (Z.lor 6 IPC_CREAT)) in
  do! verdict (shmid <? 0) in
  do! item "Requesting region with zero size : " in
  let! shmid := insys (shmget KEY1 0 (Z.lor 6 IPC_CREAT)) in
  do! verdict (shmid <? 0) in
  do! item "Check for creation of valid region with IPC_CREAT : " in
  let! shmid := insys (shmget KEY1 2000 (Z.lor 6 IPC_CREAT)) in
  do! verdict (negb (shmid <? 0)) in
  do! item "Check for retrieving previously created region's shmid : " in
  let! prevShmid := insys (shmget KEY1 2000 0) in
  do! verdict (prevShmid =? shmid) in
  do! item "Check for creation of valid region with IPC_PRIVATE : " in
  let! shmid := insys (shmget IPC_PRIVATE 2000 6) in
  do! verdict (negb (shmid <? 0)) in
  do! item "Check for IPC_CREAT | IPC_EXCL on existing region : " in
  let! shmid := insys (shmget KEY1 0 (Z.lor (Z.lor 6 IPC_CREAT) IPC_EXCL)) in
  do! verdict (shmid <? 0) in
  do! item "Check for IPC_EXCL alone, without IPC_CREAT : " in
  let! shmid := insys (shmget KEY2 0 (Z.lor 6 IPC_EXCL)) in
  verdict (shmid <? 0).

(** ** shmatTest, in the pieces its labels divide it into *)

(** A detach that must succeed. *)
Definition detach (ptr : Z) : M tester unit :=
  let! dt := insys (shmdt ptr) in subverdict (negb (dt <? 0)).

Definition corresponding_detach (ptr : Z) : M tester unit :=
  do! item "Corresponding detach : " in
  let! dt := insys (shmdt ptr) in verdict (negb (dt <? 0)).

(** Identifiers and addresses that are refused. *)
Definition shmat_refused (shmid : Z) : M tester unit :=
  do! item "Non-existent shmid within allowed range: " in
  let! ptr := insys (shmat 35 0 0) in
  do! verdict (negative ptr) in
  do! item "Check shmid beyond allowed range: " in
  let! ptr := insys (shmat 1000 0 0) in
  do! verdict (negative ptr) in
  do! item "Requesting for address beyond lower limit: " in
  let! ptr := insys (shmat shmid (HEAPLIMIT - 10) 0) in
  do! verdict (negative ptr) in
  do! item "Requesting for address beyond upper limit: " in
  let! ptr := insys (shmat shmid (KERNBASE + 10) 0) in
  verdict (negative ptr).

Definition shmat_addresses (shmid shmid4 : Z) : M tester unit :=
  do! item "Requesting for page-aligned address within range : " in
  let! ptr := insys (shmat shmid allowedAddr 0) in
  do! verdict (ptr =? allowedAddr) in
  do! corresponding_detach ptr in
  do! item "Requesting Read-Only access for Read-Only region : " in
  let! ptr := insys (shmat shmid4 0 SHM_RDONLY) in
  do! (if negb (s32 ptr =? -1) then print ("Allowed ! : Pass" ++ nl) else print ("Not allowed ! : Fail" ++ nl)) in
  do! corresponding_detach ptr in
  do! item "Checking rounding down for non page-aligned address within range : " in
  let! ptr := insys (shmat shmid (allowedAddr + 7) SHM_RND) in
  do! verdict (ptr =? allowedAddr) in
  corresponding_detach ptr.

Definition shmat_holes (shmid shmid2 shmid3 : Z) : M tester unit :=
  do! item "Checking compactness of memory mappings & filling of holes: " in
  let! ptr := insys (shmat shmid 0 0) in
  if negb (ptr =? HEAPLIMIT) then
    do! verdict false in
    do! print_args "%x" [ptr] in
    let! _d := insys (shmdt ptr) in
    ret tt
  else
  let! ptr2 := insys (shmat shmid2 (HEAPLIMIT + 2 * PGSIZE) 0) in
  if negb (ptr2 =? HEAPLIMIT + 2 * PGSIZE) then
    do! verdict false in
    let! _d := insys (shmdt ptr2) in
    ret tt
  else
  let! ptr3 := insys (shmat shmid3 0 0) in
  do! verdict (ptr3 =? HEAPLIMIT + PGSIZE) in
  do! item ("Corresponding detaches (3) : " ++ nl ++ " ") in
  do! detach ptr in
  do! detach ptr2 in
  detach ptr3.

(** From [nexttest]. *)
Definition shmat_no_overwrite (shmid shmid2 shmid3 : Z) : M tester unit :=
  do! item "Trying to overwrite existing mapping without SHM_REMAP flag : " in
  let! ptr := insys (shmat shmid HEAPLIMIT 0) in
  if negb (ptr =? HEAPLIMIT) then
    do! verdict false in
    let! _d := insys (shmdt ptr) in
    ret tt
  else
  let! ptr2 := insys (shmat shmid2 (HEAPLIMIT + PGSIZE) 0) in
  if negb (ptr2 =? HEAPLIMIT + PGSIZE) then
    do! verdict false in
    let! _d := insys (shmdt ptr2) in
    ret tt
  else
  let! ptr3 := insys (shmat shmid3 HEAPLIMIT 0) in
  do! (if negative ptr3 then print ("Cannot Overwrite! : Pass" ++ nl)
       else let! _d := insys (shmdt ptr3) in verdict false) in
  do! item ("Corresponding detaches (2) : " ++ nl ++ " ") in
  do! detach ptr in
  detach ptr2.

(** From [nexttest2]. *)
Definition shmat_overwrite (shmid shmid2 shmid3 : Z) : M tester unit :=
  do! item "Trying to overwrite existing mapping with SHM_REMAP flag: " in
  let! ptr := insys (shmat shmid HEAPLIMIT 0) in
  if negb (ptr =? HEAPLIMIT) then
    do! verdict false in
    let! _d := insys (shmdt ptr) in
    ret tt
  else
  let! ptr2 := insys (shmat shmid2 (HEAPLIMIT + PGSIZE) 0) in
  if negb (ptr2 =? HEAPLIMIT + PGSIZE) then
    do! verdict false in
    let! _d := insys (shmdt ptr) in
    let! _d := insys (shmdt ptr2) in
    ret tt
  else
  let! ptr3 := insys (shmat shmid3 HEAPLIMIT SHM_REMAP) in
  do! (if ptr3 =? HEAPLIMIT then print ("Can Overwrite! : Pass" ++ nl) else verdict false) in
  do! item ("Corresponding detaches (3) : " ++ nl ++ " ") in
  do! detach ptr in
  do! detach ptr2 in
  let! dt := insys (shmdt ptr3) in
  subverdict (dt <? 0).

(** The endless loop that fills [ptrarr], an array of 100 pointers, from [i]
    on, and its last [i]. *)
Fixpoint attach_all (n : nat) (shmid : Z) (ptrarr : list Z) : M tester (list Z) :=
  match n with
  | O => fault "ptrarr"
  | S n =>
      let! ptr := insys (shmat shmid 0 0) in
      if negative ptr then ret ptrarr else attach_all n shmid (ptrarr ++ [ptr])
  end.

Fixpoint detach_all (ptrarr : list Z) : M tester bool :=
  match ptrarr with
  | [] => ret true
  | ptr :: ptrarr =>
      let! dt := insys (shmdt ptr) in
      if dt <? 0 then ret false else detach_all ptrarr
  end.

(** From [nexttest3]. *)
Definition shmat_exhaust (shmid : Z) : M tester unit :=
  do! item "Trying to exhaust all regions for the process: " in
  let! ptrarr := attach_all 100 shmid [] in
  let i := Z.of_nat (List.length ptrarr) in
  do! verdict (i =? SHAREDREGIONS) in
  do! print_args (tab ++ "- Corresponding detaches (%d) : " ++ nl ++ " ") [i] in
  let! ok := detach_all ptrarr in
  if negb ok then verdict false else
  print (tab ++ tab ++ "- All Passed" ++ nl).

Definition shmatTest : M tester unit :=
  do! print ("* Tests for variants of shmat :" ++ nl) in
  let! shmid := insys (shmget KEY4 2565 (Z.lor 6 IPC_CREAT)) in
  let! shmid2 := insys (shmget KEY5 2565 (Z.lor 6 IPC_CREAT)) in
  let! shmid3 := insys (shmget KEY6 2565 (Z.lor 6 IPC_CREAT)) in
  let! shmid4 := insys (shmget KEY7 3000 (Z.lor 4 IPC_CREAT)) in
  if (shmid <? 0) || (shmid2 <? 0) || (shmid3 <? 0) || (shmid4 <? 0) then verdict false else
  do! shmat_refused shmid in
  do! shmat_addresses shmid shmid4 in
  do! shmat_holes shmid shmid2 shmid3 in
  do! shmat_no_overwrite shmid shmid2 shmid3 in
  do! shmat_overwrite shmid shmid2 shmid3 in
  shmat_exhaust shmid.

Definition shmdtTest : M tester unit :=
  do! print ("* Tests for variants of shmdt :" ++ nl) in
  let! shmid := insys (shmget KEY4 2565 (Z.lor 6 IPC_CREAT)) in
  let! ptr := insys (shmat shmid 0 0) in
  do! item "Trying to detach previously attached region: " in
  let! dt := insys (shmdt ptr) in
  do! verdict (negb (dt <? 0)) in
  do! item "Trying to detach at unattached virtual address: " in
  let! dt := insys (shmdt (KERNBASE - PGSIZE)) in
  verdict (dt <? 0).

(** [buf->shm_perm.mode = v] *)
Definition set_buf_mode (buf v : Z) : M tester unit :=
  insys (let! d := user_page buf in inphys (va_st32 d (buf + OFF_MODE) v)).

(** [buf] is the address of [bufferCheck] on the stack. *)
Definition shmctlTest (buf : Z) : M tester unit :=
  do! print ("* Tests for variants of shmctl :" ++ nl) in
  let fail_all := print (tab ++ "- Fail shmctl tests" ++ nl) in
  let! shmid := insys (shmget KEY3 8000 (Z.lor 6 IPC_CREAT)) in
  if shmid <? 0 then fail_all else
  let! ptr := insys (shmat shmid 0 0) in
  if negative ptr then fail_all else
  do! write_loop ptr (bytes "Test string") in
  let! dt := insys (shmdt ptr) in
  if dt <? 0 then fail_all else
  do! item "Destroy / Remove (IPC_RMID) non - existing region : " in
  let! ctl := insys (shmctl 55555 IPC_RMID 0) in
  do! verdict (ctl <? 0) in
  do! item "Test IPC_STAT / SHM_STAT flags : " in
  let! ctl := insys (shmctl shmid IPC_STAT buf) in
  do! verdict (negb (ctl <? 0)) in
  do! set_buf_mode buf 4 in
  do! item "Test IPC_SET flag (change region mode to Read) : " in
  let! ctl := insys (shmctl shmid IPC_SET buf) in
  do! verdict (negb (ctl <? 0)) in
  do! set_buf_mode buf 567 in
  do! item "Test IPC_SET flag (change region mode to a random number) : " in
  let! ctl := insys (shmctl shmid IPC_SET buf) in
  do! verdict (ctl <? 0) in
  do! item "Destroy / Remove (IPC_RMID) existing region : " in
  let! ctl := insys (shmctl shmid IPC_RMID 0) in
  verdict (negb (ctl <? 0)).

Definition permissionTest (buf : Z) : M tester unit :=
  do! print ("* Tests for combinations of region permissions :" ++ nl) in
  do! item "Region permission other than Read / Read-Write : " in
  let! shmid := insys (shmget KEY1 4000 (Z.lor 26 IPC_CREAT)) in
  do! verdict (shmid <? 0) in
  do! item "Write into a read-write region : " in
  let testChar := 97 in
  let! shmid := insys (shmget KEY3 2565 (Z.lor 6 IPC_CREAT)) in
  if shmid <? 0 then verdict false else
  let! ptr := insys (shmat shmid 0 0) in
  if negative ptr then verdict false else
  do! store ptr testChar in
  let! dt := insys (shmdt ptr) in
  if dt <? 0 then verdict false else
  do! verdict true in
  do! set_buf_mode buf 4 in
  let! ctl := insys (shmctl shmid IPC_SET buf) in
  if ctl <? 0 then verdict false else
  do! item "Read from a read-only region : " in
  let! ptr := insys (shmat shmid 0 0) in
  if negative ptr then verdict false else
  let! c := load ptr in
  if negb (c =? testChar) then verdict false else
  let! dt := insys (shmdt ptr) in
  if dt <? 0 then verdict false else
  do! verdict true in
  let! ctl := insys (shmctl shmid IPC_RMID 0) in
  if ctl <? 0 then verdict false else ret tt.

(** [main] up to [forkTest]. *)
Definition test_main (buf : Z) : M tester unit :=
  let! r := basicSharedTest in
  do! (if r <? 0 then print ("failed" ++ nl) else ret tt) in
  do! shmgetTest in
  do! shmatTest in
  do! shmdtTest in
  do! shmctlTest buf in
  permissionTest buf.

End tests.
Arguments tester : clear implicits.

(** ** Specification *)

Section spec.
Context {K : KernelImage} {F : Type}.

(** The process has a free slot, and addresses for one page. *)
Definition roomy (pr : proc) : Prop :=
  (exists i, free_slot pr = Some i) /\
  exists vb, HEAPLIMIT <= vb /\ vb + PGSIZE < KERNBASE /\ fits vb PGSIZE (pages pr).

(** Region [index] has the page [q] only, is writable and not attached. *)
Record owns (index q : Z) (fl : list Z) (pr : proc) (s : kernel F) (r : shmRegion) : Prop := {
  ow_inv : shm_inv fl pr s;
  ow_region : zidx (shmTable s) index = Some r;
  ow_used : region_used index r;
  ow_mode : mode (shm_perm (buffer r)) = RW_SHM;
  ow_keep : toBeDeleted r = 0;
  ow_page : region_pages r = [q];
  ow_free : shm_nattch (buffer r) = 0;
  ow_room : roomy pr;
}.

(** It is attached at [va], in slot [i] of the process [pr]. *)
Record session (index q va i : Z) (fl : list Z) (pr : proc) (s : kernel F) (r : shmRegion) : Prop := {
  se_inv : shm_inv fl (add_seg i (mkPages (key r) (size r) index (Z.lor PTE_W PTE_U) va) pr) s;
  se_region : zidx (shmTable s) index = Some (more_attach (pid pr) r);
  se_slot : 0 <= i < Z.of_nat (List.length (pages pr));
  se_free : exists g0, zidx (pages pr) i = Some g0 /\ seg_used g0 = false;
  se_va : HEAPLIMIT <= va /\ va + PGSIZE < KERNBASE /\ va mod PGSIZE = 0;
  se_map : forall o, 0 <= o < 4096 -> pte_view (mem (kphys s)) (pgdir pr) (va + o) = mk_pte (V2P q) (Z.lor PTE_W PTE_U);
}.

(** The page [q] holds the bytes [l]. *)
Definition page_holds (q : Z) (l : list Z) (s : kernel F) : Prop :=
  forall k b, l !! k = Some b -> ld8 (mem (kphys s)) (q + Z.of_nat k) = b.

End spec.

(** * Lemmas *)

Section access.
Context {K : KernelImage} {KI : KernelImageOk K} {F : Type}.
Implicit Types (s : kernel F) (t : tester F).

Definition set_kmem (m : memory) (s : kernel F) : kernel F := set_kphys (set_mem m (kphys s)) s.

(** A write to the page of a region keeps the invariant. *)
Lemma shm_inv_poke fl pr s q m :
  shm_inv fl pr s -> q ∈ shm_pages (shmTable s) ->
  (forall q', is_page q' -> q' <> q -> same_bytes (mem (kphys s)) m q') -> shm_inv fl pr (set_kmem m s).
Proof.
  intros I Hq Hm. pose proof (si_tab _ _ _ I) as T.
  assert (forall q', q' ∈ fl -> same_bytes (mem (kphys s)) m q') as Hfl.
  { intros q' Hq'. apply Hm; [by apply (phys_ok_page _ _ q' (si_phys _ _ _ I))|]. intros ->.
    pose proof (to_owned _ _ T) as (_ & H & _)%NoDup_app. by apply (H q). }
  split; [|exact (si_count _ _ _ I)]. apply (shm_state_change fl fl pr s); try done; try by apply I.
  - apply phys_ok_frame; [apply I|]. intros q' b Hq'. by apply Hfl.
  - intros q' Hq' Hp. by apply (pt_page_is_page _ _ _ _ (si_dir _ _ _ I)) in Hp as [_ ?].
  - intros q' Hp. apply Hm; [by apply (pt_page_is_page _ _ _ _ (si_dir _ _ _ I)) in Hp as [? _]|].
    intros ->. by apply (si_apart _ _ _ I q).
  - intros q' Hq'. by left.
  - intros j r Hr U _. exists r. done.
Qed.

(** Page [q] is mapped writable for the process [pr] at [va]. *)
Definition mapped_at (pr : proc) (va q : Z) (s : kernel F) : Prop :=
  forall o, 0 <= o < 4096 -> pte_view (mem (kphys s)) (pgdir pr) (va + o) = mk_pte (V2P q) (Z.lor PTE_W PTE_U).

Lemma mk_pte_bit pa perm n : 0 <= n -> Z.testbit perm n = true -> nz (Z.land (mk_pte pa perm) (2 ^ n)) = true.
Proof.
  intros Hn Hb. apply nz_true. intros H. apply (f_equal (fun z => Z.testbit z n)) in H.
  rewrite Z.bits_0 in H. unfold mk_pte in H. rewrite Z.land_spec, !Z.lor_spec, Z.pow2_bits_true, Hb, orb_true_r in H by done. done.
Qed.

Lemma mapped_xlat m d va q w :
  is_page q -> pte_view m d va = mk_pte (V2P q) (Z.lor PTE_W PTE_U) ->
  va_xlat m d va w = Some (q + va mod PGSIZE) /\ nz (Z.land (pte_view m d va) PTE_U) = true.
Proof.
  intros Hq Hv. unfold va_xlat. rewrite Hv, mk_pte_present.
  assert (nz (Z.land (mk_pte (V2P q) (Z.lor PTE_W PTE_U)) PTE_W) = true) as -> by (by apply (mk_pte_bit _ _ 1)).
  assert (nz (Z.land (mk_pte (V2P q) (Z.lor PTE_W PTE_U)) PTE_U) = true) as -> by (by apply (mk_pte_bit _ _ 2)).
  rewrite orb_true_r. cbn [andb]. split; [|done]. do 2 f_equal. exact (frame_mk_WU q Hq).
Qed.

Lemma wpx_user_page (Q : Z -> kernel F -> Prop) E va pr q s :
  ptable s !! curproc s = Some pr -> is_u32 va -> is_page q ->
  pte_view (mem (kphys s)) (pgdir pr) va = mk_pte (V2P q) (Z.lor PTE_W PTE_U) ->
  Q (pgdir pr) s -> wpx (user_page va) Q E s.
Proof.
  intros Hp Hva Hq Hv HQ. unfold user_page. wp_steps. eapply wpx_get_proc; [done|]. wp_steps.
  rewrite u32_small by done. destruct (mapped_xlat _ _ _ _ false Hq Hv) as [_ ->]. by wp_steps.
Qed.

Lemma wpx_store (Q : unit -> tester F -> Prop) E va b pr q t :
  ptable (tk t) !! curproc (tk t) = Some pr -> is_u32 va -> is_page q ->
  pte_view (mem (kphys (tk t))) (pgdir pr) va = mk_pte (V2P q) (Z.lor PTE_W PTE_U) ->
  Q tt (mkTester (set_kmem (st8 (mem (kphys (tk t))) (q + va mod PGSIZE) b) (tk t)) (tout t)) ->
  wpx (store va b) Q E t.
Proof.
  intros Hp Hva Hq Hv HQ. unfold store, insys. apply wpx_zoom. wp_step. eapply wpx_user_page; [done..|].
  apply wpx_zoom. unfold va_st8. wp_steps. rewrite u32_small by done. destruct (mapped_xlat _ _ _ _ true Hq Hv) as [-> _]. by wp_steps.
Qed.

Lemma wpx_load (Q : Z -> tester F -> Prop) E va pr q t :
  ptable (tk t) !! curproc (tk t) = Some pr -> is_u32 va -> is_page q ->
  pte_view (mem (kphys (tk t))) (pgdir pr) va = mk_pte (V2P q) (Z.lor PTE_W PTE_U) ->
  Q (ld8 (mem (kphys (tk t))) (q + va mod PGSIZE)) t -> wpx (load va) Q E t.
Proof.
  intros Hp Hva Hq Hv HQ. unfold load, insys. apply wpx_zoom. wp_step. eapply wpx_user_page; [done..|].
  apply wpx_zoom. unfold va_ld8. wp_steps. rewrite u32_small by done. destruct (mapped_xlat _ _ _ _ false Hq Hv) as [-> _].
  wp_steps. destruct t as [[] ?]. exact HQ.
Qed.

(** What the write loop leaves from offset [o] of the page [q]. *)
Lemma write_loop_spec pr va q l : forall o t,
  ptable (tk t) !! curproc (tk t) = Some pr -> is_page q -> ~ pt_page (mem (kphys (tk t))) (pgdir pr) q ->
  (forall q', pt_page (mem (kphys (tk t))) (pgdir pr) q' -> is_page q') ->
  0 <= va -> va mod 4096 = 0 -> va + 4096 < 4294967296 -> mapped_at pr va q (tk t) ->
  0 <= o -> o + Z.of_nat (List.length l) <= 4096 -> Forall (fun b => 0 <= b < 256) l ->
  wp (write_loop (va + o) l) (fun _ t' => exists m, t' = mkTester (set_kmem m (tk t)) (tout t) /\
    (forall k b, l !! k = Some b -> ld8 m (q + o + Z.of_nat k) = b) /\
    (forall a, a < q + o \/ q + o + Z.of_nat (List.length l) <= a -> ld8 m a = ld8 (mem (kphys (tk t))) a)) t.
Proof.
  induction l as [|b l IH]; intros o t Hpr Hq Hnp Hpp Hva Hal Hhi Hm Ho Hl Hb; cbn [write_loop List.length] in *.
  - wp_steps. exists (mem (kphys (tk t))). split_and!; [by destruct t as [[[]]]| |done]. intros k b Hk. done.
  - apply Forall_cons in Hb as [Hb0 Hb]. wp_step.
    eapply (wpx_store _ _ _ _ pr q); [done|unfold is_u32; lia|done|by apply Hm; lia|].
    replace ((va + o) mod PGSIZE) with o by alia.
    set (m1 := st8 _ _ _). assert (forall q', pt_page (mem (kphys (tk t))) (pgdir pr) q' -> same_bytes (mem (kphys (tk t))) m1 q') as Hs.
    { intros q' Hq' a Ha. apply ld8_st8_ne. assert (q' <> q) by (by intros ->).
      destruct (is_page_disjoint q' q (Hpp _ Hq') Hq ltac:(done)); lia. }
    replace (va + o + 1) with (va + (o + 1)) by lia.
    eapply wpx_mono; [apply (IH (o + 1)); cbn [tk]; try done| |done]; try lia.
    + simpl. by rewrite (pt_page_ext (mem (kphys (tk t)))) by (apply Hs; by left).
    + simpl. intros q' Hq'. apply Hpp. by rewrite (pt_page_ext (mem (kphys (tk t)))) in Hq' by (apply Hs; by left).
    + intros o' Ho'. simpl. rewrite (pte_view_ext (mem (kphys (tk t)))) by done. by apply Hm.
    + cbn beta. intros [] t' (m & -> & Hk & Hout). exists m. cbn [tk tout]. split_and!; [by destruct t as [[[]]]| |].
      * intros [|k] c Hc; cbn in Hc.
        -- injection Hc as ->. rewrite Hout by lia. simpl. rewrite Z.add_0_r. unfold m1. rewrite ld8_st8_eq. by apply Z.mod_small.
        -- rewrite <- (Hk k c Hc). f_equal. lia.
      * intros a Ha. rewrite Hout by lia. simpl. apply ld8_st8_ne. lia.
Qed.

(** The comparison succeeds on what the page holds. *)
Lemma check_loop_spec pr va q l : forall o t,
  ptable (tk t) !! curproc (tk t) = Some pr -> is_page q ->
  0 <= va -> va mod 4096 = 0 -> va + 4096 < 4294967296 -> mapped_at pr va q (tk t) ->
  0 <= o -> o + Z.of_nat (List.length l) <= 4096 ->
  (forall k b, l !! k = Some b -> ld8 (mem (kphys (tk t))) (q + o + Z.of_nat k) = b) ->
  wp (check_loop (va + o) l) (fun ok t' => ok = true /\ t' = t) t.
Proof.
  induction l as [|b l IH]; intros o t Hpr Hq Hva Hal Hhi Hm Ho Hl Hb; cbn [check_loop List.length] in *; [by wp_steps|].
  wp_step. eapply (wpx_load _ _ _ pr q); [done|unfold is_u32; lia|done|by apply Hm; lia|].
  replace ((va + o) mod PGSIZE) with o by alia. pose proof (Hb 0%nat b eq_refl) as H0. rewrite Z.add_0_r in H0.
  rewrite H0, Z.eqb_refl. cbn [negb]. replace (va + o + 1) with (va + (o + 1)) by lia.
  apply IH; try done; try lia. intros k c Hc. rewrite <- (Hb (S k) c Hc). f_equal. lia.
Qed.

End access.

Section basic.
Context {K : KernelImage} {KI : KernelImageOk K} {F : Type}.
Implicit Types (s : kernel F) (t : tester F).

Lemma owns_page index q fl pr s r :
  owns index q fl pr s r -> is_page q /\ q ∈ shm_pages (shmTable s) /\ ~ pt_page (mem (kphys s)) (pgdir pr) q /\ (q ∉ fl) /\
  size r = 1 /\ zidx (physicalAddr r) 0 = Some (V2P q).
Proof.
  intros O. pose proof (ow_inv _ _ _ _ _ _ O) as I. pose proof (si_tab _ _ _ I) as T.
  destruct (table_region_pages _ _ _ _ T (ow_region _ _ _ _ _ _ O)) as (Hp & Hnd & Hsub).
  rewrite (ow_page _ _ _ _ _ _ O) in *. apply Forall_inv in Hp. pose proof (Hsub q ltac:(by left)) as Hq.
  apply NoDup_cons in Hnd as [Hnf _]. pose proof (ow_page _ _ _ _ _ _ O) as Hrp. unfold region_pages in Hrp.
  destruct (to_addr _ _ T _ _ (ow_region _ _ _ _ _ _ O)) as [Hlen Hu]. pose proof (ru_size _ _ (ow_used _ _ _ _ _ _ O)) as Hsz.
  assert (size r = 1) as Hs1.
  { apply (f_equal List.length) in Hrp. rewrite length_fmap, length_take in Hrp. cbn [List.length] in Hrp. lia. }
  split_and!; [done|done| |done|done|].
  - by apply (si_apart _ _ _ I).
  - rewrite Hs1 in Hrp. destruct (physicalAddr r) as [|pa l]; [done|]. cbn in Hrp. injection Hrp as <-.
    transitivity (Some pa); [done|]. f_equal. symmetry. apply V2P_P2V. by apply Forall_inv in Hu.
Qed.

Lemma attach_step index q fl pr s r :
  owns index q fl pr s r ->
  wp (shmat index 0 0) (fun va s' =>
    (exists i fl', session index q va i fl' pr s' r /\ same_bytes (mem (kphys s)) (mem (kphys s')) q /\
       others_kept index s s') \/
    (va = MINUS1 /\ phys_ok [] (kphys s'))) s.
Proof.
  intros O. destruct (owns_page _ _ _ _ _ _ O) as (Hq & Hqs & Hnp & Hnf & Hsz & Hpa). destruct O as [I Hr U Hmode Hdel _ Hna [[i Hi] (vb & Hvb & Hvk & Hfit)]].
  destruct (shmat_fit_spec (pages pr) (size r * PGSIZE) (si_segs _ _ _ I) ltac:(alia))
    as (va & Hf & Hva & Hal & Hfv & Hleast).
  destruct (find_idx_0 _ _ _ Hi) as (g0 & Hg0 & Hk0 & _). pose proof (zidx_range _ _ _ Hg0) as Hix.
  assert (va <= vb) as Hle.
  { destruct (Z.le_gt_cases va vb) as [|Hgt]; [done|]. destruct (Hleast vb ltac:(lia)) as (n & g & Hn & Ho).
    destruct (Hfit n g Hn). rewrite Hsz in Ho. replace (1 * PGSIZE) with PGSIZE in Ho by lia. done. }
  eapply wpx_mono; [eapply (shmat_at fl pr s i index r 0 0 va (si_state _ _ _ I)); done| |done].
  cbn beta. assert (attach_perm r 0 = Z.lor PTE_W PTE_U) as Hperm by (unfold attach_perm; by rewrite Hmode).
  rewrite Hperm, Hsz in *. intros x s' [(Hlt & -> & fl' & A)|[(_ & -> & (ph & -> & St))|(Hge & _)]]; [left| |alia].
  - exists i, fl'. split_and!.
    + destruct A as [AI AC AR AO AV AD]. split; try done.
      * split; [done|]. apply AC, I.
      * exists g0. unfold seg_used. rewrite Hk0. done.
      * alia.
      * intros o Ho. apply (proj1 AV 0 (V2P q)); [rewrite Hsz; lia|done|alia].
    + by apply (at_data _ _ _ _ _ _ _ _ _ _ A).
    + intros k Hk. by apply (at_others _ _ _ _ _ _ _ _ _ _ A).
  - right. split; [done|]. apply St.
Qed.

Lemma detach_step index q va i fl pr s r :
  session index q va i fl pr s r -> region_used index r -> mode (shm_perm (buffer r)) = RW_SHM -> toBeDeleted r = 0 ->
  region_pages r = [q] -> shm_nattch (buffer r) = 0 -> roomy pr ->
  wp (shmdt va) (fun d s' => d = 0 /\ exists pr' r', owns index q fl pr' s' r' /\
    pgdir pr' = pgdir pr /\ pid pr' = pid pr /\ same_bytes (mem (kphys s)) (mem (kphys s')) q /\ others_kept index s s') s.
Proof.
  intros [I Hr Hi (g0 & Hg0 & Hu0) (Hlo & Hhi & Hal) Hmap] U Hmode Hdel Hpg Hna [_ (vb & Hvb & Hvk & Hfit)].
  set (g := mkPages (key r) (size r) index (Z.lor PTE_W PTE_U) va) in *.
  assert (seg_used g = true) as Hgu by (unfold seg_used; simpl; rewrite (proj2 (Z.eqb_neq _ _)); [done|apply U]).
  assert (zidx (pages (add_seg i g pr)) i = Some g) as Hg by (simpl; rewrite zidx_zupd by lia; by rewrite Z.eqb_refl).
  assert (Hl : last_detach (more_attach (pid pr) r) = false) by (unfold last_detach; simpl; by rewrite Hdel, andb_false_r).
  eapply wpx_mono; [apply (shmdt_run fl (add_seg i g pr) s i g (more_attach (pid pr) r) (shm_state_segs _ _ _ I) Hg Hgu Hr)| |done].
  cbn beta. intros d s' (-> & fl' & E). split; [done|].
  assert (I' : shm_inv fl' (drop_seg i g (add_seg i g pr)) s').
  { split; [eapply shmdt_state|eapply shmdt_counted]; try done; try apply I; by rewrite Hl. }
  pose proof (de_table _ _ _ _ _ _ _ _ E) as Ht. cbv zeta in Ht. rewrite Hl in Ht. destruct Ht as [-> Ht].
  assert (Hr' : zidx (shmTable s') index = Some (set_buffer (set_lpid (pid pr)) (less_attach (more_attach (pid pr) r)))).
  { rewrite Ht. simpl. rewrite Z.eqb_refl. unfold left_by. simpl. by rewrite (proj2 (Z.ltb_lt _ _)) by lia. }
  assert (Hot : others_kept index s s') by (intros k Hk; rewrite Ht; simpl; by rewrite (proj2 (Z.eqb_neq k index))).
  exists (drop_seg i g (add_seg i g pr)), (set_buffer (set_lpid (pid pr)) (less_attach (more_attach (pid pr) r))). split_and!; try done.
  - split; try done.
    + destruct U as [U1 U2 U3 U4 U5]. split; try done. simpl. lia.
    + simpl. lia.
    + split.
      * unfold free_slot. destruct (find_idx _ 0 _) eqn:Hf; [by eexists|].
        pose proof (find_idx_0_None _ _ i (clear_pages g) Hf ltac:(simpl; rewrite zidx_zupd by (rewrite ?length_zupd; lia); by rewrite Z.eqb_refl)) as H.
        done.
      * exists vb. split_and!; [done..|]. intros n h Hn Ho. destruct (decide (n = Z.to_nat i)) as [->|Hne].
        -- simpl in Hn. unfold zupd in Hn. rewrite list_lookup_insert_eq in Hn by (rewrite length_insert; lia).
           injection Hn as <-. by destruct Ho.
        -- apply (Hfit n h); [|done]. simpl in Hn. unfold zupd in Hn. by rewrite !list_lookup_insert_ne in Hn by done.
  - destruct (table_region_pages _ _ _ _ (si_tab _ _ _ I) Hr) as (Hp & Hnd & Hsub).
    change (region_pages (more_attach (pid pr) r)) with (region_pages r) in *. rewrite Hpg in *.
    apply (de_data _ _ _ _ _ _ _ _ E); [by apply Forall_inv in Hp| |].
    + apply (si_apart _ _ _ I). apply Hsub. by left.
    + by apply NoDup_cons in Hnd as [? _].
Qed.
(** Writing the page keeps the session. *)
Lemma session_poke index q va i fl pr s r m :
  session index q va i fl pr s r -> region_pages r = [q] ->
  (forall a, a < q \/ q + 4096 <= a -> ld8 m a = ld8 (mem (kphys s)) a) -> session index q va i fl pr (set_kmem m s) r.
Proof.
  intros [I Hr Hi Hf Hva Hmap] Hpg Hm. destruct (table_region_pages _ _ _ _ (si_tab _ _ _ I) Hr) as (Hp & _ & Hsub).
  change (region_pages (more_attach (pid pr) r)) with (region_pages r) in *. rewrite Hpg in *. apply Forall_inv in Hp.
  assert (q ∈ shm_pages (shmTable s)) as Hq by (apply Hsub; by left).
  assert (forall q', is_page q' -> q' <> q -> same_bytes (mem (kphys s)) m q') as Hsame.
  { intros q' Hq' Hne b Hb. apply Hm. destruct (is_page_disjoint q' q Hq' Hp Hne); lia. }
  split; try done; [by apply (shm_inv_poke _ _ _ q)|]. intros o Ho. rewrite <- (Hmap o Ho). simpl. apply pte_view_ext.
  intros q' Hq'. apply Hsame; [by apply (pt_page_is_page _ _ _ _ (si_dir _ _ _ I)) in Hq' as [? _]|].
  intros ->. by apply (si_apart _ _ _ I q).
Qed.

(** The write loop and the comparison in a session. *)
Lemma session_write index q va i fl pr r l t :
  session index q va i fl pr (tk t) r -> region_pages r = [q] ->
  Z.of_nat (List.length l) <= 4096 -> Forall (fun b => 0 <= b < 256) l ->
  wp (write_loop va l) (fun _ t' => session index q va i fl pr (tk t') r /\ tout t' = tout t /\ page_holds q l (tk t') /\
    shmTable (tk t') = shmTable (tk t)) t.
Proof.
  intros S Hpg Hl Hb. pose proof S as [I Hr Hi Hf (Hlo & Hhi & Hal) Hmap].
  destruct (table_region_pages _ _ _ _ (si_tab _ _ _ I) Hr) as (Hp & _ & Hsub).
  change (region_pages (more_attach (pid pr) r)) with (region_pages r) in *. rewrite Hpg in Hp. apply Forall_inv in Hp.
  set (pr1 := add_seg i (mkPages (key r) (size r) index (Z.lor PTE_W PTE_U) va) pr) in *.
  replace (write_loop va l) with (@write_loop F (va + 0) l) by (by rewrite Z.add_0_r).
  eapply wpx_mono; [apply (write_loop_spec pr1 va q l 0 t)| |done]; try done; try alia.
  - apply I.
  - apply (si_apart _ _ _ I). apply Hsub. rewrite Hpg. by left.
  - intros q' Hq'. by apply (pt_page_is_page _ _ _ _ (si_dir _ _ _ I)) in Hq' as [? _].
  - cbn beta. intros [] t' (m & -> & Hk & Hout). cbn [tk tout]. split_and!; try done.
    + apply session_poke; [done..|]. intros a Ha. apply Hout. lia.
    + intros k b Hkb. rewrite <- (Hk k b Hkb). simpl. f_equal. lia.
Qed.

Lemma session_check index q va i fl pr r l t :
  session index q va i fl pr (tk t) r -> region_pages r = [q] ->
  Z.of_nat (List.length l) <= 4096 -> page_holds q l (tk t) ->
  wp (check_loop va l) (fun ok t' => ok = true /\ t' = t) t.
Proof.
  intros S Hpg Hl Hb. pose proof S as [I Hr Hi Hf (Hlo & Hhi & Hal) Hmap].
  destruct (table_region_pages _ _ _ _ (si_tab _ _ _ I) Hr) as (Hp & _).
  change (region_pages (more_attach (pid pr) r)) with (region_pages r) in *. rewrite Hpg in Hp. apply Forall_inv in Hp.
  set (pr1 := add_seg i (mkPages (key r) (size r) index (Z.lor PTE_W PTE_U) va) pr) in *.
  replace (check_loop va l) with (@check_loop F (va + 0) l) by (by rewrite Z.add_0_r).
  apply (check_loop_spec pr1 va q l 0 t); try done; try alia.
  - apply I.
  - intros k b Hkb. rewrite <- (Hb k b Hkb). f_equal. lia.
Qed.

Lemma session_ptr index q va i fl pr s r : session index q va i fl pr s r -> negative va = false.
Proof. intros [_ _ _ _ (Hlo & Hhi & _) _]. unfold negative, s32. apply Z.ltb_ge. alia. Qed.

Lemma page_holds_same q l s s' :
  Z.of_nat (List.length l) <= 4096 -> same_bytes (mem (kphys s)) (mem (kphys s')) q -> page_holds q l s -> page_holds q l s'.
Proof.
  intros Hl Hs Hh k b Hk. rewrite Hs; [by apply Hh|]. apply lookup_lt_Some in Hk. lia.
Qed.

Lemma others_trans index s s1 s2 : others_kept index s s1 -> others_kept index s1 s2 -> others_kept index s s2.
Proof. intros H1 H2 k Hk. by rewrite H2, H1. Qed.

Ltac owned O := first [exact (ow_used _ _ _ _ _ _ O) | exact (ow_mode _ _ _ _ _ _ O) | exact (ow_keep _ _ _ _ _ _ O) |
  exact (ow_page _ _ _ _ _ _ O) | exact (ow_free _ _ _ _ _ _ O) | exact (ow_room _ _ _ _ _ _ O) |
  exact (ow_inv _ _ _ _ _ _ O) | exact (ow_region _ _ _ _ _ _ O)].

Lemma basic_use_spec index q fl pr s r out :
  owns index q fl pr s r ->
  wp (basic_use index) (fun ret t =>
    (ret = 0 /\ tout t = out ++ [("Pass" ++ nl, [])%string] /\
     exists fl' pr' r', shm_inv fl' pr' (tk t) /\ pgdir pr' = pgdir pr /\
       zidx (shmTable (tk t)) index = Some r' /\ region_free r' /\ others_kept index s (tk t)) \/
    (ret = -1 /\ phys_ok [] (kphys (tk t)))) (mkTester s out).
Proof.
  intros O. unfold basic_use. set (l := bytes "Test String"). assert (Z.of_nat (List.length l) <= 4096) as Hl by done.
  assert (Forall (fun b => 0 <= b < 256) l) as Hb by (by repeat constructor).
  clearbody l. wp_step. unfold insys. wp_step. cbn [tk tout].
  eapply wpx_mono; [by apply (attach_step index q fl pr s r)| |done]. cbn beta.
  intros va s1 [(i & fl1 & S1 & _ & O1)|(-> & Hoom)]; [|wp_steps; by right].
  rewrite (session_ptr _ _ _ _ _ _ _ _ S1). wp_step.
  eapply wpx_mono; [apply (session_write index q va i fl1 pr r l); [done|owned O|done..]| |done]. cbn beta.
  intros [] [s2 o2] (S2 & Ho2 & Hh2 & Ht2). cbn [tk tout] in *. subst o2. wp_step. wp_step. cbn [tk tout].
  eapply wpx_mono; [apply (detach_step index q va i fl1 pr s2 r S2); owned O| |done]. cbn beta.
  intros d s3 (-> & pr3 & r3 & O3 & Hd3 & _ & Hsm3 & Ot3). cbn [Z.ltb Z.compare]. wp_step. wp_step. cbn [tk tout].
  eapply wpx_mono; [by apply (attach_step index q fl1 pr3 s3 r3)| |done]. cbn beta.
  intros va4 s4 [(i4 & fl4 & S4 & Hsm4 & Ot4)|(-> & Hoom)]; [|wp_steps; by right].
  rewrite (session_ptr _ _ _ _ _ _ _ _ S4). wp_step.
  assert (page_holds q l s4) as Hh4 by (apply (page_holds_same q l s3); [done..|]; by apply (page_holds_same q l s2)).
  eapply wpx_mono; [by apply (session_check index q va4 i4 fl4 pr3 r3 l); [|owned O3|..]| |done]. cbn beta.
  intros ok t' [-> ->]. cbn [negb]. wp_step. wp_step. cbn [tk tout].
  eapply wpx_mono; [apply (detach_step index q va4 i4 fl4 pr3 s4 r3 S4); owned O3| |done]. cbn beta.
  intros d s5 (-> & pr5 & r5 & O5 & Hd5 & _ & _ & Ot5). cbn [Z.ltb Z.compare]. wp_step. wp_step. cbn [tk tout].
  eapply wpx_mono; [apply (shmctl_rmid_spec fl4 pr5 s5 index r5); owned O5| |done]. cbn beta.
  intros c s6 (-> & fl6 & r6 & I6 & Hr6 & Ot6 & Hf6). rewrite (ow_free _ _ _ _ _ _ O5) in Hf6. cbn [Z.eqb] in Hf6.
  cbn [Z.ltb Z.compare]. unfold print, print_args. wp_steps. cbn [tk tout]. left. split_and!; [done..|].
  exists fl6, pr5, r6. split_and!; [done|congruence|done|apply Hf6|].
  intros k Hk. rewrite Ot6, Ot5, Ot4, Ot3, Ht2, O1 by done. done.
Qed.

End basic.

(** * Theorems *)

Section passes.
Context {K : KernelImage} {KI : KernelImageOk K} {F : Type}.
Implicit Types (s : kernel F) (t : tester F).

Definition basic_title : string := "* (Basic) Create segment, write, read and destroy test : ".

(** C5: basicSharedTest passes.  In every state that satisfies the invariant of
    shared memory, with its key unused, a region and a slot of the process free
    and a page of memory, the test creates its region, attaches it, writes its
    string, detaches, attaches it again, finds the string, detaches and removes
    it, prints Pass and returns 0; every other region is as it was and its own
    is free again.  It returns -1 only when memory for page tables runs out. *)
Theorem basicSharedTest_passes fl pr s out i0 r0 :
  shm_inv fl pr s -> roomy pr -> fl <> [] ->
  (forall j r, zidx (shmTable s) j = Some r -> key r <> KEY1) ->
  zidx (shmTable s) i0 = Some r0 -> key r0 = NOKEY ->
  wp basicSharedTest (fun ret t =>
    (ret = 0 /\ tout t = out ++ [(basic_title, []); ("Pass" ++ nl, [])%string] /\
     exists index fl' pr' r', shm_inv fl' pr' (tk t) /\ pgdir pr' = pgdir pr /\
       zidx (shmTable (tk t)) index = Some r' /\ region_free r' /\ others_kept index s (tk t)) \/
    (ret = -1 /\ phys_ok [] (kphys (tk t)))) (mkTester s out).
Proof.
  intros I Hroom Hfl Hkey Hr0 Hk0. destruct fl as [|q fl]; [done|].
  unfold basicSharedTest. wp_step. unfold print, print_args. wp_steps. unfold insys. wp_step. cbn [tk tout].
  change (Z.lor 6 IPC_CREAT) with (Z.lor RW_SHM (Z.lor IPC_CREAT 0)).
  eapply wpx_mono; [apply (shmget_new KEY1 2565 RW_SHM 0 (q :: fl) pr s i0 r0 (si_state _ _ _ I)); try done; [by right|by left|cbn [List.length]; alia]| |done].
  cbn beta. change (Z.to_nat (2565 / PGSIZE + 1)) with 1%nat. cbn [drop take].
  intros index s1 (r & I1' & Hc1 & Hr1 & Hk1 & Hs1 & Hid & Hdel & Hmode & _ & _ & Hna & Hpg & _ & _ & Ho).
  pose proof (zidx_range _ _ _ Hr1) as Hix. rewrite (proj2 (Z.ltb_ge index 0)) by lia.
  assert (I1 : shm_inv fl pr s1) by (split; [done|apply Hc1, I]).
  assert (owns index q fl pr s1 r) as O.
  { split; try done. split; try done; [by rewrite Hk1|rewrite Hs1; alia|by right|lia]. }
  eapply wpx_mono; [apply (basic_use_spec index q fl pr s1 r _ O)| |done]. cbn beta.
  intros x t [(-> & Hout & fl' & pr' & r' & I' & Hd' & Hr' & Hf' & Ho')|[-> Hoom]]; [left|by right].
  split_and!; [done|rewrite Hout, <- (assoc_L (++)); done|]. exists index, fl', pr', r'. split_and!; try done.
  apply (others_trans _ _ s1); [|done]. intros k Hk. pose proof (to_len _ _ (si_tab _ _ _ I)) as Hlen.
  destruct (decide (0 <= k < SHAREDREGIONS)) as [Hin|Hn]; [by apply Ho|].
  pose proof (to_len _ _ (si_tab _ _ _ I1)) as Hlen1. unfold zidx. destruct (Z.ltb_spec k 0); [done|].
  rewrite !lookup_ge_None_2 by lia. done.
Qed.

End passes.

#[local] Existing Instances demo_image demo_image_ok.

Lemma demo_roomy : roomy demo_proc.
Proof.
  split; [exists 0; vm_compute; reflexivity|]. exists HEAPLIMIT. split; [done|]. split; [done|]. apply demo_fits.
Qed.

Lemma basicSharedTest_passes_witness : wp basicSharedTest (fun ret t =>
    (ret = 0 /\ tout t = [(basic_title, []); ("Pass" ++ nl, [])%string] /\
     exists index fl' pr' r', shm_inv fl' pr' (tk t) /\ pgdir pr' = demo_dir /\
       zidx (shmTable (tk t)) index = Some r' /\ region_free r' /\ others_kept index demo_kernel (tk t)) \/
    (ret = -1 /\ phys_ok [] (kphys (tk t)))) (mkTester demo_kernel []).
Proof.
  apply (basicSharedTest_passes demo_pages demo_proc demo_kernel [] 0 region0 demo_kernel_inv demo_roomy).
  - discriminate.
  - intros j r ->%demo_kernel_region. discriminate.
  - reflexivity.
  - reflexivity.
Defined.

(** ** The other tests on a concrete machine *)

(** Sixteen free pages, and a process with one page of memory at 0. *)
Definition big_pages : list Z := map (fun i => 0x80200000 + i * 4096) (zrange 0 16).
Definition big_phys : phys := mkPhys (demo_chain big_pages) (hd 0 big_pages) true false.
Definition big_kernel : kernel unit :=
  after (inphys (allocuvm demo_dir 0 PGSIZE))
    (mkKernel big_phys [demo_proc] false 8 0 0 (replicate (Z.to_nat SHAREDREGIONS) region0) false tt).

Fixpoint mentions (w t : string) : bool :=
  String.prefix w t || match t with EmptyString => false | String _ t => mentions w t end.

(** How often a test says Pass, and how often Fail. *)
Definition tally (w : string) (t : tester unit) : nat :=
  List.length (filter (fun e => mentions w e.1 = true) (tout t)).

(** The address behind the 64 one-page segments of the last test of shmat. *)
Definition overflow_va : Z := HEAPLIMIT + 64 * PGSIZE.

(** Every test of testShared up to forkTest passes on the concrete machine: its
    43 verdicts are Pass, none fails and nothing faults.  The program also leaves behind what none of them looks at: the shmat that was refused
    because all 64 slots were taken had mapped its page already, which stays
    mapped with no segment for it, so that a later attach at that address
    panics. *)
Theorem testShared_runs :
  match test_main 0xf00 (mkTester big_kernel []) with
  | Ret _ t =>
      tally "Pass" t = 43%nat /\ tally "Fail" t = 0%nat /\ tally "failed" t = 0%nat /\
      present (pte_view (mem (kphys (tk t))) demo_dir overflow_va) = true /\
      forallb (fun pr => forallb (fun g => negb (seg_used g)) (pages pr)) (ptable (tk t)) = true /\
      shmat 0 overflow_va 0 (tk t) = Panic "remap"
  | _ => False
  end.
Proof. vm_compute. split_and!; reflexivity. Qed.
