(* ===== verification/Utils.v ===== *)
(** * User programs (src/cat.c, src/wc.c, src/echo.c, src/kill.c, src/rm.c,
    src/mkdir.c, src/ln.c, src/ls.c)

    The programs on the state of a user program of Ulib.v and the printf of
    Printf.v.  Their constants (formats, static buffers) lie at addresses that
    are arguments; the system calls they make beside read are classes.  A
    program that exits early answers [false]. *)

From S2P Require Import Prelude.
From S2P Require Import CString.
From S2P Require Import Bytes.
From S2P Require Import Ulib.
From S2P Require Import Numeral.
From S2P Require Import Printf.
From S2P Require Import Grep.

Open Scope Z_scope.

(** [write(fd, a, n)] with its answer. *)
Class WriteCall := { uwrite : Z -> Z -> Z -> M user Z }.

(** [kill], [unlink], [mkdir] and [link]. *)
Class NameCalls := {
  kill : Z -> M user Z;
  unlink : Z -> M user Z;
  mkdir : Z -> M user Z;
  link : Z -> Z -> M user Z;
}.

(** [sizeof(buf)] *)
Definition CATBUF : Z := 512.

(** What is left to read from [fd]. *)
Definition pending (fd : Z) (u : user) : list bytes := default [] (uin u !! fd).

(** ** cat *)

Section cat.
Context {W : WriteCall} {FC : FdCalls}.
(** The static buffer and the formats "cat: write error\n", "cat: read error\n"
    and "cat: cannot open %s\n". *)
Variables buf f_write f_read f_open : Z.

Fixpoint cat_loop (k : nat) (fd : Z) : M user bool :=
  match k with
  | O => nofuel
  | S k =>
      let! n := read fd buf CATBUF in
      if 0 <? n then
        let! w := uwrite 1 buf n in
        if negb (w =? n) then do! printf 1 f_write [] in ret false
        else cat_loop k fd
      else if n <? 0 then do! printf 1 f_read [] in ret false
      else ret true
  end.

(** A turn reads at least one byte. *)
Definition cat (fd : Z) : M user bool :=
  let! i := gets uin in
  cat_loop (S (length (concat (default [] (i !! fd))))) fd.

Fixpoint cat_files (args : list Z) : M user bool :=
  match args with
  | [] => ret true
  | a :: args =>
      let! fd := open a 0 in
      if fd <? 0 then do! printf 1 f_open [a] in ret false
      else
        let! go := cat fd in
        if go then do! close fd in cat_files args else ret false
  end.

(** [args] is argv from 1 on. *)
Definition cat_main (args : list Z) : M user bool :=
  match args with [] => cat 0 | _ => cat_files args end.

End cat.

(** ** wc *)

(** [l], [w], [c] and [inword]. *)
Record counts := mkCounts { c_l : Z; c_w : Z; c_c : Z; c_inword : bool }.

Section wc.
Context {FC : FdCalls}.
(** The static buffer, the strings " \r\t\n\v" and "", and the formats
    "wc: read error\n", "%d %d %d %s\n" and "wc: cannot open %s\n". *)
Variables buf seps empty f_read f_out f_open : Z.

Definition wc_byte (m : memory) (b : Z) (t : counts) : option counts :=
  let c := s32 (c_c t + 1) in
  let l := if b =? 10 then s32 (c_l t + 1) else c_l t in
  match strchr m seps b with
  | None => None
  | Some p =>
      if nz p then Some (mkCounts l (c_w t) c false)
      else if negb (c_inword t) then Some (mkCounts l (s32 (c_w t + 1)) c true)
      else Some (mkCounts l (c_w t) c (c_inword t))
  end.

(** [for(i = 0; i < n; i++)] over the buffer. *)
Fixpoint wc_bytes (m : memory) (i : Z) (k : nat) (t : counts) : option counts :=
  match k with
  | O => Some t
  | S k =>
      match wc_byte m (ld8 m (buf + i)) t with
      | None => None
      | Some t => wc_bytes m (i + 1) k t
      end
  end.

Fixpoint wc_loop (k : nat) (fd : Z) (t : counts) : M user (option counts) :=
  match k with
  | O => nofuel
  | S k =>
      let! n := read fd buf CATBUF in
      if 0 <? n then
        let! t := ulift (fun m => wc_bytes m 0 (Z.to_nat n) t) in
        wc_loop k fd t
      else ret (if n <? 0 then None else Some t)
  end.

Definition wc (fd name : Z) : M user bool :=
  let! i := gets uin in
  let! r := wc_loop (S (length (concat (default [] (i !! fd))))) fd (mkCounts 0 0 0 false) in
  match r with
  | None => do! printf 1 f_read [] in ret false
  | Some t => do! printf 1 f_out [c_l t; c_w t; c_c t; name] in ret true
  end.

Fixpoint wc_files (args : list Z) : M user bool :=
  match args with
  | [] => ret true
  | a :: args =>
      let! fd := open a 0 in
      if fd <? 0 then do! printf 1 f_open [a] in ret false
      else
        let! go := wc fd a in
        if go then do! close fd in wc_files args else ret false
  end.

Definition wc_main (args : list Z) : M user bool :=
  match args with [] => wc 0 empty | _ => wc_files args end.

End wc.

(** ** echo *)

Section echo.
(** The format "%s%s" and the strings " " and "\n". *)
Variables f_ss space newline : Z.

Fixpoint echo_main (args : list Z) : M user unit :=
  match args with
  | [] => ret tt
  | a :: args => do! printf 1 f_ss [a; match args with [] => newline | _ => space end] in echo_main args
  end.

End echo.

(** ** kill, rm, mkdir and ln *)

Section names.
Context {N : NameCalls}.
(** The usage message and the message of a failure. *)
Variables f_usage f_fail : Z.

Fixpoint kill_loop (args : list Z) : M user unit :=
  match args with
  | [] => ret tt
  | a :: args =>
      let! pid := ulift (fun m => atoi m a) in
      let! _r := kill pid in
      kill_loop args
  end.

Definition kill_main (args : list Z) : M user unit :=
  match args with [] => printf 2 f_usage [] | _ => kill_loop args end.

Fixpoint rm_loop (args : list Z) : M user unit :=
  match args with
  | [] => ret tt
  | a :: args =>
      let! r := unlink a in
      if r <? 0 then printf 2 f_fail [a] else rm_loop args
  end.

Definition rm_main (args : list Z) : M user unit :=
  match args with [] => printf 2 f_usage [] | _ => rm_loop args end.

Fixpoint mkdir_loop (args : list Z) : M user unit :=
  match args with
  | [] => ret tt
  | a :: args =>
      let! r := mkdir a in
      if r <? 0 then printf 2 f_fail [a] else mkdir_loop args
  end.

Definition mkdir_main (args : list Z) : M user unit :=
  match args with [] => printf 2 f_usage [] | _ => mkdir_loop args end.

Definition ln_main (args : list Z) : M user unit :=
  match args with
  | [old; new] =>
      let! r := link old new in
      if r <? 0 then printf 2 f_fail [old; new] else ret tt
  | _ => printf 2 f_usage []
  end.

End names.

(** ** ls *)

Definition DIRSIZ : Z := 14.
Definition SLASH : Z := 47.
Definition BLANK : Z := 32.
Definition T_DIR : Z := 1.
Definition T_FILE : Z := 2.
Definition SIZEOF_DIRENT : Z := 16.

(** [for(p = path+strlen(path); p >= path && *p != '/'; p--)], from [k]
    characters after [path]. *)
Fixpoint last_slash (m : memory) (path : Z) (k : nat) : Z :=
  let p := path + Z.of_nat k in
  if ld8 m p =? SLASH then p else
  match k with O => path - 1 | S k => last_slash m path k end.

Section ls.
Context {FC : FdCalls}.
(** [fmtname]'s static buffer; [ls]'s path buffer, directory entry and status on
    the stack; the string "."; and the formats. *)
Variables fbuf buf de st dot f_open f_stat f_line f_long f_stat1 : Z.

Definition fmtname (path : Z) : M user Z :=
  let! n := ulift (fun m => strlen m path) in
  let! m := gets umem in
  let p := last_slash m path (Z.to_nat n) + 1 in
  let! len := ulift (fun m => strlen m p) in
  if DIRSIZ <=? len then ret p else
  do! upd_umem (fun m => memmove m fbuf p len) in
  do! upd_umem (fun m => memset m (fbuf + len) BLANK (DIRSIZ - len)) in
  ret fbuf.

(** [st.type], [st.ino] and [st.size]; [type] is a short. *)
Definition st_type (m : memory) : Z := ld8 m st + 256 * ld8 m (st + 1).
Definition st_ino (m : memory) : Z := ld32 m (st + 8).
Definition st_size (m : memory) : Z := ld32 m (st + 16).

Definition ls_line (path : Z) : M user unit :=
  let! name := fmtname path in
  let! m := gets umem in
  printf 1 f_line [name; st_type m; st_ino m; st_size m].

(** [while(read(fd, &de, sizeof(de)) == sizeof(de))], with [p] after the
    slash. *)
Fixpoint ls_dir (k : nat) (fd p : Z) : M user unit :=
  match k with
  | O => nofuel
  | S k =>
      let! n := read fd de SIZEOF_DIRENT in
      if negb (n =? SIZEOF_DIRENT) then ret tt else
      let! m := gets umem in
      if (ld8 m de + 256 * ld8 m (de + 1)) =? 0 then ls_dir k fd p else
      do! upd_umem (fun m => memmove m p (de + 2) DIRSIZ) in
      do! upd_umem (fun m => st8 m (p + DIRSIZ) 0) in
      let! r := stat buf st in
      do! (if r <? 0 then printf 1 f_stat1 [buf] else ls_line buf) in
      ls_dir k fd p
  end.

Definition ls (path : Z) : M user unit :=
  let! fd := open path 0 in
  if fd <? 0 then printf 2 f_open [path] else
  let! r := fstat fd st in
  if r <? 0 then
    do! printf 2 f_stat [path] in
    close fd
  else
  let! m := gets umem in
  do! (if st_type m =? T_FILE then ls_line path
       else if st_type m =? T_DIR then
         let! n := ulift (fun m => strlen m path) in
         if 512 <? n + 1 + DIRSIZ + 1 then printf 1 f_long [] else
         let! m := ulift (fun m => strcpy m buf path) in
         do! upd_umem (fun _ => m) in
         let! n := ulift (fun m => strlen m buf) in
         let p := buf + n in
         do! upd_umem (fun m => st8 m p SLASH) in
         let! i := gets uin in
         ls_dir (S (length (concat (default [] (i !! fd))))) fd (p + 1)
       else ret tt) in
  close fd.

Fixpoint ls_args (args : list Z) : M user unit :=
  match args with
  | [] => ret tt
  | a :: args => do! ls a in ls_args args
  end.

Definition ls_main (args : list Z) : M user unit :=
  match args with [] => ls dot | _ => ls_args args end.

End ls.

(** ** Specification *)

(** The characters that wc takes to separate words. *)
Definition separators : bytes := [32; 13; 9; 10; 11].
Definition is_sep (b : Z) : bool := bool_decide (b ∈ separators).

(** A text cut at its separators, and the words in it. *)
Fixpoint cuts (s : bytes) : list bytes :=
  match s with
  | [] => [[]]
  | b :: s =>
      if is_sep b then [] :: cuts s
      else match cuts s with [] => [[b]] | w :: ws => (b :: w) :: ws end
  end.

Definition words (s : bytes) : list bytes := filter (fun w => w <> []) (cuts s).
Definition newlines (s : bytes) : nat := length (filter (fun b => b = 10) s).

(** The pieces of an input that has no end before its end. *)
Definition input_ok (cs : list bytes) : Prop := Forall (fun c => c <> []) cs /\ Forall is_byte (concat cs).

(** * Lemmas *)

Lemma printf_run fd fmt f ap o u :
  cstring (umem u) fmt f -> formats (umem u) f ap o -> printf fd fmt ap u = Ret tt (emit fd o u).
Proof.
  intros Hs HF. unfold printf, bind, gets. apply (printf_loop_spec fd fmt (length f) f); [done| |done|by eapply cstring_size].
  by rewrite Z.add_0_r.
Qed.

Lemma ldbytes_stbytes m a l : Forall is_byte l -> ldbytes (stbytes m a l) a (length l) = l.
Proof.
  intros Hl. apply list_eq. intros i. destruct (decide (i < length l)%nat) as [Hi|Hi].
  - rewrite lookup_ldbytes by done. destruct (lookup_lt_is_Some_2 l i Hi) as [b Hb]. rewrite Hb. f_equal.
    rewrite ld8_stbytes. rewrite (proj2 (Z.leb_le _ _)), (proj2 (Z.ltb_lt _ _)) by lia. cbn [andb].
    replace (Z.to_nat (a + Z.of_nat i - a)) with i by lia. rewrite Hb. cbn [default from_option id]. apply Z.mod_small.
    rewrite Forall_lookup in Hl. by apply (Hl i).
  - rewrite !lookup_ge_None_2; rewrite ?length_ldbytes; [done|lia..].
Qed.

(** ** Input *)

Lemma take_piece_spec n c cs :
  (0 < n)%nat -> input_ok (c :: cs) ->
  let (l, cs') := take_piece n (c :: cs) in
  l = take n c /\ (0 < length l)%nat /\ l ++ concat cs' = concat (c :: cs) /\ input_ok cs' /\ Forall is_byte l.
Proof.
  intros Hn [Hne Hb]. cbn [take_piece]. apply Forall_cons in Hne as [Hc Hne]. cbn [concat] in Hb. apply Forall_app in Hb as [Hbc Hb].
  split; [done|]. split.
  { destruct c as [|b c]; [done|]. destruct n; [lia|]. cbn. lia. }
  destruct (Nat.leb_spec (length c) n).
  - rewrite take_ge by done. split_and!; [done..| |done]. by split.
  - split_and!.
    + cbn [concat]. by rewrite (assoc_L (++)), take_drop.
    + split; cbn [concat].
      * constructor; [|done]. intros H0%(f_equal length). rewrite length_drop in H0. cbn in H0. lia.
      * apply Forall_app. split; [by apply Forall_drop|done].
    + by apply Forall_take.
Qed.

(** The state after a read of the bytes [l] into [a] leaves [cs]. *)
Definition after_read (fd a : Z) (l : bytes) (cs : list bytes) (u : user) : user :=
  set_umem (stbytes (umem u) a l) (set_uin (<[fd := cs]> (uin u)) u).

Lemma wpx_read (Q : Z -> user -> Prop) E fd a n u :
  (let (l, cs) := take_piece (Z.to_nat n) (pending fd u) in Q (Z.of_nat (length l)) (after_read fd a l cs u)) ->
  wpx (read fd a n) Q E u.
Proof. intros HQ. unfold read. wp_steps. unfold pending in HQ. destruct (take_piece _ _) as [l cs]. by wp_steps. Qed.

Lemma pending_after fd a l cs u : pending fd (after_read fd a l cs u) = cs.
Proof. unfold pending, after_read. cbn. by rewrite lookup_insert_eq. Qed.

Lemma apart_stbytes m a l b : a + Z.of_nat (length l) <= b -> apart m a b (stbytes m a l).
Proof. intros H x Hx. rewrite ld8_stbytes. destruct (Z.leb_spec a x), (Z.ltb_spec x (a + Z.of_nat (length l))); try done. lia. Qed.

(** ** cat *)

(** Every write to standard output is taken whole. *)
Definition WriteOk {W : WriteCall} : Prop := forall a n u, 0 <= n ->
  uwrite 1 a n u = Ret n (emit 1 (ldbytes (umem u) a (Z.to_nat n)) u).

Section cat_spec.
Context {W : WriteCall} {HW : WriteOk}.
Variables buf f_write f_read : Z.

Lemma cat_loop_spec fd : forall k u, input_ok (pending fd u) -> (length (concat (pending fd u)) < k)%nat ->
  wp (cat_loop buf f_write f_read k fd) (fun go u' => go = true /\
    uout u' = uout u ++ map (pair 1) (concat (pending fd u)) /\ apart (umem u) buf (buf + CATBUF) (umem u') /\
    pending fd u' = [] /\ forall fd', fd' <> fd -> pending fd' u' = pending fd' u) u.
Proof.
  induction k as [|k IH]; intros u Hi Hk; [lia|]. cbn [cat_loop]. wp_step. apply wpx_read.
  destruct (pending fd u) as [|c cs] eqn:Hp.
  - cbn [take_piece length]. change (0 <? Z.of_nat 0) with false. change (Z.of_nat 0 <? 0) with false. wp_steps.
    split_and!; [done|by rewrite app_nil_r|apply apart_stbytes; cbn; unfold CATBUF; lia|by rewrite pending_after|].
    intros fd' Hf. unfold pending, after_read. cbn. by rewrite lookup_insert_ne.
  - pose proof (take_piece_spec (Z.to_nat CATBUF) c cs ltac:(unfold CATBUF; lia) Hi) as Ht.
    destruct (take_piece _ (c :: cs)) as [l cs']. destruct Ht as (Hl & Hlen & Hcat & Hi' & Hb).
    rewrite (proj2 (Z.ltb_lt 0 (Z.of_nat (length l)))) by lia. wp_step. unfold wpx at 1. rewrite HW by lia. cbn beta iota.
    rewrite Z.eqb_refl, Nat2Z.id. cbn [negb]. unfold after_read at 1. cbn [umem set_umem]. rewrite ldbytes_stbytes by done.
    set (u1 := emit 1 l (after_read fd buf l cs' u)). assert (pending fd u1 = cs') as Hp1 by apply pending_after.
    assert (length l <= 512)%nat as H512 by (rewrite Hl, length_take; unfold CATBUF; lia).
    eapply wpx_mono; [apply (IH u1); rewrite Hp1; [done|]| |done].
    + apply (f_equal length) in Hcat. rewrite length_app in Hcat. lia.
    + cbn beta. intros go u' (-> & Ho & Ha & Hpe & Hot). rewrite Hp1 in Ho. split_and!; [done| | |done|].
      * rewrite Ho, <- Hcat. unfold u1, emit. cbn. by rewrite map_app, <- (assoc_L (++)).
      * eapply apart_both; [|exact Ha]. apply apart_stbytes. unfold CATBUF. lia.
      * intros fd' Hf. rewrite Hot by done. unfold u1, pending, emit, after_read. cbn. by rewrite lookup_insert_ne.
Qed.

End cat_spec.

(** ** wc *)

(** The counts without the width of an int. *)
Definition count_byte (t : counts) (b : Z) : counts :=
  mkCounts (if b =? 10 then c_l t + 1 else c_l t) (if is_sep b || c_inword t then c_w t else c_w t + 1) (c_c t + 1) (negb (is_sep b)).

Definition count (s : bytes) : counts := foldl count_byte (mkCounts 0 0 0 false) s.

Definition head_word (s : bytes) : bytes := default [] (head (cuts s)).

Lemma cuts_cons s : exists w ws, cuts s = w :: ws.
Proof. destruct s as [|b s]; cbn [cuts]; [eauto|]. destruct (is_sep b); [eauto|]. destruct (cuts s); eauto. Qed.

(** Words counted from a state: the first one is counted already inside a word. *)
Lemma count_words s : forall t,
  let t' := foldl count_byte t s in
  c_l t' = c_l t + Z.of_nat (newlines s) /\ c_c t' = c_c t + Z.of_nat (length s) /\
  c_w t' = c_w t + Z.of_nat (length (words s)) - (if c_inword t && bool_decide (head_word s <> []) then 1 else 0).
Proof.
  induction s as [|b s IH]; intros t; cbn [foldl].
  - change (words []) with (@nil bytes). change (bool_decide (head_word [] <> [])) with false. rewrite andb_false_r.
    change (newlines []) with 0%nat. cbn [length]. lia.
  - destruct (IH (count_byte t b)) as (-> & -> & ->). unfold newlines, words, head_word, count_byte.
    cbn [c_l c_w c_c c_inword length cuts]. destruct (cuts_cons s) as (w & ws & Hc). rewrite filter_cons, Hc.
    split; [|split; [lia|]].
    + destruct (Z.eqb_spec b 10) as [->|]; [rewrite decide_True by done; cbn [length]; lia|rewrite decide_False by done; lia].
    + destruct (is_sep b); cbn [orb negb andb default head from_option id].
      * rewrite (filter_cons_False _ []) by (intros H; by apply H). rewrite (bool_decide_eq_false_2 ([] <> [])) by (intros H; by apply H).
        rewrite andb_false_r. lia.
      * rewrite (filter_cons_True _ (b :: w)) by done. rewrite (bool_decide_eq_true_2 (b :: w <> [])) by done.
        rewrite filter_cons. destruct w as [|b2 w].
        -- rewrite decide_False by (intros H; by apply H). rewrite (bool_decide_eq_false_2 ([] <> [])) by (intros H; by apply H).
           cbn [length]. destruct (c_inword t); cbn [andb]; lia.
        -- rewrite decide_True by done. rewrite (bool_decide_eq_true_2 (b2 :: w <> [])) by done. cbn [length].
           destruct (c_inword t); cbn [andb]; lia.
Qed.

Lemma wc_count_spec s : c_l (count s) = Z.of_nat (newlines s) /\ c_w (count s) = Z.of_nat (length (words s)) /\ c_c (count s) = Z.of_nat (length s).
Proof.
  destruct (count_words s (mkCounts 0 0 0 false)) as (H1 & H2 & H3). cbn [c_l c_w c_c c_inword andb] in *.
  unfold count. rewrite H1, H2, H3. lia.
Qed.

(** No count passes the number of bytes. *)
Lemma count_bounds s : 0 <= c_l (count s) <= Z.of_nat (length s) /\ 0 <= c_w (count s) <= Z.of_nat (length s) /\ c_c (count s) = Z.of_nat (length s).
Proof.
  unfold count. induction s as [|b s IH] using rev_ind; [done|]. rewrite foldl_app, length_app. cbn [foldl length].
  set (t := foldl count_byte _ s) in *. unfold count_byte. cbn [c_l c_w c_c]. destruct (b =? 10), (is_sep b || c_inword t); lia.
Qed.

Lemma index_of_elem b l : match index_of b l with Some _ => b ∈ l | None => b ∉ l end.
Proof.
  induction l as [|x l IH]; cbn [index_of]; [apply not_elem_of_nil|]. destruct (Z.eqb_spec x b) as [->|Hne]; [by left|].
  destruct (index_of b l); cbn; [by right|]. by apply not_elem_of_cons.
Qed.

Section wc_spec.
Variables buf seps : Z.
Hypothesis seps_pos : 0 < seps.
Hypothesis seps_apart : seps + Z.of_nat (length separators) < buf \/ buf + CATBUF <= seps.

Lemma wc_byte_spec m b s :
  cstring m seps separators -> Z.of_nat (length s) + 1 < 2147483648 ->
  wc_byte seps m b (count s) = Some (count (s ++ [b])).
Proof.
  intros Hs Hl. unfold wc_byte. rewrite (strchr_spec _ _ _ _ Hs). pose proof (count_bounds s) as (B1 & B2 & B3).
  unfold count. rewrite foldl_app. fold (count s). cbn [foldl]. unfold count_byte. rewrite !s32_small by lia.
  pose proof (index_of_elem b separators) as Hi. unfold is_sep. destruct (index_of b separators).
  - rewrite bool_decide_eq_true_2 by done. rewrite (proj2 (nz_true _)) by lia. done.
  - rewrite bool_decide_eq_false_2 by done. cbn [orb]. by destruct (c_inword (count s)).
Qed.

Lemma wc_bytes_spec m k : forall i s,
  cstring m seps separators -> Z.of_nat (length s) + Z.of_nat k < 2147483648 ->
  wc_bytes buf seps m i k (count s) = Some (count (s ++ ldbytes m (buf + i) k)).
Proof.
  induction k as [|k IH]; intros i s Hs Hl; cbn [wc_bytes ldbytes]; [by rewrite app_nil_r|].
  rewrite wc_byte_spec by (done || lia). rewrite IH by (done || (rewrite length_app; cbn [length]; lia)).
  rewrite <- (assoc_L (++)). cbn [app]. do 4 f_equal. f_equal. lia.
Qed.

Lemma wc_loop_spec fd : forall k u s, input_ok (pending fd u) -> (length (concat (pending fd u)) < k)%nat ->
  Z.of_nat (length s) + Z.of_nat (length (concat (pending fd u))) < 2147483648 -> cstring (umem u) seps separators ->
  wp (wc_loop buf seps k fd (count s)) (fun r u' => r = Some (count (s ++ concat (pending fd u))) /\
    uout u' = uout u /\ apart (umem u) buf (buf + CATBUF) (umem u')) u.
Proof.
  induction k as [|k IH]; intros u s Hi Hk Hlen Hs; [lia|]. cbn [wc_loop]. wp_step. apply wpx_read.
  destruct (pending fd u) as [|c cs] eqn:Hp.
  - cbn [take_piece length]. change (0 <? Z.of_nat 0) with false. change (Z.of_nat 0 <? 0) with false. wp_steps.
    split_and!; [by rewrite app_nil_r|done|apply apart_stbytes; cbn; unfold CATBUF; lia].
  - pose proof (take_piece_spec (Z.to_nat CATBUF) c cs ltac:(unfold CATBUF; lia) Hi) as Ht.
    destruct (take_piece _ (c :: cs)) as [l cs']. destruct Ht as (Hl & Hll & Hcat & Hi' & Hb).
    assert (length l <= 512)%nat as H512 by (rewrite Hl, length_take; unfold CATBUF; lia).
    pose proof (f_equal length Hcat) as Hc2. rewrite length_app in Hc2. rewrite <- Hcat in *.
    rewrite (proj2 (Z.ltb_lt 0 (Z.of_nat (length l)))) by lia. unfold ulift.
    assert (apart (umem u) buf (buf + CATBUF) (stbytes (umem u) buf l)) as Ha1 by (apply apart_stbytes; unfold CATBUF; lia).
    assert (cstring (stbytes (umem u) buf l) seps separators) as Hs1 by (by eapply apart_string).
    wp_steps. unfold after_read at 1. cbn [umem set_umem]. rewrite Nat2Z.id, wc_bytes_spec by (done || lia). rewrite Z.add_0_r, ldbytes_stbytes by done.
    wp_steps. set (u1 := after_read fd buf l cs' u). assert (pending fd u1 = cs') as Hp1 by apply pending_after.
    eapply wpx_mono; [apply (IH u1 (s ++ l)); rewrite ?Hp1; [done|lia|rewrite length_app; lia|done]| |done].
    cbn beta. intros r u' (-> & Ho & Ha). rewrite Hp1, <- (assoc_L (++)). split_and!; [done..|]. by eapply apart_both.
Qed.

End wc_spec.

(** ** fmtname *)

Lemma last_slash_spec m path pre e :
  ldbytes m path (length (pre ++ e)) = pre ++ e -> SLASH ∉ e -> (pre = [] \/ last pre = Some SLASH) ->
  forall k, (length pre <= k <= length (pre ++ e))%nat -> (k = length (pre ++ e) -> ld8 m (path + Z.of_nat k) <> SLASH) ->
  last_slash m path k = path + Z.of_nat (length pre) - 1.
Proof.
  intros Hl He Hpre. assert (forall k b, (pre ++ e) !! k = Some b -> ld8 m (path + Z.of_nat k) = b) as Hb.
  { intros k b Hk. pose proof (lookup_lt_Some _ _ _ Hk) as Hlt. rewrite <- Hl in Hk. rewrite lookup_ldbytes in Hk by lia. by injection Hk. }
  assert (forall k, (length pre <= k < length (pre ++ e))%nat -> ld8 m (path + Z.of_nat k) <> SLASH) as Hno.
  { intros k Hk. destruct (lookup_lt_is_Some_2 (pre ++ e) k ltac:(lia)) as [b Hkb]. rewrite (Hb k b Hkb). intros ->.
    rewrite lookup_app_r in Hkb by lia. apply He. by eapply list_elem_of_lookup_2. }
  induction k as [|k IH]; intros Hk Hend; cbn [last_slash].
  - rewrite (proj2 (Z.eqb_neq _ _)); [lia|]. destruct (decide (0 = length (pre ++ e))%nat); [by apply Hend|apply Hno; lia].
  - rewrite (proj2 (Z.eqb_neq _ _)).
    2:{ destruct (decide (S k = length (pre ++ e))%nat); [by apply Hend|apply Hno; lia]. }
    destruct (decide (length pre = S k)) as [Heq|Hne]; [|apply IH; lia].
    destruct Hpre as [->|Hlast]; [done|]. rewrite last_lookup, Heq in Hlast. cbn [pred] in Hlast.
    assert (ld8 m (path + Z.of_nat k) = SLASH) as Hsl by (apply Hb; rewrite lookup_app_l by lia; done).
    destruct k; cbn [last_slash]; rewrite Hsl, Z.eqb_refl; lia.
Qed.

(** * Theorems *)

(** cat writes to its output exactly the bytes of its input, in order, in
    whatever pieces they arrive, as long as its writes are taken; it touches no
    memory but its buffer. *)
Theorem cat_copies {W : WriteCall} buf f_write f_read fd u :
  WriteOk -> input_ok (pending fd u) ->
  wp (cat buf f_write f_read fd) (fun go u' => go = true /\
    uout u' = uout u ++ map (pair 1) (concat (pending fd u)) /\ apart (umem u) buf (buf + CATBUF) (umem u') /\
    pending fd u' = [] /\ forall fd', fd' <> fd -> pending fd' u' = pending fd' u) u.
Proof. intros HW Hi. unfold cat. wp_steps. apply (@cat_loop_spec W HW); [done|]. unfold pending. lia. Qed.

(** A write that is not taken whole ends cat with its message. *)
Theorem cat_write_error {W : WriteCall} buf f_write f_read fd u f c cs n u1 :
  pending fd u = c :: cs -> input_ok (c :: cs) ->
  let l := take 512 c in
  uwrite 1 buf (Z.of_nat (length l)) (let (l, cs') := take_piece 512 (c :: cs) in after_read fd buf l cs' u) = Ret n u1 ->
  n <> Z.of_nat (length l) -> cstring (umem u1) f_write f -> Forall (fun c => c <> 37) f ->
  cat buf f_write f_read fd u = Ret false (emit 1 f u1).
Proof.
  intros Hp Hi l Hw Hn Hf H37. assert (formats (umem u1) f [] f) as Hfm.
  { clear -H37. induction H37; constructor; done. }
  assert (wp (cat buf f_write f_read fd) (fun go u' => go = false /\ u' = emit 1 f u1) u) as H.
  { unfold cat. wp_steps. cbn [cat_loop]. wp_step. apply wpx_read. rewrite Hp. change (Z.to_nat CATBUF) with 512%nat.
    pose proof (take_piece_spec 512 c cs ltac:(lia) Hi) as Ht. destruct (take_piece 512 (c :: cs)) as [l' cs'].
    destruct Ht as (-> & Hll & _). fold l in Hll |- *. rewrite (proj2 (Z.ltb_lt 0 (Z.of_nat (length l)))) by lia. wp_step.
    unfold wpx at 1. fold l in Hw. rewrite Hw. cbn beta iota. rewrite (proj2 (Z.eqb_neq _ _) Hn). cbn [negb]. wp_step.
    unfold wpx at 1. rewrite (printf_run 1 f_write f [] f u1 Hf Hfm). cbn beta iota. by wp_steps. }
  unfold wpx in H. destruct (cat _ _ _ _ u); try done. by destruct H as [-> ->].
Qed.

(** C39: wc counts.  For an input of less than 2^31 bytes, in whatever pieces it
    arrives, wc prints the number of its newlines, of its words (the maximal
    runs of characters other than blank, tab, newline, return and vertical tab)
    and of its bytes, in decimal, and its name. *)
Theorem wc_counts buf seps f_read f_out fd name nm u :
  0 < seps -> (seps + 5 < buf \/ buf + CATBUF <= seps) -> cstring (umem u) seps separators ->
  (f_out + 12 < buf \/ buf + CATBUF <= f_out) -> cstring (umem u) f_out [37; 100; 32; 37; 100; 32; 37; 100; 32; 37; 115; 10] ->
  0 < name -> (name + Z.of_nat (length nm) < buf \/ buf + CATBUF <= name) -> cstring (umem u) name nm ->
  input_ok (pending fd u) -> let s := concat (pending fd u) in Z.of_nat (length s) < 2147483648 ->
  wp (wc buf seps f_read f_out fd name) (fun go u' => go = true /\ apart (umem u) buf (buf + CATBUF) (umem u') /\
    uout u' = uout u ++ map (pair 1) (signed_dec digits (Z.of_nat (newlines s)) ++ [32] ++
      signed_dec digits (Z.of_nat (length (words s))) ++ [32] ++ signed_dec digits (Z.of_nat (length s)) ++ [32] ++ nm ++ [10])) u.
Proof.
  intros Hs0 Hsa Hs Hfa Hf Hn0 Hna Hnm Hi s Hlen. unfold wc. wp_step. apply wpx_gets. fold (pending fd u). wp_step.
  eapply wpx_mono; [apply (wc_loop_spec buf seps Hs0 Hsa fd (S (length s)) u [] Hi); [unfold s; lia|done|done]| |done].
  cbn beta. cbn [app]. intros r u' (-> & Ho & Ha). fold s. wp_step. unfold wpx at 1.
  destruct (wc_count_spec s) as (H1 & H2 & H3). destruct (count_bounds s) as (B1 & B2 & _).
  rewrite H1, H2, H3. rewrite H1 in B1. rewrite H2 in B2.
  rewrite (printf_run 1 f_out [37; 100; 32; 37; 100; 32; 37; 100; 32; 37; 115; 10] _
    (signed_dec digits (Z.of_nat (newlines s)) ++ [32] ++ signed_dec digits (Z.of_nat (length (words s))) ++ [32] ++
     signed_dec digits (Z.of_nat (length s)) ++ [32] ++ nm ++ [10])).
  - cbn beta iota. wp_steps. unfold emit. cbn. rewrite Ho. done.
  - by eapply apart_string.
  - rewrite <- (s32_small (Z.of_nat (newlines s))) at 2 by lia. rewrite <- (s32_small (Z.of_nat (length (words s)))) at 2 by lia.
    rewrite <- (s32_small (Z.of_nat (length s))) at 2 by lia. cbn [app].
    repeat first [apply fm_d | apply fm_char; [discriminate|] | apply fm_end | apply fm_s].
    unfold points_to. rewrite (proj2 (Z.eqb_neq name 0)) by lia. by eapply apart_string.
Qed.

(** The arguments with blanks between them, and a newline. *)
Fixpoint joined (ss : list bytes) : bytes :=
  match ss with
  | [] => []
  | s :: ss => s ++ (match ss with [] => [10] | _ => [32] end) ++ joined ss
  end.

(** echo prints its arguments with a blank between them and a newline at the
    end. *)
Theorem echo_prints f_ss space newline args ss u :
  cstring (umem u) f_ss [37; 115; 37; 115] -> 0 < space -> cstring (umem u) space [32] -> 0 < newline -> cstring (umem u) newline [10] ->
  Forall2 (fun a s => 0 < a /\ cstring (umem u) a s) args ss ->
  echo_main f_ss space newline args u = Ret tt (emit 1 (joined ss) u).
Proof.
  intros Hf Hsp Hs Hnp Hn Ha. revert u Hf Hs Hn Ha. revert ss. induction args as [|a args IH]; intros ss u Hf Hs Hn Ha.
  - inversion Ha; subst. cbn [echo_main joined]. unfold ret. by rewrite emit_nil.
  - inversion Ha as [|? s ? ss' [Ha0 Has] Hrest]; subst. cbn [echo_main joined]. unfold bind.
    rewrite (printf_run 1 f_ss [37; 115; 37; 115] _ (s ++ (match ss' with [] => [10] | _ => [32] end) ++ [])); [|done|].
    + rewrite (IH ss'); [|done..]. rewrite emit_app, app_nil_r, <- (assoc_L (++)). done.
    + apply fm_s; [unfold points_to; rewrite (proj2 (Z.eqb_neq a 0)) by lia; done|]. apply fm_s; [|constructor].
      inversion Hrest; subst; unfold points_to; rewrite (proj2 (Z.eqb_neq _ 0)) by lia; done.
Qed.

(** fmtname returns the last element of a path: itself when it has 14 characters
    or more, and otherwise filled with blanks to 14 in the static buffer. *)
Theorem fmtname_pads fbuf path pre e u :
  cstring (umem u) path (pre ++ e) -> SLASH ∉ e -> (pre = [] \/ last pre = Some SLASH) ->
  (path + Z.of_nat (length (pre ++ e)) < fbuf \/ fbuf + DIRSIZ <= path) ->
  wp (fmtname fbuf path) (fun p u' =>
    if DIRSIZ <=? Z.of_nat (length e) then p = path + Z.of_nat (length pre) /\ u' = u
    else p = fbuf /\ ldbytes (umem u') fbuf 14 = e ++ replicate (14 - length e) BLANK /\
      apart (umem u) fbuf (fbuf + DIRSIZ) (umem u') /\ uout u' = uout u) u.
Proof.
  intros Hs He Hpre Hap. pose proof Hs as (Hl & _ & Hend). destruct (cstring_app _ _ _ _ Hs) as [_ Hse].
  pose proof (cstring_str _ _ _ Hse) as Hstr. pose proof Hse as (Hle & _). rewrite length_app in Hap.
  unfold fmtname, ulift. wp_steps. rewrite (strlen_spec _ _ _ Hs). wp_steps. rewrite Nat2Z.id.
  rewrite (last_slash_spec _ _ pre e Hl He Hpre) by (done || (rewrite length_app; lia) || (intros _; rewrite Hend; discriminate)).
  replace (path + Z.of_nat (length pre) - 1 + 1) with (path + Z.of_nat (length pre)) by lia.
  rewrite (strlen_spec _ _ _ Hse). wp_steps. destruct (Z.leb_spec DIRSIZ (Z.of_nat (length e))) as [|Hlt]; wp_steps; [done|].
  cbn [umem set_umem set_uin uout]. unfold DIRSIZ in *.
  assert (forall b, ld8 (memset (memmove (umem u) fbuf (path + Z.of_nat (length pre)) (Z.of_nat (length e)))
    (fbuf + Z.of_nat (length e)) BLANK (14 - Z.of_nat (length e))) b =
    if (fbuf <=? b) && (b <? fbuf + 14) then (if b <? fbuf + Z.of_nat (length e) then ld8 (umem u) (path + Z.of_nat (length pre) + (b - fbuf)) else BLANK)
    else ld8 (umem u) b) as Hm.
  { intros b. unfold memset, memmove. rewrite ld8_stosb, ld8_copy_up by lia. rewrite Z2Nat.id, Nat2Z.id by lia. zcases; done || lia. }
  split_and!; [done| | |done].
  - apply list_eq. intros i. destruct (decide (i < 14)%nat) as [Hi|Hi].
    2:{ rewrite !lookup_ge_None_2; rewrite ?length_ldbytes, ?length_app, ?length_replicate; [done|lia..]. }
    rewrite lookup_ldbytes by done. rewrite Hm. rewrite (proj2 (Z.leb_le _ _)), (proj2 (Z.ltb_lt _ (fbuf + 14))) by lia. cbn [andb].
    destruct (Z.ltb_spec (fbuf + Z.of_nat i) (fbuf + Z.of_nat (length e))) as [Hie|Hie].
    + rewrite lookup_app_l by lia.
      transitivity (ldbytes (umem u) (path + Z.of_nat (length pre)) (length e) !! i); [|by rewrite Hle].
      rewrite lookup_ldbytes by lia. do 3 f_equal. lia.
    + rewrite lookup_app_r, lookup_replicate_2 by lia. done.
  - intros b Hb. rewrite Hm. by zcases; try lia.
Qed.

(** ** Witnesses and runs *)

Definition take_all : WriteCall := {| uwrite := fun fd a n u => Ret n (emit fd (ldbytes (umem u) a (Z.to_nat n)) u) |}.

(** The separators at 100, the format at 200, the name x at 300. *)
Definition wc_demo : user := mkUser
  (stbytes (stbytes (stbytes ∅ 100 (separators ++ [0])) 200 [37; 100; 32; 37; 100; 32; 37; 100; 32; 37; 115; 10; 0]) 300 [120; 0])
  {[3 := [[97; 98; 32; 99]; [100; 10; 9; 101]]]} [].

Lemma wc_counts_witness : wp (wc 1000 100 0 200 3 300) (fun go u' => go = true /\ apart (umem wc_demo) 1000 (1000 + CATBUF) (umem u') /\
  uout u' = uout wc_demo ++ map (pair 1) (signed_dec digits 1 ++ [32] ++ signed_dec digits 3 ++ [32] ++ signed_dec digits 8 ++ [32] ++ [120] ++ [10])) wc_demo.
Proof.
  apply (wc_counts 1000 100 0 200 3 300 [120] wc_demo).
  - lia.
  - unfold CATBUF. lia.
  - split; [reflexivity|]. split; [repeat constructor; discriminate|reflexivity].
  - unfold CATBUF. lia.
  - split; [reflexivity|]. split; [repeat constructor; discriminate|reflexivity].
  - lia.
  - unfold CATBUF. cbn [length]. lia.
  - split; [reflexivity|]. split; [repeat constructor; discriminate|reflexivity].
  - split; [repeat constructor; discriminate|]. change (Forall is_byte [97; 98; 32; 99; 100; 10; 9; 101]).
    repeat (constructor; [unfold is_byte; lia|]). constructor.
  - reflexivity.
Defined.

Example cat_runs : uout (after (@cat take_all 1000 0 0 3) wc_demo) = map (pair 1) [97; 98; 32; 99; 100; 10; 9; 101].
Proof. vm_compute. reflexivity. Qed.

(** Calls that all succeed. *)
Fixpoint all_ok (call : Z -> M user Z) (l : list Z) : M user bool :=
  match l with
  | [] => ret true
  | a :: l => let! r := call a in if r <? 0 then ret false else all_ok call l
  end.

(** rm and mkdir go on over the arguments whose calls succeed, report the first
    that fails and leave the rest alone. *)
Theorem rm_mkdir_stop {N : NameCalls} f_usage f_fail l a rest u u1 u2 r :
  r < 0 ->
  (all_ok unlink l u = Ret true u1 -> unlink a u1 = Ret r u2 ->
     rm_main f_usage f_fail (l ++ a :: rest) u = printf 2 f_fail [a] u2) /\
  (all_ok mkdir l u = Ret true u1 -> mkdir a u1 = Ret r u2 ->
     mkdir_main f_usage f_fail (l ++ a :: rest) u = printf 2 f_fail [a] u2).
Proof.
  intros Hr. assert (forall (call : Z -> M user Z) (loop : list Z -> M user unit),
    (forall a l, loop (a :: l) = let! r := call a in if r <? 0 then printf 2 f_fail [a] else loop l) ->
    forall l u, all_ok call l u = Ret true u1 -> call a u1 = Ret r u2 -> loop (l ++ a :: rest) u = printf 2 f_fail [a] u2) as H.
  { intros call loop Hstep l0. induction l0 as [|b l0 IH]; intros v Hl Ha.
    - injection Hl as ->. cbn [app]. rewrite Hstep. unfold bind. rewrite Ha, (proj2 (Z.ltb_lt r 0) Hr). done.
    - cbn [app all_ok] in *. rewrite Hstep. unfold bind in *. destruct (call b v) as [rb v'| | |]; try done.
      destruct (rb <? 0); [done|]. by apply IH. }
  split; intros Hl Ha; unfold rm_main, mkdir_main; destruct (l ++ a :: rest) eqn:El; try (by destruct l); rewrite <- El; revert Hl Ha;
    apply H; done.
Qed.

(** A directory of one file: [fstat] answers for the directory first. *)
Definition one_file : FdCalls := {|
  open := fun _ _ => ret 3;
  fstat := fun _ st =>
    let! m := gets umem in
    do! upd_umem (fun m => st32 (st32 (st32 (st8 m st (if ld8 m (st + 20) =? 0 then 1 else 2)) (st + 8) 5) (st + 16) 42) (st + 20) 1) in
    ret 0;
  close := fun _ => ret tt;
|}.

Definition ls_demo : user := mkUser
  (stbytes (stbytes ∅ 100 [100; 0]) 200 [37; 115; 32; 37; 100; 32; 37; 100; 32; 37; 100; 10; 0])
  {[3 := [[5; 0; 120; 121; 0; 0; 0; 0; 0; 0; 0; 0; 0; 0; 0; 0]]]} [].

(** ls on it prints the padded name, the type, the inode and the size. *)
Example ls_runs : uout (after (@ls one_file 3000 1000 2000 2100 0 0 200 0 0 100) ls_demo) =
  map (pair 1) ([120; 121] ++ replicate 12 32 ++ [32; 50; 32; 53; 32; 52; 50; 10]).
Proof. vm_compute. reflexivity. Qed.
